(* ===== verification/_CoqProject ===== *)
-Q . S2P
Prelude.v
Base128.v
Memory.v
Pb.v
PbCommon.v
PbDecode.v
PbDecodeMsg.v
PbEncode.v
Base64.v
Cct.v
Varint.v
EncodeSpec.v
Writer.v
EncodeRefine.v
Samples.v
EncodeProps.v
WireProps.v
Iter.v
Safe.v
Safety.v
SafetyProps.v
Wire.v
DecodeRefine.v
Required.v
DecodeProps.v
Flat.v
Roundtrip.v
Defaults.v
RoundtripProps.v
CctProps.v
Base64Props.v
LdbBase.v
LdbText.v
LdbCoding.v
LdbCrc32c.v
LdbCrcProps.v
LdbFilter.v
LdbKeys.v
LdbKeyProps.v
LdbSkipList.v
LdbSkipProps.v
LdbSkipStates.v
LdbSkipTheorems.v
LdbMemTable.v
LdbMemGet.v
LdbBlock.v
LdbBlockProps.v
LdbBlockBuild.v
LdbVersionEdit.v
LdbEditProps.v
LdbFilterBlock.v
LdbLog.v
LdbIterator.v
LdbTwoLevelProps.v
LdbMerger.v
LdbMergerTheorems.v
LdbFormat.v
LdbLogRead.v
LdbLogTotal.v
LdbTable.v
LdbTableFinish.v
LdbTableTheorems.v
LdbDbIter.v
LdbDbIterProps.v
LdbDbIterTheorems.v
LdbVersion.v
LdbVersionOverlap.v
LdbVersionGet.v
LdbVersionIter.v
LdbVersionSet.v
LdbCompaction.v
LdbCompactionPick.v
LdbBuilderSave.v
LdbEnv.v
LdbRefs.v
LdbManifest.v
LdbManifestProps.v
LdbRecover.v
LdbDbImpl.v
LdbDbProps.v
