(* ===== verification/Prelude.v ===== *)
(** * Verification of the native code under the Kasei application

    The application (src/Kasei/Kasei, Swift) stands on pods of which the C and C++
    parts do the work on bytes: nanopb encodes and decodes the messages of the data
    transport and of the diagnostics, the web socket of the realtime database has a
    Base64 routine, and LevelDB is the store of the realtime database. This
    development models these parts and proves what they promise.

    ** Parts, files and code

    Shared ground
    - [Prelude]: machine integers ([u32], [s8], ... are the conversions of C, written
      out), the state monad [M] with the outcomes [Ret] / [Fail] / [Stuck], [loop] and
      its rules, weakest preconditions.
    - [Base128]: what a varint means and the shortest varint of a number; the
      reference for nanopb and for LevelDB.

    nanopb (src/Kasei/Pods/nanopb)
    - [Memory]: the byte-addressed memory the C code runs on, and its allocator.
    - [Pb]: pb.h, pb_decode.h, pb_encode.h: field types, descriptors, the macros that
      fill descriptor tables from the layout of a struct, streams. A stream is a
      Record with the C members; the functions a user may supply (callbacks,
      extension handlers) are members of [env].
    - [PbCommon]: pb_common.c, the field iterator. [PbDecode], [PbDecodeMsg]:
      pb_decode.c. [PbEncode]: pb_encode.c. Each C function is a Definition of its
      name in the monad: [false] is [Fail] (with [errmsg] set in the stream), an
      out-parameter is the result, a loop is [loop].
    - [Varint], [Writer], [Iter], [Safe], [Required]: the lemmas and program logics.
      [EncodeSpec] and [Wire] are the abstract specifications (bytes of a message,
      meaning of bytes); [EncodeRefine], [DecodeRefine] prove that
      the code implements them, [Safety] its behaviour on arbitrary
      input; [Flat], [Roundtrip], [Defaults] connect the two.
    - Results: [EncodeProps], [DecodeProps], [SafetyProps], [WireProps],
      [RoundtripProps].

    Message tables (GoogleDataTransport and FirebaseCoreDiagnostics)
    - [Cct]: cct.nanopb.h/.c and firebasecore.nanopb.h/.c; [Samples]: messages in
      memory; [CctProps]: the tables fit the structs, size bounds.

    Base64 (FirebaseDatabase/.../SocketRocket/fbase64.c)
    - [Base64] the two functions, [Base64Props] what they promise.

    LevelDB (src/Kasei/Pods/leveldb-library)
    - [LdbBase]: slice.h, status.h, status.cc. A slice or std::string is the list of
      its bytes. [LdbCoding]: coding.h/.cc.
    - [LdbCrc32c]: crc32c.h/.cc with its tables; [LdbCrcProps].
    - [LdbFilter]: hash.cc, bloom.cc, filter_block.cc over the class [FilterPolicy];
      [LdbFilterBlock] discharges its laws for Bloom filters and proves
      the filter block for every policy with these laws.
    - [LdbLog]: log_writer.cc, log_reader.cc over the classes [WritableFile] and
      [SequentialFile] of env.h; [LdbLogRead] (what the writer
      writes and what the reader makes of it), [LdbLogTotal] (its theorems).
    - [LdbText]: logging.cc, filename.cc. [LdbKeys]: comparator.h as the class
      [Comparator] with its [ComparatorLaws], the bytewise comparator, dbformat.h/.cc;
      [LdbKeyProps] discharges the laws for the bytewise order and for internal keys
      over any user order, and those of [InternalFilterPolicy].
    - [LdbSkipList]: random.h, skiplist.h over any comparator; nodes are cells with one
      link per level, [Insert] is the sequence of its stores. [LdbSkipProps],
      [LdbSkipStates] (what [Insert] does, the states that a reader can meet between two
      stores), [LdbSkipTheorems].
    - [LdbMemTable]: write_batch.cc, memtable.cc over the skip list; [LdbMemGet].
    - [LdbBlock]: block_builder.cc, block.cc; [LdbBlockProps] (the layout of a block and
      what the iterator does on it), [LdbBlockBuild] (its operations; what the
      builder builds has this layout).
    - [LdbVersionEdit]: version_edit.h/.cc; [LdbEditProps].
    - [LdbIterator]: iterator.h as the class [IteratorOps] with the laws [IteratorLaws],
      iterator_wrapper.h; [walks] and [follows] say what a client sees. [LdbTwoLevelProps]:
      a block's iterator keeps the laws; two_level_iterator.cc over any iterators with
      the laws. [LdbMerger],
      [LdbMergerTheorems]: merger.cc.
    - [LdbFormat]: options.h, format.h/.cc; Snappy is not built in (HAVE_SNAPPY is not
      defined). [LdbTable]: table_builder.cc and table.cc over [WritableFile],
      [RandomAccessFile] and [BlockCache]. [LdbTableFinish] (the invariant of the
      builder, the bytes of a table), [LdbTableTheorems] (what is read of them; tables
      opened without a cache).
    - [LdbDbIter]: db_iter.cc over any internal iterator; [LdbDbIterProps] (the versions of
      user keys and the [view] at a sequence number), [LdbDbIterTheorems] (its
      loops and what a client sees).
    - [LdbVersion]: the class [Version] of version_set.h/.cc: a [FileMetaData*] is its
      address with the members that do not change. [LdbVersionOverlap] ([FindFile],
      ranges, the inputs of compactions, the level for a new table),
      [LdbVersionGet] (reads, over the interface [TableCacheLaws]), [LdbVersionIter] (the
      iterators over a version, composed from the two-level, merging and database
      iterators).
    - [LdbVersionSet]: the class [VersionSet] with its [Builder], its reference counts and
      its memory; [LdbBuilderSave] (one level is saved, edits are applied; what a
      sequence of edits means), [LdbRefs] (who holds which version and file). [LdbCompaction]: the
      class [Compaction] and the choice of compactions; [LdbCompactionPick] (their inputs).
    - [LdbEnv]: the class [Env] of env.h with its laws and files in memory, env.cc. [LdbManifest]:
      the part of [VersionSet] that is on disk, [LogAndApply] and [Recover]; [LdbManifestProps]
      ([LogAndApply] with errors anywhere), [LdbRecover] (what is on disk is found again).
    - [LdbDbImpl]: db_impl.cc/.h, builder.cc, snapshot.h: the class [DBImpl] over the class
      [DbTables] of what it asks of tables; where the mutex is released, a function
      stands for what the other threads do. [LdbDbProps]: what compactions keep and drop.
      From [LdbVersion] on assertions are part of the models: a failing one is [Stuck]. So are
      those on internal keys: [ExtractUserKey], [key_Encode] and with it [edit_EncodeTo] are
      [None] where one fails. The other assertions of the files before are preconditions; a comment with
      the word Asserted marks those that a caller has to see to (the order of the keys of a block, say).

    ** What the theorems show

    - Round trips: a structure through [pb_encode] and [pb_decode] to another one;
      every wire-level writer and its reader; Base64; records through the log.
    - Refinement: [pb_encode] writes the bytes of [EncodeSpec.spec_encode];
      [pb_decode] does to memory what [Wire.put_message] says, in any field order,
      with unknown fields skipped.
    - Safety and termination on arbitrary input: the decoder ends and writes only
      inside the structure; the encoder never leaves its buffer; [f_b64_pton] stays
      in its target; the log reader ends and a log cut short is no corruption.
    - Equivalence with a reference: the strided, table-driven CRC against the bitwise
      one; varints against [Base128].
    - No false negatives of filters; bounds of 32-bit varints and of the sizes the
      generator promises; errors of the varint readers and of the encoder.
    - LevelDB's containers as what they stand for: the skip list is a sorted list, also
      for a reader between the stores of an [Insert] (the memory orders are taken as
      sequentially consistent); a memtable is the list of the updates written to it;
      a block is the sorted list of its entries, forwards, backwards and from any key; a
      table is the list of the entries it was built from, for its iterator and for
      [InternalGet]; a merging iterator is a cursor on its children's entries, in
      any sequence of calls; a database iterator is a cursor on the newest visible values
      of the user keys; [Version::Get] and the iterators over a version agree with the newest
      entry among all its files. A version edit without an empty key survives its encoding
      (with one, the encoder's assertion fails), and its decoder ends on any bytes.
    - LevelDB's version set: the inputs of a compaction are complete; [LogAndApply] installs
      the edited version or, after an error, keeps the old one, with all reference counts
      right; what it wrote is what [Recover] finds; a compaction's
      outputs hold the entries that any snapshot can still see, and reads agree before and after it.
    ** Bounds and fuel

    [loop] cuts a loop off after 2^65 iterations, more than any 64-bit counter can
    make; the theorems show that the code's loops end before. Recursion over nested
    messages takes a depth, and the theorems ask for one that the table's nesting
    allows (or give it from the table); the readers of the log take the number of
    records to ask for. Structural recursion on bytes needs no fuel.

    ** Not modelled

    - User callbacks and extension handlers of nanopb are parameters ([env]); the
      theorems on whole messages are about tables without them.
    - The classes of files, caches and policies in LevelDB are interfaces with the
      documented behaviour as laws; the instances in memory show that the laws hold.
    - LevelDB's threads, environment (env_posix.cc), C binding and tools; what is
      left of LevelDB is listed in the manifest with its reason.
    - Objective-C and Swift code, and generated umbrella headers: not C. *)

From Stdlib Require Import ZArith Lia List String Bool.
From stdpp Require Import base gmap list.

#[global] Open Scope Z_scope.

(** ** Machine integers *)

(** Conversion to a [w]-bit unsigned integer. *)
Definition uwrap (w x : Z) : Z := x mod 2 ^ w.

(** Conversion to a [w]-bit two's complement integer. *)
Definition swrap (w x : Z) : Z := (x + 2 ^ (w - 1)) mod 2 ^ w - 2 ^ (w - 1).

Abbreviation u8 := (uwrap 8).
Abbreviation u16 := (uwrap 16).
Abbreviation u32 := (uwrap 32).
Abbreviation u64 := (uwrap 64).
Abbreviation s8 := (swrap 8).
Abbreviation s16 := (swrap 16).
Abbreviation s32 := (swrap 32).
Abbreviation s64 := (swrap 64).

#[global] Arguments uwrap : simpl never.
#[global] Arguments swrap : simpl never.

(** Bounds, and when a conversion changes nothing. *)
Lemma uwrap_range w x : 0 <= w -> 0 <= uwrap w x < 2 ^ w.
Proof. intros Hw. unfold uwrap. apply Z.mod_pos_bound. lia. Qed.

Lemma uwrap_small w x : 0 <= x < 2 ^ w -> uwrap w x = x.
Proof. apply Z.mod_small. Qed.

Lemma swrap_range w x : 0 < w -> - 2 ^ (w - 1) <= swrap w x < 2 ^ (w - 1).
Proof.
  intros Hw. unfold swrap. assert (E : 2 ^ w = 2 * 2 ^ (w - 1)) by (rewrite <- Z.pow_succ_r by lia; f_equal; lia).
  pose proof (Z.mod_pos_bound (x + 2 ^ (w - 1)) (2 ^ w) ltac:(lia)). lia.
Qed.

Lemma swrap_fits w v : 0 < w -> - 2 ^ (w - 1) <= v < 2 ^ (w - 1) -> swrap w v = v.
Proof.
  intros Hw Hv. unfold swrap.
  assert (E : 2 ^ w = 2 * 2 ^ (w - 1)) by (rewrite <- Z.pow_succ_r by lia; f_equal; lia).
  rewrite Z.mod_small by lia. lia.
Qed.

Lemma swrap_mod w x : 0 < w -> swrap w x mod 2 ^ w = x mod 2 ^ w.
Proof.
  intros Hw. unfold swrap. assert (0 < 2 ^ w) by lia.
  rewrite Zminus_mod_idemp_l. f_equal. lia.
Qed.

(** A byte. *)
Definition byte (v : Z) : Prop := 0 <= v < 256.

(** Bits above [k] and bits below it. *)
Lemma lor_shiftl_add a b k :
  0 <= a < 2 ^ k -> 0 <= k -> Z.lor a (Z.shiftl b k) = a + b * 2 ^ k.
Proof.
  intros Ha Hk. rewrite Z.shiftl_mul_pow2 by lia.
  assert (Hland : Z.land a (b * 2 ^ k) = 0).
  { apply Z.bits_inj'. intros i Hi. rewrite Z.land_spec, Z.bits_0.
    destruct (Z.ltb_spec i k) as [Hlt|Hge].
    - rewrite Z.mul_pow2_bits_low by lia. apply andb_false_r.
    - pose proof (Z.pow_le_mono_r 2 k i ltac:(lia) ltac:(lia)).
      assert (Z.testbit a i = false) as ->; [|done].
      apply Z.testbit_false; [lia|]. by rewrite Z.div_small by lia. }
  rewrite <- Z.lxor_lor by done. by rewrite <- Z.add_nocarry_lxor.
Qed.

Lemma lor_uwrap w r y : 0 <= w -> 0 <= r < 2 ^ w -> Z.lor r (uwrap w y) = uwrap w (Z.lor r y).
Proof.
  intros Hw Hr. unfold uwrap. rewrite <- !Z.land_ones by lia.
  rewrite Z.land_lor_distr_l. f_equal. rewrite Z.land_ones, Z.mod_small by lia. done.
Qed.

Lemma filter_all {A} (P : A -> Prop) {dec : forall x, Decision (P x)} l : Forall P l -> filter P l = l.
Proof. induction 1 as [|x l Hx _ IH]; [done|]. by rewrite filter_cons_True, IH. Qed.

Lemma filter_nothing {A} (P : A -> Prop) {dec : forall x, Decision (P x)} l : Forall (fun x => ~ P x) l -> filter P l = [].
Proof. induction 1 as [|x l Hx _ IH]; [done|]. by rewrite filter_cons_False. Qed.

Lemma filter_same {A} (P Q : A -> Prop) {dP : forall x, Decision (P x)} {dQ : forall x, Decision (Q x)} (l : list A) :
  (forall x, x ∈ l -> P x <-> Q x) -> filter P l = filter Q l.
Proof.
  induction l as [|x l IH]; intros H; [done|]. rewrite !filter_cons. pose proof (H x ltac:(apply list_elem_of_here)) as Hx.
  rewrite IH by (intros y Hy; apply H, elem_of_cons; by right). repeat case_decide; tauto.
Qed.

(** ** Computations

    A C function that returns [bool] and updates state through pointers is a
    state transformer: [Ret a] is a [true] return with out-parameters [a],
    [Fail] a [false] return (the state keeps every update made before it), and
    [Stuck] an execution the model gives no meaning to: a call through a null
    function pointer, an invalid [free], or a recursion or loop that is cut off. *)
Inductive outcome (A : Type) : Type :=
  | Ret (a : A)
  | Fail
  | Stuck.
Arguments Ret {A} a.
Arguments Fail {A}.
Arguments Stuck {A}.

Definition M (S A : Type) : Type := S -> outcome A * S.

Definition ret {S A} (a : A) : M S A := fun s => (Ret a, s).
Definition fail {S A} : M S A := fun s => (Fail, s).
Definition stuck {S A} : M S A := fun s => (Stuck, s).

Definition bind {S A B} (m : M S A) (k : A -> M S B) : M S B := fun s =>
  match m s with
  | (Ret a, s') => k a s'
  | (Fail, s') => (Fail, s')
  | (Stuck, s') => (Stuck, s')
  end.

Definition get {S} : M S S := fun s => (Ret s, s).
Definition put {S} (s : S) : M S unit := fun _ => (Ret tt, s).
Definition modify {S} (f : S -> S) : M S unit := fun s => (Ret tt, f s).
Definition gets {S A} (f : S -> A) : M S A := fun s => (Ret (f s), s).

(** [attempt m] is [status = m();]: the failure becomes a value. *)
Definition attempt {S A} (m : M S A) : M S (option A) := fun s =>
  match m s with
  | (Ret a, s') => (Ret (Some a), s')
  | (Fail, s') => (Ret None, s')
  | (Stuck, s') => (Stuck, s')
  end.

(** A partial function; [None] is undefined behaviour. *)
Definition or_stuck {S A} (r : option A) : M S A := match r with Some a => ret a | None => stuck end.

(** [assert(c)]; a failing one ends the program. *)
Definition asserted {S} (c : bool) : M S unit := if c then ret tt else stuck.

(** A computation on a part of the state. *)
Definition zoom {S T A} (g : S -> T) (p : T -> S -> S) (m : M T A) : M S A := fun s =>
  let '(r, t) := m (g s) in (r, p t s).

Declare Scope pb_scope.
Delimit Scope pb_scope with pb.
Notation "x <- m ;; k" := (bind m (fun x => k))
  (at level 100, m at next level, right associativity) : pb_scope.
Notation "m ;; k" := (bind m (fun _ => k))
  (at level 100, right associativity) : pb_scope.
#[global] Open Scope pb_scope.

(** ** Loops

    [loop body a] runs [body] from the locals [a] until it returns [inr]. Its
    bound of 2^65 iterations is a doubling, so an early exit costs nothing, and
    it exceeds every counter of the code (a [size_t] has 64 bits). *)
Fixpoint iter2 {S A B} (n : nat) (body : A -> M S (A + B)) (a : A) : M S (A + B) :=
  match n with
  | O => body a
  | S n' =>
      r <- iter2 n' body a ;;
      match r with
      | inl a' => iter2 n' body a'
      | inr b => ret (inr b)
      end
  end.

Definition loop_depth : nat := 65.

Definition loop {S A B} (body : A -> M S (A + B)) (a : A) : M S B :=
  r <- iter2 loop_depth body a ;;
  match r with
  | inl _ => stuck
  | inr b => ret b
  end.

(** A loop over a list, and one that updates a local. *)
Fixpoint for_each {S A} (l : list A) (body : A -> M S unit) : M S unit :=
  match l with
  | [] => ret tt
  | a :: l' => body a ;; for_each l' body
  end.

Fixpoint fold_m {S A B} (body : A -> B -> M S A) (l : list B) (a : A) : M S A :=
  match l with
  | [] => ret a
  | b :: l' => a' <- body a b ;; fold_m body l' a'
  end.

(** [lia] with [/] and [mod] by constants. *)
Ltac zlia := Z.div_mod_to_equations; lia.

(** Execute the monad's operations. *)
Ltac exec := cbv beta iota zeta delta [bind ret fail stuck get gets put modify attempt zoom].

(** ** Weakest preconditions

    [wp m Q E s]: from [s], [m] is not stuck; a [true] return satisfies [Q], a
    [false] return satisfies [E]. *)
Definition wp {S A} (m : M S A) (Q : A -> S -> Prop) (E : S -> Prop) (s : S) : Prop :=
  match m s with
  | (Ret a, s') => Q a s'
  | (Fail, s') => E s'
  | (Stuck, _) => False
  end.

Section Run.
Context {S : Type}.

Lemma bind_Ret {A B} (m : M S A) (k : A -> M S B) s a s' :
  m s = (Ret a, s') -> bind m k s = k a s'.
Proof. intros Hm. unfold bind. by rewrite Hm. Qed.

Lemma bind_Ret_inv {A B} (m : M S A) (k : A -> M S B) s b s'' :
  bind m k s = (Ret b, s'') -> exists a s', m s = (Ret a, s') /\ k a s' = (Ret b, s'').
Proof. unfold bind. destruct (m s) as [[a| |] s']; [by exists a, s'|discriminate 1|discriminate 1]. Qed.

Lemma bind_Fail {A B} (m : M S A) (k : A -> M S B) s s' :
  m s = (Fail, s') -> bind m k s = (Fail, s').
Proof. intros Hm. unfold bind. by rewrite Hm. Qed.

Lemma attempt_Ret {A} (m : M S A) s a s' :
  m s = (Ret a, s') -> attempt m s = (Ret (Some a), s').
Proof. intros Hm. unfold attempt. by rewrite Hm. Qed.

Lemma attempt_Fail {A} (m : M S A) s s' :
  m s = (Fail, s') -> attempt m s = (Ret None, s').
Proof. intros Hm. unfold attempt. by rewrite Hm. Qed.

Lemma bind_get {B} (k : S -> M S B) s : bind get k s = k s s.
Proof. done. Qed.

Lemma bind_gets {A B} (f : S -> A) (k : A -> M S B) s : bind (gets f) k s = k (f s) s.
Proof. done. Qed.

Lemma bind_modify {B} (f : S -> S) (k : unit -> M S B) s : bind (modify f) k s = k tt (f s).
Proof. done. Qed.

Lemma bind_ret {A B} (a : A) (k : A -> M S B) s : bind (ret a) k s = k a s.
Proof. done. Qed.

Lemma bind_assoc {A B C} (m : M S A) (f : A -> M S B) (g : B -> M S C) s :
  bind (bind m f) g s = bind m (fun a => bind (f a) g) s.
Proof. unfold bind. by destruct (m s) as [[a| |] s']. Qed.
End Run.

Create Rewrite HintDb run.
#[export] Hint Rewrite @bind_get @bind_gets @bind_modify @bind_ret @bind_assoc : run.

(** Run the operations on the state, then decide the branches. *)
Ltac run := autorewrite with run; cbv beta iota zeta.

Section WpRules.
Context {S : Type}.

Lemma wp_ret {A} (a : A) (Q : A -> S -> Prop) E s : Q a s -> wp (ret a) Q E s.
Proof. done. Qed.

Lemma wp_fail {A} (Q : A -> S -> Prop) (E : S -> Prop) s : E s -> wp fail Q E s.
Proof. done. Qed.

Lemma wp_bind {A B} (m : M S A) (k : A -> M S B) Q E s :
  wp m (fun a s' => wp (k a) Q E s') E s -> wp (bind m k) Q E s.
Proof. unfold wp, bind. destruct (m s) as [[a| |] s']; done. Qed.

Lemma wp_bind_inv {A B} (m : M S A) (k : A -> M S B) Q E s :
  wp (bind m k) Q E s -> wp m (fun a s' => wp (k a) Q E s') E s.
Proof. unfold wp, bind. destruct (m s) as [[a| |] s']; done. Qed.

Lemma wp_mono {A} (m : M S A) (Q Q' : A -> S -> Prop) (E E' : S -> Prop) s :
  wp m Q E s ->
  (forall a s', Q a s' -> Q' a s') ->
  (forall s', E s' -> E' s') ->
  wp m Q' E' s.
Proof. unfold wp. destruct (m s) as [[a| |] s']; auto. Qed.

(** A computation whose result and final state are known. *)
Lemma wp_eq {A} (m : M S A) s v s' :
  wp m (fun a t => a = v /\ t = s') (fun _ => False) s -> m s = (Ret v, s').
Proof. unfold wp. destruct (m s) as [[a| |] t]; [|done|done]. by intros [-> ->]. Qed.

(** A computation that always returns. *)
Lemma wp_Ret {A} (m : M S A) s (Q : A -> S -> Prop) :
  wp m Q (fun _ => False) s -> exists a s', m s = (Ret a, s') /\ Q a s'.
Proof. unfold wp. destruct (m s) as [[a| |] t]; [by exists a, t|done|done]. Qed.

Lemma wp_Fail {A} (m : M S A) s :
  wp m (fun _ _ => False) (fun _ => True) s -> exists s', m s = (Fail, s').
Proof. unfold wp. destruct (m s) as [[a| |] t]; [done|by exists t|done]. Qed.

Lemma wp_Fail_with {A} (m : M S A) (E : S -> Prop) s :
  wp m (fun _ _ => False) E s -> exists s', m s = (Fail, s') /\ E s'.
Proof. unfold wp. destruct (m s) as [[a| |] t]; [done|by exists t|done]. Qed.

Lemma wp_of_eq {A} (m : M S A) s v s' (Q : A -> S -> Prop) E :
  m s = (Ret v, s') -> Q v s' -> wp m Q E s.
Proof. unfold wp. by intros ->. Qed.

Lemma wp_get (Q : S -> S -> Prop) E s : Q s s -> wp get Q E s.
Proof. done. Qed.

Lemma wp_gets {A} (f : S -> A) (Q : A -> S -> Prop) E s : Q (f s) s -> wp (gets f) Q E s.
Proof. done. Qed.

Lemma wp_modify (f : S -> S) (Q : unit -> S -> Prop) E s : Q tt (f s) -> wp (modify f) Q E s.
Proof. done. Qed.

Lemma wp_attempt {A} (m : M S A) (Q : option A -> S -> Prop) E s :
  wp m (fun a s' => Q (Some a) s') (fun s' => Q None s') s -> wp (attempt m) Q E s.
Proof. unfold wp, attempt. destruct (m s) as [[a| |] s']; done. Qed.

Lemma wp_zoom {T A} (g : S -> T) (p : T -> S -> S) (m : M T A) Q E s :
  wp m (fun a t => Q a (p t s)) (fun t => E (p t s)) (g s) -> wp (zoom g p m) Q E s.
Proof. unfold wp, zoom. destruct (m (g s)) as [[a| |] t]; done. Qed.

(** A loop whose measure falls below 2^65 ends. *)
Lemma wp_iter2 {A B} (body : A -> M S (A + B)) (I : A -> S -> Prop) (mu : A -> S -> Z)
    (Q : B -> S -> Prop) E :
  (forall a s, I a s ->
     0 <= mu a s /\
     wp (body a) (fun r s' => match r with
                              | inl a' => I a' s' /\ mu a' s' < mu a s
                              | inr b => Q b s'
                              end) E s) ->
  forall n a s, I a s ->
    wp (iter2 n body a) (fun r s' => match r with
                                     | inl a' => I a' s' /\ mu a' s' <= mu a s - 2 ^ Z.of_nat n
                                     | inr b => Q b s'
                                     end) E s.
Proof.
  intros Hbody n. induction n as [|n IH]; intros a s HI.
  - destruct (Hbody a s HI) as [_ Hw]. eapply wp_mono; [exact Hw| |done].
    intros [a'|b] s'; cbn; [intros [? ?]; split; [done|lia]|done].
  - cbn [iter2]. apply wp_bind. eapply wp_mono; [exact (IH a s HI)| |done].
    intros [a'|b] s'; [|done]. intros [HI' Hmu].
    eapply wp_mono; [exact (IH a' s' HI')| |done].
    intros [a''|b] s''; [|done]. intros [HI'' Hmu']. split; [done|].
    rewrite Nat2Z.inj_succ, Z.pow_succ_r by lia. lia.
Qed.

Lemma wp_loop {A B} (body : A -> M S (A + B)) (I : A -> S -> Prop) (mu : A -> S -> Z)
    (Q : B -> S -> Prop) E a s :
  (forall a s, I a s ->
     0 <= mu a s /\
     wp (body a) (fun r s' => match r with
                              | inl a' => I a' s' /\ mu a' s' < mu a s
                              | inr b => Q b s'
                              end) E s) ->
  I a s -> mu a s < 2 ^ 65 -> wp (loop body a) Q E s.
Proof.
  intros Hbody HI Hmu. unfold loop. apply wp_bind.
  eapply wp_mono; [exact (wp_iter2 body I mu Q E Hbody loop_depth a s HI)| |done].
  intros [a'|b] s'; [|done]. intros [HI' Hle].
  destruct (Hbody a' s' HI') as [Hpos _].
  change (2 ^ Z.of_nat loop_depth) with (2 ^ 65) in Hle. lia.
Qed.

Lemma wp_asserted (c : bool) (Q : unit -> S -> Prop) E s : c = true -> Q tt s -> wp (asserted c) Q E s.
Proof. by intros ->. Qed.

Lemma wp_or_stuck {A} (r : option A) (Q : A -> S -> Prop) E s : (exists a, r = Some a /\ Q a s) -> wp (or_stuck r) Q E s.
Proof. by intros (a & -> & H). Qed.

(** A loop over a list: the invariant is on the elements it has gone through. *)
Lemma wp_fold_m {A B} (body : A -> B -> M S A) (I : list B -> A -> S -> Prop) E l a s :
  (forall pre b post a s, l = pre ++ b :: post -> I pre a s -> wp (body a b) (I (pre ++ [b])) E s) ->
  I [] a s -> wp (fold_m body l a) (I l) E s.
Proof.
  intros Hbody. assert (H : forall post pre a s, l = pre ++ post -> I pre a s -> wp (fold_m body post a) (I l) E s).
  { induction post as [|b post IH]; intros pre a' s' El HI; cbn [fold_m].
    - rewrite app_nil_r in El. subst pre. by apply wp_ret.
    - apply wp_bind. eapply wp_mono; [exact (Hbody _ _ _ _ _ El HI)| |done]. intros a'' s'' HI'. apply (IH (pre ++ [b])); [|done]. by rewrite <- app_assoc. }
  exact (H l [] a s eq_refl).
Qed.

Lemma wp_for_each {A} (body : A -> M S unit) (I : list A -> S -> Prop) E l s :
  (forall pre b post s, l = pre ++ b :: post -> I pre s -> wp (body b) (fun _ => I (pre ++ [b])) E s) ->
  I [] s -> wp (for_each l body) (fun _ => I l) E s.
Proof.
  intros Hbody. assert (H : forall post pre s, l = pre ++ post -> I pre s -> wp (for_each post body) (fun _ => I l) E s).
  { induction post as [|b post IH]; intros pre s' El HI; cbn [for_each].
    - rewrite app_nil_r in El. subst pre. by apply wp_ret.
    - apply wp_bind. eapply wp_mono; [exact (Hbody _ _ _ _ El HI)| |done]. intros [] s'' HI'. apply (IH (pre ++ [b])); [|done]. by rewrite <- app_assoc. }
  exact (H l [] s eq_refl).
Qed.

(** One unfolding of a loop. *)
Lemma iter2_step {A B} (body : A -> M S (A + B)) n a s :
  iter2 n body a s =
    match n with
    | O => body a s
    | Datatypes.S n' =>
        match iter2 n' body a s with
        | (Ret (inl a'), s') => iter2 n' body a' s'
        | (Ret (inr b), s') => (Ret (inr b), s')
        | (Fail, s') => (Fail, s')
        | (Stuck, s') => (Stuck, s')
        end
    end.
Proof.
  destruct n; [done|]. cbn [iter2]. unfold bind.
  destruct (iter2 n body a s) as [[[a'|b]| |] s']; done.
Qed.
End WpRules.

(** ** Bounded iteration *)

(** The loop as a structural recursion; a long enough one is the loop. *)
Fixpoint iterate {S A B} (k : nat) (body : A -> M S (A + B)) (a : A) : M S B :=
  match k with
  | O => stuck
  | Datatypes.S k' =>
      r <- body a ;;
      match r with
      | inl a' => iterate k' body a'
      | inr b => ret b
      end
  end.

Section Iterate.
Context {S A B : Type} (body : A -> M S (A + B)).

Lemma iterate_iter2 n : forall k a s o s',
  iterate k body a s = (o, s') -> o <> Stuck ->
  match iter2 n body a s with
  | (Ret (inl a'), t) => exists k', (Z.of_nat k' <= Z.of_nat k - 2 ^ Z.of_nat n) /\
                           iterate k' body a' t = (o, s')
  | (Ret (inr b), t) => o = Ret b /\ t = s'
  | (Fail, t) => o = Fail /\ t = s'
  | (Stuck, _) => False
  end.
Proof.
  induction n as [|n IH]; intros k a s o s' Hit Ho; rewrite iter2_step.
  - destruct k as [|k]; cbn [iterate] in Hit; [by injection Hit as <- <-|].
    unfold bind in Hit. destruct (body a s) as [[[a'|b]| |] t].
    + exists k. split; [cbn; lia|done].
    + by injection Hit as <- <-.
    + by injection Hit as <- <-.
    + by injection Hit as <- <-.
  - pose proof (IH k a s o s' Hit Ho) as H1.
    destruct (iter2 n body a s) as [[[a'|b]| |] t]; try done.
    destruct H1 as (k' & Hk' & Hit'). pose proof (IH k' a' t o s' Hit' Ho) as H2.
    destruct (iter2 n body a' t) as [[[a''|b]| |] t']; try done.
    destruct H2 as (k'' & Hk'' & Hit''). exists k''. split; [|done].
    rewrite Nat2Z.inj_succ, Z.pow_succ_r by lia. lia.
Qed.

Lemma loop_iterate k a s o s' :
  iterate k body a s = (o, s') -> o <> Stuck -> Z.of_nat k <= 2 ^ 65 ->
  loop body a s = (o, s').
Proof.
  intros Hit Ho Hk. pose proof (iterate_iter2 loop_depth k a s o s' Hit Ho) as H2.
  unfold loop, bind. destruct (iter2 loop_depth body a s) as [[[a'|b]| |] t].
  - destruct H2 as (k' & Hk' & Hit'). change (2 ^ Z.of_nat loop_depth) with (2 ^ 65) in Hk'.
    assert (k' = O) as -> by lia. by injection Hit' as <- <-.
  - by destruct H2 as [-> ->].
  - by destruct H2 as [-> ->].
  - done.
Qed.

(** A loop whose state is related to a count that falls. *)
Lemma wp_loop_count (I : nat -> A -> S -> Prop) (Q : B -> S -> Prop) n a s :
  (forall n a s, I n a s -> wp (body a) (fun r s' => match r with
                                                     | inl a' => exists n', (n' < n)%nat /\ I n' a' s'
                                                     | inr b => Q b s'
                                                     end) (fun _ => False) s) ->
  I n a s -> Z.of_nat n < 2 ^ 65 -> wp (loop body a) Q (fun _ => False) s.
Proof.
  intros Hbody HI Hn. assert (H : forall k n a s, (n < k)%nat -> I n a s -> wp (iterate k body a) Q (fun _ => False) s).
  { intros k. induction k as [|k IH]; intros m a' s' Hm HI'; [lia|]. cbn [iterate]. apply wp_bind. eapply wp_mono; [exact (Hbody m a' s' HI')| |done].
    intros [a''|b] s''; [|done]. intros (m' & Hm' & HI''). apply (IH m'); [lia|done]. }
  destruct (wp_Ret _ _ _ (H (Datatypes.S n) n a s ltac:(lia) HI)) as (b & s' & E & HQ).
  by apply (wp_of_eq _ _ b s'); [apply (loop_iterate _ _ _ _ _ E); [done|lia]|].
Qed.
End Iterate.
