(* ===== verification/Base128.v ===== *)
(** Base-128 varints: what the byte sequences mean, and the shortest sequence of
    a number. The reference of the varints of nanopb and of LevelDB. *)

From Stdlib Require Import ZArith Lia List String Bool.
From stdpp Require Import base gmap list.
From S2P Require Import Prelude.

(** ** Reference definitions *)

(** The number a sequence of 7-bit groups stands for, lowest group first. *)
Fixpoint varint_value (l : list Z) : Z :=
  match l with
  | [] => 0
  | b :: l' => Z.land b 0x7F + 128 * varint_value l'
  end.

(** A varint: every byte but the last has its top bit set. *)
Fixpoint is_varint (l : list Z) : Prop :=
  match l with
  | [] => False
  | [b] => 0 <= b < 0x80
  | b :: l' => 0x80 <= b < 0x100 /\ is_varint l'
  end.

(** The shortest varint of [v], of at most [S n] bytes. *)
Fixpoint varint_groups (n : nat) (v : Z) : list Z :=
  if v <? 0x80 then [v]
  else match n with
       | O => [v]
       | S n' => (v mod 128 + 128) :: varint_groups n' (v / 128)
       end.
Definition varint_bytes (v : Z) : list Z := varint_groups 9 v.

(** ** Bits *)

Lemma land_7f b : Z.land b 0x7F = b mod 128.
Proof. exact (Z.land_ones b 7 ltac:(lia)). Qed.

Lemma land_7f_range b : 0 <= Z.land b 0x7F < 128.
Proof. rewrite land_7f. apply Z.mod_pos_bound. lia. Qed.

Lemma land_80 b : 0 <= b < 256 -> Z.land b 0x80 = if b <? 0x80 then 0 else 0x80.
Proof.
  intros Hb. apply Z.bits_inj'. intros i Hi. rewrite Z.land_spec.
  change 0x80 with (2 ^ 7) at 1. rewrite Z.pow2_bits_eqb by lia.
  destruct (Z.eqb_spec 7 i) as [<-|Hne].
  - rewrite andb_true_r. destruct (Z.ltb_spec b 0x80) as [Hlt|Hge].
    + rewrite Z.bits_0, Z.testbit_false by lia. by rewrite Z.div_small by (change (2 ^ 7) with 128; lia).
    + change 0x80 with (2 ^ 7). rewrite Z.pow2_bits_true, Z.testbit_true by lia.
      change (2 ^ 7) with 128. assert (b / 128 = 1) as -> by zlia. done.
  - rewrite andb_false_r. destruct (b <? 0x80); [by rewrite Z.bits_0|].
    change 0x80 with (2 ^ 7). by rewrite Z.pow2_bits_false by lia.
Qed.

Lemma more_bytes b : 0 <= b < 256 -> negb (Z.land b 0x80 =? 0) = (0x80 <=? b).
Proof. intros Hb. rewrite land_80 by done. destruct (Z.ltb_spec b 0x80), (Z.leb_spec 0x80 b); done || lia. Qed.

(** ** Values of byte sequences *)

Lemma varint_value_range l : 0 <= varint_value l < 2 ^ (7 * Z.of_nat (List.length l)).
Proof.
  induction l as [|b l IH]; cbn [varint_value List.length]; [cbn; lia|].
  pose proof (land_7f_range b).
  replace (7 * Z.of_nat (S (List.length l))) with (7 + 7 * Z.of_nat (List.length l)) by lia.
  rewrite Z.pow_add_r by lia. change (2 ^ 7) with 128. lia.
Qed.

Lemma varint_value_app l1 l2 :
  varint_value (l1 ++ l2) = varint_value l1 + 2 ^ (7 * Z.of_nat (List.length l1)) * varint_value l2.
Proof.
  induction l1 as [|b l1 IH]; cbn [varint_value List.length app]; [rewrite Z.mul_0_r, Z.pow_0_r; lia|].
  rewrite IH.
  replace (7 * Z.of_nat (S (List.length l1))) with (7 + 7 * Z.of_nat (List.length l1)) by lia.
  rewrite Z.pow_add_r by lia. change (2 ^ 7) with 128. lia.
Qed.

Lemma is_varint_cons b l :
  is_varint (b :: l) -> 0 <= b < 256 /\ (l = [] <-> b < 0x80) /\ (l <> [] -> is_varint l).
Proof. destruct l as [|c l]; cbn; [intuition (done || lia)|]. intros [? ?]. intuition (done || lia). Qed.

Lemma varint_bytes_spec v :
  0 <= v < 2 ^ 64 ->
  is_varint (varint_bytes v) /\ varint_value (varint_bytes v) = v /\
  (1 <= List.length (varint_bytes v) <= 10)%nat.
Proof.
  assert (Hgen : forall n w, 0 <= w < 2 ^ (7 * Z.of_nat (S n)) ->
    is_varint (varint_groups n w) /\ varint_value (varint_groups n w) = w /\
    (1 <= List.length (varint_groups n w) <= S n)%nat).
  { induction n as [|n IH]; intros w Hw; cbn [varint_groups]; destruct (Z.ltb_spec w 0x80) as [Hlt|Hge].
    - cbn. rewrite land_7f, Z.mod_small by lia. lia.
    - change (2 ^ (7 * Z.of_nat 1)) with 128 in Hw. lia.
    - cbn. rewrite land_7f, Z.mod_small by lia. lia.
    - replace (7 * Z.of_nat (S (S n))) with (7 + 7 * Z.of_nat (S n)) in Hw by lia.
      rewrite Z.pow_add_r in Hw by lia. change (2 ^ 7) with 128 in Hw.
      destruct (IH (w / 128)) as (Hv & Hval & Hlen); [zlia|].
      cbn [varint_value List.length]. rewrite Hval, land_7f. split; [|split; [zlia|lia]].
      destruct (varint_groups n (w / 128)) eqn:E; [cbn in Hlen; lia|].
      split; [zlia|done]. }
  intros Hv. apply (Hgen 9%nat). change (2 ^ (7 * Z.of_nat 10)) with (2 ^ 70). lia.
Qed.

Lemma varint_bytes_min v :
  0x80 <= v < 2 ^ 64 -> 2 ^ (7 * (Z.of_nat (List.length (varint_bytes v)) - 1)) <= v.
Proof.
  assert (Hgen : forall n w, 0x80 <= w ->
    2 ^ (7 * (Z.of_nat (List.length (varint_groups n w)) - 1)) <= w).
  { induction n as [|n IH]; intros w Hw; cbn [varint_groups]; destruct (Z.ltb_spec w 0x80); try lia.
    - cbn. lia.
    - cbn [List.length]. destruct (Z.ltb_spec (w / 128) 0x80) as [Hsmall|Hbig].
      + destruct n; cbn [varint_groups]; destruct (Z.ltb_spec (w / 128) 0x80); try lia; cbn; lia.
      + specialize (IH (w / 128) Hbig).
        assert (1 <= Z.of_nat (List.length (varint_groups n (w / 128)))).
        { destruct n; cbn [varint_groups]; destruct (Z.ltb_spec (w / 128) 0x80); cbn [List.length]; lia. }
        replace (7 * (Z.of_nat (S (List.length (varint_groups n (w / 128)))) - 1))
          with (7 + 7 * (Z.of_nat (List.length (varint_groups n (w / 128))) - 1)) by lia.
        rewrite Z.pow_add_r by lia. change (2 ^ 7) with 128. zlia. }
  intros [Hv _]. by apply Hgen.
Qed.

Lemma land_70 b : 0 <= b < 128 -> (Z.land b 0x70 =? 0) = (b <? 16).
Proof.
  intros Hb. replace (Z.land b 0x70) with (Z.shiftl (b / 16) 4).
  - rewrite Z.shiftl_mul_pow2 by lia. change (2 ^ 4) with 16.
    destruct (Z.ltb_spec b 16), (Z.eqb_spec (b / 16 * 16) 0); done || zlia.
  - assert (Hb' : b = b / 16 * 2 ^ 4 + b mod 16) by (change (2 ^ 4) with 16; zlia).
    apply Z.bits_inj'. intros i Hi. rewrite Z.land_spec.
    change 0x70 with (Z.shiftl 7 4). rewrite !Z.shiftl_spec by lia.
    change 16 with (2 ^ 4). rewrite <- Z.shiftr_div_pow2 by lia.
    destruct (Z.ltb_spec i 4).
    + rewrite (Z.testbit_neg_r _ (i - 4)), (Z.testbit_neg_r 7) by lia. by rewrite andb_false_r.
    + rewrite Z.shiftr_spec by lia. replace (i - 4 + 4) with i by lia.
      change 7 with (Z.ones 3). destruct (Z.ltb_spec (i - 4) 3).
      * rewrite Z.ones_spec_low by lia. by rewrite andb_true_r.
      * rewrite Z.ones_spec_high by lia. rewrite andb_false_r.
        apply Z.testbit_false; [lia|].
        pose proof (Z.pow_le_mono_r 2 7 i ltac:(lia) ltac:(lia)).
        change (2 ^ 7) with 128 in *. by rewrite Z.div_small by lia.
Qed.

Lemma varint_group_wrap_w w r x k :
  0 <= k <= w -> 0 <= r < 2 ^ k ->
  Z.lor r (uwrap w (Z.shiftl x k)) = uwrap w (r + x * 2 ^ k).
Proof.
  intros Hk Hr. pose proof (Z.pow_le_mono_r 2 k w ltac:(lia) ltac:(lia)).
  rewrite lor_uwrap by lia. by rewrite lor_shiftl_add by lia.
Qed.

Lemma varint_group_wrap r x k :
  0 <= k < 64 -> 0 <= r < 2 ^ k ->
  Z.lor r (u64 (Z.shiftl x k)) = u64 (r + x * 2 ^ k).
Proof. intros Hk Hr. apply varint_group_wrap_w; lia. Qed.

Lemma varint_value_split l1 b l2 :
  varint_value (l1 ++ b :: l2) / 2 ^ (7 * Z.of_nat (List.length l1)) =
    Z.land b 0x7F + 128 * varint_value l2.
Proof.
  rewrite varint_value_app. pose proof (varint_value_range l1).
  rewrite Z.mul_comm, Z.div_add, Z.div_small by lia. done.
Qed.
