(* ===== verification/Memory.v ===== *)
(** The C memory the nanopb sources run on: a byte-addressed little-endian
    address space with typed loads and stores, [memset] and [memcpy], and the
    allocator behind [pb_realloc] and [pb_free]. Pointers are addresses, [NULL]
    is 0, a pointer takes 8 bytes (the LP64 targets of the application). *)

From Stdlib Require Import ZArith Lia List.
From stdpp Require Import base gmap list.
From S2P Require Import Prelude.

(** [live] maps the base of each allocated block to its size. *)
Record world : Type := mk_world { mem : gmap Z Z; live : gmap Z Z }.

Definition NULL : Z := 0.
Definition sizeof_pointer : Z := 8.

(** A byte of memory. *)
Definition load_byte (m : gmap Z Z) (a : Z) : Z := u8 (default 0 (m !! a)).
Definition store_byte (m : gmap Z Z) (a v : Z) : gmap Z Z := <[a := u8 v]> m.

(** Unsigned little-endian load and store of [n] bytes. *)
Fixpoint load (m : gmap Z Z) (a : Z) (n : nat) : Z :=
  match n with
  | O => 0
  | S n' => load_byte m a + 256 * load m (a + 1) n'
  end.

Fixpoint store (m : gmap Z Z) (a : Z) (n : nat) (v : Z) : gmap Z Z :=
  match n with
  | O => m
  | S n' => store (store_byte m a v) (a + 1) n' (v / 256)
  end.

(** Sequences of bytes. *)
Fixpoint load_bytes (m : gmap Z Z) (a : Z) (n : nat) : list Z :=
  match n with
  | O => []
  | S n' => load_byte m a :: load_bytes m (a + 1) n'
  end.

Fixpoint store_bytes (m : gmap Z Z) (a : Z) (l : list Z) : gmap Z Z :=
  match l with
  | [] => m
  | v :: l' => store_bytes (store_byte m a v) (a + 1) l'
  end.

#[global] Arguments load_byte : simpl never.
#[global] Arguments store_byte : simpl never.

(** [memset(a, 0, n)] and [memcpy(dst, src, n)]. *)
Definition memzero (m : gmap Z Z) (a n : Z) : gmap Z Z :=
  store_bytes m a (replicate (Z.to_nat n) 0).
Definition memcpy (m : gmap Z Z) (dst src n : Z) : gmap Z Z :=
  store_bytes m dst (load_bytes m src (Z.to_nat n)).

Definition set_mem (f : gmap Z Z -> gmap Z Z) (w : world) : world :=
  mk_world (f (mem w)) (live w).

Abbreviation W := (M world).

Definition loadW (a : Z) (n : nat) : W Z := gets (fun w => load (mem w) a n).
Definition storeW (a : Z) (n : nat) (v : Z) : W unit :=
  modify (set_mem (fun m => store m a n v)).
Definition load_ptr (a : Z) : W Z := loadW a 8.
Definition store_ptr (a v : Z) : W unit := storeW a 8 v.

(** The allocator: [alloc live n] is the base of a new block of [n] bytes, or
    nothing when the system refuses. [realloc] keeps the old block on failure;
    freeing something that is not a live block is undefined. *)
Class Allocator : Type := alloc : gmap Z Z -> Z -> option Z.

(** What [malloc] documents: a fresh non-null block that overlaps no live one. *)
Definition alloc_fresh `{Allocator} : Prop := forall lv n b,
  alloc lv n = Some b -> 0 < b /\ b + n <= 2 ^ 64 /\
  forall b' n', lv !! b' = Some n' -> b' + n' <= b \/ b + n <= b'.

Section Heap.
Context `{Allocator}.

Definition pb_realloc (ptr size : Z) : W Z := fun w =>
  let old := if ptr =? NULL then Some 0 else live w !! ptr in
  match old with
  | None => (Stuck, w)
  | Some old_size =>
      let lv := delete ptr (live w) in
      match alloc lv size with
      | None => (Ret NULL, w)
      | Some b =>
          (Ret b, mk_world (memcpy (mem w) b ptr (Z.min old_size size)) (<[b := size]> lv))
      end
  end.

Definition pb_free (ptr : Z) : W unit := fun w =>
  if ptr =? NULL then (Ret tt, w)
  else match live w !! ptr with
       | None => (Stuck, w)
       | Some _ => (Ret tt, mk_world (mem w) (delete ptr (live w)))
       end.
End Heap.

(** ** Reading back what was written *)

Lemma load_byte_range m a : 0 <= load_byte m a < 256.
Proof. unfold load_byte, uwrap. apply Z.mod_pos_bound. lia. Qed.

Lemma load_byte_store_eq m a v : load_byte (store_byte m a v) a = u8 v.
Proof.
  unfold load_byte, store_byte, uwrap. rewrite lookup_insert_eq. cbn.
  apply Z.mod_mod. lia.
Qed.

Lemma load_byte_store_ne m a b v : a <> b -> load_byte (store_byte m a v) b = load_byte m b.
Proof. intros Hne. unfold load_byte, store_byte. by rewrite lookup_insert_ne. Qed.

Lemma load_byte_store m a n v b :
  load_byte (store m a n v) b =
    if decide (a <= b < a + Z.of_nat n) then u8 (v / 2 ^ (8 * (b - a))) else load_byte m b.
Proof.
  revert m a v. induction n as [|n IH]; intros m a v; cbn [store].
  - destruct (decide _); [lia|done].
  - rewrite IH. destruct (decide (a + 1 <= b < a + 1 + Z.of_nat n)) as [Hin|Hout].
    + destruct (decide _); [|lia]. f_equal.
      rewrite Zdiv_Zdiv by lia. f_equal.
      replace (8 * (b - a)) with (8 + 8 * (b - (a + 1))) by lia.
      rewrite Z.pow_add_r by lia. lia.
    + destruct (decide (a <= b < a + Z.of_nat (S n))) as [Hin'|Hout'].
      * assert (b = a) as -> by lia. rewrite load_byte_store_eq.
        replace (8 * (a - a)) with 0 by lia. by rewrite Z.pow_0_r, Z.div_1_r.
      * apply load_byte_store_ne. lia.
Qed.

Lemma load_byte_store_bytes m a l b :
  load_byte (store_bytes m a l) b =
    if decide (a <= b < a + Z.of_nat (length l))
    then u8 (nth (Z.to_nat (b - a)) l 0) else load_byte m b.
Proof.
  revert m a. induction l as [|v l IH]; intros m a; cbn [store_bytes length].
  - destruct (decide _); [lia|done].
  - rewrite IH. destruct (decide (a + 1 <= b < a + 1 + Z.of_nat (length l))) as [Hin|Hout].
    + destruct (decide _); [|lia].
      replace (Z.to_nat (b - a)) with (S (Z.to_nat (b - (a + 1)))) by lia. done.
    + destruct (decide _) as [Hin'|Hout'].
      * assert (b = a) as -> by lia. rewrite Z.sub_diag. apply load_byte_store_eq.
      * apply load_byte_store_ne. lia.
Qed.

Lemma load_range m a n : 0 <= load m a n < 2 ^ (8 * Z.of_nat n).
Proof.
  revert a. induction n as [|n IH]; intros a; cbn [load]; [cbn; lia|].
  specialize (IH (a + 1)). pose proof (load_byte_range m a).
  replace (8 * Z.of_nat (S n)) with (8 + 8 * Z.of_nat n) by lia.
  rewrite Z.pow_add_r by lia. lia.
Qed.

Lemma load_ext m m' a n :
  (forall b, a <= b < a + Z.of_nat n -> load_byte m b = load_byte m' b) ->
  load m a n = load m' a n.
Proof.
  revert a. induction n as [|n IH]; intros a Hext; cbn [load]; [done|].
  rewrite Hext by lia. rewrite (IH (a + 1)); [done|]. intros b Hb. apply Hext. lia.
Qed.

Lemma load_bytes_ext m m' a n :
  (forall b, a <= b < a + Z.of_nat n -> load_byte m b = load_byte m' b) ->
  load_bytes m a n = load_bytes m' a n.
Proof.
  revert a. induction n as [|n IH]; intros a Hext; cbn [load_bytes]; [done|].
  rewrite Hext by lia. rewrite (IH (a + 1)); [done|]. intros b Hb. apply Hext. lia.
Qed.

Lemma length_load_bytes m a n : length (load_bytes m a n) = n.
Proof. revert a. induction n as [|n IH]; intros a; cbn; [done|]. by rewrite IH. Qed.

Lemma load_bytes_app m a n1 n2 :
  load_bytes m a (n1 + n2) = load_bytes m a n1 ++ load_bytes m (a + Z.of_nat n1) n2.
Proof.
  revert a. induction n1 as [|n1 IH]; intros a; cbn [load_bytes Nat.add app].
  - f_equal. lia.
  - rewrite IH. do 3 f_equal. lia.
Qed.

Lemma load_store_eq m a n v : load (store m a n v) a n = v mod 2 ^ (8 * Z.of_nat n).
Proof.
  revert m a v. induction n as [|n IH]; intros m a v; cbn [load store].
  - by rewrite Z.mod_1_r.
  - rewrite IH, load_byte_store. destruct (decide _); [lia|].
    rewrite load_byte_store_eq. unfold uwrap.
    replace (8 * Z.of_nat (S n)) with (8 + 8 * Z.of_nat n) by lia.
    rewrite Z.pow_add_r by lia. change (2 ^ 8) with 256.
    rewrite Z.rem_mul_r by lia. done.
Qed.

Lemma load_store_ne m a n v b k :
  b + Z.of_nat k <= a \/ a + Z.of_nat n <= b -> load (store m a n v) b k = load m b k.
Proof.
  intros Hsep. apply load_ext. intros c Hc. rewrite load_byte_store.
  destruct (decide _); [lia|done].
Qed.

Lemma load_store_bytes_ne m a l b k :
  b + Z.of_nat k <= a \/ a + Z.of_nat (length l) <= b ->
  load (store_bytes m a l) b k = load m b k.
Proof.
  intros Hsep. apply load_ext. intros c Hc. rewrite load_byte_store_bytes.
  destruct (decide _); [lia|done].
Qed.

Lemma load_bytes_store_bytes m a l :
  Forall (fun v => 0 <= v < 256) l -> load_bytes (store_bytes m a l) a (length l) = l.
Proof.
  intros Hl. revert m a. induction Hl as [|v l Hv Hl IH]; intros m a; [done|].
  cbn [store_bytes load_bytes length]. rewrite IH, load_byte_store_bytes.
  destruct (decide _); [lia|]. rewrite load_byte_store_eq.
  unfold uwrap. by rewrite Z.mod_small by lia.
Qed.

Lemma load_bytes_range m a n : Forall (fun v => 0 <= v < 256) (load_bytes m a n).
Proof. revert a. induction n; intros a; cbn; constructor; auto using load_byte_range. Qed.
