(* ===== verification/Pb.v ===== *)
(** The declarations of nanopb's [pb.h], [pb_decode.h] and [pb_encode.h] in the
    configuration the application builds ([PB_FIELD_32BIT], [PB_ENABLE_MALLOC],
    [PB_NO_PACKED_STRUCTS], 64-bit integers): field types, the field descriptor
    and the macros that fill it, the streams, and the environment of functions
    and constant tables the library is handed by its user. *)

From Stdlib Require Import ZArith Lia List String Bool.
From stdpp Require Import base gmap list.
From S2P Require Import Prelude Memory.

(** ** Field types *)

Definition PB_MAX_REQUIRED_FIELDS : Z := 64.

Definition PB_LTYPE_BOOL : Z := 0x00.
Definition PB_LTYPE_VARINT : Z := 0x01.
Definition PB_LTYPE_UVARINT : Z := 0x02.
Definition PB_LTYPE_SVARINT : Z := 0x03.
Definition PB_LTYPE_FIXED32 : Z := 0x04.
Definition PB_LTYPE_FIXED64 : Z := 0x05.
Definition PB_LTYPE_LAST_PACKABLE : Z := 0x05.
Definition PB_LTYPE_BYTES : Z := 0x06.
Definition PB_LTYPE_STRING : Z := 0x07.
Definition PB_LTYPE_SUBMESSAGE : Z := 0x08.
Definition PB_LTYPE_EXTENSION : Z := 0x09.
Definition PB_LTYPE_FIXED_LENGTH_BYTES : Z := 0x0A.
Definition PB_LTYPES_COUNT : Z := 0x0B.
Definition PB_LTYPE_MASK : Z := 0x0F.

Definition PB_HTYPE_REQUIRED : Z := 0x00.
Definition PB_HTYPE_OPTIONAL : Z := 0x10.
Definition PB_HTYPE_REPEATED : Z := 0x20.
Definition PB_HTYPE_ONEOF : Z := 0x30.
Definition PB_HTYPE_MASK : Z := 0x30.

Definition PB_ATYPE_STATIC : Z := 0x00.
Definition PB_ATYPE_POINTER : Z := 0x80.
Definition PB_ATYPE_CALLBACK : Z := 0x40.
Definition PB_ATYPE_MASK : Z := 0xC0.

Definition PB_ATYPE (x : Z) : Z := Z.land x PB_ATYPE_MASK.
Definition PB_HTYPE (x : Z) : Z := Z.land x PB_HTYPE_MASK.
Definition PB_LTYPE (x : Z) : Z := Z.land x PB_LTYPE_MASK.

(** [pb_size_t] is a [uint32_t] under [PB_FIELD_32BIT]. *)
Definition sizeof_pb_size : nat := 4.
Definition PB_SIZE_MAX : Z := u32 (-1).

(** ** Field descriptors *)

Record pb_field_t : Type := mk_field {
  tag : Z;
  type : Z;
  data_offset : Z;
  size_offset : Z;
  data_size : Z;
  array_size : Z;
  ptr : Z
}.

Definition PB_LAST_FIELD : pb_field_t := mk_field 0 0 0 0 0 0 0.

(** An array [const pb_field_t fields[]] is the list of its entries before the
    terminator; reading at its end gives [PB_LAST_FIELD]. *)
Definition field_at (fields : list pb_field_t) (i : nat) : pb_field_t :=
  nth i fields PB_LAST_FIELD.

(** The values the members of a C descriptor can hold. *)
Definition field_in_range (f : pb_field_t) : bool :=
  (0 <=? tag f) && (tag f <? 2 ^ 32) && (0 <=? type f) && (type f <? 2 ^ 8)
  && (0 <=? data_offset f) && (data_offset f <? 2 ^ 32)
  && (- 2 ^ 31 <=? size_offset f) && (size_offset f <? 2 ^ 31)
  && (0 <=? data_size f) && (data_size f <? 2 ^ 32)
  && (0 <=? array_size f) && (array_size f <? 2 ^ 32)
  && (0 <=? ptr f) && (ptr f <? 2 ^ 64).

(** ** Dynamic byte arrays, callbacks and extensions (in memory) *)

(** [offsetof(pb_bytes_array_t, bytes)] *)
Definition pb_bytes_array_bytes : Z := 4.
Definition PB_BYTES_ARRAY_T_ALLOCSIZE (n : Z) : Z := u64 (n + pb_bytes_array_bytes).

(** [pb_callback_t]: the function pointer, then [arg]. *)
Definition pb_callback_funcs (callback : Z) : Z := callback.
Definition pb_callback_arg (callback : Z) : Z := callback + 8.

(** [pb_extension_type_t] *)
Definition ext_type_decode (t : Z) : Z := t.
Definition ext_type_encode (t : Z) : Z := t + 8.
Definition ext_type_arg (t : Z) : Z := t + 16.

(** [pb_extension_t] *)
Definition ext_type (e : Z) : Z := e.
Definition ext_dest (e : Z) : Z := e + 8.
Definition ext_next (e : Z) : Z := e + 16.
Definition ext_found (e : Z) : Z := e + 24.

(** ** Wire types *)

Definition PB_WT_VARINT : Z := 0.
Definition PB_WT_64BIT : Z := 1.
Definition PB_WT_STRING : Z := 2.
Definition PB_WT_32BIT : Z := 5.

(** ** Streams *)

Inductive icallback : Type :=
  | buf_read_cb
  | user_read_cb (f : Z).

Record pb_istream_t : Type := mk_istream {
  is_callback : icallback;
  is_state : Z;
  bytes_left : Z;
  is_errmsg : option string
}.

Inductive ocallback : Type :=
  | null_cb
  | buf_write_cb
  | user_write_cb (f : Z).

Record pb_ostream_t : Type := mk_ostream {
  os_callback : ocallback;
  os_state : Z;
  max_size : Z;
  bytes_written : Z;
  os_errmsg : option string
}.

Definition PB_OSTREAM_SIZING : pb_ostream_t := mk_ostream null_cb 0 0 0 None.

(** [PB_SET_ERROR]: the first message is kept. *)
Definition PB_SET_ERROR (errmsg : option string) (msg : string) : option string :=
  match errmsg with Some m => Some m | None => Some msg end.

Definition PB_GET_ERROR (errmsg : option string) : string :=
  match errmsg with Some m => m | None => "(none)"%string end.

(** ** What the user of the library provides

    The descriptor tables ([ptr] of a submessage field, [arg] of an extension
    type), the allocator, and the functions behind function pointers. A stream
    callback works on [state]; a field callback or an extension handler is
    handed the stream and the memory. [callback_buffer] is where the compiler
    puts the local array [buffer] of [decode_callback_field]. *)
Class Env : Type := {
  env_alloc :: Allocator;
  desc : Z -> list pb_field_t;
  user_read : Z -> Z -> Z -> world -> bool * list Z * Z * world;
  user_write : Z -> Z -> list Z -> world -> bool * Z * world;
  user_decode : Z -> pb_istream_t -> pb_field_t -> Z -> world -> bool * pb_istream_t * world;
  user_encode : Z -> pb_ostream_t -> pb_field_t -> Z -> world -> bool * pb_ostream_t * world;
  user_ext_decode : Z -> pb_istream_t -> Z -> Z -> Z -> world -> bool * pb_istream_t * world;
  user_ext_encode : Z -> pb_ostream_t -> Z -> world -> bool * pb_ostream_t * world;
  callback_buffer : Z
}.

(** ** Structure layout and the descriptor macros *)

(** A member of a C structure: its size and alignment, and the size of what it
    points to or of its array elements ([sizeof m[0]]). *)
Record ctype : Type := mk_ctype { csize : Z; calign : Z; celem : Z }.
Record member : Type := mk_member { offsetof : Z; membersize : Z; elemsize : Z }.
Definition struct : Type := list (string * member).

Definition align_up (a o : Z) : Z := (o + a - 1) / a * a.

Fixpoint layout_from (o : Z) (ms : list (string * ctype)) : struct :=
  match ms with
  | [] => []
  | (n, t) :: ms' =>
      let o' := align_up (calign t) o in
      (n, mk_member o' (csize t) (celem t)) :: layout_from (o' + csize t) ms'
  end.
Definition layout : list (string * ctype) -> struct := layout_from 0.

Definition struct_align (ms : list (string * ctype)) : Z :=
  fold_right (fun nt a => Z.max (calign (snd nt)) a) 1 ms.
Definition struct_size (ms : list (string * ctype)) : Z :=
  align_up (struct_align ms)
    (fold_left (fun o nt => align_up (calign (snd nt)) o + csize (snd nt)) ms 0).

Definition the (st : struct) (m : string) : member :=
  match find (fun nm => String.eqb (fst nm) m) st with
  | Some nm => snd nm
  | None => mk_member 0 0 0
  end.

Definition pb_membersize (st : struct) (m : string) : Z := membersize (the st m).
Definition pb_elemsize (st : struct) (m : string) : Z := elemsize (the st m).
Definition pb_arraysize (st : struct) (m : string) : Z := pb_membersize st m / pb_elemsize st m.
Definition pb_delta (st : struct) (m1 m2 : string) : Z :=
  offsetof (the st m1) - offsetof (the st m2).

Definition PB_DATAOFFSET_FIRST (st : struct) (m1 m2 : string) : Z := offsetof (the st m1).
Definition PB_DATAOFFSET_OTHER (st : struct) (m1 m2 : string) : Z :=
  offsetof (the st m1) - offsetof (the st m2) - pb_membersize st m2.
Definition PB_DATAOFFSET_UNION (st : struct) (m1 m2 : string) : Z := PB_SIZE_MAX.

Section FieldMacros.
Variables (tag : Z) (st : struct) (m : string) (fd ltype ptr : Z).

Definition PB_REQUIRED_STATIC : pb_field_t :=
  mk_field tag (Z.lor (Z.lor PB_ATYPE_STATIC PB_HTYPE_REQUIRED) ltype)
    fd 0 (pb_membersize st m) 0 ptr.
Definition PB_OPTIONAL_STATIC : pb_field_t :=
  mk_field tag (Z.lor (Z.lor PB_ATYPE_STATIC PB_HTYPE_OPTIONAL) ltype)
    fd (pb_delta st ("has_" ++ m) m) (pb_membersize st m) 0 ptr.
Definition PB_SINGULAR_STATIC : pb_field_t :=
  mk_field tag (Z.lor (Z.lor PB_ATYPE_STATIC PB_HTYPE_OPTIONAL) ltype)
    fd 0 (pb_membersize st m) 0 ptr.
Definition PB_REPEATED_STATIC : pb_field_t :=
  mk_field tag (Z.lor (Z.lor PB_ATYPE_STATIC PB_HTYPE_REPEATED) ltype)
    fd (pb_delta st (m ++ "_count") m) (pb_elemsize st m) (pb_arraysize st m) ptr.
Definition PB_REQUIRED_POINTER : pb_field_t :=
  mk_field tag (Z.lor (Z.lor PB_ATYPE_POINTER PB_HTYPE_REQUIRED) ltype)
    fd 0 (pb_elemsize st m) 0 ptr.
Definition PB_OPTIONAL_POINTER : pb_field_t :=
  mk_field tag (Z.lor (Z.lor PB_ATYPE_POINTER PB_HTYPE_OPTIONAL) ltype)
    fd 0 (pb_elemsize st m) 0 ptr.
Definition PB_SINGULAR_POINTER : pb_field_t :=
  mk_field tag (Z.lor (Z.lor PB_ATYPE_POINTER PB_HTYPE_OPTIONAL) ltype)
    fd 0 (pb_elemsize st m) 0 ptr.
Definition PB_REPEATED_POINTER : pb_field_t :=
  mk_field tag (Z.lor (Z.lor PB_ATYPE_POINTER PB_HTYPE_REPEATED) ltype)
    fd (pb_delta st (m ++ "_count") m) (pb_elemsize st m) 0 ptr.
Definition PB_REQUIRED_CALLBACK : pb_field_t :=
  mk_field tag (Z.lor (Z.lor PB_ATYPE_CALLBACK PB_HTYPE_REQUIRED) ltype)
    fd 0 (pb_membersize st m) 0 ptr.
Definition PB_OPTIONAL_CALLBACK : pb_field_t :=
  mk_field tag (Z.lor (Z.lor PB_ATYPE_CALLBACK PB_HTYPE_OPTIONAL) ltype)
    fd 0 (pb_membersize st m) 0 ptr.
Definition PB_SINGULAR_CALLBACK : pb_field_t :=
  mk_field tag (Z.lor (Z.lor PB_ATYPE_CALLBACK PB_HTYPE_OPTIONAL) ltype)
    fd 0 (pb_membersize st m) 0 ptr.
Definition PB_REPEATED_CALLBACK : pb_field_t :=
  mk_field tag (Z.lor (Z.lor PB_ATYPE_CALLBACK PB_HTYPE_REPEATED) ltype)
    fd 0 (pb_membersize st m) 0 ptr.
Definition PB_OPTEXT_STATIC : pb_field_t :=
  mk_field tag (Z.lor (Z.lor PB_ATYPE_STATIC PB_HTYPE_REQUIRED) ltype)
    0 0 (pb_membersize st m) 0 ptr.
Definition PB_OPTEXT_POINTER : pb_field_t := PB_OPTIONAL_POINTER.
Definition PB_OPTEXT_CALLBACK : pb_field_t := PB_OPTIONAL_CALLBACK.
Definition PB_REPEATED_FIXED_COUNT : pb_field_t :=
  mk_field tag (Z.lor (Z.lor PB_ATYPE_STATIC PB_HTYPE_REPEATED) ltype)
    fd 0 (pb_elemsize st m) (pb_arraysize st m) ptr.
End FieldMacros.

(** Members of a oneof [u] are named [u.m] in the layout, the selector [which_u]. *)
Section OneofMacros.
Variables (u : string) (tag : Z) (st : struct) (m : string) (fd ltype ptr : Z).

Definition PB_ONEOF_STATIC : pb_field_t :=
  mk_field tag (Z.lor (Z.lor PB_ATYPE_STATIC PB_HTYPE_ONEOF) ltype)
    fd (pb_delta st ("which_" ++ u) (u ++ "." ++ m))
    (pb_membersize st (u ++ "." ++ m)) 0 ptr.
Definition PB_ONEOF_POINTER : pb_field_t :=
  mk_field tag (Z.lor (Z.lor PB_ATYPE_POINTER PB_HTYPE_ONEOF) ltype)
    fd (pb_delta st ("which_" ++ u) (u ++ "." ++ m))
    (pb_elemsize st (u ++ "." ++ m)) 0 ptr.
Definition PB_ANONYMOUS_ONEOF_STATIC : pb_field_t :=
  mk_field tag (Z.lor (Z.lor PB_ATYPE_STATIC PB_HTYPE_ONEOF) ltype)
    fd (pb_delta st ("which_" ++ u) m) (pb_membersize st m) 0 ptr.
Definition PB_ANONYMOUS_ONEOF_POINTER : pb_field_t :=
  mk_field tag (Z.lor (Z.lor PB_ATYPE_POINTER PB_HTYPE_ONEOF) ltype)
    fd (pb_delta st ("which_" ++ u) m) (pb_elemsize st m) 0 ptr.
End OneofMacros.

(** [PB_LTYPE_MAP_*] *)
Inductive proto_type : Type :=
  | BOOL | BYTES | DOUBLE | ENUM | UENUM | FIXED32 | FIXED64 | FLOAT | INT32 | INT64
  | MESSAGE | SFIXED32 | SFIXED64 | SINT32 | SINT64 | STRING | UINT32 | UINT64
  | EXTENSION | FIXED_LENGTH_BYTES.

Definition PB_LTYPE_MAP (t : proto_type) : Z :=
  match t with
  | BOOL => PB_LTYPE_BOOL
  | BYTES => PB_LTYPE_BYTES
  | DOUBLE => PB_LTYPE_FIXED64
  | ENUM => PB_LTYPE_VARINT
  | UENUM => PB_LTYPE_UVARINT
  | FIXED32 => PB_LTYPE_FIXED32
  | FIXED64 => PB_LTYPE_FIXED64
  | FLOAT => PB_LTYPE_FIXED32
  | INT32 => PB_LTYPE_VARINT
  | INT64 => PB_LTYPE_VARINT
  | MESSAGE => PB_LTYPE_SUBMESSAGE
  | SFIXED32 => PB_LTYPE_FIXED32
  | SFIXED64 => PB_LTYPE_FIXED64
  | SINT32 => PB_LTYPE_SVARINT
  | SINT64 => PB_LTYPE_SVARINT
  | STRING => PB_LTYPE_STRING
  | UINT32 => PB_LTYPE_UVARINT
  | UINT64 => PB_LTYPE_UVARINT
  | EXTENSION => PB_LTYPE_EXTENSION
  | FIXED_LENGTH_BYTES => PB_LTYPE_FIXED_LENGTH_BYTES
  end.

Inductive rules : Type := REQUIRED | OPTIONAL | SINGULAR | REPEATED | OPTEXT.
Inductive allocation : Type := STATIC | POINTER | CALLBACK.
Inductive placement : Type := FIRST | OTHER | UNION.

Definition PB_DATAOFFSET (p : placement) : struct -> string -> string -> Z :=
  match p with
  | FIRST => PB_DATAOFFSET_FIRST
  | OTHER => PB_DATAOFFSET_OTHER
  | UNION => PB_DATAOFFSET_UNION
  end.

Definition PB_FIELD (tag : Z) (t : proto_type) (r : rules) (a : allocation) (p : placement)
    (message : struct) (field prevfield : string) (ptr : Z) : pb_field_t :=
  let fd := PB_DATAOFFSET p message field prevfield in
  let lt := PB_LTYPE_MAP t in
  match r, a with
  | REQUIRED, STATIC => PB_REQUIRED_STATIC tag message field fd lt ptr
  | OPTIONAL, STATIC => PB_OPTIONAL_STATIC tag message field fd lt ptr
  | SINGULAR, STATIC => PB_SINGULAR_STATIC tag message field fd lt ptr
  | REPEATED, STATIC => PB_REPEATED_STATIC tag message field fd lt ptr
  | OPTEXT, STATIC => PB_OPTEXT_STATIC tag message field lt ptr
  | REQUIRED, POINTER => PB_REQUIRED_POINTER tag message field fd lt ptr
  | OPTIONAL, POINTER => PB_OPTIONAL_POINTER tag message field fd lt ptr
  | SINGULAR, POINTER => PB_SINGULAR_POINTER tag message field fd lt ptr
  | REPEATED, POINTER => PB_REPEATED_POINTER tag message field fd lt ptr
  | OPTEXT, POINTER => PB_OPTEXT_POINTER tag message field fd lt ptr
  | REQUIRED, CALLBACK => PB_REQUIRED_CALLBACK tag message field fd lt ptr
  | OPTIONAL, CALLBACK => PB_OPTIONAL_CALLBACK tag message field fd lt ptr
  | SINGULAR, CALLBACK => PB_SINGULAR_CALLBACK tag message field fd lt ptr
  | REPEATED, CALLBACK => PB_REPEATED_CALLBACK tag message field fd lt ptr
  | OPTEXT, CALLBACK => PB_OPTEXT_CALLBACK tag message field fd lt ptr
  end.

Definition PB_ONEOF_FIELD (union_name : string) (tag : Z) (t : proto_type) (a : allocation)
    (p : placement) (message : struct) (field prevfield : string) (ptr : Z)
    : option pb_field_t :=
  let fd := PB_DATAOFFSET p message (union_name ++ "." ++ field) prevfield in
  let lt := PB_LTYPE_MAP t in
  match a with
  | STATIC => Some (PB_ONEOF_STATIC union_name tag message field fd lt ptr)
  | POINTER => Some (PB_ONEOF_POINTER union_name tag message field fd lt ptr)
  | CALLBACK => None
  end.
