(* ===== verification/PbCommon.v ===== *)
(** [nanopb/pb_common.c]: the field iterator shared by the encoder and the
    decoder. It walks a descriptor array and keeps the addresses of the current
    field and of its count, presence flag or oneof selector. *)

From Stdlib Require Import ZArith Lia List String Bool.
From stdpp Require Import base gmap list.
From S2P Require Import Prelude Memory Pb.

(** Where [pSize] points: into the message, or to the local counter
    [fixed_count_size] of [pb_decode_noinit]. *)
Inductive size_ptr : Type :=
  | InMem (a : Z)
  | FixedCountSize.

Record pb_field_iter_t : Type := mk_iter {
  start : list pb_field_t;
  pos : nat;
  required_field_index : Z;
  dest_struct : Z;
  pData : Z;
  pSize : size_ptr
}.

(** [*iter->pos] *)
Definition cur (iter : pb_field_iter_t) : pb_field_t := field_at (start iter) (pos iter).

Definition pb_field_iter_begin (fields : list pb_field_t) (dest : Z) : bool * pb_field_iter_t :=
  let f := field_at fields 0 in
  let data := dest + data_offset f in
  (negb (tag f =? 0), mk_iter fields 0 0 dest data (InMem (data + size_offset f))).

Definition pb_field_iter_next (iter : pb_field_iter_t) : bool * pb_field_iter_t :=
  let prev_field := cur iter in
  if tag prev_field =? 0 then (false, iter)
  else
    let next := field_at (start iter) (S (pos iter)) in
    if tag next =? 0 then
      (false, snd (pb_field_iter_begin (start iter) (dest_struct iter)))
    else
      let prev_size := data_size prev_field in
      if (PB_HTYPE (type prev_field) =? PB_HTYPE_ONEOF)
         && (PB_HTYPE (type next) =? PB_HTYPE_ONEOF)
         && (data_offset next =? PB_SIZE_MAX)
      then (true, mk_iter (start iter) (S (pos iter)) (required_field_index iter)
                    (dest_struct iter) (pData iter) (pSize iter))
      else
        let prev_size :=
          if (PB_ATYPE (type prev_field) =? PB_ATYPE_STATIC)
             && (PB_HTYPE (type prev_field) =? PB_HTYPE_REPEATED)
          then u64 (prev_size * array_size prev_field)
          else if PB_ATYPE (type prev_field) =? PB_ATYPE_POINTER
          then sizeof_pointer
          else prev_size in
        let index :=
          if PB_HTYPE (type prev_field) =? PB_HTYPE_REQUIRED
          then u32 (required_field_index iter + 1) else required_field_index iter in
        let data := pData iter + prev_size + data_offset next in
        (true, mk_iter (start iter) (S (pos iter)) index (dest_struct iter)
                 data (InMem (data + size_offset next))).

(** The [do ... while (iter->pos != start)] of [pb_field_iter_find], bounded by
    the number of fields: [None] would be a search that does not come back. *)
Fixpoint iter_find_loop (n : nat) (start_pos : nat) (tag' : Z) (iter : pb_field_iter_t)
    : option (bool * pb_field_iter_t) :=
  match n with
  | O => None
  | S n' =>
      if (tag (cur iter) =? tag') && negb (PB_LTYPE (type (cur iter)) =? PB_LTYPE_EXTENSION)
      then Some (true, iter)
      else
        let iter' := snd (pb_field_iter_next iter) in
        if Nat.eqb (pos iter') start_pos then Some (false, iter')
        else iter_find_loop n' start_pos tag' iter'
  end.

Definition pb_field_iter_find (iter : pb_field_iter_t) (tag' : Z) : option (bool * pb_field_iter_t) :=
  iter_find_loop (S (length (start iter))) (pos iter) tag' iter.

(** The repetition rule of a type. *)
Lemma PB_HTYPE_cases x :
  PB_HTYPE x = PB_HTYPE_REQUIRED \/ PB_HTYPE x = PB_HTYPE_OPTIONAL \/
  PB_HTYPE x = PB_HTYPE_REPEATED \/ PB_HTYPE x = PB_HTYPE_ONEOF.
Proof.
  unfold PB_HTYPE, PB_HTYPE_MASK.
  replace (Z.land x 0x30) with (Z.shiftl (Z.land (Z.shiftr x 4) (Z.ones 2)) 4).
  - rewrite Z.land_ones by lia. change (2 ^ 2) with 4.
    pose proof (Z.mod_pos_bound (Z.shiftr x 4) 4 ltac:(lia)).
    assert (Hc : Z.shiftr x 4 mod 4 = 0 \/ Z.shiftr x 4 mod 4 = 1 \/
            Z.shiftr x 4 mod 4 = 2 \/ Z.shiftr x 4 mod 4 = 3) by lia.
    destruct Hc as [-> | [-> | [-> | ->]]]; cbv; tauto.
  - rewrite Z.shiftl_land. change (Z.shiftl (Z.ones 2) 4) with 0x30.
    apply Z.bits_inj'. intros i Hi. rewrite !Z.land_spec.
    destruct (Z.ltb_spec i 4).
    + replace (Z.testbit 0x30 i) with false; [by rewrite !andb_false_r|].
      assert (Hi' : i = 0 \/ i = 1 \/ i = 2 \/ i = 3) by lia.
      by destruct Hi' as [-> | [-> | [-> | ->]]].
    + rewrite Z.shiftl_spec, Z.shiftr_spec by lia. do 2 f_equal. lia.
Qed.
