(* ===== verification/PbDecode.v ===== *)
(** [nanopb/pb_decode.c], the decoder: input streams, wire-level readers, the
    field decoders and the message loop. *)

From Stdlib Require Import ZArith Lia List String Bool.
From stdpp Require Import base gmap list.
From S2P Require Import Prelude Memory Pb PbCommon.

(** The decoder's state: the stream in use, the local [fixed_count_size] of the
    innermost [pb_decode_noinit], and the memory. *)
Record dstate : Type := mk_dstate {
  stream : pb_istream_t;
  fixed_count_size : Z;
  d_world : world
}.

Abbreviation D := (M dstate).

Definition set_stream (f : pb_istream_t -> pb_istream_t) (s : dstate) : dstate :=
  mk_dstate (f (stream s)) (fixed_count_size s) (d_world s).
Definition set_world (w : world) (s : dstate) : dstate :=
  mk_dstate (stream s) (fixed_count_size s) w.
Definition set_count (c : Z) (s : dstate) : dstate :=
  mk_dstate (stream s) c (d_world s).

Definition is_set_state (st : Z) (i : pb_istream_t) : pb_istream_t :=
  mk_istream (is_callback i) st (bytes_left i) (is_errmsg i).
Definition is_set_left (n : Z) (i : pb_istream_t) : pb_istream_t :=
  mk_istream (is_callback i) (is_state i) n (is_errmsg i).
Definition is_set_error (e : option string) (i : pb_istream_t) : pb_istream_t :=
  mk_istream (is_callback i) (is_state i) (bytes_left i) e.

Definition liftW {A} (m : W A) : D A := zoom d_world set_world m.

(** [PB_RETURN_ERROR(stream, msg)] *)
Definition return_error {A} (msg : string) : D A :=
  modify (set_stream (fun i => is_set_error (PB_SET_ERROR (is_errmsg i) msg) i)) ;; fail.

(** A destination of [pb_read]: [NULL], a local array, or memory. *)
Inductive rbuf : Type :=
  | RNull
  | RLocal
  | RMem (a : Z).

Definition is_RNull (b : rbuf) : bool := match b with RNull => true | _ => false end.
Definition is_buf_read (c : icallback) : bool :=
  match c with buf_read_cb => true | user_read_cb _ => false end.

(** [buf[0..] = bytes] *)
Definition fill (b : rbuf) (bytes : list Z) : D unit :=
  match b with
  | RMem a => liftW (modify (set_mem (fun m => store_bytes m a bytes)))
  | RNull | RLocal => ret tt
  end.

Section Streams.
Context `{Env}.

Definition buf_read (buf : rbuf) (count : Z) : D (list Z) :=
  s <- get ;;
  let source := is_state (stream s) in
  modify (set_stream (is_set_state (source + count))) ;;
  if is_RNull buf then ret []
  else
    let bytes := load_bytes (mem (d_world s)) source (Z.to_nat count) in
    fill buf bytes ;; ret bytes.

(** [stream->callback(stream, buf, count)] *)
Definition call_callback (buf : rbuf) (count : Z) : D (list Z) :=
  s <- get ;;
  match is_callback (stream s) with
  | buf_read_cb => buf_read buf count
  | user_read_cb f =>
      let '(ok, bytes, st, w) := user_read f (is_state (stream s)) count (d_world s) in
      put (set_world w (set_stream (is_set_state st) s)) ;;
      fill buf bytes ;;
      if ok : bool then ret bytes else fail
  end.

(** The body of [pb_read] for a buffer, or for [NULL] on a memory stream. *)
Definition pb_read_direct (buf : rbuf) (count : Z) : D (list Z) :=
  s <- get ;;
  if bytes_left (stream s) <? count then return_error "end-of-stream"
  else
    r <- attempt (call_callback buf count) ;;
    match r with
    | None => return_error "io error"
    | Some bytes =>
        modify (set_stream (fun i => is_set_left (u64 (bytes_left i - count)) i)) ;;
        ret bytes
    end.

Definition pb_read (buf : rbuf) (count : Z) : D (list Z) :=
  if count =? 0 then ret []
  else
    s <- get ;;
    if is_RNull buf && negb (is_buf_read (is_callback (stream s))) then
      count' <- loop (fun c =>
        if 16 <? c then pb_read_direct RLocal 16 ;; ret (inl (c - 16))
        else ret (inr c)) count ;;
      pb_read_direct RLocal count'
    else pb_read_direct buf count.

Definition pb_readbyte : D Z :=
  s <- get ;;
  if bytes_left (stream s) =? 0 then return_error "end-of-stream"
  else
    r <- attempt (call_callback RLocal 1) ;;
    match r with
    | None => return_error "io error"
    | Some bytes =>
        modify (set_stream (fun i => is_set_left (u64 (bytes_left i - 1)) i)) ;;
        ret (nth 0 bytes 0)
    end.

Definition pb_istream_from_buffer (buf bufsize : Z) : pb_istream_t :=
  mk_istream buf_read_cb buf bufsize None.

(** ** Helper functions *)

(** One turn of the loop over the bytes after the first. *)
Definition varint32_step (locals : Z * Z) : D (Z * Z + Z) :=
  let '(bitpos, result) := locals in
  byte <- pb_readbyte ;;
  result' <-
    (if 32 <=? bitpos then
       let sign_extension := if bitpos <? 63 then 0xFF else 0x01 in
       if negb (Z.land byte 0x7F =? 0x00)
          && ((Z.shiftr result 31 =? 0) || negb (byte =? sign_extension))
       then return_error "varint overflow"
       else ret result
     else ret (Z.lor result (u32 (Z.shiftl (Z.land byte 0x7F) bitpos)))) ;;
  let bitpos' := u8 (bitpos + 7) in
  if negb (Z.land byte 0x80 =? 0) then ret (inl (bitpos', result'))
  else if (bitpos' =? 35) && negb (Z.land byte 0x70 =? 0)
  then return_error "varint overflow"
  else ret (inr result').

(** A [false] return is [inl eof], a [true] one is [inr dest]. *)
Definition pb_decode_varint32_eof : D (bool + Z) :=
  first <- attempt pb_readbyte ;;
  match first with
  | None => s <- get ;; ret (inl (bytes_left (stream s) =? 0))
  | Some byte =>
      if Z.land byte 0x80 =? 0 then ret (inr byte)
      else
        r <- attempt (loop varint32_step (7, Z.land byte 0x7F)) ;;
        match r with
        | None => ret (inl false)
        | Some result => ret (inr result)
        end
  end.

Definition pb_decode_varint32 : D Z :=
  r <- pb_decode_varint32_eof ;;
  match r with
  | inl _ => fail
  | inr v => ret v
  end.

Definition pb_decode_varint : D Z :=
  loop (fun '(bitpos, result) =>
    if 64 <=? bitpos then return_error "varint overflow"
    else
      byte <- pb_readbyte ;;
      let result' := Z.lor result (u64 (Z.shiftl (Z.land byte 0x7F) bitpos)) in
      let bitpos' := u8 (bitpos + 7) in
      if negb (Z.land byte 0x80 =? 0) then ret (inl (bitpos', result'))
      else ret (inr result')) (0, 0).

Definition pb_skip_varint : D unit :=
  loop (fun _ : unit =>
    bytes <- pb_read RLocal 1 ;;
    if negb (Z.land (nth 0 bytes 0) 0x80 =? 0) then ret (inl tt) else ret (inr tt)) tt.

Definition pb_skip_string : D unit :=
  length <- pb_decode_varint32 ;;
  pb_read RNull length ;; ret tt.

(** A [false] return is [inl eof], a [true] one is [inr (wire_type, tag)]. *)
Definition pb_decode_tag : D (bool + Z * Z) :=
  r <- pb_decode_varint32_eof ;;
  match r with
  | inl eof => ret (inl eof)
  | inr temp =>
      if temp =? 0 then ret (inl true)
      else ret (inr (Z.land temp 7, Z.shiftr temp 3))
  end.

Definition pb_skip_field (wire_type : Z) : D unit :=
  if wire_type =? PB_WT_VARINT then pb_skip_varint
  else if wire_type =? PB_WT_64BIT then pb_read RNull 8 ;; ret tt
  else if wire_type =? PB_WT_STRING then pb_skip_string
  else if wire_type =? PB_WT_32BIT then pb_read RNull 4 ;; ret tt
  else return_error "invalid wire_type".

(** The bytes put in [buf], of which there are at most [max_size]. *)
Definition read_raw_value (wire_type max_size : Z) : D (list Z) :=
  if wire_type =? PB_WT_VARINT then
    loop (fun buf =>
      if max_size <? Z.of_nat (List.length buf) + 1 then fail
      else
        bytes <- pb_read RLocal 1 ;;
        let byte := nth 0 bytes 0 in
        if negb (Z.land byte 0x80 =? 0) then ret (inl (buf ++ [byte]))
        else ret (inr (buf ++ [byte]))) []
  else if wire_type =? PB_WT_64BIT then pb_read RLocal 8
  else if wire_type =? PB_WT_32BIT then pb_read RLocal 4
  else return_error "invalid wire_type".

Definition pb_make_string_substream : D pb_istream_t :=
  size <- pb_decode_varint32 ;;
  s <- get ;;
  let substream := stream s in
  if bytes_left substream <? size then return_error "parent stream too short"
  else
    modify (set_stream (fun i => is_set_left (u64 (bytes_left i - size)) i)) ;;
    ret (is_set_left size substream).

(** Run [m] on the substream; its status and the substream it leaves. *)
Definition on_substream {A} (sub : pb_istream_t) (m : D A) : D (option A * pb_istream_t) :=
  s <- get ;;
  modify (set_stream (fun _ => sub)) ;;
  r <- attempt m ;;
  s' <- get ;;
  modify (set_stream (fun _ => stream s)) ;;
  ret (r, stream s').

Definition pb_close_string_substream (sub : pb_istream_t) : D unit :=
  r <- on_substream sub
         (if bytes_left sub =? 0 then ret [] else pb_read RNull (bytes_left sub)) ;;
  match r with
  | (None, _) => fail
  | (Some _, sub') =>
      modify (set_stream (fun i => is_set_error (is_errmsg sub') (is_set_state (is_state sub') i)))
  end.

(** ** Scalar decoders *)

Definition pb_decode_svarint : D Z :=
  value <- pb_decode_varint ;;
  if negb (Z.land value 1 =? 0) then ret (s64 (u64 (Z.lnot (Z.shiftr value 1))))
  else ret (s64 (Z.shiftr value 1)).

Definition pb_decode_fixed32 (dest : Z) : D unit :=
  bytes <- pb_read RLocal 4 ;;
  let b i := nth i bytes 0 in
  liftW (storeW dest 4
    (Z.lor (Z.lor (Z.lor (Z.shiftl (b 0%nat) 0) (Z.shiftl (b 1%nat) 8))
                  (Z.shiftl (b 2%nat) 16)) (Z.shiftl (b 3%nat) 24))).

Definition pb_decode_fixed64 (dest : Z) : D unit :=
  bytes <- pb_read RLocal 8 ;;
  let b i := nth i bytes 0 in
  liftW (storeW dest 8
    (Z.lor (Z.lor (Z.lor (Z.lor (Z.lor (Z.lor (Z.lor
      (Z.shiftl (b 0%nat) 0) (Z.shiftl (b 1%nat) 8)) (Z.shiftl (b 2%nat) 16))
      (Z.shiftl (b 3%nat) 24)) (Z.shiftl (b 4%nat) 32)) (Z.shiftl (b 5%nat) 40))
      (Z.shiftl (b 6%nat) 48)) (Z.shiftl (b 7%nat) 56))).

Definition pb_dec_bool (field : pb_field_t) (dest : Z) : D unit :=
  value <- pb_decode_varint32 ;;
  liftW (storeW dest 1 (if value =? 0 then 0 else 1)).

Definition pb_decode_bool (dest : Z) : D unit := pb_dec_bool PB_LAST_FIELD dest.

(** [clamped = *(T* )dest = (T)v;] for the [n]-byte signed or unsigned [T]. *)
Definition store_clamped (signed : bool) (dest : Z) (n : nat) (v : Z) : D Z :=
  liftW (storeW dest n v) ;;
  ret (if signed then swrap (8 * Z.of_nat n) v else uwrap (8 * Z.of_nat n) v).

Definition store_checked (signed : bool) (data_size' dest value : Z) : D unit :=
  clamped <-
    (if data_size' =? 8 then store_clamped signed dest 8 value
     else if data_size' =? 4 then store_clamped signed dest 4 value
     else if data_size' =? 2 then store_clamped signed dest 2 value
     else if data_size' =? 1 then store_clamped signed dest 1 value
     else return_error "invalid data_size") ;;
  if negb (clamped =? value) then return_error "integer too large" else ret tt.

Definition pb_dec_varint (field : pb_field_t) (dest : Z) : D unit :=
  value <- pb_decode_varint ;;
  let svalue := if data_size field =? 8 then s64 value else s32 value in
  store_checked true (data_size field) dest svalue.

Definition pb_dec_uvarint (field : pb_field_t) (dest : Z) : D unit :=
  value <- pb_decode_varint ;;
  store_checked false (data_size field) dest value.

Definition pb_dec_svarint (field : pb_field_t) (dest : Z) : D unit :=
  value <- pb_decode_svarint ;;
  store_checked true (data_size field) dest value.

Definition pb_dec_fixed32 (field : pb_field_t) (dest : Z) : D unit := pb_decode_fixed32 dest.
Definition pb_dec_fixed64 (field : pb_field_t) (dest : Z) : D unit := pb_decode_fixed64 dest.

(** ** Allocation *)

(** [check_limit] *)
Definition check_limit : Z := Z.shiftl 1 (8 * 4).

Definition allocate_field (pData' data_size' array_size' : Z) : D unit :=
  p <- liftW (load_ptr pData') ;;
  if (data_size' =? 0) || (array_size' =? 0) then return_error "invalid size"
  else if ((check_limit <=? data_size') || (check_limit <=? array_size'))
          && (u64 (-1) / array_size' <? data_size')
  then return_error "size too large"
  else
    p' <- liftW (pb_realloc p (u64 (array_size' * data_size'))) ;;
    if p' =? NULL then return_error "realloc failed"
    else liftW (store_ptr pData' p').

Definition pb_dec_bytes (field : pb_field_t) (dest : Z) : D unit :=
  size <- pb_decode_varint32 ;;
  if PB_SIZE_MAX <? size then return_error "bytes overflow"
  else
    let alloc_size := PB_BYTES_ARRAY_T_ALLOCSIZE size in
    if alloc_size <? size then return_error "size too large"
    else
      bdest <-
        (if PB_ATYPE (type field) =? PB_ATYPE_POINTER then
           allocate_field dest alloc_size 1 ;; liftW (load_ptr dest)
         else if data_size field <? alloc_size then return_error "bytes overflow"
         else ret dest) ;;
      liftW (storeW bdest sizeof_pb_size size) ;;
      pb_read (RMem (bdest + pb_bytes_array_bytes)) size ;; ret tt.

Definition pb_dec_string (field : pb_field_t) (dest : Z) : D unit :=
  size <- pb_decode_varint32 ;;
  let alloc_size := u32 (size + 1) in
  if alloc_size <? size then return_error "size too large"
  else
    dest' <-
      (if PB_ATYPE (type field) =? PB_ATYPE_POINTER then
         allocate_field dest alloc_size 1 ;; liftW (load_ptr dest)
       else if data_size field <? alloc_size then return_error "string overflow"
       else ret dest) ;;
    status <- attempt (pb_read (RMem dest') size) ;;
    liftW (storeW (dest' + size) 1 0) ;;
    match status with Some _ => ret tt | None => fail end.

Definition pb_dec_fixed_length_bytes (field : pb_field_t) (dest : Z) : D unit :=
  size <- pb_decode_varint32 ;;
  if PB_SIZE_MAX <? size then return_error "bytes overflow"
  else if size =? 0 then
    liftW (modify (set_mem (fun m => memzero m dest (data_size field))))
  else if negb (size =? data_size field) then
    return_error "incorrect fixed length bytes size"
  else pb_read (RMem dest) (data_size field) ;; ret tt.
End Streams.
