(* ===== verification/PbDecodeMsg.v ===== *)
(** [nanopb/pb_decode.c], continued: default values, release of allocated
    fields, the decoding of one field (static, pointer, callback, extension) and
    of a whole message. *)

From Stdlib Require Import ZArith Lia List String Bool.
From stdpp Require Import base gmap list.
From S2P Require Import Prelude Memory Pb PbCommon PbDecode.

(** The address [iter->pSize] where it must be in memory. *)
Definition size_addr (p : size_ptr) : W Z :=
  match p with InMem a => ret a | FixedCountSize => stuck end.

(** [*(pb_size_t * )iter->pSize], read and written. *)
Definition read_size (p : size_ptr) : D Z :=
  match p with
  | InMem a => liftW (loadW a sizeof_pb_size)
  | FixedCountSize => gets fixed_count_size
  end.

Definition write_size (p : size_ptr) (v : Z) : D unit :=
  match p with
  | InMem a => liftW (storeW a sizeof_pb_size v)
  | FixedCountSize => modify (set_count (u32 v))
  end.

(** [iter->pSize == iter->pData] *)
Definition size_at_data (iter : pb_field_iter_t) : bool :=
  match pSize iter with InMem a => a =? pData iter | FixedCountSize => false end.

Section Fields.
Context `{Env}.

Definition submsg_fields (field : pb_field_t) : list pb_field_t := desc (ptr field).

Definition iter_from_extension (extension : Z) : W pb_field_iter_t :=
  t <- load_ptr (ext_type extension) ;;
  arg <- load_ptr (ext_type_arg t) ;;
  let fields := desc arg in
  let field := field_at fields 0 in
  dest <- load_ptr (ext_dest extension) ;;
  let iter := snd (pb_field_iter_begin fields dest) in
  let data := if PB_ATYPE (type field) =? PB_ATYPE_POINTER then ext_dest extension else dest in
  ret (mk_iter (start iter) (pos iter) (required_field_index iter) (dest_struct iter)
         data (InMem (ext_found extension))).

(** ** Defaults *)

Definition field_set_to_default_body
    (field_default : pb_field_iter_t -> W unit)
    (message_defaults : list pb_field_t -> Z -> W unit)
    (iter : pb_field_iter_t) : W unit :=
  let ty := type (cur iter) in
  if PB_LTYPE ty =? PB_LTYPE_EXTENSION then
    ext <- load_ptr (pData iter) ;;
    loop (fun ext =>
      if ext =? NULL then ret (inr tt)
      else
        storeW (ext_found ext) 1 0 ;;
        ext_iter <- iter_from_extension ext ;;
        field_default ext_iter ;;
        next <- load_ptr (ext_next ext) ;;
        ret (inl next)) ext
  else if PB_ATYPE ty =? PB_ATYPE_STATIC then
    init_data <-
      (if (PB_HTYPE ty =? PB_HTYPE_OPTIONAL) && negb (size_at_data iter) then
         a <- size_addr (pSize iter) ;; storeW a 1 0 ;; ret true
       else if (PB_HTYPE ty =? PB_HTYPE_REPEATED) || (PB_HTYPE ty =? PB_HTYPE_ONEOF) then
         a <- size_addr (pSize iter) ;; storeW a sizeof_pb_size 0 ;; ret false
       else ret true) ;;
    if init_data : bool then
      if PB_LTYPE ty =? PB_LTYPE_SUBMESSAGE then
        message_defaults (submsg_fields (cur iter)) (pData iter)
      else if negb (ptr (cur iter) =? NULL) then
        modify (set_mem (fun m => memcpy m (pData iter) (ptr (cur iter)) (data_size (cur iter))))
      else modify (set_mem (fun m => memzero m (pData iter) (data_size (cur iter))))
    else ret tt
  else if PB_ATYPE ty =? PB_ATYPE_POINTER then
    store_ptr (pData iter) NULL ;;
    if (PB_HTYPE ty =? PB_HTYPE_REPEATED) || (PB_HTYPE ty =? PB_HTYPE_ONEOF) then
      a <- size_addr (pSize iter) ;; storeW a sizeof_pb_size 0
    else ret tt
  else ret tt.

(** [do { step(&iter); } while (pb_field_iter_next(&iter));] *)
Definition for_fields {S} (step : pb_field_iter_t -> M S unit)
    (fields : list pb_field_t) (dest : Z) : M S unit :=
  let '(nonempty, iter) := pb_field_iter_begin fields dest in
  if nonempty : bool then
    loop (fun iter =>
      step iter ;;
      let '(more, iter') := pb_field_iter_next iter in
      ret (if more : bool then inl iter' else inr tt)) iter
  else ret tt.

Fixpoint pb_field_set_to_default (n : nat) (iter : pb_field_iter_t) {struct n} : W unit :=
  match n with
  | O => stuck
  | S n' =>
      field_set_to_default_body (pb_field_set_to_default n')
        (for_fields (pb_field_set_to_default n')) iter
  end.

Definition pb_message_set_to_defaults (n : nat) : list pb_field_t -> Z -> W unit :=
  for_fields (pb_field_set_to_default n).

(** ** Release *)

Definition release_single_field_body
    (release_field : pb_field_iter_t -> W unit)
    (release : list pb_field_t -> Z -> W unit)
    (iter : pb_field_iter_t) : W unit :=
  let field := cur iter in
  let ty := type field in
  is_current <-
    (if PB_HTYPE ty =? PB_HTYPE_ONEOF then
       a <- size_addr (pSize iter) ;;
       which <- loadW a sizeof_pb_size ;; ret (which =? tag field)
     else ret true) ;;
  if negb is_current then ret tt
  else
    (if PB_LTYPE ty =? PB_LTYPE_EXTENSION then
       ext <- load_ptr (pData iter) ;;
       loop (fun ext =>
         if ext =? NULL then ret (inr tt)
         else
           ext_iter <- iter_from_extension ext ;;
           release_field ext_iter ;;
           next <- load_ptr (ext_next ext) ;;
           ret (inl next)) ext
     else if (PB_LTYPE ty =? PB_LTYPE_SUBMESSAGE) && negb (PB_ATYPE ty =? PB_ATYPE_CALLBACK) then
       pItem <- (if PB_ATYPE ty =? PB_ATYPE_POINTER then load_ptr (pData iter)
                 else ret (pData iter)) ;;
       count <-
         (if PB_HTYPE ty =? PB_HTYPE_REPEATED then
            count <-
              (if (PB_ATYPE ty =? PB_ATYPE_STATIC) && size_at_data iter
               then ret (array_size field)
               else a <- size_addr (pSize iter) ;; loadW a sizeof_pb_size) ;;
            ret (if (PB_ATYPE ty =? PB_ATYPE_STATIC) && (array_size field <? count)
                 then array_size field else count)
          else ret 1) ;;
       if pItem =? NULL then ret tt
       else
         loop (fun '(count, pItem) =>
           if count =? 0 then ret (inr tt)
           else
             release (submsg_fields field) pItem ;;
             ret (inl (count - 1, pItem + data_size field))) (count, pItem)
     else ret tt) ;;
    if PB_ATYPE ty =? PB_ATYPE_POINTER then
      (if (PB_HTYPE ty =? PB_HTYPE_REPEATED)
          && ((PB_LTYPE ty =? PB_LTYPE_STRING) || (PB_LTYPE ty =? PB_LTYPE_BYTES)) then
         pItem <- load_ptr (pData iter) ;;
         a <- size_addr (pSize iter) ;;
         count <- loadW a sizeof_pb_size ;;
         loop (fun '(count, pItem) =>
           if count =? 0 then ret (inr tt)
           else
             p <- load_ptr pItem ;;
             pb_free p ;;
             store_ptr pItem NULL ;;
             ret (inl (count - 1, pItem + sizeof_pointer))) (count, pItem)
       else ret tt) ;;
      (if PB_HTYPE ty =? PB_HTYPE_REPEATED then
         a <- size_addr (pSize iter) ;; storeW a sizeof_pb_size 0
       else ret tt) ;;
      p <- load_ptr (pData iter) ;;
      pb_free p ;;
      store_ptr (pData iter) NULL
    else ret tt.

(** [pb_release] given the release of one field. *)
Definition pb_release_with (release_field : pb_field_iter_t -> W unit)
    (fields : list pb_field_t) (dest : Z) : W unit :=
  if dest =? NULL then ret tt else for_fields release_field fields dest.

Fixpoint pb_release_single_field (n : nat) (iter : pb_field_iter_t) {struct n} : W unit :=
  match n with
  | O => stuck
  | S n' =>
      release_single_field_body (pb_release_single_field n')
        (pb_release_with (pb_release_single_field n')) iter
  end.

Definition pb_release (n : nat) : list pb_field_t -> Z -> W unit :=
  pb_release_with (pb_release_single_field n).

(** The old contents of a oneof are released when another member arrives; the
    iterator comes back at the new member. *)
Definition pb_release_union_field (n : nat) (iter : pb_field_iter_t) : D pb_field_iter_t :=
  old_tag <- read_size (pSize iter) ;;
  let new_tag := tag (cur iter) in
  if old_tag =? 0 then ret iter
  else if old_tag =? new_tag then ret iter
  else
    match pb_field_iter_find iter old_tag with
    | None => stuck
    | Some (false, _) => return_error "invalid union tag"
    | Some (true, old_iter) =>
        liftW (pb_release_single_field n old_iter) ;;
        match pb_field_iter_find old_iter new_tag with
        | None => stuck
        | Some (false, _) => return_error "iterator error"
        | Some (true, new_iter) => ret new_iter
        end
    end.

(** Clear a newly allocated item. *)
Definition initialize_pointer_field (n : nat) (pItem : Z) (iter : pb_field_iter_t) : D unit :=
  let lt := PB_LTYPE (type (cur iter)) in
  if (lt =? PB_LTYPE_STRING) || (lt =? PB_LTYPE_BYTES) then liftW (store_ptr pItem NULL)
  else if lt =? PB_LTYPE_SUBMESSAGE then
    liftW (modify (set_mem (fun m => memzero m pItem (data_size (cur iter))))) ;;
    liftW (pb_message_set_to_defaults n (submsg_fields (cur iter)) pItem)
  else ret tt.
End Fields.

(** What one level of message decoding is built from: the fuel [n] bounds the
    nesting of defaults and releases, [decode_noinit] decodes a submessage. *)
Section OneField.
Context `{Env}.
Variables (n : nat) (decode_noinit : list pb_field_t -> Z -> D unit).

(** [pb_decode]: defaults first, release on failure. *)
Definition pb_decode_with (fields : list pb_field_t) (dest : Z) : D unit :=
  liftW (pb_message_set_to_defaults n fields dest) ;;
  status <- attempt (decode_noinit fields dest) ;;
  match status with
  | Some _ => ret tt
  | None => liftW (pb_release n fields dest) ;; fail
  end.

Definition pb_dec_submessage (field : pb_field_t) (dest : Z) : D unit :=
  substream <- pb_make_string_substream ;;
  if ptr field =? NULL then return_error "invalid field descriptor"
  else
    r <- on_substream substream
           (if PB_HTYPE (type field) =? PB_HTYPE_REPEATED
            then pb_decode_with (submsg_fields field) dest
            else decode_noinit (submsg_fields field) dest) ;;
    let '(status, substream') := r in
    pb_close_string_substream substream' ;;
    match status with Some _ => ret tt | None => fail end.

(** [PB_DECODERS[ltype](stream, field, dest)]: there is no decoder for
    extensions, nor beyond the table. *)
Definition PB_DECODERS (ltype : Z) (field : pb_field_t) (dest : Z) : D unit :=
  if ltype =? PB_LTYPE_BOOL then pb_dec_bool field dest
  else if ltype =? PB_LTYPE_VARINT then pb_dec_varint field dest
  else if ltype =? PB_LTYPE_UVARINT then pb_dec_uvarint field dest
  else if ltype =? PB_LTYPE_SVARINT then pb_dec_svarint field dest
  else if ltype =? PB_LTYPE_FIXED32 then pb_dec_fixed32 field dest
  else if ltype =? PB_LTYPE_FIXED64 then pb_dec_fixed64 field dest
  else if ltype =? PB_LTYPE_BYTES then pb_dec_bytes field dest
  else if ltype =? PB_LTYPE_STRING then pb_dec_string field dest
  else if ltype =? PB_LTYPE_SUBMESSAGE then pb_dec_submessage field dest
  else if ltype =? PB_LTYPE_FIXED_LENGTH_BYTES then pb_dec_fixed_length_bytes field dest
  else stuck.

(** [iter->pos->data_size * ( *size)], in 32 bits. *)
Definition item_offset (field : pb_field_t) (size : Z) : Z := u32 (data_size field * size).

(** The packed array loop: whether every item was decoded. *)
Definition decode_packed_items (iter : pb_field_iter_t) : D bool :=
  let field := cur iter in
  loop (fun _ : unit =>
    s <- get ;;
    size <- read_size (pSize iter) ;;
    if (0 <? bytes_left (stream s)) && (size <? array_size field) then
      status <- attempt (PB_DECODERS (PB_LTYPE (type field)) field
                           (pData iter + item_offset field size)) ;;
      match status with
      | None => ret (inr false)
      | Some _ =>
          size <- read_size (pSize iter) ;;
          write_size (pSize iter) (size + 1) ;;
          ret (inl tt)
      end
    else ret (inr true)) tt.

Definition decode_static_field (wire_type : Z) (iter : pb_field_iter_t) : D unit :=
  let field := cur iter in
  let ty := type field in
  let func := PB_DECODERS (PB_LTYPE ty) in
  if PB_HTYPE ty =? PB_HTYPE_REQUIRED then func field (pData iter)
  else if PB_HTYPE ty =? PB_HTYPE_OPTIONAL then
    (if size_at_data iter then ret tt
     else a <- liftW (size_addr (pSize iter)) ;; liftW (storeW a 1 1)) ;;
    func field (pData iter)
  else if PB_HTYPE ty =? PB_HTYPE_REPEATED then
    if (wire_type =? PB_WT_STRING) && (PB_LTYPE ty <=? PB_LTYPE_LAST_PACKABLE) then
      substream <- pb_make_string_substream ;;
      r <- on_substream substream (decode_packed_items iter) ;;
      let '(status, substream') := r in
      if negb (bytes_left substream' =? 0) then return_error "array overflow"
      else
        pb_close_string_substream substream' ;;
        match status with Some true => ret tt | _ => fail end
    else
      size <- read_size (pSize iter) ;;
      let pItem := pData iter + item_offset field size in
      write_size (pSize iter) (size + 1) ;;
      if array_size field <=? size then return_error "array overflow"
      else func field pItem
  else
    write_size (pSize iter) (tag field) ;;
    (if PB_LTYPE ty =? PB_LTYPE_SUBMESSAGE then
       liftW (modify (set_mem (fun m => memzero m (pData iter) (data_size field)))) ;;
       liftW (pb_message_set_to_defaults n (submsg_fields field) (pData iter))
     else ret tt) ;;
    func field (pData iter).

(** How the packed pointer loop ends. *)
Inductive packed_end : Type := PackedDone | PackedFailed | PackedTooMany.

Definition decode_packed_pointer_items (iter : pb_field_iter_t) : D packed_end :=
  let field := cur iter in
  size0 <- read_size (pSize iter) ;;
  loop (fun allocated_size =>
    s <- get ;;
    if bytes_left (stream s) =? 0 then ret (inr PackedDone)
    else
      size <- read_size (pSize iter) ;;
      if size =? PB_SIZE_MAX then ret (inr PackedTooMany)
      else
        alloc <-
          (if allocated_size <? size + 1 then
             if data_size field =? 0 then stuck
             else
               let remain := (bytes_left (stream s) - 1) / data_size field + 1 in
               let allocated_size' :=
                 if remain <? u64 (PB_SIZE_MAX - allocated_size)
                 then u64 (allocated_size + remain) else u64 (allocated_size + 1) in
               r <- attempt (allocate_field (pData iter) (data_size field) allocated_size') ;;
               ret (match r with Some _ => Some allocated_size' | None => None end)
           else ret (Some allocated_size)) ;;
        match alloc with
        | None => ret (inr PackedFailed)
        | Some allocated_size' =>
            base <- liftW (load_ptr (pData iter)) ;;
            let pItem := base + item_offset field size in
            initialize_pointer_field n pItem iter ;;
            status <- attempt (PB_DECODERS (PB_LTYPE (type field)) field pItem) ;;
            match status with
            | None => ret (inr PackedFailed)
            | Some _ =>
                size <- read_size (pSize iter) ;;
                write_size (pSize iter) (size + 1) ;;
                ret (inl allocated_size')
            end
        end) size0.

Definition decode_pointer_field (wire_type : Z) (iter : pb_field_iter_t) : D unit :=
  let field := cur iter in
  let ty := type field in
  let func := PB_DECODERS (PB_LTYPE ty) in
  if negb (PB_HTYPE ty =? PB_HTYPE_REPEATED) then
    old <- liftW (load_ptr (pData iter)) ;;
    (if (PB_LTYPE ty =? PB_LTYPE_SUBMESSAGE) && negb (old =? NULL)
     then liftW (pb_release_single_field n iter) else ret tt) ;;
    (if PB_HTYPE ty =? PB_HTYPE_ONEOF then write_size (pSize iter) (tag field) else ret tt) ;;
    if (PB_LTYPE ty =? PB_LTYPE_STRING) || (PB_LTYPE ty =? PB_LTYPE_BYTES)
    then func field (pData iter)
    else
      allocate_field (pData iter) (data_size field) 1 ;;
      item <- liftW (load_ptr (pData iter)) ;;
      initialize_pointer_field n item iter ;;
      func field item
  else if (wire_type =? PB_WT_STRING) && (PB_LTYPE ty <=? PB_LTYPE_LAST_PACKABLE) then
    substream <- pb_make_string_substream ;;
    r <- on_substream substream (decode_packed_pointer_items iter) ;;
    let '(status, substream') := r in
    (match status with
     | Some PackedTooMany =>
         modify (set_stream (is_set_error (Some "too many array entries"%string)))
     | _ => ret tt
     end) ;;
    pb_close_string_substream substream' ;;
    match status with Some PackedDone => ret tt | _ => fail end
  else
    size <- read_size (pSize iter) ;;
    if size =? PB_SIZE_MAX then return_error "too many array entries"
    else
      allocate_field (pData iter) (data_size field) (u32 (size + 1)) ;;
      base <- liftW (load_ptr (pData iter)) ;;
      size <- read_size (pSize iter) ;;
      let pItem := base + item_offset field size in
      write_size (pSize iter) (size + 1) ;;
      initialize_pointer_field n pItem iter ;;
      func field pItem.

(** [pCallback->funcs.decode(stream, iter->pos, arg)] *)
Definition call_user_decode (f : Z) (field : pb_field_t) (arg : Z) : D unit :=
  s <- get ;;
  let '(ok, i, w) := user_decode f (stream s) field arg (d_world s) in
  put (set_world w (set_stream (fun _ => i) s)) ;;
  if ok : bool then ret tt else fail.

Definition decode_callback_field (wire_type : Z) (iter : pb_field_iter_t) : D unit :=
  let pCallback := pData iter in
  if pCallback =? NULL then pb_skip_field wire_type
  else
    decode <- liftW (load_ptr (pb_callback_funcs pCallback)) ;;
    if decode =? NULL then pb_skip_field wire_type
    else
      let arg := pb_callback_arg pCallback in
      if wire_type =? PB_WT_STRING then
        substream <- pb_make_string_substream ;;
        r <- on_substream substream
               (loop (fun _ : unit =>
                  call_user_decode decode (cur iter) arg ;;
                  s <- get ;;
                  ret (if bytes_left (stream s) =? 0 then inr tt else inl tt)) tt) ;;
        let '(status, substream') := r in
        match status with
        | None => return_error "callback failed"
        | Some _ => pb_close_string_substream substream'
        end
      else
        buffer <- read_raw_value wire_type 10 ;;
        liftW (modify (set_mem (fun m => store_bytes m callback_buffer buffer))) ;;
        r <- on_substream
               (pb_istream_from_buffer callback_buffer (Z.of_nat (List.length buffer)))
               (call_user_decode decode (cur iter) arg) ;;
        match fst r with Some _ => ret tt | None => fail end.

(** Decoding one field moves the iterator only through a oneof release, which
    brings it back; the iterator is returned as the C code leaves it. *)
Definition decode_field (wire_type : Z) (iter : pb_field_iter_t) : D pb_field_iter_t :=
  iter' <-
    (if PB_HTYPE (type (cur iter)) =? PB_HTYPE_ONEOF then pb_release_union_field n iter
     else ret iter) ;;
  let atype := PB_ATYPE (type (cur iter')) in
  (if atype =? PB_ATYPE_STATIC then decode_static_field wire_type iter'
   else if atype =? PB_ATYPE_POINTER then decode_pointer_field wire_type iter'
   else if atype =? PB_ATYPE_CALLBACK then decode_callback_field wire_type iter'
   else return_error "invalid field type") ;;
  ret iter'.

(** ** Extensions *)

Definition default_extension_decoder (extension tag' wire_type : Z) : D unit :=
  t <- liftW (load_ptr (ext_type extension)) ;;
  arg <- liftW (load_ptr (ext_type_arg t)) ;;
  if negb (tag (field_at (desc arg) 0) =? tag') then ret tt
  else
    iter <- liftW (iter_from_extension extension) ;;
    liftW (storeW (ext_found extension) 1 1) ;;
    decode_field wire_type iter ;; ret tt.

Definition call_ext_decode (f extension tag' wire_type : Z) : D unit :=
  s <- get ;;
  let '(ok, i, w) := user_ext_decode f (stream s) extension tag' wire_type (d_world s) in
  put (set_world w (set_stream (fun _ => i) s)) ;;
  if ok : bool then ret tt else fail.

Definition decode_extension (tag' wire_type : Z) (iter : pb_field_iter_t) : D unit :=
  extension <- liftW (load_ptr (pData iter)) ;;
  s0 <- get ;;
  let pos := bytes_left (stream s0) in
  loop (fun extension =>
    s <- get ;;
    if negb (extension =? NULL) && (pos =? bytes_left (stream s)) then
      t <- liftW (load_ptr (ext_type extension)) ;;
      decode <- liftW (load_ptr (ext_type_decode t)) ;;
      (if negb (decode =? NULL) then call_ext_decode decode extension tag' wire_type
       else default_extension_decoder extension tag' wire_type) ;;
      next <- liftW (load_ptr (ext_next extension)) ;;
      ret (inl next)
    else ret (inr tt)) extension.

Fixpoint find_extension_loop (k : nat) (start_pos : nat) (iter : pb_field_iter_t)
    : option (bool * pb_field_iter_t) :=
  match k with
  | O => None
  | S k' =>
      if PB_LTYPE (type (cur iter)) =? PB_LTYPE_EXTENSION then Some (true, iter)
      else
        let iter' := snd (pb_field_iter_next iter) in
        if Nat.eqb (pos iter') start_pos then Some (false, iter')
        else find_extension_loop k' start_pos iter'
  end.

Definition find_extension_field (iter : pb_field_iter_t) : option (bool * pb_field_iter_t) :=
  find_extension_loop (S (List.length (start iter))) (pos iter) iter.

(** ** The message loop *)

(** The locals of [pb_decode_noinit]. *)
Record locals : Type := mk_locals {
  l_iter : pb_field_iter_t;
  extension_range_start : Z;
  fields_seen : list Z;
  fixed_count_field : option nat
}.

Definition allbits : Z := u32 (Z.lnot 0).

(** No field has this tag: an extension, or data to skip. *)
Definition decode_unknown (wire_type tag' : Z) (l : locals) : D locals :=
  r <-
    (if extension_range_start l <=? tag' then
       match find_extension_field (l_iter l) with
       | None => stuck
       | Some (found, iter') =>
           let range := if found : bool then tag (cur iter') else u32 (-1) in
           let l' := mk_locals iter' range (fields_seen l) (fixed_count_field l) in
           if range <=? tag' then
             s <- get ;;
             decode_extension tag' wire_type iter' ;;
             s' <- get ;;
             ret (negb (bytes_left (stream s) =? bytes_left (stream s')), l')
           else ret (false, l')
       end
     else ret (false, l)) ;;
  let '(handled, l') := r in
  if handled : bool then ret l' else pb_skip_field wire_type ;; ret l'.

(** Whether the last fixed count field got all its entries. *)
Definition fixed_count_complete (iter : pb_field_iter_t) (f : option nat) : D unit :=
  c <- gets fixed_count_size ;;
  match f with
  | Some i =>
      if c =? array_size (field_at (start iter) i) then ret tt
      else return_error "wrong size for fixed count field"
  | None => ret tt
  end.

(** [iter.pSize = &fixed_count_size] for a repeated field without a counter. *)
Definition track_fixed_count (iter : pb_field_iter_t) (f : option nat)
    : D (pb_field_iter_t * option nat) :=
  if (PB_HTYPE (type (cur iter)) =? PB_HTYPE_REPEATED) && size_at_data iter then
    f' <-
      (if bool_decide (f = Some (pos iter)) then ret f
       else
         fixed_count_complete iter f ;;
         modify (set_count 0) ;;
         ret (Some (pos iter))) ;;
    ret (mk_iter (start iter) (pos iter) (required_field_index iter) (dest_struct iter)
           (pData iter) FixedCountSize, f')
  else ret (iter, f).

Definition mark_required (iter : pb_field_iter_t) (seen : list Z) : list Z :=
  if (PB_HTYPE (type (cur iter)) =? PB_HTYPE_REQUIRED)
     && (required_field_index iter <? PB_MAX_REQUIRED_FIELDS)
  then
    let i := Z.to_nat (Z.shiftr (required_field_index iter) 5) in
    <[i := Z.lor (nth i seen 0)
             (u32 (Z.shiftl 1 (Z.land (required_field_index iter) 31)))]> seen
  else seen.

(** One turn of [while (stream->bytes_left)]. *)
Definition decode_step (l : locals) : D (locals + locals) :=
  s <- get ;;
  if bytes_left (stream s) =? 0 then ret (inr l)
  else
    t <- pb_decode_tag ;;
    match t with
    | inl eof => if eof : bool then ret (inr l) else fail
    | inr (wire_type, tag') =>
        match pb_field_iter_find (l_iter l) tag' with
        | None => stuck
        | Some (false, iter) =>
            l' <- decode_unknown wire_type tag'
                    (mk_locals iter (extension_range_start l) (fields_seen l)
                       (fixed_count_field l)) ;;
            ret (inl l')
        | Some (true, iter) =>
            r <- track_fixed_count iter (fixed_count_field l) ;;
            let '(iter, fixed) := r in
            let seen := mark_required iter (fields_seen l) in
            iter <- decode_field wire_type iter ;;
            ret (inl (mk_locals iter (extension_range_start l) seen fixed))
        end
    end.

(** Seek to the end of the field array to count the required fields. *)
Definition req_field_count (iter : pb_field_iter_t) : D Z :=
  r <- loop (fun iter =>
    let req := required_field_index iter in
    let last_type := type (cur iter) in
    let '(more, iter') := pb_field_iter_next iter in
    ret (if more : bool then inl iter' else inr (req, last_type, iter'))) iter ;;
  let '(req, last_type, iter') := r in
  let req :=
    if (PB_HTYPE last_type =? PB_HTYPE_REQUIRED) && negb (tag (cur iter') =? 0)
    then req + 1 else req in
  ret (if PB_MAX_REQUIRED_FIELDS <? req then PB_MAX_REQUIRED_FIELDS else req).

Definition check_required (seen : list Z) (req : Z) : D unit :=
  if 0 <? req then
    let words := Z.to_nat (Z.shiftr req 5) in
    if existsb (fun i => negb (nth i seen 0 =? allbits)) (seq 0 words)
    then return_error "missing required field"
    else if negb (Z.land req 31 =? 0)
            && negb (nth words seen 0 =? Z.shiftr allbits (32 - Z.land req 31))
    then return_error "missing required field"
    else ret tt
  else ret tt.

Definition decode_noinit_body (fields : list pb_field_t) (dest : Z) : D unit :=
  let iter := snd (pb_field_iter_begin fields dest) in
  l <- loop decode_step (mk_locals iter 0 [0; 0] None) ;;
  fixed_count_complete (l_iter l) (fixed_count_field l) ;;
  req <- req_field_count (l_iter l) ;;
  check_required (fields_seen l) req.

(** The body with its own local [fixed_count_size]. *)
Definition decode_noinit_frame (fields : list pb_field_t) (dest : Z) : D unit := fun s =>
  let '(r, s') := decode_noinit_body fields dest (set_count 0 s) in
  (r, set_count (fixed_count_size s) s').
End OneField.

(** ** Decoding a message *)

Section Decode.
Context `{Env}.

(** [n] bounds the nesting of messages. *)
Fixpoint pb_decode_noinit (n : nat) (fields : list pb_field_t) (dest : Z) {struct n} : D unit :=
  match n with
  | O => stuck
  | S n' => decode_noinit_frame n' (pb_decode_noinit n') fields dest
  end.

Definition pb_decode (n : nat) (fields : list pb_field_t) (dest : Z) : D unit :=
  pb_decode_with n (pb_decode_noinit n) fields dest.

Definition pb_decode_delimited_noinit (n : nat) (fields : list pb_field_t) (dest : Z) : D unit :=
  substream <- pb_make_string_substream ;;
  r <- on_substream substream (pb_decode_noinit n fields dest) ;;
  let '(status, substream') := r in
  pb_close_string_substream substream' ;;
  match status with Some _ => ret tt | None => fail end.

Definition pb_decode_delimited (n : nat) (fields : list pb_field_t) (dest : Z) : D unit :=
  substream <- pb_make_string_substream ;;
  r <- on_substream substream (pb_decode n fields dest) ;;
  let '(status, substream') := r in
  pb_close_string_substream substream' ;;
  match status with Some _ => ret tt | None => fail end.

Definition pb_decode_nullterminated (n : nat) (fields : list pb_field_t) (dest : Z) : D unit :=
  pb_decode n fields dest.
End Decode.
