(* ===== verification/PbEncode.v ===== *)
(** [nanopb/pb_encode.c], the encoder: output streams, the wire-level writers,
    the field encoders and the message encoder with its two passes over
    submessages (sizing, then writing). *)

From Stdlib Require Import ZArith Lia List String Bool.
From stdpp Require Import base gmap list.
From S2P Require Import Prelude Memory Pb PbCommon.

Record estate : Type := mk_estate { ostream : pb_ostream_t; e_world : world }.

Abbreviation E := (M estate).

Definition set_ostream (f : pb_ostream_t -> pb_ostream_t) (s : estate) : estate :=
  mk_estate (f (ostream s)) (e_world s).
Definition set_eworld (w : world) (s : estate) : estate := mk_estate (ostream s) w.

Definition os_set_state (st : Z) (o : pb_ostream_t) : pb_ostream_t :=
  mk_ostream (os_callback o) st (max_size o) (bytes_written o) (os_errmsg o).
Definition os_set_written (n : Z) (o : pb_ostream_t) : pb_ostream_t :=
  mk_ostream (os_callback o) (os_state o) (max_size o) n (os_errmsg o).
Definition os_set_error (e : option string) (o : pb_ostream_t) : pb_ostream_t :=
  mk_ostream (os_callback o) (os_state o) (max_size o) (bytes_written o) e.

Definition liftE {A} (m : W A) : E A := zoom e_world set_eworld m.

(** [PB_RETURN_ERROR(stream, msg)] *)
Definition e_return_error {A} (msg : string) : E A :=
  modify (set_ostream (fun o => os_set_error (PB_SET_ERROR (os_errmsg o) msg) o)) ;; fail.

(** The source of [pb_write]: a local array, or memory ([NULL] is [WMem 0]). *)
Inductive wsrc : Type :=
  | WLocal (l : list Z)
  | WMem (a : Z).

Definition src_bytes (m : gmap Z Z) (buf : wsrc) (count : Z) : list Z :=
  match buf with
  | WLocal l => take (Z.to_nat count) l
  | WMem a => load_bytes m a (Z.to_nat count)
  end.

Definition is_null_cb (c : ocallback) : bool := match c with null_cb => true | _ => false end.

Section Writers.
Context `{Env}.

(** [buf_write], on the bytes of [buf]. *)
Definition buf_write (bytes : list Z) (count : Z) : E unit :=
  s <- get ;;
  let dest := os_state (ostream s) in
  modify (set_ostream (os_set_state (dest + count))) ;;
  liftE (modify (set_mem (fun m => store_bytes m dest bytes))).

Definition pb_ostream_from_buffer (buf bufsize : Z) : pb_ostream_t :=
  mk_ostream buf_write_cb buf bufsize 0 None.

(** [stream->callback(stream, buf, count)], for a non-null callback. *)
Definition call_ocallback (buf : wsrc) (count : Z) : E unit :=
  s <- get ;;
  let bytes := src_bytes (mem (e_world s)) buf count in
  match os_callback (ostream s) with
  | null_cb => stuck
  | buf_write_cb => buf_write bytes count
  | user_write_cb f =>
      let '(ok, st, w) := user_write f (os_state (ostream s)) bytes (e_world s) in
      put (set_eworld w (set_ostream (os_set_state st) s)) ;;
      if ok : bool then ret tt else fail
  end.

Definition pb_write (buf : wsrc) (count : Z) : E unit :=
  s <- get ;;
  let o := ostream s in
  (if (0 <? count) && negb (is_null_cb (os_callback o)) then
     if (u64 (bytes_written o + count) <? bytes_written o)
        || (max_size o <? u64 (bytes_written o + count))
     then e_return_error "stream full"
     else
       r <- attempt (call_ocallback buf count) ;;
       match r with
       | None => e_return_error "io error"
       | Some _ => ret tt
       end
   else ret tt) ;;
  modify (set_ostream (fun o => os_set_written (u64 (bytes_written o + count)) o)).

(** The bytes the loop of [pb_encode_varint] puts in [buffer], before the top
    bit of the last one is cleared; the buffer has room for 10. *)
Fixpoint varint_loop (room : nat) (value : Z) : option (list Z) :=
  if value =? 0 then Some []
  else
    match room with
    | O => None
    | S room' =>
        l ← varint_loop room' (Z.shiftr value 7);
        Some (u8 (Z.lor (Z.land value 0x7F) 0x80) :: l)
    end.

(** [buffer[i-1] &= 0x7F;] *)
Definition clear_last (l : list Z) : list Z :=
  let i := (List.length l - 1)%nat in
  <[i := Z.land (nth i l 0) 0x7F]> l.

Definition pb_encode_varint (value : Z) : E unit :=
  if value <=? 0x7F then pb_write (WLocal [u8 value]) 1
  else
    match varint_loop 10 value with
    | None => stuck
    | Some l => pb_write (WLocal (clear_last l)) (Z.of_nat (List.length l))
    end.

Definition pb_encode_svarint (value : Z) : E unit :=
  let zigzagged :=
    if value <? 0 then u64 (Z.lnot (u64 (Z.shiftl (u64 value) 1)))
    else u64 (Z.shiftl (u64 value) 1) in
  pb_encode_varint zigzagged.

Definition pb_encode_fixed32 (value : Z) : E unit :=
  val <- liftE (loadW value 4) ;;
  let byte k := Z.land (Z.shiftr val k) 0xFF in
  pb_write (WLocal [byte 0; byte 8; byte 16; byte 24]) 4.

Definition pb_encode_fixed64 (value : Z) : E unit :=
  val <- liftE (loadW value 8) ;;
  let byte k := Z.land (Z.shiftr val k) 0xFF in
  pb_write (WLocal [byte 0; byte 8; byte 16; byte 24; byte 32; byte 40; byte 48; byte 56]) 8.

Definition pb_encode_tag (wiretype field_number : Z) : E unit :=
  pb_encode_varint (Z.lor (u64 (Z.shiftl field_number 3)) wiretype).

Definition wire_type_of (ltype : Z) : option Z :=
  if (ltype =? PB_LTYPE_BOOL) || (ltype =? PB_LTYPE_VARINT)
     || (ltype =? PB_LTYPE_UVARINT) || (ltype =? PB_LTYPE_SVARINT) then Some PB_WT_VARINT
  else if ltype =? PB_LTYPE_FIXED32 then Some PB_WT_32BIT
  else if ltype =? PB_LTYPE_FIXED64 then Some PB_WT_64BIT
  else if (ltype =? PB_LTYPE_BYTES) || (ltype =? PB_LTYPE_STRING)
     || (ltype =? PB_LTYPE_SUBMESSAGE) || (ltype =? PB_LTYPE_FIXED_LENGTH_BYTES)
  then Some PB_WT_STRING
  else None.

Definition pb_encode_tag_for_field (field : pb_field_t) : E unit :=
  match wire_type_of (PB_LTYPE (type field)) with
  | Some wiretype => pb_encode_tag wiretype (tag field)
  | None => e_return_error "invalid field type"
  end.

Definition pb_encode_string (buffer : wsrc) (size : Z) : E unit :=
  pb_encode_varint size ;; pb_write buffer size.

(** A bool is read bytewise, so that an invalid one still counts as true. *)
Definition safe_read_bool (m : gmap Z Z) (p : Z) : bool := negb (load_byte m p =? 0).

Definition pb_enc_bool (field : pb_field_t) (src : Z) : E unit :=
  b <- liftE (gets (fun w => safe_read_bool (mem w) src)) ;;
  pb_encode_varint (if b : bool then 1 else 0).

(** The integer of [data_size] bytes at [src], sign extended on demand. *)
Definition load_int (signed : bool) (data_size' src : Z) : E Z :=
  let read n :=
    v <- liftE (loadW src n) ;;
    ret (if signed then swrap (8 * Z.of_nat n) v else v) in
  if data_size' =? 1 then read 1%nat
  else if data_size' =? 2 then read 2%nat
  else if data_size' =? 4 then read 4%nat
  else if data_size' =? 8 then read 8%nat
  else e_return_error "invalid data_size".

Definition pb_enc_varint (field : pb_field_t) (src : Z) : E unit :=
  value <- load_int true (data_size field) src ;; pb_encode_varint (u64 value).
Definition pb_enc_uvarint (field : pb_field_t) (src : Z) : E unit :=
  value <- load_int false (data_size field) src ;; pb_encode_varint value.
Definition pb_enc_svarint (field : pb_field_t) (src : Z) : E unit :=
  value <- load_int true (data_size field) src ;; pb_encode_svarint value.
Definition pb_enc_fixed32 (field : pb_field_t) (src : Z) : E unit := pb_encode_fixed32 src.
Definition pb_enc_fixed64 (field : pb_field_t) (src : Z) : E unit := pb_encode_fixed64 src.

Definition pb_enc_bytes (field : pb_field_t) (src : Z) : E unit :=
  if src =? NULL then pb_encode_string (WMem NULL) 0
  else
    size <- liftE (loadW src sizeof_pb_size) ;;
    let allocsize := PB_BYTES_ARRAY_T_ALLOCSIZE size in
    if (allocsize <? size)
       || ((PB_ATYPE (type field) =? PB_ATYPE_STATIC) && (data_size field <? allocsize))
    then e_return_error "bytes size exceeded"
    else pb_encode_string (WMem (src + pb_bytes_array_bytes)) size.

Definition pb_enc_string (field : pb_field_t) (src : Z) : E unit :=
  let max_size' :=
    if PB_ATYPE (type field) =? PB_ATYPE_POINTER then u64 (-1) else data_size field in
  size <-
    (if src =? NULL then ret 0
     else loop (fun size =>
       s <- get ;;
       if (size <? max_size') && negb (load_byte (mem (e_world s)) (src + size) =? 0)
       then ret (inl (size + 1)) else ret (inr size)) 0) ;;
  pb_encode_string (WMem src) size.

Definition pb_enc_fixed_length_bytes (field : pb_field_t) (src : Z) : E unit :=
  pb_encode_string (WMem src) (data_size field).

(** ** Proto3 zero values *)

Definition check_proto3_body (check : pb_field_t -> Z -> E bool)
    (field : pb_field_t) (pData' : Z) : E bool :=
  let ty := type field in
  let pSize' := pData' + size_offset field in
  let singular : E bool :=
    if (PB_ATYPE ty =? PB_ATYPE_STATIC) && (PB_LTYPE ty =? PB_LTYPE_BYTES) then
      size <- liftE (loadW pData' sizeof_pb_size) ;; ret (size =? 0)
    else if (PB_ATYPE ty =? PB_ATYPE_STATIC) && (PB_LTYPE ty =? PB_LTYPE_STRING) then
      c <- liftE (loadW pData' 1) ;; ret (c =? 0)
    else if (PB_ATYPE ty =? PB_ATYPE_STATIC) && (PB_LTYPE ty =? PB_LTYPE_FIXED_LENGTH_BYTES) then
      ret (data_size field =? 0)
    else if (PB_ATYPE ty =? PB_ATYPE_STATIC) && (PB_LTYPE ty =? PB_LTYPE_SUBMESSAGE) then
      let '(nonempty, iter) := pb_field_iter_begin (desc (ptr field)) pData' in
      if nonempty : bool then
        loop (fun iter =>
          zero <- check (cur iter) (pData iter) ;;
          if negb zero then ret (inr false)
          else
            let '(more, iter') := pb_field_iter_next iter in
            ret (if more : bool then inl iter' else inr true)) iter
      else ret true
    else if (PB_ATYPE ty =? PB_ATYPE_POINTER) && (PB_LTYPE_LAST_PACKABLE <? PB_LTYPE ty) then
      p <- liftE (load_ptr pData') ;; ret (p =? NULL)
    else
      s <- get ;;
      ret (forallb (fun b => b =? 0)
             (load_bytes (mem (e_world s)) pData' (Z.to_nat (data_size field)))) in
  if PB_HTYPE ty =? PB_HTYPE_REQUIRED then ret false
  else if PB_HTYPE ty =? PB_HTYPE_REPEATED then
    if negb (size_offset field =? 0) then
      size <- liftE (loadW pSize' sizeof_pb_size) ;; ret (size =? 0)
    else if PB_ATYPE ty =? PB_ATYPE_STATIC then ret false
    else singular
  else if PB_HTYPE ty =? PB_HTYPE_ONEOF then
    size <- liftE (loadW pSize' sizeof_pb_size) ;; ret (size =? 0)
  else if (PB_HTYPE ty =? PB_HTYPE_OPTIONAL) && negb (size_offset field =? 0) then
    s <- get ;; ret (negb (safe_read_bool (mem (e_world s)) pSize'))
  else singular.

Fixpoint pb_check_proto3_default_value (n : nat) (field : pb_field_t) (pData' : Z) {struct n}
    : E bool :=
  match n with
  | O => stuck
  | S n' => check_proto3_body (pb_check_proto3_default_value n') field pData'
  end.
End Writers.

(** One level of message encoding: [encode] encodes a submessage. *)
Section OneLevel.
Context `{Env}.
Variables (n : nat) (encode : list pb_field_t -> Z -> E unit).

(** Run [m] on another stream: its status, and the stream it leaves. *)
Definition on_ostream {A} (sub : pb_ostream_t) (m : E A) : E (option A * pb_ostream_t) :=
  s <- get ;;
  modify (set_ostream (fun _ => sub)) ;;
  r <- attempt m ;;
  s' <- get ;;
  modify (set_ostream (fun _ => ostream s)) ;;
  ret (r, ostream s').

Definition pb_encode_submessage (fields : list pb_field_t) (src : Z) : E unit :=
  r <- on_ostream PB_OSTREAM_SIZING (encode fields src) ;;
  let '(sized, substream) := r in
  match sized with
  | None => modify (set_ostream (os_set_error (os_errmsg substream))) ;; fail
  | Some _ =>
      let size := bytes_written substream in
      pb_encode_varint size ;;
      s <- get ;;
      let o := ostream s in
      if is_null_cb (os_callback o) then pb_write (WMem NULL) size
      else if max_size o <? u64 (bytes_written o + size) then e_return_error "stream full"
      else
        r <- on_ostream (mk_ostream (os_callback o) (os_state o) size 0 None)
               (encode fields src) ;;
        let '(status, substream) := r in
        modify (set_ostream (fun o =>
          mk_ostream (os_callback o) (os_state substream) (max_size o)
            (u64 (bytes_written o + bytes_written substream)) (os_errmsg substream))) ;;
        if negb (bytes_written substream =? size) then e_return_error "submsg size changed"
        else match status with Some _ => ret tt | None => fail end
  end.

Definition pb_enc_submessage (field : pb_field_t) (src : Z) : E unit :=
  if ptr field =? NULL then e_return_error "invalid field descriptor"
  else pb_encode_submessage (desc (ptr field)) src.

Definition PB_ENCODERS (ltype : Z) (field : pb_field_t) (src : Z) : E unit :=
  if ltype =? PB_LTYPE_BOOL then pb_enc_bool field src
  else if ltype =? PB_LTYPE_VARINT then pb_enc_varint field src
  else if ltype =? PB_LTYPE_UVARINT then pb_enc_uvarint field src
  else if ltype =? PB_LTYPE_SVARINT then pb_enc_svarint field src
  else if ltype =? PB_LTYPE_FIXED32 then pb_enc_fixed32 field src
  else if ltype =? PB_LTYPE_FIXED64 then pb_enc_fixed64 field src
  else if ltype =? PB_LTYPE_BYTES then pb_enc_bytes field src
  else if ltype =? PB_LTYPE_STRING then pb_enc_string field src
  else if ltype =? PB_LTYPE_SUBMESSAGE then pb_enc_submessage field src
  else if ltype =? PB_LTYPE_FIXED_LENGTH_BYTES then pb_enc_fixed_length_bytes field src
  else stuck.

(** [for (i = 0; i < count; i++) { item(p); p += data_size; }] *)
Definition for_items (item : Z -> E unit) (data_size' count p : Z) : E unit :=
  loop (fun '(i, p) =>
    if i <? count then item p ;; ret (inl (i + 1, p + data_size')) else ret (inr tt)) (0, p).

Definition encode_array (field : pb_field_t) (pData' count : Z)
    (func : pb_field_t -> Z -> E unit) : E unit :=
  let ty := type field in
  if count =? 0 then ret tt
  else if negb (PB_ATYPE ty =? PB_ATYPE_POINTER) && (array_size field <? count)
  then e_return_error "array max size exceeded"
  else if PB_LTYPE ty <=? PB_LTYPE_LAST_PACKABLE then
    pb_encode_tag PB_WT_STRING (tag field) ;;
    size <-
      (if PB_LTYPE ty =? PB_LTYPE_FIXED32 then ret (u64 (4 * count))
       else if PB_LTYPE ty =? PB_LTYPE_FIXED64 then ret (u64 (8 * count))
       else
         r <- on_ostream PB_OSTREAM_SIZING
                (for_items (func field) (data_size field) count pData') ;;
         match r with
         | (None, _) => fail
         | (Some _, sizestream) => ret (bytes_written sizestream)
         end) ;;
    pb_encode_varint size ;;
    s <- get ;;
    if is_null_cb (os_callback (ostream s)) then pb_write (WMem NULL) size
    else for_items (func field) (data_size field) count pData'
  else
    for_items (fun p =>
      pb_encode_tag_for_field field ;;
      if (PB_ATYPE ty =? PB_ATYPE_POINTER)
         && ((PB_LTYPE ty =? PB_LTYPE_STRING) || (PB_LTYPE ty =? PB_LTYPE_BYTES))
      then p' <- liftE (load_ptr p) ;; func field p'
      else func field p) (data_size field) count pData'.

(** What [pSize] points to: the message, or the local [implicit_has]. *)
Inductive has_ptr : Type := HasMem (a : Z) | ImplicitHas.

Definition encode_basic_field (field : pb_field_t) (pData' : Z) : E unit :=
  let ty := type field in
  let func := PB_ENCODERS (PB_LTYPE ty) in
  let pSize' := if negb (size_offset field =? 0) then HasMem (pData' + size_offset field)
                else ImplicitHas in
  implicit_has <-
    (if negb (size_offset field =? 0) then ret false
     else if PB_HTYPE ty =? PB_HTYPE_OPTIONAL then
       zero <- pb_check_proto3_default_value n field pData' ;; ret (negb zero)
     else ret true) ;;
  let pointer := PB_ATYPE ty =? PB_ATYPE_POINTER in
  pData' <- (if pointer then liftE (load_ptr pData') else ret pData') ;;
  let implicit_has := if pointer then negb (pData' =? NULL) else implicit_has in
  if PB_HTYPE ty =? PB_HTYPE_REQUIRED then
    if pData' =? NULL then e_return_error "missing required field"
    else pb_encode_tag_for_field field ;; func field pData'
  else if PB_HTYPE ty =? PB_HTYPE_OPTIONAL then
    s <- get ;;
    let has := match pSize' with
               | HasMem a => safe_read_bool (mem (e_world s)) a
               | ImplicitHas => implicit_has
               end in
    if has then pb_encode_tag_for_field field ;; func field pData' else ret tt
  else if PB_HTYPE ty =? PB_HTYPE_REPEATED then
    count <- match pSize' with
             | HasMem a => liftE (loadW a sizeof_pb_size)
             | ImplicitHas => ret (array_size field)
             end ;;
    encode_array field pData' count func
  else
    match pSize' with
    | ImplicitHas => stuck
    | HasMem a =>
        which <- liftE (loadW a sizeof_pb_size) ;;
        if which =? tag field then pb_encode_tag_for_field field ;; func field pData'
        else ret tt
    end.

(** [callback->funcs.encode(stream, field, arg)] *)
Definition call_user_encode (f : Z) (field : pb_field_t) (arg : Z) : E unit :=
  s <- get ;;
  let '(ok, o, w) := user_encode f (ostream s) field arg (e_world s) in
  put (mk_estate o w) ;;
  if ok : bool then ret tt else fail.

Definition encode_callback_field (field : pb_field_t) (pData' : Z) : E unit :=
  f <- liftE (load_ptr (pb_callback_funcs pData')) ;;
  if negb (f =? NULL) then
    r <- attempt (call_user_encode f field (pb_callback_arg pData')) ;;
    match r with
    | None => e_return_error "callback error"
    | Some _ => ret tt
    end
  else ret tt.

Definition encode_field (field : pb_field_t) (pData' : Z) : E unit :=
  let atype := PB_ATYPE (type field) in
  if (atype =? PB_ATYPE_STATIC) || (atype =? PB_ATYPE_POINTER)
  then encode_basic_field field pData'
  else if atype =? PB_ATYPE_CALLBACK then encode_callback_field field pData'
  else e_return_error "invalid field type".

Definition default_extension_encoder (extension : Z) : E unit :=
  t <- liftE (load_ptr (ext_type extension)) ;;
  arg <- liftE (load_ptr (ext_type_arg t)) ;;
  let field := field_at (desc arg) 0 in
  if PB_ATYPE (type field) =? PB_ATYPE_POINTER then encode_field field (ext_dest extension)
  else dest <- liftE (load_ptr (ext_dest extension)) ;; encode_field field dest.

Definition call_ext_encode (f extension : Z) : E unit :=
  s <- get ;;
  let '(ok, o, w) := user_ext_encode f (ostream s) extension (e_world s) in
  put (mk_estate o w) ;;
  if ok : bool then ret tt else fail.

Definition encode_extension_field (field : pb_field_t) (pData' : Z) : E unit :=
  extension <- liftE (load_ptr pData') ;;
  loop (fun extension =>
    if extension =? NULL then ret (inr tt)
    else
      t <- liftE (load_ptr (ext_type extension)) ;;
      f <- liftE (load_ptr (ext_type_encode t)) ;;
      (if negb (f =? NULL) then call_ext_encode f extension
       else default_extension_encoder extension) ;;
      next <- liftE (load_ptr (ext_next extension)) ;;
      ret (inl next)) extension.

(** One turn of the loop of [pb_encode]. *)
Definition encode_step (iter : pb_field_iter_t) : E unit :=
  if PB_LTYPE (type (cur iter)) =? PB_LTYPE_EXTENSION
  then encode_extension_field (cur iter) (pData iter)
  else encode_field (cur iter) (pData iter).

Definition encode_message (fields : list pb_field_t) (src : Z) : E unit :=
  let '(nonempty, iter) := pb_field_iter_begin fields src in
  if nonempty : bool then
    loop (fun iter =>
      encode_step iter ;;
      let '(more, iter') := pb_field_iter_next iter in
      ret (if more : bool then inl iter' else inr tt)) iter
  else ret tt.
End OneLevel.

Section Encode.
Context `{Env}.

(** [n] bounds the nesting of messages. *)
Fixpoint pb_encode (n : nat) (fields : list pb_field_t) (src : Z) {struct n} : E unit :=
  match n with
  | O => stuck
  | S n' => encode_message n' (pb_encode n') fields src
  end.

Definition pb_encode_delimited (n : nat) (fields : list pb_field_t) (src : Z) : E unit :=
  pb_encode_submessage (pb_encode n) fields src.

Definition pb_encode_nullterminated (n : nat) (fields : list pb_field_t) (src : Z) : E unit :=
  pb_encode n fields src ;; pb_write (WLocal [0]) 1.

(** [pb_get_encoded_size(size, fields, src)]: [None] is a [false] return. *)
Definition pb_get_encoded_size (n : nat) (fields : list pb_field_t) (src : Z) (w : world)
    : outcome Z :=
  match pb_encode n fields src (mk_estate PB_OSTREAM_SIZING w) with
  | (Ret _, s) => Ret (bytes_written (ostream s))
  | (Fail, _) => Fail
  | (Stuck, _) => Stuck
  end.
End Encode.
