(* ===== verification/Base64.v ===== *)
(** [SocketRocket/fbase64.c]: base64 encoding ([f_b64_ntop]) and decoding
    ([f_b64_pton]) into a caller's buffer. Arrays are lists, a write outside its
    array is undefined ([None]), a C string is the list of its characters before
    the terminator. *)

From Stdlib Require Import ZArith Lia List String Ascii Bool.
From stdpp Require Import base gmap list.
From S2P Require Import Prelude.

(** ** The code *)

Definition chars (s : string) : list Z :=
  map (fun c => Z.of_nat (nat_of_ascii c)) (list_ascii_of_string s).

Definition Base64 : list Z :=
  chars "ABCDEFGHIJKLMNOPQRSTUVWXYZabcdefghijklmnopqrstuvwxyz0123456789+/".
Definition Pad64 : Z := 61.

(** [Base64[i]] *)
Definition digit (i : Z) : Z := nth (Z.to_nat i) Base64 0.

(** [target[i] = v;] *)
Definition array_set (target : list Z) (i v : Z) : option (list Z) :=
  if (0 <=? i) && (i <? Z.of_nat (List.length target))
  then Some (<[Z.to_nat i := u8 v]> target) else None.

(** [target[datalength++] = c;] for each character in turn. *)
Fixpoint array_append (target : list Z) (datalength : Z) (cs : list Z) : option (list Z) :=
  match cs with
  | [] => Some target
  | c :: cs' => target' ← array_set target datalength c; array_append target' (datalength + 1) cs'
  end.

Definition output0 (i0 : Z) : Z := Z.shiftr i0 2.
Definition output1 (i0 i1 : Z) : Z := u8 (Z.shiftl (Z.land i0 0x03) 4 + Z.shiftr i1 4).
Definition output2 (i1 i2 : Z) : Z := u8 (Z.shiftl (Z.land i1 0x0f) 2 + Z.shiftr i2 6).
Definition output3 (i2 : Z) : Z := Z.land i2 0x3f.

(** The last, incomplete group, then the terminator. *)
Definition ntop_finish (src target : list Z) (targsize datalength : Z)
    : option (Z * list Z) :=
  let terminate target datalength :=
    if targsize <=? datalength then Some (-1, target)
    else target' ← array_set target datalength 0; Some (swrap 32 datalength, target') in
  match src with
  | [] => terminate target datalength
  | i0 :: rest =>
      let i1 := nth 0 rest 0 in
      if targsize <? u64 (datalength + 4) then Some (-1, target)
      else
        target' ← array_append target datalength
          [digit (output0 i0); digit (output1 i0 i1);
           (if Nat.eqb (List.length src) 1 then Pad64 else digit (output2 i1 0)); Pad64];
        terminate target' (datalength + 4)
  end.

Fixpoint ntop_loop (src target : list Z) (targsize datalength : Z) : option (Z * list Z) :=
  match src with
  | i0 :: i1 :: i2 :: src' =>
      if targsize <? u64 (datalength + 4) then Some (-1, target)
      else
        target' ← array_append target datalength
          [digit (output0 i0); digit (output1 i0 i1); digit (output2 i1 i2); digit (output3 i2)];
        ntop_loop src' target' targsize (datalength + 4)
  | _ => ntop_finish src target targsize datalength
  end.

(** The return value and the target. *)
Definition f_b64_ntop (src target : list Z) (targsize : Z) : option (Z * list Z) :=
  ntop_loop src target targsize 0.

(** [isspace], in the C locale. *)
Definition isspace (ch : Z) : bool := (ch =? 32) || ((9 <=? ch) && (ch <=? 13)).

(** [pos - Base64] for [pos = strchr(Base64, ch)]. *)
Fixpoint index_of (ch : Z) (l : list Z) (i : Z) : option Z :=
  match l with
  | [] => None
  | c :: l' => if c =? ch then Some i else index_of ch l' (i + 1)
  end.
Definition base64_pos (ch : Z) : option Z := index_of ch Base64 0.

(** [*src++] on the characters, the terminator included. *)
Definition next_char (src : list Z) : Z * list Z :=
  match src with
  | [] => (0, [])
  | c :: src' => (c, src')
  end.

(** [target[i]] *)
Definition array_get (target : list Z) (i : Z) : option Z := target !! Z.to_nat i.

(** The four digits of a group, by [state]: [inl] is an early [return]. *)
Definition pton_digit (pos state tarindex : Z) (target : option (list Z)) (targsize : Z)
    : option (Z + Z * Z * option (list Z)) :=
  if state =? 0 then
    match target with
    | None => Some (inr (1, tarindex, None))
    | Some t =>
        if targsize <=? tarindex then Some (inl (-1))
        else t' ← array_set t tarindex (Z.shiftl pos 2); Some (inr (1, tarindex, Some t'))
    end
  else if state =? 3 then
    match target with
    | None => Some (inr (0, u32 (tarindex + 1), None))
    | Some t =>
        if targsize <=? tarindex then Some (inl (-1))
        else
          v ← array_get t tarindex;
          t' ← array_set t tarindex (Z.lor v pos);
          Some (inr (0, u32 (tarindex + 1), Some t'))
    end
  else
    let right := if state =? 1 then 4 else 2 in
    let mask := if state =? 1 then 0x0f else 0x03 in
    let left := if state =? 1 then 4 else 6 in
    match target with
    | None => Some (inr (state + 1, u32 (tarindex + 1), None))
    | Some t =>
        if targsize <=? u32 (tarindex + 1) then Some (inl (-1))
        else
          v ← array_get t tarindex;
          t' ← array_set t tarindex (Z.lor v (Z.shiftr pos right));
          t'' ← array_set t' (u32 (tarindex + 1)) (Z.shiftl (Z.land pos mask) left);
          Some (inr (state + 1, u32 (tarindex + 1), Some t''))
    end.

(** [for (; ch != 0; ch = *src++) if (!isspace(ch)) break;] *)
Fixpoint skip_spaces (ch : Z) (src : list Z) : Z * list Z :=
  if ch =? 0 then (ch, src)
  else if isspace ch then
    match src with
    | [] => (0, [])
    | c :: src' => skip_spaces c src'
    end
  else (ch, src).

(** After the first pad character. *)
Definition pton_padded (src : list Z) (state tarindex : Z) (target : option (list Z))
    : option Z :=
  let '(ch, src) := next_char src in
  if (state =? 0) || (state =? 1) then Some (-1)
  else
    let check ch src :=
      let '(ch, _) := skip_spaces ch src in
      if negb (ch =? 0) then Some (-1)
      else match target with
           | None => Some (swrap 32 tarindex)
           | Some t =>
               v ← array_get t tarindex;
               Some (if negb (v =? 0) then -1 else swrap 32 tarindex)
           end in
    if state =? 2 then
      let '(ch, src) := skip_spaces ch src in
      if negb (ch =? Pad64) then Some (-1)
      else let '(ch, src) := next_char src in check ch src
    else check ch src.

Fixpoint pton_loop (src : list Z) (state tarindex : Z) (target : option (list Z)) (targsize : Z)
    : option (Z * option (list Z)) :=
  match src with
  | [] => Some (if negb (state =? 0) then -1 else swrap 32 tarindex, target)
  | ch :: src' =>
      if ch =? 0 then Some (if negb (state =? 0) then -1 else swrap 32 tarindex, target)
      else if isspace ch then pton_loop src' state tarindex target targsize
      else if ch =? Pad64 then
        v ← pton_padded src' state tarindex target; Some (v, target)
      else
        match base64_pos ch with
        | None => Some (-1, target)
        | Some pos =>
            r ← pton_digit pos state tarindex target targsize;
            match r with
            | inl v => Some (v, target)
            | inr (state', tarindex', target') => pton_loop src' state' tarindex' target' targsize
            end
        end
  end.

(** A null [target] is [None]. *)
Definition f_b64_pton (src : list Z) (target : option (list Z)) (targsize : Z)
    : option (Z * option (list Z)) :=
  pton_loop src 0 0 target targsize.
