(* ===== verification/Cct.v ===== *)
(** The message descriptors the application hands to the codec:
    [cct.nanopb.h]/[.c] of GoogleDataTransport and [firebasecore.nanopb.h]/[.c]
    of FirebaseCoreDiagnostics. The structures are laid out by the C rules, the
    tables are filled by the descriptor macros of [Pb], and the addresses of the
    tables and of the default values are chosen here as a linker would. *)

From Stdlib Require Import ZArith Lia List String Bool.
From stdpp Require Import base gmap list.
From S2P Require Import Prelude Memory Pb.

(** ** Enumerations *)

Definition NetworkConnectionInfo_NetworkType : list (string * Z) :=
  [("NONE", -1);
   ("MOBILE", 0);
   ("WIFI", 1);
   ("MOBILE_MMS", 2);
   ("MOBILE_SUPL", 3);
   ("MOBILE_DUN", 4);
   ("MOBILE_HIPRI", 5);
   ("WIMAX", 6);
   ("BLUETOOTH", 7);
   ("DUMMY", 8);
   ("ETHERNET", 9);
   ("MOBILE_FOTA", 10);
   ("MOBILE_IMS", 11);
   ("MOBILE_CBS", 12);
   ("WIFI_P2P", 13);
   ("MOBILE_IA", 14);
   ("MOBILE_EMERGENCY", 15);
   ("PROXY", 16);
   ("VPN", 17)]%string.

Definition NetworkConnectionInfo_MobileSubtype : list (string * Z) :=
  [("UNKNOWN_MOBILE_SUBTYPE", 0);
   ("GPRS", 1);
   ("EDGE", 2);
   ("UMTS", 3);
   ("CDMA", 4);
   ("EVDO_0", 5);
   ("EVDO_A", 6);
   ("RTT", 7);
   ("HSDPA", 8);
   ("HSUPA", 9);
   ("HSPA", 10);
   ("IDEN", 11);
   ("EVDO_B", 12);
   ("LTE", 13);
   ("EHRPD", 14);
   ("HSPAP", 15);
   ("GSM", 16);
   ("TD_SCDMA", 17);
   ("IWLAN", 18);
   ("LTE_CA", 19);
   ("COMBINED", 100)]%string.

Definition ClientInfo_ClientType : list (string * Z) :=
  [("CLIENT_UNKNOWN", 0);
   ("IOS_FIREBASE", 15)]%string.

Definition QosTierConfiguration_QosTier : list (string * Z) :=
  [("DEFAULT", 0);
   ("UNMETERED_ONLY", 1);
   ("UNMETERED_OR_DAILY", 2);
   ("FAST_IF_RADIO_AWAKE", 3);
   ("NEVER", 4)]%string.

Definition ICoreConfiguration_ConfigurationType : list (string * Z) :=
  [("UNKNOWN_CONFIGURATION_TYPE", 0);
   ("CORE", 1);
   ("SDK", 2)]%string.

Definition ICoreConfiguration_BuildType : list (string * Z) :=
  [("UNKNOWN_BUILD_TYPE", 0);
   ("INTERNAL", 1);
   ("EAP", 2);
   ("PROD", 3)]%string.

Definition ICoreConfiguration_ServiceType : list (string * Z) :=
  [("UNKNOWN_SDK_SERVICE", 0);
   ("ICORE", 1);
   ("ADMOB", 2);
   ("APP_INVITE", 3);
   ("SIGN_IN", 5);
   ("GCM", 6);
   ("MAPS", 7);
   ("SCION", 8);
   ("ANALYTICS", 9);
   ("APP_INDEXING", 10);
   ("CONFIG", 11);
   ("DURABLE_DEEP_LINKS", 12);
   ("CRASH", 13);
   ("AUTH", 14);
   ("DATABASE", 15);
   ("STORAGE", 16);
   ("MESSAGING", 17);
   ("MEASUREMENT", 18);
   ("REMOTE_CONFIG", 19);
   ("DYNAMIC_LINKS", 20);
   ("INVITES", 21);
   ("AUTH_UI", 22);
   ("FIRESTORE", 23);
   ("PERFORMANCE", 24);
   ("ML_VISION_ON_DEVICE_FACE", 26);
   ("ML_VISION_ON_DEVICE_BARCODE", 27);
   ("ML_VISION_ON_DEVICE_TEXT", 28);
   ("ML_VISION_ON_DEVICE_LABEL", 29);
   ("ML_MODEL_INTERPRETER", 30);
   ("IN_APP_MESSAGING", 31);
   ("FUNCTIONS", 32);
   ("ML_NATURAL_LANGUAGE", 33);
   ("ML_VISION_ON_DEVICE_AUTOML", 34);
   ("ML_VISION_ON_DEVICE_OBJECT_DETECTION", 35)]%string.

Definition ICoreConfiguration_PodName : list (string * Z) :=
  [("UNKNOWN_POD_NAME", 0);
   ("GOOGLE", 1);
   ("FIREBASE", 2)]%string.

Definition ICoreConfiguration_DeploymentType : list (string * Z) :=
  [("UNKNOWN", 0);
   ("COCOAPODS", 1);
   ("ZIP_FILE", 2);
   ("CARTHAGE", 3);
   ("SPM", 4)]%string.

(** The value of an enumeration constant. *)
Definition enum_value (e : list (string * Z)) (c : string) : Z :=
  match find (fun nv => String.eqb (fst nv) c) e with
  | Some nv => snd nv
  | None => 0
  end.

(** ** Structures *)

Definition t_bool : ctype := mk_ctype 1 1 1.
Definition t_int32 : ctype := mk_ctype 4 4 4.
Definition t_int64 : ctype := mk_ctype 8 8 8.
Definition t_enum : ctype := mk_ctype 4 4 4.
Definition t_pb_size : ctype := mk_ctype 4 4 4.
Definition t_ptr (elem : Z) : ctype := mk_ctype 8 8 elem.
Definition t_struct (ms : list (string * ctype)) : ctype :=
  mk_ctype (struct_size ms) (struct_align ms) (struct_size ms).

(** [struct { pb_size_t size; pb_byte_t bytes[1]; }] *)
Definition pb_bytes_array_members : list (string * ctype) :=
  [("size", t_pb_size); ("bytes", mk_ctype 1 1 1)]%string.
Definition sizeof_pb_bytes_array : Z := struct_size pb_bytes_array_members.

Definition IosClientInfo_members : list (string * ctype) :=
  [("os_major_version", t_ptr sizeof_pb_bytes_array);
   ("os_full_version", t_ptr sizeof_pb_bytes_array);
   ("application_build", t_ptr sizeof_pb_bytes_array);
   ("country", t_ptr sizeof_pb_bytes_array);
   ("model", t_ptr sizeof_pb_bytes_array);
   ("language_code", t_ptr sizeof_pb_bytes_array);
   ("application_bundle_id", t_ptr sizeof_pb_bytes_array)]%string.

Definition IosClientInfo : struct := layout IosClientInfo_members.

Definition ClientInfo_members : list (string * ctype) :=
  [("has_client_type", t_bool);
   ("client_type", t_enum);
   ("has_ios_client_info", t_bool);
   ("ios_client_info", t_struct IosClientInfo_members)]%string.

Definition ClientInfo : struct := layout ClientInfo_members.

Definition NetworkConnectionInfo_members : list (string * ctype) :=
  [("has_network_type", t_bool);
   ("network_type", t_enum);
   ("has_mobile_subtype", t_bool);
   ("mobile_subtype", t_enum)]%string.

Definition NetworkConnectionInfo : struct := layout NetworkConnectionInfo_members.

Definition LogEvent_members : list (string * ctype) :=
  [("has_event_time_ms", t_bool);
   ("event_time_ms", t_int64);
   ("source_extension", t_ptr sizeof_pb_bytes_array);
   ("has_event_code", t_bool);
   ("event_code", t_int32);
   ("has_timezone_offset_seconds", t_bool);
   ("timezone_offset_seconds", t_int64);
   ("has_event_uptime_ms", t_bool);
   ("event_uptime_ms", t_int64);
   ("has_network_connection_info", t_bool);
   ("network_connection_info", t_struct NetworkConnectionInfo_members)]%string.

Definition LogEvent : struct := layout LogEvent_members.

Definition LogRequest_members : list (string * ctype) :=
  [("has_client_info", t_bool);
   ("client_info", t_struct ClientInfo_members);
   ("has_log_source", t_bool);
   ("log_source", t_int32);
   ("log_event_count", t_pb_size);
   ("log_event", t_ptr (struct_size LogEvent_members));
   ("has_request_time_ms", t_bool);
   ("request_time_ms", t_int64);
   ("has_request_uptime_ms", t_bool);
   ("request_uptime_ms", t_int64);
   ("has_qos_tier", t_bool);
   ("qos_tier", t_enum)]%string.

Definition LogRequest : struct := layout LogRequest_members.

Definition BatchedLogRequest_members : list (string * ctype) :=
  [("log_request_count", t_pb_size);
   ("log_request", t_ptr (struct_size LogRequest_members))]%string.

Definition BatchedLogRequest : struct := layout BatchedLogRequest_members.

Definition QosTierConfiguration_members : list (string * ctype) :=
  [("has_qos_tier", t_bool);
   ("qos_tier", t_enum);
   ("has_log_source", t_bool);
   ("log_source", t_int32)]%string.

Definition QosTierConfiguration : struct := layout QosTierConfiguration_members.

Definition QosTiersOverride_members : list (string * ctype) :=
  [("qos_tier_configuration_count", t_pb_size);
   ("qos_tier_configuration", t_ptr (struct_size QosTierConfiguration_members));
   ("has_qos_tier_fingerprint", t_bool);
   ("qos_tier_fingerprint", t_int64)]%string.

Definition QosTiersOverride : struct := layout QosTiersOverride_members.

Definition LogResponse_members : list (string * ctype) :=
  [("has_next_request_wait_millis", t_bool);
   ("next_request_wait_millis", t_int64);
   ("has_qos_tier", t_bool);
   ("qos_tier", t_struct QosTiersOverride_members)]%string.

Definition LogResponse : struct := layout LogResponse_members.

Definition ICoreConfiguration_members : list (string * ctype) :=
  [("has_configuration_type", t_bool);
   ("configuration_type", t_enum);
   ("sdk_service_installed_count", t_pb_size);
   ("sdk_service_installed", t_ptr 4);
   ("device_model", t_ptr sizeof_pb_bytes_array);
   ("app_id", t_ptr sizeof_pb_bytes_array);
   ("bundle_id", t_ptr sizeof_pb_bytes_array);
   ("has_pod_name", t_bool);
   ("pod_name", t_enum);
   ("icore_version", t_ptr sizeof_pb_bytes_array);
   ("sdk_version", t_ptr sizeof_pb_bytes_array);
   ("has_sdk_name", t_bool);
   ("sdk_name", t_enum);
   ("has_app_count", t_bool);
   ("app_count", t_int32);
   ("os_version", t_ptr sizeof_pb_bytes_array);
   ("min_supported_ios_version", t_ptr sizeof_pb_bytes_array);
   ("has_use_default_app", t_bool);
   ("use_default_app", t_bool);
   ("has_deployed_in_app_store", t_bool);
   ("deployed_in_app_store", t_bool);
   ("has_dynamic_framework_count", t_bool);
   ("dynamic_framework_count", t_int32);
   ("apple_framework_version", t_ptr sizeof_pb_bytes_array);
   ("has_using_zip_file", t_bool);
   ("using_zip_file", t_bool);
   ("has_deployment_type", t_bool);
   ("deployment_type", t_enum);
   ("platform_info", t_ptr sizeof_pb_bytes_array);
   ("has_swizzling_enabled", t_bool);
   ("swizzling_enabled", t_bool);
   ("has_using_gdt", t_bool);
   ("using_gdt", t_bool)]%string.

Definition ICoreConfiguration : struct := layout ICoreConfiguration_members.

(** ** Descriptor tables *)

Definition LogEvent_fields_addr : Z := 4096.
Definition NetworkConnectionInfo_fields_addr : Z := 4352.
Definition IosClientInfo_fields_addr : Z := 4608.
Definition ClientInfo_fields_addr : Z := 4864.
Definition BatchedLogRequest_fields_addr : Z := 5120.
Definition LogRequest_fields_addr : Z := 5376.
Definition QosTierConfiguration_fields_addr : Z := 5632.
Definition QosTiersOverride_fields_addr : Z := 5888.
Definition LogResponse_fields_addr : Z := 6144.
Definition ICoreConfiguration_fields_addr : Z := 6400.

Definition NetworkConnectionInfo_network_type_default_addr : Z := 12288.
Definition NetworkConnectionInfo_mobile_subtype_default_addr : Z := 12304.
Definition LogRequest_qos_tier_default_addr : Z := 12320.
Definition QosTierConfiguration_log_source_default_addr : Z := 12336.

Definition LogEvent_fields : list pb_field_t :=
  [PB_FIELD 1 INT64 OPTIONAL STATIC FIRST LogEvent "event_time_ms" "event_time_ms" 0;
   PB_FIELD 6 BYTES OPTIONAL POINTER OTHER LogEvent "source_extension" "event_time_ms" 0;
   PB_FIELD 11 INT32 OPTIONAL STATIC OTHER LogEvent "event_code" "source_extension" 0;
   PB_FIELD 15 SINT64 OPTIONAL STATIC OTHER LogEvent "timezone_offset_seconds" "event_code" 0;
   PB_FIELD 17 INT64 OPTIONAL STATIC OTHER LogEvent "event_uptime_ms" "timezone_offset_seconds" 0;
   PB_FIELD 23 MESSAGE OPTIONAL STATIC OTHER LogEvent "network_connection_info" "event_uptime_ms" NetworkConnectionInfo_fields_addr]%string.

Definition NetworkConnectionInfo_fields : list pb_field_t :=
  [PB_FIELD 1 ENUM OPTIONAL STATIC FIRST NetworkConnectionInfo "network_type" "network_type" NetworkConnectionInfo_network_type_default_addr;
   PB_FIELD 2 UENUM OPTIONAL STATIC OTHER NetworkConnectionInfo "mobile_subtype" "network_type" NetworkConnectionInfo_mobile_subtype_default_addr]%string.

Definition IosClientInfo_fields : list pb_field_t :=
  [PB_FIELD 3 BYTES OPTIONAL POINTER FIRST IosClientInfo "os_major_version" "os_major_version" 0;
   PB_FIELD 4 BYTES OPTIONAL POINTER OTHER IosClientInfo "os_full_version" "os_major_version" 0;
   PB_FIELD 5 BYTES OPTIONAL POINTER OTHER IosClientInfo "application_build" "os_full_version" 0;
   PB_FIELD 6 BYTES OPTIONAL POINTER OTHER IosClientInfo "country" "application_build" 0;
   PB_FIELD 7 BYTES OPTIONAL POINTER OTHER IosClientInfo "model" "country" 0;
   PB_FIELD 8 BYTES OPTIONAL POINTER OTHER IosClientInfo "language_code" "model" 0;
   PB_FIELD 11 BYTES OPTIONAL POINTER OTHER IosClientInfo "application_bundle_id" "language_code" 0]%string.

Definition ClientInfo_fields : list pb_field_t :=
  [PB_FIELD 1 UENUM OPTIONAL STATIC FIRST ClientInfo "client_type" "client_type" 0;
   PB_FIELD 4 MESSAGE OPTIONAL STATIC OTHER ClientInfo "ios_client_info" "client_type" IosClientInfo_fields_addr]%string.

Definition BatchedLogRequest_fields : list pb_field_t :=
  [PB_FIELD 1 MESSAGE REPEATED POINTER FIRST BatchedLogRequest "log_request" "log_request" LogRequest_fields_addr]%string.

Definition LogRequest_fields : list pb_field_t :=
  [PB_FIELD 1 MESSAGE OPTIONAL STATIC FIRST LogRequest "client_info" "client_info" ClientInfo_fields_addr;
   PB_FIELD 2 INT32 OPTIONAL STATIC OTHER LogRequest "log_source" "client_info" 0;
   PB_FIELD 3 MESSAGE REPEATED POINTER OTHER LogRequest "log_event" "log_source" LogEvent_fields_addr;
   PB_FIELD 4 INT64 OPTIONAL STATIC OTHER LogRequest "request_time_ms" "log_event" 0;
   PB_FIELD 8 INT64 OPTIONAL STATIC OTHER LogRequest "request_uptime_ms" "request_time_ms" 0;
   PB_FIELD 9 UENUM OPTIONAL STATIC OTHER LogRequest "qos_tier" "request_uptime_ms" LogRequest_qos_tier_default_addr]%string.

Definition QosTierConfiguration_fields : list pb_field_t :=
  [PB_FIELD 2 UENUM OPTIONAL STATIC FIRST QosTierConfiguration "qos_tier" "qos_tier" 0;
   PB_FIELD 3 INT32 OPTIONAL STATIC OTHER QosTierConfiguration "log_source" "qos_tier" QosTierConfiguration_log_source_default_addr]%string.

Definition QosTiersOverride_fields : list pb_field_t :=
  [PB_FIELD 1 MESSAGE REPEATED POINTER FIRST QosTiersOverride "qos_tier_configuration" "qos_tier_configuration" QosTierConfiguration_fields_addr;
   PB_FIELD 2 INT64 OPTIONAL STATIC OTHER QosTiersOverride "qos_tier_fingerprint" "qos_tier_configuration" 0]%string.

Definition LogResponse_fields : list pb_field_t :=
  [PB_FIELD 1 INT64 OPTIONAL STATIC FIRST LogResponse "next_request_wait_millis" "next_request_wait_millis" 0;
   PB_FIELD 3 MESSAGE OPTIONAL STATIC OTHER LogResponse "qos_tier" "next_request_wait_millis" QosTiersOverride_fields_addr]%string.

Definition ICoreConfiguration_fields : list pb_field_t :=
  [PB_FIELD 1 UENUM OPTIONAL STATIC FIRST ICoreConfiguration "configuration_type" "configuration_type" 0;
   PB_FIELD 7 UENUM REPEATED POINTER OTHER ICoreConfiguration "sdk_service_installed" "configuration_type" 0;
   PB_FIELD 9 BYTES OPTIONAL POINTER OTHER ICoreConfiguration "device_model" "sdk_service_installed" 0;
   PB_FIELD 10 BYTES OPTIONAL POINTER OTHER ICoreConfiguration "app_id" "device_model" 0;
   PB_FIELD 12 BYTES OPTIONAL POINTER OTHER ICoreConfiguration "bundle_id" "app_id" 0;
   PB_FIELD 16 UENUM OPTIONAL STATIC OTHER ICoreConfiguration "pod_name" "bundle_id" 0;
   PB_FIELD 18 BYTES OPTIONAL POINTER OTHER ICoreConfiguration "icore_version" "pod_name" 0;
   PB_FIELD 19 BYTES OPTIONAL POINTER OTHER ICoreConfiguration "sdk_version" "icore_version" 0;
   PB_FIELD 20 UENUM OPTIONAL STATIC OTHER ICoreConfiguration "sdk_name" "sdk_version" 0;
   PB_FIELD 21 INT32 OPTIONAL STATIC OTHER ICoreConfiguration "app_count" "sdk_name" 0;
   PB_FIELD 22 BYTES OPTIONAL POINTER OTHER ICoreConfiguration "os_version" "app_count" 0;
   PB_FIELD 24 BYTES OPTIONAL POINTER OTHER ICoreConfiguration "min_supported_ios_version" "os_version" 0;
   PB_FIELD 25 BOOL OPTIONAL STATIC OTHER ICoreConfiguration "use_default_app" "min_supported_ios_version" 0;
   PB_FIELD 26 BOOL OPTIONAL STATIC OTHER ICoreConfiguration "deployed_in_app_store" "use_default_app" 0;
   PB_FIELD 27 INT32 OPTIONAL STATIC OTHER ICoreConfiguration "dynamic_framework_count" "deployed_in_app_store" 0;
   PB_FIELD 28 BYTES OPTIONAL POINTER OTHER ICoreConfiguration "apple_framework_version" "dynamic_framework_count" 0;
   PB_FIELD 29 BOOL OPTIONAL STATIC OTHER ICoreConfiguration "using_zip_file" "apple_framework_version" 0;
   PB_FIELD 30 UENUM OPTIONAL STATIC OTHER ICoreConfiguration "deployment_type" "using_zip_file" 0;
   PB_FIELD 31 BYTES OPTIONAL POINTER OTHER ICoreConfiguration "platform_info" "deployment_type" 0;
   PB_FIELD 33 BOOL OPTIONAL STATIC OTHER ICoreConfiguration "swizzling_enabled" "platform_info" 0;
   PB_FIELD 36 BOOL OPTIONAL STATIC OTHER ICoreConfiguration "using_gdt" "swizzling_enabled" 0]%string.

(** ** The constant data of the program *)

Definition cct_desc (a : Z) : list pb_field_t :=
  if a =? LogEvent_fields_addr then LogEvent_fields
  else if a =? NetworkConnectionInfo_fields_addr then NetworkConnectionInfo_fields
  else if a =? IosClientInfo_fields_addr then IosClientInfo_fields
  else if a =? ClientInfo_fields_addr then ClientInfo_fields
  else if a =? BatchedLogRequest_fields_addr then BatchedLogRequest_fields
  else if a =? LogRequest_fields_addr then LogRequest_fields
  else if a =? QosTierConfiguration_fields_addr then QosTierConfiguration_fields
  else if a =? QosTiersOverride_fields_addr then QosTiersOverride_fields
  else if a =? LogResponse_fields_addr then LogResponse_fields
  else if a =? ICoreConfiguration_fields_addr then ICoreConfiguration_fields
  else [].

Definition NetworkConnectionInfo_network_type_default : Z := enum_value NetworkConnectionInfo_NetworkType "NONE".
Definition NetworkConnectionInfo_mobile_subtype_default : Z := enum_value NetworkConnectionInfo_MobileSubtype "UNKNOWN_MOBILE_SUBTYPE".
Definition LogRequest_qos_tier_default : Z := enum_value QosTierConfiguration_QosTier "DEFAULT".
Definition QosTierConfiguration_log_source_default : Z := 0.

Definition cct_const_mem : gmap Z Z :=
  store (store (store (store ∅
    NetworkConnectionInfo_network_type_default_addr 4 NetworkConnectionInfo_network_type_default)
    NetworkConnectionInfo_mobile_subtype_default_addr 4 NetworkConnectionInfo_mobile_subtype_default)
    LogRequest_qos_tier_default_addr 4 LogRequest_qos_tier_default)
    QosTierConfiguration_log_source_default_addr 4 QosTierConfiguration_log_source_default.

(** The sizes the generator promises. *)
Definition gdt_cct_NetworkConnectionInfo_size : Z := 13.
Definition gdt_cct_QosTierConfiguration_size : Z := 13.

(** An allocator that places each block after every live one. *)
Definition bump (lv : gmap Z Z) (n : Z) : option Z :=
  let top := map_fold (fun b k acc => Z.max (b + k) acc) 1048576 lv in
  let b := align_up 16 top in
  if (0 <=? n) && (b + n <=? 2 ^ 64) then Some b else None.

(** No user callbacks: what the application's messages need. *)
#[export] Instance cct_env : Env := {|
  env_alloc := bump;
  desc := cct_desc;
  user_read := fun _ st _ w => (false, [], st, w);
  user_write := fun _ st _ w => (false, st, w);
  user_decode := fun _ i _ _ w => (false, i, w);
  user_encode := fun _ o _ _ w => (false, o, w);
  user_ext_decode := fun _ i _ _ _ w => (false, i, w);
  user_ext_encode := fun _ o _ w => (false, o, w);
  callback_buffer := 4096 * 4096
|}.
