(* ===== verification/Varint.v ===== *)
(** The varint readers of [pb_decode.c] on a memory stream: what they return and
    where the stream stands afterwards. *)

From Stdlib Require Import ZArith Lia List String Bool.
From stdpp Require Import base gmap list.
From S2P Require Import Prelude Base128 Memory Pb PbCommon PbDecode PbEncode.

(** A memory stream that stands on the bytes [l]. *)
Definition at_bytes (s : dstate) (l : list Z) : Prop :=
  is_callback (stream s) = buf_read_cb /\
  load_bytes (mem (d_world s)) (is_state (stream s)) (List.length l) = l /\
  Z.of_nat (List.length l) <= bytes_left (stream s) < 2 ^ 64.

(** The same stream, [k] bytes further. *)
Definition advance (k : Z) (s : dstate) : dstate :=
  set_stream (fun i => mk_istream (is_callback i) (is_state i + k) (bytes_left i - k) (is_errmsg i)) s.


(** ** Memory streams *)

Section Buffer.
Context `{Env}.

Lemma at_bytes_app_l s l1 l2 : at_bytes s (l1 ++ l2) -> at_bytes s l1.
Proof.
  intros (Hcb & Hl & Hn). rewrite length_app in *. rewrite load_bytes_app in Hl.
  apply app_inj_1 in Hl as [Hl _]; [|apply length_load_bytes].
  repeat split; [done..|lia|lia].
Qed.

Lemma at_bytes_app_r s l1 l2 :
  at_bytes s (l1 ++ l2) -> at_bytes (advance (Z.of_nat (List.length l1)) s) l2.
Proof.
  intros (Hcb & Hl & Hn). rewrite length_app in *. rewrite load_bytes_app in Hl.
  apply app_inj_1 in Hl as [_ Hl]; [|apply length_load_bytes].
  unfold at_bytes, advance, set_stream. cbn. repeat split; [done..|lia|lia].
Qed.

Lemma advance_advance j k s : advance j (advance k s) = advance (k + j) s.
Proof. unfold advance, set_stream. cbn. do 2 f_equal; lia. Qed.

Lemma advance_0 s : advance 0 s = s.
Proof.
  destruct s as [[] ? ?]. unfold advance, set_stream. cbn. do 2 f_equal; lia.
Qed.

(** The callback of a memory stream, reading into a local array. *)
Lemma call_callback_local s n :
  is_callback (stream s) = buf_read_cb ->
  call_callback RLocal n s =
    (Ret (load_bytes (mem (d_world s)) (is_state (stream s)) (Z.to_nat n)),
     set_stream (is_set_state (is_state (stream s) + n)) s).
Proof.
  intros Hcb. unfold call_callback. rewrite bind_get, Hcb. unfold buf_read.
  rewrite bind_get, bind_modify. done.
Qed.

(** Reading [count] bytes into a local array. *)
Lemma pb_read_at s l count :
  at_bytes s l -> 0 < count -> count = Z.of_nat (List.length l) ->
  pb_read RLocal count s = (Ret l, advance count s).
Proof.
  intros (Hcb & Hl & Hn) Hpos ->. unfold pb_read, pb_read_direct.
  destruct (Z.eqb_spec (Z.of_nat (List.length l)) 0); [lia|].
  rewrite bind_get. cbn [is_RNull andb]. rewrite bind_get.
  destruct (Z.ltb_spec (bytes_left (stream s)) (Z.of_nat (List.length l))); [lia|].
  erewrite bind_Ret by (apply attempt_Ret, call_callback_local, Hcb).
  cbv beta iota. rewrite bind_modify. unfold ret, advance, set_stream, uwrap. cbn.
  rewrite Nat2Z.id, Hl, Z.mod_small by lia. by destruct s as [[] ? ?].
Qed.

Lemma pb_readbyte_at s b l :
  at_bytes s (b :: l) -> pb_readbyte s = (Ret b, advance 1 s).
Proof.
  intros (Hcb & Hl & Hn). cbn [List.length load_bytes] in *. injection Hl as Hb Hl.
  unfold pb_readbyte. rewrite bind_get.
  destruct (Z.eqb_spec (bytes_left (stream s)) 0); [lia|].
  erewrite bind_Ret by (apply attempt_Ret, call_callback_local, Hcb).
  cbv beta iota. rewrite bind_modify. unfold ret, advance, set_stream, uwrap.
  change (Z.to_nat 1) with 1%nat. cbn.
  rewrite Hb, Z.mod_small by lia. by destruct s as [[] ? ?].
Qed.

Lemma at_bytes_tail s b l : at_bytes s (b :: l) -> at_bytes (advance 1 s) l.
Proof. exact (at_bytes_app_r s [b] l). Qed.
End Buffer.

(** ** The 64-bit reader *)

Section Decode64.
Context `{Env}.


Lemma pb_decode_varint_at s l :
  is_varint l -> (List.length l <= 10)%nat -> at_bytes s l ->
  pb_decode_varint s =
    (Ret (varint_value l mod 2 ^ 64), advance (Z.of_nat (List.length l)) s).
Proof.
  intros Hv Hlen Hat. apply wp_eq. unfold pb_decode_varint.
  eapply (wp_loop _ (fun a t => exists l1 l2,
    l = l1 ++ l2 /\ is_varint l2 /\ t = advance (Z.of_nat (List.length l1)) s /\
    a = (7 * Z.of_nat (List.length l1), varint_value l1))
    (fun a _ => 70 - fst a)).
  2: { exists [], l. rewrite advance_0. done. }
  2: { cbn. lia. }
  intros a t (l1 & l2 & -> & Hv2 & -> & ->). rewrite length_app in Hlen.
  destruct l2 as [|b l2]; [done|]. cbn [List.length fst] in *. split; [lia|].
  destruct (Z.leb_spec 64 (7 * Z.of_nat (List.length l1))) as [Hge|Hlt]; [lia|].
  apply wp_bind. apply at_bytes_app_r in Hat.
  eapply wp_of_eq; [by eapply pb_readbyte_at|].
  destruct (is_varint_cons _ _ Hv2) as (Hb & Hlast & Hrest).
  rewrite more_bytes by done. pose proof (varint_value_range l1).
  rewrite varint_group_wrap by lia. rewrite advance_advance.
  destruct (Z.leb_spec 0x80 b) as [Hmore|Hend]; apply wp_ret; cbn [fst].
  - assert (l2 <> []) as Hne by (intros ->; intuition lia). split.
    + exists (l1 ++ [b]), l2. rewrite <- app_assoc, length_app, varint_value_app. cbn.
      split; [done|]. split; [auto|]. split; [f_equal; lia|]. f_equal.
      * unfold uwrap. rewrite Z.mod_small by lia. lia.
      * unfold uwrap. rewrite Z.mod_small; [lia|].
        destruct l2; [done|]. cbn in Hlen. pose proof (land_7f_range b).
        assert (2 ^ (7 * Z.of_nat (List.length l1)) * 128 <= 2 ^ 63).
        { change 128 with (2 ^ 7). rewrite <- Z.pow_add_r by lia. apply Z.pow_le_mono_r; lia. }
        change (2 ^ 64) with (2 * 2 ^ 63). nia.
    + unfold uwrap. rewrite Z.mod_small by lia. lia.
  - assert (l2 = []) as -> by (apply Hlast; lia).
    rewrite varint_value_app, length_app. cbn. split; [|f_equal; lia].
    unfold uwrap. f_equal. lia.
Qed.
End Decode64.

(** ** The 32-bit reader *)

Section Decode32.
Context `{Env}.

(** The byte at position [k] of a varint, seen from its value. *)

(** One turn on the byte at position [k]: the low 32 bits accumulate. *)
Lemma varint32_step_at s l1 b l2 :
  is_varint (b :: l2) -> (List.length l1 < 10)%nat -> at_bytes s (b :: l2) ->
  let k := 7 * Z.of_nat (List.length l1) in
  let r := varint_value l1 mod 2 ^ 32 in
  let r' := varint_value (l1 ++ [b]) mod 2 ^ 32 in
  wp (varint32_step (k, r))
    (fun a t => t = advance 1 s /\
       a = (if 0x80 <=? b then inl (k + 7, r') else inr r') /\
       (k = 28 -> b < 0x80 -> b < 16) /\
       (35 <= k -> Z.land b 0x7F <> 0 ->
          2 ^ 31 <= r /\ b = if k <? 63 then 0xFF else 0x01))
    (fun _ => (k = 28 /\ 16 <= b < 0x80) \/
       (35 <= k /\ Z.land b 0x7F <> 0 /\
          (r < 2 ^ 31 \/ b <> if k <? 63 then 0xFF else 0x01))) s.
Proof.
  intros Hv Hlen Hat k r r'.
  assert (Ek : k = 7 * Z.of_nat (List.length l1)) by done.
  assert (Er : r = varint_value l1 mod 2 ^ 32) by done.
  assert (Er' : r' = varint_value (l1 ++ [b]) mod 2 ^ 32) by done.
  clearbody k r r'. unfold varint32_step.
  apply wp_bind. eapply wp_of_eq; [by eapply pb_readbyte_at|].
  destruct (is_varint_cons _ _ Hv) as (Hb & _ & _).
  assert (Hr : 0 <= r < 2 ^ 32) by (rewrite Er; apply Z.mod_pos_bound; lia).
  assert (Hk : u8 (k + 7) = k + 7) by (unfold uwrap; rewrite Z.mod_small; lia).
  rewrite Hk, more_bytes by done.
  assert (Hshift : (Z.shiftr r 31 =? 0) = (r <? 2 ^ 31)).
  { rewrite Z.shiftr_div_pow2 by lia.
    destruct (Z.ltb_spec r (2 ^ 31)), (Z.eqb_spec (r / 2 ^ 31) 0); done || zlia. }
  apply wp_bind. destruct (Z.leb_spec 32 k) as [Hhigh|Hlow].
  - assert (Hr' : r' = r).
    { rewrite Er, Er', varint_value_app. cbn [varint_value].
      replace (7 * Z.of_nat (List.length l1)) with (32 + (k - 32)) by lia.
      rewrite Z.pow_add_r by lia. rewrite <- Z.mul_assoc, Z.mul_comm. apply Z.mod_add. lia. }
    rewrite Hshift, Hr'.
    destruct (_ && _) eqn:Hover.
    + apply wp_bind, wp_modify, wp_fail. right.
      apply andb_true_iff in Hover as [Hne Hor]. split; [lia|]. split; [lia|].
      apply orb_true_iff in Hor as [?|Hx]; [left; lia|right]. lia.
    + apply wp_ret. destruct (Z.leb_spec 0x80 b).
      * apply wp_ret. split; [done|]. split; [done|]. split; [lia|]. intros _ Hne. lia.
      * assert (k + 7 <> 35) by lia. destruct (Z.eqb_spec (k + 7) 35); [done|]. cbn [andb].
        apply wp_ret. split; [done|]. split; [done|]. split; [lia|]. intros _ Hne. lia.
  - assert (Hsmall : r = varint_value l1).
    { rewrite Er. apply Z.mod_small.
      pose proof (varint_value_range l1) as Hrange. rewrite <- Ek in Hrange.
      pose proof (Z.pow_lt_mono_r 2 k 32 ltac:(lia) ltac:(lia)). lia. }
    assert (Hr' : Z.lor r (u32 (Z.shiftl (Z.land b 0x7F) k)) = r').
    { pose proof (varint_value_range l1) as Hrange. rewrite <- Ek in Hrange.
      rewrite lor_uwrap by lia. rewrite lor_shiftl_add by lia.
      rewrite Er', varint_value_app, <- Ek. cbn [varint_value].
      rewrite Hsmall. unfold uwrap. f_equal. lia. }
    apply wp_ret. rewrite Hr'. destruct (Z.leb_spec 0x80 b) as [Hmore|Hend].
    + apply wp_ret. repeat split; [lia..|]. lia.
    + rewrite land_70 by lia. destruct (_ && _) eqn:Hover.
      * apply wp_bind, wp_modify, wp_fail. left. lia.
      * apply wp_ret. repeat split; lia.
Qed.

(** No byte of [l] overflows 32 bits, seen at its position. *)
Definition fits32 (l : list Z) : Prop := forall l1 b l2, l = l1 ++ b :: l2 ->
  let k := 7 * Z.of_nat (List.length l1) in
  (k = 28 -> b < 0x80 -> b < 16) /\
  (35 <= k -> Z.land b 0x7F <> 0 ->
     2 ^ 31 <= varint_value l1 mod 2 ^ 32 /\ b = if k <? 63 then 0xFF else 0x01).

(** The state of the loop over the bytes after the first. *)
Definition varint32_inv (l : list Z) (s : dstate) (a : Z * Z) (t : dstate) : Prop :=
  exists l1 l2, l = l1 ++ l2 /\ is_varint l2 /\
    t = advance (Z.of_nat (List.length l1)) s /\
    a = (7 * Z.of_nat (List.length l1), varint_value l1 mod 2 ^ 32).

Lemma varint32_inv_first s b l :
  is_varint (b :: l) -> 0x80 <= b ->
  varint32_inv (b :: l) s (7, Z.land b 0x7F) (advance 1 s).
Proof.
  intros Hv Hb. destruct (is_varint_cons _ _ Hv) as (_ & Hlast & Hrest).
  exists [b], l. cbn. split; [done|]. split; [apply Hrest; intros ->; intuition lia|].
  split; [done|]. f_equal. rewrite Z.mod_small; [lia|]. pose proof (land_7f_range b). lia.
Qed.

Lemma pb_decode_varint32_fits s l :
  is_varint l -> (List.length l <= 10)%nat -> fits32 l -> at_bytes s l ->
  pb_decode_varint32_eof s =
    (Ret (inr (varint_value l mod 2 ^ 32)), advance (Z.of_nat (List.length l)) s).
Proof.
  intros Hv Hlen Hfits Hat. destruct l as [|b l]; [done|].
  unfold pb_decode_varint32_eof.
  erewrite bind_Ret by (eapply attempt_Ret, pb_readbyte_at; exact Hat). cbv beta iota.
  destruct (is_varint_cons _ _ Hv) as (Hb & Hlast & Hrest).
  rewrite <- (negb_involutive (_ =? 0)), more_bytes by done.
  destruct (Z.leb_spec 0x80 b) as [Hmore|Hend]; cbn [negb].
  2: { assert (l = []) as -> by (apply Hlast; lia). cbn.
       rewrite land_7f, (Z.mod_small b 128), Z.mul_0_r, Z.add_0_r, Z.mod_small by lia. done. }
  assert (Hloop : loop varint32_step (7, Z.land b 0x7F) (advance 1 s) =
    (Ret (varint_value (b :: l) mod 2 ^ 32), advance (Z.of_nat (List.length (b :: l))) s)).
  2: { by erewrite bind_Ret by (eapply attempt_Ret, Hloop). }
  apply wp_eq.
  eapply (wp_loop _ (varint32_inv (b :: l) s) (fun a _ => 70 - fst a));
    [|by apply varint32_inv_first|cbn; lia].
  intros a t (l1 & l2 & Hl & Hv2 & -> & ->). rewrite Hl in *.
  rewrite length_app in Hlen. destruct l2 as [|c l2]; [done|].
  cbn [List.length fst] in *. split; [lia|]. apply at_bytes_app_r in Hat.
  specialize (Hfits l1 c l2 eq_refl) as [Hf1 Hf2].
  eapply wp_mono; [eapply varint32_step_at; [exact Hv2|lia|exact Hat]| |].
  - intros r t (-> & -> & _). rewrite advance_advance.
    destruct (is_varint_cons _ _ Hv2) as (Hc & Hlast2 & Hrest2).
    destruct (Z.leb_spec 0x80 c).
    + split; [|cbn; lia]. exists (l1 ++ [c]), l2. rewrite <- app_assoc, length_app. cbn.
      split; [done|]. split; [apply Hrest2; intros ->; intuition lia|]. split; f_equal; lia.
    + assert (l2 = []) as -> by (apply Hlast2; lia).
      split; [reflexivity|]. rewrite length_app. cbn. f_equal. lia.
  - intros t [[Hk Hc]|(Hk & Hne & Hc)]; [specialize (Hf1 Hk); lia|].
    specialize (Hf2 Hk Hne) as [? ?]. destruct Hc; [lia|done].
Qed.

(** The last byte of [l] does not fit. *)
Definition overflows32 (l : list Z) : Prop := exists l1 b, l = l1 ++ [b] /\
  let k := 7 * Z.of_nat (List.length l1) in
  (k = 28 /\ 16 <= b) \/ (35 <= k < 63 /\ 0 < b).

Lemma pb_decode_varint32_overflows s l :
  is_varint l -> (List.length l <= 10)%nat -> overflows32 l -> at_bytes s l ->
  exists t, pb_decode_varint32_eof s = (Ret (inl false), t).
Proof.
  intros Hv Hlen (l1' & b' & Hl' & Hover) Hat. destruct l as [|b l]; [done|].
  unfold pb_decode_varint32_eof.
  erewrite bind_Ret by (eapply attempt_Ret, pb_readbyte_at; exact Hat). cbv beta iota.
  destruct (is_varint_cons _ _ Hv) as (Hb & Hlast & Hrest).
  rewrite <- (negb_involutive (_ =? 0)), more_bytes by done.
  destruct (Z.leb_spec 0x80 b) as [Hmore|Hend]; cbn [negb].
  2: { assert (l = []) as -> by (apply Hlast; lia).
       destruct l1' as [|? [|]]; try done. injection Hl' as ->. cbn in Hover. lia. }
  assert (Hfail : exists t, loop varint32_step (7, Z.land b 127) (advance 1 s) = (Fail, t)).
  2: { destruct Hfail as [t Ht]. exists t.
       by erewrite bind_Ret by (eapply attempt_Fail, Ht). }
  apply wp_Fail.
  eapply (wp_loop _ (varint32_inv (b :: l) s) (fun a _ => 70 - fst a));
    [|by apply varint32_inv_first|cbn; lia].
  intros a t (l1 & l2 & Hl & Hv2 & -> & ->). rewrite Hl in *.
  rewrite length_app in Hlen. destruct l2 as [|c l2]; [done|].
  cbn [List.length fst] in *. split; [lia|]. apply at_bytes_app_r in Hat.
  eapply wp_mono; [eapply varint32_step_at; [exact Hv2|lia|exact Hat]| |done].
  intros r t (-> & -> & Hsmall & Hext). rewrite advance_advance.
  destruct (is_varint_cons _ _ Hv2) as (Hc & Hlast2 & Hrest2).
  destruct (Z.leb_spec 0x80 c).
  - split; [|cbn; lia]. exists (l1 ++ [c]), l2. rewrite <- app_assoc, length_app. cbn.
    split; [done|]. split; [apply Hrest2; intros ->; intuition lia|]. split; f_equal; lia.
  - assert (l2 = []) as -> by (apply Hlast2; lia).
    apply app_inj_tail in Hl' as [-> ->]. cbv zeta in *. rewrite land_7f in Hext.
    rewrite (Z.mod_small b' 128) in Hext by lia.
    destruct Hover as [[Hk Hge]|[Hk Hpos]]; [lia|].
    destruct (Z.ltb_spec (7 * Z.of_nat (List.length l1')) 63); lia.
Qed.
End Decode32.

(** ** Which numbers the 32-bit reader takes *)

Section Fits32.
Context `{Env}.

Lemma fits32_small l : is_varint l -> varint_value l < 2 ^ 32 -> fits32 l.
Proof.
  intros Hv Hsmall l1 b l2 -> k. pose proof (varint_value_split l1 b l2) as Hdiv.
  pose proof (varint_value_range l2). pose proof (land_7f_range b).
  pose proof (varint_value_range (l1 ++ b :: l2)). fold k in Hdiv. split.
  - intros Hk Hend. rewrite Hk in Hdiv.
    assert (Hb : 0 <= b < 256).
    { clear -Hv. induction l1 as [|c l1 IH]; cbn [app] in Hv; [by apply (is_varint_cons _ _ Hv)|].
      apply IH. apply is_varint_cons in Hv as (_ & _ & Hv). apply Hv. by destruct l1. }
    rewrite land_7f, Z.mod_small in Hdiv by lia. zlia.
  - intros Hk Hne. rewrite Z.div_small in Hdiv; [lia|].
    pose proof (Z.pow_lt_mono_r 2 32 k ltac:(lia) ltac:(lia)). lia.
Qed.

Lemma is_varint_app_r l1 l2 : is_varint (l1 ++ l2) -> l2 <> [] -> is_varint l2.
Proof.
  induction l1 as [|c l1 IH]; cbn [app]; [done|]. intros Hv Hne.
  apply IH; [|done]. apply (is_varint_cons _ _ Hv). by destruct l1.
Qed.

Lemma is_varint_middle l1 b l2 : is_varint (l1 ++ b :: l2) -> l2 <> [] -> 0x80 <= b < 0x100.
Proof.
  intros Hv Hne. apply is_varint_app_r in Hv; [|done].
  destruct l2; [done|]. by destruct Hv.
Qed.

Lemma fits32_negative v : 2 ^ 64 - 2 ^ 31 <= v < 2 ^ 64 -> fits32 (varint_bytes v).
Proof.
  intros Hv. destruct (varint_bytes_spec v) as (Hvar & Hval & Hlen); [lia|].
  pose proof (varint_bytes_min v ltac:(lia)) as Hmin.
  intros l1 b l2 Hl k. rewrite Hl in Hvar, Hval, Hlen, Hmin.
  pose proof (varint_value_split l1 b l2) as Hdiv. rewrite Hval in Hdiv. fold k in Hdiv.
  pose proof (varint_value_range l2). pose proof (land_7f_range b).
  pose proof (varint_value_range (b :: l2)) as Hr. rewrite length_app in *. cbn [List.length] in *.
  assert (Htotal : v = varint_value l1 + 2 ^ k * (varint_value (b :: l2))).
  { rewrite <- Hval, varint_value_app. done. }
  pose proof (varint_value_range l1) as Hr1. fold k in Hr1. cbn [varint_value] in Htotal.
  split.
  - intros Hk Hend. rewrite Hk in *. destruct l2 as [|c l2].
    + cbn [varint_value] in *. lia.
    + exfalso. apply is_varint_middle in Hvar; [lia|done].
  - intros Hk Hne.
    assert (Hcase : k = 35 \/ k = 42 \/ k = 49 \/ k = 56 \/ k = 63) by lia.
    assert (Hhigh : 2 ^ 31 <= varint_value l1 mod 2 ^ 32).
    { replace (varint_value l1 mod 2 ^ 32) with (v mod 2 ^ 32); [zlia|].
      rewrite Htotal. replace (2 ^ k) with (2 ^ 32 * 2 ^ (k - 32)) by (rewrite <- Z.pow_add_r by lia; f_equal; lia).
      rewrite <- Z.mul_assoc, (Z.mul_comm (2 ^ 32)). apply Z.mod_add. lia. }
    split; [done|]. rewrite land_7f in *.
    assert (Hq : v / 2 ^ k = 2 ^ (64 - k) - 1).
    { destruct Hcase as [-> | [-> | [-> | [-> | ->]]]]; zlia. }
    rewrite Hq in Hdiv. destruct (Z.ltb_spec k 63) as [Hlt|Hge].
    + assert (l2 <> []) as Hmore.
      { intros ->. cbn [varint_value] in *.
        destruct Hcase as [-> | [-> | [-> | [-> | ->]]]]; cbn in Hdiv; lia. }
      apply is_varint_middle in Hvar; [|done].
      assert (b mod 128 = 127); [|zlia].
      destruct Hcase as [-> | [-> | [-> | [-> | ->]]]]; try lia;
        match type of Hdiv with ?x = _ => let y := eval vm_compute in x in change x with y in Hdiv end;
        zlia.
    + assert (Hk63 : k = 63) by lia. destruct l2; [|cbn [List.length] in *; unfold k in Hk63; lia].
      rewrite Hk63 in Hdiv. change (2 ^ (64 - 63) - 1) with 1 in Hdiv.
      apply is_varint_app_r in Hvar; [|done]. cbn in Hvar. rewrite Z.mod_small in Hdiv; lia.
Qed.

Lemma overflows32_middle v : 2 ^ 32 <= v < 2 ^ 63 -> overflows32 (varint_bytes v).
Proof.
  intros Hv. destruct (varint_bytes_spec v) as (Hvar & Hval & Hlen); [lia|].
  pose proof (varint_bytes_min v ltac:(lia)) as Hmin.
  destruct (exists_last (l := varint_bytes v)) as (l1 & b & Hl);
    [intros E; rewrite E in Hlen; cbn in Hlen; lia|].
  exists l1, b. split; [done|]. rewrite Hl in *. rewrite length_app in *. cbn [List.length] in *.
  rewrite varint_value_app in Hval. cbn [varint_value] in Hval.
  pose proof (varint_value_range l1) as Hr1. cbv zeta.
  remember (7 * Z.of_nat (List.length l1)) as k eqn:Ek.
  replace (7 * (Z.of_nat (List.length l1 + 1) - 1)) with k in Hmin by lia.
  apply is_varint_app_r in Hvar; [|done]. cbn in Hvar.
  rewrite land_7f, Z.mod_small, Z.mul_0_r, Z.add_0_r in Hval by lia.
  assert (Hk : k < 63).
  { destruct (Z.ltb_spec k 63); [done|]. pose proof (Z.pow_le_mono_r 2 63 k ltac:(lia) ltac:(lia)). lia. }
  assert (Hk' : 28 <= k).
  { destruct (Z.ltb_spec k 28) as [Hlt|]; [|done].
    pose proof (Z.pow_le_mono_r 2 k 21 ltac:(lia) ltac:(lia)). change (2 ^ 21) with 2097152 in *. nia. }
  destruct (Z.eqb_spec k 28) as [Heq|Hne].
  - left. split; [done|]. rewrite Heq in *. zlia.
  - right. split; [lia|]. destruct (Z.ltb_spec 0 b); [done|]. assert (b = 0) as -> by lia. lia.
Qed.

(** The 32-bit reader on the bytes the encoder writes. *)
Lemma pb_decode_varint32_small s v :
  0 <= v < 2 ^ 32 -> at_bytes s (varint_bytes v) ->
  pb_decode_varint32 s = (Ret v, advance (Z.of_nat (List.length (varint_bytes v))) s).
Proof.
  intros Hv Hat. destruct (varint_bytes_spec v) as (Hvar & Hval & Hlen); [lia|].
  unfold pb_decode_varint32. erewrite bind_Ret.
  2: { apply pb_decode_varint32_fits; [done|lia| |done]. apply fits32_small; [done|lia]. }
  cbv beta iota. rewrite Hval, Z.mod_small by lia. done.
Qed.
End Fits32.
