(* ===== verification/EncodeSpec.v ===== *)
(** What [pb_encode] is to produce, without streams: the bytes of a message as a
    function of the memory, with the addresses that were read. A submessage is
    its length and its bytes; there is one pass, no buffer and no error message.
    [Stuck] marks what the specification leaves open: user callbacks, nesting or
    strings beyond the given bounds, lengths that no C object has. *)

From Stdlib Require Import ZArith Lia List String Bool.
From stdpp Require Import base gmap list.
From S2P Require Import Prelude Memory Pb PbCommon PbDecode PbEncode Base128 Varint.

(** ** Reading the memory, with a log *)

Definition R (A : Type) : Type := gmap Z Z -> outcome A * list (Z * Z).

Definition rret {A} (a : A) : R A := fun _ => (Ret a, []).
Definition rfail {A} : R A := fun _ => (Fail, []).
Definition rstuck {A} : R A := fun _ => (Stuck, []).
Definition rbind {A B} (r : R A) (f : A -> R B) : R B := fun m =>
  match r m with
  | (Ret a, rd) => (fst (f a m), rd ++ snd (f a m))
  | (Fail, rd) => (Fail, rd)
  | (Stuck, rd) => (Stuck, rd)
  end.
Definition rload (a : Z) (n : nat) : R Z := fun m => (Ret (load m a n), [(a, Z.of_nat n)]).
Definition rload_bytes (a n : Z) : R (list Z) := fun m =>
  (Ret (load_bytes m a (Z.to_nat n)), [(a, n)]).
Definition rptr (a : Z) : R Z := rload a 8.

(** One output after the other. *)
Definition rapp (r1 r2 : R (list Z)) : R (list Z) :=
  rbind r1 (fun l1 => rbind r2 (fun l2 => rret (l1 ++ l2))).

(** Half the address space, the bound on the size of a C object. *)
Definition object_limit : Z := 2 ^ 63.

Definition zlen (l : list Z) : Z := Z.of_nat (List.length l).

Lemma zlen_nonneg l : 0 <= zlen l.
Proof. unfold zlen. lia. Qed.

(** A length and that many bytes. *)
Definition rdelimited (r : R (list Z)) : R (list Z) :=
  rbind r (fun l => if zlen l <? object_limit then rret (varint_bytes (zlen l) ++ l) else rstuck).

Section Spec.
Context `{Env}.
(** A bound on the lengths of strings, extension chains and descriptor arrays. *)
Variable bound : nat.

Definition spec_tag (wiretype field_number : Z) : list Z :=
  varint_bytes (Z.lor (u64 (Z.shiftl field_number 3)) wiretype).

Definition spec_tag_for_field (field : pb_field_t) : R (list Z) :=
  match wire_type_of (PB_LTYPE (type field)) with
  | Some wiretype => rret (spec_tag wiretype (tag field))
  | None => rfail
  end.

Definition spec_string (buffer size : Z) : R (list Z) :=
  rbind (rload_bytes buffer size) (fun l => rret (varint_bytes size ++ l)).

Definition spec_bool (src : Z) : R (list Z) :=
  rbind (rload src 1) (fun b => rret (varint_bytes (if b =? 0 then 0 else 1))).

Definition spec_int (signed : bool) (data_size' src : Z) : R Z :=
  let read n := rbind (rload src n) (fun v =>
    rret (if signed then swrap (8 * Z.of_nat n) v else v)) in
  if data_size' =? 1 then read 1%nat
  else if data_size' =? 2 then read 2%nat
  else if data_size' =? 4 then read 4%nat
  else if data_size' =? 8 then read 8%nat
  else rfail.

(** 2n for n >= 0, -2n-1 for n < 0. *)
Definition zigzag (v : Z) : Z := if v <? 0 then - 2 * v - 1 else 2 * v.

Definition spec_fixed (n : nat) (src : Z) : R (list Z) := rload_bytes src (Z.of_nat n).

Definition spec_bytes (field : pb_field_t) (src : Z) : R (list Z) :=
  if src =? NULL then rret (varint_bytes 0)
  else
    rbind (rload src sizeof_pb_size) (fun size =>
      if (PB_ATYPE (type field) =? PB_ATYPE_STATIC) && (data_size field <? size + 4)
      then rfail
      else spec_string (src + 4) size).

(** The length of the C string at [src], at most [max]. *)
Fixpoint spec_strlen (k : nat) (max src size : Z) : R Z :=
  match k with
  | O => rstuck
  | S k' =>
      if size <? max then
        rbind (rload (src + size) 1) (fun c =>
          if c =? 0 then rret size else spec_strlen k' max src (size + 1))
      else rret size
  end.

Definition spec_cstring (field : pb_field_t) (src : Z) : R (list Z) :=
  let max := if PB_ATYPE (type field) =? PB_ATYPE_POINTER then 2 ^ 64 - 1 else data_size field in
  if src =? NULL then spec_string src 0
  else rbind (spec_strlen bound max src 0) (fun size => spec_string src size).

(** ** Zero values of proto3 fields *)

(** Every field from [iter] to the end of the array. *)
Fixpoint spec_check_all (check : pb_field_t -> Z -> R bool) (k : nat) (iter : pb_field_iter_t)
    : R bool :=
  match k with
  | O => rstuck
  | S k' =>
      rbind (check (cur iter) (pData iter)) (fun zero =>
        if negb zero then rret false
        else
          let '(more, iter') := pb_field_iter_next iter in
          if more : bool then spec_check_all check k' iter' else rret true)
  end.

Definition spec_check_body (check : pb_field_t -> Z -> R bool)
    (field : pb_field_t) (pData' : Z) : R bool :=
  let ty := type field in
  let singular : R bool :=
    if (PB_ATYPE ty =? PB_ATYPE_STATIC) && (PB_LTYPE ty =? PB_LTYPE_BYTES) then
      rbind (rload pData' sizeof_pb_size) (fun size => rret (size =? 0))
    else if (PB_ATYPE ty =? PB_ATYPE_STATIC) && (PB_LTYPE ty =? PB_LTYPE_STRING) then
      rbind (rload pData' 1) (fun c => rret (c =? 0))
    else if (PB_ATYPE ty =? PB_ATYPE_STATIC) && (PB_LTYPE ty =? PB_LTYPE_FIXED_LENGTH_BYTES) then
      rret (data_size field =? 0)
    else if (PB_ATYPE ty =? PB_ATYPE_STATIC) && (PB_LTYPE ty =? PB_LTYPE_SUBMESSAGE) then
      let '(nonempty, iter) := pb_field_iter_begin (desc (ptr field)) pData' in
      if nonempty : bool then
        spec_check_all check bound iter
      else rret true
    else if (PB_ATYPE ty =? PB_ATYPE_POINTER) && (PB_LTYPE_LAST_PACKABLE <? PB_LTYPE ty) then
      rbind (rptr pData') (fun p => rret (p =? NULL))
    else
      rbind (rload_bytes pData' (data_size field)) (fun l => rret (forallb (fun b => b =? 0) l)) in
  if PB_HTYPE ty =? PB_HTYPE_REQUIRED then rret false
  else if PB_HTYPE ty =? PB_HTYPE_REPEATED then
    if negb (size_offset field =? 0) then
      rbind (rload (pData' + size_offset field) sizeof_pb_size) (fun size => rret (size =? 0))
    else if PB_ATYPE ty =? PB_ATYPE_STATIC then rret false
    else singular
  else if PB_HTYPE ty =? PB_HTYPE_ONEOF then
    rbind (rload (pData' + size_offset field) sizeof_pb_size) (fun size => rret (size =? 0))
  else if negb (size_offset field =? 0) then
    rbind (rload (pData' + size_offset field) 1) (fun b => rret (b =? 0))
  else singular.

Fixpoint spec_check (n : nat) (field : pb_field_t) (pData' : Z) : R bool :=
  match n with
  | O => rstuck
  | S n' => spec_check_body (spec_check n') field pData'
  end.

(** ** Fields *)

Section Level.
Variables (n : nat) (message : list pb_field_t -> Z -> R (list Z)).

Definition spec_submessage (field : pb_field_t) (src : Z) : R (list Z) :=
  if ptr field =? NULL then rfail else rdelimited (message (desc (ptr field)) src).

Definition spec_value (field : pb_field_t) (src : Z) : R (list Z) :=
  let ltype := PB_LTYPE (type field) in
  let varint v := rret (varint_bytes v) in
  if ltype =? PB_LTYPE_BOOL then spec_bool src
  else if ltype =? PB_LTYPE_VARINT then
    rbind (spec_int true (data_size field) src) (fun v => varint (u64 v))
  else if ltype =? PB_LTYPE_UVARINT then
    rbind (spec_int false (data_size field) src) varint
  else if ltype =? PB_LTYPE_SVARINT then
    rbind (spec_int true (data_size field) src) (fun v => varint (zigzag v))
  else if ltype =? PB_LTYPE_FIXED32 then spec_fixed 4 src
  else if ltype =? PB_LTYPE_FIXED64 then spec_fixed 8 src
  else if ltype =? PB_LTYPE_BYTES then spec_bytes field src
  else if ltype =? PB_LTYPE_STRING then spec_cstring field src
  else if ltype =? PB_LTYPE_SUBMESSAGE then spec_submessage field src
  else if ltype =? PB_LTYPE_FIXED_LENGTH_BYTES then spec_string src (data_size field)
  else rstuck.

Fixpoint spec_items (item : Z -> R (list Z)) (data_size' : Z) (count : nat) (p : Z)
    : R (list Z) :=
  match count with
  | O => rret []
  | S count' => rapp (item p) (spec_items item data_size' count' (p + data_size'))
  end.

(** A packed array is one length-delimited value; other arrays repeat the
    tag for each item. *)
Definition spec_array (field : pb_field_t) (pData' count : Z) : R (list Z) :=
  let ty := type field in
  let pointer := PB_ATYPE ty =? PB_ATYPE_POINTER in
  if count =? 0 then rret []
  else if negb pointer && (array_size field <? count) then rfail
  else if PB_LTYPE ty <=? PB_LTYPE_LAST_PACKABLE then
    rapp (rret (spec_tag PB_WT_STRING (tag field)))
      (rdelimited (spec_items (spec_value field) (data_size field) (Z.to_nat count) pData'))
  else
    spec_items (fun p =>
      rapp (spec_tag_for_field field)
        (if pointer && ((PB_LTYPE ty =? PB_LTYPE_STRING) || (PB_LTYPE ty =? PB_LTYPE_BYTES))
         then rbind (rptr p) (spec_value field)
         else spec_value field p)) (data_size field) (Z.to_nat count) pData'.

Definition spec_tagged (field : pb_field_t) (pData' : Z) : R (list Z) :=
  rapp (spec_tag_for_field field) (spec_value field pData').

Definition spec_basic_field (field : pb_field_t) (pData' : Z) : R (list Z) :=
  let ty := type field in
  let pointer := PB_ATYPE ty =? PB_ATYPE_POINTER in
  let explicit := negb (size_offset field =? 0) in
  let sizep := pData' + size_offset field in
  rbind (if explicit then rret false
         else if PB_HTYPE ty =? PB_HTYPE_OPTIONAL then
           rbind (spec_check n field pData') (fun zero => rret (negb zero))
         else rret true) (fun implicit_has =>
  rbind (if pointer then rptr pData' else rret pData') (fun data =>
  let implicit_has := if pointer then negb (data =? NULL) else implicit_has in
  if PB_HTYPE ty =? PB_HTYPE_REQUIRED then
    if data =? NULL then rfail else spec_tagged field data
  else if PB_HTYPE ty =? PB_HTYPE_OPTIONAL then
    rbind (if explicit then rbind (rload sizep 1) (fun b => rret (negb (b =? 0)))
           else rret implicit_has) (fun has =>
    if has : bool then spec_tagged field data else rret [])
  else if PB_HTYPE ty =? PB_HTYPE_REPEATED then
    rbind (if explicit then rload sizep sizeof_pb_size else rret (array_size field))
      (fun count => spec_array field data count)
  else if explicit then
    rbind (rload sizep sizeof_pb_size) (fun which =>
    if which =? tag field then spec_tagged field data else rret [])
  else rstuck)).

(** Fields handed to user functions are left open. *)
Definition spec_callback_field (pData' : Z) : R (list Z) :=
  rbind (rptr (pb_callback_funcs pData')) (fun f => if f =? NULL then rret [] else rstuck).

Definition spec_field (field : pb_field_t) (pData' : Z) : R (list Z) :=
  let atype := PB_ATYPE (type field) in
  if (atype =? PB_ATYPE_STATIC) || (atype =? PB_ATYPE_POINTER)
  then spec_basic_field field pData'
  else if atype =? PB_ATYPE_CALLBACK then spec_callback_field pData'
  else rfail.

Definition spec_extension (extension : Z) : R (list Z) :=
  rbind (rptr (ext_type extension)) (fun t =>
  rbind (rptr (ext_type_arg t)) (fun arg =>
  let field := field_at (desc arg) 0 in
  if PB_ATYPE (type field) =? PB_ATYPE_POINTER then spec_field field (ext_dest extension)
  else rbind (rptr (ext_dest extension)) (fun dest => spec_field field dest))).

Fixpoint spec_extensions (k : nat) (extension : Z) : R (list Z) :=
  match k with
  | O => rstuck
  | S k' =>
      if extension =? NULL then rret []
      else
        rbind (rptr (ext_type extension)) (fun t =>
        rbind (rptr (ext_type_encode t)) (fun f =>
        if f =? NULL then
          rapp (spec_extension extension)
            (rbind (rptr (ext_next extension)) (spec_extensions k'))
        else rstuck))
  end.

Definition spec_step (iter : pb_field_iter_t) : R (list Z) :=
  if PB_LTYPE (type (cur iter)) =? PB_LTYPE_EXTENSION
  then rbind (rptr (pData iter)) (spec_extensions bound)
  else spec_field (cur iter) (pData iter).

(** The fields from [iter] to the end of the array. *)
Fixpoint spec_fields (k : nat) (iter : pb_field_iter_t) : R (list Z) :=
  match k with
  | O => rstuck
  | S k' =>
      rapp (spec_step iter)
        (let '(more, iter') := pb_field_iter_next iter in
         if more : bool then spec_fields k' iter' else rret [])
  end.

Definition spec_message (fields : list pb_field_t) (src : Z) : R (list Z) :=
  let '(nonempty, iter) := pb_field_iter_begin fields src in
  if nonempty : bool then spec_fields bound iter else rret [].
End Level.

Fixpoint spec_encode (n : nat) (fields : list pb_field_t) (src : Z) : R (list Z) :=
  match n with
  | O => rstuck
  | S n' => spec_message n' (spec_encode n') fields src
  end.
End Spec.
