(* ===== verification/Writer.v ===== *)
(** The program logic that relates the encoder to its specification: [writer c r]
    says that the stream computation [c] outputs the bytes the reader [r]
    describes, on a sizing stream by counting them, on a memory stream by writing
    them; when they do not fit, or [r] fails, [c] fails without touching memory
    outside the space the stream was given. The rules follow the structure of the
    code; the last section applies them to the wire-level writers. *)

From Stdlib Require Import ZArith Lia List String Bool.
From stdpp Require Import base gmap list.
From S2P Require Import Prelude Memory Pb PbCommon PbDecode PbEncode Base128 Varint EncodeSpec.

(** ** Effects of a computation on the stream *)

(** The space the stream may still write to. *)
Definition avail (o : pb_ostream_t) : Z :=
  if is_null_cb (os_callback o) then 0 else max_size o - bytes_written o.

(** The output of [l]: counted, and on a memory stream stored. *)
Definition emit (l : list Z) (s : estate) : estate :=
  let o := ostream s in
  if is_null_cb (os_callback o) then
    set_ostream (os_set_written (u64 (bytes_written o + zlen l))) s
  else
    mk_estate (mk_ostream (os_callback o) (os_state o + zlen l) (max_size o)
                 (bytes_written o + zlen l) (os_errmsg o))
      (set_mem (fun m => store_bytes m (os_state o) l) (e_world s)).

Definition fits (l : list Z) (o : pb_ostream_t) : Prop :=
  is_null_cb (os_callback o) = true \/ zlen l <= avail o.

(** Memory changes at most in the stream's space, the heap not at all. *)
Definition confined (s s' : estate) : Prop :=
  live (e_world s') = live (e_world s) /\
  forall a, ~ (os_state (ostream s) <= a < os_state (ostream s) + avail (ostream s)) ->
    load_byte (mem (e_world s')) a = load_byte (mem (e_world s)) a.

Definition failed {A} (c : E A) (s : estate) : Prop :=
  exists s', c s = (Fail, s') /\ confined s s'.

Definition is_byte (v : Z) : Prop := 0 <= v < 256.

#[export] Instance fits_dec l o : Decision (fits l o).
Proof. unfold fits. apply _. Defined.

Lemma zlen_app l1 l2 : zlen (l1 ++ l2) = zlen l1 + zlen l2.
Proof. unfold zlen. rewrite length_app. lia. Qed.

Lemma confined_refl s : confined s s.
Proof. done. Qed.

Lemma confined_ostream f s : confined s (set_ostream f s).
Proof. done. Qed.

Lemma failed_bind {A B} (c : E A) (k : A -> E B) s : failed c s -> failed (bind c k) s.
Proof. intros (s' & Hc & Hs). exists s'. split; [|done]. by apply bind_Fail. Qed.

Lemma failed_return_error {A} msg s : failed (@e_return_error A msg) s.
Proof. eexists. split; [reflexivity|done]. Qed.

Section Logic.
Context `{Env}.
(** The memory the message is read from, and the output region. *)
Variables (m0 : gmap Z Z) (B N : Z).

(** A stream the logic speaks of: it sizes, or writes inside the region. *)
Definition good (s : estate) : Prop :=
  let o := ostream s in
  os_errmsg o = None /\
  match os_callback o with
  | null_cb => 0 <= bytes_written o < 2 ^ 64
  | buf_write_cb =>
      0 <= bytes_written o <= max_size o /\ max_size o <= object_limit /\
      B <= os_state o /\ os_state o + avail o <= B + N
  | user_write_cb _ => False
  end /\
  forall a, ~ (B <= a < B + N) -> load_byte (mem (e_world s)) a = load_byte m0 a.

Definition clear (reads : list (Z * Z)) : Prop :=
  Forall (fun '(a, n) => a + n <= B \/ B + N <= a \/ n <= 0 \/ N <= 0) reads.

Definition writer (c : E unit) (r : R (list Z)) : Prop := forall s,
  good s -> clear (snd (r m0)) ->
  match fst (r m0) with
  | Ret l =>
      Forall is_byte l /\ (if decide (fits l (ostream s)) then c s = (Ret tt, emit l s) else failed c s)
  | Fail => failed c s
  | Stuck => True
  end.

Definition reader {A} (c : E A) (r : R A) (P : A -> Prop) : Prop := forall s,
  good s -> clear (snd (r m0)) ->
  match fst (r m0) with
  | Ret v => P v /\ c s = (Ret v, s)
  | Fail => failed c s
  | Stuck => True
  end.

(** *** Output *)

Lemma store_bytes_app m a l1 l2 :
  store_bytes (store_bytes m a l1) (a + zlen l1) l2 = store_bytes m a (l1 ++ l2).
Proof.
  unfold zlen. revert m a. induction l1 as [|v l1 IH]; intros m a; cbn [store_bytes app List.length].
  - by rewrite Z.add_0_r.
  - rewrite <- IH. f_equal. lia.
Qed.

Lemma emit_app l1 l2 s : emit l2 (emit l1 s) = emit (l1 ++ l2) s.
Proof.
  unfold emit. destruct (is_null_cb (os_callback (ostream s))) eqn:Hcb; cbn; rewrite Hcb.
  - unfold set_ostream, os_set_written. cbn. do 2 f_equal. unfold uwrap.
    rewrite Zplus_mod_idemp_l, zlen_app. f_equal. lia.
  - f_equal.
    + f_equal; rewrite zlen_app; lia.
    + unfold set_mem. cbn. f_equal. apply store_bytes_app.
Qed.

Lemma emit_nil s : good s -> emit [] s = s.
Proof.
  intros (_ & Hcb & _). unfold emit, zlen. cbn. destruct s as [[cb st mx w e] [m lv]]. cbn in *.
  destruct cb; cbn; unfold set_ostream, os_set_written, set_mem; cbn.
  - unfold uwrap. by rewrite Z.add_0_r, Z.mod_small.
  - by rewrite !Z.add_0_r.
  - done.
Qed.

Lemma fits_app l1 l2 s :
  fits (l1 ++ l2) (ostream s) <-> fits l1 (ostream s) /\ fits l2 (ostream (emit l1 s)).
Proof.
  unfold fits, emit, avail. pose proof (zlen_nonneg l1). pose proof (zlen_nonneg l2).
  rewrite zlen_app. destruct (is_null_cb (os_callback (ostream s))) eqn:Hcb; cbn; rewrite Hcb.
  - tauto.
  - intuition (done || lia).
Qed.

Lemma fits_nil s : good s -> fits [] (ostream s).
Proof.
  intros (_ & Hcb & _). unfold fits, avail, zlen. cbn.
  destruct (os_callback (ostream s)); cbn; [by left|right; lia|done].
Qed.

Lemma confined_emit l s s' :
  fits l (ostream s) -> confined (emit l s) s' -> confined s s'.
Proof.
  unfold fits, confined, emit, avail. pose proof (zlen_nonneg l).
  destruct (is_null_cb (os_callback (ostream s))) eqn:Hcb; cbn; rewrite ?Hcb; [done|].
  intros [?|Hfit] [Hlv Hm]; [done|]. split; [done|]. intros a Ha.
  rewrite Hm by lia. rewrite load_byte_store_bytes. unfold zlen in *.
  destruct (decide _); [lia|done].
Qed.

Lemma good_emit l s : good s -> fits l (ostream s) -> good (emit l s).
Proof.
  intros (He & Hcb & Hm) Hfit. pose proof (confined_emit l s (emit l s) Hfit (confined_refl _)) as [_ Hc].
  unfold fits, good, avail in *. unfold emit in *. pose proof (zlen_nonneg l).
  destruct (os_callback (ostream s)) eqn:Ecb; cbn in *; rewrite ?Ecb in *; cbn in *.
  - split; [done|]. split; [|done]. unfold uwrap. apply Z.mod_pos_bound. lia.
  - destruct Hfit as [|Hfit]; [done|]. split; [done|]. split; [lia|].
    intros a Ha. rewrite Hc by lia. by apply Hm.
  - done.
Qed.

Lemma clear_app rd1 rd2 : clear (rd1 ++ rd2) <-> clear rd1 /\ clear rd2.
Proof. apply Forall_app. Qed.

Lemma good_load s a n :
  good s -> clear [(a, Z.of_nat n)] -> load (mem (e_world s)) a n = load m0 a n.
Proof.
  intros (_ & _ & Hm) Hcl. apply Forall_inv in Hcl. apply load_ext.
  intros b Hb. apply Hm. lia.
Qed.

Lemma good_load_bytes s a n :
  good s -> clear [(a, n)] ->
  load_bytes (mem (e_world s)) a (Z.to_nat n) = load_bytes m0 a (Z.to_nat n).
Proof.
  intros (_ & _ & Hm) Hcl. apply Forall_inv in Hcl. apply load_bytes_ext.
  intros b Hb. apply Hm. lia.
Qed.

(** *** Rules *)

Lemma writer_ext c c' r : (forall s, c s = c' s) -> writer c' r -> writer c r.
Proof.
  intros Hext Hw s Hg Hcl. specialize (Hw s Hg Hcl). unfold failed. rewrite Hext. exact Hw.
Qed.

Lemma writer_rext c r r' : r m0 = r' m0 -> writer c r' -> writer c r.
Proof. intros Hr Hw s Hg. rewrite Hr. exact (Hw s Hg). Qed.

Lemma writer_stuck c : writer c rstuck.
Proof. by intros s _ _. Qed.

Lemma writer_fail : writer fail rfail.
Proof. intros s _ _. by exists s. Qed.

Lemma writer_error msg : writer (e_return_error msg) rfail.
Proof. intros s _ _. apply failed_return_error. Qed.

Lemma writer_nil : writer (ret tt) (rret []).
Proof.
  intros s Hg _. cbn. split; [done|]. destruct (decide _) as [_|Hn].
  - by rewrite emit_nil.
  - by destruct Hn; apply fits_nil.
Qed.

Lemma writer_app c1 c2 r1 r2 : writer c1 r1 -> writer c2 r2 -> writer (bind c1 (fun _ => c2)) (rapp r1 r2).
Proof.
  intros H1 H2 s Hg Hcl. unfold rapp, rbind, rret in *.
  destruct (r1 m0) as [[l1| |] rd1] eqn:E1; cbn [fst snd] in *.
  - specialize (H1 s Hg). rewrite E1 in H1. cbn [fst snd] in *.
    destruct (r2 m0) as [[l2| |] rd2] eqn:E2; cbn [fst snd] in *;
      rewrite ?app_nil_r in Hcl; apply clear_app in Hcl as [Hcl1 Hcl2];
      destruct (H1 Hcl1) as [Hb1 Hc1]; try done.
    + destruct (decide (fits l1 (ostream s))) as [Hf1|Hf1].
      * specialize (H2 (emit l1 s) (good_emit _ _ Hg Hf1)). rewrite E2 in H2. cbn in H2.
        destruct (H2 Hcl2) as [Hb2 Hc2]. split; [by apply Forall_app|].
        destruct (decide (fits l2 _)) as [Hf2|Hf2], (decide (fits (l1 ++ l2) _)) as [Hf|Hf];
          rewrite ?fits_app in Hf; try tauto.
        -- erewrite bind_Ret by exact Hc1. by rewrite Hc2, emit_app.
        -- destruct Hc2 as (s' & Hc2 & Hs'). exists s'. erewrite bind_Ret by exact Hc1.
           split; [done|]. by eapply confined_emit.
      * destruct (decide (fits (l1 ++ l2) _)) as [Hf|Hf]; rewrite ?fits_app in Hf; [tauto|].
        specialize (H2 s Hg). split; [|by apply failed_bind].
        rewrite E2 in H2. apply Forall_app. split; [done|]. by apply H2.
    + destruct (decide (fits l1 (ostream s))) as [Hf1|Hf1]; [|by apply failed_bind].
      specialize (H2 (emit l1 s) (good_emit _ _ Hg Hf1)). rewrite E2 in H2. cbn in H2.
      destruct (H2 Hcl2) as (s' & Hc2 & Hs'). exists s'. erewrite bind_Ret by exact Hc1.
      split; [done|]. by eapply confined_emit.
  - specialize (H1 s Hg). rewrite E1 in H1. apply failed_bind. by apply H1.
  - done.
Qed.

Lemma writer_bind {A} (c : E A) r P (k : A -> E unit) rk :
  reader c r P -> (forall v, P v -> writer (k v) (rk v)) -> writer (bind c k) (rbind r rk).
Proof.
  intros Hc Hk s Hg Hcl. unfold rbind in *. specialize (Hc s Hg).
  destruct (r m0) as [[v| |] rd]; cbn [fst snd] in *; try done; [|by apply failed_bind, Hc].
  apply clear_app in Hcl as [Hcl1 Hcl2]. destruct (Hc Hcl1) as [HP Hv].
  specialize (Hk v HP s Hg Hcl2). unfold failed in *. erewrite bind_Ret by exact Hv. exact Hk.
Qed.

Lemma reader_ext {A} (c c' : E A) r P : (forall s, c s = c' s) -> reader c' r P -> reader c r P.
Proof.
  intros Hext Hw s Hg Hcl. specialize (Hw s Hg Hcl). unfold failed. rewrite Hext. exact Hw.
Qed.

Lemma reader_stuck {A} (c : E A) P : reader c rstuck P.
Proof. by intros s _ _. Qed.

Lemma reader_error {A} msg P : reader (@e_return_error A msg) rfail P.
Proof. intros s _ _. apply failed_return_error. Qed.

Lemma reader_ret {A} (v : A) (P : A -> Prop) : P v -> reader (ret v) (rret v) P.
Proof. by intros HP s _ _. Qed.

Lemma reader_bind {A B'} (c : E A) r P (k : A -> E B') rk Q :
  reader c r P -> (forall v, P v -> reader (k v) (rk v) Q) -> reader (bind c k) (rbind r rk) Q.
Proof.
  intros Hc Hk s Hg Hcl. unfold rbind in *. specialize (Hc s Hg).
  destruct (r m0) as [[v| |] rd]; cbn [fst snd] in *; try done; [|by apply failed_bind, Hc].
  apply clear_app in Hcl as [Hcl1 Hcl2]. destruct (Hc Hcl1) as [HP Hv].
  specialize (Hk v HP s Hg Hcl2). unfold failed in *. erewrite bind_Ret by exact Hv. exact Hk.
Qed.

Lemma reader_mono {A} (c : E A) r (P Q : A -> Prop) :
  reader c r P -> (forall v, P v -> Q v) -> reader c r Q.
Proof.
  intros Hc HPQ s Hg Hcl. specialize (Hc s Hg Hcl).
  destruct (fst (r m0)); try done. destruct Hc. auto.
Qed.

Lemma reader_load a n :
  reader (liftE (loadW a n)) (rload a n) (fun v => 0 <= v < 2 ^ (8 * Z.of_nat n)).
Proof.
  intros s Hg Hcl. cbn in *. split; [apply load_range|].
  unfold liftE, loadW, zoom, gets. rewrite (good_load s a n Hg Hcl). by destruct s.
Qed.

(** Code that looks at the state reads it through these. *)
Lemma writer_get_load a n (k : estate -> E unit) rk :
  (forall s v, good s -> v = load (mem (e_world s)) a n -> 0 <= v < 2 ^ (8 * Z.of_nat n) ->
     writer (k s) (rk v)) ->
  writer (bind get k) (rbind (rload a n) rk).
Proof.
  intros Hk s Hg Hcl. unfold rbind, rload in *. cbn [fst snd] in *.
  apply (clear_app [_]) in Hcl as [Hcl1 Hcl2].
  pose proof (good_load s a n Hg Hcl1) as Heq.
  specialize (Hk s (load m0 a n) Hg (eq_sym Heq) (load_range _ _ _) s Hg Hcl2). exact Hk.
Qed.

Lemma reader_get_load {A} a n (k : estate -> E A) rk P :
  (forall s v, good s -> v = load (mem (e_world s)) a n -> 0 <= v < 2 ^ (8 * Z.of_nat n) ->
     reader (k s) (rk v) P) ->
  reader (bind get k) (rbind (rload a n) rk) P.
Proof.
  intros Hk s Hg Hcl. unfold rbind, rload in *. cbn [fst snd] in *.
  apply (clear_app [_]) in Hcl as [Hcl1 Hcl2].
  pose proof (good_load s a n Hg Hcl1) as Heq.
  specialize (Hk s (load m0 a n) Hg (eq_sym Heq) (load_range _ _ _) s Hg Hcl2). exact Hk.
Qed.

Lemma writer_loop {A} k (body : A -> E (A + unit)) a r :
  Z.of_nat k <= 2 ^ 65 -> writer (iterate k body a) r -> writer (loop body a) r.
Proof.
  intros Hk Hw s Hg Hcl. specialize (Hw s Hg Hcl). destruct (fst (r m0)) as [l| |]; [| |done].
  - destruct Hw as [Hb Hw]. split; [done|]. destruct (decide _).
    + by apply (loop_iterate body k).
    + destruct Hw as (s' & Hw & Hs'). exists s'. split; [|done]. by apply (loop_iterate body k).
  - destruct Hw as (s' & Hw & Hs'). exists s'. split; [|done]. by apply (loop_iterate body k).
Qed.

Lemma reader_loop {A B'} k (body : A -> E (A + B')) a r P :
  Z.of_nat k <= 2 ^ 65 -> reader (iterate k body a) r P -> reader (loop body a) r P.
Proof.
  intros Hk Hw s Hg Hcl. specialize (Hw s Hg Hcl). destruct (fst (r m0)) as [l| |]; [| |done].
  - destruct Hw as [Hb Hw]. split; [done|]. by apply (loop_iterate body k).
  - destruct Hw as (s' & Hw & Hs'). exists s'. split; [|done]. by apply (loop_iterate body k).
Qed.

(** *** The wire-level writers *)

Lemma pb_write_good s buf n l :
  good s -> zlen l = n -> n < 2 ^ 64 ->
  (os_callback (ostream s) = buf_write_cb -> src_bytes (mem (e_world s)) buf n = l) ->
  if decide (fits l (ostream s)) then pb_write buf n s = (Ret tt, emit l s)
  else failed (pb_write buf n) s.
Proof.
  intros Hg Hlen Hn Hsrc. pose proof (zlen_nonneg l). destruct Hg as (He & Hcb & Hm).
  unfold pb_write. destruct s as [[cb st mx wr er] w]. cbn in *. subst er.
  unfold fits, avail, emit, call_ocallback, failed. cbn.
  destruct cb; cbn in *.
  - destruct (decide _) as [_|Hnf]; [|by destruct Hnf; left].
    rewrite andb_false_r, bind_ret.
    unfold modify, set_ostream, os_set_written. cbn. by subst n.
  - rewrite andb_true_r.
    destruct (Z.ltb_spec 0 n) as [Hpos|Hzero].
    + assert (Hover : (u64 (wr + n) <? wr) || (mx <? u64 (wr + n)) = (mx <? wr + n)).
      { unfold uwrap, object_limit in *. destruct (Z.ltb_spec (wr + n) (2 ^ 64)) as [Hs|Hb].
        - rewrite Z.mod_small by lia. destruct (Z.ltb_spec (wr + n) wr); lia.
        - destruct (Z.ltb_spec mx (wr + n)); [|lia]. apply orb_true_intro. left.
          apply Z.ltb_lt. zlia. }
      rewrite Hover. destruct (Z.ltb_spec mx (wr + n)) as [Hbig|Hfit].
      * destruct (decide _) as [[|]|_]; [done|lia|]. apply failed_bind, failed_return_error.
      * destruct (decide _) as [_|Hnf]; [|destruct Hnf; right; lia].
        unfold attempt, bind, get, buf_write, modify, liftE, zoom, ret, set_ostream, set_eworld. cbn.
        rewrite Hsrc by done. unfold os_set_written, object_limit, uwrap in *. cbn.
        by rewrite Z.mod_small by lia; subst n.
    + destruct l; unfold zlen in *; cbn in *; [|lia]. assert (n = 0) as -> by lia.
      destruct (decide _) as [_|Hnf]; [|destruct Hnf; right; lia].
      unfold modify, set_ostream, os_set_written, set_mem, object_limit, uwrap in *. cbn.
      rewrite Z.mod_small by lia. rewrite !Z.add_0_r. by destruct w.
  - done.
Qed.

Lemma writer_write_local l n :
  Forall is_byte l -> n = zlen l -> n < 2 ^ 64 -> writer (pb_write (WLocal l) n) (rret l).
Proof.
  intros Hl -> Hn s Hg _. cbn [fst snd rret]. split; [done|]. apply pb_write_good; [done|done|done|].
  intros _. cbn. unfold zlen. by rewrite Nat2Z.id, firstn_all.
Qed.

Lemma writer_write_mem a n :
  0 <= n < 2 ^ 64 -> writer (pb_write (WMem a) n) (rload_bytes a n).
Proof.
  intros Hn s Hg Hcl. cbn [fst snd rload_bytes] in *. split; [apply load_bytes_range|].
  apply pb_write_good; [done| |lia|].
  - unfold zlen. rewrite length_load_bytes. lia.
  - intros _. by apply good_load_bytes.
Qed.

(** On a sizing stream only the length counts. *)
Lemma pb_write_sizing s a n l :
  good s -> is_null_cb (os_callback (ostream s)) = true -> zlen l = n -> n < 2 ^ 64 ->
  pb_write (WMem a) n s = (Ret tt, emit l s).
Proof.
  intros Hg Hnull Hlen Hn.
  pose proof (pb_write_good s (WMem a) n l Hg Hlen Hn) as Hw.
  destruct (os_callback (ostream s)) eqn:Ecb; try done.
  destruct (decide _) as [Hf|Hf]; [by apply Hw|]. destruct Hf. left. by rewrite Ecb.
Qed.

Lemma varint_byte_or v : u8 (Z.lor (Z.land v 0x7F) 0x80) = v mod 128 + 128.
Proof.
  rewrite land_7f. pose proof (Z.mod_pos_bound v 128 ltac:(lia)).
  change (Z.lor (v mod 128) 0x80) with (Z.lor (v mod 128) (Z.shiftl 1 7)).
  rewrite lor_shiftl_add by (change (2 ^ 7) with 128; lia).
  unfold uwrap. change (2 ^ 7) with 128. change (2 ^ 8) with 256.
  rewrite (Z.mod_small (_ + _)); lia.
Qed.

Lemma clear_last_cons x y l : clear_last (x :: y :: l) = x :: clear_last (y :: l).
Proof. unfold clear_last. cbn [List.length Nat.sub nth]. by rewrite Nat.sub_0_r. Qed.

Lemma varint_loop_groups n v :
  0 < v < 2 ^ (7 * Z.of_nat (S n)) ->
  exists l, varint_loop (S n) v = Some l /\ clear_last l = varint_groups n v /\
    List.length l = List.length (varint_groups n v).
Proof.
  revert v. induction n as [|n IH]; intros v Hv; cbn [varint_loop].
  - change (2 ^ (7 * Z.of_nat 1)) with 128 in Hv.
    destruct (Z.eqb_spec v 0); [lia|]. rewrite Z.shiftr_div_pow2 by lia.
    change (2 ^ 7) with 128. rewrite (Z.div_small v 128) by lia. cbn [varint_loop Z.eqb].
    eexists. split; [reflexivity|]. cbn [varint_groups]. destruct (Z.ltb_spec v 0x80); [|lia].
    split; [|done]. rewrite varint_byte_or. unfold clear_last. cbn.
    rewrite land_7f. f_equal. zlia.
  - destruct (Z.eqb_spec v 0); [lia|]. rewrite Z.shiftr_div_pow2 by lia. change (2 ^ 7) with 128.
    replace (7 * Z.of_nat (S (S n))) with (7 + 7 * Z.of_nat (S n)) in Hv by lia.
    rewrite Z.pow_add_r in Hv by lia. change (2 ^ 7) with 128 in Hv.
    cbn [varint_groups]. destruct (Z.ltb_spec v 0x80) as [Hlt|Hge].
    + rewrite Z.div_small by lia. cbn [varint_loop Z.eqb]. eexists. split; [reflexivity|].
      split; [|done]. rewrite varint_byte_or. unfold clear_last. cbn. rewrite land_7f. f_equal. zlia.
    + destruct (IH (v / 128)) as (l & Hl & Hcl & Hlen); [zlia|].
      change (varint_loop (S n) (v / 128)) with (varint_loop (S n) (v / 128)) in Hl.
      cbn [varint_loop] in Hl. rewrite Hl. eexists. split; [reflexivity|].
      rewrite varint_byte_or. destruct l as [|y l].
      * destruct n; cbn in Hlen; destruct (v / 128 <? 0x80); done.
      * rewrite clear_last_cons, Hcl. split; [done|]. cbn [List.length] in *. by rewrite Hlen.
Qed.

Lemma varint_bytes_bytes v : 0 <= v < 2 ^ 64 -> Forall is_byte (varint_bytes v).
Proof.
  intros Hv. assert (Hgen : forall n w, 0 <= w < 2 ^ (7 * Z.of_nat (S n)) ->
    Forall is_byte (varint_groups n w)).
  { induction n as [|n IH]; intros w Hw; cbn [varint_groups]; unfold is_byte.
    - change (2 ^ (7 * Z.of_nat 1)) with 128 in Hw.
      destruct (w <? 0x80); repeat constructor; lia.
    - replace (7 * Z.of_nat (S (S n))) with (7 + 7 * Z.of_nat (S n)) in Hw by lia.
      rewrite Z.pow_add_r in Hw by lia. change (2 ^ 7) with 128 in Hw.
      destruct (Z.ltb_spec w 0x80); repeat constructor; [lia|lia|zlia|zlia|].
      apply IH. zlia. }
  apply (Hgen 9%nat). change (2 ^ (7 * Z.of_nat 10)) with (2 ^ 70). lia.
Qed.

Lemma pb_encode_varint_bytes v s :
  0 <= v < 2 ^ 64 -> pb_encode_varint v s = pb_write (WLocal (varint_bytes v)) (zlen (varint_bytes v)) s.
Proof.
  intros Hv. unfold pb_encode_varint. destruct (Z.leb_spec v 0x7F) as [Hle|Hgt].
  - unfold varint_bytes. cbn [varint_groups]. destruct (Z.ltb_spec v 0x80); [|lia].
    unfold uwrap. by rewrite Z.mod_small by lia.
  - destruct (varint_loop_groups 9 v) as (l & Hl & Hcl & Hlen).
    { change (2 ^ (7 * Z.of_nat 10)) with (2 ^ 70). lia. }
    rewrite Hl, Hcl. unfold zlen. by rewrite Hlen.
Qed.

Lemma zlen_varint v : 0 <= v < 2 ^ 64 -> 1 <= zlen (varint_bytes v) <= 10.
Proof. intros Hv. destruct (varint_bytes_spec v Hv) as (_ & _ & ?). unfold zlen. lia. Qed.

Lemma writer_varint v : 0 <= v < 2 ^ 64 -> writer (pb_encode_varint v) (rret (varint_bytes v)).
Proof.
  intros Hv. eapply writer_ext; [intros s; by apply pb_encode_varint_bytes|].
  pose proof (zlen_varint v Hv). apply writer_write_local; [by apply varint_bytes_bytes|done|lia].
Qed.
End Logic.
