(* ===== verification/EncodeRefine.v ===== *)
(** [pb_encode] implements [spec_encode]: the refinement, field kind by field
    kind with the rules of [Writer], and what it gives for encoding into a buffer
    and for [pb_get_encoded_size]. *)

From Stdlib Require Import ZArith Lia List String Bool.
From stdpp Require Import base gmap list.
From S2P Require Import Prelude Memory Pb PbCommon PbDecode PbEncode Base128 Varint EncodeSpec Writer.

Lemma rbind_rret {A B} (a : A) (f : A -> R B) m : rbind (rret a) f m = f a m.
Proof. unfold rbind, rret. by destruct (f a m) as [[] ?]. Qed.

(** ** Values *)

Section Values.
Context `{Env}.
Variables (m0 : gmap Z Z) (B N : Z).
Abbreviation writer := (writer m0 B N).
Abbreviation reader := (reader m0 B N).

Lemma lor_range w a b : 0 <= a < 2 ^ w -> 0 <= b < 2 ^ w -> 0 <= w -> 0 <= Z.lor a b < 2 ^ w.
Proof.
  intros Ha Hb Hw. split; [apply Z.lor_nonneg; lia|].
  destruct (Z.eqb_spec (Z.lor a b) 0) as [->|Hne]; [lia|].
  assert (0 <= Z.lor a b) by (apply Z.lor_nonneg; lia).
  apply Z.log2_lt_pow2; [lia|]. rewrite Z.log2_lor by lia.
  assert (Hlog : forall x, 0 <= x < 2 ^ w -> x <> 0 -> Z.log2 x < w).
  { intros x Hx Hx0. apply Z.log2_lt_pow2; lia. }
  destruct (Z.eqb_spec a 0) as [->|Ha0].
  - rewrite Z.lor_0_l in Hne. pose proof (Hlog b Hb Hne). pose proof (Z.log2_nonneg b).
    change (Z.log2 0) with 0. lia.
  - pose proof (Hlog a Ha Ha0). pose proof (Z.log2_nonneg a).
    destruct (Z.eqb_spec b 0) as [->|Hb0]; [change (Z.log2 0) with 0; lia|].
    pose proof (Hlog b Hb Hb0). lia.
Qed.

Lemma u64_range x : 0 <= u64 x < 2 ^ 64.
Proof. unfold uwrap. apply Z.mod_pos_bound. lia. Qed.

Lemma writer_tag wiretype number :
  0 <= wiretype < 8 -> writer (pb_encode_tag wiretype number) (rret (spec_tag wiretype number)).
Proof.
  intros Hwt. apply writer_varint, lor_range; [apply u64_range|lia|lia].
Qed.

Lemma wire_type_range lt w : wire_type_of lt = Some w -> 0 <= w < 8.
Proof.
  unfold wire_type_of. repeat destruct (_ || _); repeat destruct (_ =? _);
    intros [= <-]; cbv; done.
Qed.

Lemma writer_tag_for_field field :
  writer (pb_encode_tag_for_field field) (spec_tag_for_field field).
Proof.
  unfold pb_encode_tag_for_field, spec_tag_for_field.
  destruct (wire_type_of _) eqn:E; [|apply writer_error].
  by apply writer_tag, (wire_type_range _ _ E).
Qed.

Lemma writer_string a n :
  0 <= n < 2 ^ 64 -> writer (pb_encode_string (WMem a) n) (spec_string a n).
Proof.
  intros Hn. unfold pb_encode_string, spec_string.
  eapply writer_rext; [|apply writer_app; [by apply writer_varint|by apply writer_write_mem]].
  unfold rapp, rbind, rret, rload_bytes. cbn. done.
Qed.

Lemma writer_svarint v :
  - 2 ^ 63 <= v < 2 ^ 63 -> writer (pb_encode_svarint v) (rret (varint_bytes (zigzag v))).
Proof.
  intros Hv. unfold pb_encode_svarint.
  assert ((if v <? 0 then u64 (Z.lnot (u64 (Z.shiftl (u64 v) 1))) else u64 (Z.shiftl (u64 v) 1))
          = zigzag v) as ->.
  { unfold zigzag. rewrite Z.shiftl_mul_pow2 by lia. change (2 ^ 1) with 2. unfold uwrap.
    change (2 ^ 64) with 18446744073709551616. unfold Z.lnot. destruct (Z.ltb_spec v 0); zlia. }
  apply writer_varint. unfold zigzag. destruct (Z.ltb_spec v 0); lia.
Qed.

Lemma writer_bool field src : writer (pb_enc_bool field src) (spec_bool src).
Proof.
  unfold spec_bool. intros s Hg Hcl.
  cbn [fst snd rbind rload rret app] in *. apply (clear_app _ _ [_]) in Hcl as [Hcl _].
  pose proof (good_load m0 B N s src 1 Hg Hcl) as Hl. cbn [load] in Hl.
  rewrite Z.mul_0_r, Z.add_0_r in Hl.
  assert (Heq : pb_enc_bool field src s = pb_encode_varint (if load m0 src 1 =? 0 then 0 else 1) s).
  { unfold pb_enc_bool, liftE, zoom, gets, bind, safe_read_bool. cbn [load].
    change (256 * 0) with 0. rewrite Hl, Z.add_0_r.
    destruct s. by destruct (_ =? 0). }
  unfold failed. rewrite Heq.
  apply (writer_varint m0 B N (if load m0 src 1 =? 0 then 0 else 1)); [|done|by constructor].
  destruct (_ =? 0); lia.
Qed.

Lemma swrap_bytes_range n v : (0 < n)%nat -> - 2 ^ (8 * Z.of_nat n - 1) <= swrap (8 * Z.of_nat n) v < 2 ^ (8 * Z.of_nat n - 1).
Proof. intros Hn. apply swrap_range. lia. Qed.

Lemma reader_int (signed : bool) n src : (0 < n <= 8)%nat ->
  reader (bind (liftE (loadW src n)) (fun v => ret (if signed then swrap (8 * Z.of_nat n) v else v)))
    (rbind (rload src n) (fun v => rret (if signed then swrap (8 * Z.of_nat n) v else v)))
    (fun v => if signed then - 2 ^ 63 <= v < 2 ^ 63 else 0 <= v < 2 ^ 64).
Proof.
  intros Hn. eapply reader_bind; [apply reader_load|]. cbv beta. intros v Hv. apply reader_ret.
  destruct signed.
  - pose proof (swrap_bytes_range n v ltac:(lia)).
    pose proof (Z.pow_le_mono_r 2 (8 * Z.of_nat n - 1) 63 ltac:(lia) ltac:(lia)). lia.
  - pose proof (Z.pow_le_mono_r 2 (8 * Z.of_nat n) 64 ltac:(lia) ltac:(lia)). lia.
Qed.

Lemma reader_load_int (signed : bool) size src :
  reader (load_int signed size src) (spec_int signed size src)
    (fun v => if signed then - 2 ^ 63 <= v < 2 ^ 63 else 0 <= v < 2 ^ 64).
Proof.
  unfold load_int, spec_int. cbv zeta.
  repeat (destruct (_ =? _); [by apply reader_int; lia|]). apply reader_error.
Qed.

Lemma load_shift m a n k :
  (k < n)%nat -> Z.land (Z.shiftr (load m a n) (8 * Z.of_nat k)) 0xFF = load_byte m (a + Z.of_nat k).
Proof.
  intros Hk. change 0xFF with (Z.ones 8). rewrite Z.land_ones, Z.shiftr_div_pow2 by lia.
  revert a k Hk. induction n as [|n IH]; intros a k Hk; [lia|]. cbn [load].
  pose proof (load_byte_range m a). destruct k as [|k].
  - rewrite Z.mul_0_r, Z.pow_0_r, Z.div_1_r, Z.add_0_r. change (2 ^ 8) with 256. zlia.
  - replace (8 * Z.of_nat (S k)) with (8 + 8 * Z.of_nat k) by lia.
    rewrite Z.pow_add_r, <- Zdiv_Zdiv by lia. change (2 ^ 8) with 256 at 1.
    replace ((load_byte m a + 256 * load m (a + 1) n) / 256) with (load m (a + 1) n) by zlia.
    rewrite IH by lia. f_equal. lia.
Qed.

(** The [k]-th byte of an [n]-byte load, shifted by [j = 8 * k]. *)
Ltac byte_at src n k j :=
  let E := fresh in
  pose proof (load_shift m0 src n k ltac:(lia)) as E; change (8 * Z.of_nat k) with j in E;
  rewrite E; clear E.

Lemma writer_fixed32 src : writer (pb_encode_fixed32 src) (spec_fixed 4 src).
Proof.
  intros s Hg Hcl. cbn [fst snd spec_fixed rload_bytes] in *.
  pose proof (good_load m0 B N s src 4 Hg Hcl) as Hl.
  pose proof (writer_write_local m0 B N (load_bytes m0 src (Z.to_nat (Z.of_nat 4))) 4
    (load_bytes_range _ _ _) eq_refl ltac:(lia) s Hg (Forall_nil_2 _)) as Hw.
  cbn [fst rret] in Hw.
  enough (Heq : pb_encode_fixed32 src s =
    pb_write (WLocal (load_bytes m0 src (Z.to_nat (Z.of_nat 4)))) 4 s)
    by (unfold failed in *; by rewrite Heq).
  unfold pb_encode_fixed32, liftE, loadW, zoom, gets, bind. rewrite Hl.
  byte_at src 4%nat 0%nat 0. byte_at src 4%nat 1%nat 8. byte_at src 4%nat 2%nat 16.
  byte_at src 4%nat 3%nat 24.
  change (Z.to_nat (Z.of_nat 4)) with 4%nat. cbn [load_bytes].
  rewrite Z.add_0_r, <- !Z.add_assoc. by destruct s.
Qed.

Lemma writer_fixed64 src : writer (pb_encode_fixed64 src) (spec_fixed 8 src).
Proof.
  intros s Hg Hcl. cbn [fst snd spec_fixed rload_bytes] in *.
  pose proof (good_load m0 B N s src 8 Hg Hcl) as Hl.
  pose proof (writer_write_local m0 B N (load_bytes m0 src (Z.to_nat (Z.of_nat 8))) 8
    (load_bytes_range _ _ _) eq_refl ltac:(lia) s Hg (Forall_nil_2 _)) as Hw.
  cbn [fst rret] in Hw.
  enough (Heq : pb_encode_fixed64 src s =
    pb_write (WLocal (load_bytes m0 src (Z.to_nat (Z.of_nat 8)))) 8 s)
    by (unfold failed in *; by rewrite Heq).
  unfold pb_encode_fixed64, liftE, loadW, zoom, gets, bind. rewrite Hl.
  byte_at src 8%nat 0%nat 0. byte_at src 8%nat 1%nat 8. byte_at src 8%nat 2%nat 16.
  byte_at src 8%nat 3%nat 24. byte_at src 8%nat 4%nat 32. byte_at src 8%nat 5%nat 40.
  byte_at src 8%nat 6%nat 48. byte_at src 8%nat 7%nat 56.
  change (Z.to_nat (Z.of_nat 8)) with 8%nat. cbn [load_bytes].
  rewrite Z.add_0_r, <- !Z.add_assoc. by destruct s.
Qed.

Lemma writer_bytes field src :
  writer (pb_enc_bytes field src) (spec_bytes field src).
Proof.
  unfold pb_enc_bytes, spec_bytes. destruct (src =? NULL).
  - intros s Hg _. exact (writer_string NULL 0 ltac:(lia) s Hg ltac:(repeat constructor; lia)).
  - eapply writer_bind; [apply reader_load|]. cbv beta. intros size Hsize.
    change (8 * Z.of_nat sizeof_pb_size) with 32 in Hsize.
    unfold PB_BYTES_ARRAY_T_ALLOCSIZE, pb_bytes_array_bytes, uwrap.
    rewrite Z.mod_small by lia. destruct (Z.ltb_spec (size + 4) size); [lia|]. cbn [orb].
    destruct (_ && _); [apply writer_error|]. apply writer_string. lia.
Qed.

Lemma reader_strlen k max src :
  0 <= max < 2 ^ 64 -> forall size, 0 <= size <= max ->
  reader (iterate k (fun size =>
      s <- get ;;
      if (size <? max) && negb (load_byte (mem (e_world s)) (src + size) =? 0)
      then ret (inl (size + 1)) else ret (inr size)) size)
    (spec_strlen k max src size) (fun v => 0 <= v < 2 ^ 64).
Proof.
  intros Hmax. induction k as [|k IH]; intros size Hsize; cbn [iterate spec_strlen]; [apply reader_stuck|].
  destruct (Z.ltb_spec size max) as [Hlt|Hge].
  - eapply reader_ext; [intros s; by rewrite bind_assoc|].
    apply reader_get_load. intros s v Hg Hv _. cbn [load] in Hv. rewrite Z.mul_0_r, Z.add_0_r in Hv.
    rewrite <- Hv. cbn [andb]. destruct (v =? 0); cbn [negb].
    + eapply reader_ext; [intros ?; apply bind_ret|]. apply reader_ret. lia.
    + eapply reader_ext; [intros ?; apply bind_ret|]. apply IH. lia.
  - eapply reader_ext; [intros s; rewrite bind_assoc, bind_get; cbn [andb]; by rewrite bind_ret|].
    apply reader_ret. lia.
Qed.
End Values.

(** ** Zero values *)

Definition fields_in_range (fields : list pb_field_t) : Prop :=
  Forall (fun f => field_in_range f = true) fields.

Lemma field_at_in_range fields i : fields_in_range fields -> field_in_range (field_at fields i) = true.
Proof.
  intros Hall. unfold field_at. destruct (nth_in_or_default i fields PB_LAST_FIELD) as [Hin| ->].
  - by eapply (proj1 (List.Forall_forall _ _)) in Hall.
  - done.
Qed.

Lemma start_next iter : start (snd (pb_field_iter_next iter)) = start iter.
Proof.
  unfold pb_field_iter_next. destruct (_ =? 0); [done|]. destruct (_ =? 0); [done|].
  by destruct (_ && _ && _).
Qed.

Ltac in_range Hf :=
  unfold field_in_range in Hf; rewrite !andb_true_iff, ?Z.leb_le, ?Z.ltb_lt in Hf.

Section Fields.
Context `{Env}.
Variables (m0 : gmap Z Z) (B N : Z) (bound : nat).
Hypothesis Hbound : Z.of_nat bound <= 2 ^ 64.
Hypothesis tables : forall a, fields_in_range (desc a).
Abbreviation writer := (writer m0 B N).
Abbreviation reader := (reader m0 B N).

Lemma writer_cstring field src :
  field_in_range field = true ->
  writer (pb_enc_string field src) (spec_cstring bound field src).
Proof.
  intros Hf. in_range Hf. unfold pb_enc_string, spec_cstring. cbv zeta.
  change (u64 (-1)) with (2 ^ 64 - 1). destruct (src =? NULL) eqn:Enull.
  - apply Z.eqb_eq in Enull as ->. eapply writer_ext; [intros; apply bind_ret|].
    apply writer_string. lia.
  - clear Enull. eapply writer_bind.
    + eapply (reader_loop _ _ _ bound); [lia|].
      apply (reader_strlen m0 B N bound); [destruct (_ =? _); lia..].
    + cbv beta. intros v Hv. by apply writer_string.
Qed.

Lemma reader_all_zero a n :
  reader (s <- get ;; ret (forallb (fun b => b =? 0) (load_bytes (mem (e_world s)) a (Z.to_nat n))))
    (rbind (rload_bytes a n) (fun l => rret (forallb (fun b => b =? 0) l))) (fun _ => True).
Proof.
  intros s Hg Hcl. cbn [fst snd rbind rload_bytes rret app] in *. split; [done|].
  rewrite bind_get. by rewrite (good_load_bytes m0 B N s a n Hg) by done.
Qed.

Lemma reader_size a f :
  reader (size <- liftE (loadW a sizeof_pb_size) ;; ret (f size))
    (rbind (rload a sizeof_pb_size) (fun size => rret (f size : bool))) (fun _ => True).
Proof. eapply reader_bind; [apply reader_load|]. intros. by apply reader_ret. Qed.

Lemma reader_flag {A} a (k : bool -> E A) rk P :
  (forall b, reader (k b) (rk b) P) ->
  reader (s <- get ;; k (safe_read_bool (mem (e_world s)) a))
    (rbind (rload a 1) (fun b => rk (negb (b =? 0)))) P.
Proof.
  intros Hk. apply reader_get_load. intros s v _ Hv _. unfold safe_read_bool.
  cbn [load] in Hv. rewrite Z.mul_0_r, Z.add_0_r in Hv. rewrite <- Hv. apply Hk.
Qed.

Lemma reader_check_all check rcheck k :
  (forall field p, reader (check field p) (rcheck field p) (fun _ => True)) ->
  forall iter, reader
    (iterate k (fun iter =>
       zero <- check (cur iter) (pData iter) ;;
       if negb zero then ret (inr false)
       else
         let '(more, iter') := pb_field_iter_next iter in
         ret (if more : bool then inl iter' else inr true)) iter)
    (spec_check_all rcheck k iter) (fun _ => True).
Proof.
  intros Hcheck. induction k as [|k IH]; intros iter; cbn [iterate spec_check_all]; [apply reader_stuck|].
  eapply reader_ext; [intros s; apply bind_assoc|].
  eapply reader_bind; [apply Hcheck|]. intros zero _. destruct zero; cbn [negb].
  - destruct (pb_field_iter_next iter) as [[|] iter'];
      (eapply reader_ext; [intros s; apply bind_ret|]); [apply IH|by apply reader_ret].
  - eapply reader_ext; [intros s; apply bind_ret|]. by apply reader_ret.
Qed.

Lemma reader_check n : forall field p,
  reader (pb_check_proto3_default_value n field p) (spec_check bound n field p) (fun _ => True).
Proof.
  induction n as [|n IH]; intros field p; [apply reader_stuck|].
  cbn [pb_check_proto3_default_value spec_check]. unfold check_proto3_body, spec_check_body.
  cbv zeta.
  match goal with |- context [if PB_HTYPE _ =? PB_HTYPE_REQUIRED then ret false else
    if _ then (if _ then _ else if _ then _ else ?c) else _] => set (sing := c) end.
  match goal with |- context [if PB_HTYPE _ =? PB_HTYPE_REQUIRED then rret false else
    if _ then (if _ then _ else if _ then _ else ?c) else _] => set (rsing := c) end.
  assert (Hsing : reader sing rsing (fun _ => True)).
  { subst sing rsing.
    destruct (_ && _); [apply reader_size|].
    destruct (_ && _); [eapply reader_bind; [apply reader_load|]; intros; by apply reader_ret|].
    destruct (_ && _); [by apply reader_ret|].
    destruct (_ && _).
    - destruct (pb_field_iter_begin _ _) as [[|] iter]; [|by apply reader_ret].
      eapply (reader_loop _ _ _ bound); [lia|]. by apply reader_check_all.
    - destruct (_ && _); [|apply reader_all_zero].
      eapply reader_bind; [apply reader_load|]. intros. by apply reader_ret. }
  clearbody sing rsing.
  destruct (PB_HTYPE_cases (type field)) as [-> | [-> | [-> | ->]]];
    cbv beta iota delta [PB_HTYPE_REQUIRED PB_HTYPE_OPTIONAL PB_HTYPE_REPEATED PB_HTYPE_ONEOF];
    cbn [Z.eqb Pos.eqb andb].
  - by apply reader_ret.
  - destruct (negb _); [|done]. apply reader_get_load. intros s v _ Hv _.
    unfold safe_read_bool. cbn [load] in Hv. rewrite Z.mul_0_r, Z.add_0_r in Hv.
    rewrite <- Hv, negb_involutive. by apply reader_ret.
  - destruct (negb _); [apply reader_size|]. destruct (_ =? _); [by apply reader_ret|done].
  - apply reader_size.
Qed.

End Fields.

(** ** Lengths before contents *)

Section Delimited.
Context `{Env}.
Variables (m0 : gmap Z Z) (B N : Z).
Abbreviation writer := (writer m0 B N).

Lemma sizing c r s :
  writer c r -> good m0 B N s -> clear B N (snd (r m0)) ->
  match fst (r m0) with
  | Ret l => exists sub, on_ostream PB_OSTREAM_SIZING c s = (Ret (Some tt, sub), s) /\
               bytes_written sub = u64 (zlen l)
  | Fail => exists sub s', on_ostream PB_OSTREAM_SIZING c s = (Ret (None, sub), s') /\ confined s s'
  | Stuck => True
  end.
Proof.
  intros Hw Hg Hcl. set (s0 := set_ostream (fun _ => PB_OSTREAM_SIZING) s).
  assert (Hg0 : good m0 B N s0) by (split; [done|]; split; [cbn; lia|apply Hg]).
  specialize (Hw s0 Hg0 Hcl). destruct (fst (r m0)) as [l| |]; [| |done].
  - destruct Hw as [_ Hw]. destruct (decide _) as [_|Hn]; [|by destruct Hn; left].
    exists (ostream (emit l s0)). split; [|reflexivity]. unfold on_ostream. rewrite bind_get, bind_modify. fold s0.
    erewrite bind_Ret by (apply attempt_Ret, Hw). rewrite bind_get, bind_modify.
    unfold ret. f_equal. by destruct s.
  - destruct Hw as (s' & Hw & Hlv & Hm). exists (ostream s'), (set_ostream (fun _ => ostream s) s').
    unfold on_ostream. rewrite bind_get, bind_modify. fold s0.
    erewrite bind_Ret by (apply attempt_Fail, Hw). rewrite bind_get, bind_modify.
    split; [done|]. split; [done|]. intros a _. apply Hm. unfold avail. cbn. lia.
Qed.

Lemma writer_sized c r l size :
  writer c r -> fst (r m0) = Ret l -> zlen l = size -> size < 2 ^ 64 ->
  writer (s <- get ;; if is_null_cb (os_callback (ostream s)) then pb_write (WMem NULL) size else c) r.
Proof.
  intros Hw Hl Hlen Hsize s Hg Hcl. specialize (Hw s Hg Hcl). unfold failed in *.
  rewrite bind_get. rewrite Hl in *. destruct (is_null_cb _) eqn:Hnull; [|done].
  split; [apply Hw|]. destruct (decide _) as [_|Hn]; [|by destruct Hn; left].
  by apply (pb_write_sizing m0 B N).
Qed.

Lemma writer_delimited (getsize : E Z) second r :
  (forall s, good m0 B N s -> clear B N (snd (r m0)) ->
     match fst (r m0) with
     | Ret l => zlen l < object_limit -> getsize s = (Ret (zlen l), s)
     | Fail => failed getsize s
     | Stuck => True
     end) ->
  (forall l, fst (r m0) = Ret l -> zlen l < object_limit -> writer (second (zlen l)) r) ->
  writer (size <- getsize ;; pb_encode_varint size ;; second size) (rdelimited r).
Proof.
  intros Hsize Hsecond s Hg Hcl. specialize (Hsize s Hg). unfold rdelimited, rbind in *.
  destruct (r m0) as [[l| |] rd] eqn:Er; cbn [fst snd] in *; [| |done].
  - apply clear_app in Hcl as [Hcl1 _]. destruct (Z.ltb_spec (zlen l) object_limit) as [Hlt|]; [|done].
    specialize (Hsecond l eq_refl Hlt). pose proof (zlen_nonneg l). unfold object_limit in *.
    pose proof (writer_app m0 B N _ _ _ _ (writer_varint m0 B N (zlen l) ltac:(lia)) Hsecond s Hg) as Hw.
    unfold rapp, rbind, rret in Hw. rewrite Er in Hw. cbn [fst snd app] in Hw.
    rewrite app_nil_r in Hw. specialize (Hw Hcl1). cbn [fst rret]. unfold failed in *.
    erewrite bind_Ret by (by apply Hsize). exact Hw.
  - apply failed_bind. by apply Hsize.
Qed.
End Delimited.

(** ** Messages *)

Section Level.
Context `{Env}.
Variables (m0 : gmap Z Z) (B N : Z) (bound n : nat).
Hypothesis Hbound : Z.of_nat bound <= 2 ^ 64.
Hypothesis tables : forall a, fields_in_range (desc a).
Abbreviation writer := (writer m0 B N).
Abbreviation reader := (reader m0 B N).

(** The level below: [encode] implements [message]. *)
Variables (encode : list pb_field_t -> Z -> E unit) (message : list pb_field_t -> Z -> R (list Z)).
Hypothesis Hmsg : forall fields src,
  fields_in_range fields -> writer (encode fields src) (message fields src).

(** The second pass writes into the space measured by the first. *)
Definition second_pass (c : E unit) (size : Z) : E unit :=
  s <- get ;;
  let o := ostream s in
  if is_null_cb (os_callback o) then pb_write (WMem NULL) size
  else if max_size o <? u64 (bytes_written o + size) then e_return_error "stream full"
  else
    r <- on_ostream (mk_ostream (os_callback o) (os_state o) size 0 None) c ;;
    let '(status, substream) := r in
    modify (set_ostream (fun o =>
      mk_ostream (os_callback o) (os_state substream) (max_size o)
        (u64 (bytes_written o + bytes_written substream)) (os_errmsg substream))) ;;
    if negb (bytes_written substream =? size) then e_return_error "submsg size changed"
    else match status with Some _ => ret tt | None => fail end.

Lemma writer_second_pass c r l :
  writer c r -> fst (r m0) = Ret l -> zlen l < object_limit ->
  writer (second_pass c (zlen l)) r.
Proof.
  unfold second_pass.
  intros Hw Hl Hlen s Hg Hcl. rewrite Hl. rewrite bind_get. cbv zeta.
  set (sub := mk_ostream (os_callback (ostream s)) (os_state (ostream s)) (zlen l) 0 None).
  pose proof (zlen_nonneg l) as Hpos. unfold failed. rewrite bind_get. cbv zeta. fold sub.
  pose proof (Hw s Hg Hcl) as Hbytes. rewrite Hl in Hbytes. destruct Hbytes as [Hbytes _].
  split; [done|]. destruct (is_null_cb _) eqn:Hnull.
  { destruct (decide _) as [_|Hn]; [|by destruct Hn; left].
    apply (pb_write_sizing m0 B N); [done|done|done|]. unfold object_limit in *. lia. }
  destruct Hg as (He & Hcb & Hm). destruct (os_callback (ostream s)) eqn:Ecb; try done.
  assert (Hav : avail (ostream s) = max_size (ostream s) - bytes_written (ostream s))
    by (unfold avail; by rewrite Ecb).
  rewrite Hav in Hcb. destruct Hcb as (Hwr & Hmx & Hlo & Hhi). unfold object_limit in *.
  assert (Hsum : u64 (bytes_written (ostream s) + zlen l) = bytes_written (ostream s) + zlen l)
    by (unfold uwrap; rewrite Z.mod_small; lia).
  rewrite Hsum.
  destruct (decide (fits l (ostream s))) as [[Hf|Hf]|Hn]; [by rewrite Ecb in Hf| |].
  - rewrite Hav in Hf.
    destruct (Z.ltb_spec (max_size (ostream s)) (bytes_written (ostream s) + zlen l)); [lia|].
    assert (Hsub : good m0 B N (set_ostream (fun _ => sub) s)).
    { split; [done|]. split; [|done]. cbn. unfold avail. cbn. unfold object_limit. lia. }
    specialize (Hw _ Hsub Hcl). rewrite Hl in Hw. destruct Hw as [_ Hw].
    destruct (decide _) as [_|Hn]; [|destruct Hn; right; unfold avail; cbn; lia].
    unfold on_ostream. rewrite bind_assoc, bind_get, bind_assoc, bind_modify, bind_assoc.
    erewrite bind_Ret by (apply attempt_Ret, Hw).
    rewrite bind_assoc, bind_get, bind_assoc, bind_modify, bind_ret, bind_modify.
    cbn -[uwrap]. rewrite Z.eqb_refl. cbn [negb]. unfold ret, emit. rewrite Ecb. cbn -[uwrap].
    unfold set_ostream. cbn -[uwrap].
    by rewrite Z.add_0_l, Hsum, Ecb, He.
  - destruct (Z.ltb_spec (max_size (ostream s)) (bytes_written (ostream s) + zlen l)).
    + apply failed_return_error.
    + destruct Hn. right. rewrite Hav. lia.
Qed.

(** The sizing pass of a submessage, and its status. *)
Definition submessage_size (fields : list pb_field_t) (src : Z) : E Z :=
  r <- on_ostream PB_OSTREAM_SIZING (encode fields src) ;;
  let '(sized, substream) := r in
  match sized with
  | None => modify (set_ostream (os_set_error (os_errmsg substream))) ;; fail
  | Some _ => ret (bytes_written substream)
  end.

Lemma writer_encode_submessage fields src :
  fields_in_range fields ->
  writer (pb_encode_submessage encode fields src) (rdelimited (message fields src)).
Proof.
  intros Hf. pose proof (Hmsg fields src Hf) as Hw.
  apply writer_ext with (c' := size <- submessage_size fields src ;; pb_encode_varint size ;;
    second_pass (encode fields src) size).
  - intros s. unfold pb_encode_submessage, submessage_size. rewrite bind_assoc.
    destruct (on_ostream PB_OSTREAM_SIZING (encode fields src) s) as [[[[?|] sub]| |] s'] eqn:Eo.
    + by erewrite !bind_Ret by exact Eo.
    + by erewrite !bind_Ret by exact Eo.
    + by erewrite !bind_Fail by exact Eo.
    + unfold bind. by rewrite Eo.
  - apply writer_delimited.
    + intros s Hg Hcl. pose proof (sizing m0 B N _ _ s Hw Hg Hcl) as Hs.
      unfold submessage_size. destruct (fst (message fields src m0)) as [l| |]; [| |done].
      * destruct Hs as (sub & Hs & Hsub). intros Hlt. erewrite bind_Ret by exact Hs.
        cbv beta iota. rewrite Hsub. unfold ret, uwrap, object_limit in *. pose proof (zlen_nonneg l).
        by rewrite Z.mod_small by lia.
      * destruct Hs as (sub & s' & Hs & Hc). exists (set_ostream (os_set_error (os_errmsg sub)) s').
        by erewrite bind_Ret by exact Hs.
    + intros l Hl Hlt. cbv beta. exact (writer_second_pass _ _ l Hw Hl Hlt).
Qed.

Lemma writer_submessage field src :
  writer (pb_enc_submessage encode field src) (spec_submessage message field src).
Proof.
  unfold pb_enc_submessage, spec_submessage. destruct (_ =? _); [apply writer_error|].
  apply writer_encode_submessage, tables.
Qed.

Lemma writer_value field src :
  field_in_range field = true ->
  writer (PB_ENCODERS encode (PB_LTYPE (type field)) field src) (spec_value bound message field src).
Proof.
  intros Hf. unfold PB_ENCODERS, spec_value. cbv zeta.
  destruct (_ =? PB_LTYPE_BOOL); [apply writer_bool|].
  destruct (_ =? PB_LTYPE_VARINT).
  { eapply writer_bind; [apply reader_load_int|]. intros v _. apply writer_varint, u64_range. }
  destruct (_ =? PB_LTYPE_UVARINT).
  { eapply writer_bind; [apply reader_load_int|]. intros v Hv. by apply writer_varint. }
  destruct (_ =? PB_LTYPE_SVARINT).
  { eapply writer_bind; [apply reader_load_int|]. intros v Hv. by apply writer_svarint. }
  destruct (_ =? PB_LTYPE_FIXED32); [apply writer_fixed32|].
  destruct (_ =? PB_LTYPE_FIXED64); [apply writer_fixed64|].
  destruct (_ =? PB_LTYPE_BYTES); [apply writer_bytes|].
  destruct (_ =? PB_LTYPE_STRING); [by apply writer_cstring|].
  destruct (_ =? PB_LTYPE_SUBMESSAGE); [apply writer_submessage|].
  destruct (_ =? PB_LTYPE_FIXED_LENGTH_BYTES); [|apply writer_stuck].
  in_range Hf. apply writer_string. lia.
Qed.

(** *** Arrays *)

Lemma writer_items item ritem ds count p :
  (forall p, writer (item p) (ritem p)) -> 0 <= count < 2 ^ 64 ->
  writer (for_items item ds count p) (spec_items ritem ds (Z.to_nat count) p).
Proof.
  intros Hitem Hcount. unfold for_items.
  apply (writer_loop _ _ _ (S (Z.to_nat count))); [lia|].
  assert (Hgen : forall k i p, 0 <= i -> i + Z.of_nat k = count ->
    writer (iterate (S k) (fun '(i, p) =>
      if i <? count then item p ;; ret (inl (i + 1, p + ds)) else ret (inr tt)) (i, p))
      (spec_items ritem ds k p)).
  { induction k as [|k IH]; intros i q Hi Hk; cbn [spec_items].
    - cbn [iterate]. destruct (Z.ltb_spec i count); [lia|].
      eapply writer_ext; [intros s; apply bind_ret|]. apply writer_nil.
    - remember (S k) as k'. cbn [iterate]. subst k'. destruct (Z.ltb_spec i count); [|lia].
      eapply writer_ext; [intros s; rewrite bind_assoc; reflexivity|].
      apply writer_app; [apply Hitem|]. eapply writer_ext; [intros s; apply bind_ret|].
      apply IH; lia. }
  apply Hgen; lia.
Qed.

Lemma spec_items_ext item item' ds count p :
  (forall p, item p = item' p) -> spec_items item ds count p m0 = spec_items item' ds count p m0.
Proof.
  intros Hext. revert p. induction count as [|count IH]; intros p; cbn [spec_items]; [done|].
  unfold rapp, rbind. by rewrite Hext, IH.
Qed.

Lemma spec_items_fixed k ds count p :
  exists l, fst (spec_items (spec_fixed k) ds count p m0) = Ret l /\
    zlen l = Z.of_nat k * Z.of_nat count.
Proof.
  revert p. induction count as [|count IH]; intros p; cbn [spec_items].
  - exists []. split; [done|]. unfold zlen. cbn. lia.
  - destruct (IH (p + ds)) as (l & Hl & Hlen). unfold rapp, rbind, spec_fixed, rload_bytes in *.
    destruct (spec_items _ _ _ _ m0) as [[l'| |] rd]; try done. injection Hl as ->.
    eexists. split; [reflexivity|]. rewrite zlen_app, Hlen. unfold zlen.
    rewrite length_load_bytes. lia.
Qed.

Lemma packed_size field count p (s : estate) k lt :
  PB_LTYPE (type field) = lt -> (lt = PB_LTYPE_FIXED32 /\ k = 4%nat) \/ (lt = PB_LTYPE_FIXED64 /\ k = 8%nat) ->
  0 <= count < 2 ^ 32 ->
  match fst (spec_items (spec_value bound message field) (data_size field) (Z.to_nat count) p m0) with
  | Ret l => u64 (Z.of_nat k * count) = zlen l
  | _ => False
  end.
Proof.
  intros Hlt Hk Hcount.
  rewrite (spec_items_ext _ (spec_fixed k)).
  - destruct (spec_items_fixed k (data_size field) (Z.to_nat count) p) as (l & -> & ->).
    unfold uwrap. destruct Hk as [[_ ->]|[_ ->]]; rewrite Z.mod_small; lia.
  - intros q. unfold spec_value. rewrite Hlt. by destruct Hk as [[-> ->]|[-> ->]].
Qed.

Lemma writer_array field p count :
  field_in_range field = true -> 0 <= count < 2 ^ 32 ->
  writer (encode_array field p count (PB_ENCODERS encode (PB_LTYPE (type field))))
    (spec_array bound message field p count).
Proof.
  intros Hf Hcount. unfold encode_array, spec_array. cbv zeta.
  destruct (count =? 0); [apply writer_nil|].
  destruct (negb _ && _); [apply writer_error|].
  set (items := for_items (PB_ENCODERS encode (PB_LTYPE (type field)) field) (data_size field) count p).
  assert (Hitems : writer items (spec_items (spec_value bound message field) (data_size field) (Z.to_nat count) p)).
  { apply writer_items; [|lia]. intros q. by apply writer_value. }
  destruct (_ <=? PB_LTYPE_LAST_PACKABLE).
  - apply writer_app; [apply writer_tag; by cbv|]. apply writer_delimited.
    + intros s Hg Hcl. pose proof (sizing m0 B N _ _ s Hitems Hg Hcl) as Hs.
      destruct (Z.eqb_spec (PB_LTYPE (type field)) PB_LTYPE_FIXED32) as [E|_].
      { pose proof (packed_size field count p s 4 _ E ltac:(by left) Hcount) as Hp.
        destruct (fst _); [|done..]. intros _. change (Z.of_nat 4) with 4 in Hp. by rewrite Hp. }
      destruct (Z.eqb_spec (PB_LTYPE (type field)) PB_LTYPE_FIXED64) as [E|_].
      { pose proof (packed_size field count p s 8 _ E ltac:(by right) Hcount) as Hp.
        destruct (fst _); [|done..]. intros _. change (Z.of_nat 8) with 8 in Hp. by rewrite Hp. }
      destruct (fst _) as [l| |]; [| |done].
      * destruct Hs as (sub & Hs & Hsub). intros Hlt. erewrite bind_Ret by exact Hs.
        cbv beta iota. rewrite Hsub. unfold ret, uwrap, object_limit in *. pose proof (zlen_nonneg l).
        by rewrite Z.mod_small by lia.
      * destruct Hs as (sub & s' & Hs & Hc). exists s'. by erewrite bind_Ret by exact Hs.
    + intros l Hl Hlt. unfold object_limit in *.
      apply (writer_sized m0 B N _ _ l); [done|done|done|lia].
  - apply writer_items; [|lia]. intros q. apply writer_app; [apply writer_tag_for_field|].
    destruct (_ && _); [|by apply writer_value].
    eapply writer_bind; [apply reader_load|]. intros v _. by apply writer_value.
Qed.

(** *** Fields *)

Lemma writer_tagged field p :
  field_in_range field = true ->
  writer (pb_encode_tag_for_field field ;; PB_ENCODERS encode (PB_LTYPE (type field)) field p)
    (spec_tagged bound message field p).
Proof. intros Hf. apply writer_app; [apply writer_tag_for_field|by apply writer_value]. Qed.

Lemma writer_basic_field field p :
  field_in_range field = true ->
  writer (encode_basic_field n encode field p) (spec_basic_field bound n message field p).
Proof.
  intros Hf. pose proof Hf as Hr. in_range Hr. unfold encode_basic_field, spec_basic_field. cbv zeta.
  eapply (writer_bind _ _ _ _ _ (fun _ => True)).
  { destruct (negb _); [by apply reader_ret|]. destruct (_ =? _); [|by apply reader_ret].
    eapply reader_bind; [by apply reader_check|]. intros. by apply reader_ret. }
  intros implicit _. eapply (writer_bind _ _ _ _ _ (fun _ => True)).
  { destruct (_ =? _); [|by apply reader_ret]. by eapply reader_mono; [apply reader_load|]. }
  intros data _.
  destruct (_ =? PB_HTYPE_REQUIRED).
  { destruct (_ =? _); [apply writer_error|by apply writer_tagged]. }
  destruct (_ =? PB_HTYPE_OPTIONAL).
  { destruct (negb (size_offset field =? 0)).
    - apply (writer_rext _ _ _ _ _ (rbind (rload (p + size_offset field) 1) (fun b =>
        if negb (b =? 0) then spec_tagged bound message field data else rret [])));
        [done|].
      apply writer_get_load. intros s v _ Hv _. unfold safe_read_bool.
      cbn [load] in Hv. rewrite Z.mul_0_r, Z.add_0_r in Hv. rewrite <- Hv.
      destruct (negb _); [by apply writer_tagged|apply writer_nil].
    - eapply writer_ext; [intros s; apply bind_get|].
      apply (writer_rext _ _ _ _ _ (if (if PB_ATYPE (type field) =? PB_ATYPE_POINTER
        then negb (data =? NULL) else implicit)
        then spec_tagged bound message field data else rret [])); [apply rbind_rret|].
      destruct (if _ =? PB_ATYPE_POINTER then _ else implicit); [by apply writer_tagged|apply writer_nil]. }
  destruct (_ =? PB_HTYPE_REPEATED).
  { destruct (negb (size_offset field =? 0)).
    - eapply writer_bind; [apply reader_load|]. cbv beta. intros count Hcount.
      by apply writer_array.
    - eapply writer_ext; [intros s; apply bind_ret|]. apply writer_array; [done|lia]. }
  destruct (negb (size_offset field =? 0)); [|apply writer_stuck].
  eapply writer_bind; [apply reader_load|]. intros which _.
  destruct (_ =? _); [by apply writer_tagged|apply writer_nil].
Qed.

Lemma writer_callback_field field p :
  writer (encode_callback_field field p) (spec_callback_field p).
Proof.
  unfold encode_callback_field, spec_callback_field.
  eapply writer_bind; [apply reader_load|]. intros f _.
  destruct (f =? NULL); cbn [negb]; [apply writer_nil|apply writer_stuck].
Qed.

Lemma writer_field field p :
  field_in_range field = true ->
  writer (encode_field n encode field p) (spec_field bound n message field p).
Proof.
  intros Hf. unfold encode_field, spec_field. cbv zeta.
  destruct (_ || _); [by apply writer_basic_field|].
  destruct (_ =? _); [apply writer_callback_field|apply writer_error].
Qed.

Lemma writer_extension extension :
  writer (default_extension_encoder n encode extension) (spec_extension bound n message extension).
Proof.
  unfold default_extension_encoder, spec_extension.
  eapply writer_bind; [apply reader_load|]. intros t _.
  eapply writer_bind; [apply reader_load|]. intros arg _. cbv zeta.
  pose proof (field_at_in_range _ 0 (tables arg)).
  destruct (_ =? _); [by apply writer_field|].
  eapply writer_bind; [apply reader_load|]. intros dest _. by apply writer_field.
Qed.

Lemma writer_extensions field p :
  writer (encode_extension_field n encode field p)
    (rbind (rptr p) (spec_extensions bound n message bound)).
Proof.
  unfold encode_extension_field. eapply writer_bind; [apply reader_load|]. intros extension _.
  apply (writer_loop _ _ _ bound); [lia|].
  match goal with |- writer (iterate _ ?b _) _ =>
    enough (Hgen : forall k e, writer (iterate k b e) (spec_extensions bound n message k e))
      by apply Hgen end.
  clear extension. induction k as [|k IH]; intros extension; cbn [iterate spec_extensions]; [apply writer_stuck|].
  destruct (_ =? _).
  { eapply writer_ext; [intros s; apply bind_ret|]. apply writer_nil. }
  eapply writer_ext; [intros s; rewrite bind_assoc; reflexivity|].
  eapply writer_bind; [apply reader_load|]. intros t _.
  eapply writer_ext; [intros s; rewrite bind_assoc; reflexivity|].
  eapply writer_bind; [apply reader_load|]. intros f _.
  destruct (f =? NULL); cbn [negb]; [|apply writer_stuck].
  eapply writer_ext; [intros s; rewrite bind_assoc; reflexivity|].
  apply writer_app; [apply writer_extension|].
  eapply writer_ext; [intros s; rewrite bind_assoc; reflexivity|].
  eapply writer_bind; [apply reader_load|]. intros next _.
  eapply writer_ext; [intros s; apply bind_ret|]. apply IH.
Qed.

Lemma writer_step iter :
  fields_in_range (start iter) -> writer (encode_step n encode iter) (spec_step bound n message iter).
Proof.
  intros Hr. unfold encode_step, spec_step. destruct (_ =? _); [apply writer_extensions|].
  by apply writer_field, field_at_in_range.
Qed.

Lemma writer_message fields src :
  fields_in_range fields ->
  writer (encode_message n encode fields src) (spec_message bound n message fields src).
Proof.
  intros Hr. unfold encode_message, spec_message.
  assert (Hstart : start (snd (pb_field_iter_begin fields src)) = fields) by done.
  destruct (pb_field_iter_begin fields src) as [[|] iter]; [|apply writer_nil].
  cbn [snd] in Hstart. apply (writer_loop _ _ _ bound); [lia|]. subst fields.
  match goal with |- writer (iterate _ ?b _) _ =>
    enough (Hgen : forall k iter, fields_in_range (start iter) ->
      writer (iterate k b iter) (spec_fields bound n message k iter)) by (by apply Hgen) end.
  clear iter Hr. induction k as [|k IH]; intros iter Hr; cbn [iterate spec_fields]; [apply writer_stuck|].
  eapply writer_ext; [intros s; rewrite bind_assoc; reflexivity|].
  apply writer_app; [by apply writer_step|].
  pose proof (start_next iter) as Hnext. destruct (pb_field_iter_next iter) as [[|] iter'];
    (eapply writer_ext; [intros s; apply bind_ret|]); [|apply writer_nil].
  apply IH. cbn [snd] in Hnext. by rewrite Hnext.
Qed.
End Level.

(** ** The encoder *)

Section Encoder.
Context `{Env}.
Variable bound : nat.
Hypothesis Hbound : Z.of_nat bound <= 2 ^ 64.
Hypothesis tables : forall a, fields_in_range (desc a).

Lemma writer_pb_encode m0 B N n : forall fields src,
  fields_in_range fields -> writer m0 B N (pb_encode n fields src) (spec_encode bound n fields src).
Proof.
  induction n as [|n IH]; intros fields src Hr; cbn [pb_encode spec_encode]; [apply writer_stuck|].
  by apply writer_message.
Qed.
End Encoder.
