(* ===== verification/Samples.v ===== *)
(** Concrete messages in memory, on which the hypotheses of the theorems are
    shown to be satisfiable: a [gdt_cct_LogEvent] with its nested
    [NetworkConnectionInfo] and a byte array, laid out by [Cct]. *)

From Stdlib Require Import ZArith Lia List String Bool.
From stdpp Require Import base gmap list.
From S2P Require Import Prelude Memory Pb Cct.

(** [s.m = v;] *)
Definition set_member (st : struct) (s : Z) (m : string) (v : Z) (w : gmap Z Z) : gmap Z Z :=
  store w (s + offsetof (the st m)) (Z.to_nat (pb_membersize st m)) v.

Definition sample_event_at : Z := 0x10000.
Definition sample_bytes_at : Z := 0x10100.
Definition sample_buffer : Z := 0x20000.

(** [{ .event_time_ms = 150, .source_extension = {3, "abc"}, .event_code = -2,
      .timezone_offset_seconds = -3600,
      .network_connection_info = { .network_type = WIFI, .mobile_subtype = LTE } }] *)
Definition sample_mem : gmap Z Z :=
  (let info := sample_event_at + offsetof (the LogEvent "network_connection_info") in
  let ev m v := set_member LogEvent sample_event_at m v in
  ev "has_event_time_ms" 1 (ev "event_time_ms" 150 (
  ev "source_extension" sample_bytes_at (
  ev "has_event_code" 1 (ev "event_code" (-2) (
  ev "has_timezone_offset_seconds" 1 (ev "timezone_offset_seconds" (-3600) (
  ev "has_network_connection_info" 1 (
  set_member NetworkConnectionInfo info "has_network_type" 1 (
  set_member NetworkConnectionInfo info "network_type"
    (enum_value NetworkConnectionInfo_NetworkType "WIFI") (
  set_member NetworkConnectionInfo info "has_mobile_subtype" 1 (
  set_member NetworkConnectionInfo info "mobile_subtype"
    (enum_value NetworkConnectionInfo_MobileSubtype "LTE") (
  store_bytes (store cct_const_mem sample_bytes_at 4 3) (sample_bytes_at + 4)
    [97; 98; 99])))))))))))))%string.

Definition sample_world : world := mk_world sample_mem ∅.

(** Its encoding. *)
Definition sample_bytes : list Z :=
  [8; 150; 1; 50; 3; 97; 98; 99; 88; 254; 255; 255; 255; 255; 255; 255; 255; 255; 1;
   120; 159; 56; 186; 1; 4; 8; 1; 16; 13].

(** A table with a required pointer field; a null pointer there is rejected. *)
Definition required_fields : list pb_field_t :=
  [PB_FIELD 1 STRING REQUIRED POINTER FIRST IosClientInfo "os_major_version" "os_major_version" 0]%string.

Lemma cct_tables_in_range a : Forall (fun f => field_in_range f = true) (desc a).
Proof.
  cbn [desc cct_env]. unfold cct_desc.
  repeat (destruct (a =? _); [by repeat constructor|]). constructor.
Qed.
