(* ===== verification/EncodeProps.v ===== *)
(** What [pb_encode], [pb_encode_delimited], [pb_encode_nullterminated] and
    [pb_get_encoded_size] promise their callers, from the refinement of
    [EncodeRefine], each at work on the sample message. *)

From Stdlib Require Import ZArith Lia List String Bool.
From stdpp Require Import base gmap list.
From S2P Require Import Prelude Memory Pb PbCommon PbDecode PbEncode Cct Base128 Varint EncodeSpec Writer EncodeRefine Samples.

(** The state in which a message is encoded into a buffer. *)
Definition buffer_state (buf size : Z) (w : world) : estate :=
  mk_estate (pb_ostream_from_buffer buf size) w.

(** What a successful encoding of [l] leaves. *)
Definition wrote (buf : Z) (l : list Z) (w : world) (s' : estate) : Prop :=
  bytes_written (ostream s') = zlen l /\
  load_bytes (mem (e_world s')) buf (List.length l) = l /\
  live (e_world s') = live w /\
  forall a, ~ (buf <= a < buf + zlen l) -> load_byte (mem (e_world s')) a = load_byte (mem w) a.

(** What a failed one leaves. *)
Definition only_in_buffer (buf size : Z) (w : world) (s' : estate) : Prop :=
  live (e_world s') = live w /\
  forall a, ~ (buf <= a < buf + size) -> load_byte (mem (e_world s')) a = load_byte (mem w) a.

Section Into.
Context `{Env}.

Lemma good_buffer buf size w :
  0 <= size <= object_limit -> good (mem w) buf size (buffer_state buf size w).
Proof.
  intros Hsize. split; [done|]. split; [|done]. cbn. unfold avail. cbn. lia.
Qed.

Lemma fits_buffer buf size w l :
  fits l (ostream (buffer_state buf size w)) <-> zlen l <= size.
Proof. unfold fits, avail. cbn. rewrite Z.sub_0_r. intuition done. Qed.

Lemma wrote_emit buf size w l :
  Forall is_byte l -> wrote buf l w (emit l (buffer_state buf size w)).
Proof.
  intros Hl. split; [done|]. split; [by apply load_bytes_store_bytes|]. split; [done|].
  intros a Ha. cbn. rewrite load_byte_store_bytes. unfold zlen in *. destruct (decide _); [lia|done].
Qed.

(** The three outcomes of a writer on a buffer. *)
Lemma writer_into c r buf size w l :
  writer (mem w) buf size c r -> fst (r (mem w)) = Ret l -> clear buf size (snd (r (mem w))) ->
  0 <= size <= object_limit -> zlen l <= size ->
  exists s', c (buffer_state buf size w) = (Ret tt, s') /\ wrote buf l w s'.
Proof.
  intros Hw Hl Hcl Hsize Hfit. specialize (Hw _ (good_buffer buf size w Hsize) Hcl).
  rewrite Hl in Hw. destruct Hw as [Hb Hw]. destruct (decide _) as [_|Hn].
  - eexists. split; [exact Hw|]. by apply wrote_emit.
  - by destruct Hn; apply fits_buffer.
Qed.

Lemma writer_too_small c r buf size w l :
  writer (mem w) buf size c r -> fst (r (mem w)) = Ret l -> clear buf size (snd (r (mem w))) ->
  0 <= size <= object_limit -> size < zlen l ->
  exists s', c (buffer_state buf size w) = (Fail, s') /\ only_in_buffer buf size w s'.
Proof.
  intros Hw Hl Hcl Hsize Hfit. specialize (Hw _ (good_buffer buf size w Hsize) Hcl).
  rewrite Hl in Hw. destruct Hw as [_ Hw]. destruct (decide _) as [Hf|_].
  - apply fits_buffer in Hf. lia.
  - destruct Hw as (s' & Hs & Hlv & Hm). exists s'. split; [done|]. split; [done|].
    intros a Ha. apply Hm. unfold avail. cbn. lia.
Qed.

Lemma writer_fails c r buf size w :
  writer (mem w) buf size c r -> fst (r (mem w)) = Fail -> clear buf size (snd (r (mem w))) ->
  0 <= size <= object_limit ->
  exists s', c (buffer_state buf size w) = (Fail, s') /\ only_in_buffer buf size w s'.
Proof.
  intros Hw Hl Hcl Hsize. specialize (Hw _ (good_buffer buf size w Hsize) Hcl).
  rewrite Hl in Hw. destruct Hw as (s' & Hs & Hlv & Hm). exists s'. split; [done|]. split; [done|].
  intros a Ha. apply Hm. unfold avail. cbn. lia.
Qed.

Lemma writer_sizing c r w l :
  (forall B N, writer (mem w) B N c r) -> fst (r (mem w)) = Ret l -> zlen l < 2 ^ 64 ->
  exists s', c (mk_estate PB_OSTREAM_SIZING w) = (Ret tt, s') /\
    bytes_written (ostream s') = zlen l /\ e_world s' = w.
Proof.
  intros Hw Hl Hlen.
  assert (Hg : good (mem w) 0 0 (mk_estate PB_OSTREAM_SIZING w)) by (split; [done|]; split; [cbn; lia|done]).
  assert (Hcl : clear 0 0 (snd (r (mem w)))).
  { apply List.Forall_forall. intros [a k] _. lia. }
  specialize (Hw 0 0 _ Hg Hcl). rewrite Hl in Hw. destruct Hw as [_ Hw].
  destruct (decide _) as [_|Hn]; [|by destruct Hn; left].
  eexists. split; [exact Hw|]. split; [|done]. cbn. pose proof (zlen_nonneg l).
  unfold uwrap. by rewrite Z.mod_small by lia.
Qed.
End Into.

Section Properties.
Context `{Env}.
Variables (bound n : nat) (fields : list pb_field_t) (src : Z) (w : world).
Hypothesis Hbound : Z.of_nat bound <= 2 ^ 64.
Hypothesis tables : forall a, fields_in_range (desc a).
Hypothesis Hfields : fields_in_range fields.

(** The reads of the specification of [src], and its result. *)
Definition spec_result : outcome (list Z) := fst (spec_encode bound n fields src (mem w)).
Definition spec_reads : list (Z * Z) := snd (spec_encode bound n fields src (mem w)).

(** C6: Encoding a message into a buffer that is large enough and disjoint from
    the message succeeds, stores exactly the bytes of the specification at the
    start of the buffer, counts them, and changes no other memory. *)
Theorem pb_encode_correct buf size l :
  spec_result = Ret l -> clear buf size spec_reads ->
  0 <= size <= object_limit -> zlen l <= size ->
  exists s', pb_encode n fields src (buffer_state buf size w) = (Ret tt, s') /\ wrote buf l w s'.
Proof. intros. eapply writer_into; [by eapply (writer_pb_encode bound)|done..]. Qed.

(** C7: Encoding a valid message into a buffer that is too small returns false,
    and never writes outside the buffer. *)
Theorem pb_encode_buffer_full buf size l :
  spec_result = Ret l -> clear buf size spec_reads ->
  0 <= size <= object_limit -> size < zlen l ->
  exists s', pb_encode n fields src (buffer_state buf size w) = (Fail, s') /\
    only_in_buffer buf size w s'.
Proof. intros. eapply writer_too_small; [by eapply (writer_pb_encode bound)|done..]. Qed.

(** C8: Encoding a message the specification rejects (a missing required field,
    an array longer than its bound, an invalid descriptor) returns false, and
    never writes outside the buffer. *)
Theorem pb_encode_invalid buf size :
  spec_result = Fail -> clear buf size spec_reads -> 0 <= size <= object_limit ->
  exists s', pb_encode n fields src (buffer_state buf size w) = (Fail, s') /\
    only_in_buffer buf size w s'.
Proof. intros. eapply writer_fails; [by eapply (writer_pb_encode bound)|done..]. Qed.

(** C9: [pb_get_encoded_size] is the number of bytes [pb_encode] writes. *)
Theorem pb_get_encoded_size_correct l :
  spec_result = Ret l -> zlen l < 2 ^ 64 -> pb_get_encoded_size n fields src w = Ret (zlen l).
Proof.
  intros Hl Hlen.
  destruct (writer_sizing (pb_encode n fields src) (spec_encode bound n fields src) w l)
    as (s' & Hs & Hw & _); [|done..|].
  - intros B N. by apply writer_pb_encode.
  - unfold pb_get_encoded_size. by rewrite Hs, Hw.
Qed.

(** C10: [pb_encode_delimited] writes the length as a varint, then the message. *)
Theorem pb_encode_delimited_correct buf size l :
  spec_result = Ret l -> clear buf size spec_reads ->
  0 <= size <= object_limit -> zlen l < object_limit ->
  zlen (varint_bytes (zlen l)) + zlen l <= size ->
  exists s', pb_encode_delimited n fields src (buffer_state buf size w) = (Ret tt, s') /\
    wrote buf (varint_bytes (zlen l) ++ l) w s'.
Proof.
  unfold spec_result, spec_reads. intros Hl Hcl Hsize Hlen Hfit.
  destruct (spec_encode bound n fields src (mem w)) as [o rd] eqn:E. cbn in Hl, Hcl. subst o.
  eapply (writer_into _ (rdelimited (spec_encode bound n fields src))).
  - apply (writer_encode_submessage _ _ _ bound); [|done]. intros. by apply (writer_pb_encode bound).
  - unfold rdelimited, rbind. rewrite E. by destruct (Z.ltb_spec (zlen l) object_limit); [|lia].
  - unfold rdelimited, rbind. rewrite E. cbn [snd]. destruct (Z.ltb_spec (zlen l) object_limit); [|lia].
    cbn [rret snd]. by rewrite app_nil_r.
  - done.
  - rewrite zlen_app. lia.
Qed.

(** [pb_encode_nullterminated] writes the message and one zero byte. *)
Theorem pb_encode_nullterminated_correct buf size l :
  spec_result = Ret l -> clear buf size spec_reads ->
  0 <= size <= object_limit -> zlen l + 1 <= size ->
  exists s', pb_encode_nullterminated n fields src (buffer_state buf size w) = (Ret tt, s') /\
    wrote buf (l ++ [0]) w s'.
Proof.
  unfold spec_result, spec_reads. intros Hl Hcl Hsize Hfit.
  destruct (spec_encode bound n fields src (mem w)) as [o rd] eqn:E. cbn in Hl, Hcl. subst o.
  eapply (writer_into _ (rapp (spec_encode bound n fields src) (rret [0]))).
  - apply writer_app; [by apply writer_pb_encode|].
    apply writer_write_local; [by repeat constructor|done|lia].
  - unfold rapp, rbind. by rewrite E.
  - unfold rapp, rbind. rewrite E. cbn [snd fst rret]. by rewrite !app_nil_r.
  - done.
  - rewrite zlen_app. exact Hfit.
Qed.
End Properties.

(** ** On the sample message *)

Ltac sample := vm_compute; reflexivity.

(** The buffer is clear of the reads. *)
Ltac sample_clear :=
  match goal with |- clear _ _ ?r => let v := eval vm_compute in r in change r with v end;
  repeat (constructor; [unfold sample_buffer; lia|]); constructor.

Lemma pb_encode_correct_witness : exists s',
  pb_encode 4 LogEvent_fields sample_event_at (buffer_state sample_buffer 64 sample_world) = (Ret tt, s') /\
  wrote sample_buffer sample_bytes sample_world s'.
Proof.
  apply (pb_encode_correct 100 4 LogEvent_fields sample_event_at sample_world);
    [lia|exact cct_tables_in_range|by repeat constructor|sample|sample_clear|unfold object_limit; lia|
     vm_compute; done].
Defined.

Lemma pb_encode_buffer_full_witness : exists s',
  pb_encode 4 LogEvent_fields sample_event_at (buffer_state sample_buffer 20 sample_world) = (Fail, s') /\
  only_in_buffer sample_buffer 20 sample_world s'.
Proof.
  apply (pb_encode_buffer_full 100 4 LogEvent_fields sample_event_at sample_world) with (l := sample_bytes);
    [lia|exact cct_tables_in_range|by repeat constructor|sample|sample_clear|unfold object_limit; lia|
     vm_compute; done].
Defined.

Lemma pb_encode_invalid_witness : exists s',
  pb_encode 4 required_fields 0x30000 (buffer_state sample_buffer 64 sample_world) = (Fail, s') /\
  only_in_buffer sample_buffer 64 sample_world s'.
Proof.
  apply (pb_encode_invalid 100 4 required_fields 0x30000 sample_world);
    [lia|exact cct_tables_in_range|by repeat constructor|sample|sample_clear|unfold object_limit; lia].
Defined.

Lemma pb_get_encoded_size_correct_witness :
  pb_get_encoded_size 4 LogEvent_fields sample_event_at sample_world = Ret 29.
Proof.
  apply (pb_get_encoded_size_correct 100 4 LogEvent_fields sample_event_at sample_world)
    with (l := sample_bytes);
    [lia|exact cct_tables_in_range|by repeat constructor|sample|vm_compute; done].
Defined.

Lemma pb_encode_delimited_correct_witness : exists s',
  pb_encode_delimited 4 LogEvent_fields sample_event_at (buffer_state sample_buffer 64 sample_world) = (Ret tt, s') /\
  wrote sample_buffer (29 :: sample_bytes) sample_world s'.
Proof.
  apply (pb_encode_delimited_correct 100 4 LogEvent_fields sample_event_at sample_world)
    with (l := sample_bytes);
    [lia|exact cct_tables_in_range|by repeat constructor|sample|sample_clear|unfold object_limit; lia|
     vm_compute; done|vm_compute; done].
Defined.

Lemma pb_encode_nullterminated_correct_witness : exists s',
  pb_encode_nullterminated 4 LogEvent_fields sample_event_at (buffer_state sample_buffer 64 sample_world) = (Ret tt, s') /\
  wrote sample_buffer (sample_bytes ++ [0]) sample_world s'.
Proof.
  apply (pb_encode_nullterminated_correct 100 4 LogEvent_fields sample_event_at sample_world)
    with (l := sample_bytes);
    [lia|exact cct_tables_in_range|by repeat constructor|sample|sample_clear|unfold object_limit; lia|
     vm_compute; done].
Defined.
