(* ===== verification/WireProps.v ===== *)
(** The wire level, end to end: what the writers of [pb_encode.c] put in a buffer,
    the readers of [pb_decode.c] get back, and how the readers treat what no
    writer produces. *)

From Stdlib Require Import ZArith Lia List String Bool.
From stdpp Require Import base gmap list.
From S2P Require Import Prelude Memory Pb PbCommon PbDecode PbEncode Cct Base128 Varint EncodeSpec Writer EncodeRefine Samples EncodeProps.

(** The decoder's state on the bytes an encoding left in [buf]. *)
Definition reopen (buf : Z) (s : estate) : dstate :=
  mk_dstate (pb_istream_from_buffer buf (bytes_written (ostream s))) 0 (e_world s).

(** A memory stream on given bytes. *)
Definition on_bytes (l : list Z) : dstate :=
  mk_dstate (pb_istream_from_buffer sample_buffer (zlen l)) 0
    (mk_world (store_bytes ∅ sample_buffer l) ∅).

(** The stream has been read to its end, without an error. *)
Definition at_end (s : dstate) : Prop :=
  bytes_left (stream s) = 0 /\ is_errmsg (stream s) = None.

(** [c] encodes into a buffer of [size] bytes what [d] decodes as [v], using it up. *)
Definition roundtrips {A} (c : E unit) (d : D A) (v : A) (buf size : Z) (w : world) : Prop :=
  exists s', c (mk_estate (pb_ostream_from_buffer buf size) w) = (Ret tt, s') /\
  exists t, d (reopen buf s') = (Ret v, t) /\ at_end t /\ d_world t = e_world s'.

Section Wire.
Context `{Env}.

Lemma at_bytes_reopen buf l w s :
  wrote buf l w s -> zlen l < 2 ^ 64 -> at_bytes (reopen buf s) l.
Proof.
  intros (Hn & Hl & _) Hlen. unfold at_bytes, reopen. cbn. rewrite Hn. unfold zlen in *.
  split; [done|]. split; [done|lia].
Qed.

(** A writer without reads, and a reader of exactly its bytes. *)
Lemma roundtrip_bytes {A} c (d : D A) v l buf size w :
  (forall m0 B N, writer m0 B N c (rret l)) -> zlen l <= size -> 0 <= size <= object_limit ->
  (forall s, at_bytes s l -> d s = (Ret v, advance (Z.of_nat (List.length l)) s)) ->
  roundtrips c d v buf size w.
Proof.
  intros Hc Hlen Hsize Hd.
  destruct (writer_into c (rret l) buf size w l) as (s' & Hs & Hw);
    [apply Hc|done|constructor|done|done|].
  exists s'. split; [exact Hs|]. unfold object_limit in *.
  pose proof (at_bytes_reopen buf l w s' Hw ltac:(lia)) as Hat.
  eexists. split; [by apply Hd|]. split; [|done]. split; [|done]. cbn.
  destruct Hw as (Hn & _). rewrite Hn. unfold zlen. lia.
Qed.

Lemma pb_decode_varint_of v s :
  0 <= v < 2 ^ 64 -> at_bytes s (varint_bytes v) ->
  pb_decode_varint s = (Ret v, advance (Z.of_nat (List.length (varint_bytes v))) s).
Proof.
  intros Hv Hat. destruct (varint_bytes_spec v Hv) as (Hvar & Hval & Hlen).
  rewrite (pb_decode_varint_at s _ Hvar) by (lia || done). by rewrite Hval, Z.mod_small.
Qed.

(** Every 64-bit number survives [pb_encode_varint] and [pb_decode_varint]. *)
Theorem varint_roundtrip v buf size w :
  0 <= v < 2 ^ 64 -> 10 <= size <= object_limit ->
  roundtrips (pb_encode_varint v) pb_decode_varint v buf size w.
Proof.
  intros Hv Hsize. pose proof (zlen_varint v Hv). apply (roundtrip_bytes _ _ _ (varint_bytes v)).
  - intros. by apply writer_varint.
  - lia.
  - lia.
  - intros s. by apply pb_decode_varint_of.
Qed.

Lemma zigzag_range v : - 2 ^ 63 <= v < 2 ^ 63 -> 0 <= zigzag v < 2 ^ 64.
Proof. unfold zigzag. destruct (Z.ltb_spec v 0); lia. Qed.

Lemma unzigzag v :
  - 2 ^ 63 <= v < 2 ^ 63 ->
  (if negb (Z.land (zigzag v) 1 =? 0) then s64 (u64 (Z.lnot (Z.shiftr (zigzag v) 1)))
   else s64 (Z.shiftr (zigzag v) 1)) = v.
Proof.
  intros Hv. change 1 with (Z.ones 1) at 1. rewrite Z.land_ones by lia.
  rewrite !Z.shiftr_div_pow2 by lia. change (2 ^ 1) with 2. unfold zigzag.
  change (2 ^ 63) with 9223372036854775808 in Hv.
  unfold swrap, uwrap, Z.lnot. change (2 ^ 64) with 18446744073709551616.
  change (2 ^ (64 - 1)) with 9223372036854775808.
  destruct (Z.ltb_spec v 0).
  - destruct (Z.eqb_spec ((-2 * v - 1) mod 2) 0); cbn [negb]; zlia.
  - destruct (Z.eqb_spec ((2 * v) mod 2) 0); cbn [negb]; zlia.
Qed.

(** Every signed 64-bit number survives [pb_encode_svarint] and [pb_decode_svarint]. *)
Theorem svarint_roundtrip v buf size w :
  - 2 ^ 63 <= v < 2 ^ 63 -> 10 <= size <= object_limit ->
  roundtrips (pb_encode_svarint v) pb_decode_svarint v buf size w.
Proof.
  intros Hv Hsize. pose proof (zigzag_range v Hv) as Hz. pose proof (zlen_varint (zigzag v) Hz).
  apply (roundtrip_bytes _ _ _ (varint_bytes (zigzag v))).
  - intros. by apply writer_svarint.
  - lia.
  - lia.
  - intros s Hat. unfold pb_decode_svarint.
    erewrite bind_Ret by (by apply pb_decode_varint_of).
    pose proof (unzigzag v Hv) as Hu. destruct (negb _); by rewrite Hu.
Qed.

Lemma lor_bytes4 m a :
  let b i := nth i (load_bytes m a 4) 0 in
  Z.lor (Z.lor (Z.lor (Z.shiftl (b 0%nat) 0) (Z.shiftl (b 1%nat) 8))
    (Z.shiftl (b 2%nat) 16)) (Z.shiftl (b 3%nat) 24) = load m a 4.
Proof.
  cbn [load_bytes nth load]. rewrite Z.shiftl_0_r.
  pose proof (load_byte_range m a). pose proof (load_byte_range m (a + 1)).
  pose proof (load_byte_range m (a + 1 + 1)). pose proof (load_byte_range m (a + 1 + 1 + 1)).
  rewrite (lor_shiftl_add (load_byte m a)) by lia. do 2 rewrite (lor_shiftl_add (_ + _)) by lia. lia.
Qed.

Lemma lor_bytes8 m a :
  let b i := nth i (load_bytes m a 8) 0 in
  Z.lor (Z.lor (Z.lor (Z.lor (Z.lor (Z.lor (Z.lor
    (Z.shiftl (b 0%nat) 0) (Z.shiftl (b 1%nat) 8)) (Z.shiftl (b 2%nat) 16))
    (Z.shiftl (b 3%nat) 24)) (Z.shiftl (b 4%nat) 32)) (Z.shiftl (b 5%nat) 40))
    (Z.shiftl (b 6%nat) 48)) (Z.shiftl (b 7%nat) 56) = load m a 8.
Proof.
  cbn [load_bytes nth load]. rewrite Z.shiftl_0_r.
  pose proof (load_byte_range m a). pose proof (load_byte_range m (a + 1)).
  pose proof (load_byte_range m (a + 1 + 1)). pose proof (load_byte_range m (a + 1 + 1 + 1)).
  pose proof (load_byte_range m (a + 1 + 1 + 1 + 1)).
  pose proof (load_byte_range m (a + 1 + 1 + 1 + 1 + 1)).
  pose proof (load_byte_range m (a + 1 + 1 + 1 + 1 + 1 + 1)).
  pose proof (load_byte_range m (a + 1 + 1 + 1 + 1 + 1 + 1 + 1)).
  rewrite (lor_shiftl_add (load_byte m a)) by lia. do 6 rewrite (lor_shiftl_add (_ + _)) by lia. lia.
Qed.

(** [c] copies [n] bytes from [src] to the buffer, [d] from there to [dest]. *)
Definition copies (c : E unit) (d : D unit) (n : nat) (src dest buf size : Z) (w : world) : Prop :=
  exists s', c (mk_estate (pb_ostream_from_buffer buf size) w) = (Ret tt, s') /\
  exists t, d (reopen buf s') = (Ret tt, t) /\ at_end t /\
    load (mem (d_world t)) dest n = load (mem w) src n.

Lemma load_store_load m m' a b n : load (store m a n (load m' b n)) a n = load m' b n.
Proof. rewrite load_store_eq. apply Z.mod_small. apply load_range. Qed.

Lemma copies_fixed c d n src dest buf size w :
  (forall m0 B N, writer m0 B N c (spec_fixed n src)) ->
  (forall s l, at_bytes s l -> List.length l = n -> l = load_bytes (mem w) src n ->
     d s = liftW (storeW dest n (load (mem w) src n)) (advance (Z.of_nat n) s)) ->
  clear buf size [(src, Z.of_nat n)] -> Z.of_nat n <= size <= object_limit ->
  copies c d n src dest buf size w.
Proof.
  intros Hc Hd Hcl Hsize.
  destruct (writer_into c (spec_fixed n src) buf size w (load_bytes (mem w) src n)) as (s' & Hs & Hw);
    [apply Hc| |exact Hcl|lia| |].
  - cbn. by rewrite Nat2Z.id.
  - unfold zlen. rewrite length_load_bytes. lia.
  - exists s'. split; [exact Hs|]. unfold object_limit in *.
    pose proof (at_bytes_reopen buf _ w s' Hw) as Hat. unfold zlen in Hat.
    rewrite length_load_bytes in Hat. specialize (Hat ltac:(lia)).
    eexists. split; [apply (Hd _ _ Hat); [apply length_load_bytes|done]|].
    split; [split; [|done]|].
    + cbn. destruct Hw as (Hn & _). rewrite Hn. unfold zlen. rewrite length_load_bytes. lia.
    + cbn. apply load_store_load.
Qed.

(** The 4 bytes at [src] survive [pb_encode_fixed32] and [pb_decode_fixed32]. *)
Theorem fixed32_roundtrip src dest buf size w :
  clear buf size [(src, 4)] -> 4 <= size <= object_limit ->
  copies (pb_encode_fixed32 src) (pb_decode_fixed32 dest) 4 src dest buf size w.
Proof.
  intros Hcl Hsize. apply copies_fixed; [intros; apply writer_fixed32| |done|done].
  intros s l Hat Hlen Hl. unfold pb_decode_fixed32.
  erewrite bind_Ret by (apply (pb_read_at s l); [done|lia|by rewrite Hlen]).
  subst l. by rewrite lor_bytes4.
Qed.

(** The 8 bytes at [src] survive [pb_encode_fixed64] and [pb_decode_fixed64]. *)
Theorem fixed64_roundtrip src dest buf size w :
  clear buf size [(src, 8)] -> 8 <= size <= object_limit ->
  copies (pb_encode_fixed64 src) (pb_decode_fixed64 dest) 8 src dest buf size w.
Proof.
  intros Hcl Hsize. apply copies_fixed; [intros; apply writer_fixed64| |done|done].
  intros s l Hat Hlen Hl. unfold pb_decode_fixed64.
  erewrite bind_Ret by (apply (pb_read_at s l); [done|lia|by rewrite Hlen]).
  subst l. by rewrite lor_bytes8.
Qed.

Lemma tag_value wiretype number :
  0 <= wiretype < 8 -> 0 <= number < 2 ^ 29 ->
  Z.lor (u64 (Z.shiftl number 3)) wiretype = wiretype + number * 8.
Proof.
  intros Hw Hn. unfold uwrap. rewrite Z.mod_small by (rewrite Z.shiftl_mul_pow2 by lia; lia).
  rewrite Z.lor_comm. by rewrite lor_shiftl_add by lia.
Qed.

Lemma pb_decode_tag_of wiretype number s :
  0 <= wiretype < 8 -> 0 < number < 2 ^ 29 -> at_bytes s (spec_tag wiretype number) ->
  pb_decode_tag s = (Ret (inr (wiretype, number)), advance (Z.of_nat (List.length (spec_tag wiretype number))) s).
Proof.
  intros Hw Hn Hat. unfold spec_tag in *. rewrite tag_value in * by lia.
  remember (wiretype + number * 8) as v eqn:Ev.
  destruct (varint_bytes_spec v ltac:(lia)) as (Hvar & Hval & Hlen).
  unfold pb_decode_tag. erewrite bind_Ret.
  2: { apply pb_decode_varint32_fits; [done|lia| |done]. apply fits32_small; [done|lia]. }
  cbv beta iota. rewrite Hval, Z.mod_small by lia. destruct (Z.eqb_spec v 0); [lia|].
  unfold ret. do 4 f_equal.
  - change 7 with (Z.ones 3). rewrite Z.land_ones by lia. change (2 ^ 3) with 8. zlia.
  - rewrite Z.shiftr_div_pow2 by lia. change (2 ^ 3) with 8. zlia.
Qed.

(** A field number below 2^29 and its wire type survive [pb_encode_tag] and
    [pb_decode_tag]. *)
Theorem tag_roundtrip wiretype number buf size w :
  0 <= wiretype < 8 -> 0 < number < 2 ^ 29 -> 10 <= size <= object_limit ->
  roundtrips (pb_encode_tag wiretype number) pb_decode_tag (inr (wiretype, number)) buf size w.
Proof.
  intros Hw Hn Hsize.
  assert (Hz : zlen (spec_tag wiretype number) <= 10).
  { unfold spec_tag. rewrite tag_value by lia. pose proof (zlen_varint (wiretype + number * 8)). lia. }
  apply (roundtrip_bytes _ _ _ (spec_tag wiretype number)); [|lia|lia|].
  - intros. by apply writer_tag.
  - intros s. by apply pb_decode_tag_of.
Qed.

(** C12: [pb_decode_varint] accepts every varint of at most ten bytes, the shortest
    or not, and gives its value modulo 2^64. *)
Theorem pb_decode_varint_any s l :
  is_varint l -> (List.length l <= 10)%nat -> at_bytes s l ->
  pb_decode_varint s = (Ret (varint_value l mod 2 ^ 64), advance (Z.of_nat (List.length l)) s).
Proof. apply pb_decode_varint_at. Qed.

(** C11: [pb_decode_varint32] on the shortest varint of [v]: a 32-bit number is
    returned, a sign-extended negative one gives its low 32 bits, and any other
    number below 2^63 is refused. *)
Theorem pb_decode_varint32_cases s v :
  0 <= v < 2 ^ 64 -> at_bytes s (varint_bytes v) ->
  (v < 2 ^ 32 ->
     pb_decode_varint32 s = (Ret v, advance (zlen (varint_bytes v)) s)) /\
  (2 ^ 64 - 2 ^ 31 <= v ->
     pb_decode_varint32 s = (Ret (v - (2 ^ 64 - 2 ^ 32)), advance 10 s)) /\
  (2 ^ 32 <= v < 2 ^ 63 -> exists t, pb_decode_varint32 s = (Fail, t)).
Proof.
  intros Hv Hat. destruct (varint_bytes_spec v Hv) as (Hvar & Hval & Hlen). split; [|split].
  - intros Hlt. apply pb_decode_varint32_small; [lia|done].
  - intros Hneg. unfold pb_decode_varint32. erewrite bind_Ret.
    2: { apply pb_decode_varint32_fits; [done|lia| |done]. apply fits32_negative. lia. }
    cbv beta iota. rewrite Hval. unfold ret. f_equal; [f_equal; zlia|]. f_equal.
    pose proof (varint_value_range (varint_bytes v)) as Hr. rewrite Hval in Hr.
    destruct (Z.ltb_spec (Z.of_nat (List.length (varint_bytes v))) 10) as [Hshort|]; [|lia].
    pose proof (Z.pow_le_mono_r 2 (7 * Z.of_nat (List.length (varint_bytes v))) 63 ltac:(lia) ltac:(lia)). lia.
  - intros Hmid. destruct (pb_decode_varint32_overflows s (varint_bytes v)) as (t & Ht);
      [done|lia|by apply overflows32_middle|done|].
    exists t. unfold pb_decode_varint32. by erewrite bind_Ret by exact Ht.
Qed.

(** Ten bytes that all announce another one are not a varint:
    [pb_decode_varint] returns false and reports the overflow. *)
Theorem pb_decode_varint_overlong s l :
  List.length l = 10%nat -> Forall (fun b => 0x80 <= b < 0x100) l -> at_bytes s l ->
  is_errmsg (stream s) = None ->
  exists t, pb_decode_varint s = (Fail, t) /\
    is_errmsg (stream t) = Some "varint overflow"%string.
Proof.
  intros Hlen Hl Hat He.
  apply wp_Fail_with. unfold pb_decode_varint.
  eapply (wp_loop _ (fun a t => exists k, (k <= 10)%nat /\
    t = advance (Z.of_nat k) s /\ fst a = 7 * Z.of_nat k) (fun a _ => 70 - fst a)).
  2: { exists O. rewrite advance_0. split; [lia|done]. }
  2: { cbn. lia. }
  intros [bitpos result] t (k & Hk & -> & Hbit). cbn [fst] in *. subst bitpos. split; [lia|].
  destruct (Z.leb_spec 64 (7 * Z.of_nat k)) as [Hge|Hlt].
  - apply wp_bind, wp_modify, wp_fail. cbn. by rewrite He.
  - assert (Hin : (k < List.length l)%nat) by lia.
    rewrite <- (take_drop k l) in Hat. apply at_bytes_app_r in Hat.
    rewrite length_take, Nat.min_l in Hat by lia.
    destruct (drop k l) as [|b l2] eqn:Ed.
    { apply (f_equal List.length) in Ed. rewrite length_drop in Ed. cbn in Ed. lia. }
    apply wp_bind. eapply wp_of_eq; [by eapply pb_readbyte_at|].
    assert (Hb : 0x80 <= b < 0x100).
    { rewrite <- (take_drop k l), Ed in Hl. apply Forall_app in Hl as [_ Hl].
      by apply Forall_inv in Hl. }
    rewrite more_bytes by lia. destruct (Z.leb_spec 0x80 b); [|lia]. apply wp_ret. split.
    + exists (S k). rewrite advance_advance. split; [lia|]. split; [f_equal; lia|].
      cbn [fst]. unfold uwrap. rewrite Z.mod_small; lia.
    + cbn [fst]. unfold uwrap. rewrite Z.mod_small; lia.
Qed.

(** *** Skipping *)

Lemma call_callback_null s n :
  is_callback (stream s) = buf_read_cb ->
  call_callback RNull n s = (Ret [], set_stream (is_set_state (is_state (stream s) + n)) s).
Proof.
  intros Hcb. unfold call_callback. rewrite bind_get, Hcb. unfold buf_read.
  rewrite bind_get, bind_modify. done.
Qed.

Lemma pb_read_null s n :
  is_callback (stream s) = buf_read_cb -> 0 <= n <= bytes_left (stream s) ->
  bytes_left (stream s) < 2 ^ 64 ->
  pb_read RNull n s = (Ret [], advance n s).
Proof.
  intros Hcb Hn Hmax. unfold pb_read. destruct (Z.eqb_spec n 0) as [->|Hne]; [by rewrite advance_0|].
  rewrite bind_get, Hcb. cbn [is_RNull is_buf_read negb andb]. unfold pb_read_direct.
  rewrite bind_get. destruct (Z.ltb_spec (bytes_left (stream s)) n); [lia|].
  erewrite bind_Ret by (apply attempt_Ret, call_callback_null, Hcb). cbv beta iota.
  rewrite bind_modify. unfold ret, advance, set_stream, uwrap. cbn.
  rewrite Z.mod_small by lia. by destruct s as [[] ? ?].
Qed.

Lemma pb_skip_varint_at s l :
  is_varint l -> at_bytes s l -> pb_skip_varint s = (Ret tt, advance (zlen l) s).
Proof.
  intros Hv Hat. apply wp_eq. unfold pb_skip_varint.
  eapply (wp_loop _ (fun _ t => exists l1 l2,
    l = l1 ++ l2 /\ is_varint l2 /\ t = advance (zlen l1) s)
    (fun _ t => bytes_left (stream t))).
  2: { exists [], l. unfold zlen. cbn. rewrite advance_0. done. }
  2: { destruct Hat as (_ & _ & Hn). lia. }
  intros [] t (l1 & l2 & -> & Hv2 & ->). pose proof Hat as Hat0. apply at_bytes_app_r in Hat.
  destruct l2 as [|b l2]; [done|]. destruct (is_varint_cons _ _ Hv2) as (Hb & Hlast & Hrest).
  fold (zlen l1) in Hat. destruct Hat as (Hcb & Hl & Hn) eqn:Ehat. clear Ehat.
  cbn [List.length] in Hn. split; [lia|].
  apply wp_bind. eapply wp_of_eq.
  { apply (pb_read_at _ [b]); [|lia|done]. apply (at_bytes_app_l _ [b] l2). by split. }
  cbn [nth]. rewrite more_bytes by done. rewrite advance_advance.
  destruct (Z.leb_spec 0x80 b) as [Hmore|Hend]; apply wp_ret.
  - split; [|cbn in *; lia]. exists (l1 ++ [b]), l2. rewrite <- app_assoc, zlen_app.
    split; [done|]. split; [apply Hrest; intros ->; intuition lia|done].
  - assert (l2 = []) as -> by (apply Hlast; lia). split; [done|]. by rewrite zlen_app.
Qed.

(** The bytes of one field value, by wire type. *)
Inductive wire_value : Z -> list Z -> Prop :=
  | wire_varint l : is_varint l -> wire_value PB_WT_VARINT l
  | wire_64bit l : List.length l = 8%nat -> wire_value PB_WT_64BIT l
  | wire_32bit l : List.length l = 4%nat -> wire_value PB_WT_32BIT l
  | wire_string len l :
      is_varint len -> (List.length len <= 10)%nat -> varint_value len = zlen l -> zlen l < 2 ^ 32 ->
      wire_value PB_WT_STRING (len ++ l).

Lemma pb_decode_varint32_at s l :
  is_varint l -> (List.length l <= 10)%nat -> varint_value l < 2 ^ 32 -> at_bytes s l ->
  pb_decode_varint32 s = (Ret (varint_value l), advance (zlen l) s).
Proof.
  intros Hv Hlen Hlt Hat. unfold pb_decode_varint32. erewrite bind_Ret.
  2: { apply pb_decode_varint32_fits; [done|lia|by apply fits32_small|done]. }
  cbv beta iota. pose proof (varint_value_range l). by rewrite Z.mod_small by lia.
Qed.

(** [pb_skip_field] passes over exactly the value, whatever its wire type. *)
Theorem pb_skip_field_correct s wt l :
  wire_value wt l -> at_bytes s l -> pb_skip_field wt s = (Ret tt, advance (zlen l) s).
Proof.
  intros Hwv Hat. destruct Hwv as [l Hv|l Hlen|l Hlen|len l Hv Hlen Hval Hlt].
  - by apply pb_skip_varint_at.
  - destruct Hat as (Hcb & _ & Hn). rewrite Hlen in Hn. unfold zlen. rewrite Hlen.
    change (pb_skip_field PB_WT_64BIT s) with ((pb_read RNull 8 ;; ret tt) s).
    by erewrite bind_Ret by (apply pb_read_null; [done|lia|lia]).
  - destruct Hat as (Hcb & _ & Hn). rewrite Hlen in Hn. unfold zlen. rewrite Hlen.
    change (pb_skip_field PB_WT_32BIT s) with ((pb_read RNull 4 ;; ret tt) s).
    by erewrite bind_Ret by (apply pb_read_null; [done|lia|lia]).
  - pose proof (at_bytes_app_r _ _ _ Hat) as (Hcb & _ & Hn). apply at_bytes_app_l in Hat.
    unfold pb_skip_field, pb_skip_string. cbn [Z.eqb Pos.eqb PB_WT_STRING PB_WT_VARINT PB_WT_64BIT].
    erewrite bind_Ret by (apply pb_decode_varint32_at; [done|done|lia|done]).
    rewrite Hval. unfold zlen in *.
    erewrite bind_Ret by (apply pb_read_null; [done|lia|lia]).
    rewrite advance_advance, length_app. unfold ret. do 2 f_equal. lia.
Qed.

(** *** Byte arrays *)

(** Memory with [l] stored at [a], the stream [l] further. *)
Definition copied (a : Z) (l : list Z) (s : dstate) : dstate :=
  let s := advance (zlen l) s in
  set_world (set_mem (fun m => store_bytes m a l) (d_world s)) s.

Lemma pb_read_mem_at s l a count :
  at_bytes s l -> count = zlen l -> pb_read (RMem a) count s = (Ret l, copied a l s).
Proof.
  intros (Hcb & Hl & Hn) ->. unfold zlen. unfold pb_read, pb_read_direct, copied, zlen.
  destruct (Z.eqb_spec (Z.of_nat (List.length l)) 0) as [Hz|Hz].
  { destruct l; [|done]. change (Z.of_nat (List.length [])) with 0. rewrite advance_0.
    destruct s as [? ? []]. done. }
  rewrite bind_get. cbn [is_RNull andb]. rewrite bind_get.
  destruct (Z.ltb_spec (bytes_left (stream s)) (Z.of_nat (List.length l))); [lia|].
  assert (Hcall : call_callback (RMem a) (Z.of_nat (List.length l)) s =
    (Ret l, set_world (set_mem (fun m => store_bytes m a l) (d_world s))
      (set_stream (is_set_state (is_state (stream s) + Z.of_nat (List.length l))) s))).
  { unfold call_callback. rewrite bind_get, Hcb. unfold buf_read. rewrite bind_get, bind_modify.
    cbn [is_RNull fill]. rewrite Nat2Z.id, Hl. done. }
  erewrite bind_Ret by (apply attempt_Ret, Hcall). cbv beta iota. rewrite bind_modify.
  unfold ret, advance, set_stream, set_world, uwrap. cbn. rewrite Z.mod_small by lia.
  by destruct s as [[] ? ?].
Qed.

Lemma at_bytes_world s l w :
  at_bytes s l ->
  (forall b, is_state (stream s) <= b < is_state (stream s) + zlen l ->
     load_byte (mem w) b = load_byte (mem (d_world s)) b) ->
  at_bytes (set_world w s) l.
Proof.
  intros (Hcb & Hl & Hn) Hw. split; [done|]. split; [|done]. cbn.
  rewrite <- Hl at 2. by apply load_bytes_ext.
Qed.

(** A byte array at [src] survives [pb_enc_bytes] and [pb_dec_bytes]: the
    static array at [dest] gets its size and its bytes. *)
Theorem bytes_roundtrip field src dest buf size w :
  let n := load (mem w) src 4 in
  src <> NULL -> PB_ATYPE (type field) = PB_ATYPE_STATIC -> n + 4 <= data_size field ->
  clear buf size [(src, 4); (src + 4, n)] -> n + 10 <= size <= object_limit ->
  dest + 4 <= buf \/ buf + size <= dest ->
  exists s', pb_enc_bytes field src (mk_estate (pb_ostream_from_buffer buf size) w) = (Ret tt, s') /\
  exists t, pb_dec_bytes field dest (reopen buf s') = (Ret tt, t) /\ at_end t /\
    load (mem (d_world t)) dest 4 = n /\
    load_bytes (mem (d_world t)) (dest + 4) (Z.to_nat n) = load_bytes (mem w) (src + 4) (Z.to_nat n).
Proof.
  intros n Hsrc Hatype Hfit Hcl Hsize Hdest.
  pose proof (load_range (mem w) src 4) as Hn. fold n in Hn. change (8 * Z.of_nat 4) with 32 in Hn.
  unfold object_limit in *. set (bs := load_bytes (mem w) (src + 4) (Z.to_nat n)).
  assert (Hbs : zlen bs = n) by (unfold zlen, bs; rewrite length_load_bytes; lia).
  assert (Hbytes : Forall is_byte bs) by apply load_bytes_range.
  pose proof (zlen_varint n ltac:(lia)) as Hv.
  destruct (writer_into (pb_enc_bytes field src) (spec_bytes field src) buf size w (varint_bytes n ++ bs))
    as (s' & Hs & Hw).
  - apply writer_bytes.
  - unfold spec_bytes. destruct (Z.eqb_spec src NULL); [done|]. unfold rbind, rload.
    fold sizeof_pb_size in n. cbn [fst]. change (load (mem w) src sizeof_pb_size) with n.
    destruct (Z.ltb_spec (data_size field) (n + 4)); [lia|]. by rewrite andb_false_r.
  - unfold spec_bytes. destruct (Z.eqb_spec src NULL); [done|]. unfold rbind, rload.
    cbn [snd]. change (load (mem w) src sizeof_pb_size) with n.
    destruct (Z.ltb_spec (data_size field) (n + 4)); [lia|]. rewrite andb_false_r. exact Hcl.
  - unfold object_limit. lia.
  - rewrite zlen_app. lia.
  - exists s'. split; [exact Hs|].
    pose proof (at_bytes_reopen buf _ w s' Hw) as Hat. rewrite zlen_app in Hat.
    specialize (Hat ltac:(lia)). destruct (varint_bytes_spec n ltac:(lia)) as (Hvar & Hval & Hvl).
    pose proof (at_bytes_app_l _ _ _ Hat) as Hat1. apply at_bytes_app_r in Hat.
    unfold pb_dec_bytes.
    erewrite bind_Ret by (apply pb_decode_varint32_at; [done|lia|lia|exact Hat1]).
    rewrite Hval. unfold PB_SIZE_MAX, PB_BYTES_ARRAY_T_ALLOCSIZE, pb_bytes_array_bytes.
    change (u32 (-1)) with (2 ^ 32 - 1). unfold uwrap.
    destruct (Z.ltb_spec (2 ^ 32 - 1) n); [lia|]. rewrite (Z.mod_small (n + 4)) by lia.
    destruct (Z.ltb_spec (n + 4) n); [lia|]. rewrite Hatype. cbn [Z.eqb PB_ATYPE_STATIC PB_ATYPE_POINTER].
    destruct (Z.ltb_spec (data_size field) (n + 4)); [lia|]. rewrite bind_ret.
    change (Z.of_nat (List.length (varint_bytes n))) with (zlen (varint_bytes n)) in Hat.
    set (s1 := advance (zlen (varint_bytes n)) (reopen buf s')) in *.
    set (w1 := set_mem (fun m => store m dest 4 n) (d_world s1)).
    erewrite bind_Ret by (instantiate (1 := set_world w1 s1); done).
    assert (Hat2 : at_bytes (set_world w1 s1) bs).
    { apply at_bytes_world; [done|]. intros b Hb.
      change (mem w1) with (store (mem (d_world s1)) dest 4 n). rewrite load_byte_store.
      change (is_state (stream s1)) with (buf + zlen (varint_bytes n)) in Hb.
      destruct (decide _) as [Hin|]; [lia|done]. }
    erewrite bind_Ret by (apply (pb_read_mem_at _ bs); done).
    eexists. split; [reflexivity|]. destruct Hw as (Hwr & _). rewrite zlen_app in Hwr.
    split; [split; [|done]|].
    { change (bytes_written (ostream s') - zlen (varint_bytes n) - zlen bs = 0). lia. }
    cbn [copied set_world d_world set_mem mem advance set_stream].
    change (mem w1) with (store (mem (d_world s1)) dest 4 n). split.
    + rewrite load_store_bytes_ne by lia. rewrite load_store_eq. by rewrite Z.mod_small.
    + replace (Z.to_nat n) with (List.length bs) by (unfold zlen in Hbs; lia).
      by apply load_bytes_store_bytes.
Qed.
End Wire.

(** ** On concrete inputs *)

Lemma varint_roundtrip_witness :
  roundtrips (pb_encode_varint 300) pb_decode_varint 300 sample_buffer 16 sample_world.
Proof. apply (varint_roundtrip 300); unfold object_limit; lia. Defined.

Lemma svarint_roundtrip_witness :
  roundtrips (pb_encode_svarint (-3600)) pb_decode_svarint (-3600) sample_buffer 16 sample_world.
Proof. apply (svarint_roundtrip (-3600)); unfold object_limit; lia. Defined.

Lemma fixed32_roundtrip_witness :
  copies (pb_encode_fixed32 sample_event_at) (pb_decode_fixed32 0x30000) 4
    sample_event_at 0x30000 sample_buffer 16 sample_world.
Proof.
  apply (fixed32_roundtrip sample_event_at 0x30000);
    [repeat constructor; by vm_compute|unfold object_limit; lia].
Defined.

Lemma fixed64_roundtrip_witness :
  copies (pb_encode_fixed64 sample_event_at) (pb_decode_fixed64 0x30000) 8
    sample_event_at 0x30000 sample_buffer 16 sample_world.
Proof.
  apply (fixed64_roundtrip sample_event_at 0x30000);
    [repeat constructor; by vm_compute|unfold object_limit; lia].
Defined.

Lemma tag_roundtrip_witness :
  roundtrips (pb_encode_tag PB_WT_STRING 23) pb_decode_tag (inr (PB_WT_STRING, 23))
    sample_buffer 16 sample_world.
Proof. apply (tag_roundtrip PB_WT_STRING 23); unfold PB_WT_STRING, object_limit; lia. Defined.

Lemma on_bytes_at l : Forall is_byte l -> zlen l < 2 ^ 64 -> at_bytes (on_bytes l) l.
Proof.
  intros Hl Hlen. split; [done|]. split; [by apply load_bytes_store_bytes|].
  cbn. unfold zlen in *. lia.
Qed.

(** [300] in three bytes. *)
Lemma pb_decode_varint_any_witness :
  pb_decode_varint (on_bytes [0xAC; 0x82; 0x00]) =
    (Ret 300, advance 3 (on_bytes [0xAC; 0x82; 0x00])).
Proof.
  apply (pb_decode_varint_any (on_bytes [0xAC; 0x82; 0x00]) [0xAC; 0x82; 0x00]);
    [cbn; lia|cbn; lia|apply on_bytes_at; [repeat constructor; by cbn|by vm_compute]].
Defined.

Lemma pb_decode_varint32_cases_witness : exists t,
  pb_decode_varint32 (on_bytes (varint_bytes (2 ^ 40))) = (Fail, t).
Proof.
  apply (pb_decode_varint32_cases (on_bytes (varint_bytes (2 ^ 40))) (2 ^ 40));
    [lia|apply on_bytes_at; [by apply varint_bytes_bytes|by vm_compute]|lia].
Defined.

Lemma pb_decode_varint_overlong_witness : exists t,
  pb_decode_varint (on_bytes (repeat 0x80 10)) = (Fail, t) /\
  is_errmsg (stream t) = Some "varint overflow"%string.
Proof.
  apply (pb_decode_varint_overlong (on_bytes (repeat 0x80 10)) (repeat 0x80 10));
    [done|repeat constructor; lia|apply on_bytes_at; [repeat constructor; by cbn|by vm_compute]|done].
Defined.

Lemma pb_skip_field_correct_witness :
  pb_skip_field PB_WT_STRING (on_bytes [3; 97; 98; 99]) =
    (Ret tt, advance 4 (on_bytes [3; 97; 98; 99])).
Proof.
  apply (pb_skip_field_correct (on_bytes [3; 97; 98; 99]) PB_WT_STRING [3; 97; 98; 99]).
  - apply (wire_string [3] [97; 98; 99]); [cbn; lia|cbn; lia|done|by vm_compute].
  - apply on_bytes_at; [repeat constructor; by cbn|by vm_compute].
Defined.

(** A table with a static byte array of 20 bytes. *)
Definition static_bytes : pb_field_t := mk_field 1 PB_LTYPE_BYTES 0 0 24 0 0.

Lemma bytes_roundtrip_witness :
  let n := load (mem sample_world) sample_bytes_at 4 in
  exists s', pb_enc_bytes static_bytes sample_bytes_at
    (mk_estate (pb_ostream_from_buffer sample_buffer 64) sample_world) = (Ret tt, s') /\
  exists t, pb_dec_bytes static_bytes 0x30000 (reopen sample_buffer s') = (Ret tt, t) /\ at_end t /\
    load (mem (d_world t)) 0x30000 4 = n /\
    load_bytes (mem (d_world t)) (0x30000 + 4) (Z.to_nat n) =
      load_bytes (mem sample_world) (sample_bytes_at + 4) (Z.to_nat n).
Proof.
  apply (bytes_roundtrip static_bytes sample_bytes_at 0x30000 sample_buffer 64 sample_world);
    try (by vm_compute); try (right; by vm_compute).
  - repeat constructor; by vm_compute.
Defined.

(** ** What the 32-bit reader lets through *)

(** The fifth byte carries bits above the 32nd, but only the last byte of a
    varint is checked for them: with one more byte after it, they are lost. *)
Lemma pb_decode_varint32_drops_bits :
  let s := on_bytes [0x80; 0x80; 0x80; 0x80; 0xF0; 0x00] in
  fst (pb_decode_varint32 s) = Ret 0 /\ fst (pb_decode_varint s) = Ret 0x700000000.
Proof. split; vm_compute; reflexivity. Qed.

(** The bit position is an [uint_fast8_t]: after 37 bytes it is back at 3, and the
    next byte lands in the result. *)
Lemma pb_decode_varint32_wraps :
  fst (pb_decode_varint32 (on_bytes (repeat 0x80 37 ++ [0x01]))) = Ret 8.
Proof. vm_compute. reflexivity. Qed.
