(* ===== verification/Iter.v ===== *)
(** The field iterator: where it points after any number of steps, and what
    [pb_field_iter_find] finds. The decoder walks the table from wherever the last
    field left it; these lemmas say that the result does not depend on the way. *)

From Stdlib Require Import ZArith Lia List String Bool.
From stdpp Require Import base gmap list.
From S2P Require Import Prelude Memory Pb PbCommon.

(** The iterator after [k] steps from the beginning. *)
Fixpoint iter_nth (fields : list pb_field_t) (dest : Z) (k : nat) : pb_field_iter_t :=
  match k with
  | O => snd (pb_field_iter_begin fields dest)
  | S k' => snd (pb_field_iter_next (iter_nth fields dest k'))
  end.

(** The bytes a field takes in its structure. *)
Definition field_extent (f : pb_field_t) : Z :=
  if (PB_ATYPE (type f) =? PB_ATYPE_STATIC) && (PB_HTYPE (type f) =? PB_HTYPE_REPEATED)
  then u64 (data_size f * array_size f)
  else if PB_ATYPE (type f) =? PB_ATYPE_POINTER then sizeof_pointer
  else data_size f.

(** Whether [g] after [f] shares the place of [f] in a union. *)
Definition same_union (f g : pb_field_t) : bool :=
  (PB_HTYPE (type f) =? PB_HTYPE_ONEOF) && (PB_HTYPE (type g) =? PB_HTYPE_ONEOF)
  && (data_offset g =? PB_SIZE_MAX).

(** The offset of the [k]-th field, and of its size. *)
Fixpoint field_offset (fields : list pb_field_t) (k : nat) : Z :=
  match k with
  | O => data_offset (field_at fields 0)
  | S k' =>
      let f := field_at fields k' in
      let g := field_at fields k in
      if same_union f g then field_offset fields k'
      else field_offset fields k' + field_extent f + data_offset g
  end.

Fixpoint size_place (fields : list pb_field_t) (k : nat) : Z :=
  match k with
  | O => field_offset fields 0 + size_offset (field_at fields 0)
  | S k' =>
      if same_union (field_at fields k') (field_at fields k) then size_place fields k'
      else field_offset fields k + size_offset (field_at fields k)
  end.

(** The number of required fields among the first [k]. *)
Definition required_before (fields : list pb_field_t) (k : nat) : Z :=
  Z.of_nat (List.length (List.filter (fun f => PB_HTYPE (type f) =? PB_HTYPE_REQUIRED) (take k fields))).

(** No field has the terminator's tag. *)
Definition tags_nonzero (fields : list pb_field_t) : Prop := Forall (fun f => tag f <> 0) fields.

(** Whether [pb_field_iter_find] stops at a field. *)
Definition matches (t : Z) (f : pb_field_t) : bool :=
  (tag f =? t) && negb (PB_LTYPE (type f) =? PB_LTYPE_EXTENSION).

(** The positions of a table of [n] fields from [k] on, once around. *)
Definition around (k n : nat) : list nat := seq k (n - k) ++ seq 0 k.

(** The first match from [k] on, and where the search for it ends. *)
Definition found_from (fields : list pb_field_t) (k : nat) (t : Z) : bool * nat :=
  match List.find (fun j => matches t (field_at fields j)) (around k (List.length fields)) with
  | Some j => (true, j)
  | None => (false, k)
  end.

Section Iter.
Variables (fields : list pb_field_t) (dest : Z).
Hypothesis nonzero : tags_nonzero fields.

Lemma field_at_tag k : (k < List.length fields)%nat -> tag (field_at fields k) <> 0.
Proof.
  intros Hk. unfold field_at. pose proof (nth_In fields PB_LAST_FIELD Hk) as Hin.
  by apply (proj1 (List.Forall_forall _ _) nonzero) in Hin.
Qed.

Lemma field_at_end k : (List.length fields <= k)%nat -> field_at fields k = PB_LAST_FIELD.
Proof. intros Hk. by apply nth_overflow. Qed.

(** One step from an iterator at position [k]. *)
Lemma next_wraps iter k :
  start iter = fields -> pos iter = k -> dest_struct iter = dest ->
  S k = List.length fields -> pb_field_iter_next iter = (false, iter_nth fields dest 0).
Proof.
  intros Hs Hp Hd Hk. unfold pb_field_iter_next, cur. rewrite Hs, Hp, Hd.
  pose proof (field_at_tag k ltac:(lia)). destruct (Z.eqb_spec (tag (field_at fields k)) 0); [done|].
  by rewrite (field_at_end (S k)) by lia.
Qed.

Lemma next_steps iter k :
  start iter = fields -> pos iter = k -> (S k < List.length fields)%nat ->
  pb_field_iter_next iter = (true, snd (pb_field_iter_next iter)).
Proof.
  intros Hs Hp Hk. unfold pb_field_iter_next, cur. rewrite Hs, Hp.
  pose proof (field_at_tag k ltac:(lia)). pose proof (field_at_tag (S k) ltac:(lia)).
  destruct (Z.eqb_spec (tag (field_at fields k)) 0); [done|].
  destruct (Z.eqb_spec (tag (field_at fields (S k))) 0); [done|].
  by destruct (_ && _ && _).
Qed.

Lemma required_before_S k :
  (k < List.length fields)%nat ->
  required_before fields (S k) = required_before fields k +
    (if PB_HTYPE (type (field_at fields k)) =? PB_HTYPE_REQUIRED then 1 else 0).
Proof.
  intros Hk. unfold required_before. rewrite (take_S_r _ _ (field_at fields k)).
  - rewrite List.filter_app, length_app. cbn [List.filter].
    destruct (_ =? _); cbn [List.length]; lia.
  - by destruct (nth_lookup_or_length fields k PB_LAST_FIELD); [|lia].
Qed.

(** What an iterator is after [k] steps. *)
Lemma iter_nth_at k :
  (k < List.length fields)%nat -> Z.of_nat (List.length fields) < 2 ^ 32 ->
  let iter := iter_nth fields dest k in
  start iter = fields /\ pos iter = k /\ dest_struct iter = dest /\
  required_field_index iter = required_before fields k /\
  pData iter = dest + field_offset fields k /\ pSize iter = InMem (dest + size_place fields k).
Proof.
  intros Hk Hlen. induction k as [|k IH].
  - cbn. repeat split. f_equal. lia.
  - destruct (IH ltac:(lia)) as (Hs & Hp & Hd & Hr & Hdata & Hsize). cbn [iter_nth].
    unfold pb_field_iter_next, cur. rewrite Hs, Hp, Hd, Hr, Hdata, Hsize.
    pose proof (field_at_tag k ltac:(lia)). pose proof (field_at_tag (S k) Hk).
    destruct (Z.eqb_spec (tag (field_at fields k)) 0); [done|].
    destruct (Z.eqb_spec (tag (field_at fields (S k))) 0); [done|].
    rewrite required_before_S by lia. cbn [field_offset size_place].
    fold (same_union (field_at fields k) (field_at fields (S k))).
    destruct (same_union _ _) eqn:Hu; cbn [snd start pos dest_struct required_field_index pData pSize].
    + unfold same_union in Hu. apply andb_true_iff in Hu as [Hu _]. apply andb_true_iff in Hu as [Hu _].
      apply Z.eqb_eq in Hu. rewrite Hu. cbn. repeat split. lia.
    + repeat split.
      * destruct (_ =? PB_HTYPE_REQUIRED); [|lia]. unfold uwrap. rewrite Z.mod_small; [done|].
        assert (0 <= required_before fields k <= Z.of_nat k); [|lia].
        unfold required_before. pose proof (filter_length_le (fun f => PB_HTYPE (type f) =? PB_HTYPE_REQUIRED) (take k fields)).
        rewrite length_take in *. lia.
      * fold (field_extent (field_at fields k)). lia.
      * fold (field_extent (field_at fields k)). f_equal. lia.
Qed.

(** The iterator once [pb_decode_noinit] has pointed it at its own counter. *)
Definition with_counter (iter : pb_field_iter_t) : pb_field_iter_t :=
  mk_iter (start iter) (pos iter) (required_field_index iter) (dest_struct iter) (pData iter)
    FixedCountSize.

(** Pointing at the [k]-th field, as the decoder leaves it. *)
Definition on_field (k : nat) (iter : pb_field_iter_t) : Prop :=
  (k < List.length fields)%nat /\
  (iter = iter_nth fields dest k \/
   PB_HTYPE (type (field_at fields k)) = PB_HTYPE_REPEATED /\ iter = with_counter (iter_nth fields dest k)).

Hypothesis short : Z.of_nat (List.length fields) < 2 ^ 32.

Lemma on_field_start k iter : on_field k iter -> start iter = fields /\ pos iter = k /\ dest_struct iter = dest.
Proof.
  intros [Hk Hi]. destruct (iter_nth_at k Hk short) as (Hs & Hp & Hd & _).
  by destruct Hi as [-> | [_ ->]].
Qed.

Lemma on_field_cur k iter : on_field k iter -> cur iter = field_at fields k.
Proof. intros Hi. unfold cur. by destruct (on_field_start k iter Hi) as (-> & -> & _). Qed.

Lemma on_field_data k iter : on_field k iter -> pData iter = dest + field_offset fields k.
Proof.
  intros [Hk Hi]. destruct (iter_nth_at k Hk short) as (_ & _ & _ & _ & Hd & _).
  by destruct Hi as [-> | [_ ->]].
Qed.

Lemma on_field_nth k : (k < List.length fields)%nat -> on_field k (iter_nth fields dest k).
Proof. intros Hk. split; [done|by left]. Qed.

Lemma on_field_next k iter :
  on_field k iter -> (S k < List.length fields)%nat ->
  pb_field_iter_next iter = (true, iter_nth fields dest (S k)).
Proof.
  intros Hon Hk. destruct (on_field_start k iter Hon) as (Hs & Hp & _).
  rewrite (next_steps iter k) by done. f_equal. destruct Hon as [Hlt [-> | [Hrep ->]]]; [done|].
  destruct (iter_nth_at k Hlt short) as (Hs' & Hp' & _). cbn [iter_nth].
  unfold pb_field_iter_next, cur, with_counter. cbn [start pos]. rewrite Hs', Hp', Hrep.
  pose proof (field_at_tag k ltac:(lia)). pose proof (field_at_tag (S k) Hk).
  destruct (Z.eqb_spec (tag (field_at fields k)) 0); [done|].
  by destruct (Z.eqb_spec (tag (field_at fields (S k))) 0).
Qed.

Lemma on_field_wrap k iter :
  on_field k iter -> S k = List.length fields -> pb_field_iter_next iter = (false, iter_nth fields dest 0).
Proof.
  intros Hon Hk. destruct (on_field_start k iter Hon) as (Hs & Hp & Hd). by apply (next_wraps iter k).
Qed.

(** *** Searching *)

Lemma find_cons {A} (f : A -> bool) x l : List.find f (x :: l) = if f x then Some x else List.find f l.
Proof. done. Qed.

Lemma find_second_part t p d : forall i fuel,
  (i + d = p)%nat -> (p < List.length fields)%nat -> (0 < d <= fuel)%nat ->
  iter_find_loop fuel p t (iter_nth fields dest i) =
    Some (match List.find (fun j => matches t (field_at fields j)) (seq i d) with
          | Some j => (true, iter_nth fields dest j)
          | None => (false, iter_nth fields dest p)
          end).
Proof.
  induction d as [|d IH]; intros i fuel Hd Hp Hfuel; [lia|].
  destruct fuel as [|fuel]; [lia|]. cbn [iter_find_loop seq]. rewrite find_cons.
  pose proof (on_field_nth i ltac:(lia)) as Hon. rewrite (on_field_cur i _ Hon).
  fold (matches t (field_at fields i)). destruct (matches _ _); [done|].
  rewrite (on_field_next i _ Hon) by lia. cbn [snd].
  destruct (on_field_start (S i) _ (on_field_nth (S i) ltac:(lia))) as (_ & -> & _).
  destruct (Nat.eqb_spec (S i) p) as [<-|Hne].
  - assert (d = 0)%nat as -> by lia. done.
  - apply IH; lia.
Qed.

Lemma find_first_part t p d : forall k fuel iter,
  on_field k iter -> (k + d = List.length fields)%nat -> (p <= k)%nat -> (0 < d)%nat -> (d + p <= fuel)%nat ->
  iter_find_loop fuel p t iter =
    Some (match List.find (fun j => matches t (field_at fields j)) (seq k d ++ seq 0 p) with
          | Some j => (true, if Nat.eqb j k then iter else iter_nth fields dest j)
          | None => (false, iter_nth fields dest p)
          end).
Proof.
  induction d as [|d IH]; intros k fuel iter Hon Hd Hp Hpos Hfuel; [lia|].
  destruct fuel as [|fuel]; [lia|]. cbn [iter_find_loop seq app]. rewrite find_cons.
  rewrite (on_field_cur k _ Hon). fold (matches t (field_at fields k)).
  destruct (matches _ _); [by rewrite Nat.eqb_refl|]. destruct d as [|d].
  - rewrite (on_field_wrap k _ Hon) by lia. cbn [snd seq app].
    destruct (on_field_start 0 _ (on_field_nth 0 ltac:(lia))) as (_ & -> & _).
    destruct (Nat.eqb_spec 0 p) as [<-|Hne]; [done|].
    rewrite (find_second_part t p p) by lia. destruct (List.find _ _) as [j|] eqn:Ef; [|done].
    apply find_some in Ef as [Hin _]. apply in_seq in Hin. destruct (Nat.eqb_spec j k); [lia|done].
  - rewrite (on_field_next k _ Hon) by lia. cbn [snd].
    pose proof (on_field_nth (S k) ltac:(lia)) as Hon'.
    destruct (on_field_start (S k) _ Hon') as (_ & -> & _).
    destruct (Nat.eqb_spec (S k) p); [lia|]. rewrite (IH (S k)) by (lia || done).
    destruct (List.find _ _) as [j|] eqn:Ef; [|done]. apply find_some in Ef as [Hin _].
    apply in_app_iff in Hin as [Hin|Hin]; apply in_seq in Hin; destruct (Nat.eqb_spec j k); try lia;
      by destruct (Nat.eqb_spec j (S k)) as [->|].
Qed.

Lemma find_on_field t k iter :
  on_field k iter ->
  pb_field_iter_find iter t =
    Some (let '(b, j) := found_from fields k t in
          (b, if b && Nat.eqb j k then iter else iter_nth fields dest j)).
Proof.
  intros Hon. pose proof (on_field_start k iter Hon) as (Hs & Hp & _). destruct Hon as [Hk Hi].
  unfold pb_field_iter_find. rewrite Hs, Hp.
  rewrite (find_first_part t k (List.length fields - k) k); [|by split|lia..].
  unfold found_from, around. by destruct (List.find _ _).
Qed.
End Iter.
