(* ===== verification/Safe.v ===== *)
(** The program logic of the decoder's memory safety: [safe lo hi m Q] says that
    from any memory stream [m] ends, with [true] or [false], having changed memory
    only in [lo, hi) and not touched the heap; [Q] relates its result to the number
    of bytes it took from the stream. The rules follow the structure of the code;
    then the streams and the wire-level readers. *)

From Stdlib Require Import ZArith Lia List String Bool.
From stdpp Require Import base gmap list.
From S2P Require Import Prelude Memory Pb PbCommon PbDecode PbDecodeMsg PbEncode Base128 Varint.

(** ** Memory *)

(** Memory differs at most in [lo, hi), the heap not at all. *)
Definition unchanged (lo hi : Z) (w w' : world) : Prop :=
  live w' = live w /\ forall a, ~ (lo <= a < hi) -> load_byte (mem w') a = load_byte (mem w) a.

Definition inside (lo hi a n : Z) : Prop := lo <= a /\ a + n <= hi.

Lemma unchanged_refl lo hi w : unchanged lo hi w w.
Proof. done. Qed.

Lemma unchanged_trans lo hi w1 w2 w3 :
  unchanged lo hi w1 w2 -> unchanged lo hi w2 w3 -> unchanged lo hi w1 w3.
Proof. intros [L1 H1] [L2 H2]. split; [congruence|]. intros a Ha. by rewrite H2, H1. Qed.

Lemma unchanged_mono lo hi lo' hi' w w' :
  unchanged lo hi w w' -> lo' <= lo -> hi <= hi' -> unchanged lo' hi' w w'.
Proof. intros [L H1] Hlo Hhi. split; [done|]. intros a Ha. apply H1. lia. Qed.

Lemma unchanged_store lo hi a n v w :
  inside lo hi a (Z.of_nat n) -> unchanged lo hi w (set_mem (fun m => store m a n v) w).
Proof.
  intros [Hlo Hhi]. split; [done|]. intros b Hb. cbn. rewrite load_byte_store.
  destruct (decide _); [lia|done].
Qed.

Lemma unchanged_store_bytes lo hi a l w :
  inside lo hi a (Z.of_nat (List.length l)) -> unchanged lo hi w (set_mem (fun m => store_bytes m a l) w).
Proof.
  intros [Hlo Hhi]. split; [done|]. intros b Hb. cbn. rewrite load_byte_store_bytes.
  destruct (decide _); [lia|done].
Qed.

(** ** Computations on the memory *)

(** They never fail. *)
Definition safeW {A} (lo hi : Z) (m : W A) (P : A -> Prop) : Prop := forall w,
  wp m (fun a w' => P a /\ unchanged lo hi w w') (fun _ => False) w.

Section SafeW.
Variables lo hi : Z.

Lemma safeW_ret {A} (a : A) (P : A -> Prop) : P a -> safeW lo hi (ret a) P.
Proof. intros HP w. by split. Qed.

Lemma safeW_bind {A B} (m : W A) (k : A -> W B) P Q :
  safeW lo hi m P -> (forall a, P a -> safeW lo hi (k a) Q) -> safeW lo hi (bind m k) Q.
Proof.
  intros Hm Hk w. apply wp_bind. eapply wp_mono; [apply Hm| |done].
  intros a w1 [HP Hw1]. eapply wp_mono; [by apply Hk| |done].
  intros b w2 [HQ Hw2]. split; [done|]. by eapply unchanged_trans.
Qed.

Lemma safeW_mono {A} (m : W A) lo' hi' (P Q : A -> Prop) :
  safeW lo' hi' m P -> lo <= lo' -> hi' <= hi -> (forall a, P a -> Q a) -> safeW lo hi m Q.
Proof.
  intros Hm Hlo Hhi HPQ w. eapply wp_mono; [apply Hm| |done].
  intros a w' [HP Hw]. split; [auto|]. by eapply unchanged_mono.
Qed.

Lemma safeW_load a n : safeW lo hi (loadW a n) (fun v => 0 <= v < 2 ^ (8 * Z.of_nat n)).
Proof. intros w. apply wp_gets. split; [apply load_range|done]. Qed.

Lemma safeW_store a n v : inside lo hi a (Z.of_nat n) -> safeW lo hi (storeW a n v) (fun _ => True).
Proof. intros Hin w. apply wp_modify. split; [done|]. by apply unchanged_store. Qed.

Lemma safeW_store_bytes f a l :
  (forall m, f m = store_bytes m a (l m)) ->
  (forall m, inside lo hi a (Z.of_nat (List.length (l m)))) ->
  safeW lo hi (modify (set_mem f)) (fun _ => True).
Proof.
  intros Hf Hin w. apply wp_modify. split; [done|]. split; [done|]. intros b Hb. cbn.
  rewrite Hf, load_byte_store_bytes. specialize (Hin (mem w)). destruct Hin.
  destruct (decide _); [lia|done].
Qed.

Lemma safeW_memzero a n :
  0 <= n -> inside lo hi a n -> safeW lo hi (modify (set_mem (fun m => memzero m a n))) (fun _ => True).
Proof.
  intros Hn Hin.
  apply (safeW_store_bytes _ a (fun _ => replicate (Z.to_nat n) 0)); [reflexivity|]. intros _.
  by rewrite length_replicate, Z2Nat.id.
Qed.

Lemma safeW_memcpy a src n :
  0 <= n -> inside lo hi a n -> safeW lo hi (modify (set_mem (fun m => memcpy m a src n))) (fun _ => True).
Proof.
  intros Hn Hin. eapply (safeW_store_bytes _ a (fun m => load_bytes m src (Z.to_nat n))); [reflexivity|].
  intros m. by rewrite length_load_bytes, Z2Nat.id.
Qed.

(** A loop whose measure on the locals falls. *)
Lemma safeW_loop {A B} (body : A -> W (A + B)) (I : A -> Prop) (mu : A -> Z) P a :
  (forall a, I a -> 0 <= mu a < 2 ^ 65 /\
     safeW lo hi (body a) (fun r => match r with inl a' => I a' /\ mu a' < mu a | inr b => P b end)) ->
  I a -> safeW lo hi (loop body a) P.
Proof.
  intros Hbody HI w. eapply (wp_loop _ (fun a w' => I a /\ unchanged lo hi w w') (fun a _ => mu a)).
  - intros a' w' [HI' Hw']. destruct (Hbody a' HI') as [Hmu Hs]. split; [lia|].
    eapply wp_mono; [apply Hs| |done]. intros [a''|b] w'' [HP Hw''].
    + split; [|apply HP]. split; [apply HP|]. by eapply unchanged_trans.
    + split; [done|]. by eapply unchanged_trans.
  - done.
  - by apply Hbody.
Qed.
End SafeW.

(** ** Computations on the decoder's state *)

(** A memory stream and a counter in their ranges. *)
Definition sound (s : dstate) : Prop :=
  is_callback (stream s) = buf_read_cb /\ 0 <= bytes_left (stream s) < 2 ^ 64 /\
  0 <= fixed_count_size s < 2 ^ 32.

Definition consumed (s s' : dstate) : Z := bytes_left (stream s) - bytes_left (stream s').

Definition evolves (lo hi : Z) (s s' : dstate) : Prop :=
  sound s' /\ 0 <= consumed s s' /\ unchanged lo hi (d_world s) (d_world s').

Definition safe {A} (lo hi : Z) (m : D A) (Q : A -> Z -> Prop) : Prop := forall s, sound s ->
  wp m (fun a s' => evolves lo hi s s' /\ Q a (consumed s s')) (evolves lo hi s) s.

(** Any result. *)
Definition any {A} (_ : A) (_ : Z) : Prop := True.

Section Rules.
Variables lo hi : Z.

Lemma evolves_refl s : sound s -> evolves lo hi s s.
Proof. intros Hs. split; [done|]. split; [unfold consumed; lia|done]. Qed.

Lemma evolves_trans s1 s2 s3 : evolves lo hi s1 s2 -> evolves lo hi s2 s3 -> evolves lo hi s1 s3.
Proof.
  intros (_ & C1 & U1) (S3 & C2 & U2). split; [done|]. split; [unfold consumed in *; lia|].
  by eapply unchanged_trans.
Qed.

Lemma safe_ret {A} (a : A) (Q : A -> Z -> Prop) : Q a 0 -> safe lo hi (ret a) Q.
Proof.
  intros HQ s Hs. apply wp_ret. split; [by apply evolves_refl|].
  unfold consumed. by rewrite Z.sub_diag.
Qed.

Lemma safe_fail {A} (Q : A -> Z -> Prop) : safe lo hi fail Q.
Proof. intros s Hs. by apply wp_fail, evolves_refl. Qed.

Lemma wp_error {A} msg (Q : A -> dstate -> Prop) s :
  sound s -> wp (return_error msg) Q (evolves lo hi s) s.
Proof.
  intros Hs. apply wp_bind, wp_modify, wp_fail. split; [done|].
  split; [unfold consumed; cbn; lia|done].
Qed.

Lemma safe_error {A} msg (Q : A -> Z -> Prop) : safe lo hi (return_error msg) Q.
Proof.
  intros s Hs. by apply wp_error.
Qed.

Lemma safe_bind {A B} (m : D A) (k : A -> D B) Q1 Q :
  safe lo hi m Q1 ->
  (forall a n, Q1 a n -> 0 <= n -> safe lo hi (k a) (fun b n' => Q b (n + n'))) ->
  safe lo hi (bind m k) Q.
Proof.
  intros Hm Hk s Hs. apply wp_bind. eapply wp_mono; [by apply Hm| |done].
  intros a s1 [He1 HQ1]. pose proof He1 as (Hs1 & C1 & _).
  eapply wp_mono; [by eapply Hk| |].
  - intros b s2 [He2 HQ]. split; [by eapply evolves_trans|].
    replace (consumed s s2) with (consumed s s1 + consumed s1 s2) by (unfold consumed; lia). done.
  - intros s2 He2. by eapply evolves_trans.
Qed.

Lemma safe_mono {A} (m : D A) lo' hi' (Q1 Q : A -> Z -> Prop) :
  safe lo' hi' m Q1 -> lo <= lo' -> hi' <= hi -> (forall a n, Q1 a n -> 0 <= n -> Q a n) ->
  safe lo hi m Q.
Proof.
  intros Hm Hlo Hhi HQ s Hs. eapply wp_mono; [by apply Hm| |].
  - intros a s1 [(S1 & C1 & U1) HQ1]. split; [|auto]. split; [done|]. split; [done|].
    by eapply unchanged_mono.
  - intros s1 (S1 & C1 & U1). split; [done|]. split; [done|]. by eapply unchanged_mono.
Qed.

Lemma safe_weaken {A} (m : D A) (Q1 Q : A -> Z -> Prop) :
  safe lo hi m Q1 -> (forall a n, Q1 a n -> 0 <= n -> Q a n) -> safe lo hi m Q.
Proof. intros Hm HQ. apply (safe_mono m lo hi Q1 Q Hm); [lia|lia|done]. Qed.

Lemma safe_attempt {A} (m : D A) (Q : A -> Z -> Prop) :
  safe lo hi m Q ->
  safe lo hi (attempt m) (fun r n => match r with Some a => Q a n | None => True end).
Proof.
  intros Hm s Hs. apply wp_attempt. eapply wp_mono; [by apply Hm|done|]. by intros s1 He.
Qed.

Lemma safe_get {B} (k : dstate -> D B) Q :
  (forall s, sound s -> wp (k s) (fun b s' => evolves lo hi s s' /\ Q b (consumed s s')) (evolves lo hi s) s) ->
  safe lo hi (bind get k) Q.
Proof. intros Hk s Hs. apply wp_bind, wp_get. by apply Hk. Qed.

Lemma safe_get_any {B} (k : dstate -> D B) Q :
  (forall s, sound s -> safe lo hi (k s) Q) -> safe lo hi (bind get k) Q.
Proof. intros Hk. apply safe_get. intros s Hs. by apply (Hk s Hs). Qed.

Lemma safe_modify_stream f (Q : unit -> Z -> Prop) :
  (forall i, is_callback (f i) = is_callback i /\ bytes_left (f i) = bytes_left i) ->
  Q tt 0 -> safe lo hi (modify (set_stream f)) Q.
Proof.
  intros Hf HQ s (Hcb & Hn & Hc). apply wp_modify. destruct (Hf (stream s)) as [Hf1 Hf2].
  unfold evolves, sound, consumed. cbn. rewrite Hf1, Hf2, Z.sub_diag. repeat split; done || lia.
Qed.

Lemma safe_set_count c (Q : unit -> Z -> Prop) :
  0 <= c < 2 ^ 32 -> Q tt 0 -> safe lo hi (modify (set_count c)) Q.
Proof.
  intros Hr HQ s (Hcb & Hn & Hc). apply wp_modify. unfold evolves, sound, consumed. cbn.
  rewrite Z.sub_diag. repeat split; done || lia.
Qed.

Lemma safe_liftW {A} (m : W A) (P : A -> Prop) :
  safeW lo hi m P -> safe lo hi (liftW m) (fun a n => P a /\ n = 0).
Proof.
  intros Hm s Hs. apply wp_zoom. eapply wp_mono; [apply Hm| |done].
  intros a w [HP Hw]. split; [|split; [done|unfold consumed; cbn; lia]].
  split; [done|]. split; [unfold consumed; cbn; lia|done].
Qed.

(** A loop that takes bytes from the stream at each turn. *)
Lemma safe_loop {A B} (body : A -> D (A + B)) (I : A -> Prop) (Q : B -> Z -> Prop) a :
  (forall a, I a -> safe lo hi (body a) (fun r n =>
     match r with inl a' => I a' /\ 0 < n | inr b => forall k, 0 <= k -> Q b (k + n) end)) ->
  I a -> safe lo hi (loop body a) Q.
Proof.
  intros Hbody HI s Hs.
  eapply (wp_loop _ (fun a s' => I a /\ evolves lo hi s s') (fun _ s' => bytes_left (stream s'))).
  - intros a' s' [HI' He']. pose proof He' as ((_ & Hn & _) & Hc & _). split; [lia|].
    eapply wp_mono; [apply (Hbody a' HI'); apply He'| |].
    + intros [a''|b] s'' [He'' HQ]; (split; [|]).
      * split; [apply HQ|]. by eapply evolves_trans.
      * destruct HQ. unfold consumed in *. lia.
      * by eapply evolves_trans.
      * replace (consumed s s'') with (consumed s s' + consumed s' s'') by (unfold consumed; lia).
        by apply HQ.
    + intros s'' He''. by eapply evolves_trans.
  - split; [done|by apply evolves_refl].
  - destruct Hs as (_ & Hn & _). lia.
Qed.

(** A loop whose locals count down. *)
Lemma safe_loop_count {A B} (body : A -> D (A + B)) (I : A -> Prop) (mu : A -> Z) (Q : B -> Z -> Prop) a :
  (forall a, I a -> 0 <= mu a < 2 ^ 65 /\ safe lo hi (body a) (fun r n =>
     match r with inl a' => I a' /\ mu a' < mu a | inr b => forall k, 0 <= k -> Q b (k + n) end)) ->
  I a -> safe lo hi (loop body a) Q.
Proof.
  intros Hbody HI s Hs.
  eapply (wp_loop _ (fun a s' => I a /\ evolves lo hi s s') (fun a _ => mu a)).
  - intros a' s' [HI' He']. destruct (Hbody a' HI') as [Hmu Hsafe]. split; [lia|].
    eapply wp_mono; [apply Hsafe; apply He'| |].
    + intros [a''|b] s'' [He'' HQ]; (split; [|]).
      * split; [apply HQ|]. by eapply evolves_trans.
      * apply HQ.
      * by eapply evolves_trans.
      * pose proof He' as (_ & Hc & _).
        replace (consumed s s'') with (consumed s s' + consumed s' s'') by (unfold consumed; lia).
        by apply HQ.
    + intros s'' He''. by eapply evolves_trans.
  - split; [done|by apply evolves_refl].
  - by apply Hbody.
Qed.
End Rules.

(** ** Streams and wire-level readers *)

Section Readers.
Context `{Env}.
Variables lo hi : Z.

Definition room (buf : rbuf) (count : Z) : Prop :=
  match buf with RMem a => inside lo hi a count | RNull | RLocal => True end.

Definition bytes_in_range (l : list Z) : Prop := Forall (fun v => 0 <= v < 256) l.

Lemma wp_call_callback buf count s :
  sound s -> 0 <= count -> room buf count ->
  wp (call_callback buf count)
    (fun bytes s' => sound s' /\ consumed s s' = 0 /\ unchanged lo hi (d_world s) (d_world s') /\
       bytes_in_range bytes) (fun _ => False) s.
Proof.
  intros (Hcb & Hn & Hc) Hcount Hroom. unfold call_callback. apply wp_bind, wp_get. rewrite Hcb.
  unfold buf_read. apply wp_bind, wp_get, wp_bind, wp_modify.
  destruct buf as [| |a]; cbn [is_RNull fill].
  - apply wp_ret. unfold consumed, sound. cbn. repeat split; try done; try lia. constructor.
  - apply wp_bind, wp_ret, wp_ret. unfold consumed, sound. cbn.
    repeat split; try done; try lia. apply load_bytes_range.
  - apply wp_bind, wp_zoom, wp_modify, wp_ret.
    assert (Hu : unchanged lo hi (d_world s)
      (set_mem (fun m => store_bytes m a (load_bytes (mem (d_world s)) (is_state (stream s)) (Z.to_nat count))) (d_world s))).
    { apply unchanged_store_bytes. by rewrite length_load_bytes, Z2Nat.id. }
    split; [by unfold sound|]. split; [unfold consumed; cbn; lia|]. split; [exact Hu|].
    apply load_bytes_range.
Qed.

Lemma safe_pb_read_direct buf count :
  0 <= count -> room buf count ->
  safe lo hi (pb_read_direct buf count) (fun bytes n => n = count /\ bytes_in_range bytes).
Proof.
  intros Hcount Hroom. unfold pb_read_direct. apply safe_get. intros s Hs.
  destruct (Z.ltb_spec (bytes_left (stream s)) count); [by apply wp_error|].
  apply wp_bind, wp_attempt. eapply wp_mono; [by apply wp_call_callback| |done].
  intros bytes s' (Hs' & Hc & Hu & Hb). apply wp_bind, wp_modify, wp_ret.
  destruct Hs' as (Hcb & Hn & Hf). unfold evolves, sound, consumed, uwrap in *. cbn.
  rewrite Z.mod_small by lia. repeat split; try done; try lia; apply Hu.
Qed.

Lemma safe_pb_read buf count :
  0 <= count -> room buf count ->
  safe lo hi (pb_read buf count) (fun bytes n => n = count /\ bytes_in_range bytes).
Proof.
  intros Hcount Hroom. unfold pb_read. destruct (Z.eqb_spec count 0) as [->|].
  - apply safe_ret. split; [done|constructor].
  - apply safe_get. intros s Hs. pose proof Hs as (Hcb & _). rewrite Hcb.
    cbn [is_buf_read negb]. rewrite andb_false_r. by apply safe_pb_read_direct.
Qed.

Lemma byte_nth l : bytes_in_range l -> 0 <= nth 0 l 0 < 256.
Proof. intros Hl. destruct l; cbn; [lia|]. by apply Forall_inv in Hl. Qed.

Lemma safe_pb_readbyte : safe lo hi pb_readbyte (fun b n => n = 1 /\ 0 <= b < 256).
Proof.
  unfold pb_readbyte. apply safe_get. intros s Hs.
  destruct (Z.eqb_spec (bytes_left (stream s)) 0); [by apply wp_error|].
  apply wp_bind, wp_attempt. eapply wp_mono; [by apply wp_call_callback| |done].
  intros bytes s' (Hs' & Hc & Hu & Hb). apply wp_bind, wp_modify, wp_ret. apply byte_nth in Hb.
  destruct Hs' as (Hcb & Hn & Hf). destruct Hs as (_ & Hn0 & _).
  unfold evolves, sound, consumed, uwrap in *. cbn.
  rewrite Z.mod_small by lia. repeat split; try done; try lia; apply Hu.
Qed.

Lemma land_7f_u8 b : 0 <= Z.land b 0x7F < 2 ^ 32.
Proof. pose proof (land_7f_range b). lia. Qed.

Lemma lor_range32 a b : 0 <= a < 2 ^ 32 -> 0 <= b < 2 ^ 32 -> 0 <= Z.lor a b < 2 ^ 32.
Proof.
  intros Ha Hb. rewrite <- (Z.mod_small a (2 ^ 32)), <- (Z.mod_small b (2 ^ 32)) by lia.
  rewrite <- !Z.land_ones, <- Z.land_lor_distr_l, Z.land_ones by lia. apply Z.mod_pos_bound. lia.
Qed.

(** One turn takes a byte and keeps the result in 32 bits. *)
Lemma safe_varint32_step l :
  0 <= snd l < 2 ^ 32 ->
  safe lo hi (varint32_step l) (fun r n => n = 1 /\
    match r with inl l' => 0 <= snd l' < 2 ^ 32 | inr v => 0 <= v < 2 ^ 32 end).
Proof.
  destruct l as [bitpos result]. cbn [snd]. intros Hr. unfold varint32_step.
  eapply safe_bind; [apply safe_pb_readbyte|]. intros b n [-> Hb] _.
  eapply (safe_bind _ _ _ _ (fun r n => n = 0 /\ 0 <= r < 2 ^ 32)).
  - destruct (_ <=? _).
    + destruct (_ && _); [apply safe_error|by apply safe_ret].
    + apply safe_ret. split; [done|]. apply lor_range32; [done|by apply uwrap_range].
  - intros r n [-> Hr'] _. cbv zeta. destruct (negb _); [by apply safe_ret|].
    destruct (_ && _); [apply safe_error|by apply safe_ret].
Qed.

Lemma safe_pb_decode_varint32_eof :
  safe lo hi pb_decode_varint32_eof (fun r n =>
    match r with inl _ => True | inr v => 1 <= n /\ 0 <= v < 2 ^ 32 end).
Proof.
  unfold pb_decode_varint32_eof.
  eapply safe_bind; [apply safe_attempt, safe_pb_readbyte|]. intros first n Hfirst Hn.
  destruct first as [b|].
  - destruct Hfirst as [-> Hb]. destruct (_ =? _).
    + apply safe_ret. lia.
    + eapply safe_bind; [eapply safe_attempt|].
      { apply (safe_loop _ _ _ (fun l => 0 <= snd l < 2 ^ 32) (fun v _ => 0 <= v < 2 ^ 32)).
        - intros l Hl. eapply safe_weaken; [by apply safe_varint32_step|].
          intros [l'|v] n [-> Hr] _; [split; [done|lia]|done].
        - apply land_7f_u8. }
      intros [v|] n Hv Hn'; apply safe_ret; [split; [lia|done]|done].
  - apply safe_get_any. intros s _. by apply safe_ret.
Qed.

Lemma safe_pb_decode_varint32 :
  safe lo hi pb_decode_varint32 (fun v n => 1 <= n /\ 0 <= v < 2 ^ 32).
Proof.
  unfold pb_decode_varint32. eapply safe_bind; [apply safe_pb_decode_varint32_eof|].
  intros [e|v] n Hv Hn; [apply safe_fail|]. apply safe_ret. lia.
Qed.

Lemma safe_pb_decode_varint : safe lo hi pb_decode_varint (fun v n => 1 <= n).
Proof.
  unfold pb_decode_varint. eapply (safe_loop _ _ _ (fun _ => True)); [|done].
  intros [bitpos result] _. destruct (_ <=? _); [apply safe_error|].
  eapply safe_bind; [apply safe_pb_readbyte|]. intros b n [-> Hb] _. cbv zeta.
  destruct (negb _); apply safe_ret; [split; [done|lia]|lia].
Qed.

Lemma safe_pb_skip_varint : safe lo hi pb_skip_varint any.
Proof.
  unfold pb_skip_varint. apply (safe_loop _ _ _ (fun _ => True)); [|done]. intros [] _.
  eapply safe_bind; [by apply safe_pb_read|]. intros bytes n [-> _] _.
  destruct (negb _); apply safe_ret; [split; [done|lia]|done].
Qed.

Lemma safe_pb_skip_string : safe lo hi pb_skip_string any.
Proof.
  unfold pb_skip_string. eapply safe_bind; [apply safe_pb_decode_varint32|]. intros v n [_ Hv] _.
  eapply safe_bind; [apply safe_pb_read; [lia|done]|]. intros. by apply safe_ret.
Qed.

Lemma safe_pb_decode_tag :
  safe lo hi pb_decode_tag (fun r n =>
    match r with inl _ => True | inr (_, t) => 1 <= n /\ 0 <= t < 2 ^ 29 end).
Proof.
  unfold pb_decode_tag. eapply safe_bind; [apply safe_pb_decode_varint32_eof|].
  intros [e|v] n Hv Hn; [by apply safe_ret|]. destruct (v =? 0); [by apply safe_ret|].
  apply safe_ret. rewrite Z.shiftr_div_pow2 by lia. change (2 ^ 3) with 8. zlia.
Qed.

Lemma safe_pb_skip_field wire_type : safe lo hi (pb_skip_field wire_type) any.
Proof.
  unfold pb_skip_field.
  destruct (_ =? _); [apply safe_pb_skip_varint|].
  destruct (_ =? _); [eapply safe_bind; [by apply safe_pb_read|]; intros; by apply safe_ret|].
  destruct (_ =? _); [apply safe_pb_skip_string|].
  destruct (_ =? _); [eapply safe_bind; [by apply safe_pb_read|]; intros; by apply safe_ret|].
  apply safe_error.
Qed.

(** *** Substreams *)

(** A stream the decoder may run on. *)
Definition sound_stream (i : pb_istream_t) : Prop :=
  is_callback i = buf_read_cb /\ 0 <= bytes_left i < 2 ^ 64.

Lemma safe_pb_make_string_substream :
  safe lo hi pb_make_string_substream (fun sub n => sound_stream sub /\ 1 <= n).
Proof.
  unfold pb_make_string_substream. eapply safe_bind; [apply safe_pb_decode_varint32|].
  intros v n [Hn Hv] _. apply safe_get. intros s (Hcb & Hl & Hc).
  destruct (Z.ltb_spec (bytes_left (stream s)) v); [by apply wp_error|].
  apply wp_bind, wp_modify, wp_ret. unfold evolves, sound, consumed, sound_stream, uwrap. cbn.
  rewrite Z.mod_small by lia. repeat split; try done; lia.
Qed.

Lemma safe_on_substream {A} sub (m : D A) Q :
  sound_stream sub -> safe lo hi m Q ->
  safe lo hi (on_substream sub m) (fun r n => n = 0 /\ sound_stream (snd r) /\
    match fst r with Some a => exists n', Q a n' | None => True end).
Proof.
  intros [Hcb Hn] Hm s Hs. unfold on_substream. apply wp_bind, wp_get, wp_bind, wp_modify.
  assert (Hsub : sound (set_stream (fun _ => sub) s)) by (split; [done|]; split; [done|apply Hs]).
  apply wp_bind, wp_attempt. eapply wp_mono; [by apply Hm| |].
  - intros a s' [((Hcb' & Hn' & Hf') & _ & Hu) HQ].
    apply wp_bind, wp_get, wp_bind, wp_modify, wp_ret. destruct Hs as (Hs1 & Hs2 & Hs3).
    unfold evolves, sound, consumed, sound_stream in *. cbn. repeat split; try done; try lia; try apply Hu.
    by eexists.
  - intros s' ((Hcb' & Hn' & Hf') & _ & Hu).
    apply wp_bind, wp_get, wp_bind, wp_modify, wp_ret. destruct Hs as (Hs1 & Hs2 & Hs3).
    unfold evolves, sound, consumed, sound_stream in *. cbn. repeat split; try done; try lia; apply Hu.
Qed.

Lemma safe_pb_close_string_substream sub :
  sound_stream sub -> safe lo hi (pb_close_string_substream sub) any.
Proof.
  intros Hsub. unfold pb_close_string_substream. eapply safe_bind.
  - apply safe_on_substream; [done|]. instantiate (1 := any).
    destruct (_ =? _); [by apply safe_ret|]. destruct Hsub as [_ Hn].
    eapply safe_weaken; [apply safe_pb_read; [lia|done]|done].
  - intros [[?|] sub'] n _ _; [|apply safe_fail]. by apply safe_modify_stream.
Qed.
End Readers.
