(* ===== verification/Safety.v ===== *)
(** Memory safety and termination of the decoder on arbitrary input, for messages
    without pointers and callbacks: [table_ok] is an executable check of a
    descriptor table against the size of its structure; under it [pb_decode] ends
    on every input, writes only inside the structure and leaves the heap alone. *)

From Stdlib Require Import ZArith Lia List String Bool.
From stdpp Require Import base gmap list.
From S2P Require Import Prelude Memory Pb PbCommon PbDecode PbDecodeMsg PbEncode Base128 Varint Iter Safe.

(** ** The check *)

Section Check.
Context `{Env}.

(** The room a scalar needs, whatever the input. *)
Definition least_size (ltype : Z) : Z :=
  if ltype =? PB_LTYPE_BOOL then 1
  else if ltype =? PB_LTYPE_FIXED32 then 4
  else if ltype =? PB_LTYPE_FIXED64 then 8
  else 0.

(** The bytes of the flag, counter or selector of a field. *)
Definition size_bytes (f : pb_field_t) : Z :=
  if PB_HTYPE (type f) =? PB_HTYPE_REQUIRED then 0
  else if PB_HTYPE (type f) =? PB_HTYPE_OPTIONAL then (if size_offset f =? 0 then 0 else 1)
  else 4.

Definition items (f : pb_field_t) : Z :=
  if PB_HTYPE (type f) =? PB_HTYPE_REPEATED then array_size f else 1.

(** Field [f] at offset [o], its size at offset [so], in a structure of [size] bytes. *)
Definition field_ok (sub : list pb_field_t -> Z -> bool) (size o so : Z) (f : pb_field_t) : bool :=
  negb (tag f =? 0) && field_in_range f
  && (PB_ATYPE (type f) =? PB_ATYPE_STATIC)
  && negb (PB_LTYPE (type f) =? PB_LTYPE_EXTENSION)
  && (PB_LTYPE (type f) <? PB_LTYPES_COUNT)
  && (least_size (PB_LTYPE (type f)) <=? data_size f)
  && (0 <=? o) && (o + items f * data_size f <=? size)
  && ((size_bytes f =? 0) || ((0 <=? so) && (so + size_bytes f <=? size)))
  && (negb (PB_LTYPE (type f) =? PB_LTYPE_SUBMESSAGE)
      || (negb (ptr f =? NULL) && sub (desc (ptr f)) (data_size f))).

(** [n] bounds the nesting. *)
Fixpoint table_ok (n : nat) (fields : list pb_field_t) (size : Z) : bool :=
  match n with
  | O => false
  | S n' =>
      negb (Nat.eqb (List.length fields) 0) && (Z.of_nat (List.length fields) <? 2 ^ 32)
      && bool_decide (NoDup (map tag fields))
      && forallb (fun k => field_ok (table_ok n') size (field_offset fields k) (size_place fields k)
                             (field_at fields k)) (seq 0 (List.length fields))
  end.
End Check.

(** What the check says of one field. *)
Record field_fits `{Env} (n : nat) (size o so : Z) (f : pb_field_t) : Prop := mk_fits {
  fits_tag : tag f <> 0;
  fits_range : field_in_range f = true;
  fits_static : PB_ATYPE (type f) = PB_ATYPE_STATIC;
  fits_ltype : PB_LTYPE (type f) <> PB_LTYPE_EXTENSION;
  fits_ltypes : PB_LTYPE (type f) < PB_LTYPES_COUNT;
  fits_least : least_size (PB_LTYPE (type f)) <= data_size f;
  fits_data : 0 <= o /\ o + items f * data_size f <= size;
  fits_size : size_bytes f = 0 \/ 0 <= so /\ so + size_bytes f <= size;
  fits_sub : PB_LTYPE (type f) = PB_LTYPE_SUBMESSAGE ->
             ptr f <> NULL /\ table_ok n (desc (ptr f)) (data_size f) = true
}.

Section Table.
Context `{Env}.

Lemma field_ok_fits n size o so f :
  field_ok (table_ok n) size o so f = true -> field_fits n size o so f.
Proof.
  unfold field_ok. intros Hok.
  repeat match type of Hok with _ && _ = true => apply andb_true_iff in Hok as [Hok ?] end.
  constructor.
  - intros E. by rewrite E in Hok.
  - done.
  - by apply Z.eqb_eq.
  - intros E. rewrite E in *. done.
  - lia.
  - lia.
  - lia.
  - destruct (Z.eqb_spec (size_bytes f) 0); [by left|right; cbn in *; lia].
  - intros E. rewrite E in *. cbn in *.
    match goal with Hs : negb (ptr f =? NULL) && _ = true |- _ => apply andb_true_iff in Hs as [Hp Hs] end.
    split; [|done]. intros E'. by rewrite E' in Hp.
Qed.

Lemma table_ok_inv n fields size :
  table_ok n fields size = true ->
  exists n', n = S n' /\ (0 < List.length fields)%nat /\ Z.of_nat (List.length fields) < 2 ^ 32 /\
    NoDup (map tag fields) /\ tags_nonzero fields /\
    forall k, (k < List.length fields)%nat ->
      field_fits n' size (field_offset fields k) (size_place fields k) (field_at fields k).
Proof.
  destruct n as [|n']; [done|]. cbn [table_ok]. intros Hok.
  apply andb_true_iff in Hok as [Hok Hall]. apply andb_true_iff in Hok as [Hok Hdup].
  apply andb_true_iff in Hok as [Hne Hshort]. exists n'. split; [done|].
  assert (Hfit : forall k, (k < List.length fields)%nat ->
    field_fits n' size (field_offset fields k) (size_place fields k) (field_at fields k)).
  { intros k Hk. apply field_ok_fits. rewrite forallb_forall in Hall. apply Hall, in_seq. lia. }
  split; [destruct fields; cbn in *; [done|lia]|]. split; [lia|].
  split; [by apply bool_decide_eq_true in Hdup|]. split; [|done].
  apply List.Forall_forall. intros f Hin. apply (In_nth _ _ PB_LAST_FIELD) in Hin as (k & Hk & <-).
  exact (fits_tag _ _ _ _ _ (Hfit k Hk)).
Qed.

Lemma field_fits_mono (n n' : nat) size o so f :
  (forall fields size, table_ok n fields size = true -> table_ok n' fields size = true) ->
  field_fits n size o so f -> field_ok (table_ok n') size o so f = true.
Proof.
  intros Hsub [Ht Hr Hs Hl Hls Hle Hd Hsz Hm]. unfold field_ok. rewrite Hr, Hs.
  repeat match goal with |- (_ && _)%bool = true => apply andb_true_iff; split end; try done; try lia.
  destruct (Z.eqb_spec (PB_LTYPE (type f)) PB_LTYPE_SUBMESSAGE) as [E|]; [|done].
  destruct (Hm E) as [Hp Hok]. apply Hsub in Hok. rewrite Hok.
  cbn. rewrite andb_true_r. apply negb_true_iff, Z.eqb_neq, Hp.
Qed.

(** A deeper check accepts what a shallower one accepts. *)
Lemma table_ok_le n : forall n' fields size,
  (n <= n')%nat -> table_ok n fields size = true -> table_ok n' fields size = true.
Proof.
  induction n as [|n IH]; intros n' fields size Hle Hok; [done|].
  destruct n' as [|n']; [lia|].
  destruct (table_ok_inv _ _ _ Hok) as (? & [= <-] & Hne & Hshort & Hdup & _ & Hfits).
  cbn [table_ok].
  repeat match goal with |- (_ && _)%bool = true => apply andb_true_iff; split end; try lia.
  - by destruct (Nat.eqb_spec (List.length fields) 0); [lia|].
  - by apply bool_decide_eq_true.
  - apply forallb_forall. intros k Hk. apply in_seq in Hk. eapply field_fits_mono; [|apply Hfits; lia].
    intros. apply IH; [lia|done].
Qed.
End Table.

Lemma range_sizes f :
  field_in_range f = true -> 0 <= data_size f < 2 ^ 32 /\ 0 <= array_size f < 2 ^ 32.
Proof. unfold field_in_range. rewrite !andb_true_iff, !Z.leb_le, !Z.ltb_lt. lia. Qed.

(** ** Scalars *)

Section Scalars.
Context `{Env}.
Variables lo hi : Z.

Lemma safe_storeW a k v : inside lo hi a (Z.of_nat k) -> safe lo hi (liftW (storeW a k v)) any.
Proof. intros Hin. eapply safe_weaken; [by apply safe_liftW, safeW_store|done]. Qed.

Lemma inside_sub a n b k : inside lo hi a n -> a <= b -> b + k <= a + n -> inside lo hi b k.
Proof. unfold inside. lia. Qed.

Lemma safe_store_checked signed ds dest v :
  inside lo hi dest ds -> safe lo hi (store_checked signed ds dest v) any.
Proof.
  intros Hin. unfold store_checked. eapply (safe_bind _ _ _ _ any).
  - destruct (Z.eqb_spec ds 8) as [->|]; [eapply safe_bind; [by apply safe_storeW|]; intros; by apply safe_ret|].
    destruct (Z.eqb_spec ds 4) as [->|]; [eapply safe_bind; [by apply safe_storeW|]; intros; by apply safe_ret|].
    destruct (Z.eqb_spec ds 2) as [->|]; [eapply safe_bind; [by apply safe_storeW|]; intros; by apply safe_ret|].
    destruct (Z.eqb_spec ds 1) as [->|]; [eapply safe_bind; [by apply safe_storeW|]; intros; by apply safe_ret|].
    apply safe_error.
  - intros c n _ _. destruct (negb _); [apply safe_error|by apply safe_ret].
Qed.

(** A reader of at least one byte, then anything safe. *)
Lemma safe_read_then {A} (m : D A) (P : A -> Z -> Prop) (k : A -> D unit) :
  safe lo hi m P -> (forall a n, P a n -> 1 <= n) -> (forall a n, P a n -> safe lo hi (k a) any) ->
  safe lo hi (bind m k) (fun _ n => 1 <= n).
Proof.
  intros Hm Hpos Hk. eapply safe_bind; [exact Hm|]. intros a n HP _.
  eapply safe_weaken; [by eapply Hk|]. intros b n' _ Hn'. pose proof (Hpos a n HP). lia.
Qed.

Lemma safe_pb_dec_bool field dest :
  inside lo hi dest 1 -> safe lo hi (pb_dec_bool field dest) (fun _ n => 1 <= n).
Proof.
  intros Hin. eapply safe_read_then; [apply safe_pb_decode_varint32|intros a n [? _]; lia|].
  intros v n _. by apply safe_storeW.
Qed.

Lemma safe_pb_decode_svarint : safe lo hi pb_decode_svarint (fun _ n => 1 <= n).
Proof.
  unfold pb_decode_svarint. eapply safe_bind; [apply safe_pb_decode_varint|].
  cbv beta. intros v n Hn _.
  destruct (negb _); apply safe_ret; lia.
Qed.

Lemma safe_pb_dec_varint field dest :
  inside lo hi dest (data_size field) -> safe lo hi (pb_dec_varint field dest) (fun _ n => 1 <= n).
Proof.
  intros Hin. eapply safe_read_then; [apply safe_pb_decode_varint|done|].
  intros v n _. by apply safe_store_checked.
Qed.

Lemma safe_pb_dec_uvarint field dest :
  inside lo hi dest (data_size field) -> safe lo hi (pb_dec_uvarint field dest) (fun _ n => 1 <= n).
Proof.
  intros Hin. eapply safe_read_then; [apply safe_pb_decode_varint|done|].
  intros v n _. by apply safe_store_checked.
Qed.

Lemma safe_pb_dec_svarint field dest :
  inside lo hi dest (data_size field) -> safe lo hi (pb_dec_svarint field dest) (fun _ n => 1 <= n).
Proof.
  intros Hin. eapply safe_read_then; [apply safe_pb_decode_svarint|done|].
  intros v n _. by apply safe_store_checked.
Qed.

Lemma safe_pb_decode_fixed32 dest :
  inside lo hi dest 4 -> safe lo hi (pb_decode_fixed32 dest) (fun _ n => 1 <= n).
Proof.
  intros Hin. eapply safe_read_then; [by apply safe_pb_read|intros a n [-> _]; lia|].
  intros v n _. by apply safe_storeW.
Qed.

Lemma safe_pb_decode_fixed64 dest :
  inside lo hi dest 8 -> safe lo hi (pb_decode_fixed64 dest) (fun _ n => 1 <= n).
Proof.
  intros Hin. eapply safe_read_then; [by apply safe_pb_read|intros a n [-> _]; lia|].
  intros v n _. by apply safe_storeW.
Qed.

Lemma safe_pb_dec_bytes field dest :
  PB_ATYPE (type field) = PB_ATYPE_STATIC -> inside lo hi dest (data_size field) ->
  safe lo hi (pb_dec_bytes field dest) any.
Proof.
  intros Hat Hin. unfold pb_dec_bytes. eapply safe_bind; [apply safe_pb_decode_varint32|].
  intros v n [_ Hv] _. unfold PB_SIZE_MAX, PB_BYTES_ARRAY_T_ALLOCSIZE, pb_bytes_array_bytes.
  assert (Hu : u64 (v + 4) = v + 4) by (unfold uwrap; rewrite Z.mod_small; lia). rewrite Hu, Hat.
  destruct (_ <? v); [apply safe_error|]. destruct (_ <? _); [apply safe_error|].
  change (PB_ATYPE_STATIC =? PB_ATYPE_POINTER) with false. cbv iota.
  eapply (safe_bind _ _ _ _ (fun b n => b = dest /\ v + 4 <= data_size field)).
  - destruct (Z.ltb_spec (data_size field) (v + 4)); [apply safe_error|]. by apply safe_ret.
  - intros b k [-> Hfit] _. eapply safe_bind.
    + apply safe_storeW. eapply inside_sub; [exact Hin|lia|]. change (Z.of_nat sizeof_pb_size) with 4. lia.
    + intros _ k' _ _. eapply safe_bind; [apply safe_pb_read; [lia|]|intros; by apply safe_ret].
      eapply inside_sub; [exact Hin|lia|lia].
Qed.

Lemma safe_pb_dec_string field dest :
  PB_ATYPE (type field) = PB_ATYPE_STATIC -> inside lo hi dest (data_size field) ->
  safe lo hi (pb_dec_string field dest) any.
Proof.
  intros Hat Hin. unfold pb_dec_string. eapply safe_bind; [apply safe_pb_decode_varint32|].
  intros v n [_ Hv] _. rewrite Hat. cbv zeta.
  destruct (Z.ltb_spec (u32 (v + 1)) v) as [|Hle]; [apply safe_error|].
  assert (Hu : u32 (v + 1) = v + 1).
  { unfold uwrap in *. zlia. }
  rewrite Hu. change (PB_ATYPE_STATIC =? PB_ATYPE_POINTER) with false. cbv iota.
  eapply (safe_bind _ _ _ _ (fun b n => b = dest /\ v + 1 <= data_size field)).
  - destruct (Z.ltb_spec (data_size field) (v + 1)); [apply safe_error|]. by apply safe_ret.
  - intros b k [-> Hfit] _. eapply safe_bind.
    + apply safe_attempt, safe_pb_read; [lia|]. eapply inside_sub; [exact Hin|lia|lia].
    + intros status k' _ _. eapply safe_bind.
      * apply safe_storeW. eapply inside_sub; [exact Hin|lia|]. cbn. lia.
      * intros. destruct status; [by apply safe_ret|apply safe_fail].
Qed.

Lemma safe_pb_dec_fixed_length_bytes field dest :
  0 <= data_size field -> inside lo hi dest (data_size field) ->
  safe lo hi (pb_dec_fixed_length_bytes field dest) any.
Proof.
  intros Hds Hin. unfold pb_dec_fixed_length_bytes.
  eapply safe_bind; [apply safe_pb_decode_varint32|]. intros v n [_ Hv] _.
  destruct (_ <? v); [apply safe_error|]. destruct (v =? 0).
  - eapply safe_weaken; [by apply safe_liftW, safeW_memzero|done].
  - destruct (negb _); [apply safe_error|].
    eapply safe_bind; [by apply safe_pb_read|]. intros. by apply safe_ret.
Qed.
End Scalars.

(** ** Defaults and release *)

Section Defaults.
Context `{Env}.

(** A loop over the fields of a table. *)
Lemma safeW_for_fields n fields size dest lo hi (step : pb_field_iter_t -> W unit) :
  table_ok n fields size = true ->
  (forall k iter, on_field fields dest k iter -> iter = iter_nth fields dest k ->
     safeW lo hi (step iter) (fun _ => True)) ->
  safeW lo hi (for_fields step fields dest) (fun _ => True).
Proof.
  intros Hok Hstep. destruct (table_ok_inv n fields size Hok) as (n' & -> & Hne & Hshort & _ & Hnz & _).
  unfold for_fields.
  assert (Hb : pb_field_iter_begin fields dest = (true, iter_nth fields dest 0)).
  { cbn [iter_nth]. unfold pb_field_iter_begin. cbn [snd].
    pose proof (field_at_tag fields Hnz 0 Hne). by destruct (Z.eqb_spec (tag (field_at fields 0)) 0). }
  rewrite Hb.
  apply (safeW_loop lo hi _ (fun iter => exists k, on_field fields dest k iter /\ iter = iter_nth fields dest k)
    (fun iter => Z.of_nat (List.length fields) - Z.of_nat (pos iter))).
  - intros iter (k & Hon & Ei). destruct (on_field_start fields dest Hnz Hshort k iter Hon) as (_ & Hp & _).
    pose proof Hon as [Hk _]. rewrite Hp. split; [lia|].
    eapply safeW_bind; [by eapply Hstep|]. intros _ _.
    destruct (Nat.eqb_spec (S k) (List.length fields)).
    + rewrite (on_field_wrap fields dest Hnz Hshort k iter Hon) by done. by apply safeW_ret.
    + rewrite (on_field_next fields dest Hnz Hshort k iter Hon) by lia. apply safeW_ret.
      pose proof (on_field_nth fields dest (S k) ltac:(lia)) as Hon'.
      destruct (on_field_start fields dest Hnz Hshort _ _ Hon') as (_ & -> & _).
      split; [by exists (S k)|lia].
  - exists O. split; [by apply on_field_nth|done].
Qed.

Lemma item_count_pos f : field_in_range f = true -> 0 <= items f.
Proof. intros Hr. destruct (range_sizes f Hr). unfold items. destruct (_ =? _); lia. Qed.

(** The whole field, or its only item. *)
Lemma fits_inside n size o so f dest lo hi :
  field_fits n size o so f -> inside lo hi dest size ->
  PB_HTYPE (type f) <> PB_HTYPE_REPEATED -> inside lo hi (dest + o) (data_size f).
Proof.
  intros Hf [Hlo Hhi] Hh. pose proof (fits_data _ _ _ _ _ Hf) as [Ho Hs]. unfold items in Hs.
  destruct (Z.eqb_spec (PB_HTYPE (type f)) PB_HTYPE_REPEATED); [done|]. unfold inside. lia.
Qed.

Lemma fits_size_inside n size o so f dest lo hi k :
  field_fits n size o so f -> inside lo hi dest size -> 0 < k <= size_bytes f ->
  inside lo hi (dest + so) k.
Proof.
  intros Hf [Hlo Hhi] Hk. destruct (fits_size _ _ _ _ _ Hf) as [|[? ?]]; [lia|]. unfold inside. lia.
Qed.

Lemma size_bytes_htype f h :
  PB_HTYPE (type f) = h -> h = PB_HTYPE_REPEATED \/ h = PB_HTYPE_ONEOF -> size_bytes f = 4.
Proof. unfold size_bytes. intros ->. by intros [->| ->]. Qed.

Lemma size_place_plain fields k :
  PB_HTYPE (type (field_at fields k)) <> PB_HTYPE_ONEOF ->
  size_place fields k = field_offset fields k + size_offset (field_at fields k).
Proof.
  intros Hh. destruct k as [|k]; [done|]. cbn [size_place].
  destruct (same_union _ _) eqn:Hu; [|done]. unfold same_union in Hu.
  apply andb_true_iff in Hu as [Hu _]. apply andb_true_iff in Hu as [_ Hu]. by apply Z.eqb_eq in Hu.
Qed.

(** What the check says of the field an iterator points at. *)
Lemma on_field_fits n fields size dest k iter :
  table_ok (S n) fields size = true -> on_field fields dest k iter -> iter = iter_nth fields dest k ->
  cur iter = field_at fields k /\ pData iter = dest + field_offset fields k /\
  pSize iter = InMem (dest + size_place fields k) /\
  field_fits n size (field_offset fields k) (size_place fields k) (field_at fields k).
Proof.
  intros Hok Hon Ei. destruct (table_ok_inv _ _ _ Hok) as (n' & [= <-] & Hne & Hshort & _ & Hnz & Hfits).
  pose proof Hon as [Hk _]. split; [by eapply on_field_cur|]. split; [by eapply on_field_data|].
  split; [|by apply Hfits]. subst iter.
  by destruct (iter_nth_at fields dest Hnz k Hk Hshort) as (_ & _ & _ & _ & _ & ->).
Qed.

(** An optional field without a flag of its own. *)
Lemma optional_size n fields size dest k iter :
  table_ok (S n) fields size = true -> on_field fields dest k iter -> iter = iter_nth fields dest k ->
  PB_HTYPE (type (field_at fields k)) = PB_HTYPE_OPTIONAL -> size_at_data iter = false ->
  size_bytes (field_at fields k) = 1.
Proof.
  intros Hok Hon Ei Hh. destruct (on_field_fits _ _ _ _ _ _ Hok Hon Ei) as (_ & Hd & Hs & _).
  unfold size_at_data, size_bytes. rewrite Hs, Hd, Hh, size_place_plain by (by rewrite Hh).
  cbn. destruct (Z.eqb_spec (size_offset (field_at fields k)) 0) as [->|]; [|done].
  rewrite Z.add_0_r, Z.eqb_refl. done.
Qed.

Lemma safeW_set_to_default n : forall fields size dest lo hi k iter,
  table_ok n fields size = true -> inside lo hi dest size ->
  on_field fields dest k iter -> iter = iter_nth fields dest k ->
  safeW lo hi (pb_field_set_to_default n iter) (fun _ => True).
Proof.
  induction n as [|n IH]; intros fields size dest lo hi k iter Hok Hin Hon Ei; [done|].
  destruct (on_field_fits _ _ _ _ _ _ Hok Hon Ei) as (Hcur & Hdata & Hsize & Hf).
  pose proof (optional_size _ _ _ _ _ _ Hok Hon Ei) as Hopt.
  destruct (range_sizes _ (fits_range _ _ _ _ _ Hf)) as [Hds Has].
  cbn [pb_field_set_to_default]. unfold field_set_to_default_body. rewrite Hcur, Hdata, Hsize.
  remember (field_at fields k) as f eqn:Ef. cbv zeta.
  destruct (Z.eqb_spec (PB_LTYPE (type f)) PB_LTYPE_EXTENSION); [by destruct (fits_ltype _ _ _ _ _ Hf)|].
  rewrite (fits_static _ _ _ _ _ Hf). change (PB_ATYPE_STATIC =? PB_ATYPE_STATIC) with true. cbv iota.
  eapply (safeW_bind _ _ _ _ (fun init => init = true -> PB_HTYPE (type f) <> PB_HTYPE_REPEATED)).
  - destruct (Z.eqb_spec (PB_HTYPE (type f)) PB_HTYPE_OPTIONAL) as [Ho|Ho]; cbn [andb].
    + rewrite Ho. destruct (size_at_data iter); cbn [negb]; [by apply safeW_ret|].
      eapply safeW_bind; [by apply (safeW_ret _ _ _ (fun a => a = dest + size_place fields k))|].
      intros a ->. eapply safeW_bind; [|intros; by apply safeW_ret].
      apply safeW_store. eapply fits_size_inside; [done|done|]. rewrite Hopt by done. lia.
    + destruct (_ || _) eqn:Hro.
      * eapply safeW_bind; [by apply (safeW_ret _ _ _ (fun a => a = dest + size_place fields k))|].
        intros a ->. eapply safeW_bind; [|intros; by apply safeW_ret].
        apply safeW_store. eapply fits_size_inside; [done|done|].
        rewrite (size_bytes_htype f _ eq_refl); [by cbn|]. apply orb_true_iff in Hro. lia.
      * apply safeW_ret. intros _ E. rewrite E in Hro. done.
  - intros [|] Hinit; [|by apply safeW_ret]. specialize (Hinit eq_refl).
    pose proof (fits_inside _ _ _ _ _ _ _ _ Hf Hin Hinit) as Hplace.
    destruct (Z.eqb_spec (PB_LTYPE (type f)) PB_LTYPE_SUBMESSAGE) as [Esub|].
    + destruct (fits_sub _ _ _ _ _ Hf Esub) as [_ Hsub]. eapply safeW_for_fields; [exact Hsub|].
      intros. by eapply IH.
    + destruct (negb _); [apply safeW_memcpy|apply safeW_memzero]; done || lia.
Qed.

Lemma safeW_message_defaults n fields size dest lo hi :
  table_ok n fields size = true -> inside lo hi dest size ->
  safeW lo hi (pb_message_set_to_defaults n fields dest) (fun _ => True).
Proof.
  intros Hok Hin. eapply safeW_for_fields; [exact Hok|]. intros. by eapply safeW_set_to_default.
Qed.

Lemma safeW_release_field n : forall fields size dest lo hi k iter,
  table_ok n fields size = true ->
  on_field fields dest k iter -> iter = iter_nth fields dest k ->
  safeW lo hi (pb_release_single_field n iter) (fun _ => True).
Proof.
  induction n as [|n IH]; intros fields size dest lo hi k iter Hok Hon Ei; [done|].
  destruct (on_field_fits _ _ _ _ _ _ Hok Hon Ei) as (Hcur & Hdata & Hsize & Hf).
  destruct (range_sizes _ (fits_range _ _ _ _ _ Hf)) as [Hds Has].
  cbn [pb_release_single_field]. unfold release_single_field_body. rewrite Hcur, Hdata, Hsize.
  remember (field_at fields k) as f eqn:Ef. cbv zeta.
  destruct (Z.eqb_spec (PB_LTYPE (type f)) PB_LTYPE_EXTENSION); [by destruct (fits_ltype _ _ _ _ _ Hf)|].
  rewrite (fits_static _ _ _ _ _ Hf).
  change (PB_ATYPE_STATIC =? PB_ATYPE_POINTER) with false.
  change (PB_ATYPE_STATIC =? PB_ATYPE_CALLBACK) with false. cbv iota. cbn [negb].
  eapply (safeW_bind _ _ _ _ (fun _ => True)).
  { destruct (_ =? _); [|by apply safeW_ret]. eapply safeW_bind; [by apply (safeW_ret _ _ _ (fun _ => True))|].
    intros a _. eapply safeW_bind; [apply safeW_load|]. intros. by apply safeW_ret. }
  intros [|] _; cbn [negb]; [|by apply safeW_ret].
  eapply (safeW_bind _ _ _ _ (fun _ => True)); [|intros; by apply safeW_ret].
  rewrite andb_true_r. destruct (Z.eqb_spec (PB_LTYPE (type f)) PB_LTYPE_SUBMESSAGE) as [Esub|]; [|by apply safeW_ret].
  destruct (fits_sub _ _ _ _ _ Hf Esub) as [_ Hsub].
  eapply safeW_bind; [by apply (safeW_ret _ _ _ (fun _ => True))|]. intros p _.
  eapply (safeW_bind _ _ _ _ (fun c => 0 <= c < 2 ^ 32)).
  { destruct (_ =? PB_HTYPE_REPEATED); [|apply safeW_ret; lia].
    eapply (safeW_bind _ _ _ _ (fun c => 0 <= c < 2 ^ 32)).
    - destruct (_ && _); [by apply safeW_ret|].
      eapply safeW_bind; [by apply (safeW_ret _ _ _ (fun _ => True))|]. intros a _.
      eapply safeW_mono; [apply safeW_load|apply Z.le_refl..|done].
    - intros c Hc. apply safeW_ret. by destruct (_ && _). }
  intros c Hc. destruct (p =? NULL); [by apply safeW_ret|].
  apply (safeW_loop _ _ _ (fun l => 0 <= fst l < 2 ^ 32) fst); [|exact Hc].
  intros [c' p'] Hc'. cbn [fst] in *. split; [lia|]. destruct (Z.eqb_spec c' 0); [by apply safeW_ret|].
  eapply (safeW_bind _ _ _ _ (fun _ => True)).
  - unfold pb_release_with. destruct (_ =? _); [by apply safeW_ret|].
    eapply safeW_for_fields; [exact Hsub|]. intros. by eapply IH.
  - intros _ _. apply safeW_ret. cbn [fst]. lia.
Qed.

Lemma safeW_release n fields size dest lo hi :
  table_ok n fields size = true -> safeW lo hi (pb_release n fields dest) (fun _ => True).
Proof.
  intros Hok. unfold pb_release, pb_release_with. destruct (_ =? _); [by apply safeW_ret|].
  eapply safeW_for_fields; [exact Hok|]. intros. by eapply safeW_release_field.
Qed.
End Defaults.

(** ** One field *)

Section FoundUnique.
Variables (fields : list pb_field_t).
Hypothesis nodup : NoDup (map tag fields).

Lemma tag_inj i j :
  (i < List.length fields)%nat -> (j < List.length fields)%nat ->
  tag (field_at fields i) = tag (field_at fields j) -> i = j.
Proof.
  intros Hi Hj Ht. unfold field_at in Ht. rewrite <- !(map_nth tag) in Ht.
  apply NoDup_ListNoDup in nodup.
  apply (proj1 (List.NoDup_nth (map tag fields) (tag PB_LAST_FIELD)) nodup); rewrite ?length_map; done.
Qed.

Lemma in_around j k n : (j < n)%nat -> (k <= n)%nat -> In j (around k n).
Proof.
  intros Hj Hk. unfold around. apply in_app_iff. rewrite !in_seq. lia.
Qed.

(** A field is found from everywhere by its tag. *)
Lemma found_unique j k :
  (j < List.length fields)%nat -> (k < List.length fields)%nat ->
  PB_LTYPE (type (field_at fields k)) <> PB_LTYPE_EXTENSION ->
  found_from fields j (tag (field_at fields k)) = (true, k).
Proof.
  intros Hj Hk Hext. unfold found_from.
  assert (Hm : matches (tag (field_at fields k)) (field_at fields k) = true).
  { unfold matches. rewrite Z.eqb_refl. by destruct (Z.eqb_spec (PB_LTYPE (type (field_at fields k))) PB_LTYPE_EXTENSION). }
  destruct (List.find _ _) as [i|] eqn:Ef.
  - apply find_some in Ef as [Hin Hi]. unfold around in Hin. rewrite in_app_iff, !in_seq in Hin.
    apply andb_true_iff in Hi as [Hi _]. apply Z.eqb_eq in Hi.
    by rewrite (tag_inj i k) by (lia || done).
  - pose proof (find_none _ _ Ef k (in_around k j _ Hk ltac:(lia))) as Hnone. congruence.
Qed.
End FoundUnique.

(** *** Sizes *)

Section Sizes.
Context `{Env}.

Definition size_inside (lo hi : Z) (p : size_ptr) : Prop :=
  match p with InMem a => inside lo hi a 4 | FixedCountSize => True end.

Lemma safe_read_size lo hi p : safe lo hi (read_size p) (fun v k => 0 <= v < 2 ^ 32 /\ k = 0).
Proof.
  destruct p as [a|]; cbn [read_size].
  - eapply safe_weaken; [apply safe_liftW, safeW_load|]. done.
  - intros s Hs. apply wp_gets. split; [by apply evolves_refl|]. split; [apply Hs|unfold consumed; lia].
Qed.

Lemma safe_write_size lo hi p v : size_inside lo hi p -> safe lo hi (write_size p v) any.
Proof.
  destruct p as [a|]; cbn [write_size size_inside]; intros Hin.
  - by apply safe_storeW.
  - apply safe_set_count; [|done]. apply uwrap_range. lia.
Qed.

End Sizes.

Section Level.
Context `{Env}.
Variables (m n : nat) (decode : list pb_field_t -> Z -> D unit).

(** The level below is safe; [m] bounds its nesting, [n] is its fuel. *)
Hypothesis shallow : (m <= n)%nat.
Hypothesis safe_decode : forall fields size dest lo hi,
  table_ok m fields size = true -> inside lo hi dest size -> safe lo hi (decode fields dest) any.

Lemma safe_pb_decode_with fields size dest lo hi :
  table_ok m fields size = true -> inside lo hi dest size ->
  safe lo hi (pb_decode_with n decode fields dest) any.
Proof.
  intros Hok Hin. unfold pb_decode_with.
  eapply safe_bind; [eapply safe_liftW, safeW_message_defaults; [by eapply table_ok_le|done]|]. intros _ k _ _.
  eapply safe_bind; [by eapply safe_attempt, safe_decode|]. intros [?|] k' _ _; [by apply safe_ret|].
  eapply safe_bind; [eapply safe_liftW, safeW_release; by eapply table_ok_le|]. intros. apply safe_fail.
Qed.

Lemma safe_pb_dec_submessage field dest lo hi :
  table_ok m (desc (ptr field)) (data_size field) = true -> inside lo hi dest (data_size field) ->
  safe lo hi (pb_dec_submessage n decode field dest) any.
Proof.
  intros Hok Hin. unfold pb_dec_submessage.
  eapply safe_bind; [apply safe_pb_make_string_substream|]. intros sub k [Hsub _] _.
  destruct (_ =? _); [apply safe_error|].
  eapply safe_bind.
  { apply safe_on_substream; [exact Hsub|]. instantiate (1 := any).
    destruct (_ =? _); [by eapply safe_pb_decode_with|by eapply safe_decode]. }
  intros [status sub'] k' (_ & Hsub' & _) _.
  eapply safe_bind; [by apply safe_pb_close_string_substream|]. intros.
  destruct status; [by apply safe_ret|apply safe_fail].
Qed.

Lemma safe_decoders size o so f dest lo hi :
  field_fits m size o so f -> inside lo hi dest (data_size f) ->
  safe lo hi (PB_DECODERS n decode (PB_LTYPE (type f)) f dest)
    (fun _ k => PB_LTYPE (type f) <= PB_LTYPE_LAST_PACKABLE -> 1 <= k).
Proof.
  intros Hf Hin. pose proof (fits_least _ _ _ _ _ Hf) as Hleast. unfold least_size in Hleast.
  pose proof (fits_static _ _ _ _ _ Hf) as Hstatic.
  destruct (range_sizes _ (fits_range _ _ _ _ _ Hf)) as [Hds _].
  unfold PB_DECODERS, PB_LTYPE_LAST_PACKABLE.
  destruct (Z.eqb_spec (PB_LTYPE (type f)) PB_LTYPE_BOOL) as [E|N0].
  { rewrite E in *. eapply safe_weaken; [apply safe_pb_dec_bool|done]. eapply inside_sub; [exact Hin|lia|cbn in Hleast; lia]. }
  destruct (Z.eqb_spec (PB_LTYPE (type f)) PB_LTYPE_VARINT) as [E|N1].
  { eapply safe_weaken; [by apply safe_pb_dec_varint|done]. }
  destruct (Z.eqb_spec (PB_LTYPE (type f)) PB_LTYPE_UVARINT) as [E|N2].
  { eapply safe_weaken; [by apply safe_pb_dec_uvarint|done]. }
  destruct (Z.eqb_spec (PB_LTYPE (type f)) PB_LTYPE_SVARINT) as [E|N3].
  { eapply safe_weaken; [by apply safe_pb_dec_svarint|done]. }
  destruct (Z.eqb_spec (PB_LTYPE (type f)) PB_LTYPE_FIXED32) as [E|N4].
  { rewrite E in *. eapply safe_weaken; [apply safe_pb_decode_fixed32|done]. eapply inside_sub; [exact Hin|lia|cbn in Hleast; lia]. }
  destruct (Z.eqb_spec (PB_LTYPE (type f)) PB_LTYPE_FIXED64) as [E|N5].
  { rewrite E in *. eapply safe_weaken; [apply safe_pb_decode_fixed64|done]. eapply inside_sub; [exact Hin|lia|cbn in Hleast; lia]. }
  destruct (Z.eqb_spec (PB_LTYPE (type f)) PB_LTYPE_BYTES) as [E|N6].
  { rewrite E. eapply safe_weaken; [by apply safe_pb_dec_bytes|]. intros _ k _ _. by cbn. }
  destruct (Z.eqb_spec (PB_LTYPE (type f)) PB_LTYPE_STRING) as [E|N7].
  { rewrite E. eapply safe_weaken; [by apply safe_pb_dec_string|]. intros _ k _ _. by cbn. }
  destruct (Z.eqb_spec (PB_LTYPE (type f)) PB_LTYPE_SUBMESSAGE) as [E|N8].
  { rewrite E. eapply safe_weaken; [|intros _ k _ _; by cbn].
    destruct (fits_sub _ _ _ _ _ Hf E). by apply safe_pb_dec_submessage. }
  destruct (Z.eqb_spec (PB_LTYPE (type f)) PB_LTYPE_FIXED_LENGTH_BYTES) as [E|N10].
  { rewrite E. eapply safe_weaken; [by apply safe_pb_dec_fixed_length_bytes|]. intros _ k _ _. by cbn. }
  exfalso. pose proof (fits_ltype _ _ _ _ _ Hf) as N9. pose proof (fits_ltypes _ _ _ _ _ Hf) as Hlt.
  assert (0 <= PB_LTYPE (type f)) by (apply Z.land_nonneg; right; done).
  unfold PB_LTYPE_BOOL, PB_LTYPE_VARINT, PB_LTYPE_UVARINT, PB_LTYPE_SVARINT, PB_LTYPE_FIXED32,
    PB_LTYPE_FIXED64, PB_LTYPE_BYTES, PB_LTYPE_STRING, PB_LTYPE_SUBMESSAGE, PB_LTYPE_EXTENSION,
    PB_LTYPE_FIXED_LENGTH_BYTES, PB_LTYPES_COUNT in *. lia.
Qed.

(** An iterator at a field of a checked table, wherever its size is. *)
Record at_field (lo hi o so : Z) (f : pb_field_t) (size base : Z) (iter : pb_field_iter_t) : Prop := {
  at_cur : cur iter = f;
  at_data : pData iter = base + o;
  at_size : pSize iter = InMem (base + so) \/
            PB_HTYPE (type f) = PB_HTYPE_REPEATED /\ pSize iter = FixedCountSize;
  at_fits : field_fits m size o so f;
  at_inside : inside lo hi base size;
  at_optional : PB_HTYPE (type f) = PB_HTYPE_OPTIONAL -> size_at_data iter = false -> size_bytes f = 1
}.

Lemma at_size_inside lo hi o so f size base iter :
  at_field lo hi o so f size base iter ->
  PB_HTYPE (type f) = PB_HTYPE_REPEATED \/ PB_HTYPE (type f) = PB_HTYPE_ONEOF ->
  size_inside lo hi (pSize iter).
Proof.
  intros Ha Hh. destruct (at_size _ _ _ _ _ _ _ _ Ha) as [-> | [_ ->]]; [|done].
  eapply fits_size_inside; [apply (at_fits _ _ _ _ _ _ _ _ Ha)|apply (at_inside _ _ _ _ _ _ _ _ Ha)|].
  rewrite (size_bytes_htype f _ eq_refl Hh). lia.
Qed.

(** The [size]-th item of a repeated field. *)
Lemma item_inside lo hi o so f size base iter i :
  at_field lo hi o so f size base iter -> PB_HTYPE (type f) = PB_HTYPE_REPEATED ->
  0 <= i < array_size f -> inside lo hi (pData iter + item_offset f i) (data_size f).
Proof.
  intros Ha Hh Hi. rewrite (at_data _ _ _ _ _ _ _ _ Ha).
  pose proof (at_fits _ _ _ _ _ _ _ _ Ha) as Hf. pose proof (fits_data _ _ _ _ _ Hf) as [Ho Hs].
  destruct (range_sizes _ (fits_range _ _ _ _ _ Hf)) as [Hds _].
  destruct (at_inside _ _ _ _ _ _ _ _ Ha) as [Hlo Hhi]. unfold items in Hs. rewrite Hh in Hs.
  change (PB_HTYPE_REPEATED =? PB_HTYPE_REPEATED) with true in Hs. cbv iota in Hs.
  unfold item_offset, inside.
  assert (0 <= u32 (data_size f * i) <= data_size f * i).
  { unfold uwrap. split; [apply Z.mod_pos_bound; lia|apply Z.mod_le; nia]. }
  nia.
Qed.

Lemma safe_decode_packed_items lo hi o so f size base iter :
  at_field lo hi o so f size base iter -> PB_HTYPE (type f) = PB_HTYPE_REPEATED ->
  PB_LTYPE (type f) <= PB_LTYPE_LAST_PACKABLE -> safe lo hi (decode_packed_items n decode iter) any.
Proof.
  intros Ha Hh Hlt. unfold decode_packed_items. rewrite (at_cur _ _ _ _ _ _ _ _ Ha).
  apply (safe_loop _ _ _ (fun _ => True)); [|done]. intros [] _. apply safe_get_any. intros s _.
  eapply safe_bind; [apply safe_read_size|]. intros i k [Hi ->] _.
  destruct (_ && _) eqn:Hmore; [|by apply safe_ret].
  eapply safe_bind.
  { eapply safe_attempt, safe_decoders; [by apply (at_fits _ _ _ _ _ _ _ _ Ha)|].
    eapply item_inside; [done|done|lia]. }
  intros [?|] k' Hk' _; [|by apply safe_ret]. specialize (Hk' Hlt).
  eapply safe_bind; [apply safe_read_size|]. intros i' k'' [Hi' ->] _.
  eapply safe_bind; [eapply safe_write_size, at_size_inside; [done|by left]|]. intros _ k3 _ Hk3.
  apply safe_ret. split; [done|lia].
Qed.

Lemma safe_decode_static_field wire_type lo hi o so f size base iter :
  at_field lo hi o so f size base iter -> safe lo hi (decode_static_field n decode wire_type iter) any.
Proof.
  intros Ha. pose proof (at_fits _ _ _ _ _ _ _ _ Ha) as Hf. pose proof (at_inside _ _ _ _ _ _ _ _ Ha) as Hin.
  assert (Hfunc : forall p, inside lo hi p (data_size f) ->
    safe lo hi (PB_DECODERS n decode (PB_LTYPE (type f)) f p) any).
  { intros p Hp. eapply safe_weaken; [by eapply safe_decoders|done]. }
  assert (Hplace : PB_HTYPE (type f) <> PB_HTYPE_REPEATED -> inside lo hi (pData iter) (data_size f)).
  { intros Hh. rewrite (at_data _ _ _ _ _ _ _ _ Ha). by eapply fits_inside. }
  unfold decode_static_field. rewrite (at_cur _ _ _ _ _ _ _ _ Ha). cbv zeta.
  destruct (Z.eqb_spec (PB_HTYPE (type f)) PB_HTYPE_REQUIRED) as [E|Nreq].
  { apply Hfunc, Hplace. by rewrite E. }
  destruct (Z.eqb_spec (PB_HTYPE (type f)) PB_HTYPE_OPTIONAL) as [E|Nopt].
  { eapply (safe_bind _ _ _ _ any); [|intros; apply Hfunc, Hplace; by rewrite E].
    destruct (size_at_data iter) eqn:Ed; [by apply safe_ret|].
    pose proof (at_optional _ _ _ _ _ _ _ _ Ha E Ed) as Hone.
    destruct (at_size _ _ _ _ _ _ _ _ Ha) as [-> | [E' _]]; [|by rewrite E in E'].
    eapply safe_bind.
    - apply safe_liftW. by apply (safeW_ret _ _ _ (fun a => a = base + so)).
    - intros a k [-> _] _. apply safe_storeW. eapply fits_size_inside; [done|done|]. rewrite Hone. cbn. lia. }
  destruct (Z.eqb_spec (PB_HTYPE (type f)) PB_HTYPE_REPEATED) as [E|Nrep].
  { destruct (_ && _) eqn:Epacked.
    - apply andb_true_iff in Epacked as [_ Hlt].
      eapply safe_bind; [apply safe_pb_make_string_substream|]. intros sub k [Hsub _] _.
      eapply safe_bind; [apply safe_on_substream; [exact Hsub|eapply safe_decode_packed_items; [done|done|lia]]|].
      intros [status sub'] k' (_ & Hsub' & _) _. destruct (negb _); [apply safe_error|].
      eapply safe_bind; [by apply safe_pb_close_string_substream|]. intros.
      destruct status as [[|]|]; [by apply safe_ret|apply safe_fail..].
    - eapply safe_bind; [apply safe_read_size|]. intros i k [Hi _] _. cbv zeta.
      eapply safe_bind; [eapply safe_write_size, at_size_inside; [done|by left]|]. intros _ k' _ _.
      destruct (Z.leb_spec (array_size f) i); [apply safe_error|].
      apply Hfunc. eapply item_inside; [done|done|lia]. }
  assert (Hone : PB_HTYPE (type f) = PB_HTYPE_ONEOF).
  { destruct (PB_HTYPE_cases (type f)) as [|[|[|]]]; done. }
  eapply safe_bind; [eapply safe_write_size, at_size_inside; [done|by right]|]. intros _ k _ _.
  eapply (safe_bind _ _ _ _ any); [|intros; by apply Hfunc, Hplace].
  destruct (Z.eqb_spec (PB_LTYPE (type f)) PB_LTYPE_SUBMESSAGE) as [Esub|]; [|by apply safe_ret].
  destruct (fits_sub _ _ _ _ _ Hf Esub) as [_ Hsub].
  destruct (range_sizes _ (fits_range _ _ _ _ _ Hf)) as [Hds _].
  eapply safe_bind; [apply safe_liftW, safeW_memzero; [lia|by apply Hplace]|]. intros _ k' _ _.
  eapply safe_weaken; [eapply safe_liftW, safeW_message_defaults; [by eapply table_ok_le|by apply Hplace]|done].
Qed.
End Level.

(** ** A message *)

Section Message.
Context `{Env}.
Variables (m n : nat) (decode : list pb_field_t -> Z -> D unit).
Hypothesis deep : (S m <= n)%nat.
Hypothesis safe_decode : forall fields size dest lo hi,
  table_ok m fields size = true -> inside lo hi dest size -> safe lo hi (decode fields dest) any.

Variables (fields : list pb_field_t) (size dest lo hi : Z).
Hypothesis ok : table_ok (S m) fields size = true.
Hypothesis here : inside lo hi dest size.

Lemma on_field_at k iter :
  on_field fields dest k iter ->
  at_field m lo hi (field_offset fields k) (size_place fields k) (field_at fields k) size dest iter.
Proof.
  intros Hon. destruct (table_ok_inv _ _ _ ok) as (n' & [= <-] & Hne & Hshort & _ & Hnz & Hfits).
  pose proof Hon as [Hk Hi]. destruct (iter_nth_at fields dest Hnz k Hk Hshort) as (_ & _ & _ & _ & _ & Hs).
  constructor.
  - by eapply on_field_cur.
  - by eapply on_field_data.
  - destruct Hi as [-> | [Hrep ->]]; [by left|by right].
  - by apply Hfits.
  - done.
  - intros Hopt. destruct Hi as [Hi|[Hrep _]]; [by eapply optional_size|]. by rewrite Hopt in Hrep.
Qed.

Lemma found_from_lt k t b j :
  (k < List.length fields)%nat -> found_from fields k t = (b, j) -> (j < List.length fields)%nat.
Proof.
  unfold found_from. intros Hk. destruct (List.find _ _) as [i|] eqn:Ef; intros [= <- <-]; [|done].
  apply find_some in Ef as [Hin _]. unfold around in Hin. rewrite in_app_iff, !in_seq in Hin. lia.
Qed.

(** A search from a field ends at a field. *)
Lemma find_ends k iter t :
  on_field fields dest k iter ->
  exists b j iter', pb_field_iter_find iter t = Some (b, iter') /\ on_field fields dest j iter' /\
    (b = true -> found_from fields k t = (true, j)) /\
    (iter = iter_nth fields dest k -> iter' = iter_nth fields dest j).
Proof.
  intros Hon. destruct (table_ok_inv _ _ _ ok) as (n' & _ & _ & Hshort & _ & Hnz & _).
  rewrite (find_on_field fields dest Hnz Hshort t k iter Hon).
  destruct (found_from fields k t) as [b j] eqn:Ef. pose proof Hon as [Hk _].
  pose proof (found_from_lt k t b j Hk Ef) as Hj.
  exists b, j. destruct (b && Nat.eqb j k) eqn:E.
  - apply andb_true_iff in E as [-> Ejk]. apply Nat.eqb_eq in Ejk as ->. by exists iter.
  - exists (iter_nth fields dest j). split; [done|]. split; [by apply on_field_nth|].
    split; [by intros ->|done].
Qed.

(** The oneof members are released through the old one, found by its tag. *)
Lemma safe_release_union k iter :
  on_field fields dest k iter -> PB_HTYPE (type (field_at fields k)) = PB_HTYPE_ONEOF ->
  safe lo hi (pb_release_union_field n iter) (fun i _ => on_field fields dest k i).
Proof.
  intros Hon Hone. pose proof (on_field_at k iter Hon) as Ha.
  destruct (table_ok_inv _ _ _ ok) as (m' & [= <-] & Hne & Hshort & Hdup & Hnz & Hfits).
  pose proof Hon as [Hk [Ei|[Hrep _]]]; [|by rewrite Hone in Hrep].
  unfold pb_release_union_field. rewrite (on_field_cur fields dest Hnz Hshort k iter Hon).
  eapply safe_bind; [apply safe_read_size|]. intros old c [Hold _] _. cbv zeta.
  destruct (old =? 0); [by apply safe_ret|]. destruct (old =? _); [by apply safe_ret|].
  destruct (find_ends k iter old Hon) as (b & j & iter' & -> & Hon' & _ & Hcan). specialize (Hcan Ei).
  destruct b; [|apply safe_error].
  eapply safe_bind; [eapply safe_liftW, safeW_release_field; [by eapply table_ok_le|done|done]|].
  intros _ c' _ _.
  destruct (find_ends j iter' (tag (field_at fields k)) Hon') as (b & j' & iter'' & -> & Hon'' & Hfound & _).
  destruct b; [|apply safe_error]. apply safe_ret.
  rewrite found_unique in Hfound; [|done|apply Hon'|done|apply Hfits, Hk].
  by injection (Hfound eq_refl) as ->.
Qed.

Lemma safe_decode_field wire_type k iter :
  on_field fields dest k iter ->
  safe lo hi (decode_field n decode wire_type iter) (fun i _ => on_field fields dest k i).
Proof.
  intros Hon. destruct (table_ok_inv _ _ _ ok) as (m' & [= <-] & Hne & Hshort & Hdup & Hnz & Hfits).
  unfold decode_field. rewrite (on_field_cur fields dest Hnz Hshort k iter Hon).
  eapply (safe_bind _ _ _ _ (fun i _ => on_field fields dest k i)).
  { destruct (Z.eqb_spec (PB_HTYPE (type (field_at fields k))) PB_HTYPE_ONEOF);
      [by apply safe_release_union|by apply safe_ret]. }
  intros iter' c Hon' _. rewrite (on_field_cur fields dest Hnz Hshort k iter' Hon').
  rewrite (fits_static _ _ _ _ _ (Hfits k (proj1 Hon))).
  change (PB_ATYPE_STATIC =? PB_ATYPE_STATIC) with true. cbv iota zeta.
  eapply safe_bind; [eapply (safe_decode_static_field m n); [lia|exact safe_decode|by apply on_field_at]|].
  intros. by apply safe_ret.
Qed.
End Message.
