(* ===== verification/SafetyProps.v ===== *)
(** Memory safety and termination of [pb_decode], continued: the loop over the
    fields of a message, and messages of any nesting.

    The decoder on arbitrary input: theorems about [pb_decode] and its variants for
    tables accepted by [table_ok], with tables of the application as witnesses. *)

From Stdlib Require Import ZArith Lia List String Bool.
From stdpp Require Import base gmap list.
From S2P Require Import Prelude Base128 Memory Pb PbCommon PbDecode PbDecodeMsg PbEncode Cct Varint Samples Iter Safe Safety.

(** A computation with a counter of its own. *)
Lemma safe_own_count lo hi (body : D unit) :
  safe lo hi body any ->
  safe lo hi (fun s => let '(r, s') := body (set_count 0 s) in (r, set_count (fixed_count_size s) s')) any.
Proof.
  intros Hsafe s (Hcb & Hn & Hc). specialize (Hsafe (set_count 0 s)). unfold wp in *.
  assert (Hs0 : sound (set_count 0 s)) by (split; [done|]; split; [done|cbn; lia]).
  specialize (Hsafe Hs0). destruct (body (set_count 0 s)) as [[a| |] s'];
    [destruct Hsafe as [Hsafe _]| |done];
    destruct Hsafe as ((Hcb' & Hn' & Hc') & Hcons & Hw);
    unfold evolves, sound, consumed in *; cbn in *; repeat split; done || lia || apply Hw.
Qed.

Section Message.
Context `{Env}.
Variables (m n : nat) (decode : list pb_field_t -> Z -> D unit).
Hypothesis deep : (S m <= n)%nat.
Hypothesis safe_decode : forall fields size dest lo hi,
  table_ok m fields size = true -> inside lo hi dest size -> safe lo hi (decode fields dest) any.

Variables (fields : list pb_field_t) (size dest lo hi : Z).
Hypothesis ok : table_ok (S m) fields size = true.
Hypothesis here : inside lo hi dest size.

Lemma table_shape :
  (0 < List.length fields)%nat /\ Z.of_nat (List.length fields) < 2 ^ 32 /\ tags_nonzero fields /\
  forall k, (k < List.length fields)%nat ->
    field_fits m size (field_offset fields k) (size_place fields k) (field_at fields k).
Proof.
  by destruct (table_ok_inv _ _ _ ok) as (m' & [= <-] & Hne & Hshort & _ & Hnz & Hfits).
Qed.

Lemma on_field_step k iter :
  on_field fields dest k iter ->
  exists k', on_field fields dest k' (snd (pb_field_iter_next iter)) /\
    (fst (pb_field_iter_next iter) = true -> k' = S k).
Proof.
  intros Hon. destruct table_shape as (Hne & Hshort & Hnz & _). pose proof Hon as [Hk _].
  destruct (Nat.eqb_spec (S k) (List.length fields)).
  - rewrite (on_field_wrap fields dest Hnz Hshort k iter Hon) by done. exists O.
    split; [by apply on_field_nth|done].
  - rewrite (on_field_next fields dest Hnz Hshort k iter Hon) by lia. exists (S k).
    split; [apply on_field_nth; lia|done].
Qed.

(** *** Unknown fields *)

(** Without extension fields, their search is a search for a tag no field has. *)
Lemma find_extension_is_find p fuel : forall k iter,
  on_field fields dest k iter -> find_extension_loop fuel p iter = iter_find_loop fuel p (-1) iter.
Proof.
  destruct table_shape as (Hne & Hshort & Hnz & Hfits).
  induction fuel as [|fuel IH]; intros k iter Hon; [done|]. cbn [find_extension_loop iter_find_loop].
  rewrite (on_field_cur fields dest Hnz Hshort k iter Hon). pose proof (Hfits k (proj1 Hon)) as Hf.
  destruct (Z.eqb_spec (PB_LTYPE (type (field_at fields k))) PB_LTYPE_EXTENSION);
    [by destruct (fits_ltype _ _ _ _ _ Hf)|].
  pose proof (fits_range _ _ _ _ _ Hf) as Hr. unfold field_in_range in Hr.
  destruct (Z.eqb_spec (tag (field_at fields k)) (-1)) as [E|_]; [by rewrite E in Hr|].
  destruct (on_field_step k iter Hon) as (k' & Hon' & _). cbn [andb]. by rewrite (IH k').
Qed.

Lemma no_extension k iter :
  on_field fields dest k iter -> exists j iter', find_extension_field iter = Some (false, iter') /\
    on_field fields dest j iter'.
Proof.
  destruct table_shape as (Hne & Hshort & Hnz & Hfits). intros Hon.
  unfold find_extension_field. rewrite (find_extension_is_find _ _ k iter Hon).
  fold (pb_field_iter_find iter (-1)). rewrite (find_on_field fields dest Hnz Hshort (-1) k iter Hon).
  unfold found_from. destruct (List.find _ _) as [j|] eqn:Ef.
  - apply find_some in Ef as [Hin Hm]. apply andb_true_iff in Hm as [Ht _]. apply Z.eqb_eq in Ht.
    unfold around in Hin. rewrite in_app_iff, !in_seq in Hin. pose proof (proj1 Hon).
    pose proof (fits_range _ _ _ _ _ (Hfits j ltac:(lia))) as Hr. unfold field_in_range in Hr.
    by rewrite Ht in Hr.
  - exists k, (iter_nth fields dest k). split; [done|]. apply on_field_nth, Hon.
Qed.

Lemma safe_decode_unknown wire_type t l k :
  0 <= t < 2 ^ 29 -> on_field fields dest k (l_iter l) ->
  safe lo hi (decode_unknown n decode wire_type t l) (fun l' _ => exists j, on_field fields dest j (l_iter l')).
Proof.
  intros Ht Hon. unfold decode_unknown.
  eapply (safe_bind _ _ _ _ (fun r _ => exists j, on_field fields dest j (l_iter (snd r)))).
  - destruct (_ <=? _); [|apply safe_ret; by exists k].
    destruct (no_extension k _ Hon) as (j & iter' & -> & Hon'). cbv zeta.
    destruct (Z.leb_spec (u32 (-1)) t) as [Hle|_]; [change (u32 (-1)) with 4294967295 in Hle; lia|].
    apply safe_ret. by exists j.
  - intros [[|] l'] c Hl' _; [by apply safe_ret|].
    eapply safe_bind; [apply safe_pb_skip_field|]. intros. by apply safe_ret.
Qed.

(** *** One turn *)

Lemma safe_fixed_count_complete iter f : safe lo hi (fixed_count_complete iter f) any.
Proof.
  unfold fixed_count_complete. eapply safe_bind.
  - intros s Hs. apply wp_gets. split; [by apply evolves_refl|]. instantiate (1 := any). done.
  - intros c k _ _. destruct f; [|by apply safe_ret].
    destruct (_ =? _); [by apply safe_ret|apply safe_error].
Qed.

Lemma safe_track_fixed_count iter f k :
  on_field fields dest k iter ->
  safe lo hi (track_fixed_count iter f) (fun r _ => on_field fields dest k (fst r)).
Proof.
  intros Hon. destruct table_shape as (Hne & Hshort & Hnz & _).
  unfold track_fixed_count. rewrite (on_field_cur fields dest Hnz Hshort k iter Hon).
  destruct (_ && _) eqn:Hrep; [|by apply safe_ret]. apply andb_true_iff in Hrep as [Hrep Hsz].
  apply Z.eqb_eq in Hrep. eapply (safe_bind _ _ _ _ any).
  - destruct (bool_decide _); [by apply safe_ret|].
    eapply safe_bind; [apply safe_fixed_count_complete|]. intros.
    eapply safe_bind; [by apply (safe_set_count _ _ _ any)|]. intros. by apply safe_ret.
  - intros f' c _ _. apply safe_ret. cbn [fst]. destruct Hon as [Hk [-> | [_ ->]]]; [|done].
    split; [done|]. by right.
Qed.

Lemma safe_decode_step l k :
  on_field fields dest k (l_iter l) ->
  safe lo hi (decode_step n decode l) (fun r c =>
    match r with
    | inl l' => (exists j, on_field fields dest j (l_iter l')) /\ 0 < c
    | inr l' => exists j, on_field fields dest j (l_iter l')
    end).
Proof.
  intros Hon. unfold decode_step. apply safe_get_any. intros s0 _.
  destruct (_ =? 0); [apply safe_ret; by exists k|].
  eapply safe_bind; [apply safe_pb_decode_tag|]. intros [[|]|[wire_type t]] c Ht Hc.
  { apply safe_ret. by exists k. } { apply safe_fail. }
  destruct (find_ends m n deep fields size dest ok k _ t Hon) as (b & j & iter' & -> & Hon' & _).
  destruct b.
  - eapply safe_bind; [by apply safe_track_fixed_count|]. intros [iter fixed] c' Hon2 Hc'. cbn [fst] in Hon2.
    eapply safe_bind; [by eapply (safe_decode_field m n)|]. intros iter2 c2 Hon3 Hc2.
    apply safe_ret. split; [by exists j|lia].
  - eapply safe_bind; [eapply safe_decode_unknown; [lia|exact Hon']|].
    intros l' c' Hl' Hc'. apply safe_ret. split; [done|lia].
Qed.

(** *** The message *)

Lemma safe_req_field_count iter k : on_field fields dest k iter -> safe lo hi (req_field_count iter) any.
Proof.
  intros Hon. destruct table_shape as (Hne & Hshort & Hnz & _). unfold req_field_count.
  eapply (safe_bind _ _ _ _ any).
  - apply (safe_loop_count _ _ _ (fun iter => exists k, on_field fields dest k iter)
      (fun iter => Z.of_nat (List.length fields) - Z.of_nat (pos iter))); [|by exists k].
    clear k iter Hon. intros iter (k & Hon).
    destruct (on_field_start fields dest Hnz Hshort k iter Hon) as (_ & Hp & _). rewrite Hp.
    pose proof (proj1 Hon). split; [lia|]. destruct (on_field_step k iter Hon) as (k' & Hon' & Hk').
    destruct (pb_field_iter_next iter) as [[|] iter'] eqn:En; apply safe_ret; [|done].
    cbn [fst snd] in *. destruct (on_field_start fields dest Hnz Hshort k' iter' Hon') as (_ & -> & _).
    rewrite (Hk' eq_refl) in *. split; [by eexists|lia].
  - intros [[req lt] iter'] c _ _. by apply safe_ret.
Qed.

Lemma safe_check_required seen req : safe lo hi (check_required seen req) any.
Proof.
  unfold check_required. destruct (_ <? _); [|by apply safe_ret]. cbv zeta.
  destruct (existsb _ _); [apply safe_error|]. destruct (_ && _); [apply safe_error|by apply safe_ret].
Qed.

Lemma safe_decode_noinit_body : safe lo hi (decode_noinit_body n decode fields dest) any.
Proof.
  destruct table_shape as (Hne & Hshort & Hnz & _). unfold decode_noinit_body.
  eapply safe_bind.
  - apply (safe_loop _ _ _ (fun l => exists k, on_field fields dest k (l_iter l))
      (fun l _ => exists k, on_field fields dest k (l_iter l))).
    + intros l (k & Hon). eapply safe_weaken; [by eapply safe_decode_step|].
      intros [l'|l'] c Hl' Hc; [done|by intros].
    + exists O. by apply (on_field_nth fields dest 0).
  - intros l c (k & Hon) _. eapply safe_bind; [apply safe_fixed_count_complete|]. intros.
    eapply safe_bind; [by eapply safe_req_field_count|]. intros. apply safe_check_required.
Qed.

Lemma safe_decode_noinit_frame : safe lo hi (decode_noinit_frame n decode fields dest) any.
Proof. unfold decode_noinit_frame. apply safe_own_count. exact safe_decode_noinit_body. Qed.
End Message.

(** A message of nesting at most [m] with more fuel than that. *)
Lemma safe_pb_decode_noinit `{Env} m : forall n fields size dest lo hi,
  (m < n)%nat -> table_ok m fields size = true -> inside lo hi dest size ->
  safe lo hi (pb_decode_noinit n fields dest) any.
Proof.
  induction m as [|m IH]; intros n fields size dest lo hi Hn Hok Hin; [done|].
  destruct n as [|n]; [lia|]. cbn [pb_decode_noinit].
  apply (safe_decode_noinit_frame m n) with (size := size); [lia| |done|done].
  intros. eapply IH; [lia|done|done].
Qed.

Lemma safe_pb_decode `{Env} m n fields size dest lo hi :
  (m < n)%nat -> table_ok m fields size = true -> inside lo hi dest size ->
  safe lo hi (pb_decode n fields dest) any.
Proof.
  intros Hn Hok Hin. unfold pb_decode. eapply (safe_pb_decode_with m n); [lia| |done|done].
  intros. by eapply safe_pb_decode_noinit.
Qed.

(** The decoder about to read [n] bytes at [a]. *)
Definition decoder_at (a n : Z) (w : world) : dstate := mk_dstate (pb_istream_from_buffer a n) 0 w.

(** The computation returned, with [true] or [false]; it read no more than the
    stream held, did not touch the heap, and wrote nothing outside the structure. *)
Definition ended_inside (dest size n : Z) (w : world) (r : outcome unit * dstate) : Prop :=
  fst r <> Stuck /\ 0 <= bytes_left (stream (snd r)) <= n /\
  live (d_world (snd r)) = live w /\
  forall a, ~ (dest <= a < dest + size) -> load_byte (mem (d_world (snd r))) a = load_byte (mem w) a.

Lemma sound_decoder_at a n w : 0 <= n < 2 ^ 64 -> sound (decoder_at a n w).
Proof. intros Hn. split; [done|]. split; [done|cbn; lia]. Qed.

Lemma safe_ends dest size (m : D unit) a n w Q :
  0 <= n < 2 ^ 64 -> safe dest (dest + size) m Q -> ended_inside dest size n w (m (decoder_at a n w)).
Proof.
  intros Hn Hm. specialize (Hm _ (sound_decoder_at a n w Hn)). unfold wp in Hm.
  destruct (m (decoder_at a n w)) as [[u| |] s'] eqn:E; [destruct Hm as [Hm _]| |done];
    destruct Hm as ((_ & Hl & _) & Hc & Hu & Hb); unfold consumed in Hc; cbn in Hc;
    (split; [done|]); (split; [cbn in *; lia|]); (split; [exact Hu|]); intros b Hout; apply Hb; lia.
Qed.

Lemma whole_struct dest size : inside dest (dest + size) dest size.
Proof. unfold inside. lia. Qed.

Section Properties.
Context `{Env}.
Variables (m n : nat) (fields : list pb_field_t) (size dest : Z).
Hypothesis ok : table_ok m fields size = true.
Hypothesis deep : (m < n)%nat.

(** C4: whatever bytes [pb_decode] is given, for a message without pointers, callbacks
    and extensions whose table matches its structure, it returns (there is no endless
    loop and no undefined access of the model), reads only the given bytes, writes only
    inside the structure, and allocates and frees nothing. *)
Theorem pb_decode_safe a len w :
  0 <= len < 2 ^ 64 -> ended_inside dest size len w (pb_decode n fields dest (decoder_at a len w)).
Proof. intros Hl. eapply safe_ends; [done|]. eapply safe_pb_decode; [done|exact ok|apply whole_struct]. Qed.

(** C5: the same of [pb_decode_noinit], which merges into what the structure holds. *)
Theorem pb_decode_noinit_safe a len w :
  0 <= len < 2 ^ 64 -> ended_inside dest size len w (pb_decode_noinit n fields dest (decoder_at a len w)).
Proof. intros Hl. eapply safe_ends; [done|]. eapply safe_pb_decode_noinit; [done|exact ok|apply whole_struct]. Qed.

(** the same of [pb_decode_delimited]: a bad length prefix does no harm. *)
Theorem pb_decode_delimited_safe a len w :
  0 <= len < 2 ^ 64 -> ended_inside dest size len w (pb_decode_delimited n fields dest (decoder_at a len w)).
Proof.
  intros Hl. eapply (safe_ends _ _ _ _ _ _ any); [done|]. unfold pb_decode_delimited.
  eapply safe_bind; [apply safe_pb_make_string_substream|]. intros sub k [Hsub _] _.
  eapply safe_bind.
  { apply safe_on_substream; [exact Hsub|]. eapply safe_pb_decode; [done|exact ok|apply whole_struct]. }
  intros [status sub'] k' (_ & Hsub' & _) _.
  eapply safe_bind; [by apply safe_pb_close_string_substream|]. intros.
  destruct status; [by apply safe_ret|apply safe_fail].
Qed.
End Properties.

(** ** Witnesses *)

(** The part of [gdt_cct_LogEvent] that holds its nested message. *)
Definition nested_fields : list pb_field_t :=
  [PB_FIELD 23 MESSAGE OPTIONAL STATIC FIRST LogEvent "network_connection_info" "network_connection_info"
     NetworkConnectionInfo_fields_addr]%string.

(** Ten bytes of junk. *)
Definition junk_world : world := mk_world (store_bytes ∅ 0x20000 [186; 1; 6; 8; 255; 255; 255; 255; 255; 255]) ∅.

Lemma pb_decode_safe_witness :
  table_ok 2 nested_fields (struct_size LogEvent_members) = true /\
  ended_inside 0x10000 (struct_size LogEvent_members) 10 junk_world
    (pb_decode 3 nested_fields 0x10000 (decoder_at 0x20000 10 junk_world)).
Proof. split; [vm_compute; reflexivity|]. apply (pb_decode_safe 2); [vm_compute; reflexivity|lia|lia]. Defined.

Lemma pb_decode_noinit_safe_witness :
  table_ok 1 QosTierConfiguration_fields (struct_size QosTierConfiguration_members) = true /\
  ended_inside 0x10000 (struct_size QosTierConfiguration_members) 10 junk_world
    (pb_decode_noinit 2 QosTierConfiguration_fields 0x10000 (decoder_at 0x20000 10 junk_world)).
Proof. split; [vm_compute; reflexivity|]. apply (pb_decode_noinit_safe 1); [vm_compute; reflexivity|lia|lia]. Defined.

Lemma pb_decode_delimited_safe_witness :
  table_ok 1 NetworkConnectionInfo_fields (struct_size NetworkConnectionInfo_members) = true /\
  ended_inside 0x10000 (struct_size NetworkConnectionInfo_members) 10 junk_world
    (pb_decode_delimited 2 NetworkConnectionInfo_fields 0x10000 (decoder_at 0x20000 10 junk_world)).
Proof. split; [vm_compute; reflexivity|]. apply (pb_decode_delimited_safe 1); [vm_compute; reflexivity|lia|lia]. Defined.
