(* ===== verification/Wire.v ===== *)
(** What [pb_decode] is to make of a well-formed message, without streams, iterators
    and substreams: messages as lists of tagged wire values in any order, their
    bytes, and their meaning as changes of the memory of the structure. A later
    value of a field replaces an earlier one, nested messages are merged, fields
    the table does not know are skipped. Covered are the static fields with at
    most one value: required, optional and singular ones of every type. *)

From Stdlib Require Import ZArith Lia List String Bool.
From stdpp Require Import base gmap list.
From S2P Require Import Prelude Memory Pb PbCommon PbDecode PbEncode Base128 Varint EncodeSpec Iter.

(** A value by its wire type; a varint by its bytes, so that the shortest ones are
    not the only ones. *)
Inductive wire : Type :=
  | WVarint (l : list Z)
  | W64 (l : list Z)
  | W32 (l : list Z)
  | WString (l : list Z)
  | WMessage (rs : list (Z * wire)).

Definition wire_type (x : wire) : Z :=
  match x with
  | WVarint _ => PB_WT_VARINT
  | W64 _ => PB_WT_64BIT
  | W32 _ => PB_WT_32BIT
  | WString _ | WMessage _ => PB_WT_STRING
  end.

(** ** Bytes *)

Definition delimited (l : list Z) : list Z := varint_bytes (zlen l) ++ l.

Definition record_bytes (payload : wire -> list Z) (r : Z * wire) : list Z :=
  spec_tag (wire_type (snd r)) (fst r) ++ payload (snd r).

Fixpoint payload (x : wire) : list Z :=
  match x with
  | WVarint l | W64 l | W32 l => l
  | WString l => delimited l
  | WMessage rs => delimited (flat_map (record_bytes payload) rs)
  end.

Definition message_bytes (rs : list (Z * wire)) : list Z := flat_map (record_bytes payload) rs.

(** ** Well-formedness *)

Definition tag_ok (t : Z) : Prop := 0 < t < 2 ^ 29.

Fixpoint wire_ok (x : wire) : Prop :=
  match x with
  | WVarint l => is_varint l /\ (List.length l <= 10)%nat
  | W64 l => List.length l = 8%nat
  | W32 l => List.length l = 4%nat
  | WString l => zlen l < 2 ^ 32
  | WMessage rs =>
      zlen (message_bytes rs) < 2 ^ 32 /\
      fold_right (fun r P => (tag_ok (fst r) /\ wire_ok (snd r)) /\ P) True rs
  end.

Definition records_ok (rs : list (Z * wire)) : Prop :=
  Forall (fun r => tag_ok (fst r) /\ wire_ok (snd r)) rs.

(** ** Meaning *)

(** The number little-endian bytes stand for. *)
Fixpoint of_bytes (l : list Z) : Z :=
  match l with
  | [] => 0
  | b :: l' => b + 256 * of_bytes l'
  end.

Section Meaning.
Context `{Env}.

(** Store [v] as an integer of [size] bytes, if it is one. *)
Definition put_int (signed : bool) (size p v : Z) (m : gmap Z Z) : option (gmap Z Z) :=
  let fits := if signed then (- 2 ^ (8 * size - 1) <=? v) && (v <? 2 ^ (8 * size - 1))
              else (0 <=? v) && (v <? 2 ^ (8 * size)) in
  if ((size =? 1) || (size =? 2) || (size =? 4) || (size =? 8)) && fits
  then Some (store m p (Z.to_nat size) v) else None.

(** Zig-zag numbers. *)
Definition unzigzag_of (v : Z) : Z := if Z.even v then v / 2 else - ((v + 1) / 2).

Definition put_value (message : list pb_field_t -> Z -> list (Z * wire) -> gmap Z Z -> option (gmap Z Z))
    (f : pb_field_t) (p : Z) (x : wire) (m : gmap Z Z) : option (gmap Z Z) :=
  let lt := PB_LTYPE (type f) in
  match x with
  | WVarint l =>
      let v := varint_value l mod 2 ^ 64 in
      if lt =? PB_LTYPE_BOOL then
        if varint_value l <? 2 ^ 32 then Some (store m p 1 (if v =? 0 then 0 else 1)) else None
      else if lt =? PB_LTYPE_VARINT then
        put_int true (data_size f) p (if data_size f =? 8 then s64 v else s32 v) m
      else if lt =? PB_LTYPE_UVARINT then put_int false (data_size f) p v m
      else if lt =? PB_LTYPE_SVARINT then put_int true (data_size f) p (unzigzag_of v) m
      else None
  | W32 l => if lt =? PB_LTYPE_FIXED32 then Some (store m p 4 (of_bytes l)) else None
  | W64 l => if lt =? PB_LTYPE_FIXED64 then Some (store m p 8 (of_bytes l)) else None
  | WString l =>
      if lt =? PB_LTYPE_BYTES then
        if zlen l + 4 <=? data_size f
        then Some (store_bytes (store m p 4 (zlen l)) (p + 4) l) else None
      else if lt =? PB_LTYPE_STRING then
        if zlen l + 1 <=? data_size f
        then Some (store (store_bytes m p l) (p + zlen l) 1 0) else None
      else if lt =? PB_LTYPE_FIXED_LENGTH_BYTES then
        if zlen l =? 0 then Some (memzero m p (data_size f))
        else if zlen l =? data_size f then Some (store_bytes m p l) else None
      else None
  | WMessage rs =>
      if (lt =? PB_LTYPE_SUBMESSAGE) && negb (ptr f =? NULL)
      then message (desc (ptr f)) p rs m else None
  end.

(** [has_field = true;] *)
Definition put_flag (f : pb_field_t) (p : Z) (m : gmap Z Z) : gmap Z Z :=
  if (PB_HTYPE (type f) =? PB_HTYPE_OPTIONAL) && negb (size_offset f =? 0)
  then store m p 1 1 else m.

(** A field with at most one value. *)
Definition single (f : pb_field_t) : bool :=
  (PB_HTYPE (type f) =? PB_HTYPE_REQUIRED) || (PB_HTYPE (type f) =? PB_HTYPE_OPTIONAL).

Definition field_index (fields : list pb_field_t) (t : Z) : option nat :=
  List.find (fun k => tag (field_at fields k) =? t) (seq 0 (List.length fields)).

Definition put_record (message : list pb_field_t -> Z -> list (Z * wire) -> gmap Z Z -> option (gmap Z Z))
    (fields : list pb_field_t) (dest : Z) (r : Z * wire) (m : gmap Z Z) : option (gmap Z Z) :=
  match field_index fields (fst r) with
  | None => Some m
  | Some k =>
      let f := field_at fields k in
      if single f then
        put_value message f (dest + field_offset fields k) (snd r)
          (put_flag f (dest + size_place fields k) m)
      else None
  end.

Fixpoint put_records (message : list pb_field_t -> Z -> list (Z * wire) -> gmap Z Z -> option (gmap Z Z))
    (fields : list pb_field_t) (dest : Z) (rs : list (Z * wire)) (m : gmap Z Z) : option (gmap Z Z) :=
  match rs with
  | [] => Some m
  | r :: rs' =>
      match put_record message fields dest r m with
      | Some m' => put_records message fields dest rs' m'
      | None => None
      end
  end.

(** Every required field has a value. *)
Definition required_present (fields : list pb_field_t) (rs : list (Z * wire)) : bool :=
  forallb (fun f => negb (PB_HTYPE (type f) =? PB_HTYPE_REQUIRED)
                    || existsb (fun r => fst r =? tag f) rs) fields.

(** The meaning of a message; [n] bounds the nesting. *)
Fixpoint put_message (n : nat) (fields : list pb_field_t) (dest : Z) (rs : list (Z * wire))
    (m : gmap Z Z) : option (gmap Z Z) :=
  match n with
  | O => None
  | S n' =>
      if required_present fields rs then put_records (put_message n') fields dest rs m else None
  end.
End Meaning.

Lemma single_htype f : single f = true -> PB_HTYPE (type f) <> PB_HTYPE_REPEATED /\ PB_HTYPE (type f) <> PB_HTYPE_ONEOF.
Proof. unfold single. intros Hs. apply orb_true_iff in Hs. rewrite !Z.eqb_eq in Hs. by destruct Hs as [-> | ->]. Qed.

Lemma field_index_some fields t k :
  field_index fields t = Some k -> (k < List.length fields)%nat /\ tag (field_at fields k) = t.
Proof.
  intros Hf. apply find_some in Hf as [Hin Ht]. apply in_seq in Hin. apply Z.eqb_eq in Ht. split; [lia|done].
Qed.

Lemma field_index_none fields t k :
  field_index fields t = None -> (k < List.length fields)%nat -> tag (field_at fields k) <> t.
Proof.
  intros Hf Hk E. pose proof (find_none _ _ Hf k) as Hnone. cbv beta in Hnone.
  rewrite in_seq, E, Z.eqb_refl in Hnone. specialize (Hnone ltac:(lia)). done.
Qed.
