(* ===== verification/DecodeRefine.v ===== *)
(** [pb_decode_noinit] implements [Wire.put_message]: on the bytes of a well-formed
    message it returns [true], having read them all and changed the memory as the
    specification says. Proved from the scalar decoders up to the message loop. *)

From Stdlib Require Import ZArith Lia List String Bool.
From stdpp Require Import base gmap list.
From S2P Require Import Prelude Memory Pb PbCommon PbDecode PbDecodeMsg PbEncode Base128 Varint EncodeSpec Writer EncodeRefine Samples EncodeProps WireProps Iter Safe Safety SafetyProps Wire.

(** [k] bytes further in the stream, the memory now [m]. *)
Definition after (k : Z) (m : gmap Z Z) (s : dstate) : dstate :=
  advance k (set_world (set_mem (fun _ => m) (d_world s)) s).

(** A sound stream standing on [l], away from [lo, hi). *)
Definition reading (lo hi : Z) (s : dstate) (l : list Z) : Prop :=
  sound s /\ at_bytes s l /\ (is_state (stream s) + zlen l <= lo \/ hi <= is_state (stream s)).

Definition outside (lo hi : Z) (m m' : gmap Z Z) : Prop :=
  forall a, ~ (lo <= a < hi) -> load_byte m' a = load_byte m a.

Lemma after_after j k m m' s : after j m' (after k m s) = after (k + j) m' s.
Proof. unfold after, advance, set_world, set_mem, set_stream. cbn. do 2 f_equal; lia. Qed.

Lemma after_0 s : after 0 (mem (d_world s)) s = s.
Proof.
  destruct s as [[] ? []]. unfold after, advance, set_world, set_mem, set_stream. cbn.
  do 2 f_equal; lia.
Qed.

Lemma after_advance k s : after k (mem (d_world s)) s = advance k s.
Proof. by destruct s as [[] ? []]. Qed.

Lemma left_after k m s : bytes_left (stream (after k m s)) = bytes_left (stream s) - k.
Proof. done. Qed.

Lemma zlen_app' (l1 l2 : list Z) : zlen (l1 ++ l2) = zlen l1 + zlen l2.
Proof. unfold zlen. rewrite length_app. lia. Qed.

Lemma reading_after lo hi s l1 l2 m :
  reading lo hi s (l1 ++ l2) -> outside lo hi (mem (d_world s)) m ->
  reading lo hi (after (zlen l1) m s) l2.
Proof.
  intros ((Hcb & Hn & Hc) & Hat & Haway) Hm. rewrite zlen_app' in Haway.
  assert (0 <= zlen l1) by (unfold zlen; lia). assert (0 <= zlen l2) by (unfold zlen; lia).
  pose proof Hat as (_ & _ & Hlen). rewrite length_app in Hlen.
  split; [|split].
  - unfold sound, after. cbn. split; [done|]. split; [unfold zlen in *; lia|done].
  - apply at_bytes_app_r in Hat.
    change (after (zlen l1) m s) with
      (set_world (set_mem (fun _ => m) (d_world s)) (advance (zlen l1) s)).
    apply at_bytes_world; [exact Hat|]. intros b Hb. cbn in *. apply Hm. lia.
  - cbn. lia.
Qed.

Lemma reading_app_l lo hi s l1 l2 : reading lo hi s (l1 ++ l2) -> reading lo hi s l1.
Proof.
  intros (Hs & Hat & Haway). rewrite zlen_app' in Haway.
  assert (0 <= zlen l2) by (unfold zlen; lia).
  split; [done|]. split; [by eapply at_bytes_app_l|lia].
Qed.

Lemma reading_at lo hi s l : reading lo hi s l -> at_bytes s l.
Proof. by intros (_ & Hat & _). Qed.

(** ** Values *)

Section Values.
Context `{Env}.

Lemma of_bytes_load l m a :
  load_bytes m a (List.length l) = l -> of_bytes l = load m a (List.length l).
Proof.
  revert a. induction l as [|b l IH]; intros a Hl; [done|].
  cbn [List.length load_bytes of_bytes load] in *. injection Hl as Hb Hl. rewrite (IH _ Hl). lia.
Qed.


(** What [put_int] accepts, [store_checked] stores. *)
Lemma store_checked_of signed size p v m' s :
  put_int signed size p v (mem (d_world s)) = Some m' ->
  store_checked signed size p v s = (Ret tt, after 0 m' s).
Proof.
  unfold put_int. destruct (_ && _) eqn:E; [|done]. intros [= <-].
  apply andb_true_iff in E as [Hsize Hfits].
  assert (Hw : (if signed then swrap (8 * size) v else uwrap (8 * size) v) = v).
  { destruct signed; [apply swrap_fits; lia|unfold uwrap; apply Z.mod_small; lia]. }
  assert (Hs : set_world (set_mem (fun m => store m p (Z.to_nat size) v) (d_world s)) s =
    after 0 (store (mem (d_world s)) p (Z.to_nat size) v) s).
  { destruct s as [[] ? []]. unfold after, advance, set_world, set_mem, set_stream. cbn. do 2 f_equal; lia. }
  unfold store_checked.
  rewrite !orb_true_iff, !Z.eqb_eq in Hsize.
  destruct Hsize as [[[-> | ->] | ->] | ->]; cbn [Z.eqb Pos.eqb];
    (erewrite bind_Ret; [|unfold store_clamped; erewrite bind_Ret by reflexivity; reflexivity]);
    cbv beta; change (Z.of_nat 1) with 1; change (Z.of_nat 2) with 2; change (Z.of_nat 4) with 4;
    change (Z.of_nat 8) with 8; rewrite Hw, Z.eqb_refl; cbn [negb]; rewrite <- Hs; reflexivity.
Qed.

Lemma unzigzag_value v :
  0 <= v < 2 ^ 64 ->
  (if negb (Z.land v 1 =? 0) then s64 (u64 (Z.lnot (Z.shiftr v 1))) else s64 (Z.shiftr v 1)) = unzigzag_of v.
Proof.
  intros Hv. unfold unzigzag_of. change 1 with (Z.ones 1) at 1. rewrite Z.land_ones by lia.
  rewrite !Z.shiftr_div_pow2 by lia. change (2 ^ 1) with 2. rewrite Zeven_mod.
  unfold swrap, uwrap, Z.lnot. change (2 ^ 64) with 18446744073709551616 in *.
  change (2 ^ (64 - 1)) with 9223372036854775808. unfold Zeq_bool.
  destruct (Z.eqb_spec (v mod 2) 0) as [E|E]; cbn [negb].
  - rewrite E. cbn. repeat case_match; zlia.
  - destruct (Z.eqb_spec (v mod 2) 0); [done|]. repeat case_match; try zlia.
Qed.

(** *** Reading *)

Lemma varint32_of lo hi s l rest :
  is_varint l -> (List.length l <= 10)%nat -> varint_value l < 2 ^ 32 -> reading lo hi s (l ++ rest) ->
  pb_decode_varint32 s = (Ret (varint_value l), after (zlen l) (mem (d_world s)) s).
Proof.
  intros Hv Hlen Hlt Hr. rewrite after_advance.
  apply pb_decode_varint32_at; [done..|]. by eapply reading_at, reading_app_l.
Qed.

Lemma length_of lo hi s n rest :
  0 <= n < 2 ^ 32 -> reading lo hi s (varint_bytes n ++ rest) ->
  pb_decode_varint32 s = (Ret n, after (zlen (varint_bytes n)) (mem (d_world s)) s).
Proof.
  intros Hn Hr. destruct (varint_bytes_spec n ltac:(lia)) as (Hvar & Hval & Hlen).
  rewrite (varint32_of lo hi s (varint_bytes n) rest) by (done || lia). by rewrite Hval.
Qed.

Lemma read_mem_of lo hi s l a :
  reading lo hi s l -> pb_read (RMem a) (zlen l) s = (Ret l, after (zlen l) (store_bytes (mem (d_world s)) a l) s).
Proof.
  intros (_ & Hat & _). rewrite (pb_read_mem_at s l a) by done. done.
Qed.

Definition stored (p : Z) (n : nat) (v : Z) (s : dstate) : dstate :=
  after 0 (store (mem (d_world s)) p n v) s.

Lemma storeW_stored p n v s : liftW (storeW p n v) s = (Ret tt, stored p n v s).
Proof.
  destruct s as [[] ? []]. unfold stored, after, advance, set_world, set_mem, set_stream. cbn.
  unfold liftW, zoom, storeW, modify, set_world, set_mem. cbn. do 3 f_equal; lia.
Qed.

Lemma outside_refl lo hi m : outside lo hi m m.
Proof. done. Qed.

Lemma outside_store lo hi m a n v : inside lo hi a (Z.of_nat n) -> outside lo hi m (store m a n v).
Proof.
  intros [Hlo Hhi] b Hb. rewrite load_byte_store. by destruct (decide _); [lia|].
Qed.

Lemma dec_bytes_of f p s l m' lo hi :
  PB_ATYPE (type f) = PB_ATYPE_STATIC -> inside lo hi p (data_size f) -> 0 <= data_size f < 2 ^ 32 ->
  reading lo hi s (delimited l) -> zlen l + 4 <= data_size f ->
  m' = store_bytes (store (mem (d_world s)) p 4 (zlen l)) (p + 4) l ->
  pb_dec_bytes f p s = (Ret tt, after (zlen (delimited l)) m' s).
Proof.
  intros Hat Hin Hds Hr Hfit ->. pose proof (zlen_nonneg l). unfold pb_dec_bytes, delimited in *.
  erewrite bind_Ret by (apply (length_of lo hi s (zlen l) l); [lia|exact Hr]).
  change PB_SIZE_MAX with (2 ^ 32 - 1).
  unfold PB_BYTES_ARRAY_T_ALLOCSIZE, pb_bytes_array_bytes, uwrap. destruct (Z.ltb_spec (2 ^ 32 - 1) (zlen l)); [lia|].
  rewrite Z.mod_small by lia. destruct (Z.ltb_spec (zlen l + 4) (zlen l)); [lia|].
  rewrite Hat. cbn [Z.eqb PB_ATYPE_STATIC PB_ATYPE_POINTER].
  destruct (Z.ltb_spec (data_size f) (zlen l + 4)); [lia|]. rewrite bind_ret.
  erewrite bind_Ret by apply storeW_stored.
  eapply reading_after in Hr; [|apply outside_refl].
  assert (Hr2 : reading lo hi (stored p sizeof_pb_size (zlen l)
    (after (zlen (varint_bytes (zlen l))) (mem (d_world s)) s)) l).
  { apply (reading_after lo hi _ []); [exact Hr|]. apply outside_store.
    eapply inside_sub; [exact Hin|lia|]. change (Z.of_nat sizeof_pb_size) with 4. lia. }
  erewrite bind_Ret by (eapply read_mem_of, Hr2). unfold ret, stored. rewrite !after_after, zlen_app'.
  by rewrite Z.add_0_r.
Qed.

Lemma dec_string_of f p s l m' lo hi :
  PB_ATYPE (type f) = PB_ATYPE_STATIC -> inside lo hi p (data_size f) -> 0 <= data_size f < 2 ^ 32 ->
  reading lo hi s (delimited l) -> zlen l + 1 <= data_size f ->
  m' = store (store_bytes (mem (d_world s)) p l) (p + zlen l) 1 0 ->
  pb_dec_string f p s = (Ret tt, after (zlen (delimited l)) m' s).
Proof.
  intros Hat Hin Hds Hr Hfit ->. pose proof (zlen_nonneg l). unfold pb_dec_string, delimited in *.
  erewrite bind_Ret by (apply (length_of lo hi s (zlen l) l); [lia|exact Hr]). unfold uwrap.
  rewrite Z.mod_small by lia. cbv zeta. destruct (Z.ltb_spec (zlen l + 1) (zlen l)); [lia|].
  rewrite Hat. cbn [Z.eqb PB_ATYPE_STATIC PB_ATYPE_POINTER].
  destruct (Z.ltb_spec (data_size f) (zlen l + 1)); [lia|]. rewrite bind_ret.
  eapply reading_after in Hr; [|apply outside_refl].
  erewrite bind_Ret by (eapply attempt_Ret, read_mem_of, Hr).
  erewrite bind_Ret by apply storeW_stored. unfold ret, stored. rewrite !after_after, zlen_app'.
  by rewrite Z.add_0_r.
Qed.

Lemma dec_fixed_length_of f p s l m' lo hi :
  0 <= data_size f < 2 ^ 32 -> zlen l < 2 ^ 32 -> reading lo hi s (delimited l) ->
  (if zlen l =? 0 then Some (memzero (mem (d_world s)) p (data_size f))
   else if zlen l =? data_size f then Some (store_bytes (mem (d_world s)) p l) else None) = Some m' ->
  pb_dec_fixed_length_bytes f p s = (Ret tt, after (zlen (delimited l)) m' s).
Proof.
  intros Hds Hl Hr Hm. pose proof (zlen_nonneg l). unfold pb_dec_fixed_length_bytes, delimited in *.
  erewrite bind_Ret by (apply (length_of lo hi s (zlen l) l); [lia|exact Hr]).
  change PB_SIZE_MAX with (2 ^ 32 - 1). destruct (Z.ltb_spec (2 ^ 32 - 1) (zlen l)); [lia|].
  eapply reading_after in Hr; [|apply outside_refl]. rewrite zlen_app'.
  destruct (Z.eqb_spec (zlen l) 0) as [E|_].
  - injection Hm as <-. rewrite E, Z.add_0_r. done.
  - destruct (Z.eqb_spec (zlen l) (data_size f)) as [E|_]; [|done]. injection Hm as <-.
    cbn [negb]. rewrite <- E. erewrite bind_Ret by (eapply read_mem_of, Hr).
    unfold ret. by rewrite after_after.
Qed.
End Values.

(** *** Submessages *)

Section Submessage.
Context `{Env}.

Lemma on_substream_Ret {A} sub (m : D A) s a s1 :
  m (set_stream (fun _ => sub) s) = (Ret a, s1) ->
  on_substream sub m s = (Ret (Some a, stream s1), set_stream (fun _ => stream s) s1).
Proof. intros Hm. unfold on_substream. run. by erewrite bind_Ret by (by apply attempt_Ret). Qed.

(** The stream of the submessage whose length has been read. *)
Definition substream_of (l : list Z) (s : dstate) : dstate :=
  set_stream (is_set_left (zlen l)) (after (zlen (varint_bytes (zlen l))) (mem (d_world s)) s).

Lemma reading_substream lo hi s l :
  reading lo hi s (delimited l) ->
  reading lo hi (substream_of l s) l /\ bytes_left (stream (substream_of l s)) = zlen l.
Proof.
  intros Hr. eapply reading_after in Hr; [|apply outside_refl].
  destruct Hr as ((Hcb & Hn & Hc) & (Hcb' & Hl & Hlen) & Haway). split; [|done].
  unfold substream_of, reading, sound, at_bytes in *. cbn in *. unfold zlen in *.
  repeat split; done || lia.
Qed.

(** A length-delimited value handed to [m], which reads it all. *)
Lemma dec_submessage_of n decode f p s l m' lo hi :
  ptr f <> NULL -> PB_HTYPE (type f) <> PB_HTYPE_REPEATED -> zlen l < 2 ^ 32 ->
  reading lo hi s (delimited l) ->
  decode (desc (ptr f)) p (substream_of l s) = (Ret tt, after (zlen l) m' (substream_of l s)) ->
  pb_dec_submessage n decode f p s = (Ret tt, after (zlen (delimited l)) m' s).
Proof.
  intros Hptr Hh Hlen Hr Hsub. pose proof (zlen_nonneg l). unfold pb_dec_submessage, pb_make_string_substream.
  pose proof Hr as ((Hcb & Hn & Hc) & (_ & _ & Hleft) & _).
  unfold delimited in Hleft. rewrite length_app in Hleft.
  rewrite bind_assoc. erewrite bind_Ret by (apply (length_of lo hi s (zlen l) l); [lia|exact Hr]).
  set (s1 := after (zlen (varint_bytes (zlen l))) (mem (d_world s)) s).
  assert (Hleft1 : bytes_left (stream s1) = bytes_left (stream s) - zlen (varint_bytes (zlen l))) by done.
  rewrite bind_assoc, bind_get. cbv beta.
  destruct (Z.ltb_spec (bytes_left (stream s1)) (zlen l)); [unfold zlen in *; lia|]. run.
  destruct (Z.eqb_spec (ptr f) NULL); [done|].
  destruct (Z.eqb_spec (PB_HTYPE (type f)) PB_HTYPE_REPEATED); [done|].
  erewrite bind_Ret by (apply on_substream_Ret; exact Hsub). cbv beta iota.
  assert (Hdone : forall i, bytes_left i = 0 -> forall t,
    pb_close_string_substream i t = (Ret tt, set_stream (fun i0 => is_set_error (is_errmsg i) (is_set_state (is_state i) i0)) t)).
  { intros i Hi t. unfold pb_close_string_substream. rewrite Hi. cbn [Z.eqb].
    erewrite bind_Ret by (by apply on_substream_Ret). run. by destruct t. }
  erewrite bind_Ret by (apply Hdone; cbn; lia).
  assert (Hu : u64 (bytes_left (stream s1) - zlen l) = bytes_left (stream s1) - zlen l).
  { unfold uwrap. apply Z.mod_small. unfold zlen in *. lia. }
  subst s1. unfold delimited, substream_of in *. rewrite zlen_app'.
  set (k := zlen (varint_bytes (zlen l))) in *. clearbody k.
  destruct s as [[] ? []]. unfold ret, after, advance, set_stream, set_world, set_mem in *. cbn in *.
  rewrite Hu. unfold is_set_error, is_set_state, is_set_left. cbn. do 3 f_equal; lia.
Qed.
End Submessage.

(** *** Any value *)

Section Value.
Context `{Env}.
Variables (m n q : nat) (decode : list pb_field_t -> Z -> D unit).

(** The level below. *)
Hypothesis decode_of : forall fields size dest lo hi rs m' s,
  table_ok m fields size = true -> inside lo hi dest size -> records_ok rs ->
  reading lo hi s (message_bytes rs) -> bytes_left (stream s) = zlen (message_bytes rs) ->
  put_message q fields dest rs (mem (d_world s)) = Some m' ->
  decode fields dest s = (Ret tt, after (zlen (message_bytes rs)) m' s).

Lemma wire_message_ok rs : wire_ok (WMessage rs) -> zlen (message_bytes rs) < 2 ^ 32 /\ records_ok rs.
Proof.
  intros [Hlen Hall]. split; [done|]. clear Hlen. fold wire_ok in Hall.
  induction rs as [|r rs IH]; [constructor|]. destruct Hall as [Hr Hall].
  constructor; [exact Hr|]. by apply IH.
Qed.

(** Which decoder a type has. *)
Ltac decoder E := rewrite E in *; unfold PB_DECODERS; cbv beta zeta;
  cbn [Z.eqb Pos.eqb PB_LTYPE_BOOL PB_LTYPE_VARINT PB_LTYPE_UVARINT PB_LTYPE_SVARINT PB_LTYPE_FIXED32
       PB_LTYPE_FIXED64 PB_LTYPE_BYTES PB_LTYPE_STRING PB_LTYPE_SUBMESSAGE PB_LTYPE_FIXED_LENGTH_BYTES].

Lemma varint_of lo hi f p l s m' :
  is_varint l -> (List.length l <= 10)%nat -> reading lo hi s l ->
  put_value (put_message q) f p (WVarint l) (mem (d_world s)) = Some m' ->
  PB_DECODERS n decode (PB_LTYPE (type f)) f p s = (Ret tt, after (zlen l) m' s).
Proof.
  intros Hv Hlen Hr. cbn [put_value]. cbv zeta.
  pose proof (Z.mod_pos_bound (varint_value l) (2 ^ 64) ltac:(lia)) as Hrange.
  pose proof (varint_value_range l) as Hpos.
  assert (H64 : pb_decode_varint s = (Ret (varint_value l mod 2 ^ 64), after (zlen l) (mem (d_world s)) s)).
  { rewrite after_advance. apply pb_decode_varint_at; [done..|]. by eapply reading_at. }
  destruct (Z.eqb_spec (PB_LTYPE (type f)) PB_LTYPE_BOOL) as [E|_].
  { destruct (Z.ltb_spec (varint_value l) (2 ^ 32)) as [Hlt|]; [|done]. intros [= <-]. decoder E.
    unfold pb_dec_bool. rewrite <- (app_nil_r l) in Hr.
    erewrite bind_Ret by (by eapply varint32_of). rewrite storeW_stored. unfold stored.
    rewrite after_after, Z.add_0_r. rewrite Z.mod_small by lia. done. }
  destruct (Z.eqb_spec (PB_LTYPE (type f)) PB_LTYPE_VARINT) as [E|_].
  { intros Hput. decoder E. unfold pb_dec_varint. erewrite bind_Ret by exact H64.
    rewrite (store_checked_of _ _ _ _ m') by exact Hput. by rewrite after_after, Z.add_0_r. }
  destruct (Z.eqb_spec (PB_LTYPE (type f)) PB_LTYPE_UVARINT) as [E|_].
  { intros Hput. decoder E. unfold pb_dec_uvarint. erewrite bind_Ret by exact H64.
    rewrite (store_checked_of _ _ _ _ m') by exact Hput. by rewrite after_after, Z.add_0_r. }
  destruct (Z.eqb_spec (PB_LTYPE (type f)) PB_LTYPE_SVARINT) as [E|_]; [|done].
  intros Hput. decoder E. unfold pb_dec_svarint, pb_decode_svarint.
  rewrite bind_assoc. erewrite bind_Ret by exact H64.
  pose proof (unzigzag_value (varint_value l mod 2 ^ 64) Hrange) as Hu.
  destruct (negb _); rewrite bind_ret, Hu, (store_checked_of _ _ _ _ m') by exact Hput;
    by rewrite after_after, Z.add_0_r.
Qed.

Lemma fixed32_of lo hi p l s :
  List.length l = 4%nat -> reading lo hi s l ->
  pb_decode_fixed32 p s = (Ret tt, after (zlen l) (store (mem (d_world s)) p 4 (of_bytes l)) s).
Proof.
  intros Hlen Hr. apply reading_at in Hr. pose proof Hr as (_ & Hl & _). unfold pb_decode_fixed32.
  erewrite bind_Ret by (apply (pb_read_at s l); [done|lia|by rewrite Hlen]). cbv zeta.
  rewrite (of_bytes_load l (mem (d_world s)) (is_state (stream s)) Hl), Hlen.
  rewrite <- Hl at 1 2 3 4. rewrite Hlen, lor_bytes4, storeW_stored. unfold stored, zlen. rewrite Hlen.
  rewrite <- after_advance, after_after. done.
Qed.

Lemma fixed64_of lo hi p l s :
  List.length l = 8%nat -> reading lo hi s l ->
  pb_decode_fixed64 p s = (Ret tt, after (zlen l) (store (mem (d_world s)) p 8 (of_bytes l)) s).
Proof.
  intros Hlen Hr. apply reading_at in Hr. pose proof Hr as (_ & Hl & _). unfold pb_decode_fixed64.
  erewrite bind_Ret by (apply (pb_read_at s l); [done|lia|by rewrite Hlen]). cbv zeta.
  rewrite (of_bytes_load l (mem (d_world s)) (is_state (stream s)) Hl), Hlen.
  rewrite <- Hl at 1 2 3 4 5 6 7 8. rewrite Hlen, lor_bytes8, storeW_stored. unfold stored, zlen. rewrite Hlen.
  rewrite <- after_advance, after_after. done.
Qed.

Lemma decoder_of lo hi size o so f p x s m' :
  field_fits m size o so f -> inside lo hi p (data_size f) -> PB_HTYPE (type f) <> PB_HTYPE_REPEATED ->
  wire_ok x -> reading lo hi s (payload x) ->
  put_value (put_message q) f p x (mem (d_world s)) = Some m' ->
  PB_DECODERS n decode (PB_LTYPE (type f)) f p s = (Ret tt, after (zlen (payload x)) m' s).
Proof.
  intros Hf Hin Hh Hx Hr Hput. pose proof (fits_static _ _ _ _ _ Hf) as Hst.
  destruct (range_sizes _ (fits_range _ _ _ _ _ Hf)) as [Hds _].
  destruct x as [l|l|l|l|rs]; cbn [payload] in *.
  - destruct Hx. by eapply varint_of.
  - cbn [put_value] in Hput. destruct (Z.eqb_spec (PB_LTYPE (type f)) PB_LTYPE_FIXED64) as [E|]; [|done].
    injection Hput as <-. decoder E. by eapply fixed64_of.
  - cbn [put_value] in Hput. destruct (Z.eqb_spec (PB_LTYPE (type f)) PB_LTYPE_FIXED32) as [E|]; [|done].
    injection Hput as <-. decoder E. by eapply fixed32_of.
  - cbn [put_value] in Hput. cbv zeta in Hput.
    destruct (Z.eqb_spec (PB_LTYPE (type f)) PB_LTYPE_BYTES) as [E|_].
    { destruct (Z.leb_spec (zlen l + 4) (data_size f)); [|done]. injection Hput as <-.
      decoder E. by eapply dec_bytes_of. }
    destruct (Z.eqb_spec (PB_LTYPE (type f)) PB_LTYPE_STRING) as [E|_].
    { destruct (Z.leb_spec (zlen l + 1) (data_size f)); [|done]. injection Hput as <-.
      decoder E. by eapply dec_string_of. }
    destruct (Z.eqb_spec (PB_LTYPE (type f)) PB_LTYPE_FIXED_LENGTH_BYTES) as [E|_]; [|done].
    decoder E. by eapply dec_fixed_length_of.
  - cbn [put_value] in Hput. cbv zeta in Hput.
    destruct (Z.eqb_spec (PB_LTYPE (type f)) PB_LTYPE_SUBMESSAGE) as [E|]; [|done].
    destruct (fits_sub _ _ _ _ _ Hf E) as [Hptr Hok].
    destruct (Z.eqb_spec (ptr f) NULL); [done|]. cbn [andb negb] in Hput.
    destruct (wire_message_ok rs Hx) as [Hlen Hrs]. fold (message_bytes rs) in *.
    destruct (reading_substream _ _ _ _ Hr) as [Hsub Hleft].
    decoder E. eapply dec_submessage_of; [done|done|done|exact Hr|]. by eapply decode_of.
Qed.
End Value.
