(* ===== verification/Required.v ===== *)
(** The required fields: [fields_seen] as a set of field numbers, what one
    [mark_required] adds to it, what [check_required] asks of it, and that
    [req_field_count] counts the required fields of the table. *)

From Stdlib Require Import ZArith Lia List String Bool.
From stdpp Require Import base gmap list.
From S2P Require Import Prelude Memory Pb PbCommon PbDecode PbDecodeMsg PbEncode Base128 Varint Iter.

(** ** The set *)

(** Whether the [i]-th required field has been seen. *)
Definition seen_bit (seen : list Z) (i : Z) : bool :=
  Z.testbit (nth (Z.to_nat (i / 32)) seen 0) (i mod 32).

(** Two 32-bit words. *)
Definition words_ok (seen : list Z) : Prop :=
  List.length seen = 2%nat /\ Forall (fun v => 0 <= v < 2 ^ 32) seen.

Lemma word_range seen k : words_ok seen -> 0 <= nth k seen 0 < 2 ^ 32.
Proof.
  intros [_ Hall]. destruct (nth_in_or_default k seen 0) as [Hin| ->]; [|lia].
  by apply (proj1 (List.Forall_forall _ _) Hall) in Hin.
Qed.

Lemma high_bits v w i : 0 <= v < 2 ^ w -> w <= i -> Z.testbit v i = false.
Proof.
  intros Hv Hi. destruct (Z.eq_dec v 0) as [->|]; [apply Z.bits_0|].
  apply Z.bits_above_log2; [lia|]. apply Z.log2_lt_pow2; [lia|].
  pose proof (Z.pow_le_mono_r 2 w i ltac:(lia) Hi). lia.
Qed.

(** A word is known by its 32 bits. *)
Lemma word_eq v v' :
  0 <= v < 2 ^ 32 -> 0 <= v' < 2 ^ 32 ->
  (forall i, 0 <= i < 32 -> Z.testbit v i = Z.testbit v' i) -> v = v'.
Proof.
  intros Hv Hv' Hb. apply Z.bits_inj'. intros i Hi. destruct (Z.lt_ge_cases i 32); [by apply Hb; lia|].
  by rewrite !(high_bits _ 32) by done.
Qed.

Lemma seen_bit_word seen k i : 0 <= i < 32 -> seen_bit seen (32 * Z.of_nat k + i) = Z.testbit (nth k seen 0) i.
Proof.
  intros Hi. unfold seen_bit. rewrite Z.mul_comm, Z.div_add_l, Z.div_small, Z.add_0_r, Nat2Z.id by lia.
  by rewrite Z.add_comm, Z.mod_add, Z.mod_small by lia.
Qed.

Lemma land_31 i : Z.land i 31 = i mod 32.
Proof. exact (Z.land_ones i 5 ltac:(lia)). Qed.

Lemma shiftr_5 i : Z.shiftr i 5 = i / 32.
Proof. exact (Z.shiftr_div_pow2 i 5 ltac:(lia)). Qed.

Lemma allbits_ones : allbits = Z.ones 32.
Proof. reflexivity. Qed.

(** ** Marking *)

Lemma bit_mask i j : 0 <= i < 32 -> 0 <= j < 32 -> Z.testbit (u32 (Z.shiftl 1 i)) j = (i =? j).
Proof.
  intros Hi Hj. rewrite Z.shiftl_1_l. unfold uwrap.
  rewrite Z.mod_small by (pose proof (Z.pow_lt_mono_r 2 i 32); pose proof (Z.pow_pos_nonneg 2 i); lia).
  apply Z.pow2_bits_eqb. lia.
Qed.

Lemma mark_word_range v i : 0 <= v < 2 ^ 32 -> 0 <= Z.lor v (u32 (Z.shiftl 1 i)) < 2 ^ 32.
Proof.
  intros Hv. assert (Hu : 0 <= u32 (Z.shiftl 1 i) < 2 ^ 32) by (unfold uwrap; apply Z.mod_pos_bound; lia).
  rewrite <- (Z.mod_small v (2 ^ 32)), <- (Z.mod_small (u32 _) (2 ^ 32)) by done.
  rewrite <- !Z.land_ones, <- Z.land_lor_distr_l, Z.land_ones by lia. apply Z.mod_pos_bound. lia.
Qed.

(** The required field under the iterator is added, and no other. *)
Lemma mark_required_bits iter seen i :
  words_ok seen -> 0 <= required_field_index iter -> 0 <= i < 64 ->
  seen_bit (mark_required iter seen) i =
    seen_bit seen i || ((PB_HTYPE (type (cur iter)) =? PB_HTYPE_REQUIRED) && (i =? required_field_index iter)).
Proof.
  intros Hw Hr Hi. unfold mark_required, PB_MAX_REQUIRED_FIELDS. set (ri := required_field_index iter) in *.
  destruct (Z.eqb_spec (PB_HTYPE (type (cur iter))) PB_HTYPE_REQUIRED) as [E|]; cbn [andb].
  2: by rewrite orb_false_r.
  destruct (Z.ltb_spec ri 64).
  2: { destruct (Z.eqb_spec i ri); [lia|]. by rewrite orb_false_r. }
  unfold seen_bit. rewrite land_31, shiftr_5. destruct Hw as [Hlen _].
  destruct (decide (i / 32 = ri / 32)) as [Ew|Nw].
  - rewrite Ew. set (k := Z.to_nat (ri / 32)).
    assert (Hk : (k < 2)%nat) by (unfold k; zlia).
    rewrite !nth_lookup, list_lookup_insert_eq by lia. cbn [default]. unfold id.
    rewrite Z.lor_spec, bit_mask by zlia. f_equal.
    destruct (Z.eqb_spec (ri mod 32) (i mod 32)), (Z.eqb_spec i ri); done || zlia.
  - rewrite !nth_lookup, list_lookup_insert_ne by zlia.
    destruct (Z.eqb_spec i ri) as [->|]; [done|]. by rewrite orb_false_r.
Qed.

Lemma mark_required_ok iter seen : words_ok seen -> words_ok (mark_required iter seen).
Proof.
  intros Hw. unfold mark_required. destruct (_ && _); [|done]. pose proof Hw as [Hlen Hall].
  split; [by rewrite length_insert|]. apply Forall_insert; [done|].
  apply mark_word_range. by apply word_range.
Qed.

(** ** Checking *)

Lemma word_full v : 0 <= v < 2 ^ 32 -> (v = allbits <-> forall i, 0 <= i < 32 -> Z.testbit v i = true).
Proof.
  intros Hv. rewrite allbits_ones. split; [intros -> i Hi; by apply Z.ones_spec_low|].
  intros Hb. apply word_eq; [done|by vm_compute|]. intros i Hi. rewrite Hb by done.
  symmetry. by apply Z.ones_spec_low.
Qed.

Lemma partial_mask r : 0 < r < 32 -> Z.shiftr allbits (32 - r) = Z.ones r.
Proof.
  intros Hr. rewrite allbits_ones. rewrite Z.shiftr_div_pow2 by lia.
  rewrite Z.ones_div_pow2 by lia. f_equal. lia.
Qed.

Lemma word_partial v r :
  0 <= v < 2 ^ 32 -> 0 < r < 32 -> (forall i, r <= i < 32 -> Z.testbit v i = false) ->
  (v = Z.shiftr allbits (32 - r) <-> forall i, 0 <= i < r -> Z.testbit v i = true).
Proof.
  intros Hv Hr Hclear. rewrite partial_mask by done.
  split; [intros -> i Hi; by apply Z.ones_spec_low|]. intros Hb. apply word_eq; [done| |].
  - rewrite Z.ones_equiv. pose proof (Z.pow_lt_mono_r 2 r 32). pose proof (Z.pow_pos_nonneg 2 r). lia.
  - intros i Hi. destruct (Z.lt_ge_cases i r).
    + by rewrite Hb, Z.ones_spec_low by lia.
    + by rewrite Hclear, Z.ones_spec_high by lia.
Qed.

(** Nothing beyond the first [req] was marked. *)
Definition within (req : Z) (seen : list Z) : Prop := forall i, req <= i < 64 -> seen_bit seen i = false.

Lemma full_words seen words :
  words_ok seen ->
  existsb (fun i => negb (nth i seen 0 =? allbits)) (seq 0 words) = false <->
  forall i, 0 <= i < 32 * Z.of_nat words -> seen_bit seen i = true.
Proof.
  intros Hw. rewrite <- not_true_iff_false, existsb_exists. split.
  - intros Hnot i Hi. assert (Hk : nth (Z.to_nat (i / 32)) seen 0 = allbits).
    { destruct (Z.eqb_spec (nth (Z.to_nat (i / 32)) seen 0) allbits) as [|Hne]; [done|]. exfalso. apply Hnot.
      exists (Z.to_nat (i / 32)). split; [apply in_seq; zlia|]. by apply negb_true_iff, Z.eqb_neq. }
    unfold seen_bit. apply (proj1 (word_full _ (word_range _ _ Hw)) Hk). apply Z.mod_pos_bound. lia.
  - intros Hall (k & Hk & Hne). apply in_seq in Hk. apply negb_true_iff, Z.eqb_neq in Hne. apply Hne.
    apply (word_full _ (word_range _ _ Hw)). intros i Hi. rewrite <- seen_bit_word by done. apply Hall. lia.
Qed.

Lemma check_required_accepts seen req s :
  words_ok seen -> 0 <= req <= 64 -> within req seen ->
  (forall i, 0 <= i < req -> seen_bit seen i = true) -> check_required seen req s = (Ret tt, s).
Proof.
  intros Hw Hreq Hin Hall. unfold check_required. destruct (Z.ltb_spec 0 req); [|done].
  cbv zeta. rewrite shiftr_5, land_31.
  rewrite (proj2 (full_words seen (Z.to_nat (req / 32)) Hw)) by (intros i Hi; apply Hall; zlia).
  destruct (Z.eqb_spec (req mod 32) 0) as [|Hne]; [done|]. cbn [negb andb].
  destruct (Z.eqb_spec (nth (Z.to_nat (req / 32)) seen 0) (Z.shiftr allbits (32 - req mod 32))) as [|Hno]; [done|].
  exfalso. apply Hno. apply word_partial; [by apply word_range|zlia| |]; intros i Hi; rewrite <- seen_bit_word by zlia.
  - apply Hin. zlia.
  - apply Hall. zlia.
Qed.

Lemma check_required_rejects seen req s i :
  words_ok seen -> 0 <= req <= 64 -> within req seen ->
  0 <= i < req -> seen_bit seen i = false -> fst (check_required seen req s) = Fail.
Proof.
  intros Hw Hreq Hin Hi Hbit. unfold check_required. destruct (Z.ltb_spec 0 req); [|lia].
  cbv zeta. rewrite shiftr_5, land_31.
  destruct (existsb _ _) eqn:Ex; [done|]. pose proof (proj1 (full_words _ _ Hw) Ex) as Hfull.
  assert (Hge : ~ (i < 32 * Z.of_nat (Z.to_nat (req / 32)))).
  { intros Hlt. rewrite Hfull in Hbit by lia. done. }
  destruct (Z.eqb_spec (req mod 32) 0) as [|Hne]; [zlia|]. cbn [negb andb].
  destruct (Z.eqb_spec (nth (Z.to_nat (req / 32)) seen 0) (Z.shiftr allbits (32 - req mod 32))) as [Heq|]; [|done].
  exfalso. assert (Hlow : forall j, 0 <= j < req mod 32 ->
    Z.testbit (nth (Z.to_nat (req / 32)) seen 0) j = true).
  { apply word_partial; [by apply word_range|zlia| |done]. intros j Hj.
    rewrite <- seen_bit_word by zlia. apply Hin. zlia. }
  unfold seen_bit in Hbit. replace (i / 32) with (req / 32) in Hbit by zlia.
  rewrite Hlow in Hbit; [done|zlia].
Qed.

(** ** Counting *)

Section Counting.
Context `{Env}.
Variables (fields : list pb_field_t) (dest : Z).
Hypothesis nonzero : tags_nonzero fields.
Hypothesis short : Z.of_nat (List.length fields) < 2 ^ 32.

(** The count [pb_decode_noinit] compares with: all required fields, at most 64. *)
Definition required_count : Z :=
  Z.min (required_before fields (List.length fields)) PB_MAX_REQUIRED_FIELDS.

Lemma required_before_range k : 0 <= required_before fields k <= Z.of_nat k.
Proof.
  unfold required_before.
  pose proof (filter_length_le (fun f => PB_HTYPE (type f) =? PB_HTYPE_REQUIRED) (take k fields)).
  rewrite length_take in *. lia.
Qed.

Lemma required_before_mono j k : (j <= k)%nat -> required_before fields j <= required_before fields k.
Proof.
  intros Hjk. unfold required_before. rewrite <- (firstn_skipn j (take k fields)), take_take, Nat.min_l by done.
  rewrite List.filter_app, length_app. lia.
Qed.

Lemma req_field_count_of k iter s :
  on_field fields dest k iter -> req_field_count iter s = (Ret required_count, s).
Proof.
  intros Hon. apply wp_eq. unfold req_field_count. apply wp_bind.
  eapply (wp_loop _ (fun iter t => t = s /\ exists k, on_field fields dest k iter)
    (fun iter _ => Z.of_nat (List.length fields) - Z.of_nat (pos iter))).
  2: { split; [done|by exists k]. }
  2: { lia. }
  clear k iter Hon. intros iter t (-> & k & Hon). pose proof (proj1 Hon) as Hk.
  destruct (on_field_start fields dest nonzero short k iter Hon) as (_ & Hp & _). rewrite Hp.
  split; [lia|]. destruct (Nat.eqb_spec (S k) (List.length fields)) as [Hlast|Hmore].
  - rewrite (on_field_wrap fields dest nonzero short k iter Hon) by done. apply wp_ret. apply wp_ret.
    split; [|done]. rewrite (on_field_cur fields dest nonzero short k iter Hon).
    assert (Hr : required_field_index iter = required_before fields k).
    { destruct (iter_nth_at fields dest nonzero k Hk short) as (_ & _ & _ & Hr & _).
      by destruct Hon as [_ [-> | [_ ->]]]. }
    rewrite Hr. unfold required_count. rewrite <- Hlast, (required_before_S fields k Hk).
    rewrite (on_field_cur fields dest nonzero short 0 _ (on_field_nth fields dest 0 ltac:(lia))).
    pose proof (field_at_tag fields nonzero 0 ltac:(lia)).
    destruct (Z.eqb_spec (tag (field_at fields 0)) 0); [done|]. rewrite andb_true_r.
    destruct (PB_HTYPE _ =? _); rewrite ?Z.add_0_r;
      match goal with |- context [PB_MAX_REQUIRED_FIELDS <? ?r] => destruct (Z.ltb_spec PB_MAX_REQUIRED_FIELDS r) end; lia.
  - rewrite (on_field_next fields dest nonzero short k iter Hon) by lia. apply wp_ret.
    pose proof (on_field_nth fields dest (S k) ltac:(lia)) as Hon'.
    destruct (on_field_start fields dest nonzero short _ _ Hon') as (_ & -> & _).
    split; [|lia]. split; [done|by exists (S k)].
Qed.

(** Every number below the count is that of a required field. *)
Lemma required_field_number i :
  0 <= i < required_before fields (List.length fields) ->
  exists k, (k < List.length fields)%nat /\ PB_HTYPE (type (field_at fields k)) = PB_HTYPE_REQUIRED /\
    required_before fields k = i.
Proof.
  intros Hi. assert (Hn : forall n, (n <= List.length fields)%nat -> i < required_before fields n ->
    exists k, (k < n)%nat /\ PB_HTYPE (type (field_at fields k)) = PB_HTYPE_REQUIRED /\
      required_before fields k = i).
  { induction n as [|n IH]; intros Hn Hlt; [by change (i < 0) in Hlt; lia|].
    rewrite required_before_S in Hlt by lia.
    destruct (Z.lt_ge_cases i (required_before fields n)) as [Hlt'|Hge].
    - destruct (IH ltac:(lia) Hlt') as (k & Hk & Hr & He). exists k. split; [lia|done].
    - destruct (Z.eqb_spec (PB_HTYPE (type (field_at fields n))) PB_HTYPE_REQUIRED); [|lia].
      exists n. split; [lia|]. split; [done|lia]. }
  destruct (Hn (List.length fields) ltac:(lia) ltac:(lia)) as (k & Hk & Hr & He). by exists k.
Qed.
End Counting.
