(* ===== verification/DecodeProps.v ===== *)
(** [pb_decode_noinit] implements [Wire.put_message], continued: one record, the
    message loop and the required fields, and messages of any nesting.

    The decoder on well-formed messages: [pb_decode] and its variants implement
    [Wire.put_message], whatever the order of the fields and whatever unknown
    fields are among them. *)

From Stdlib Require Import ZArith Lia List String Bool.
From stdpp Require Import base gmap list.
From S2P Require Import Prelude Base128 Memory Pb PbCommon PbDecode PbDecodeMsg PbEncode Cct Varint EncodeSpec Samples WireProps Iter Safe Safety SafetyProps Wire DecodeRefine Required.

Section Record.
Context `{Env}.
Variables (m n q : nat) (decode : list pb_field_t -> Z -> D unit).
Hypothesis deep : (S m <= n)%nat.
Hypothesis safe_decode : forall fields size dest lo hi,
  table_ok m fields size = true -> inside lo hi dest size -> safe lo hi (decode fields dest) any.
Hypothesis decode_of : forall fields size dest lo hi rs m' s,
  table_ok m fields size = true -> inside lo hi dest size -> records_ok rs ->
  reading lo hi s (message_bytes rs) -> bytes_left (stream s) = zlen (message_bytes rs) ->
  put_message q fields dest rs (mem (d_world s)) = Some m' ->
  decode fields dest s = (Ret tt, after (zlen (message_bytes rs)) m' s).

Variables (fields : list pb_field_t) (size dest lo hi : Z).
Hypothesis ok : table_ok (S m) fields size = true.
Hypothesis here : inside lo hi dest size.

(** *** Finding the field *)

Lemma find_known t k j iter :
  on_field fields dest j iter -> field_index fields t = Some k -> single (field_at fields k) = true ->
  pb_field_iter_find iter t = Some (true, iter_nth fields dest k).
Proof.
  intros Hon Hf Hs. destruct (field_index_some fields t k Hf) as [Hk <-].
  destruct (table_ok_inv _ _ _ ok) as (m' & [= <-] & Hne & Hshort & Hdup & Hnz & Hfits).
  rewrite (find_on_field fields dest Hnz Hshort _ j iter Hon).
  rewrite found_unique; [|done|apply Hon|done|apply Hfits, Hk].
  destruct (Nat.eqb_spec k j) as [->|]; [|done]. destruct Hon as [_ [->|[Hrep _]]]; [done|].
  by destruct (single_htype _ Hs).
Qed.

Lemma find_unknown t j iter :
  on_field fields dest j iter -> field_index fields t = None ->
  pb_field_iter_find iter t = Some (false, iter_nth fields dest j).
Proof.
  intros Hon Hf. destruct (table_ok_inv _ _ _ ok) as (m' & [= <-] & Hne & Hshort & Hdup & Hnz & Hfits).
  rewrite (find_on_field fields dest Hnz Hshort _ j iter Hon). unfold found_from.
  destruct (List.find _ _) as [i|] eqn:Ef; [|done]. exfalso.
  apply find_some in Ef as [Hin Hi]. apply andb_true_iff in Hi as [Hi _]. apply Z.eqb_eq in Hi.
  unfold around in Hin. rewrite in_app_iff, !in_seq in Hin. pose proof (proj1 Hon).
  by apply (field_index_none fields t i Hf); [lia|].
Qed.

(** *** A known field *)

Lemma flag_at iter k :
  on_field fields dest k iter -> PB_HTYPE (type (field_at fields k)) = PB_HTYPE_OPTIONAL ->
  iter = iter_nth fields dest k ->
  size_at_data iter = (size_offset (field_at fields k) =? 0).
Proof.
  intros Hon Hh Ei. destruct (on_field_fits _ _ _ _ _ _ ok Hon Ei) as (_ & Hd & Hs & _).
  unfold size_at_data. rewrite Hs, Hd, size_place_plain by (by rewrite Hh).
  destruct (Z.eqb_spec (size_offset (field_at fields k)) 0) as [->|Hne]; [by rewrite Z.add_0_r, Z.eqb_refl|].
  apply Z.eqb_neq. lia.
Qed.

Lemma static_field_of k wt x s m' :
  (k < List.length fields)%nat -> single (field_at fields k) = true -> wire_ok x ->
  reading lo hi s (payload x) ->
  put_value (put_message q) (field_at fields k) (dest + field_offset fields k) x
    (put_flag (field_at fields k) (dest + size_place fields k) (mem (d_world s))) = Some m' ->
  decode_static_field n decode wt (iter_nth fields dest k) s = (Ret tt, after (zlen (payload x)) m' s).
Proof.
  intros Hk Hs Hx Hr Hput. destruct (table_shape m fields size ok) as (Hne & Hshort & Hnz & Hfits).
  pose proof (on_field_nth fields dest k Hk) as Hon.
  destruct (on_field_fits _ _ _ _ _ _ ok Hon eq_refl) as (Hcur & Hdata & Hsize & Hf).
  pose proof (flag_at _ k Hon) as Hflag. unfold decode_static_field. rewrite Hcur, Hdata.
  destruct (single_htype _ Hs) as [Hrep _]. cbv zeta. unfold put_flag in Hput. remember (field_at fields k) as f.
  pose proof (fits_inside _ _ _ _ _ _ _ _ Hf here Hrep) as Hplace.
  destruct (Z.eqb_spec (PB_HTYPE (type f)) PB_HTYPE_REQUIRED) as [E|Hreq].
  { rewrite E in Hput. cbn [Z.eqb andb PB_HTYPE_REQUIRED PB_HTYPE_OPTIONAL] in Hput.
    by eapply (decoder_of m n q decode). }
  destruct (Z.eqb_spec (PB_HTYPE (type f)) PB_HTYPE_OPTIONAL) as [E|Hno].
  2: { exfalso. unfold single in Hs. apply orb_true_iff in Hs. rewrite !Z.eqb_eq in Hs. by destruct Hs. }
  rewrite (Hflag E eq_refl). cbn [andb] in Hput.
  destruct (Z.eqb_spec (size_offset f) 0) as [E0|Hso]; cbn [negb] in Hput.
  - rewrite bind_ret. by eapply (decoder_of m n q decode).
  - rewrite Hsize. erewrite bind_Ret; [|unfold size_addr; erewrite bind_Ret by reflexivity; apply storeW_stored].
    cbv beta. rewrite (decoder_of m n q decode decode_of lo hi size _ _ f _ x _ m' Hf Hplace Hrep Hx).
    + unfold stored. by rewrite after_after.
    + apply (reading_after lo hi s []); [exact Hr|]. apply outside_store.
      eapply fits_size_inside; [exact Hf|exact here|]. unfold size_bytes. rewrite E.
      destruct (Z.eqb_spec (size_offset f) 0); [done|]. cbn. lia.
    + exact Hput.
Qed.

Lemma field_of k wt x s m' :
  (k < List.length fields)%nat -> single (field_at fields k) = true -> wire_ok x ->
  reading lo hi s (payload x) ->
  put_value (put_message q) (field_at fields k) (dest + field_offset fields k) x
    (put_flag (field_at fields k) (dest + size_place fields k) (mem (d_world s))) = Some m' ->
  decode_field n decode wt (iter_nth fields dest k) s =
    (Ret (iter_nth fields dest k), after (zlen (payload x)) m' s).
Proof.
  intros Hk Hs Hx Hr Hput. destruct (table_shape m fields size ok) as (Hne & Hshort & Hnz & Hfits).
  pose proof (on_field_cur fields dest Hnz Hshort k _ (on_field_nth fields dest k Hk)) as Hcur.
  destruct (single_htype _ Hs) as [_ Hone]. unfold decode_field. rewrite Hcur.
  destruct (Z.eqb_spec (PB_HTYPE (type (field_at fields k))) PB_HTYPE_ONEOF); [done|].
  rewrite bind_ret, Hcur, (fits_static _ _ _ _ _ (Hfits k Hk)). cbv zeta. cbn [Z.eqb PB_ATYPE_STATIC].
  by erewrite bind_Ret by (by eapply (static_field_of k _ x)).
Qed.

Lemma track_single k f s :
  (k < List.length fields)%nat -> single (field_at fields k) = true ->
  track_fixed_count (iter_nth fields dest k) f s = (Ret (iter_nth fields dest k, f), s).
Proof.
  intros Hk Hs. destruct (table_shape m fields size ok) as (Hne & Hshort & Hnz & Hfits).
  destruct (single_htype _ Hs) as [Hrep _]. unfold track_fixed_count.
  rewrite (on_field_cur fields dest Hnz Hshort k _ (on_field_nth fields dest k Hk)).
  by destruct (Z.eqb_spec (PB_HTYPE (type (field_at fields k))) PB_HTYPE_REPEATED).
Qed.

(** What a record adds to the set of required fields. *)
Definition seen_after (t : Z) (seen : list Z) : list Z :=
  match field_index fields t with
  | Some k => mark_required (iter_nth fields dest k) seen
  | None => seen
  end.

(** *** A record *)

Lemma record_wire_type_range x : 0 <= wire_type x < 8.
Proof. by destruct x. Qed.

Lemma payload_wire_value x : wire_ok x -> wire_value (wire_type x) (payload x).
Proof.
  assert (Hd : forall l, zlen l < 2 ^ 32 -> wire_value PB_WT_STRING (delimited l)).
  { intros l Hl. pose proof (zlen_nonneg l). destruct (varint_bytes_spec (zlen l) ltac:(lia)) as (Hv & Hval & Hlen).
    by apply wire_string; [|lia|..]. }
  destruct x as [l|l|l|l|rs]; cbn [wire_ok wire_type payload]; intros Hx.
  - destruct Hx. by constructor.
  - by constructor.
  - by constructor.
  - by apply Hd.
  - apply Hd, Hx.
Qed.

(** The tag, then the rest. *)
Lemma reading_tag s r rest :
  tag_ok (fst r) -> reading lo hi s (record_bytes payload r ++ rest) ->
  let t := spec_tag (wire_type (snd r)) (fst r) in
  pb_decode_tag s = (Ret (inr (wire_type (snd r), fst r)), after (zlen t) (mem (d_world s)) s) /\
  reading lo hi (after (zlen t) (mem (d_world s)) s) (payload (snd r) ++ rest).
Proof.
  intros Ht Hr. unfold record_bytes in Hr. rewrite <- app_assoc in Hr. cbv zeta. split.
  - rewrite after_advance. apply pb_decode_tag_of; [apply record_wire_type_range|exact Ht|].
    by eapply reading_at, reading_app_l.
  - by eapply reading_after.
Qed.

(** A field the table does not know is passed over. *)
Lemma unknown_of l x s j t rest :
  on_field fields dest j (l_iter l) -> 0 <= t < 2 ^ 29 -> wire_ok x -> reading lo hi s (payload x ++ rest) ->
  exists l' j', decode_unknown n decode (wire_type x) t l s = (Ret l', after (zlen (payload x)) (mem (d_world s)) s) /\
    on_field fields dest j' (l_iter l') /\ fields_seen l' = fields_seen l /\
    fixed_count_field l' = fixed_count_field l.
Proof.
  intros Hon Ht Hx Hr. unfold decode_unknown. rewrite after_advance.
  assert (Hskip : pb_skip_field (wire_type x) s = (Ret tt, advance (zlen (payload x)) s)).
  { apply pb_skip_field_correct; [by apply payload_wire_value|]. by eapply reading_at, reading_app_l. }
  destruct (extension_range_start l <=? t).
  - destruct (no_extension m n deep fields size dest ok j _ Hon) as (j' & iter' & -> & Hon').
    destruct (Z.leb_spec (u32 (-1)) t) as [Hle|_]; [change (u32 (-1)) with 4294967295 in Hle; lia|].
    rewrite bind_ret. eexists _, j'. erewrite bind_Ret by exact Hskip. by split.
  - rewrite bind_ret. exists l, j. by erewrite bind_Ret by exact Hskip.
Qed.

Lemma varint_bytes_pos v : (1 <= List.length (varint_bytes v))%nat.
Proof. unfold varint_bytes. cbn [varint_groups]. destruct (_ <? _); cbn [List.length]; lia. Qed.

(** One turn of the message loop. *)
Lemma record_of r rest l j s m' :
  on_field fields dest j (l_iter l) -> fixed_count_field l = None ->
  tag_ok (fst r) -> wire_ok (snd r) -> reading lo hi s (record_bytes payload r ++ rest) ->
  put_record (put_message q) fields dest r (mem (d_world s)) = Some m' ->
  exists l' j', decode_step n decode l s = (Ret (inl l'), after (zlen (record_bytes payload r)) m' s) /\
    on_field fields dest j' (l_iter l') /\ fixed_count_field l' = None /\
    fields_seen l' = seen_after (fst r) (fields_seen l).
Proof.
  intros Hon Hfix Ht Hx Hr Hput. destruct (table_shape m fields size ok) as (Hne & Hshort & Hnz & Hfits).
  destruct (reading_tag s r rest Ht Hr) as [Htag Hr2]. unfold put_record in Hput. unfold seen_after.
  unfold decode_step. rewrite bind_get.
  assert (Hleft : bytes_left (stream s) <> 0).
  { destruct Hr as (_ & (_ & _ & Hlen) & _). rewrite length_app in Hlen. unfold record_bytes, spec_tag in Hlen.
    rewrite length_app in Hlen.
    pose proof (varint_bytes_pos (Z.lor (u64 (Z.shiftl (fst r) 3)) (wire_type (snd r)))). lia. }
  destruct (Z.eqb_spec (bytes_left (stream s)) 0); [done|].
  erewrite bind_Ret by exact Htag. cbv beta iota. unfold record_bytes. rewrite zlen_app'.
  set (s1 := after _ _ s) in *. change (mem (d_world s)) with (mem (d_world s1)) in Hput.
  destruct (field_index fields (fst r)) as [k|] eqn:Ef.
  - destruct (single (field_at fields k)) eqn:Hs; [|done].
    rewrite (find_known _ k j _ Hon Ef Hs). destruct (field_index_some _ _ _ Ef) as [Hk _].
    erewrite bind_Ret by (by apply track_single). cbv beta iota zeta.
    erewrite bind_Ret by (eapply field_of; [done|done|done|by eapply reading_app_l|exact Hput]).
    eexists _, k. split; [unfold ret, s1; by rewrite after_after|]. by split; [apply on_field_nth|].
  - injection Hput as <-. rewrite (find_unknown _ j _ Hon Ef).
    assert (Hj : on_field fields dest j (iter_nth fields dest j)) by (apply on_field_nth, Hon).
    destruct (unknown_of (mk_locals (iter_nth fields dest j) (extension_range_start l) (fields_seen l)
      (fixed_count_field l)) (snd r) s1 j (fst r) rest Hj) as (l' & j' & Hu & Hon' & Hseen & Hfix');
      [destruct Ht; lia|done|done|].
    erewrite bind_Ret by exact Hu. exists l', j'. cbn in Hseen, Hfix'. rewrite Hfix' , Hseen.
    split; [unfold ret, s1; by rewrite after_after|done].
Qed.
(** What a turn writes stays in the structure. *)
Lemma record_outside l j s r k m' :
  on_field fields dest j (l_iter l) -> sound s ->
  decode_step n decode l s = (Ret r, after k m' s) -> outside lo hi (mem (d_world s)) m'.
Proof.
  intros Hon Hs Hstep. pose proof (safe_decode_step m n decode deep safe_decode fields size dest lo hi ok here l j Hon s Hs) as Hw.
  unfold wp in Hw. rewrite Hstep in Hw. destruct Hw as [(_ & _ & _ & Hout) _]. exact Hout.
Qed.

(** *** The required fields *)

(** [seen] is right after the records [rs]: nothing but required fields, all of [rs]. *)
Definition seen_ok (rs : list (Z * wire)) (seen : list Z) : Prop :=
  words_ok seen /\ within (required_before fields (List.length fields)) seen /\
  forall r k, In r rs -> field_index fields (fst r) = Some k ->
    PB_HTYPE (type (field_at fields k)) = PB_HTYPE_REQUIRED -> required_before fields k < 64 ->
    seen_bit seen (required_before fields k) = true.

Lemma seen_ok_start : seen_ok [] [0; 0].
Proof.
  split; [|split].
  - split; [done|]. repeat constructor; lia.
  - intros i Hi. unfold seen_bit. destruct (Z.to_nat (i / 32)) as [|[|[|k]]]; cbn; apply Z.bits_0.
  - intros r k [].
Qed.

Lemma seen_ok_after rs seen r :
  seen_ok rs seen -> seen_ok (rs ++ [r]) (seen_after (fst r) seen).
Proof.
  destruct (table_shape m fields size ok) as (Hne & Hshort & Hnz & Hfits).
  intros (Hw & Hin & Hall). unfold seen_after. destruct (field_index fields (fst r)) as [k|] eqn:Ef.
  - destruct (field_index_some _ _ _ Ef) as [Hk _]. pose proof (on_field_nth fields dest k Hk) as Hon.
    destruct (iter_nth_at fields dest Hnz k Hk Hshort) as (_ & _ & _ & Hri & _).
    pose proof (required_before_range fields k) as Hr0.
    assert (Hbits : forall i, 0 <= i < 64 -> seen_bit (mark_required (iter_nth fields dest k) seen) i =
      seen_bit seen i || ((PB_HTYPE (type (field_at fields k)) =? PB_HTYPE_REQUIRED) && (i =? required_before fields k))).
    { intros i Hi. rewrite mark_required_bits by (done || lia).
      by rewrite Hri, (on_field_cur fields dest Hnz Hshort k _ Hon). }
    split; [by apply mark_required_ok|]. split.
    + intros i Hi. pose proof (required_before_range fields (List.length fields)) as HR.
      rewrite Hbits by lia. rewrite Hin by done.
      destruct (Z.eqb_spec (PB_HTYPE (type (field_at fields k))) PB_HTYPE_REQUIRED) as [E|]; [|done].
      pose proof (required_before_mono fields (S k) (List.length fields) Hk) as Hmono.
      rewrite (required_before_S fields k Hk), E in Hmono. cbn [Z.eqb PB_HTYPE_REQUIRED] in Hmono.
      apply Z.eqb_neq. lia.
    + intros r' k' Hr' Hf' Hreq' Hlt. pose proof (required_before_range fields k').
      rewrite Hbits by lia. apply in_app_iff in Hr' as [Hr'|[<-|[]]].
      * by rewrite (Hall r' k').
      * rewrite Hf' in Ef. injection Ef as ->. rewrite Hreq', !Z.eqb_refl. apply orb_true_r.
  - split; [done|]. split; [done|]. intros r' k Hr' Hf. apply in_app_iff in Hr' as [Hr'|[<-|[]]]; [by eapply Hall|].
    by rewrite Hf in Ef.
Qed.

(** With every required field among the records, the check passes. *)
Lemma required_passes rs seen s :
  seen_ok rs seen -> required_present fields rs = true ->
  check_required seen (required_count fields) s = (Ret tt, s).
Proof.
  destruct (table_ok_inv _ _ _ ok) as (m' & _ & Hne & Hshort & Hdup & Hnz & _).
  intros (Hw & Hin & Hall) Hpres. pose proof (required_before_range fields (List.length fields)) as HR.
  unfold required_count, PB_MAX_REQUIRED_FIELDS. apply check_required_accepts; [done|lia| |].
  - intros i Hi. apply Hin. lia.
  - intros i Hi. destruct (required_field_number fields i ltac:(lia)) as (k & Hk & Hreq & <-).
    unfold required_present in Hpres. rewrite forallb_forall in Hpres.
    specialize (Hpres (field_at fields k) (nth_In _ _ Hk)). rewrite Hreq in Hpres. cbn [Z.eqb negb orb PB_HTYPE_REQUIRED] in Hpres.
    apply existsb_exists in Hpres as (r & Hr & Ht). apply Z.eqb_eq in Ht.
    apply (Hall r k Hr); [|done|lia].
    destruct (field_index fields (fst r)) as [k'|] eqn:Ef.
    + destruct (field_index_some _ _ _ Ef) as [Hk' Ht']. f_equal. apply (tag_inj fields Hdup); [done|done|congruence].
    + exfalso. by apply (field_index_none fields _ k Ef Hk).
Qed.

(** *** The message *)

Lemma message_bytes_app rs1 rs2 : message_bytes (rs1 ++ rs2) = message_bytes rs1 ++ message_bytes rs2.
Proof. apply flat_map_app. Qed.

(** The state of the loop after the records [rs1], with [rs2] to come. *)
Definition loop_inv (rs : list (Z * wire)) (m' : gmap Z Z) (s : dstate) (l : locals) (t : dstate) : Prop :=
  exists rs1 rs2 j m1, rs = rs1 ++ rs2 /\ on_field fields dest j (l_iter l) /\ fixed_count_field l = None /\
    seen_ok rs1 (fields_seen l) /\ t = after (zlen (message_bytes rs1)) m1 s /\
    put_records (put_message q) fields dest rs2 m1 = Some m' /\
    reading lo hi t (message_bytes rs2) /\ bytes_left (stream t) = zlen (message_bytes rs2).

Lemma loop_of rs m' s :
  records_ok rs -> reading lo hi s (message_bytes rs) -> bytes_left (stream s) = zlen (message_bytes rs) ->
  put_records (put_message q) fields dest rs (mem (d_world s)) = Some m' ->
  wp (loop (decode_step n decode) (mk_locals (snd (pb_field_iter_begin fields dest)) 0 [0; 0] None))
    (fun l t => t = after (zlen (message_bytes rs)) m' s /\ fixed_count_field l = None /\
       seen_ok rs (fields_seen l) /\ exists j, on_field fields dest j (l_iter l)) (fun _ => False) s.
Proof.
  intros Hrs Hr Hleft Hput. destruct (table_shape m fields size ok) as (Hne & Hshort & Hnz & Hfits).
  apply (wp_loop _ (loop_inv rs m' s) (fun _ t => bytes_left (stream t))).
  - intros l t (rs1 & rs2 & j & m1 & -> & Hon & Hfix & Hseen & -> & Hput2 & Hr2 & Hleft2).
    split; [rewrite Hleft2; apply zlen_nonneg|]. destruct rs2 as [|r rs2].
    + unfold decode_step. apply wp_bind, wp_get. rewrite Hleft2. apply wp_ret. rewrite app_nil_r.
      injection Hput2 as <-. split; [done|]. split; [done|]. split; [done|]. by exists j.
    + cbn [put_records] in Hput2. destruct (put_record _ _ _ _ _) as [m2|] eqn:Er; [|done].
      apply Forall_app in Hrs as [_ Hrs]. apply Forall_cons in Hrs as [[Ht Hx] _].
      change (message_bytes (r :: rs2)) with (record_bytes payload r ++ message_bytes rs2) in *.
      destruct (record_of r (message_bytes rs2) l j (after (zlen (message_bytes rs1)) m1 s) m2
        Hon Hfix Ht Hx Hr2 Er) as (l' & j' & Hstep & Hon' & Hfix' & Hseen').
      eapply wp_of_eq; [exact Hstep|]. rewrite zlen_app' in Hleft2. split.
      * exists (rs1 ++ [r]), rs2, j', m2. rewrite <- app_assoc. split; [done|]. split; [done|]. split; [done|].
        split; [rewrite Hseen'; by apply seen_ok_after|].
        assert (E : message_bytes (rs1 ++ [r]) = message_bytes rs1 ++ record_bytes payload r).
        { rewrite message_bytes_app. cbn. by rewrite app_nil_r. }
        rewrite E, zlen_app', <- (after_after _ _ m1). split; [done|]. split; [done|]. split.
        -- apply reading_after; [exact Hr2|]. eapply record_outside; [exact Hon|apply Hr2|exact Hstep].
        -- rewrite left_after. lia.
      * rewrite left_after. assert (0 < zlen (record_bytes payload r)); [|lia].
        unfold record_bytes, spec_tag. rewrite zlen_app'. pose proof (zlen_nonneg (payload (snd r))).
        pose proof (varint_bytes_pos (Z.lor (u64 (Z.shiftl (fst r) 3)) (wire_type (snd r)))). unfold zlen in *. lia.
  - exists [], rs, O, (mem (d_world s)). split; [done|]. split; [by apply (on_field_nth fields dest 0)|].
    split; [done|]. split; [apply seen_ok_start|]. split; [symmetry; apply after_0|]. split; [exact Hput|]. by split.
  - rewrite Hleft. destruct Hr as (_ & (_ & _ & Hlen) & _). unfold zlen. lia.
Qed.

Lemma noinit_of rs m' s :
  records_ok rs -> reading lo hi s (message_bytes rs) -> bytes_left (stream s) = zlen (message_bytes rs) ->
  put_message (S q) fields dest rs (mem (d_world s)) = Some m' ->
  decode_noinit_body n decode fields dest s = (Ret tt, after (zlen (message_bytes rs)) m' s).
Proof.
  intros Hrs Hr Hleft Hput. cbn [put_message] in Hput.
  destruct (required_present fields rs) eqn:Hpres; [|done].
  destruct (table_shape m fields size ok) as (Hne & Hshort & Hnz & Hfits).
  apply wp_eq. unfold decode_noinit_body. apply wp_bind.
  eapply wp_mono; [by eapply loop_of| |done].
  intros l t (-> & Hfix & Hseen & j & Hon). rewrite Hfix. apply wp_bind, wp_bind, wp_gets, wp_ret, wp_bind.
  eapply wp_of_eq; [by eapply req_field_count_of|].
  by eapply wp_of_eq; [by eapply required_passes|].
Qed.
End Record.

(** A computation with a counter of its own. *)
Lemma own_count_of (body : D unit) k m' s :
  body (set_count 0 s) = (Ret tt, after k m' (set_count 0 s)) ->
  (fun s => let '(r, s') := body (set_count 0 s) in (r, set_count (fixed_count_size s) s')) s =
    (Ret tt, after k m' s).
Proof. intros Hb. cbv beta. rewrite Hb. by destruct s as [[] ? []]. Qed.

Lemma reading_count lo hi s l : reading lo hi s l -> reading lo hi (set_count 0 s) l.
Proof. intros ((Hcb & Hn & Hc) & Hat & Haway). split; [|done]. split; [done|]. split; [done|cbn; lia]. Qed.

(** A message of nesting at most [m], with more fuel than that. *)
Lemma pb_decode_noinit_of `{Env} m : forall n q fields size dest lo hi rs m' s,
  (m < n)%nat -> table_ok m fields size = true -> inside lo hi dest size -> records_ok rs ->
  reading lo hi s (message_bytes rs) -> bytes_left (stream s) = zlen (message_bytes rs) ->
  put_message q fields dest rs (mem (d_world s)) = Some m' ->
  pb_decode_noinit n fields dest s = (Ret tt, after (zlen (message_bytes rs)) m' s).
Proof.
  induction m as [|m IH]; intros n q fields size dest lo hi rs m' s Hn Hok Hin Hrs Hr Hleft Hput; [done|].
  destruct n as [|n]; [lia|]. destruct q as [|q]; [done|]. cbn [pb_decode_noinit]. unfold decode_noinit_frame.
  apply own_count_of. apply (noinit_of m n q) with (size := size) (lo := lo) (hi := hi); try done.
  - lia.
  - intros. eapply safe_pb_decode_noinit; [|done|done]. lia.
  - intros. eapply IH; [|done..]. lia.
  - by apply reading_count.
Qed.

(** [l] lies at [a], away from the structure of [size] bytes at [dest]. *)
Definition input_at (a : Z) (l : list Z) (dest size : Z) (w : world) : Prop :=
  load_bytes (mem w) a (List.length l) = l /\ (a + zlen l <= dest \/ dest + size <= a).

(** [true], every byte read, no error, the memory [m'], nothing allocated or freed. *)
Definition decoded (m' : gmap Z Z) (w : world) (r : outcome unit * dstate) : Prop :=
  fst r = Ret tt /\ at_end (snd r) /\ d_world (snd r) = mk_world m' (live w).

Lemma decoded_after m' a k w r :
  r = (Ret tt, after k m' (decoder_at a k w)) -> decoded m' w r.
Proof. intros ->. split; [done|]. split; [|done]. split; [cbn; lia|done]. Qed.

Lemma reading_input a l dest size w :
  zlen l < 2 ^ 64 -> input_at a l dest size w -> reading dest (dest + size) (decoder_at a (zlen l) w) l.
Proof.
  intros Hl [Hat Haway]. pose proof (zlen_nonneg l). split; [by apply sound_decoder_at|].
  split; [|done]. split; [done|]. split; [done|]. cbn. unfold zlen in *. lia.
Qed.

Section Properties.
Context `{Env}.
Variables (m n q : nat) (fields : list pb_field_t) (size dest : Z) (rs : list (Z * wire)).
Hypothesis ok : table_ok m fields size = true.
Hypothesis deep : (m < n)%nat.
Hypothesis records : records_ok rs.
Hypothesis short : zlen (message_bytes rs) < 2 ^ 32.

Lemma noinit_correct a w m' :
  input_at a (message_bytes rs) dest size w -> put_message q fields dest rs (mem w) = Some m' ->
  pb_decode_noinit n fields dest (decoder_at a (zlen (message_bytes rs)) w) =
    (Ret tt, after (zlen (message_bytes rs)) m' (decoder_at a (zlen (message_bytes rs)) w)).
Proof.
  intros Hin Hput. apply (pb_decode_noinit_of m n q fields size dest dest (dest + size)); [done|done|apply whole_struct|done| |done|done].
  apply reading_input; [lia|done].
Qed.

(** C3: [pb_decode_noinit] on the bytes of a well-formed message merges the message
    into the structure: it returns [true] having read everything, the fields appear
    in any order, repeated ones override, nested ones are merged, unknown ones are
    skipped, and the required ones were all there. *)
Theorem pb_decode_noinit_correct a w m' :
  input_at a (message_bytes rs) dest size w -> put_message q fields dest rs (mem w) = Some m' ->
  decoded m' w (pb_decode_noinit n fields dest (decoder_at a (zlen (message_bytes rs)) w)).
Proof. intros Hin Hput. eapply decoded_after. by apply noinit_correct. Qed.

(** What the defaults do to a world. *)
Lemma defaults_done w :
  exists w1, pb_message_set_to_defaults n fields dest w = (Ret tt, w1) /\ unchanged dest (dest + size) w w1.
Proof.
  pose proof (safeW_message_defaults n fields size dest dest (dest + size)
    (table_ok_le m n fields size ltac:(lia) ok) (whole_struct dest size) w) as Hs.
  unfold wp in Hs. destruct (pb_message_set_to_defaults n fields dest w) as [[[]| |] w1]; [|done|done].
  exists w1. split; [done|apply Hs].
Qed.

Lemma decode_correct a w :
  input_at a (message_bytes rs) dest size w ->
  exists w1, pb_message_set_to_defaults n fields dest w = (Ret tt, w1) /\
  forall m', put_message q fields dest rs (mem w1) = Some m' ->
    pb_decode n fields dest (decoder_at a (zlen (message_bytes rs)) w) =
      (Ret tt, after (zlen (message_bytes rs)) m' (decoder_at a (zlen (message_bytes rs)) w)).
Proof.
  intros [Hat Haway]. destruct (defaults_done w) as (w1 & Hd & Hlive & Hout). exists w1. split; [done|].
  intros m' Hput. unfold pb_decode, pb_decode_with.
  erewrite bind_Ret by (instantiate (1 := decoder_at a (zlen (message_bytes rs)) w1); instantiate (1 := tt);
    unfold liftW, zoom; cbn [decoder_at d_world]; by rewrite Hd).
  assert (Hin1 : input_at a (message_bytes rs) dest size w1).
  { split; [|done]. rewrite <- Hat at 2. apply load_bytes_ext. intros b Hb. apply Hout. unfold zlen in *. lia. }
  erewrite bind_Ret by (apply attempt_Ret, noinit_correct; [exact Hin1|exact Hput]).
  unfold ret, after, set_world, set_mem. cbn. by rewrite Hlive.
Qed.

(** C2: [pb_decode] gives every field its default first, then does the same. *)
Theorem pb_decode_correct a w :
  input_at a (message_bytes rs) dest size w ->
  exists w1, pb_message_set_to_defaults n fields dest w = (Ret tt, w1) /\
  forall m', put_message q fields dest rs (mem w1) = Some m' ->
    decoded m' w (pb_decode n fields dest (decoder_at a (zlen (message_bytes rs)) w)).
Proof.
  intros Hin. destruct (decode_correct a w Hin) as (w1 & Hd & Hall). exists w1. split; [done|].
  intros m' Hput. eapply decoded_after. by apply Hall.
Qed.
End Properties.

(** ** On a concrete message *)

(** The nested message in two parts, and a field 99 that the table does not know. *)
Definition sample_records : list (Z * wire) :=
  [(23, WMessage [(1, WVarint [1])]); (99, WString [1; 2; 3]); (23, WMessage [(2, WVarint [0x8D; 0x00])])].

Definition sample_input : world :=
  mk_world (store_bytes cct_const_mem sample_buffer (message_bytes sample_records)) ∅.

(** What the structure holds in the end. *)
Definition holds_sample (m : gmap Z Z) : Prop :=
  let info := sample_event_at + offsetof (the LogEvent "network_connection_info") in
  load m (sample_event_at + offsetof (the LogEvent "has_network_connection_info")) 1 = 1 /\
  load m (info + offsetof (the NetworkConnectionInfo "network_type")) 4 = 1 /\
  load m (info + offsetof (the NetworkConnectionInfo "mobile_subtype")) 4 = 13.

Lemma sample_records_ok : records_ok sample_records.
Proof.
  unfold records_ok, sample_records.
  repeat (constructor; [repeat split; solve [lia|cbn; lia|by vm_compute]|]); constructor.
Qed.

Lemma sample_input_at : input_at sample_buffer (message_bytes sample_records) sample_event_at 104 sample_input.
Proof. split; [vm_compute; reflexivity|right; vm_compute; congruence]. Qed.

Lemma pb_decode_noinit_correct_witness : exists m', holds_sample m' /\
  decoded m' sample_input (pb_decode_noinit 3 nested_fields sample_event_at
    (decoder_at sample_buffer (zlen (message_bytes sample_records)) sample_input)).
Proof.
  eexists. split; [|apply (pb_decode_noinit_correct 2 3 3 nested_fields 104 sample_event_at sample_records);
    [vm_compute; reflexivity|lia|exact sample_records_ok|vm_compute; reflexivity|exact sample_input_at|
     vm_compute; reflexivity]].
  vm_compute. repeat split.
Defined.

Lemma pb_decode_correct_witness : exists w1, pb_message_set_to_defaults 3 nested_fields sample_event_at sample_input = (Ret tt, w1) /\
  forall m', put_message 3 nested_fields sample_event_at sample_records (mem w1) = Some m' ->
    decoded m' sample_input (pb_decode 3 nested_fields sample_event_at
      (decoder_at sample_buffer (zlen (message_bytes sample_records)) sample_input)).
Proof.
  apply (pb_decode_correct 2 3 3 nested_fields 104 sample_event_at sample_records);
    [vm_compute; reflexivity|lia|exact sample_records_ok|vm_compute; reflexivity|exact sample_input_at].
Defined.
