(* ===== verification/Flat.v ===== *)
(** Flat messages: static fields with a flag or required, of every type but strings,
    nested to any depth. What such a structure says on the wire, as a function of
    its memory, and that this is what [EncodeSpec.spec_encode] gives. *)

From Stdlib Require Import ZArith Lia List String Bool.
From stdpp Require Import base gmap list.
From S2P Require Import Prelude Memory Pb PbCommon PbDecode PbEncode Base128 Varint EncodeSpec Iter Safe Safety Wire.

Section Flat.
Context `{Env}.

(** ** The check *)

Definition int_size (size : Z) : bool := (size =? 1) || (size =? 2) || (size =? 4) || (size =? 8).

Definition flat_type (f : pb_field_t) : bool :=
  let lt := PB_LTYPE (type f) in
  if (lt =? PB_LTYPE_VARINT) || (lt =? PB_LTYPE_UVARINT) || (lt =? PB_LTYPE_SVARINT)
  then int_size (data_size f)
  else (lt =? PB_LTYPE_BOOL) || (lt =? PB_LTYPE_FIXED32) || (lt =? PB_LTYPE_FIXED64)
       || (lt =? PB_LTYPE_BYTES) || (lt =? PB_LTYPE_FIXED_LENGTH_BYTES) || (lt =? PB_LTYPE_SUBMESSAGE).

(** Required, or optional with a flag. *)
Definition flat_rule (f : pb_field_t) : bool :=
  (PB_HTYPE (type f) =? PB_HTYPE_REQUIRED)
  || (PB_HTYPE (type f) =? PB_HTYPE_OPTIONAL) && negb (size_offset f =? 0).

Definition apart (a n b k : Z) : bool := (a + n <=? b) || (b + k <=? a).

Definition flag_bytes (f : pb_field_t) : Z := if PB_HTYPE (type f) =? PB_HTYPE_OPTIONAL then 1 else 0.

(** The fields [i] and [j] of a table share no byte. *)
Definition fields_apart (fields : list pb_field_t) (i j : nat) : bool :=
  let f := field_at fields i in
  let g := field_at fields j in
  apart (field_offset fields i) (data_size f) (field_offset fields j) (data_size g)
  && apart (field_offset fields i) (data_size f) (size_place fields j) (flag_bytes g)
  && apart (size_place fields i) (flag_bytes f) (field_offset fields j) (data_size g)
  && apart (size_place fields i) (flag_bytes f) (size_place fields j) (flag_bytes g).

Definition places_apart (fields : list pb_field_t) : bool :=
  forallb (fun i =>
    apart (size_place fields i) (flag_bytes (field_at fields i))
      (field_offset fields i) (data_size (field_at fields i))
    && forallb (fun j => Nat.eqb i j || fields_apart fields i j) (seq 0 (List.length fields)))
    (seq 0 (List.length fields)).

Fixpoint flat_ok (n : nat) (fields : list pb_field_t) : bool :=
  match n with
  | O => false
  | S n' =>
      forallb (fun f => flat_rule f && flat_type f && (tag f <? 2 ^ 29)
        && (negb (PB_LTYPE (type f) =? PB_LTYPE_SUBMESSAGE) || flat_ok n' (desc (ptr f)))) fields
      && places_apart fields
  end.

(** ** What a structure says *)

(** The integer of [size] bytes at [p]. *)
Definition int_at (signed : bool) (size p : Z) (m : gmap Z Z) : Z :=
  let v := load m p (Z.to_nat size) in
  if signed then swrap (8 * size) v else v.

(** The field is there. *)
Definition present (f : pb_field_t) (flag : Z) (m : gmap Z Z) : bool :=
  (PB_HTYPE (type f) =? PB_HTYPE_REQUIRED) || negb (load m flag 1 =? 0).

Definition value_of (sub : list pb_field_t -> Z -> list (Z * wire)) (f : pb_field_t) (p : Z) (m : gmap Z Z) : wire :=
  let lt := PB_LTYPE (type f) in
  if lt =? PB_LTYPE_BOOL then WVarint (varint_bytes (if load m p 1 =? 0 then 0 else 1))
  else if lt =? PB_LTYPE_VARINT then WVarint (varint_bytes (u64 (int_at true (data_size f) p m)))
  else if lt =? PB_LTYPE_UVARINT then WVarint (varint_bytes (int_at false (data_size f) p m))
  else if lt =? PB_LTYPE_SVARINT then WVarint (varint_bytes (zigzag (int_at true (data_size f) p m)))
  else if lt =? PB_LTYPE_FIXED32 then W32 (load_bytes m p 4)
  else if lt =? PB_LTYPE_FIXED64 then W64 (load_bytes m p 8)
  else if lt =? PB_LTYPE_BYTES then WString (load_bytes m (p + 4) (Z.to_nat (load m p 4)))
  else if lt =? PB_LTYPE_SUBMESSAGE then WMessage (sub (desc (ptr f)) p)
  else WString (load_bytes m p (Z.to_nat (data_size f))).

Fixpoint records_of (n : nat) (m : gmap Z Z) (fields : list pb_field_t) (src : Z) : list (Z * wire) :=
  match n with
  | O => []
  | S n' =>
      flat_map (fun k =>
        let f := field_at fields k in
        if present f (src + size_place fields k) m
        then [(tag f, value_of (records_of n' m) f (src + field_offset fields k) m)] else [])
        (seq 0 (List.length fields))
  end.

(** No present byte array is longer than its room. *)
Fixpoint arrays_fit (n : nat) (m : gmap Z Z) (fields : list pb_field_t) (src : Z) : Prop :=
  match n with
  | O => True
  | S n' => forall k, (k < List.length fields)%nat ->
      let f := field_at fields k in
      let p := src + field_offset fields k in
      present f (src + size_place fields k) m = true ->
      (PB_LTYPE (type f) = PB_LTYPE_BYTES -> load m p 4 + 4 <= data_size f) /\
      (PB_LTYPE (type f) = PB_LTYPE_SUBMESSAGE -> arrays_fit n' m (desc (ptr f)) p)
  end.

(** ** The encoder's specification gives the same *)

Lemma flat_ok_inv n fields :
  flat_ok n fields = true -> exists n', n = S n' /\ places_apart fields = true /\
    forall k, (k < List.length fields)%nat ->
      let f := field_at fields k in
      flat_rule f = true /\ flat_type f = true /\ tag f < 2 ^ 29 /\
      (PB_LTYPE (type f) = PB_LTYPE_SUBMESSAGE -> flat_ok n' (desc (ptr f)) = true).
Proof.
  destruct n as [|n']; [done|]. cbn [flat_ok]. intros Hok. apply andb_true_iff in Hok as [Hall Hap].
  exists n'. split; [done|]. split; [done|]. intros k Hk. cbv zeta.
  rewrite forallb_forall in Hall. specialize (Hall _ (nth_In fields PB_LAST_FIELD Hk)).
  fold (field_at fields k) in Hall.
  apply andb_true_iff in Hall as [Hall Hsub]. apply andb_true_iff in Hall as [Hall Ht].
  apply andb_true_iff in Hall as [Hr Hty]. split; [done|]. split; [done|]. split; [lia|].
  intros E. by rewrite E in Hsub.
Qed.

(** Successful runs of a sequence. *)
Lemma rbind_Ret {A B} (r : R A) (f : A -> R B) m b :
  fst (rbind r f m) = Ret b -> exists a, fst (r m) = Ret a /\ fst (f a m) = Ret b.
Proof. unfold rbind. destruct (r m) as [[a| |] rd]; [|done|done]. cbn. intros Hf. by exists a. Qed.

Lemma rapp_Ret r1 r2 m l :
  fst (rapp r1 r2 m) = Ret l -> exists l1 l2, fst (r1 m) = Ret l1 /\ fst (r2 m) = Ret l2 /\ l = l1 ++ l2.
Proof.
  intros Hr. apply rbind_Ret in Hr as (l1 & H1 & Hr). apply rbind_Ret in Hr as (l2 & H2 & Hr).
  injection Hr as <-. by exists l1, l2.
Qed.

Lemma spec_int_at signed size p m v :
  fst (spec_int signed size p m) = Ret v -> int_size size = true /\ v = int_at signed size p m.
Proof.
  unfold spec_int, int_size, int_at. cbv zeta.
  destruct (Z.eqb_spec size 1) as [->|_]; [intros Hv; injection Hv as <-; by destruct signed|].
  destruct (Z.eqb_spec size 2) as [->|_]; [intros Hv; injection Hv as <-; by destruct signed|].
  destruct (Z.eqb_spec size 4) as [->|_]; [intros Hv; injection Hv as <-; by destruct signed|].
  destruct (Z.eqb_spec size 8) as [->|_]; [intros Hv; injection Hv as <-; by destruct signed|done].
Qed.

Lemma zlen_load_bytes m a n : zlen (load_bytes m a n) = Z.of_nat n.
Proof. unfold zlen. by rewrite length_load_bytes. Qed.

Lemma spec_string_at a n m l :
  0 <= n -> fst (spec_string a n m) = Ret l -> l = delimited (load_bytes m a (Z.to_nat n)).
Proof.
  intros Hn Hl. apply rbind_Ret in Hl as (bs & Hbs & Hl). injection Hbs as <-. injection Hl as <-.
  unfold delimited. rewrite zlen_load_bytes, Z2Nat.id by done. done.
Qed.

Section Spec.
Variables (bound n : nat) (message : list pb_field_t -> Z -> R (list Z)) (sub : list pb_field_t -> Z -> list (Z * wire)).
Variables (mm : gmap Z Z) (fit : list pb_field_t -> Z -> Prop).

Lemma spec_value_at (f : pb_field_t) (p : Z) l :
  flat_type f = true -> 0 <= data_size f -> p <> NULL ->
  PB_ATYPE (type f) = PB_ATYPE_STATIC ->
  (PB_LTYPE (type f) = PB_LTYPE_SUBMESSAGE -> forall l', fst (message (desc (ptr f)) p mm) = Ret l' ->
     l' = message_bytes (sub (desc (ptr f)) p) /\ fit (desc (ptr f)) p) ->
  fst (spec_value bound message f p mm) = Ret l ->
  l = payload (value_of sub f p mm) /\
  wire_type_of (PB_LTYPE (type f)) = Some (wire_type (value_of sub f p mm)) /\
  (PB_LTYPE (type f) = PB_LTYPE_BYTES -> load mm p 4 + 4 <= data_size f) /\
  (PB_LTYPE (type f) = PB_LTYPE_SUBMESSAGE -> fit (desc (ptr f)) p).
Proof.
  intros Hty Hds Hp Hst Hsub. unfold spec_value, value_of. cbv zeta. intros Hl.
  destruct (Z.eqb_spec (PB_LTYPE (type f)) PB_LTYPE_BOOL) as [E|N0].
  { rewrite E. apply rbind_Ret in Hl as (b & Hb & Hl). injection Hb as <-. by injection Hl as <-. }
  destruct (Z.eqb_spec (PB_LTYPE (type f)) PB_LTYPE_VARINT) as [E|N1].
  { rewrite E. apply rbind_Ret in Hl as (v & Hv & Hl). apply spec_int_at in Hv as [_ ->]. by injection Hl as <-. }
  destruct (Z.eqb_spec (PB_LTYPE (type f)) PB_LTYPE_UVARINT) as [E|N2].
  { rewrite E. apply rbind_Ret in Hl as (v & Hv & Hl). apply spec_int_at in Hv as [_ ->]. by injection Hl as <-. }
  destruct (Z.eqb_spec (PB_LTYPE (type f)) PB_LTYPE_SVARINT) as [E|N3].
  { rewrite E. apply rbind_Ret in Hl as (v & Hv & Hl). apply spec_int_at in Hv as [_ ->]. by injection Hl as <-. }
  destruct (Z.eqb_spec (PB_LTYPE (type f)) PB_LTYPE_FIXED32) as [E|N4].
  { rewrite E. by injection Hl as <-. }
  destruct (Z.eqb_spec (PB_LTYPE (type f)) PB_LTYPE_FIXED64) as [E|N5].
  { rewrite E. by injection Hl as <-. }
  destruct (Z.eqb_spec (PB_LTYPE (type f)) PB_LTYPE_BYTES) as [E|N6].
  { rewrite E. unfold spec_bytes in Hl. destruct (Z.eqb_spec p NULL); [done|].
    apply rbind_Ret in Hl as (size & Hs & Hl). change (Ret (load mm p 4) = Ret size) in Hs.
    assert (size = load mm p 4) as -> by congruence. rewrite Hst in Hl.
    change (PB_ATYPE_STATIC =? PB_ATYPE_STATIC) with true in Hl.
    destruct (Z.ltb_spec (data_size f) (load mm p 4 + 4)); [done|]. cbn [andb] in Hl.
    apply spec_string_at in Hl as ->; [done|apply load_range]. }
  destruct (Z.eqb_spec (PB_LTYPE (type f)) PB_LTYPE_STRING) as [E|N7].
  { unfold flat_type in Hty. cbv zeta in Hty. by rewrite E in Hty. }
  destruct (Z.eqb_spec (PB_LTYPE (type f)) PB_LTYPE_SUBMESSAGE) as [E|N8].
  { rewrite E. unfold spec_submessage in Hl. destruct (ptr f =? NULL); [done|].
    apply rbind_Ret in Hl as (bs & Hbs & Hl). apply (Hsub E) in Hbs as [-> Hfit].
    destruct (_ <? _) in Hl; [|done]. by injection Hl as <-. }
  destruct (Z.eqb_spec (PB_LTYPE (type f)) PB_LTYPE_FIXED_LENGTH_BYTES) as [E|N10]; [|done].
  rewrite E. by apply spec_string_at in Hl as ->.
Qed.

Lemma spec_tagged_at (f : pb_field_t) (p : Z) l :
  flat_type f = true -> 0 <= data_size f -> p <> NULL ->
  PB_ATYPE (type f) = PB_ATYPE_STATIC ->
  (PB_LTYPE (type f) = PB_LTYPE_SUBMESSAGE -> forall l', fst (message (desc (ptr f)) p mm) = Ret l' ->
     l' = message_bytes (sub (desc (ptr f)) p) /\ fit (desc (ptr f)) p) ->
  fst (spec_tagged bound message f p mm) = Ret l ->
  l = record_bytes payload (tag f, value_of sub f p mm) /\
  (PB_LTYPE (type f) = PB_LTYPE_BYTES -> load mm p 4 + 4 <= data_size f) /\
  (PB_LTYPE (type f) = PB_LTYPE_SUBMESSAGE -> fit (desc (ptr f)) p).
Proof.
  intros Hty Hds Hp Hst Hsub Hl. apply rapp_Ret in Hl as (l1 & l2 & H1 & H2 & ->).
  destruct (spec_value_at f p l2 Hty Hds Hp Hst Hsub H2) as (-> & Hwt & Hfit).
  unfold spec_tag_for_field in H1. rewrite Hwt in H1. by injection H1 as <-.
Qed.
End Spec.

(** A field, then the message. *)
Section Message.
Variables (bound n : nat) (message : list pb_field_t -> Z -> R (list Z)) (m : nat) (mm : gmap Z Z).
Hypothesis message_at : forall fields size src l,
  table_ok m fields size = true -> flat_ok m fields = true -> 0 < src ->
  fst (message fields src mm) = Ret l ->
  l = message_bytes (records_of m mm fields src) /\ arrays_fit m mm fields src.

Variables (fields : list pb_field_t) (size src : Z).
Hypothesis ok : table_ok (S m) fields size = true.
Hypothesis flat : flat_ok (S m) fields = true.
Hypothesis nonnull : 0 < src.

(** What field [k] contributes. *)
Definition records_at (k : nat) : list (Z * wire) :=
  let f := field_at fields k in
  if present f (src + size_place fields k) mm
  then [(tag f, value_of (records_of m mm) f (src + field_offset fields k) mm)] else [].

Definition fit_at (k : nat) : Prop :=
  let f := field_at fields k in
  let p := src + field_offset fields k in
  present f (src + size_place fields k) mm = true ->
  (PB_LTYPE (type f) = PB_LTYPE_BYTES -> load mm p 4 + 4 <= data_size f) /\
  (PB_LTYPE (type f) = PB_LTYPE_SUBMESSAGE -> arrays_fit m mm (desc (ptr f)) p).

Lemma flat_rule_cases f :
  flat_rule f = true -> PB_HTYPE (type f) = PB_HTYPE_REQUIRED \/
    PB_HTYPE (type f) = PB_HTYPE_OPTIONAL /\ size_offset f <> 0.
Proof.
  unfold flat_rule. intros Hr. apply orb_true_iff in Hr as [Hr|Hr]; [left; by apply Z.eqb_eq|right].
  apply andb_true_iff in Hr as [Hr Hs]. apply Z.eqb_eq in Hr. apply negb_true_iff, Z.eqb_neq in Hs. done.
Qed.

Lemma spec_step_at k l :
  (k < List.length fields)%nat -> fst (spec_step bound n message (iter_nth fields src k) mm) = Ret l ->
  l = message_bytes (records_at k) /\ fit_at k.
Proof.
  intros Hk. destruct (table_ok_inv _ _ _ ok) as (m' & [= <-] & Hne & Hshort & _ & Hnz & _).
  destruct (on_field_fits _ _ _ _ _ _ ok (on_field_nth fields src k Hk) eq_refl) as (Hcur & Hdata & _ & Hf).
  destruct (flat_ok_inv _ _ flat) as (m' & [= <-] & _ & Hflat).
  destruct (Hflat k Hk) as (Hrule & Hty & Ht & Hsub). clear Hflat.
  pose proof (size_place_plain fields k) as Hplace.
  unfold spec_step, spec_field. rewrite Hcur, Hdata, (fits_static _ _ _ _ _ Hf).
  destruct (Z.eqb_spec (PB_LTYPE (type (field_at fields k))) PB_LTYPE_EXTENSION); [by destruct (fits_ltype _ _ _ _ _ Hf)|].
  cbn [Z.eqb PB_ATYPE_STATIC orb]. unfold records_at, fit_at, present. cbv zeta.
  remember (field_at fields k) as f eqn:Ef.
  destruct (range_sizes _ (fits_range _ _ _ _ _ Hf)) as [Hds _]. pose proof (fits_data _ _ _ _ _ Hf) as [Hoff _].
  assert (Hp : src + field_offset fields k <> NULL) by (unfold NULL; lia).
  assert (Htag : forall l, fst (spec_tagged bound message f (src + field_offset fields k) mm) = Ret l ->
    l = message_bytes [(tag f, value_of (records_of m mm) f (src + field_offset fields k) mm)] /\
    (PB_LTYPE (type f) = PB_LTYPE_BYTES -> load mm (src + field_offset fields k) 4 + 4 <= data_size f) /\
    (PB_LTYPE (type f) = PB_LTYPE_SUBMESSAGE -> arrays_fit m mm (desc (ptr f)) (src + field_offset fields k))).
  { intros l' Hl'. unfold message_bytes. cbn [flat_map]. rewrite app_nil_r.
    apply (spec_tagged_at bound message (records_of m mm) mm (arrays_fit m mm)); try done; [lia|by apply (fits_static _ _ _ _ _ Hf)|].
    intros E l2 Hl2. destruct (fits_sub _ _ _ _ _ Hf E) as [_ Hok]. eapply message_at; [exact Hok|by apply Hsub|lia|done]. }
  clear Hsub message_at. unfold spec_basic_field. rewrite (fits_static _ _ _ _ _ Hf).
  change (PB_ATYPE_STATIC =? PB_ATYPE_POINTER) with false. cbv iota zeta. intros Hl.
  apply rbind_Ret in Hl as (has & _ & Hl). apply rbind_Ret in Hl as (data & Hd & Hl). injection Hd as <-.
  destruct (flat_rule_cases f Hrule) as [E|[E Hso]]; rewrite E in Hl |- *.
  - cbn [Z.eqb PB_HTYPE_REQUIRED orb] in *. destruct (Z.eqb_spec (src + field_offset fields k) NULL); [done|].
    destruct (Htag l Hl) as [-> Hfit]. by split.
  - destruct (Z.eqb_spec (size_offset f) 0); [done|]. rewrite Hplace by (by rewrite E).
    cbn [Z.eqb Pos.eqb PB_HTYPE_REQUIRED PB_HTYPE_OPTIONAL orb negb] in Hl |- *.
    apply rbind_Ret in Hl as (b & Hb & Hl). apply rbind_Ret in Hb as (c & Hc & Hb).
    change (Ret (load mm (src + field_offset fields k + size_offset f) 1) = Ret c) in Hc.
    assert (c = load mm (src + field_offset fields k + size_offset f) 1) as -> by congruence.
    injection Hb as <-. rewrite Z.add_assoc. destruct (negb _); [|by injection Hl as <-].
    destruct (Htag l Hl) as [-> Hfit]. by split.
Qed.

Lemma spec_fields_at d : forall k fuel l,
  (k + S d = List.length fields)%nat ->
  fst (spec_fields bound n message fuel (iter_nth fields src k) mm) = Ret l ->
  l = message_bytes (flat_map records_at (seq k (S d))) /\ forall j, (k <= j < List.length fields)%nat -> fit_at j.
Proof.
  destruct (table_ok_inv _ _ _ ok) as (m' & [= <-] & Hne & Hshort & _ & Hnz & _).
  induction d as [|d IH]; intros k fuel l Hk Hl; (destruct fuel as [|fuel]; [done|]); cbn [spec_fields] in Hl;
    apply rapp_Ret in Hl as (l1 & l2 & H1 & H2 & ->); apply spec_step_at in H1 as [-> Hfit]; try lia;
    pose proof (on_field_nth fields src k ltac:(lia)) as Hon.
  - rewrite (on_field_wrap fields src Hnz Hshort k _ Hon) in H2 by lia. injection H2 as <-.
    cbn [seq flat_map]. rewrite !app_nil_r. split; [done|]. intros j Hj. by replace j with k by lia.
  - rewrite (on_field_next fields src Hnz Hshort k _ Hon) in H2 by lia. apply IH in H2 as [-> Hfits]; [|lia].
    cbn [seq flat_map]. unfold message_bytes. rewrite (flat_map_app _ (records_at k)). split; [done|].
    intros j Hj. destruct (Nat.eq_dec j k) as [->|]; [done|]. apply Hfits. lia.
Qed.

Lemma spec_message_at l :
  fst (spec_message bound n message fields src mm) = Ret l ->
  l = message_bytes (records_of (S m) mm fields src) /\ arrays_fit (S m) mm fields src.
Proof.
  destruct (table_ok_inv _ _ _ ok) as (m' & [= <-] & Hne & Hshort & _ & Hnz & _). unfold spec_message.
  destruct (pb_field_iter_begin fields src) as [b iter] eqn:Eb.
  assert (Hb : b = true /\ iter = iter_nth fields src 0).
  { pose proof (field_at_tag fields Hnz 0 Hne). unfold pb_field_iter_begin in Eb. injection Eb as <- <-.
    split; [|done]. by destruct (Z.eqb_spec (tag (field_at fields 0)) 0). }
  destruct Hb as [-> ->]. intros Hl.
  destruct (spec_fields_at (List.length fields - 1) 0 bound l ltac:(lia) Hl) as [-> Hfits].
  replace (S (List.length fields - 1)) with (List.length fields) by lia. split; [done|].
  intros k Hk. apply Hfits. lia.
Qed.
End Message.

(** The encoder's specification writes what the structure says. *)
Lemma spec_encode_at bound m : forall n mm fields size src l,
  table_ok m fields size = true -> flat_ok m fields = true -> 0 < src ->
  fst (spec_encode bound n fields src mm) = Ret l ->
  l = message_bytes (records_of m mm fields src) /\ arrays_fit m mm fields src.
Proof.
  induction m as [|m IH]; intros n mm fields size src l Hok Hflat Hsrc Hl; [done|].
  destruct n as [|n]; [done|]. cbn [spec_encode] in Hl.
  eapply (spec_message_at bound n (spec_encode bound n)); [|exact Hok|exact Hflat|exact Hsrc|exact Hl].
  intros. by eapply IH.
Qed.
End Flat.
