(* ===== verification/Roundtrip.v ===== *)
(** The structure a flat message is decoded into holds what the structure it was
    encoded from held: the meaning of [Flat.records_of] in a cleared structure. *)

From Stdlib Require Import ZArith Lia List String Bool.
From stdpp Require Import base gmap list.
From S2P Require Import Prelude Memory Pb PbCommon PbDecode PbDecodeMsg PbEncode Base128 Varint EncodeSpec WireProps Iter Safe Safety SafetyProps Wire DecodeRefine Required DecodeProps Flat.

Section Same.
Context `{Env}.

(** ** The relations *)

(** The same value at [p] in [m] and at [p'] in [m']. *)
Definition same_value (sub : list pb_field_t -> Z -> Z -> Prop) (f : pb_field_t)
    (p : Z) (m : gmap Z Z) (p' : Z) (m' : gmap Z Z) : Prop :=
  let lt := PB_LTYPE (type f) in
  let size := Z.to_nat (data_size f) in
  if lt =? PB_LTYPE_BOOL then (load m' p' 1 =? 0) = (load m p 1 =? 0)
  else if (lt =? PB_LTYPE_VARINT) || (lt =? PB_LTYPE_UVARINT) || (lt =? PB_LTYPE_SVARINT)
  then load m' p' size = load m p size
  else if lt =? PB_LTYPE_FIXED32 then load m' p' 4 = load m p 4
  else if lt =? PB_LTYPE_FIXED64 then load m' p' 8 = load m p 8
  else if lt =? PB_LTYPE_BYTES then
    load m' p' 4 = load m p 4 /\
    load_bytes m' (p' + 4) (Z.to_nat (load m p 4)) = load_bytes m (p + 4) (Z.to_nat (load m p 4))
  else if lt =? PB_LTYPE_SUBMESSAGE then sub (desc (ptr f)) p p'
  else load_bytes m' p' size = load_bytes m p size.

(** The same fields are there, with the same values. *)
Fixpoint same_message (n : nat) (m m' : gmap Z Z) (fields : list pb_field_t) (src dst : Z) : Prop :=
  match n with
  | O => True
  | S n' => forall k, (k < List.length fields)%nat ->
      let f := field_at fields k in
      present f (dst + size_place fields k) m' = present f (src + size_place fields k) m /\
      (present f (src + size_place fields k) m = true ->
       same_value (same_message n' m m') f (src + field_offset fields k) m (dst + field_offset fields k) m')
  end.

(** No optional field is there. *)
Fixpoint cleared (n : nat) (m : gmap Z Z) (fields : list pb_field_t) (dst : Z) : Prop :=
  match n with
  | O => True
  | S n' => forall k, (k < List.length fields)%nat ->
      let f := field_at fields k in
      (PB_HTYPE (type f) = PB_HTYPE_OPTIONAL -> load m (dst + size_place fields k) 1 = 0) /\
      (PB_LTYPE (type f) = PB_LTYPE_SUBMESSAGE -> cleared n' m (desc (ptr f)) (dst + field_offset fields k))
  end.

(** [m] and [m'] agree on [n] bytes at [a]. *)
Definition agree (a n : Z) (m m' : gmap Z Z) : Prop :=
  forall b, a <= b < a + n -> load_byte m' b = load_byte m b.

Lemma agree_sub a n b k m m' : agree a n m m' -> a <= b -> b + k <= a + n -> agree b k m m'.
Proof. intros Ha Hb Hk c Hc. apply Ha. lia. Qed.

Lemma agree_load a k m m' : agree a (Z.of_nat k) m m' -> load m' a k = load m a k.
Proof. intros Ha. apply load_ext. intros b Hb. by apply Ha. Qed.

Lemma agree_load_bytes a k m m' : agree a (Z.of_nat k) m m' -> load_bytes m' a k = load_bytes m a k.
Proof. intros Ha. apply load_bytes_ext. intros b Hb. by apply Ha. Qed.

Lemma agree_outside a n lo hi m m' : outside lo hi m m' -> a + n <= lo \/ hi <= a -> agree a n m m'.
Proof. intros Ho Ha b Hb. apply Ho. lia. Qed.

(** The places of field [k]: its flag and its data. *)
Definition agree_field (fields : list pb_field_t) (dst : Z) (k : nat) (m m' : gmap Z Z) : Prop :=
  agree (dst + size_place fields k) (flag_bytes (field_at fields k)) m m' /\
  agree (dst + field_offset fields k) (data_size (field_at fields k)) m m'.

(** [m'] differs from [m] at most in field [k]. *)
Definition only_field (fields : list pb_field_t) (dst : Z) (k : nat) (m m' : gmap Z Z) : Prop :=
  forall b,
    ~ (dst + size_place fields k <= b < dst + size_place fields k + flag_bytes (field_at fields k)) ->
    ~ (dst + field_offset fields k <= b < dst + field_offset fields k + data_size (field_at fields k)) ->
    load_byte m' b = load_byte m b.

Lemma apart_spec a n b k : apart a n b k = true <-> a + n <= b \/ b + k <= a.
Proof. unfold apart. rewrite orb_true_iff, !Z.leb_le. done. Qed.

(** What one field writes, the others do not see. *)
Lemma other_field fields dst i j m m' :
  places_apart fields = true -> (i < List.length fields)%nat -> (j < List.length fields)%nat -> i <> j ->
  only_field fields dst i m m' -> agree_field fields dst j m m'.
Proof.
  intros Hap Hi Hj Hne Ho. unfold places_apart in Hap. rewrite forallb_forall in Hap.
  specialize (Hap i). rewrite in_seq in Hap. specialize (Hap ltac:(lia)). apply andb_true_iff in Hap as [_ Hap].
  rewrite forallb_forall in Hap. specialize (Hap j). rewrite in_seq in Hap. specialize (Hap ltac:(lia)).
  destruct (Nat.eqb_spec i j); [done|]. cbn [orb] in Hap. unfold fields_apart in Hap.
  rewrite !andb_true_iff, !apart_spec in Hap. destruct Hap as [[[H1 H2] H3] H4].
  split; intros b Hb; apply Ho; lia.
Qed.

Lemma flag_apart fields k :
  places_apart fields = true -> (k < List.length fields)%nat ->
  let f := field_at fields k in
  size_place fields k + flag_bytes f <= field_offset fields k \/ field_offset fields k + data_size f <= size_place fields k.
Proof.
  intros Hap Hk. unfold places_apart in Hap. rewrite forallb_forall in Hap.
  specialize (Hap k). rewrite in_seq in Hap. specialize (Hap ltac:(lia)). apply andb_true_iff in Hap as [Hap _].
  by apply apart_spec in Hap.
Qed.

(** ** Frames *)

Lemma flat_least n size o so f :
  field_fits n size o so f -> flat_type f = true -> least_size (PB_LTYPE (type f)) <= data_size f.
Proof. intros Hf _. apply (fits_least _ _ _ _ _ Hf). Qed.

Lemma same_value_frame (sub : list pb_field_t -> Z -> Z -> Prop) (sub' : list pb_field_t -> Z -> Z -> Prop)
    n size o so f p m p' m1 m2 :
  field_fits n size o so f -> flat_type f = true -> agree p' (data_size f) m1 m2 ->
  (PB_LTYPE (type f) = PB_LTYPE_BYTES -> load m p 4 + 4 <= data_size f) ->
  (PB_LTYPE (type f) = PB_LTYPE_SUBMESSAGE -> sub (desc (ptr f)) p p' -> sub' (desc (ptr f)) p p') ->
  same_value sub f p m p' m1 -> same_value sub' f p m p' m2.
Proof.
  intros Hf Hty Ha Hfit Hsub. pose proof (fits_least _ _ _ _ _ Hf) as Hleast. unfold least_size in Hleast.
  destruct (range_sizes _ (fits_range _ _ _ _ _ Hf)) as [Hds _]. unfold same_value. cbv zeta.
  assert (Hl : forall k, Z.of_nat k <= data_size f -> load m2 p' k = load m1 p' k).
  { intros k Hk. apply agree_load. eapply agree_sub; [exact Ha|lia|lia]. }
  assert (Hb : forall q k, p' <= q -> q + Z.of_nat k <= p' + data_size f -> load_bytes m2 q k = load_bytes m1 q k).
  { intros q k Hq Hk. apply agree_load_bytes. eapply agree_sub; [exact Ha|lia|lia]. }
  destruct (Z.eqb_spec (PB_LTYPE (type f)) PB_LTYPE_BOOL) as [E|_]; [by rewrite Hl by (rewrite ?E in Hleast; cbn in *; lia)|].
  destruct (_ || _ || _); [by rewrite Hl by lia|].
  destruct (Z.eqb_spec (PB_LTYPE (type f)) PB_LTYPE_FIXED32) as [E|_]; [by rewrite Hl by (rewrite ?E in Hleast; cbn in *; lia)|].
  destruct (Z.eqb_spec (PB_LTYPE (type f)) PB_LTYPE_FIXED64) as [E|_]; [by rewrite Hl by (rewrite ?E in Hleast; cbn in *; lia)|].
  destruct (Z.eqb_spec (PB_LTYPE (type f)) PB_LTYPE_BYTES) as [E|_].
  { specialize (Hfit E). pose proof (load_range m p 4). by rewrite Hl, Hb by lia. }
  destruct (Z.eqb_spec (PB_LTYPE (type f)) PB_LTYPE_SUBMESSAGE) as [E|_]; [by apply Hsub|].
  by rewrite Hb by lia.
Qed.

Lemma field_inside n fields size k :
  table_ok (S n) fields size = true -> flat_ok (S n) fields = true -> (k < List.length fields)%nat ->
  let f := field_at fields k in
  field_fits n size (field_offset fields k) (size_place fields k) f /\ flat_rule f = true /\ flat_type f = true /\
  0 <= field_offset fields k /\ field_offset fields k + data_size f <= size /\
  (PB_HTYPE (type f) = PB_HTYPE_OPTIONAL -> 0 <= size_place fields k /\ size_place fields k + 1 <= size) /\
  (PB_LTYPE (type f) = PB_LTYPE_SUBMESSAGE ->
     table_ok n (desc (ptr f)) (data_size f) = true /\ flat_ok n (desc (ptr f)) = true).
Proof.
  intros Hok Hflat Hk. cbv zeta. destruct (table_shape n fields size Hok) as (_ & _ & _ & Hfits).
  specialize (Hfits k Hk). destruct (flat_ok_inv _ _ Hflat) as (n' & [= <-] & _ & Hall).
  destruct (Hall k Hk) as (Hrule & Hty & _ & Hsub). split; [done|]. split; [done|]. split; [done|].
  pose proof (fits_data _ _ _ _ _ Hfits) as [Ho Hs]. unfold items in Hs.
  destruct (flat_rule_cases _ Hrule) as [E|[E Hso]]; rewrite E in *; cbn [Z.eqb PB_HTYPE_REPEATED] in Hs.
  - split; [done|]. split; [change (PB_HTYPE_REQUIRED =? PB_HTYPE_REPEATED) with false in Hs; cbv iota in Hs; lia|].
    split; [done|]. intros Es. destruct (fits_sub _ _ _ _ _ Hfits Es) as [_ Hokk]. by split; [|apply Hsub].
  - split; [done|]. split; [change (PB_HTYPE_OPTIONAL =? PB_HTYPE_REPEATED) with false in Hs; cbv iota in Hs; lia|].
    split.
    + intros _. destruct (fits_size _ _ _ _ _ Hfits) as [Hz|Hz]; unfold size_bytes in Hz; rewrite E in Hz;
        cbn [Z.eqb Pos.eqb PB_HTYPE_REQUIRED PB_HTYPE_OPTIONAL] in Hz;
        destruct (Z.eqb_spec (size_offset (field_at fields k)) 0); done || lia.
    + intros Es. destruct (fits_sub _ _ _ _ _ Hfits Es) as [_ Hokk]. by split; [|apply Hsub].
Qed.

Lemma present_frame fields dst k f flag m1 m2 :
  flat_rule f = true -> agree flag (flag_bytes f) m1 m2 -> f = field_at fields k -> flag = dst + size_place fields k ->
  present f flag m2 = present f flag m1.
Proof.
  intros Hrule Ha _ _. unfold present. destruct (flat_rule_cases f Hrule) as [-> |[E _]]; [done|].
  unfold flag_bytes in Ha. rewrite E in *. cbn [Z.eqb Pos.eqb PB_HTYPE_REQUIRED PB_HTYPE_OPTIONAL] in *.
  by rewrite (agree_load flag 1 m1 m2).
Qed.

Lemma same_message_frame n : forall fields size src dst m m1 m2,
  table_ok n fields size = true -> flat_ok n fields = true -> agree dst size m1 m2 -> arrays_fit n m fields src ->
  same_message n m m1 fields src dst -> same_message n m m2 fields src dst.
Proof.
  induction n as [|n IH]; intros fields size src dst m m1 m2 Hok Hflat Ha Hfit Hsame; [done|].
  intros k Hk. specialize (Hsame k Hk). specialize (Hfit k Hk). cbv zeta in *.
  destruct (field_inside n fields size k Hok Hflat Hk) as (Hf & Hrule & Hty & Ho & Hs & Hflag & Hsub). cbv zeta in *.
  destruct Hsame as [Hp Hv]. split.
  - rewrite <- Hp. apply (present_frame fields dst k); [done| |done|done].
    unfold flag_bytes. destruct (Z.eqb_spec (PB_HTYPE (type (field_at fields k))) PB_HTYPE_OPTIONAL) as [E|].
    + specialize (Hflag E). eapply agree_sub; [exact Ha|lia|lia].
    + intros b Hb. lia.
  - intros Hpres. specialize (Hv Hpres). destruct (Hfit Hpres) as [Hbytes Hsubfit].
    eapply same_value_frame; [exact Hf|done| |done| |exact Hv].
    + eapply agree_sub; [exact Ha|lia|lia].
    + intros E Hsm. destruct (Hsub E) as [Hok' Hflat'].
      eapply IH; [exact Hok'|exact Hflat'| |by apply Hsubfit|exact Hsm]. eapply agree_sub; [exact Ha|lia|lia].
Qed.

Lemma cleared_frame n : forall fields size dst m1 m2,
  table_ok n fields size = true -> flat_ok n fields = true -> agree dst size m1 m2 ->
  cleared n m1 fields dst -> cleared n m2 fields dst.
Proof.
  induction n as [|n IH]; intros fields size dst m1 m2 Hok Hflat Ha Hc; [done|].
  intros k Hk. specialize (Hc k Hk). cbv zeta in *. destruct Hc as [Hc1 Hc2].
  destruct (field_inside n fields size k Hok Hflat Hk) as (Hf & Hrule & Hty & Ho & Hs & Hflag & Hsub). cbv zeta in *.
  split.
  - intros E. rewrite <- (Hc1 E). apply agree_load. specialize (Hflag E). eapply agree_sub; [exact Ha|lia|cbn; lia].
  - intros E. destruct (Hsub E) as [Hok' Hflat']. eapply IH; [exact Hok'|exact Hflat'| |by apply Hc2].
    eapply agree_sub; [exact Ha|lia|lia].
Qed.
(** ** One value *)

Lemma int_size_cases size : int_size size = true -> size = 1 \/ size = 2 \/ size = 4 \/ size = 8.
Proof. unfold int_size. rewrite !orb_true_iff, !Z.eqb_eq. intuition. Qed.

Lemma int_at_range signed size p m :
  int_size size = true ->
  let v := int_at signed size p m in
  (if signed then - 2 ^ (8 * size - 1) <= v < 2 ^ (8 * size - 1) else 0 <= v < 2 ^ (8 * size)) /\
  v mod 2 ^ (8 * size) = load m p (Z.to_nat size).
Proof.
  intros Hs. cbv zeta. pose proof (load_range m p (Z.to_nat size)) as Hr.
  assert (Hz : 0 < size) by (apply int_size_cases in Hs; lia). rewrite Z2Nat.id in Hr by lia.
  unfold int_at. destruct signed.
  - split; [apply swrap_range; lia|]. rewrite swrap_mod by lia. by rewrite Z.mod_small.
  - split; [done|]. by rewrite Z.mod_small.
Qed.

(** An integer stored where it was not. *)
Lemma put_int_same signed size p p' m m0 :
  int_size size = true ->
  exists m1, put_int signed size p' (int_at signed size p m) m0 = Some m1 /\
    load m1 p' (Z.to_nat size) = load m p (Z.to_nat size) /\ outside p' (p' + size) m0 m1.
Proof.
  intros Hs. destruct (int_at_range signed size p m Hs) as [Hr Hmod].
  assert (Hz : 0 < size) by (apply int_size_cases in Hs; lia).
  eexists. split.
  - unfold put_int. fold (int_size size). rewrite Hs. cbn [andb].
    assert (Hfits : (if signed then (- 2 ^ (8 * size - 1) <=? int_at signed size p m) && (int_at signed size p m <? 2 ^ (8 * size - 1))
      else (0 <=? int_at signed size p m) && (int_at signed size p m <? 2 ^ (8 * size))) = true)
      by (destruct signed; lia).
    rewrite Hfits. reflexivity.
  - split.
    + rewrite load_store_eq, Z2Nat.id by lia. exact Hmod.
    + apply outside_store. unfold inside. lia.
Qed.

Lemma varint_value_of v : 0 <= v < 2 ^ 64 -> varint_value (varint_bytes v) mod 2 ^ 64 = v.
Proof. intros Hv. destruct (varint_bytes_spec v Hv) as (_ & -> & _). by apply Z.mod_small. Qed.

Lemma signed_bounds size v :
  int_size size = true -> - 2 ^ (8 * size - 1) <= v < 2 ^ (8 * size - 1) ->
  - 2 ^ 63 <= v < 2 ^ 63 /\ (size <> 8 -> - 2 ^ 31 <= v < 2 ^ 31).
Proof.
  intros Hs Hv. apply int_size_cases in Hs as [-> |[-> |[-> | ->]]];
    cbn [Z.mul Z.sub Z.add Z.opp Pos.mul Pos.pred_double Z.pos_sub] in Hv; lia.
Qed.

Lemma swrap_u64 w v : 0 < w <= 64 -> - 2 ^ (w - 1) <= v < 2 ^ (w - 1) -> swrap w (u64 v) = v.
Proof.
  intros Hw Hv. rewrite <- (swrap_fits w v) at 2 by (done || lia). unfold swrap, uwrap. f_equal.
  rewrite <- (Zplus_mod_idemp_l (v mod 2 ^ 64)), <- (Zplus_mod_idemp_l v). do 2 f_equal.
  replace (2 ^ 64) with (2 ^ w * 2 ^ (64 - w)) by (rewrite <- Z.pow_add_r by lia; f_equal; lia).
  rewrite Z.rem_mul_r by lia. rewrite Z.mul_comm, Z.mod_add by lia. by rewrite Z.mod_mod by lia.
Qed.

Lemma unzigzag_zigzag v : unzigzag_of (zigzag v) = v.
Proof.
  unfold unzigzag_of, zigzag.
  destruct (Z.ltb_spec v 0).
  - replace (Z.even (-2 * v - 1)) with false; [zlia|].
    symmetry. rewrite <- Z.negb_odd. apply negb_false_iff, Z.odd_spec. exists (- v - 1). lia.
  - replace (Z.even (2 * v)) with true; [zlia|]. symmetry. apply Z.even_spec. by exists v.
Qed.

Lemma of_bytes_load_bytes m a n : of_bytes (load_bytes m a n) = load m a n.
Proof. rewrite (of_bytes_load _ m a); by rewrite length_load_bytes. Qed.

Lemma copied_bytes m0 q m p k : load_bytes (store_bytes m0 q (load_bytes m p k)) q k = load_bytes m p k.
Proof.
  pose proof (load_bytes_store_bytes m0 q (load_bytes m p k) (load_bytes_range m p k)) as Hl.
  by rewrite length_load_bytes in Hl.
Qed.

Lemma outside_trans lo hi m1 m2 m3 : outside lo hi m1 m2 -> outside lo hi m2 m3 -> outside lo hi m1 m3.
Proof. intros H1 H2 b Hb. by rewrite H2, H1. Qed.

Lemma outside_store_bytes lo hi m a l : inside lo hi a (zlen l) -> outside lo hi m (store_bytes m a l).
Proof.
  intros [Hlo Hhi] b Hb. rewrite load_byte_store_bytes. unfold zlen in *. by destruct (decide _); [lia|].
Qed.

(** The integers of either signedness and zig-zag. *)
Lemma put_varint_same n f p p' m m0 :
  (PB_LTYPE (type f) =? PB_LTYPE_VARINT) || (PB_LTYPE (type f) =? PB_LTYPE_UVARINT)
    || (PB_LTYPE (type f) =? PB_LTYPE_SVARINT) = true -> flat_type f = true ->
  exists m1, put_value (put_message n) f p' (value_of (records_of n m) f p m) m0 = Some m1 /\
    load m1 p' (Z.to_nat (data_size f)) = load m p (Z.to_nat (data_size f)) /\
    outside p' (p' + data_size f) m0 m1.
Proof.
  intros Hlt Hty. assert (Hs : int_size (data_size f) = true) by (unfold flat_type in Hty; cbv zeta in Hty; by rewrite Hlt in Hty).
  rewrite !orb_true_iff, !Z.eqb_eq in Hlt. pose proof (put_int_same true _ p p' m m0 Hs) as Hsigned.
  pose proof (put_int_same false _ p p' m m0 Hs) as Hunsigned.
  destruct (int_at_range true (data_size f) p m Hs) as [Hr _].
  destruct (int_at_range false (data_size f) p m Hs) as [Hr' _].
  destruct (signed_bounds _ _ Hs Hr) as [H64 H32].
  unfold value_of. destruct Hlt as [[E|E]|E]; rewrite E;
    cbn [Z.eqb Pos.eqb PB_LTYPE_BOOL PB_LTYPE_VARINT PB_LTYPE_UVARINT PB_LTYPE_SVARINT];
    unfold put_value; rewrite E; cbv zeta;
    cbn [Z.eqb Pos.eqb PB_LTYPE_BOOL PB_LTYPE_VARINT PB_LTYPE_UVARINT PB_LTYPE_SVARINT].
  - rewrite varint_value_of by (unfold uwrap; apply Z.mod_pos_bound; lia).
    destruct (Z.eqb_spec (data_size f) 8) as [E8|N8].
    + rewrite swrap_u64 by lia. exact Hsigned.
    + rewrite swrap_u64 by (specialize (H32 N8); lia). exact Hsigned.
  - rewrite varint_value_of; [exact Hunsigned|]. apply int_size_cases in Hs.
    pose proof (Z.pow_le_mono_r 2 (8 * data_size f) 64). lia.
  - rewrite varint_value_of by (by apply zigzag_range). rewrite unzigzag_zigzag. exact Hsigned.
Qed.

Lemma put_value_same n size o so f p p' m m0 :
  field_fits n size o so f -> flat_type f = true ->
  (PB_LTYPE (type f) = PB_LTYPE_BYTES -> load m p 4 + 4 <= data_size f) ->
  (PB_LTYPE (type f) = PB_LTYPE_SUBMESSAGE -> exists m1,
     put_message n (desc (ptr f)) p' (records_of n m (desc (ptr f)) p) m0 = Some m1 /\
     same_message n m m1 (desc (ptr f)) p p' /\ outside p' (p' + data_size f) m0 m1) ->
  exists m1, put_value (put_message n) f p' (value_of (records_of n m) f p m) m0 = Some m1 /\
    same_value (same_message n m m1) f p m p' m1 /\ outside p' (p' + data_size f) m0 m1.
Proof.
  intros Hf Hty Hfit Hsub. pose proof (fits_least _ _ _ _ _ Hf) as Hleast. unfold least_size in Hleast.
  destruct (range_sizes _ (fits_range _ _ _ _ _ Hf)) as [Hds _].
  pose proof (put_varint_same n f p p' m m0) as Hint. unfold same_value. cbv zeta.
  destruct (_ || _ || _) eqn:Hv in Hint |- *.
  { destruct (Hint eq_refl Hty) as (m1 & Hput & Hl & Ho). exists m1. split; [done|].
    destruct (Z.eqb_spec (PB_LTYPE (type f)) PB_LTYPE_BOOL) as [E|?]; [by rewrite E in Hv|]. done. }
  clear Hint. unfold value_of, put_value. cbv zeta.
  destruct (Z.eqb_spec (PB_LTYPE (type f)) PB_LTYPE_BOOL) as [E|?].
  { rewrite ?E in Hleast. cbn in Hleast. destruct (varint_bytes_spec (if load m p 1 =? 0 then 0 else 1)) as (_ & Hval & _).
    { by destruct (_ =? 0). }
    rewrite Hval. exists (store m0 p' 1 (if load m p 1 =? 0 then 0 else 1)). split; [by destruct (load m p 1 =? 0)|]. split.
    - rewrite load_store_eq. by destruct (load m p 1 =? 0).
    - apply outside_store. unfold inside. lia. }
  rewrite !orb_false_iff in Hv. destruct Hv as [[Hv1 Hv2] Hv3]. rewrite Hv1, Hv2, Hv3. cbn [orb].
  destruct (Z.eqb_spec (PB_LTYPE (type f)) PB_LTYPE_FIXED32) as [E|?].
  { rewrite ?E in Hleast. cbn in Hleast. rewrite of_bytes_load_bytes. eexists. split; [done|].
    split; [apply load_store_load|]. apply outside_store. unfold inside. lia. }
  destruct (Z.eqb_spec (PB_LTYPE (type f)) PB_LTYPE_FIXED64) as [E|?].
  { rewrite ?E in Hleast. cbn in Hleast. rewrite of_bytes_load_bytes. eexists. split; [done|].
    split; [apply load_store_load|]. apply outside_store. unfold inside. lia. }
  destruct (Z.eqb_spec (PB_LTYPE (type f)) PB_LTYPE_BYTES) as [E|?].
  { specialize (Hfit E). pose proof (load_range m p 4) as Hl. rewrite zlen_load_bytes, Z2Nat.id by lia.
    destruct (Z.leb_spec (load m p 4 + 4) (data_size f)); [|lia]. eexists. split; [done|]. split; [split|].
    - rewrite load_store_bytes_ne by lia. apply load_store_load.
    - apply copied_bytes.
    - eapply outside_trans; [apply outside_store|apply outside_store_bytes]; unfold inside;
        rewrite ?zlen_load_bytes; lia. }
  destruct (Z.eqb_spec (PB_LTYPE (type f)) PB_LTYPE_SUBMESSAGE) as [E|?].
  { destruct (fits_sub _ _ _ _ _ Hf E) as [Hptr _]. destruct (Z.eqb_spec (ptr f) NULL); [done|].
    cbn [negb andb]. by apply Hsub. }
  assert (E : PB_LTYPE (type f) = PB_LTYPE_FIXED_LENGTH_BYTES).
  { unfold flat_type in Hty. cbv zeta in Hty. rewrite Hv1, Hv2, Hv3 in Hty. cbn [orb] in Hty.
    rewrite !orb_true_iff, !Z.eqb_eq in Hty. intuition. }
  rewrite E. cbn [Z.eqb Pos.eqb PB_LTYPE_STRING PB_LTYPE_FIXED_LENGTH_BYTES].
  rewrite zlen_load_bytes, Z2Nat.id by lia. destruct (Z.eqb_spec (data_size f) 0) as [E0|N0].
  - eexists. split; [done|]. rewrite E0. by split.
  - rewrite Z.eqb_refl. eexists. split; [done|]. split.
    + apply copied_bytes.
    + apply outside_store_bytes. rewrite zlen_load_bytes. unfold inside. lia.
Qed.

(** ** One message *)

Section Message.
Variables (n : nat) (m : gmap Z Z).
Hypothesis put_below : forall fields size src dst m0,
  table_ok n fields size = true -> flat_ok n fields = true -> 0 < src -> arrays_fit n m fields src ->
  cleared n m0 fields dst ->
  exists m1, put_message n fields dst (records_of n m fields src) m0 = Some m1 /\
    same_message n m m1 fields src dst /\ outside dst (dst + size) m0 m1.

Variables (fields : list pb_field_t) (size src dst : Z).
Hypothesis ok : table_ok (S n) fields size = true.
Hypothesis flat : flat_ok (S n) fields = true.
Hypothesis nonnull : 0 < src.
Hypothesis fit : arrays_fit (S n) m fields src.

(** Field [k] of the two structures. *)
Definition same_at (k : nat) (m' : gmap Z Z) : Prop :=
  let f := field_at fields k in
  present f (dst + size_place fields k) m' = present f (src + size_place fields k) m /\
  (present f (src + size_place fields k) m = true ->
   same_value (same_message n m m') f (src + field_offset fields k) m (dst + field_offset fields k) m').

Definition cleared_at (k : nat) (m' : gmap Z Z) : Prop :=
  let f := field_at fields k in
  (PB_HTYPE (type f) = PB_HTYPE_OPTIONAL -> load m' (dst + size_place fields k) 1 = 0) /\
  (PB_LTYPE (type f) = PB_LTYPE_SUBMESSAGE -> cleared n m' (desc (ptr f)) (dst + field_offset fields k)).

Lemma same_at_frame k m1 m2 :
  (k < List.length fields)%nat -> agree_field fields dst k m1 m2 -> same_at k m1 -> same_at k m2.
Proof.
  intros Hk [Hflag Hdata] [Hp Hv].
  destruct (field_inside n fields size k ok flat Hk) as (Hf & Hrule & Hty & _ & _ & _ & Hsub). cbv zeta in *.
  split; [rewrite <- Hp; by apply (present_frame fields dst k)|].
  intros Hpres. specialize (Hv Hpres). destruct (fit k Hk Hpres) as [Hbytes Hsubfit].
  eapply same_value_frame; [exact Hf|done|exact Hdata|done| |exact Hv].
  intros E Hsm. destruct (Hsub E) as [Hok' Hflat'].
  eapply same_message_frame; [exact Hok'|exact Hflat'|exact Hdata|by apply Hsubfit|exact Hsm].
Qed.

Lemma cleared_at_frame k m1 m2 :
  (k < List.length fields)%nat -> agree_field fields dst k m1 m2 -> cleared_at k m1 -> cleared_at k m2.
Proof.
  intros Hk [Hflag Hdata] [Hc1 Hc2].
  destruct (field_inside n fields size k ok flat Hk) as (Hf & Hrule & Hty & _ & _ & _ & Hsub). cbv zeta in *.
  split.
  - intros E. rewrite <- (Hc1 E). apply agree_load. unfold flag_bytes in Hflag. by rewrite E in Hflag.
  - intros E. destruct (Hsub E) as [Hok' Hflat']. eapply cleared_frame; [exact Hok'|exact Hflat'|exact Hdata|by apply Hc2].
Qed.

(** A field that is not there stays away. *)
Lemma absent_at k m' :
  (k < List.length fields)%nat -> present (field_at fields k) (src + size_place fields k) m = false ->
  cleared_at k m' -> same_at k m'.
Proof.
  intros Hk Hno [Hc _]. unfold same_at. cbv zeta. rewrite Hno. split; [|done].
  destruct (field_inside n fields size k ok flat Hk) as (_ & Hrule & _). cbv zeta in *.
  unfold present in *. destruct (flat_rule_cases _ Hrule) as [E|[E _]]; rewrite E in *; [done|].
  by rewrite Hc.
Qed.

Lemma field_index_at k : (k < List.length fields)%nat -> field_index fields (tag (field_at fields k)) = Some k.
Proof.
  intros Hk. destruct (table_ok_inv _ _ _ ok) as (n' & [= <-] & _ & _ & Hdup & _).
  destruct (field_index fields (tag (field_at fields k))) as [j|] eqn:Ef.
  - destruct (field_index_some _ _ _ Ef) as [Hj Ht]. f_equal. by apply (tag_inj fields Hdup).
  - by destruct (field_index_none fields _ k Ef Hk).
Qed.

(** A field that is there arrives. *)
Lemma put_field_at k m0 :
  (k < List.length fields)%nat -> present (field_at fields k) (src + size_place fields k) m = true ->
  cleared_at k m0 ->
  let f := field_at fields k in
  exists m1, put_record (put_message n) fields dst
      (tag f, value_of (records_of n m) f (src + field_offset fields k) m) m0 = Some m1 /\
    same_at k m1 /\ only_field fields dst k m0 m1.
Proof.
  intros Hk Hpres Hclear. cbv zeta. pose proof (cleared_at_frame k) as Hframe.
  destruct (field_inside n fields size k ok flat Hk) as (Hf & Hrule & Hty & Ho & Hs & Hflag & Hsub). cbv zeta in *.
  destruct (flat_ok_inv _ _ flat) as (n' & [= <-] & Hap & _). pose proof (flag_apart fields k Hap Hk) as Hapart.
  cbv zeta in Hapart. destruct (fit k Hk Hpres) as [Hbytes Hsubfit].
  unfold put_record. cbn [fst snd]. rewrite field_index_at by done. cbv zeta.
  set (f := field_at fields k) in *. set (m1 := put_flag f (dst + size_place fields k) m0).
  assert (Hsingle : single f = true).
  { unfold single. destruct (flat_rule_cases _ Hrule) as [-> |[-> _]]; done. }
  assert (Hm1 : outside (dst + size_place fields k) (dst + size_place fields k + flag_bytes f) m0 m1).
  { unfold m1, put_flag, flag_bytes. destruct (flat_rule_cases _ Hrule) as [-> |[-> Hso]]; [done|].
    destruct (Z.eqb_spec (size_offset f) 0); [done|]. apply outside_store. unfold inside. cbn. lia. }
  rewrite Hsingle. destruct (put_value_same n size _ _ f (src + field_offset fields k) (dst + field_offset fields k) m m1
    Hf Hty Hbytes) as (m2 & Hput & Hsame & Hout).
  { intros E. destruct (Hsub E) as [Hok' Hflat']. destruct Hclear as [_ Hc].
    apply (put_below _ _ (src + field_offset fields k)); [exact Hok'|exact Hflat'|lia|by apply Hsubfit|].
    eapply cleared_frame; [exact Hok'|exact Hflat'| |by apply Hc]. eapply agree_outside; [exact Hm1|]. fold f. lia. }
  exists m2. split; [exact Hput|]. split.
  - split; [|done]. unfold same_at in *. fold f. rewrite Hpres. unfold present.
    destruct (flat_rule_cases _ Hrule) as [E|[E Hso]]; rewrite E; [done|].
    rewrite (agree_load (dst + size_place fields k) 1 m1 m2).
    + unfold m1, put_flag. rewrite E. destruct (Z.eqb_spec (size_offset f) 0); [done|].
      cbn [Z.eqb Pos.eqb PB_HTYPE_OPTIONAL andb negb]. by rewrite load_store_eq.
    + eapply agree_outside; [exact Hout|]. unfold flag_bytes in Hapart. rewrite E in Hapart.
      cbn [Z.eqb Pos.eqb PB_HTYPE_OPTIONAL] in Hapart. lia.
  - intros b Hb1 Hb2. fold f in Hb1, Hb2. rewrite Hout by lia. apply Hm1. lia.
Qed.

(** The fields from the [k]-th on, those before it being done. *)
Lemma put_from d : forall k m0,
  (k + d = List.length fields)%nat ->
  (forall j, (j < k)%nat -> same_at j m0) -> (forall j, (k <= j < List.length fields)%nat -> cleared_at j m0) ->
  exists m1, put_records (put_message n) fields dst (flat_map (records_at n m fields src) (seq k d)) m0 = Some m1 /\
    (forall j, (j < List.length fields)%nat -> same_at j m1) /\ outside dst (dst + size) m0 m1.
Proof.
  destruct (flat_ok_inv _ _ flat) as (n' & [= <-] & Hap & _).
  induction d as [|d IH]; intros k m0 Hk Hsame Hclear.
  { exists m0. split; [done|]. split; [|done]. intros j Hj. apply Hsame. lia. }
  cbn [seq flat_map]. unfold records_at at 1. cbv zeta.
  destruct (present (field_at fields k) (src + size_place fields k) m) eqn:Hpres; cbn [app].
  - destruct (put_field_at k m0 ltac:(lia) Hpres (Hclear k ltac:(lia))) as (m1 & Hput & Hk1 & Honly). cbv zeta in Hput.
    assert (Hother : forall j, (j < List.length fields)%nat -> j <> k -> agree_field fields dst j m0 m1).
    { intros j Hj Hne. apply (other_field fields dst k); [done|lia|done|lia|done]. }
    destruct (IH (S k) m1) as (m2 & Hput2 & Hsame2 & Hout).
    { lia. }
    { intros j Hj. destruct (Nat.eq_dec j k) as [->|]; [done|].
      apply (same_at_frame j m0); [lia|apply Hother; lia|apply Hsame; lia]. }
    { intros j Hj. apply (cleared_at_frame j m0); [lia|apply Hother; lia|apply Hclear; lia]. }
    exists m2. cbn [put_records]. rewrite Hput. split; [done|]. split; [done|].
    eapply outside_trans; [|exact Hout]. intros b Hb.
    destruct (field_inside n fields size k ok flat ltac:(lia)) as (_ & Hrule & _ & Ho & Hs & Hflag & _). cbv zeta in *.
    apply Honly; unfold flag_bytes; [|lia]. destruct (flat_rule_cases _ Hrule) as [E|[E _]]; rewrite E in *; cbn; [lia|].
    specialize (Hflag eq_refl). lia.
  - apply (IH (S k) m0); [lia| |].
    + intros j Hj. destruct (Nat.eq_dec j k) as [->|]; [|apply Hsame; lia].
      apply absent_at; [lia|done|apply Hclear; lia].
    + intros j Hj. apply Hclear. lia.
Qed.

Lemma required_are_present : required_present fields (records_of (S n) m fields src) = true.
Proof.
  apply forallb_forall. intros f Hin. apply (In_nth _ _ PB_LAST_FIELD) in Hin as (k & Hk & <-).
  fold (field_at fields k). destruct (Z.eqb_spec (PB_HTYPE (type (field_at fields k))) PB_HTYPE_REQUIRED) as [E|]; [|done].
  cbn [negb orb]. apply existsb_exists.
  exists (tag (field_at fields k), value_of (records_of n m) (field_at fields k) (src + field_offset fields k) m).
  split; [|apply Z.eqb_refl]. cbn [records_of]. apply in_flat_map. exists k. split; [apply in_seq; lia|].
  cbv zeta. unfold present. rewrite E. by left.
Qed.

Lemma put_message_at m0 :
  cleared (S n) m0 fields dst ->
  exists m1, put_message (S n) fields dst (records_of (S n) m fields src) m0 = Some m1 /\
    same_message (S n) m m1 fields src dst /\ outside dst (dst + size) m0 m1.
Proof.
  intros Hclear. cbn [put_message]. rewrite required_are_present.
  destruct (put_from (List.length fields) 0 m0) as (m1 & Hput & Hsame & Hout);
    [lia|intros j Hj; lia|intros j Hj; apply Hclear; lia|].
  exists m1. split; [exact Hput|]. split; [|done]. intros k Hk. by apply Hsame.
Qed.
End Message.

(** The records of a structure, put into a cleared one. *)
Lemma put_records_of n : forall m fields size src dst m0,
  table_ok n fields size = true -> flat_ok n fields = true -> 0 < src -> arrays_fit n m fields src ->
  cleared n m0 fields dst ->
  exists m1, put_message n fields dst (records_of n m fields src) m0 = Some m1 /\
    same_message n m m1 fields src dst /\ outside dst (dst + size) m0 m1.
Proof.
  induction n as [|n IH]; intros m fields size src dst m0 Hok Hflat Hsrc Hfit Hclear; [done|].
  by apply put_message_at; [intros; by apply IH|..].
Qed.
End Same.
