(* ===== verification/Defaults.v ===== *)
(** [pb_message_set_to_defaults] on flat messages: afterwards no optional field is
    there, at any depth; and the records of a flat message are well-formed. With
    [Flat] and [Roundtrip] this closes the way from a structure through
    [pb_encode] and [pb_decode] to another structure. *)

From Stdlib Require Import ZArith Lia List String Bool.
From stdpp Require Import base gmap list.
From S2P Require Import Prelude Memory Pb PbCommon PbDecode PbDecodeMsg PbEncode Base128 Varint EncodeSpec WireProps Iter Safe Safety SafetyProps Wire DecodeRefine Required DecodeProps Flat Roundtrip.

Section Defaults.
Context `{Env}.

(** ** Defaults *)

(** An invariant of a loop over the fields. *)
Lemma wp_for_fields fields dest (step : pb_field_iter_t -> W unit) (Inv : nat -> world -> Prop) w :
  (0 < List.length fields)%nat -> Z.of_nat (List.length fields) < 2 ^ 32 -> tags_nonzero fields ->
  (forall k w, (k < List.length fields)%nat -> Inv k w ->
     wp (step (iter_nth fields dest k)) (fun _ w' => Inv (S k) w') (fun _ => False) w) ->
  Inv O w -> wp (for_fields step fields dest) (fun _ w' => Inv (List.length fields) w') (fun _ => False) w.
Proof.
  intros Hne Hshort Hnz Hstep H0. unfold for_fields.
  assert (Hb : pb_field_iter_begin fields dest = (true, iter_nth fields dest 0)).
  { cbn [iter_nth]. unfold pb_field_iter_begin. cbn [snd].
    pose proof (field_at_tag fields Hnz 0 Hne). by destruct (Z.eqb_spec (tag (field_at fields 0)) 0). }
  rewrite Hb.
  apply (wp_loop _ (fun iter w => exists k, (k < List.length fields)%nat /\ iter = iter_nth fields dest k /\ Inv k w)
    (fun iter _ => Z.of_nat (List.length fields) - Z.of_nat (pos iter))).
  - intros iter w' (k & Hk & -> & Hinv). pose proof (on_field_nth fields dest k Hk) as Hon.
    destruct (on_field_start fields dest Hnz Hshort k _ Hon) as (_ & Hp & _). rewrite Hp. split; [lia|].
    apply wp_bind. eapply wp_mono; [by apply Hstep| |done]. intros [] w2 Hinv2.
    destruct (Nat.eqb_spec (S k) (List.length fields)) as [E|].
    + rewrite (on_field_wrap fields dest Hnz Hshort k _ Hon) by done. apply wp_ret. by rewrite E in Hinv2.
    + rewrite (on_field_next fields dest Hnz Hshort k _ Hon) by lia. apply wp_ret.
      pose proof (on_field_nth fields dest (S k) ltac:(lia)) as Hon'.
      destruct (on_field_start fields dest Hnz Hshort _ _ Hon') as (_ & -> & _).
      split; [|lia]. exists (S k). split; [lia|done].
  - exists O. by split.
  - pose proof (on_field_nth fields dest 0 Hne) as Hon.
    destruct (on_field_start fields dest Hnz Hshort 0 _ Hon) as (_ & -> & _). lia.
Qed.

Definition default_result (n : nat) (fields : list pb_field_t) (dest : Z) (k : nat) (w w' : world) : Prop :=
  cleared_at n fields dest k (mem w') /\ only_field fields dest k (mem w) (mem w').

Section Message.
Variables (n : nat) (fields : list pb_field_t) (size dest : Z).
Hypothesis ok : table_ok (S n) fields size = true.
Hypothesis flat : flat_ok (S n) fields = true.

(** Each field in turn is cleared, and stays so. *)
Lemma wp_message_defaults (step : pb_field_iter_t -> W unit) w :
  (forall k w, (k < List.length fields)%nat ->
     wp (step (iter_nth fields dest k)) (fun _ w' => default_result n fields dest k w w') (fun _ => False) w) ->
  wp (for_fields step fields dest)
    (fun _ w' => cleared (S n) (mem w') fields dest /\ outside dest (dest + size) (mem w) (mem w'))
    (fun _ => False) w.
Proof.
  intros Hstep. destruct (table_shape n fields size ok) as (Hne & Hshort & Hnz & _).
  destruct (flat_ok_inv _ _ flat) as (n' & [= <-] & Hap & _).
  eapply wp_mono; [apply (wp_for_fields fields dest step (fun k w' =>
    (forall j, (j < k)%nat -> cleared_at n fields dest j (mem w')) /\ outside dest (dest + size) (mem w) (mem w'))
    w Hne Hshort Hnz)| |done].
  - intros k w1 Hk [Hdone Hout]. eapply wp_mono; [by apply Hstep| |done]. intros [] w2 [Hk2 Honly].
    destruct (field_inside n fields size k ok flat Hk) as (_ & Hrule & _ & Ho & Hs & Hflag & _). cbv zeta in *. split.
    + intros j Hj. destruct (Nat.eq_dec j k) as [->|]; [done|].
      eapply cleared_at_frame; [exact ok|exact flat|lia| |apply Hdone; lia].
      apply (other_field fields dest k); [done|done|lia|done|done].
    + eapply outside_trans; [exact Hout|]. intros b Hb. apply Honly; unfold flag_bytes; [|lia].
      destruct (flat_rule_cases _ Hrule) as [E|[E _]]; rewrite E in *; cbn; [lia|]. specialize (Hflag eq_refl). lia.
  - split; [intros j Hj; lia|done].
  - intros [] w' [Hall Hout]. split; [|done]. intros k Hk. by apply Hall.
Qed.
End Message.

(** One field: its flag is dropped, its data are set. *)
Section Field.
Variables (n : nat) (fields : list pb_field_t) (size dest : Z) (defaults : list pb_field_t -> Z -> W unit).
Hypothesis ok : table_ok (S n) fields size = true.
Hypothesis flat : flat_ok (S n) fields = true.
Hypothesis defaults_below : forall fields size dest w,
  table_ok n fields size = true -> flat_ok n fields = true ->
  wp (defaults fields dest)
    (fun _ w' => cleared n (mem w') fields dest /\ outside dest (dest + size) (mem w) (mem w')) (fun _ => False) w.

Variable k : nat.
Hypothesis in_table : (k < List.length fields)%nat.

Local Abbreviation f := (field_at fields k).
Local Abbreviation flag := (dest + size_place fields k).
Local Abbreviation data := (dest + field_offset fields k).

(** The data, in the room they have. *)
Lemma wp_default_data (w : world) :
  wp (if PB_LTYPE (type f) =? PB_LTYPE_SUBMESSAGE then defaults (submsg_fields f) data
      else if negb (ptr f =? NULL) then modify (set_mem (fun m => memcpy m data (ptr f) (data_size f)))
      else modify (set_mem (fun m => memzero m data (data_size f))))
    (fun _ w' => (PB_LTYPE (type f) = PB_LTYPE_SUBMESSAGE -> cleared n (mem w') (desc (ptr f)) data) /\
       outside data (data + data_size f) (mem w) (mem w')) (fun _ => False) w.
Proof.
  destruct (field_inside n fields size k ok flat in_table) as (Hf & _ & _ & _ & _ & _ & Hsub). cbv zeta in *.
  destruct (range_sizes _ (fits_range _ _ _ _ _ Hf)) as [Hds _].
  destruct (Z.eqb_spec (PB_LTYPE (type f)) PB_LTYPE_SUBMESSAGE) as [E|Hno].
  - destruct (Hsub E) as [Hok' Hflat']. eapply wp_mono; [by apply defaults_below| |done].
    intros [] w' [Hc Ho]. by split.
  - destruct (negb _); apply wp_modify; (split; [done|]); cbn [mem set_mem];
      apply outside_store_bytes; unfold inside, zlen; rewrite ?length_load_bytes, ?length_replicate; lia.
Qed.

Lemma wp_default_field (rest : pb_field_iter_t -> W unit) (w : world) :
  wp (field_set_to_default_body rest defaults (iter_nth fields dest k))
    (fun _ w' => default_result n fields dest k w w') (fun _ => False) w.
Proof.
  pose proof (on_field_nth fields dest k in_table) as Hon.
  destruct (on_field_fits _ _ _ _ _ _ ok Hon eq_refl) as (Hcur & Hdata & Hsize & Hf).
  pose proof (flag_at n (S n) (le_n _) fields size dest ok _ k Hon) as Hflag.
  destruct (field_inside n fields size k ok flat in_table) as (_ & Hrule & Hty & _). cbv zeta in *.
  destruct (flat_ok_inv _ _ flat) as (n' & [= <-] & Hap & _). pose proof (flag_apart fields k Hap in_table) as Hapart.
  cbv zeta in Hapart. pose proof wp_default_data as Hval. unfold default_result, cleared_at. cbv zeta.
  unfold field_set_to_default_body. rewrite Hcur, Hdata, (fits_static _ _ _ _ _ Hf).
  destruct (Z.eqb_spec (PB_LTYPE (type f)) PB_LTYPE_EXTENSION); [by destruct (fits_ltype _ _ _ _ _ Hf)|].
  cbv zeta. change (PB_ATYPE_STATIC =? PB_ATYPE_STATIC) with true. cbv iota.
  unfold flag_bytes in Hapart. unfold only_field, flag_bytes.
  destruct (flat_rule_cases _ Hrule) as [E|[E Hso]]; rewrite E in *; cbn [Z.eqb Pos.eqb PB_HTYPE_REQUIRED PB_HTYPE_OPTIONAL
    PB_HTYPE_REPEATED PB_HTYPE_ONEOF andb orb] in *.
  - apply wp_bind, wp_ret. eapply wp_mono; [apply Hval| |done]. intros [] w' [Hc Ho]. split; [by split|].
    intros b _ Hb. apply Ho. exact Hb.
  - rewrite (Hflag eq_refl eq_refl). destruct (Z.eqb_spec (size_offset f) 0); [done|]. cbn [negb]. rewrite Hsize.
    apply wp_bind, wp_bind, wp_ret. apply wp_bind, wp_modify. apply wp_ret.
    eapply wp_mono; [apply Hval| |done]. intros [] w' [Hc Ho]. cbn [mem set_mem] in Ho. split.
    + split; [|done]. intros _. rewrite (agree_load flag 1 (store (mem w) flag 1 0)).
      * by rewrite load_store_eq.
      * eapply agree_outside; [exact Ho|lia].
    + intros b Hb1 Hb2. rewrite Ho by exact Hb2. rewrite load_byte_store. by destruct (decide _); [lia|].
Qed.
End Field.

Lemma wp_default_fields n : forall fields size dest k w,
  table_ok (S n) fields size = true -> flat_ok (S n) fields = true -> (k < List.length fields)%nat ->
  wp (pb_field_set_to_default (S n) (iter_nth fields dest k))
    (fun _ w' => default_result n fields dest k w w') (fun _ => False) w.
Proof.
  induction n as [|n IH]; intros fields size dest k w Hok Hflat Hk.
  - by apply (wp_default_field 0 fields size dest).
  - apply (wp_default_field (S n) fields size dest); [done|done| |done]. clear fields size dest k w Hok Hflat Hk.
    intros fields size dest w Hok Hflat. apply (wp_message_defaults n fields size dest Hok Hflat). intros. by eapply IH.
Qed.

(** The defaults clear a message. *)
Lemma message_cleared n fields size dest w w' :
  table_ok n fields size = true -> flat_ok n fields = true ->
  pb_message_set_to_defaults n fields dest w = (Ret tt, w') -> cleared n (mem w') fields dest.
Proof.
  intros Hok Hflat Hd. destruct n as [|n]; [done|].
  pose proof (wp_message_defaults n fields size dest Hok Hflat (pb_field_set_to_default (S n)) w) as Hw.
  unfold pb_message_set_to_defaults in Hd. unfold wp in Hw at 2. rewrite Hd in Hw. apply Hw.
  intros. by eapply wp_default_fields.
Qed.

(** ** The records of a message are well-formed *)

Lemma payload_short r rs : In r rs -> zlen (payload (snd r)) <= zlen (message_bytes rs).
Proof.
  intros Hin. apply in_split in Hin as (rs1 & rs2 & ->). rewrite message_bytes_app, zlen_app'.
  change (message_bytes (r :: rs2)) with (record_bytes payload r ++ message_bytes rs2).
  unfold record_bytes. rewrite !zlen_app'.
  pose proof (zlen_nonneg (message_bytes rs1)). pose proof (zlen_nonneg (message_bytes rs2)).
  pose proof (zlen_nonneg (spec_tag (wire_type (snd r)) (fst r))). lia.
Qed.

Lemma wire_message_of rs : zlen (message_bytes rs) < 2 ^ 32 -> records_ok rs -> wire_ok (WMessage rs).
Proof.
  intros Hlen Hrs. split; [exact Hlen|]. clear Hlen. induction Hrs as [|r rs Hr _ IH]; [exact I|]. by split.
Qed.

Lemma short_varint v : 0 <= v < 2 ^ 64 -> wire_ok (WVarint (varint_bytes v)).
Proof. intros Hv. destruct (varint_bytes_spec v Hv) as (Hvar & _ & Hlen). split; [done|lia]. Qed.

Lemma value_ok n m sub f p o so size :
  field_fits n size o so f -> flat_type f = true ->
  (PB_LTYPE (type f) = PB_LTYPE_SUBMESSAGE -> wire_ok (WMessage (sub (desc (ptr f)) p))) ->
  wire_ok (value_of sub f p m).
Proof.
  intros Hf Hty Hsub. destruct (range_sizes _ (fits_range _ _ _ _ _ Hf)) as [Hds _]. unfold value_of. cbv zeta.
  unfold flat_type in Hty. cbv zeta in Hty.
  destruct (Z.eqb_spec (PB_LTYPE (type f)) PB_LTYPE_BOOL); [apply short_varint; by destruct (_ =? 0)|].
  destruct (Z.eqb_spec (PB_LTYPE (type f)) PB_LTYPE_VARINT) as [E|].
  { apply short_varint. unfold uwrap. apply Z.mod_pos_bound. lia. }
  destruct (Z.eqb_spec (PB_LTYPE (type f)) PB_LTYPE_UVARINT) as [E|].
  { cbn [orb] in Hty. apply short_varint. destruct (int_at_range false _ p m Hty) as [Hr _].
    apply int_size_cases in Hty. pose proof (Z.pow_le_mono_r 2 (8 * data_size f) 64). lia. }
  destruct (Z.eqb_spec (PB_LTYPE (type f)) PB_LTYPE_SVARINT) as [E|].
  { cbn [orb] in Hty. apply short_varint, zigzag_range. destruct (int_at_range true _ p m Hty) as [Hr _].
    by apply (signed_bounds _ _ Hty). }
  destruct (_ =? PB_LTYPE_FIXED32); [apply length_load_bytes|].
  destruct (_ =? PB_LTYPE_FIXED64); [apply length_load_bytes|].
  destruct (_ =? PB_LTYPE_BYTES).
  { cbn [wire_ok]. rewrite zlen_load_bytes. pose proof (load_range m p 4). lia. }
  destruct (Z.eqb_spec (PB_LTYPE (type f)) PB_LTYPE_SUBMESSAGE) as [E|]; [by apply Hsub|].
  cbn [wire_ok]. rewrite zlen_load_bytes. lia.
Qed.

Lemma records_of_ok n : forall m fields size src,
  table_ok n fields size = true -> flat_ok n fields = true ->
  zlen (message_bytes (records_of n m fields src)) < 2 ^ 32 -> records_ok (records_of n m fields src).
Proof.
  induction n as [|n IH]; intros m fields size src Hok Hflat Hlen; [constructor|].
  apply List.Forall_forall. intros r Hr. pose proof (payload_short r _ Hr) as Hshort.
  cbn [records_of] in Hr. apply in_flat_map in Hr as (k & Hk & Hr). apply in_seq in Hk. cbv zeta in Hr.
  destruct (present _ _ _); [|done]. destruct Hr as [<-|[]]. cbn [fst snd] in *.
  destruct (field_inside n fields size k Hok Hflat ltac:(lia)) as (Hf & _ & Hty & _ & _ & _ & Hsub). cbv zeta in *.
  destruct (flat_ok_inv _ _ Hflat) as (n' & [= <-] & _ & Hall). destruct (Hall k ltac:(lia)) as (_ & _ & Ht & _).
  cbv zeta in Ht. split.
  - pose proof (fits_tag _ _ _ _ _ Hf). pose proof (fits_range _ _ _ _ _ Hf) as Hr. unfold field_in_range in Hr.
    unfold tag_ok. rewrite !andb_true_iff, !Z.leb_le in Hr. lia.
  - eapply value_ok; [exact Hf|done|]. intros E. destruct (Hsub E) as [Hok' Hflat'].
    assert (Hl : zlen (message_bytes (records_of n m (desc (ptr (field_at fields k))) (src + field_offset fields k))) < 2 ^ 32).
    { unfold value_of in Hshort. rewrite E in Hshort.
      cbn [Z.eqb Pos.eqb PB_LTYPE_BOOL PB_LTYPE_VARINT PB_LTYPE_UVARINT PB_LTYPE_SVARINT PB_LTYPE_FIXED32 PB_LTYPE_FIXED64
        PB_LTYPE_BYTES PB_LTYPE_SUBMESSAGE payload] in Hshort.
      unfold delimited in Hshort. rewrite zlen_app' in Hshort. fold (message_bytes (records_of n m (desc (ptr (field_at fields k))) (src + field_offset fields k))) in Hshort.
      pose proof (zlen_nonneg (varint_bytes (zlen (message_bytes (records_of n m (desc (ptr (field_at fields k))) (src + field_offset fields k)))))).
      lia. }
    by apply wire_message_of; [|eapply IH].
Qed.

(** A deeper check accepts what a shallower one accepts. *)
Lemma flat_ok_le n : forall n' fields, (n <= n')%nat -> flat_ok n fields = true -> flat_ok n' fields = true.
Proof.
  induction n as [|n IH]; intros n' fields Hle Hok; [done|]. destruct n' as [|n']; [lia|].
  cbn [flat_ok] in *. apply andb_true_iff in Hok as [Hall Hap]. rewrite Hap, andb_true_r.
  rewrite forallb_forall in *. intros f Hin. specialize (Hall f Hin).
  apply andb_true_iff in Hall as [Hall Hsub]. rewrite Hall. cbn [andb].
  destruct (negb _); [done|]. apply IH; [lia|done].
Qed.
End Defaults.
