(* ===== verification/RoundtripProps.v ===== *)
(** Every flat message can be encoded: the specification of the encoder gives the
    bytes of its records, and reads nothing outside the structure.

    From one structure to another: [pb_encode] into a buffer and [pb_decode] from
    it bring over every field of a flat message. *)

From Stdlib Require Import ZArith Lia List String Bool.
From stdpp Require Import base gmap list.
From S2P Require Import Prelude Base128 Memory Pb PbCommon PbDecode PbDecodeMsg PbEncode Cct Varint EncodeSpec Writer EncodeRefine Samples EncodeProps WireProps Iter Safe Safety SafetyProps Wire DecodeRefine DecodeProps Flat Roundtrip Defaults.

(** [r] gives [a] and reads only in [lo, hi). *)
Definition gives {A} (lo hi : Z) (m : gmap Z Z) (r : R A) (a : A) : Prop :=
  fst (r m) = Ret a /\ Forall (fun rd => inside lo hi (fst rd) (snd rd)) (snd (r m)).

Section Gives.
Variables (lo hi : Z) (m : gmap Z Z).

Lemma gives_ret {A} (a : A) : gives lo hi m (rret a) a.
Proof. split; [done|constructor]. Qed.

Lemma gives_bind {A B} (r : R A) (f : A -> R B) a b :
  gives lo hi m r a -> gives lo hi m (f a) b -> gives lo hi m (rbind r f) b.
Proof.
  intros [Hr Hrd] [Hf Hfd]. unfold gives, rbind. destruct (r m) as [o rd]. cbn in Hr, Hrd. subst o. cbn.
  split; [done|]. apply Forall_app. by split.
Qed.

Lemma gives_app r1 r2 l1 l2 :
  gives lo hi m r1 l1 -> gives lo hi m r2 l2 -> gives lo hi m (rapp r1 r2) (l1 ++ l2).
Proof. intros H1 H2. eapply gives_bind; [exact H1|]. eapply gives_bind; [exact H2|]. apply gives_ret. Qed.

Lemma gives_load a k : inside lo hi a (Z.of_nat k) -> gives lo hi m (rload a k) (load m a k).
Proof. intros Hin. split; [done|]. by constructor. Qed.

Lemma gives_load_bytes a k : inside lo hi a k -> gives lo hi m (rload_bytes a k) (load_bytes m a (Z.to_nat k)).
Proof. intros Hin. split; [done|]. by constructor. Qed.

Lemma gives_delimited r l : gives lo hi m r l -> zlen l < object_limit -> gives lo hi m (rdelimited r) (delimited l).
Proof.
  intros Hr Hl. eapply gives_bind; [exact Hr|]. destruct (Z.ltb_spec (zlen l) object_limit); [|lia]. apply gives_ret.
Qed.

Lemma gives_string a k :
  0 <= k -> inside lo hi a k -> gives lo hi m (spec_string a k) (delimited (load_bytes m a (Z.to_nat k))).
Proof.
  intros Hk Hin. eapply gives_bind; [by apply gives_load_bytes|]. unfold delimited.
  rewrite zlen_load_bytes, Z2Nat.id by done. apply gives_ret.
Qed.

Lemma gives_wider {A} lo' hi' (r : R A) a : gives lo hi m r a -> lo' <= lo -> hi <= hi' -> gives lo' hi' m r a.
Proof.
  intros [Hr Hrd] Hlo Hhi. split; [done|]. eapply Forall_impl; [exact Hrd|]. intros [b k]. unfold inside. cbn. lia.
Qed.
End Gives.

Section Encode.
Context `{Env}.
Variables (bound : nat) (mm : gmap Z Z).
Hypothesis tables_short : forall a, (List.length (desc a) <= bound)%nat.

Lemma gives_int signed size p lo hi :
  int_size size = true -> inside lo hi p size -> gives lo hi mm (spec_int signed size p) (int_at signed size p mm).
Proof.
  intros Hs Hin. unfold spec_int, int_at. cbv zeta.
  apply int_size_cases in Hs as [-> |[-> |[-> | ->]]]; cbn [Z.eqb Pos.eqb];
    (eapply gives_bind; [by apply gives_load|]); destruct signed; apply gives_ret.
Qed.

Lemma value_wire_type sub f p m :
  flat_type f = true -> wire_type_of (PB_LTYPE (type f)) = Some (wire_type (value_of sub f p m)).
Proof.
  unfold flat_type, wire_type_of, value_of. cbv zeta.
  destruct (PB_LTYPE (type f) =? PB_LTYPE_BOOL) eqn:E0; [done|].
  destruct (PB_LTYPE (type f) =? PB_LTYPE_VARINT) eqn:E1; [done|].
  destruct (PB_LTYPE (type f) =? PB_LTYPE_UVARINT) eqn:E2; [done|].
  destruct (PB_LTYPE (type f) =? PB_LTYPE_SVARINT) eqn:E3; [done|].
  destruct (PB_LTYPE (type f) =? PB_LTYPE_FIXED32) eqn:E4; [done|].
  destruct (PB_LTYPE (type f) =? PB_LTYPE_FIXED64) eqn:E5; [done|].
  destruct (PB_LTYPE (type f) =? PB_LTYPE_BYTES) eqn:E6; [done|].
  destruct (PB_LTYPE (type f) =? PB_LTYPE_SUBMESSAGE) eqn:E7.
  - intros _. by rewrite orb_true_r.
  - cbn [orb]. rewrite !orb_false_r. intros E. rewrite E. by rewrite orb_true_r.
Qed.

Section Value.
Variables (n m : nat) (message : list pb_field_t -> Z -> R (list Z)).
Hypothesis message_gives : forall fields size src,
  table_ok m fields size = true -> flat_ok m fields = true -> 0 < src -> arrays_fit m mm fields src ->
  (List.length fields <= bound)%nat -> zlen (message_bytes (records_of m mm fields src)) < 2 ^ 32 ->
  gives src (src + size) mm (message fields src) (message_bytes (records_of m mm fields src)).

Lemma gives_value f p size o so :
  field_fits m size o so f -> flat_type f = true -> 0 < p ->
  (PB_LTYPE (type f) = PB_LTYPE_BYTES -> load mm p 4 + 4 <= data_size f) ->
  (PB_LTYPE (type f) = PB_LTYPE_SUBMESSAGE -> flat_ok m (desc (ptr f)) = true /\ arrays_fit m mm (desc (ptr f)) p) ->
  zlen (payload (value_of (records_of m mm) f p mm)) < 2 ^ 32 ->
  gives p (p + data_size f) mm (spec_value bound message f p) (payload (value_of (records_of m mm) f p mm)).
Proof.
  intros Hf Hty Hp Hbytes Hsub. destruct (range_sizes _ (fits_range _ _ _ _ _ Hf)) as [Hds _].
  pose proof (fits_least _ _ _ _ _ Hf) as Hleast. unfold least_size in Hleast.
  unfold spec_value, value_of. cbv zeta. unfold flat_type in Hty. cbv zeta in Hty.
  destruct (Z.eqb_spec (PB_LTYPE (type f)) PB_LTYPE_BOOL) as [E|N0]; intros Hlen.
  { eapply gives_bind; [apply gives_load; unfold inside; rewrite ?E in Hleast; cbn in Hleast |- *; lia|]. apply gives_ret. }
  destruct (Z.eqb_spec (PB_LTYPE (type f)) PB_LTYPE_VARINT) as [E|N1].
  { cbn [orb] in Hty. eapply gives_bind; [apply gives_int; [done|unfold inside; lia]|]. apply gives_ret. }
  destruct (Z.eqb_spec (PB_LTYPE (type f)) PB_LTYPE_UVARINT) as [E|N2].
  { cbn [orb] in Hty. eapply gives_bind; [apply gives_int; [done|unfold inside; lia]|]. apply gives_ret. }
  destruct (Z.eqb_spec (PB_LTYPE (type f)) PB_LTYPE_SVARINT) as [E|N3].
  { cbn [orb] in Hty. eapply gives_bind; [apply gives_int; [done|unfold inside; lia]|]. apply gives_ret. }
  destruct (Z.eqb_spec (PB_LTYPE (type f)) PB_LTYPE_FIXED32) as [E|N4].
  { apply (gives_load_bytes _ _ _ _ 4). unfold inside. rewrite ?E in Hleast. cbn in Hleast. lia. }
  destruct (Z.eqb_spec (PB_LTYPE (type f)) PB_LTYPE_FIXED64) as [E|N5].
  { apply (gives_load_bytes _ _ _ _ 8). unfold inside. rewrite ?E in Hleast. cbn in Hleast. lia. }
  destruct (Z.eqb_spec (PB_LTYPE (type f)) PB_LTYPE_BYTES) as [E|N6].
  { specialize (Hbytes E). pose proof (load_range mm p 4). unfold spec_bytes. destruct (Z.eqb_spec p NULL); [unfold NULL in *; lia|].
    eapply gives_bind; [apply gives_load; unfold inside; change (Z.of_nat sizeof_pb_size) with 4; lia|].
    change (load mm p sizeof_pb_size) with (load mm p 4). destruct (Z.ltb_spec (data_size f) (load mm p 4 + 4)); [lia|].
    rewrite andb_false_r. apply gives_string; [lia|]. unfold inside. lia. }
  destruct (Z.eqb_spec (PB_LTYPE (type f)) PB_LTYPE_STRING) as [E|N7]; [by rewrite E in Hty|].
  destruct (Z.eqb_spec (PB_LTYPE (type f)) PB_LTYPE_SUBMESSAGE) as [E|N8].
  { destruct (fits_sub _ _ _ _ _ Hf E) as [Hptr Hok]. unfold spec_submessage. destruct (Z.eqb_spec (ptr f) NULL); [done|].
    destruct (Hsub E) as [Hflat Hfit]. cbn [payload] in Hlen |- *. unfold delimited in Hlen. rewrite zlen_app' in Hlen.
    fold (message_bytes (records_of m mm (desc (ptr f)) p)) in *.
    pose proof (zlen_nonneg (varint_bytes (zlen (message_bytes (records_of m mm (desc (ptr f)) p))))).
    apply gives_delimited; [|unfold object_limit; lia]. apply message_gives; done || lia. }
  assert (E : PB_LTYPE (type f) = PB_LTYPE_FIXED_LENGTH_BYTES).
  { cbn [orb] in Hty. rewrite ?orb_false_r in Hty. by apply Z.eqb_eq. }
  rewrite E. cbn [Z.eqb Pos.eqb PB_LTYPE_FIXED_LENGTH_BYTES]. apply gives_string; [lia|]. unfold inside. lia.
Qed.

(** *** A message *)

Variables (fields : list pb_field_t) (size src : Z).
Hypothesis ok : table_ok (S m) fields size = true.
Hypothesis flat : flat_ok (S m) fields = true.
Hypothesis nonnull : 0 < src.
Hypothesis fit : arrays_fit (S m) mm fields src.
Hypothesis small : zlen (message_bytes (records_of (S m) mm fields src)) < 2 ^ 32.

Lemma gives_tagged k :
  (k < List.length fields)%nat ->
  let f := field_at fields k in
  let p := src + field_offset fields k in
  present f (src + size_place fields k) mm = true ->
  gives src (src + size) mm (spec_tagged bound message f p)
    (record_bytes payload (tag f, value_of (records_of m mm) f p mm)).
Proof.
  intros Hk. cbv zeta. intros Hpres.
  destruct (field_inside m fields size k ok flat Hk) as (Hf & Hrule & Hty & Ho & Hs & Hflag & Hsub). cbv zeta in *.
  destruct (fit k Hk Hpres) as [Hbytes Hsubfit].
  assert (Hlen : zlen (payload (value_of (records_of m mm) (field_at fields k) (src + field_offset fields k) mm)) < 2 ^ 32).
  { eapply Z.le_lt_trans; [|exact small].
    apply (payload_short (tag (field_at fields k), value_of (records_of m mm) (field_at fields k) (src + field_offset fields k) mm)).
    cbn [records_of]. apply in_flat_map. exists k. split; [apply in_seq; lia|]. cbv zeta. rewrite Hpres. by left. }
  assert (Hvalue : gives (src + field_offset fields k) (src + field_offset fields k + data_size (field_at fields k)) mm
    (spec_value bound message (field_at fields k) (src + field_offset fields k))
    (payload (value_of (records_of m mm) (field_at fields k) (src + field_offset fields k) mm))).
  { eapply gives_value; [exact Hf|done|lia|done| |done]. intros E. destruct (Hsub E). by split; [|apply Hsubfit]. }
  apply gives_app; [|eapply gives_wider; [exact Hvalue|lia|lia]].
  unfold spec_tag_for_field. rewrite (value_wire_type (records_of m mm) _ (src + field_offset fields k) mm Hty).
  apply gives_ret.
Qed.

Lemma gives_step k :
  (k < List.length fields)%nat ->
  gives src (src + size) mm (spec_step bound n message (iter_nth fields src k))
    (message_bytes (records_at m mm fields src k)).
Proof.
  intros Hk. destruct (on_field_fits _ _ _ _ _ _ ok (on_field_nth fields src k Hk) eq_refl) as (Hcur & Hdata & _ & Hf).
  destruct (field_inside m fields size k ok flat Hk) as (_ & Hrule & Hty & Ho & Hs & Hflag & _). cbv zeta in *.
  pose proof (size_place_plain fields k) as Hplace. pose proof (gives_tagged k Hk) as Htagged. cbv zeta in Htagged.
  unfold spec_step, spec_field. rewrite Hcur, Hdata, (fits_static _ _ _ _ _ Hf).
  destruct (Z.eqb_spec (PB_LTYPE (type (field_at fields k))) PB_LTYPE_EXTENSION); [by destruct (fits_ltype _ _ _ _ _ Hf)|].
  cbn [Z.eqb PB_ATYPE_STATIC orb]. unfold records_at. cbv zeta. unfold spec_basic_field.
  rewrite (fits_static _ _ _ _ _ Hf). change (PB_ATYPE_STATIC =? PB_ATYPE_POINTER) with false. cbv iota zeta.
  unfold present in *. destruct (flat_rule_cases _ Hrule) as [E|[E Hso]]; rewrite E in *.
  - cbn [Z.eqb PB_HTYPE_REQUIRED orb] in *. eapply (gives_bind _ _ _ _ _ (negb (negb (size_offset (field_at fields k) =? 0)))).
    { destruct (negb _); apply gives_ret. }
    eapply gives_bind; [apply gives_ret|]. destruct (Z.eqb_spec (src + field_offset fields k) NULL); [unfold NULL in *; lia|].
    unfold message_bytes. cbn [flat_map]. rewrite app_nil_r. by apply Htagged.
  - specialize (Hflag eq_refl). rewrite Hplace in * by done.
    destruct (Z.eqb_spec (size_offset (field_at fields k)) 0); [done|].
    cbn [Z.eqb Pos.eqb PB_HTYPE_REQUIRED PB_HTYPE_OPTIONAL orb negb] in *.
    eapply gives_bind; [apply gives_ret|]. eapply gives_bind; [apply gives_ret|].
    eapply gives_bind; [eapply gives_bind; [apply gives_load; unfold inside; cbn; lia|apply gives_ret]|].
    rewrite Z.add_assoc in Htagged |- *. destruct (negb _); [|apply gives_ret].
    unfold message_bytes. cbn [flat_map]. rewrite app_nil_r. by apply Htagged.
Qed.

Lemma gives_fields d : forall k fuel,
  (k + S d = List.length fields)%nat -> (S d <= fuel)%nat ->
  gives src (src + size) mm (spec_fields bound n message fuel (iter_nth fields src k))
    (message_bytes (flat_map (records_at m mm fields src) (seq k (S d)))).
Proof.
  destruct (table_shape m fields size ok) as (Hne & Hshort & Hnz & _).
  induction d as [|d IH]; intros k fuel Hk Hfuel; (destruct fuel as [|fuel]; [lia|]); cbn [spec_fields];
    pose proof (on_field_nth fields src k ltac:(lia)) as Hon;
    cbn [seq flat_map]; unfold message_bytes; rewrite (flat_map_app _ (records_at m mm fields src k)).
  - rewrite (on_field_wrap fields src Hnz Hshort k _ Hon) by lia. cbn [flat_map].
    apply gives_app; [apply gives_step; lia|apply gives_ret].
  - rewrite (on_field_next fields src Hnz Hshort k _ Hon) by lia.
    apply gives_app; [apply gives_step; lia|]. apply (IH (S k)); lia.
Qed.

Lemma gives_message :
  (List.length fields <= bound)%nat ->
  gives src (src + size) mm (spec_message bound n message fields src) (message_bytes (records_of (S m) mm fields src)).
Proof.
  intros Hbound. destruct (table_shape m fields size ok) as (Hne & Hshort & Hnz & _). unfold spec_message.
  destruct (pb_field_iter_begin fields src) as [b iter] eqn:Eb.
  assert (Hb : b = true /\ iter = iter_nth fields src 0).
  { pose proof (field_at_tag fields Hnz 0 Hne). unfold pb_field_iter_begin in Eb. injection Eb as <- <-.
    split; [|done]. by destruct (Z.eqb_spec (tag (field_at fields 0)) 0). }
  destruct Hb as [-> ->]. pose proof (gives_fields (List.length fields - 1) 0 bound ltac:(lia) ltac:(lia)) as Hg.
  by replace (S (List.length fields - 1)) with (List.length fields) in Hg by lia.
Qed.
End Value.

(** The specification of the encoder on a flat message. *)
Lemma gives_encode m : forall n fields size src,
  (m <= n)%nat -> table_ok m fields size = true -> flat_ok m fields = true -> 0 < src -> arrays_fit m mm fields src ->
  (List.length fields <= bound)%nat -> zlen (message_bytes (records_of m mm fields src)) < 2 ^ 32 ->
  gives src (src + size) mm (spec_encode bound n fields src) (message_bytes (records_of m mm fields src)).
Proof.
  induction m as [|m IH]; intros n fields size src Hn Hok Hflat Hsrc Hfit Hlen Hsmall; [done|].
  destruct n as [|n]; [lia|]. cbn [spec_encode]. apply gives_message; try done.
  intros. apply IH; done || lia.
Qed.
End Encode.

Section Properties.
Context `{Env}.
Variables (bound e m n : nat) (fields : list pb_field_t) (size src dst : Z) (w : world).
Hypothesis Hbound : Z.of_nat bound <= 2 ^ 64.
Hypothesis tables : forall a, fields_in_range (desc a).
Hypothesis Hfields : fields_in_range fields.
Hypothesis ok : table_ok m fields size = true.
Hypothesis flat : flat_ok m fields = true.
Hypothesis deep : (m < n)%nat.
Hypothesis nonnull : 0 < src.

(** What was written decodes to the same message. *)
Lemma decode_written buf room l s' :
  fst (spec_encode bound e fields src (mem w)) = Ret l -> zlen l <= room -> zlen l < 2 ^ 32 ->
  buf + room <= dst \/ dst + size <= buf -> wrote buf l w s' ->
  exists t, pb_decode n fields dst (reopen buf s') = (Ret tt, t) /\ at_end t /\
    same_message n (mem w) (mem (d_world t)) fields src dst.
Proof.
  intros Hl Hroom Hshort Haway (Hcount & Hbytes & _ & _).
  pose proof (table_ok_le m n fields size ltac:(lia) ok) as Hok.
  pose proof (flat_ok_le m n fields ltac:(lia) flat) as Hflat.
  destruct (spec_encode_at bound n e (mem w) fields size src l Hok Hflat nonnull Hl) as [-> Hfit].
  pose proof (records_of_ok n (mem w) fields size src Hok Hflat Hshort) as Hrs.
  assert (Hin : input_at buf (message_bytes (records_of n (mem w) fields src)) dst size (e_world s')).
  { split; [exact Hbytes|]. lia. }
  destruct (decode_correct m n n fields size dst _ ok deep Hrs Hshort buf (e_world s') Hin) as (w1 & Hdef & Hdec).
  pose proof (message_cleared n fields size dst _ _ Hok Hflat Hdef) as Hclear.
  destruct (put_records_of n (mem w) fields size src dst (mem w1) Hok Hflat nonnull Hfit Hclear)
    as (m1 & Hput & Hsame & _).
  unfold reopen. rewrite Hcount. eexists. split; [by apply Hdec|]. split; [|exact Hsame].
  split; [cbn; lia|done].
Qed.

(** The bytes of the message in the structure. *)
Definition structure_bytes : list Z := message_bytes (records_of m (mem w) fields src).

Hypothesis tables_short : forall a, (List.length (desc a) <= bound)%nat.
Hypothesis fields_short : (List.length fields <= bound)%nat.
Hypothesis fuel : (m <= e)%nat.
Hypothesis fit : arrays_fit m (mem w) fields src.
Hypothesis small : zlen structure_bytes < 2 ^ 32.

Lemma flat_spec : gives src (src + size) (mem w) (spec_encode bound e fields src) structure_bytes.
Proof. by apply gives_encode. Qed.

(** A buffer apart from the structure is clear of what the encoder reads. *)
Lemma flat_clear buf room :
  buf + room <= src \/ src + size <= buf -> clear buf room (snd (spec_encode bound e fields src (mem w))).
Proof.
  intros Haway. destruct flat_spec as [_ Hrd]. eapply Forall_impl; [exact Hrd|].
  intros [a k]. unfold inside. cbn. lia.
Qed.

(** C1: A flat message - static required and optional fields of every type but
    strings, nested to any depth - that [pb_encode] writes into a buffer and
    [pb_decode] reads into another structure is the same message there: the same
    optional fields are present at every level, with the same values, and
    [pb_decode] has read exactly the bytes [pb_encode] wrote. *)
Theorem message_roundtrip buf room :
  0 <= room <= object_limit -> zlen structure_bytes <= room ->
  buf + room <= src \/ src + size <= buf -> buf + room <= dst \/ dst + size <= buf ->
  exists s', pb_encode e fields src (buffer_state buf room w) = (Ret tt, s') /\
  exists t, pb_decode n fields dst (reopen buf s') = (Ret tt, t) /\ at_end t /\
    same_message n (mem w) (mem (d_world t)) fields src dst.
Proof.
  intros Hlim Hroom Hsrc Haway. destruct flat_spec as [Hl _].
  destruct (writer_into (pb_encode e fields src) (spec_encode bound e fields src) buf room w structure_bytes) as (s' & Hs & Hw);
    [by apply writer_pb_encode|done|by apply flat_clear|done..|].
  exists s'. split; [exact Hs|]. by eapply decode_written.
Qed.

Lemma encoded_size : pb_get_encoded_size e fields src w = Ret (zlen structure_bytes).
Proof.
  destruct flat_spec as [Hl _].
  destruct (writer_sizing (pb_encode e fields src) (spec_encode bound e fields src) w structure_bytes)
    as (s' & Hs & Hw & _); [intros; by apply writer_pb_encode|done|by eapply Z.lt_trans; [exact small|]|].
  unfold pb_get_encoded_size. by rewrite Hs, Hw.
Qed.

(** The encoder accepts every flat message whose byte arrays fit in their room,
    and [pb_get_encoded_size] is the length of its records. *)
Theorem flat_encoded_size : pb_get_encoded_size e fields src w = Ret (zlen structure_bytes).
Proof. exact encoded_size. Qed.
End Properties.

(** ** On the sample message *)

Lemma cct_tables_short a : (List.length (desc a) <= 100)%nat.
Proof.
  cbn [desc cct_env]. unfold cct_desc.
  repeat (destruct (a =? _); [cbn; lia|]). cbn. lia.
Qed.

(** The fields of the witness are no byte arrays. *)
Lemma nested_arrays_fit m src : arrays_fit 2 m nested_fields src.
Proof.
  intros [|k] Hk; [|cbn in Hk; lia]. cbv zeta. intros _. split; [intros E; by vm_compute in E|].
  intros _ [|[|k]] Hk2; [| |cbn in Hk2; lia]; cbv zeta; intros _; (split; intros E; by vm_compute in E).
Qed.

Lemma message_roundtrip_witness : exists s',
  pb_encode 4 nested_fields sample_event_at (buffer_state sample_buffer 64 sample_world) = (Ret tt, s') /\
  exists t, pb_decode 3 nested_fields 0x30000 (reopen sample_buffer s') = (Ret tt, t) /\ at_end t /\
    same_message 3 (mem sample_world) (mem (d_world t)) nested_fields sample_event_at 0x30000.
Proof.
  apply (message_roundtrip 100 4 2 3 nested_fields 104 sample_event_at 0x30000 sample_world);
    [lia|exact cct_tables_in_range|by repeat constructor|vm_compute; reflexivity|vm_compute; reflexivity|lia|
     unfold sample_event_at; lia|exact cct_tables_short|cbn; lia|lia|apply nested_arrays_fit|vm_compute; reflexivity|
     unfold object_limit; lia|vm_compute; congruence|right; vm_compute; congruence|left; vm_compute; congruence].
Defined.

Lemma flat_encoded_size_witness :
  pb_get_encoded_size 4 nested_fields sample_event_at sample_world = Ret 7.
Proof.
  transitivity (@Ret Z (zlen (structure_bytes 2 nested_fields sample_event_at sample_world))); [|vm_compute; reflexivity].
  apply (flat_encoded_size 100 4 2 nested_fields 104 sample_event_at sample_world);
    [lia|exact cct_tables_in_range|by repeat constructor|vm_compute; reflexivity|vm_compute; reflexivity|
     unfold sample_event_at; lia|exact cct_tables_short|cbn; lia|lia|apply nested_arrays_fit|vm_compute; reflexivity].
Defined.
