(* ===== verification/CctProps.v ===== *)
(** The generated tables of the application: their offsets are those of the C
    structures, and the sizes the generator promises hold. *)

From Stdlib Require Import ZArith Lia List String Bool.
From stdpp Require Import base gmap list.
From S2P Require Import Prelude Memory Pb PbCommon PbDecode PbDecodeMsg PbEncode Cct Base128 Varint EncodeSpec Writer EncodeRefine Samples EncodeProps WireProps Iter Safe Safety Wire DecodeRefine DecodeProps Flat Roundtrip RoundtripProps.

(** ** Layout *)

(** Each table with its structure, the members its fields are about, and the
    members that hold their flags and counts. *)
Definition cct_layouts : list (list pb_field_t * struct * list (string * option string)) :=
  let flag m := (m, Some ("has_" ++ m))%string in
  let count m := (m, Some (m ++ "_count"))%string in
  let alone m := (m, None) in
  [(LogEvent_fields, LogEvent,
    [flag "event_time_ms"; alone "source_extension"; flag "event_code"; flag "timezone_offset_seconds";
     flag "event_uptime_ms"; flag "network_connection_info"]);
   (NetworkConnectionInfo_fields, NetworkConnectionInfo, [flag "network_type"; flag "mobile_subtype"]);
   (IosClientInfo_fields, IosClientInfo,
    [alone "os_major_version"; alone "os_full_version"; alone "application_build"; alone "country"; alone "model";
     alone "language_code"; alone "application_bundle_id"]);
   (ClientInfo_fields, ClientInfo, [flag "client_type"; flag "ios_client_info"]);
   (BatchedLogRequest_fields, BatchedLogRequest, [count "log_request"]);
   (LogRequest_fields, LogRequest,
    [flag "client_info"; flag "log_source"; count "log_event"; flag "request_time_ms"; flag "request_uptime_ms";
     flag "qos_tier"]);
   (QosTierConfiguration_fields, QosTierConfiguration, [flag "qos_tier"; flag "log_source"]);
   (QosTiersOverride_fields, QosTiersOverride, [count "qos_tier_configuration"; flag "qos_tier_fingerprint"]);
   (LogResponse_fields, LogResponse, [flag "next_request_wait_millis"; flag "qos_tier"]);
   (ICoreConfiguration_fields, ICoreConfiguration,
    [flag "configuration_type"; count "sdk_service_installed"; alone "device_model"; alone "app_id"; alone "bundle_id";
     flag "pod_name"; alone "icore_version"; alone "sdk_version"; flag "sdk_name"; flag "app_count"; alone "os_version";
     alone "min_supported_ios_version"; flag "use_default_app"; flag "deployed_in_app_store"; flag "dynamic_framework_count";
     alone "apple_framework_version"; flag "using_zip_file"; flag "deployment_type"; alone "platform_info";
     flag "swizzling_enabled"; flag "using_gdt"])]%string.

Definition place_ok (fields : list pb_field_t) (st : struct) (k : nat) (ms : string * option string) : bool :=
  (field_offset fields k =? offsetof (the st (fst ms)))
  && match snd ms with Some s => size_place fields k =? offsetof (the st s) | None => true end.

(** [k] steps of [pb_field_iter_next] lead to the [k]-th member and its flag or count. *)
Definition members_found (t : list pb_field_t * struct * list (string * option string)) : Prop :=
  let '(fields, st, members) := t in
  List.length members = List.length fields /\
  forall k ms dest, nth_error members k = Some ms ->
    pData (iter_nth fields dest k) = dest + offsetof (the st (fst ms)) /\
    match snd ms with
    | Some s => pSize (iter_nth fields dest k) = InMem (dest + offsetof (the st s))
    | None => True
    end.

Definition layout_check (t : list pb_field_t * struct * list (string * option string)) : bool :=
  let '(fields, st, members) := t in
  Nat.eqb (List.length members) (List.length fields)
  && (Z.of_nat (List.length fields) <? 2 ^ 32)
  && forallb (fun f => negb (tag f =? 0)) fields
  && forallb (fun k => match nth_error members k with Some ms => place_ok fields st k ms | None => true end)
       (seq 0 (List.length fields)).

Lemma layout_check_ok t : layout_check t = true -> members_found t.
Proof.
  destruct t as [[fields st] members]. unfold layout_check, members_found. intros Hc.
  apply andb_true_iff in Hc as [Hc Hplaces]. apply andb_true_iff in Hc as [Hc Htags].
  apply andb_true_iff in Hc as [Hlen Hshort]. apply Nat.eqb_eq in Hlen. split; [done|].
  intros k ms dest Hk. assert (Hlt : (k < List.length fields)%nat).
  { rewrite <- Hlen. apply nth_error_Some. by rewrite Hk. }
  assert (Hnz : tags_nonzero fields).
  { apply List.Forall_forall. intros f Hin. rewrite forallb_forall in Htags. specialize (Htags f Hin).
    by apply negb_true_iff, Z.eqb_neq in Htags. }
  destruct (iter_nth_at fields dest Hnz k Hlt ltac:(lia)) as (_ & _ & _ & _ & -> & ->).
  rewrite forallb_forall in Hplaces. specialize (Hplaces k). rewrite in_seq, Hk in Hplaces.
  specialize (Hplaces ltac:(lia)). unfold place_ok in Hplaces. apply andb_true_iff in Hplaces as [Ho Hs].
  apply Z.eqb_eq in Ho. rewrite Ho. split; [done|]. destruct (snd ms); [|done]. apply Z.eqb_eq in Hs. by rewrite Hs.
Qed.

(** C16: In every generated table, the distances between the fields add up: [k]
    steps of [pb_field_iter_next] from the start of a message point at the [k]-th
    member of its C structure, and at its [has_] flag or [_count]. *)
Theorem cct_tables_match_structs : Forall members_found cct_layouts.
Proof.
  assert (Hc : forallb layout_check cct_layouts = true) by (vm_compute; reflexivity).
  apply List.Forall_forall. intros t Hin. apply layout_check_ok. rewrite forallb_forall in Hc. by apply Hc.
Qed.

(** ** Sizes *)

Lemma short_varint_length v : 0 <= v < 128 -> zlen (varint_bytes v) = 1.
Proof. intros Hv. unfold varint_bytes. cbn [varint_groups]. by destruct (Z.ltb_spec v 128); [|lia]. Qed.

(** A one-byte tag and a varint, or nothing. *)
Lemma optional_varint_length (there : bool) t v b :
  zlen (spec_tag PB_WT_VARINT t) = 1 -> zlen (varint_bytes v) <= b ->
  0 <= zlen (message_bytes (if there then [(t, WVarint (varint_bytes v))] else [])) <= 1 + b.
Proof.
  intros Ht Hv. pose proof (zlen_nonneg (varint_bytes v)). destruct there; [|change (zlen (message_bytes [])) with 0; lia].
  unfold message_bytes. cbn [flat_map]. rewrite app_nil_r. unfold record_bytes. cbn [fst snd wire_type payload].
  rewrite zlen_app', Ht. lia.
Qed.

(** The specification of a table without byte arrays and submessages. *)
Lemma scalar_encoded_size fields size src w :
  table_ok 1 fields size = true -> flat_ok 1 fields = true -> fields_in_range fields -> 0 < src ->
  (List.length fields <= 100)%nat ->
  Forall (fun f => PB_LTYPE (type f) <> PB_LTYPE_BYTES) fields ->
  zlen (structure_bytes 1 fields src w) < 2 ^ 32 ->
  pb_get_encoded_size 2 fields src w = Ret (zlen (structure_bytes 1 fields src w)).
Proof.
  intros Hok Hflat Hrange Hsrc Hlen Hplain Hsmall.
  apply (encoded_size 100 2 1 fields size src w); try done; [exact cct_tables_in_range|exact cct_tables_short|lia|].
  intros k Hk. cbv zeta. intros _. split; [|done]. intros E.
  by apply (proj1 (List.Forall_forall _ _) Hplain (field_at fields k) (nth_In _ _ Hk)) in E.
Qed.

(** The bytes of a table of two fields. *)
Lemma two_fields f g src w :
  structure_bytes 1 [f; g] src w =
    message_bytes (records_at 0 (mem w) [f; g] src 0) ++ message_bytes (records_at 0 (mem w) [f; g] src 1).
Proof.
  unfold structure_bytes. rewrite <- message_bytes_app. unfold message_bytes. f_equal.
  cbn [records_of List.length seq flat_map]. by rewrite app_nil_r.
Qed.

Lemma mobile_subtype_range x : In x (map snd NetworkConnectionInfo_MobileSubtype) -> 0 <= x < 128.
Proof. cbn. lia. Qed.

Lemma qos_tier_range x : In x (map snd QosTierConfiguration_QosTier) -> 0 <= x < 128.
Proof. cbn. lia. Qed.

Section Sizes.
Variables (src : Z) (w : world).
Hypothesis nonnull : 0 < src.

Lemma int_varint_length signed size p :
  int_size size = true -> zlen (varint_bytes (u64 (int_at signed size p (mem w)))) <= 10.
Proof. intros _. apply zlen_varint. unfold uwrap. apply Z.mod_pos_bound. lia. Qed.

(** Two varint fields with one-byte tags. *)
Lemma two_varints f g (v1 v2 b1 b2 : Z) :
  records_at 0 (mem w) [f; g] src 0 =
    (if present f (src + size_place [f; g] 0) (mem w) then [(tag f, WVarint (varint_bytes v1))] else []) ->
  records_at 0 (mem w) [f; g] src 1 =
    (if present g (src + size_place [f; g] 1) (mem w) then [(tag g, WVarint (varint_bytes v2))] else []) ->
  zlen (spec_tag PB_WT_VARINT (tag f)) = 1 -> zlen (spec_tag PB_WT_VARINT (tag g)) = 1 ->
  zlen (varint_bytes v1) <= b1 -> zlen (varint_bytes v2) <= b2 ->
  zlen (structure_bytes 1 [f; g] src w) <= 2 + b1 + b2.
Proof.
  intros R1 R2 T1 T2 L1 L2. rewrite two_fields, zlen_app', R1, R2.
  pose proof (optional_varint_length (present f (src + size_place [f; g] 0) (mem w)) _ _ _ T1 L1).
  pose proof (optional_varint_length (present g (src + size_place [f; g] 1) (mem w)) _ _ _ T2 L2). lia.
Qed.

(** C17: A [NetworkConnectionInfo] with an enumerated mobile subtype, whatever its
    network type, is encoded in at most the 13 bytes the generated header promises. *)
Theorem NetworkConnectionInfo_size_bound :
  In (load (mem w) (src + offsetof (the NetworkConnectionInfo "mobile_subtype"%string)) 4)
    (map snd NetworkConnectionInfo_MobileSubtype) ->
  exists n, pb_get_encoded_size 2 NetworkConnectionInfo_fields src w = Ret n /\
    n <= gdt_cct_NetworkConnectionInfo_size.
Proof.
  intros Hsub. apply mobile_subtype_range in Hsub as Hv. set (v := load _ _ _) in Hv.
  assert (Hlen : zlen (structure_bytes 1 NetworkConnectionInfo_fields src w) <= 2 + 10 + 1).
  { eapply (two_varints _ _ (u64 (int_at true 4 (src + field_offset NetworkConnectionInfo_fields 0) (mem w))) v);
      [reflexivity..|by apply int_varint_length|by rewrite short_varint_length]. }
  exists (zlen (structure_bytes 1 NetworkConnectionInfo_fields src w)). split; [|exact Hlen].
  apply (scalar_encoded_size _ 16); [vm_compute; reflexivity|vm_compute; reflexivity|by repeat constructor|done|cbn; lia| |lia].
  repeat constructor; done.
Qed.

(** A [QosTierConfiguration] with an enumerated tier, whatever its log source,
    is encoded in at most the 13 bytes the generated header promises. *)
Theorem QosTierConfiguration_size_bound :
  In (load (mem w) (src + offsetof (the QosTierConfiguration "qos_tier"%string)) 4)
    (map snd QosTierConfiguration_QosTier) ->
  exists n, pb_get_encoded_size 2 QosTierConfiguration_fields src w = Ret n /\
    n <= gdt_cct_QosTierConfiguration_size.
Proof.
  intros Hsub. apply qos_tier_range in Hsub as Hv. set (v := load _ _ _) in Hv.
  assert (Hlen : zlen (structure_bytes 1 QosTierConfiguration_fields src w) <= 2 + 1 + 10).
  { eapply (two_varints _ _ v (u64 (int_at true 4 (src + field_offset QosTierConfiguration_fields 1) (mem w))));
      [reflexivity..|by rewrite short_varint_length|by apply int_varint_length]. }
  exists (zlen (structure_bytes 1 QosTierConfiguration_fields src w)). split; [|exact Hlen].
  apply (scalar_encoded_size _ 16); [vm_compute; reflexivity|vm_compute; reflexivity|by repeat constructor|done|cbn; lia| |lia].
  repeat constructor; done.
Qed.
End Sizes.

Lemma NetworkConnectionInfo_size_bound_witness : exists n,
  pb_get_encoded_size 2 NetworkConnectionInfo_fields
    (sample_event_at + offsetof (the LogEvent "network_connection_info"%string)) sample_world = Ret n /\
  n <= gdt_cct_NetworkConnectionInfo_size.
Proof.
  apply (NetworkConnectionInfo_size_bound (sample_event_at + offsetof (the LogEvent "network_connection_info"%string)) sample_world);
    [by vm_compute|vm_compute; tauto].
Defined.

(** [{ .qos_tier = UNMETERED_OR_DAILY, .log_source = -1 }] *)
Definition sample_tier : world :=
  mk_world (set_member QosTierConfiguration sample_event_at "has_qos_tier"%string 1
    (set_member QosTierConfiguration sample_event_at "qos_tier"%string
      (enum_value QosTierConfiguration_QosTier "UNMETERED_OR_DAILY"%string)
    (set_member QosTierConfiguration sample_event_at "has_log_source"%string 1
    (set_member QosTierConfiguration sample_event_at "log_source"%string (-1) ∅)))) ∅.

Lemma QosTierConfiguration_size_bound_witness : exists n,
  pb_get_encoded_size 2 QosTierConfiguration_fields sample_event_at sample_tier = Ret n /\
  n <= gdt_cct_QosTierConfiguration_size.
Proof. apply (QosTierConfiguration_size_bound sample_event_at sample_tier); [by vm_compute|vm_compute; tauto]. Defined.

(** The promise is tight. *)
Lemma sample_tier_size : pb_get_encoded_size 2 QosTierConfiguration_fields sample_event_at sample_tier = Ret 13.
Proof. vm_compute. reflexivity. Qed.
