(* ===== verification/Base64Props.v ===== *)
(** Base64: [f_b64_ntop] writes the text of its input or nothing beyond its room,
    [f_b64_pton] gives the input back, and neither ever leaves its buffer. *)

From Stdlib Require Import ZArith Lia List String Ascii Bool.
From stdpp Require Import base gmap list.
From S2P Require Import Prelude Memory Pb PbCommon PbDecode PbEncode Base128 Varint Base64 DecodeRefine.

(** ** The reference: groups of 24 bits *)

(** The [j]-th of the four digits of a group. *)
Definition sextet (i0 i1 i2 : Z) (j : Z) : Z :=
  (i0 * 2 ^ 16 + i1 * 2 ^ 8 + i2) / 2 ^ (18 - 6 * j) mod 64.

Fixpoint base64_text (src : list Z) : list Z :=
  match src with
  | i0 :: i1 :: i2 :: src' => map (fun j => digit (sextet i0 i1 i2 j)) [0; 1; 2; 3] ++ base64_text src'
  | [i0; i1] => map (fun j => digit (sextet i0 i1 0 j)) [0; 1; 2] ++ [Pad64]
  | [i0] => map (fun j => digit (sextet i0 0 0 j)) [0; 1] ++ [Pad64; Pad64]
  | [] => []
  end.

Lemma chars_byte s : Forall byte (chars s).
Proof.
  apply Forall_forall. intros x. unfold chars. rewrite list_elem_of_In, in_map_iff. intros (c & <- & _).
  pose proof (nat_ascii_bounded c). unfold byte. lia.
Qed.

(** Lists by groups of three. *)
Lemma groups_ind (P : list Z -> Prop) :
  P [] -> (forall a, P [a]) -> (forall a b, P [a; b]) -> (forall a b c l, P l -> P (a :: b :: c :: l)) ->
  forall l, P l.
Proof.
  intros H0 H1 H2 H3. fix IH 1. intros [|a [|b [|c l]]]; [exact H0|apply H1|apply H2|]. apply H3, IH.
Qed.

(** ** Digits *)

Lemma outputs i0 i1 i2 :
  byte i0 -> byte i1 -> byte i2 ->
  output0 i0 = sextet i0 i1 i2 0 /\ output1 i0 i1 = sextet i0 i1 i2 1 /\
  output2 i1 i2 = sextet i0 i1 i2 2 /\ output3 i2 = sextet i0 i1 i2 3.
Proof.
  unfold byte. intros H0 H1 H2. unfold output0, output1, output2, output3, sextet, uwrap.
  change (18 - 6 * 0) with 18. change (18 - 6 * 1) with 12. change (18 - 6 * 2) with 6. change (18 - 6 * 3) with 0.
  change 0x03 with (Z.ones 2). change 0x0f with (Z.ones 4). change 0x3f with (Z.ones 6).
  rewrite !Z.land_ones by lia. rewrite !Z.shiftl_mul_pow2, !Z.shiftr_div_pow2 by lia.
  change (2 ^ 16) with 65536. change (2 ^ 8) with 256. change (2 ^ 18) with 262144. change (2 ^ 12) with 4096.
  change (2 ^ 6) with 64. change (2 ^ 0) with 1. change (2 ^ 2) with 4. change (2 ^ 4) with 16.
  repeat split; zlia.
Qed.

Lemma sextet_range i0 i1 i2 j : 0 <= sextet i0 i1 i2 j < 64.
Proof. unfold sextet. apply Z.mod_pos_bound. lia. Qed.

(** What the alphabet is: 64 characters, none of them special, each found where it is. *)
Definition digit_ok (v : Z) : bool :=
  let c := digit v in
  (0 <? c) && (c <? 256) && negb (isspace c) && negb (c =? Pad64)
  && match base64_pos c with Some p => p =? v | None => false end.

Lemma digits_ok v : 0 <= v < 64 -> digit_ok v = true.
Proof.
  intros Hv. assert (Hall : forallb (fun k => digit_ok (Z.of_nat k)) (seq 0 64) = true) by (vm_compute; reflexivity).
  rewrite forallb_forall in Hall. specialize (Hall (Z.to_nat v)). rewrite in_seq, Z2Nat.id in Hall by lia.
  apply Hall. lia.
Qed.

Lemma digit_props v :
  0 <= v < 64 -> digit v <> 0 /\ byte (digit v) /\ isspace (digit v) = false /\ digit v <> Pad64 /\
    base64_pos (digit v) = Some v.
Proof.
  intros Hv. pose proof (digits_ok v Hv) as Hd. unfold digit_ok in Hd. cbv zeta in Hd. unfold byte.
  rewrite !andb_true_iff, !negb_true_iff in Hd. destruct Hd as [[[[H1 H2] H3] H4] H5].
  apply Z.eqb_neq in H4. destruct (base64_pos (digit v)) as [p|]; [|done]. apply Z.eqb_eq in H5 as ->.
  repeat split; lia || done.
Qed.

(** ** Writing *)

Lemma array_set_at done old rest v :
  array_set (done ++ old :: rest) (Z.of_nat (List.length done)) v = Some (done ++ u8 v :: rest).
Proof.
  unfold array_set. rewrite length_app. cbn [List.length].
  destruct (Z.leb_spec 0 (Z.of_nat (List.length done))), (Z.ltb_spec (Z.of_nat (List.length done)) (Z.of_nat (List.length done + S (List.length rest)))); try lia.
  cbn [andb]. rewrite Nat2Z.id. f_equal.
  rewrite insert_app_r_alt, Nat.sub_diag by lia. done.
Qed.

Lemma array_append_at cs : forall done old rest,
  List.length old = List.length cs -> Forall byte cs ->
  array_append (done ++ old ++ rest) (Z.of_nat (List.length done)) cs = Some (done ++ cs ++ rest).
Proof.
  induction cs as [|c cs IH]; intros done old rest Hlen Hcs.
  - by destruct old.
  - destruct old as [|o old]; [done|]. apply Forall_cons in Hcs as [Hc Hcs]. cbn [app array_append].
    rewrite array_set_at. cbn [mbind option_bind]. unfold uwrap. rewrite Z.mod_small by exact Hc.
    replace (done ++ c :: old ++ rest) with ((done ++ [c]) ++ old ++ rest) by (by rewrite <- app_assoc).
    replace (Z.of_nat (List.length done) + 1) with (Z.of_nat (List.length (done ++ [c]))) by (rewrite length_app, Nat2Z.inj_add; reflexivity).
    rewrite IH; [by rewrite <- app_assoc|by injection Hlen|done].
Qed.

(** One group written: [datalength] is [length done], the room [rest]. *)
Lemma group_written done rest cs :
  Forall byte cs -> List.length cs = 4%nat -> (4 <= List.length rest)%nat ->
  array_append (done ++ rest) (Z.of_nat (List.length done)) cs = Some ((done ++ cs) ++ drop 4 rest).
Proof.
  intros Hcs Hlen Hroom. rewrite <- (take_drop 4 rest) at 1.
  rewrite array_append_at by (rewrite ?length_take; lia || done). by rewrite app_assoc.
Qed.

Lemma terminate_written done rest :
  rest <> [] -> array_set (done ++ rest) (Z.of_nat (List.length done)) 0 = Some (done ++ 0 :: drop 1 rest).
Proof. destruct rest as [|o rest]; [done|]. intros _. by rewrite array_set_at. Qed.

Lemma digit_byte v : 0 <= v < 64 -> byte (digit v).
Proof. intros Hv. apply (digit_props v Hv). Qed.

Lemma sextets_byte i0 i1 i2 js : Forall byte (map (fun j => digit (sextet i0 i1 i2 j)) js).
Proof. apply Forall_forall. intros x. rewrite list_elem_of_In, in_map_iff. intros (j & <- & _). apply digit_byte, sextet_range. Qed.

Lemma Pad64_byte : byte Pad64.
Proof. unfold byte, Pad64. lia. Qed.

(** What a run of [ntop_loop] gives for [len] more characters of room [room]. *)
Definition ntop_result (done rest text : list Z) (targsize : Z) (r : option (Z * list Z)) : Prop :=
  let len := Z.of_nat (List.length done) + Z.of_nat (List.length text) in
  if len <? targsize
  then r = Some (len, done ++ text ++ 0 :: drop (S (List.length text)) rest)
  else exists t, r = Some (-1, t) /\ List.length t = List.length (done ++ rest).

Section Ntop.
Variable targsize : Z.
Hypothesis Hsize : 0 <= targsize < 2 ^ 63.

Lemma terminate_result done rest :
  targsize = Z.of_nat (List.length (done ++ rest)) -> Z.of_nat (List.length done) < 2 ^ 31 ->
  ntop_result done rest [] targsize (ntop_finish [] (done ++ rest) targsize (Z.of_nat (List.length done))).
Proof.
  intros Ht Hl. rewrite length_app in Ht. unfold ntop_result. cbn [List.length app]. rewrite Z.add_0_r. unfold ntop_finish.
  destruct (Z.ltb_spec (Z.of_nat (List.length done)) targsize) as [H|H].
  - destruct (Z.leb_spec targsize (Z.of_nat (List.length done))); [lia|].
    rewrite terminate_written by (destruct rest; cbn in Ht; [lia|done]).
    cbn [mbind option_bind]. rewrite swrap_fits by lia. done.
  - destruct (Z.leb_spec targsize (Z.of_nat (List.length done))); [|lia]. by eexists.
Qed.

(** One group in the way: the room is checked, then it is written. *)
Lemma group_result done rest cs text (k : list Z -> Z -> option (Z * list Z)) :
  targsize = Z.of_nat (List.length (done ++ rest)) ->
  Forall byte cs -> List.length cs = 4%nat ->
  ((4 <= List.length rest)%nat ->
   ntop_result (done ++ cs) (drop 4 rest) text targsize
     (k ((done ++ cs) ++ drop 4 rest) (Z.of_nat (List.length (done ++ cs))))) ->
  ntop_result done rest (cs ++ text) targsize
    (if targsize <? u64 (Z.of_nat (List.length done) + 4) then Some (-1, done ++ rest)
     else target' ← array_append (done ++ rest) (Z.of_nat (List.length done)) cs;
          k target' (Z.of_nat (List.length done) + 4)).
Proof.
  intros Ht Hcs Hlen Hk. rewrite length_app in Ht. unfold uwrap. rewrite Z.mod_small by lia.
  destruct (Z.ltb_spec targsize (Z.of_nat (List.length done) + 4)) as [H|H].
  - unfold ntop_result. rewrite length_app, Hlen.
    destruct (Z.ltb_spec (Z.of_nat (List.length done) + Z.of_nat (4 + List.length text)) targsize); [lia|by eexists].
  - rewrite group_written by (done || lia). cbn [mbind option_bind]. specialize (Hk ltac:(lia)).
    rewrite length_app, Hlen, Nat2Z.inj_add in Hk. revert Hk. unfold ntop_result. rewrite !length_app, Hlen.
    rewrite !Nat2Z.inj_add, <- !Z.add_assoc. change (Z.of_nat 4) with 4.
    destruct (Z.ltb_spec (Z.of_nat (List.length done) + (4 + Z.of_nat (List.length text))) targsize) as [Hr|Hr].
    + intros ->. rewrite drop_drop, <- !app_assoc. done.
    + intros (t & -> & Hl). exists t. split; [done|]. rewrite Hl, length_drop. lia.
Qed.

Lemma ntop_loop_result src : Forall byte src -> forall done rest,
  targsize = Z.of_nat (List.length (done ++ rest)) ->
  Z.of_nat (List.length done) + Z.of_nat (List.length (base64_text src)) < 2 ^ 31 ->
  ntop_result done rest (base64_text src) targsize
    (ntop_loop src (done ++ rest) targsize (Z.of_nat (List.length done))).
Proof.
  induction src as [|a|a b|a b c src IH] using groups_ind; intros Hsrc done rest Ht Hl;
    rewrite ?Forall_cons in Hsrc.
  - by apply terminate_result; [|cbn in Hl; lia].
  - destruct Hsrc as [Ha _]. destruct (outputs a 0 0) as (E0 & E1 & _ & _); [done|unfold byte; lia..|].
    cbn [ntop_loop ntop_finish nth List.length Nat.eqb]. rewrite E0, E1.
    cbn [base64_text] in *. rewrite <- (app_nil_r (_ ++ _)).
    apply (group_result done rest _ [] (fun t d => ntop_finish [] t targsize d)); [done| |done|].
    + apply Forall_app. split; [apply sextets_byte|]. repeat constructor; apply Pad64_byte.
    + intros Hroom. apply terminate_result; [|rewrite length_app; cbn in *; lia].
      rewrite Ht, !length_app, length_drop. cbn. lia.
  - destruct Hsrc as (Ha & Hb & _). destruct (outputs a b 0) as (E0 & E1 & E2 & _); [done|done|unfold byte; lia|].
    cbn [ntop_loop ntop_finish nth List.length Nat.eqb]. rewrite E0, E1, E2.
    cbn [base64_text] in *. rewrite <- (app_nil_r (_ ++ _)).
    apply (group_result done rest _ [] (fun t d => ntop_finish [] t targsize d)); [done| |done|].
    + apply Forall_app. split; [apply sextets_byte|]. repeat constructor; apply Pad64_byte.
    + intros Hroom. apply terminate_result; [|rewrite length_app; cbn in *; lia].
      rewrite Ht, !length_app, length_drop. cbn. lia.
  - destruct Hsrc as (Ha & Hb & Hc & Hsrc). destruct (outputs a b c) as (E0 & E1 & E2 & E3); [done..|].
    cbn [ntop_loop]. rewrite E0, E1, E2, E3. cbn [base64_text] in *.
    apply (group_result done rest _ (base64_text src) (fun t d => ntop_loop src t targsize d)); [done|apply sextets_byte|done|].
    intros Hroom. apply IH; [done| |rewrite length_app in *; cbn in *; lia].
    rewrite Ht, !length_app, length_drop. cbn. lia.
Qed.
End Ntop.

(** C14: [f_b64_ntop] into a buffer of [targsize] bytes writes the base64 text of
    the source and its terminator when they fit and returns the length of the
    text; otherwise it returns -1. It never writes outside the buffer. *)
Theorem f_b64_ntop_correct (src target : list Z) (targsize : Z) :
  Forall byte src ->
  targsize = Z.of_nat (List.length target) ->
  targsize < 2 ^ 63 ->
  Z.of_nat (List.length (base64_text src)) < 2 ^ 31 ->
  let len := Z.of_nat (List.length (base64_text src)) in
  if len <? targsize
  then f_b64_ntop src target targsize
       = Some (len, base64_text src ++ 0 :: drop (S (List.length (base64_text src))) target)
  else exists t, f_b64_ntop src target targsize = Some (-1, t) /\ List.length t = List.length target.
Proof.
  intros Hsrc Ht Hs Hl. cbv zeta.
  apply (ntop_loop_result targsize ltac:(lia) src Hsrc [] target Ht). cbn [List.length]. lia.
Qed.

Definition hello : list Z := chars "hello".

Lemma f_b64_ntop_correct_witness :
  f_b64_ntop hello (repeat 7 10) 10 = Some (8, chars "aGVsbG8=" ++ [0; 7]) /\
  exists t, f_b64_ntop hello (repeat 7 8) 8 = Some (-1, t) /\ List.length t = 8%nat.
Proof.
  split.
  - apply (f_b64_ntop_correct hello (repeat 7 10) 10); [apply chars_byte|vm_compute; reflexivity..].
  - apply (f_b64_ntop_correct hello (repeat 7 8) 8); [apply chars_byte|vm_compute; reflexivity..].
Defined.

(** ** Reading *)

Section Pton.
Variable targsize : Z.

(** A digit is taken and passed to [pton_digit]. *)
Lemma pton_loop_digit v src state tarindex target :
  0 <= v < 64 ->
  pton_loop (digit v :: src) state tarindex target targsize =
  (r ← pton_digit v state tarindex target targsize;
   match r with
   | inl e => Some (e, target)
   | inr (state', tarindex', target') => pton_loop src state' tarindex' target' targsize
   end).
Proof.
  intros Hv. destruct (digit_props v Hv) as (H0 & _ & Hs & Hp & Hpos). cbn [pton_loop].
  apply Z.eqb_neq in H0 as ->. rewrite Hs. apply Z.eqb_neq in Hp as ->. by rewrite Hpos.
Qed.

Lemma array_get_at done v rest : array_get (done ++ v :: rest) (Z.of_nat (List.length done)) = Some v.
Proof. unfold array_get. rewrite Nat2Z.id. by rewrite lookup_app_r, Nat.sub_diag. Qed.

(** The byte under construction and the next one. *)
Lemma pton_digit_0 v done o rest :
  0 <= v < 64 -> Z.of_nat (List.length done) < targsize ->
  pton_digit v 0 (Z.of_nat (List.length done)) (Some (done ++ o :: rest)) targsize =
  Some (inr (1, Z.of_nat (List.length done), Some (done ++ v * 4 :: rest))).
Proof.
  intros Hv Hl. unfold pton_digit. cbn [Z.eqb]. destruct (Z.leb_spec targsize (Z.of_nat (List.length done))); [lia|].
  rewrite array_set_at. cbn [mbind option_bind]. rewrite Z.shiftl_mul_pow2 by lia. unfold uwrap.
  rewrite Z.mod_small by lia. done.
Qed.

Lemma lor_low a b k n : 0 <= a < 2 ^ k -> 0 <= k -> b mod 2 ^ k = 0 -> 0 <= b < 2 ^ n -> a + b < 2 ^ n ->
  uwrap n (Z.lor b a) = b + a.
Proof.
  intros Ha Hk Hb Hn Hs. pose proof (Z.div_exact b (2 ^ k) ltac:(lia)) as [_ E]. specialize (E Hb).
  rewrite Z.lor_comm. rewrite E at 1. rewrite Z.mul_comm, <- Z.shiftl_mul_pow2 by lia.
  rewrite lor_shiftl_add by lia. rewrite (Z.mul_comm _ (2 ^ k)), <- E. unfold uwrap. rewrite Z.mod_small by lia. lia.
Qed.

Lemma array_set_at1 done x old rest v :
  array_set (done ++ x :: old :: rest) (Z.of_nat (List.length done) + 1) v = Some (done ++ x :: u8 v :: rest).
Proof.
  pose proof (array_set_at (done ++ [x]) old rest v) as H. rewrite <- !app_assoc in H. cbn [app] in H.
  rewrite <- H. f_equal. rewrite length_app, Nat2Z.inj_add. done.
Qed.

(** States 1 and 2: the low bits of one byte, the high bits of the next. *)
Lemma pton_digit_mid state p v done o rest :
  (state = 1 /\ p mod 4 = 0 \/ state = 2 /\ p mod 16 = 0) ->
  0 <= p < 256 -> 0 <= v < 64 -> Z.of_nat (List.length done) + 1 < targsize -> targsize < 2 ^ 32 ->
  pton_digit v state (Z.of_nat (List.length done)) (Some (done ++ p :: o :: rest)) targsize =
  Some (inr (state + 1, Z.of_nat (List.length done) + 1,
    Some (done ++ p + v / (if state =? 1 then 16 else 4)
          :: (if state =? 1 then v mod 16 * 16 else v mod 4 * 64) :: rest))).
Proof.
  intros Hst Hp Hv Hl Ht. unfold pton_digit.
  assert (Hu : u32 (Z.of_nat (List.length done) + 1) = Z.of_nat (List.length done) + 1)
    by (unfold uwrap; apply Z.mod_small; lia).
  rewrite !Hu. destruct (Z.leb_spec targsize (Z.of_nat (List.length done) + 1)); [lia|].
  rewrite array_get_at.
  destruct Hst as [[-> Hm]|[-> Hm]]; cbn [Z.eqb Pos.eqb mbind option_bind]; rewrite array_set_at; cbn [mbind option_bind];
    rewrite array_set_at1; cbn [mbind option_bind]; rewrite Z.shiftr_div_pow2, Z.shiftl_mul_pow2 by lia.
  - change 0x0f with (Z.ones 4). rewrite Z.land_ones by lia. change (2 ^ 4) with 16.
    rewrite (lor_low (v / 16) p 2) by zlia. unfold uwrap. by rewrite Z.mod_small by zlia.
  - change 0x03 with (Z.ones 2). rewrite Z.land_ones by lia. change (2 ^ 2) with 4. change (2 ^ 6) with 64.
    rewrite (lor_low (v / 4) p 4) by zlia. unfold uwrap. by rewrite Z.mod_small by zlia.
Qed.

Lemma pton_digit_3 p v done rest :
  p mod 64 = 0 -> 0 <= p < 256 -> 0 <= v < 64 -> Z.of_nat (List.length done) < targsize < 2 ^ 32 ->
  pton_digit v 3 (Z.of_nat (List.length done)) (Some (done ++ p :: rest)) targsize =
  Some (inr (0, Z.of_nat (List.length done) + 1, Some (done ++ p + v :: rest))).
Proof.
  intros Hm Hp Hv Hl. unfold pton_digit. cbn [Z.eqb Pos.eqb].
  destruct (Z.leb_spec targsize (Z.of_nat (List.length done))); [lia|].
  rewrite array_get_at. cbn [mbind option_bind]. rewrite array_set_at. cbn [mbind option_bind].
  rewrite (lor_low v p 6) by zlia. unfold uwrap. rewrite Z.mod_small by lia. done.
Qed.

(** What is left after [src]: a whole number of bytes, or a zero byte begun. *)
Definition pton_room (src : list Z) : nat :=
  (List.length src + (if Nat.eqb (List.length src mod 3) 0 then 0 else 1))%nat.

Hypothesis Hsize : targsize < 2 ^ 31.

Lemma group_bytes a b c :
  byte a -> byte b -> byte c ->
  let s j := sextet a b c j in
  s 0 * 4 + s 1 / 16 = a /\ s 1 mod 16 * 16 + s 2 / 4 = b /\ s 2 mod 4 * 64 + s 3 = c /\
  (b = 0 -> s 1 mod 16 * 16 = 0) /\ (c = 0 -> s 2 mod 4 * 64 = 0).
Proof.
  unfold byte. intros Ha Hb Hc. cbv zeta. unfold sextet.
  change (18 - 6 * 0) with 18. change (18 - 6 * 1) with 12. change (18 - 6 * 2) with 6. change (18 - 6 * 3) with 0.
  change (2 ^ 16) with 65536. change (2 ^ 8) with 256. change (2 ^ 18) with 262144. change (2 ^ 12) with 4096.
  change (2 ^ 6) with 64. change (2 ^ 0) with 1. repeat split; zlia.
Qed.

(** The first two digits of a group. *)
Lemma pton_two a b c text done o0 o1 rest :
  byte a -> byte b -> byte c -> Z.of_nat (List.length done) + 1 < targsize ->
  pton_loop (digit (sextet a b c 0) :: digit (sextet a b c 1) :: text) 0 (Z.of_nat (List.length done))
    (Some (done ++ o0 :: o1 :: rest)) targsize =
  pton_loop text 2 (Z.of_nat (List.length (done ++ [a]))) (Some ((done ++ [a]) ++ sextet a b c 1 mod 16 * 16 :: rest)) targsize.
Proof.
  intros Ha Hb Hc Hl. pose proof (sextet_range a b c) as Hr. destruct (group_bytes a b c Ha Hb Hc) as (E & _).
  pose proof (Hr 0). pose proof (Hr 1).
  rewrite pton_loop_digit, pton_digit_0 by (done || lia). cbn [mbind option_bind].
  rewrite pton_loop_digit, (pton_digit_mid 1) by (zlia || (left; split; [done|zlia])). cbn [mbind option_bind Z.eqb Pos.eqb].
  rewrite E. rewrite <- app_assoc, length_app, Nat2Z.inj_add. done.
Qed.

(** The third one. *)
Lemma pton_third a b c text done o2 rest :
  byte a -> byte b -> byte c -> Z.of_nat (List.length done) + 1 < targsize ->
  pton_loop (digit (sextet a b c 2) :: text) 2 (Z.of_nat (List.length done))
    (Some (done ++ sextet a b c 1 mod 16 * 16 :: o2 :: rest)) targsize =
  pton_loop text 3 (Z.of_nat (List.length (done ++ [b]))) (Some ((done ++ [b]) ++ sextet a b c 2 mod 4 * 64 :: rest)) targsize.
Proof.
  intros Ha Hb Hc Hl. pose proof (sextet_range a b c) as Hr. destruct (group_bytes a b c Ha Hb Hc) as (_ & E & _).
  pose proof (Hr 1). pose proof (Hr 2).
  rewrite pton_loop_digit, (pton_digit_mid 2) by (zlia || (right; split; [done|zlia])). cbn [mbind option_bind Z.eqb Pos.eqb].
  rewrite E. rewrite <- app_assoc, length_app, Nat2Z.inj_add. done.
Qed.

(** The padding after an unfinished byte, which must be zero. *)
Lemma pton_pad state done rest :
  (state = 2 \/ state = 3) -> Z.of_nat (List.length done) < targsize ->
  pton_loop (if state =? 2 then [Pad64; Pad64] else [Pad64]) state (Z.of_nat (List.length done)) (Some (done ++ 0 :: rest)) targsize =
  Some (Z.of_nat (List.length done), Some (done ++ 0 :: rest)).
Proof.
  intros Hs Hl. assert (Hw : swrap 32 (Z.of_nat (List.length done)) = Z.of_nat (List.length done)) by (apply swrap_fits; lia).
  destruct Hs as [-> | ->]; cbn; rewrite array_get_at; cbn; by rewrite Hw.
Qed.

Lemma pton_loop_text src : Forall byte src -> forall done rest,
  targsize = Z.of_nat (List.length (done ++ rest)) -> (pton_room src <= List.length rest)%nat ->
  exists rest', List.length (src ++ rest') = List.length rest /\
    pton_loop (base64_text src) 0 (Z.of_nat (List.length done)) (Some (done ++ rest)) targsize =
    Some (Z.of_nat (List.length (done ++ src)), Some (done ++ src ++ rest')).
Proof.
  induction src as [|a|a b|a b c src IH] using groups_ind; intros Hsrc done rest Ht Hl;
    rewrite ?Forall_cons in Hsrc; rewrite length_app in Ht; unfold pton_room in Hl.
  - exists rest. split; [done|]. cbn. rewrite app_nil_r, swrap_fits by lia. done.
  - destruct Hsrc as [Ha _]. destruct rest as [|o0 [|o1 rest]]; cbn in Hl, Ht; try lia.
    assert (H0 : byte 0) by (unfold byte; lia). destruct (group_bytes a 0 0) as (_ & _ & _ & E & _); [done..|].
    cbn [base64_text map app]. rewrite pton_two by (done || lia). rewrite E by done.
    rewrite (pton_pad 2) by (lia || rewrite length_app; cbn; lia).
    exists (0 :: rest). split; [done|]. by rewrite <- !app_assoc.
  - destruct Hsrc as (Ha & Hb & _). destruct rest as [|o0 [|o1 [|o2 rest]]]; cbn in Hl, Ht; try lia.
    assert (H0 : byte 0) by (unfold byte; lia). destruct (group_bytes a b 0) as (_ & _ & _ & _ & E); [done..|].
    cbn [base64_text map app]. rewrite pton_two by (done || lia).
    rewrite pton_third by (done || (rewrite length_app; cbn; lia)). rewrite E by done.
    rewrite (pton_pad 3) by (lia || (rewrite !length_app; cbn; lia)).
    exists (0 :: rest). split; [done|]. by rewrite <- !app_assoc.
  - destruct Hsrc as (Ha & Hb & Hc & Hsrc).
    assert (Hroom : pton_room (a :: b :: c :: src) = (3 + pton_room src)%nat).
    { unfold pton_room. cbn [List.length]. replace (S (S (S (List.length src)))) with (List.length src + 1 * 3)%nat by lia.
      rewrite Nat.Div0.mod_add. lia. }
    fold (pton_room (a :: b :: c :: src)) in Hl. rewrite Hroom in Hl.
    destruct rest as [|o0 [|o1 [|o2 rest]]]; cbn in Hl, Ht; try lia.
    destruct (group_bytes a b c) as (_ & _ & E & _); [done..|].
    pose proof (sextet_range a b c 3). pose proof (sextet_range a b c 2).
    cbn [base64_text map app]. rewrite pton_two by (done || lia).
    rewrite pton_third by (done || (rewrite length_app; cbn; lia)).
    rewrite pton_loop_digit, pton_digit_3 by (zlia || (rewrite !length_app; cbn; lia)). cbn [mbind option_bind]. rewrite E.
    change (?l ++ c :: rest) with (l ++ [c] ++ rest).
    destruct (IH Hsrc (((done ++ [a]) ++ [b]) ++ [c]) rest) as (rest' & Hlen & E'); [rewrite !length_app; cbn; lia|lia|].
    exists rest'. split; [cbn; lia|]. rewrite <- !app_assoc in *. cbn [app] in *. rewrite <- E'. f_equal.
    rewrite !length_app. cbn. lia.
Qed.
End Pton.

(** C13: [f_b64_pton] reads back what [f_b64_ntop] writes: of the text of any bytes
    it returns their number and stores them at the front of the target. The room
    it needs is their number, one more when the last group is incomplete. *)
Theorem f_b64_pton_text (src target : list Z) (targsize : Z) :
  Forall byte src ->
  targsize = Z.of_nat (List.length target) ->
  targsize < 2 ^ 31 ->
  (pton_room src <= List.length target)%nat ->
  exists rest, List.length (src ++ rest) = List.length target /\
    f_b64_pton (base64_text src) (Some target) targsize
    = Some (Z.of_nat (List.length src), Some (src ++ rest)).
Proof. intros Hsrc Ht Hs Hl. apply (pton_loop_text targsize Hs src Hsrc [] target Ht Hl). Qed.

Lemma f_b64_pton_text_witness :
  base64_text hello = chars "aGVsbG8=" /\
  exists rest, List.length (hello ++ rest) = 6%nat /\
    f_b64_pton (base64_text hello) (Some (repeat 7 6)) 6 = Some (5, Some (hello ++ rest)).
Proof.
  split; [vm_compute; reflexivity|].
  apply (f_b64_pton_text hello (repeat 7 6) 6); [apply chars_byte|vm_compute; reflexivity..|vm_compute; lia].
Defined.

(** ** No read or write outside the target *)

Section PtonSafe.
Variable targsize : Z.

(** The target, if any, has [targsize] bytes. *)
Definition target_ok (target : option (list Z)) : Prop :=
  match target with Some t => Z.of_nat (List.length t) = targsize | None => True end.

(** In the middle of a group [target[tarindex]] exists. *)
Definition pton_inv (state tarindex : Z) (target : option (list Z)) : Prop :=
  target_ok target /\ 0 <= state <= 3 /\ 0 <= tarindex /\
  (target <> None -> if state =? 0 then tarindex <= targsize else tarindex < targsize).

Lemma array_set_in t i v : 0 <= i < Z.of_nat (List.length t) ->
  exists t', array_set t i v = Some t' /\ List.length t' = List.length t.
Proof.
  intros Hi. unfold array_set. destruct (Z.leb_spec 0 i), (Z.ltb_spec i (Z.of_nat (List.length t))); try lia.
  eexists. split; [done|]. apply length_insert.
Qed.

Lemma array_get_in t i : 0 <= i < Z.of_nat (List.length t) -> exists v, array_get t i = Some v.
Proof. intros Hi. unfold array_get. apply lookup_lt_is_Some_2. lia. Qed.

Lemma u32_succ i : 0 <= i -> 0 <= u32 (i + 1) <= i + 1.
Proof. intros Hi. unfold uwrap. split; [apply Z.mod_pos_bound; lia|]. apply Z.mod_le; lia. Qed.

Lemma pton_digit_safe pos state tarindex target :
  pton_inv state tarindex target ->
  exists r, pton_digit pos state tarindex target targsize = Some r /\
    match r with
    | inl v => v = -1
    | inr (state', tarindex', target') => pton_inv state' tarindex' target'
    end.
Proof.
  unfold pton_inv, pton_digit, target_ok. intros (Ht & Hs & Hi & Hb). pose proof (u32_succ tarindex Hi) as Hu.
  destruct target as [t|].
  - specialize (Hb ltac:(done)).
    destruct (Z.eqb_spec state 0) as [->|H0]; [|destruct (Z.eqb_spec state 3) as [->|H3]].
    + destruct (Z.leb_spec targsize tarindex); [by eexists|].
      destruct (array_set_in t tarindex (Z.shiftl pos 2)) as (t' & -> & Hl); [lia|]. eexists. split; [done|]. repeat split; first [lia|intros _; cbn; lia|done].
    + destruct (Z.leb_spec targsize tarindex); [by eexists|].
      destruct (array_get_in t tarindex) as (v & ->); [lia|]. cbn [mbind option_bind].
      destruct (array_set_in t tarindex (Z.lor v pos)) as (t' & -> & Hl); [lia|].
      eexists. split; [done|]. repeat split; first [lia|intros _; cbn; lia|done].
    + destruct (Z.leb_spec targsize (u32 (tarindex + 1))); [by eexists|].
      destruct (array_get_in t tarindex) as (v & ->); [lia|]. cbn [mbind option_bind].
      edestruct (array_set_in t tarindex) as (t' & -> & Hl); [lia|]. cbn [mbind option_bind].
      edestruct (array_set_in t' (u32 (tarindex + 1))) as (t'' & -> & Hl'); [lia|]. cbn [mbind option_bind].
      eexists. split; [done|]. repeat split; first [lia|intros _; case_match; lia].
  - destruct (Z.eqb_spec state 0) as [->|H0]; [|destruct (Z.eqb_spec state 3) as [->|H3]];
      (eexists; split; [done|]); repeat split; lia || done.
Qed.

Lemma pton_padded_safe src state tarindex target :
  pton_inv state tarindex target -> exists v, pton_padded src state tarindex target = Some v.
Proof.
  unfold pton_inv, pton_padded, target_ok. intros (Ht & Hs & Hi & Hb).
  destruct (next_char src) as [ch src']. destruct (Z.eqb_spec state 0), (Z.eqb_spec state 1); try by eexists.
  assert (Hend : forall ch, exists v, (if negb (ch =? 0) then Some (-1)
      else match target with
           | None => Some (swrap 32 tarindex)
           | Some t => v ← array_get t tarindex; Some (if negb (v =? 0) then -1 else swrap 32 tarindex)
           end) = Some v).
  { intros c. destruct (negb (c =? 0)); [by eexists|]. destruct target as [t|]; [|by eexists].
    specialize (Hb ltac:(done)). destruct (array_get_in t tarindex) as (v & ->); [lia|]. by eexists. }
  cbn [orb]. destruct (state =? 2).
  - destruct (skip_spaces ch src') as [c s]. destruct (negb (c =? Pad64)); [by eexists|].
    destruct (next_char s) as [c' s']. destruct (skip_spaces c' s'). apply Hend.
  - destruct (skip_spaces ch src'). apply Hend.
Qed.

Lemma pton_loop_safe src : forall state tarindex target,
  pton_inv state tarindex target ->
  exists v target', pton_loop src state tarindex target targsize = Some (v, target') /\ target_ok target'.
Proof.
  induction src as [|ch src IH]; intros state tarindex target Hinv; cbn [pton_loop].
  - eexists _, _. split; [done|]. apply Hinv.
  - destruct (ch =? 0); [eexists _, _; split; [done|apply Hinv]|].
    destruct (isspace ch); [by apply IH|].
    destruct (ch =? Pad64).
    { destruct (pton_padded_safe src _ _ _ Hinv) as (v & ->). eexists _, _. split; [done|apply Hinv]. }
    destruct (base64_pos ch) as [pos|]; [|eexists _, _; split; [done|apply Hinv]].
    destruct (pton_digit_safe pos _ _ _ Hinv) as (r & -> & Hr). cbn [mbind option_bind].
    destruct r as [v|[[state' tarindex'] target']]; [eexists _, _; split; [done|apply Hinv]|]. by apply IH.
Qed.
End PtonSafe.

(** C15: on any text, malformed ones included, [f_b64_pton] returns, without a read
    or a write outside the target, or with a null target. *)
Theorem f_b64_pton_safe (src : list Z) (target : option (list Z)) (targsize : Z) :
  target_ok targsize target -> 0 <= targsize ->
  exists v target', f_b64_pton src target targsize = Some (v, target') /\ target_ok targsize target'.
Proof. intros Ht Hs. apply pton_loop_safe. unfold pton_inv. repeat split; [done|lia..|done]. Qed.

Lemma f_b64_pton_safe_witness :
  exists v target', f_b64_pton (chars "aG==VsbG8==") (Some (repeat 7 3)) 3 = Some (v, target') /\ target_ok 3 target'.
Proof. apply (f_b64_pton_safe (chars "aG==VsbG8==") (Some (repeat 7 3)) 3); [reflexivity|lia]. Defined.
