(* ===== verification/LdbBase.v ===== *)
(** [include/leveldb/slice.h], [include/leveldb/status.h], [util/status.cc]: the
    strings and the results of LevelDB. A slice and a [std::string] are the list
    of their bytes, each in [0, 256). *)

From Stdlib Require Import ZArith Lia List String Ascii Bool.
From stdpp Require Import base list.
From S2P Require Import Prelude.

Abbreviation Slice := (list Z).

Definition size {A} (s : list A) : Z := Z.of_nat (List.length s).

(** The characters of a C string literal. *)
Definition literal (s : string) : Slice :=
  map (fun c => Z.of_nat (nat_of_ascii c)) (list_ascii_of_string s).

(** [snprintf] with [%llu]: the decimal digits of a 64-bit number, of which there
    are at most 20. *)
Fixpoint decimal_digits (n : nat) (v : Z) (digits : list Z) : list Z :=
  let digits := 48 + v mod 10 :: digits in
  match n with
  | O => digits
  | S n' => if v / 10 =? 0 then digits else decimal_digits n' (v / 10) digits
  end.
Definition decimal (v : Z) : list Z := decimal_digits 19 v [].

(** ** Slices *)

(** [memcmp], of two lists of one length. *)
Fixpoint memcmp (a b : list Z) : Z :=
  match a, b with
  | x :: a', y :: b' => if x <? y then -1 else if y <? x then 1 else memcmp a' b'
  | _, _ => 0
  end.

Definition Slice_compare (a b : Slice) : Z :=
  let min_len := if size a <? size b then size a else size b in
  let r := memcmp (take (Z.to_nat min_len) a) (take (Z.to_nat min_len) b) in
  if r =? 0 then
    if size a <? size b then -1
    else if size b <? size a then 1
    else r
  else r.

Definition Slice_eq (x y : Slice) : bool :=
  (size x =? size y) && (memcmp x y =? 0).

Definition starts_with (s x : Slice) : bool :=
  (size x <=? size s) && (memcmp (take (Z.to_nat (size x)) s) x =? 0).

Definition remove_prefix (n : Z) (s : Slice) : Slice := drop (Z.to_nat n) s.

(** ** Results *)

Inductive Code := kOk | kNotFound | kCorruption | kNotSupported | kInvalidArgument | kIOError.

Definition Code_value (c : Code) : Z :=
  match c with
  | kOk => 0 | kNotFound => 1 | kCorruption => 2 | kNotSupported => 3
  | kInvalidArgument => 4 | kIOError => 5
  end.

(** [state_]: null, or the message's length in four bytes, the code and the message. *)
Definition Status : Type := option (list Z).

(** A little-endian [uint32_t] in memory. *)
Definition bytes_of_u32 (v : Z) : list Z :=
  [u8 v; u8 (Z.shiftr v 8); u8 (Z.shiftr v 16); u8 (Z.shiftr v 24)].
Definition u32_of_bytes (b0 b1 b2 b3 : Z) : Z := b0 + 2 ^ 8 * b1 + 2 ^ 16 * b2 + 2 ^ 24 * b3.

Definition new_Status (code : Code) (msg msg2 : Slice) : Status :=
  let len1 := u32 (size msg) in
  let len2 := u32 (size msg2) in
  let len := u32 (len1 + (if negb (len2 =? 0) then u32 (2 + len2) else 0)) in
  Some (bytes_of_u32 len ++ [Code_value code] ++ take (Z.to_nat len1) msg ++
        (if negb (len2 =? 0) then literal ": " ++ take (Z.to_nat len2) msg2 else [])).

Definition OK : Status := None.
Definition NotFound (msg msg2 : Slice) : Status := new_Status kNotFound msg msg2.
Definition Corruption (msg msg2 : Slice) : Status := new_Status kCorruption msg msg2.
Definition NotSupported (msg msg2 : Slice) : Status := new_Status kNotSupported msg msg2.
Definition InvalidArgument (msg msg2 : Slice) : Status := new_Status kInvalidArgument msg msg2.
Definition IOError (msg msg2 : Slice) : Status := new_Status kIOError msg msg2.

Definition ok (s : Status) : bool := match s with None => true | Some _ => false end.

(** [code()]: the number in [state_[4]]. *)
Definition Status_code (s : Status) : Z :=
  match s with
  | None => Code_value kOk
  | Some state => nth 4 state 0
  end.

Definition IsNotFound (s : Status) : bool := Status_code s =? Code_value kNotFound.
Definition IsCorruption (s : Status) : bool := Status_code s =? Code_value kCorruption.
Definition IsIOError (s : Status) : bool := Status_code s =? Code_value kIOError.
Definition IsNotSupportedError (s : Status) : bool := Status_code s =? Code_value kNotSupported.
Definition IsInvalidArgument (s : Status) : bool := Status_code s =? Code_value kInvalidArgument.

(** The [length] characters at [state_ + 5] behind the name of the code. *)
Definition Status_ToString (s : Status) : list Z :=
  match s with
  | Some ((b0 :: b1 :: b2 :: b3 :: _ :: _) as state) =>
      let code := Status_code s in
      let type :=
        if code =? Code_value kOk then literal "OK"
        else if code =? Code_value kNotFound then literal "NotFound: "
        else if code =? Code_value kCorruption then literal "Corruption: "
        else if code =? Code_value kNotSupported then literal "Not implemented: "
        else if code =? Code_value kInvalidArgument then literal "Invalid argument: "
        else if code =? Code_value kIOError then literal "IO error: "
        else literal "Unknown code(" ++ decimal code ++ literal "): " in
      type ++ take (Z.to_nat (u32_of_bytes b0 b1 b2 b3)) (drop 5 state)
  | _ => literal "OK"
  end.

(** ** Lemmas on slices *)

Lemma size_nonneg {A} (s : list A) : 0 <= size s.
Proof. unfold size. lia. Qed.

Lemma size_app {A} (a b : list A) : size (a ++ b) = size a + size b.
Proof. unfold size. rewrite length_app. lia. Qed.

Lemma size_nil {A} : size (@nil A) = 0.
Proof. done. Qed.

Lemma size_cons {A} (x : A) s : size (x :: s) = size s + 1.
Proof. unfold size. cbn [List.length]. lia. Qed.

Lemma size_take {A} n (s : list A) : 0 <= n <= size s -> size (take (Z.to_nat n) s) = n.
Proof. unfold size. intros Hn. rewrite length_take. lia. Qed.

Lemma size_drop {A} n (s : list A) : 0 <= n <= size s -> size (drop (Z.to_nat n) s) = size s - n.
Proof. unfold size. intros Hn. rewrite length_drop. lia. Qed.

Lemma take_size_app {A} (a b : list A) : take (Z.to_nat (size a)) (a ++ b) = a.
Proof. unfold size. rewrite Nat2Z.id. apply take_app_length. Qed.

Lemma drop_size_app {A} (a b : list A) : drop (Z.to_nat (size a)) (a ++ b) = b.
Proof. unfold size. rewrite Nat2Z.id. apply drop_app_length. Qed.

Lemma take_size {A} (s : list A) : take (Z.to_nat (size s)) s = s.
Proof. unfold size. rewrite Nat2Z.id. apply firstn_all. Qed.

Lemma drop_size {A} (s : list A) : drop (Z.to_nat (size s)) s = [].
Proof. unfold size. rewrite Nat2Z.id. apply skipn_all. Qed.

Lemma size_0 {A} (s : list A) : size s = 0 -> s = [].
Proof. unfold size. destruct s; [done|]. cbn. lia. Qed.

Create Rewrite HintDb slices.
#[export] Hint Rewrite @size_app @size_nil @size_cons @take_size_app @drop_size_app : slices.

Lemma u32_of_bytes_of v : 0 <= v < 2 ^ 32 ->
  u32_of_bytes (u8 v) (u8 (Z.shiftr v 8)) (u8 (Z.shiftr v 16)) (u8 (Z.shiftr v 24)) = v.
Proof.
  intros Hv. unfold u32_of_bytes, uwrap. rewrite !Z.shiftr_div_pow2 by lia.
  change (2 ^ 8) with 256. change (2 ^ 16) with 65536. change (2 ^ 24) with 16777216. zlia.
Qed.

Lemma bytes_of_u32_of b0 b1 b2 b3 : byte b0 -> byte b1 -> byte b2 -> byte b3 ->
  bytes_of_u32 (u32_of_bytes b0 b1 b2 b3) = [b0; b1; b2; b3].
Proof.
  unfold byte. intros H0 H1 H2 H3. unfold bytes_of_u32, u32_of_bytes, uwrap. rewrite !Z.shiftr_div_pow2 by lia.
  change (2 ^ 8) with 256. change (2 ^ 16) with 65536. change (2 ^ 24) with 16777216. repeat f_equal; zlia.
Qed.
