(* ===== verification/LdbText.v ===== *)
(** [util/logging.cc] and [db/filename.cc]: numbers and strings as text, and the
    names of the files of a database. *)

From Stdlib Require Import ZArith Lia List String Bool.
From stdpp Require Import base list.
From S2P Require Import Prelude LdbBase.

(** ** [util/logging.cc] *)

Definition AppendNumberTo (str : list Z) (num : Z) : list Z := str ++ decimal num.

(** [snprintf] with [%02x], of a number below 256. *)
Definition hex_digit (v : Z) : Z := if v <? 10 then 48 + v else 87 + v.
Definition hex2 (v : Z) : list Z := [hex_digit (v / 16); hex_digit (v mod 16)].

(** [c] is a [char]: the bytes from 128 on are negative. *)
Definition AppendEscapedStringTo (str : list Z) (value : Slice) : list Z :=
  fold_left (fun str b =>
    let c := s8 b in
    if (32 <=? c) && (c <=? 126) then str ++ [b]
    else str ++ literal "\x" ++ hex2 (Z.land (u32 c) 0xff)) value str.

Definition NumberToString (num : Z) : list Z := AppendNumberTo [] num.
Definition EscapeString (value : Slice) : list Z := AppendEscapedStringTo [] value.

Definition kMaxUint64 : Z := 2 ^ 64 - 1.
Definition kLastDigitOfMaxUint64 : Z := 48 + s8 (kMaxUint64 mod 10).

(** The loop from [current] on: the number and the bytes that are left; [None] is
    an overflow. *)
Fixpoint consume_digits (value : Z) (current : list Z) : option (Z * list Z) :=
  match current with
  | [] => Some (value, [])
  | ch :: current' =>
      if (ch <? 48) || (57 <? ch) then Some (value, current)
      else if (kMaxUint64 / 10 <? value) || ((value =? kMaxUint64 / 10) && (kLastDigitOfMaxUint64 <? ch))
      then None
      else consume_digits (u64 (value * 10 + (ch - 48))) current'
  end.

(** The number and the advanced slice; [None] is [false]. *)
Definition ConsumeDecimalNumber (input : Slice) : option (Z * Slice) :=
  r ← consume_digits 0 input;
  let '(value, current) := r in
  let digits_consumed := size input - size current in
  if negb (digits_consumed =? 0) then Some (value, remove_prefix digits_consumed input) else None.

(** ** [db/filename.cc] *)

Inductive FileType :=
  | kLogFile | kDBLockFile | kTableFile | kDescriptorFile | kCurrentFile | kTempFile | kInfoLogFile.

(** [snprintf] with [%06llu]. *)
Definition decimal6 (v : Z) : list Z :=
  let d := decimal v in repeat 48 (6 - List.length d) ++ d.

Definition MakeFileName (dbname : list Z) (number : Z) (suffix : list Z) : list Z :=
  dbname ++ literal "/" ++ decimal6 number ++ literal "." ++ suffix.

Definition LogFileName (dbname : list Z) (number : Z) : list Z := MakeFileName dbname number (literal "log").
Definition TableFileName (dbname : list Z) (number : Z) : list Z := MakeFileName dbname number (literal "ldb").
Definition SSTTableFileName (dbname : list Z) (number : Z) : list Z := MakeFileName dbname number (literal "sst").
Definition DescriptorFileName (dbname : list Z) (number : Z) : list Z :=
  dbname ++ literal "/MANIFEST-" ++ decimal6 number.
Definition CurrentFileName (dbname : list Z) : list Z := dbname ++ literal "/CURRENT".
Definition LockFileName (dbname : list Z) : list Z := dbname ++ literal "/LOCK".
Definition TempFileName (dbname : list Z) (number : Z) : list Z := MakeFileName dbname number (literal "dbtmp").
Definition InfoLogFileName (dbname : list Z) : list Z := dbname ++ literal "/LOG".
Definition OldInfoLogFileName (dbname : list Z) : list Z := dbname ++ literal "/LOG.old".

(** [*number] and [*type]; [None] is [false]. *)
Definition ParseFileName (filename : list Z) : option (Z * FileType) :=
  let rest := filename in
  if Slice_eq rest (literal "CURRENT") then Some (0, kCurrentFile)
  else if Slice_eq rest (literal "LOCK") then Some (0, kDBLockFile)
  else if Slice_eq rest (literal "LOG") || Slice_eq rest (literal "LOG.old") then Some (0, kInfoLogFile)
  else if starts_with rest (literal "MANIFEST-") then
    let rest := remove_prefix (size (literal "MANIFEST-")) rest in
    r ← ConsumeDecimalNumber rest;
    let '(num, rest) := r in
    if negb (size rest =? 0) then None else Some (num, kDescriptorFile)
  else
    r ← ConsumeDecimalNumber rest;
    let '(num, suffix) := r in
    if Slice_eq suffix (literal ".log") then Some (num, kLogFile)
    else if Slice_eq suffix (literal ".sst") || Slice_eq suffix (literal ".ldb") then Some (num, kTableFile)
    else if Slice_eq suffix (literal ".dbtmp") then Some (num, kTempFile)
    else None.

(** ** Digits *)

Definition digit_char (c : Z) : Prop := 48 <= c <= 57.

(** The number a sequence of digits stands for, after [v]. *)
Definition digits_value (v : Z) (l : list Z) : Z := fold_left (fun v c => v * 10 + (c - 48)) l v.

Lemma digits_value_mono l : forall v, 0 <= v -> Forall digit_char l -> v <= digits_value v l.
Proof.
  induction l as [|c l IH]; intros v Hv Hl; [cbn; lia|]. apply Forall_cons in Hl as [Hc Hl]. unfold digit_char in Hc.
  change (digits_value v (c :: l)) with (digits_value (v * 10 + (c - 48)) l).
  pose proof (IH (v * 10 + (c - 48)) ltac:(lia) Hl). lia.
Qed.

Lemma consume_digits_of l rest : forall v,
  0 <= v -> Forall digit_char l -> digits_value v l < 2 ^ 64 ->
  match rest with [] => True | c :: _ => ~ digit_char c end ->
  consume_digits v (l ++ rest) = Some (digits_value v l, rest).
Proof.
  induction l as [|c l IH]; intros v Hv Hl Hb Hrest.
  - cbn. destruct rest as [|c rest]; [done|]. cbn. unfold digit_char in Hrest.
    destruct (Z.ltb_spec c 48), (Z.ltb_spec 57 c); cbn; done || lia.
  - apply Forall_cons in Hl as [Hc Hl]. unfold digit_char in Hc. cbn [consume_digits app].
    change (digits_value v (c :: l)) with (digits_value (v * 10 + (c - 48)) l) in Hb |- *.
    pose proof (digits_value_mono l (v * 10 + (c - 48)) ltac:(lia) Hl).
    change kLastDigitOfMaxUint64 with 53. change (kMaxUint64 / 10) with 1844674407370955161.
    replace ((c <? 48) || (57 <? c)) with false by (destruct (Z.ltb_spec c 48), (Z.ltb_spec 57 c); done || lia).
    destruct (Z.ltb_spec 1844674407370955161 v), (Z.eqb_spec v 1844674407370955161), (Z.ltb_spec 53 c); cbn [orb andb]; try lia;
      rewrite uwrap_small by lia; apply IH; done || lia.
Qed.

(** Digits that stand for a number that does not fit in 64 bits are refused. *)
Lemma consume_digits_overflow l rest : forall v,
  0 <= v < 2 ^ 64 -> Forall digit_char l -> 2 ^ 64 <= digits_value v l -> consume_digits v (l ++ rest) = None.
Proof.
  induction l as [|c l IH]; intros v Hv Hl Hb; [cbn in Hb; lia|].
  apply Forall_cons in Hl as [Hc Hl]. unfold digit_char in Hc. cbn [consume_digits app].
  change (digits_value v (c :: l)) with (digits_value (v * 10 + (c - 48)) l) in Hb.
  change kLastDigitOfMaxUint64 with 53. change (kMaxUint64 / 10) with 1844674407370955161.
  replace ((c <? 48) || (57 <? c)) with false by (destruct (Z.ltb_spec c 48), (Z.ltb_spec 57 c); done || lia).
  destruct (Z.ltb_spec 1844674407370955161 v), (Z.eqb_spec v 1844674407370955161), (Z.ltb_spec 53 c); cbn [orb andb]; try done; try lia;
    rewrite uwrap_small by lia; apply IH; done || lia.
Qed.

Lemma digits_value_app a b v : digits_value v (a ++ b) = digits_value (digits_value v a) b.
Proof. apply fold_left_app. Qed.

Lemma decimal_digits_value n : forall v acc, 0 <= v < 10 ^ Z.of_nat (S n) ->
  Forall digit_char acc ->
  Forall digit_char (decimal_digits n v acc) /\ digits_value 0 (decimal_digits n v acc) = digits_value v acc /\
  decimal_digits n v acc <> [].
Proof.
  induction n as [|n IH]; intros v acc Hv Hacc; cbn [decimal_digits].
  - change (10 ^ Z.of_nat 1) with 10 in Hv. rewrite Z.mod_small by lia. split; [|split; [|done]].
    + constructor; [unfold digit_char; lia|done].
    + change (digits_value 0 (48 + v :: acc)) with (digits_value (0 * 10 + (48 + v - 48)) acc). f_equal. lia.
  - rewrite Nat2Z.inj_succ, Z.pow_succ_r in Hv by lia.
    assert (Hd : Forall digit_char (48 + v mod 10 :: acc)).
    { constructor; [|done]. unfold digit_char. zlia. }
    destruct (Z.eqb_spec (v / 10) 0) as [E|E].
    + split; [done|]. split; [|done].
      change (digits_value 0 (48 + v mod 10 :: acc)) with (digits_value (0 * 10 + (48 + v mod 10 - 48)) acc). f_equal. zlia.
    + assert (Hv10 : 0 <= v / 10 < 10 ^ Z.of_nat (S n)).
      { set (k := 10 ^ Z.of_nat (S n)) in *. clearbody k. zlia. }
      destruct (IH (v / 10) (48 + v mod 10 :: acc) Hv10 Hd) as (H1 & H2 & H3).
      split; [done|]. split; [|done]. rewrite H2.
      change (digits_value (v / 10) (48 + v mod 10 :: acc)) with (digits_value (v / 10 * 10 + (48 + v mod 10 - 48)) acc).
      f_equal. zlia.
Qed.

Lemma decimal_value v : 0 <= v < 2 ^ 64 ->
  Forall digit_char (decimal v) /\ digits_value 0 (decimal v) = v /\ decimal v <> [].
Proof.
  intros Hv. destruct (decimal_digits_value 19 v []) as (H1 & H2 & H3); [|done|done].
  change (10 ^ Z.of_nat 20) with 100000000000000000000. lia.
Qed.

Lemma repeat_zeros_value n l : digits_value 0 (repeat 48 n ++ l) = digits_value 0 l.
Proof. induction n as [|n IH]; [done|]. exact IH. Qed.

Lemma decimal6_value v : 0 <= v < 2 ^ 64 ->
  Forall digit_char (decimal6 v) /\ digits_value 0 (decimal6 v) = v /\ decimal6 v <> [].
Proof.
  intros Hv. destruct (decimal_value v Hv) as (H1 & H2 & H3). unfold decimal6. rewrite repeat_zeros_value.
  split; [|split; [done|]].
  - apply Forall_app. split; [|done]. apply Forall_forall. intros c Hc. apply list_elem_of_In, repeat_spec in Hc as ->.
    unfold digit_char. lia.
  - intros E. by apply app_eq_nil in E as [_ E].
Qed.

(** Digits, then something else. *)
Lemma ConsumeDecimalNumber_of l rest :
  Forall digit_char l -> l <> [] -> digits_value 0 l < 2 ^ 64 ->
  match rest with [] => True | c :: _ => ~ digit_char c end ->
  ConsumeDecimalNumber (l ++ rest) = Some (digits_value 0 l, rest).
Proof.
  intros Hl Hne Hb Hrest. unfold ConsumeDecimalNumber. rewrite consume_digits_of by done || lia. cbn [mbind option_bind].
  rewrite size_app. replace (size l + size rest - size rest) with (size l) by lia. unfold remove_prefix.
  rewrite drop_size_app. destruct (Z.eqb_spec (size l) 0) as [E|E]; [by apply size_0 in E|done].
Qed.

(** ** The names a database gives its files *)

(** The last part of a name, [dbname/...]. *)
Definition base_name (dbname name : list Z) : list Z := drop (S (List.length dbname)) name.

Lemma base_name_of dbname rest : base_name dbname (dbname ++ literal "/" ++ rest) = rest.
Proof. unfold base_name. by rewrite <- Nat.add_1_r, <- drop_drop, drop_app_length. Qed.

(** A name of digits is none of the fixed names. *)
Lemma memcmp_head_neq x y a b : x <> y -> negb (memcmp (x :: a) (y :: b) =? 0) = true.
Proof. intros Hne. cbn. destruct (Z.ltb_spec x y), (Z.ltb_spec y x); done || lia. Qed.

Lemma Slice_eq_head_neq x y a b : x <> y -> Slice_eq (x :: a) (y :: b) = false.
Proof.
  intros Hne. unfold Slice_eq. pose proof (memcmp_head_neq x y a b Hne) as H.
  destruct (memcmp _ _ =? 0); [done|]. apply andb_false_r.
Qed.

Lemma starts_with_head_neq x y a b : x <> y -> starts_with (x :: a) (y :: b) = false.
Proof.
  intros Hne. unfold starts_with. pose proof (size_nonneg b).
  replace (Z.to_nat (size (y :: b))) with (S (Z.to_nat (size b))) by (rewrite size_cons; lia). cbn [take].
  pose proof (memcmp_head_neq x y (take (Z.to_nat (size b)) a) b Hne) as Hm.
  destruct (memcmp _ _ =? 0); [done|]. apply andb_false_r.
Qed.

(** The first characters of the fixed names. *)
Ltac unfold_names :=
  change (literal "CURRENT") with (67 :: literal "URRENT"); change (literal "LOCK") with (76 :: literal "OCK");
  change (literal "LOG") with (76 :: literal "OG"); change (literal "LOG.old") with (76 :: literal "OG.old");
  change (literal "MANIFEST-") with (77 :: literal "ANIFEST-").

Lemma ParseFileName_numbered v suffix t :
  0 <= v < 2 ^ 64 ->
  match suffix with [] => True | c :: _ => ~ digit_char c end ->
  (if Slice_eq suffix (literal ".log") then Some (v, kLogFile)
   else if Slice_eq suffix (literal ".sst") || Slice_eq suffix (literal ".ldb") then Some (v, kTableFile)
   else if Slice_eq suffix (literal ".dbtmp") then Some (v, kTempFile)
   else None) = Some (v, t) ->
  ParseFileName (decimal6 v ++ suffix) = Some (v, t).
Proof.
  intros Hv Hsuf Ht. destruct (decimal6_value v Hv) as (Hd & Hval & Hne).
  pose proof (ConsumeDecimalNumber_of (decimal6 v) suffix Hd Hne ltac:(lia) Hsuf) as Hc. rewrite Hval in Hc.
  unfold ParseFileName. rewrite Hc.
  destruct (decimal6 v) as [|d ds]; [done|]. apply Forall_cons in Hd as [Hd _]. unfold digit_char in Hd.
  cbn [app]. unfold_names. rewrite !Slice_eq_head_neq, starts_with_head_neq by lia. exact Ht.
Qed.

(** The file names of a database parse back to their number and type, whatever the
    name of the database and however many digits the number has. *)
Lemma filenames_parse (dbname : list Z) (number : Z) :
  0 < number < 2 ^ 64 ->
  ParseFileName (base_name dbname (LogFileName dbname number)) = Some (number, kLogFile) /\
  ParseFileName (base_name dbname (TableFileName dbname number)) = Some (number, kTableFile) /\
  ParseFileName (base_name dbname (SSTTableFileName dbname number)) = Some (number, kTableFile) /\
  ParseFileName (base_name dbname (TempFileName dbname number)) = Some (number, kTempFile) /\
  ParseFileName (base_name dbname (DescriptorFileName dbname number)) = Some (number, kDescriptorFile) /\
  ParseFileName (base_name dbname (CurrentFileName dbname)) = Some (0, kCurrentFile) /\
  ParseFileName (base_name dbname (LockFileName dbname)) = Some (0, kDBLockFile) /\
  ParseFileName (base_name dbname (InfoLogFileName dbname)) = Some (0, kInfoLogFile) /\
  ParseFileName (base_name dbname (OldInfoLogFileName dbname)) = Some (0, kInfoLogFile).
Proof.
  intros Hn. unfold LogFileName, TableFileName, SSTTableFileName, TempFileName, MakeFileName, DescriptorFileName,
    CurrentFileName, LockFileName, InfoLogFileName, OldInfoLogFileName.
  change (literal "/MANIFEST-") with (literal "/" ++ literal "MANIFEST-"). change (literal "/CURRENT") with (literal "/" ++ literal "CURRENT").
  change (literal "/LOCK") with (literal "/" ++ literal "LOCK"). change (literal "/LOG") with (literal "/" ++ literal "LOG").
  change (literal "/LOG.old") with (literal "/" ++ literal "LOG.old"). rewrite <- ?app_assoc, !base_name_of.
  repeat apply conj; try reflexivity.
  1-4: apply ParseFileName_numbered; [lia|vm_compute; intros [H _]; by apply H|reflexivity].
  destruct (decimal6_value number ltac:(lia)) as (Hd & Hval & Hne).
  pose proof (ConsumeDecimalNumber_of (decimal6 number) [] Hd Hne ltac:(lia) I) as Hc. rewrite Hval, app_nil_r in Hc.
  unfold ParseFileName, starts_with, remove_prefix. autorewrite with slices. rewrite Hc.
  pose proof (size_nonneg (decimal6 number)). 
  replace (size (literal "MANIFEST-") <=? size (literal "MANIFEST-") + size (decimal6 number)) with true by (symmetry; apply Z.leb_le; lia).
  unfold_names. cbn [app]. rewrite !Slice_eq_head_neq by lia. reflexivity.
Qed.
