(* ===== verification/LdbCoding.v ===== *)
(** [util/coding.h] and [util/coding.cc]: fixed-length and variable-length numbers,
    length-prefixed strings. A pair of pointers [p], [limit] is the list of the
    bytes between them, a null pointer is [None]. *)

From Stdlib Require Import ZArith Lia List String Bool.
From stdpp Require Import base list.
From S2P Require Import Prelude Base128 LdbBase.

(** [port::kLittleEndian], of the platforms the application is built for. *)
Definition kLittleEndian : bool := true.

(** The bytes of a [uint64_t] in memory. *)
Definition bytes_of_u64 (v : Z) : list Z := bytes_of_u32 v ++ bytes_of_u32 (Z.shiftr v 32).

Definition EncodeFixed32 (value : Z) : list Z :=
  if kLittleEndian then bytes_of_u32 value
  else
    [Z.land value 0xff; Z.land (Z.shiftr value 8) 0xff;
     Z.land (Z.shiftr value 16) 0xff; Z.land (Z.shiftr value 24) 0xff].

Definition EncodeFixed64 (value : Z) : list Z :=
  if kLittleEndian then bytes_of_u64 value
  else
    [Z.land value 0xff; Z.land (Z.shiftr value 8) 0xff;
     Z.land (Z.shiftr value 16) 0xff; Z.land (Z.shiftr value 24) 0xff;
     Z.land (Z.shiftr value 32) 0xff; Z.land (Z.shiftr value 40) 0xff;
     Z.land (Z.shiftr value 48) 0xff; Z.land (Z.shiftr value 56) 0xff].

Definition PutFixed32 (dst : list Z) (value : Z) : list Z := dst ++ EncodeFixed32 value.
Definition PutFixed64 (dst : list Z) (value : Z) : list Z := dst ++ EncodeFixed64 value.

(** Four bytes behind a pointer; [None] if there are fewer. *)
Definition DecodeFixed32 (ptr : list Z) : option Z :=
  match ptr with
  | b0 :: b1 :: b2 :: b3 :: _ =>
      if kLittleEndian then Some (u32_of_bytes b0 b1 b2 b3)
      else Some (Z.lor (Z.lor (Z.lor b0 (u32 (Z.shiftl b1 8))) (u32 (Z.shiftl b2 16))) (u32 (Z.shiftl b3 24)))
  | _ => None
  end.

Definition DecodeFixed64 (ptr : list Z) : option Z :=
  lo ← DecodeFixed32 ptr;
  hi ← DecodeFixed32 (drop 4 ptr);
  Some (if kLittleEndian then lo + 2 ^ 32 * hi else Z.lor (u64 (Z.shiftl hi 32)) lo).

(** [B] is 128; the stores are stores of an [unsigned char]. *)
Definition EncodeVarint32 (v : Z) : list Z :=
  let B := 128 in
  if v <? Z.shiftl 1 7 then [u8 v]
  else if v <? Z.shiftl 1 14 then [u8 (Z.lor v B); u8 (Z.shiftr v 7)]
  else if v <? Z.shiftl 1 21 then
    [u8 (Z.lor v B); u8 (Z.lor (Z.shiftr v 7) B); u8 (Z.shiftr v 14)]
  else if v <? Z.shiftl 1 28 then
    [u8 (Z.lor v B); u8 (Z.lor (Z.shiftr v 7) B); u8 (Z.lor (Z.shiftr v 14) B); u8 (Z.shiftr v 21)]
  else
    [u8 (Z.lor v B); u8 (Z.lor (Z.shiftr v 7) B); u8 (Z.lor (Z.shiftr v 14) B);
     u8 (Z.lor (Z.shiftr v 21) B); u8 (Z.shiftr v 28)].

Definition PutVarint32 (dst : list Z) (v : Z) : list Z := dst ++ EncodeVarint32 v.

(** The loop; [n] more bytes fit in [buf[10]]. *)
Fixpoint encode_varint64_loop (n : nat) (v : Z) : list Z :=
  match n with
  | O => [u8 v]
  | S n' => if 128 <=? v then u8 (Z.lor v 128) :: encode_varint64_loop n' (Z.shiftr v 7) else [u8 v]
  end.
Definition EncodeVarint64 (v : Z) : list Z := encode_varint64_loop 9 v.

Definition PutVarint64 (dst : list Z) (v : Z) : list Z := dst ++ EncodeVarint64 v.

Definition PutLengthPrefixedSlice (dst : list Z) (value : Slice) : list Z :=
  PutVarint32 dst (u32 (size value)) ++ value.

Fixpoint varint_length_loop (n : nat) (v len : Z) : Z :=
  match n with
  | O => len
  | S n' => if 128 <=? v then varint_length_loop n' (Z.shiftr v 7) (len + 1) else len
  end.
Definition VarintLength (v : Z) : Z := varint_length_loop 64 v 1.

(** [for (shift = 0; shift <= last && p < limit; shift += 7)], on [w] bits. *)
Fixpoint get_varint_loop (w last shift result : Z) (p : list Z) : option (Z * list Z) :=
  match p with
  | [] => None
  | byte :: p' =>
      if shift <=? last then
        if negb (Z.land byte 128 =? 0)
        then get_varint_loop w last (shift + 7) (Z.lor result (uwrap w (Z.shiftl (Z.land byte 127) shift))) p'
        else Some (Z.lor result (uwrap w (Z.shiftl byte shift)), p')
      else None
  end.

Definition GetVarint32PtrFallback (p : list Z) : option (Z * list Z) := get_varint_loop 32 28 0 0 p.

Definition GetVarint32Ptr (p : list Z) : option (Z * list Z) :=
  match p with
  | result :: p' => if Z.land result 128 =? 0 then Some (result, p') else GetVarint32PtrFallback p
  | [] => GetVarint32PtrFallback p
  end.

Definition GetVarint64Ptr (p : list Z) : option (Z * list Z) := get_varint_loop 64 63 0 0 p.

(** The value and the advanced slice; [None] is [false], which keeps [*input]. *)
Definition GetVarint32 (input : Slice) : option (Z * Slice) := GetVarint32Ptr input.
Definition GetVarint64 (input : Slice) : option (Z * Slice) := GetVarint64Ptr input.

(** On a pair of pointers. *)
Definition GetLengthPrefixedSlicePtr (p : list Z) : option (Slice * list Z) :=
  r ← GetVarint32Ptr p;
  let '(len, p) := r in
  if size p <? len then None else Some (take (Z.to_nat len) p, drop (Z.to_nat len) p).

(** On a slice. A failure after the length leaves [*input] behind it, which only
    [Get...] callers that give up see. *)
Definition GetLengthPrefixedSlice (input : Slice) : option (Slice * Slice) :=
  r ← GetVarint32 input;
  let '(len, input) := r in
  if len <=? size input then Some (take (Z.to_nat len) input, remove_prefix len input) else None.

(** ** Fixed-length numbers *)

Lemma EncodeFixed32_bytes v : EncodeFixed32 v = bytes_of_u32 v.
Proof. done. Qed.

Lemma size_EncodeFixed32 v : size (EncodeFixed32 v) = 4.
Proof. done. Qed.

Lemma size_EncodeFixed64 v : size (EncodeFixed64 v) = 8.
Proof. done. Qed.

(** The branch for a big-endian host stores the same bytes. *)
Lemma EncodeFixed32_portable v :
  EncodeFixed32 v = [Z.land v 0xff; Z.land (Z.shiftr v 8) 0xff; Z.land (Z.shiftr v 16) 0xff; Z.land (Z.shiftr v 24) 0xff].
Proof. unfold EncodeFixed32, kLittleEndian, bytes_of_u32, uwrap. change 0xff with (Z.ones 8). by rewrite !Z.land_ones by lia. Qed.

Lemma u8_byte v : byte (u8 v).
Proof. exact (uwrap_range 8 v ltac:(lia)). Qed.

Lemma bytes_of_u32_byte v : Forall byte (bytes_of_u32 v).
Proof. unfold bytes_of_u32. repeat constructor; apply u8_byte. Qed.

Lemma EncodeFixed32_byte v : Forall byte (EncodeFixed32 v).
Proof. apply bytes_of_u32_byte. Qed.

Lemma EncodeFixed64_byte v : Forall byte (EncodeFixed64 v).
Proof. apply Forall_app. split; apply bytes_of_u32_byte. Qed.

Lemma DecodeFixed32_of v rest : 0 <= v < 2 ^ 32 -> DecodeFixed32 (EncodeFixed32 v ++ rest) = Some v.
Proof. intros Hv. unfold EncodeFixed32, DecodeFixed32, kLittleEndian, bytes_of_u32. cbn [app]. by rewrite u32_of_bytes_of. Qed.

Lemma bytes_of_u32_low v : bytes_of_u32 (u32 v) = bytes_of_u32 v.
Proof.
  unfold bytes_of_u32, uwrap. rewrite !Z.shiftr_div_pow2 by lia.
  change (2 ^ 8) with 256. change (2 ^ 16) with 65536. change (2 ^ 24) with 16777216. change (2 ^ 32) with 4294967296.
  apply f_equal2; [zlia|]. apply f_equal2; [zlia|]. apply f_equal2; [zlia|]. apply f_equal2; [zlia|done].
Qed.

Lemma DecodeFixed64_of v rest : 0 <= v < 2 ^ 64 -> DecodeFixed64 (EncodeFixed64 v ++ rest) = Some v.
Proof.
  intros Hv. unfold DecodeFixed64, EncodeFixed64, bytes_of_u64. cbn [kLittleEndian].
  rewrite <- (bytes_of_u32_low v), <- app_assoc.
  change (bytes_of_u32 (u32 v)) with (EncodeFixed32 (u32 v)). rewrite DecodeFixed32_of by (apply uwrap_range; lia).
  cbn [mbind option_bind EncodeFixed32 kLittleEndian bytes_of_u32 app drop].
  change (u8 (Z.shiftr v 32) :: ?l) with (EncodeFixed32 (Z.shiftr v 32) ++ rest).
  rewrite Z.shiftr_div_pow2 by lia. rewrite DecodeFixed32_of by zlia. cbn [mbind option_bind]. unfold uwrap. f_equal. zlia.
Qed.

(** ** Variable-length numbers *)

Lemma varint_byte v : u8 (Z.lor v 128) = v mod 128 + 128.
Proof.
  unfold uwrap. rewrite <- Z.land_ones by lia. rewrite Z.land_lor_distr_l. change (Z.land 128 (Z.ones 8)) with (Z.shiftl 1 7).
  rewrite Z.land_ones by lia.
  assert (E : v mod 2 ^ 8 = Z.lor (v mod 2 ^ 7) (Z.shiftl (v / 2 ^ 7 mod 2) 7)).
  { rewrite lor_shiftl_add by (try apply Z.mod_pos_bound; lia). change (2 ^ 8) with 256. change (2 ^ 7) with 128. zlia. }
  rewrite E, <- Z.lor_assoc, <- Z.shiftl_lor.
  assert (Hb : v / 2 ^ 7 mod 2 = 0 \/ v / 2 ^ 7 mod 2 = 1) by (change (2 ^ 7) with 128; zlia).
  destruct Hb as [-> | ->]; cbn [Z.lor Pos.lor]; rewrite lor_shiftl_add by (try apply Z.mod_pos_bound; lia); done.
Qed.

Lemma encode_varint64_loop_groups n : forall v, 0 <= v < 2 ^ (7 * Z.of_nat (S n)) ->
  encode_varint64_loop n v = varint_groups n v.
Proof.
  induction n as [|n IH]; intros v Hv; cbn [encode_varint64_loop varint_groups].
  - change (2 ^ (7 * Z.of_nat 1)) with 128 in Hv. rewrite uwrap_small by lia. by destruct (v <? 0x80).
  - destruct (Z.leb_spec 128 v), (Z.ltb_spec v 0x80); try lia.
    + rewrite varint_byte, IH; [by rewrite Z.shiftr_div_pow2 by lia|].
      rewrite Z.shiftr_div_pow2 by lia. replace (7 * Z.of_nat (S (S n))) with (7 + 7 * Z.of_nat (S n)) in Hv by lia.
      rewrite Z.pow_add_r in Hv by lia. change (2 ^ 7) with 128 in *. zlia.
    + by rewrite uwrap_small by lia.
Qed.

Lemma EncodeVarint64_groups v : 0 <= v < 2 ^ 64 -> EncodeVarint64 v = varint_bytes v.
Proof. intros Hv. apply encode_varint64_loop_groups. change (7 * Z.of_nat 10) with 70. lia. Qed.

(** Four groups are enough for 32 bits. *)
Lemma varint_groups_more n m v :
  0 <= v < 2 ^ (7 * Z.of_nat (S n)) -> (n <= m)%nat -> varint_groups m v = varint_groups n v.
Proof.
  revert m v. induction n as [|n IH]; intros m v Hv Hm.
  - change (2 ^ (7 * Z.of_nat 1)) with 128 in Hv. destruct m; cbn; destruct (Z.ltb_spec v 128); done || lia.
  - destruct m as [|m]; [lia|]. cbn [varint_groups]. destruct (v <? 0x80); [done|]. f_equal. apply IH; [|lia].
    replace (7 * Z.of_nat (S (S n))) with (7 + 7 * Z.of_nat (S n)) in Hv by lia.
    rewrite Z.pow_add_r in Hv by lia. change (2 ^ 7) with 128 in Hv. zlia.
Qed.

Lemma EncodeVarint32_groups v : 0 <= v < 2 ^ 32 -> EncodeVarint32 v = varint_bytes v.
Proof.
  intros Hv. unfold varint_bytes. rewrite (varint_groups_more 4 9) by (change (7 * Z.of_nat 5) with 35; lia).
  unfold EncodeVarint32. cbv zeta. rewrite !varint_byte, !Z.shiftr_div_pow2, !Z.shiftl_mul_pow2 by lia.
  change (1 * 2 ^ 7) with 128. change (1 * 2 ^ 14) with 16384. change (1 * 2 ^ 21) with 2097152. change (1 * 2 ^ 28) with 268435456.
  change (2 ^ 32) with 4294967296 in Hv. cbn [varint_groups].
  assert (E : forall a b, 0 < a -> 0 < b -> v / a / b = v / (a * b)) by (intros; apply Z.div_div; lia).
  rewrite !E by lia. cbn [Z.mul Pos.mul].
  change (2 ^ 7) with 128. change (2 ^ 14) with 16384. change (2 ^ 21) with 2097152. change (2 ^ 28) with 268435456.
  repeat match goal with |- context [Z.ltb ?a ?b] => destruct (Z.ltb_spec a b); try zlia end.
  all: rewrite uwrap_small by (change (2 ^ 8) with 256; zlia); done.
Qed.

Lemma varint_bytes_byte v : 0 <= v < 2 ^ 64 -> Forall byte (varint_bytes v).
Proof.
  intros Hv. destruct (varint_bytes_spec v Hv) as (Hvar & _ & _). revert Hvar. generalize (varint_bytes v).
  induction l as [|b l IH]; [done|]. intros Hl. apply is_varint_cons in Hl as (Hb & _ & Hrest).
  constructor; [exact Hb|]. destruct l; [by constructor|]. by apply IH, Hrest.
Qed.

Lemma get_varint_loop_of w last rest l : forall shift r,
  is_varint l -> 0 <= shift -> 0 <= r < 2 ^ shift ->
  shift + 7 * (Z.of_nat (List.length l) - 1) <= last -> last < w ->
  get_varint_loop w last shift r (l ++ rest) = Some (uwrap w (r + varint_value l * 2 ^ shift), rest).
Proof.
  induction l as [|b l IH]; intros shift r Hv Hs Hr Hl Hw; [done|].
  destruct (is_varint_cons b l Hv) as (Hb & Hend & Hmore). cbn [app get_varint_loop List.length] in *.
  destruct (Z.leb_spec shift last); [|lia]. change 128 with 0x80 at 1. rewrite more_bytes by exact Hb.
  destruct (Z.leb_spec 0x80 b) as [Hge|Hlt].
  - destruct l as [|c l]; [destruct Hend as [Hend _]; specialize (Hend eq_refl); lia|]. rewrite varint_group_wrap_w by lia.
    pose proof (land_7f_range b). pose proof (Z.pow_pos_nonneg 2 shift ltac:(lia) ltac:(lia)).
    assert (Hbig : 2 ^ (shift + 7) <= 2 ^ w) by (apply Z.pow_le_mono_r; cbn [List.length] in Hl; lia).
    assert (Hnext : 0 <= r + Z.land b 0x7F * 2 ^ shift < 2 ^ (shift + 7)).
    { rewrite Z.pow_add_r by lia. change (2 ^ 7) with 128. nia. }
    change 127 with 0x7F. rewrite uwrap_small by lia.
    rewrite IH by (try apply Hmore; try exact Hnext; done || (cbn [List.length] in *; lia)).
    do 3 f_equal. rewrite Z.pow_add_r by lia. change (2 ^ 7) with 128. cbn [varint_value]. ring.
  - destruct l as [|c l]; [|destruct Hend as [_ Hend]; specialize (Hend Hlt); done].
    cbn [app varint_value]. rewrite varint_group_wrap_w by lia. rewrite land_7f, Z.mod_small by lia.
    do 3 f_equal. ring.
Qed.

Lemma GetVarint32Ptr_of v rest : 0 <= v < 2 ^ 32 -> GetVarint32Ptr (varint_bytes v ++ rest) = Some (v, rest).
Proof.
  intros Hv. destruct (varint_bytes_spec v ltac:(lia)) as (Hvar & Hval & Hlen).
  assert (Hlen5 : (List.length (varint_bytes v) <= 5)%nat).
  { rewrite <- EncodeVarint32_groups by done. unfold EncodeVarint32. cbv zeta. repeat case_match; cbn; lia. }
  assert (Hloop : GetVarint32PtrFallback (varint_bytes v ++ rest) = Some (v, rest)).
  { unfold GetVarint32PtrFallback. rewrite get_varint_loop_of by (done || lia). rewrite Hval, Z.pow_0_r, Z.mul_1_r, Z.add_0_l.
    by rewrite uwrap_small by lia. }
  destruct (varint_bytes v) as [|b l] eqn:E; [done|]. cbn [app GetVarint32Ptr].
  destruct (is_varint_cons b l Hvar) as (Hb & Hend & _). change 128 with 0x80. rewrite land_80 by done.
  destruct (Z.ltb_spec b 0x80) as [Hlt|Hge]; [|exact Hloop].
  apply Hend in Hlt as ->. cbn in Hval. rewrite land_7f, Z.mod_small in Hval by (apply Hend in Hlt || idtac; destruct Hend as [Hend _]; specialize (Hend eq_refl); lia).
  cbn [Z.eqb app]. do 2 f_equal. lia.
Qed.

Lemma GetVarint64Ptr_of v rest : 0 <= v < 2 ^ 64 -> GetVarint64Ptr (varint_bytes v ++ rest) = Some (v, rest).
Proof.
  intros Hv. destruct (varint_bytes_spec v ltac:(lia)) as (Hvar & Hval & Hlen).
  unfold GetVarint64Ptr. rewrite get_varint_loop_of by (done || lia). rewrite Hval, Z.pow_0_r, Z.mul_1_r, Z.add_0_l.
  by rewrite uwrap_small by lia.
Qed.

Lemma GetVarint32_of v rest : 0 <= v < 2 ^ 32 -> GetVarint32 (varint_bytes v ++ rest) = Some (v, rest).
Proof. apply GetVarint32Ptr_of. Qed.

Lemma GetVarint64_of v rest : 0 <= v < 2 ^ 64 -> GetVarint64 (varint_bytes v ++ rest) = Some (v, rest).
Proof. apply GetVarint64Ptr_of. Qed.

Lemma PutVarint32_app dst v : 0 <= v < 2 ^ 32 -> PutVarint32 dst v = dst ++ varint_bytes v.
Proof. intros Hv. unfold PutVarint32. by rewrite EncodeVarint32_groups. Qed.

Lemma PutVarint64_app dst v : 0 <= v < 2 ^ 64 -> PutVarint64 dst v = dst ++ varint_bytes v.
Proof. intros Hv. unfold PutVarint64. by rewrite EncodeVarint64_groups. Qed.

(** ** Length-prefixed strings *)

(** The encoding of a string. *)
Definition prefixed (value : Slice) : list Z := varint_bytes (size value) ++ value.

Lemma PutLengthPrefixedSlice_app dst value :
  size value < 2 ^ 32 -> PutLengthPrefixedSlice dst value = dst ++ prefixed value.
Proof.
  intros Hs. pose proof (size_nonneg value). unfold PutLengthPrefixedSlice, prefixed.
  rewrite uwrap_small by lia. rewrite PutVarint32_app by lia. by rewrite app_assoc.
Qed.

Lemma GetLengthPrefixedSlice_of value rest :
  size value < 2 ^ 32 -> GetLengthPrefixedSlice (prefixed value ++ rest) = Some (value, rest).
Proof.
  intros Hs. pose proof (size_nonneg value). pose proof (size_nonneg rest). unfold GetLengthPrefixedSlice, prefixed, remove_prefix.
  rewrite <- app_assoc, GetVarint32_of by lia. cbn [mbind option_bind]. autorewrite with slices.
  by destruct (Z.leb_spec (size value) (size value + size rest)); [|lia].
Qed.

Lemma GetLengthPrefixedSlicePtr_of value rest :
  size value < 2 ^ 32 -> GetLengthPrefixedSlicePtr (prefixed value ++ rest) = Some (value, rest).
Proof.
  intros Hs. pose proof (size_nonneg value). pose proof (size_nonneg rest). unfold GetLengthPrefixedSlicePtr, prefixed.
  rewrite <- app_assoc, GetVarint32Ptr_of by lia. cbn [mbind option_bind]. autorewrite with slices.
  by destruct (Z.ltb_spec (size value + size rest) (size value)); [lia|].
Qed.

Lemma prefixed_byte value : size value < 2 ^ 32 -> Forall byte value -> Forall byte (prefixed value).
Proof.
  intros Hs Hv. pose proof (size_nonneg value). apply Forall_app. split; [apply varint_bytes_byte; lia|done].
Qed.

(** [VarintLength] is the length of the encoding. *)
Lemma varint_length_loop_groups n : forall m v len, (n <= m)%nat -> 0 <= v < 2 ^ (7 * Z.of_nat (S n)) ->
  varint_length_loop (S m) v len = len + Z.of_nat (List.length (varint_groups n v)) - 1.
Proof.
  induction n as [|n IH]; intros m v len Hm Hv; cbn [varint_length_loop varint_groups].
  - change (2 ^ (7 * Z.of_nat 1)) with 128 in Hv. destruct (Z.leb_spec 128 v), (Z.ltb_spec v 0x80); try lia. cbn. lia.
  - destruct (Z.leb_spec 128 v), (Z.ltb_spec v 0x80); try lia; [|cbn; lia].
    destruct m as [|m]; [lia|]. rewrite IH; [cbn [List.length]; rewrite Z.shiftr_div_pow2 by lia; change (2 ^ 7) with 128; lia|lia|].
    rewrite Z.shiftr_div_pow2 by lia. replace (7 * Z.of_nat (S (S n))) with (7 + 7 * Z.of_nat (S n)) in Hv by lia.
    rewrite Z.pow_add_r in Hv by lia. change (2 ^ 7) with 128 in *. zlia.
Qed.

Lemma VarintLength_groups v : 0 <= v < 2 ^ 64 -> VarintLength v = size (varint_bytes v).
Proof.
  intros Hv. unfold VarintLength, varint_bytes, size. rewrite (varint_length_loop_groups 9 63) by (lia || (change (7 * Z.of_nat 10) with 70; lia)). lia.
Qed.

(** A parsed number leaves a proper suffix. *)
Lemma get_varint_loop_suffix w last p : forall shift r v rest,
  get_varint_loop w last shift r p = Some (v, rest) -> exists used, used <> [] /\ p = used ++ rest.
Proof.
  induction p as [|b p IH]; intros shift r v rest; cbn [get_varint_loop]; [done|].
  destruct (shift <=? last); [|done]. destruct (negb _).
  - intros Hr. apply IH in Hr as (used & _ & ->). by exists (b :: used).
  - intros Hr. injection Hr as _ <-. by exists [b].
Qed.

Lemma GetVarint32Ptr_suffix p v rest : GetVarint32Ptr p = Some (v, rest) -> exists used, used <> [] /\ p = used ++ rest.
Proof.
  unfold GetVarint32Ptr, GetVarint32PtrFallback. destruct p as [|b p]; [apply get_varint_loop_suffix|].
  destruct (_ =? 0); [|apply get_varint_loop_suffix]. intros Hr. injection Hr as _ <-. by exists [b].
Qed.

(** ** Arrays of [fixed32] *)

Definition fixed32_array (l : list Z) : list Z := flat_map EncodeFixed32 l.

Lemma fold_PutFixed32 l : forall dst, fold_left PutFixed32 l dst = dst ++ fixed32_array l.
Proof.
  induction l as [|v l IH]; intros dst; cbn [fold_left]; [by rewrite app_nil_r|]. rewrite IH. unfold PutFixed32. by rewrite <- app_assoc.
Qed.

Lemma size_fixed32_array l : size (fixed32_array l) = 4 * size l.
Proof. induction l as [|v l IH]; [done|]. cbn [fixed32_array flat_map]. rewrite size_app, size_cons. unfold fixed32_array in IH. rewrite IH, size_EncodeFixed32. lia. Qed.

Lemma fixed32_array_app l1 l2 : fixed32_array (l1 ++ l2) = fixed32_array l1 ++ fixed32_array l2.
Proof. apply flat_map_app. Qed.

(** Reading the [i]-th entry behind [before]. *)
Lemma fixed32_at before l rest i v :
  l !! i = Some v -> 0 <= v < 2 ^ 32 ->
  DecodeFixed32 (drop (Z.to_nat (size before + 4 * Z.of_nat i)) (before ++ fixed32_array l ++ rest)) = Some v.
Proof.
  intros Hi Hv. apply list_elem_of_split_length in Hi as (l1 & l2 & -> & ->).
  rewrite fixed32_array_app. cbn [fixed32_array flat_map]. fold fixed32_array.
  replace (size before + 4 * Z.of_nat (List.length l1)) with (size (before ++ fixed32_array l1))
    by (rewrite size_app, size_fixed32_array; done).
  rewrite <- !app_assoc. rewrite (app_assoc before), drop_size_app. by apply DecodeFixed32_of.
Qed.
