(* ===== verification/LdbCrcProps.v ===== *)
(** CRC-32C: the code with its tables computes the bitwise checksum, whatever the
    alignment and the length. *)

From Stdlib Require Import ZArith Lia List String Bool.
From stdpp Require Import base list.
From S2P Require Import Prelude LdbBase LdbCoding LdbCrc32c.

(** ** The reference: division by the polynomial, bit by bit *)

Definition crc_bit (c : Z) : Z :=
  if Z.odd c then Z.lxor (Z.shiftr c 1) 0x82f63b78 else Z.shiftr c 1.

Definition crc_bits (n : nat) (c : Z) : Z := Nat.iter n crc_bit c.

Definition crc_byte (c b : Z) : Z := crc_bits 8 (Z.lxor c b).

Definition crc32c (crc : Z) (data : list Z) : Z :=
  Z.lxor (fold_left crc_byte data (Z.lxor crc 0xffffffff)) 0xffffffff.

Definition word32 (c : Z) : Prop := 0 <= c < 2 ^ 32.

(** ** Linearity *)

Lemma crc_bit_lxor a b : crc_bit (Z.lxor a b) = Z.lxor (crc_bit a) (crc_bit b).
Proof.
  unfold crc_bit. rewrite Z.shiftr_lxor, <- !Z.bit0_odd, Z.lxor_spec.
  destruct (Z.testbit a 0), (Z.testbit b 0); cbn [xorb]; apply Z.bits_inj'; intros i Hi; rewrite ?Z.lxor_spec;
    repeat match goal with |- context [Z.testbit ?x i] => destruct (Z.testbit x i) end; done.
Qed.

Lemma crc_bits_lxor n a b : crc_bits n (Z.lxor a b) = Z.lxor (crc_bits n a) (crc_bits n b).
Proof. induction n as [|n IH]; [done|]. change (crc_bits (S n) ?c) with (crc_bit (crc_bits n c)). by rewrite IH, crc_bit_lxor. Qed.

Lemma crc_bits_add m n c : crc_bits (m + n) c = crc_bits m (crc_bits n c).
Proof. unfold crc_bits. apply Nat.iter_add. Qed.

(** Zero bits are shifted out. *)
Lemma crc_bits_shiftl n c : crc_bits n (Z.shiftl c (Z.of_nat n)) = c.
Proof.
  unfold crc_bits. induction n as [|n IH]; [by rewrite Z.shiftl_0_r|].
  rewrite Nat.iter_succ_r. unfold crc_bit at 2. replace (Z.odd _) with false.
  - rewrite Z.shiftr_shiftl_l by lia. replace (Z.of_nat (S n) - 1) with (Z.of_nat n) by lia. exact IH.
  - symmetry. rewrite <- Z.bit0_odd. apply Z.shiftl_spec_low. lia.
Qed.

Lemma lxor_word32 a b : word32 a -> word32 b -> word32 (Z.lxor a b).
Proof.
  unfold word32. intros Ha Hb. assert (E : Z.lxor a b = uwrap 32 (Z.lxor a b)); [|rewrite E; apply uwrap_range; lia].
  unfold uwrap. rewrite <- Z.land_ones by lia. apply Z.bits_inj'. intros i Hi.
  rewrite Z.land_spec, Z.lxor_spec, Z.testbit_ones_nonneg by lia. destruct (Z.ltb_spec i 32); [by rewrite andb_true_r|].
  rewrite andb_false_r.
  assert (Hhi : forall x, 0 <= x < 2 ^ 32 -> Z.testbit x i = false).
  { intros x Hx. apply Z.testbit_false; [lia|]. rewrite Z.div_small; [done|].
    pose proof (Z.pow_le_mono_r 2 32 i ltac:(lia) ltac:(lia)). lia. }
  by rewrite !Hhi.
Qed.

Lemma crc_bit_word32 c : word32 c -> word32 (crc_bit c).
Proof.
  intros Hc. assert (word32 (Z.shiftr c 1)) by (unfold word32 in *; rewrite Z.shiftr_div_pow2 by lia; zlia).
  unfold crc_bit. destruct (Z.odd c); [|done]. apply lxor_word32; [done|]. unfold word32. lia.
Qed.

Lemma crc_bits_word32 n c : word32 c -> word32 (crc_bits n c).
Proof. intros Hc. unfold crc_bits. induction n; cbn; [done|]. by apply crc_bit_word32. Qed.

(** A number is its low [k] bits and the others. *)
Lemma lxor_split k c : 0 <= k -> c = Z.lxor (Z.land c (Z.ones k)) (Z.shiftl (Z.shiftr c k) k).
Proof.
  intros Hk. apply Z.bits_inj'. intros i Hi. rewrite Z.lxor_spec, Z.land_spec, Z.testbit_ones_nonneg by lia.
  destruct (Z.ltb_spec i k).
  - rewrite Z.shiftl_spec_low by lia. by rewrite andb_true_r, xorb_false_r.
  - rewrite Z.shiftl_spec, Z.shiftr_spec by lia. rewrite andb_false_r. cbn. f_equal. lia.
Qed.

(** ** The tables *)

Definition table_is (table : list Z) (f : Z -> Z) : bool :=
  forallb (fun k => entry table (Z.of_nat k) =? f (Z.of_nat k)) (seq 0 256).

Lemma table_entry table f i : table_is table f = true -> 0 <= i < 256 -> entry table i = f i.
Proof.
  unfold table_is. rewrite forallb_forall. intros Hall Hi. specialize (Hall (Z.to_nat i)).
  rewrite in_seq, Z2Nat.id in Hall by lia. apply Z.eqb_eq, Hall. lia.
Qed.

Lemma kByteExtensionTable_is : table_is kByteExtensionTable (crc_bits 8) = true.
Proof. vm_compute. reflexivity. Qed.

Lemma kStrideExtensionTable3_is : table_is kStrideExtensionTable3 (crc_bits 128) = true.
Proof. vm_compute. reflexivity. Qed.

Lemma kStrideExtensionTable2_is : table_is kStrideExtensionTable2 (fun i => crc_bits 128 (Z.shiftl i 8)) = true.
Proof. vm_compute. reflexivity. Qed.

Lemma kStrideExtensionTable1_is : table_is kStrideExtensionTable1 (fun i => crc_bits 128 (Z.shiftl i 16)) = true.
Proof. vm_compute. reflexivity. Qed.

Lemma kStrideExtensionTable0_is : table_is kStrideExtensionTable0 (fun i => crc_bits 128 (Z.shiftl i 24)) = true.
Proof. vm_compute. reflexivity. Qed.

(** ** The steps *)

Lemma low_byte c : Z.land c 0xff = c mod 256.
Proof. exact (Z.land_ones c 8 ltac:(lia)). Qed.

Lemma low_byte_range c : 0 <= Z.land c 0xff < 256.
Proof. rewrite low_byte. apply Z.mod_pos_bound. lia. Qed.

(** One byte by the table. *)
Lemma byte_by_table c : Z.lxor (entry kByteExtensionTable (Z.land c 0xff)) (Z.shiftr c 8) = crc_bits 8 c.
Proof.
  rewrite (table_entry _ _ _ kByteExtensionTable_is (low_byte_range c)).
  rewrite (lxor_split 8 c) at 3 by lia. rewrite crc_bits_lxor. change (Z.ones 8) with 0xff. f_equal.
  symmetry. exact (crc_bits_shiftl 8 _).
Qed.

Lemma land_lxor a b m : Z.land (Z.lxor a b) m = Z.lxor (Z.land a m) (Z.land b m).
Proof.
  apply Z.bits_inj'. intros i Hi. rewrite !Z.lxor_spec, !Z.land_spec, Z.lxor_spec.
  by destruct (Z.testbit a i), (Z.testbit b i), (Z.testbit m i).
Qed.

Lemma land_byte_small b : byte b -> Z.land b 0xff = b.
Proof. intros Hb. rewrite low_byte. by apply Z.mod_small. Qed.

Lemma shiftr_byte b : byte b -> Z.shiftr b 8 = 0.
Proof. intros Hb. rewrite Z.shiftr_div_pow2 by lia. by apply Z.div_small. Qed.

Lemma STEP1_is l b : byte b -> STEP1 l b = crc_byte l b.
Proof.
  intros Hb. unfold STEP1, crc_byte. rewrite <- byte_by_table. cbv zeta.
  rewrite Z.shiftr_lxor, (shiftr_byte b), Z.lxor_0_r by done. by rewrite land_lxor, (land_byte_small b).
Qed.

Lemma fold_STEP1_is p : Forall byte p -> forall l, fold_left STEP1 p l = fold_left crc_byte p l.
Proof. induction 1 as [|b p Hb Hp IH]; intros l; cbn; [done|]. by rewrite STEP1_is, IH. Qed.

(** The bytes of a word, least significant first. *)
Lemma word_bits b0 b1 b2 b3 l :
  byte b0 -> byte b1 -> byte b2 -> byte b3 ->
  fold_left crc_byte [b0; b1; b2; b3] l = crc_bits 32 (Z.lxor (u32_of_bytes b0 b1 b2 b3) l).
Proof.
  intros H0 H1 H2 H3.
  assert (E : u32_of_bytes b0 b1 b2 b3 = Z.lxor b0 (Z.shiftl (Z.lxor b1 (Z.shiftl (Z.lxor b2 (Z.shiftl b3 8)) 8)) 8)).
  { assert (Hx : forall a b, byte a -> Z.lxor a (Z.shiftl b 8) = a + b * 256).
    { intros a b Ha. change 256 with (2 ^ 8). rewrite <- (lor_shiftl_add a b 8) by (unfold byte in Ha; lia). apply Z.lxor_lor.
      apply Z.bits_inj'. intros i Hi. rewrite Z.land_spec, Z.bits_0. destruct (Z.ltb_spec i 8).
      - by rewrite Z.shiftl_spec_low, andb_false_r by lia.
      - replace (Z.testbit a i) with false; [done|]. symmetry. apply Z.testbit_false; [lia|].
        unfold byte in Ha. rewrite Z.div_small; [done|]. pose proof (Z.pow_le_mono_r 2 8 i ltac:(lia) ltac:(lia)). lia. }
    rewrite !Hx by done. unfold u32_of_bytes. lia. }
  rewrite E. cbn [fold_left]. unfold crc_byte. change 32%nat with (8 + (8 + (8 + 8)))%nat. rewrite !crc_bits_add.
  rewrite (Z.lxor_comm l b0).
  assert (Hs : forall c a, crc_bits 8 (Z.lxor (Z.lxor c (Z.shiftl a 8)) l) = Z.lxor (crc_bits 8 (Z.lxor c l)) a).
  { intros c a. rewrite Z.lxor_assoc, (Z.lxor_comm (Z.shiftl a 8)), <- Z.lxor_assoc, crc_bits_lxor. f_equal. exact (crc_bits_shiftl 8 a). }
  rewrite Hs. clear E Hs.
  assert (Hs : forall c a b, crc_bits 8 (Z.lxor c (Z.lxor a (Z.shiftl b 8))) = Z.lxor (crc_bits 8 (Z.lxor c a)) b).
  { intros c a b. rewrite <- Z.lxor_assoc, crc_bits_lxor. f_equal. exact (crc_bits_shiftl 8 b). }
  by rewrite !Hs.
Qed.

(** [S4] passes over the sixteen bytes of a swath. *)
Lemma STEP4_is w c : word32 c -> STEP4 w c = Z.lxor w (crc_bits 128 c).
Proof.
  intros Hc. unfold STEP4.
  assert (H24 : 0 <= Z.shiftr c 24 < 256) by (unfold word32 in Hc; rewrite Z.shiftr_div_pow2 by lia; change (2 ^ 24) with 16777216; change (2 ^ 32) with 4294967296 in Hc; zlia).
  rewrite (table_entry _ _ _ kStrideExtensionTable3_is (low_byte_range _)).
  rewrite (table_entry _ _ _ kStrideExtensionTable2_is (low_byte_range _)).
  rewrite (table_entry _ _ _ kStrideExtensionTable1_is (low_byte_range _)).
  rewrite (table_entry _ _ _ kStrideExtensionTable0_is H24).
  rewrite !Z.lxor_assoc. f_equal. rewrite <- !crc_bits_lxor. f_equal.
  rewrite (lxor_split 8 c) at 5 by lia. change (Z.ones 8) with 0xff. f_equal.
  rewrite (lxor_split 8 (Z.shiftr c 8)) at 2 by lia. rewrite Z.shiftl_lxor, Z.shiftl_shiftl, Z.shiftr_shiftr by lia.
  change (Z.ones 8) with 0xff. change (8 + 8) with 16. f_equal.
  rewrite (lxor_split 8 (Z.shiftr c 16)) at 2 by lia. rewrite Z.shiftl_lxor, Z.shiftl_shiftl, Z.shiftr_shiftr by lia. done.
Qed.

Lemma STEP4W_is l w : STEP4W l w = crc_bits 32 (Z.lxor w l).
Proof.
  unfold STEP4W. change 32%nat with (8 + (8 + (8 + 8)))%nat. rewrite !crc_bits_add.
  assert (Hb : forall c, step4w_byte c = crc_bits 8 c) by (intros c; unfold step4w_byte; by rewrite Z.lxor_comm, byte_by_table).
  cbn [Nat.iter nat_rect]. by rewrite !Hb.
Qed.

(** ** The strides *)

#[local] Opaque crc_bits.

(** The checksum that four partial results stand for. *)
Definition joined (c0 c1 c2 c3 : Z) : Z :=
  Z.lxor (crc_bits 128 c0) (Z.lxor (crc_bits 96 c1) (Z.lxor (crc_bits 64 c2) (crc_bits 32 c3))).

(** A word into the first stride, which becomes the last. *)
Lemma joined_step w c0 c1 c2 c3 :
  joined c1 c2 c3 (Z.lxor w (crc_bits 128 c0)) = crc_bits 32 (Z.lxor w (joined c0 c1 c2 c3)).
Proof.
  unfold joined. rewrite !crc_bits_lxor, <- !crc_bits_add. cbn [Nat.add].
  change (32 + 128)%nat with 160%nat. change (32 + 96)%nat with 128%nat. change (32 + 64)%nat with 96%nat. change (32 + 32)%nat with 64%nat.
  apply Z.bits_inj'. intros i Hi. rewrite !Z.lxor_spec.
  repeat match goal with |- context [Z.testbit ?x i] => destruct (Z.testbit x i) end; done.
Qed.

Lemma joined_combine c0 c1 c2 c3 : STEP4W (STEP4W (STEP4W (STEP4W 0 c0) c1) c2) c3 = joined c0 c1 c2 c3.
Proof.
  rewrite !STEP4W_is, Z.lxor_0_r. unfold joined. rewrite !crc_bits_lxor, <- !crc_bits_add. cbn [Nat.add].
  apply Z.bits_inj'. intros i Hi. rewrite !Z.lxor_spec.
  repeat match goal with |- context [Z.testbit ?x i] => destruct (Z.testbit x i) end; done.
Qed.

(** Four words are what a swath takes. *)
Lemma swaths_are_words n : forall p c0 c1 c2 c3, (List.length p <= n)%nat ->
  (let '(d0, d1, d2, d3, p') := stride_swaths p c0 c1 c2 c3 in stride_words p' d0 d1 d2 d3)
  = stride_words p c0 c1 c2 c3.
Proof.
  induction n as [|n IH]; intros p c0 c1 c2 c3 Hn.
  - by destruct p; [|cbn in Hn; lia].
  - do 16 (destruct p as [|? p]; [done|]). cbn [stride_swaths]. rewrite IH by (cbn in Hn; lia). done.
Qed.

Lemma word_of_bytes b0 b1 b2 b3 : byte b0 -> byte b1 -> byte b2 -> byte b3 -> word32 (u32_of_bytes b0 b1 b2 b3).
Proof. unfold byte, word32, u32_of_bytes. lia. Qed.

Lemma stride_words_step b0 b1 b2 b3 p c0 c1 c2 c3 :
  stride_words (b0 :: b1 :: b2 :: b3 :: p) c0 c1 c2 c3 = stride_words p c1 c2 c3 (STEP4 (u32_of_bytes b0 b1 b2 b3) c0).
Proof. reflexivity. Qed.

Lemma fold_left_4 {A B} (f : A -> B -> A) b0 b1 b2 b3 l a :
  fold_left f (b0 :: b1 :: b2 :: b3 :: l) a = fold_left f l (fold_left f [b0; b1; b2; b3] a).
Proof. reflexivity. Qed.

Lemma stride_words_are n : forall p c0 c1 c2 c3, (List.length p <= n)%nat ->
  Forall byte p -> word32 c0 -> word32 c1 -> word32 c2 -> word32 c3 ->
  exists used d0 d1 d2 d3 rest, stride_words p c0 c1 c2 c3 = (d0, d1, d2, d3, rest) /\
    p = used ++ rest /\ joined d0 d1 d2 d3 = fold_left crc_byte used (joined c0 c1 c2 c3).
Proof.
  induction n as [|n IH]; intros p c0 c1 c2 c3 Hn Hp H0 H1 H2 H3.
  - destruct p; [|cbn in Hn; lia]. exists [], c0, c1, c2, c3, []. split; [reflexivity|]. split; [reflexivity|cbn [fold_left]; reflexivity].
  - destruct p as [|b0 [|b1 [|b2 [|b3 p]]]];
      [eexists [], c0, c1, c2, c3, _; split; [reflexivity|]; split; [reflexivity|cbn [fold_left]; reflexivity] ..|].
    rewrite !Forall_cons in Hp. destruct Hp as (B0 & B1 & B2 & B3 & Hp). rewrite stride_words_step.
    assert (Hw := word_of_bytes b0 b1 b2 b3 B0 B1 B2 B3). rewrite STEP4_is by done.
    destruct (IH p c1 c2 c3 (Z.lxor (u32_of_bytes b0 b1 b2 b3) (crc_bits 128 c0)))
      as (used & d0 & d1 & d2 & d3 & rest & E & -> & Hj); [cbn in Hn; lia|done..|by apply lxor_word32; [|apply crc_bits_word32]|].
    exists (b0 :: b1 :: b2 :: b3 :: used), d0, d1, d2, d3, rest. split; [exact E|]. split; [reflexivity|].
    rewrite Hj, joined_step, <- word_bits by assumption. rewrite (fold_left_4 _ _ _ _ _ used). reflexivity.
Qed.

Lemma strides_are l p : word32 l -> Forall byte p ->
  exists used rest, strides l p = (fold_left crc_byte used l, rest) /\ p = used ++ rest.
Proof.
  intros Hl Hp. unfold strides.
  do 16 (destruct p as [|? p]; [eexists [], _; split; [reflexivity|reflexivity]|]).
  rewrite !Forall_cons in Hp. destruct Hp as (A0 & A1 & A2 & A3 & B0 & B1 & B2 & B3 & C0 & C1 & C2 & C3 & D0 & D1 & D2 & D3 & Hp).
  match goal with |- context [stride_swaths p ?x0 ?x1 ?x2 ?x3] =>
    pose proof (swaths_are_words _ p x0 x1 x2 x3 (le_n _)) as Hsw;
    destruct (stride_words_are _ p x0 x1 x2 x3 (le_n _)) as (used & d0 & d1 & d2 & d3 & rest & E & -> & Hj);
    [done|try apply lxor_word32; try by apply word_of_bytes|by apply word_of_bytes..|]
  end; [done|].
  destruct (stride_swaths _ _ _ _ _) as [[[[s0 s1] s2] s3] p']. rewrite Hsw, E.
  rewrite joined_combine, Hj. eexists (_ :: _ :: _ :: _ :: _ :: _ :: _ :: _ :: _ :: _ :: _ :: _ :: _ :: _ :: _ :: _ :: used), rest.
  split; [|done]. f_equal.
  match goal with |- fold_left _ _ (joined (Z.lxor ?w0 _) ?w1 ?w2 ?w3) = fold_left _ (?a0 :: ?a1 :: ?a2 :: ?a3 :: ?b0 :: ?b1 :: ?b2 :: ?b3 :: ?c0 :: ?c1 :: ?c2 :: ?c3 :: ?d0' :: ?d1' :: ?d2' :: ?d3' :: _) _ =>
    change (a0 :: a1 :: a2 :: a3 :: b0 :: b1 :: b2 :: b3 :: c0 :: c1 :: c2 :: c3 :: d0' :: d1' :: d2' :: d3' :: used)
      with ([a0; a1; a2; a3] ++ [b0; b1; b2; b3] ++ [c0; c1; c2; c3] ++ [d0'; d1'; d2'; d3'] ++ used) end.
  rewrite !fold_left_app, !word_bits by done. f_equal. unfold joined.
  rewrite !crc_bits_lxor, <- !crc_bits_add. cbn [Nat.add].
  apply Z.bits_inj'. intros i Hi. rewrite !Z.lxor_spec.
  repeat match goal with |- context [Z.testbit ?x i] => destruct (Z.testbit x i) end; done.
Qed.

(** The checksum of bytes at any address. *)
Lemma Extend_at_crc addr crc data : word32 crc -> Forall byte data -> Extend_at addr crc data = crc32c crc data.
Proof.
  intros Hc Hd. unfold Extend_at, crc32c. change CanAccelerateCRC32C with false. cbv beta iota zeta. unfold kCRC32Xor.
  generalize (if RoundUp4 addr <=? addr + size data then Z.to_nat (RoundUp4 addr - addr) else 0%nat). intros align.
  rewrite <- (take_drop align data) in Hd. apply Forall_app in Hd as [Ht Hd].
  rewrite fold_STEP1_is by done. set (l := fold_left crc_byte (take align data) _).
  assert (Hl : word32 l).
  { unfold l. clear -Ht Hc. assert (Hw : word32 (Z.lxor crc 0xffffffff)) by (apply lxor_word32; [done|unfold word32; lia]).
    revert Hw. generalize (Z.lxor crc 0xffffffff). induction Ht as [|b p Hb Hp IH]; intros c Hw; cbn [fold_left]; [done|].
    apply IH. apply crc_bits_word32, lxor_word32; [done|]. unfold byte, word32 in *. lia. }
  destruct (strides_are l _ Hl Hd) as (used & rest & -> & E). rewrite E in Hd. apply Forall_app in Hd as [_ Hr].
  rewrite fold_STEP1_is by done. unfold l. rewrite <- !fold_left_app, <- E, take_drop. done.
Qed.

Lemma crc32c_app crc a b : crc32c crc (a ++ b) = crc32c (crc32c crc a) b.
Proof. unfold crc32c. rewrite fold_left_app, Z.lxor_assoc, Z.lxor_nilpotent, Z.lxor_0_r. done. Qed.

Lemma crc32c_word32 crc data : word32 crc -> Forall byte data -> word32 (crc32c crc data).
Proof.
  intros Hc Hd. unfold crc32c. apply lxor_word32; [|unfold word32; lia].
  assert (Hw : word32 (Z.lxor crc 0xffffffff)) by (apply lxor_word32; [done|unfold word32; lia]).
  revert Hw. generalize (Z.lxor crc 0xffffffff). induction Hd as [|b p Hb Hp IH]; intros c Hw; cbn [fold_left]; [done|].
  apply IH. apply crc_bits_word32, lxor_word32; [done|]. unfold byte, word32 in *. lia.
Qed.

(** ** The results *)

Lemma Extend_crc crc data : word32 crc -> Forall byte data -> Extend crc data = crc32c crc data.
Proof. apply Extend_at_crc. Qed.

Lemma Extend_app crc a b :
  word32 crc -> Forall byte a -> Forall byte b -> Extend crc (a ++ b) = Extend (Extend crc a) b.
Proof.
  intros Hc Ha Hb. pose proof (crc32c_word32 crc a Hc Ha). rewrite (Extend_crc crc (a ++ b)), (Extend_crc crc a), Extend_crc by (done || (apply Forall_app; done)).
  apply crc32c_app.
Qed.

Lemma Extend_word32 crc data : word32 crc -> Forall byte data -> word32 (Extend crc data).
Proof. intros Hc Hd. rewrite Extend_crc by done. by apply crc32c_word32. Qed.

(** The mask is a rotation by 15 bits and a sum. *)
Lemma rotate crc : word32 crc -> Z.lor (Z.shiftr crc 15) (u32 (Z.shiftl crc 17)) = crc / 2 ^ 15 + crc mod 2 ^ 15 * 2 ^ 17.
Proof.
  unfold word32. intros Hc. rewrite Z.shiftr_div_pow2 by lia.
  assert (E : u32 (Z.shiftl crc 17) = Z.shiftl (crc mod 2 ^ 15) 17).
  { unfold uwrap. rewrite !Z.shiftl_mul_pow2 by lia. change (2 ^ 32) with (2 ^ 15 * 2 ^ 17). by rewrite Z.mul_mod_distr_r. }
  rewrite E, lor_shiftl_add; [done| |lia]. change (2 ^ 32) with 4294967296 in Hc. change (2 ^ 15) with 32768. change (2 ^ 17) with 131072. zlia.
Qed.

Lemma Mask_word32 crc : word32 (Mask crc).
Proof. apply uwrap_range. lia. Qed.

Lemma Unmask_Mask crc : word32 crc -> Unmask (Mask crc) = crc.
Proof.
  intros Hc. unfold Unmask, Mask. rewrite rotate by done. unfold word32 in Hc.
  set (rot := crc / 2 ^ 15 + crc mod 2 ^ 15 * 2 ^ 17).
  assert (Hrot : 0 <= rot < 2 ^ 32).
  { unfold rot. change (2 ^ 32) with 4294967296 in *. change (2 ^ 15) with 32768. change (2 ^ 17) with 131072. zlia. }
  assert (E : u32 (u32 (rot + kMaskDelta) - kMaskDelta) = rot).
  { unfold uwrap. rewrite Zminus_mod_idemp_l. replace (rot + kMaskDelta - kMaskDelta) with rot by lia. by apply Z.mod_small. }
  cbv zeta. rewrite E, Z.shiftr_div_pow2 by lia.
  assert (E2 : u32 (Z.shiftl rot 15) = Z.shiftl (rot mod 2 ^ 17) 15).
  { unfold uwrap. rewrite !Z.shiftl_mul_pow2 by lia. change (2 ^ 32) with (2 ^ 17 * 2 ^ 15). by rewrite Z.mul_mod_distr_r. }
  rewrite E2, lor_shiftl_add; [|unfold rot|lia];
    change (2 ^ 32) with 4294967296 in *; change (2 ^ 15) with 32768; change (2 ^ 17) with 131072 in *; unfold rot;
    change (2 ^ 15) with 32768; change (2 ^ 17) with 131072; zlia.
Qed.

(** C21: [Extend] is the bitwise CRC-32C for every length of the data and every
    alignment of the buffer: the byte table, the four strides of 16-byte swaths and
    the single words compute the division by the Castagnoli polynomial; so a
    checksum can be continued, and [Unmask] gives a masked one back. *)
Theorem Extend_is_crc32c (addr crc : Z) (a b : list Z) :
  word32 crc -> Forall byte a -> Forall byte b ->
  Extend_at addr crc a = crc32c crc a /\
  Extend crc (a ++ b) = Extend (Extend crc a) b /\
  Unmask (Mask (Extend crc a)) = Extend crc a.
Proof.
  intros Hc Ha Hb. split; [by apply Extend_at_crc|]. split; [by apply Extend_app|]. by apply Unmask_Mask, Extend_word32.
Qed.

Lemma literal_byte s : Forall byte (literal s).
Proof.
  apply Forall_forall. intros x. unfold literal. rewrite list_elem_of_In, in_map_iff. intros (c & <- & _).
  pose proof (Ascii.nat_ascii_bounded c). unfold byte. lia.
Qed.

Lemma Extend_is_crc32c_witness :
  Extend_at 3 0 (literal "123456789") = 0xE3069283 /\
  Extend 0 (literal "123456789" ++ literal "0123456789abcdef0123") = Extend (Extend 0 (literal "123456789")) (literal "0123456789abcdef0123") /\
  Unmask (Mask (Extend 0 (literal "123456789"))) = 0xE3069283.
Proof.
  destruct (Extend_is_crc32c 3 0 (literal "123456789") (literal "0123456789abcdef0123")) as (E1 & E2 & E3);
    [unfold word32; lia|apply literal_byte|apply literal_byte|].
  split; [rewrite E1; vm_compute; reflexivity|]. split; [exact E2|]. rewrite E3. vm_compute. reflexivity.
Defined.
