(* ===== verification/LdbFilter.v ===== *)
(** [util/hash.cc], [util/bloom.cc], [include/leveldb/filter_policy.h] and
    [table/filter_block.cc]: the hash function, Bloom filters, and the block that
    holds one filter for every 2 KB of a table's data. *)

From Stdlib Require Import ZArith Lia List String Bool SpecFloat.
From stdpp Require Import base list.
From S2P Require Import Prelude LdbBase LdbCoding.

(** ** [Hash] *)

(** [while (data + 4 <= limit)]: the hash and the bytes that remain. *)
Fixpoint hash_words (m h : Z) (data : list Z) : Z * list Z :=
  match data with
  | b0 :: b1 :: b2 :: b3 :: data' =>
      let w := u32_of_bytes b0 b1 b2 b3 in
      let h := u32 (h + w) in
      let h := u32 (h * m) in
      let h := Z.lxor h (Z.shiftr h 16) in
      hash_words m h data'
  | _ => (h, data)
  end.

Definition Hash (data : list Z) (seed : Z) : Z :=
  let m := 0xc6a4a793 in
  let r := 24 in
  let h := u32 (Z.lxor seed (u64 (size data * m))) in
  let '(h, rest) := hash_words m h data in
  let case1 h b0 :=
    let h := u32 (h + b0) in
    let h := u32 (h * m) in
    Z.lxor h (Z.shiftr h r) in
  let case2 h b0 b1 := case1 (u32 (h + Z.shiftl b1 8)) b0 in
  let case3 h b0 b1 b2 := case2 (u32 (h + Z.shiftl b2 16)) b0 b1 in
  match rest with
  | [b0; b1; b2] => case3 h b0 b1 b2
  | [b0; b1] => case2 h b0 b1
  | [b0] => case1 h b0
  | _ => h
  end.

(** ** Filter policies *)

(** The interface [leveldb::FilterPolicy]: [CreateFilter] appends a filter of the
    keys to a string. *)
Class FilterPolicy := {
  policy_Name : list Z;
  CreateFilter : list Slice -> list Z -> list Z;
  KeyMayMatch : Slice -> Slice -> bool
}.

(** What [filter_policy.h] promises of a set of keys that is not too large: a key
    of the list matches the filter that was appended. *)
Class FilterPolicyLaws (P : FilterPolicy) := {
  filter_keys_ok : list Slice -> Prop;
  CreateFilter_appends keys dst : CreateFilter keys dst = dst ++ CreateFilter keys [];
  KeyMayMatch_created keys key :
    filter_keys_ok keys -> key ∈ keys -> KeyMayMatch key (CreateFilter keys []) = true
}.

(** ** The Bloom filter *)

Definition BloomHash (key : Slice) : Z := Hash key 0xbc9f1d34.

(** The double nearest to 0.69, [bits_per_key] as a double, and the conversion of
    a double to [size_t]; [None] where C++ leaves it undefined. *)
Definition ln2 : spec_float := S754_finite false 6214967485771284 (-53).
Definition double_of_int (n : Z) : spec_float := binary_normalize 53 1024 n 0 false.
Definition size_t_of_double (f : spec_float) : option Z :=
  match f with
  | S754_zero _ => Some 0
  | S754_finite s m e =>
      let a := if 0 <=? e then Z.shiftl (Z.pos m) e else Z.shiftr (Z.pos m) (- e) in
      if s then if a =? 0 then Some 0 else None
      else if a <? 2 ^ 64 then Some a else None
  | _ => None
  end.

Record BloomFilterPolicy := mk_bloom { bits_per_key_ : Z; k_ : Z }.

Definition new_BloomFilterPolicy (bits_per_key : Z) : option BloomFilterPolicy :=
  k ← size_t_of_double (SFmul 53 1024 (double_of_int bits_per_key) ln2);
  let k := if k <? 1 then 1 else k in
  let k := if 30 <? k then 30 else k in
  Some (mk_bloom (u64 bits_per_key) k).

(** [for (size_t j = 0; j < k; j++)] of the probes of [h], from the bit [bitpos]. *)
Definition rotate17 (h : Z) : Z := Z.lor (Z.shiftr h 17) (u32 (Z.shiftl h 15)).

(** [array[bitpos / 8] |= (1 << (bitpos % 8))] *)
Definition set_bit (array : list Z) (bitpos : Z) : list Z :=
  let i := Z.to_nat (bitpos / 8) in
  <[i := u8 (Z.lor (nth i array 0) (Z.shiftl 1 (bitpos mod 8)))]> array.

Fixpoint set_probes (n : nat) (h delta bits : Z) (array : list Z) : list Z :=
  match n with
  | O => array
  | S n' => set_probes n' (u32 (h + delta)) delta bits (set_bit array (u32 (h mod bits)))
  end.

Definition add_key (k bits : Z) (array : list Z) (key : Slice) : list Z :=
  let h := BloomHash key in
  set_probes (Z.to_nat k) h (rotate17 h) bits array.

Definition bloom_CreateFilter (p : BloomFilterPolicy) (keys : list Slice) (dst : list Z) : list Z :=
  let bits := u64 (u64 (Z.of_nat (List.length keys)) * bits_per_key_ p) in
  let bits := if bits <? 64 then 64 else bits in
  let bytes := u64 (bits + 7) / 8 in
  let bits := u64 (bytes * 8) in
  let init_size := List.length dst in
  let dst := dst ++ repeat 0 (Z.to_nat bytes) in
  let dst := dst ++ [u8 (k_ p)] in
  take init_size dst ++ fold_left (add_key (k_ p) bits) keys (drop init_size dst).

(** [(array[bitpos / 8] & (1 << (bitpos % 8))) != 0], of a [char]. *)
Definition test_bit (array : list Z) (bitpos : Z) : bool :=
  negb (Z.land (s8 (nth (Z.to_nat (bitpos / 8)) array 0)) (Z.shiftl 1 (bitpos mod 8)) =? 0).

Fixpoint test_probes (n : nat) (h delta bits : Z) (array : list Z) : bool :=
  match n with
  | O => true
  | S n' =>
      if test_bit array (u32 (h mod bits)) then test_probes n' (u32 (h + delta)) delta bits array
      else false
  end.

Definition bloom_KeyMayMatch (key bloom_filter : Slice) : bool :=
  let len := size bloom_filter in
  if len <? 2 then false
  else
    let array := bloom_filter in
    let bits := u64 ((len - 1) * 8) in
    let k := u64 (s8 (nth (Z.to_nat (len - 1)) array 0)) in
    if 30 <? k then true
    else
      let h := BloomHash key in
      test_probes (Z.to_nat k) h (rotate17 h) bits array.

Definition bloom_policy (p : BloomFilterPolicy) : FilterPolicy :=
  {| policy_Name := literal "leveldb.BuiltinBloomFilter2";
     CreateFilter := bloom_CreateFilter p;
     KeyMayMatch := bloom_KeyMayMatch |}.

(** ** The filter block *)

Definition kFilterBaseLg : Z := 11.
Definition kFilterBase : Z := Z.shiftl 1 kFilterBaseLg.

Record FilterBlockBuilder := mk_fbuilder {
  fb_keys : list Z;
  fb_start : list Z;
  fb_result : list Z;
  fb_tmp_keys : list Slice;
  fb_offsets : list Z
}.

Record FilterBlockReader := mk_freader {
  fr_data : option (list Z);
  fr_offset : Z;
  fr_num : Z;
  fr_base_lg : Z
}.

Section FilterBlock.
Context {P : FilterPolicy}.

Definition new_FilterBlockBuilder : FilterBlockBuilder := mk_fbuilder [] [] [] [] [].

(** [Slice(keys_.data() + start_[i], start_[i + 1] - start_[i])] for each [i]. *)
Fixpoint flattened_keys (keys : list Z) (start : list Z) : list Slice :=
  match start with
  | a :: ((b :: _) as start') =>
      take (Z.to_nat (u64 (b - a))) (drop (Z.to_nat a) keys) :: flattened_keys keys start'
  | _ => []
  end.

Definition GenerateFilter (b : FilterBlockBuilder) : FilterBlockBuilder :=
  let num_keys := size (fb_start b) in
  if num_keys =? 0 then
    mk_fbuilder (fb_keys b) (fb_start b) (fb_result b) (fb_tmp_keys b) (fb_offsets b ++ [u32 (size (fb_result b))])
  else
    let start := fb_start b ++ [size (fb_keys b)] in
    let tmp_keys := flattened_keys (fb_keys b) start in
    let offsets := fb_offsets b ++ [u32 (size (fb_result b))] in
    let result := CreateFilter tmp_keys (fb_result b) in
    mk_fbuilder [] [] result [] offsets.

(** [while (filter_index > filter_offsets_.size()) GenerateFilter();] *)
Definition StartBlock (block_offset : Z) (b : FilterBlockBuilder) : FilterBlockBuilder :=
  let filter_index := block_offset / kFilterBase in
  Nat.iter (Z.to_nat (filter_index - size (fb_offsets b))) GenerateFilter b.

Definition AddKey (key : Slice) (b : FilterBlockBuilder) : FilterBlockBuilder :=
  mk_fbuilder (fb_keys b ++ key) (fb_start b ++ [size (fb_keys b)]) (fb_result b) (fb_tmp_keys b) (fb_offsets b).

Definition fb_Finish (b : FilterBlockBuilder) : Slice :=
  let b := if negb (size (fb_start b) =? 0) then GenerateFilter b else b in
  let array_offset := u32 (size (fb_result b)) in
  let result := fold_left PutFixed32 (fb_offsets b) (fb_result b) in
  PutFixed32 result array_offset ++ [kFilterBaseLg].

(** [contents[n - 1]] is a [char]. *)
Definition new_FilterBlockReader (contents : Slice) : FilterBlockReader :=
  let none := mk_freader None 0 0 0 in
  let n := size contents in
  if n <? 5 then none
  else
    let base_lg := u64 (s8 (nth (Z.to_nat (n - 1)) contents 0)) in
    match DecodeFixed32 (drop (Z.to_nat (n - 5)) contents) with
    | None => none
    | Some last_word =>
        if n - 5 <? last_word then mk_freader None 0 0 base_lg
        else mk_freader (Some contents) last_word ((n - 5 - last_word) / 4) base_lg
    end.

(** [offset_] is kept as its distance from [data_]. A shift by 64 or more is
    undefined. *)
Definition reader_KeyMayMatch (r : FilterBlockReader) (block_offset : Z) (key : Slice) : option bool :=
  if 64 <=? fr_base_lg r then None
  else
    let index := Z.shiftr block_offset (fr_base_lg r) in
    if index <? fr_num r then
      match fr_data r with
      | None => None
      | Some data =>
          start ← DecodeFixed32 (drop (Z.to_nat (fr_offset r + index * 4)) data);
          limit ← DecodeFixed32 (drop (Z.to_nat (fr_offset r + index * 4 + 4)) data);
          if (start <=? limit) && (limit <=? fr_offset r) then
            Some (KeyMayMatch key (take (Z.to_nat (limit - start)) (drop (Z.to_nat start) data)))
          else if start =? limit then Some false
          else Some true
      end
    else Some true.
End FilterBlock.
