(* ===== verification/LdbKeys.v ===== *)
(** [include/leveldb/comparator.h], [util/comparator.cc] and [db/dbformat.h]/[.cc]:
    the orders on keys, as a class with its laws, and the internal keys of a
    database: a user key with a sequence number and a type. *)

From Stdlib Require Import ZArith Lia List String Bool.
From stdpp Require Import base list.
From S2P Require Import Prelude Base128 LdbBase LdbText LdbCoding LdbFilter.

(** ** Comparators *)

(** The interface [leveldb::Comparator]; [None] is an execution that reads outside
    a key. *)
Class Comparator := {
  comparator_Name : list Z;
  Compare : Slice -> Slice -> option Z;
  FindShortestSeparator : list Z -> Slice -> option (list Z);
  FindShortSuccessor : list Z -> option (list Z)
}.

(** What [comparator.h] asks of an implementation: a total order on the keys, and
    keys that separate. *)
Class ComparatorLaws (C : Comparator) := {
  key_ok : Slice -> Prop;
  order : Slice -> Slice -> Z;
  Compare_order a b : key_ok a -> key_ok b -> Compare a b = Some (order a b);
  order_refl a : key_ok a -> order a a = 0;
  order_flip a b : key_ok a -> key_ok b -> (order a b < 0 <-> 0 < order b a);
  order_trans a b c : key_ok a -> key_ok b -> key_ok c -> order a b <= 0 -> order b c <= 0 -> order a c <= 0;
  FindShortestSeparator_ok start limit : key_ok start -> key_ok limit ->
    exists s, FindShortestSeparator start limit = Some s /\ key_ok s /\ size s <= size start /\
      (s = start \/ order start s <= 0 /\ order s limit < 0);
  FindShortSuccessor_ok key : key_ok key ->
    exists s, FindShortSuccessor key = Some s /\ key_ok s /\ size s <= size key /\ order key s <= 0
}.

(** ** [BytewiseComparatorImpl] *)

(** The length of the common prefix. *)
Fixpoint diff_index (start limit : list Z) : nat :=
  match start, limit with
  | a :: start', b :: limit' => if a =? b then S (diff_index start' limit') else O
  | _, _ => O
  end.

Definition bytewise_FindShortestSeparator (start : list Z) (limit : Slice) : list Z :=
  let min_length := Z.min (size start) (size limit) in
  let i := diff_index start limit in
  if min_length <=? Z.of_nat i then start
  else
    let diff_byte := nth i start 0 in
    if (diff_byte <? 0xff) && (diff_byte + 1 <? nth i limit 0)
    then take i start ++ [u8 (diff_byte + 1)]
    else start.

Fixpoint bytewise_FindShortSuccessor (key : list Z) : list Z :=
  match key with
  | [] => []
  | byte :: key' => if negb (byte =? 0xff) then [byte + 1] else byte :: bytewise_FindShortSuccessor key'
  end.

Definition BytewiseComparator : Comparator :=
  {| comparator_Name := literal "leveldb.BytewiseComparator";
     Compare a b := Some (Slice_compare a b);
     FindShortestSeparator start limit := Some (bytewise_FindShortestSeparator start limit);
     FindShortSuccessor key := Some (bytewise_FindShortSuccessor key) |}.

(** ** Internal keys *)

Definition kNumLevels : Z := 7.
Definition kL0_CompactionTrigger : Z := 4.
Definition kL0_SlowdownWritesTrigger : Z := 8.
Definition kL0_StopWritesTrigger : Z := 12.
Definition kMaxMemCompactLevel : Z := 2.
Definition kReadBytesPeriod : Z := 1048576.

Inductive ValueType := kTypeDeletion | kTypeValue.
Definition ValueType_value (t : ValueType) : Z := match t with kTypeDeletion => 0x0 | kTypeValue => 0x1 end.
Definition kValueTypeForSeek : ValueType := kTypeValue.
Definition kMaxSequenceNumber : Z := Z.shiftl 0x1 56 - 1.

Record ParsedInternalKey := mk_parsed { pk_user_key : Slice; pk_sequence : Z; pk_type : ValueType }.

Definition InternalKeyEncodingLength (key : ParsedInternalKey) : Z := u64 (size (pk_user_key key) + 8).

(** Asserted: [seq] is at most [kMaxSequenceNumber]. *)
Definition PackSequenceAndType (seq : Z) (t : ValueType) : Z :=
  Z.lor (u64 (Z.shiftl seq 8)) (ValueType_value t).

Definition AppendInternalKey (result : list Z) (key : ParsedInternalKey) : list Z :=
  PutFixed64 (result ++ pk_user_key key) (PackSequenceAndType (pk_sequence key) (pk_type key)).

(** [None] is [false]; a type byte above 1 is none of the enumeration. *)
Definition ParseInternalKey (internal_key : Slice) : option ParsedInternalKey :=
  let n := size internal_key in
  if n <? 8 then None
  else
    num ← DecodeFixed64 (drop (Z.to_nat (n - 8)) internal_key);
    let c := Z.land num 0xff in
    let key t := Some (mk_parsed (take (Z.to_nat (n - 8)) internal_key) (Z.shiftr num 8) t) in
    if c =? ValueType_value kTypeDeletion then key kTypeDeletion
    else if c =? ValueType_value kTypeValue then key kTypeValue
    else None.

(** The bytes before the last eight. *)
Definition user_part (internal_key : Slice) : Slice :=
  take (Z.to_nat (u64 (size internal_key - 8))) internal_key.

(** Asserted: there are at least eight bytes. [None] is an assertion that fails, here and below. *)
Definition ExtractUserKey (internal_key : Slice) : option Slice :=
  if 8 <=? size internal_key then Some (user_part internal_key) else None.

(** The eight bytes behind the user key. *)
Definition key_number (key : Slice) : option Z := DecodeFixed64 (drop (Z.to_nat (size key - 8)) key).

Definition parsed_DebugString (key : ParsedInternalKey) : list Z :=
  literal "'" ++ EscapeString (pk_user_key key) ++
  literal "' @ " ++ decimal (pk_sequence key) ++ literal " : " ++ decimal (ValueType_value (pk_type key)).

(** The class [InternalKey] is its string [rep_]. *)
Definition new_InternalKey (user_key : Slice) (s : Z) (t : ValueType) : list Z :=
  AppendInternalKey [] (mk_parsed user_key s t).
Definition key_DecodeFrom (s : Slice) : list Z := s.
(** Asserted: the key is not empty. *)
Definition key_Encode (rep : list Z) : option Slice := match rep with [] => None | _ => Some rep end.
Definition key_user_key (rep : list Z) : option Slice := ExtractUserKey rep.
Definition key_SetFrom (p : ParsedInternalKey) : list Z := AppendInternalKey [] p.
Definition key_Clear (rep : list Z) : list Z := [].
Definition key_DebugString (rep : list Z) : list Z :=
  match ParseInternalKey rep with
  | Some parsed => parsed_DebugString parsed
  | None => literal "(bad)" ++ EscapeString rep
  end.

Section Internal.
Context {user_comparator : Comparator}.

Definition internal_Compare (akey bkey : Slice) : option Z :=
  auser ← ExtractUserKey akey;
  buser ← ExtractUserKey bkey;
  r ← Compare auser buser;
  if r =? 0 then
    anum ← key_number akey;
    bnum ← key_number bkey;
    Some (if bnum <? anum then -1 else if anum <? bnum then 1 else r)
  else Some r.

(** [Compare] on two objects of the class [InternalKey]. *)
Definition key_Compare (a b : list Z) : option Z :=
  a ← key_Encode a; b ← key_Encode b; internal_Compare a b.

(** [tmp] with the earliest number, where it is shorter but larger. *)
Definition tack_on (user_key tmp key : list Z) : option (list Z) :=
  if size tmp <? size user_key then
    r ← Compare user_key tmp;
    if r <? 0 then Some (PutFixed64 tmp (PackSequenceAndType kMaxSequenceNumber kValueTypeForSeek)) else Some key
  else Some key.

Definition internal_FindShortestSeparator (start : list Z) (limit : Slice) : option (list Z) :=
  user_start ← ExtractUserKey start;
  user_limit ← ExtractUserKey limit;
  tmp ← FindShortestSeparator user_start user_limit;
  tack_on user_start tmp start.

Definition internal_FindShortSuccessor (key : list Z) : option (list Z) :=
  user_key ← ExtractUserKey key;
  tmp ← FindShortSuccessor user_key;
  tack_on user_key tmp key.

Definition InternalKeyComparator : Comparator :=
  {| comparator_Name := literal "leveldb.InternalKeyComparator";
     Compare := internal_Compare;
     FindShortestSeparator := internal_FindShortestSeparator;
     FindShortSuccessor := internal_FindShortSuccessor |}.
End Internal.
#[global] Arguments InternalKeyComparator : clear implicits.

(** [InternalFilterPolicy]: the user's policy on user keys; the keys have at least eight bytes, as [ExtractUserKey] asserts. *)
Definition InternalFilterPolicy (user_policy : FilterPolicy) : FilterPolicy :=
  {| policy_Name := policy_Name;
     CreateFilter keys dst := CreateFilter (map user_part keys) dst;
     KeyMayMatch key f := KeyMayMatch (user_part key) f |}.

(** [LookupKey]: the array from [start_] to [end_], and [kstart_] as an offset. *)
Record LookupKey := mk_lookup { lk_bytes : list Z; lk_kstart : Z }.

Definition new_LookupKey (user_key : Slice) (s : Z) : LookupKey :=
  let len := EncodeVarint32 (u32 (size user_key + 8)) in
  mk_lookup (len ++ user_key ++ EncodeFixed64 (PackSequenceAndType s kValueTypeForSeek)) (size len).

Definition memtable_key (k : LookupKey) : Slice := lk_bytes k.
Definition internal_key (k : LookupKey) : Slice := drop (Z.to_nat (lk_kstart k)) (lk_bytes k).
Definition lookup_user_key (k : LookupKey) : Slice :=
  let s := drop (Z.to_nat (lk_kstart k)) (lk_bytes k) in take (Z.to_nat (size s - 8)) s.
