(* ===== verification/LdbKeyProps.v ===== *)
(** The comparators are what [comparator.h] asks for: the bytewise order and the
    order of internal keys over any user order; internal keys are parsed as they
    were built. *)

From Stdlib Require Import ZArith Lia List String Bool.
From stdpp Require Import base list.
From S2P Require Import Prelude Base128 LdbBase LdbText LdbCoding LdbFilter LdbKeys.

(** ** The lexicographic order *)

Fixpoint lex (a b : list Z) : Z :=
  match a, b with
  | [], [] => 0
  | [], _ => -1
  | _, [] => 1
  | x :: a', y :: b' => if x <? y then -1 else if y <? x then 1 else lex a' b'
  end.

Lemma Slice_compare_lex a : forall b, Slice_compare a b = lex a b.
Proof.
  induction a as [|x a IH]; intros [|y b]; try done.
  - specialize (IH b). unfold Slice_compare in *. rewrite !size_cons. 
    replace (size a + 1 <? size b + 1) with (size a <? size b) by (destruct (Z.ltb_spec (size a) (size b)), (Z.ltb_spec (size a + 1) (size b + 1)); done || lia).
    replace (size b + 1 <? size a + 1) with (size b <? size a) by (destruct (Z.ltb_spec (size b) (size a)), (Z.ltb_spec (size b + 1) (size a + 1)); done || lia).
    pose proof (size_nonneg a). pose proof (size_nonneg b).
    replace (Z.to_nat (if size a <? size b then size a + 1 else size b + 1)) with (S (Z.to_nat (if size a <? size b then size a else size b))) by (destruct (_ <? _); lia).
    cbn [take memcmp lex]. rewrite <- IH. destruct (x <? y); [done|]. by destruct (y <? x).
Qed.

Lemma lex_refl a : lex a a = 0.
Proof. induction a as [|x a IH]; [done|]. cbn. by rewrite Z.ltb_irrefl. Qed.

Lemma lex_flip a : forall b, lex a b = - lex b a.
Proof.
  induction a as [|x a IH]; intros [|y b]; try done. cbn. destruct (Z.ltb_spec x y), (Z.ltb_spec y x); done || lia.
Qed.

Lemma lex_eq a : forall b, lex a b = 0 -> a = b.
Proof.
  induction a as [|x a IH]; intros [|y b]; try done. cbn. destruct (Z.ltb_spec x y); [done|]. destruct (Z.ltb_spec y x); [done|].
  intros E. f_equal; [lia|by apply IH].
Qed.

Lemma lex_trans a : forall b c, lex a b <= 0 -> lex b c <= 0 -> lex a c <= 0.
Proof.
  induction a as [|x a IH]; intros [|y b] [|z c]; cbn; try lia.
  destruct (Z.ltb_spec x y), (Z.ltb_spec y x), (Z.ltb_spec y z), (Z.ltb_spec z y), (Z.ltb_spec x z), (Z.ltb_spec z x); try lia.
  apply IH.
Qed.

Lemma lex_app p a b : lex (p ++ a) (p ++ b) = lex a b.
Proof. induction p as [|x p IH]; [done|]. cbn. by rewrite Z.ltb_irrefl. Qed.

(** ** The bytewise comparator *)

Lemma diff_index_spec start : forall limit,
  Z.min (size start) (size limit) <= Z.of_nat (diff_index start limit) \/
  exists p a b s l, start = p ++ a :: s /\ limit = p ++ b :: l /\ a <> b /\ diff_index start limit = List.length p.
Proof.
  induction start as [|a start IH]; intros [|b limit]; cbn [diff_index]; try (left; unfold size; cbn; lia).
  destruct (Z.eqb_spec a b) as [<-|Hne].
  - destruct (IH limit) as [H|(p & a' & b' & s & l & -> & -> & Hne & ->)].
    + left. rewrite !size_cons. lia.
    + right. by exists (a :: p), a', b', s, l.
  - right. by exists [], a, b, start, limit.
Qed.

Lemma bytewise_separator start limit : Forall byte start -> Forall byte limit ->
  let s := bytewise_FindShortestSeparator start limit in
  Forall byte s /\ size s <= size start /\ (s = start \/ lex start s <= 0 /\ lex s limit < 0).
Proof.
  intros Hs Hl s. subst s. unfold bytewise_FindShortestSeparator. destruct (Z.leb_spec (Z.min (size start) (size limit)) (Z.of_nat (diff_index start limit))) as [H|H].
  { split; [done|]. split; [lia|by left]. }
  destruct (diff_index_spec start limit) as [H'|(p & a & b & s & l & -> & -> & Hne & ->)]; [lia|].
  apply Forall_app in Hs as [Hp Ha]. apply Forall_cons in Ha as [Ha Hs]. apply Forall_app in Hl as [_ Hb]. apply Forall_cons in Hb as [Hb _].
  unfold byte in Ha, Hb.
  rewrite !nth_middle. destruct (Z.ltb_spec a 0xff) as [Hff|], (Z.ltb_spec (a + 1) b) as [Hab|]; cbn [andb];
    try (split; [by apply Forall_app; split; [|constructor]|split; [lia|by left]]).
  rewrite take_app_length, uwrap_small by lia. split; [|split].
  - apply Forall_app. split; [done|]. repeat constructor; unfold byte; lia.
  - rewrite !size_app, !size_cons, size_nil. pose proof (size_nonneg s). lia.
  - right. rewrite !lex_app. cbn. destruct (Z.ltb_spec a (a + 1)), (Z.ltb_spec (a + 1) b); lia.
Qed.

Lemma bytewise_successor key : Forall byte key ->
  let s := bytewise_FindShortSuccessor key in Forall byte s /\ size s <= size key /\ lex key s <= 0.
Proof.
  induction key as [|x key IH]; [done|]. intros Hk. apply Forall_cons in Hk as [Hx Hk]. destruct (IH Hk) as (H1 & H2 & H3).
  cbn [bytewise_FindShortSuccessor]. pose proof (size_nonneg key). unfold byte in Hx. destruct (Z.eqb_spec x 0xff) as [E|E]; cbn [negb].
  - split; [by constructor|]. rewrite !size_cons. split; [lia|]. cbn. by rewrite Z.ltb_irrefl.
  - split; [repeat constructor; unfold byte; lia|]. rewrite !size_cons, size_nil. split; [lia|]. cbn.
    destruct (Z.ltb_spec x (x + 1)); lia.
Qed.

#[export, program] Instance bytewise_laws : ComparatorLaws BytewiseComparator := {|
  key_ok k := Forall byte k;
  order := Slice_compare
|}.
Next Obligation. done. Qed.
Next Obligation. intros a _. rewrite Slice_compare_lex. apply lex_refl. Qed.
Next Obligation. intros a b _ _. rewrite !Slice_compare_lex, (lex_flip a b). lia. Qed.
Next Obligation. intros a b c _ _ _. rewrite !Slice_compare_lex. apply lex_trans. Qed.
Next Obligation.
  intros start limit Hs Hl. exists (bytewise_FindShortestSeparator start limit). split; [done|].
  rewrite !Slice_compare_lex. by apply bytewise_separator.
Qed.
Next Obligation.
  intros key Hk. exists (bytewise_FindShortSuccessor key). split; [done|].
  rewrite !Slice_compare_lex. by apply bytewise_successor.
Qed.

(** ** Internal keys *)

Lemma PackSequenceAndType_sum s t : 0 <= s <= kMaxSequenceNumber -> PackSequenceAndType s t = s * 256 + ValueType_value t.
Proof.
  change kMaxSequenceNumber with 72057594037927935. intros Hs. unfold PackSequenceAndType. rewrite uwrap_small by (rewrite Z.shiftl_mul_pow2 by lia; lia).
  rewrite Z.lor_comm, lor_shiftl_add by (destruct t; cbn; lia). change (2 ^ 8) with 256. lia.
Qed.

Lemma Pack_range s t : 0 <= s <= kMaxSequenceNumber -> 0 <= PackSequenceAndType s t < 2 ^ 64.
Proof. intros Hs. rewrite PackSequenceAndType_sum by done. change kMaxSequenceNumber with 72057594037927935 in Hs. destruct t; cbn; lia. Qed.

(** The bytes of an internal key. *)
Definition internal_key_bytes (user_key : Slice) (s : Z) (t : ValueType) : list Z :=
  user_key ++ EncodeFixed64 (PackSequenceAndType s t).

Lemma AppendInternalKey_app dst u s t : AppendInternalKey dst (mk_parsed u s t) = dst ++ internal_key_bytes u s t.
Proof. unfold AppendInternalKey, PutFixed64, internal_key_bytes. cbn. by rewrite app_assoc. Qed.

Lemma size_internal_key u s t : size (internal_key_bytes u s t) = size u + 8.
Proof. unfold internal_key_bytes. by rewrite size_app, size_EncodeFixed64. Qed.

Lemma user_part_app u tail : size tail = 8 -> size u + 8 < 2 ^ 64 -> user_part (u ++ tail) = u.
Proof.
  intros Ht Hu. pose proof (size_nonneg u). unfold user_part. rewrite size_app, Ht, uwrap_small by lia.
  replace (size u + 8 - 8) with (size u) by lia. apply take_size_app.
Qed.

Lemma user_part_of u s t : size u + 8 < 2 ^ 64 -> user_part (internal_key_bytes u s t) = u.
Proof. by apply user_part_app. Qed.

Lemma key_number_of u s t : 0 <= s <= kMaxSequenceNumber ->
  key_number (internal_key_bytes u s t) = Some (PackSequenceAndType s t).
Proof.
  intros Hs. unfold key_number. rewrite size_internal_key. replace (size u + 8 - 8) with (size u) by lia.
  unfold internal_key_bytes. rewrite drop_size_app, <- (app_nil_r (EncodeFixed64 _)). by apply DecodeFixed64_of, Pack_range.
Qed.

Lemma ParseInternalKey_of u s t : 0 <= s <= kMaxSequenceNumber ->
  ParseInternalKey (internal_key_bytes u s t) = Some (mk_parsed u s t).
Proof.
  intros Hs. pose proof (key_number_of u s t Hs) as Hn. unfold key_number in Hn. pose proof (size_nonneg u).
  unfold ParseInternalKey. rewrite size_internal_key in *. destruct (Z.ltb_spec (size u + 8) 8); [lia|].
  rewrite Hn. cbn [mbind option_bind]. rewrite PackSequenceAndType_sum by done. change 0xff with (Z.ones 8).
  rewrite Z.land_ones, Z.shiftr_div_pow2 by lia. change (2 ^ 8) with 256.
  replace ((s * 256 + ValueType_value t) mod 256) with (ValueType_value t) by (destruct t; cbn; zlia).
  replace ((s * 256 + ValueType_value t) / 256) with s by (destruct t; cbn; zlia).
  replace (size u + 8 - 8) with (size u) by lia. unfold internal_key_bytes. rewrite take_size_app. by destruct t.
Qed.

Section Internal.
Context {U : Comparator} {L : ComparatorLaws U}.

Definition internal_ok (k : Slice) : Prop := 8 <= size k < 2 ^ 64 /\ key_ok (user_part k).
Definition number_of (k : Slice) : Z := match key_number k with Some n => n | None => 0 end.
Definition internal_order (a b : Slice) : Z :=
  let r := order (user_part a) (user_part b) in
  if r =? 0 then if number_of b <? number_of a then -1 else if number_of a <? number_of b then 1 else 0 else r.

Lemma key_number_some k : 8 <= size k -> key_number k = Some (number_of k).
Proof.
  intros Hk. unfold number_of. destruct (key_number k) eqn:E; [done|]. exfalso. unfold key_number in E.
  assert (Hs : size (drop (Z.to_nat (size k - 8)) k) = 8) by (rewrite size_drop by lia; lia).
  destruct (drop _ k) as [|b0 [|b1 [|b2 [|b3 [|b4 [|b5 [|b6 [|b7 l]]]]]]]]; unfold size in Hs; cbn in Hs; try lia. done.
Qed.

(** Such a key passes the assertions. *)
Lemma ExtractUserKey_ok k : internal_ok k -> ExtractUserKey k = Some (user_part k).
Proof. intros [Hk _]. unfold ExtractUserKey. by destruct (Z.leb_spec 8 (size k)); [|lia]. Qed.

Lemma key_user_key_ok k : internal_ok k -> key_user_key k = Some (user_part k).
Proof. apply ExtractUserKey_ok. Qed.

Lemma key_Encode_ok k : internal_ok k -> key_Encode k = Some k.
Proof. intros [Hk _]. destruct k; [unfold size in Hk; cbn in Hk; lia|done]. Qed.

Lemma internal_Compare_order a b : internal_ok a -> internal_ok b -> internal_Compare a b = Some (internal_order a b).
Proof.
  intros Ha Hb. unfold internal_Compare. rewrite !ExtractUserKey_ok by done. destruct Ha as [Ha Hua], Hb as [Hb Hub]. unfold internal_order. cbn [mbind option_bind]. rewrite (Compare_order _ _ Hua Hub). cbn [mbind option_bind].
  destruct (Z.eqb_spec (order (user_part a) (user_part b)) 0) as [E|E]; [|done].
  rewrite !key_number_some by lia. cbn [mbind option_bind]. by rewrite E.
Qed.

Lemma key_Compare_order a b : internal_ok a -> internal_ok b -> key_Compare a b = Some (internal_order a b).
Proof. intros Ha Hb. unfold key_Compare. rewrite !key_Encode_ok by done. by apply internal_Compare_order. Qed.

Lemma wp_key_user_key {S} k (Q : Slice -> S -> Prop) E s : internal_ok k -> Q (user_part k) s -> wp (or_stuck (key_user_key k)) Q E s.
Proof. intros Hk HQ. apply wp_or_stuck. exists (user_part k). by rewrite key_user_key_ok. Qed.

Lemma wp_key_Encode {S} k (Q : Slice -> S -> Prop) E s : internal_ok k -> Q k s -> wp (or_stuck (key_Encode k)) Q E s.
Proof. intros Hk HQ. apply wp_or_stuck. exists k. by rewrite key_Encode_ok. Qed.

(** A user order of two keys decides the order of the internal keys. *)
Lemma internal_order_lt a b : order (user_part a) (user_part b) < 0 -> internal_order a b < 0.
Proof. intros H. unfold internal_order. destruct (Z.eqb_spec (order (user_part a) (user_part b)) 0); lia. Qed.

Lemma internal_order_trans a b c : internal_ok a -> internal_ok b -> internal_ok c ->
  internal_order a b <= 0 -> internal_order b c <= 0 -> internal_order a c <= 0.
Proof.
  intros [_ Ha] [_ Hb] [_ Hc]. unfold internal_order.
  pose proof (order_trans _ _ _ Ha Hb Hc). pose proof (order_trans _ _ _ Hc Ha Hb). pose proof (order_trans _ _ _ Hb Hc Ha).
  pose proof (order_flip _ _ Ha Hb). pose proof (order_flip _ _ Hb Ha). pose proof (order_flip _ _ Hb Hc). pose proof (order_flip _ _ Hc Hb).
  pose proof (order_flip _ _ Ha Hc). pose proof (order_flip _ _ Hc Ha).
  repeat match goal with |- context [?x =? 0] => destruct (Z.eqb_spec x 0) end;
    repeat match goal with |- context [?x <? ?y] => destruct (Z.ltb_spec x y) end; lia.
Qed.

(** A key with the earliest number tacked on. *)
Lemma tack_on_ok (key tmp : list Z) :
  internal_ok key -> key_ok tmp ->
  exists s, tack_on (user_part key) tmp key = Some s /\ internal_ok s /\ size s <= size key /\
    (s = key \/ order (user_part key) tmp < 0 /\ size tmp < size (user_part key) /\ user_part s = tmp).
Proof.
  intros [Hk Huk] Ht. unfold tack_on. rewrite (Compare_order _ _ Huk Ht). cbn [mbind option_bind].
  assert (Hsz : size (user_part key) = size key - 8).
  { unfold user_part. rewrite uwrap_small by lia. apply size_take. lia. }
  pose proof (size_nonneg tmp).
  destruct (Z.ltb_spec (size tmp) (size (user_part key))); [|by exists key; split; [|split; [|split; [lia|left]]]].
  destruct (Z.ltb_spec (order (user_part key) tmp) 0); [|by exists key; split; [|split; [|split; [lia|left]]]].
  unfold PutFixed64. set (tail := EncodeFixed64 (PackSequenceAndType kMaxSequenceNumber kValueTypeForSeek)). assert (Hx : user_part (tmp ++ tail) = tmp) by (apply user_part_app; [done|lia]).
  exists (tmp ++ tail). split; [done|]. unfold internal_ok. rewrite Hx, size_app. change (size tail) with 8.
  split; [split; [lia|done]|]. split; [lia|]. by right.
Qed.

#[export, program] Instance internal_laws : ComparatorLaws (InternalKeyComparator U) := {|
  key_ok := internal_ok;
  order := internal_order
|}.
Next Obligation. apply internal_Compare_order. Qed.
Next Obligation. intros a [_ Ha]. unfold internal_order. rewrite order_refl by done. cbn. by rewrite Z.ltb_irrefl. Qed.
Next Obligation.
  intros a b [_ Ha] [_ Hb]. unfold internal_order. pose proof (order_flip _ _ Ha Hb). pose proof (order_flip _ _ Hb Ha).
  repeat match goal with |- context [?x =? 0] => destruct (Z.eqb_spec x 0) end;
    repeat match goal with |- context [?x <? ?y] => destruct (Z.ltb_spec x y) end; lia.
Qed.
Next Obligation. apply internal_order_trans. Qed.
Next Obligation.
  intros start limit Hs Hl. destruct (FindShortestSeparator_ok _ _ (proj2 Hs) (proj2 Hl)) as (tmp & E & Hok & Hsz & Hsep).
  unfold FindShortestSeparator at 1, InternalKeyComparator, internal_FindShortestSeparator. rewrite !ExtractUserKey_ok by done. cbn [mbind option_bind]. rewrite E. cbn [mbind option_bind].
  destruct (tack_on_ok start tmp Hs Hok) as (s & -> & H1 & H2 & H3). exists s. split; [done|]. split; [done|]. split; [done|].
  destruct H3 as [->|(Hlt & Hshort & Hx)]; [by left|]. right.
  destruct Hsep as [->|[_ Hsl]]; [lia|]. split; [apply Z.lt_le_incl|]; apply internal_order_lt; by rewrite Hx.
Qed.
Next Obligation.
  intros key Hk. destruct (FindShortSuccessor_ok _ (proj2 Hk)) as (tmp & E & Hok & Hsz & Hle).
  unfold FindShortSuccessor at 1, InternalKeyComparator, internal_FindShortSuccessor. rewrite ExtractUserKey_ok by done. cbn [mbind option_bind]. rewrite E. cbn [mbind option_bind].
  destruct (tack_on_ok key tmp Hk Hok) as (s & -> & H1 & H2 & H3). exists s. split; [done|]. split; [done|]. split; [done|].
  destruct H3 as [->|(Hlt & _ & Hx)].
  - apply Z.eq_le_incl. unfold internal_order. rewrite order_refl by apply Hk. cbn. by rewrite Z.ltb_irrefl.
  - apply Z.lt_le_incl, internal_order_lt. by rewrite Hx.
Qed.
End Internal.

(** [InternalFilterPolicy] keeps the promise of its user's policy. *)
#[export, program] Instance internal_filter_laws (P : FilterPolicy) (L : FilterPolicyLaws P) : FilterPolicyLaws (InternalFilterPolicy P) := {|
  filter_keys_ok keys := filter_keys_ok (map user_part keys)
|}.
Next Obligation. intros P L keys dst. apply (@CreateFilter_appends P L). Qed.
Next Obligation.
  intros P L keys key Hok Hin. apply (@KeyMayMatch_created P L (map user_part keys)); [done|].
  apply list_elem_of_In. apply in_map. by apply list_elem_of_In.
Qed.

(** ** Chains in the order of a comparator *)

Section Order.
Context {C : Comparator} {L : ComparatorLaws C}.

Lemma order_le_lt_trans a b c : key_ok a -> key_ok b -> key_ok c -> order a b <= 0 -> order b c < 0 -> order a c < 0.
Proof.
  intros Ha Hb Hc H1 H2. pose proof (order_trans _ _ _ Ha Hb Hc). pose proof (order_trans _ _ _ Hc Ha Hb). pose proof (order_flip _ _ Ha Hc).
  pose proof (order_flip _ _ Hc Ha). pose proof (order_flip _ _ Hb Hc). pose proof (order_flip _ _ Hc Hb). lia.
Qed.

Lemma order_lt_trans a b c : key_ok a -> key_ok b -> key_ok c -> order a b < 0 -> order b c < 0 -> order a c < 0.
Proof. intros Ha Hb Hc H1 H2. apply (order_le_lt_trans a b c); lia || done. Qed.

Lemma order_lt_le_trans a b c : key_ok a -> key_ok b -> key_ok c -> order a b < 0 -> order b c <= 0 -> order a c < 0.
Proof.
  intros Ha Hb Hc H1 H2. pose proof (order_trans _ _ _ Ha Hb Hc). pose proof (order_trans _ _ _ Hb Hc Ha). pose proof (order_flip _ _ Ha Hc).
  pose proof (order_flip _ _ Hc Ha). pose proof (order_flip _ _ Ha Hb). pose proof (order_flip _ _ Hb Ha). lia.
Qed.

(** What comes after a key that is not before [target] is not before it. *)
Lemma order_past target a b : key_ok a -> key_ok b -> key_ok target -> 0 <= order a target -> order a b < 0 -> 0 <= order b target.
Proof.
  intros Ha Hb Ht H1 H2. destruct (Z.le_gt_cases 0 (order b target)) as [|Hgt]; [done|].
  pose proof (order_lt_trans a b target Ha Hb Ht H2 ltac:(lia)). lia.
Qed.
End Order.
