(* ===== verification/LdbSkipList.v ===== *)
(** [util/random.h] and [db/skiplist.h]: the random numbers and the skip list that
    is the table of a memtable. *)

From Stdlib Require Import ZArith Lia List String Bool.
From stdpp Require Import base list.
From S2P Require Import Prelude.

(** ** [Random] *)

Definition new_Random (s : Z) : Z :=
  let seed := Z.land s 0x7fffffff in
  if (seed =? 0) || (seed =? 2147483647) then 1 else seed.

(** The new [seed_], which is also the result. *)
Definition random_Next (seed : Z) : Z :=
  let M := 2147483647 in
  let A := 16807 in
  let product := u64 (seed * A) in
  let seed := u32 (u64 (Z.shiftr product 31 + Z.land product M)) in
  if M <? seed then u32 (seed - M) else seed.

(** ** [SkipList] *)

Definition kMaxHeight : nat := 12.
Definition kBranching : Z := 4.

(** A [Node*]: the number of the allocation, in order; null is [None]. *)
Definition ptr : Type := option nat.

Section SkipList.
Context {Key : Type} (compare : Key -> Key -> option Z).

(** The head has no key. A link that was not set yet is [None]. *)
Record Node := mk_node { node_key : option Key; next_ : list (option ptr) }.

(** [nodes] is the memory of the arena. *)
Record SkipList := mk_skiplist { nodes : list Node; max_height_ : nat; rnd_ : Z }.

Definition head_ : nat := 0.

Definition get_next (s : SkipList) (x n : nat) : option ptr :=
  nd ← nodes s !! x; l ← next_ nd !! n; l.
Definition key_of (s : SkipList) (x : nat) : option Key := nd ← nodes s !! x; node_key nd.

Definition set_next (s : SkipList) (x n : nat) (p : ptr) : SkipList :=
  match nodes s !! x with
  | Some nd => mk_skiplist (<[x := mk_node (node_key nd) (<[n := Some p]> (next_ nd))]> (nodes s)) (max_height_ s) (rnd_ s)
  | None => s
  end.

(** [x->Next(n)] and [x->NoBarrier_Next(n)]; [x->SetNext(n, p)] and
    [x->NoBarrier_SetNext(n, p)]. *)
Definition Next (x n : nat) : M SkipList ptr := fun s =>
  match get_next s x n with Some p => (Ret p, s) | None => (Stuck, s) end.
Definition SetNext (x n : nat) (p : ptr) : M SkipList unit := fun s =>
  match nodes s !! x with
  | Some nd => if (n <? List.length (next_ nd))%nat then (Ret tt, set_next s x n p) else (Stuck, s)
  | None => (Stuck, s)
  end.
Definition the_key (x : nat) : M SkipList Key := fun s =>
  match key_of s x with Some k => (Ret k, s) | None => (Stuck, s) end.
Definition compare_ (a b : Key) : M SkipList Z :=
  match compare a b with Some r => ret r | None => stuck end.

Definition NewNode (key : option Key) (height : nat) : M SkipList nat := fun s =>
  (Ret (List.length (nodes s)),
   mk_skiplist (nodes s ++ [mk_node key (repeat None height)]) (max_height_ s) (rnd_ s)).

Definition GetMaxHeight : M SkipList nat := gets max_height_.
Definition set_max_height (h : nat) : M SkipList unit :=
  modify (fun s => mk_skiplist (nodes s) h (rnd_ s)).
Definition rnd_Next : M SkipList Z := fun s =>
  let r := random_Next (rnd_ s) in (Ret r, mk_skiplist (nodes s) (max_height_ s) r).

(** The loop, with room for [n] more levels. *)
Fixpoint random_height_loop (n : nat) (height : nat) : M SkipList nat :=
  match n with
  | O => ret height
  | S n' =>
      r <- rnd_Next ;;
      if r mod kBranching =? 0 then random_height_loop n' (S height) else ret height
  end.
Definition RandomHeight : M SkipList nat := random_height_loop (kMaxHeight - 1) 1.

Definition Equal (a b : Key) : M SkipList bool := c <- compare_ a b ;; ret (c =? 0).

Definition KeyIsAfterNode (key : Key) (n : ptr) : M SkipList bool :=
  match n with
  | None => ret false
  | Some n => k <- the_key n ;; c <- compare_ k key ;; ret (c <? 0)
  end.

(** The locals are [x], [level] and the array [prev]; a null [prev] is not written. *)
Definition find_step (key : Key) (use_prev : bool) (l : nat * nat * list (option nat)) :
    M SkipList (nat * nat * list (option nat) + ptr * list (option nat)) :=
  let '(x, level, prev) := l in
  next <- Next x level ;;
  after <- KeyIsAfterNode key next ;;
  match after, next with
  | true, Some n => ret (inl (n, level, prev))
  | _, _ =>
      let prev := if use_prev then <[level := Some x]> prev else prev in
      match level with
      | O => ret (inr (next, prev))
      | S level' => ret (inl (x, level', prev))
      end
  end.

Definition FindGreaterOrEqual (key : Key) (prev : option (list (option nat))) : M SkipList (ptr * list (option nat)) :=
  h <- GetMaxHeight ;;
  match prev with
  | Some prev => loop (find_step key true) (head_, (h - 1)%nat, prev)
  | None => loop (find_step key false) (head_, (h - 1)%nat, [])
  end.

Definition less_than_step (key : Key) (l : nat * nat) : M SkipList (nat * nat + nat) :=
  let '(x, level) := l in
  next <- Next x level ;;
  let down := match level with O => ret (inr x) | S level' => ret (inl (x, level')) end in
  match next with
  | None => down
  | Some n =>
      k <- the_key n ;;
      c <- compare_ k key ;;
      if 0 <=? c then down else ret (inl (n, level))
  end.

Definition FindLessThan (key : Key) : M SkipList nat :=
  h <- GetMaxHeight ;; loop (less_than_step key) (head_, (h - 1)%nat).

Definition last_step (l : nat * nat) : M SkipList (nat * nat + nat) :=
  let '(x, level) := l in
  next <- Next x level ;;
  match next with
  | None => match level with O => ret (inr x) | S level' => ret (inl (x, level')) end
  | Some n => ret (inl (n, level))
  end.

Definition FindLast : M SkipList nat :=
  h <- GetMaxHeight ;; loop last_step (head_, (h - 1)%nat).

(** The constructor. The loop sets every link of the head. *)
Definition new_SkipList : SkipList :=
  mk_skiplist [mk_node None (repeat (Some None) kMaxHeight)] 1 (new_Random 0xdeadbeef).

(** [for (int i = from; i < from + n; i++) prev[i] = head_;] *)
Fixpoint fill_prev (n from : nat) (prev : list (option nat)) : list (option nat) :=
  match n with O => prev | S n' => fill_prev n' (S from) (<[from := Some head_]> prev) end.

(** One round of the last loop of [Insert]: two stores. *)
Definition prev_at (prev : list (option nat)) (i : nat) : M SkipList nat :=
  match prev !! i with Some (Some p) => ret p | _ => stuck end.
Definition link_node (x : nat) (prev : list (option nat)) (i : nat) : M SkipList unit :=
  p <- prev_at prev i ;; n <- Next p i ;; SetNext x i n.
Definition link_prev (x : nat) (prev : list (option nat)) (i : nat) : M SkipList unit :=
  p <- prev_at prev i ;; SetNext p i (Some x).
Definition link_level (x : nat) (prev : list (option nat)) (i : nat) : M SkipList unit :=
  link_node x prev i ;; link_prev x prev i.

(** [for (int i = 0; i < n; i++)] *)
Fixpoint link_levels (x : nat) (prev : list (option nat)) (n : nat) : M SkipList unit :=
  match n with
  | O => ret tt
  | S n' => link_levels x prev n' ;; link_level x prev n'
  end.

(** Everything before that loop: the new node, its height, and [prev]. *)
Definition insert_node (key : Key) : M SkipList (nat * nat * list (option nat)) :=
  found <- FindGreaterOrEqual key (Some (repeat None kMaxHeight)) ;;
  let prev := snd found in
  height <- RandomHeight ;;
  h <- GetMaxHeight ;;
  prev <- (if (h <? height)%nat then
             set_max_height height ;; ret (fill_prev (height - h) h prev)
           else ret prev) ;;
  x <- NewNode (Some key) height ;;
  ret (x, height, prev).

(** Asserted: no key of the list is equal to [key]. *)
Definition Insert (key : Key) : M SkipList unit :=
  r <- insert_node key ;;
  let '(x, height, prev) := r in
  link_levels x prev height.

Definition Contains (key : Key) : M SkipList bool :=
  r <- FindGreaterOrEqual key None ;;
  match fst r with
  | None => ret false
  | Some x => k <- the_key x ;; Equal key k
  end.

(** ** [SkipList::Iterator]: its [node_] *)

Definition new_Iterator : ptr := None.
Definition iter_Valid (node : ptr) : bool := match node with Some _ => true | None => false end.
Definition iter_key (node : ptr) : M SkipList Key :=
  match node with Some x => the_key x | None => stuck end.
Definition iter_Next (node : ptr) : M SkipList ptr :=
  match node with Some x => Next x 0 | None => stuck end.
Definition node_or_null (x : nat) : ptr := if (x =? head_)%nat then None else Some x.
Definition iter_Prev (node : ptr) : M SkipList ptr :=
  k <- iter_key node ;; x <- FindLessThan k ;; ret (node_or_null x).
Definition iter_Seek (target : Key) : M SkipList ptr := r <- FindGreaterOrEqual target None ;; ret (fst r).
Definition iter_SeekToFirst : M SkipList ptr := Next head_ 0.
Definition iter_SeekToLast : M SkipList ptr := x <- FindLast ;; ret (node_or_null x).
End SkipList.

#[global] Arguments Node : clear implicits.
#[global] Arguments SkipList : clear implicits.


