(* ===== verification/LdbSkipProps.v ===== *)
(** The skip list is a sorted list: the invariant of its links, and the searches in
    a list that has it. The invariant holds between any two stores of [Insert], so
    that it serves readers that run while the list is written. *)

From Stdlib Require Import ZArith Lia List String Bool.
From stdpp Require Import base list sorting.
From S2P Require Import Prelude LdbSkipList.

(** What the list asks of its comparator: a total order on the keys it is given. *)
Class KeyOrder {Key} (compare : Key -> Key -> option Z) := {
  good : Key -> Prop;
  cmp : Key -> Key -> Z;
  compare_cmp a b : good a -> good b -> compare a b = Some (cmp a b);
  cmp_refl a : good a -> cmp a a = 0;
  cmp_flip a b : good a -> good b -> (cmp a b < 0 <-> 0 < cmp b a);
  cmp_trans a b c : good a -> good b -> good c -> cmp a b <= 0 -> cmp b c <= 0 -> cmp a c <= 0
}.

(** [fill_prev] and the other steps of [Insert] that touch no link. *)
Lemma lookup_fill_prev n : forall from prev i,
  (from + n <= List.length prev)%nat ->
  fill_prev n from prev !! i = if decide (from <= i < from + n)%nat then Some (Some head_) else prev !! i.
Proof.
  induction n as [|n IH]; intros from prev i Hlen; cbn [fill_prev].
  - case_decide; [lia|done].
  - rewrite IH by (rewrite length_insert; lia). repeat case_decide; try done; try lia.
    + assert (i = from) as -> by lia. rewrite list_lookup_insert_eq by lia; done.
    + by rewrite list_lookup_insert_ne by lia.
Qed.

Lemma length_fill_prev n : forall from prev, List.length (fill_prev n from prev) = List.length prev.
Proof. induction n as [|n IH]; intros from prev; cbn [fill_prev]; [done|]. by rewrite IH, length_insert. Qed.

Section Props.
Context {Key : Type} `{!Inhabited Key} (compare : Key -> Key -> option Z) {KO : KeyOrder compare}.

(** ** The invariant *)

(** The key of a node; the head has none, and is before every key. *)
Definition kv (s : SkipList Key) (n : nat) : Key := default inhabitant (key_of s n).

Definition klt (s : SkipList Key) (a b : nat) : Prop := cmp (kv s a) (kv s b) < 0.

(** The nodes of [l] are linked at the level [i], the last to null. *)
Fixpoint linked (s : SkipList Key) (i : nat) (l : list nat) : Prop :=
  match l with
  | [] => True
  | x :: l' => get_next s x i = Some (head l') /\ linked s i l'
  end.

(** [L i] are the nodes that are reached at the level [i]. *)
Record wf (s : SkipList Key) (L : nat -> list nat) : Prop := {
  wf_height : (1 <= max_height_ s <= kMaxHeight)%nat;
  wf_linked i : (i < kMaxHeight)%nat -> linked s i (head_ :: L i);
  wf_top i : (max_height_ s <= i)%nat -> L i = [];
  wf_sub i n : n ∈ L (S i) -> n ∈ L i;
  wf_keys n : n ∈ L 0%nat -> exists k, key_of s n = Some k /\ good k;
  wf_sorted i : StronglySorted (klt s) (L i);
  wf_head : key_of s head_ = None
}.

(** The keys of the list, in the order of the links. *)
Definition contents (s : SkipList Key) (L : nat -> list nat) : list Key := map (kv s) (L 0%nat).

Section Order.
Context (s : SkipList Key) (L : nat -> list nat) (Hwf : wf s L).

Lemma wf_sub_le i j n : (i <= j)%nat -> n ∈ L j -> n ∈ L i.
Proof. induction 1 as [|j Hle IH]; [done|]. intros Hn. apply IH. by apply (wf_sub _ _ Hwf). Qed.

Lemma wf_key i n : n ∈ L i -> key_of s n = Some (kv s n) /\ good (kv s n).
Proof.
  intros Hn. apply (wf_sub_le 0 i) in Hn; [|lia]. destruct (wf_keys _ _ Hwf n Hn) as (k & E & Hk).
  unfold kv. rewrite E. done.
Qed.

Lemma klt_trans a b c i j k : a ∈ L i -> b ∈ L j -> c ∈ L k -> klt s a b -> klt s b c -> klt s a c.
Proof.
  intros Ha Hb Hc. apply wf_key in Ha as [_ Ha], Hb as [_ Hb], Hc as [_ Hc]. unfold klt. intros H1 H2.
  pose proof (cmp_trans _ _ _ Ha Hb Hc). pose proof (cmp_trans _ _ _ Hc Ha Hb). pose proof (cmp_flip _ _ Ha Hc). pose proof (cmp_flip _ _ Hc Ha).
  pose proof (cmp_flip _ _ Hb Hc). lia.
Qed.

Lemma klt_irrefl a i : a ∈ L i -> ~ klt s a a.
Proof. intros Ha. apply wf_key in Ha as [_ Ha]. unfold klt. rewrite cmp_refl by done. lia. Qed.

(** A node is in front of a key. *)
Definition before (k : Key) (n : nat) : Prop := n = head_ \/ cmp (kv s n) k < 0.

Lemma head_not_in i : head_ ∉ L i.
Proof. intros Hn. apply wf_key in Hn as [Hn _]. by rewrite (wf_head _ _ Hwf) in Hn. Qed.

Lemma before_lt k a b i j : good k -> a ∈ L i -> b ∈ L j -> klt s a b -> cmp (kv s b) k < 0 -> cmp (kv s a) k < 0.
Proof.
  intros Hk Ha Hb. apply wf_key in Ha as [_ Ha], Hb as [_ Hb]. unfold klt. intros H1 H2.
  pose proof (cmp_trans _ _ _ Ha Hb Hk). pose proof (cmp_trans _ _ _ Hk Ha Hb). pose proof (cmp_flip _ _ Ha Hk). pose proof (cmp_flip _ _ Hk Ha).
  pose proof (cmp_flip _ _ Hb Hk). lia.
Qed.

(** ** Positions *)

(** The node [p] is at the level [i], and [a] follows it; and it is in front of [k]. *)
Definition at_node (i p : nat) (a : list nat) : Prop := exists b, head_ :: L i = b ++ p :: a.
Definition at_pos (i : nat) (k : Key) (p : nat) (a : list nat) : Prop := at_node i p a /\ before k p.

Lemma at_node_next i p a : (i < kMaxHeight)%nat -> at_node i p a -> get_next s p i = Some (head a).
Proof.
  intros Hi [b Hb]. pose proof (wf_linked _ _ Hwf i Hi) as Hl. rewrite Hb in Hl. clear Hb.
  induction b as [|y b IH]; [by destruct Hl|]. apply IH, Hl.
Qed.

Lemma at_pos_next i k p a : (i < kMaxHeight)%nat -> at_pos i k p a -> get_next s p i = Some (head a).
Proof. intros Hi [Hp _]. by apply at_node_next. Qed.

Lemma at_pos_head i k : at_pos i k head_ (L i).
Proof. split; [by exists []|by left]. Qed.

Lemma at_pos_in i k p a n : at_pos i k p a -> n ∈ a -> n ∈ L i.
Proof.
  intros [[b Hb] _] Hn. destruct b as [|y b]; cbn in Hb; injection Hb as _ ->; [done|].
  apply elem_of_app. right. by right.
Qed.

Lemma at_pos_after i k p n a : at_pos i k p (n :: a) -> cmp (kv s n) k < 0 -> at_pos i k n a.
Proof. intros [[b Hb] _] Hn. split; [exists (b ++ [p]); by rewrite <- app_assoc|by right]. Qed.

(** A node can be left for the level below. *)
Lemma at_pos_down i k p a : at_pos (S i) k p a -> exists a', at_pos i k p a'.
Proof.
  intros [[b Hb] Hp]. destruct (decide (p = head_)) as [->|Hne]; [exists (L i); apply at_pos_head|].
  destruct b as [|y b]; cbn in Hb; injection Hb as Hy Hb; [done|].
  assert (Hin : p ∈ L (S i)) by (rewrite Hb; apply elem_of_app; right; left).
  apply (wf_sub _ _ Hwf) in Hin. apply list_elem_of_split in Hin as (b' & a' & E).
  exists a'. split; [|done]. exists (head_ :: b'). by rewrite E.
Qed.

(** Where the search at a level ends: what follows is not in front of [k]. *)
Definition last_before (i : nat) (k : Key) (p : nat) (a : list nat) : Prop :=
  at_pos i k p a /\ match a with [] => True | n :: _ => 0 <= cmp (kv s n) k end.

(** Everything behind is not in front of [k] either, everything before is. *)
Lemma last_before_split i k p a : good k -> last_before i k p a ->
  exists b, L i = b ++ a /\ Forall (fun n => cmp (kv s n) k < 0) b /\ Forall (fun n => 0 <= cmp (kv s n) k) a /\
    p = List.last b head_.
Proof.
  intros Hk [[[b Hb] Hp] Ha]. pose proof (wf_sorted _ _ Hwf i) as Hs.
  assert (Ha' : Forall (fun n => 0 <= cmp (kv s n) k) a).
  { destruct a as [|n a]; [done|]. constructor; [done|]. apply Forall_forall. intros m Hm.
    assert (Hsplit : exists c, L i = c ++ n :: a).
    { destruct b as [|y b]; cbn in Hb; injection Hb as _ ->; [by exists []|exists (b ++ [p]); by rewrite <- app_assoc]. }
    destruct Hsplit as [c Ec]. rewrite Ec in Hs. apply StronglySorted_app_1_r in Hs. apply StronglySorted_inv in Hs as [_ Hs].
    rewrite Forall_forall in Hs. specialize (Hs m Hm). destruct (Z.le_gt_cases 0 (cmp (kv s m) k)) as [|Hlt]; [done|].
    assert (n ∈ L i /\ m ∈ L i) as [Hn' Hm'] by (rewrite Ec; split; apply elem_of_app; right; [left|by right]).
    pose proof (before_lt k n m i i Hk Hn' Hm' Hs Hlt). lia. }
  destruct b as [|y b]; cbn in Hb; injection Hb as Hy Hb.
  - subst p. exists []. rewrite Hb. by repeat split.
  - exists (b ++ [p]). rewrite Hb, <- app_assoc. split; [done|].
    split; [|split; [done|by rewrite last_last]].
    assert (Hp' : cmp (kv s p) k < 0).
    { destruct Hp as [->|Hp]; [|done]. exfalso. apply (head_not_in i). rewrite Hb. apply elem_of_app. right. left. }
    apply Forall_app. split; [|by constructor]. apply Forall_forall. intros m Hm. rewrite Hb in Hs.
    assert (m ∈ L i /\ p ∈ L i) as [Hm' Hp''] by (rewrite Hb; split; apply elem_of_app; [by left|right; left]).
    apply (before_lt k m p i i Hk Hm' Hp''); [|done].
    apply (StronglySorted_app_1_elem_of _ _ _ m p Hs); [done|left].
Qed.

(** ** The rank of a node: how many follow it at the lowest level *)

Fixpoint after (x : nat) (l : list nat) : list nat :=
  match l with [] => [] | y :: l' => if decide (y = x) then l' else after x l' end.

Lemma after_split x b a : x ∉ b -> after x (b ++ x :: a) = a.
Proof.
  induction b as [|y b IH]; intros Hx; cbn; [by rewrite decide_True|].
  apply not_elem_of_cons in Hx as [Hne Hx]. rewrite decide_False by done. by apply IH.
Qed.

Definition rank (x : nat) : Z := Z.of_nat (List.length (after x (head_ :: L 0%nat))).

Lemma rank_bound x : rank x <= Z.of_nat (List.length (L 0%nat)).
Proof.
  unfold rank. cbn. case_decide; [done|]. assert (Hl : forall l, (List.length (after x l) <= List.length l)%nat); [|pose proof (Hl (L 0%nat)); lia].
  induction l as [|y l IH]; cbn; [done|]. case_decide; lia.
Qed.

(** A node between others in sorted order is met once. *)
Lemma sorted_once b x a : StronglySorted (klt s) (b ++ x :: a) -> (forall n, n ∈ b ++ x :: a -> n ∈ L 0%nat) -> x ∉ b.
Proof.
  intros Hs Hin Hx. apply (klt_irrefl x 0).
  - apply Hin, elem_of_app. right. left.
  - apply (StronglySorted_app_1_elem_of _ _ _ x x Hs); [done|left].
Qed.

(** A later node has a lower rank. *)
Lemma rank_klt p n : n ∈ L 0%nat -> p = head_ \/ (p ∈ L 0%nat /\ klt s p n) -> rank n < rank p.
Proof.
  intros Hn Hp. pose proof (wf_sorted _ _ Hwf 0) as Hs0. pose proof (head_not_in 0) as Hh.
  assert (Hhn : head_ <> n) by (intros <-; done).
  unfold rank. cbn [after]. rewrite (decide_False (P := head_ = n)) by done.
  apply list_elem_of_split in Hn as (b0 & a0 & E0).
  assert (Hn0 : n ∉ b0) by (apply (sorted_once b0 n a0); rewrite <- E0; done).
  case_decide as Hhp; [rewrite E0, after_split by done; rewrite length_app; cbn; lia|].
  destruct Hp as [Hp|[Hp0 Hlt]]; [congruence|].
  assert (Hpb : p ∈ b0).
  { rewrite E0 in Hp0. apply elem_of_app in Hp0 as [|Hp0]; [done|]. exfalso. apply elem_of_cons in Hp0 as [->|Hp0].
    - apply (klt_irrefl n 0); [|done]. rewrite E0. apply elem_of_app. right. left.
    - assert (n ∈ L 0 /\ p ∈ L 0) as [Hn' Hp'] by (rewrite E0; split; apply elem_of_app; right; [left|by right]).
      apply (klt_irrefl n 0); [done|]. apply (klt_trans n p n 0 0 0); try done.
      rewrite E0 in Hs0. apply StronglySorted_app_1_r, StronglySorted_inv in Hs0 as [_ Hs0]. rewrite Forall_forall in Hs0. by apply Hs0. }
  apply list_elem_of_split in Hpb as (b1 & b2 & ->).
  assert (p ∉ b1).
  { apply (sorted_once b1 p (b2 ++ n :: a0)); rewrite app_comm_cons, app_assoc, <- E0; done. }
  rewrite E0, after_split by done. rewrite <- app_assoc. cbn [app]. rewrite after_split by done. rewrite length_app. cbn. lia.
Qed.

Lemma at_pos_klt i k p n a : at_pos i k p (n :: a) -> n ∈ L 0%nat /\ (p = head_ \/ (p ∈ L 0%nat /\ klt s p n)).
Proof.
  intros Hpos. pose proof (at_pos_in _ _ _ _ n Hpos ltac:(left)) as Hn. split; [apply (wf_sub_le 0 i); [lia|done]|].
  destruct Hpos as [[b Hb] _]. destruct b as [|y b]; cbn in Hb; injection Hb as Hy Hb; [by left|right].
  pose proof (wf_sorted _ _ Hwf i) as Hs. rewrite Hb in Hs. split.
  - apply (wf_sub_le 0 i); [lia|]. rewrite Hb. apply elem_of_app. right. left.
  - apply StronglySorted_app_1_r, StronglySorted_inv in Hs as [_ Hs]. rewrite Forall_forall in Hs. apply Hs. left.
Qed.

Lemma rank_lt i k p n a : at_pos i k p (n :: a) -> rank n < rank p.
Proof. intros Hpos. destruct (at_pos_klt _ _ _ _ _ Hpos). by apply rank_klt. Qed.


(** ** The search *)

Lemma wp_Next x n p (Q : ptr -> SkipList Key -> Prop) E : get_next s x n = Some p -> Q p s -> wp (Next x n) Q E s.
Proof. intros Hx HQ. unfold wp, Next. by rewrite Hx. Qed.

Lemma wp_the_key i n (Q : Key -> SkipList Key -> Prop) E : n ∈ L i -> Q (kv s n) s -> wp (the_key n) Q E s.
Proof. intros Hn HQ. unfold wp, the_key. by rewrite (proj1 (wf_key i n Hn)). Qed.

Lemma wp_compare a b (Q : Z -> SkipList Key -> Prop) E : good a -> good b -> Q (cmp a b) s -> wp (compare_ compare a b) Q E s.
Proof. intros Ha Hb HQ. unfold compare_. rewrite compare_cmp by done. exact HQ. Qed.

Lemma wp_KeyIsAfterNode i k p a (Q : bool -> SkipList Key -> Prop) E :
  good k -> at_pos i k p a ->
  Q (match a with [] => false | n :: _ => cmp (kv s n) k <? 0 end) s ->
  wp (KeyIsAfterNode compare k (head a)) Q E s.
Proof.
  intros Hk Hp HQ. unfold KeyIsAfterNode. destruct a as [|n a]; cbn [head]; [exact HQ|].
  pose proof (at_pos_in _ _ _ _ n Hp ltac:(left)) as Hn. apply wp_bind, (wp_the_key i n); [done|].
  apply wp_bind, wp_compare; [by apply (wf_key i)|done|]. exact HQ.
Qed.

(** What [prev] holds above a level. *)
Definition prev_ok (k : Key) (level : nat) (prev : list (option nat)) : Prop :=
  List.length prev = kMaxHeight /\
  forall i, (level <= i < max_height_ s)%nat -> exists p a, prev !! i = Some (Some p) /\ last_before i k p a.

Definition searching (k : Key) (use_prev : bool) (l : nat * nat * list (option nat)) : Prop :=
  let '(x, level, prev) := l in
  (level < kMaxHeight)%nat /\ (exists a, at_pos level k x a) /\
  (use_prev = true -> (level < max_height_ s)%nat /\ prev_ok k (S level) prev).

Definition search_left (l : nat * nat * list (option nat)) : Z :=
  let '(x, level, _) := l in rank x + Z.of_nat level.

(** One step goes down, or forward to a later node. *)
Definition advances (l l' : nat * nat * list (option nat)) : Prop :=
  let '(x, level, _) := l in let '(y, level', _) := l' in
  (y = x /\ (level' < level)%nat) \/
  (level' = level /\ y ∈ L 0%nat /\ (x = head_ \/ (x ∈ L 0%nat /\ klt s x y))).

Lemma advances_less l l' : advances l l' -> search_left l' < search_left l.
Proof.
  destruct l as [[x level] prev], l' as [[y level'] prev']. intros [[-> Hl]|(-> & Hy & Hx)]; cbn; [lia|].
  pose proof (rank_klt x y Hy Hx). lia.
Qed.

(** The answer: the first node that is not in front of [k]. *)
Definition found (k : Key) (use_prev : bool) (r : ptr * list (option nat)) : Prop :=
  (exists p a, last_before 0 k p a /\ fst r = head a) /\ (use_prev = true -> prev_ok k 0 (snd r)).

Lemma prev_ok_set k level p a prev :
  (level < kMaxHeight)%nat -> last_before level k p a -> prev_ok k (S level) prev ->
  prev_ok k level (<[level := Some p]> prev).
Proof.
  intros Hlevel Hlast [Hlen Hprev]. split; [by rewrite length_insert|]. intros i Hi.
  destruct (decide (i = level)) as [->|Hne].
  - exists p, a. split; [|done]. apply list_lookup_insert_eq. lia.
  - destruct (Hprev i ltac:(lia)) as (q & c & Hq & Hc). exists q, c. by rewrite list_lookup_insert_ne.
Qed.

Lemma find_step_ok k use_prev l : good k -> searching k use_prev l ->
  wp (find_step compare k use_prev l) (fun r t => t = s /\
    match r with
    | inl l' => searching k use_prev l' /\ advances l l'
    | inr r => found k use_prev r
    end) (fun _ => False) s.
Proof.
  intros Hk. destruct l as [[x level] prev]. intros (Hlevel & [a Ha] & Hprev). unfold find_step.
  apply wp_bind, (wp_Next _ _ (head a)); [by apply (at_pos_next _ k)|].
  apply wp_bind, (wp_KeyIsAfterNode level _ x); [done|done|].
  assert (Hdown : match a with [] => True | n :: _ => 0 <= cmp (kv s n) k end ->
    let prev := if use_prev then <[level := Some x]> prev else prev in
    wp match level with O => ret (inr (head a, prev)) | S level' => ret (inl (x, level', prev)) end
      (fun r t => t = s /\ match r with
        | inl l' => searching k use_prev l' /\ advances (x, level, prev) l'
        | inr r => found k use_prev r
        end) (fun _ => False) s).
  { intros Hstop prev'. assert (Hlast : last_before level k x a) by done.
    assert (Hprev' : use_prev = true -> (level < max_height_ s)%nat /\ prev_ok k level prev').
    { intros Hu. destruct (Hprev Hu) as [Hmax Hok]. split; [done|]. unfold prev'. rewrite Hu. by apply (prev_ok_set _ _ _ a). }
    destruct level as [|level]; (split; [done|]).
    - split; [by exists x, a|]. intros Hu. by apply Hprev'.
    - split; [|left; lia]. split; [lia|]. split; [by apply (at_pos_down _ _ _ a)|]. intros Hu. destruct (Hprev' Hu). split; [lia|done]. }
  destruct a as [|n a]; [by apply Hdown|]. destruct (Z.ltb_spec (cmp (kv s n) k) 0) as [Hn|Hn]; [|apply Hdown; lia].
  split; [done|]. split.
  - split; [done|]. split; [exists a; by apply (at_pos_after _ _ x)|done].
  - right. split; [done|]. by apply (at_pos_klt level k _ _ a).
Qed.

Context (Hsize : Z.of_nat (List.length (L 0%nat)) < 2 ^ 64).

Lemma FindGreaterOrEqual_ok k prev : good k ->
  match prev with Some prev => List.length prev = kMaxHeight | None => True end ->
  exists r, FindGreaterOrEqual compare k prev s = (Ret r, s) /\
    found k (match prev with Some _ => true | None => false end) r.
Proof.
  intros Hk Hlen. pose proof (wf_height _ _ Hwf) as Hh.
  assert (Hloop : forall use_prev prev, (use_prev = true -> List.length prev = kMaxHeight) ->
    exists r, loop (find_step compare k use_prev) (head_, (max_height_ s - 1)%nat, prev) s = (Ret r, s) /\ found k use_prev r).
  { intros u pv Hpv.
    destruct (wp_Ret (loop (find_step compare k u) (head_, (max_height_ s - 1)%nat, pv)) s
      (fun r t => t = s /\ found k u r)) as (r & t & E & -> & Hf); [|by exists r].
    apply (wp_loop _ (fun l t => t = s /\ searching k u l) (fun l _ => search_left l)).
    - intros l t [-> Hl]. split; [destruct l as [[x level] ?]; cbn; unfold rank; lia|].
      eapply wp_mono; [by apply find_step_ok| |done]. intros [l'|r] t [-> H]; [|done]. destruct H as [H Hadv]. split; [done|by apply advances_less].
    - split; [done|]. split; [lia|]. split; [exists (L (max_height_ s - 1)%nat); apply at_pos_head|].
      intros Hu. split; [lia|]. split; [by apply Hpv|lia].
    - cbn. pose proof (rank_bound head_). unfold kMaxHeight in *. lia. }
  unfold FindGreaterOrEqual, GetMaxHeight. rewrite bind_gets. destruct prev as [prev|]; by apply Hloop.
Qed.

(** ** The other searches *)

Lemma FindLessThan_ok k : good k ->
  exists p a, FindLessThan compare k s = (Ret p, s) /\ last_before 0 k p a.
Proof.
  intros Hk. pose proof (wf_height _ _ Hwf) as Hh. unfold FindLessThan, GetMaxHeight. rewrite bind_gets.
  destruct (wp_Ret (loop (less_than_step compare k) (head_, (max_height_ s - 1)%nat)) s
    (fun r t => t = s /\ exists a, last_before 0 k r a)) as (r & t & E & -> & a & Ha); [|by exists r, a].
  apply (wp_loop _ (fun l t => t = s /\ (snd l < kMaxHeight)%nat /\ exists a, at_pos (snd l) k (fst l) a)
    (fun l _ => rank (fst l) + Z.of_nat (snd l))).
  - intros [x level] t (-> & Hlevel & a & Ha). cbn [fst snd] in *. split; [unfold rank; lia|].
    unfold less_than_step. apply wp_bind, (wp_Next _ _ (head a)); [by apply (at_pos_next _ k)|].
    assert (Hdown : match a with [] => True | n :: _ => 0 <= cmp (kv s n) k end ->
      wp match level with O => ret (inr x) | S level' => ret (inl (x, level')) end
        (fun r t => match r with
          | inl l' => (t = s /\ (snd l' < kMaxHeight)%nat /\ exists a, at_pos (snd l') k (fst l') a) /\
              rank (fst l') + Z.of_nat (snd l') < rank x + Z.of_nat level
          | inr p => t = s /\ exists a, last_before 0 k p a
          end) (fun _ => False) s).
    { intros Hstop. destruct level as [|level]; cbn; [split; [done|]; by exists a|].
      split; [|lia]. split; [done|]. split; [lia|]. by apply (at_pos_down _ _ _ a). }
    destruct a as [|n a]; cbn [head]; [by apply Hdown|].
    pose proof (at_pos_in _ _ _ _ n Ha ltac:(left)) as Hn.
    apply wp_bind, (wp_the_key level n); [done|]. apply wp_bind, wp_compare; [by apply (wf_key level)|done|].
    destruct (Z.leb_spec 0 (cmp (kv s n) k)) as [Hge|Hlt]; [by apply Hdown|]. split; cbn.
    + split; [done|]. split; [done|]. exists a. by apply (at_pos_after _ _ x).
    + pose proof (rank_lt _ _ _ _ _ Ha). lia.
  - split; [done|]. cbn. split; [lia|]. exists (L (max_height_ s - 1)%nat). apply at_pos_head.
  - cbn. pose proof (rank_bound head_). unfold kMaxHeight in *. lia.
Qed.

Lemma FindLast_ok : FindLast s = (Ret (List.last (L 0%nat) head_), s).
Proof.
  pose proof (wf_height _ _ Hwf) as Hh. unfold FindLast, GetMaxHeight. rewrite bind_gets.
  apply wp_eq.
  apply (wp_loop _ (fun l t => t = s /\ (snd l < kMaxHeight)%nat /\ exists a, at_node (snd l) (fst l) a)
    (fun l _ => rank (fst l) + Z.of_nat (snd l))).
  - intros [x level] t (-> & Hlevel & a & Ha). cbn [fst snd] in *. split; [unfold rank; lia|].
    unfold last_step. apply wp_bind, (wp_Next _ _ (head a)); [by apply at_node_next|].
    destruct a as [|n a]; cbn [head].
    + destruct level as [|level]; cbn.
      * split; [|done]. destruct Ha as [b Hb]. change (x = List.last (L 0%nat) head_).
        destruct b as [|y b]; cbn in Hb; injection Hb as Hy Hb; [by rewrite Hb, Hy|].
        rewrite Hb, last_last. done.
      * split; [|lia]. split; [done|]. split; [lia|]. destruct Ha as [b Hb].
        destruct b as [|y b]; cbn in Hb; injection Hb as Hy Hb; [exists (L level), []; by rewrite Hy|].
        assert (Hin : x ∈ L (S level)) by (rewrite Hb; apply elem_of_app; right; left).
        apply (wf_sub _ _ Hwf) in Hin. apply list_elem_of_split in Hin as (b' & a' & E).
        exists a', (head_ :: b'). by rewrite E.
    + split; [|cbn]; [split; [done|]; split; [done|]; destruct Ha as [b Hb]; exists a, (b ++ [x]); by rewrite <- app_assoc|].
      destruct Ha as [b Hb]. assert (Hn : n ∈ L level).
      { destruct b as [|y b]; cbn in Hb; injection Hb as _ ->; [left|]. apply elem_of_app. right. right. left. }
      assert (rank n < rank x); [|lia]. apply (rank_lt level (kv s n) x n a). split; [by exists b|].
      destruct b as [|y b]; cbn in Hb; injection Hb as Hy Hb; [by left|]. right.
      pose proof (wf_sorted _ _ Hwf level) as Hs. rewrite Hb in Hs. apply StronglySorted_app_1_r, StronglySorted_inv in Hs as [_ Hs].
      rewrite Forall_forall in Hs. apply Hs. left.
  - split; [done|]. cbn. split; [lia|]. by exists (L (max_height_ s - 1)%nat), [].
  - cbn. pose proof (rank_bound head_). unfold kMaxHeight in *. lia.
Qed.
End Order.
End Props.
