(* ===== verification/LdbSkipStates.v ===== *)
(** [SkipList::Insert], store by store: between any two stores the list has its
    invariant, and only one of them changes what it contains.

    The skip list while keys are inserted: every state between two stores of
    [Insert] has the invariant, and readers find their way from one to the next. *)

From Stdlib Require Import ZArith Lia List String Bool.
From stdpp Require Import base list sorting.
From S2P Require Import Prelude LdbSkipList LdbSkipProps.

Lemma StronglySorted_mono {A} (R R' : A -> A -> Prop) l :
  (forall x y, R x y -> R' x y) -> StronglySorted R l -> StronglySorted R' l.
Proof.
  intros HR. induction 1 as [|x l Hl IH Hx]; constructor; [done|]. eapply Forall_impl; [exact Hx|apply HR].
Qed.

Section Insert.
Context {Key : Type} `{!Inhabited Key} (compare : Key -> Key -> option Z) {KO : KeyOrder compare}.

(** ** Stores *)

Lemma get_next_set s x n p y m : get_next (set_next (Key := Key) s x n p) y m =
  if decide (x = y /\ n = m) then (match nodes s !! x with
                                   | Some nd => if decide (n < List.length (next_ nd))%nat then Some p else None
                                   | None => None
                                   end) else get_next s y m.
Proof.
  unfold get_next, set_next. destruct (nodes s !! x) as [nd|] eqn:Hx; cbn [nodes].
  - destruct (decide (x = y)) as [<-|Hne].
    + rewrite list_lookup_insert_eq by (by eapply lookup_lt_Some). rewrite Hx. cbn [mbind option_bind next_].
      destruct (decide (n = m)) as [<-|Hm].
      * rewrite decide_True by done. case_decide as Hn.
        -- by rewrite list_lookup_insert_eq by done.
        -- rewrite lookup_ge_None_2; [done|]. rewrite length_insert. lia.
      * rewrite decide_False by (by intros [_ ?]). by rewrite list_lookup_insert_ne.
    + rewrite decide_False by (by intros [? _]). by rewrite list_lookup_insert_ne.
  - case_decide as H; [|done]. destruct H as [<- <-]. by rewrite Hx.
Qed.

Lemma key_of_set s x n p y : key_of (set_next (Key := Key) s x n p) y = key_of s y.
Proof.
  unfold key_of, set_next. destruct (nodes s !! x) as [nd|] eqn:Hx; [|done]. cbn [nodes].
  destruct (decide (x = y)) as [<-|Hne]; [|by rewrite list_lookup_insert_ne].
  rewrite list_lookup_insert_eq by (by eapply lookup_lt_Some). by rewrite Hx.
Qed.

(** A node that is linked at a level has a link there, which can be set. *)
Lemma SetNext_ok s x n p : is_Some (get_next s x n) -> SetNext x n p s = (Ret tt, set_next (Key := Key) s x n p).
Proof.
  unfold get_next, SetNext. intros [q Hq]. destruct (nodes s !! x) as [nd|]; [|done]. cbn in Hq.
  destruct (next_ nd !! n) as [l|] eqn:Hl; [|done]. apply lookup_lt_Some in Hl.
  destruct (Nat.ltb_spec n (List.length (next_ nd))); [done|lia].
Qed.

(** ** What the stores keep *)

(** Readers of [s] find their way in [t]. *)
Record extends (s : SkipList Key) (L : nat -> list nat) (t : SkipList Key) (L' : nat -> list nat) : Prop := {
  ext_nodes i n : n ∈ L i -> n ∈ L' i;
  ext_keys n : n ∈ L 0%nat -> key_of t n = key_of s n
}.

Lemma extends_refl s L : extends s L s L.
Proof. by split. Qed.

Lemma extends_trans s L t L' u L'' : extends s L t L' -> extends t L' u L'' -> extends s L u L''.
Proof.
  intros [H1 H2] [H3 H4]. split; [by eauto|]. intros n Hn. rewrite H4 by eauto. by apply H2.
Qed.

Lemma kv_eq (s t : SkipList Key) n : key_of t n = key_of s n -> kv t n = kv s n.
Proof. unfold kv. by intros ->. Qed.

(** A store that touches no linked link. *)
Lemma wf_frame s t L :
  wf compare s L -> (max_height_ s <= max_height_ t <= kMaxHeight)%nat ->
  (forall n, n = head_ \/ n ∈ L 0%nat -> key_of t n = key_of s n) ->
  (forall i n, n ∈ head_ :: L i -> get_next t n i = get_next s n i) ->
  wf compare t L /\ extends s L t L /\ contents t L = contents s L.
Proof.
  intros Hwf Hmax Hkey Hnext. split; [|split].
  - destruct Hwf as [H1 H2 H3 H4 H5 H6 H7]. split; try done.
    + lia.
    + intros i Hi. specialize (H2 i Hi). specialize (Hnext i). revert H2 Hnext. generalize (head_ :: L i).
      induction l as [|x l IH]; [done|]. intros [Hx Hl] Hn. split; [rewrite Hn by left; done|]. apply IH; [done|].
      intros n Hin. apply Hn. by right.
    + intros i Hi. apply H3. lia.
    + intros n Hn. destruct (H5 n Hn) as (k & Hk & Hg). exists k. rewrite Hkey by (by right). done.
    + intros i. specialize (H6 i). assert (Hin : forall n, n ∈ L i -> kv t n = kv s n).
      { intros n Hn. apply kv_eq, Hkey. right. clear - H4 Hn. induction i as [|i IH]; [done|]. apply IH, H4, Hn. }
      revert H6 Hin. generalize (L i). induction l as [|x l IH]; [constructor|]. intros Hs Hin.
      apply StronglySorted_inv in Hs as [Hs Hx]. constructor; [apply IH; [done|]; intros n Hn; apply Hin; by right|].
      rewrite Forall_forall in Hx |- *. intros y Hy. unfold klt. rewrite !Hin by (by left || by right). by apply Hx.
    + rewrite Hkey by (by left). done.
  - split; [done|]. intros n Hn. apply Hkey. by right.
  - unfold contents. apply map_ext_in. intros n Hn. apply kv_eq, Hkey. right. by apply list_elem_of_In.
Qed.

(** ** The heights *)

Lemma random_height_loop_ok n : forall h (s : SkipList Key), exists h' r,
  random_height_loop n h s = (Ret h', mk_skiplist (nodes s) (max_height_ s) r) /\ (h <= h' <= h + n)%nat.
Proof.
  induction n as [|n IH]; intros h s; cbn [random_height_loop].
  - exists h, (rnd_ s). destruct s. split; [done|lia].
  - unfold bind, rnd_Next. cbn. destruct (_ =? 0).
    + destruct (IH (S h) (mk_skiplist (nodes s) (max_height_ s) (random_Next (rnd_ s)))) as (h' & r & E & Hh').
      exists h', r. split; [exact E|lia].
    + exists h, (random_Next (rnd_ s)). split; [done|lia].
Qed.

Lemma RandomHeight_ok (s : SkipList Key) : exists h r,
  RandomHeight s = (Ret h, mk_skiplist (nodes s) (max_height_ s) r) /\ (1 <= h <= kMaxHeight)%nat.
Proof.
  destruct (random_height_loop_ok (kMaxHeight - 1) 1 s) as (h & r & E & Hh). exists h, r. split; [exact E|].
  unfold kMaxHeight in *. lia.
Qed.

(** ** The loop over the levels *)

(** Below the level [i] the node [x] is linked, from there on [prev] tells where it
    goes. *)
Record linking (s : SkipList Key) (L : nat -> list nat) (key : Key) (x height : nat) (prev : list (option nat)) (i : nat) : Prop := {
  lk_wf : wf compare s L;
  lk_key : key_of s x = Some key;
  lk_good : good key;
  lk_height : (i <= height <= max_height_ s)%nat;
  lk_node : exists nd, nodes s !! x = Some nd /\ List.length (next_ nd) = height;
  lk_below j : (j < i)%nat -> x ∈ L j;
  lk_above j n : (i <= j)%nat -> n ∈ L j -> n <> x;
  lk_prev j : (i <= j < height)%nat -> exists p a, prev !! j = Some (Some p) /\ last_before compare s L j key p a;
  lk_new n : n ∈ L 0%nat -> n <> x -> cmp (kv s n) key <> 0
}.

(** Positions do not depend on stores elsewhere. *)
Lemma last_before_frame s t L L' i key p a :
  wf compare s L -> L' i = L i -> (forall n, n ∈ L i -> key_of t n = key_of s n) ->
  last_before compare s L i key p a -> last_before compare t L' i key p a.
Proof.
  intros Hwf HL Hkey [[[b Hb] Hp] Ha].
  assert (Hin : forall n, n ∈ L i -> kv t n = kv s n) by (intros n Hn; by apply kv_eq, Hkey).
  split; [split; [exists b; by rewrite HL|]|].
  - destruct Hp as [->|Hp]; [by left|]. destruct b as [|y b]; cbn in Hb; injection Hb as Hy Hb; [by left|].
    right. rewrite Hin; [done|]. rewrite Hb. apply elem_of_app. right. left.
  - destruct a as [|n a]; [done|]. rewrite Hin; [done|].
    destruct b as [|y b]; cbn in Hb; injection Hb as _ ->; [left|]. apply elem_of_app. right. right. left.
Qed.

Lemma head_not_new s L key x height prev i : linking s L key x height prev i -> head_ <> x.
Proof. intros H <-. pose proof (lk_key _ _ _ _ _ _ _ H) as Hk. by rewrite (wf_head _ _ _ (lk_wf _ _ _ _ _ _ _ H)) in Hk. Qed.

(** The first store of a round: the link of the new node, which no reader sees. *)
Lemma link_node_ok s L key x height prev i :
  linking s L key x height prev i -> (i < height)%nat ->
  exists t, link_node x prev i s = (Ret tt, t) /\ linking t L key x height prev i /\
    extends s L t L /\ contents t L = contents s L /\ max_height_ t = max_height_ s /\
    (forall p a, prev !! i = Some (Some p) -> last_before compare s L i key p a -> get_next t x i = Some (head a)).
Proof.
  intros H Hi. pose proof (head_not_new _ _ _ _ _ _ _ H) as Hh. destruct H as [Hwf Hkey Hg Hht Hnd Hbelow Habove Hprev Hnew].
  destruct (Hprev i ltac:(lia)) as (p & a & Hp & Hlast). destruct Hnd as (nd & Hnd & Hlen).
  assert (Hmax : (i < kMaxHeight)%nat) by (pose proof (wf_height _ _ _ Hwf); lia).
  pose proof (at_pos_next compare s L Hwf i key p a Hmax (proj1 Hlast)) as Hnext.
  set (t := set_next s x i (head a)). exists t.
  assert (Ht : forall y, key_of t y = key_of s y) by (intros y; apply key_of_set).
  assert (Hmt : max_height_ t = max_height_ s) by (unfold t, set_next; by rewrite Hnd).
  destruct (wf_frame s t L Hwf) as (Hwf' & Hext & Hcont).
  { pose proof (wf_height _ _ _ Hwf). lia. }
  { intros n _. apply Ht. }
  { intros j n Hn. unfold t. rewrite get_next_set. rewrite decide_False; [done|]. intros [<- <-].
    apply elem_of_cons in Hn as [Hn|Hn]; [by apply Hh|]. by apply (Habove i x). }
  assert (Hset : SetNext x i (head a) s = (Ret tt, t)).
  { unfold SetNext. rewrite Hnd. destruct (Nat.ltb_spec i (List.length (next_ nd))); [done|lia]. }
  split; [|split; [|split; [done|split; [done|split; [done|]]]]].
  - unfold link_node, prev_at. rewrite Hp, bind_ret. unfold bind at 1, Next. rewrite Hnext. exact Hset.
  - assert (Hkv : forall y, kv t y = kv s y) by (intros y; by apply kv_eq).
    split; try done.
    + by rewrite Ht.
    + by rewrite Hmt.
    + unfold t, set_next. rewrite Hnd. cbn [nodes]. rewrite list_lookup_insert_eq by (by eapply lookup_lt_Some).
      eexists. split; [done|]. cbn. by rewrite length_insert.
    + intros j Hj. destruct (Hprev j Hj) as (q & c & Hq & Hc). exists q, c. split; [done|].
      by apply (last_before_frame s t L L).
    + intros n Hn Hne. rewrite Hkv. by apply Hnew.
  - intros p' a' Hp' [[[b' Hb'] _] _]. rewrite Hp in Hp'. injection Hp' as <-.
    unfold t. rewrite get_next_set, decide_True, Hnd, decide_True by (done || lia).
    pose proof (at_pos_next compare s L Hwf i key p a' Hmax) as Hn2. f_equal.
    assert (Hq : get_next s p i = Some (head a')).
    { destruct Hlast as [[_ Hbef] _]. apply Hn2. split; [by exists b'|done]. }
    rewrite Hnext in Hq. by injection Hq.
Qed.

(** ** The second store of a round: the node becomes part of the level *)

(** Where a key goes in a sorted list. *)
Fixpoint sorted_insert (key : Key) (l : list Key) : list Key :=
  match l with
  | [] => [key]
  | k :: l' => if cmp k key <? 0 then k :: sorted_insert key l' else key :: l
  end.

Lemma sorted_insert_app key b a :
  Forall (fun k => cmp k key < 0) b -> match a with [] => True | k :: _ => 0 <= cmp k key end ->
  sorted_insert key (b ++ a) = b ++ key :: a.
Proof.
  induction b as [|k b IH]; intros Hb Ha; cbn.
  - destruct a as [|k a]; cbn; [done|]. by destruct (Z.ltb_spec (cmp k key) 0); [lia|].
  - apply Forall_cons in Hb as [Hk Hb]. destruct (Z.ltb_spec (cmp k key) 0); [|lia]. f_equal. by apply IH.
Qed.

Lemma wf_NoDup s L i : wf compare s L -> NoDup (head_ :: L i).
Proof.
  intros Hwf. constructor; [by apply (head_not_in compare s L Hwf)|].
  pose proof (wf_sorted _ _ _ Hwf i) as Hs. assert (Hin : forall n, n ∈ L i -> n ∈ L 0%nat) by (intros n; apply (wf_sub_le compare s L Hwf); lia).
  revert Hs Hin. generalize (L i). induction l as [|x l IH]; intros Hs Hin; [constructor|].
  apply StronglySorted_inv in Hs as [Hs Hx]. constructor; [|apply IH; [done|]; intros n Hn; apply Hin; by right].
  intros Hxl. rewrite Forall_forall in Hx. apply (klt_irrefl compare s L Hwf x 0 (Hin x ltac:(left))). by apply Hx.
Qed.

Lemma linked_frame s p x i m l : p ∉ l -> linked (Key := Key) s i l -> linked (set_next s p m x) i l.
Proof.
  induction l as [|y l IH]; [done|]. intros Hp [Hy Hl]. apply not_elem_of_cons in Hp as [Hne Hp].
  split; [|by apply IH]. rewrite get_next_set, decide_False by (intros [? _]; congruence). done.
Qed.

Lemma linked_insert s i p x a c :
  NoDup (c ++ p :: a) -> x <> p -> get_next s x i = Some (head a) ->
  linked (Key := Key) s i (c ++ p :: a) -> linked (set_next s p i (Some x)) i (c ++ p :: x :: a).
Proof.
  intros Hnd Hne Hx Hl. apply NoDup_app in Hnd as (_ & Hcp & Hnd). apply NoDup_cons in Hnd as [Hpa _].
  assert (Hpc : p ∉ c) by (intros Hp; apply (Hcp p Hp); left). clear Hcp.
  induction c as [|y c IH]; cbn [app linked] in *.
  - destruct Hl as [Hp Hl]. repeat split.
    + rewrite get_next_set, decide_True by done. unfold get_next in Hp. destruct (nodes s !! p) as [nd|]; [|done]. cbn in Hp.
      destruct (next_ nd !! i) eqn:E; [|done]. apply lookup_lt_Some in E. by rewrite decide_True.
    + rewrite get_next_set, decide_False by (intros [? _]; congruence). done.
    + by apply linked_frame.
  - apply not_elem_of_cons in Hpc as [Hpy Hpc]. destruct Hl as [Hy Hl]. split; [|by apply IH].
    rewrite get_next_set, decide_False by (intros [? _]; congruence). rewrite Hy. destruct c; done.
Qed.

(** The level [i] with the node [x] in its place. *)
Definition with_node (L : nat -> list nat) (i x : nat) (b a : list nat) : nat -> list nat :=
  fun j => if decide (j = i) then b ++ x :: a else L j.

Lemma with_node_in L i x b a j n : L i = b ++ a -> (n ∈ with_node L i x b a j <-> n ∈ L j \/ (j = i /\ n = x)).
Proof.
  intros E. unfold with_node. case_decide as H; [subst j|tauto]. rewrite E, !elem_of_app, elem_of_cons. tauto.
Qed.

(** The new level is sorted. *)
Lemma with_node_sorted s L key x height prev i b a :
  linking s L key x height prev i -> L i = b ++ a ->
  Forall (fun n => cmp (kv s n) key < 0) b -> Forall (fun n => 0 <= cmp (kv s n) key) a ->
  StronglySorted (klt compare s) (b ++ x :: a).
Proof.
  intros H E Hb Ha. pose proof (wf_sorted _ _ _ (lk_wf _ _ _ _ _ _ _ H) i) as Hs. rewrite E in Hs.
  assert (Hx : kv s x = key) by (unfold kv; by rewrite (lk_key _ _ _ _ _ _ _ H)).
  rewrite Forall_forall in Hb, Ha.
  assert (Hax : forall n, n ∈ a -> klt compare s x n).
  { intros n Hn. assert (Hi : n ∈ L i) by (rewrite E; apply elem_of_app; by right).
    destruct (wf_key _ _ _ (lk_wf _ _ _ _ _ _ _ H) i n Hi) as [_ Hgn].
    pose proof (lk_new _ _ _ _ _ _ _ H n (wf_sub_le _ _ _ (lk_wf _ _ _ _ _ _ _ H) 0 i n ltac:(lia) Hi) (lk_above _ _ _ _ _ _ _ H i n ltac:(lia) Hi)).
    pose proof (Ha n Hn). unfold klt. rewrite Hx. pose proof (cmp_flip _ _ (lk_good _ _ _ _ _ _ _ H) Hgn). lia. }
  apply StronglySorted_app in Hs as (H1 & H2 & H3). apply StronglySorted_app. split; [|split; [done|]].
  - intros y z Hy Hz. apply elem_of_cons in Hz as [->|Hz]; [|by apply H1]. unfold klt. rewrite Hx. by apply Hb.
  - constructor; [done|]. rewrite Forall_forall. exact Hax.
Qed.

Lemma link_prev_ok s L key x height prev i :
  linking s L key x height prev i -> (i < height)%nat ->
  (forall p a, prev !! i = Some (Some p) -> last_before compare s L i key p a -> get_next s x i = Some (head a)) ->
  exists t L', link_prev x prev i s = (Ret tt, t) /\ linking t L' key x height prev (S i) /\ extends s L t L' /\
    contents t L' = (if decide (i = 0%nat) then sorted_insert key (contents s L) else contents s L) /\
    max_height_ t = max_height_ s /\ (forall y, key_of t y = key_of s y) /\
    (forall j n, n ∈ L' j -> n ∈ L j \/ n = x).
Proof.
  intros H Hi Hlink. pose proof (head_not_new _ _ _ _ _ _ _ H) as Hh. pose proof (lk_wf _ _ _ _ _ _ _ H) as Hwf.
  destruct (lk_prev _ _ _ _ _ _ _ H i ltac:(lia)) as (p & a & Hp & Hlast). specialize (Hlink p a Hp Hlast).
  assert (Hmax : (i < kMaxHeight)%nat) by (pose proof (wf_height _ _ _ Hwf); pose proof (lk_height _ _ _ _ _ _ _ H); lia).
  pose proof (at_pos_next compare s L Hwf i key p a Hmax (proj1 Hlast)) as Hnext.
  destruct (last_before_split compare s L Hwf i key p a (lk_good _ _ _ _ _ _ _ H) Hlast) as (b & E & Hb & Ha & _).
  pose proof (with_node_sorted _ _ _ _ _ _ _ b a H E Hb Ha) as Hsorted.
  assert (Hpx : x <> p).
  { destruct Hlast as [[[c Hc] _] _]. intros <-. assert (Hin : x ∈ head_ :: L i) by (rewrite Hc; apply elem_of_app; right; left).
    apply elem_of_cons in Hin as [Hin|Hin]; [by apply Hh|]. by apply (lk_above _ _ _ _ _ _ _ H i x ltac:(lia) Hin). }
  set (t := set_next s p i (Some x)). set (L' := with_node L i x b a). exists t, L'.
  assert (Hkey : forall y, key_of t y = key_of s y) by (intros y; apply key_of_set).
  assert (Hkv : forall y, kv t y = kv s y) by (intros y; by apply kv_eq).
  assert (Hmt : max_height_ t = max_height_ s) by (unfold t, set_next; by destruct (nodes s !! p)).
  assert (HL' : forall j n, n ∈ L' j <-> n ∈ L j \/ (j = i /\ n = x)) by (intros j n; by apply with_node_in).
  assert (Hwf' : wf compare t L').
  { destruct Hwf as [H1 H2 H3 H4 H5 H6 H7]. split.
    - by rewrite Hmt.
    - intros j Hj. unfold L', with_node. case_decide as Hji; [subst j|].
      + assert (Hc : exists c, head_ :: b = c ++ [p] ).
        { destruct Hlast as [[[c Hc] _] _]. exists c. rewrite E in Hc. apply (app_inv_tail a). cbn. by rewrite <- app_assoc. }
        destruct Hc as [c Hc]. rewrite app_comm_cons, Hc, <- app_assoc. cbn [app].
        assert (Hcl : head_ :: L i = c ++ p :: a) by (rewrite E, app_comm_cons, Hc, <- app_assoc; done).
        apply linked_insert; [rewrite <- Hcl; by apply (wf_NoDup s)|done|done|]. rewrite <- Hcl. by apply H2.
      + assert (Hl : forall l, linked s j l -> linked t j l); [|by apply Hl, H2].
        induction l as [|y l IH]; [done|]. intros [Hy Hl]. split; [|by apply IH].
        unfold t. rewrite get_next_set, decide_False by (intros [_ ?]; congruence). done.
    - intros j Hj. unfold L', with_node. rewrite decide_False; [apply H3; lia|]. pose proof (lk_height _ _ _ _ _ _ _ H). lia.
    - intros j n. rewrite !HL'. intros [Hn|[Hj ->]]; [left; by apply H4|]. left. apply (lk_below _ _ _ _ _ _ _ H). lia.
    - intros n. rewrite HL'. intros [Hn|[_ ->]]; rewrite Hkey; [by apply H5|]. exists key.
      split; [exact (lk_key _ _ _ _ _ _ _ H)|exact (lk_good _ _ _ _ _ _ _ H)].
    - intros j. unfold klt. assert (Hs : StronglySorted (klt compare s) (L' j)); [unfold L', with_node; case_decide; [done|apply H6]|].
      eapply StronglySorted_mono; [|exact Hs]. unfold klt. intros y z. by rewrite !Hkv.
    - by rewrite Hkey. }
  split; [|split; [|split; [|split; [|split; [done|split; [done|]]]]]].
  - unfold link_prev, prev_at. rewrite Hp, bind_ret. apply SetNext_ok. by rewrite Hnext.
  - destruct H as [Hw Hk Hg Hht Hnd Hbelow Habove Hprev Hnew]. split; try done.
    + by rewrite Hkey.
    + rewrite Hmt. lia.
    + destruct Hnd as (nd & Hnd & Hlen). unfold t, set_next. destruct (nodes s !! p) as [np|] eqn:Hnp; [|by exists nd].
      cbn [nodes]. exists nd. by rewrite list_lookup_insert_ne by done.
    + intros j Hj. rewrite HL'. destruct (decide (j = i)); [by right|left]. apply Hbelow. lia.
    + intros j n Hj. rewrite HL'. intros [Hn|[-> _]]; [|lia]. apply (Habove j); [lia|done].
    + intros j Hj. destruct (Hprev j ltac:(lia)) as (q & c & Hq & Hc). exists q, c. split; [done|].
      apply (last_before_frame s t L L'); try done. unfold L', with_node. by rewrite decide_False by lia.
    + intros n. rewrite HL', Hkv. intros [Hn|[_ ->]]; [by apply Hnew|done].
  - split; [|done]. intros j n Hn. rewrite HL'. by left.
  - unfold contents, L', with_node. case_decide as Hi0; case_decide as Hi0'; try (exfalso; congruence).
    + rewrite Hi0 in *. rewrite E, !map_app. cbn [map]. rewrite sorted_insert_app.
      * rewrite !(map_ext (kv t) (kv s)) by done. f_equal. f_equal. rewrite Hkv. unfold kv. by rewrite (lk_key _ _ _ _ _ _ _ H).
      * apply Forall_map. exact Hb.
      * destruct a; [done|]. by apply Forall_cons in Ha as [Ha _].
    + by rewrite (map_ext (kv t) (kv s)) by done.
  - intros j n. rewrite HL'. tauto.
Qed.
End Insert.

Section States.
Context {Key : Type} `{!Inhabited Key} (compare : Key -> Key -> option Z) {KO : KeyOrder compare}.

(** ** What a list contains, read from its links *)

Fixpoint follow (s : SkipList Key) (n : nat) (p : ptr) : list Key :=
  match n, p with
  | S n', Some x =>
      match key_of s x, get_next s x 0 with
      | Some k, Some q => k :: follow s n' q
      | _, _ => []
      end
  | _, _ => []
  end.

Definition elements (s : SkipList Key) : list Key :=
  match get_next s head_ 0 with Some p => follow s (List.length (nodes s)) p | None => [] end.

(** The key a pointer leads to. *)
Definition key_at (s : SkipList Key) (p : ptr) : option Key := x ← p; key_of s x.

(** The states between the stores of [Insert key], and the last one. *)
Definition insert_states (key : Key) (s : SkipList Key) : list (SkipList Key) :=
  match insert_node compare key s with
  | (Ret (x, height, prev), t) =>
      mk_skiplist (nodes s) (max_height_ t) (rnd_ t) :: t ::
      flat_map (fun i =>
        let u := snd (link_levels x prev i t) in
        [snd (link_node x prev i u); snd (link_level x prev i u)]) (seq 0 height)
  | _ => []
  end.

(** ** The lemmas *)

Lemma node_exists s L n : wf compare s L -> n = head_ \/ n ∈ L 0%nat -> (n < List.length (nodes s))%nat.
Proof.
  intros Hwf [->|Hn].
  - pose proof (at_pos_next compare s L Hwf 0 inhabitant head_ _ ltac:(unfold kMaxHeight; lia) (at_pos_head compare s L 0 inhabitant)) as H.
    unfold get_next in H. destruct (nodes s !! head_) eqn:E; [by eapply lookup_lt_Some|done].
  - destruct (wf_keys _ _ _ Hwf n Hn) as (k & Hk & _). unfold key_of in Hk.
    destruct (nodes s !! n) eqn:E; [by eapply lookup_lt_Some|done].
Qed.

Lemma length_nodes s L : wf compare s L -> (List.length (L 0%nat) < List.length (nodes s))%nat.
Proof.
  intros Hwf. pose proof (wf_NoDup compare s L 0 Hwf) as Hnd.
  assert (Hsub : (head_ :: L 0%nat) ⊆+ seq 0 (List.length (nodes s))).
  { apply NoDup_submseteq; [done|]. intros n Hn. apply list_elem_of_In, in_seq. split; [lia|].
    apply (node_exists s L); [done|]. by apply elem_of_cons in Hn. }
  apply submseteq_length in Hsub. rewrite length_seq in Hsub. cbn in Hsub. lia.
Qed.

Lemma follow_linked s L l : wf compare s L -> linked s 0 l -> (forall n, n ∈ l -> n ∈ L 0%nat) ->
  forall n, (List.length l <= n)%nat -> follow s n (head l) = map (kv s) l.
Proof.
  intros Hwf. induction l as [|x l IH]; intros Hl Hin n Hn; [by destruct n|].
  destruct n as [|n]; [cbn in Hn; lia|]. cbn [follow head]. destruct Hl as [Hx Hl].
  destruct (wf_key compare s L Hwf 0 x) as [Hk _]; [apply Hin; left|]. rewrite Hk, Hx. cbn [map].
  f_equal. apply IH; [done| |cbn in Hn; lia]. intros y Hy. apply Hin. by right.
Qed.

Lemma elements_contents s L : wf compare s L -> elements s = contents s L.
Proof.
  intros Hwf. destruct (wf_linked _ _ _ Hwf 0 ltac:(unfold kMaxHeight; lia)) as [Hh Hl]. unfold elements. rewrite Hh.
  apply (follow_linked s L); [done|done|done|]. pose proof (length_nodes s L Hwf). lia.
Qed.

(** A list of states, each of which readers can pass on to. *)
Inductive evolves (P : list Key -> Prop) : SkipList Key -> (nat -> list nat) -> list (SkipList Key) -> SkipList Key -> (nat -> list nat) -> Prop :=
  | evolves_nil s L : evolves P s L [] s L
  | evolves_cons s L t L' ts u L'' :
      wf compare t L' -> extends s L t L' -> P (contents t L') -> evolves P t L' ts u L'' ->
      evolves P s L (t :: ts) u L''.

Lemma evolves_app P s L ts t L' us u L'' :
  evolves P s L ts t L' -> evolves P t L' us u L'' -> evolves P s L (ts ++ us) u L''.
Proof. induction 1; intros Hu; [done|]. cbn. eapply evolves_cons; eauto. Qed.

Lemma evolves_extends P s L ts t L' : evolves P s L ts t L' -> extends s L t L'.
Proof.
  induction 1 as [|s L t L' ts u L'' Hwf Hext HP Hev IH]; [apply extends_refl|]. by eapply extends_trans.
Qed.

Lemma evolves_mono (P Q : list Key -> Prop) s L ts t L' : (forall l, P l -> Q l) -> evolves P s L ts t L' -> evolves Q s L ts t L'.
Proof. intros HPQ. induction 1; [constructor|]. eapply evolves_cons; eauto. Qed.

(** ** The new node *)

Lemma insert_node_ok s L key :
  wf compare s L -> good key -> (forall k, k ∈ contents s L -> cmp k key <> 0) ->
  Z.of_nat (List.length (L 0%nat)) < 2 ^ 64 ->
  exists x height prev t, insert_node compare key s = (Ret (x, height, prev), t) /\
    linking compare t L key x height prev 0 /\ contents t L = contents s L /\ (1 <= height)%nat /\
    evolves (eq (contents s L)) s L [mk_skiplist (nodes s) (max_height_ t) (rnd_ t); t] t L.
Proof.
  intros Hwf Hkey Hnew Hsize. unfold insert_node.
  destruct (FindGreaterOrEqual_ok compare s L Hwf Hsize key (Some (repeat None kMaxHeight)) Hkey eq_refl) as ([nx prev] & E & _ & Hprev).
  specialize (Hprev eq_refl). destruct Hprev as [Hlen Hprev]. cbn [snd] in Hlen, Hprev.
  erewrite bind_Ret by exact E. cbn [snd].
  destruct (RandomHeight_ok s) as (height & r & Eh & Hheight). erewrite bind_Ret by exact Eh.
  unfold GetMaxHeight at 1. rewrite bind_gets. cbn [max_height_].
  set (h := max_height_ s) in *. pose proof (wf_height _ _ _ Hwf) as Hmax. fold h in Hmax.
  set (h' := if (h <? height)%nat then height else h).
  set (prev' := if (h <? height)%nat then fill_prev (height - h) h prev else prev).
  set (x := List.length (nodes s)).
  set (t0 := mk_skiplist (nodes s) h' r). set (t := mk_skiplist (nodes s ++ [mk_node (Some key) (repeat None height)]) h' r).
  assert (Hh' : (h <= h' <= kMaxHeight)%nat /\ (height <= h')%nat) by (unfold h'; destruct (Nat.ltb_spec h height); lia).
  exists x, height, prev', t.
  assert (Hlook : forall n, n = head_ \/ n ∈ L 0%nat -> nodes t !! n = nodes s !! n).
  { intros n Hn. cbn. apply lookup_app_l. by apply (node_exists s L). }
  destruct (wf_frame compare s t0 L Hwf) as (Hwf0 & Hext0 & Hc0); [cbn; fold h; lia|done|done|].
  assert (Hkt : forall n, n = head_ \/ n ∈ L 0%nat -> key_of t n = key_of s n).
  { intros n Hn. unfold key_of. by rewrite Hlook. }
  assert (Hnt : forall i n, n ∈ head_ :: L i -> get_next t n i = get_next s n i).
  { intros i n Hn. unfold get_next. rewrite Hlook; [done|]. apply elem_of_cons in Hn as [Hn|Hn]; [by left|right].
    apply (wf_sub_le compare s L Hwf 0 i n); [lia|done]. }
  destruct (wf_frame compare s t L Hwf) as (Hwft & Hextt & Hct); [cbn; fold h; lia|exact Hkt|exact Hnt|].
  split; [|split; [|split; [done|split; [lia|]]]].
  - unfold h', t, prev', x. destruct (Nat.ltb_spec h height) as [Hlt|Hge].
    + unfold set_max_height. rewrite bind_assoc, bind_modify, bind_ret. done.
    + rewrite bind_ret. done.
  - split; try done.
    + unfold key_of. cbn. rewrite list_lookup_middle by done. done.
    + cbn. lia.
    + exists (mk_node (Some key) (repeat None height)). cbn. rewrite list_lookup_middle by done. cbn. by rewrite repeat_length.
    + intros j Hj. lia.
    + intros j n _ Hn ->. apply (wf_sub_le compare s L Hwf 0 j x) in Hn; [|lia].
      pose proof (node_exists s L x Hwf ltac:(by right)). unfold x in *. lia.
    + intros j Hj.
      assert (Hpos : exists p a, prev' !! j = Some (Some p) /\ last_before compare s L j key p a).
      { unfold prev'. destruct (Nat.ltb_spec h height) as [Hlt|Hge]; [|apply Hprev; lia].
        rewrite lookup_fill_prev by (rewrite Hlen; lia). case_decide as Hd; [|apply Hprev; fold h; lia].
        exists head_, []. split; [done|]. split; [|done]. pose proof (at_pos_head compare s L j key) as Hp.
        by rewrite (wf_top _ _ _ Hwf j) in Hp by (fold h; lia). }
      destruct Hpos as (p & a & Hp & Ha). exists p, a. split; [done|]. apply (last_before_frame compare s t L L); try done.
      intros n Hn. apply Hkt. right. apply (wf_sub_le compare s L Hwf 0 j n); [lia|done].
    + intros n Hn _. rewrite (kv_eq s t n) by (apply Hkt; by right). apply Hnew. unfold contents.
      apply list_elem_of_In, in_map. by apply list_elem_of_In.
  - eapply evolves_cons; [exact Hwf0|exact Hext0|done|]. eapply evolves_cons; [exact Hwft| |done|constructor].
    split; [done|]. intros n Hn. apply (Hkt n). by right.
Qed.

(** ** The links *)

Definition link_states (x : nat) (prev : list (option nat)) (t : SkipList Key) (n : nat) : list (SkipList Key) :=
  flat_map (fun i =>
    let u := snd (link_levels x prev i t) in
    [snd (link_node x prev i u); snd (link_level x prev i u)]) (seq 0 n).

Lemma link_levels_ok s L key x height prev :
  linking compare s L key x height prev 0 -> forall n, (n <= height)%nat ->
  exists t L', link_levels x prev n s = (Ret tt, t) /\ linking compare t L' key x height prev n /\
    contents t L' = (if decide (n = 0%nat) then contents s L else sorted_insert compare key (contents s L)) /\
    (forall m, m ∈ L' 0%nat -> m ∈ L 0%nat \/ m = x) /\
    evolves (fun l => l = contents s L \/ l = sorted_insert compare key (contents s L)) s L (link_states x prev s n) t L'.
Proof.
  intros H. induction n as [|n IH]; intros Hn.
  - exists s, L. cbn. repeat split; try apply H; try done; [by left|constructor].
  - destruct IH as (t & L' & Et & Ht & Hc & Hin & Hev); [lia|].
    destruct (link_node_ok compare t L' key x height prev n Ht ltac:(lia)) as (u & Eu & Hu & Hextu & Hcu & _ & Hx).
    destruct (link_prev_ok compare u L' key x height prev n Hu ltac:(lia) ) as (v & L'' & Ev & Hv & Hextv & Hcv & _ & _ & Hinv).
    { intros p a Hp Ha. apply (Hx p a Hp). destruct (lk_prev _ _ _ _ _ _ _ _ Ht n ltac:(lia)) as (p' & a' & Hp' & Ha').
      rewrite Hp in Hp'. injection Hp' as <-. destruct Hextu as [_ Hk].
      apply (last_before_frame compare u t L' L'); try done; [by apply (lk_wf _ _ _ _ _ _ _ _ Hu)|].
      intros m Hm. symmetry. apply Hk. apply (wf_sub_le compare t L' (lk_wf _ _ _ _ _ _ _ _ Ht) 0 n m); [lia|done]. }
    exists v, L''. assert (Hcv' : contents v L'' = sorted_insert compare key (contents s L)).
    { rewrite Hcv, Hcu, Hc. by repeat case_decide. }
    assert (El : link_level x prev n t = (Ret tt, v)).
    { unfold link_level. by erewrite bind_Ret by exact Eu. }
    split; [cbn [link_levels]; erewrite bind_Ret by exact Et; exact El|]. split; [done|]. split; [done|]. split.
    + intros m Hm. destruct (Hinv 0%nat m Hm) as [Hm'| ->]; [by apply Hin|by right].
    + unfold link_states. rewrite seq_S, flat_map_app. eapply evolves_app; [exact Hev|]. cbn [flat_map app Nat.add].
      rewrite Et. cbn [snd]. rewrite Eu, El. cbn [snd].
      eapply evolves_cons; [by apply (lk_wf _ _ _ _ _ _ _ _ Hu)|done| |].
      { rewrite Hcu, Hc. case_decide; auto. }
      eapply evolves_cons; [by apply (lk_wf _ _ _ _ _ _ _ _ Hv)|done|by right|constructor].
Qed.

Lemma Insert_ok s L key :
  wf compare s L -> good key -> (forall k, k ∈ contents s L -> cmp k key <> 0) ->
  Z.of_nat (List.length (L 0%nat)) < 2 ^ 64 ->
  exists t L', Insert compare key s = (Ret tt, t) /\ wf compare t L' /\
    contents t L' = sorted_insert compare key (contents s L) /\
    evolves (fun l => l = contents s L \/ l = sorted_insert compare key (contents s L)) s L (insert_states key s) t L'.
Proof.
  intros Hwf Hkey Hnew Hsize.
  destruct (insert_node_ok s L key Hwf Hkey Hnew Hsize) as (x & height & prev & t & E & Hlink & Hc & Hh & Hev).
  destruct (link_levels_ok t L key x height prev Hlink height ltac:(lia)) as (u & L' & Eu & Hu & Hcu & _ & Hevu).
  exists u, L'. split; [unfold Insert; erewrite bind_Ret by exact E; exact Eu|].
  split; [apply Hu|]. rewrite Hc in Hcu, Hevu. case_decide; [lia|]. split; [done|].
  unfold insert_states. rewrite E. change (?a :: ?b :: ?c) with ([a; b] ++ c). eapply evolves_app; [|exact Hevu].
  eapply evolves_mono; [|exact Hev]. intros l <-. by left.
Qed.
End States.
