(* ===== verification/LdbSkipTheorems.v ===== *)
(** The skip list implements a sorted list, for its writer and for readers that run
    at the same time. *)

From Stdlib Require Import ZArith Lia List String Bool.
From stdpp Require Import base list sorting.
From S2P Require Import Prelude LdbSkipList LdbSkipProps LdbSkipStates.

(** Two ways to cut a list where a property ends. *)
Lemma cut_unique {A} (P : A -> Prop) (b1 : list A) : forall a1 b2 a2,
  b1 ++ a1 = b2 ++ a2 -> Forall P b1 -> Forall P b2 -> Forall (fun x => ~ P x) a1 -> Forall (fun x => ~ P x) a2 ->
  b1 = b2 /\ a1 = a2.
Proof.
  induction b1 as [|x b1 IH]; intros a1 [|y b2] a2 E H1 H2 H3 H4; cbn in E.
  - done.
  - subst a1. apply Forall_cons in H2 as [H2 _], H3 as [H3 _]. done.
  - subst a2. apply Forall_cons in H1 as [H1 _], H4 as [H4 _]. done.
  - injection E as -> E. apply Forall_cons in H1 as [_ H1], H2 as [_ H2]. destruct (IH a1 b2 a2 E) as [-> ->]; done.
Qed.

Lemma existsb_perm {A} (f : A -> bool) l l' : l ≡ₚ l' -> existsb f l = existsb f l'.
Proof.
  induction 1 as [|x l l' _ IH|x y l|l l' l'' _ IH1 _ IH2]; cbn; [done|by rewrite IH| |by rewrite IH1].
  by rewrite !orb_assoc, (orb_comm (f y)).
Qed.

Section Theorems.
Context {Key : Type} `{!Inhabited Key} (compare : Key -> Key -> option Z) {KO : KeyOrder compare}.

(** ** The sorted list *)

Definition sort (keys : list Key) : list Key := fold_left (fun l k => sorted_insert compare k l) keys [].

(** The first key that is not in front of [k]. *)
Definition lower_bound (k : Key) (l : list Key) : option Key := List.find (fun a => 0 <=? cmp a k) l.

(** No two keys compare equal. *)
Definition distinct (keys : list Key) : Prop := StronglySorted (fun a b => cmp a b <> 0) keys.

Definition key_lt (a b : Key) : Prop := cmp a b < 0.

Lemma sorted_insert_perm key l : sorted_insert compare key l ≡ₚ key :: l.
Proof.
  induction l as [|k l IH]; cbn; [done|]. destruct (cmp k key <? 0); [|done]. rewrite IH. apply Permutation_swap.
Qed.

Lemma sort_snoc keys key : sort (keys ++ [key]) = sorted_insert compare key (sort keys).
Proof. unfold sort. by rewrite fold_left_app. Qed.

Lemma sort_perm keys : sort keys ≡ₚ keys.
Proof.
  induction keys as [|key keys IH] using rev_ind; [done|]. rewrite sort_snoc, sorted_insert_perm, IH.
  apply Permutation_cons_append.
Qed.

Lemma cmp_ne_sym a b : good a -> good b -> cmp a b <> 0 -> cmp b a <> 0.
Proof. intros Ha Hb. pose proof (cmp_flip _ _ Ha Hb). pose proof (cmp_flip _ _ Hb Ha). lia. Qed.

Lemma distinct_new keys key : distinct (keys ++ [key]) -> forall k, k ∈ sort keys -> cmp k key <> 0.
Proof.
  intros Hd k Hk. apply (StronglySorted_app_1_elem_of _ _ _ k key Hd); [|left]. by rewrite sort_perm in Hk.
Qed.

Fixpoint insert_all (keys : list Key) : M (SkipList Key) unit :=
  match keys with [] => ret tt | key :: keys' => Insert compare key ;; insert_all keys' end.

(** The states while keys are inserted one after the other. *)
Fixpoint all_states (keys : list Key) (s : SkipList Key) : list (SkipList Key) :=
  match keys with
  | [] => []
  | key :: keys' => insert_states compare key s ++ all_states keys' (snd (Insert compare key s))
  end.

(** ** The empty list *)

Lemma wf_new : wf compare new_SkipList (fun _ => []).
Proof.
  split.
  - cbn. unfold kMaxHeight. lia.
  - intros i Hi. cbn [linked head]. split; [|done]. unfold kMaxHeight in Hi.
    do 12 (destruct i as [|i]; [reflexivity|]). lia.
  - done.
  - intros i n Hn. by apply elem_of_nil in Hn.
  - intros n Hn. by apply elem_of_nil in Hn.
  - intros i. constructor.
  - reflexivity.
Qed.

Lemma insert_all_from keys : forall done s L,
  wf compare s L -> contents s L = sort done ->
  Forall good (done ++ keys) -> distinct (done ++ keys) -> Z.of_nat (List.length (done ++ keys)) < 2 ^ 63 ->
  exists t L', insert_all keys s = (Ret tt, t) /\ wf compare t L' /\ contents t L' = sort (done ++ keys) /\
    evolves compare (fun l => exists m, l = sort (take m (done ++ keys))) s L (all_states keys s) t L'.
Proof.
  induction keys as [|key keys IH]; intros done s L Hwf Hc Hg Hd Hlen.
  - exists s, L. rewrite app_nil_r. repeat split; try apply Hwf; try done. constructor.
  - assert (Hk : good key) by (rewrite Forall_forall in Hg; apply Hg, elem_of_app; right; left).
    change (key :: keys) with ([key] ++ keys) in Hg, Hd, Hlen |- *. rewrite app_assoc in Hg, Hd, Hlen |- *.
    pose proof (distinct_new done key ltac:(by apply StronglySorted_app_1_l in Hd)) as Hnew.
    destruct (Insert_ok compare s L key Hwf Hk) as (t & L' & Et & Hwft & Hct & Hevt).
    { rewrite Hc. exact Hnew. }
    { assert (Hl : List.length (contents s L) = List.length done) by (rewrite Hc; apply Permutation_length, sort_perm).
      unfold contents in Hl. rewrite length_map in Hl. rewrite !length_app in Hlen. lia. }
    rewrite Hc, <- sort_snoc in Hct, Hevt.
    destruct (IH (done ++ [key]) t L' Hwft Hct Hg Hd Hlen) as (u & L'' & Eu & Hwfu & Hcu & Hevu).
    exists u, L''. split; [cbn [insert_all app]; by erewrite bind_Ret by exact Et|]. split; [done|]. split; [done|].
    cbn [all_states app]. rewrite Et. cbn [snd]. eapply evolves_app; [|exact Hevu].
    eapply evolves_mono; [|exact Hevt]. intros l [-> | ->].
    + exists (List.length done). by rewrite <- app_assoc, take_app_length.
    + exists (List.length (done ++ [key])). by rewrite take_app_length.
Qed.

Lemma insert_all_ok keys : Forall good keys -> distinct keys -> Z.of_nat (List.length keys) < 2 ^ 63 ->
  exists s L, insert_all keys new_SkipList = (Ret tt, s) /\ wf compare s L /\ contents s L = sort keys /\
    evolves compare (fun l => exists m, l = sort (take m keys)) new_SkipList (fun _ => []) (all_states keys new_SkipList) s L.
Proof. intros Hg Hd Hlen. by apply (insert_all_from keys [] new_SkipList (fun _ => []) wf_new eq_refl). Qed.

(** ** What readers see in one state *)

Section Read.
Context (s : SkipList Key) (L : nat -> list nat) (Hwf : wf compare s L).
Context (Hsize : Z.of_nat (List.length (L 0%nat)) < 2 ^ 64).

Lemma key_at_head l : (forall n, n ∈ l -> n ∈ L 0%nat) -> key_at s (head l) = head (map (kv s) l).
Proof.
  intros Hl. destruct l as [|n l]; [done|]. cbn. apply (wf_key compare s L Hwf 0). apply Hl. left.
Qed.

(** The position of a search cuts the contents in two. *)
Lemma last_before_contents k p a : good k -> last_before compare s L 0 k p a ->
  exists b, L 0%nat = b ++ a /\ p = List.last b head_ /\
    map (kv s) a = List.filter (fun x => 0 <=? cmp x k) (contents s L) /\ lower_bound k (contents s L) = head (map (kv s) a).
Proof.
  intros Hk Hp. destruct (last_before_split compare s L Hwf 0 k p a Hk Hp) as (b & E & Hb & Ha & Hlast).
  exists b. split; [done|]. split; [done|]. unfold contents, lower_bound. rewrite E, map_app. clear E Hlast Hp.
  induction b as [|n b IH]; cbn [map app List.filter List.find].
  - induction a as [|n a IH]; [done|]. apply Forall_cons in Ha as [Hn Ha]. cbn.
    destruct (Z.leb_spec 0 (cmp (kv s n) k)); [|lia]. destruct (IH Ha) as [IH' _]. split; [by rewrite <- IH'|done].
  - apply Forall_cons in Hb as [Hn Hb]. destruct (Z.leb_spec 0 (cmp (kv s n) k)); [lia|]. by apply IH.
Qed.

Lemma iter_Seek_ok k : good k -> exists a b,
  iter_Seek compare k s = (Ret (head a), s) /\ L 0%nat = b ++ a /\
  map (kv s) a = List.filter (fun x => 0 <=? cmp x k) (contents s L) /\ lower_bound k (contents s L) = head (map (kv s) a).
Proof.
  intros Hk. destruct (FindGreaterOrEqual_ok compare s L Hwf Hsize k None Hk I) as (r & E & (p & a & Hp & Hr) & _).
  destruct (last_before_contents k p a Hk Hp) as (b & Eb & _ & Hf & Hl). exists a, b.
  split; [|done]. unfold iter_Seek. erewrite bind_Ret by exact E. by rewrite Hr.
Qed.

(** Scans with an iterator. *)
Fixpoint scan (step : ptr -> M (SkipList Key) ptr) (n : nat) (p : ptr) : M (SkipList Key) (list Key) :=
  if iter_Valid p then
    match n with
    | O => stuck
    | S n' => k <- iter_key p ;; q <- step p ;; l <- scan step n' q ;; ret (k :: l)
    end
  else ret [].

Lemma iter_key_ok n : n ∈ L 0%nat -> iter_key (Some n) s = (Ret (kv s n), s).
Proof. intros Hn. unfold iter_key, the_key. by rewrite (proj1 (wf_key compare s L Hwf 0 n Hn)). Qed.

Lemma scan_forward a : forall b n, L 0%nat = b ++ a -> (List.length a <= n)%nat ->
  scan iter_Next n (head a) s = (Ret (map (kv s) a), s).
Proof.
  induction a as [|x a IH]; intros b n E Hn; [by destruct n|].
  destruct n as [|n]; [cbn in Hn; lia|]. assert (Hx : x ∈ L 0%nat) by (rewrite E; apply elem_of_app; right; left).
  cbn [scan head iter_Valid]. erewrite bind_Ret by exact (iter_key_ok x Hx).
  assert (Hnext : iter_Next (Some x) s = (Ret (head a), s)).
  { unfold iter_Next, Next. rewrite (at_node_next compare s L Hwf 0 x a); [done|unfold kMaxHeight; lia|].
    exists (head_ :: b). by rewrite E. }
  erewrite bind_Ret by exact Hnext.
  erewrite bind_Ret by (apply (IH (b ++ [x])); [by rewrite <- app_assoc|cbn in Hn; lia]). done.
Qed.

Lemma node_or_null_snoc b x : x ∈ L 0%nat -> node_or_null (List.last (b ++ [x]) head_) = Some x.
Proof.
  intros Hx. rewrite last_last. unfold node_or_null. destruct (Nat.eqb_spec x head_) as [->|Hne]; [|done].
  exfalso. by apply (head_not_in compare s L Hwf 0).
Qed.

Lemma iter_Prev_ok b x a : L 0%nat = b ++ x :: a ->
  iter_Prev compare (Some x) s = (Ret (node_or_null (List.last b head_)), s).
Proof.
  intros E. assert (Hx : x ∈ L 0%nat) by (rewrite E; apply elem_of_app; right; left).
  destruct (wf_key compare s L Hwf 0 x Hx) as [Hkx Hgx].
  destruct (FindLessThan_ok compare s L Hwf Hsize (kv s x) Hgx) as (p & a' & Ep & Hp).
  destruct (last_before_split compare s L Hwf 0 (kv s x) p a' Hgx Hp) as (b' & E' & Hb' & Ha' & ->).
  unfold iter_Prev. erewrite bind_Ret by exact (iter_key_ok x Hx). erewrite bind_Ret by exact Ep.
  destruct (cut_unique (fun n => cmp (kv s n) (kv s x) < 0) b' a' b (x :: a)) as [-> _]; try done.
  - by rewrite <- E, <- E'.
  - apply Forall_forall. intros n Hn. pose proof (wf_sorted _ _ _ Hwf 0) as Hs. rewrite E in Hs.
    apply (StronglySorted_app_1_elem_of _ _ _ n x Hs); [done|left].
  - eapply Forall_impl; [exact Ha'|]. intros n Hn. cbn in Hn |- *. lia.
  - apply Forall_forall. intros n Hn Hlt. pose proof (wf_sorted _ _ _ Hwf 0) as Hs. rewrite E in Hs.
    apply StronglySorted_app_1_r, StronglySorted_inv in Hs as [_ Hs]. apply elem_of_cons in Hn as [->|Hn].
    + rewrite cmp_refl in Hlt by done. lia.
    + rewrite Forall_forall in Hs. specialize (Hs n Hn). unfold klt in Hs.
      assert (Hn0 : n ∈ L 0%nat) by (rewrite E; apply elem_of_app; right; by right).
      destruct (wf_key compare s L Hwf 0 n Hn0) as [_ Hgn]. pose proof (cmp_flip _ _ Hgn Hgx). lia.
Qed.

Lemma scan_backward b : forall a n, L 0%nat = b ++ a -> (List.length b <= n)%nat ->
  scan (iter_Prev compare) n (node_or_null (List.last b head_)) s = (Ret (rev (map (kv s) b)), s).
Proof.
  induction b as [|x b IH] using rev_ind; intros a n E Hn; [by destruct n|].
  assert (Hin : forall m, m ∈ b ++ [x] -> m ∈ L 0%nat) by (intros m Hm; rewrite E; apply elem_of_app; by left).
  rewrite node_or_null_snoc by (apply Hin, elem_of_app; right; left).
  rewrite length_app in Hn. cbn in Hn. destruct n as [|n]; [lia|].
  cbn [scan iter_Valid]. erewrite bind_Ret by (apply iter_key_ok, Hin, elem_of_app; right; left).
  rewrite <- app_assoc in E. erewrite bind_Ret by (eapply iter_Prev_ok; exact E).
  erewrite bind_Ret by (apply (IH (x :: a)); [done|lia]). unfold ret. by rewrite map_app, rev_app_distr.
Qed.

Lemma Contains_ok k : good k -> Contains compare k s = (Ret (existsb (fun a => cmp k a =? 0) (contents s L)), s).
Proof.
  intros Hk. destruct (FindGreaterOrEqual_ok compare s L Hwf Hsize k None Hk I) as (r & E & (p & a & Hp & Hr) & _).
  destruct (last_before_split compare s L Hwf 0 k p a Hk Hp) as (b & Eb & Hb & Ha & _).
  assert (Hgood : forall n, n ∈ L 0%nat -> good (kv s n)) by (intros n Hn; by apply (wf_key compare s L Hwf 0)).
  assert (Hnone : forall n, n ∈ b -> (cmp k (kv s n) =? 0) = false).
  { intros n Hn. rewrite Forall_forall in Hb. specialize (Hb n Hn). assert (n ∈ L 0%nat) as Hg by (rewrite Eb; apply elem_of_app; by left).
    apply Hgood in Hg. pose proof (cmp_flip _ _ Hg Hk). destruct (Z.eqb_spec (cmp k (kv s n)) 0); [lia|done]. }
  assert (Hcont : existsb (fun a => cmp k a =? 0) (contents s L) = existsb (fun n => cmp k (kv s n) =? 0) a).
  { unfold contents. rewrite Eb. clear - Hnone. induction b as [|n b IH]; cbn.
    - induction a as [|n a IH]; [done|]. cbn. by rewrite IH.
    - rewrite Hnone by left. cbn. apply IH. intros m Hm. apply Hnone. by right. }
  unfold Contains. erewrite bind_Ret by exact E. rewrite Hr, Hcont. destruct a as [|n a]; cbn [head]; [done|].
  assert (Hn : n ∈ L 0%nat) by (rewrite Eb; apply elem_of_app; right; left).
  unfold bind at 1, the_key. rewrite (proj1 (wf_key compare s L Hwf 0 n Hn)). unfold Equal, compare_.
  rewrite compare_cmp by auto. rewrite bind_ret. cbn [existsb]. destruct (Z.eqb_spec (cmp k (kv s n)) 0) as [|Hne]; [done|].
  cbn [orb]. unfold ret. do 2 f_equal. symmetry. apply Forall_cons in Ha as [Hge Ha].
  pose proof (wf_sorted _ _ _ Hwf 0) as Hs. rewrite Eb in Hs. apply StronglySorted_app_1_r, StronglySorted_inv in Hs as [_ Hs].
  rewrite Forall_forall in Hs. assert (Hin : forall m, m ∈ a -> m ∈ L 0%nat) by (intros m Hm; rewrite Eb; apply elem_of_app; right; by right).
  clear - Hs Hin Hgood Hk Hne Hge Hn. induction a as [|m a IH]; [done|]. cbn.
  assert (Hm : good (kv s m)) by (apply Hgood, Hin; left). pose proof (Hs m ltac:(left)) as Hlt. unfold klt in Hlt.
  apply Hgood in Hn. pose proof (cmp_trans _ _ _ Hm Hk Hn). pose proof (cmp_flip _ _ Hk Hm). pose proof (cmp_flip _ _ Hm Hk). pose proof (cmp_flip _ _ Hn Hm).
  pose proof (cmp_flip _ _ Hk Hn). pose proof (cmp_flip _ _ Hn Hk).
  destruct (Z.eqb_spec (cmp k (kv s m)) 0); [lia|]. cbn. apply IH.
  - intros y Hy. apply Hs. by right.
  - intros y Hy. apply Hin. by right.
Qed.
End Read.

(** ** Readers while the list is written *)

(** The search of [FindGreaterOrEqual] without [prev], one load of a link in each
    of the states [ts]: where it is, or its answer. *)
Fixpoint read_steps (k : Key) (l : nat * nat * list (option nat)) (ts : list (SkipList Key)) :
    outcome ((nat * nat * list (option nat)) + SkipList Key * ptr) :=
  match ts with
  | [] => Ret (inl l)
  | t :: ts' =>
      match fst (find_step compare k false l t) with
      | Ret (inl l') => read_steps k l' ts'
      | Ret (inr r) => Ret (inr (t, fst r))
      | Fail => Fail
      | Stuck => Stuck
      end
  end.

(** Every state of a history has the invariant and passes readers on to the later
    ones. *)
Lemma evolves_nth P s L ts u Lu :
  evolves compare P s L ts u Lu -> wf compare s L -> P (contents s L) ->
  exists Ls, List.length Ls = S (List.length ts) /\ head Ls = Some L /\
    forall i t Lt, (s :: ts) !! i = Some t -> Ls !! i = Some Lt ->
      wf compare t Lt /\ P (contents t Lt) /\ extends t Lt u Lu /\
      (forall j t' Lt', (i <= j)%nat -> (s :: ts) !! j = Some t' -> Ls !! j = Some Lt' -> extends t Lt t' Lt').
Proof.
  induction 1 as [s L|s L t L' ts u Lu Hwft Hext HPt Hev IH]; intros Hwf HP.
  - exists [L]. split; [done|]. split; [done|]. intros [|i] t Lt Ht HLt; [|by destruct i]. injection Ht as <-. injection HLt as <-.
    split; [done|]. split; [done|]. split; [apply extends_refl|]. intros [|j] t' Lt' _ Ht HLt; [|by destruct j].
    injection Ht as <-. injection HLt as <-. apply extends_refl.
  - destruct (IH Hwft HPt) as (Ls & Hlen & Hhd & HLs). exists (L :: Ls). split; [cbn; lia|]. split; [done|].
    intros [|i] t0 Lt Ht HLt.
    + injection Ht as <-. injection HLt as <-. split; [done|]. split; [done|].
      split; [eapply extends_trans; [exact Hext|by eapply evolves_extends]|].
      intros [|j] t' Lt' _ Ht HLt; cbn in Ht, HLt; [injection Ht as <-; injection HLt as <-; apply extends_refl|].
      eapply extends_trans; [exact Hext|]. destruct Ls as [|L0 Ls]; [done|]. injection Hhd as ->.
      destruct (HLs 0%nat t L' eq_refl eq_refl) as (_ & _ & _ & Hj). eapply Hj; [|done|done]. lia.
    + cbn in Ht, HLt. destruct (HLs i t0 Lt Ht HLt) as (H1 & H2 & H3 & H4). split; [done|]. split; [done|]. split; [done|].
      intros [|j] t' Lt' Hij Ht' HLt'; [lia|]. cbn in Ht', HLt'. eapply H4; [|done|done]. lia.
Qed.

Lemma searching_extends s L t L' k l :
  wf compare s L -> extends s L t L' -> searching compare s L k false l -> searching compare t L' k false l.
Proof.
  intros Hwf Hext. destruct l as [[x level] prev]. intros (Hlevel & (a & [b Hb] & Hx) & _).
  split; [done|]. split; [|done]. destruct (decide (x = head_)) as [->|Hne].
  - exists (L' level). apply at_pos_head.
  - destruct b as [|y b]; cbn in Hb; injection Hb as Hy Hb; [done|].
    assert (Hin : x ∈ L level) by (rewrite Hb; apply elem_of_app; right; left).
    pose proof (ext_nodes _ _ _ _ Hext level x Hin) as Hin'. apply list_elem_of_split in Hin' as (b' & a' & E').
    exists a'. split; [exists (head_ :: b'); by rewrite E'|]. destruct Hx as [Hx|Hx]; [done|]. right.
    rewrite (kv_eq s t x); [done|]. apply (ext_keys _ _ _ _ Hext). apply (wf_sub_le compare s L Hwf 0 level); [lia|done].
Qed.

Lemma advances_extends s L t L' l l' : extends s L t L' -> advances compare s L l l' -> advances compare t L' l l'.
Proof.
  intros [Hn Hk]. destruct l as [[x level] prev], l' as [[y level'] prev']. intros [H|(Hl & Hy & Hx)]; [by left|right].
  split; [done|]. split; [by apply Hn|]. destruct Hx as [Hx|[Hx Hlt]]; [by left|right]. split; [by apply Hn|].
  unfold klt in *. by rewrite (kv_eq s t x), (kv_eq s t y) by (by apply Hk).
Qed.

(** What is known of the history [H] of a list that ends in [u]. *)
Section Readers.
Context (P : list Key -> Prop) (H : list (SkipList Key)) (Ls : list (nat -> list nat)) (u d : SkipList Key) (Lu : nat -> list nat).
Context (HLs : List.length Ls = List.length H) (Hu : wf compare u Lu).
Context (Hist : forall i t Lt, H !! i = Some t -> Ls !! i = Some Lt ->
  wf compare t Lt /\ P (contents t Lt) /\ extends t Lt u Lu /\
  (forall j t' Lt', (i <= j)%nat -> H !! j = Some t' -> Ls !! j = Some Lt' -> extends t Lt t' Lt')).

Lemma read_steps_ok k times : good k -> forall i t Lt l,
  H !! i = Some t -> Ls !! i = Some Lt -> searching compare t Lt k false l ->
  StronglySorted le (i :: times) -> Forall (fun j => (j < List.length H)%nat) times ->
  exists o, read_steps k l (map (fun j => nth j H d) times) = Ret o /\
    match o with
    | inl _ => Z.of_nat (List.length times) <= search_left Lu l
    | inr (t', p) => exists Lt' q a, wf compare t' Lt' /\ P (contents t' Lt') /\ last_before compare t' Lt' 0 k q a /\ p = head a
    end.
Proof.
  intros Hk. induction times as [|j times IH]; intros i t Lt l Ht HLt Hs Hsort Hlen.
  { exists (inl l). split; [done|]. destruct l as [[x level] ?]. cbn. unfold rank. lia. }
  apply StronglySorted_inv in Hsort as [Hsort Hij]. apply Forall_cons in Hij as [Hij _], Hlen as [Hj Hlen].
  destruct (lookup_lt_is_Some_2 H j Hj) as [t' Ht']. destruct (lookup_lt_is_Some_2 Ls j ltac:(lia)) as [Lt' HLt'].
  destruct (Hist i t Lt Ht HLt) as (Hwf & _ & _ & Hlater). pose proof (Hlater j t' Lt' Hij Ht' HLt') as Hext.
  destruct (Hist j t' Lt' Ht' HLt') as (Hwf' & HP' & Hextu & _).
  pose proof (searching_extends _ _ _ _ k l Hwf Hext Hs) as Hs'.
  destruct (wp_Ret _ _ _ (find_step_ok compare t' Lt' Hwf' k false l Hk Hs')) as (r & t'' & E & -> & Hr).
  cbn [map read_steps]. rewrite (nth_lookup_Some H j d t' Ht'), E. cbn [fst].
  destruct r as [l'|[p prev]].
  - destruct Hr as [Hs'' Hadv]. destruct (IH j t' Lt' l' Ht' HLt' Hs'' Hsort Hlen) as (o & Eo & Ho).
    exists o. split; [done|]. destruct o as [l''|[v p]]; [|done].
    pose proof (advances_less compare u Lu Hu l l' (advances_extends _ _ _ _ _ _ Hextu Hadv)). cbn. lia.
  - destruct Hr as ((q & a & Hq & Hp) & _). eexists. split; [done|]. by exists Lt', q, a.
Qed.
End Readers.

Lemma key_lt_contents s L : wf compare s L -> StronglySorted key_lt (contents s L).
Proof.
  intros Hwf. pose proof (wf_sorted _ _ _ Hwf 0) as Hs. unfold contents. revert Hs. generalize (L 0%nat).
  induction l as [|n l IH]; [constructor|]. intros Hs. apply StronglySorted_inv in Hs as [Hs Hn]. cbn.
  constructor; [by apply IH|]. by apply Forall_map.
Qed.

(** ** The theorems *)

(** C24: The skip list is a sorted list: after keys were inserted in any order it
    contains them in the order of the comparator; [Contains], [Seek] and scans in
    both directions answer as for the sorted list. *)
Theorem skiplist_sorted (keys : list Key) :
  Forall good keys -> distinct keys -> Z.of_nat (List.length keys) < 2 ^ 63 ->
  exists s, insert_all keys new_SkipList = (Ret tt, s) /\
    elements s ≡ₚ keys /\ StronglySorted key_lt (elements s) /\
    let n := List.length keys in
    (p <- iter_SeekToFirst ;; scan iter_Next n p) s = (Ret (elements s), s) /\
    (p <- iter_SeekToLast ;; scan (iter_Prev compare) n p) s = (Ret (rev (elements s)), s) /\
    forall k, good k ->
      Contains compare k s = (Ret (existsb (fun a => cmp k a =? 0) keys), s) /\
      (p <- iter_Seek compare k ;; scan iter_Next n p) s = (Ret (List.filter (fun a => 0 <=? cmp a k) (elements s)), s).
Proof.
  intros Hg Hd Hlen. destruct (insert_all_ok keys Hg Hd Hlen) as (s & L & E & Hwf & Hc & _).
  pose proof (elements_contents compare s L Hwf) as He.
  assert (Hl : List.length (L 0%nat) = List.length keys).
  { rewrite <- (length_map (kv s)). change (map (kv s) (L 0%nat)) with (contents s L). rewrite Hc. apply Permutation_length, sort_perm. }
  assert (Hsize : Z.of_nat (List.length (L 0%nat)) < 2 ^ 64) by lia.
  exists s. split; [done|]. rewrite He. split; [rewrite Hc; apply sort_perm|]. split; [by apply key_lt_contents|]. cbv zeta.
  split; [|split].
  - assert (Ef : iter_SeekToFirst s = (Ret (head (L 0%nat)), s)).
    { unfold iter_SeekToFirst, Next. rewrite (at_node_next compare s L Hwf 0 head_ (L 0%nat)); [done|unfold kMaxHeight; lia|by exists []]. }
    erewrite bind_Ret by exact Ef. apply (scan_forward s L Hwf (L 0%nat) []); [done|lia].
  - erewrite bind_Ret by (unfold iter_SeekToLast; by erewrite bind_Ret by exact (FindLast_ok compare s L Hwf Hsize)).
    apply (scan_backward s L Hwf Hsize (L 0%nat) []); [by rewrite app_nil_r|lia].
  - intros k Hk. split.
    + rewrite (Contains_ok s L Hwf Hsize k Hk), Hc. do 2 f_equal. apply existsb_perm, sort_perm.
    + destruct (iter_Seek_ok s L Hwf Hsize k Hk) as (a & b & Ea & Eb & Hf & _).
      erewrite bind_Ret by exact Ea. rewrite (scan_forward s L Hwf a b); [by rewrite Hf|done|].
      apply (f_equal (@List.length nat)) in Eb. rewrite length_app in Eb. lia.
Qed.

(** C25: A search that runs while keys are inserted, its loads spread over any of
    the states between the stores, never meets a link that is not set; its answer
    is the right one for the state of its last load; and it needs at most one load
    for each key and level, whatever the writer does. *)
Theorem skiplist_readers (keys : list Key) (k : Key) (start : nat) (times : list nat) :
  Forall good keys -> distinct keys -> Z.of_nat (List.length keys) < 2 ^ 63 -> good k ->
  let history := new_SkipList :: all_states keys new_SkipList in
  let state i := nth i history new_SkipList in
  StronglySorted le (start :: times) -> Forall (fun i => (i < List.length history)%nat) (start :: times) ->
  exists o, read_steps k (head_, (max_height_ (state start) - 1)%nat, []) (map state times) = Ret o /\
    match o with
    | inl _ => (List.length times < List.length keys + kMaxHeight)%nat
    | inr (t, p) => exists m, elements t = sort (take m keys) /\ key_at t p = lower_bound k (elements t)
    end.
Proof.
  intros Hg Hd Hlen Hk history state Hsort Hin.
  destruct (insert_all_ok keys Hg Hd Hlen) as (s & L & E & Hwf & Hc & Hev).
  destruct (evolves_nth _ _ _ _ _ _ Hev wf_new) as (Ls & HLs & _ & Hist); [by exists 0%nat|]. fold history in Hist.
  change (S (List.length (all_states keys new_SkipList))) with (List.length history) in HLs.
  apply Forall_cons in Hin as [Hstart Hin].
  destruct (lookup_lt_is_Some_2 history start Hstart) as [t Ht]. destruct (lookup_lt_is_Some_2 Ls start ltac:(lia)) as [Lt HLt].
  destruct (Hist start t Lt Ht HLt) as (Hwft & _). pose proof (wf_height _ _ _ Hwft) as Hh.
  destruct (read_steps_ok (fun l => exists m, l = sort (take m keys)) history Ls s new_SkipList L HLs Hwf Hist k times Hk start t Lt (head_, (max_height_ t - 1)%nat, []) Ht HLt)
    as (o & Eo & Ho); [|done|done|].
  { split; [lia|]. split; [|done]. exists (Lt (max_height_ t - 1)%nat). apply at_pos_head. }
  exists o. unfold state at 1. rewrite (nth_lookup_Some history start _ t Ht). split; [exact Eo|].
  destruct o as [l|[t' p]].
  - cbn [search_left] in Ho. pose proof (rank_bound L head_) as Hr.
    assert (Hl : List.length (L 0%nat) = List.length keys).
    { rewrite <- (length_map (kv s)). change (map (kv s) (L 0%nat)) with (contents s L). rewrite Hc. apply Permutation_length, sort_perm. }
    unfold kMaxHeight in *. lia.
  - destruct Ho as (Lt' & q & a & Hwf' & [m Hm] & Hq & ->). exists m. rewrite (elements_contents compare t' Lt' Hwf').
    split; [done|]. destruct (last_before_contents t' Lt' Hwf' k q a Hk Hq) as (b & Eb & _ & _ & ->).
    apply (key_at_head t' Lt' Hwf'). intros n Hn. rewrite Eb. apply elem_of_app. by right.
Qed.
End Theorems.

(** ** Integers as keys *)

Definition Z_compare (a b : Z) : option Z := Some (a - b).

#[export, program] Instance Z_order : KeyOrder Z_compare := {| good _ := True; cmp a b := a - b |}.
Next Obligation. done. Qed.
Next Obligation. intros a _. lia. Qed.
Next Obligation. intros a b _ _. lia. Qed.
Next Obligation. intros a b c _ _ _. lia. Qed.

Lemma Z_distinct keys : NoDup keys -> distinct Z_compare keys.
Proof.
  induction 1 as [|k keys Hk _ IH]; constructor; [done|]. apply Forall_forall. intros k' Hk'. cbn. intros E.
  assert (k = k') as -> by lia. done.
Qed.

Definition sample_keys : list Z := [5; 3; 9; 1; 7; 2; 8].

Lemma sample_distinct : distinct Z_compare sample_keys.
Proof. apply Z_distinct, (bool_decide_unpack (NoDup sample_keys)). by vm_compute. Qed.

Lemma skiplist_sorted_witness :
  exists s, insert_all Z_compare sample_keys new_SkipList = (Ret tt, s) /\
    (p <- iter_SeekToLast ;; scan (iter_Prev Z_compare) 7 p) s = (Ret (rev (elements s)), s) /\
    Contains Z_compare 4 s = (Ret false, s).
Proof.
  destruct (skiplist_sorted Z_compare sample_keys) as (s & E & _ & _ & _ & Hprev & Hk).
  - apply Forall_forall. done.
  - exact sample_distinct.
  - cbn. lia.
  - exists s. split; [exact E|]. split; [exact Hprev|]. exact (proj1 (Hk 4 I)).
Defined.

(** The search for 6 from the empty list into the full one. *)
Lemma skiplist_readers_witness :
  let history := new_SkipList :: all_states Z_compare sample_keys new_SkipList in
  let state i := nth i history new_SkipList in
  exists o, read_steps Z_compare 6 (head_, (max_height_ (state 9%nat) - 1)%nat, []) (map state [10; 12; 15; 20]%nat) = Ret o /\
    match o with
    | inl _ => (4 < 7 + kMaxHeight)%nat
    | inr (t, p) => exists m, elements t = sort Z_compare (take m sample_keys) /\ key_at t p = lower_bound Z_compare 6 (elements t)
    end.
Proof.
  apply (skiplist_readers Z_compare sample_keys 6 9 [10; 12; 15; 20]%nat).
  - apply Forall_forall. done.
  - exact sample_distinct.
  - cbn. lia.
  - exact I.
  - repeat constructor; lia.
  - assert (Hl : List.length (new_SkipList :: all_states Z_compare sample_keys new_SkipList) = 31%nat) by (vm_compute; reflexivity).
    rewrite Hl. repeat constructor; lia.
Defined.
