(* ===== verification/LdbMemTable.v ===== *)
(** [db/write_batch.cc], [db/write_batch_internal.h] and [db/memtable.h]/[.cc]: the
    batches of updates and the table in memory that they are applied to. *)

From Stdlib Require Import ZArith Lia List String Bool.
From stdpp Require Import base list.
From S2P Require Import Prelude Base128 LdbBase LdbText LdbCoding LdbFilter LdbKeys LdbSkipList.

(** ** [WriteBatch]: its string [rep_] *)

Definition kHeader : Z := 12.

Definition WriteBatch : Type := list Z.

Definition batch_Clear : WriteBatch := repeat 0 (Z.to_nat kHeader).
Definition new_WriteBatch : WriteBatch := batch_Clear.
Definition ApproximateSize (b : WriteBatch) : Z := size b.
Definition ByteSize (b : WriteBatch) : Z := size b.
Definition batch_Contents (b : WriteBatch) : Slice := b.
(** Asserted: [contents] has a header. *)
Definition batch_SetContents (contents : Slice) : WriteBatch := contents.

(** An encoding is written over the bytes at [pos]. *)
Definition overwrite (pos : Z) (bytes rep : list Z) : list Z :=
  take (Z.to_nat pos) rep ++ bytes ++ drop (Z.to_nat (pos + size bytes)) rep.

(** [None] where [rep_] has no header. *)
Definition batch_Count (b : WriteBatch) : option Z :=
  n ← DecodeFixed32 (drop 8 b); Some (s32 n).
Definition batch_SetCount (b : WriteBatch) (n : Z) : WriteBatch := overwrite 8 (EncodeFixed32 (u32 n)) b.
Definition batch_Sequence (b : WriteBatch) : option Z := DecodeFixed64 b.
Definition batch_SetSequence (b : WriteBatch) (seq : Z) : WriteBatch := overwrite 0 (EncodeFixed64 seq) b.

Definition batch_Put (b : WriteBatch) (key value : Slice) : option WriteBatch :=
  n ← batch_Count b;
  let rep := batch_SetCount b (n + 1) ++ [ValueType_value kTypeValue] in
  Some (PutLengthPrefixedSlice (PutLengthPrefixedSlice rep key) value).

Definition batch_Delete (b : WriteBatch) (key : Slice) : option WriteBatch :=
  n ← batch_Count b;
  let rep := batch_SetCount b (n + 1) ++ [ValueType_value kTypeDeletion] in
  Some (PutLengthPrefixedSlice rep key).

Definition batch_Append (dst src : WriteBatch) : option WriteBatch :=
  n ← batch_Count dst;
  m ← batch_Count src;
  Some (batch_SetCount dst (n + m) ++ drop (Z.to_nat kHeader) src).

(** The interface [WriteBatch::Handler] over a state. *)
Record Handler (S : Type) := mk_handler {
  handler_Put : Slice -> Slice -> M S unit;
  handler_Delete : Slice -> M S unit
}.
Arguments mk_handler {S}.
Arguments handler_Put {S}.
Arguments handler_Delete {S}.

Section Iterate.
Context {S : Type} (handler : Handler S).

(** One record; the locals are [input] and [found]. *)
Definition iterate_step (count : Z) (l : Slice * Z) : M S (Slice * Z + Status) :=
  let '(input, found) := l in
  let return_ s := ret (inr s) in
  match input with
  | [] =>
      return_ (if negb (found =? count) then Corruption (literal "WriteBatch has wrong count") [] else OK)
  | tag :: input =>
      let found := found + 1 in
      if tag =? ValueType_value kTypeValue then
        match GetLengthPrefixedSlice input with
        | Some (key, input) =>
            match GetLengthPrefixedSlice input with
            | Some (value, input) => handler_Put handler key value ;; ret (inl (input, found))
            | None => return_ (Corruption (literal "bad WriteBatch Put") [])
            end
        | None => return_ (Corruption (literal "bad WriteBatch Put") [])
        end
      else if tag =? ValueType_value kTypeDeletion then
        match GetLengthPrefixedSlice input with
        | Some (key, input) => handler_Delete handler key ;; ret (inl (input, found))
        | None => return_ (Corruption (literal "bad WriteBatch Delete") [])
        end
      else return_ (Corruption (literal "unknown WriteBatch tag") [])
  end.

Definition batch_Iterate (b : WriteBatch) : M S Status :=
  if size b <? kHeader then ret (Corruption (literal "malformed WriteBatch (too small)") [])
  else
    match batch_Count b with
    | Some count => loop (iterate_step count) (remove_prefix kHeader b, 0)
    | None => stuck
    end.
End Iterate.

(** ** [MemTable] *)

(** [GetLengthPrefixedSlice] of memtable.cc, from a pointer to an entry: the slice
    and the pointer behind it. Five bytes are enough for the length; [None] is an
    entry that ends too early. *)
Definition entry_slice (data : list Z) : option (Slice * list Z) :=
  r ← GetVarint32Ptr (take 5 data);
  let '(len, rest) := r in
  let p := drop (Nat.min 5 (List.length data) - List.length rest) data in
  if size p <? len then None else Some (take (Z.to_nat len) p, drop (Z.to_nat len) p).

Section MemTable.
Context {user_comparator : Comparator}.

(** [MemTable::KeyComparator]: entries are compared by their internal keys. *)
Definition entry_compare (aptr bptr : list Z) : option Z :=
  a ← entry_slice aptr;
  b ← entry_slice bptr;
  internal_Compare (fst a) (fst b).

(** An entry is the bytes from its pointer on, in the arena. *)
Record MemTable := mk_memtable { mem_refs_ : Z; table_ : SkipList (list Z) }.

Definition new_MemTable : MemTable := mk_memtable 0 new_SkipList.

Definition mem_Ref (m : MemTable) : MemTable := mk_memtable (mem_refs_ m + 1) (table_ m).
(** [None]: the table is deleted. *)
Definition mem_Unref (m : MemTable) : option MemTable :=
  let refs := mem_refs_ m - 1 in if refs <=? 0 then None else Some (mk_memtable refs (table_ m)).

Definition on_table {A} (c : M (SkipList (list Z)) A) : M MemTable A :=
  zoom table_ (fun t m => mk_memtable (mem_refs_ m) t) c.

(** The bytes that [Add] writes into the arena. *)
Definition entry_bytes (s : Z) (type : ValueType) (key value : Slice) : list Z :=
  let internal_key_size := u64 (size key + 8) in
  EncodeVarint32 (u32 internal_key_size) ++ key ++
  EncodeFixed64 (Z.lor (u64 (Z.shiftl s 8)) (ValueType_value type)) ++
  EncodeVarint32 (u32 (size value)) ++ value.

Definition mem_Add (s : Z) (type : ValueType) (key value : Slice) : M MemTable unit :=
  on_table (Insert entry_compare (entry_bytes s type key value)).

(** [true] or [false], and [*value] and [*s] afterwards. *)
Definition mem_Get (key : LookupKey) (value : list Z) (s : Status) : M MemTable (bool * list Z * Status) :=
  node <- on_table (iter_Seek entry_compare (memtable_key key)) ;;
  match node with
  | None => ret (false, value, s)
  | Some _ =>
      entry <- on_table (iter_key node) ;;
      match entry_slice entry with
      | None => stuck
      | Some (key_slice, behind) =>
          match Compare (take (Z.to_nat (size key_slice - 8)) key_slice) (lookup_user_key key), key_number key_slice with
          | Some c, Some tag =>
              if c =? 0 then
                let type := Z.land tag 0xff in
                if type =? ValueType_value kTypeValue then
                  match entry_slice behind with
                  | Some (v, _) => ret (true, v, s)
                  | None => stuck
                  end
                else if type =? ValueType_value kTypeDeletion then ret (true, value, NotFound [] [])
                else ret (false, value, s)
              else ret (false, value, s)
          | _, _ => stuck
          end
      end
  end.

(** [MemTableIterator]: the node of its [iter_]. *)
Definition EncodeKey (target : Slice) : list Z := PutVarint32 [] (u32 (size target)) ++ target.

Definition mem_iter_Valid (node : ptr) : bool := iter_Valid node.
Definition mem_iter_Seek (k : Slice) : M MemTable ptr := on_table (iter_Seek entry_compare (EncodeKey k)).
Definition mem_iter_SeekToFirst : M MemTable ptr := on_table iter_SeekToFirst.
Definition mem_iter_SeekToLast : M MemTable ptr := on_table iter_SeekToLast.
Definition mem_iter_Next (node : ptr) : M MemTable ptr := on_table (iter_Next node).
Definition mem_iter_Prev (node : ptr) : M MemTable ptr := on_table (iter_Prev entry_compare node).
Definition mem_iter_key (node : ptr) : M MemTable Slice :=
  e <- on_table (iter_key node) ;;
  match entry_slice e with Some (k, _) => ret k | None => stuck end.
Definition mem_iter_value (node : ptr) : M MemTable Slice :=
  e <- on_table (iter_key node) ;;
  match entry_slice e with
  | Some (_, behind) => match entry_slice behind with Some (v, _) => ret v | None => stuck end
  | None => stuck
  end.
Definition mem_iter_status : Status := OK.

(** [MemTableInserter]: its [sequence_], and the table of [mem_]. *)
Definition inserter_add (type : ValueType) (key value : Slice) : M (Z * MemTable) unit :=
  seq <- gets fst ;;
  zoom snd (fun m s => (fst s, m)) (mem_Add seq type key value) ;;
  modify (fun s => (u64 (fst s + 1), snd s)).
Definition MemTableInserter : Handler (Z * MemTable) :=
  mk_handler (inserter_add kTypeValue) (fun key => inserter_add kTypeDeletion key []).

Definition InsertInto (b : WriteBatch) : M MemTable Status := fun m =>
  match batch_Sequence b with
  | Some seq => let '(r, s) := batch_Iterate MemTableInserter b (seq, m) in (r, snd s)
  | None => (Stuck, m)
  end.
End MemTable.

(** ** [util/arena.h], [util/arena.cc]: [Arena]

    A block is the address that [new] gave it, aligned, and its size; an address in a block is the block's number and an offset. *)

Record Arena := mk_arena { alloc_ptr_ : option (nat * Z); alloc_bytes_remaining_ : Z; blocks_ : list Z; memory_usage_ : Z }.

Definition arena_kBlockSize : Z := 4096.
Definition new_Arena : Arena := mk_arena None 0 [] 0.

Definition set_alloc (p : option (nat * Z)) (n : Z) (a : Arena) : Arena := mk_arena p n (blocks_ a) (memory_usage_ a).

Definition AllocateNewBlock (block_bytes : Z) : M Arena (nat * Z) := fun a =>
  (Ret (List.length (blocks_ a), 0), mk_arena (alloc_ptr_ a) (alloc_bytes_remaining_ a) (blocks_ a ++ [block_bytes]) (u64 (memory_usage_ a + u64 (block_bytes + 8)))).

(** [bytes] at [alloc_ptr_], behind [slop]. *)
Definition take_bytes (slop bytes : Z) : M Arena (nat * Z) :=
  a <- get ;;
  p <- or_stuck (alloc_ptr_ a) ;;
  modify (set_alloc (Some (fst p, snd p + slop + bytes)) (u64 (alloc_bytes_remaining_ a - (slop + bytes)))) ;;
  ret (fst p, snd p + slop).

Definition AllocateFallback (bytes : Z) : M Arena (nat * Z) :=
  if arena_kBlockSize / 4 <? bytes then AllocateNewBlock bytes
  else
    p <- AllocateNewBlock arena_kBlockSize ;;
    modify (set_alloc (Some p) arena_kBlockSize) ;;
    take_bytes 0 bytes.

Definition Allocate (bytes : Z) : M Arena (nat * Z) :=
  asserted (0 <? bytes) ;;
  a <- get ;;
  if bytes <=? alloc_bytes_remaining_ a then take_bytes 0 bytes else AllocateFallback bytes.

Definition AllocateAligned (bytes : Z) : M Arena (nat * Z) :=
  a <- get ;;
  let current_mod := match alloc_ptr_ a with Some (_, offset) => Z.land offset 7 | None => 0 end in
  let slop := if current_mod =? 0 then 0 else 8 - current_mod in
  let needed := u64 (bytes + slop) in
  r <- (if needed <=? alloc_bytes_remaining_ a then take_bytes slop bytes else AllocateFallback bytes) ;;
  asserted (Z.land (snd r) 7 =? 0) ;;
  ret r.

(** What a memtable's arena was asked for: the list's head, and for every entry its bytes and its node. *)
Definition node_bytes (height : nat) : Z := 16 + 8 * (Z.of_nat height - 1).
Definition allocate_node (nd : Node (list Z)) : M Arena unit :=
  (match node_key nd with Some entry => Allocate (size entry) ;; ret tt | None => ret tt end) ;;
  AllocateAligned (node_bytes (List.length (next_ nd))) ;; ret tt.

(** [MemTable::ApproximateMemoryUsage] *)
Definition ApproximateMemoryUsage (m : MemTable) : Z := memory_usage_ (snd (for_each (nodes (table_ m)) allocate_node new_Arena)).
