(* ===== verification/LdbMemGet.v ===== *)
(** Batches and the memtable: a batch gives its updates back in order, and a
    memtable answers as the list of all updates would, at every sequence number.

    A memtable that batches were written to, read at any sequence number: the last
    update of a key among those the number covers. *)

From Stdlib Require Import ZArith Lia List String Bool.
From stdpp Require Import base list sorting.
From S2P Require Import Prelude Base128 LdbBase LdbText LdbCoding LdbFilter LdbKeys LdbKeyProps LdbSkipList LdbSkipProps LdbSkipStates LdbSkipTheorems LdbMemTable.

(** ** Batches *)

(** An update: a value for a key, or a deletion. *)
Abbreviation update := (list Z * option (list Z))%type.

Definition update_type (u : update) : ValueType := match snd u with Some _ => kTypeValue | None => kTypeDeletion end.
Definition update_value (u : update) : list Z := match snd u with Some v => v | None => [] end.
Definition record_bytes (u : update) : list Z :=
  match snd u with
  | Some v => 1 :: prefixed (fst u) ++ prefixed v
  | None => 0 :: prefixed (fst u)
  end.

Definition update_fits (u : update) : Prop := size (fst u) + 8 < 2 ^ 32 /\ size (update_value u) < 2 ^ 32.

Definition batch_add (b : WriteBatch) (u : update) : option WriteBatch :=
  match snd u with Some v => batch_Put b (fst u) v | None => batch_Delete b (fst u) end.
Fixpoint batch_add_all (b : WriteBatch) (us : list update) : option WriteBatch :=
  match us with [] => Some b | u :: us' => b ← batch_add b u; batch_add_all b us' end.

(** The bytes of a batch with the sequence number [seq]. *)
Definition batch_bytes (seq : Z) (us : list update) : list Z :=
  EncodeFixed64 seq ++ EncodeFixed32 (Z.of_nat (List.length us)) ++ flat_map record_bytes us.

Lemma batch_Count_of seq n rest : 0 <= n < 2 ^ 31 -> batch_Count (EncodeFixed64 seq ++ EncodeFixed32 n ++ rest) = Some n.
Proof.
  intros Hn. unfold batch_Count. change (drop 8 (EncodeFixed64 seq ++ EncodeFixed32 n ++ rest)) with (EncodeFixed32 n ++ rest).
  rewrite DecodeFixed32_of by lia. cbn [mbind option_bind]. rewrite swrap_fits by lia. done.
Qed.

Lemma batch_SetCount_of seq n m rest : 0 <= m < 2 ^ 32 ->
  batch_SetCount (EncodeFixed64 seq ++ EncodeFixed32 n ++ rest) m = EncodeFixed64 seq ++ EncodeFixed32 m ++ rest.
Proof. intros Hm. unfold batch_SetCount, overwrite. rewrite uwrap_small by done. reflexivity. Qed.

Lemma batch_SetSequence_of seq seq' us : batch_SetSequence (batch_bytes seq us) seq' = batch_bytes seq' us.
Proof. reflexivity. Qed.

Lemma batch_add_of seq us u : update_fits u -> Z.of_nat (List.length us) + 1 < 2 ^ 31 ->
  batch_add (batch_bytes seq us) u = Some (batch_bytes seq (us ++ [u])).
Proof.
  intros [Hk Hv] Hlen. pose proof (size_nonneg (fst u)). destruct u as [k v]; destruct v as [v|]; cbn [fst snd] in *;
    unfold batch_add, batch_Put, batch_Delete, update_value in *; cbn [fst snd] in *; unfold batch_bytes; rewrite batch_Count_of by lia;
    cbn [mbind option_bind]; rewrite batch_SetCount_of by lia; rewrite !PutLengthPrefixedSlice_app by lia;
    rewrite flat_map_app, length_app, Nat2Z.inj_add; cbn [flat_map List.length]; unfold record_bytes; cbn [fst snd];
    by rewrite app_nil_r, <- !app_assoc.
Qed.

Lemma batch_add_all_of seq us : forall done, Forall update_fits us -> Z.of_nat (List.length (done ++ us)) < 2 ^ 31 ->
  batch_add_all (batch_bytes seq done) us = Some (batch_bytes seq (done ++ us)).
Proof.
  induction us as [|u us IH]; intros done Hf Hlen; cbn [batch_add_all]; [by rewrite app_nil_r|].
  apply Forall_cons in Hf as [Hu Hf]. rewrite batch_add_of by (rewrite ?length_app in Hlen; cbn in Hlen; done || lia).
  cbn [mbind option_bind]. rewrite IH; [|done|]; rewrite <- app_assoc; done.
Qed.

Lemma new_batch_bytes : new_WriteBatch = batch_bytes 0 [].
Proof. reflexivity. Qed.

(** ** Iterating over a batch *)

Section Iterate.
Context {S : Type} (handler : Handler S).

Definition handle (u : update) : M S unit :=
  match snd u with Some v => handler_Put handler (fst u) v | None => handler_Delete handler (fst u) end.
Fixpoint handle_all (us : list update) : M S unit :=
  match us with [] => ret tt | u :: us' => handle u ;; handle_all us' end.

Lemma iterate_step_of count u rest found : update_fits u -> forall s s',
  handle u s = (Ret tt, s') ->
  iterate_step handler count (record_bytes u ++ rest, found) s = (Ret (inl (rest, found + 1)), s').
Proof.
  intros [Hk Hv] s s' Hh. unfold update_value in Hv. unfold handle in Hh. pose proof (size_nonneg (fst u)).
  destruct u as [k [v|]]; cbn [fst snd record_bytes] in *; unfold record_bytes; cbn [fst snd app iterate_step].
  - change (1 =? ValueType_value kTypeValue) with true. cbv iota. rewrite <- app_assoc, !GetLengthPrefixedSlice_of by lia.
    by erewrite bind_Ret by exact Hh.
  - change (0 =? ValueType_value kTypeValue) with false. change (0 =? ValueType_value kTypeDeletion) with true. cbv iota.
    rewrite GetLengthPrefixedSlice_of by lia. by erewrite bind_Ret by exact Hh.
Qed.

Lemma iterate_all count us : forall found s s', Forall update_fits us ->
  handle_all us s = (Ret tt, s') ->
  iterate (Datatypes.S (List.length us)) (iterate_step handler count) (flat_map record_bytes us, found) s =
    (Ret (if negb (found + Z.of_nat (List.length us) =? count) then Corruption (literal "WriteBatch has wrong count") [] else OK), s').
Proof.
  induction us as [|u us IH]; intros found s s' Hf Hh.
  - cbn in Hh. injection Hh as ->. cbn [iterate flat_map iterate_step List.length]. rewrite bind_ret, Z.add_0_r. done.
  - apply Forall_cons in Hf as [Hu Hf]. cbn [handle_all] in Hh. unfold bind at 1 in Hh.
    destruct (handle u s) as [[[]| |] t] eqn:Et; try done.
    change (List.length (u :: us)) with (Datatypes.S (List.length us)). remember (Datatypes.S (List.length us)) as n eqn:En. cbn [iterate flat_map].
    erewrite bind_Ret by (apply iterate_step_of; [done|exact Et]). cbv beta iota. rewrite En in *. rewrite (IH (found + 1) t s') by done.
    replace (found + 1 + Z.of_nat (List.length us)) with (found + Z.of_nat (Datatypes.S (List.length us))) by lia. done.
Qed.

(** A batch hands its updates to the handler, in order, and its count is right. *)
Lemma batch_Iterate_of seq us s s' : Forall update_fits us -> Z.of_nat (List.length us) < 2 ^ 31 ->
  handle_all us s = (Ret tt, s') -> batch_Iterate handler (batch_bytes seq us) s = (Ret OK, s').
Proof.
  intros Hf Hlen Hh. unfold batch_Iterate. assert (Hs : (size (batch_bytes seq us) <? kHeader) = false).
  { apply Z.ltb_ge. unfold batch_bytes. rewrite !size_app, size_EncodeFixed64, size_EncodeFixed32. unfold kHeader.
    pose proof (size_nonneg (flat_map record_bytes us)). lia. }
  rewrite Hs. unfold batch_bytes at 1. rewrite batch_Count_of by lia.
  change (remove_prefix kHeader (batch_bytes seq us)) with (flat_map record_bytes us).
  apply (loop_iterate _ (Datatypes.S (List.length us))); [|done|lia].
  rewrite (iterate_all _ us 0 s s' Hf Hh), Z.add_0_l, Z.eqb_refl. done.
Qed.
End Iterate.

(** ** Entries *)

Lemma entry_slice_of v rest : size v < 2 ^ 32 -> entry_slice (prefixed v ++ rest) = Some (v, rest).
Proof.
  intros Hv. pose proof (size_nonneg v). unfold entry_slice, prefixed. rewrite <- app_assoc.
  set (l := varint_bytes (size v)). assert (Hl : (List.length l <= 5)%nat).
  { unfold l. rewrite <- EncodeVarint32_groups by lia. unfold EncodeVarint32. cbv zeta. repeat case_match; cbn; lia. }
  rewrite take_app_ge by lia. rewrite (GetVarint32Ptr_of (size v) (take (5 - List.length l) (v ++ rest)) ltac:(lia) : GetVarint32Ptr (l ++ _) = _). cbn [mbind option_bind].
  assert (E : (Nat.min 5 (List.length (l ++ v ++ rest)) - List.length (take (5 - List.length l) (v ++ rest)))%nat = List.length l).
  { rewrite length_take, (length_app l). lia. }
  rewrite E, drop_app_length, size_app. pose proof (size_nonneg rest).
  destruct (Z.ltb_spec (size v + size rest) (size v)); [lia|]. by rewrite take_size_app, drop_size_app.
Qed.

(** The entry of an update with the sequence number [s]. *)
Definition update_entry (s : Z) (u : update) : list Z := entry_bytes s (update_type u) (fst u) (update_value u).

Lemma update_entry_of s u : update_fits u -> 0 <= s <= kMaxSequenceNumber ->
  update_entry s u = prefixed (internal_key_bytes (fst u) s (update_type u)) ++ prefixed (update_value u).
Proof.
  intros [Hk Hv] Hs. pose proof (size_nonneg (fst u)). pose proof (size_nonneg (update_value u)).
  unfold update_entry, entry_bytes, prefixed, internal_key_bytes, PackSequenceAndType.
  rewrite (uwrap_small 64), !(uwrap_small 32), !EncodeVarint32_groups by lia.
  rewrite size_app, size_EncodeFixed64, <- !app_assoc. done.
Qed.

Section Entries.
Context {U : Comparator} {L : ComparatorLaws U}.

Definition entry_key (e : list Z) : Slice := match entry_slice e with Some (k, _) => k | None => [] end.
Definition entry_good (e : list Z) : Prop := is_Some (entry_slice e) /\ internal_ok (entry_key e).

#[export, program] Instance entry_order : KeyOrder entry_compare := {|
  good := entry_good;
  cmp a b := internal_order (entry_key a) (entry_key b)
|}.
Next Obligation.
  intros a b [[[ka ra] Ea] Ha] [[[kb rb] Eb] Hb]. unfold entry_compare. unfold entry_key in *. rewrite Ea, Eb in *. cbn [mbind option_bind fst].
  by apply internal_Compare_order.
Qed.
Next Obligation. intros a [_ Ha]. by apply (@order_refl _ internal_laws). Qed.
Next Obligation. intros a b [_ Ha] [_ Hb]. by apply (@order_flip _ internal_laws). Qed.
Next Obligation. intros a b c [_ Ha] [_ Hb] [_ Hc]. by apply (@order_trans _ internal_laws). Qed.

Lemma entry_key_of s u : update_fits u -> 0 <= s <= kMaxSequenceNumber ->
  entry_key (update_entry s u) = internal_key_bytes (fst u) s (update_type u).
Proof.
  intros Hu Hs. rewrite update_entry_of by done. unfold entry_key. rewrite entry_slice_of; [done|].
  rewrite size_internal_key. apply Hu.
Qed.

Lemma internal_key_ok k s t : key_ok k -> size k + 8 < 2 ^ 32 -> internal_ok (internal_key_bytes k s t).
Proof.
  intros Hk Hs. pose proof (size_nonneg k). split; [rewrite size_internal_key; lia|]. by rewrite user_part_of by lia.
Qed.

Lemma update_entry_good s u : update_fits u -> key_ok (fst u) -> 0 <= s <= kMaxSequenceNumber -> entry_good (update_entry s u).
Proof.
  intros Hu Hk Hs. split.
  - rewrite update_entry_of, entry_slice_of by (rewrite ?size_internal_key; done || apply Hu). by eexists.
  - rewrite entry_key_of by done. apply internal_key_ok; [done|apply Hu].
Qed.

(** Two internal keys: first by user key, then the later number first. *)
Lemma internal_order_of k1 s1 t1 k2 s2 t2 :
  size k1 + 8 < 2 ^ 32 -> size k2 + 8 < 2 ^ 32 -> 0 <= s1 <= kMaxSequenceNumber -> 0 <= s2 <= kMaxSequenceNumber ->
  internal_order (internal_key_bytes k1 s1 t1) (internal_key_bytes k2 s2 t2) =
    (if order k1 k2 =? 0 then
       if s2 * 256 + ValueType_value t2 <? s1 * 256 + ValueType_value t1 then -1
       else if s1 * 256 + ValueType_value t1 <? s2 * 256 + ValueType_value t2 then 1 else 0
     else order k1 k2).
Proof.
  intros H1 H2 Hs1 Hs2. unfold internal_order, number_of. rewrite !user_part_of by lia. rewrite !key_number_of by done.
  by rewrite !PackSequenceAndType_sum by done.
Qed.
End Entries.

Strategy 100 [loop iter2 Insert].

(** The last element of a list that satisfies a test. *)
Lemma find_rev_some {A} (f : A -> bool) l x : List.find f (rev l) = Some x ->
  exists i, l !! i = Some x /\ f x = true /\ forall j y, (i < j)%nat -> l !! j = Some y -> f y = false.
Proof.
  induction l as [|z l IH] using rev_ind; [done|]. rewrite rev_app_distr. cbn. destruct (f z) eqn:Ez.
  - intros [= ->]. exists (List.length l). rewrite list_lookup_middle by done. split; [done|]. split; [done|].
    intros j y Hj Hy. apply lookup_lt_Some in Hy. rewrite length_app in Hy. cbn in Hy. lia.
  - intros Hx. destruct (IH Hx) as (i & Hi & Hf & Hlater). exists i. pose proof (lookup_lt_Some _ _ _ Hi).
    rewrite lookup_app_l by done. split; [done|]. split; [done|]. intros j y Hj Hy.
    destruct (decide (j < List.length l)%nat) as [Hlt|Hge]; [rewrite lookup_app_l in Hy by done; by apply (Hlater j)|].
    pose proof (lookup_lt_Some _ _ _ Hy) as Hl. rewrite length_app in Hl. cbn in Hl.
    assert (j = List.length l) as -> by lia. rewrite list_lookup_middle in Hy by done. by injection Hy as <-.
Qed.

Lemma find_rev_none {A} (f : A -> bool) l x : List.find f (rev l) = None -> x ∈ l -> f x = false.
Proof. intros Hf Hx. apply (find_none f (rev l) Hf). apply in_rev. rewrite rev_involutive. by apply list_elem_of_In. Qed.

Section LowerBound.
Context {Key : Type} `{!Inhabited Key} (compare : Key -> Key -> option Z) {KO : KeyOrder compare}.

(** In a sorted list the lower bound is the smallest of the keys not in front. *)
Lemma lower_bound_least k l e : Forall good l -> StronglySorted (key_lt compare) l -> lower_bound compare k l = Some e ->
  e ∈ l /\ 0 <= cmp e k /\ forall e', e' ∈ l -> 0 <= cmp e' k -> cmp e e' <= 0.
Proof.
  induction l as [|x l IH]; intros Hg Hs E; [done|]. cbn in E. apply Forall_cons in Hg as [Hgx Hg].
  apply StronglySorted_inv in Hs as [Hs Hx]. destruct (Z.leb_spec 0 (cmp x k)) as [Hk|Hk].
  - injection E as <-. split; [left|]. split; [done|]. intros e' He' _. apply elem_of_cons in He' as [->|He'].
    + rewrite cmp_refl by done. lia.
    + rewrite Forall_forall in Hx. specialize (Hx e' He'). unfold key_lt in Hx. lia.
  - destruct (IH Hg Hs E) as (Hin & Hle & Hmin). split; [by right|]. split; [done|].
    intros e' He' Hk'. apply elem_of_cons in He' as [->|He']; [lia|by apply Hmin].
Qed.

Lemma lower_bound_some k l e : e ∈ l -> 0 <= cmp e k -> exists e', lower_bound compare k l = Some e'.
Proof.
  intros Hin Hk. destruct (lower_bound compare k l) as [e'|] eqn:E; [by exists e'|].
  pose proof (find_none _ _ E e ltac:(by apply list_elem_of_In)) as H. cbn in H. apply Z.leb_gt in H. lia.
Qed.

Lemma insert_all_app_inv a : forall b s t, insert_all compare (a ++ b) s = (Ret tt, t) ->
  exists s', insert_all compare a s = (Ret tt, s') /\ insert_all compare b s' = (Ret tt, t).
Proof.
  induction a as [|k a IH]; intros b s t E; [by exists s|]. cbn [insert_all app] in *.
  apply bind_Ret_inv in E as ([] & u & Eu & E). destruct (IH b u t E) as (s' & Ea & Eb).
  exists s'. split; [|exact Eb]. by erewrite bind_Ret by exact Eu.
Qed.
End LowerBound.

Section Get.
Context {U : Comparator} {L : ComparatorLaws U}.

(** ** Writing *)

(** Batches are written one after the other, each with the next sequence numbers. *)
Fixpoint write_all (s : Z) (uss : list (list update)) : M MemTable Status :=
  match uss with
  | [] => ret OK
  | us :: uss' =>
      match batch_add_all new_WriteBatch us with
      | None => stuck
      | Some b =>
          status <- InsertInto (batch_SetSequence b s) ;;
          match batch_Count b with
          | Some n => if ok status then write_all (s + n) uss' else ret status
          | None => stuck
          end
      end
  end.

(** The entries of updates with sequence numbers from [s] on. *)
Fixpoint numbered (s : Z) (us : list update) : list (list Z) :=
  match us with [] => [] | u :: us' => update_entry s u :: numbered (s + 1) us' end.

Lemma numbered_app us vs : forall s, numbered s (us ++ vs) = numbered s us ++ numbered (s + Z.of_nat (List.length us)) vs.
Proof.
  induction us as [|u us IH]; intros s; [cbn; by rewrite Z.add_0_r|]. cbn [numbered app]. rewrite IH. do 3 f_equal. cbn [List.length]. lia.
Qed.

Lemma length_numbered us : forall s, List.length (numbered s us) = List.length us.
Proof. induction us as [|u us IH]; intros s; cbn; [done|]. by rewrite IH. Qed.

Lemma elem_of_numbered us e : forall s, e ∈ numbered s us <-> exists i u, us !! i = Some u /\ e = update_entry (s + Z.of_nat i) u.
Proof.
  induction us as [|u us IH]; intros s; cbn [numbered].
  - split; [intros He; by apply elem_of_nil in He|]. intros (i & u & Hu & _). done.
  - rewrite elem_of_cons, IH. split.
    + intros [->|(i & u' & Hu & ->)]; [exists 0%nat, u; split; [done|]; f_equal; lia|].
      exists (S i), u'. split; [done|]. f_equal. lia.
    + intros ([|i] & u' & Hu & ->); [left; injection Hu as ->; f_equal; lia|right]. exists i, u'. split; [done|]. f_equal. lia.
Qed.

Lemma handle_all_inserter us : forall s m t, 0 <= s -> s + Z.of_nat (List.length us) < 2 ^ 64 ->
  insert_all entry_compare (numbered s us) (table_ m) = (Ret tt, t) ->
  handle_all MemTableInserter us (s, m) = (Ret tt, (s + Z.of_nat (List.length us), mk_memtable (mem_refs_ m) t)).
Proof.
  induction us as [|u us IH]; intros s m t Hs Hlen E; cbn [handle_all numbered insert_all List.length] in *.
  - injection E as <-. rewrite Z.add_0_r. by destruct m.
  - apply bind_Ret_inv in E as ([] & v & Ev & E).
    assert (Hh : handle MemTableInserter u (s, m) = (Ret tt, (s + 1, mk_memtable (mem_refs_ m) v))).
    { assert (Ha : inserter_add (update_type u) (fst u) (update_value u) (s, m) = (Ret tt, (s + 1, mk_memtable (mem_refs_ m) v))).
      { unfold inserter_add. rewrite bind_gets. cbn [fst]. unfold bind, zoom, mem_Add, on_table. cbn [snd fst].
        unfold zoom. fold (update_entry s u). rewrite Ev. cbn [fst snd]. unfold modify. cbn. rewrite uwrap_small by lia. done. }
      destruct u as [k [w|]]; exact Ha. }
    erewrite bind_Ret by exact Hh. rewrite (IH (s + 1) (mk_memtable (mem_refs_ m) v) t) by (done || lia). cbn [mem_refs_].
    replace (s + Z.of_nat (S (List.length us))) with (s + 1 + Z.of_nat (List.length us)) by lia. done.
Qed.

Lemma InsertInto_of us s m t : Forall update_fits us -> Z.of_nat (List.length us) < 2 ^ 31 ->
  0 <= s -> s + Z.of_nat (List.length us) < 2 ^ 64 ->
  insert_all entry_compare (numbered s us) (table_ m) = (Ret tt, t) ->
  InsertInto (batch_bytes s us) m = (Ret OK, mk_memtable (mem_refs_ m) t).
Proof.
  intros Hf Hlen Hs Hs' E. unfold InsertInto. unfold batch_Sequence, batch_bytes at 1. rewrite DecodeFixed64_of by lia.
  rewrite (batch_Iterate_of _ s us (s, m) (s + Z.of_nat (List.length us), mk_memtable (mem_refs_ m) t) Hf Hlen); [done|].
  by apply handle_all_inserter.
Qed.

Lemma write_all_of uss : forall s m t, Forall (fun us => Forall update_fits us /\ Z.of_nat (List.length us) < 2 ^ 31) uss ->
  0 <= s -> s + Z.of_nat (List.length (concat uss)) < 2 ^ 64 ->
  insert_all entry_compare (numbered s (concat uss)) (table_ m) = (Ret tt, t) ->
  write_all s uss m = (Ret OK, mk_memtable (mem_refs_ m) t).
Proof.
  induction uss as [|us uss IH]; intros s m t Hf Hs Hlen E; cbn [write_all concat] in *.
  - cbn in E. injection E as <-. by destruct m.
  - apply Forall_cons in Hf as [[Hu Hn] Hf]. rewrite length_app in Hlen. rewrite numbered_app in E.
    apply insert_all_app_inv in E as (v & Ev & E).
    rewrite new_batch_bytes, (batch_add_all_of 0 us []) by done. cbn [app]. rewrite batch_SetSequence_of.
    erewrite bind_Ret by (apply InsertInto_of; [done|done|done|lia|exact Ev]).
    unfold batch_bytes at 1. rewrite batch_Count_of by lia. cbn [ok OK].
    rewrite (IH (s + Z.of_nat (List.length us)) (mk_memtable (mem_refs_ m) v) t); [done|done|lia|lia|exact E].
Qed.

(** ** Reading *)

(** What the updates say of a key. *)
Definition latest (k : Slice) (us : list update) : option (option (list Z)) :=
  snd <$> List.find (fun u => order (fst u) k =? 0) (rev us).

(** The updates, from the sequence number [s] on, that a reader at [sn] sees. *)
Definition visible (s sn : Z) (us : list update) : list update := take (Z.to_nat (sn - s + 1)) us.

Definition updates_ok (s : Z) (us : list update) : Prop :=
  Forall (fun u => update_fits u /\ key_ok (fst u)) us /\ 0 <= s /\ s + Z.of_nat (List.length us) <= kMaxSequenceNumber.

Lemma updates_ok_lookup s us i u : updates_ok s us -> us !! i = Some u ->
  update_fits u /\ key_ok (fst u) /\ 0 <= s + Z.of_nat i <= kMaxSequenceNumber.
Proof.
  intros (Hf & Hs & Hlen) Hu. rewrite Forall_forall in Hf. destruct (Hf u) as [H1 H2]; [by eapply list_elem_of_lookup_2|].
  apply lookup_lt_Some in Hu. split; [done|]. split; [done|]. lia.
Qed.

(** The order of the entries of two updates. *)
Lemma cmp_entries s1 u1 s2 u2 : update_fits u1 -> update_fits u2 -> 0 <= s1 <= kMaxSequenceNumber -> 0 <= s2 <= kMaxSequenceNumber ->
  cmp (update_entry s1 u1) (update_entry s2 u2) =
    (if order (fst u1) (fst u2) =? 0 then
       if s2 * 256 + ValueType_value (update_type u2) <? s1 * 256 + ValueType_value (update_type u1) then -1
       else if s1 * 256 + ValueType_value (update_type u1) <? s2 * 256 + ValueType_value (update_type u2) then 1 else 0
     else order (fst u1) (fst u2)).
Proof.
  intros Hu1 Hu2 Hs1 Hs2. cbn [cmp entry_order]. rewrite !entry_key_of by done.
  apply internal_order_of; [apply Hu1|apply Hu2|done|done].
Qed.

Lemma numbered_good s us : updates_ok s us -> Forall good (numbered s us).
Proof.
  intros Hok. apply Forall_forall. intros e He. apply elem_of_numbered in He as (i & u & Hu & ->).
  destruct (updates_ok_lookup s us i u Hok Hu) as (H1 & H2 & H3). by apply update_entry_good.
Qed.

Lemma type_value_range t : 0 <= ValueType_value t <= 1.
Proof. destruct t; cbn; lia. Qed.

Lemma numbered_distinct us : forall s, updates_ok s us -> distinct entry_compare (numbered s us).
Proof.
  induction us as [|u us IH]; intros s Hok; [constructor|]. pose proof Hok as (Hf & Hs & Hlen).
  apply Forall_cons in Hf as [[Hfu Hku] Hf]. cbn [List.length] in Hlen.
  assert (Hok' : updates_ok (s + 1) us) by (split; [done|]; lia).
  constructor; [by apply IH|]. apply Forall_forall. intros e He. apply elem_of_numbered in He as (i & v & Hv & ->).
  destruct (updates_ok_lookup (s + 1) us i v Hok' Hv) as (H1 & H2 & H3).
  rewrite cmp_entries by (done || lia). pose proof (type_value_range (update_type u)). pose proof (type_value_range (update_type v)).
  destruct (Z.eqb_spec (order (fst u) (fst v)) 0); [|done].
  destruct (Z.ltb_spec ((s + 1 + Z.of_nat i) * 256 + ValueType_value (update_type v)) (s * 256 + ValueType_value (update_type u))); [lia|].
  destruct (Z.ltb_spec (s * 256 + ValueType_value (update_type u)) ((s + 1 + Z.of_nat i) * 256 + ValueType_value (update_type v))); lia.
Qed.

(** ** The entry that a search finds *)

Section Search.
Context (s : Z) (us : list update) (Hok : updates_ok s us).
Context (k : Slice) (sn : Z) (Hk : key_ok k) (Hksize : size k + 8 < 2 ^ 32) (Hsn : 0 <= sn <= kMaxSequenceNumber).
Context (es : list (list Z)) (Hperm : es ≡ₚ numbered s us) (Hsorted : StronglySorted (key_lt entry_compare) es).

Let target := memtable_key (new_LookupKey k sn).

Lemma target_prefixed : target = prefixed (internal_key_bytes k sn kTypeValue) ++ [].
Proof.
  pose proof (size_nonneg k). unfold target, memtable_key, new_LookupKey, prefixed, internal_key_bytes. cbn [lk_bytes].
  rewrite size_app, size_EncodeFixed64, uwrap_small, EncodeVarint32_groups by lia. by rewrite app_nil_r.
Qed.

Lemma target_key : entry_key target = internal_key_bytes k sn kTypeValue.
Proof. rewrite target_prefixed. unfold entry_key. rewrite entry_slice_of; [done|]. by rewrite size_internal_key. Qed.

Lemma target_good : good (KeyOrder := entry_order) target.
Proof.
  split; [rewrite target_prefixed, entry_slice_of by (by rewrite size_internal_key); by eexists|].
  rewrite target_key. by apply internal_key_ok.
Qed.

Lemma cmp_target i u : us !! i = Some u ->
  0 <= cmp (KeyOrder := entry_order) (update_entry (s + Z.of_nat i) u) target <->
  order (fst u) k > 0 \/ (order (fst u) k = 0 /\ s + Z.of_nat i <= sn).
Proof.
  intros Hu. destruct (updates_ok_lookup s us i u Hok Hu) as (H1 & H2 & H3). cbn [cmp entry_order].
  rewrite entry_key_of, target_key by done. rewrite internal_order_of by (done || apply H1). cbn [ValueType_value].
  pose proof (type_value_range (update_type u)). destruct (Z.eqb_spec (order (fst u) k) 0) as [E|E]; [|lia].
  destruct (Z.ltb_spec (sn * 256 + 1) ((s + Z.of_nat i) * 256 + ValueType_value (update_type u))); [lia|].
  destruct (Z.ltb_spec ((s + Z.of_nat i) * 256 + ValueType_value (update_type u)) (sn * 256 + 1)); lia.
Qed.

Lemma in_es e : e ∈ es <-> exists i u, us !! i = Some u /\ e = update_entry (s + Z.of_nat i) u.
Proof. rewrite Hperm. apply elem_of_numbered. Qed.

Lemma es_good : Forall good es.
Proof. pose proof (numbered_good s us Hok) as Hg. rewrite Forall_forall in Hg |- *. intros e He. apply Hg. by rewrite <- Hperm. Qed.

(** What the search finds, and what the list of updates says. *)
Lemma search_finds :
  match latest k (visible s sn us) with
  | Some o => exists i u, us !! i = Some u /\ lower_bound entry_compare target es = Some (update_entry (s + Z.of_nat i) u) /\
      order (fst u) k = 0 /\ snd u = o
  | None => lower_bound entry_compare target es = None \/
      exists i u, us !! i = Some u /\ lower_bound entry_compare target es = Some (update_entry (s + Z.of_nat i) u) /\ order (fst u) k <> 0
  end.
Proof.
  pose proof (proj1 (proj2 Hok)) as Hs. unfold latest, visible. set (n := Z.to_nat (sn - s + 1)). destruct (List.find _ _) as [u|] eqn:Ef; cbn.
  - apply find_rev_some in Ef as (i & Hi & Hord & Hlater). apply Z.eqb_eq in Hord. apply lookup_take_Some in Hi as [Hi Hin].
    assert (Hle : s + Z.of_nat i <= sn) by (unfold n in Hin; lia).
    assert (Hge : 0 <= cmp (KeyOrder := entry_order) (update_entry (s + Z.of_nat i) u) target) by (apply (cmp_target i u Hi); right; done).
    assert (Hin' : update_entry (s + Z.of_nat i) u ∈ es) by (apply in_es; by exists i, u).
    destruct (lower_bound_some entry_compare target es _ Hin' Hge) as [e He].
    destruct (lower_bound_least entry_compare target es e es_good Hsorted He) as (Hein & Hege & Hmin).
    specialize (Hmin _ Hin' Hge). apply in_es in Hein as (j & v & Hv & ->).
    destruct (updates_ok_lookup s us i u Hok Hi) as (Hu1 & Hu2 & Hu3). destruct (updates_ok_lookup s us j v Hok Hv) as (Hv1 & Hv2 & Hv3).
    apply (cmp_target j v Hv) in Hege. rewrite cmp_entries in Hmin by done.
    pose proof (type_value_range (update_type u)). pose proof (type_value_range (update_type v)).
    pose proof (order_trans _ _ _ Hv2 Hu2 Hk). pose proof (order_flip _ _ Hv2 Hk). pose proof (order_flip _ _ Hk Hv2).
    pose proof (order_trans _ _ _ Hk Hv2 Hu2). pose proof (order_flip _ _ Hu2 Hk). pose proof (order_flip _ _ Hk Hu2).
    pose proof (order_flip _ _ Hv2 Hu2). pose proof (order_flip _ _ Hu2 Hv2).
    pose proof (order_trans _ _ _ Hu2 Hk Hv2). pose proof (order_trans _ _ _ Hv2 Hk Hu2).
    assert (Hvk : order (fst v) k = 0).
    { destruct (Z.eqb_spec (order (fst v) (fst u)) 0); lia. }
    assert (Hvu : order (fst v) (fst u) = 0) by lia. rewrite Hvu in Hmin. cbn [Z.eqb] in Hmin.
    assert (Hjn : (j < n)%nat) by (unfold n; lia).
    assert (Hji : j = i).
    { destruct (Nat.lt_trichotomy i j) as [Hlt|[Heq|Hgt]]; [|done|].
      - pose proof (Hlater j v Hlt) as Hf. rewrite lookup_take_Some in Hf. specialize (Hf (conj Hv Hjn)). rewrite Hvk in Hf. done.
      - destruct (Z.ltb_spec ((s + Z.of_nat i) * 256 + ValueType_value (update_type u)) ((s + Z.of_nat j) * 256 + ValueType_value (update_type v))); [lia|].
        destruct (Z.ltb_spec ((s + Z.of_nat j) * 256 + ValueType_value (update_type v)) ((s + Z.of_nat i) * 256 + ValueType_value (update_type u))); lia. }
    subst j. rewrite Hi in Hv. injection Hv as <-. by exists i, u.
  - destruct (lower_bound entry_compare target es) as [e|] eqn:He; [right|by left].
    destruct (lower_bound_least entry_compare target es e es_good Hsorted He) as (Hein & Hege & _).
    apply in_es in Hein as (j & v & Hv & ->). exists j, v. split; [done|]. split; [done|]. intros Hvk.
    apply (cmp_target j v Hv) in Hege. assert (Hjn : (j < n)%nat) by (unfold n; lia).
    pose proof (find_rev_none _ _ v Ef) as Hf. cbn in Hf. rewrite Hvk in Hf. discriminate Hf.
    eapply list_elem_of_lookup_2. apply lookup_take_Some. done.
Qed.
End Search.

(** ** [Get] *)

Lemma on_table_read {A} (c : M (SkipList (list Z)) A) (m : MemTable) a :
  c (table_ m) = (Ret a, table_ m) -> on_table c m = (Ret a, m).
Proof. intros E. unfold on_table, zoom. rewrite E. by destruct m. Qed.

(** What [Get] answers about an update that was found, or not. *)
Definition answer (value : list Z) (st : Status) (o : option (option (list Z))) : bool * list Z * Status :=
  match o with
  | Some (Some v) => (true, v, st)
  | Some None => (true, value, NotFound [] [])
  | None => (false, value, st)
  end.

(** The entry at the node that the search gave. *)
Lemma mem_Get_at m L0 k sn value st n e u i s :
  wf entry_compare (table_ m) L0 -> n ∈ L0 0%nat -> kv (table_ m) n = e ->
  e = update_entry (s + Z.of_nat i) u -> update_fits u -> key_ok (fst u) -> 0 <= s + Z.of_nat i <= kMaxSequenceNumber ->
  key_ok k -> size k + 8 < 2 ^ 32 ->
  on_table (iter_Seek entry_compare (memtable_key (new_LookupKey k sn))) m = (Ret (Some n), m) ->
  mem_Get (new_LookupKey k sn) value st m =
    (Ret (if order (fst u) k =? 0 then answer value st (Some (snd u)) else (false, value, st)), m).
Proof.
  intros Hwf Hn Hkv -> Hfit Hku Hs Hk Hksize Hseek. unfold mem_Get. erewrite bind_Ret by exact Hseek. cbv beta iota.
  erewrite bind_Ret by (apply on_table_read; rewrite (iter_key_ok entry_compare (table_ m) L0 Hwf n Hn), Hkv; done).
  pose proof (size_nonneg (fst u)). pose proof (size_nonneg k).
  rewrite update_entry_of, entry_slice_of by (rewrite ?size_internal_key; done || apply Hfit).
  rewrite size_internal_key. replace (size (fst u) + 8 - 8) with (size (fst u)) by lia.
  assert (Hu : take (Z.to_nat (size (fst u))) (internal_key_bytes (fst u) (s + Z.of_nat i) (update_type u)) = fst u) by apply take_size_app.
  rewrite Hu, key_number_of by done.
  assert (Hlu : lookup_user_key (new_LookupKey k sn) = k).
  { unfold lookup_user_key, new_LookupKey. cbn [lk_bytes lk_kstart]. rewrite drop_size_app, size_app, size_EncodeFixed64.
    replace (size k + 8 - 8) with (size k) by lia. apply take_size_app. }
  rewrite Hlu, (Compare_order _ _ Hku Hk). destruct (order (fst u) k =? 0); [|done].
  rewrite PackSequenceAndType_sum by done. change 0xff with (Z.ones 8). rewrite Z.land_ones by lia. change (2 ^ 8) with 256.
  replace (((s + Z.of_nat i) * 256 + ValueType_value (update_type u)) mod 256) with (ValueType_value (update_type u))
    by (pose proof (type_value_range (update_type u)); zlia).
  destruct u as [uk [v|]]; [|done]. cbn [update_type snd ValueType_value]. unfold update_value. cbn [snd].
  rewrite <- (app_nil_r (prefixed v)), entry_slice_of by apply Hfit. done.
Qed.

(** C23: A memtable to which batches were written answers every read as the list of
    their updates: the last update of the key whose sequence number is not above
    the reader's decides, a value is found, a deletion is [NotFound], and without
    an update [Get] returns [false]. *)
Theorem memtable_get (s : Z) (uss : list (list update)) (k : Slice) (sn : Z) (value : list Z) (st : Status) :
  updates_ok s (concat uss) -> Forall (fun us => Z.of_nat (List.length us) < 2 ^ 31) uss ->
  key_ok k -> size k + 8 < 2 ^ 32 -> 0 <= sn <= kMaxSequenceNumber ->
  exists m, write_all s uss new_MemTable = (Ret OK, m) /\
    mem_Get (new_LookupKey k sn) value st m = (Ret (answer value st (latest k (visible s sn (concat uss)))), m).
Proof.
  intros Hok Hcounts Hk Hksize Hsn. set (us := concat uss) in *. pose proof Hok as (Hf & Hs & Hlen).
  change kMaxSequenceNumber with 72057594037927935 in Hlen.
  destruct (insert_all_ok entry_compare (numbered s us) (numbered_good s us Hok) (numbered_distinct us s Hok)) as (t & L0 & E & Hwf & Hc & _).
  { rewrite length_numbered. lia. }
  exists (mk_memtable 0 t). split.
  { apply write_all_of; [|lia|fold us; lia|exact E]. apply Forall_forall. intros u Hu. rewrite Forall_forall in Hcounts. split; [|by apply Hcounts].
    apply Forall_forall. intros x Hx. apply (proj1 (Forall_forall _ us) Hf x). apply list_elem_of_In, in_concat. exists u. split; by apply list_elem_of_In. }
  set (m := mk_memtable 0 t). assert (Hperm : contents t L0 ≡ₚ numbered s us) by (rewrite Hc; apply sort_perm).
  assert (Hsize : Z.of_nat (List.length (L0 0%nat)) < 2 ^ 64).
  { apply Permutation_length in Hperm. unfold contents in Hperm. rewrite length_map, length_numbered in Hperm. lia. }
  pose proof (search_finds s us Hok k sn Hk Hksize Hsn (contents t L0) Hperm (key_lt_contents entry_compare t L0 Hwf)) as Hfind.
  destruct (iter_Seek_ok entry_compare t L0 Hwf Hsize _ (target_good k sn Hk Hksize)) as (a & b & Ea & Eb & _ & Hlow).
  assert (Hseek : on_table (iter_Seek entry_compare (memtable_key (new_LookupKey k sn))) m = (Ret (head a), m)) by (by apply on_table_read).
  rewrite Hlow in Hfind. destruct a as [|n a]; cbn [map head] in Hfind.
  - destruct (latest k (visible s sn us)) as [o|]; [by destruct Hfind as (i & u & _ & ? & _)|].
    unfold mem_Get. by erewrite bind_Ret by exact Hseek.
  - assert (Hn : n ∈ L0 0%nat) by (rewrite Eb; apply elem_of_app; right; left).
    destruct (latest k (visible s sn us)) as [o|].
    + destruct Hfind as (i & u & Hu & [= Hkv] & Hord & <-). destruct (updates_ok_lookup s us i u Hok Hu) as (H1 & H2 & H3).
      rewrite (mem_Get_at m L0 k sn value st n _ u i s Hwf Hn Hkv eq_refl H1 H2 H3 Hk Hksize Hseek), Hord. done.
    + destruct Hfind as [?|(i & u & Hu & [= Hkv] & Hord)]; [done|]. destruct (updates_ok_lookup s us i u Hok Hu) as (H1 & H2 & H3).
      rewrite (mem_Get_at m L0 k sn value st n _ u i s Hwf Hn Hkv eq_refl H1 H2 H3 Hk Hksize Hseek).
      by destruct (Z.eqb_spec (order (fst u) k) 0).
Qed.
End Get.

(** Two batches: the second one overwrites a key of the first and deletes another. *)
Definition sample_updates : list (list update) :=
  [[(literal "a", Some (literal "1")); (literal "b", Some (literal "2"))];
   [(literal "a", Some (literal "3")); (literal "b", None)]].

Lemma memtable_get_witness :
  exists m, write_all (U := BytewiseComparator) 7 sample_updates new_MemTable = (Ret OK, m) /\
    mem_Get (user_comparator := BytewiseComparator) (new_LookupKey (literal "a") 8) [] OK m = (Ret (true, literal "1", OK), m).
Proof.
  assert (E : answer [] OK (latest (L := bytewise_laws) (literal "a") (visible 7 8 (concat sample_updates))) = (true, literal "1", OK)) by (vm_compute; reflexivity).
  rewrite <- E. apply (memtable_get 7 sample_updates (literal "a") 8 [] OK).
  - split; [|vm_compute; split; intros H; discriminate H].
    repeat constructor; try (vm_compute; reflexivity); unfold byte; cbn; lia.
  - repeat constructor.
  - repeat constructor; unfold byte; cbn; lia.
  - vm_compute. reflexivity.
  - vm_compute. split; intros H; discriminate H.
Defined.
