(* ===== verification/LdbBlock.v ===== *)
(** [table/block_builder.h]/[.cc] and [table/block.h]/[.cc]: blocks of sorted
    entries, whose keys are stored without the prefix they share with the key
    before, except at restart points. *)

From Stdlib Require Import ZArith Lia List String Bool.
From stdpp Require Import base list.
From S2P Require Import Prelude Base128 LdbBase LdbText LdbCoding LdbFilter LdbKeys.

(** ** [BlockBuilder] *)

Record BlockBuilder := mk_bbuilder {
  bb_buffer : list Z;
  bb_restarts : list Z;
  bb_counter : Z;
  bb_finished : bool;
  bb_last_key : list Z
}.

Definition new_BlockBuilder : BlockBuilder := mk_bbuilder [] [0] 0 false [].
Definition bb_Reset (b : BlockBuilder) : BlockBuilder := mk_bbuilder [] [0] 0 false [].

Definition bb_CurrentSizeEstimate (b : BlockBuilder) : Z := size (bb_buffer b) + size (bb_restarts b) * 4 + 4.
Definition bb_empty (b : BlockBuilder) : bool := size (bb_buffer b) =? 0.

(** The builder afterwards, and the contents. *)
Definition bb_Finish (b : BlockBuilder) : BlockBuilder * Slice :=
  let buffer := fold_left PutFixed32 (bb_restarts b) (bb_buffer b) in
  let buffer := PutFixed32 buffer (u32 (size (bb_restarts b))) in
  (mk_bbuilder buffer (bb_restarts b) (bb_counter b) true (bb_last_key b), buffer).

(** Asserted: the block is not finished, and [key] is larger than the last key. *)
Definition bb_Add (block_restart_interval : Z) (key value : Slice) (b : BlockBuilder) : BlockBuilder :=
  let '(shared, restarts, counter) :=
    if bb_counter b <? block_restart_interval
    then (diff_index (bb_last_key b) key, bb_restarts b, bb_counter b)
    else (0%nat, bb_restarts b ++ [u32 (size (bb_buffer b))], 0) in
  let non_shared := size key - Z.of_nat shared in
  let buffer := PutVarint32 (bb_buffer b) (u32 (Z.of_nat shared)) in
  let buffer := PutVarint32 buffer (u32 non_shared) in
  let buffer := PutVarint32 buffer (u32 (size value)) in
  let buffer := buffer ++ drop shared key ++ value in
  mk_bbuilder buffer restarts (counter + 1) (bb_finished b) (take shared (bb_last_key b) ++ drop shared key).

(** ** [Block] *)

Record Block := mk_block { block_data : list Z; block_size : Z; restart_offset_ : Z }.

(** [NumRestarts], of the bytes [data_] with [size_]; asserted: there are four. *)
Definition NumRestarts (data : list Z) (size_ : Z) : option Z := DecodeFixed32 (drop (Z.to_nat (size_ - 4)) data).

(** [size_] 0 marks an error; [restart_offset_] is then not set. *)
Definition new_Block (contents : list Z) : option Block :=
  let size_ := size contents in
  if size_ <? 4 then Some (mk_block contents 0 0)
  else
    num ← NumRestarts contents size_;
    let max_restarts_allowed := (size_ - 4) / 4 in
    if max_restarts_allowed <? num then Some (mk_block contents 0 0)
    else Some (mk_block contents size_ (u32 (u64 (size_ - u64 (u32 (1 + num) * 4))))).

(** The three lengths and the bytes behind them; [None] is null. The entry starts at
    [p], which ends at [limit]. *)
Definition DecodeEntry (p : list Z) : option (Z * Z * Z * list Z) :=
  if size p <? 3 then None
  else
    r ← (let shared := nth 0 p 0 in
         let non_shared := nth 1 p 0 in
         let value_length := nth 2 p 0 in
         if Z.lor (Z.lor shared non_shared) value_length <? 128
         then Some (shared, non_shared, value_length, drop 3 p)
         else
           r ← GetVarint32Ptr p;
           let '(shared, p) := r in
           r ← GetVarint32Ptr p;
           let '(non_shared, p) := r in
           r ← GetVarint32Ptr p;
           let '(value_length, p) := r in
           Some (shared, non_shared, value_length, p));
    let '(shared, non_shared, value_length, p) := r in
    if u32 (size p) <? u32 (non_shared + value_length) then None
    else Some (shared, non_shared, value_length, p).

(** ** [Block::Iter] *)

(** [value_] is an offset in the data and a length; [None] is the empty slice that is
    not in the data. *)
Record BlockIter := mk_biter {
  current_ : Z;
  restart_index_ : Z;
  bkey_ : list Z;
  bvalue_ : option (Z * Z);
  bstatus_ : Status
}.

Section Iter.
Context {comparator : Comparator} (data : list Z) (restarts_ num_restarts_ : Z).

Definition new_BlockIter : BlockIter := mk_biter restarts_ num_restarts_ [] None OK.

(** The constructor leaves [value_] an empty slice, behind which no entry is looked
    for before a seek. *)
Definition NextEntryOffset : M BlockIter Z :=
  it <- get ;;
  match bvalue_ it with Some (off, len) => ret (u32 (off + len)) | None => stuck end.

Definition GetRestartPoint (index : Z) : M BlockIter Z :=
  match DecodeFixed32 (drop (Z.to_nat (restarts_ + index * 4)) data) with
  | Some v => ret v
  | None => stuck
  end.

Definition set_restart_index (i : Z) : M BlockIter unit :=
  modify (fun it => mk_biter (current_ it) i (bkey_ it) (bvalue_ it) (bstatus_ it)).
Definition set_current (c : Z) : M BlockIter unit :=
  modify (fun it => mk_biter c (restart_index_ it) (bkey_ it) (bvalue_ it) (bstatus_ it)).

Definition SeekToRestartPoint (index : Z) : M BlockIter unit :=
  offset <- GetRestartPoint index ;;
  modify (fun it => mk_biter (current_ it) index [] (Some (offset, 0)) (bstatus_ it)).

Definition Valid (it : BlockIter) : bool := current_ it <? restarts_.
Definition iter_status (it : BlockIter) : Status := bstatus_ it.
Definition block_key : M BlockIter Slice := gets bkey_.
(** A value that ends behind the data is read outside it. *)
Definition block_value : M BlockIter Slice :=
  it <- get ;;
  match bvalue_ it with
  | Some (off, len) =>
      let v := take (Z.to_nat len) (drop (Z.to_nat off) data) in
      if size v =? len then ret v else stuck
  | None => ret []
  end.

Definition CorruptionError : M BlockIter unit :=
  modify (fun it => mk_biter restarts_ num_restarts_ [] None (Corruption (literal "bad entry in block") [])).

(** [while (restart_index_ + 1 < num_restarts_ && ...) ++restart_index_;] *)
Definition advance_restart (_ : unit) : M BlockIter (unit + unit) :=
  it <- get ;;
  if u32 (restart_index_ it + 1) <? num_restarts_ then
    p <- GetRestartPoint (u32 (restart_index_ it + 1)) ;;
    if p <? current_ it then set_restart_index (u32 (restart_index_ it + 1)) ;; ret (inl tt)
    else ret (inr tt)
  else ret (inr tt).

Definition ParseNextKey : M BlockIter bool :=
  off <- NextEntryOffset ;;
  set_current off ;;
  if restarts_ <=? off then
    set_current restarts_ ;; set_restart_index num_restarts_ ;; ret false
  else
    it <- get ;;
    match DecodeEntry (take (Z.to_nat (restarts_ - off)) (drop (Z.to_nat off) data)) with
    | None => CorruptionError ;; ret false
    | Some (shared, non_shared, value_length, p) =>
        if size (bkey_ it) <? shared then CorruptionError ;; ret false
        else
          let pos := restarts_ - size p in
          let delta := take (Z.to_nat non_shared) (drop (Z.to_nat pos) data) in
          if negb (size delta =? non_shared) then stuck
          else
            modify (fun it => mk_biter (current_ it) (restart_index_ it) (take (Z.to_nat shared) (bkey_ it) ++ delta)
                                (Some (pos + non_shared, value_length)) (bstatus_ it)) ;;
            loop advance_restart tt ;;
            ret true
    end.

Definition block_Next : M BlockIter unit := ParseNextKey ;; ret tt.

(** The first loop of [Prev]: [inr false] is its [return]. *)
Definition prev_restart (original : Z) (_ : unit) : M BlockIter (unit + bool) :=
  it <- get ;;
  p <- GetRestartPoint (restart_index_ it) ;;
  if original <=? p then
    if restart_index_ it =? 0 then
      set_current restarts_ ;; set_restart_index num_restarts_ ;; ret (inr false)
    else set_restart_index (restart_index_ it - 1) ;; ret (inl tt)
  else ret (inr true).

(** [ParseNextKey() && NextEntryOffset() < bound] *)
Definition parse_before (bound : Z) (_ : unit) : M BlockIter (unit + unit) :=
  more <- ParseNextKey ;;
  if more then off <- NextEntryOffset ;; ret (if off <? bound then inl tt else inr tt) else ret (inr tt).

Definition block_Prev : M BlockIter unit :=
  it <- get ;;
  let original := current_ it in
  found <- loop (prev_restart original) tt ;;
  if found : bool then
    it <- get ;;
    SeekToRestartPoint (restart_index_ it) ;;
    loop (parse_before original) tt
  else ret tt.

(** One round of the binary search; [inr None] is the [return] on an error. *)
Definition seek_restart (target : Slice) (l : Z * Z) : M BlockIter (Z * Z + option Z) :=
  let '(left_, right_) := l in
  if left_ <? right_ then
    let mid := u32 (left_ + right_ + 1) / 2 in
    region_offset <- GetRestartPoint mid ;;
    match DecodeEntry (take (Z.to_nat (restarts_ - region_offset)) (drop (Z.to_nat region_offset) data)) with
    | Some (0, non_shared, _, key_ptr) =>
        let mid_key := take (Z.to_nat non_shared) (drop (Z.to_nat (restarts_ - size key_ptr)) data) in
        if negb (size mid_key =? non_shared) then stuck
        else
          match Compare mid_key target with
          | Some c => ret (inl (if c <? 0 then (mid, right_) else (left_, mid - 1)))
          | None => stuck
          end
    | _ => CorruptionError ;; ret (inr None)
    end
  else ret (inr (Some left_)).

Definition seek_linear (target : Slice) (_ : unit) : M BlockIter (unit + unit) :=
  more <- ParseNextKey ;;
  if more : bool then
    it <- get ;;
    match Compare (bkey_ it) target with
    | Some c => ret (if 0 <=? c then inr tt else inl tt)
    | None => stuck
    end
  else ret (inr tt).

Definition block_Seek (target : Slice) : M BlockIter unit :=
  found <- loop (seek_restart target) (0, num_restarts_ - 1) ;;
  match found with
  | Some left_ => SeekToRestartPoint left_ ;; loop (seek_linear target) tt
  | None => ret tt
  end.

Definition block_SeekToFirst : M BlockIter unit := SeekToRestartPoint 0 ;; ParseNextKey ;; ret tt.

Definition block_SeekToLast : M BlockIter unit :=
  SeekToRestartPoint (num_restarts_ - 1) ;; loop (parse_before restarts_) tt.
End Iter.

(** [Block::NewIterator]: an error, the empty iterator, or an [Iter] with its
    [restarts_] and [num_restarts_]. *)
Inductive BlockIterator :=
  | ErrorIterator (s : Status)
  | EmptyIterator
  | IterOf (data : list Z) (restarts num_restarts : Z) (it : BlockIter).

Definition NewIterator (b : Block) : option BlockIterator :=
  if block_size b <? 4 then Some (ErrorIterator (Corruption (literal "bad block contents") []))
  else
    num_restarts ← NumRestarts (block_data b) (block_size b);
    if num_restarts =? 0 then Some EmptyIterator
    else Some (IterOf (block_data b) (restart_offset_ b) num_restarts (new_BlockIter (restart_offset_ b) num_restarts)).
