(* ===== verification/LdbBlockProps.v ===== *)
(** Blocks: what a block contains, entry by entry, and what the iterator does on it. *)

From Stdlib Require Import ZArith Lia List String Bool.
From stdpp Require Import base list sorting.
From S2P Require Import Prelude Base128 LdbBase LdbText LdbCoding LdbFilter LdbKeys LdbKeyProps LdbBlock.

(** ** The bytes of an entry *)

(** An entry: the length of the prefix it shares with the key before, its key and
    its value. *)
Abbreviation item := (nat * (list Z * list Z))%type.

Definition enc (e : item) : list Z :=
  let '(shared, (k, v)) := e in
  varint_bytes (Z.of_nat shared) ++ varint_bytes (size k - Z.of_nat shared) ++ varint_bytes (size v) ++ drop shared k ++ v.

Definition item_fits (e : item) : Prop :=
  let '(shared, (k, v)) := e in (shared <= List.length k)%nat /\ size k < 2 ^ 32 /\ size v < 2 ^ 32.

Lemma lor_small_l a b : 0 <= a -> 0 <= b -> Z.lor a b < 128 -> a < 128.
Proof.
  intros Ha Hb H. destruct (Z.lt_ge_cases a 128) as [|Hge]; [done|].
  pose proof (Z.log2_lor a b Ha Hb). pose proof (proj1 (Z.log2_le_pow2 a 7 ltac:(lia)) ltac:(lia)).
  assert (0 < Z.lor a b) by (destruct (Z.eq_dec (Z.lor a b) 0) as [E|]; [apply Z.lor_eq_0_iff in E; lia|assert (0 <= Z.lor a b) by (by apply Z.lor_nonneg); lia]).
  pose proof (proj2 (Z.log2_le_pow2 (Z.lor a b) 7 ltac:(done)) ltac:(lia)). lia.
Qed.

Lemma lor_small a b c : 0 <= a -> 0 <= b -> 0 <= c -> Z.lor (Z.lor a b) c < 128 -> a < 128 /\ b < 128 /\ c < 128.
Proof.
  intros Ha Hb Hc H. assert (Hab : 0 <= Z.lor a b) by (by apply Z.lor_nonneg).
  pose proof (lor_small_l _ _ Hab Hc H) as Hl. rewrite Z.lor_comm in H. split; [by apply (lor_small_l a b)|].
  split; [rewrite Z.lor_comm in Hl; by apply (lor_small_l b a)|by apply (lor_small_l c (Z.lor a b))].
Qed.

(** A varint is its value if its first byte says that it is the last. *)
Lemma varint_bytes_head v : 0 <= v < 2 ^ 32 -> exists b r, varint_bytes v = b :: r /\ byte b /\ (b < 128 -> r = [] /\ b = v).
Proof.
  intros Hv. pose proof (varint_bytes_byte v ltac:(lia)) as Hb. unfold varint_bytes in *. cbn [varint_groups] in *.
  destruct (Z.ltb_spec v 128).
  - exists v, []. split; [done|]. split; [by apply Forall_cons in Hb as [Hb _]|done].
  - eexists _, _. split; [done|]. apply Forall_cons in Hb as [Hb _]. split; [exact Hb|]. intros Hlt. zlia.
Qed.

(** Three varints at the start of an entry: the fast path reads what the others do. *)
Lemma three_varints x y z p :
  0 <= x < 2 ^ 32 -> 0 <= y < 2 ^ 32 -> 0 <= z < 2 ^ 32 ->
  let l := varint_bytes x ++ varint_bytes y ++ varint_bytes z ++ p in
  3 + size p <= size l /\
  (if Z.lor (Z.lor (nth 0 l 0) (nth 1 l 0)) (nth 2 l 0) <? 128
   then Some (nth 0 l 0, nth 1 l 0, nth 2 l 0, drop 3 l)
   else
     r ← GetVarint32Ptr l;
     let '(shared, p) := r in
     r ← GetVarint32Ptr p;
     let '(non_shared, p) := r in
     r ← GetVarint32Ptr p;
     let '(value_length, p) := r in
     Some (shared, non_shared, value_length, p)) = Some (x, y, z, p).
Proof.
  intros Hx Hy Hz l. destruct (varint_bytes_head x Hx) as (b0 & r0 & E0 & Hb0 & H0).
  destruct (varint_bytes_head y Hy) as (b1 & r1 & E1 & Hb1 & H1). destruct (varint_bytes_head z Hz) as (b2 & r2 & E2 & Hb2 & H2).
  split.
  { unfold l. rewrite E0, E1, E2, !size_app, !size_cons. pose proof (size_nonneg r0). pose proof (size_nonneg r1). pose proof (size_nonneg r2). lia. }
  destruct (Z.ltb_spec (Z.lor (Z.lor (nth 0 l 0) (nth 1 l 0)) (nth 2 l 0)) 128) as [Hlt|_].
  - set (V := varint_bytes x ++ varint_bytes y ++ varint_bytes z).
    assert (HV : Forall byte V) by (repeat (apply Forall_app; split); apply varint_bytes_byte; lia).
    assert (Hl : l = V ++ p) by (unfold l, V; by rewrite <- !app_assoc).
    assert (Hlen : (3 <= List.length V)%nat) by (unfold V; rewrite E0, E1, E2, !length_app; cbn; lia).
    assert (Hnn : forall i, (i < 3)%nat -> 0 <= nth i l 0).
    { intros i Hi. rewrite Hl, app_nth1 by lia. rewrite Forall_forall in HV.
      destruct (HV (nth i V 0)); [|done]. apply list_elem_of_In, nth_In. lia. }
    destruct (lor_small _ _ _ (Hnn 0%nat ltac:(lia)) (Hnn 1%nat ltac:(lia)) (Hnn 2%nat ltac:(lia)) Hlt) as (Hl0 & Hl1 & Hl2).
    unfold l in *. rewrite E0 in Hl0, Hl1, Hl2 |- *. cbn [app nth] in Hl0. destruct (H0 Hl0) as [-> ->].
    cbn [app nth drop] in Hl1, Hl2 |- *. rewrite E1 in Hl1, Hl2 |- *. cbn [app nth drop] in Hl1. destruct (H1 Hl1) as [-> ->].
    cbn [app nth drop] in Hl2 |- *. rewrite E2 in Hl2 |- *. cbn [app nth drop] in Hl2. destruct (H2 Hl2) as [-> ->]. done.
  - unfold l. rewrite GetVarint32Ptr_of by done. cbn [mbind option_bind]. rewrite GetVarint32Ptr_of by done. cbn [mbind option_bind].
    rewrite GetVarint32Ptr_of by done. done.
Qed.

Lemma DecodeEntry_of e rest : item_fits e -> size (enc e ++ rest) < 2 ^ 32 ->
  DecodeEntry (enc e ++ rest) =
    let '(shared, (k, v)) := e in
    Some (Z.of_nat shared, size k - Z.of_nat shared, size v, drop shared k ++ v ++ rest).
Proof.
  destruct e as [shared [k v]]. intros (Hsh & Hk & Hv) Hsize. unfold enc in *.
  assert (Hsk : Z.of_nat shared <= size k) by (unfold size; lia). pose proof (size_nonneg v). pose proof (size_nonneg rest).
  assert (Hd : size (drop shared k) = size k - Z.of_nat shared) by (unfold size; rewrite length_drop; lia).
  rewrite <- !app_assoc in *. set (p := drop shared k ++ v ++ rest) in *.
  destruct (three_varints (Z.of_nat shared) (size k - Z.of_nat shared) (size v) p ltac:(lia) ltac:(lia) ltac:(lia)) as [Hlen Hr].
  unfold DecodeEntry. set (l := varint_bytes (Z.of_nat shared) ++ varint_bytes (size k - Z.of_nat shared) ++ varint_bytes (size v) ++ p) in *.
  pose proof (size_nonneg p). destruct (Z.ltb_spec (size l) 3); [lia|]. cbv zeta. rewrite Hr. cbn [mbind option_bind].
  assert (Hp : size p = size k - Z.of_nat shared + size v + size rest) by (unfold p; rewrite !size_app; lia).
  rewrite !uwrap_small by lia. destruct (Z.ltb_spec (size p) (size k - Z.of_nat shared + size v)); [lia|done].
Qed.

(** ** The entries of a block *)

Definition offset (l : list item) (i : nat) : Z := size (concat (map enc (take i l))).
Definition entries_bytes (l : list item) : list Z := concat (map enc l).

(** Each key shares its prefix with the one before. *)
Fixpoint chained (prev : list Z) (l : list item) : Prop :=
  match l with
  | [] => True
  | (shared, (k, v)) :: l' => (shared <= List.length prev)%nat /\ take shared prev = take shared k /\ chained k l'
  end.

Lemma size_enc e : item_fits e -> 3 <= size (enc e).
Proof.
  destruct e as [shared [k v]]. intros (Hsh & Hk & Hv). assert (Z.of_nat shared <= size k) by (unfold size; lia). pose proof (size_nonneg v).
  destruct (three_varints (Z.of_nat shared) (size k - Z.of_nat shared) (size v) (drop shared k ++ v) ltac:(lia) ltac:(lia) ltac:(lia)) as [H' _].
  pose proof (size_nonneg (drop shared k ++ v)). unfold enc. lia.
Qed.

Lemma offset_0 l : offset l 0 = 0.
Proof. done. Qed.

Lemma offset_S l i e : l !! i = Some e -> offset l (S i) = offset l i + size (enc e).
Proof. intros He. unfold offset. rewrite (take_S_r _ _ _ He), map_app, concat_app, size_app. cbn. by rewrite app_nil_r. Qed.

Lemma offset_end l : offset l (List.length l) = size (entries_bytes l).
Proof. unfold offset, entries_bytes. by rewrite firstn_all. Qed.

Lemma entries_split l i e : l !! i = Some e ->
  entries_bytes l = concat (map enc (take i l)) ++ enc e ++ concat (map enc (drop (S i) l)).
Proof.
  intros He. unfold entries_bytes. rewrite <- (take_drop_middle _ _ _ He) at 1. rewrite map_app, concat_app. done.
Qed.

Lemma chained_lookup l : forall prev i shared k v, chained prev l -> l !! i = Some (shared, (k, v)) ->
  forall k', (k' = match i with O => prev | S i' => match l !! i' with Some e => fst (snd e) | None => [] end end) ->
  (shared <= List.length k')%nat /\ take shared k' = take shared k.
Proof.
  induction l as [|[sh0 [k0 v0]] l IH]; intros prev i shared k v Hc Hi k' ->; [done|].
  destruct Hc as (H1 & H2 & Hc). destruct i as [|i]; [injection Hi as -> -> ->; done|].
  cbn in Hi. destruct (IH k0 i shared k v Hc Hi _ eq_refl) as [H3 H4]. by destruct i.
Qed.

(** ** The layout of a block *)

(** The entries [l], then the offsets of the restart points [rs], then their number. *)
Record layout (data : list Z) (l : list item) (rs : list nat) : Prop := {
  lay_data : data = entries_bytes l ++ fixed32_array (map (offset l) rs) ++ EncodeFixed32 (size rs);
  lay_size : size data < 2 ^ 32;
  lay_fits : Forall item_fits l;
  lay_chained : chained [] l;
  lay_first : head rs = Some 0%nat;
  lay_sorted : StronglySorted lt rs;
  lay_restart r shared kv : r ∈ rs -> l !! r = Some (shared, kv) -> shared = 0%nat;
  lay_range r : r ∈ rs -> (r < List.length l)%nat \/ (r = 0%nat /\ l = [])
}.

Section Iter.
Context {C : Comparator} (data : list Z) (l : list item) (rs : list nat) (Hlay : layout data l rs) (st : Status).

Let restarts : Z := size (entries_bytes l).
Let num : Z := size rs.

Lemma data_size : restarts + 4 * num + 4 = size data.
Proof.
  rewrite (lay_data _ _ _ Hlay), !size_app, size_fixed32_array, size_EncodeFixed32. unfold restarts, num, size. rewrite length_map. lia.
Qed.

Lemma num_pos : 0 < num.
Proof. pose proof (lay_first _ _ _ Hlay) as H. unfold num, size. destruct rs; [done|cbn; lia]. Qed.

Lemma small : 0 <= restarts /\ restarts + 4 * num + 4 < 2 ^ 32.
Proof. pose proof data_size. pose proof (lay_size _ _ _ Hlay). unfold restarts. pose proof (size_nonneg (entries_bytes l)). lia. Qed.

Lemma fits i e : l !! i = Some e -> item_fits e.
Proof. intros He. pose proof (lay_fits _ _ _ Hlay) as Hf. rewrite Forall_forall in Hf. apply Hf. by eapply list_elem_of_lookup_2. Qed.

Lemma offset_lt i j : (i < j <= List.length l)%nat -> offset l i < offset l j.
Proof.
  induction j as [|j IH]; [lia|]. intros Hij. destruct (lookup_lt_is_Some_2 l j ltac:(lia)) as [e He].
  rewrite (offset_S l j e He). pose proof (size_enc e (fits j e He)).
  destruct (decide (i = j)) as [->|]; [lia|]. specialize (IH ltac:(lia)). lia.
Qed.

Lemma offset_le i j : (i <= j <= List.length l)%nat -> offset l i <= offset l j.
Proof. intros Hij. destruct (decide (i = j)) as [->|]; [lia|]. apply Z.lt_le_incl, offset_lt. lia. Qed.

Lemma offset_bound i : (i <= List.length l)%nat -> 0 <= offset l i <= restarts.
Proof. intros Hi. unfold restarts. rewrite <- offset_end, <- (offset_0 l). split; apply offset_le; lia. Qed.

Lemma GetRestartPoint_of ri r it : rs !! ri = Some r ->
  GetRestartPoint data restarts (Z.of_nat ri) it = (Ret (offset l r), it).
Proof.
  intros Hr. unfold GetRestartPoint. replace (restarts + Z.of_nat ri * 4) with (size (entries_bytes l) + 4 * Z.of_nat ri) by (unfold restarts; lia).
  assert (Hle : (r <= List.length l)%nat).
  { destruct (lay_range _ _ _ Hlay r) as [H|[-> _]]; [by eapply list_elem_of_lookup_2|lia|lia]. }
  pose proof (offset_bound r Hle). pose proof small. pose proof num_pos.
  rewrite (lay_data _ _ _ Hlay). erewrite fixed32_at; [done| |lia]. by rewrite list_lookup_fmap, Hr.
Qed.

(** ** Where the iterator stands, with the status [st] *)

(** The next entry to parse is the entry [i]. *)
Definition ready (it : BlockIter) (i : nat) : Prop :=
  (exists off len, bvalue_ it = Some (off, len) /\ off + len = offset l i) /\
  (forall shared k v, l !! i = Some (shared, (k, v)) -> (shared <= List.length (bkey_ it))%nat /\ take shared (bkey_ it) = take shared k) /\
  bstatus_ it = st.

(** The restart point it is counted to is not behind the entry [i]. *)
Definition restart_ok (it : BlockIter) (i : nat) : Prop :=
  exists ri r, restart_index_ it = Z.of_nat ri /\ rs !! ri = Some r /\ offset l r <= offset l i.

Definition at_item (it : BlockIter) (i : nat) (k v : list Z) : Prop :=
  (exists shared, l !! i = Some (shared, (k, v))) /\ current_ it = offset l i /\ bkey_ it = k /\
  bvalue_ it = Some (offset l (S i) - size v, size v) /\ restart_ok it i /\ bstatus_ it = st.

Definition at_end (it : BlockIter) : Prop := current_ it = restarts /\ bstatus_ it = st.

Lemma at_item_ready it i k v : at_item it i k v -> ready it (S i).
Proof.
  intros ([sh Hi] & _ & Hk & Hv & _ & Hst). split; [|split; [|done]].
  - eexists _, _. split; [exact Hv|lia].
  - intros shared k' v' Hi'. destruct (chained_lookup l [] (S i) shared k' v' (lay_chained _ _ _ Hlay) Hi' k) as [H1 H2].
    { by rewrite Hi. }
    rewrite Hk. done.
Qed.

Lemma at_item_valid it i k v : at_item it i k v -> Valid restarts it = true.
Proof.
  intros ([sh Hi] & Hc & _). unfold Valid. rewrite Hc. apply Z.ltb_lt. unfold restarts. rewrite <- offset_end.
  apply offset_lt. apply lookup_lt_Some in Hi. lia.
Qed.

Lemma data_split i e : l !! i = Some e ->
  exists before rest, data = before ++ enc e ++ rest /\ size before = offset l i /\
    exists mid, entries_bytes l = before ++ enc e ++ mid.
Proof.
  intros He. pose proof (entries_split l i e He) as Hs. exists (concat (map enc (take i l))). eexists.
  split; [rewrite (lay_data _ _ _ Hlay), Hs, <- !app_assoc; reflexivity|]. split; [done|]. by eexists.
Qed.

Lemma enc_parts sh k v : exists pre, enc (sh, (k, v)) = pre ++ drop sh k ++ v.
Proof.
  exists (varint_bytes (Z.of_nat sh) ++ varint_bytes (size k - Z.of_nat sh) ++ varint_bytes (size v)). unfold enc. by rewrite <- !app_assoc.
Qed.

Lemma enc_ends sh k v : exists pre, enc (sh, (k, v)) = pre ++ v.
Proof. destruct (enc_parts sh k v) as [pre ->]. exists (pre ++ drop sh k). by rewrite <- app_assoc. Qed.

Lemma at_item_value it i k v : at_item it i k v -> block_value data it = (Ret v, it).
Proof.
  intros ([sh Hi] & _ & _ & Hv & _ & _). unfold block_value. rewrite bind_get, Hv.
  destruct (data_split i _ Hi) as (before & rest & Hdata & Hb & _).
  destruct (enc_ends sh k v) as [pre Hpre]. rewrite (offset_S l i _ Hi), <- Hb, Hpre, size_app in *.
  assert (Hd : drop (Z.to_nat (size before + (size pre + size v) - size v)) data = v ++ rest).
  { replace (size before + (size pre + size v) - size v) with (size (before ++ pre)) by (rewrite size_app; lia).
    rewrite Hdata, <- app_assoc, app_assoc. apply drop_size_app. }
  rewrite Hd, take_size_app, Z.eqb_refl. done.
Qed.

(** Decoding at the offset of an entry. *)
Lemma decode_at i e : l !! i = Some e -> let '(sh, (k, v)) := e in
  exists p, DecodeEntry (take (Z.to_nat (restarts - offset l i)) (drop (Z.to_nat (offset l i)) data)) =
      Some (Z.of_nat sh, size k - Z.of_nat sh, size v, p) /\
    exists rest, drop (Z.to_nat (restarts - size p)) data = drop sh k ++ v ++ rest /\
      restarts - size p + (size k - Z.of_nat sh) = offset l (S i) - size v.
Proof.
  destruct e as [sh [k v]]. intros Hi. destruct (data_split i _ Hi) as (before & rest & Hdata & Hb & mid & Hmid).
  pose proof (fits i _ Hi) as Hf. pose proof Hf as (Hsh & Hk & Hv). assert (Hsk' : Z.of_nat sh <= size k) by (unfold size; lia).
  pose proof (size_nonneg v). pose proof (size_nonneg before). pose proof small as Hsmall. pose proof num_pos.
  assert (Hd : size (drop sh k) = size k - Z.of_nat sh) by (unfold size; rewrite length_drop; lia).
  assert (Hrest : restarts = size before + size (enc (sh, (k, v))) + size mid) by (unfold restarts; rewrite Hmid, !size_app; lia).
  exists (drop sh k ++ v ++ mid). split.
  - assert (Hp : take (Z.to_nat (restarts - offset l i)) (drop (Z.to_nat (offset l i)) data) = enc (sh, (k, v)) ++ mid).
    { rewrite <- Hb, (lay_data _ _ _ Hlay), Hmid, <- !app_assoc, drop_size_app, app_assoc.
      replace (restarts - size before) with (size (enc (sh, (k, v)) ++ mid)) by (rewrite size_app; lia). apply take_size_app. }
    rewrite Hp. by apply (DecodeEntry_of (sh, (k, v))); [|rewrite size_app; lia].
  - exists rest. destruct (enc_parts sh k v) as [pre Hpre]. rewrite (offset_S l i _ Hi), <- Hb. rewrite Hpre in Hdata, Hrest |- *. rewrite !size_app in *. split; [|lia].
    replace (restarts - (size (drop sh k) + (size v + size mid))) with (size (before ++ pre)) by (rewrite size_app; lia).
    rewrite Hdata, <- !app_assoc, (app_assoc before). apply drop_size_app.
Qed.

(** ** Parsing the next entry *)

Lemma advance_restart_ok it i : restart_ok it i -> current_ it = offset l i ->
  exists it', loop (advance_restart data restarts num) tt it = (Ret tt, it') /\ restart_ok it' i /\
    current_ it' = current_ it /\ bkey_ it' = bkey_ it /\ bvalue_ it' = bvalue_ it /\ bstatus_ it' = bstatus_ it.
Proof.
  intros Hri Hc. pose proof small as Hsmall. pose proof num_pos as Hnum.
  destruct (wp_Ret (loop (advance_restart data restarts num) tt) it (fun _ it' => restart_ok it' i /\
    current_ it' = current_ it /\ bkey_ it' = bkey_ it /\ bvalue_ it' = bvalue_ it /\ bstatus_ it' = bstatus_ it)) as ([] & it' & E & H); [|by exists it'].
  apply (wp_loop _ (fun _ it' => restart_ok it' i /\
    current_ it' = current_ it /\ bkey_ it' = bkey_ it /\ bvalue_ it' = bvalue_ it /\ bstatus_ it' = bstatus_ it)
    (fun _ it' => num - restart_index_ it')).
  - intros [] t ((ri & r & Hi & Hr & Hle) & H). pose proof (lookup_lt_Some _ _ _ Hr) as Hlt.
    assert (Hnri : Z.of_nat ri < num) by (unfold num, size; lia).
    split; [lia|]. unfold advance_restart, wp. rewrite bind_get, Hi, uwrap_small by lia.
    destruct (Z.ltb_spec (Z.of_nat ri + 1) num) as [Hmore|Hmore]; [|split; [by exists ri, r|done]].
    replace (Z.of_nat ri + 1) with (Z.of_nat (S ri)) by lia. destruct (lookup_lt_is_Some_2 rs (S ri)) as [r' Hr']; [unfold num, size in Hmore; lia|].
    erewrite bind_Ret by (by apply GetRestartPoint_of). destruct (Z.ltb_spec (offset l r') (current_ t)) as [Hl|Hl].
    + unfold set_restart_index. rewrite bind_modify. cbn. destruct H as (H1 & H2 & H3 & H4). split; [|lia].
      split; [|done]. exists (S ri), r'. split; [done|]. split; [done|]. lia.
    + split; [by exists ri, r|done].
  - done.
  - destruct Hri as (ri & r & Hi & Hr & _). rewrite Hi. lia.
Qed.

Lemma NextEntryOffset_ready it i : (i <= List.length l)%nat -> ready it i -> NextEntryOffset it = (Ret (offset l i), it).
Proof.
  intros Hi [(off & len & Hv & Hoff) _]. unfold NextEntryOffset. rewrite bind_get, Hv, Hoff. pose proof (offset_bound i Hi). pose proof small. pose proof num_pos.
  by rewrite uwrap_small by lia.
Qed.

Lemma ParseNextKey_end it : ready it (List.length l) ->
  exists it', ParseNextKey data restarts num it = (Ret false, it') /\ at_end it'.
Proof.
  intros Hr. unfold ParseNextKey. erewrite bind_Ret by (apply (NextEntryOffset_ready _ (List.length l)); done).
  unfold set_current, set_restart_index. rewrite bind_modify, offset_end. fold restarts. rewrite Z.leb_refl.
  rewrite !bind_modify. eexists. split; [reflexivity|]. split; [done|]. apply (proj2 (proj2 Hr)).
Qed.

Lemma ParseNextKey_item it i sh k v : l !! i = Some (sh, (k, v)) -> ready it i -> restart_ok it i ->
  exists it', ParseNextKey data restarts num it = (Ret true, it') /\ at_item it' i k v.
Proof.
  intros Hi Hr Hri. pose proof (lookup_lt_Some _ _ _ Hi) as Hlt. unfold ParseNextKey.
  erewrite bind_Ret by (apply (NextEntryOffset_ready _ i); [lia|done]).
  unfold set_current. rewrite bind_modify. pose proof (offset_lt i (List.length l) ltac:(lia)) as Hend. rewrite offset_end in Hend. fold restarts in Hend.
  destruct (Z.leb_spec restarts (offset l i)); [lia|]. rewrite bind_get. cbn [bkey_].
  destruct Hr as (_ & Hr & Hst). destruct (Hr sh k v Hi) as [Hsk Htk]. clear Hr.
  destruct (decode_at i _ Hi) as (p & -> & rest & Hpos & Hend').
  destruct (Z.ltb_spec (size (bkey_ it)) (Z.of_nat sh)); [unfold size in *; lia|].
  assert (Hd : size (drop sh k) = size k - Z.of_nat sh) by (pose proof (fits i _ Hi) as (Hsh & _); unfold size; rewrite length_drop; lia).
  cbv zeta. rewrite Hpos, <- Hd, take_size_app, Z.eqb_refl. cbn [negb]. rewrite bind_modify. cbn [current_ restart_index_ bkey_ bvalue_ bstatus_].
  set (it1 := mk_biter (offset l i) (restart_index_ it) _ _ _).
  destruct (advance_restart_ok it1 i Hri eq_refl) as (it' & E & Ha1 & Ha2 & Ha3 & Ha4 & Ha5).
  erewrite bind_Ret by exact E. exists it'. split; [done|].
  split; [by exists sh|]. split; [done|]. split; [|split; [|split; [done|by rewrite Ha5]]].
  - rewrite Ha3. cbn. rewrite Nat2Z.id, Htk. apply take_drop.
  - rewrite Ha4. cbn. do 2 f_equal. lia.
Qed.

(** [ready], counted to a restart point. *)
Lemma SeekToRestartPoint_ok ri r it : bstatus_ it = st -> rs !! ri = Some r ->
  exists it', SeekToRestartPoint data restarts (Z.of_nat ri) it = (Ret tt, it') /\ ready it' r /\ restart_ok it' r.
Proof.
  intros Hst Hr. unfold SeekToRestartPoint. erewrite bind_Ret by (by apply GetRestartPoint_of). eexists. split; [reflexivity|].
  split.
  - split; [exists (offset l r), 0; split; [done|lia]|]. split; [|done]. intros sh k v Hl.
    assert (sh = 0%nat) as -> by (eapply (lay_restart _ _ _ Hlay); [by eapply list_elem_of_lookup_2|done]). cbn. split; [lia|done].
  - exists ri, r. split; [done|]. split; [done|]. lia.
Qed.
End Iter.
