(* ===== verification/LdbBlockBuild.v ===== *)
(** Blocks give back the entries they were built from: forwards, backwards and from
    any key.

    What [BlockBuilder] builds is laid out as [LdbBlockProps.layout] says, and a block
    over it is iterated as it was built. *)

From Stdlib Require Import ZArith Lia List String Bool.
From stdpp Require Import base list sorting.
From S2P Require Import Prelude Base128 LdbBase LdbText LdbCoding LdbFilter LdbKeys LdbKeyProps LdbBlock LdbBlockProps.

(** The entries that an iterator passes with [step], from where it stands. *)
Fixpoint scan_block {C : Comparator} (data : list Z) (restarts : Z) (step : M BlockIter unit) (n : nat) :
    M BlockIter (list (Slice * Slice)) :=
  it <- get ;;
  if Valid restarts it then
    match n with
    | O => stuck
    | S n' =>
        k <- block_key ;; v <- block_value data ;; step ;;
        r <- scan_block data restarts step n' ;; ret ((k, v) :: r)
    end
  else ret [].

Section Ops.
Context {C : Comparator} (data : list Z) (l : list item) (rs : list nat) (Hlay : layout data l rs) (st : Status).

Let restarts : Z := size (entries_bytes l).
Let num : Z := size rs.

(** ** Steps *)

Lemma at_item_restart it i k v : at_item l rs st it i k v -> restart_ok l rs it (S i).
Proof.
  intros ([sh Hi] & _ & _ & _ & (ri & r & H1 & H2 & H3) & _). exists ri, r. split; [done|]. split; [done|].
  apply lookup_lt_Some in Hi. pose proof (offset_lt data l rs Hlay i (S i) ltac:(lia)). lia.
Qed.

(** How far the next entry is from the end. *)
Definition bytes_left (it : BlockIter) : Z :=
  match bvalue_ it with Some (off, len) => restarts - (off + len) | None => 0 end.

Lemma bytes_left_ready it i : ready l st it i -> bytes_left it = restarts - offset l i.
Proof. intros ((off & len & Hv & <-) & _). unfold bytes_left. by rewrite Hv. Qed.

Lemma block_Next_ok it i k v : at_item l rs st it i k v ->
  exists it', block_Next data restarts num it = (Ret tt, it') /\
    match l !! S i with
    | Some (_, (k', v')) => at_item l rs st it' (S i) k' v'
    | None => at_end l st it'
    end.
Proof.
  intros Hat. pose proof (at_item_ready data l rs Hlay st it i k v Hat) as Hr. unfold block_Next.
  destruct (l !! S i) as [[sh [k' v']]|] eqn:Hi.
  - destruct (ParseNextKey_item data l rs Hlay st it (S i) sh k' v' Hi Hr (at_item_restart it i k v Hat)) as (it' & E & H).
    exists it'. by erewrite bind_Ret by exact E.
  - assert (En : S i = List.length l).
    { destruct Hat as ([sh0 Hi0] & _). apply lookup_lt_Some in Hi0. apply lookup_ge_None in Hi. lia. }
    rewrite En in Hr. destruct (ParseNextKey_end data l rs Hlay st it Hr) as (it' & E & H).
    exists it'. by erewrite bind_Ret by exact E.
Qed.

Lemma parse_before_ok it i j : ready l st it i -> restart_ok l rs it i -> (i < j <= List.length l)%nat ->
  exists it' k v, loop (parse_before data restarts num (offset l j)) tt it = (Ret tt, it') /\ at_item l rs st it' (j - 1) k v.
Proof.
  intros Hr Hro Hij.
  destruct (wp_Ret (loop (parse_before data restarts num (offset l j)) tt) it
    (fun _ it' => exists k v, at_item l rs st it' (j - 1) k v)) as ([] & it' & E & k & v & H); [|by exists it', k, v].
  apply (wp_loop _ (fun _ t => exists i, ready l st t i /\ restart_ok l rs t i /\ (i < j)%nat)
    (fun _ t => match bvalue_ t with Some (off, len) => offset l j - (off + len) | None => 0 end)).
  - intros [] t (i0 & Hr0 & Hro0 & Hi0). destruct (lookup_lt_is_Some_2 l i0 ltac:(lia)) as [[sh [k v]] Hl].
    pose proof (offset_le data l rs Hlay i0 j ltac:(lia)). pose proof (proj1 Hr0) as (off & len & Hv & Hoff). rewrite Hv, Hoff. split; [lia|].
    destruct (ParseNextKey_item data l rs Hlay st t i0 sh k v Hl Hr0 Hro0) as (t' & E & Hat).
    pose proof (at_item_ready data l rs Hlay st t' i0 k v Hat) as Hr'.
    unfold parse_before, wp. erewrite bind_Ret by exact E. cbv beta iota.
    erewrite bind_Ret by (apply (NextEntryOffset_ready data l rs Hlay st _ (S i0)); [lia|done]).
    unfold ret. destruct (Z.ltb_spec (offset l (S i0)) (offset l j)) as [Hlt|Hge].
    + assert (Hne : S i0 <> j) by (intros <-; lia). split.
      * exists (S i0). split; [done|]. split; [by eapply at_item_restart|lia].
      * pose proof (proj1 Hr') as (off' & len' & Hv' & Hoff'). rewrite Hv', Hoff'.
        pose proof (offset_lt data l rs Hlay i0 (S i0) ltac:(lia)). lia.
    + assert (S i0 = j) as <-.
      { destruct (decide (S i0 = j)) as [|Hne]; [done|]. pose proof (offset_lt data l rs Hlay (S i0) j ltac:(lia)). lia. }
      replace (S i0 - 1)%nat with i0 by lia. by exists k, v.
  - exists i. split; [done|]. split; [done|lia].
  - destruct Hr as ((off & len & Hv & Hoff) & _). rewrite Hv, Hoff.
    pose proof (offset_bound data l rs Hlay j ltac:(lia)). pose proof (offset_bound data l rs Hlay i ltac:(lia)).
    pose proof (small data l rs Hlay). pose proof (num_pos data l rs Hlay). lia.
Qed.

(** The search for a restart point in front of an entry. *)
Lemma prev_restart_ok it i : bstatus_ it = st -> restart_ok l rs it i -> (i <= List.length l)%nat ->
  exists it' b, loop (prev_restart data restarts num (offset l i)) tt it = (Ret b, it') /\
    if b : bool then bstatus_ it' = st /\ exists ri r, restart_index_ it' = Z.of_nat ri /\ rs !! ri = Some r /\ (r < i)%nat
    else i = 0%nat /\ at_end l st it'.
Proof.
  intros Hst Hro Hi.
  destruct (wp_Ret (loop (prev_restart data restarts num (offset l i)) tt) it
    (fun b it' => if b : bool then bstatus_ it' = st /\ exists ri r, restart_index_ it' = Z.of_nat ri /\ rs !! ri = Some r /\ (r < i)%nat
      else i = 0%nat /\ at_end l st it')) as (b & it' & E & H); [|by exists it', b].
  apply (wp_loop _ (fun _ t => bstatus_ t = st /\ exists ri r, restart_index_ t = Z.of_nat ri /\ rs !! ri = Some r) (fun _ t => restart_index_ t)).
  - intros [] t (Hs & ri & r & Hri & Hr). split; [lia|]. unfold prev_restart, wp. rewrite bind_get, Hri.
    erewrite bind_Ret by (by apply (GetRestartPoint_of data l rs Hlay)).
    assert (Hrl : (r <= List.length l)%nat).
    { destruct (lay_range _ _ _ Hlay r) as [H|[-> _]]; [by eapply list_elem_of_lookup_2|lia|lia]. }
    destruct (Z.leb_spec (offset l i) (offset l r)) as [Hge|Hlt].
    + destruct (Z.eqb_spec (Z.of_nat ri) 0) as [H0|Hne].
      * assert (ri = 0%nat) as -> by lia. pose proof (lay_first _ _ _ Hlay) as Hf. rewrite head_lookup, Hr in Hf. injection Hf as ->.
        split; [|done]. destruct (decide (i = 0%nat)) as [|Hi0]; [done|]. pose proof (offset_lt data l rs Hlay 0 i ltac:(lia)).
        pose proof (offset_0 l). lia.
      * unfold set_restart_index. rewrite bind_modify. cbn. destruct ri as [|ri]; [lia|].
        destruct (lookup_lt_is_Some_2 rs ri) as [r' Hr']; [apply lookup_lt_Some in Hr; lia|].
        split; [|lia]. split; [done|]. exists ri, r'. split; [lia|done].
    + split; [done|]. exists ri, r. split; [done|]. split; [done|]. destruct (decide (r < i)%nat) as [|Hn]; [done|].
      pose proof (offset_le data l rs Hlay i r ltac:(lia)). lia.
  - destruct Hro as (ri & r & H1 & H2 & _). split; [done|]. by exists ri, r.
  - destruct Hro as (ri & r & -> & H2 & _). apply lookup_lt_Some in H2. pose proof (small data l rs Hlay). unfold size in *. lia.
Qed.

Lemma block_Prev_ok it i k v : at_item l rs st it i k v ->
  exists it', block_Prev data restarts num it = (Ret tt, it') /\
    match i with
    | O => at_end l st it'
    | S i' => exists k' v', at_item l rs st it' i' k' v'
    end.
Proof.
  intros Hat. pose proof Hat as ([sh Hi] & Hc & _ & _ & Hro & Hst). pose proof (lookup_lt_Some _ _ _ Hi) as Hlt.
  unfold block_Prev. rewrite bind_get, Hc. cbv zeta.
  destruct (prev_restart_ok it i Hst Hro ltac:(lia)) as (it1 & b & E & Hb). erewrite bind_Ret by exact E. destruct b.
  - destruct Hb as (Hst1 & ri & r & Hri & Hr & Hlti). rewrite bind_get, Hri.
    destruct (SeekToRestartPoint_ok data l rs Hlay st ri r it1 Hst1 Hr) as (it2 & E2 & Hrd & Hro2). erewrite bind_Ret by exact E2.
    destruct (parse_before_ok it2 r i Hrd Hro2 ltac:(lia)) as (it3 & k' & v' & E3 & Hat3). exists it3. split; [done|].
    destruct i as [|i]; [lia|]. replace (S i - 1)%nat with i in Hat3 by lia. by exists k', v'.
  - destruct Hb as [-> Hend]. exists it1. done.
Qed.

Lemma restart_0 : rs !! 0%nat = Some 0%nat.
Proof. rewrite <- head_lookup. apply (lay_first _ _ _ Hlay). Qed.

Lemma block_SeekToFirst_ok it : bstatus_ it = st -> exists it', block_SeekToFirst data restarts num it = (Ret tt, it') /\
  match l !! 0%nat with Some (_, (k, v)) => at_item l rs st it' 0 k v | None => at_end l st it' end.
Proof.
  intros Hst. unfold block_SeekToFirst. destruct (SeekToRestartPoint_ok data l rs Hlay st 0 0 it Hst restart_0) as (it1 & E1 & Hr & Hro).
  erewrite bind_Ret by exact E1. destruct (l !! 0%nat) as [[sh [k v]]|] eqn:Hl.
  - destruct (ParseNextKey_item data l rs Hlay st it1 0 sh k v Hl Hr Hro) as (it2 & E2 & Hat).
    exists it2. by erewrite bind_Ret by exact E2.
  - assert (En : 0%nat = List.length l) by (apply lookup_ge_None in Hl; lia). rewrite En in Hr.
    destruct (ParseNextKey_end data l rs Hlay st it1 Hr) as (it2 & E2 & Hend).
    exists it2. by erewrite bind_Ret by exact E2.
Qed.

Lemma block_SeekToLast_ok it : bstatus_ it = st -> exists it', block_SeekToLast data restarts num it = (Ret tt, it') /\
  ((l = [] /\ at_end l st it') \/ ((0 < List.length l)%nat /\ exists k v, at_item l rs st it' (List.length l - 1) k v)).
Proof.
  intros Hst. unfold block_SeekToLast. pose proof (num_pos data l rs Hlay) as Hnum.
  assert (Hlast : exists r, rs !! (List.length rs - 1)%nat = Some r) by (apply lookup_lt_is_Some_2; unfold size in Hnum; lia).
  destruct Hlast as [r Hr]. replace (num - 1) with (Z.of_nat (List.length rs - 1)) by (unfold num, size in *; lia).
  destruct (SeekToRestartPoint_ok data l rs Hlay st _ r it Hst Hr) as (it1 & E1 & Hrd & Hro). erewrite bind_Ret by exact E1.
  destruct (lay_range _ _ _ Hlay r) as [Hlt|[-> Hnil]]; [by eapply list_elem_of_lookup_2| |].
  - destruct (parse_before_ok it1 r (List.length l) Hrd Hro ltac:(lia)) as (it2 & k & v & E2 & Hat).
    rewrite offset_end in E2. fold restarts in E2. exists it2. split; [exact E2|].
    right. split; [lia|]. by exists k, v.
  - destruct (ParseNextKey_end data l rs Hlay st it1) as (it2 & E2 & Hend); [by replace (List.length l) with 0%nat by (by rewrite Hnil)|].
    exists it2. split; [|by left]. apply (loop_iterate _ 1); [|done|lia]. cbn [iterate]. unfold parse_before.
    rewrite bind_assoc. erewrite bind_Ret by exact E2. done.
Qed.

(** ** Scans *)

Lemma at_end_scan step n it : at_end l st it -> scan_block data restarts step n it = (Ret [], it).
Proof.
  intros Hend. assert (Hv : Valid restarts it = false) by (unfold Valid; rewrite (proj1 Hend); apply Z.ltb_irrefl).
  destruct n; cbn [scan_block]; rewrite bind_get, Hv; done.
Qed.

Lemma scan_item step n it i k v it' r t : at_item l rs st it i k v -> step it = (Ret tt, it') ->
  scan_block data restarts step n it' = (Ret r, t) -> scan_block data restarts step (S n) it = (Ret ((k, v) :: r), t).
Proof.
  intros Hat Hs Hr. cbn [scan_block]. pose proof (at_item_valid data l rs Hlay st it i k v Hat : Valid restarts it = true) as Hv.
  rewrite bind_get, Hv.
  unfold block_key. rewrite bind_gets. erewrite bind_Ret by exact (at_item_value data l rs Hlay st it i k v Hat).
  erewrite bind_Ret by exact Hs. erewrite bind_Ret by exact Hr. pose proof Hat as (_ & _ & -> & _). done.
Qed.

Lemma scan_forward_ok n : forall it i k v, at_item l rs st it i k v -> (List.length l - i <= n)%nat ->
  exists t, scan_block data restarts (block_Next data restarts num) n it = (Ret (map snd (drop i l)), t).
Proof.
  induction n as [|n IH]; intros it i k v Hat Hn; pose proof Hat as ([sh Hi] & _); pose proof (lookup_lt_Some _ _ _ Hi); [lia|].
  destruct (block_Next_ok it i k v Hat) as (it' & E & Hnext). rewrite (drop_S _ _ _ Hi). cbn [map snd].
  destruct (l !! S i) as [[sh' [k' v']]|] eqn:Hi'.
  - destruct (IH it' (S i) k' v' Hnext ltac:(lia)) as [t Ht]. exists t. by eapply scan_item.
  - exists it'. rewrite (drop_ge l (S i)) by (by apply lookup_ge_None). cbn [map].
    eapply scan_item; [done|exact E|]. by apply at_end_scan.
Qed.

Lemma scan_backward_ok n : forall it i k v, at_item l rs st it i k v -> (i < n)%nat ->
  exists t, scan_block data restarts (block_Prev data restarts num) n it = (Ret (rev (map snd (take (S i) l))), t).
Proof.
  induction n as [|n IH]; intros it i k v Hat Hn; [lia|]. pose proof Hat as ([sh Hi] & _).
  destruct (block_Prev_ok it i k v Hat) as (it' & E & Hprev). rewrite (take_S_r _ _ _ Hi), map_app, rev_app_distr. cbn [map snd rev app].
  destruct i as [|i].
  - exists it'. eapply scan_item; [done|exact E|]. by apply at_end_scan.
  - destruct Hprev as (k' & v' & Hprev). destruct (IH it' i k' v' Hprev ltac:(lia)) as [t Ht]. exists t. by eapply scan_item.
Qed.

(** ** Seeking *)

Context {L : ComparatorLaws C}.
Context (Hok : Forall key_ok (map (fun e => fst (snd e)) l)).
Context (Hsorted : StronglySorted (fun a b => order a b < 0) (map (fun e => fst (snd e)) l)).

Definition key_at_index (i : nat) : option (list Z) := map (fun e => fst (snd e)) l !! i.

Lemma key_index_ok i k : key_at_index i = Some k -> key_ok k.
Proof. intros Hk. rewrite Forall_forall in Hok. apply Hok. by eapply list_elem_of_lookup_2. Qed.

Lemma key_index_lt i j k k' : (i < j)%nat -> key_at_index i = Some k -> key_at_index j = Some k' -> order k k' < 0.
Proof.
  intros Hij Hi Hj. unfold key_at_index in *. rewrite <- (take_drop (S i) (map _ l)) in Hsorted.
  apply (StronglySorted_app_1_elem_of _ _ _ k k' Hsorted).
  - apply (list_elem_of_lookup_2 _ i). by rewrite lookup_take_lt by lia.
  - apply (list_elem_of_lookup_2 _ (j - S i)). rewrite lookup_drop. by replace (S i + (j - S i))%nat with j by lia.
Qed.

(** Everything in front of the restart point [ri] is in front of [target]. *)
Definition restart_before (target : Slice) (ri : Z) : Prop :=
  ri = 0 \/ exists r k, rs !! Z.to_nat ri = Some r /\ key_at_index r = Some k /\ order k target < 0.

Lemma seek_restart_ok target it : key_ok target ->
  exists ri, loop (seek_restart data restarts num target) (0, num - 1) it = (Ret (Some ri), it) /\
    0 <= ri < num /\ restart_before target ri.
Proof.
  intros Ht. pose proof (num_pos data l rs Hlay) as Hnum. pose proof (small data l rs Hlay) as Hsmall. fold restarts num in Hsmall, Hnum.
  destruct (wp_Ret (loop (seek_restart data restarts num target) (0, num - 1)) it
    (fun r t => t = it /\ exists ri, r = Some ri /\ 0 <= ri < num /\ restart_before target ri)) as (r & t & E & -> & ri & -> & H); [|by exists ri].
  apply (wp_loop _ (fun p t => t = it /\ 0 <= fst p <= snd p /\ snd p < num /\ restart_before target (fst p)) (fun p _ => snd p - fst p)).
  - intros [lo hi] t (-> & Hlo & Hhi & Hb). cbn [fst snd] in *. split; [lia|]. unfold seek_restart, wp.
    destruct (Z.ltb_spec lo hi) as [Hlt|Hge].
    + rewrite uwrap_small by lia. set (mid := (lo + hi + 1) / 2). assert (Hmid : lo < mid <= hi) by (unfold mid; zlia).
      destruct (lookup_lt_is_Some_2 rs (Z.to_nat mid)) as [r Hr]; [unfold num, size in *; lia|].
      replace mid with (Z.of_nat (Z.to_nat mid)) by lia. erewrite bind_Ret by (by apply (GetRestartPoint_of data l rs Hlay)).
      assert (Hr0 : (0 < r)%nat).
      { pose proof (lay_sorted _ _ _ Hlay) as Hs. pose proof restart_0 as H0. destruct rs as [|r0 rs']; [done|]. injection H0 as ->.
        apply StronglySorted_inv in Hs as [_ Hs]. rewrite Forall_forall in Hs. apply Hs.
        replace (Z.to_nat mid) with (S (Z.to_nat mid - 1)) in Hr by lia. by eapply list_elem_of_lookup_2. }
      destruct (lay_range _ _ _ Hlay r) as [Hrl|[-> _]]; [by eapply list_elem_of_lookup_2| |lia].
      destruct (lookup_lt_is_Some_2 l r Hrl) as [[sh [k v]] Hl].
      assert (sh = 0%nat) as -> by (eapply (lay_restart _ _ _ Hlay); [by eapply list_elem_of_lookup_2|done]).
      destruct (decode_at data l rs Hlay r _ Hl) as (p & Hdec & rest & Hpos & _). fold restarts in Hdec, Hpos. change (drop 0 k) with k in Hpos.
      rewrite Hdec. change (Z.of_nat 0) with 0. cbv iota zeta. rewrite Hpos, Z.sub_0_r, take_size_app, Z.eqb_refl. cbn [negb].
      assert (Hk : key_at_index r = Some k) by (unfold key_at_index; by rewrite list_lookup_fmap, Hl).
      rewrite (Compare_order _ _ (key_index_ok r k Hk) Ht). unfold ret. replace (Z.of_nat (Z.to_nat mid)) with mid by lia.
      destruct (Z.ltb_spec (order k target) 0); cbn [fst snd].
      * split; [|lia]. split; [done|]. split; [lia|]. split; [lia|]. right. by exists r, k.
      * split; [|lia]. split; [done|]. split; [lia|]. split; [lia|done].
    + split; [done|]. exists lo. split; [done|]. split; [lia|done].
  - cbn. split; [done|]. split; [lia|]. split; [lia|by left].
  - cbn. lia.
Qed.

(** The iterator is at the first entry that is not in front of [target]. *)
Definition found_at (target : Slice) (it : BlockIter) (i : nat) : Prop :=
  (forall j k, (j < i)%nat -> key_at_index j = Some k -> order k target < 0) /\
  match l !! i with
  | Some (_, (k, v)) => at_item l rs st it i k v /\ 0 <= order k target
  | None => i = List.length l /\ at_end l st it
  end.

Lemma seek_linear_ok target it i : key_ok target -> ready l st it i -> restart_ok l rs it i -> (i <= List.length l)%nat ->
  (forall j k, (j < i)%nat -> key_at_index j = Some k -> order k target < 0) ->
  exists it' i', loop (seek_linear data restarts num target) tt it = (Ret tt, it') /\ found_at target it' i'.
Proof.
  intros Ht Hr Hro Hi Hbefore.
  destruct (wp_Ret (loop (seek_linear data restarts num target) tt) it (fun _ it' => exists i', found_at target it' i'))
    as ([] & it' & E & i' & H); [|by exists it', i'].
  apply (wp_loop _ (fun _ t => exists i, ready l st t i /\ restart_ok l rs t i /\ (i <= List.length l)%nat /\
    forall j k, (j < i)%nat -> key_at_index j = Some k -> order k target < 0) (fun _ t => bytes_left t)).
  - clear it i Hr Hro Hi Hbefore. intros [] t (i & Hr & Hro & Hi & Hbefore). rewrite (bytes_left_ready t i Hr).
    pose proof (offset_bound data l rs Hlay i Hi) as Hbd. fold restarts in Hbd. split; [lia|]. unfold seek_linear, wp.
    destruct (l !! i) as [[sh [k v]]|] eqn:Hl.
    + destruct (ParseNextKey_item data l rs Hlay st t i sh k v Hl Hr Hro) as (t' & E & Hat). erewrite bind_Ret by exact E.
      cbv beta iota. rewrite bind_get. pose proof (lookup_lt_Some _ _ _ Hl) as Hlt. pose proof Hat as (_ & _ & -> & _).
      assert (Hk : key_at_index i = Some k) by (unfold key_at_index; by rewrite list_lookup_fmap, Hl).
      rewrite (Compare_order _ _ (key_index_ok i k Hk) Ht). unfold ret. destruct (Z.leb_spec 0 (order k target)).
      * exists i. split; [done|]. by rewrite Hl.
      * pose proof (at_item_ready data l rs Hlay st t' i k v Hat) as Hr'. rewrite (bytes_left_ready t' (S i) Hr').
        pose proof (offset_lt data l rs Hlay i (S i) ltac:(lia)). split; [|lia]. exists (S i). split; [done|].
        split; [by eapply at_item_restart|]. split; [lia|]. intros j k' Hj Hk'. destruct (decide (j = i)) as [->|].
        -- rewrite Hk in Hk'. injection Hk' as <-. lia.
        -- apply (Hbefore j k'); [lia|done].
    + assert (i = List.length l) as -> by (apply lookup_ge_None in Hl; lia).
      destruct (ParseNextKey_end data l rs Hlay st t Hr) as (t' & E & Hend). erewrite bind_Ret by exact E. cbv beta iota. unfold ret.
      exists (List.length l). split; [done|]. by rewrite Hl.
  - by exists i.
  - rewrite (bytes_left_ready it i Hr). pose proof (offset_bound data l rs Hlay i Hi). pose proof (small data l rs Hlay).
    pose proof (num_pos data l rs Hlay). unfold restarts in *. lia.
Qed.

Lemma block_Seek_ok target it : bstatus_ it = st -> key_ok target ->
  exists it' i, block_Seek data restarts num target it = (Ret tt, it') /\ found_at target it' i.
Proof.
  intros Hst Ht. unfold block_Seek. destruct (seek_restart_ok target it Ht) as (ri & E & Hri & Hb). erewrite bind_Ret by exact E. cbv beta iota.
  destruct (lookup_lt_is_Some_2 rs (Z.to_nat ri)) as [r Hr]; [unfold num, size in *; lia|].
  destruct (SeekToRestartPoint_ok data l rs Hlay st _ r it Hst Hr) as (it1 & E1 & Hrd & Hro). rewrite Z2Nat.id in E1 by lia.
  erewrite bind_Ret by exact E1.
  assert (Hle : (r <= List.length l)%nat) by (destruct (lay_range _ _ _ Hlay r) as [H|[-> _]]; [by eapply list_elem_of_lookup_2|lia|lia]).
  destruct (seek_linear_ok target it1 r Ht Hrd Hro Hle) as (it2 & i & E2 & H); [|by exists it2, i].
  intros j k Hj Hk. destruct Hb as [->|(r' & kr & Hr' & Hkr & Hlt)].
  - change (Z.to_nat 0) with 0%nat in Hr. rewrite restart_0 in Hr. injection Hr as <-. lia.
  - rewrite Hr in Hr'. injection Hr' as <-. apply (order_lt_trans k kr target); [by eapply key_index_ok|by eapply key_index_ok|done| |done].
    by apply (key_index_lt j r).
Qed.

(** A scan from there gives the entries that are not in front of [target]. *)
Lemma found_scan target it i n : key_ok target -> found_at target it i -> (List.length l <= n)%nat ->
  exists t, scan_block data restarts (block_Next data restarts num) n it =
    (Ret (filter (fun kv => 0 <= order (fst kv) target) (map snd l)), t).
Proof.
  intros Ht [Hbefore H] Hn.
  assert (Hkey : forall j kv, map snd l !! j = Some kv -> key_at_index j = Some (fst kv)).
  { intros j kv Hj. unfold key_at_index. rewrite !list_lookup_fmap in *. destruct (l !! j) as [e|]; [|done]. by injection Hj as <-. }
  assert (Hf : filter (fun kv => 0 <= order (fst kv) target) (map snd l) = map snd (drop i l)).
  { rewrite <- (take_drop i (map snd l)) at 1. rewrite filter_app, filter_nothing, filter_all; [by rewrite skipn_map| |].
    - apply Forall_lookup. intros j kv Hj. rewrite lookup_drop in Hj. apply Hkey in Hj.
      assert (Hij : is_Some (l !! i)).
      { apply lookup_lt_is_Some_2. unfold key_at_index in Hj. apply lookup_lt_Some in Hj. rewrite length_map in Hj. lia. }
      destruct Hij as [[sh [k v]] Hi]. rewrite Hi in H. destruct H as [_ H].
      assert (Hk : key_at_index i = Some k) by (unfold key_at_index; by rewrite list_lookup_fmap, Hi).
      destruct j as [|j]; [rewrite Nat.add_0_r, Hk in Hj; injection Hj as <-; done|].
      pose proof (key_index_lt i (i + S j) _ _ ltac:(lia) Hk Hj) as Hlt.
      destruct (Z.le_gt_cases 0 (order (fst kv) target)) as [|Hgt]; [done|].
      pose proof (order_lt_trans k (fst kv) target (key_index_ok _ _ Hk) (key_index_ok _ _ Hj) Ht Hlt ltac:(lia)). lia.
    - apply Forall_lookup. intros j kv Hj. apply lookup_take_Some in Hj as [Hj Hji].
      pose proof (Hbefore j _ Hji (Hkey j kv Hj)). lia. }
  rewrite Hf. destruct (l !! i) as [[sh [k v]]|] eqn:Hl.
  - destruct H as [Hat _]. apply (scan_forward_ok n it i k v Hat). lia.
  - destruct H as [-> Hend]. exists it. rewrite drop_all. by apply at_end_scan.
Qed.
End Ops.

Definition bb_AddAll (block_restart_interval : Z) (kvs : list (Slice * Slice)) (b : BlockBuilder) : BlockBuilder :=
  fold_left (fun b '(k, v) => bb_Add block_restart_interval k v b) kvs b.

(** The contents of a block with the entries [kvs]. *)
Definition block_contents (block_restart_interval : Z) (kvs : list (Slice * Slice)) : Slice :=
  snd (bb_Finish (bb_AddAll block_restart_interval kvs new_BlockBuilder)).

Lemma diff_index_shared a : forall b,
  (diff_index a b <= List.length a)%nat /\ (diff_index a b <= List.length b)%nat /\ take (diff_index a b) a = take (diff_index a b) b.
Proof.
  induction a as [|x a IH]; intros [|y b]; cbn [diff_index List.length]; try (split; [lia|split; [lia|done]]).
  destruct (Z.eqb_spec x y) as [->|]; [|split; [lia|split; [lia|done]]]. destruct (IH b) as (H1 & H2 & H3).
  split; [lia|]. split; [lia|]. cbn. by rewrite H3.
Qed.

Definition last_key_of (kvs : list (Slice * Slice)) : list Z := match last kvs with Some (k, _) => k | None => [] end.

(** The state of the builder after the entries [l] with the restart points [rs]. *)
Record builds (l : list item) (rs : list nat) (b : BlockBuilder) : Prop := {
  bs_buffer : bb_buffer b = entries_bytes l;
  bs_restarts : bb_restarts b = map (offset l) rs;
  bs_last_key : bb_last_key b = last_key_of (map snd l);
  bs_last_size : size (bb_last_key b) <= size (bb_buffer b);
  bs_empty : l = [] -> bb_counter b = 0;
  bs_fits : Forall item_fits l;
  bs_chained : chained [] l;
  bs_first : head rs = Some 0%nat;
  bs_sorted : StronglySorted lt rs;
  bs_restart r shared kv : r ∈ rs -> l !! r = Some (shared, kv) -> shared = 0%nat;
  bs_range r : r ∈ rs -> (r < List.length l)%nat \/ (r = 0%nat /\ l = [])
}.

Lemma builds_new : builds [] [0%nat] new_BlockBuilder.
Proof.
  split; try done.
  - by repeat constructor.
  - intros r Hr. apply list_elem_of_singleton in Hr. by right.
Qed.

Lemma offset_snoc l e i : (i <= List.length l)%nat -> offset (l ++ [e]) i = offset l i.
Proof. intros Hi. unfold offset. by rewrite take_app_le. Qed.

Lemma entries_bytes_snoc l e : entries_bytes (l ++ [e]) = entries_bytes l ++ enc e.
Proof. unfold entries_bytes. by rewrite map_app, concat_app; cbn; rewrite app_nil_r. Qed.

Lemma chained_snoc l : forall prev shared k v, chained prev l ->
  let lk := match last (map snd l) with Some (k, _) => k | None => prev end in
  (shared <= List.length lk)%nat -> take shared lk = take shared k -> chained prev (l ++ [(shared, (k, v))]).
Proof.
  induction l as [|[sh [k0 v0]] l IH]; intros prev shared k v Hc lk H1 H2; [done|]. destruct Hc as (Ha & Hb & Hc).
  split; [done|]. split; [done|]. apply IH; [done| |]; unfold lk in *; cbn [map snd] in *; rewrite last_cons in *;
    by destruct (last (map snd l)) as [[]|].
Qed.

(** One more entry. *)
Lemma builds_snoc l rs b shared rs' k v b' :
  builds l rs b -> (shared <= List.length (bb_last_key b))%nat -> item_fits (shared, (k, v)) ->
  take shared (bb_last_key b) = take shared k ->
  rs' = rs \/ l <> [] /\ shared = 0%nat /\ rs' = rs ++ [List.length l] ->
  bb_buffer b' = bb_buffer b ++ enc (shared, (k, v)) -> bb_restarts b' = map (offset l) rs' -> bb_last_key b' = k ->
  builds (l ++ [(shared, (k, v))]) rs' b'.
Proof.
  intros [Hbuf Hres Hlk Hls Hemp Hfit Hch Hfst Hsort Hrst Hrng] Hs1 Hf Hs2 Hrs Hb' Hr' Hl'.
  assert (Hle : forall r, r ∈ rs -> (r <= List.length l)%nat) by (intros r Hr; destruct (Hrng r Hr) as [|[-> _]]; lia).
  assert (Hle' : forall r, r ∈ rs' -> (r <= List.length l)%nat).
  { intros r Hr. destruct Hrs as [->|(_ & _ & ->)]; [by apply Hle|]. apply elem_of_app in Hr as [Hr|Hr]; [by apply Hle|].
    apply list_elem_of_singleton in Hr. lia. }
  split.
  - by rewrite Hb', Hbuf, entries_bytes_snoc.
  - rewrite Hr'. apply map_ext_in. intros r Hr. symmetry. apply offset_snoc, Hle'. by apply list_elem_of_In.
  - unfold last_key_of. by rewrite map_app, last_app.
  - rewrite Hl', Hb', size_app. destruct Hf as (Hsk & Hk & Hv). unfold enc. rewrite !size_app.
    pose proof (size_nonneg (varint_bytes (Z.of_nat shared))). pose proof (size_nonneg (varint_bytes (size k - Z.of_nat shared))).
    pose proof (size_nonneg (varint_bytes (size v))). pose proof (size_nonneg v).
    assert (size (drop shared k) = size k - Z.of_nat shared) by (unfold size; rewrite length_drop; lia). unfold size at 2 in Hls. unfold size in *. lia.
  - intros E. by destruct l.
  - apply Forall_app. by split; [|constructor].
  - apply chained_snoc; [done| |]; unfold last_key_of in Hlk; rewrite <- Hlk; done.
  - destruct Hrs as [->|(_ & _ & ->)]; [done|]. by destruct rs.
  - destruct Hrs as [->|(Hne & _ & ->)]; [done|]. apply StronglySorted_app_2; [|done|by repeat constructor].
    intros r x Hr Hx. apply list_elem_of_singleton in Hx as ->. by destruct (Hrng r Hr) as [|[_ ->]].
  - intros r sh kv Hr Hi. destruct (decide (r < List.length l)%nat) as [Hlt|Hge].
    + rewrite lookup_app_l in Hi by done. destruct Hrs as [->|(_ & _ & ->)]; [by eapply Hrst|].
      apply elem_of_app in Hr as [Hr|Hr]; [by eapply Hrst|]. apply list_elem_of_singleton in Hr. lia.
    + rewrite lookup_app_r in Hi by lia. assert (r - List.length l = 0)%nat as Hz by (specialize (Hle' r Hr); lia). rewrite Hz in Hi.
      injection Hi as -> <-. destruct Hrs as [->|(_ & -> & _)]; [|done]. destruct (Hrng r Hr) as [|[-> Hnil]]; [lia|].
      rewrite Hlk, Hnil in Hs1. cbn in Hs1. lia.
  - intros r Hr. left. rewrite length_app. cbn. specialize (Hle' r Hr). lia.
Qed.

Lemma bb_Add_builds interval k v b l rs : builds l rs b -> 1 <= interval -> size (bb_buffer (bb_Add interval k v b)) < 2 ^ 32 ->
  exists shared rs', builds (l ++ [(shared, (k, v))]) rs' (bb_Add interval k v b).
Proof.
  intros Hb Hint. pose proof (diff_index_shared (bb_last_key b) k) as (Hd1 & Hd2 & Hd3).
  assert (Hchoice : exists shared rs' counter, (if bb_counter b <? interval
      then (diff_index (bb_last_key b) k, bb_restarts b, bb_counter b)
      else (0%nat, bb_restarts b ++ [u32 (size (bb_buffer b))], 0)) = (shared, (bb_restarts b ++ rs'), counter) /\
    (shared <= List.length (bb_last_key b))%nat /\ (shared <= List.length k)%nat /\ take shared (bb_last_key b) = take shared k /\
    (rs' = [] \/ l <> [] /\ shared = 0%nat /\ rs' = [u32 (size (bb_buffer b))])).
  { destruct (Z.ltb_spec (bb_counter b) interval) as [Hc|Hc].
    - eexists _, [], _. rewrite app_nil_r. split; [reflexivity|]. split; [done|]. split; [done|]. split; [done|]. by left.
    - eexists _, _, _. split; [reflexivity|]. split; [lia|]. split; [lia|]. split; [done|]. right. split; [|done].
      intros E. pose proof (bs_empty _ _ _ Hb E). lia. }
  unfold bb_Add. destruct Hchoice as (shared & rs' & counter & -> & Hs1 & Hs2 & Hs3 & Hrs). cbn [bb_buffer].
  set (b' := mk_bbuilder _ _ _ _ _). unfold PutVarint32. rewrite <- !app_assoc, !size_app. intros Hsz.
  pose proof (size_nonneg (bb_buffer b)). pose proof (size_nonneg (EncodeVarint32 (u32 (Z.of_nat shared)))).
  pose proof (size_nonneg (EncodeVarint32 (u32 (size k - Z.of_nat shared)))). pose proof (size_nonneg (EncodeVarint32 (u32 (size v)))).
  pose proof (size_nonneg v). pose proof (bs_last_size _ _ _ Hb) as Hls.
  assert (Hd : size (drop shared k) = size k - Z.of_nat shared) by (unfold size; rewrite length_drop; lia). pose proof (size_nonneg (drop shared k)).
  assert (Hsl : Z.of_nat shared <= size (bb_last_key b)) by (unfold size; lia).
  assert (Hbuf : bb_buffer b' = bb_buffer b ++ enc (shared, (k, v))).
  { cbn [b' bb_buffer]. rewrite !uwrap_small, !PutVarint32_app by lia. unfold enc. by rewrite <- !app_assoc. }
  assert (Hlast : bb_last_key b' = k) by (cbn [b' bb_last_key]; by rewrite Hs3, take_drop).
  assert (Hf : item_fits (shared, (k, v))) by (split; [done|lia]).
  destruct Hrs as [->|(Hne & -> & ->)].
  - exists shared, rs. apply (builds_snoc l rs b); try done; [by left|]. cbn [b' bb_restarts]. rewrite app_nil_r. apply (bs_restarts _ _ _ Hb).
  - exists 0%nat, (rs ++ [List.length l]). apply (builds_snoc l rs b); try done; [by right|]. cbn [b' bb_restarts].
    rewrite map_app. cbn [map]. rewrite (bs_restarts _ _ _ Hb), offset_end, (bs_buffer _ _ _ Hb). rewrite uwrap_small; [done|].
    rewrite <- (bs_buffer _ _ _ Hb). lia.
Qed.

Lemma bb_Add_grows interval k v b : size (bb_buffer b) <= size (bb_buffer (bb_Add interval k v b)).
Proof.
  unfold bb_Add. destruct (if _ <? _ then _ else _) as [[shared restarts] counter]. cbn [bb_buffer]. unfold PutVarint32.
  rewrite <- !app_assoc, size_app. match goal with |- _ <= _ + size ?x => pose proof (size_nonneg x) end. lia.
Qed.

Lemma bb_AddAll_builds interval kvs : 1 <= interval -> size (bb_buffer (bb_AddAll interval kvs new_BlockBuilder)) < 2 ^ 32 ->
  exists l rs, map snd l = kvs /\ builds l rs (bb_AddAll interval kvs new_BlockBuilder).
Proof.
  intros Hint. induction kvs as [|[k v] kvs IH] using rev_ind; [exists [], [0%nat]; split; [done|apply builds_new]|].
  unfold bb_AddAll in *. rewrite fold_left_app. cbn [fold_left]. set (b := fold_left _ kvs _) in *. intros Hsz.
  pose proof (bb_Add_grows interval k v b). destruct IH as (l & rs & <- & Hb); [lia|].
  destruct (bb_Add_builds interval k v b l rs Hb Hint Hsz) as (shared & rs' & Hb').
  eexists _, rs'. split; [|exact Hb']. by rewrite map_app.
Qed.

Lemma block_contents_layout interval kvs : 1 <= interval -> size (block_contents interval kvs) < 2 ^ 32 ->
  exists l rs, map snd l = kvs /\ layout (block_contents interval kvs) l rs.
Proof.
  intros Hint Hsz. pose proof (bb_AddAll_builds interval kvs Hint) as H. unfold block_contents in *.
  set (b := bb_AddAll interval kvs new_BlockBuilder) in *.
  unfold bb_Finish in *. cbn [snd] in *. unfold PutFixed32 at 1 in Hsz. unfold PutFixed32 at 1. rewrite fold_PutFixed32 in *. rewrite !size_app in Hsz.
  pose proof (size_nonneg (fixed32_array (bb_restarts b))) as H1. pose proof (size_nonneg (EncodeFixed32 (u32 (size (bb_restarts b))))) as H2.
  destruct H as (l & rs & Hl & [Hbuf Hres Hlk Hls Hemp Hfit Hch Hfst Hsort Hrst Hrng]); [lia|].
  exists l, rs. split; [done|]. assert (Hn : size (bb_restarts b) = size rs) by (rewrite Hres; unfold size; by rewrite length_map).
  rewrite size_fixed32_array in *. pose proof (size_nonneg (bb_buffer b)). rewrite Hn in *. rewrite size_EncodeFixed32 in *.
  pose proof (size_nonneg rs). split; try done.
  - rewrite Hbuf, Hres, uwrap_small by lia. by rewrite <- app_assoc.
  - rewrite !size_app, size_fixed32_array, size_EncodeFixed32, Hn. lia.
Qed.

(** The block reads its restart points where the builder put them. *)
Lemma NewIterator_of {C : Comparator} data l rs : layout data l rs ->
  (b ← new_Block data; NewIterator b) =
    Some (IterOf data (size (entries_bytes l)) (size rs) (new_BlockIter (size (entries_bytes l)) (size rs))).
Proof.
  intros Hlay. pose proof (data_size data l rs Hlay) as Hd. pose proof (num_pos data l rs Hlay). pose proof (small data l rs Hlay) as Hs.
  assert (Hnum : NumRestarts data (size data) = Some (size rs)).
  { unfold NumRestarts. replace (size data - 4) with (size (entries_bytes l ++ fixed32_array (map (offset l) rs))).
    - rewrite (lay_data _ _ _ Hlay), app_assoc, drop_size_app, <- (app_nil_r (EncodeFixed32 _)). apply DecodeFixed32_of. lia.
    - rewrite size_app, size_fixed32_array. unfold size at 2. rewrite length_map. fold (size rs). lia. }
  unfold new_Block. destruct (Z.ltb_spec (size data) 4); [lia|]. rewrite Hnum. cbn [mbind option_bind].
  destruct (Z.ltb_spec ((size data - 4) / 4) (size rs)) as [Hlt|_]; [exfalso; zlia|].
  cbn [mbind option_bind]. unfold NewIterator. cbn [block_size block_data restart_offset_].
  destruct (Z.ltb_spec (size data) 4); [lia|]. rewrite Hnum. cbn [mbind option_bind]. destruct (Z.eqb_spec (size rs) 0); [lia|].
  rewrite (uwrap_small 32 (1 + _)) by lia. rewrite (uwrap_small 64 (_ * _)) by lia. rewrite (uwrap_small 64) by lia.
  rewrite uwrap_small by lia. by replace (size data - (1 + size rs) * 4) with (size (entries_bytes l)) by lia.
Qed.

(** C26: a block gives back the entries it was built from. For entries with strictly
    increasing keys, an interval of at least 1 and contents below 4 GB, [Block] and
    [NewIterator] accept what [BlockBuilder::Finish] returned, whatever the keys share and
    wherever the restart points fell, and from any position of the iterator: from
    [SeekToFirst], [Next] walks over all the entries in order; from [SeekToLast], [Prev] walks
    over them in reverse; from [Seek(target)], [Next] walks over exactly the entries
    whose keys are not before [target]. Every key and value is the one that was added,
    and no read leaves the block. *)
Theorem block_roundtrip {C : Comparator} {L : ComparatorLaws C} interval kvs :
  1 <= interval -> Forall key_ok (map fst kvs) -> StronglySorted (fun a b => order a b < 0) (map fst kvs) ->
  size (block_contents interval kvs) < 2 ^ 32 ->
  let data := block_contents interval kvs in
  let n := List.length kvs in
  exists restarts num, (b ← new_Block data; NewIterator b) = Some (IterOf data restarts num (new_BlockIter restarts num)) /\
    forall it,
      fst ((block_SeekToFirst data restarts num ;; scan_block data restarts (block_Next data restarts num) n) it) = Ret kvs /\
      fst ((block_SeekToLast data restarts num ;; scan_block data restarts (block_Prev data restarts num) n) it) = Ret (rev kvs) /\
      forall target, key_ok target ->
        fst ((block_Seek data restarts num target ;; scan_block data restarts (block_Next data restarts num) n) it) =
          Ret (filter (fun kv => 0 <= order (fst kv) target) kvs).
Proof.
  intros Hint Hok Hsorted Hsz data n. destruct (block_contents_layout interval kvs Hint Hsz) as (l & rs & Hl & Hlay). fold data in Hlay.
  exists (size (entries_bytes l)), (size rs). split; [by apply NewIterator_of|]. intros it.
  assert (Hn : n = List.length l) by (unfold n; rewrite <- Hl; apply length_map).
  assert (Hk : map fst kvs = map (fun e => fst (snd e)) l) by (rewrite <- Hl, map_map; done). rewrite Hk in Hok, Hsorted.
  split; [|split].
  - destruct (block_SeekToFirst_ok data l rs Hlay (bstatus_ it) it eq_refl) as (it1 & E & H). erewrite bind_Ret by exact E.
    destruct (l !! 0%nat) as [[sh [k v]]|] eqn:H0.
    + destruct (scan_forward_ok data l rs Hlay (bstatus_ it) n it1 0 k v H ltac:(lia)) as [t ->]. cbn. by rewrite <- Hl.
    + apply lookup_ge_None in H0. assert (l = []) as -> by (apply nil_length_inv; lia). rewrite (at_end_scan data [] (bstatus_ it) _ n it1 H). by rewrite <- Hl.
  - destruct (block_SeekToLast_ok data l rs Hlay (bstatus_ it) it eq_refl) as (it1 & E & H). erewrite bind_Ret by exact E. destruct H as [[-> H]|(Hpos & k & v & H)].
    + rewrite (at_end_scan data [] (bstatus_ it) _ n it1 H). by rewrite <- Hl.
    + destruct (scan_backward_ok data l rs Hlay (bstatus_ it) n it1 _ k v H ltac:(lia)) as [t ->]. cbn [fst].
      rewrite take_ge by lia. by rewrite <- Hl.
  - intros target Ht. destruct (block_Seek_ok data l rs Hlay (bstatus_ it) Hok Hsorted target it eq_refl Ht) as (it1 & i & E & H). erewrite bind_Ret by exact E.
    destruct (found_scan data l rs Hlay (bstatus_ it) Hok Hsorted target it1 i n Ht H ltac:(lia)) as [t ->]. cbn [fst]. by rewrite <- Hl.
Qed.

(** Three entries, with a restart point at every second one. *)
Definition sample_entries : list (Slice * Slice) :=
  [(literal "app", literal "1"); (literal "apple", literal "2"); (literal "banana", literal "3")].

Lemma block_roundtrip_witness :
  let data := block_contents 2 sample_entries in
  exists restarts num, forall it,
    fst ((block_SeekToLast data restarts num ;; scan_block (C := BytewiseComparator) data restarts (block_Prev data restarts num) 3) it) = Ret (rev sample_entries) /\
    fst ((block_Seek (comparator := BytewiseComparator) data restarts num (literal "apps") ;;
      scan_block (C := BytewiseComparator) data restarts (block_Next data restarts num) 3) it) = Ret [(literal "banana", literal "3")].
Proof.
  intros data. destruct (block_roundtrip (C := BytewiseComparator) (L := bytewise_laws) 2 sample_entries) as (restarts & num & _ & H).
  - lia.
  - repeat constructor; unfold byte; cbn; lia.
  - repeat constructor.
  - vm_compute. reflexivity.
  - exists restarts, num. intros it. destruct (H it) as (_ & H1 & H2). split; [exact H1|].
    assert (E : filter (fun kv => 0 <= order (ComparatorLaws := bytewise_laws) (fst kv) (literal "apps")) sample_entries = [(literal "banana", literal "3")]) by (vm_compute; reflexivity).
    rewrite <- E. apply H2. repeat constructor; unfold byte; cbn; lia.
Defined.
