(* ===== verification/LdbVersionEdit.v ===== *)
(** [db/version_edit.h]/[.cc]: the edits that lead from one version of the database to
    the next, and their encoding in the MANIFEST file. *)

From Stdlib Require Import ZArith Lia List String Bool.
From stdpp Require Import base list.
From S2P Require Import Prelude LdbBase LdbText LdbCoding LdbKeys.

(** ** [FileMetaData] *)

(** The constructor does not set [number]. *)
Record FileMetaData := mk_file {
  refs : Z;
  allowed_seeks : Z;
  number : Z;
  file_size : Z;
  smallest : list Z;
  largest : list Z
}.

Definition new_FileMetaData (number file_size : Z) (smallest largest : list Z) : FileMetaData :=
  mk_file 0 (Z.shiftl 1 30) number file_size smallest largest.

(** ** [DeletedFileSet], a [std::set] of levels and numbers: in order, each once *)

Definition pair_less (a b : Z * Z) : bool := (fst a <? fst b) || ((fst a =? fst b) && (snd a <? snd b)).

Fixpoint set_insert (x : Z * Z) (s : list (Z * Z)) : list (Z * Z) :=
  match s with
  | [] => [x]
  | y :: s' => if pair_less x y then x :: s else if pair_less y x then y :: set_insert x s' else s
  end.

(** ** [VersionEdit] *)

Record VersionEdit := mk_edit {
  comparator_ : list Z;
  log_number_ : Z;
  prev_log_number_ : Z;
  next_file_number_ : Z;
  last_sequence_ : Z;
  has_comparator_ : bool;
  has_log_number_ : bool;
  has_prev_log_number_ : bool;
  has_next_file_number_ : bool;
  has_last_sequence_ : bool;
  compact_pointers_ : list (Z * list Z);
  deleted_files_ : list (Z * Z);
  new_files_ : list (Z * FileMetaData)
}.

(** [compact_pointers_] is not cleared. *)
Definition edit_Clear (e : VersionEdit) : VersionEdit :=
  mk_edit [] 0 0 0 0 false false false false false (compact_pointers_ e) [] [].

Definition new_VersionEdit : VersionEdit :=
  mk_edit [] 0 0 0 0 false false false false false [] [] [].

Definition SetComparatorName (name : Slice) (e : VersionEdit) : VersionEdit :=
  mk_edit name (log_number_ e) (prev_log_number_ e) (next_file_number_ e) (last_sequence_ e)
    true (has_log_number_ e) (has_prev_log_number_ e) (has_next_file_number_ e) (has_last_sequence_ e)
    (compact_pointers_ e) (deleted_files_ e) (new_files_ e).

Definition SetLogNumber (num : Z) (e : VersionEdit) : VersionEdit :=
  mk_edit (comparator_ e) num (prev_log_number_ e) (next_file_number_ e) (last_sequence_ e)
    (has_comparator_ e) true (has_prev_log_number_ e) (has_next_file_number_ e) (has_last_sequence_ e)
    (compact_pointers_ e) (deleted_files_ e) (new_files_ e).

Definition SetPrevLogNumber (num : Z) (e : VersionEdit) : VersionEdit :=
  mk_edit (comparator_ e) (log_number_ e) num (next_file_number_ e) (last_sequence_ e)
    (has_comparator_ e) (has_log_number_ e) true (has_next_file_number_ e) (has_last_sequence_ e)
    (compact_pointers_ e) (deleted_files_ e) (new_files_ e).

Definition SetNextFile (num : Z) (e : VersionEdit) : VersionEdit :=
  mk_edit (comparator_ e) (log_number_ e) (prev_log_number_ e) num (last_sequence_ e)
    (has_comparator_ e) (has_log_number_ e) (has_prev_log_number_ e) true (has_last_sequence_ e)
    (compact_pointers_ e) (deleted_files_ e) (new_files_ e).

Definition SetLastSequence (seq : Z) (e : VersionEdit) : VersionEdit :=
  mk_edit (comparator_ e) (log_number_ e) (prev_log_number_ e) (next_file_number_ e) seq
    (has_comparator_ e) (has_log_number_ e) (has_prev_log_number_ e) (has_next_file_number_ e) true
    (compact_pointers_ e) (deleted_files_ e) (new_files_ e).

Definition SetCompactPointer (level : Z) (key : list Z) (e : VersionEdit) : VersionEdit :=
  mk_edit (comparator_ e) (log_number_ e) (prev_log_number_ e) (next_file_number_ e) (last_sequence_ e)
    (has_comparator_ e) (has_log_number_ e) (has_prev_log_number_ e) (has_next_file_number_ e) (has_last_sequence_ e)
    (compact_pointers_ e ++ [(level, key)]) (deleted_files_ e) (new_files_ e).

Definition DeleteFile (level file : Z) (e : VersionEdit) : VersionEdit :=
  mk_edit (comparator_ e) (log_number_ e) (prev_log_number_ e) (next_file_number_ e) (last_sequence_ e)
    (has_comparator_ e) (has_log_number_ e) (has_prev_log_number_ e) (has_next_file_number_ e) (has_last_sequence_ e)
    (compact_pointers_ e) (set_insert (level, file) (deleted_files_ e)) (new_files_ e).

(** [new_files_.push_back] *)
Definition push_file (level : Z) (f : FileMetaData) (e : VersionEdit) : VersionEdit :=
  mk_edit (comparator_ e) (log_number_ e) (prev_log_number_ e) (next_file_number_ e) (last_sequence_ e)
    (has_comparator_ e) (has_log_number_ e) (has_prev_log_number_ e) (has_next_file_number_ e) (has_last_sequence_ e)
    (compact_pointers_ e) (deleted_files_ e) (new_files_ e ++ [(level, f)]).

Definition AddFile (level file file_size : Z) (smallest largest : list Z) (e : VersionEdit) : VersionEdit :=
  push_file level (new_FileMetaData file file_size smallest largest) e.

(** ** [EncodeTo] *)

Definition kComparator : Z := 1.
Definition kLogNumber : Z := 2.
Definition kNextFileNumber : Z := 3.
Definition kLastSequence : Z := 4.
Definition kCompactPointer : Z := 5.
Definition kDeletedFile : Z := 6.
Definition kNewFile : Z := 7.
Definition kPrevLogNumber : Z := 9.

(** [None] is an assertion that fails: a key is empty. *)
Definition encode_compact_pointer (dst : list Z) (p : Z * list Z) : option (list Z) :=
  key ← key_Encode (snd p);
  Some (PutLengthPrefixedSlice (PutVarint32 (PutVarint32 dst kCompactPointer) (u32 (fst p))) key).

Definition encode_deleted_file (dst : list Z) (p : Z * Z) : list Z :=
  PutVarint64 (PutVarint32 (PutVarint32 dst kDeletedFile) (u32 (fst p))) (snd p).

Definition encode_new_file (dst : list Z) (p : Z * FileMetaData) : option (list Z) :=
  let f := snd p in
  let dst := PutVarint32 dst kNewFile in
  let dst := PutVarint32 dst (u32 (fst p)) in
  let dst := PutVarint64 dst (number f) in
  let dst := PutVarint64 dst (file_size f) in
  smallest ← key_Encode (smallest f);
  let dst := PutLengthPrefixedSlice dst smallest in
  largest ← key_Encode (largest f);
  Some (PutLengthPrefixedSlice dst largest).

(** A loop that appends to [*dst]. *)
Fixpoint encode_all {A} (encode : list Z -> A -> option (list Z)) (l : list A) (dst : list Z) : option (list Z) :=
  match l with
  | [] => Some dst
  | a :: l' => dst ← encode dst a; encode_all encode l' dst
  end.

Definition edit_EncodeTo (e : VersionEdit) (dst : list Z) : option (list Z) :=
  let dst := if has_comparator_ e then PutLengthPrefixedSlice (PutVarint32 dst kComparator) (comparator_ e) else dst in
  let dst := if has_log_number_ e then PutVarint64 (PutVarint32 dst kLogNumber) (log_number_ e) else dst in
  let dst := if has_prev_log_number_ e then PutVarint64 (PutVarint32 dst kPrevLogNumber) (prev_log_number_ e) else dst in
  let dst := if has_next_file_number_ e then PutVarint64 (PutVarint32 dst kNextFileNumber) (next_file_number_ e) else dst in
  let dst := if has_last_sequence_ e then PutVarint64 (PutVarint32 dst kLastSequence) (last_sequence_ e) else dst in
  dst ← encode_all encode_compact_pointer (compact_pointers_ e) dst;
  let dst := fold_left encode_deleted_file (deleted_files_ e) dst in
  encode_all encode_new_file (new_files_ e) dst.

(** ** [DecodeFrom] *)

(** The result and the advanced input; [None] is [false]. *)
Definition GetInternalKey (input : Slice) : option (list Z * Slice) :=
  r ← GetLengthPrefixedSlice input;
  let '(str, input) := r in Some (key_DecodeFrom str, input).

Definition GetLevel (input : Slice) : option (Z * Slice) :=
  r ← GetVarint32 input;
  let '(v, input) := r in
  if v <? kNumLevels then Some (v, input) else None.

Definition decode_compact_pointer (input : Slice) : option (Z * list Z * Slice) :=
  r ← GetLevel input;
  let '(level, input) := r in
  r ← GetInternalKey input;
  let '(key, input) := r in Some (level, key, input).

Definition decode_deleted_file (input : Slice) : option (Z * Z * Slice) :=
  r ← GetLevel input;
  let '(level, input) := r in
  r ← GetVarint64 input;
  let '(number, input) := r in Some (level, number, input).

Definition decode_new_file (input : Slice) : option (Z * FileMetaData * Slice) :=
  r ← GetLevel input;
  let '(level, input) := r in
  r ← GetVarint64 input;
  let '(number, input) := r in
  r ← GetVarint64 input;
  let '(file_size, input) := r in
  r ← GetInternalKey input;
  let '(smallest, input) := r in
  r ← GetInternalKey input;
  let '(largest, input) := r in Some (level, new_FileMetaData number file_size smallest largest, input).

(** A record read by [r] that changes the edit, or the message [msg]. *)
Definition decode_with {A} (r : option (A * Slice)) (change : A -> VersionEdit -> VersionEdit) (msg : string) :
    M VersionEdit (Slice + option Slice) :=
  match r with
  | Some (a, input) => modify (change a) ;; ret (inl input)
  | None => ret (inr (Some (literal msg)))
  end.

(** One round of the loop, or [msg] behind it; [None] is null. *)
Definition edit_decode_step (input : Slice) : M VersionEdit (Slice + option Slice) :=
  match GetVarint32 input with
  | None => ret (inr (if negb (size input =? 0) then Some (literal "invalid tag") else None))
  | Some (tag, input) =>
      if tag =? kComparator then decode_with (GetLengthPrefixedSlice input) SetComparatorName "comparator name"
      else if tag =? kLogNumber then decode_with (GetVarint64 input) SetLogNumber "log number"
      else if tag =? kPrevLogNumber then decode_with (GetVarint64 input) SetPrevLogNumber "previous log number"
      else if tag =? kNextFileNumber then decode_with (GetVarint64 input) SetNextFile "next file number"
      else if tag =? kLastSequence then decode_with (GetVarint64 input) SetLastSequence "last sequence number"
      else if tag =? kCompactPointer then
        decode_with (decode_compact_pointer input) (fun '(level, key) => SetCompactPointer level key) "compaction pointer"
      else if tag =? kDeletedFile then
        decode_with (decode_deleted_file input) (fun '(level, number) => DeleteFile level number) "deleted file"
      else if tag =? kNewFile then
        decode_with (decode_new_file input) (fun '(level, f) => push_file level f) "new-file entry"
      else ret (inr (Some (literal "unknown tag")))
  end.

Definition edit_DecodeFrom (src : Slice) : M VersionEdit Status :=
  modify edit_Clear ;;
  msg <- loop edit_decode_step src ;;
  ret (match msg with Some msg => Corruption (literal "VersionEdit") msg | None => OK end).

(** ** [DebugString] *)

Definition newline : list Z := [10].

Definition edit_DebugString (e : VersionEdit) : list Z :=
  literal "VersionEdit {" ++
  (if has_comparator_ e then newline ++ literal "  Comparator: " ++ comparator_ e else []) ++
  (if has_log_number_ e then newline ++ literal "  LogNumber: " ++ decimal (log_number_ e) else []) ++
  (if has_prev_log_number_ e then newline ++ literal "  PrevLogNumber: " ++ decimal (prev_log_number_ e) else []) ++
  (if has_next_file_number_ e then newline ++ literal "  NextFile: " ++ decimal (next_file_number_ e) else []) ++
  (if has_last_sequence_ e then newline ++ literal "  LastSeq: " ++ decimal (last_sequence_ e) else []) ++
  concat (map (fun '(level, key) =>
    newline ++ literal "  CompactPointer: " ++ decimal (u64 level) ++ literal " " ++ key_DebugString key) (compact_pointers_ e)) ++
  concat (map (fun '(level, file) =>
    newline ++ literal "  DeleteFile: " ++ decimal (u64 level) ++ literal " " ++ decimal file) (deleted_files_ e)) ++
  concat (map (fun '(level, f) =>
    newline ++ literal "  AddFile: " ++ decimal (u64 level) ++ literal " " ++ decimal (number f) ++ literal " " ++
    decimal (file_size f) ++ literal " " ++ key_DebugString (smallest f) ++ literal " .. " ++ key_DebugString (largest f)) (new_files_ e)) ++
  newline ++ literal "}" ++ newline.
