(* ===== verification/LdbEditProps.v ===== *)
(** Version edits survive [EncodeTo] and [DecodeFrom], and [DecodeFrom] ends on any bytes
    in a well-formed edit. *)

From Stdlib Require Import ZArith Lia List String Bool.
From stdpp Require Import base list sorting.
From S2P Require Import Prelude Base128 LdbBase LdbText LdbCoding LdbKeys LdbVersionEdit.

(** ** Well-formed edits *)

Definition level_ok (level : Z) : Prop := 0 <= level < kNumLevels.
Definition u64_ok (v : Z) : Prop := 0 <= v < 2 ^ 64.
Definition name_ok (s : list Z) : Prop := size s < 2 ^ 32.

(** Files as [AddFile] makes them. *)
Definition file_ok (f : FileMetaData) : Prop :=
  refs f = 0 /\ allowed_seeks f = 2 ^ 30 /\ u64_ok (number f) /\ u64_ok (file_size f) /\ name_ok (smallest f) /\ name_ok (largest f).

(** The members behind a flag that is not set are as [Clear] leaves them. *)
Record edit_ok (e : VersionEdit) : Prop := {
  eo_comparator : name_ok (comparator_ e) /\ (has_comparator_ e = false -> comparator_ e = []);
  eo_log : u64_ok (log_number_ e) /\ (has_log_number_ e = false -> log_number_ e = 0);
  eo_prev : u64_ok (prev_log_number_ e) /\ (has_prev_log_number_ e = false -> prev_log_number_ e = 0);
  eo_next : u64_ok (next_file_number_ e) /\ (has_next_file_number_ e = false -> next_file_number_ e = 0);
  eo_last : u64_ok (last_sequence_ e) /\ (has_last_sequence_ e = false -> last_sequence_ e = 0);
  eo_compact : Forall (fun p => level_ok (fst p) /\ name_ok (snd p)) (compact_pointers_ e);
  eo_deleted : Forall (fun p => level_ok (fst p) /\ u64_ok (snd p)) (deleted_files_ e);
  eo_sorted : StronglySorted (fun a b => pair_less a b = true) (deleted_files_ e);
  eo_new : Forall (fun p => level_ok (fst p) /\ file_ok (snd p)) (new_files_ e)
}.

(** No key is empty, as [InternalKey::Encode] asserts. *)
Definition file_keys_set (f : FileMetaData) : Prop := smallest f <> [] /\ largest f <> [].
Definition keys_set (e : VersionEdit) : Prop :=
  Forall (fun p => snd p <> []) (compact_pointers_ e) /\ Forall (fun p => file_keys_set (snd p)) (new_files_ e).

(** ** The set of deleted files *)

Lemma pair_less_spec a b : reflect (fst a < fst b \/ fst a = fst b /\ snd a < snd b) (pair_less a b).
Proof.
  apply iff_reflect. unfold pair_less. rewrite orb_true_iff, andb_true_iff, !Z.ltb_lt, Z.eqb_eq. lia.
Qed.

Lemma set_insert_Forall (P : Z * Z -> Prop) x s : P x -> Forall P s -> Forall P (set_insert x s).
Proof.
  intros Hx. induction 1 as [|y s Hy Hs IH]; cbn [set_insert]; [by constructor|].
  destruct (pair_less x y); [by repeat constructor|]. destruct (pair_less y x); by constructor.
Qed.

Lemma set_insert_sorted x s : StronglySorted (fun a b => pair_less a b = true) s ->
  StronglySorted (fun a b => pair_less a b = true) (set_insert x s).
Proof.
  induction 1 as [|y s Hs IH Hy]; cbn [set_insert]; [by repeat constructor|].
  destruct (pair_less_spec x y) as [Hxy|Hxy].
  - constructor; [by constructor|]. constructor; [by destruct (pair_less_spec x y)|].
    eapply Forall_impl; [exact Hy|]. intros z Hyz. cbv beta in Hyz.
    destruct (pair_less_spec y z) as [Hyz'|]; [|done]. destruct (pair_less_spec x z); [done|lia].
  - destruct (pair_less y x) eqn:E; [|by constructor]. constructor; [done|]. by apply set_insert_Forall.
Qed.

(** What is larger than the whole set comes last. *)
Lemma set_insert_last x s : Forall (fun y => pair_less y x = true) s -> set_insert x s = s ++ [x].
Proof.
  induction 1 as [|y s Hy _ IH]; [done|]. cbn [set_insert app].
  destruct (pair_less_spec y x) as [Hyx|]; [|done]. destruct (pair_less_spec x y) as [Hxy|]; [lia|]. by rewrite IH.
Qed.

(** ** Records *)

(** The encoding is a sequence of records; each stands for a change of the edit. *)
Record edit_record := mk_record { rec_bytes : list Z; rec_change : VersionEdit -> VersionEdit }.

Definition number_record (tag v : Z) (set : Z -> VersionEdit -> VersionEdit) : edit_record :=
  mk_record (varint_bytes tag ++ varint_bytes v) (set v).
Definition compact_record (p : Z * list Z) : edit_record :=
  mk_record (varint_bytes kCompactPointer ++ varint_bytes (fst p) ++ prefixed (snd p)) (SetCompactPointer (fst p) (snd p)).
Definition deleted_record (p : Z * Z) : edit_record :=
  mk_record (varint_bytes kDeletedFile ++ varint_bytes (fst p) ++ varint_bytes (snd p)) (DeleteFile (fst p) (snd p)).
Definition new_record (p : Z * FileMetaData) : edit_record :=
  mk_record (varint_bytes kNewFile ++ varint_bytes (fst p) ++ varint_bytes (number (snd p)) ++ varint_bytes (file_size (snd p)) ++
             prefixed (smallest (snd p)) ++ prefixed (largest (snd p))) (push_file (fst p) (snd p)).

Definition edit_records (e : VersionEdit) : list edit_record :=
  (if has_comparator_ e then [mk_record (varint_bytes kComparator ++ prefixed (comparator_ e)) (SetComparatorName (comparator_ e))] else []) ++
  (if has_log_number_ e then [number_record kLogNumber (log_number_ e) SetLogNumber] else []) ++
  (if has_prev_log_number_ e then [number_record kPrevLogNumber (prev_log_number_ e) SetPrevLogNumber] else []) ++
  (if has_next_file_number_ e then [number_record kNextFileNumber (next_file_number_ e) SetNextFile] else []) ++
  (if has_last_sequence_ e then [number_record kLastSequence (last_sequence_ e) SetLastSequence] else []) ++
  map compact_record (compact_pointers_ e) ++ map deleted_record (deleted_files_ e) ++ map new_record (new_files_ e).

Definition records_bytes (rs : list edit_record) : list Z := concat (map rec_bytes rs).

Lemma records_bytes_app a b : records_bytes (a ++ b) = records_bytes a ++ records_bytes b.
Proof. unfold records_bytes. by rewrite map_app, concat_app. Qed.

Lemma level_fits level : level_ok level -> 0 <= level < 2 ^ 32.
Proof. unfold level_ok. change kNumLevels with 7. lia. Qed.

(** Appending record by record is appending their bytes. *)
Lemma fold_records {A} (encode : list Z -> A -> list Z) (record : A -> edit_record) l :
  Forall (fun a => forall dst, encode dst a = dst ++ rec_bytes (record a)) l ->
  forall dst, fold_left encode l dst = dst ++ records_bytes (map record l).
Proof.
  induction 1 as [|a l Ha _ IH]; intros dst; [by rewrite app_nil_r|]. cbn [fold_left]. rewrite IH, Ha, <- app_assoc. done.
Qed.

Lemma PutTag dst tag : 0 <= tag < 2 ^ 32 -> PutVarint32 dst tag = dst ++ varint_bytes tag.
Proof. apply PutVarint32_app. Qed.

(** So is a loop that asserts something of each; it fails where an assertion does. *)
Lemma encode_all_records {A} (encode : list Z -> A -> option (list Z)) (record : A -> edit_record) l :
  Forall (fun a => forall dst, encode dst a = Some (dst ++ rec_bytes (record a))) l ->
  forall dst, encode_all encode l dst = Some (dst ++ records_bytes (map record l)).
Proof.
  induction 1 as [|a l Ha _ IH]; intros dst; [by rewrite app_nil_r|]. cbn [encode_all]. rewrite Ha. cbn [mbind option_bind]. by rewrite IH, <- app_assoc.
Qed.

Lemma encode_all_set {A} (encode : list Z -> A -> option (list Z)) (P : A -> Prop) l :
  (forall dst a, is_Some (encode dst a) -> P a) -> forall dst, is_Some (encode_all encode l dst) -> Forall P l.
Proof.
  intros HP. induction l as [|a l IH]; intros dst Hs; [constructor|]. cbn [encode_all] in Hs. destruct (encode dst a) as [dst'|] eqn:E; [|by destruct Hs].
  constructor; [apply (HP dst); by rewrite E|by apply (IH dst')].
Qed.

Lemma key_Encode_set k : k <> [] -> key_Encode k = Some k.
Proof. by destruct k. Qed.

Lemma key_Encode_some k : is_Some (key_Encode k) -> k <> [].
Proof. destruct k; [by intros []|done]. Qed.

Lemma edit_EncodeTo_records e dst : edit_ok e -> keys_set e -> edit_EncodeTo e dst = Some (dst ++ records_bytes (edit_records e)).
Proof.
  intros [Hcmp Hlog Hprev Hnext Hlast Hcp Hdel _ Hnew] [Kc Kn]. unfold edit_EncodeTo.
  rewrite (encode_all_records encode_compact_pointer compact_record).
  2:{ apply Forall_forall. intros [level key] Hin d. rewrite Forall_forall in Hcp, Kc. destruct (Hcp _ Hin) as [Hl%level_fits Hk]. unfold encode_compact_pointer, compact_record, name_ok in *. rewrite key_Encode_set by (by apply (Kc _ Hin)). cbn [fst snd rec_bytes mbind option_bind] in *.
      rewrite uwrap_small, PutLengthPrefixedSlice_app, !PutVarint32_app by (done || lia). by rewrite <- !app_assoc. }
  cbn [mbind option_bind]. rewrite (fold_records encode_deleted_file deleted_record).
  2:{ eapply Forall_impl; [exact Hdel|]. intros [level n] [Hl%level_fits Hn] d. unfold encode_deleted_file, deleted_record, u64_ok in *. cbn [fst snd rec_bytes] in *.
      rewrite uwrap_small, PutVarint64_app, !PutVarint32_app by (done || lia). by rewrite <- !app_assoc. }
  rewrite (encode_all_records encode_new_file new_record).
  2:{ apply Forall_forall. intros [level f] Hin d. rewrite Forall_forall in Hnew, Kn. destruct (Hnew _ Hin) as [Hl%level_fits (_ & _ & Hn & Hs & Hsm & Hla)], (Kn _ Hin) as [K1 K2]. unfold encode_new_file, new_record, u64_ok, name_ok in *. cbn [fst snd rec_bytes] in *.
      cbv zeta. rewrite !key_Encode_set by done. cbn [mbind option_bind]. rewrite uwrap_small, !PutLengthPrefixedSlice_app, !PutVarint64_app, !PutVarint32_app by (done || lia). by rewrite <- !app_assoc. }
  unfold edit_records, number_record. rewrite !records_bytes_app, !app_assoc. do 4 f_equal.
  destruct Hcmp as [Hc _], Hlog as [Hl _], Hprev as [Hp _], Hnext as [Hn _], Hlast as [Hs _]. unfold name_ok, u64_ok in *.
  destruct (has_comparator_ e), (has_log_number_ e), (has_prev_log_number_ e), (has_next_file_number_ e), (has_last_sequence_ e);
    rewrite ?PutVarint64_app, ?PutLengthPrefixedSlice_app, ?PutVarint32_app by (done || lia);
    unfold records_bytes; cbn [map concat rec_bytes]; by rewrite ?app_nil_r, <- ?app_assoc.
Qed.

(** What [EncodeTo] asserts. *)
Lemma edit_EncodeTo_set e dst : is_Some (edit_EncodeTo e dst) -> keys_set e.
Proof.
  unfold edit_EncodeTo. cbv zeta. intros Hs. match type of Hs with is_Some (encode_all encode_compact_pointer ?l ?d ≫= ?k) => set (d0 := d) in Hs; destruct (encode_all encode_compact_pointer l d0) as [d1|] eqn:E; [|by destruct Hs] end.
  split.
  - apply (encode_all_set encode_compact_pointer _ _) with (dst := d0); [|by rewrite E]. intros d p. unfold encode_compact_pointer. intros Hp. apply key_Encode_some. destruct (key_Encode (snd p)); [done|by destruct Hp].
  - eapply (encode_all_set encode_new_file); [|exact Hs]. intros d [level f]. unfold encode_new_file, file_keys_set. cbn [fst snd]. cbv zeta. intros Hp. split; apply key_Encode_some; (destruct (key_Encode (smallest f)); [|by destruct Hp]); [done|]. cbn [mbind option_bind] in Hp. destruct (key_Encode (largest f)); [done|by destruct Hp].
Qed.

Lemma encode_all_some {A} (encode : list Z -> A -> option (list Z)) (P : A -> Prop) l :
  (forall dst a, P a -> is_Some (encode dst a)) -> Forall P l -> forall dst, is_Some (encode_all encode l dst).
Proof.
  intros HP. induction 1 as [|a l Ha _ IH]; intros dst; [done|]. cbn [encode_all]. destruct (HP dst a Ha) as [dst' ->]. apply IH.
Qed.

Lemma edit_EncodeTo_some e dst : keys_set e -> is_Some (edit_EncodeTo e dst).
Proof.
  intros [Kc Kn]. unfold edit_EncodeTo. cbv zeta. match goal with |- is_Some (encode_all encode_compact_pointer ?l ?d ≫= _) => destruct (encode_all_some encode_compact_pointer (fun p => snd p <> []) l) with (dst := d) as [d1 ->]; [|exact Kc|] end.
  - intros d p Hp. unfold encode_compact_pointer. by rewrite key_Encode_set.
  - cbn [mbind option_bind]. eapply (encode_all_some encode_new_file); [|exact Kn]. intros d [level f] [K1 K2]. unfold encode_new_file. cbn [fst snd] in *. cbv zeta. by rewrite !key_Encode_set.
Qed.

(** The bytes of an edit. *)
Definition record_of (e : VersionEdit) : Slice := default [] (edit_EncodeTo e []).

Lemma edit_EncodeTo_record e : keys_set e -> edit_EncodeTo e [] = Some (record_of e).
Proof. intros Hk. unfold record_of. by destruct (edit_EncodeTo_some e [] Hk) as [b ->]. Qed.

Lemma edit_EncodeTo_fails e dst : ~ keys_set e -> edit_EncodeTo e dst = None.
Proof. intros Hk. destruct (edit_EncodeTo e dst) eqn:E; [|done]. destruct Hk. apply (edit_EncodeTo_set e dst). by rewrite E. Qed.

(** ** Decoding a record *)

Definition decodes (r : edit_record) : Prop :=
  rec_bytes r <> [] /\ forall rest e, edit_decode_step (rec_bytes r ++ rest) e = (Ret (inl rest), rec_change r e).

Lemma varint_nonempty v : varint_bytes v <> [].
Proof. unfold varint_bytes. cbn [varint_groups]. by destruct (v <? 128). Qed.

Lemma tagged_nonempty tag l : varint_bytes tag ++ l <> [].
Proof. intros E. apply app_nil in E as [E _]. by apply varint_nonempty in E. Qed.

Lemma GetLevel_of level rest : level_ok level -> GetLevel (varint_bytes level ++ rest) = Some (level, rest).
Proof.
  intros Hl. unfold GetLevel. rewrite GetVarint32_of by (by apply level_fits). cbn [mbind option_bind].
  unfold level_ok in Hl. by destruct (Z.ltb_spec level kNumLevels); [|lia].
Qed.

Lemma GetInternalKey_of key rest : name_ok key -> GetInternalKey (prefixed key ++ rest) = Some (key, rest).
Proof. intros Hk. unfold GetInternalKey. by rewrite GetLengthPrefixedSlice_of. Qed.

(** The step on a tag and what follows it. *)
Ltac decode_tag := unfold edit_decode_step; rewrite <- ?app_assoc, GetVarint32_of by (vm_compute; split; congruence); 
  cbv iota beta; cbv [kComparator kLogNumber kPrevLogNumber kNextFileNumber kLastSequence kCompactPointer kDeletedFile kNewFile Z.eqb Pos.eqb].

Lemma decodes_comparator name : name_ok name -> decodes (mk_record (varint_bytes kComparator ++ prefixed name) (SetComparatorName name)).
Proof.
  intros Hn. split; [apply tagged_nonempty|]. intros rest e. cbn [rec_bytes rec_change]. decode_tag.
  rewrite GetLengthPrefixedSlice_of by done. done.
Qed.

Lemma decodes_numbers v : u64_ok v -> Forall decodes
  [number_record kLogNumber v SetLogNumber; number_record kPrevLogNumber v SetPrevLogNumber;
   number_record kNextFileNumber v SetNextFile; number_record kLastSequence v SetLastSequence].
Proof.
  intros Hv. repeat constructor; try apply tagged_nonempty; intros rest e; cbn [rec_bytes rec_change number_record]; decode_tag;
    by rewrite GetVarint64_of.
Qed.

Lemma decodes_compact p : level_ok (fst p) -> name_ok (snd p) -> decodes (compact_record p).
Proof.
  destruct p as [level key]. cbn [fst snd]. intros Hl Hk. split; [apply tagged_nonempty|]. intros rest e. unfold compact_record. cbn [rec_bytes rec_change fst snd]. decode_tag.
  unfold decode_compact_pointer. rewrite GetLevel_of by done. cbn [mbind option_bind]. by rewrite GetInternalKey_of.
Qed.

Lemma decodes_deleted p : level_ok (fst p) -> u64_ok (snd p) -> decodes (deleted_record p).
Proof.
  destruct p as [level n]. cbn [fst snd]. intros Hl Hn. split; [apply tagged_nonempty|]. intros rest e. unfold deleted_record. cbn [rec_bytes rec_change fst snd]. decode_tag.
  unfold decode_deleted_file. rewrite GetLevel_of by done. cbn [mbind option_bind]. by rewrite GetVarint64_of.
Qed.

Lemma file_ok_new f : file_ok f -> new_FileMetaData (number f) (file_size f) (smallest f) (largest f) = f.
Proof. destruct f as [r a n s sm la]. intros (Hr & Ha & _). cbn in *. unfold new_FileMetaData. by subst. Qed.

Lemma decodes_new p : level_ok (fst p) -> file_ok (snd p) -> decodes (new_record p).
Proof.
  destruct p as [level f]. cbn [fst snd]. intros Hl Hf. pose proof Hf as (_ & _ & Hn & Hs & Hsm & Hla).
  split; [apply tagged_nonempty|]. intros rest e. unfold new_record. cbn [rec_bytes rec_change fst snd]. decode_tag.
  unfold decode_new_file. rewrite GetLevel_of by done. cbn [mbind option_bind]. rewrite GetVarint64_of by done. cbn [mbind option_bind].
  rewrite GetVarint64_of by done. cbn [mbind option_bind]. rewrite GetInternalKey_of by done. cbn [mbind option_bind].
  rewrite GetInternalKey_of by done. cbn [mbind option_bind]. by rewrite file_ok_new.
Qed.

Lemma edit_records_decode e : edit_ok e -> Forall decodes (edit_records e).
Proof.
  intros [[Hcmp _] [Hlog _] [Hprev _] [Hnext _] [Hlast _] Hcp Hdel _ Hnew]. unfold edit_records.
  pose proof (decodes_numbers _ Hlog) as Hl. pose proof (decodes_numbers _ Hprev) as Hp. pose proof (decodes_numbers _ Hnext) as Hn.
  pose proof (decodes_numbers _ Hlast) as Hs. rewrite !Forall_cons in Hl, Hp, Hn, Hs.
  rewrite !Forall_app. split; [|split; [|split; [|split; [|split; [|split; [|split]]]]]].
  1-5: match goal with |- Forall _ (if ?b then _ else _) => destruct b end; [|done]; constructor; [|done]; first [by apply decodes_comparator|apply Hl|apply Hp|apply Hn|apply Hs].
  all: apply Forall_map; eapply Forall_impl; [eassumption|]; intros p [H1 H2]; first [by apply decodes_compact|by apply decodes_deleted|by apply decodes_new].
Qed.

(** ** The whole edit *)

Lemma decode_records rs : Forall decodes rs -> forall e,
  iterate (S (List.length rs)) edit_decode_step (records_bytes rs) e =
    (Ret None, fold_left (fun e r => rec_change r e) rs e).
Proof.
  induction 1 as [|r rs [_ Hr] _ IH]; intros e; [done|].
  change (List.length (r :: rs)) with (S (List.length rs)). remember (S (List.length rs)) as n. cbn [iterate fold_left].
  change (records_bytes (r :: rs)) with (rec_bytes r ++ records_bytes rs). erewrite bind_Ret by apply Hr. by rewrite IH.
Qed.

Lemma records_count rs : Forall decodes rs -> Z.of_nat (List.length rs) <= size (records_bytes rs).
Proof.
  induction 1 as [|r rs [Hr _] _ IH]; [done|]. change (records_bytes (r :: rs)) with (rec_bytes r ++ records_bytes rs).
  rewrite size_app. cbn [List.length]. destruct (rec_bytes r) as [|x l]; [done|]. rewrite size_cons. pose proof (size_nonneg l). lia.
Qed.

Lemma fold_compact l : forall e, fold_left (fun e r => rec_change r e) (map compact_record l) e =
  mk_edit (comparator_ e) (log_number_ e) (prev_log_number_ e) (next_file_number_ e) (last_sequence_ e)
    (has_comparator_ e) (has_log_number_ e) (has_prev_log_number_ e) (has_next_file_number_ e) (has_last_sequence_ e)
    (compact_pointers_ e ++ l) (deleted_files_ e) (new_files_ e).
Proof.
  induction l as [|[level key] l IH]; intros e; cbn [map fold_left]; [rewrite app_nil_r; by destruct e|]. rewrite IH. cbn. by rewrite <- app_assoc.
Qed.

Lemma fold_deleted l : forall e, StronglySorted (fun a b => pair_less a b = true) (deleted_files_ e ++ l) ->
  fold_left (fun e r => rec_change r e) (map deleted_record l) e =
  mk_edit (comparator_ e) (log_number_ e) (prev_log_number_ e) (next_file_number_ e) (last_sequence_ e)
    (has_comparator_ e) (has_log_number_ e) (has_prev_log_number_ e) (has_next_file_number_ e) (has_last_sequence_ e)
    (compact_pointers_ e) (deleted_files_ e ++ l) (new_files_ e).
Proof.
  induction l as [|[level n] l IH]; intros e Hs; cbn [map fold_left]; [rewrite app_nil_r; by destruct e|].
  assert (Hlast : set_insert (level, n) (deleted_files_ e) = deleted_files_ e ++ [(level, n)]).
  { apply set_insert_last. apply Forall_forall. intros y Hy. apply (StronglySorted_app_1_elem_of _ _ _ y (level, n) Hs Hy). apply elem_of_cons. by left. }
  rewrite IH; cbn [deleted_record rec_change fst snd DeleteFile deleted_files_ comparator_ log_number_ prev_log_number_ next_file_number_ last_sequence_
    has_comparator_ has_log_number_ has_prev_log_number_ has_next_file_number_ has_last_sequence_ compact_pointers_ new_files_]; rewrite Hlast, <- app_assoc; done.
Qed.

Lemma fold_new l : forall e, fold_left (fun e r => rec_change r e) (map new_record l) e =
  mk_edit (comparator_ e) (log_number_ e) (prev_log_number_ e) (next_file_number_ e) (last_sequence_ e)
    (has_comparator_ e) (has_log_number_ e) (has_prev_log_number_ e) (has_next_file_number_ e) (has_last_sequence_ e)
    (compact_pointers_ e) (deleted_files_ e) (new_files_ e ++ l).
Proof.
  induction l as [|[level f] l IH]; intros e; cbn [map fold_left]; [rewrite app_nil_r; by destruct e|]. rewrite IH. cbn. by rewrite <- app_assoc.
Qed.

Lemma fold_flag (b : bool) r e : fold_left (fun e r => rec_change r e) (if b then [r] else []) e = (if b then rec_change r else id) e.
Proof. by destruct b. Qed.

(** The changes of the records of [e] lead from a cleared edit to [e], behind the
    compaction pointers that [Clear] left. *)
Lemma fold_edit_records e e0 : edit_ok e ->
  fold_left (fun e r => rec_change r e) (edit_records e) (edit_Clear e0) =
  mk_edit (comparator_ e) (log_number_ e) (prev_log_number_ e) (next_file_number_ e) (last_sequence_ e)
    (has_comparator_ e) (has_log_number_ e) (has_prev_log_number_ e) (has_next_file_number_ e) (has_last_sequence_ e)
    (compact_pointers_ e0 ++ compact_pointers_ e) (deleted_files_ e) (new_files_ e).
Proof.
  destruct e as [c l p n q hc hl hp hn hq cp df nf]. intros [[_ Hcmp] [_ Hlog] [_ Hprev] [_ Hnext] [_ Hlast] _ _ Hs _]. cbn in Hcmp, Hlog, Hprev, Hnext, Hlast, Hs.
  unfold edit_records. cbn [has_comparator_ has_log_number_ has_prev_log_number_ has_next_file_number_ has_last_sequence_ comparator_ log_number_
    prev_log_number_ next_file_number_ last_sequence_ compact_pointers_ deleted_files_ new_files_]. rewrite !fold_left_app, !fold_flag, fold_new.
  assert (Hhead : (if hq then SetLastSequence q else id) ((if hn then SetNextFile n else id) ((if hp then SetPrevLogNumber p else id)
      ((if hl then SetLogNumber l else id) ((if hc then SetComparatorName c else id) (edit_Clear e0))))) =
    mk_edit c l p n q hc hl hp hn hq (compact_pointers_ e0) [] []).
  { destruct hc; [|rewrite Hcmp by done]; (destruct hl; [|rewrite Hlog by done]); (destruct hp; [|rewrite Hprev by done]);
    (destruct hn; [|rewrite Hnext by done]); (destruct hq; [|rewrite Hlast by done]); reflexivity. }
  cbn [rec_change number_record]. rewrite Hhead, fold_compact. cbn. rewrite fold_deleted by done. done.
Qed.

Lemma edit_decode_encode e e0 bytes : edit_ok e -> edit_EncodeTo e [] = Some bytes -> size bytes < 2 ^ 64 ->
  edit_DecodeFrom bytes e0 = (Ret OK,
    mk_edit (comparator_ e) (log_number_ e) (prev_log_number_ e) (next_file_number_ e) (last_sequence_ e)
      (has_comparator_ e) (has_log_number_ e) (has_prev_log_number_ e) (has_next_file_number_ e) (has_last_sequence_ e)
      (compact_pointers_ e0 ++ compact_pointers_ e) (deleted_files_ e) (new_files_ e)).
Proof.
  intros He Hb Hsz. pose proof (edit_records_decode e He) as Hd. rewrite edit_EncodeTo_records in Hb; [|done|by apply (edit_EncodeTo_set e []); rewrite Hb]. cbn [app] in Hb. injection Hb as <-.
  unfold edit_DecodeFrom. rewrite bind_modify. pose proof (records_count _ Hd).
  erewrite bind_Ret by (apply (loop_iterate _ (S (List.length (edit_records e)))); [by apply decode_records|done|lia]).
  cbv beta iota. by rewrite fold_edit_records.
Qed.

(** ** Arbitrary bytes *)

Lemma get_varint_loop_range w last p : 0 <= w -> forall shift r v rest, 0 <= r < 2 ^ w ->
  get_varint_loop w last shift r p = Some (v, rest) -> 0 <= v < 2 ^ w.
Proof.
  intros Hw. induction p as [|b p IH]; intros shift r v rest Hr; cbn [get_varint_loop]; [done|].
  destruct (shift <=? last); [|done]. assert (Hu : forall x, 0 <= uwrap w x < 2 ^ w) by (intros x; apply Z.mod_pos_bound; lia).
  destruct (negb _); [apply IH|intros E; injection E as <- _]; by rewrite lor_uwrap.
Qed.

(** What a parser reads, where it succeeds, and that it takes something off its input. *)
Definition reads {A} (P : A -> Prop) (input : Slice) (r : option (A * Slice)) : Prop :=
  match r with
  | Some (a, rest) => P a /\ Forall byte rest /\ size rest < size input
  | None => True
  end.

Lemma suffix_reads used rest (input : Slice) : Forall byte input -> used <> [] -> input = used ++ rest -> Forall byte rest /\ size rest < size input.
Proof.
  intros Hb Hu ->. apply Forall_app in Hb as [_ Hb]. split; [done|]. rewrite size_app. destruct used; [done|].
  rewrite size_cons. pose proof (size_nonneg used). lia.
Qed.

Lemma GetVarint64_reads input : Forall byte input -> reads u64_ok input (GetVarint64 input).
Proof.
  intros Hb. unfold reads, GetVarint64, GetVarint64Ptr. destruct (get_varint_loop _ _ _ _ _) as [[v rest]|] eqn:E; [|done].
  split; [by apply (get_varint_loop_range 64 63 input ltac:(done) 0 0 v rest ltac:(done) E)|].
  destruct (get_varint_loop_suffix _ _ _ _ _ _ _ E) as (used & Hu & ->). by apply (suffix_reads used).
Qed.

Lemma GetVarint32_reads input : Forall byte input -> reads (fun v => 0 <= v < 2 ^ 32) input (GetVarint32 input).
Proof.
  intros Hb. unfold reads. destruct (GetVarint32 input) as [[v rest]|] eqn:E; [|done]. unfold GetVarint32 in E. split.
  - unfold GetVarint32Ptr, GetVarint32PtrFallback in E. destruct input as [|b input]; [by apply (get_varint_loop_range 32 28 [] ltac:(done) 0 0 v rest ltac:(done) E)|].
    destruct (_ =? 0); [|by apply (get_varint_loop_range 32 28 (b :: input) ltac:(done) 0 0 v rest ltac:(done) E)].
    injection E as <- <-. apply Forall_cons in Hb as [Hb _]. unfold byte in Hb. lia.
  - destruct (GetVarint32Ptr_suffix _ _ _ E) as (used & Hu & ->). by apply (suffix_reads used).
Qed.

Lemma reads_bind {A B} (P : A -> Prop) (Q : B -> Prop) input r (k : A * Slice -> option (B * Slice)) :
  reads P input r -> (forall a rest, P a -> Forall byte rest -> reads Q rest (k (a, rest))) -> reads Q input (r ≫= k).
Proof.
  intros Hr Hk. destruct r as [[a rest]|]; [|done]. destruct Hr as (Ha & Hb & Hsz). cbn. specialize (Hk a rest Ha Hb).
  unfold reads in *. destruct (k (a, rest)) as [[b rest']|]; [|done]. destruct Hk as (H1 & H2 & H3). split; [done|]. split; [done|]. lia.
Qed.

Lemma reads_last {A B} (P : A -> Prop) (Q : B -> Prop) input r (f : A -> B) :
  reads P input r -> (forall a, P a -> Q (f a)) -> reads Q input (p ← r; let '(a, rest) := p in Some (f a, rest)).
Proof. intros Hr Hf. destruct r as [[a rest]|]; [|done]. destruct Hr as (Ha & H). by split; [apply Hf|]. Qed.

Lemma GetLengthPrefixedSlice_reads input : Forall byte input -> reads name_ok input (GetLengthPrefixedSlice input).
Proof.
  intros Hb. pose proof (GetVarint32_reads input Hb) as Hr. unfold GetLengthPrefixedSlice. destruct (GetVarint32 input) as [[len rest]|]; [|done].
  destruct Hr as (Hl & Hbr & Hsz). cbn. destruct (Z.leb_spec len (size rest)); [|done]. split; [|split].
  - unfold name_ok. rewrite size_take by lia. lia.
  - by apply Forall_drop.
  - unfold remove_prefix. rewrite size_drop by lia. lia.
Qed.

Lemma GetInternalKey_reads input : Forall byte input -> reads name_ok input (GetInternalKey input).
Proof.
  intros Hb. apply (reads_last name_ok _ input _ (fun s => s)); [by apply GetLengthPrefixedSlice_reads|done].
Qed.

Lemma GetLevel_reads input : Forall byte input -> reads level_ok input (GetLevel input).
Proof.
  intros Hb. pose proof (GetVarint32_reads input Hb) as Hr. unfold GetLevel. destruct (GetVarint32 input) as [[v rest]|]; [|done].
  destruct Hr as (Hv & H). cbn. destruct (Z.ltb_spec v kNumLevels); [|done]. split; [unfold level_ok; lia|done].
Qed.

Lemma decode_compact_pointer_reads input : Forall byte input ->
  reads (fun p => level_ok (fst p) /\ name_ok (snd p)) input (decode_compact_pointer input).
Proof.
  intros Hb. unfold decode_compact_pointer. eapply reads_bind; [by apply GetLevel_reads|]. intros level rest Hl Hr.
  apply (reads_last name_ok _ rest _ (fun key => (level, key))); [by apply GetInternalKey_reads|]. by intros key Hkey.
Qed.

Lemma decode_deleted_file_reads input : Forall byte input ->
  reads (fun p => level_ok (fst p) /\ u64_ok (snd p)) input (decode_deleted_file input).
Proof.
  intros Hb. unfold decode_deleted_file. eapply reads_bind; [by apply GetLevel_reads|]. intros level rest Hl Hr.
  apply (reads_last u64_ok _ rest _ (fun n => (level, n))); [by apply GetVarint64_reads|done].
Qed.

Lemma decode_new_file_reads input : Forall byte input ->
  reads (fun p => level_ok (fst p) /\ file_ok (snd p)) input (decode_new_file input).
Proof.
  intros Hb. unfold decode_new_file. eapply reads_bind; [by apply GetLevel_reads|]. intros level r1 Hl H1.
  eapply reads_bind; [by apply GetVarint64_reads|]. intros n r2 Hn H2. eapply reads_bind; [by apply GetVarint64_reads|]. intros s r3 Hs H3.
  eapply reads_bind; [by apply GetInternalKey_reads|]. intros sm r4 Hsm H4.
  apply (reads_last name_ok _ r4 _ (fun la => (level, new_FileMetaData n s sm la))); [by apply GetInternalKey_reads|done].
Qed.

(** A change keeps the edit well-formed. *)
Lemma changes_ok e : edit_ok e ->
  (forall s, name_ok s -> edit_ok (SetComparatorName s e)) /\
  (forall v, u64_ok v -> edit_ok (SetLogNumber v e) /\ edit_ok (SetPrevLogNumber v e) /\ edit_ok (SetNextFile v e) /\ edit_ok (SetLastSequence v e)) /\
  (forall p, level_ok (fst p) /\ name_ok (snd p) -> edit_ok (SetCompactPointer (fst p) (snd p) e)) /\
  (forall p, level_ok (fst p) /\ u64_ok (snd p) -> edit_ok (DeleteFile (fst p) (snd p) e)) /\
  (forall p, level_ok (fst p) /\ file_ok (snd p) -> edit_ok (push_file (fst p) (snd p) e)).
Proof.
  intros [H1 H2 H3 H4 H5 H6 H7 H8 H9]. split; [|split; [|split; [|split]]].
  - intros s Hs. by split.
  - intros v Hv. split; [|split; [|split]]; by split.
  - intros p Hp. split; cbn; try done. apply Forall_app. by split; [|constructor].
  - intros [level n] Hp. split; cbn; try done; [by apply set_insert_Forall|by apply set_insert_sorted].
  - intros p Hp. split; cbn; try done. apply Forall_app. by split; [|constructor].
Qed.

Lemma edit_Clear_ok e : edit_ok e -> edit_ok (edit_Clear e).
Proof. intros [H1 H2 H3 H4 H5 H6 H7 H8 H9]. split; cbn; try done; by repeat constructor. Qed.

Lemma decode_with_ok {A} (P : A -> Prop) input (r : option (A * Slice)) change msg e :
  reads P input r -> (forall a, P a -> edit_ok (change a e)) ->
  exists o e', decode_with r change msg e = (Ret o, e') /\
    match o with
    | inl rest => edit_ok e' /\ Forall byte rest /\ size rest < size input
    | inr m => e' = e /\ exists m', m = Some m'
    end.
Proof.
  intros Hr Hc. unfold decode_with. destruct r as [[a rest]|].
  - destruct Hr as (Ha & Hb & Hsz). eexists _, _. split; [reflexivity|]. cbn. by split; [apply Hc|].
  - eexists _, _. split; [reflexivity|]. split; [done|]. by eexists.
Qed.

Lemma edit_decode_step_ok input e : edit_ok e -> Forall byte input ->
  exists o e', edit_decode_step input e = (Ret o, e') /\
    match o with
    | inl rest => edit_ok e' /\ Forall byte rest /\ size rest < size input
    | inr m => e' = e /\ (m = None -> input = [])
    end.
Proof.
  intros He Hb. unfold edit_decode_step. pose proof (GetVarint32_reads input Hb) as Hr. destruct (GetVarint32 input) as [[tag rest]|].
  2:{ eexists _, _. split; [reflexivity|]. split; [done|]. destruct (Z.eqb_spec (size input) 0); [by intros _; apply size_0|done]. }
  destruct Hr as (_ & Hbr & Hsz). destruct (changes_ok e He) as (H1 & H2 & H3 & H4 & H5).
  assert (Hcase : forall {A} (P : A -> Prop) r change msg, reads P rest r -> (forall a, P a -> edit_ok (change a e)) ->
    exists o e', decode_with r change msg e = (Ret o, e') /\
      match o with inl rest => edit_ok e' /\ Forall byte rest /\ size rest < size input | inr m => e' = e /\ (m = None -> input = []) end).
  { intros A P r change msg Hr Hc. destruct (decode_with_ok P rest r change msg e Hr Hc) as (o & e' & E & H). exists o, e'. split; [done|].
    destruct o as [rest'|m]; [destruct H as (Ha & Hb' & Hs); split; [done|]; split; [done|lia]|]. destruct H as [-> [m' ->]]. done. }
  repeat match goal with |- context [if ?c then _ else _] => destruct c end.
  all: try (eapply Hcase; [by eauto using GetLengthPrefixedSlice_reads, GetVarint64_reads, decode_compact_pointer_reads, decode_deleted_file_reads, decode_new_file_reads|]).
  - exact H1.
  - intros v Hv. by apply H2.
  - intros v Hv. by apply H2.
  - intros v Hv. by apply H2.
  - intros v Hv. by apply H2.
  - intros [level key] Hp. by apply (H3 (level, key)).
  - intros [level n] Hp. by apply (H4 (level, n)).
  - intros [level f] Hp. by apply (H5 (level, f)).
  - eexists _, _. split; [reflexivity|]. done.
Qed.

Lemma edit_DecodeFrom_ok src e : edit_ok e -> Forall byte src -> size src < 2 ^ 64 ->
  exists s e', edit_DecodeFrom src e = (Ret s, e') /\ edit_ok e' /\ (s = OK \/ IsCorruption s = true).
Proof.
  intros He Hb Hsz.
  destruct (wp_Ret (loop edit_decode_step src) (edit_Clear e) (fun _ e' => edit_ok e')) as (m & e' & E & H).
  - apply (wp_loop _ (fun input e => edit_ok e /\ Forall byte input) (fun input _ => size input)).
    + intros input t [Ht Hi]. split; [apply size_nonneg|]. destruct (edit_decode_step_ok input t Ht Hi) as (o & t' & E & H).
      unfold wp. rewrite E. destruct o as [rest|m]; [by destruct H as (H1 & H2 & H3)|]. by destruct H as [-> _].
    + split; [by apply edit_Clear_ok|done].
    + lia.
  - unfold edit_DecodeFrom. rewrite bind_modify. erewrite bind_Ret by exact E. eexists _, e'. split; [reflexivity|]. split; [done|].
    destruct m as [m|]; [right|by left]. reflexivity.
Qed.

(** ** Properties *)

(** A decoded edit keeps the compaction pointers of the edit it is decoded into, since
    [Clear] does not clear them. *)
Lemma edit_DecodeFrom_keeps_pointers :
  let e := SetCompactPointer 1 (literal "old") new_VersionEdit in
  exists bytes, edit_EncodeTo (SetCompactPointer 2 (literal "new") new_VersionEdit) [] = Some bytes /\
    edit_DecodeFrom bytes e = (Ret OK, SetCompactPointer 2 (literal "new") e).
Proof. exists (default [] (edit_EncodeTo (SetCompactPointer 2 (literal "new") new_VersionEdit) [])). split; vm_compute; reflexivity. Qed.

(** [DecodeFrom] accepts a compaction pointer, or a file, with an empty key, the value that the class [InternalKey]
    calls invalid and that its [Encode] refuses by an assertion. *)
Lemma edit_DecodeFrom_empty_key :
  let e := SetCompactPointer 0 [] new_VersionEdit in
  edit_DecodeFrom [5; 0; 0] new_VersionEdit = (Ret OK, e) /\ edit_EncodeTo e [] = None.
Proof. split; vm_compute; reflexivity. Qed.

(** C39: [VersionEdit::EncodeTo] passes its assertions exactly if no key of the edit is empty, and
    [DecodeFrom] then gives back the edit that was written: which members
    are set and their values, the compaction pointers and the new files in their order,
    and the set of deleted files. It decodes into any edit without compaction
    pointers, whatever else that edit holds. *)
Theorem version_edit_roundtrip e e0 :
  edit_ok e -> compact_pointers_ e0 = [] ->
  (keys_set e -> exists bytes, edit_EncodeTo e [] = Some bytes /\ (size bytes < 2 ^ 64 -> edit_DecodeFrom bytes e0 = (Ret OK, e))) /\
  (~ keys_set e -> edit_EncodeTo e [] = None).
Proof.
  intros He H0. split; [|apply edit_EncodeTo_fails]. intros Hk. pose proof (edit_EncodeTo_records e [] He Hk) as E. eexists. split; [exact E|].
  intros Hsz. rewrite (edit_decode_encode e e0 _ He E Hsz), H0. by destruct e.
Qed.

(** An edit with every kind of record. *)
Definition sample_edit : VersionEdit :=
  AddFile 2 12 4096 (literal "apple1234567") (literal "banana123456")
    (DeleteFile 1 300 (DeleteFile 0 7 (SetCompactPointer 3 (literal "cherry123456")
      (SetLastSequence 1000 (SetNextFile 15 (SetLogNumber 14 (SetComparatorName (literal "leveldb.BytewiseComparator") new_VersionEdit))))))).

Lemma sample_edit_ok : edit_ok sample_edit.
Proof. split; repeat constructor; unfold u64_ok, level_ok, name_ok; cbn; try lia; done. Defined.

Lemma version_edit_roundtrip_witness :
  (exists bytes, edit_EncodeTo sample_edit [] = Some bytes /\ edit_DecodeFrom bytes (SetLogNumber 3 (DeleteFile 5 5 new_VersionEdit)) = (Ret OK, sample_edit)) /\
  edit_EncodeTo (AddFile 0 9 4096 (literal "apple1234567") [] new_VersionEdit) [] = None.
Proof.
  split.
  - destruct (version_edit_roundtrip sample_edit (SetLogNumber 3 (DeleteFile 5 5 new_VersionEdit))) as [H _]; [exact sample_edit_ok|reflexivity|].
    destruct H as (bytes & E & Hd); [split; repeat constructor; done|]. exists bytes. split; [exact E|]. apply Hd. vm_compute in E. injection E as <-. vm_compute. reflexivity.
  - apply (version_edit_roundtrip _ new_VersionEdit); [split; repeat constructor; unfold u64_ok, level_ok, name_ok; cbn; try lia; done|reflexivity|].
    intros [_ Hn]. apply Forall_cons_1 in Hn as [[_ Hn] _]. by apply Hn.
Defined.

(** C40: on any bytes [DecodeFrom] ends, with OK or with a corruption, and the edit it
    leaves, in either case, is well-formed: levels below [kNumLevels], 64-bit numbers,
    each deleted file once and in order, members without their flag as [Clear] leaves
    them. It does not ask that keys are not empty: such an edit fails the assertion of [EncodeTo];
    without an empty key the edit survives being written and read again. *)
Theorem version_edit_decode_total src e :
  edit_ok e -> Forall byte src -> size src < 2 ^ 64 ->
  exists s e', edit_DecodeFrom src e = (Ret s, e') /\ edit_ok e' /\ (s = OK \/ IsCorruption s = true) /\
    (keys_set e' -> exists bytes, edit_EncodeTo e' [] = Some bytes /\ (size bytes < 2 ^ 64 -> edit_DecodeFrom bytes new_VersionEdit = (Ret OK, e'))) /\
    (~ keys_set e' -> edit_EncodeTo e' [] = None).
Proof.
  intros He Hb Hsz. destruct (edit_DecodeFrom_ok src e He Hb Hsz) as (s & e' & E & He' & Hs). exists s, e'. split; [done|]. split; [done|].
  split; [done|]. split; [|apply edit_EncodeTo_fails]. intros Hk. pose proof (edit_EncodeTo_records e' [] He' Hk) as Ee. eexists. split; [exact Ee|].
  intros Hsz'. rewrite (edit_decode_encode e' _ _ He' Ee Hsz'). by destruct e'.
Qed.

(** A deleted file at level 7, which does not exist, behind a log number; and an empty key. *)
Lemma version_edit_decode_total_witness :
  (exists s e', edit_DecodeFrom [2; 14; 6; 7; 1] new_VersionEdit = (Ret s, e') /\ edit_ok e' /\ s = Corruption (literal "VersionEdit") (literal "deleted file")) /\
  exists e', edit_DecodeFrom [5; 0; 0] new_VersionEdit = (Ret OK, e') /\ edit_EncodeTo e' [] = None.
Proof.
  assert (Hnew : edit_ok new_VersionEdit) by (split; repeat constructor; unfold u64_ok; cbn; try lia; done).
  split.
  - destruct (version_edit_decode_total [2; 14; 6; 7; 1] new_VersionEdit Hnew) as (s & e' & E & He & _); [repeat constructor; unfold byte; lia|vm_compute; reflexivity|].
    exists s, e'. split; [exact E|]. split; [exact He|]. vm_compute in E. injection E as <- _. vm_compute. reflexivity.
  - destruct (version_edit_decode_total [5; 0; 0] new_VersionEdit Hnew) as (s & e' & E & _ & _ & _ & Hn); [repeat constructor; unfold byte; lia|vm_compute; reflexivity|].
    assert (Hs : s = OK /\ e' = SetCompactPointer 0 [] new_VersionEdit) by (vm_compute in E; injection E as <- <-; split; reflexivity). destruct Hs as [-> ->]. eexists. split; [exact E|].
    apply Hn. intros [Hk _]. apply Forall_cons_1 in Hk as [Hk _]. by apply Hk.
Defined.
