(* ===== verification/LdbFilterBlock.v ===== *)
(** Bloom filters and the filter block have no false negatives: a key that was
    added always matches.

    The filter block has no false negatives, for every filter policy that keeps the
    promise of [filter_policy.h]: what [FilterBlockBuilder] builds,
    [FilterBlockReader] reads back. *)

From Stdlib Require Import ZArith Lia List String Bool.
From stdpp Require Import base list.
From S2P Require Import Prelude LdbBase LdbCoding LdbFilter.

(** ** Bits of an array *)

Lemma land_bit x k : 0 <= k -> negb (Z.land x (Z.shiftl 1 k) =? 0) = Z.testbit x k.
Proof.
  intros Hk. rewrite Z.shiftl_1_l. destruct (Z.testbit x k) eqn:E.
  - apply negb_true_iff, Z.eqb_neq. intros H. apply (f_equal (fun z => Z.testbit z k)) in H.
    rewrite Z.land_spec, E, Z.pow2_bits_true, Z.bits_0 in H by lia. done.
  - apply negb_false_iff, Z.eqb_eq. apply Z.bits_inj'. intros i Hi. rewrite Z.land_spec, Z.bits_0, Z.pow2_bits_eqb by lia.
    destruct (Z.eqb_spec k i) as [<-|]; [by rewrite E|by rewrite andb_false_r].
Qed.

Lemma testbit_mod x w k : 0 <= k < w -> Z.testbit (x mod 2 ^ w) k = Z.testbit x k.
Proof. intros Hk. apply Z.mod_pow2_bits_low. lia. Qed.

Lemma test_bit_is array i : 0 <= i -> test_bit array i = Z.testbit (nth (Z.to_nat (i / 8)) array 0) (i mod 8).
Proof.
  intros Hi. unfold test_bit. pose proof (Z.mod_pos_bound i 8 ltac:(lia)). rewrite land_bit by lia.
  rewrite <- (testbit_mod _ 8) by lia. rewrite swrap_mod by lia. by rewrite testbit_mod by lia.
Qed.

Lemma length_set_bit array p : List.length (set_bit array p) = List.length array.
Proof. apply length_insert. Qed.

Lemma nth_insert (l : list Z) i j v : (i < List.length l)%nat -> nth j (<[i:=v]> l) 0 = if decide (i = j) then v else nth j l 0.
Proof.
  intros Hi. rewrite !nth_lookup. destruct (decide (i = j)) as [<-|Hne].
  - by rewrite list_lookup_insert_eq.
  - by rewrite list_lookup_insert_ne.
Qed.

(** [set_bit] sets its bit, keeps the others. *)
Lemma test_set_bit array p q :
  0 <= p < 8 * size array -> 0 <= q ->
  test_bit (set_bit array p) q = if decide (p = q) then true else test_bit array q.
Proof.
  unfold size. intros Hp Hq. rewrite !test_bit_is by lia. unfold set_bit.
  assert (Hlen : (Z.to_nat (p / 8) < List.length array)%nat) by zlia.
  rewrite nth_insert by done.
  destruct (decide (Z.to_nat (p / 8) = Z.to_nat (q / 8))) as [E|Hne].
  - assert (E' : p / 8 = q / 8) by zlia. unfold uwrap. rewrite testbit_mod by (apply Z.mod_pos_bound; lia).
    pose proof (Z.mod_pos_bound q 8 ltac:(lia)). pose proof (Z.mod_pos_bound p 8 ltac:(lia)).
    rewrite Z.lor_spec, Z.shiftl_1_l, Z.pow2_bits_eqb by lia. rewrite E'.
    destruct (decide (p = q)) as [->|Hpq]; [by rewrite Z.eqb_refl, orb_true_r|].
    destruct (Z.eqb_spec (p mod 8) (q mod 8)); [zlia|]. by rewrite orb_false_r.
  - destruct (decide (p = q)) as [->|]; [done|]. done.
Qed.

(** ** Probes *)

(** [b] has every bit of [a]. *)
Definition covers (a b : list Z) : Prop :=
  List.length b = List.length a /\ forall q, 0 <= q -> test_bit a q = true -> test_bit b q = true.

Lemma covers_refl a : covers a a.
Proof. done. Qed.

Lemma covers_trans a b c : covers a b -> covers b c -> covers a c.
Proof. intros [L1 H1] [L2 H2]. split; [congruence|auto]. Qed.

#[export] Instance covers_preorder : PreOrder covers.
Proof. split; [exact covers_refl|exact covers_trans]. Qed.

Section Probes.
Variable bits : Z.
Hypothesis Hbits : 0 < bits.

Lemma probe_range h : 0 <= h -> 0 <= u32 (h mod bits) < bits.
Proof.
  intros Hh. pose proof (Z.mod_pos_bound h bits Hbits). unfold uwrap. split; [apply Z.mod_pos_bound; lia|].
  eapply Z.le_lt_trans; [apply Z.mod_le; lia|lia].
Qed.

Lemma set_bit_covers array p : 0 <= p < 8 * size array -> covers array (set_bit array p).
Proof.
  intros Hp. split; [apply length_set_bit|]. intros q Hq Ht. rewrite test_set_bit by done. by destruct (decide (p = q)).
Qed.

Lemma set_probes_covers n : forall h delta array,
  0 <= h -> bits <= 8 * size array -> covers array (set_probes n h delta bits array).
Proof.
  induction n as [|n IH]; intros h delta array Hh Ha; cbn [set_probes]; [done|].
  pose proof (probe_range h Hh). transitivity (set_bit array (u32 (h mod bits))).
  - apply set_bit_covers. lia.
  - apply IH; [apply uwrap_range; lia|]. unfold size in *. by rewrite length_set_bit.
Qed.

Lemma test_probes_covers n : forall h delta a b,
  0 <= h -> covers a b -> test_probes n h delta bits a = true -> test_probes n h delta bits b = true.
Proof.
  induction n as [|n IH]; intros h delta a b Hh Hab; cbn [test_probes]; [done|].
  pose proof (probe_range h Hh). destruct (test_bit a (u32 (h mod bits))) eqn:E; [|done].
  rewrite (proj2 Hab (u32 (h mod bits)) ltac:(lia) E). apply IH; [apply uwrap_range; lia|done].
Qed.

(** The bits a key sets are those it is tested for. *)
Lemma probes_found n : forall h delta array,
  0 <= h -> bits <= 8 * size array -> test_probes n h delta bits (set_probes n h delta bits array) = true.
Proof.
  induction n as [|n IH]; intros h delta array Hh Ha; cbn [set_probes test_probes]; [done|].
  pose proof (probe_range h Hh). set (p := u32 (h mod bits)) in *.
  assert (Ha' : bits <= 8 * size (set_bit array p)) by (unfold size in *; by rewrite length_set_bit).
  assert (Hh' : 0 <= u32 (h + delta)) by (apply uwrap_range; lia).
  destruct (set_probes_covers n (u32 (h + delta)) delta (set_bit array p) Hh' Ha') as [_ Hc].
  rewrite (Hc p ltac:(lia)) by (rewrite test_set_bit by lia; by destruct (decide (p = p))).
  by apply IH.
Qed.

End Probes.

Lemma lxor_shiftr_nonneg h k : 0 <= h -> 0 <= Z.lxor h (Z.shiftr h k).
Proof. intros Hh. apply Z.lxor_nonneg. rewrite Z.shiftr_nonneg. lia. Qed.

Lemma hash_words_nonneg m n : forall h data, (List.length data <= n)%nat -> 0 <= h -> 0 <= fst (hash_words m h data).
Proof.
  induction n as [|n IH]; intros h data Hn Hh; [by destruct data; [|cbn in Hn; lia]|].
  destruct data as [|b0 [|b1 [|b2 [|b3 data]]]]; [done..|]. cbn [hash_words]. apply IH; [cbn in Hn; lia|].
  apply lxor_shiftr_nonneg, uwrap_range. lia.
Qed.

Lemma BloomHash_nonneg key : 0 <= BloomHash key.
Proof.
  unfold BloomHash, Hash. set (h0 := u32 _).
  pose proof (hash_words_nonneg 0xc6a4a793 _ h0 key (le_n _) ltac:(apply uwrap_range; lia)) as Hh.
  destruct (hash_words 0xc6a4a793 h0 key) as [h rest]. cbn [fst] in Hh. cbv zeta.
  repeat case_match; try done; apply lxor_shiftr_nonneg, uwrap_range; lia.
Qed.

(** ** Filters *)

Definition bloom_ok (p : BloomFilterPolicy) : Prop := 0 <= bits_per_key_ p /\ 1 <= k_ p <= 30.

Definition bloom_keys_ok (p : BloomFilterPolicy) (keys : list Slice) : Prop :=
  size keys * bits_per_key_ p < 2 ^ 63.

Section Bloom.
Variable p : BloomFilterPolicy.
Hypothesis Hp : bloom_ok p.

(** The number of bytes of a filter. *)
Definition filter_bytes (n : Z) : Z :=
  let bits := n * bits_per_key_ p in (if bits <? 64 then 64 + 7 else bits + 7) / 8.

Lemma add_key_covers bits array key :
  0 < bits -> bits <= 8 * size array -> covers array (add_key (k_ p) bits array key).
Proof. intros Hb Ha. apply set_probes_covers; [done|apply BloomHash_nonneg|done]. Qed.

Lemma add_keys_covers bits keys : forall array,
  0 < bits -> bits <= 8 * size array -> covers array (fold_left (add_key (k_ p) bits) keys array).
Proof.
  induction keys as [|key keys IH]; intros array Hb Ha; cbn [fold_left]; [done|].
  destruct (add_key_covers bits array key Hb Ha) as [Hl Hc]. transitivity (add_key (k_ p) bits array key); [done|].
  apply IH; [done|]. unfold size in *. by rewrite Hl.
Qed.

Lemma added_keys_found bits keys : forall array key,
  0 < bits -> bits <= 8 * size array -> key ∈ keys ->
  let h := BloomHash key in
  test_probes (Z.to_nat (k_ p)) h (rotate17 h) bits (fold_left (add_key (k_ p) bits) keys array) = true.
Proof.
  induction keys as [|k keys IH]; intros array key Hb Ha Hin; [by apply elem_of_nil in Hin|]. cbn [fold_left].
  assert (Ha' : bits <= 8 * size (add_key (k_ p) bits array k)).
  { destruct (add_key_covers bits array k Hb Ha) as [Hl _]. unfold size in *. by rewrite Hl. }
  apply elem_of_cons in Hin as [->|Hin]; [|by apply IH]. cbv zeta.
  eapply test_probes_covers; [done|apply BloomHash_nonneg|by apply add_keys_covers|].
  apply probes_found; [done|apply BloomHash_nonneg|done].
Qed.

(** The bytes behind the bits do not change. *)
Lemma set_bit_behind array q j : 0 <= q -> (Z.to_nat (q / 8) < j)%nat -> nth j (set_bit array q) 0 = nth j array 0.
Proof. intros Hq Hj. unfold set_bit. rewrite !nth_lookup, list_lookup_insert_ne; [done|lia]. Qed.

Lemma set_probes_behind bits j n : forall h delta array,
  0 < bits -> 0 <= h -> bits <= 8 * Z.of_nat j -> nth j (set_probes n h delta bits array) 0 = nth j array 0.
Proof.
  induction n as [|n IH]; intros h delta array Hb Hh Hj; cbn [set_probes]; [done|].
  pose proof (probe_range bits Hb h Hh). rewrite IH by (done || (apply uwrap_range; lia)). apply set_bit_behind; zlia.
Qed.

Lemma add_keys_behind bits keys j : forall array,
  0 < bits -> bits <= 8 * Z.of_nat j ->
  nth j (fold_left (add_key (k_ p) bits) keys array) 0 = nth j array 0 /\
  List.length (fold_left (add_key (k_ p) bits) keys array) = List.length array.
Proof.
  induction keys as [|key keys IH]; intros array Hb Hj; cbn [fold_left]; [done|].
  destruct (IH (add_key (k_ p) bits array key) Hb Hj) as [-> ->]. unfold add_key. cbv zeta. split.
  - apply set_probes_behind; [done|apply BloomHash_nonneg|done].
  - generalize (BloomHash key) at 1. generalize (rotate17 (BloomHash key)). intros d h. revert h array.
    induction (Z.to_nat (k_ p)) as [|n IHn]; intros h a; cbn [set_probes]; [done|]. by rewrite IHn, length_set_bit.
Qed.

Lemma bloom_sizes keys : bloom_keys_ok p keys ->
  let n := u64 (u64 (Z.of_nat (List.length keys)) * bits_per_key_ p) in
  let bits := if n <? 64 then 64 else n in
  let bytes := u64 (bits + 7) / 8 in
  u64 (bytes * 8) = bytes * 8 /\ 8 <= bytes < 2 ^ 61.
Proof.
  unfold bloom_keys_ok, size. intros Hk. destruct Hp as [Hb _]. cbv zeta.
  assert (E : u64 (u64 (Z.of_nat (List.length keys)) * bits_per_key_ p) < 2 ^ 63).
  { unfold uwrap. rewrite Z.mul_mod_idemp_l by lia. eapply Z.le_lt_trans; [apply Z.mod_le; nia|lia]. }
  assert (0 <= u64 (u64 (Z.of_nat (List.length keys)) * bits_per_key_ p)) by (apply uwrap_range; lia).
  revert E H. generalize (u64 (u64 (Z.of_nat (List.length keys)) * bits_per_key_ p)). intros n E Hn.
  change (2 ^ 63) with 9223372036854775808 in E. change (2 ^ 61) with 2305843009213693952.
  destruct (Z.ltb_spec n 64); rewrite (uwrap_small 64 (_ + 7)) by (change (2 ^ 64) with 18446744073709551616; lia);
    rewrite uwrap_small by (change (2 ^ 64) with 18446744073709551616; zlia); zlia.
Qed.

Lemma bloom_CreateFilter_appends keys dst :
  bloom_CreateFilter p keys dst = dst ++ bloom_CreateFilter p keys [].
Proof.
  unfold bloom_CreateFilter. cbv zeta. cbn [List.length app firstn skipn].
  rewrite <- app_assoc, take_app_length, drop_app_length. done.
Qed.

Lemma bloom_KeyMayMatch_created keys key :
  bloom_keys_ok p keys -> key ∈ keys -> bloom_KeyMayMatch key (bloom_CreateFilter p keys []) = true.
Proof.
  intros Hk Hin. pose proof (bloom_sizes keys Hk) as Hs. cbv zeta in Hs.
  unfold bloom_CreateFilter. cbv zeta. cbn [List.length app firstn skipn].
  remember (u64 ((if _ <? 64 then 64 else _) + 7) / 8) as bytes. destruct Hs as [-> Hbytes].
  set (array0 := repeat 0 (Z.to_nat bytes) ++ [u8 (k_ p)]).
  assert (Hl0 : size array0 = bytes + 1) by (unfold array0, size; rewrite length_app, repeat_length; cbn; lia).
  destruct (add_keys_behind (bytes * 8) keys (Z.to_nat bytes) array0 ltac:(lia) ltac:(lia)) as [Hlast Hlen].
  pose proof (added_keys_found (bytes * 8) keys array0 key ltac:(lia) ltac:(lia) Hin) as Hfound. cbv zeta in Hfound.
  set (array := fold_left _ _ array0) in *.
  assert (Hl : size array = bytes + 1) by (unfold size in *; by rewrite Hlen).
  rewrite take_0, drop_0, app_nil_l. fold array. unfold bloom_KeyMayMatch. rewrite Hl. destruct (Z.ltb_spec (bytes + 1) 2); [lia|].
  replace (bytes + 1 - 1) with bytes by lia. rewrite Hlast.
  assert (Hk8 : nth (Z.to_nat bytes) array0 0 = k_ p).
  { unfold array0. rewrite app_nth2; rewrite repeat_length; [|lia]. rewrite Nat.sub_diag. cbn [nth]. destruct Hp. by rewrite uwrap_small by lia. }
  destruct Hp as [_ Hkr]. rewrite Hk8, swrap_fits, (uwrap_small 64 (k_ p)), uwrap_small by lia.
  destruct (Z.ltb_spec 30 (k_ p)); [lia|]. exact Hfound.
Qed.
End Bloom.

(** The constructor makes such a policy. *)
Lemma new_BloomFilterPolicy_ok bits_per_key p :
  new_BloomFilterPolicy bits_per_key = Some p -> 0 <= bits_per_key < 2 ^ 31 -> bloom_ok p /\ bits_per_key_ p = bits_per_key.
Proof.
  unfold new_BloomFilterPolicy. destruct (size_t_of_double _) as [k|]; [|done]. cbn [mbind option_bind].
  intros [= <-] Hb. unfold bloom_ok. cbn [k_ bits_per_key_]. rewrite uwrap_small by lia.
  destruct (Z.ltb_spec k 1); [cbn; lia|]. destruct (Z.ltb_spec 30 k); lia.
Qed.

(** The Bloom filter keeps the promise of the interface. *)
#[export, program] Instance bloom_laws (p : BloomFilterPolicy) (Hp : bloom_ok p) : FilterPolicyLaws (bloom_policy p) :=
  {| filter_keys_ok := bloom_keys_ok p |}.
Next Obligation. intros p Hp keys dst. apply bloom_CreateFilter_appends. Qed.
Next Obligation. intros p Hp keys key. by apply bloom_KeyMayMatch_created. Qed.

(** ** Positions of the strings in their concatenation *)

Fixpoint positions (a : Z) (l : list (list Z)) : list Z :=
  match l with
  | [] => []
  | x :: l' => a :: positions (a + size x) l'
  end.

Lemma positions_app l1 : forall a l2, positions a (l1 ++ l2) = positions a l1 ++ positions (a + size (concat l1)) l2.
Proof.
  induction l1 as [|x l1 IH]; intros a l2; cbn [app positions concat]; [by rewrite size_nil, Z.add_0_r|].
  rewrite IH, size_app. by rewrite Z.add_assoc.
Qed.

Lemma size_positions l : forall a, size (positions a l) = size l.
Proof. induction l as [|x l IH]; intros a; cbn [positions]; [done|]. by rewrite !size_cons, IH. Qed.

Lemma positions_range l : forall a v, 0 <= a -> v ∈ positions a l -> a <= v <= a + size (concat l).
Proof.
  induction l as [|x l IH]; intros a v Ha; cbn [positions concat]; [by rewrite elem_of_nil|].
  pose proof (size_nonneg x). pose proof (size_nonneg (concat l)).
  rewrite elem_of_cons, size_app. intros [->|Hv]; [lia|]. apply IH in Hv; lia.
Qed.

(** The strings are found between their positions. *)
Lemma flattened_keys_of l : forall before,
  size (before ++ concat l) < 2 ^ 64 ->
  flattened_keys (before ++ concat l) (positions (size before) l ++ [size (before ++ concat l)]) = l.
Proof.
  induction l as [|x l IH]; intros before Hs; cbn [positions concat app flattened_keys]; [done|].
  cbn [concat] in Hs. rewrite !app_assoc in *. pose proof (size_nonneg before). pose proof (size_nonneg x). pose proof (size_nonneg (concat l)).
  specialize (IH (before ++ x) Hs). rewrite <- (size_app before x) in *.
  destruct (positions (size (before ++ x)) l ++ [size ((before ++ x) ++ concat l)]) as [|b start] eqn:E.
  { by destruct (positions _ l). }
  assert (Hb : b = size (before ++ x)).
  { destruct l as [|y l]; cbn [positions app concat] in E; injection E as <- _; [by rewrite app_nil_r|done]. }
  cbn [flattened_keys]. f_equal; [|exact IH].
  subst b. rewrite !size_app in *. rewrite uwrap_small by lia.
  rewrite <- app_assoc, drop_size_app. replace (size before + size x - size before) with (size x) by lia. apply take_size_app.
Qed.

(** The [i]-th boundary. *)
Lemma position_at l : forall i a, (i <= List.length l)%nat ->
  (positions a l ++ [a + size (concat l)]) !! i = Some (a + size (concat (take i l))).
Proof.
  induction l as [|x l IH]; intros i a Hi; cbn [positions concat app].
  - destruct i; [done|cbn in Hi; lia].
  - destruct i as [|i]; [cbn; by rewrite size_nil, Z.add_0_r|]. cbn in Hi.
    change ((a :: ?r) !! S i) with (r !! i). cbn [take concat]. rewrite !size_app, Z.add_assoc, IH by lia. by rewrite Z.add_assoc.
Qed.

(** ** The builder *)

Section Block.
Context {P : FilterPolicy} {L : FilterPolicyLaws P}.

(** The filter of a set of keys; there is none of the empty set. *)
Definition filter_of (keys : list Slice) : list Z :=
  match keys with [] => [] | _ => CreateFilter keys [] end.

Definition filters (sets : list (list Slice)) : list Z := concat (map filter_of sets).

(** The builder has made the filters of [sets] and holds the keys [pend]. *)
Record represents (b : FilterBlockBuilder) (sets : list (list Slice)) (pend : list Slice) : Prop := {
  rep_keys : fb_keys b = concat pend;
  rep_start : fb_start b = positions 0 pend;
  rep_result : fb_result b = filters sets;
  rep_offsets : fb_offsets b = map u32 (positions 0 (map filter_of sets))
}.

Lemma represents_new : represents new_FilterBlockBuilder [] [].
Proof. by split. Qed.

Lemma filters_app s1 s2 : filters (s1 ++ s2) = filters s1 ++ filters s2.
Proof. unfold filters. by rewrite map_app, concat_app. Qed.

Lemma represents_Generate b sets pend :
  size (concat pend) < 2 ^ 64 -> represents b sets pend -> represents (GenerateFilter b) (sets ++ [pend]) [].
Proof.
  intros Hsz [Hk Hs Hr Ho]. unfold GenerateFilter.
  assert (Hoff : fb_offsets b ++ [u32 (size (fb_result b))] = map u32 (positions 0 (map filter_of (sets ++ [pend])))).
  { rewrite Ho, Hr, map_app, positions_app, map_app. done. }
  assert (Hres : fb_result b ++ filter_of pend = filters (sets ++ [pend])).
  { rewrite Hr, filters_app. unfold filters. cbn. by rewrite app_nil_r. }
  rewrite Hs, size_positions. destruct pend as [|k pend].
  - cbn [size List.length Z.of_nat Z.eqb]. split; cbn; [by rewrite ?Hk|by rewrite ?Hs|by rewrite <- Hres, app_nil_r|exact Hoff].
  - destruct (Z.eqb_spec (size (k :: pend)) 0) as [E|_]; [by apply size_0 in E|]. cbv zeta.
    split; cbn [fb_keys fb_start fb_result fb_offsets]; [done..| |exact Hoff].
    rewrite CreateFilter_appends, <- Hres. f_equal. unfold filter_of. f_equal.
    rewrite Hk. exact (flattened_keys_of (k :: pend) [] Hsz).
Qed.

Lemma represents_AddKey b sets pend key : represents b sets pend -> represents (AddKey key b) sets (pend ++ [key]).
Proof.
  intros [Hk Hs Hr Ho]. split; cbn; [|rewrite Hs, Hk, positions_app; done|done|done].
  rewrite Hk, concat_app. cbn. by rewrite app_nil_r.
Qed.

Lemma represents_AddKeys keys : forall b sets pend,
  represents b sets pend -> represents (fold_left (fun b key => AddKey key b) keys b) sets (pend ++ keys).
Proof.
  induction keys as [|k keys IH]; intros b sets pend Hb; cbn [fold_left]; [by rewrite app_nil_r|].
  apply (represents_AddKey _ _ _ k), IH in Hb. by rewrite <- app_assoc in Hb.
Qed.

Lemma represents_offsets b sets pend : represents b sets pend -> size (fb_offsets b) = size sets.
Proof. intros [_ _ _ ->]. unfold size. rewrite length_map. change (size (positions 0 (map filter_of sets)) = size sets). rewrite size_positions. unfold size. by rewrite length_map. Qed.

(** ** A run: the blocks of a table with their keys, in order *)

Definition build (blocks : list (Z * list Slice)) : FilterBlockBuilder :=
  fold_left (fun b '(off, keys) => fold_left (fun b key => AddKey key b) keys (StartBlock off b)) blocks new_FilterBlockBuilder.

(** The keys of the blocks that start in the [i]-th 2 KB. *)
Definition keys_of (i : Z) (blocks : list (Z * list Slice)) : list Slice :=
  flat_map (fun '(off, keys) => if off / kFilterBase =? i then keys else []) blocks.

(** The offsets do not decrease. *)
Fixpoint in_order (from : Z) (blocks : list (Z * list Slice)) : Prop :=
  match blocks with
  | [] => True
  | (off, _) :: blocks' => from <= off /\ in_order off blocks'
  end.

Definition sets_upto (m : nat) (blocks : list (Z * list Slice)) : list (list Slice) :=
  map (fun i => keys_of (Z.of_nat i) blocks) (seq 0 m).

Lemma keys_of_app i l1 l2 : keys_of i (l1 ++ l2) = keys_of i l1 ++ keys_of i l2.
Proof. apply flat_map_app. Qed.

Lemma keys_of_later i blocks : (forall off keys, (off, keys) ∈ blocks -> off / kFilterBase < i) -> keys_of i blocks = [].
Proof.
  intros Hall. unfold keys_of. induction blocks as [|[off keys] blocks IH]; [done|]. cbn [flat_map].
  destruct (Z.eqb_spec (off / kFilterBase) i) as [E|_]; [|apply IH; intros; eapply Hall; by right].
  specialize (Hall off keys ltac:(by left)). lia.
Qed.

(** Empty filters are made for what has no block. *)
Lemma represents_iter b blocks m j :
  (forall i, size (concat (keys_of i blocks)) < 2 ^ 64) ->
  (forall off keys, (off, keys) ∈ blocks -> off / kFilterBase <= Z.of_nat m) ->
  represents b (sets_upto m blocks) (keys_of (Z.of_nat m) blocks) ->
  represents (Nat.iter j GenerateFilter b) (sets_upto (m + j) blocks) (keys_of (Z.of_nat (m + j)) blocks).
Proof.
  intros Hsz Hm Hb. induction j as [|j IH]; [by rewrite Nat.add_0_r|]. cbn [Nat.iter nat_rect].
  apply represents_Generate in IH; [|apply Hsz].
  rewrite (keys_of_later (Z.of_nat (m + S j))) by (intros off keys Hin; specialize (Hm off keys Hin); lia).
  rewrite Nat.add_succ_r. unfold sets_upto in *. rewrite seq_S, map_app. exact IH.
Qed.

Lemma represents_build blocks : forall from,
  0 <= from -> in_order from blocks ->
  (forall i, size (concat (keys_of i blocks)) < 2 ^ 64) ->
  exists m, represents (build blocks) (sets_upto m blocks) (keys_of (Z.of_nat m) blocks) /\
    (forall off keys, (off, keys) ∈ blocks -> 0 <= off / kFilterBase <= Z.of_nat m) /\
    forall off, (forall off' keys, (off', keys) ∈ blocks -> off' <= off) -> from <= off -> Z.of_nat m <= off / kFilterBase.
Proof.
  induction blocks as [|[off keys] blocks IH] using rev_ind; intros from Hfrom Hord Hsz.
  - exists 0%nat. split; [apply represents_new|]. split; [by intros ? ? ?%elem_of_nil|].
    intros off _ Hoff. apply Z.div_pos; [lia|done].
  - assert (Hsplit : in_order from blocks /\ (forall off' keys', (off', keys') ∈ blocks -> from <= off' <= off) /\ from <= off).
    { clear -Hord. revert from Hord. induction blocks as [|[o ks] blocks IHb]; intros from; cbn [app in_order].
      - intros [Ho _]. split; [done|]. split; [by intros ? ? ?%elem_of_nil|done].
      - intros [Ho Hrest]. destruct (IHb o Hrest) as (H1 & H2 & H3). split; [done|]. split; [|lia].
        intros off' keys'. rewrite elem_of_cons. intros [[= -> ->]|Hin]; [lia|]. specialize (H2 _ _ Hin). lia. }
    destruct Hsplit as (Hord' & Hle & Hoff).
    assert (Hsz' : forall i, size (concat (keys_of i blocks)) < 2 ^ 64).
    { intros i. specialize (Hsz i). rewrite keys_of_app, concat_app, size_app in Hsz. pose proof (size_nonneg (concat (keys_of i [(off, keys)]))). lia. }
    destruct (IH from Hfrom Hord' Hsz') as (m & Hb & Hm & Hlast).
    assert (Hidx : Z.of_nat m <= off / kFilterBase) by (apply Hlast; [intros; by apply (Hle off' keys0)|done]).
    exists (Z.to_nat (off / kFilterBase)). rewrite Z2Nat.id by lia.
    assert (Hrun : build (blocks ++ [(off, keys)]) = fold_left (fun b key => AddKey key b) keys (StartBlock off (build blocks))).
    { unfold build. by rewrite fold_left_app. }
    rewrite Hrun. split; [|split].
    + assert (Hsets : sets_upto (Z.to_nat (off / kFilterBase)) (blocks ++ [(off, keys)]) = sets_upto (Z.to_nat (off / kFilterBase)) blocks).
      { apply map_ext_in. intros i Hi%in_seq. rewrite keys_of_app. unfold keys_of at 2. cbn [flat_map].
        destruct (Z.eqb_spec (off / kFilterBase) (Z.of_nat i)); [lia|]. by rewrite !app_nil_r. }
      rewrite Hsets, keys_of_app. unfold keys_of at 2. cbn [flat_map]. rewrite Z.eqb_refl, app_nil_r.
      apply represents_AddKeys. unfold StartBlock. rewrite (represents_offsets _ _ _ Hb). cbv zeta.
      replace (size (sets_upto m blocks)) with (Z.of_nat m) by (unfold sets_upto, size; by rewrite length_map, length_seq).
      pose proof (represents_iter (build blocks) blocks m (Z.to_nat (off / kFilterBase - Z.of_nat m)) Hsz' ltac:(intros; apply (Hm off0 keys0); done) Hb) as Hit.
      replace (m + Z.to_nat (off / kFilterBase - Z.of_nat m))%nat with (Z.to_nat (off / kFilterBase)) in Hit by lia.
      by rewrite Z2Nat.id in Hit by lia.
    + intros off' keys'. rewrite elem_of_app, list_elem_of_singleton. intros [Hin|[= -> ->]].
      * specialize (Hle _ _ Hin). specialize (Hm _ _ Hin). split; [lia|]. apply Z.div_le_mono; [done|lia].
      * split; [apply Z.div_pos; [lia|done]|lia].
    + intros off' Hall _. apply Z.div_le_mono; [done|]. apply (Hall off keys). rewrite elem_of_app. right. by apply list_elem_of_singleton.
Qed.

(** ** The contents, read back *)

Definition contents_of (sets : list (list Slice)) : list Z :=
  filters sets ++
  fixed32_array (map u32 (positions 0 (map filter_of sets) ++ [0 + size (concat (map filter_of sets))])) ++ [kFilterBaseLg].

Lemma Finish_contents b sets pend :
  size (concat pend) < 2 ^ 64 -> represents b sets pend ->
  fb_Finish b = contents_of (match pend with [] => sets | _ => sets ++ [pend] end).
Proof.
  intros Hsz Hb. unfold fb_Finish.
  assert (Hdone : forall b sets, represents b sets [] ->
    PutFixed32 (fold_left PutFixed32 (fb_offsets b) (fb_result b)) (u32 (size (fb_result b))) ++ [kFilterBaseLg] = contents_of sets).
  { intros b' sets' [_ _ Hr Ho]. rewrite fold_PutFixed32, Ho, Hr. unfold contents_of, PutFixed32.
    rewrite map_app, fixed32_array_app, <- !app_assoc. reflexivity. }
  rewrite (rep_start _ _ _ Hb), size_positions. destruct pend as [|k pend].
  - cbn [size List.length Z.of_nat Z.eqb negb]. by apply Hdone.
  - destruct (Z.eqb_spec (size (k :: pend)) 0) as [E|_]; [by apply size_0 in E|]. cbn [negb].
    apply Hdone. by apply represents_Generate.
Qed.

Lemma u8_11 : u64 (s8 kFilterBaseLg) = 11.
Proof. reflexivity. Qed.

(** The reader on the contents: what it answers at an offset. *)
Lemma reader_answer sets key off : size (contents_of sets) < 2 ^ 32 -> 0 <= off ->
  reader_KeyMayMatch (new_FilterBlockReader (contents_of sets)) off key =
    Some (match sets !! Z.to_nat (off / kFilterBase) with Some set => KeyMayMatch key (filter_of set) | None => true end).
Proof.
  intros Hsz Hoff0. set (fs := map filter_of sets) in *. set (array := map u32 (positions 0 fs ++ [0 + size (concat fs)])).
  assert (Hc : contents_of sets = concat fs ++ fixed32_array array ++ [kFilterBaseLg]) by done.
  assert (Harr : size array = size sets + 1).
  { unfold array, size. rewrite length_map, length_app. pose proof (size_positions fs 0) as Hp. unfold size in Hp.
    assert (List.length fs = List.length sets) by apply length_map. cbn [List.length]. lia. }
  assert (Hn : size (contents_of sets) = size (concat fs) + 4 * size sets + 5).
  { rewrite Hc, !size_app, size_fixed32_array, Harr. change (size [kFilterBaseLg]) with 1. lia. }
  pose proof (size_nonneg (concat fs)). pose proof (size_nonneg sets).
  assert (Hat : forall j, (j <= List.length fs)%nat ->
    DecodeFixed32 (drop (Z.to_nat (size (concat fs) + 4 * Z.of_nat j)) (contents_of sets)) = Some (size (concat (take j fs)))).
  { intros j Hj. assert (Hsub : size (concat (take j fs)) <= size (concat fs)).
    { rewrite <- (take_drop j fs) at 2. rewrite concat_app, size_app. pose proof (size_nonneg (concat (drop j fs))). lia. }
    pose proof (size_nonneg (concat (take j fs))). rewrite Hc. apply fixed32_at; [|lia].
    unfold array. rewrite list_lookup_fmap. rewrite (position_at fs j 0 Hj). cbn [fmap option_fmap option_map].
    by rewrite uwrap_small by lia. }
  assert (Hlen : List.length fs = List.length sets) by apply length_map.
  unfold new_FilterBlockReader. rewrite Hn. destruct (Z.ltb_spec (size (concat fs) + 4 * size sets + 5) 5); [lia|].
  assert (Hlast : nth (Z.to_nat (size (concat fs) + 4 * size sets + 5 - 1)) (contents_of sets) 0 = kFilterBaseLg).
  { rewrite Hc, app_assoc. rewrite app_nth2; rewrite length_app.
    - replace (_ - _)%nat with 0%nat; [done|]. pose proof (size_fixed32_array array) as Hf. unfold size in *. lia.
    - pose proof (size_fixed32_array array) as Hf. unfold size in *. lia. }
  rewrite Hlast, u8_11.
  replace (size (concat fs) + 4 * size sets + 5 - 5) with (size (concat fs) + 4 * Z.of_nat (List.length fs)) by (unfold size in *; lia).
  rewrite Hat, firstn_all by done. destruct (Z.ltb_spec (size (concat fs) + 4 * Z.of_nat (List.length fs)) (size (concat fs))); [lia|].
  unfold reader_KeyMayMatch. cbn [fr_base_lg fr_num fr_data fr_offset]. destruct (Z.leb_spec 64 11); [lia|].
  rewrite Z.shiftr_div_pow2 by lia. change (2 ^ 11) with kFilterBase. assert (Hidx : 0 <= off / kFilterBase) by (apply Z.div_pos; [lia|done]).
  rewrite <- (Z2Nat.id (off / kFilterBase)) by done. rewrite Nat2Z.id. set (i := Z.to_nat (off / kFilterBase)).
  replace ((_ - size (concat fs)) / 4) with (Z.of_nat (List.length fs)) by zlia.
  destruct (Z.ltb_spec (Z.of_nat i) (Z.of_nat (List.length fs))) as [Hi|Hi].
  2:{ assert (Hnone : sets !! i = None) by (apply lookup_ge_None; lia). by rewrite Hnone. }
  destruct (lookup_lt_is_Some_2 sets i ltac:(lia)) as [set Hset]. rewrite Hset.
  replace (size (concat fs) + Z.of_nat i * 4) with (size (concat fs) + 4 * Z.of_nat i) by lia.
  replace (size (concat fs) + 4 * Z.of_nat i + 4) with (size (concat fs) + 4 * Z.of_nat (S i)) by lia.
  rewrite !Hat by lia. cbn [mbind option_bind].
  assert (Hfi : fs !! i = Some (filter_of set)) by (unfold fs; by rewrite list_lookup_fmap, Hset).
  assert (HS : concat (take (S i) fs) = concat (take i fs) ++ filter_of set).
  { rewrite (take_S_r _ _ _ Hfi), concat_app. cbn [concat]. by rewrite app_nil_r. }
  rewrite HS, size_app. pose proof (size_nonneg (filter_of set)). pose proof (size_nonneg (concat (take i fs))).
  assert (Hall : concat fs = concat (take i fs) ++ filter_of set ++ concat (drop (S i) fs)).
  { rewrite <- (take_drop (S i) fs) at 1. rewrite concat_app, HS. by rewrite <- app_assoc. }
  assert (Hle : size (concat (take i fs)) + size (filter_of set) <= size (concat fs)).
  { rewrite Hall, !size_app. pose proof (size_nonneg (concat (drop (S i) fs))). lia. }
  destruct (Z.leb_spec (size (concat (take i fs))) (size (concat (take i fs)) + size (filter_of set))); [|lia].
  destruct (Z.leb_spec (size (concat (take i fs)) + size (filter_of set)) (size (concat fs))); [|lia]. cbn [andb].
  f_equal. replace (size (concat (take i fs)) + size (filter_of set) - size (concat (take i fs))) with (size (filter_of set)) by lia.
  by rewrite Hc, Hall, <- !app_assoc, drop_size_app, take_size_app.
Qed.

(** The key sets of the run's blocks behind the filters. *)
Lemma built_contents blocks : in_order 0 blocks -> (forall i, size (concat (keys_of i blocks)) < 2 ^ 64) ->
  exists sets, fb_Finish (build blocks) = contents_of sets /\
    forall off keys key, (off, keys) ∈ blocks -> key ∈ keys -> 0 <= off /\ sets !! Z.to_nat (off / kFilterBase) = Some (keys_of (off / kFilterBase) blocks).
Proof.
  intros Hord Hsz. destruct (represents_build blocks 0 ltac:(lia) Hord Hsz) as (m & Hb & Hm & _). eexists. split; [exact (Finish_contents _ _ _ (Hsz _) Hb)|].
  intros off keys key Hin Hkey. destruct (Hm _ _ Hin) as [Hlo Hhi]. set (idx := off / kFilterBase) in *.
  assert (Hkeys : key ∈ keys_of idx blocks).
  { unfold keys_of. apply list_elem_of_In, in_flat_map. exists (off, keys). split; [by apply list_elem_of_In|].
    fold idx. rewrite Z.eqb_refl. by apply list_elem_of_In. }
  assert (Hup : forall n, (Z.to_nat idx < n)%nat -> sets_upto n blocks !! Z.to_nat idx = Some (keys_of idx blocks)).
  { intros n Hn. unfold sets_upto. rewrite list_lookup_fmap, lookup_seq_lt by done. cbn. by rewrite Z2Nat.id by lia. }
  split; [unfold idx in Hlo; assert (0 < kFilterBase) by done; zlia|]. destruct (decide (idx = Z.of_nat m)) as [E|Hne].
  - rewrite <- E. destruct (keys_of idx blocks) as [|k ks] eqn:Ek; [by apply elem_of_nil in Hkeys|].
    specialize (Hup (S m) ltac:(lia)). unfold sets_upto in Hup |- *. rewrite seq_S, map_app in Hup. cbn [map Nat.add] in Hup.
    rewrite <- E, Ek in Hup. exact Hup.
  - specialize (Hup m ltac:(lia)). destruct (keys_of (Z.of_nat m) blocks); [exact Hup|]. by apply lookup_app_l_Some.
Qed.

Lemma keys_of_block off keys key blocks : (off, keys) ∈ blocks -> key ∈ keys -> key ∈ keys_of (off / kFilterBase) blocks.
Proof.
  intros Hin Hkey. unfold keys_of. apply list_elem_of_In, in_flat_map. exists (off, keys). split; [by apply list_elem_of_In|].
  rewrite Z.eqb_refl. by apply list_elem_of_In.
Qed.

(** The reader never reads outside of the contents, and finds every key. *)
Lemma built_answers blocks off key : in_order 0 blocks -> (forall i, size (concat (keys_of i blocks)) < 2 ^ 64 /\ filter_keys_ok (keys_of i blocks)) ->
  size (fb_Finish (build blocks)) < 2 ^ 32 -> 0 <= off ->
  exists answer, reader_KeyMayMatch (new_FilterBlockReader (fb_Finish (build blocks))) off key = Some answer /\
    forall keys, (off, keys) ∈ blocks -> key ∈ keys -> answer = true.
Proof.
  intros Hord Hok Hsz Hoff. destruct (built_contents blocks Hord (fun i => proj1 (Hok i))) as (sets & E & Hsets). rewrite E in Hsz |- *.
  eexists. split; [by apply reader_answer|]. intros keys Hin Hkey. destruct (Hsets off keys key Hin Hkey) as [_ ->].
  pose proof (keys_of_block _ _ _ _ Hin Hkey) as Hk. unfold filter_of. destruct (keys_of (off / kFilterBase) blocks) as [|k ks] eqn:Ek; [by apply elem_of_nil in Hk|].
  apply KeyMayMatch_created; [|done]. rewrite <- Ek. apply Hok.
Qed.

(** C22: In a filter block built from the keys of a table's blocks, whose offsets do
    not decrease, every key of a block matches at the offset of its block, for
    every filter policy that never misses a key of its set. *)
Theorem filter_block_no_false_negative (blocks : list (Z * list Slice)) (off : Z) (keys : list Slice) (key : Slice) :
  in_order 0 blocks ->
  (forall i, size (concat (keys_of i blocks)) < 2 ^ 64 /\ filter_keys_ok (keys_of i blocks)) ->
  size (fb_Finish (build blocks)) < 2 ^ 32 ->
  (off, keys) ∈ blocks -> key ∈ keys ->
  reader_KeyMayMatch (new_FilterBlockReader (fb_Finish (build blocks))) off key = Some true.
Proof.
  intros Hord Hok Hsz Hin Hkey. destruct (built_contents blocks Hord (fun i => proj1 (Hok i))) as (sets & _ & Hsets).
  destruct (Hsets off keys key Hin Hkey) as [Hoff _]. destruct (built_answers blocks off key Hord Hok Hsz Hoff) as (answer & -> & Ha). by rewrite (Ha keys).
Qed.
End Block.

(** ** With a Bloom filter of ten bits a key *)

Definition bloom10 : BloomFilterPolicy := mk_bloom 10 6.

Lemma bloom10_is : new_BloomFilterPolicy 10 = Some bloom10.
Proof. vm_compute. reflexivity. Qed.

Lemma bloom10_ok : bloom_ok bloom10.
Proof. unfold bloom_ok. cbn. lia. Qed.

Definition sample_blocks : list (Z * list Slice) :=
  [(0, [literal "foo"; literal "bar"]); (2000, [literal "box"]); (9000, [literal "hello"; literal "box"])].

Lemma filter_block_no_false_negative_witness :
  let p := bloom_policy bloom10 in
  reader_KeyMayMatch (new_FilterBlockReader (fb_Finish (build sample_blocks))) 9000 (literal "hello") = Some true /\
  reader_KeyMayMatch (new_FilterBlockReader (fb_Finish (build sample_blocks))) 4096 (literal "foo") = Some false.
Proof.
  intros p. split; [|vm_compute; reflexivity].
  apply (filter_block_no_false_negative (P := p) (L := bloom_laws bloom10 bloom10_ok) sample_blocks 9000 [literal "hello"; literal "box"]);
    [vm_compute; intuition congruence| |vm_compute; reflexivity|unfold sample_blocks; rewrite !elem_of_cons; tauto|rewrite !elem_of_cons; tauto].
  intros i. assert (Hk : (List.length (keys_of i sample_blocks) <= 5)%nat /\ size (concat (keys_of i sample_blocks)) <= 17).
  { unfold keys_of, sample_blocks. cbn [flat_map]. repeat case_match; (split; [apply Nat.leb_le; reflexivity|apply Z.leb_le; reflexivity]). }
  split; [lia|]. change (bloom_keys_ok bloom10 (keys_of i sample_blocks)). unfold bloom_keys_ok, size. change (bits_per_key_ bloom10) with 10. lia.
Defined.
