(* ===== verification/LdbLog.v ===== *)
(** [db/log_format.h], [db/log_writer.cc], [db/log_reader.cc]: the log, a sequence
    of blocks of 32 KB in which records are split into checksummed fragments, with
    the file classes of [include/leveldb/env.h] that it uses. *)

From Stdlib Require Import ZArith Lia List String Bool.
From stdpp Require Import base list.
From S2P Require Import Prelude LdbBase LdbCoding LdbCrc32c.

(** ** Files *)

(** [leveldb::WritableFile] and [leveldb::SequentialFile], on a type of open files. *)
Class WritableFile (F : Type) := {
  file_Append : Slice -> F -> Status * F;
  file_Flush : F -> Status * F
}.

Class SequentialFile (F : Type) := {
  file_Read : Z -> F -> Status * Slice * F;
  file_Skip : Z -> F -> Status * F
}.

(** What [env.h] promises when there is no I/O error: [contents] is what was
    written. *)
Class WritableFileLaws {F} (W : WritableFile F) := {
  contents : F -> list Z;
  Append_contents data f : fst (file_Append data f) = OK /\ contents (snd (file_Append data f)) = contents f ++ data;
  Flush_contents f : fst (file_Flush f) = OK /\ contents (snd (file_Flush f)) = contents f
}.

(** [remaining] is what is left to read; a read is short at the end of the file
    only. *)
Class SequentialFileLaws {F} (R : SequentialFile F) := {
  remaining : F -> list Z;
  Read_remaining n f : exists f', file_Read n f = (OK, take (Z.to_nat n) (remaining f), f') /\
    remaining f' = drop (Z.to_nat n) (remaining f);
  Skip_remaining n f : exists f', file_Skip n f = (OK, f') /\ remaining f' = drop (Z.to_nat n) (remaining f)
}.

(** ** Format *)

Inductive RecordType := kZeroType | kFullType | kFirstType | kMiddleType | kLastType.

Definition RecordType_value (t : RecordType) : Z :=
  match t with
  | kZeroType => 0 | kFullType => 1 | kFirstType => 2 | kMiddleType => 3 | kLastType => 4
  end.

Definition kMaxRecordType : Z := RecordType_value kLastType.
Definition kBlockSize : Z := 32768.
Definition kHeaderSize : Z := 4 + 2 + 1.

(** ** [log::Writer] *)

Record Writer (F : Type) := mk_writer {
  dest_ : F;
  block_offset_ : Z;
  type_crc_ : list Z
}.
Arguments mk_writer {F}.
Arguments dest_ {F}.
Arguments block_offset_ {F}.
Arguments type_crc_ {F}.

Definition InitTypeCrc : list Z := map (fun i => Value [u8 (Z.of_nat i)]) (seq 0 (Z.to_nat (kMaxRecordType + 1))).

Section Writer.
Context {F : Type} {W : WritableFile F}.

Definition new_Writer (dest : F) : Writer F := mk_writer dest 0 InitTypeCrc.
Definition new_Writer_at (dest : F) (dest_length : Z) : Writer F :=
  mk_writer dest (dest_length mod kBlockSize) InitTypeCrc.

Definition set_block_offset (v : Z) (w : Writer F) : Writer F := mk_writer (dest_ w) v (type_crc_ w).

Definition dest_Append (data : Slice) : M (Writer F) Status := fun w =>
  let '(s, f) := file_Append data (dest_ w) in (Ret s, mk_writer f (block_offset_ w) (type_crc_ w)).
Definition dest_Flush : M (Writer F) Status := fun w =>
  let '(s, f) := file_Flush (dest_ w) in (Ret s, mk_writer f (block_offset_ w) (type_crc_ w)).

Definition EmitPhysicalRecord (t : RecordType) (ptr : Slice) : M (Writer F) Status :=
  w <- get ;;
  let length := size ptr in
  let crc := Extend (nth (Z.to_nat (RecordType_value t)) (type_crc_ w) 0) ptr in
  let crc := Mask crc in
  let buf := EncodeFixed32 crc ++ [u8 (Z.land length 0xff); u8 (Z.shiftr length 8); u8 (RecordType_value t)] in
  s <- dest_Append buf ;;
  s <- (if ok s then
          s <- dest_Append ptr ;;
          if ok s then dest_Flush else ret s
        else ret s) ;;
  modify (fun w => set_block_offset (block_offset_ w + (kHeaderSize + length)) w) ;;
  ret s.

(** One fragment. The locals of the loop are the bytes at [ptr], of which there are
    [left], and [begin]. *)
Definition add_fragment (locals : Slice * bool) : M (Writer F) (Slice * bool + Status) :=
  let '(ptr, begin) := locals in
  let left := size ptr in
  w <- get ;;
  let leftover := kBlockSize - block_offset_ w in
  (if leftover <? kHeaderSize then
     (if 0 <? leftover then dest_Append (repeat 0 (Z.to_nat leftover)) ;; ret tt else ret tt) ;;
     modify (set_block_offset 0)
   else ret tt) ;;
  w <- get ;;
  let avail := kBlockSize - block_offset_ w - kHeaderSize in
  let fragment_length := if left <? avail then left else avail in
  let end_ := left =? fragment_length in
  let type :=
    if begin && end_ then kFullType
    else if begin then kFirstType
    else if end_ then kLastType
    else kMiddleType in
  s <- EmitPhysicalRecord type (take (Z.to_nat fragment_length) ptr) ;;
  let ptr := drop (Z.to_nat fragment_length) ptr in
  ret (if ok s && (0 <? left - fragment_length) then inl (ptr, false) else inr s).

Definition AddRecord (slice : Slice) : M (Writer F) Status := loop add_fragment (slice, true).
End Writer.

(** ** [log::Reader] *)

(** [reports] are the calls of [reporter_->Corruption], the latest first. *)
Record Reader (F : Type) := mk_reader {
  file_ : F;
  reporter_ : bool;
  checksum_ : bool;
  buffer_ : Slice;
  eof_ : bool;
  last_record_offset_ : Z;
  end_of_buffer_offset_ : Z;
  initial_offset_ : Z;
  resyncing_ : bool;
  reports : list (Z * Status)
}.
Arguments mk_reader {F}.
Arguments file_ {F}.
Arguments reporter_ {F}.
Arguments checksum_ {F}.
Arguments buffer_ {F}.
Arguments eof_ {F}.
Arguments last_record_offset_ {F}.
Arguments end_of_buffer_offset_ {F}.
Arguments initial_offset_ {F}.
Arguments resyncing_ {F}.
Arguments reports {F}.

Definition kEof : Z := kMaxRecordType + 1.
Definition kBadRecord : Z := kMaxRecordType + 2.

Section Reader.
Context {F : Type} {R : SequentialFile F}.

Definition new_Reader (file : F) (reporter checksum : bool) (initial_offset : Z) : Reader F :=
  mk_reader file reporter checksum [] false 0 0 initial_offset (0 <? initial_offset) [].

Definition set_file (v : F) (r : Reader F) := mk_reader v (reporter_ r) (checksum_ r) (buffer_ r) (eof_ r) (last_record_offset_ r) (end_of_buffer_offset_ r) (initial_offset_ r) (resyncing_ r) (reports r).
Definition set_buffer (v : Slice) (r : Reader F) := mk_reader (file_ r) (reporter_ r) (checksum_ r) v (eof_ r) (last_record_offset_ r) (end_of_buffer_offset_ r) (initial_offset_ r) (resyncing_ r) (reports r).
Definition set_eof (v : bool) (r : Reader F) := mk_reader (file_ r) (reporter_ r) (checksum_ r) (buffer_ r) v (last_record_offset_ r) (end_of_buffer_offset_ r) (initial_offset_ r) (resyncing_ r) (reports r).
Definition set_last_record_offset (v : Z) (r : Reader F) := mk_reader (file_ r) (reporter_ r) (checksum_ r) (buffer_ r) (eof_ r) v (end_of_buffer_offset_ r) (initial_offset_ r) (resyncing_ r) (reports r).
Definition set_end_of_buffer_offset (v : Z) (r : Reader F) := mk_reader (file_ r) (reporter_ r) (checksum_ r) (buffer_ r) (eof_ r) (last_record_offset_ r) v (initial_offset_ r) (resyncing_ r) (reports r).
Definition set_resyncing (v : bool) (r : Reader F) := mk_reader (file_ r) (reporter_ r) (checksum_ r) (buffer_ r) (eof_ r) (last_record_offset_ r) (end_of_buffer_offset_ r) (initial_offset_ r) v (reports r).
Definition add_report (v : Z * Status) (r : Reader F) := mk_reader (file_ r) (reporter_ r) (checksum_ r) (buffer_ r) (eof_ r) (last_record_offset_ r) (end_of_buffer_offset_ r) (initial_offset_ r) (resyncing_ r) (v :: reports r).

Definition ReportDrop (bytes : Z) (reason : Status) : M (Reader F) unit :=
  r <- get ;;
  if reporter_ r && (initial_offset_ r <=? u64 (end_of_buffer_offset_ r - size (buffer_ r) - bytes))
  then modify (add_report (bytes, reason))
  else ret tt.

Definition ReportCorruption (bytes : Z) (reason : string) : M (Reader F) unit :=
  ReportDrop bytes (Corruption (literal reason) []).

(** [file_->Read] and [file_->Skip]. *)
Definition read_file (n : Z) : M (Reader F) (Status * Slice) := fun r =>
  let '(s, data, f) := file_Read n (file_ r) in (Ret (s, data), set_file f r).
Definition skip_file (n : Z) : M (Reader F) Status := fun r =>
  let '(s, f) := file_Skip n (file_ r) in (Ret s, set_file f r).

Definition SkipToInitialBlock : M (Reader F) bool :=
  r <- get ;;
  let offset_in_block := initial_offset_ r mod kBlockSize in
  let block_start_location := initial_offset_ r - offset_in_block in
  let block_start_location :=
    if kBlockSize - 6 <? offset_in_block then u64 (block_start_location + kBlockSize) else block_start_location in
  modify (set_end_of_buffer_offset block_start_location) ;;
  if 0 <? block_start_location then
    skip_status <- skip_file block_start_location ;;
    if negb (ok skip_status) then
      ReportDrop block_start_location skip_status ;; ret false
    else ret true
  else ret true.

(** One round of the loop: [inl] is [continue]; the result is the type and
    [*result], which is [result] where the code does not set it. *)
Definition physical_step (result : Slice) (_ : unit) : M (Reader F) (unit + Z * Slice) :=
  r <- get ;;
  if size (buffer_ r) <? kHeaderSize then
    if negb (eof_ r) then
      modify (set_buffer []) ;;
      rd <- read_file kBlockSize ;;
      let '(status, data) := rd in
      modify (set_buffer data) ;;
      modify (fun r => set_end_of_buffer_offset (u64 (end_of_buffer_offset_ r + size (buffer_ r))) r) ;;
      if negb (ok status) then
        modify (set_buffer []) ;;
        ReportDrop kBlockSize status ;;
        modify (set_eof true) ;;
        ret (inr (kEof, result))
      else
        (if size data <? kBlockSize then modify (set_eof true) else ret tt) ;;
        ret (inl tt)
    else
      modify (set_buffer []) ;;
      ret (inr (kEof, result))
  else
    let header := buffer_ r in
    let a := nth 4 header 0 in
    let b := nth 5 header 0 in
    let type := u32 (s8 (nth 6 header 0)) in
    let length := Z.lor a (Z.shiftl b 8) in
    if size header <? kHeaderSize + length then
      let drop_size := size header in
      modify (set_buffer []) ;;
      if negb (eof_ r) then
        ReportCorruption drop_size "bad record length" ;;
        ret (inr (kBadRecord, result))
      else ret (inr (kEof, result))
    else if (type =? RecordType_value kZeroType) && (length =? 0) then
      modify (set_buffer []) ;;
      ret (inr (kBadRecord, result))
    else
      match DecodeFixed32 header with
      | None => stuck
      | Some stored =>
          let expected_crc := Unmask stored in
          let actual_crc := Value (take (Z.to_nat (1 + length)) (drop 6 header)) in
          if checksum_ r && negb (actual_crc =? expected_crc) then
            let drop_size := size header in
            modify (set_buffer []) ;;
            ReportCorruption drop_size "checksum mismatch" ;;
            ret (inr (kBadRecord, result))
          else
            modify (set_buffer (remove_prefix (kHeaderSize + length) header)) ;;
            r <- get ;;
            if u64 (end_of_buffer_offset_ r - size (buffer_ r) - kHeaderSize - length) <? initial_offset_ r
            then ret (inr (kBadRecord, []))
            else ret (inr (type, take (Z.to_nat length) (drop (Z.to_nat kHeaderSize) header)))
      end.

Definition ReadPhysicalRecord (result : Slice) : M (Reader F) (Z * Slice) := loop (physical_step result) tt.

(** The locals of [ReadRecord]. *)
Record read_locals := mk_locals {
  fragment : Slice;
  scratch : Slice;
  in_fragmented_record : bool;
  prospective_record_offset : Z
}.

(** One physical record; the result is [*record], or [None] for [false]. *)
Definition record_step (l : read_locals) : M (Reader F) (read_locals + option Slice) :=
  phys <- ReadPhysicalRecord (fragment l) ;;
  let '(record_type, frag) := phys in
  r <- get ;;
  let physical_record_offset := u64 (end_of_buffer_offset_ r - size (buffer_ r) - kHeaderSize - size frag) in
  let continue scratch in_frag offset := ret (inl (mk_locals frag scratch in_frag offset)) in
  let in_frag := in_fragmented_record l in
  let offset := prospective_record_offset l in
  let partial_record reason :=
    if in_frag && negb (size (scratch l) =? 0) then ReportCorruption (size (scratch l)) reason else ret tt in
  if resyncing_ r && (record_type =? RecordType_value kMiddleType) then continue (scratch l) in_frag offset
  else if resyncing_ r && (record_type =? RecordType_value kLastType) then
    modify (set_resyncing false) ;; continue (scratch l) in_frag offset
  else
    (if resyncing_ r then modify (set_resyncing false) else ret tt) ;;
    if record_type =? RecordType_value kFullType then
      partial_record "partial record without end(1)"%string ;;
      modify (set_last_record_offset physical_record_offset) ;;
      ret (inr (Some frag))
    else if record_type =? RecordType_value kFirstType then
      partial_record "partial record without end(2)"%string ;;
      continue frag true physical_record_offset
    else if record_type =? RecordType_value kMiddleType then
      if negb in_frag then
        ReportCorruption (size frag) "missing start of fragmented record(1)" ;;
        continue (scratch l) in_frag offset
      else continue (scratch l ++ frag) in_frag offset
    else if record_type =? RecordType_value kLastType then
      if negb in_frag then
        ReportCorruption (size frag) "missing start of fragmented record(2)" ;;
        continue (scratch l) in_frag offset
      else
        modify (set_last_record_offset offset) ;;
        ret (inr (Some (scratch l ++ frag)))
    else if record_type =? kEof then ret (inr None)
    else if record_type =? kBadRecord then
      if in_frag then
        ReportCorruption (size (scratch l)) "error in middle of record" ;;
        continue [] false offset
      else continue (scratch l) in_frag offset
    else
      ReportDrop (size frag + (if in_frag then size (scratch l) else 0))
        (Corruption (literal "unknown record type " ++ decimal record_type) []) ;;
      continue [] false offset.

Definition ReadRecord : M (Reader F) (option Slice) :=
  r <- get ;;
  found <- (if last_record_offset_ r <? initial_offset_ r then SkipToInitialBlock else ret true) ;;
  if negb found then ret None
  else loop record_step (mk_locals [] [] false 0).

Definition LastRecordOffset (r : Reader F) : Z := last_record_offset_ r.
End Reader.
