(* ===== verification/LdbIterator.v ===== *)
(** [include/leveldb/iterator.h], [table/iterator.cc], [table/iterator_wrapper.h]: the
    interface of iterators with its laws, the empty iterator and the wrapper that
    caches where an iterator stands. *)

From Stdlib Require Import ZArith Lia List String Bool.
From stdpp Require Import base list sorting.
From S2P Require Import Prelude LdbBase LdbKeys LdbKeyProps.

(** ** The interface *)

Class IteratorOps (I : Type) := {
  it_Valid : I -> bool;
  it_SeekToFirst : M I unit;
  it_SeekToLast : M I unit;
  it_Seek : Slice -> M I unit;
  it_Next : M I unit;
  it_Prev : M I unit;
  it_key : M I Slice;
  it_value : M I Slice;
  it_status : I -> Status
}.

(** ** Sorted lists by index *)

Lemma StronglySorted_lookup {A} (R : A -> A -> Prop) l :
  (forall i j x y, (i < j)%nat -> l !! i = Some x -> l !! j = Some y -> R x y) -> StronglySorted R l.
Proof.
  induction l as [|a l IH]; intros Hl; [constructor|]. constructor.
  - apply IH. intros i j x y Hij. apply (Hl (S i) (S j)). lia.
  - apply Forall_lookup_2. intros i x Hi. by apply (Hl 0%nat (S i)); [lia|..].
Qed.

Lemma StronglySorted_at {A} (R : A -> A -> Prop) l i j x y :
  StronglySorted R l -> (i < j)%nat -> l !! i = Some x -> l !! j = Some y -> R x y.
Proof.
  intros Hs Hij Hx Hy. rewrite <- (take_drop_middle _ _ _ Hx) in Hs, Hy. apply StronglySorted_app in Hs as (_ & _ & Hs).
  apply StronglySorted_inv in Hs as [_ Hs]. rewrite Forall_lookup in Hs. pose proof (lookup_lt_Some _ _ _ Hx).
  rewrite lookup_app_r in Hy by (rewrite length_take; lia). rewrite length_take_le in Hy by lia.
  destruct (j - i)%nat as [|k] eqn:E; [lia|]. by apply (Hs k).
Qed.

(** ** Positions in a list of entries *)

Abbreviation entry := (list Z * list Z)%type.

Section Positions.
Context {C : Comparator} {L : ComparatorLaws C}.

(** A source: its keys increase. *)
Definition source (l : list entry) : Prop :=
  Forall key_ok (map fst l) /\ StronglySorted (fun a b => order a b < 0) (map fst l).

(** The position of the first entry that is at or past [target]. *)
Definition seeks (target : Slice) (l : list entry) (p : option nat) : Prop :=
  match p with
  | Some i => (exists e, l !! i = Some e /\ 0 <= order (fst e) target) /\
      forall j e, (j < i)%nat -> l !! j = Some e -> order (fst e) target < 0
  | None => forall j e, l !! j = Some e -> order (fst e) target < 0
  end.

Definition first_pos (l : list entry) : option nat := if (0 <? List.length l)%nat then Some 0%nat else None.
Definition last_pos (l : list entry) : option nat := match List.length l with O => None | S n => Some n end.
Definition next_pos (l : list entry) (i : nat) : option nat := if (S i <? List.length l)%nat then Some (S i) else None.
Definition prev_pos (i : nat) : option nat := match i with O => None | S j => Some j end.

Lemma source_app a b : source (a ++ b) <-> source a /\ source b /\ forall x y, x ∈ a -> y ∈ b -> order (fst x) (fst y) < 0.
Proof.
  unfold source. rewrite map_app, Forall_app, StronglySorted_app. split.
  - intros ((Ha & Hb) & Hlt & Hsa & Hsb). split; [done|]. split; [done|]. intros x y Hx Hy. by apply Hlt; apply list_elem_of_fmap_2.
  - intros ((Ha & Hsa) & (Hb & Hsb) & Hlt). split; [done|]. split; [|done].
    intros x y (e & -> & He)%list_elem_of_fmap (e' & -> & He')%list_elem_of_fmap. by apply Hlt.
Qed.

Lemma source_elem l e : source l -> e ∈ l -> key_ok (fst e).
Proof. intros [Hok _] He. rewrite Forall_map, Forall_forall in Hok. by apply Hok. Qed.

Lemma source_last l x e : source l -> last l = Some x -> e ∈ l -> order (fst e) (fst x) <= 0.
Proof.
  intros Hl [l' ->]%last_Some He. pose proof (source_elem _ x Hl ltac:(apply elem_of_app; right; by apply list_elem_of_singleton)) as Hx.
  apply source_app in Hl as (_ & _ & Hlt). apply elem_of_app in He as [He|He%list_elem_of_singleton].
  - assert (order (fst e) (fst x) < 0) by (apply Hlt; [done|by apply list_elem_of_singleton]). lia.
  - subst e. rewrite order_refl by done. lia.
Qed.
End Positions.

(** What iterator.h promises of an iterator over [l]; [stands l it p] says that [it]
    is one and is positioned at the entry [p], or not valid. *)
Class IteratorLaws (I : Type) {ops : IteratorOps I} {C : Comparator} {L : ComparatorLaws C}
    (stands : list entry -> I -> option nat -> Prop) : Prop := {
  stands_bound l it i : stands l it (Some i) -> (i < List.length l)%nat;
  stands_Valid l it p : stands l it p -> it_Valid it = match p with Some _ => true | None => false end;
  stands_status l it p : stands l it p -> it_status it = OK;
  stands_key l it i e : stands l it (Some i) -> l !! i = Some e -> it_key it = (Ret (fst e), it);
  stands_value l it i e : stands l it (Some i) -> l !! i = Some e -> it_value it = (Ret (snd e), it);
  stands_First l it p : source l -> stands l it p -> exists it', it_SeekToFirst it = (Ret tt, it') /\ stands l it' (first_pos l);
  stands_Last l it p : source l -> stands l it p -> exists it', it_SeekToLast it = (Ret tt, it') /\ stands l it' (last_pos l);
  stands_Next l it i : source l -> stands l it (Some i) -> exists it', it_Next it = (Ret tt, it') /\ stands l it' (next_pos l i);
  stands_Prev l it i : source l -> stands l it (Some i) -> exists it', it_Prev it = (Ret tt, it') /\ stands l it' (prev_pos i);
  stands_Seek l it p target : source l -> stands l it p -> key_ok target ->
    exists it' p', it_Seek target it = (Ret tt, it') /\ stands l it' p' /\ seeks target l p'
}.

(** ** [EmptyIterator]: its status; the operations that assert are not used *)

Definition EmptyIter : Type := Status.
Definition NewEmptyIterator : EmptyIter := OK.
Definition NewErrorIterator (status : Status) : EmptyIter := status.

#[export] Instance EmptyIter_ops : IteratorOps EmptyIter := {|
  it_Valid _ := false;
  it_SeekToFirst := ret tt;
  it_SeekToLast := ret tt;
  it_Seek _ := ret tt;
  it_Next := stuck;
  it_Prev := stuck;
  it_key := stuck;
  it_value := stuck;
  it_status s := s
|}.

(** ** [IteratorWrapper] *)

Record IteratorWrapper (I : Type) := mk_wrapper { witer_ : option I; wvalid_ : bool; wkey_ : Slice }.
Arguments mk_wrapper {I}.
Arguments witer_ {I}.
Arguments wvalid_ {I}.
Arguments wkey_ {I}.

Section Wrapper.
Context {I : Type} {ops : IteratorOps I}.

Definition null_wrapper : IteratorWrapper I := mk_wrapper None false [].

(** A method of [iter_], which is not null. *)
Definition on_iter {A} (m : M I A) : M (IteratorWrapper I) A := fun w =>
  match witer_ w with
  | Some it => let '(r, it') := m it in (r, mk_wrapper (Some it') (wvalid_ w) (wkey_ w))
  | None => (Stuck, w)
  end.

Definition wrapper_Update : M (IteratorWrapper I) unit :=
  valid <- on_iter (gets it_Valid) ;;
  modify (fun w => mk_wrapper (witer_ w) valid (wkey_ w)) ;;
  if valid : bool then
    key <- on_iter it_key ;;
    modify (fun w => mk_wrapper (witer_ w) (wvalid_ w) key)
  else ret tt.

Definition wrapper_Set (iter : option I) : M (IteratorWrapper I) unit :=
  modify (fun w => mk_wrapper iter (wvalid_ w) (wkey_ w)) ;;
  match iter with
  | None => modify (fun w => mk_wrapper (witer_ w) false (wkey_ w))
  | Some _ => wrapper_Update
  end.

Definition wrapper_Valid (w : IteratorWrapper I) : bool := wvalid_ w.
Definition wrapper_key : M (IteratorWrapper I) Slice := gets wkey_.
Definition wrapper_value : M (IteratorWrapper I) Slice := on_iter it_value.
Definition wrapper_status (w : IteratorWrapper I) : option Status := it_status <$> witer_ w.
Definition wrapper_Next : M (IteratorWrapper I) unit := on_iter it_Next ;; wrapper_Update.
Definition wrapper_Prev : M (IteratorWrapper I) unit := on_iter it_Prev ;; wrapper_Update.
Definition wrapper_Seek (k : Slice) : M (IteratorWrapper I) unit := on_iter (it_Seek k) ;; wrapper_Update.
Definition wrapper_SeekToFirst : M (IteratorWrapper I) unit := on_iter it_SeekToFirst ;; wrapper_Update.
Definition wrapper_SeekToLast : M (IteratorWrapper I) unit := on_iter it_SeekToLast ;; wrapper_Update.
End Wrapper.

(** ** The wrapper shows where its iterator stands *)

Section WrapperLaws.
Context {I : Type} {ops : IteratorOps I} {C : Comparator} {L : ComparatorLaws C} {stands : list entry -> I -> option nat -> Prop}
  {laws : IteratorLaws I stands}.

Definition wraps (l : list entry) (w : IteratorWrapper I) (p : option nat) : Prop :=
  exists it, witer_ w = Some it /\ stands l it p /\
    wvalid_ w = match p with Some _ => true | None => false end /\
    forall i e, p = Some i -> l !! i = Some e -> wkey_ w = fst e.

Lemma wrapper_Update_ok l w it p : witer_ w = Some it -> stands l it p ->
  exists w', wrapper_Update w = (Ret tt, w') /\ wraps l w' p.
Proof.
  intros Hw Hs. unfold wrapper_Update. assert (Hv : on_iter (gets it_Valid) w = (Ret (it_Valid it), mk_wrapper (Some it) (wvalid_ w) (wkey_ w))) by (unfold on_iter; by rewrite Hw).
  erewrite bind_Ret by exact Hv. rewrite bind_modify. cbn [witer_ wkey_]. rewrite (stands_Valid l it p Hs). destruct p as [i|].
  - destruct (lookup_lt_is_Some_2 l i (stands_bound l it i Hs)) as [e He].
    assert (Hk : on_iter it_key (mk_wrapper (Some it) true (wkey_ w)) = (Ret (fst e), mk_wrapper (Some it) true (wkey_ w)))
      by (unfold on_iter; cbn [witer_]; by rewrite (stands_key l it i e Hs He)).
    erewrite bind_Ret by exact Hk. eexists. split; [reflexivity|]. exists it. split; [done|]. split; [done|]. split; [done|].
    intros j e' Hj He'. injection Hj as <-. rewrite He in He'. by injection He' as <-.
  - eexists. split; [reflexivity|]. exists it. by split.
Qed.

(** A method of the iterator, and then an update. *)
Lemma wrapper_method_ok l w it p (m : M I unit) it' p' : wraps l w p -> witer_ w = Some it -> m it = (Ret tt, it') -> stands l it' p' ->
  exists w', (on_iter m ;; wrapper_Update) w = (Ret tt, w') /\ wraps l w' p'.
Proof.
  intros _ Hi Hm Hs. assert (Ho : on_iter m w = (Ret tt, mk_wrapper (Some it') (wvalid_ w) (wkey_ w))) by (unfold on_iter; by rewrite Hi, Hm).
  erewrite bind_Ret by exact Ho. by apply (wrapper_Update_ok l _ it').
Qed.

Lemma wrapper_Set_ok l w it p : stands l it p -> exists w', wrapper_Set (Some it) w = (Ret tt, w') /\ wraps l w' p.
Proof. intros Hs. unfold wrapper_Set. rewrite bind_modify. by apply (wrapper_Update_ok l _ it). Qed.

Lemma wrapper_Next_ok l w i : source l -> wraps l w (Some i) -> exists w', wrapper_Next w = (Ret tt, w') /\ wraps l w' (next_pos l i).
Proof.
  intros Hl Hw. pose proof Hw as (it & Hi & Hs & _). destruct (stands_Next l it i Hl Hs) as (it' & E & Hs'). by apply (wrapper_method_ok l w it (Some i) it_Next it').
Qed.

Lemma wrapper_Prev_ok l w i : source l -> wraps l w (Some i) -> exists w', wrapper_Prev w = (Ret tt, w') /\ wraps l w' (prev_pos i).
Proof.
  intros Hl Hw. pose proof Hw as (it & Hi & Hs & _). destruct (stands_Prev l it i Hl Hs) as (it' & E & Hs'). by apply (wrapper_method_ok l w it (Some i) it_Prev it').
Qed.

Lemma wrapper_SeekToFirst_ok l w p : source l -> wraps l w p -> exists w', wrapper_SeekToFirst w = (Ret tt, w') /\ wraps l w' (first_pos l).
Proof.
  intros Hl Hw. pose proof Hw as (it & Hi & Hs & _). destruct (stands_First l it p Hl Hs) as (it' & E & Hs'). by apply (wrapper_method_ok l w it p it_SeekToFirst it').
Qed.

Lemma wrapper_SeekToLast_ok l w p : source l -> wraps l w p -> exists w', wrapper_SeekToLast w = (Ret tt, w') /\ wraps l w' (last_pos l).
Proof.
  intros Hl Hw. pose proof Hw as (it & Hi & Hs & _). destruct (stands_Last l it p Hl Hs) as (it' & E & Hs'). by apply (wrapper_method_ok l w it p it_SeekToLast it').
Qed.

Lemma wrapper_Seek_ok l w p target : source l -> wraps l w p -> key_ok target ->
  exists w' p', wrapper_Seek target w = (Ret tt, w') /\ wraps l w' p' /\ seeks target l p'.
Proof.
  intros Hl Hw Ht. pose proof Hw as (it & Hi & Hs & _). destruct (stands_Seek l it p target Hl Hs Ht) as (it' & p' & E & Hs' & Hsk).
  destruct (wrapper_method_ok l w it p (it_Seek target) it' p' Hw Hi E Hs') as (w' & Ew & Hw'). by exists w', p'.
Qed.

Lemma wraps_valid l w p : wraps l w p -> wrapper_Valid w = match p with Some _ => true | None => false end.
Proof. by intros (it & _ & _ & Hv & _). Qed.

Lemma wraps_bound l w i : wraps l w (Some i) -> (i < List.length l)%nat.
Proof. intros (it & _ & Hs & _). by eapply stands_bound. Qed.

Lemma wraps_key l w i e : wraps l w (Some i) -> l !! i = Some e -> wrapper_key w = (Ret (fst e), w).
Proof. intros (it & _ & _ & _ & Hk) He. unfold wrapper_key, gets. by rewrite (Hk i e). Qed.

Lemma wraps_value l w i e : wraps l w (Some i) -> l !! i = Some e -> wrapper_value w = (Ret (snd e), w).
Proof. intros (it & Hi & Hs & _) He. unfold wrapper_value, on_iter. rewrite Hi, (stands_value l it i e Hs He). destruct w; cbn in *. by rewrite Hi. Qed.

Lemma wraps_status l w p : wraps l w p -> wrapper_status w = Some OK.
Proof. intros (it & Hi & Hs & _). unfold wrapper_status. rewrite Hi. cbn. by rewrite (stands_status l it p Hs). Qed.
End WrapperLaws.

(** ** Walking over the entries *)

Section Scan.
Context {I : Type} {ops : IteratorOps I}.

(** The entries from where the iterator stands, in the order of [step]. *)
Fixpoint scan (step : M I unit) (n : nat) : M I (list entry) :=
  it <- get ;;
  if it_Valid it then
    match n with
    | O => stuck
    | S n' => k <- it_key ;; v <- it_value ;; step ;; r <- scan step n' ;; ret ((k, v) :: r)
    end
  else ret [].

Context {C : Comparator} {L : ComparatorLaws C} {stands : list entry -> I -> option nat -> Prop} {laws : IteratorLaws I stands}.

Lemma scan_end l step n it : stands l it None -> scan step n it = (Ret [], it).
Proof. intros Hs. destruct n; cbn [scan]; rewrite bind_get, (stands_Valid l it None Hs); done. Qed.

Lemma scan_cons l step n it i e it' r t : stands l it (Some i) -> l !! i = Some e -> step it = (Ret tt, it') ->
  scan step n it' = (Ret r, t) -> scan step (S n) it = (Ret (e :: r), t).
Proof.
  intros Hs He Hstep Hr. cbn [scan]. rewrite bind_get, (stands_Valid l it _ Hs).
  erewrite bind_Ret by exact (stands_key l it i e Hs He). erewrite bind_Ret by exact (stands_value l it i e Hs He).
  erewrite bind_Ret by exact Hstep. erewrite bind_Ret by exact Hr. by destruct e.
Qed.

Lemma walk_forward l n : source l -> forall it i, stands l it (Some i) -> (List.length l - i <= n)%nat ->
  exists t, scan it_Next n it = (Ret (drop i l), t).
Proof.
  intros Hl. induction n as [|n IH]; intros it i Hs Hn; pose proof (stands_bound l it i Hs); [lia|].
  destruct (lookup_lt_is_Some_2 l i ltac:(done)) as [e He]. rewrite (drop_S _ _ _ He).
  destruct (stands_Next l it i Hl Hs) as (it' & E & Hs'). unfold next_pos in Hs'. destruct (Nat.ltb_spec (S i) (List.length l)).
  - destruct (IH it' (S i) Hs' ltac:(lia)) as [t Ht]. exists t. by eapply scan_cons.
  - exists it'. rewrite (drop_ge l (S i)) by lia. eapply scan_cons; [done..|]. by eapply scan_end.
Qed.

Lemma walk_backward l n : source l -> forall it i, stands l it (Some i) -> (i < n)%nat ->
  exists t, scan it_Prev n it = (Ret (rev (take (S i) l)), t).
Proof.
  intros Hl. induction n as [|n IH]; intros it i Hs Hn; [lia|]. pose proof (stands_bound l it i Hs).
  destruct (lookup_lt_is_Some_2 l i ltac:(done)) as [e He]. rewrite (take_S_r _ _ _ He), rev_app_distr. cbn [rev app].
  destruct (stands_Prev l it i Hl Hs) as (it' & E & Hs'). destruct i as [|i]; cbn [prev_pos] in Hs'.
  - exists it'. eapply scan_cons; [done..|]. by eapply scan_end.
  - destruct (IH it' i Hs' ltac:(lia)) as [t Ht]. exists t. by eapply scan_cons.
Qed.

Lemma filter_none target (a : list entry) : (forall x, x ∈ a -> order (fst x) target < 0) -> filter (fun e => 0 <= order (fst e) target) a = [].
Proof.
  induction a as [|x a IH]; intros Ha; [done|]. rewrite filter_cons_False, IH; [done|intros y Hy; apply Ha, elem_of_cons; by right|].
  specialize (Ha x ltac:(apply elem_of_cons; by left)). lia.
Qed.

Lemma filter_kept target (a : list entry) : (forall x, x ∈ a -> 0 <= order (fst x) target) -> filter (fun e => 0 <= order (fst e) target) a = a.
Proof.
  induction a as [|x a IH]; intros Ha; [done|]. rewrite filter_cons_True, IH; [done|intros y Hy; apply Ha, elem_of_cons; by right|].
  apply Ha, elem_of_cons. by left.
Qed.

(** What a seek leaves. *)
Lemma seeks_filter target l p : source l -> key_ok target -> seeks target l p ->
  filter (fun e => 0 <= order (fst e) target) l = match p with Some i => drop i l | None => [] end.
Proof.
  intros Hl Ht Hp. destruct p as [i|].
  - destruct Hp as ((e & He & Hge) & Hlt). rewrite <- (take_drop i l) in Hl |- * at 1. rewrite filter_app, filter_none, app_nil_l.
    + apply filter_kept. intros x Hx. rewrite (drop_S _ _ _ He) in Hl, Hx. apply source_app in Hl as (_ & Hs & _).
      apply elem_of_cons in Hx as [->|Hx]; [done|]. change (e :: drop (S i) l) with ([e] ++ drop (S i) l) in Hs.
      pose proof Hs as ([Hok _] & [Hok' _] & Hes)%source_app. apply Forall_cons_1 in Hok as [Hok _]. rewrite Forall_map, Forall_forall in Hok'.
      apply (order_past target (fst e) (fst x)); [done|by apply Hok'|done|done|]. apply Hes; [by apply list_elem_of_singleton|done].
    + intros x Hx. apply list_elem_of_lookup_1 in Hx as [j Hj]. apply lookup_take_Some in Hj as [Hj Hji]. by eapply Hlt.
  - apply filter_none. intros x Hx. apply list_elem_of_lookup_1 in Hx as [j Hj]. by eapply Hp.
Qed.

(** What a client sees of the entries [l]: all of them in order, all of them in reverse,
    and from any key those that are not before it. *)
Definition walks (l : list entry) (it : I) : Prop := forall n, (List.length l <= n)%nat ->
  fst ((it_SeekToFirst ;; scan it_Next n) it) = Ret l /\
  fst ((it_SeekToLast ;; scan it_Prev n) it) = Ret (rev l) /\
  forall target, key_ok target -> fst ((it_Seek target ;; scan it_Next n) it) = Ret (filter (fun e => 0 <= order (fst e) target) l).

Lemma stands_walks l it p : source l -> stands l it p -> walks l it.
Proof.
  intros Hl Hs n Hn. split; [|split].
  - destruct (stands_First l it p Hl Hs) as (it' & E & Hs'). erewrite bind_Ret by exact E. unfold first_pos in Hs'.
    destruct (Nat.ltb_spec 0 (List.length l)).
    + destruct (walk_forward l n Hl it' 0 Hs' ltac:(lia)) as [t ->]. done.
    + rewrite (scan_end l _ n it' Hs'). by destruct l; [|cbn in *; lia].
  - destruct (stands_Last l it p Hl Hs) as (it' & E & Hs'). erewrite bind_Ret by exact E. unfold last_pos in Hs'.
    destruct (List.length l) as [|m] eqn:Em.
    + rewrite (scan_end l _ n it' Hs'). by destruct l.
    + destruct (walk_backward l n Hl it' m Hs' ltac:(lia)) as [t ->]. by rewrite take_ge by lia.
  - intros target Ht. destruct (stands_Seek l it p target Hl Hs Ht) as (it' & p' & E & Hs' & Hp). erewrite bind_Ret by exact E.
    rewrite (seeks_filter target l p' Hl Ht Hp). destruct p' as [i|].
    + destruct (walk_forward l n Hl it' i Hs' ltac:(lia)) as [t ->]. done.
    + by rewrite (scan_end l _ n it' Hs').
Qed.
End Scan.

(** ** The cursor: what the interface promises of any sequence of calls *)

Inductive it_call := CallFirst | CallLast | CallSeek (target : Slice) | CallNext | CallPrev.

Section Cursor.
Context {C : Comparator} {L : ComparatorLaws C}.

Definition call_ok (c : it_call) : Prop := match c with CallSeek target => key_ok target | _ => True end.

Definition seek_pos (target : Slice) (l : list entry) : option nat := fst <$> list_find (fun e => 0 <= order (fst e) target) l.

(** Where the cursor goes; [None] is a call that is not allowed. *)
Definition cursor_step (l : list entry) (p : option nat) (c : it_call) : option (option nat) :=
  match c, p with
  | CallFirst, _ => Some (first_pos l)
  | CallLast, _ => Some (last_pos l)
  | CallSeek target, _ => Some (seek_pos target l)
  | CallNext, Some i => Some (next_pos l i)
  | CallPrev, Some i => Some (prev_pos i)
  | _, None => None
  end.

(** The entry that the cursor shows after every call. *)
Fixpoint cursor_run (l : list entry) (p : option nat) (calls : list it_call) : option (list (option entry)) :=
  match calls with
  | [] => Some []
  | c :: calls' =>
      p' ← cursor_step l p c;
      shown ← cursor_run l p' calls';
      Some ((i ← p'; l !! i) :: shown)
  end.

Lemma seeks_pos target l p : seeks target l p -> p = seek_pos target l.
Proof.
  unfold seek_pos. intros Hp. destruct (list_find (fun e => 0 <= order (fst e) target) l) as [[j x]|] eqn:E.
  - apply list_find_Some in E as (Hj & Hge & Hbefore). destruct p as [i|].
    + destruct Hp as ((e & He & Hgi) & Hlt). cbn. f_equal. destruct (Nat.lt_trichotomy i j) as [Hij|[->|Hij]]; [|done|].
      * by destruct (Hbefore i e He Hij).
      * specialize (Hlt j x Hij Hj). lia.
    + specialize (Hp j x Hj). lia.
  - apply list_find_None in E. rewrite Forall_forall in E. destruct p as [i|]; [|done].
    destruct Hp as ((e & He & Hgi) & _). by destruct (E e (list_elem_of_lookup_2 _ _ _ He)).
Qed.
End Cursor.

Section Follows.
Context {I : Type} {ops : IteratorOps I}.

Definition do_call (c : it_call) : M I unit :=
  match c with
  | CallFirst => it_SeekToFirst
  | CallLast => it_SeekToLast
  | CallSeek target => it_Seek target
  | CallNext => it_Next
  | CallPrev => it_Prev
  end.

(** The entry at the iterator, if it is valid. *)
Definition shown : M I (option entry) :=
  it <- get ;;
  if it_Valid it then k <- it_key ;; v <- it_value ;; ret (Some (k, v)) else ret None.

Fixpoint run_calls (calls : list it_call) : M I (list (option entry)) :=
  match calls with
  | [] => ret []
  | c :: calls' => do_call c ;; e <- shown ;; r <- run_calls calls' ;; ret (e :: r)
  end.

Context {C : Comparator} {L : ComparatorLaws C} {stands : list entry -> I -> option nat -> Prop} {laws : IteratorLaws I stands}.

(** Every sequence of allowed calls, in any order and direction, shows what the cursor
    over [l] shows. *)
Definition follows (l : list entry) (it : I) : Prop := forall calls trace,
  Forall call_ok calls -> cursor_run l None calls = Some trace -> fst (run_calls calls it) = Ret trace.

Lemma shown_ok l it p : stands l it p -> shown it = (Ret (i ← p; l !! i), it).
Proof.
  intros Hs. unfold shown. rewrite bind_get, (stands_Valid l it p Hs). destruct p as [i|]; [|done].
  destruct (lookup_lt_is_Some_2 l i (stands_bound l it i Hs)) as [e He]. cbn [mbind option_bind]. rewrite He.
  erewrite bind_Ret by exact (stands_key l it i e Hs He). erewrite bind_Ret by exact (stands_value l it i e Hs He). by destruct e.
Qed.

Lemma do_call_ok l it p c p' : source l -> call_ok c -> stands l it p -> cursor_step l p c = Some p' ->
  exists it', do_call c it = (Ret tt, it') /\ stands l it' p'.
Proof.
  intros Hl Hc Hs Hp. destruct c as [| |target| |]; cbn [do_call].
  - injection Hp as <-. by apply (stands_First l it p).
  - injection Hp as <-. by apply (stands_Last l it p).
  - injection Hp as <-. destruct (stands_Seek l it p target Hl Hs Hc) as (it' & p' & E & Hs' & Hp'). exists it'. split; [done|]. by rewrite <- (seeks_pos target l p' Hp').
  - destruct p as [i|]; [|done]. injection Hp as <-. by apply (stands_Next l it i).
  - destruct p as [i|]; [|done]. injection Hp as <-. by apply (stands_Prev l it i).
Qed.

Lemma cursor_run_None l p calls trace : cursor_run l None calls = Some trace -> cursor_run l p calls = Some trace.
Proof. destruct calls as [|c calls]; [done|]. by destruct c. Qed.

Lemma stands_follows l it p : source l -> stands l it p -> follows l it.
Proof.
  intros Hl Hs calls trace Hok Ht. apply (cursor_run_None l p) in Ht. revert p it Hs trace Hok Ht.
  induction calls as [|c calls IH]; intros p it Hs trace Hok Ht; cbn [run_calls cursor_run] in *; [by injection Ht as <-|].
  apply Forall_cons_1 in Hok as [Hc Hok]. destruct (cursor_step l p c) as [p'|] eqn:Ep; [|done]. cbn [mbind option_bind] in Ht.
  destruct (cursor_run l p' calls) as [r|] eqn:Er; [|done]. cbn [mbind option_bind] in Ht. injection Ht as <-.
  destruct (do_call_ok l it p c p' Hl Hc Hs Ep) as (it' & E & Hs'). erewrite bind_Ret by exact E. erewrite bind_Ret by exact (shown_ok l it' p' Hs').
  specialize (IH p' it' Hs' r Hok Er). destruct (run_calls calls it') as [o it2] eqn:E2. cbn [fst] in IH. subst o. by erewrite bind_Ret by exact E2.
Qed.
End Follows.
