(* ===== verification/LdbTwoLevelProps.v ===== *)
(** A block's iterator as an [Iterator]: over a block that the builder built it keeps the
    interface's promises.

    [table/two_level_iterator.cc]: the iterator over blocks whose handles an index
    iterator gives.

    The two-level iterator keeps the interface's promises over the concatenation of the
    blocks, when the index iterator does over the handles and the block iterators do
    over their blocks. *)

From Stdlib Require Import ZArith Lia List String Bool.
From stdpp Require Import base list sorting.
From S2P Require Import Prelude Base128 LdbBase LdbText LdbCoding LdbKeys LdbKeyProps LdbBlock LdbBlockProps LdbBlockBuild LdbIterator.

Section Instance_.
Context {C : Comparator}.

(** A method of [Block::Iter]; the other iterators hold no entries. *)
Definition on_block {A} (others : M BlockIterator A) (m : list Z -> Z -> Z -> M BlockIter A) : M BlockIterator A := fun bi =>
  match bi with
  | IterOf data restarts num it => let '(r, it') := m data restarts num it in (r, IterOf data restarts num it')
  | ErrorIterator _ | EmptyIterator => others bi
  end.

#[export] Instance BlockIterator_ops : IteratorOps BlockIterator := {|
  it_Valid bi := match bi with IterOf _ restarts _ it => Valid restarts it | _ => false end;
  it_SeekToFirst := on_block (ret tt) block_SeekToFirst;
  it_SeekToLast := on_block (ret tt) block_SeekToLast;
  it_Seek target := on_block (ret tt) (fun data restarts num => block_Seek data restarts num target);
  it_Next := on_block stuck block_Next;
  it_Prev := on_block stuck block_Prev;
  it_key := on_block stuck (fun _ _ _ => block_key);
  it_value := on_block stuck (fun data _ _ => block_value data);
  it_status bi := match bi with ErrorIterator s => s | EmptyIterator => OK | IterOf _ _ _ it => iter_status it end
|}.

(** An iterator on a block with the entries [l]. *)
Definition block_stands (l : list entry) (bi : BlockIterator) (p : option nat) : Prop :=
  exists data items rs it, bi = IterOf data (size (entries_bytes items)) (size rs) it /\ layout data items rs /\
    map snd items = l /\ bstatus_ it = OK /\
    match p with
    | Some i => exists k v, at_item items rs OK it i k v
    | None => at_end items OK it
    end.

Lemma block_stands_moved l data items rs (m : list Z -> Z -> Z -> M BlockIter unit) others it it' p :
  layout data items rs -> map snd items = l -> m data (size (entries_bytes items)) (size rs) it = (Ret tt, it') ->
  match p with Some i => exists k v, at_item items rs OK it' i k v | None => at_end items OK it' end ->
  exists bi', on_block others m (IterOf data (size (entries_bytes items)) (size rs) it) = (Ret tt, bi') /\ block_stands l bi' p.
Proof.
  intros Hlay Hl Hm Hp. unfold on_block. rewrite Hm. eexists. split; [reflexivity|]. exists data, items, rs, it'.
  split; [done|]. split; [done|]. split; [done|]. split; [|done].
  destruct p as [i|]; [destruct Hp as (k & v & _ & _ & _ & _ & _ & H); done|by destruct Hp].
Qed.

Lemma block_item_entry l items rs st it i k v e : map snd items = l -> at_item items rs st it i k v -> l !! i = Some e -> e = (k, v).
Proof. intros <- ([sh Hi] & _) He. rewrite list_lookup_fmap, Hi in He. by injection He as <-. Qed.

Context {L : ComparatorLaws C}.

#[export] Instance block_laws : IteratorLaws BlockIterator block_stands.
Proof.
  split.
  - intros l bi i (data & items & rs & it & -> & Hlay & <- & Hst & k & v & ([sh Hi] & _)). rewrite length_map. by eapply lookup_lt_Some.
  - intros l bi p (data & items & rs & it & -> & Hlay & <- & Hst & Hp). cbn. destruct p as [i|].
    + destruct Hp as (k & v & Hp). by apply (at_item_valid data items rs Hlay OK it i k v).
    + unfold Valid. rewrite (proj1 Hp). apply Z.ltb_irrefl.
  - intros l bi p (data & items & rs & it & -> & Hlay & <- & Hst & Hp). done.
  - intros l bi i e (data & items & rs & it & -> & Hlay & Hl & Hst & k & v & Hp) He.
    rewrite (block_item_entry l items rs OK it i k v e Hl Hp He). destruct Hp as (_ & _ & <- & _). done.
  - intros l bi i e (data & items & rs & it & -> & Hlay & Hl & Hst & k & v & Hp) He.
    rewrite (block_item_entry l items rs OK it i k v e Hl Hp He). unfold it_value, BlockIterator_ops, on_block. by rewrite (at_item_value data items rs Hlay OK it i k v Hp).
  - intros l bi p _ (data & items & rs & it & -> & Hlay & Hl & Hst & Hp).
    destruct (block_SeekToFirst_ok data items rs Hlay OK it Hst) as (it' & E & H). apply (block_stands_moved l data items rs _ _ _ it'); [done..|].
    unfold first_pos. rewrite <- Hl, length_map. destruct (items !! 0%nat) as [[sh [k v]]|] eqn:H0.
    + apply lookup_lt_Some in H0. destruct (Nat.ltb_spec 0 (List.length items)); [by exists k, v|lia].
    + apply lookup_ge_None in H0. destruct (Nat.ltb_spec 0 (List.length items)); [lia|done].
  - intros l bi p _ (data & items & rs & it & -> & Hlay & Hl & Hst & Hp).
    destruct (block_SeekToLast_ok data items rs Hlay OK it Hst) as (it' & E & H). apply (block_stands_moved l data items rs _ _ _ it'); [done..|].
    unfold last_pos. rewrite <- Hl, length_map. destruct H as [[-> H]|(Hpos & H)]; [done|].
    destruct (List.length items) as [|n]; [lia|]. by replace (S n - 1)%nat with n in H by lia.
  - intros l bi i _ (data & items & rs & it & -> & Hlay & Hl & Hst & k & v & Hp).
    destruct (block_Next_ok data items rs Hlay OK it i k v Hp) as (it' & E & H). apply (block_stands_moved l data items rs _ _ _ it'); [done..|].
    unfold next_pos. rewrite <- Hl, length_map. destruct (items !! S i) as [[sh [k' v']]|] eqn:H0.
    + apply lookup_lt_Some in H0. destruct (Nat.ltb_spec (S i) (List.length items)); [by exists k', v'|lia].
    + apply lookup_ge_None in H0. destruct (Nat.ltb_spec (S i) (List.length items)); [lia|done].
  - intros l bi i _ (data & items & rs & it & -> & Hlay & Hl & Hst & k & v & Hp).
    destruct (block_Prev_ok data items rs Hlay OK it i k v Hp) as (it' & E & H). apply (block_stands_moved l data items rs _ _ _ it'); [done..|].
    by destruct i.
  - intros l bi p target [Hok Hsorted] (data & items & rs & it & -> & Hlay & Hl & Hst & Hp) Ht.
    assert (Hk : map fst l = map (fun e => fst (snd e)) items) by (rewrite <- Hl, map_map; done). rewrite Hk in Hok, Hsorted.
    destruct (block_Seek_ok data items rs Hlay OK Hok Hsorted target it Hst Ht) as (it' & i & E & Hbefore & H).
    set (p' := match items !! i with Some _ => Some i | None => None end).
    destruct (block_stands_moved l data items rs (fun data restarts num => block_Seek data restarts num target) (ret tt) it it' p' Hlay Hl E) as (bi' & E' & Hs).
    { unfold p'. destruct (items !! i) as [[sh [k v]]|]; [exists k, v; apply H|apply H]. }
    exists bi', p'. split; [done|]. split; [done|].
    assert (Hlt : forall j e, (j < i)%nat -> l !! j = Some e -> order (fst e) target < 0).
    { intros j e Hj He. apply (Hbefore j (fst e) Hj). unfold key_at_index. rewrite <- Hk, list_lookup_fmap, He. done. }
    unfold p', seeks. destruct (items !! i) as [[sh [k v]]|] eqn:Hi.
    + split; [|done]. exists (k, v). rewrite <- Hl, list_lookup_fmap, Hi. split; [done|apply H].
    + intros j e He. apply (Hlt j e); [|done]. apply lookup_lt_Some in He. rewrite <- Hl, length_map in He. apply lookup_ge_None in Hi. lia.
Qed.

(** The iterator of a block that the builder built, before a seek. *)
Lemma block_contents_stands interval kvs : 1 <= interval -> size (block_contents interval kvs) < 2 ^ 32 ->
  exists bi, (b ← new_Block (block_contents interval kvs); NewIterator b) = Some bi /\ block_stands kvs bi None.
Proof.
  intros Hint Hsz. destruct (block_contents_layout interval kvs Hint Hsz) as (l & rs & Hl & Hlay). eexists. split; [by apply NewIterator_of|].
  eexists _, _, _, _. split; [reflexivity|]. split; [done|]. by split.
Qed.
End Instance_.

(** ** [TwoLevelIterator] *)

Record TwoLevelIterator (I D : Type) := mk_two {
  tl_status_ : Status;
  index_iter_ : IteratorWrapper I;
  data_iter_ : IteratorWrapper D;
  data_block_handle_ : list Z
}.
Arguments mk_two {I D}.
Arguments tl_status_ {I D}.
Arguments index_iter_ {I D}.
Arguments data_iter_ {I D}.
Arguments data_block_handle_ {I D}.

Section TwoLevel.
Context {I D : Type} {iops : IteratorOps I} {dops : IteratorOps D}.

(** [block_function_] of [arg_] and [options_]: the iterator for a handle. *)
Context (block_function_ : Slice -> option D).

Definition on_index {A} (m : M (IteratorWrapper I) A) : M (TwoLevelIterator I D) A :=
  zoom index_iter_ (fun w t => mk_two (tl_status_ t) w (data_iter_ t) (data_block_handle_ t)) m.
Definition on_data {A} (m : M (IteratorWrapper D) A) : M (TwoLevelIterator I D) A :=
  zoom data_iter_ (fun w t => mk_two (tl_status_ t) (index_iter_ t) w (data_block_handle_ t)) m.

Definition NewTwoLevelIterator (index_iter : I) : option (TwoLevelIterator I D) :=
  match wrapper_Set (Some index_iter) null_wrapper with
  | (Ret tt, w) => Some (mk_two OK w null_wrapper [])
  | _ => None
  end.

Definition SaveError (s : Status) : M (TwoLevelIterator I D) unit :=
  modify (fun t => if ok (tl_status_ t) && negb (ok s) then mk_two s (index_iter_ t) (data_iter_ t) (data_block_handle_ t) else t).

(** [data_iter_.iter() != nullptr] *)
Definition has_data (t : TwoLevelIterator I D) : bool := match witer_ (data_iter_ t) with Some _ => true | None => false end.

Definition SetDataIterator (data_iter : option D) : M (TwoLevelIterator I D) unit :=
  t <- get ;;
  match wrapper_status (data_iter_ t) with Some s => SaveError s | None => ret tt end ;;
  on_data (wrapper_Set data_iter).

Definition InitDataBlock : M (TwoLevelIterator I D) unit :=
  t <- get ;;
  if negb (wrapper_Valid (index_iter_ t)) then SetDataIterator None
  else
    handle <- on_index wrapper_value ;;
    t <- get ;;
    if has_data t && (Slice_compare handle (data_block_handle_ t) =? 0) then ret tt
    else
      match block_function_ handle with
      | Some iter =>
          modify (fun t => mk_two (tl_status_ t) (index_iter_ t) (data_iter_ t) handle) ;;
          SetDataIterator (Some iter)
      | None => stuck
      end.

(** [if (data_iter_.iter() != nullptr) ...] *)
Definition if_data (m : M (IteratorWrapper D) unit) : M (TwoLevelIterator I D) unit :=
  t <- get ;; if has_data t then on_data m else ret tt.

(** A round of the loop, by [move] to the next block and [start] in it. *)
Definition skip_step (move : M (IteratorWrapper I) unit) (start : M (IteratorWrapper D) unit) (_ : unit) :
    M (TwoLevelIterator I D) (unit + unit) :=
  t <- get ;;
  if negb (has_data t) || negb (wrapper_Valid (data_iter_ t)) then
    if negb (wrapper_Valid (index_iter_ t)) then SetDataIterator None ;; ret (inr tt)
    else on_index move ;; InitDataBlock ;; if_data start ;; ret (inl tt)
  else ret (inr tt).

Definition SkipEmptyDataBlocksForward : M (TwoLevelIterator I D) unit := loop (skip_step wrapper_Next wrapper_SeekToFirst) tt.
Definition SkipEmptyDataBlocksBackward : M (TwoLevelIterator I D) unit := loop (skip_step wrapper_Prev wrapper_SeekToLast) tt.

Definition two_level_Seek (target : Slice) : M (TwoLevelIterator I D) unit :=
  on_index (wrapper_Seek target) ;; InitDataBlock ;; if_data (wrapper_Seek target) ;; SkipEmptyDataBlocksForward.
Definition two_level_SeekToFirst : M (TwoLevelIterator I D) unit :=
  on_index wrapper_SeekToFirst ;; InitDataBlock ;; if_data wrapper_SeekToFirst ;; SkipEmptyDataBlocksForward.
Definition two_level_SeekToLast : M (TwoLevelIterator I D) unit :=
  on_index wrapper_SeekToLast ;; InitDataBlock ;; if_data wrapper_SeekToLast ;; SkipEmptyDataBlocksBackward.
Definition two_level_Next : M (TwoLevelIterator I D) unit := on_data wrapper_Next ;; SkipEmptyDataBlocksForward.
Definition two_level_Prev : M (TwoLevelIterator I D) unit := on_data wrapper_Prev ;; SkipEmptyDataBlocksBackward.

(** [index_iter_] is never null. *)
Definition two_level_status (t : TwoLevelIterator I D) : Status :=
  match wrapper_status (index_iter_ t) with
  | Some ((Some _) as s) => s
  | _ =>
      match wrapper_status (data_iter_ t) with
      | Some ((Some _) as s) => s
      | _ => tl_status_ t
      end
  end.

Definition two_level_ops : IteratorOps (TwoLevelIterator I D) := {|
  it_Valid t := wrapper_Valid (data_iter_ t);
  it_SeekToFirst := two_level_SeekToFirst;
  it_SeekToLast := two_level_SeekToLast;
  it_Seek := two_level_Seek;
  it_Next := two_level_Next;
  it_Prev := two_level_Prev;
  it_key := on_data wrapper_key;
  it_value := on_data wrapper_value;
  it_status := two_level_status
|}.
End TwoLevel.

(** ** Concatenations *)

Section Flat.
Context {A : Type} (blocks : list (list A)).

Definition flat_offset (i : nat) : nat := List.length (concat (take i blocks)).

Lemma flat_offset_S i b : blocks !! i = Some b -> flat_offset (S i) = (flat_offset i + List.length b)%nat.
Proof. intros Hb. unfold flat_offset. rewrite (take_S_r _ _ _ Hb), concat_app, length_app. cbn. by rewrite app_nil_r. Qed.

Lemma flat_offset_end i : (List.length blocks <= i)%nat -> flat_offset i = List.length (concat blocks).
Proof. intros Hi. unfold flat_offset. by rewrite take_ge. Qed.

Lemma flat_lookup i b j : blocks !! i = Some b -> (j < List.length b)%nat -> concat blocks !! (flat_offset i + j)%nat = b !! j.
Proof.
  intros Hb Hj. rewrite <- (take_drop_middle _ _ _ Hb) at 1. rewrite concat_app. unfold flat_offset.
  rewrite lookup_app_r by lia. replace (_ + j - _)%nat with j by lia. cbn. by rewrite lookup_app_l.
Qed.

Lemma flat_offset_mono i j : (i <= j)%nat -> (flat_offset i <= flat_offset j)%nat.
Proof.
  intros Hij. unfold flat_offset. rewrite <- (take_drop i (take j blocks)), take_take, Nat.min_l by done.
  rewrite concat_app, length_app. lia.
Qed.

(** Every position is in a block. *)
Lemma flat_position n : (n < List.length (concat blocks))%nat ->
  exists i b j, blocks !! i = Some b /\ (j < List.length b)%nat /\ n = (flat_offset i + j)%nat.
Proof.
  unfold flat_offset. induction blocks as [|b bs IH] in n |- *; cbn; [lia|]. intros Hn. rewrite length_app in Hn.
  destruct (decide (n < List.length b)%nat) as [Hlt|Hge]; [by exists 0%nat, b, n|].
  destruct (IH (n - List.length b)%nat ltac:(lia)) as (i & b' & j & Hb & Hj & Hnj). exists (S i), b', j.
  split; [done|]. split; [done|]. cbn. rewrite length_app. lia.
Qed.
End Flat.

Lemma zoom_Ret {S T A} (g : S -> T) (p : T -> S -> S) (m : M T A) s a t : m (g s) = (Ret a, t) -> zoom g p m s = (Ret a, p t s).
Proof. intros Hm. unfold zoom. by rewrite Hm. Qed.

(** ** The state of the iterator *)

Section TwoLevel.
Context {I D : Type} {iops : IteratorOps I} {dops : IteratorOps D} {C : Comparator} {L : ComparatorLaws C}.
Context {istands : list entry -> I -> option nat -> Prop} {ilaws : IteratorLaws I istands}.
Context {dstands : list entry -> D -> option nat -> Prop} {dlaws : IteratorLaws D dstands}.
Context (block_function : Slice -> option D) (idx : list entry) (contents : Slice -> list entry).

Definition blocks : list (list entry) := map (fun e => contents (snd e)) idx.

(** The index: its handles lead to iterators over the blocks, and its keys are between
    the blocks. *)
Record two_level_index : Prop := {
  ti_source : source idx;
  ti_count : Z.of_nat (List.length idx) < 2 ^ 64;
  ti_block e : e ∈ idx -> source (contents (snd e)) /\ exists d p, block_function (snd e) = Some d /\ dstands (contents (snd e)) d p;
  ti_below e kv : e ∈ idx -> kv ∈ contents (snd e) -> order (fst kv) (fst e) <= 0;
  ti_above i j e e' kv : (i < j)%nat -> idx !! i = Some e -> idx !! j = Some e' -> kv ∈ contents (snd e') -> order (fst e) (fst kv) < 0
}.
Context (Hidx : two_level_index).

Let two := TwoLevelIterator I D.

(** The block the iterator is in and where in it, or null. *)
Definition in_block (t : two) (w : option (nat * option nat)) : Prop :=
  tl_status_ t = OK /\
  match w with
  | Some (i, q) => exists e, idx !! i = Some e /\ wraps (stands := istands) idx (index_iter_ t) (Some i) /\
      wraps (stands := dstands) (contents (snd e)) (data_iter_ t) q /\ data_block_handle_ t = snd e
  | None => wraps (stands := istands) idx (index_iter_ t) None /\ witer_ (data_iter_ t) = None /\ wvalid_ (data_iter_ t) = false
  end.

(** What is true between operations. *)
Definition data_ok (t : two) : Prop :=
  tl_status_ t = OK /\
  match witer_ (data_iter_ t) with
  | None => wvalid_ (data_iter_ t) = false
  | Some _ => exists e q, e ∈ idx /\ data_block_handle_ t = snd e /\ wraps (stands := dstands) (contents (snd e)) (data_iter_ t) q
  end.

Lemma in_block_data_ok t w : in_block t w -> data_ok t.
Proof.
  intros [Hs H]. split; [done|]. destruct w as [[i q]|].
  - destruct H as (e & He & _ & Hw & Hh). pose proof Hw as (d & -> & _). exists e, q. split; [by eapply list_elem_of_lookup_2|done].
  - by destruct H as (_ & -> & H).
Qed.

Lemma data_status_ok (t : two) : data_ok t -> wrapper_status (data_iter_ t) = None \/ wrapper_status (data_iter_ t) = Some OK.
Proof.
  intros [_ H]. destruct (witer_ (data_iter_ t)) as [d|] eqn:E.
  - right. destruct H as (e & q & _ & _ & Hw). by eapply wraps_status.
  - left. unfold wrapper_status. by rewrite E.
Qed.

Lemma SetDataIterator_wrapper (t : two) d w : tl_status_ t = OK ->
  wrapper_status (data_iter_ t) = None \/ wrapper_status (data_iter_ t) = Some OK -> wrapper_Set d (data_iter_ t) = (Ret tt, w) ->
  SetDataIterator d t = (Ret tt, mk_two OK (index_iter_ t) w (data_block_handle_ t)).
Proof.
  intros Hs Ht Hw. unfold SetDataIterator. rewrite bind_get.
  assert (E : (match wrapper_status (data_iter_ t) with Some s => SaveError s | None => ret tt end) t = (Ret tt, t)).
  { destruct Ht as [-> | ->]; [done|]. unfold SaveError, modify. by rewrite andb_false_r. }
  erewrite bind_Ret by exact E. unfold on_data. erewrite zoom_Ret by exact Hw. by rewrite Hs.
Qed.

(** [InitDataBlock] brings in the block that the index is at. *)
Lemma InitDataBlock_ok (t : two) q : data_ok t -> wraps (stands := istands) idx (index_iter_ t) q ->
  exists t' w, InitDataBlock block_function t = (Ret tt, t') /\ in_block t' w /\ option_map fst w = q.
Proof.
  intros Ht Hw. unfold InitDataBlock. rewrite bind_get, (wraps_valid _ _ _ Hw). destruct q as [i|]; cbn [negb].
  2:{ erewrite SetDataIterator_wrapper; [|apply Ht|by apply (data_status_ok t)|reflexivity]. eexists _, None. split; [reflexivity|]. by split. }
  destruct (lookup_lt_is_Some_2 idx i (wraps_bound _ _ _ Hw)) as [e He]. pose proof (list_elem_of_lookup_2 _ _ _ He) as Hin.
  unfold on_index. erewrite bind_Ret by (apply zoom_Ret; exact (wraps_value _ _ _ e Hw He)).
  rewrite bind_get. replace (mk_two (tl_status_ t) (index_iter_ t) (data_iter_ t) (data_block_handle_ t)) with t by (by destruct t).
  assert (Hload : exists t' w, (match block_function (snd e) with
      | Some iter => modify (fun t => mk_two (tl_status_ t) (index_iter_ t) (data_iter_ t) (snd e)) ;; SetDataIterator (Some iter)
      | None => stuck
      end) t = (Ret tt, t') /\ in_block t' w /\ option_map fst w = Some i).
  { destruct (ti_block Hidx e Hin) as (_ & d & p & -> & Hd). rewrite bind_modify.
    destruct (wrapper_Set_ok (stands := dstands) _ (data_iter_ t) d p Hd) as (w & Ew & Hww).
    erewrite SetDataIterator_wrapper; [|apply Ht|by apply (data_status_ok t)|exact Ew]. eexists _, (Some (i, p)). split; [reflexivity|].
    split; [|done]. split; [done|]. by exists e. }
  unfold has_data. destruct (witer_ (data_iter_ t)) as [d|] eqn:Ed; cbn [andb]; [|exact Hload].
  destruct (Z.eqb_spec (Slice_compare (snd e) (data_block_handle_ t)) 0) as [Heq|_]; [|exact Hload].
  rewrite Slice_compare_lex in Heq. apply lex_eq in Heq.
  pose proof Ht as [Hs Hdata]. rewrite Ed in Hdata. destruct Hdata as (e' & p & He' & Hh & Hww).
  exists t, (Some (i, p)). split; [done|]. split; [|done]. split; [done|]. exists e. split; [done|]. split; [done|].
  rewrite Heq, Hh. by split.
Qed.

(** A method of the block's iterator, where there is one. *)
Lemma if_data_ok (t : two) w (m : M (IteratorWrapper D) unit) (Q : list entry -> option nat -> Prop) :
  in_block t w ->
  (forall l d p, source l -> wraps (stands := dstands) l d p -> exists d' p', m d = (Ret tt, d') /\ wraps (stands := dstands) l d' p' /\ Q l p') ->
  exists t' w', if_data m t = (Ret tt, t') /\ in_block t' w' /\ option_map fst w' = option_map fst w /\
    match w' with Some (i, p') => forall e, idx !! i = Some e -> Q (contents (snd e)) p' | None => True end.
Proof.
  intros [Hs Ht] Hm. unfold if_data. rewrite bind_get. unfold has_data. destruct w as [[i p]|].
  - destruct Ht as (e & He & Hi & Hw & Hh). pose proof Hw as (d & -> & _).
    destruct (ti_block Hidx e (list_elem_of_lookup_2 _ _ _ He)) as [Hsrc _]. destruct (Hm _ _ p Hsrc Hw) as (d' & p' & Em & Hw' & HQ).
    eexists _, (Some (i, p')). split; [apply zoom_Ret; exact Em|]. split; [split; [done|by exists e]|]. split; [done|].
    intros e' He'. rewrite He in He'. by injection He' as <-.
  - destruct Ht as (Hi & Hn & Hv). rewrite Hn. eexists _, None. split; [reflexivity|]. split; [by split|by split].
Qed.

(** ** Skipping empty blocks *)

Lemma blocks_lookup i e : idx !! i = Some e -> blocks !! i = Some (contents (snd e)).
Proof. intros He. unfold blocks. by rewrite list_lookup_fmap, He. Qed.

(** The position in the concatenation that a forward skip leads to. *)
Definition forward_pos (w : option (nat * option nat)) : option nat :=
  match w with
  | None => None
  | Some (i, Some j) => Some (flat_offset blocks i + j)%nat
  | Some (i, None) => if (flat_offset blocks (S i) <? List.length (concat blocks))%nat then Some (flat_offset blocks (S i)) else None
  end.

Definition backward_pos (w : option (nat * option nat)) : option nat :=
  match w with
  | None => None
  | Some (i, Some j) => Some (flat_offset blocks i + j)%nat
  | Some (i, None) => match flat_offset blocks i with O => None | S n => Some n end
  end.

Definition two_stands (l : list entry) (t : two) (p : option nat) : Prop :=
  l = concat blocks /\ tl_status_ t = OK /\
  match p with
  | Some n => exists i j, n = (flat_offset blocks i + j)%nat /\ in_block t (Some (i, Some j))
  | None => (exists q, wraps (stands := istands) idx (index_iter_ t) q) /\ witer_ (data_iter_ t) = None /\ wvalid_ (data_iter_ t) = false
  end.

Lemma two_stands_ok l t p : two_stands l t p -> data_ok t /\ exists q, wraps (stands := istands) idx (index_iter_ t) q.
Proof.
  intros (_ & Hs & Hp). destruct p as [n|].
  - destruct Hp as (i & j & _ & Hb). split; [by eapply in_block_data_ok|]. destruct Hb as (_ & e & _ & Hw & _). by exists (Some i).
  - destruct Hp as (Hq & Hd & Hv). split; [|done]. split; [done|]. by rewrite Hd.
Qed.

(** A round with no entry and no more blocks. *)
Lemma skip_step_end (t : two) move start : in_block t None -> exists t', skip_step block_function move start tt t = (Ret (inr tt), t') /\ in_block t' None.
Proof.
  intros Ht. pose proof (in_block_data_ok t None Ht) as Hd. pose proof Ht as (Hs & Hi & Hn & Hv). unfold skip_step. rewrite bind_get. unfold has_data. rewrite Hn. cbn [negb orb].
  rewrite (wraps_valid _ _ _ Hi). cbn [negb].
  erewrite bind_Ret by (apply SetDataIterator_wrapper; [done|by apply (data_status_ok t)|reflexivity]). eexists. split; [reflexivity|]. by split.
Qed.

(** A round at an entry. *)
Lemma skip_step_entry (t : two) move start i j : in_block t (Some (i, Some j)) -> skip_step block_function move start tt t = (Ret (inr tt), t).
Proof.
  intros (Hs & e & He & Hi & Hw & Hh). unfold skip_step. rewrite bind_get. unfold has_data. pose proof Hw as (d & -> & _).
  rewrite (wraps_valid _ _ _ Hw). done.
Qed.

(** A round at the end of a block. *)
Lemma skip_step_move (t : two) move start (after : nat -> option nat) (begin : list entry -> option nat) i :
  (forall w i, wraps (stands := istands) idx w (Some i) -> exists w', move w = (Ret tt, w') /\ wraps (stands := istands) idx w' (after i)) ->
  (forall l d p, source l -> wraps (stands := dstands) l d p -> exists d', start d = (Ret tt, d') /\ wraps (stands := dstands) l d' (begin l)) ->
  in_block t (Some (i, None)) ->
  exists t' w, skip_step block_function move start tt t = (Ret (inl tt), t') /\ in_block t' w /\
    match after i with
    | Some i' => exists e, idx !! i' = Some e /\ w = Some (i', begin (contents (snd e)))
    | None => w = None
    end.
Proof.
  intros Hmove Hstart Ht. pose proof (in_block_data_ok _ _ Ht) as Hd. pose proof Ht as (Hs & e & He & Hi & Hw & Hh). unfold skip_step. rewrite bind_get.
  rewrite (wraps_valid _ _ _ Hw), (wraps_valid _ _ _ Hi). unfold has_data. pose proof Hw as (d & Ed & _). rewrite Ed. cbn [negb orb].
  destruct (Hmove _ i Hi) as (w1 & E1 & Hi1). unfold on_index. erewrite bind_Ret by (apply zoom_Ret; exact E1).
  destruct (InitDataBlock_ok (mk_two (tl_status_ t) w1 (data_iter_ t) (data_block_handle_ t)) (after i) Hd Hi1) as (t2 & w2 & E2 & Hb2 & Hw2).
  erewrite bind_Ret by exact E2.
  destruct (if_data_ok t2 w2 start (fun l p => p = begin l) Hb2) as (t3 & w3 & E3 & Hb3 & Hw3 & HQ).
  { intros l d' p Hl Hd'. destruct (Hstart l d' p Hl Hd') as (d'' & E & H). by exists d'', (begin l). }
  erewrite bind_Ret by exact E3. exists t3, w3. split; [done|]. split; [done|]. rewrite Hw2 in Hw3.
  destruct (after i) as [i'|]; [|by destruct w3]. destruct w3 as [[i3 p3]|]; [|done]. injection Hw3 as ->.
  destruct Hb3 as (_ & e3 & He3 & _). exists e3. split; [done|]. by rewrite (HQ e3 He3).
Qed.

Lemma stands_of_block t w : in_block t w -> forall i j, w = Some (i, Some j) -> two_stands (concat blocks) t (Some (flat_offset blocks i + j)%nat).
Proof. intros Ht i j ->. split; [done|]. split; [apply Ht|]. by exists i, j. Qed.

Lemma stands_of_null t : in_block t None -> two_stands (concat blocks) t None.
Proof. intros (Hs & Hi & Hd). split; [done|]. split; [done|]. split; [by exists None|done]. Qed.

Lemma forward_pos_next i e e' : idx !! i = Some e -> idx !! S i = Some e' ->
  forward_pos (Some (S i, first_pos (contents (snd e')))) = forward_pos (Some (i, None)).
Proof.
  intros He He'. pose proof (flat_offset_S _ _ _ (blocks_lookup _ _ He')) as Hoff. unfold forward_pos, first_pos.
  pose proof (flat_offset_mono blocks (S (S i)) (Nat.max (S (S i)) (List.length blocks)) ltac:(lia)) as Hle. rewrite (flat_offset_end blocks (Nat.max _ _)) in Hle by lia.
  destruct (Nat.ltb_spec 0 (List.length (contents (snd e')))) as [Hlt|Hge].
  - destruct (Nat.ltb_spec (flat_offset blocks (S i)) (List.length (concat blocks))); [f_equal; lia|lia].
  - by replace (flat_offset blocks (S (S i))) with (flat_offset blocks (S i)) by lia.
Qed.

Lemma backward_pos_next i e e' : idx !! S i = Some e -> idx !! i = Some e' ->
  backward_pos (Some (i, last_pos (contents (snd e')))) = backward_pos (Some (S i, None)).
Proof.
  intros He He'. pose proof (flat_offset_S _ _ _ (blocks_lookup _ _ He')) as Hoff. unfold backward_pos, last_pos.
  destruct (List.length (contents (snd e'))) as [|n]; [by replace (flat_offset blocks (S i)) with (flat_offset blocks i) by lia|].
  rewrite Hoff. by replace (flat_offset blocks i + S n)%nat with (S (flat_offset blocks i + n)) by lia.
Qed.

Abbreviation forward_step := (skip_step block_function wrapper_Next wrapper_SeekToFirst).
Abbreviation backward_step := (skip_step block_function wrapper_Prev wrapper_SeekToLast).

Lemma iterate_last {S A B} (body : A -> M S (A + B)) a s b s' : body a s = (Ret (inr b), s') -> iterate 1 body a s = (Ret b, s').
Proof. intros Hb. cbn [iterate]. by erewrite bind_Ret by exact Hb. Qed.

Lemma iterate_more {S A B} (body : A -> M S (A + B)) k a s a' s1 o : body a s = (Ret (inl a'), s1) -> iterate k body a' s1 = o -> iterate (Datatypes.S k) body a s = o.
Proof. intros Hb Hk. cbn [iterate]. by erewrite bind_Ret by exact Hb. Qed.

Lemma iterate_forward n : forall t w, in_block t w -> (match w with Some (i, _) => List.length idx - i | None => 0 end <= n)%nat ->
  exists k t', (k <= n + 2)%nat /\ iterate k forward_step tt t = (Ret tt, t') /\ two_stands (concat blocks) t' (forward_pos w).
Proof.
  induction n as [|n IH]; intros t w Ht Hn.
  all: destruct w as [[i [j|]]|].
  1, 4: exists 1%nat, t; split; [lia|]; split; [by apply iterate_last, (skip_step_entry t _ _ i j)|by eapply stands_of_block].
  2, 4: destruct (skip_step_end t wrapper_Next wrapper_SeekToFirst Ht) as (t' & E & Ht'); exists 1%nat, t'; split; [lia|]; split; [by apply iterate_last|by apply stands_of_null].
  { destruct Ht as (_ & e & He & _). apply lookup_lt_Some in He. lia. }
  destruct (skip_step_move t wrapper_Next wrapper_SeekToFirst (next_pos idx) first_pos i) as (t1 & w1 & E1 & Ht1 & Hw1); [|  |done|].
  { intros w j Hw. apply wrapper_Next_ok; [apply Hidx|done]. }
  { intros l d p Hl Hw. by eapply wrapper_SeekToFirst_ok. }
  pose proof Ht as (_ & e & He & _). pose proof (lookup_lt_Some _ _ _ He) as Hlt.
  destruct (IH t1 w1 Ht1) as (k & t2 & Hk & E2 & Ht2).
  { unfold next_pos in Hw1. destruct (Nat.ltb_spec (S i) (List.length idx)); [destruct Hw1 as (e' & _ & ->); lia|subst w1; lia]. }
  exists (S k), t2. split; [lia|]. split; [by eapply iterate_more|].
  assert (Hpos : forward_pos w1 = forward_pos (Some (i, None))); [|by rewrite <- Hpos].
  unfold next_pos in Hw1. destruct (Nat.ltb_spec (S i) (List.length idx)) as [Hlt'|Hge].
  - destruct Hw1 as (e' & He' & ->). by eapply forward_pos_next.
  - subst w1. unfold forward_pos. rewrite (flat_offset_end blocks (S i)) by (unfold blocks; rewrite length_map; lia). by rewrite Nat.ltb_irrefl.
Qed.

Lemma iterate_backward n : forall t w, in_block t w -> (match w with Some (i, _) => S i | None => 0 end <= n)%nat ->
  exists k t', (k <= n + 2)%nat /\ iterate k backward_step tt t = (Ret tt, t') /\ two_stands (concat blocks) t' (backward_pos w).
Proof.
  induction n as [|n IH]; intros t w Ht Hn.
  all: destruct w as [[i [j|]]|].
  1, 4: exists 1%nat, t; split; [lia|]; split; [by apply iterate_last, (skip_step_entry t _ _ i j)|by eapply stands_of_block].
  2, 4: destruct (skip_step_end t wrapper_Prev wrapper_SeekToLast Ht) as (t' & E & Ht'); exists 1%nat, t'; split; [lia|]; split; [by apply iterate_last|by apply stands_of_null].
  { lia. }
  destruct (skip_step_move t wrapper_Prev wrapper_SeekToLast prev_pos last_pos i) as (t1 & w1 & E1 & Ht1 & Hw1); [|  |done|].
  { intros w j Hw. apply wrapper_Prev_ok; [apply Hidx|done]. }
  { intros l d p Hl Hw. by eapply wrapper_SeekToLast_ok. }
  pose proof Ht as (_ & e & He & _).
  destruct (IH t1 w1 Ht1) as (k & t2 & Hk & E2 & Ht2).
  { destruct i as [|i]; cbn in Hw1; [subst w1; lia|destruct Hw1 as (e' & _ & ->); lia]. }
  exists (S k), t2. split; [lia|]. split; [by eapply iterate_more|].
  assert (Hpos : backward_pos w1 = backward_pos (Some (i, None))); [|by rewrite <- Hpos].
  destruct i as [|i]; cbn in Hw1; [by subst w1|]. destruct Hw1 as (e' & He' & ->). by eapply backward_pos_next.
Qed.

Lemma skip_forward_ok t w : in_block t w -> exists t', SkipEmptyDataBlocksForward block_function t = (Ret tt, t') /\ two_stands (concat blocks) t' (forward_pos w).
Proof.
  intros Ht. pose proof (ti_count Hidx). destruct (iterate_forward (List.length idx) t w Ht) as (k & t' & Hk & E & Ht'); [destruct w as [[]|]; lia|].
  exists t'. split; [|done]. by apply (loop_iterate _ k); [|done|lia].
Qed.

Lemma skip_backward_ok t w : in_block t w -> exists t', SkipEmptyDataBlocksBackward block_function t = (Ret tt, t') /\ two_stands (concat blocks) t' (backward_pos w).
Proof.
  intros Ht. pose proof (ti_count Hidx). destruct (iterate_backward (List.length idx) t w Ht) as (k & t' & Hk & E & Ht').
  { destruct w as [[i q]|]; [|lia]. destruct Ht as (_ & e & He & _). apply lookup_lt_Some in He. lia. }
  exists t'. split; [|done]. by apply (loop_iterate _ k); [|done|lia].
Qed.

(** ** The interface *)

Lemma block_member i e j kv : idx !! i = Some e -> contents (snd e) !! j = Some kv -> kv ∈ contents (snd e) /\ key_ok (fst kv) /\ key_ok (fst e).
Proof.
  intros He Hkv. assert (Hin : kv ∈ contents (snd e)) by (by eapply list_elem_of_lookup_2). split; [done|].
  destruct (ti_block Hidx e (list_elem_of_lookup_2 _ _ _ He)) as [[Hok _] _]. destruct (ti_source Hidx) as [Hik _].
  rewrite Forall_map, Forall_forall in Hok, Hik. split; [by apply Hok|]. apply Hik. by eapply list_elem_of_lookup_2.
Qed.

Lemma flat_entry n kv : concat blocks !! n = Some kv ->
  exists i e j, idx !! i = Some e /\ contents (snd e) !! j = Some kv /\ n = (flat_offset blocks i + j)%nat.
Proof.
  intros Hn. destruct (flat_position blocks n (lookup_lt_Some _ _ _ Hn)) as (i & b & j & Hb & Hj & ->).
  rewrite (flat_lookup _ _ _ _ Hb Hj) in Hn. unfold blocks in Hb. rewrite list_lookup_fmap in Hb.
  destruct (idx !! i) as [e|] eqn:He; [|done]. injection Hb as <-. by exists i, e, j.
Qed.

Lemma flat_offset_lt i j n e : idx !! i = Some e -> (j <= List.length (contents (snd e)))%nat -> (n < flat_offset blocks i + j)%nat ->
  forall i' e' j', idx !! i' = Some e' -> (j' < List.length (contents (snd e')))%nat -> n = (flat_offset blocks i' + j')%nat ->
  (i' < i)%nat \/ i' = i /\ (j' < j)%nat.
Proof.
  intros He Hj Hn i' e' j' He' Hj' ->. destruct (Nat.lt_trichotomy i' i) as [|[->|Hlt]]; [by left|right; split; [done|lia]|].
  pose proof (flat_offset_mono blocks (S i) i' ltac:(lia)) as Hm. rewrite (flat_offset_S _ _ _ (blocks_lookup _ _ He)) in Hm. lia.
Qed.

(** Seeking in the index and then in the block is seeking in the concatenation. *)
Lemma seek_flat target w : key_ok target -> seeks target idx (option_map fst w) ->
  match w with Some (i, q) => forall e, idx !! i = Some e -> seeks target (contents (snd e)) q | None => True end ->
  seeks target (concat blocks) (forward_pos w).
Proof.
  intros Ht Hidxs Hblock. destruct w as [[i q]|]; cbn [option_map fst] in Hidxs.
  2:{ intros n kv Hn. destruct (flat_entry n kv Hn) as (i & e & j & He & Hj & _). destruct (block_member i e j kv He Hj) as (Hin & Hk & Hke).
      apply (order_le_lt_trans _ (fst e)); [done..| |by apply (Hidxs i)]. apply (ti_below Hidx e kv); [by eapply list_elem_of_lookup_2|done]. }
  destruct Hidxs as [(e & He & Hge) Hlt]. specialize (Hblock e He).
  assert (Hbefore : forall n kv j, concat blocks !! n = Some kv -> (j <= List.length (contents (snd e)))%nat -> (n < flat_offset blocks i + j)%nat ->
    (forall j' kv', (j' < j)%nat -> contents (snd e) !! j' = Some kv' -> order (fst kv') target < 0) -> order (fst kv) target < 0).
  { intros n kv j Hn Hj Hnj Hin. destruct (flat_entry n kv Hn) as (i' & e' & j' & He' & Hj' & E). destruct (block_member i' e' j' kv He' Hj') as (Hmem & Hk & Hke).
    destruct (flat_offset_lt i j n e He Hj Hnj i' e' j' He' (lookup_lt_Some _ _ _ Hj') E) as [Hi|[-> Hjj]].
    - apply (order_le_lt_trans _ (fst e')); [done..| |by apply (Hlt i')]. apply (ti_below Hidx e' kv); [by eapply list_elem_of_lookup_2|done].
    - rewrite He in He'. injection He' as <-. by apply (Hin j'). }
  destruct q as [j|]; cbn [forward_pos seeks].
  - destruct Hblock as [(kv & Hkv & Hkvt) Hj]. split.
    + exists kv. rewrite (flat_lookup _ _ _ _ (blocks_lookup _ _ He)) by (by eapply lookup_lt_Some). done.
    + intros n kv' Hn Hkv'. apply lookup_lt_Some in Hkv. by apply (Hbefore n kv' j); [|lia|..].
  - assert (Hall : forall n kv, (n < flat_offset blocks (S i))%nat -> concat blocks !! n = Some kv -> order (fst kv) target < 0).
    { intros n kv Hn Hkv. rewrite (flat_offset_S _ _ _ (blocks_lookup _ _ He)) in Hn. apply (Hbefore n kv _ Hkv (Nat.le_refl _) Hn).
      intros j' kv' _ Hkv'. by apply (Hblock j'). }
    destruct (Nat.ltb_spec (flat_offset blocks (S i)) (List.length (concat blocks))) as [Hlt'|Hge'].
    + split; [|intros; by eapply Hall]. destruct (lookup_lt_is_Some_2 _ _ Hlt') as [kv Hkv]. exists kv. split; [done|].
      destruct (flat_entry _ kv Hkv) as (i' & e' & j' & He' & Hj' & E). destruct (block_member i' e' j' kv He' Hj') as (Hmem & Hk & Hke).
      destruct (block_member i' e' j' kv He' Hj') as (_ & _ & _).
      assert (Hii : (i < i')%nat).
      { destruct (Nat.lt_ge_cases i i') as [|Hle]; [done|]. pose proof (flat_offset_mono blocks (S i') (S i) ltac:(lia)) as Hm.
        rewrite (flat_offset_S _ _ _ (blocks_lookup _ _ He')) in Hm. apply lookup_lt_Some in Hj'. lia. }
      apply (order_past target (fst e)); [|done|done|done|by apply (ti_above Hidx i i' e e' kv)].
      destruct (ti_source Hidx) as [Hik _]. rewrite Forall_map, Forall_forall in Hik. apply Hik. by eapply list_elem_of_lookup_2.
    + intros n kv Hn. apply (Hall n kv); [|done]. apply lookup_lt_Some in Hn. lia.
Qed.

Lemma first_flat w : option_map fst w = first_pos idx ->
  match w with Some (i, q) => forall e, idx !! i = Some e -> q = first_pos (contents (snd e)) | None => True end ->
  forward_pos w = first_pos (concat blocks).
Proof.
  intros Hw Hq. unfold first_pos in Hw. destruct (Nat.ltb_spec 0 (List.length idx)) as [Hlt|Hge]; destruct w as [[i q]|]; try done.
  - injection Hw as ->. destruct (lookup_lt_is_Some_2 idx 0 Hlt) as [e He]. rewrite (Hq e He).
    pose proof (flat_offset_S _ _ _ (blocks_lookup _ _ He)) as Hoff. change (flat_offset blocks 0) with 0%nat in Hoff.
    pose proof (flat_offset_mono blocks 1 (Nat.max 1 (List.length blocks)) ltac:(lia)) as Hm. rewrite (flat_offset_end blocks (Nat.max _ _)) in Hm by lia.
    unfold forward_pos, first_pos. change (flat_offset blocks 0) with 0%nat. destruct (Nat.ltb_spec 0 (List.length (contents (snd e)))).
    + destruct (Nat.ltb_spec 0 (List.length (concat blocks))); [done|lia].
    + by replace (flat_offset blocks 1) with 0%nat by lia.
  - unfold blocks. by destruct idx as [|e l]; [|cbn in Hge; lia].
Qed.

Lemma last_flat w : option_map fst w = last_pos idx ->
  match w with Some (i, q) => forall e, idx !! i = Some e -> q = last_pos (contents (snd e)) | None => True end ->
  backward_pos w = last_pos (concat blocks).
Proof.
  intros Hw Hq. unfold last_pos at 1 in Hw. destruct (List.length idx) as [|m] eqn:Em; destruct w as [[i q]|]; try done.
  - unfold blocks. by destruct idx.
  - injection Hw as ->. destruct (lookup_lt_is_Some_2 idx m ltac:(lia)) as [e He]. rewrite (Hq e He).
    pose proof (flat_offset_S _ _ _ (blocks_lookup _ _ He)) as Hoff. rewrite (flat_offset_end blocks (S m)) in Hoff by (unfold blocks; rewrite length_map; lia).
    unfold backward_pos, last_pos. rewrite Hoff. destruct (List.length (contents (snd e))) as [|n].
    + by rewrite Nat.add_0_r.
    + by rewrite Nat.add_succ_r.
Qed.

(** A seek of both levels. *)
Lemma two_level_position (t : two) p index_move data_move (Qi : option nat -> Prop) (Q : list entry -> option nat -> Prop) :
  two_stands (concat blocks) t p ->
  (forall w q, wraps (stands := istands) idx w q -> exists w' q', index_move w = (Ret tt, w') /\ wraps (stands := istands) idx w' q' /\ Qi q') ->
  (forall l d p, source l -> wraps (stands := dstands) l d p -> exists d' p', data_move d = (Ret tt, d') /\ wraps (stands := dstands) l d' p' /\ Q l p') ->
  exists t' w, (on_index index_move ;; InitDataBlock block_function ;; if_data data_move) t = (Ret tt, t') /\ in_block t' w /\ Qi (option_map fst w) /\
    match w with Some (i, p') => forall e, idx !! i = Some e -> Q (contents (snd e)) p' | None => True end.
Proof.
  intros Ht Hi Hd. destruct (two_stands_ok _ _ _ Ht) as [Hok [q Hq]]. destruct (Hi _ q Hq) as (w1 & q1 & E1 & Hw1 & HQi).
  unfold on_index. erewrite bind_Ret by (apply zoom_Ret; exact E1).
  destruct (InitDataBlock_ok (mk_two (tl_status_ t) w1 (data_iter_ t) (data_block_handle_ t)) q1 Hok Hw1) as (t2 & w2 & E2 & Hb2 & Hw2).
  erewrite bind_Ret by exact E2. destruct (if_data_ok t2 w2 data_move Q Hb2 Hd) as (t3 & w3 & E3 & Hb3 & Hw3 & HQ).
  exists t3, w3. split; [done|]. split; [done|]. split; [by rewrite Hw3, Hw2|done].
Qed.

Lemma on_data_read {A} (t : two) (m : M (IteratorWrapper D) A) a : m (data_iter_ t) = (Ret a, data_iter_ t) -> on_data m t = (Ret a, t).
Proof. intros Hm. unfold on_data. erewrite zoom_Ret by exact Hm. by destruct t. Qed.

Lemma two_stands_entry t n e : two_stands (concat blocks) t (Some n) -> concat blocks !! n = Some e ->
  exists i j b, in_block t (Some (i, Some j)) /\ idx !! i = Some b /\ contents (snd b) !! j = Some e /\
    wraps (stands := dstands) (contents (snd b)) (data_iter_ t) (Some j) /\ n = (flat_offset blocks i + j)%nat.
Proof.
  intros (_ & _ & i & j & -> & Hb) He. pose proof Hb as (_ & b & Hi & _ & Hw & _). exists i, j, b. split; [done|]. split; [done|].
  rewrite (flat_lookup _ _ _ _ (blocks_lookup _ _ Hi)) in He by (by eapply wraps_bound). done.
Qed.

Lemma two_level_laws : @IteratorLaws two (two_level_ops block_function) C L two_stands.
Proof.
  split.
  - intros l t n (-> & _ & i & j & -> & _ & e & He & _ & Hw & _). pose proof (wraps_bound _ _ _ Hw) as Hj.
    pose proof (flat_lookup _ _ _ _ (blocks_lookup _ _ He) Hj) as Hl. destruct (lookup_lt_is_Some_2 _ _ Hj) as [kv Hkv].
    rewrite Hkv in Hl. by eapply lookup_lt_Some.
  - intros l t p (_ & _ & Hp). destruct p as [n|]; [|by destruct Hp as (_ & _ & Hv)].
    destruct Hp as (i & j & _ & _ & e & _ & _ & Hw & _). by apply (wraps_valid _ _ _ Hw).
  - intros l t p Ht. destruct (two_stands_ok l t p Ht) as [Hd [q Hq]]. cbn. unfold two_level_status. rewrite (wraps_status _ _ _ Hq).
    cbn. destruct (data_status_ok t Hd) as [-> | ->]; apply Hd.
  - intros l t n e Ht He. pose proof Ht as (-> & _). destruct (two_stands_entry t n e Ht He) as (i & j & b & _ & _ & Hj & Hw & _).
    apply (on_data_read t wrapper_key). by apply (wraps_key _ _ _ e Hw).
  - intros l t n e Ht He. pose proof Ht as (-> & _). destruct (two_stands_entry t n e Ht He) as (i & j & b & _ & _ & Hj & Hw & _).
    apply (on_data_read t wrapper_value). by apply (wraps_value _ _ _ e Hw).
  - intros l t p _ Ht. pose proof Ht as (-> & _). cbn. unfold two_level_SeekToFirst.
    destruct (two_level_position t p wrapper_SeekToFirst wrapper_SeekToFirst (fun q => q = first_pos idx) (fun l q => q = first_pos l) Ht) as (t1 & w & E & Hb & Hi & Hq).
    { intros w q Hw. destruct (wrapper_SeekToFirst_ok _ _ _ (ti_source Hidx) Hw) as (w' & E & H). by exists w', (first_pos idx). }
    { intros l d q Hl Hw. destruct (wrapper_SeekToFirst_ok _ _ _ Hl Hw) as (w' & E & H). by exists w', (first_pos l). }
    destruct (skip_forward_ok t1 w Hb) as (t2 & E2 & Ht2). rewrite (first_flat w Hi Hq) in Ht2. exists t2. split; [|done].
    rewrite <- !bind_assoc. rewrite <- bind_assoc in E. by erewrite bind_Ret by exact E.
  - intros l t p _ Ht. pose proof Ht as (-> & _). cbn. unfold two_level_SeekToLast.
    destruct (two_level_position t p wrapper_SeekToLast wrapper_SeekToLast (fun q => q = last_pos idx) (fun l q => q = last_pos l) Ht) as (t1 & w & E & Hb & Hi & Hq).
    { intros w q Hw. destruct (wrapper_SeekToLast_ok _ _ _ (ti_source Hidx) Hw) as (w' & E & H). by exists w', (last_pos idx). }
    { intros l d q Hl Hw. destruct (wrapper_SeekToLast_ok _ _ _ Hl Hw) as (w' & E & H). by exists w', (last_pos l). }
    destruct (skip_backward_ok t1 w Hb) as (t2 & E2 & Ht2). rewrite (last_flat w Hi Hq) in Ht2. exists t2. split; [|done].
    rewrite <- !bind_assoc. rewrite <- bind_assoc in E. by erewrite bind_Ret by exact E.
  - intros l t n _ Ht. pose proof Ht as (-> & Hs & i & j & -> & Hb). pose proof Hb as (_ & e & He & Hi & Hw & Hh).
    destruct (ti_block Hidx e (list_elem_of_lookup_2 _ _ _ He)) as [Hsrc _]. destruct (wrapper_Next_ok _ _ _ Hsrc Hw) as (d' & E & Hw').
    cbn. unfold two_level_Next, on_data. erewrite bind_Ret by (apply zoom_Ret; exact E).
    destruct (skip_forward_ok (mk_two (tl_status_ t) (index_iter_ t) d' (data_block_handle_ t)) (Some (i, next_pos (contents (snd e)) j))) as (t2 & E2 & Ht2).
    { split; [done|]. by exists e. }
    exists t2. split; [done|]. assert (Hpos : forward_pos (Some (i, next_pos (contents (snd e)) j)) = next_pos (concat blocks) (flat_offset blocks i + j)); [|by rewrite <- Hpos].
    pose proof (wraps_bound _ _ _ Hw) as Hj. pose proof (flat_offset_S _ _ _ (blocks_lookup _ _ He)) as Hoff.
    pose proof (flat_offset_mono blocks (S i) (Nat.max (S i) (List.length blocks)) ltac:(lia)) as Hm. rewrite (flat_offset_end blocks (Nat.max _ _)) in Hm by lia.
    unfold next_pos, forward_pos. destruct (Nat.ltb_spec (S j) (List.length (contents (snd e)))).
    + destruct (Nat.ltb_spec (S (flat_offset blocks i + j)) (List.length (concat blocks))); [f_equal; lia|lia].
    + by replace (flat_offset blocks (S i)) with (S (flat_offset blocks i + j)) by lia.
  - intros l t n _ Ht. pose proof Ht as (-> & Hs & i & j & -> & Hb). pose proof Hb as (_ & e & He & Hi & Hw & Hh).
    destruct (ti_block Hidx e (list_elem_of_lookup_2 _ _ _ He)) as [Hsrc _]. destruct (wrapper_Prev_ok _ _ _ Hsrc Hw) as (d' & E & Hw').
    cbn. unfold two_level_Prev, on_data. erewrite bind_Ret by (apply zoom_Ret; exact E).
    destruct (skip_backward_ok (mk_two (tl_status_ t) (index_iter_ t) d' (data_block_handle_ t)) (Some (i, prev_pos j))) as (t2 & E2 & Ht2).
    { split; [done|]. by exists e. }
    exists t2. split; [done|]. assert (Hpos : backward_pos (Some (i, prev_pos j)) = prev_pos (flat_offset blocks i + j)); [|by rewrite <- Hpos].
    destruct j as [|j]; cbn [prev_pos backward_pos]; [by rewrite Nat.add_0_r|]. by rewrite Nat.add_succ_r.
  - intros l t p target _ Ht Htarget. pose proof Ht as (-> & _). cbn. unfold two_level_Seek.
    destruct (two_level_position t p (wrapper_Seek target) (wrapper_Seek target) (seeks target idx) (seeks target) Ht) as (t1 & w & E & Hb & Hi & Hq).
    { intros w q Hw. by apply (wrapper_Seek_ok _ _ _ _ (ti_source Hidx) Hw). }
    { intros l d q Hl Hw. by apply (wrapper_Seek_ok _ _ _ _ Hl Hw). }
    destruct (skip_forward_ok t1 w Hb) as (t2 & E2 & Ht2). exists t2, (forward_pos w). split; [|split; [done|by apply seek_flat]].
    rewrite <- !bind_assoc. rewrite <- bind_assoc in E. by erewrite bind_Ret by exact E.
Qed.
End TwoLevel.
