(* ===== verification/LdbMerger.v ===== *)
(** [table/merger.cc]: the iterator that merges the entries of its children. *)

From Stdlib Require Import ZArith Lia List String Bool.
From stdpp Require Import base list sorting.
From S2P Require Import Prelude LdbBase LdbKeys LdbKeyProps LdbIterator.

(** ** [MergingIterator] *)

Inductive Direction := kForward | kReverse.

(** [current_] is the number of the child it points to. *)
Record MergingIterator (I : Type) := mk_merging {
  children_ : list (IteratorWrapper I);
  mcurrent_ : option nat;
  direction_ : Direction
}.
Arguments mk_merging {I}.
Arguments children_ {I}.
Arguments mcurrent_ {I}.
Arguments direction_ {I}.

Section Merging.
Context {I : Type} {ops : IteratorOps I} {C : Comparator}.

Abbreviation merging := (MergingIterator I).

(** A method of [children_[i]]. *)
Definition on_child {A} (i : nat) (m : M (IteratorWrapper I) A) : M merging A := fun t =>
  match children_ t !! i with
  | Some w => let '(r, w') := m w in (r, mk_merging (<[i := w']> (children_ t)) (mcurrent_ t) (direction_ t))
  | None => (Stuck, t)
  end.

Definition n_ (t : merging) : nat := List.length (children_ t).
Definition set_mcurrent (c : option nat) : M merging unit := modify (fun t => mk_merging (children_ t) c (direction_ t)).
Definition set_direction (d : Direction) : M merging unit := modify (fun t => mk_merging (children_ t) (mcurrent_ t) d).

(** [current_], which is not null. *)
Definition the_current : M merging nat :=
  t <- get ;; match mcurrent_ t with Some c => ret c | None => stuck end.

Definition merging_Valid (t : merging) : bool := match mcurrent_ t with Some _ => true | None => false end.
Definition merging_key : M merging Slice := c <- the_current ;; on_child c wrapper_key.
Definition merging_value : M merging Slice := c <- the_current ;; on_child c wrapper_value.

(** A round of [FindSmallest], with the [smallest] so far; in [FindLargest] the order
    is the other way. *)
Definition better (sign : Z) (best : option nat) (i : nat) : M merging (option nat) :=
  valid <- on_child i (gets wrapper_Valid) ;;
  if valid : bool then
    match best with
    | None => ret (Some i)
    | Some b =>
        k <- on_child i wrapper_key ;;
        bk <- on_child b wrapper_key ;;
        match Compare k bk with
        | Some c => ret (if sign * c <? 0 then Some i else best)
        | None => stuck
        end
    end
  else ret best.

Fixpoint best_of (sign : Z) (best : option nat) (ids : list nat) : M merging (option nat) :=
  match ids with
  | [] => ret best
  | i :: ids' => best <- better sign best i ;; best_of sign best ids'
  end.

Definition FindSmallest : M merging unit :=
  t <- get ;; smallest <- best_of 1 None (seq 0 (n_ t)) ;; set_mcurrent smallest.
Definition FindLargest : M merging unit :=
  t <- get ;; largest <- best_of (-1) None (rev (seq 0 (n_ t))) ;; set_mcurrent largest.

Definition merging_SeekToFirst : M merging unit :=
  t <- get ;; for_each (seq 0 (n_ t)) (fun i => on_child i wrapper_SeekToFirst) ;; FindSmallest ;; set_direction kForward.
Definition merging_SeekToLast : M merging unit :=
  t <- get ;; for_each (seq 0 (n_ t)) (fun i => on_child i wrapper_SeekToLast) ;; FindLargest ;; set_direction kReverse.
Definition merging_Seek (target : Slice) : M merging unit :=
  t <- get ;; for_each (seq 0 (n_ t)) (fun i => on_child i (wrapper_Seek target)) ;; FindSmallest ;; set_direction kForward.

(** The children other than the current one, to behind [key()]. *)
Definition turn_forward (c i : nat) : M merging unit :=
  if (i =? c)%nat then ret tt
  else
    key <- merging_key ;;
    on_child i (wrapper_Seek key) ;;
    valid <- on_child i (gets wrapper_Valid) ;;
    if valid : bool then
      ck <- on_child i wrapper_key ;;
      key <- merging_key ;;
      match Compare key ck with
      | Some r => if r =? 0 then on_child i wrapper_Next else ret tt
      | None => stuck
      end
    else ret tt.

(** The children other than the current one, to in front of [key()]. *)
Definition turn_reverse (c i : nat) : M merging unit :=
  if (i =? c)%nat then ret tt
  else
    key <- merging_key ;;
    on_child i (wrapper_Seek key) ;;
    valid <- on_child i (gets wrapper_Valid) ;;
    if valid : bool then on_child i wrapper_Prev else on_child i wrapper_SeekToLast.

Definition merging_Next : M merging unit :=
  t <- get ;;
  c <- the_current ;;
  match direction_ t with
  | kForward => ret tt
  | kReverse => for_each (seq 0 (n_ t)) (turn_forward c) ;; set_direction kForward
  end ;;
  on_child c wrapper_Next ;;
  FindSmallest.

Definition merging_Prev : M merging unit :=
  t <- get ;;
  c <- the_current ;;
  match direction_ t with
  | kReverse => ret tt
  | kForward => for_each (seq 0 (n_ t)) (turn_reverse c) ;; set_direction kReverse
  end ;;
  on_child c wrapper_Prev ;;
  FindLargest.

(** The status of the first child that has an error, or of the last one. *)
Fixpoint first_error (l : list (IteratorWrapper I)) (status : Status) : Status :=
  match l with
  | [] => status
  | w :: l' =>
      match wrapper_status w with
      | Some s => if negb (ok s) then s else first_error l' s
      | None => status
      end
  end.
Definition merging_status (t : merging) : Status := first_error (children_ t) OK.

#[export] Instance merging_ops : IteratorOps merging := {|
  it_Valid := merging_Valid;
  it_SeekToFirst := merging_SeekToFirst;
  it_SeekToLast := merging_SeekToLast;
  it_Seek := merging_Seek;
  it_Next := merging_Next;
  it_Prev := merging_Prev;
  it_key := merging_key;
  it_value := merging_value;
  it_status := merging_status
|}.

(** The constructor. *)
Fixpoint wrap_children (children : list I) : option (list (IteratorWrapper I)) :=
  match children with
  | [] => Some []
  | c :: cs =>
      match wrapper_Set (Some c) null_wrapper with
      | (Ret tt, w) => ws ← wrap_children cs; Some (w :: ws)
      | _ => None
      end
  end.

Definition new_MergingIterator (children : list I) : option merging :=
  ws ← wrap_children children; Some (mk_merging ws None kForward).

(** [NewMergingIterator]: no children, one child as it is, or a merging iterator. *)
Inductive MergedIterator :=
  | MergedEmpty (it : EmptyIter)
  | MergedOne (it : I)
  | MergedMany (it : merging).

Definition NewMergingIterator (children : list I) : option MergedIterator :=
  match children with
  | [] => Some (MergedEmpty NewEmptyIterator)
  | [c] => Some (MergedOne c)
  | _ => MergedMany <$> new_MergingIterator children
  end.

(** A virtual call. *)
Definition on_merged {A} (m : forall J (o : IteratorOps J), M J A) : M MergedIterator A := fun t =>
  match t with
  | MergedEmpty it => let '(r, it') := m EmptyIter _ it in (r, MergedEmpty it')
  | MergedOne it => let '(r, it') := m I _ it in (r, MergedOne it')
  | MergedMany it => let '(r, it') := m (MergingIterator I) _ it in (r, MergedMany it')
  end.

#[export] Instance merged_ops : IteratorOps MergedIterator := {|
  it_Valid t := match t with MergedEmpty it => it_Valid it | MergedOne it => it_Valid it | MergedMany it => it_Valid it end;
  it_SeekToFirst := on_merged (@it_SeekToFirst);
  it_SeekToLast := on_merged (@it_SeekToLast);
  it_Seek target := on_merged (fun J o => it_Seek target);
  it_Next := on_merged (@it_Next);
  it_Prev := on_merged (@it_Prev);
  it_key := on_merged (@it_key);
  it_value := on_merged (@it_value);
  it_status t := match t with MergedEmpty it => it_status it | MergedOne it => it_status it | MergedMany it => it_status it end
|}.
End Merging.
#[global] Arguments MergedIterator I : clear implicits.
