(* ===== verification/LdbMergerTheorems.v ===== *)
(** The merging iterator keeps the interface's promises over the merged entries, when
    its children do over theirs.

    [NewMergingIterator] over any number of children, as a client sees it. *)

From Stdlib Require Import ZArith Lia List String Bool.
From stdpp Require Import base list sorting.
From S2P Require Import Prelude Base128 LdbBase LdbText LdbKeys LdbKeyProps LdbBlock LdbBlockBuild LdbIterator LdbTwoLevelProps LdbMerger.

(** ** Sources *)

Section Sources.
Context {C : Comparator} {L : ComparatorLaws C}.

Lemma source_key_ok l i e : source l -> l !! i = Some e -> key_ok (fst e).
Proof. intros [Hok _] He. rewrite Forall_map, Forall_forall in Hok. apply Hok. by eapply list_elem_of_lookup_2. Qed.

Lemma source_lt l i j e e' : source l -> (i < j)%nat -> l !! i = Some e -> l !! j = Some e' -> order (fst e) (fst e') < 0.
Proof.
  intros [_ Hs] Hij He He'. rewrite <- (take_drop (S i) l), map_app in Hs.
  apply (StronglySorted_app_1_elem_of _ _ _ _ _ Hs); apply list_elem_of_fmap_2.
  - apply (list_elem_of_lookup_2 _ i). by rewrite lookup_take_lt by lia.
  - apply (list_elem_of_lookup_2 _ (j - S i)). rewrite lookup_drop. by replace (S i + (j - S i))%nat with j by lia.
Qed.

Lemma source_NoDup l : source l -> NoDup l.
Proof.
  intros Hl. apply NoDup_alt. intros i j e Hi Hj. pose proof (order_refl _ (source_key_ok l i e Hl Hi)) as Hr.
  destruct (Nat.lt_trichotomy i j) as [Hlt|[->|Hlt]]; [|done|].
  - pose proof (source_lt l i j e e Hl Hlt Hi Hj). lia.
  - pose proof (source_lt l j i e e Hl Hlt Hj Hi). lia.
Qed.

Lemma elem_take (l : list entry) n i e : NoDup l -> l !! i = Some e -> (e ∈ take n l <-> (i < n)%nat).
Proof.
  intros Hl Hi. split.
  - intros He. apply list_elem_of_lookup_1 in He as [j Hj]. apply lookup_take_Some in Hj as [Hj Hlt]. by rewrite (NoDup_lookup _ _ _ _ Hl Hi Hj).
  - intros Hlt. apply (list_elem_of_lookup_2 _ i). by rewrite lookup_take_lt.
Qed.

Lemma seeks_exists target l : exists p, seeks target l p.
Proof.
  induction l as [|e l [p IH]]; [by exists None|]. destruct (Z.le_gt_cases 0 (order (fst e) target)) as [Hge|Hlt].
  - exists (Some 0%nat). split; [by exists e|lia].
  - exists (S <$> p). destruct p as [i|]; cbn in *.
    + destruct IH as [IH1 IH2]. split; [done|]. intros [|j] e' Hj He'; [injection He' as <-; lia|]. apply (IH2 j e'); [lia|done].
    + intros [|j] e' He'; [injection He' as <-; lia|]. by apply (IH j e').
Qed.

(** What [seeks] finds splits the entries at the target. *)
Lemma seeks_split target l p i e : source l -> key_ok target -> seeks target l p -> l !! i = Some e ->
  (order (fst e) target < 0 <-> (i < match p with Some n => n | None => List.length l end)%nat).
Proof.
  intros Hl Ht Hp Hi. destruct p as [n|]; cbn in Hp.
  - destruct Hp as [(e0 & Hn & Hge) Hlt]. split; [|by intros Hin; apply (Hlt i e)]. intros He.
    destruct (Nat.lt_trichotomy i n) as [|[->|Hni]]; [done| |].
    + rewrite Hn in Hi. injection Hi as ->. lia.
    + pose proof (order_past target (fst e0) (fst e) (source_key_ok _ _ _ Hl Hn) (source_key_ok _ _ _ Hl Hi) Ht Hge (source_lt _ _ _ _ _ Hl Hni Hn Hi)). lia.
  - split; [by intros _; eapply lookup_lt_Some|]. intros _. by apply (Hp i e).
Qed.
End Sources.

(** ** Where the children stand *)

Section Merging.
Context {I : Type} {ops : IteratorOps I} {C : Comparator} {L : ComparatorLaws C}.
Context {istands : list entry -> I -> option nat -> Prop} {ilaws : IteratorLaws I istands}.
Context (lists : list (list entry)) (l : list entry).

Record merges : Prop := {
  mg_source : source l;
  mg_sources : Forall source lists;
  mg_perm : l ≡ₚ concat lists
}.
Context (Hm : merges).

Abbreviation merging := (MergingIterator I).

Definition kids (t : merging) (pos : nat -> option nat) : Prop :=
  List.length (children_ t) = List.length lists /\
  forall i li w, lists !! i = Some li -> children_ t !! i = Some w -> wraps (stands := istands) li w (pos i).

(** The child [i] is at the entry [e]. *)
Definition cur (pos : nat -> option nat) (i : nat) (e : entry) : Prop :=
  exists li k, lists !! i = Some li /\ pos i = Some k /\ li !! k = Some e.

(** The first [k] entries of a child are among the first [n] of all. *)
Definition cutk (n : nat) (li : list entry) (k : nat) : Prop :=
  (k <= List.length li)%nat /\ forall j e, li !! j = Some e -> ((j < k)%nat <-> e ∈ take n l).

Definition at_pos (li : list entry) (k : nat) : option nat := if (k <? List.length li)%nat then Some k else None.

Definition forward_at (n i : nat) (p : option nat) : Prop := forall li, lists !! i = Some li -> exists k, cutk n li k /\ p = at_pos li k.
Definition reverse_at (n i : nat) (p : option nat) : Prop := forall li, lists !! i = Some li -> exists k, cutk n li k /\ p = prev_pos k.

Lemma list_source i li : lists !! i = Some li -> source li.
Proof. intros Hi. pose proof (mg_sources Hm) as Hs. rewrite Forall_forall in Hs. apply Hs. by eapply list_elem_of_lookup_2. Qed.

Lemma in_lists e : e ∈ l <-> exists i li, lists !! i = Some li /\ e ∈ li.
Proof.
  rewrite (mg_perm Hm), list_elem_of_In, in_concat. split.
  - intros (li & Hli & He). apply list_elem_of_In, list_elem_of_lookup_1 in Hli as [i Hi]. exists i, li. by rewrite list_elem_of_In.
  - intros (i & li & Hi & He). exists li. rewrite <- !list_elem_of_In. split; [by eapply list_elem_of_lookup_2|done].
Qed.

Lemma NoDup_concat_disjoint {A} (ls : list (list A)) : NoDup (concat ls) -> forall i j li lj e, ls !! i = Some li -> ls !! j = Some lj -> e ∈ li -> e ∈ lj -> i = j.
Proof.
  induction ls as [|l0 ls IH]; intros Hn i j li lj e Hi Hj Hei Hej; [done|]. cbn in Hn. apply NoDup_app in Hn as (_ & Hd & Hn).
  assert (Hin : forall k lk, ls !! k = Some lk -> e ∈ lk -> e ∈ concat ls).
  { intros k lk Hk He. apply list_elem_of_In, in_concat. exists lk. rewrite <- !list_elem_of_In. split; [by eapply list_elem_of_lookup_2|done]. }
  destruct i as [|i], j as [|j]; cbn in *; [done| | |f_equal; by eapply IH].
  - injection Hi as <-. exfalso. by apply (Hd e Hei), (Hin j lj).
  - injection Hj as <-. exfalso. by apply (Hd e Hej), (Hin i li).
Qed.

Lemma lists_disjoint i j li lj e : lists !! i = Some li -> lists !! j = Some lj -> e ∈ li -> e ∈ lj -> i = j.
Proof. apply NoDup_concat_disjoint. rewrite <- (mg_perm Hm). apply source_NoDup, Hm. Qed.

Lemma cur_in pos i e : cur pos i e -> e ∈ l.
Proof. intros (li & k & Hi & _ & He). apply in_lists. exists i, li. split; [done|by eapply list_elem_of_lookup_2]. Qed.

(** An entry of a child and its place among all. *)
Lemma child_entry i li j e : lists !! i = Some li -> li !! j = Some e -> exists m, l !! m = Some e.
Proof. intros Hi He. apply list_elem_of_lookup_1, in_lists. exists i, li. split; [done|by eapply list_elem_of_lookup_2]. Qed.

(** After a seek, the first entries of the children are those in front of the target. *)
Lemma seeks_forward target p0 i p : key_ok target -> seeks target l p0 -> (forall li, lists !! i = Some li -> seeks target li p) ->
  forward_at (match p0 with Some n => n | None => List.length l end) i p.
Proof.
  intros Ht H0 Hp li Hi. specialize (Hp li Hi). pose proof (list_source i li Hi) as Hsrc.
  exists (match p with Some n => n | None => List.length li end). split; [split|].
  - destruct p as [n|]; [|done]. destruct Hp as [(e & He & _) _]. apply lookup_lt_Some in He. lia.
  - intros j e He. rewrite <- (seeks_split target li p j e Hsrc Ht Hp He). destruct (child_entry i li j e Hi He) as [m Hme].
    rewrite (elem_take l _ m e (source_NoDup l (mg_source Hm)) Hme). apply (seeks_split target l p0 m e (mg_source Hm) Ht H0 Hme).
  - unfold at_pos. destruct p as [n|].
    + destruct Hp as [(e & He & _) _]. apply lookup_lt_Some in He. by destruct (Nat.ltb_spec n (List.length li)); [|lia].
    + by rewrite Nat.ltb_irrefl.
Qed.

Lemma l_key_ok m e : l !! m = Some e -> key_ok (fst e).
Proof. apply source_key_ok, Hm. Qed.

(** ** The smallest of the entries from [n] on, the largest of those before *)

Lemma forward_cur n pos i e : (forall i, (i < List.length lists)%nat -> forward_at n i (pos i)) -> cur pos i e -> exists m, (n <= m)%nat /\ l !! m = Some e.
Proof.
  intros Hf (li & k & Hi & Hk & He). destruct (Hf i (lookup_lt_Some _ _ _ Hi) li Hi) as (k' & [_ Hc] & Hp). rewrite Hk in Hp.
  unfold at_pos in Hp. destruct (k' <? List.length li)%nat; [injection Hp as <-|done].
  destruct (child_entry i li k e Hi He) as [m Hme]. exists m. split; [|done].
  pose proof (proj2 (Hc k e He)) as Hq. rewrite (elem_take l n m e (source_NoDup l (mg_source Hm)) Hme) in Hq. lia.
Qed.

Lemma forward_has n pos e : (forall i, (i < List.length lists)%nat -> forward_at n i (pos i)) -> l !! n = Some e -> exists i, (i < List.length lists)%nat /\ cur pos i e.
Proof.
  intros Hf He. destruct (proj1 (in_lists e) (list_elem_of_lookup_2 _ _ _ He)) as (i & li & Hi & Hin). apply list_elem_of_lookup_1 in Hin as [j Hj].
  pose proof (lookup_lt_Some _ _ _ Hi) as Hil. exists i. split; [done|]. destruct (Hf i Hil li Hi) as (k & [_ Hc] & Hp).
  pose proof (source_NoDup l (mg_source Hm)) as Hnd.
  assert (Hkj : (k <= j)%nat). { pose proof (proj1 (Hc j e Hj)) as Hq. rewrite (elem_take l n n e Hnd He) in Hq. lia. }
  assert (k = j) as ->.
  { destruct (Nat.eq_dec k j) as [|Hne]; [done|]. pose proof (lookup_lt_Some _ _ _ Hj). destruct (lookup_lt_is_Some_2 li k ltac:(lia)) as [e' He'].
    destruct (child_entry i li k e' Hi He') as [m Hme]. pose proof (proj2 (Hc k e' He')) as Hq. rewrite (elem_take l n m e' Hnd Hme) in Hq.
    pose proof (source_lt li k j e' e (list_source i li Hi) ltac:(lia) He' Hj) as Hlt.
    destruct (Nat.eq_dec n m) as [<-|].
    - rewrite He in Hme. injection Hme as ->. pose proof (order_refl _ (l_key_ok _ _ He)). lia.
    - pose proof (source_lt l n m e e' (mg_source Hm) ltac:(lia) He Hme) as Hgt. apply order_flip in Hgt; [lia|by eapply l_key_ok..]. }
  exists li, j. split; [done|]. split; [|done]. rewrite Hp. unfold at_pos. apply lookup_lt_Some in Hj. by destruct (Nat.ltb_spec j (List.length li)); [|lia].
Qed.

Lemma reverse_cur n pos i e : (forall i, (i < List.length lists)%nat -> reverse_at n i (pos i)) -> cur pos i e -> exists m, (m < n)%nat /\ l !! m = Some e.
Proof.
  intros Hf (li & k & Hi & Hk & He). destruct (Hf i (lookup_lt_Some _ _ _ Hi) li Hi) as (k' & [_ Hc] & Hp). rewrite Hk in Hp.
  destruct k' as [|k']; [done|]. injection Hp as ->.
  destruct (child_entry i li k' e Hi He) as [m Hme]. exists m. split; [|done].
  pose proof (proj1 (Hc k' e He)) as Hq. rewrite (elem_take l n m e (source_NoDup l (mg_source Hm)) Hme) in Hq. lia.
Qed.

Lemma reverse_has n pos e : (forall i, (i < List.length lists)%nat -> reverse_at (S n) i (pos i)) -> l !! n = Some e -> exists i, (i < List.length lists)%nat /\ cur pos i e.
Proof.
  intros Hf He. destruct (proj1 (in_lists e) (list_elem_of_lookup_2 _ _ _ He)) as (i & li & Hi & Hin). apply list_elem_of_lookup_1 in Hin as [j Hj].
  pose proof (lookup_lt_Some _ _ _ Hi) as Hil. exists i. split; [done|]. destruct (Hf i Hil li Hi) as (k & [Hkl Hc] & Hp).
  pose proof (source_NoDup l (mg_source Hm)) as Hnd.
  assert (Hkj : (j < k)%nat). { pose proof (proj2 (Hc j e Hj)) as Hq. rewrite (elem_take l (S n) n e Hnd He) in Hq. lia. }
  assert (k = S j) as ->.
  { destruct (Nat.eq_dec k (S j)) as [|Hne]; [done|]. destruct (lookup_lt_is_Some_2 li (S j) ltac:(lia)) as [e' He'].
    destruct (child_entry i li (S j) e' Hi He') as [m Hme]. pose proof (proj1 (Hc (S j) e' He')) as Hq. rewrite (elem_take l (S n) m e' Hnd Hme) in Hq.
    pose proof (source_lt li j (S j) e e' (list_source i li Hi) ltac:(lia) Hj He') as Hlt.
    destruct (Nat.eq_dec n m) as [<-|].
    - rewrite He in Hme. injection Hme as ->. pose proof (order_refl _ (l_key_ok _ _ He)). lia.
    - pose proof (source_lt l m n e' e (mg_source Hm) ltac:(lia) Hme He) as Hgt. apply order_flip in Hgt; [lia|by eapply l_key_ok..]. }
  by exists li, j.
Qed.

(** ** Methods of the children *)

Definition upd (pos : nat -> option nat) (i : nat) (p : option nat) : nat -> option nat := fun j => if (j =? i)%nat then p else pos j.

Lemma kid t pos i li : kids t pos -> lists !! i = Some li -> exists w, children_ t !! i = Some w /\ wraps (stands := istands) li w (pos i).
Proof.
  intros [Hlen Hk] Hi. destruct (lookup_lt_is_Some_2 (children_ t) i) as [w Hw]; [rewrite Hlen; by eapply lookup_lt_Some|].
  exists w. split; [done|]. by apply (Hk i li w).
Qed.

Lemma on_child_read {A} (t : merging) i w (m : M (IteratorWrapper I) A) a : children_ t !! i = Some w -> m w = (Ret a, w) -> on_child i m t = (Ret a, t).
Proof. intros Hw Hm'. unfold on_child. rewrite Hw, Hm', list_insert_id by done. by destruct t. Qed.

Lemma on_child_move (t : merging) pos i li (m : M (IteratorWrapper I) unit) (Q : option nat -> Prop) : kids t pos -> lists !! i = Some li ->
  (forall w, wraps (stands := istands) li w (pos i) -> exists w' p', m w = (Ret tt, w') /\ wraps (stands := istands) li w' p' /\ Q p') ->
  exists t' p', on_child i m t = (Ret tt, t') /\ kids t' (upd pos i p') /\ Q p' /\ mcurrent_ t' = mcurrent_ t /\ direction_ t' = direction_ t.
Proof.
  intros Hk Hi Hmv. destruct (kid t pos i li Hk Hi) as (w & Hw & Hww). destruct (Hmv w Hww) as (w' & p' & E & Hw' & HQ).
  unfold on_child. rewrite Hw, E. eexists _, p'. split; [reflexivity|]. split; [|done]. destruct Hk as [Hlen Hk]. split; [cbn; by rewrite length_insert|].
  intros j lj wj Hj Hwj. cbn in Hwj. unfold upd. destruct (Nat.eqb_spec j i) as [->|Hne].
  - rewrite list_lookup_insert_eq in Hwj by (by eapply lookup_lt_Some). injection Hwj as <-. rewrite Hi in Hj. by injection Hj as <-.
  - rewrite list_lookup_insert_ne in Hwj by done. by apply (Hk j).
Qed.

Lemma child_valid t pos i : kids t pos -> (i < List.length lists)%nat ->
  on_child i (gets wrapper_Valid) t = (Ret (match pos i with Some _ => true | None => false end), t).
Proof.
  intros Hk Hi. destruct (lookup_lt_is_Some_2 lists i Hi) as [li Hli]. destruct (kid t pos i li Hk Hli) as (w & Hw & Hww).
  apply (on_child_read t i w); [done|]. unfold gets. by rewrite (wraps_valid _ _ _ Hww).
Qed.

Lemma child_key t pos i e : kids t pos -> cur pos i e -> on_child i wrapper_key t = (Ret (fst e), t).
Proof.
  intros Hk (li & k & Hi & Hp & He). destruct (kid t pos i li Hk Hi) as (w & Hw & Hww). rewrite Hp in Hww.
  apply (on_child_read t i w); [done|]. by apply (wraps_key _ _ _ _ Hww).
Qed.

Lemma child_value t pos i e : kids t pos -> cur pos i e -> on_child i wrapper_value t = (Ret (snd e), t).
Proof.
  intros Hk (li & k & Hi & Hp & He). destruct (kid t pos i li Hk Hi) as (w & Hw & Hww). rewrite Hp in Hww.
  apply (on_child_read t i w); [done|]. by apply (wraps_value _ _ _ _ Hww).
Qed.

Lemma cur_key_ok pos i e : cur pos i e -> key_ok (fst e).
Proof. intros (li & k & Hi & _ & He). by apply (source_key_ok li k), He; apply (list_source i). Qed.

Lemma pos_cur t pos i : kids t pos -> (i < List.length lists)%nat -> match pos i with Some _ => exists e, cur pos i e | None => forall e, ~ cur pos i e end.
Proof.
  intros Hk Hi. destruct (lookup_lt_is_Some_2 lists i Hi) as [li Hli]. destruct (kid t pos i li Hk Hli) as (w & Hw & Hww).
  destruct (pos i) as [k|] eqn:Ep.
  - destruct (lookup_lt_is_Some_2 li k (wraps_bound _ _ _ Hww)) as [e He]. by exists e, li, k.
  - intros e (li' & k & _ & Hp & _). by rewrite Ep in Hp.
Qed.

Lemma cur_inj pos i e e' : cur pos i e -> cur pos i e' -> e = e'.
Proof. intros (li & k & Hi & Hp & He) (li' & k' & Hi' & Hp' & He'). rewrite Hi in Hi'. injection Hi' as <-. rewrite Hp in Hp'. injection Hp' as <-. rewrite He in He'. by injection He'. Qed.

(** ** The best child *)

Definition beats (sign : Z) (a b : list Z) : Prop := sign * order a b <= 0.

Lemma beats_refl sign a : key_ok a -> beats sign a a.
Proof. intros Ha. unfold beats. rewrite order_refl by done. lia. Qed.

Lemma beats_trans sign a b c : (sign = 1 \/ sign = -1) -> key_ok a -> key_ok b -> key_ok c -> beats sign a b -> beats sign b c -> beats sign a c.
Proof.
  unfold beats. intros [-> | ->] Ha Hb Hc H1 H2; [pose proof (order_trans a b c Ha Hb Hc); lia|].
  pose proof (order_trans c b a Hc Hb Ha). pose proof (order_flip a b Ha Hb). pose proof (order_flip b c Hb Hc). pose proof (order_flip a c Ha Hc). lia.
Qed.

Lemma beats_total sign a b : (sign = 1 \/ sign = -1) -> key_ok a -> key_ok b -> ~ beats sign a b -> beats sign b a.
Proof.
  unfold beats. intros Hs Ha Hb. pose proof (order_flip a b Ha Hb). pose proof (order_flip b a Hb Ha). destruct Hs as [-> | ->]; lia.
Qed.

Lemma best_of_ok sign t pos ids : (sign = 1 \/ sign = -1) -> kids t pos -> (forall i, i ∈ ids -> (i < List.length lists)%nat) ->
  forall best, match best with Some b => exists e, cur pos b e | None => True end ->
  exists r, best_of sign best ids t = (Ret r, t) /\
    match r with
    | Some b => exists e, cur pos b e /\ forall i e', (i ∈ ids \/ best = Some i) -> cur pos i e' -> beats sign (fst e) (fst e')
    | None => best = None /\ forall i e, i ∈ ids -> ~ cur pos i e
    end.
Proof.
  intros Hs Hk. induction ids as [|i ids IH]; intros Hids best Hbest.
  - exists best. split; [done|]. destruct best as [b|]; [|split; [done|by intros i e Hin; apply elem_of_nil in Hin]].
    destruct Hbest as [e He]. exists e. split; [done|]. intros i e' [Hin|Hin] He'; [by apply elem_of_nil in Hin|]. injection Hin as <-.
    rewrite (cur_inj _ _ _ _ He He'). by apply beats_refl, (cur_key_ok pos b).
  - assert (Hi : (i < List.length lists)%nat) by (apply Hids, elem_of_cons; by left).
    assert (Hstep : exists r, better sign best i t = (Ret r, t) /\ (r = best \/ r = Some i) /\
      match r with Some b => exists e, cur pos b e | None => True end /\
      forall i' e', (i' = i \/ best = Some i') -> cur pos i' e' -> exists b e, r = Some b /\ cur pos b e /\ beats sign (fst e) (fst e')).
    { unfold better. erewrite bind_Ret by (by apply child_valid). pose proof (pos_cur t pos i Hk Hi) as Hpc. destruct (pos i) as [k|].
      - destruct Hpc as [ei Hei]. destruct best as [b|].
        + destruct Hbest as [eb Heb]. erewrite bind_Ret by (by eapply child_key). erewrite bind_Ret by (by eapply child_key).
          pose proof (cur_key_ok _ _ _ Hei) as Hoi. pose proof (cur_key_ok _ _ _ Heb) as Hob. rewrite (Compare_order _ _ Hoi Hob). eexists. split; [reflexivity|].
          destruct (Z.ltb_spec (sign * order (fst ei) (fst eb)) 0) as [Hlt|Hge].
          * split; [by right|]. split; [by exists ei|]. intros i' e' [-> | Hb] He'; exists i, ei; (split; [done|]; split; [done|]).
            -- rewrite (cur_inj _ _ _ _ He' Hei). by apply beats_refl.
            -- injection Hb as <-. rewrite (cur_inj _ _ _ _ He' Heb). unfold beats. lia.
          * split; [by left|]. split; [by exists eb|]. intros i' e' [-> | Hb] He'; exists b, eb; (split; [done|]; split; [done|]).
            -- rewrite (cur_inj _ _ _ _ He' Hei). destruct (Z.eq_dec (sign * order (fst ei) (fst eb)) 0) as [E0|].
               ++ unfold beats. pose proof (order_flip _ _ Hoi Hob). pose proof (order_flip _ _ Hob Hoi). destruct Hs as [-> | ->]; lia.
               ++ apply beats_total; [done..|]. unfold beats. lia.
            -- injection Hb as <-. rewrite (cur_inj _ _ _ _ He' Heb). by apply beats_refl.
        + eexists. split; [reflexivity|]. split; [by right|]. split; [by exists ei|]. intros i' e' [-> | Hb] He'; [|done].
          exists i, ei. split; [done|]. split; [done|]. rewrite (cur_inj _ _ _ _ He' Hei). by apply beats_refl, (cur_key_ok pos i).
      - eexists. split; [reflexivity|]. split; [by left|]. split; [done|]. intros i' e' [-> | Hb] He'; [by apply Hpc in He'|].
        exists i', e'. split; [done|]. split; [done|]. by apply beats_refl, (cur_key_ok pos i'). }
    destruct Hstep as (r1 & E1 & Hr1 & Hc1 & Hb1). cbn [best_of]. erewrite bind_Ret by exact E1.
    destruct (IH (fun j Hj => Hids j (proj2 (elem_of_cons _ _ _) (or_intror Hj))) r1 Hc1) as (r & E & Hr). exists r. split; [done|].
    destruct r as [b|].
    + destruct Hr as (e & He & Hbest'). exists e. split; [done|]. intros i' e' Hi' He'.
      assert (Hcase : i' ∈ ids \/ (i' = i \/ best = Some i')) by (destruct Hi' as [Hin|]; [apply elem_of_cons in Hin as [->|]; auto|auto]).
      destruct Hcase as [Hin|Hin]; [apply (Hbest' i'); [by left|done]|]. destruct (Hb1 i' e' Hin He') as (b1 & e1 & -> & He1 & Hbt).
      apply (beats_trans sign _ (fst e1)); [done|by eapply cur_key_ok..| |done]. apply (Hbest' b1); [by right|done].
    + destruct Hr as [-> Hno]. destruct Hr1 as [Hr1|]; [|done]. split; [done|]. intros i' e' Hin He'. apply elem_of_cons in Hin as [->|Hin]; [|by apply (Hno i' e')].
      destruct (Hb1 i e' (or_introl eq_refl) He') as (b1 & _ & Hb & _). done.
Qed.

Lemma FindSmallest_ok t pos n : kids t pos -> (forall i, (i < List.length lists)%nat -> forward_at n i (pos i)) ->
  exists c, FindSmallest t = (Ret tt, mk_merging (children_ t) c (direction_ t)) /\
    match l !! n with
    | Some e => exists i, c = Some i /\ cur pos i e
    | None => c = None
    end.
Proof.
  intros Hk Hf. pose proof Hk as [Hlen _]. unfold FindSmallest. rewrite bind_get.
  destruct (best_of_ok 1 t pos (seq 0 (n_ t)) (or_introl eq_refl) Hk) with (best := @None nat) as (r & E & Hr); [|done|].
  { intros i Hi. apply elem_of_seq in Hi. unfold n_ in Hi. lia. }
  erewrite bind_Ret by exact E. exists r. split; [done|]. destruct (l !! n) as [e|] eqn:He.
  - destruct (forward_has n pos e Hf He) as (i & Hi & Hci). assert (Hin : i ∈ seq 0 (n_ t)) by (apply elem_of_seq; unfold n_; lia).
    destruct r as [b|]; [|destruct Hr as [_ Hr]; by apply Hr in Hci]. destruct Hr as (eb & Heb & Hbest). exists b. split; [done|].
    destruct (forward_cur n pos b eb Hf Heb) as (m & Hm' & Hlm). specialize (Hbest i e (or_introl Hin) Hci). unfold beats in Hbest.
    destruct (Nat.eq_dec m n) as [->|Hne]; [rewrite He in Hlm; by injection Hlm as ->|].
    pose proof (source_lt l n m e eb (mg_source Hm) ltac:(lia) He Hlm) as Hlt. apply order_flip in Hlt; [lia|by eapply l_key_ok..].
  - destruct r as [b|]; [|done]. destruct Hr as (eb & Heb & _). destruct (forward_cur n pos b eb Hf Heb) as (m & Hm' & Hlm).
    apply lookup_lt_Some in Hlm. apply lookup_ge_None in He. lia.
Qed.

Lemma FindLargest_ok t pos n : kids t pos -> (n <= List.length l)%nat -> (forall i, (i < List.length lists)%nat -> reverse_at n i (pos i)) ->
  exists c, FindLargest t = (Ret tt, mk_merging (children_ t) c (direction_ t)) /\
    match n with
    | S m => exists e i, l !! m = Some e /\ c = Some i /\ cur pos i e
    | O => c = None
    end.
Proof.
  intros Hk Hn Hf. pose proof Hk as [Hlen _]. unfold FindLargest. rewrite bind_get.
  destruct (best_of_ok (-1) t pos (rev (seq 0 (n_ t))) (or_intror eq_refl) Hk) with (best := @None nat) as (r & E & Hr); [|done|].
  { intros i Hi. apply list_elem_of_In, in_rev, list_elem_of_In, elem_of_seq in Hi. unfold n_ in Hi. lia. }
  erewrite bind_Ret by exact E. exists r. split; [done|]. destruct n as [|m].
  - destruct r as [b|]; [|done]. destruct Hr as (eb & Heb & _). destruct (reverse_cur 0 pos b eb Hf Heb) as (m & Hm' & Hlm). lia.
  - destruct (lookup_lt_is_Some_2 l m ltac:(lia)) as [e He].
    destruct (reverse_has m pos e Hf He) as (i & Hi & Hci). assert (Hin : i ∈ rev (seq 0 (n_ t))) by (apply list_elem_of_In, in_rev; rewrite rev_involutive; apply list_elem_of_In, elem_of_seq; unfold n_; lia).
    destruct r as [b|]; [|destruct Hr as [_ Hr]; by apply Hr in Hci]. destruct Hr as (eb & Heb & Hbest). exists e, b. split; [done|]. split; [done|].
    destruct (reverse_cur (S m) pos b eb Hf Heb) as (m' & Hm' & Hlm). specialize (Hbest i e (or_introl Hin) Hci). unfold beats in Hbest.
    destruct (Nat.eq_dec m' m) as [->|Hne]; [rewrite He in Hlm; by injection Hlm as ->|].
    pose proof (source_lt l m' m eb e (mg_source Hm) ltac:(lia) Hlm He) as Hlt. lia.
Qed.

(** ** All the children *)

Lemma for_each_ok (body : nat -> M merging unit) (P : nat -> option nat -> Prop) (J : merging -> (nat -> option nat) -> Prop) :
  (forall i t pos, (i < List.length lists)%nat -> kids t pos -> J t pos ->
    exists t' p', body i t = (Ret tt, t') /\ kids t' (upd pos i p') /\ J t' (upd pos i p') /\ P i p') ->
  forall ids t pos, NoDup ids -> (forall i, i ∈ ids -> (i < List.length lists)%nat) -> kids t pos -> J t pos ->
    exists t' pos', for_each ids body t = (Ret tt, t') /\ kids t' pos' /\ J t' pos' /\
      (forall i, i ∈ ids -> P i (pos' i)) /\ (forall i, i ∉ ids -> pos' i = pos i).
Proof.
  intros Hbody. induction ids as [|i ids IH]; intros t pos Hnd Hids Hk HJ.
  - exists t, pos. split; [done|]. split; [done|]. split; [done|]. split; [intros i Hi; by apply elem_of_nil in Hi|done].
  - apply NoDup_cons in Hnd as [Hni Hnd]. destruct (Hbody i t pos) as (t1 & p1 & E1 & Hk1 & HJ1 & HP1); [apply Hids, elem_of_cons; by left|done..|].
    destruct (IH t1 (upd pos i p1) Hnd (fun j Hj => Hids j (proj2 (elem_of_cons _ _ _) (or_intror Hj))) Hk1 HJ1) as (t2 & pos2 & E2 & Hk2 & HJ2 & HP2 & Hsame).
    exists t2, pos2. split; [cbn [for_each]; by erewrite bind_Ret by exact E1|]. split; [done|]. split; [done|]. split.
    + intros j Hj. apply elem_of_cons in Hj as [->|Hj]; [|by apply HP2]. rewrite (Hsame i Hni). unfold upd. by rewrite Nat.eqb_refl.
    + intros j Hj. rewrite not_elem_of_cons in Hj. destruct Hj as [Hne Hj]. rewrite (Hsame j Hj). unfold upd. by destruct (Nat.eqb_spec j i).
Qed.

(** A seek of every child. *)
Lemma for_each_move t pos (m : M (IteratorWrapper I) unit) (P : nat -> option nat -> Prop) : kids t pos ->
  (forall i li p w, lists !! i = Some li -> wraps (stands := istands) li w p -> exists w' p', m w = (Ret tt, w') /\ wraps (stands := istands) li w' p' /\ P i p') ->
  exists t' pos', for_each (seq 0 (n_ t)) (fun i => on_child i m) t = (Ret tt, t') /\ kids t' pos' /\ forall i, (i < List.length lists)%nat -> P i (pos' i).
Proof.
  intros Hk Hmv. destruct (for_each_ok (fun i => on_child i m) P (fun _ _ => True)) with (ids := seq 0 (n_ t)) (t := t) (pos := pos)
    as (t' & pos' & E & Hk' & _ & HP & _); [|apply NoDup_seq| |done|done|].
  - intros i t0 pos0 Hi Hk0 _. destruct (lookup_lt_is_Some_2 lists i Hi) as [li Hli].
    destruct (on_child_move t0 pos0 i li m (P i) Hk0 Hli (fun w Hw => Hmv i li _ w Hli Hw)) as (t1 & p1 & E1 & Hk1 & HP1 & _). by exists t1, p1.
  - intros i Hi. apply elem_of_seq in Hi. pose proof Hk as [Hlen _]. unfold n_ in Hi. lia.
  - exists t', pos'. split; [done|]. split; [done|]. intros i Hi. apply HP, elem_of_seq. pose proof Hk as [Hlen _]. unfold n_. lia.
Qed.

(** ** The interface *)

Definition merging_stands (l0 : list entry) (t : merging) (p : option nat) : Prop :=
  l0 = l /\ exists pos, kids t pos /\
  match p with
  | Some n => exists c e, mcurrent_ t = Some c /\ l !! n = Some e /\ cur pos c e /\
      match direction_ t with
      | kForward => forall i, (i < List.length lists)%nat -> forward_at n i (pos i)
      | kReverse => forall i, (i < List.length lists)%nat -> reverse_at (S n) i (pos i)
      end
  | None => mcurrent_ t = None
  end.

(** The merging iterator after [FindSmallest], and after [FindLargest]. *)
Lemma smallest_stands t pos n : kids t pos -> (forall i, (i < List.length lists)%nat -> forward_at n i (pos i)) ->
  exists c, FindSmallest t = (Ret tt, mk_merging (children_ t) c (direction_ t)) /\
    merging_stands l (mk_merging (children_ t) c kForward) (if (n <? List.length l)%nat then Some n else None).
Proof.
  intros Hk Hf. destruct (FindSmallest_ok t pos n Hk Hf) as (c & E & Hc). exists c. split; [exact E|]. split; [done|]. exists pos. split; [done|].
  destruct (Nat.ltb_spec n (List.length l)) as [Hlt|Hge].
  - destruct (lookup_lt_is_Some_2 l n Hlt) as [e He]. rewrite He in Hc. destruct Hc as (i & -> & Hi). by exists i, e.
  - apply lookup_ge_None in Hge. rewrite Hge in Hc. by subst c.
Qed.

Lemma largest_stands t pos n : kids t pos -> (n <= List.length l)%nat -> (forall i, (i < List.length lists)%nat -> reverse_at n i (pos i)) ->
  exists c, FindLargest t = (Ret tt, mk_merging (children_ t) c (direction_ t)) /\
    merging_stands l (mk_merging (children_ t) c kReverse) (prev_pos n).
Proof.
  intros Hk Hn Hf. destruct (FindLargest_ok t pos n Hk Hn Hf) as (c & E & Hc). exists c. split; [exact E|]. split; [done|]. exists pos. split; [done|].
  destruct n as [|m]; cbn [prev_pos]; [by subst c|]. destruct Hc as (e & i & He & -> & Hi). by exists i, e.
Qed.

(** The children at their ends are in front of everything, or behind it. *)
Lemma first_forward i li : lists !! i = Some li -> forward_at 0 i (first_pos li).
Proof.
  intros Hi li' Hi'. rewrite Hi in Hi'. injection Hi' as <-. exists 0%nat. split; [|done]. split; [lia|]. intros j e _. rewrite take_0, elem_of_nil. lia.
Qed.

Lemma last_reverse i li : lists !! i = Some li -> reverse_at (List.length l) i (last_pos li).
Proof.
  intros Hi li' Hi'. rewrite Hi in Hi'. injection Hi' as <-. exists (List.length li). split; [|done]. split; [lia|]. intros j e He. rewrite firstn_all.
  destruct (child_entry i li j e Hi He) as [m Hme]. split; [intros _; by eapply list_elem_of_lookup_2|intros _; by eapply lookup_lt_Some].
Qed.

(** The children that are not at the entry [n] stand between the entries in front of
    it and those behind it. *)
Lemma cutk_skip n li k i e c : lists !! i = Some li -> i <> c -> l !! n = Some e -> (exists lc, lists !! c = Some lc /\ e ∈ lc) -> (cutk n li k <-> cutk (S n) li k).
Proof.
  intros Hi Hne He (lc & Hc & Hec). unfold cutk. rewrite (take_S_r _ _ _ He).
  assert (Hiff : forall j e', li !! j = Some e' -> (e' ∈ take n l <-> e' ∈ take n l ++ [e])).
  { intros j e' He'. rewrite elem_of_app, list_elem_of_singleton. split; [auto|]. intros [ | -> ]; [done|]. exfalso. apply Hne.
    apply (lists_disjoint i c li lc e Hi Hc); [by eapply list_elem_of_lookup_2|done]. }
  split; intros [Hk H]; (split; [done|]); intros j e' He'; rewrite (H j e' He'); [|symmetry]; by apply (Hiff j).
Qed.

(** The child at the entry [n] has [k] entries in front of it. *)
Lemma cutk_current n c pos e : cur pos c e -> l !! n = Some e -> forall lc, lists !! c = Some lc -> exists k, pos c = Some k /\ lc !! k = Some e /\ cutk n lc k /\ cutk (S n) lc (S k).
Proof.
  intros (lc & k & Hc & Hp & Hk) He lc' Hc'. rewrite Hc in Hc'. injection Hc' as <-. exists k. split; [done|]. split; [done|].
  pose proof (lookup_lt_Some _ _ _ Hk). pose proof (list_source c lc Hc) as Hsrc. pose proof (source_NoDup l (mg_source Hm)) as Hnd.
  assert (Hcmp : forall j e', lc !! j = Some e' -> forall m, l !! m = Some e' -> ((j < k)%nat <-> (m < n)%nat) /\ (j = k <-> m = n)).
  { intros j e' Hj m Hme. pose proof (order_refl _ (l_key_ok _ _ He)) as Hr.
    destruct (Nat.lt_trichotomy j k) as [Hjk|[->|Hjk]].
    - pose proof (source_lt lc j k e' e Hsrc Hjk Hj Hk) as H1. destruct (Nat.lt_trichotomy m n) as [|[->|Hmn]]; [lia| |].
      + rewrite He in Hme. injection Hme as ->. lia.
      + pose proof (source_lt l n m e e' (mg_source Hm) Hmn He Hme) as H2. apply order_flip in H2; [lia|by eapply l_key_ok..].
    - rewrite Hk in Hj. injection Hj as <-. pose proof (NoDup_lookup _ _ _ _ Hnd He Hme). lia.
    - pose proof (source_lt lc k j e e' Hsrc Hjk Hk Hj) as H1. destruct (Nat.lt_trichotomy m n) as [Hmn| [->|Hmn] ]; [| |lia].
      + pose proof (source_lt l m n e' e (mg_source Hm) Hmn Hme He) as H2. apply order_flip in H2; [lia|by eapply l_key_ok..].
      + rewrite He in Hme. injection Hme as ->. lia. }
  split; (split; [lia|]); intros j e' Hj; destruct (child_entry c lc j e' Hc Hj) as [m Hme]; destruct (Hcmp j e' Hj m Hme) as [H1 H2];
    rewrite (elem_take l _ m e' Hnd Hme); lia.
Qed.

Lemma cur_elem pos c e : cur pos c e -> exists lc, lists !! c = Some lc /\ e ∈ lc.
Proof. intros (lc & k & Hc & _ & He). exists lc. split; [done|by eapply list_elem_of_lookup_2]. Qed.

Lemma next_pos_at_pos li k : (k < List.length li)%nat -> next_pos li k = at_pos li (S k).
Proof. done. Qed.

(** The step to the next entry, and to the one before. *)
Lemma advance t pos n c e : kids t pos -> l !! n = Some e -> cur pos c e -> direction_ t = kForward ->
  (forall i, (i < List.length lists)%nat -> forward_at n i (pos i)) ->
  exists t', (on_child c wrapper_Next ;; FindSmallest) t = (Ret tt, t') /\ merging_stands l t' (next_pos l n).
Proof.
  intros Hk He Hc Hd Hf. pose proof (cur_elem _ _ _ Hc) as (lc & Hlc & Hec). destruct (cutk_current n c pos e Hc He lc Hlc) as (k & Hp & Hlk & _ & Hcut).
  destruct (on_child_move t pos c lc wrapper_Next (fun p => p = next_pos lc k) Hk Hlc) as (t1 & p1 & E1 & Hk1 & -> & Hm1 & Hd1).
  { intros w Hw. rewrite Hp in Hw. destruct (wrapper_Next_ok _ _ _ (list_source c lc Hlc) Hw) as (w' & E & Hw'). by exists w', (next_pos lc k). }
  erewrite bind_Ret by exact E1. destruct (smallest_stands t1 _ (S n) Hk1) as (c' & E2 & Hs).
  - intros i Hi. unfold upd. destruct (Nat.eqb_spec i c) as [->|Hne].
    + intros li Hli. rewrite Hlc in Hli. injection Hli as <-. by exists (S k).
    + intros li Hli. destruct (Hf i Hi li Hli) as (ki & Hcut' & Hpi). exists ki. split; [|done].
      apply (proj1 (cutk_skip n li ki i e c Hli Hne He (cur_elem _ _ _ Hc))), Hcut'.
  - rewrite Hd1, Hd in E2. exists (mk_merging (children_ t1) c' kForward). by split.
Qed.

Lemma retreat t pos n c e : kids t pos -> l !! n = Some e -> cur pos c e -> direction_ t = kReverse ->
  (forall i, (i < List.length lists)%nat -> reverse_at (S n) i (pos i)) ->
  exists t', (on_child c wrapper_Prev ;; FindLargest) t = (Ret tt, t') /\ merging_stands l t' (prev_pos n).
Proof.
  intros Hk He Hc Hd Hf. pose proof (cur_elem _ _ _ Hc) as (lc & Hlc & Hec). destruct (cutk_current n c pos e Hc He lc Hlc) as (k & Hp & Hlk & Hcut & _).
  destruct (on_child_move t pos c lc wrapper_Prev (fun p => p = prev_pos k) Hk Hlc) as (t1 & p1 & E1 & Hk1 & -> & Hm1 & Hd1).
  { intros w Hw. rewrite Hp in Hw. destruct (wrapper_Prev_ok _ _ _ (list_source c lc Hlc) Hw) as (w' & E & Hw'). by exists w', (prev_pos k). }
  erewrite bind_Ret by exact E1. pose proof (lookup_lt_Some _ _ _ He). destruct (largest_stands t1 _ n Hk1 ltac:(lia)) as (c' & E2 & Hs).
  - intros i Hi. unfold upd. destruct (Nat.eqb_spec i c) as [->|Hne].
    + intros li Hli. rewrite Hlc in Hli. injection Hli as <-. by exists k.
    + intros li Hli. destruct (Hf i Hi li Hli) as (ki & Hcut' & Hpi). exists ki. split; [|done].
      apply (proj2 (cutk_skip n li ki i e c Hli Hne He (cur_elem _ _ _ Hc))), Hcut'.
  - rewrite Hd1, Hd in E2. exists (mk_merging (children_ t1) c' kReverse). by split.
Qed.

(** ** Turning around *)

Definition turning (c : nat) (e : entry) (d : Direction) (t : merging) (pos : nat -> option nat) : Prop :=
  mcurrent_ t = Some c /\ direction_ t = d /\ cur pos c e.

Lemma cur_upd pos i p c e : i <> c -> cur pos c e -> cur (upd pos i p) c e.
Proof. intros Hne (li & k & Hi & Hp & He). exists li, k. unfold upd. by destruct (Nat.eqb_spec c i) as [->|]. Qed.

Lemma the_current_ok (t : merging) c : mcurrent_ t = Some c -> the_current t = (Ret c, t).
Proof. intros Hc. unfold the_current. by rewrite bind_get, Hc. Qed.

Lemma merging_key_ok t pos c e : kids t pos -> mcurrent_ t = Some c -> cur pos c e -> merging_key t = (Ret (fst e), t).
Proof.
  intros Hk Hc Hcur. unfold merging_key. erewrite bind_Ret by (by apply the_current_ok). by apply (child_key t pos).
Qed.

(** The children that are not current, after [Seek(key())]. *)
Lemma turn_seek t pos c i n e d : (i < List.length lists)%nat -> i <> c -> l !! n = Some e -> kids t pos -> turning c e d t pos ->
  exists t' p', on_child i (wrapper_Seek (fst e)) t = (Ret tt, t') /\ kids t' (upd pos i p') /\ turning c e d t' (upd pos i p') /\ forward_at n i p'.
Proof.
  intros Hi Hne He Hk (Hc & Hd & Hcur). destruct (lookup_lt_is_Some_2 lists i Hi) as [li Hli].
  destruct (on_child_move t pos i li (wrapper_Seek (fst e)) (seeks (fst e) li) Hk Hli) as (t1 & p1 & E1 & Hk1 & Hs & Hm1 & Hd1).
  { intros w Hw. by apply (wrapper_Seek_ok _ _ _ _ (list_source i li Hli) Hw), (cur_key_ok pos c). }
  exists t1, p1. split; [done|]. split; [done|]. split; [split; [by rewrite Hm1|split; [by rewrite Hd1|by apply cur_upd]]|].
  assert (Hp0 : seeks (fst e) l (Some n)).
  { split; [exists e; split; [done|]; rewrite order_refl; [lia|by eapply l_key_ok]|]. intros j e' Hj He'. by apply (source_lt l j n e' e (mg_source Hm)). }
  apply (seeks_forward (fst e) (Some n) i p1 (l_key_ok _ _ He) Hp0). intros li' Hli'. rewrite Hli in Hli'. by injection Hli' as <-.
Qed.

Lemma turn_forward_ok c i n e t pos : (i < List.length lists)%nat -> l !! n = Some e -> kids t pos -> turning c e kReverse t pos ->
  exists t' p', turn_forward c i t = (Ret tt, t') /\ kids t' (upd pos i p') /\ turning c e kReverse t' (upd pos i p') /\ (i <> c -> forward_at n i p').
Proof.
  intros Hi He Hk Ht. unfold turn_forward. destruct (Nat.eqb_spec i c) as [->|Hne].
  - exists t, (pos c). split; [done|]. assert (Hsame : forall j, upd pos c (pos c) j = pos j) by (intros j; unfold upd; by destruct (Nat.eqb_spec j c) as [->|]).
    split; [destruct Hk as [Hlen Hk]; split; [done|]; intros j lj w; rewrite Hsame; apply Hk|]. split; [|done].
    destruct Ht as (H1 & H2 & lc & k & H3 & H4 & H5). split; [done|]. split; [done|]. exists lc, k. by rewrite Hsame.
  - pose proof Ht as (Hc & Hd & Hcur). erewrite bind_Ret by (by apply (merging_key_ok t pos c e)).
    destruct (turn_seek t pos c i n e kReverse Hi Hne He Hk Ht) as (t1 & p1 & E1 & Hk1 & Ht1 & Hf). erewrite bind_Ret by exact E1.
    erewrite bind_Ret by (by apply (child_valid t1 (upd pos i p1))). exists t1, p1. split; [|done]. unfold upd at 1. rewrite Nat.eqb_refl.
    destruct p1 as [k|]; [|done]. pose proof (pos_cur t1 _ i Hk1 Hi) as Hpc. unfold upd at 1 in Hpc. rewrite Nat.eqb_refl in Hpc. destruct Hpc as [ei Hei].
    erewrite bind_Ret by (by apply (child_key t1 (upd pos i (Some k)) i ei)). pose proof Ht1 as (Hc1 & _ & Hcur1).
    erewrite bind_Ret by (by apply (merging_key_ok t1 (upd pos i (Some k)) c e)).
    rewrite (Compare_order _ _ (l_key_ok _ _ He) (cur_key_ok _ _ _ Hei)).
    destruct (Z.eqb_spec (order (fst e) (fst ei)) 0) as [E0|]; [exfalso|done].
    destruct (cur_elem _ _ _ Hei) as (li & Hli & Hin). destruct (cur_elem _ _ _ Hcur) as (lc & Hlc & Hinc).
    destruct (proj1 (list_elem_of_lookup _ _) (cur_in _ _ _ Hei)) as [m Hme].
    destruct (Nat.lt_trichotomy m n) as [Hlt|[->|Hlt]].
    + pose proof (source_lt l m n ei e (mg_source Hm) Hlt Hme He) as Ho. apply order_flip in Ho; [lia|by eapply l_key_ok..].
    + rewrite He in Hme. injection Hme as <-. by apply Hne, (lists_disjoint i c li lc e).
    + pose proof (source_lt l n m e ei (mg_source Hm) Hlt He Hme). lia.
Qed.

Lemma turn_reverse_ok c i n e t pos : (i < List.length lists)%nat -> l !! n = Some e -> kids t pos -> turning c e kForward t pos ->
  exists t' p', turn_reverse c i t = (Ret tt, t') /\ kids t' (upd pos i p') /\ turning c e kForward t' (upd pos i p') /\ (i <> c -> reverse_at n i p').
Proof.
  intros Hi He Hk Ht. unfold turn_reverse. destruct (Nat.eqb_spec i c) as [->|Hne].
  - exists t, (pos c). split; [done|]. assert (Hsame : forall j, upd pos c (pos c) j = pos j) by (intros j; unfold upd; by destruct (Nat.eqb_spec j c) as [->|]).
    split; [destruct Hk as [Hlen Hk]; split; [done|]; intros j lj w; rewrite Hsame; apply Hk|]. split; [|done].
    destruct Ht as (H1 & H2 & lc & k & H3 & H4 & H5). split; [done|]. split; [done|]. exists lc, k. by rewrite Hsame.
  - pose proof Ht as (Hc & Hd & Hcur). erewrite bind_Ret by (by apply (merging_key_ok t pos c e)).
    destruct (turn_seek t pos c i n e kForward Hi Hne He Hk Ht) as (t1 & p1 & E1 & Hk1 & Ht1 & Hf). erewrite bind_Ret by exact E1.
    erewrite bind_Ret by (by apply (child_valid t1 (upd pos i p1))). unfold upd at 1. rewrite Nat.eqb_refl.
    destruct (lookup_lt_is_Some_2 lists i Hi) as [li Hli]. destruct (Hf li Hli) as (k & Hcut & Hp1). destruct Ht1 as (Hc1 & Hd1 & Hcur1).
    assert (Hupd : upd pos i p1 i = p1) by (unfold upd; by rewrite Nat.eqb_refl).
    assert (Hmove : forall m, (forall w, wraps (stands := istands) li w p1 -> exists w', m w = (Ret tt, w') /\ wraps (stands := istands) li w' (prev_pos k)) ->
      exists t' p', on_child i m t1 = (Ret tt, t') /\ kids t' (upd pos i p') /\ turning c e kForward t' (upd pos i p') /\ (i <> c -> reverse_at n i p')).
    { intros m Hmv. destruct (on_child_move t1 (upd pos i p1) i li m (fun p => p = prev_pos k) Hk1 Hli) as (t2 & p2 & E2 & Hk2 & -> & Hm2 & Hd2).
      { intros w Hw. rewrite Hupd in Hw. destruct (Hmv w Hw) as (w' & E & Hw'). by exists w', (prev_pos k). }
      assert (Hsame : forall p j, upd (upd pos i p1) i p j = upd pos i p j) by (intros p j; unfold upd; by destruct (j =? i)%nat).
      exists t2, (prev_pos k). split; [done|]. split; [destruct Hk2 as [Hlen Hk2]; split; [done|]; intros j lj w; rewrite <- Hsame; apply Hk2|].
      split; [split; [by rewrite Hm2|split; [by rewrite Hd2|by apply cur_upd]]|]. intros _ li' Hli'. rewrite Hli in Hli'. injection Hli' as <-. by exists k. }
    pose proof (list_source i li Hli) as Hsrc. unfold at_pos in Hp1. destruct (Nat.ltb_spec k (List.length li)) as [Hlt|Hge]; subst p1; apply Hmove; intros w Hw.
    + by apply wrapper_Prev_ok.
    + destruct (wrapper_SeekToLast_ok _ _ _ Hsrc Hw) as (w' & E & Hw'). exists w'. split; [done|].
      destruct Hcut as [Hkl _]. assert (k = List.length li) as -> by lia. done.
Qed.

(** Turning all the children. *)
Lemma turn_all t pos c n e (turn : nat -> nat -> M merging unit) (d d' : Direction) (P : nat -> option nat -> Prop) :
  (forall i t pos, (i < List.length lists)%nat -> kids t pos -> turning c e d t pos ->
    exists t' p', turn c i t = (Ret tt, t') /\ kids t' (upd pos i p') /\ turning c e d t' (upd pos i p') /\ (i <> c -> P i p')) ->
  kids t pos -> turning c e d t pos -> l !! n = Some e ->
  (forall pos' lc k, lists !! c = Some lc -> pos' c = Some k -> lc !! k = Some e -> cutk n lc k -> cutk (S n) lc (S k) -> P c (pos' c)) ->
  exists t' pos', (for_each (seq 0 (n_ t)) (turn c) ;; set_direction d') t = (Ret tt, t') /\ kids t' pos' /\ turning c e d' t' pos' /\
    forall i, (i < List.length lists)%nat -> P i (pos' i).
Proof.
  intros Hturn Hk Ht He Hcur. destruct (for_each_ok (turn c) (fun i p => i <> c -> P i p) (turning c e d)) with (ids := seq 0 (n_ t)) (t := t) (pos := pos)
    as (t1 & pos1 & E1 & Hk1 & Ht1 & HP & _); [done|apply NoDup_seq| |done|done|].
  { intros i Hi. apply elem_of_seq in Hi. pose proof Hk as [Hlen _]. unfold n_ in Hi. lia. }
  erewrite bind_Ret by exact E1. destruct Ht1 as (H1 & H2 & H3). eexists _, pos1. split; [reflexivity|]. split; [exact Hk1|]. split; [done|].
  intros i Hi. destruct (Nat.eq_dec i c) as [->|Hne].
  - destruct (cur_elem _ _ _ H3) as (lc & Hlc & _). destruct (cutk_current n c pos1 e H3 He lc Hlc) as (k & Hp & Hlk & Hc1 & Hc2). by apply (Hcur pos1 lc k).
  - apply HP; [|done]. apply elem_of_seq. pose proof Hk as [Hlen _]. unfold n_. lia.
Qed.

Lemma merging_laws : IteratorLaws merging merging_stands.
Proof.
  split.
  - intros l0 t n (-> & pos & _ & c & e & _ & He & _). by eapply lookup_lt_Some.
  - intros l0 t p (-> & pos & _ & Hp). cbn. unfold merging_Valid. destruct p as [n|]; [by destruct Hp as (c & e & -> & _)|by rewrite Hp].
  - intros l0 t p (-> & pos & Hk & _). cbn. unfold merging_status. destruct Hk as [Hlen Hk].
    assert (Hall : forall w, w ∈ children_ t -> wrapper_status w = Some OK).
    { intros w Hw. apply list_elem_of_lookup_1 in Hw as [i Hi]. destruct (lookup_lt_is_Some_2 lists i) as [li Hli]; [apply lookup_lt_Some in Hi; lia|].
      by eapply wraps_status, Hk. }
    induction (children_ t) as [|w ws IH] in Hall |- *; [done|]. cbn [first_error]. rewrite Hall by (apply elem_of_cons; by left). cbn.
    apply IH. intros w' Hw'. apply Hall, elem_of_cons. by right.
  - intros l0 t n e (-> & pos & Hk & c & e' & Hc & He' & Hcur & _) He. rewrite He in He'. injection He' as <-. by apply (merging_key_ok t pos c e).
  - intros l0 t n e (-> & pos & Hk & c & e' & Hc & He' & Hcur & _) He. rewrite He in He'. injection He' as <-.
    unfold it_value, merging_ops, merging_value. erewrite bind_Ret by (by apply the_current_ok). by apply (child_value t pos).
  - intros l0 t p _ (-> & pos & Hk & _). unfold it_SeekToFirst, merging_ops, merging_SeekToFirst. rewrite bind_get.
    destruct (for_each_move t pos wrapper_SeekToFirst (forward_at 0) Hk) as (t1 & pos1 & E1 & Hk1 & Hf).
    { intros i li q w Hli Hw. destruct (wrapper_SeekToFirst_ok _ _ _ (list_source i li Hli) Hw) as (w' & E & Hw'). exists w', (first_pos li).
      split; [done|]. split; [done|by apply first_forward]. }
    erewrite bind_Ret by exact E1. destruct (smallest_stands t1 pos1 0 Hk1 Hf) as (c & E2 & Hs). erewrite bind_Ret by exact E2. eexists. split; [reflexivity|]. exact Hs.
  - intros l0 t p _ (-> & pos & Hk & _). unfold it_SeekToLast, merging_ops, merging_SeekToLast. rewrite bind_get.
    destruct (for_each_move t pos wrapper_SeekToLast (reverse_at (List.length l)) Hk) as (t1 & pos1 & E1 & Hk1 & Hf).
    { intros i li q w Hli Hw. destruct (wrapper_SeekToLast_ok _ _ _ (list_source i li Hli) Hw) as (w' & E & Hw'). exists w', (last_pos li).
      split; [done|]. split; [done|by apply last_reverse]. }
    erewrite bind_Ret by exact E1. destruct (largest_stands t1 pos1 (List.length l) Hk1 ltac:(lia) Hf) as (c & E2 & Hs). erewrite bind_Ret by exact E2.
    eexists. split; [reflexivity|]. exact Hs.
  - intros l0 t n _ (-> & pos & Hk & c & e & Hc & He & Hcur & Hd). unfold it_Next, merging_ops, merging_Next. rewrite bind_get. erewrite bind_Ret by (by apply the_current_ok).
    destruct (direction_ t) eqn:Ed.
    + rewrite bind_ret. by apply (advance t pos n c e).
    + destruct (turn_all t pos c n e turn_forward kReverse kForward (forward_at n)) as (t1 & pos1 & E1 & Hk1 & (H1 & H2 & H3) & Hf); [|done|done|done| |].
      * intros i t0 pos0 Hi Hk0 Ht0. by apply turn_forward_ok.
      * intros pos' lc k Hlc Hp Hlk Hcut _ li Hli. rewrite Hlc in Hli. injection Hli as <-. exists k. split; [done|]. rewrite Hp. unfold at_pos.
        apply lookup_lt_Some in Hlk. by destruct (Nat.ltb_spec k (List.length lc)); [|lia].
      * erewrite bind_Ret by exact E1. by apply (advance t1 pos1 n c e).
  - intros l0 t n _ (-> & pos & Hk & c & e & Hc & He & Hcur & Hd). unfold it_Prev, merging_ops, merging_Prev. rewrite bind_get. erewrite bind_Ret by (by apply the_current_ok).
    destruct (direction_ t) eqn:Ed.
    + destruct (turn_all t pos c n e turn_reverse kForward kReverse (fun i p => i <> c -> reverse_at n i p)) as (t1 & pos1 & E1 & Hk1 & (H1 & H2 & H3) & Hf); [|done|done|done|done|].
      * intros i t0 pos0 Hi Hk0 Ht0. destruct (turn_reverse_ok c i n e t0 pos0 Hi He Hk0 Ht0) as (t' & p' & H1 & H2 & H3 & H4). exists t', p'. auto.
      * erewrite bind_Ret by exact E1. apply (retreat t1 pos1 n c e); [done..|]. intros i Hi. destruct (Nat.eq_dec i c) as [->|Hne].
        -- intros li Hli. destruct (cutk_current n c pos1 e H3 He li Hli) as (k & Hp & _ & _ & Hcut). by exists (S k).
        -- intros li Hli. destruct (Hf i Hi Hne li Hli) as (k & Hcut & Hp). exists k. split; [|done].
           apply (proj1 (cutk_skip n li k i e c Hli Hne He (cur_elem _ _ _ H3))), Hcut.
    + rewrite bind_ret. by apply (retreat t pos n c e).
  - intros l0 t p target _ (-> & pos & Hk & _) Ht. unfold it_Seek, merging_ops, merging_Seek. rewrite bind_get. destruct (seeks_exists target l) as [p0 Hp0].
    destruct (for_each_move t pos (wrapper_Seek target) (forward_at (match p0 with Some n => n | None => List.length l end)) Hk) as (t1 & pos1 & E1 & Hk1 & Hf).
    { intros i li q w Hli Hw. destruct (wrapper_Seek_ok _ _ _ target (list_source i li Hli) Hw Ht) as (w' & p' & E & Hw' & Hs). exists w', p'.
      split; [done|]. split; [done|]. apply (seeks_forward target p0 i p' Ht Hp0). intros li' Hli'. rewrite Hli in Hli'. by injection Hli' as <-. }
    erewrite bind_Ret by exact E1. destruct (smallest_stands t1 pos1 _ Hk1 Hf) as (c & E2 & Hs). erewrite bind_Ret by exact E2.
    exists (mk_merging (children_ t1) c kForward), p0. split; [reflexivity|]. split; [|done]. destruct p0 as [n|].
    + destruct Hp0 as [(e & He & _) _]. apply lookup_lt_Some in He. by destruct (Nat.ltb_spec n (List.length l)); [|lia].
    + by rewrite Nat.ltb_irrefl in Hs.
Qed.
End Merging.

Section Merged.
Context {I : Type} {ops : IteratorOps I} {C : Comparator} {L : ComparatorLaws C}.
Context {istands : list entry -> I -> option nat -> Prop} {ilaws : IteratorLaws I istands}.

(** Sources with the same entries are the same. *)
Lemma source_unique a b : source a -> source b -> a ≡ₚ b -> a = b.
Proof.
  revert b. induction a as [|x a IH]; intros b Ha Hb Hp; [by apply Permutation_nil_l in Hp|].
  destruct b as [|y b]; [by apply Permutation_nil_r in Hp|].
  assert (Hxy : x = y).
  { assert (Hx : x ∈ y :: b) by (rewrite <- Hp; apply elem_of_cons; by left). assert (Hy : y ∈ x :: a) by (rewrite Hp; apply elem_of_cons; by left).
    apply elem_of_cons in Hx as [->|Hx]; [done|]. apply elem_of_cons in Hy as [->|Hy]; [done|].
    pose proof (source_elem (x :: a) x Ha ltac:(apply elem_of_cons; by left)) as Hkx. pose proof (source_elem (y :: b) y Hb ltac:(apply elem_of_cons; by left)) as Hky.
    change (x :: a) with ([x] ++ a) in Ha. change (y :: b) with ([y] ++ b) in Hb. apply source_app in Ha as (_ & _ & Ha). apply source_app in Hb as (_ & _ & Hb).
    specialize (Ha x y ltac:(by apply list_elem_of_singleton) Hy). specialize (Hb y x ltac:(by apply list_elem_of_singleton) Hx).
    pose proof (order_flip (fst x) (fst y) Hkx Hky). lia. }
  subst y. f_equal. apply Permutation_cons_inv in Hp. change (x :: a) with ([x] ++ a) in Ha. change (x :: b) with ([x] ++ b) in Hb.
  apply source_app in Ha as (_ & Ha & _). apply source_app in Hb as (_ & Hb & _). by apply IH.
Qed.

Context (lists : list (list entry)) (l : list entry) (Hm : merges lists l).

(** Where the result of [NewMergingIterator] stands. *)
Definition merged_stands (l0 : list entry) (t : MergedIterator I) (p : option nat) : Prop :=
  match t with
  | MergedEmpty it => l0 = [] /\ it = OK /\ p = None
  | MergedOne it => istands l0 it p
  | MergedMany it => merging_stands (istands := istands) lists l l0 it p
  end.

Lemma merged_laws : IteratorLaws (MergedIterator I) merged_stands.
Proof.
  pose proof (merging_laws (istands := istands) lists l Hm) as mlaws.
  assert (Hnone : forall (p : option nat) i, p = None -> p = Some i -> False) by congruence.
  split.
  - intros l0 [it|it|it] i Hs; cbn in Hs; [by destruct Hs as (_ & _ & ?)|exact (stands_bound _ it i Hs)..].
  - intros l0 [it|it|it] p Hs; cbn in Hs; [by destruct Hs as (_ & _ & ->)|exact (stands_Valid _ it p Hs)..].
  - intros l0 [it|it|it] p Hs; cbn in Hs; [by destruct Hs as (_ & -> & _)|exact (stands_status _ it p Hs)..].
  - intros l0 [it|it|it] i e Hs He; cbn in Hs; [by destruct Hs as (_ & _ & ?)|..]; unfold it_key, merged_ops, on_merged; by rewrite (stands_key _ it i e Hs He).
  - intros l0 [it|it|it] i e Hs He; cbn in Hs; [by destruct Hs as (_ & _ & ?)|..]; unfold it_value, merged_ops, on_merged; by rewrite (stands_value _ it i e Hs He).
  - intros l0 [it|it|it] p Hl Hs; cbn in Hs; [destruct Hs as (-> & -> & ->); by exists (MergedEmpty OK)|..];
      destruct (stands_First _ it p Hl Hs) as (it' & E & Hs'); unfold it_SeekToFirst, merged_ops, on_merged; rewrite E; by eexists.
  - intros l0 [it|it|it] p Hl Hs; cbn in Hs; [destruct Hs as (-> & -> & ->); by exists (MergedEmpty OK)|..];
      destruct (stands_Last _ it p Hl Hs) as (it' & E & Hs'); unfold it_SeekToLast, merged_ops, on_merged; rewrite E; by eexists.
  - intros l0 [it|it|it] i Hl Hs; cbn in Hs; [by destruct Hs as (_ & _ & ?)|..];
      destruct (stands_Next _ it i Hl Hs) as (it' & E & Hs'); unfold it_Next, merged_ops, on_merged; rewrite E; by eexists.
  - intros l0 [it|it|it] i Hl Hs; cbn in Hs; [by destruct Hs as (_ & _ & ?)|..];
      destruct (stands_Prev _ it i Hl Hs) as (it' & E & Hs'); unfold it_Prev, merged_ops, on_merged; rewrite E; by eexists.
  - intros l0 [it|it|it] p target Hl Hs Ht; cbn in Hs; [destruct Hs as (-> & -> & ->); by exists (MergedEmpty OK), None|..];
      destruct (stands_Seek _ it p target Hl Hs Ht) as (it' & p' & E & Hs' & Hp'); unfold it_Seek, merged_ops, on_merged; rewrite E; by eexists _, p'.
Qed.

(** The children stand anywhere. *)
Definition children_ok (children : list I) : Prop := Forall2 (fun li c => exists p, istands li c p) lists children.

Lemma wrap_children_ok ls children : Forall2 (fun li c => exists p, istands li c p) ls children ->
  exists ws, wrap_children children = Some ws /\ Forall2 (fun li w => exists p, wraps (stands := istands) li w p) ls ws.
Proof.
  induction 1 as [|li c ls children [p Hp] _ (ws & E & Hws)]; [by exists []|]. cbn [wrap_children].
  destruct (wrapper_Set_ok (stands := istands) li null_wrapper c p Hp) as (w & -> & Hw). rewrite E. cbn. exists (w :: ws). split; [done|]. constructor; [by exists p|done].
Qed.

Lemma wraps_positions ls ws : Forall2 (fun li w => exists p, wraps (stands := istands) li w p) ls ws ->
  exists pos : nat -> option nat, forall i li w, ls !! i = Some li -> ws !! i = Some w -> wraps (stands := istands) li w (pos i).
Proof.
  induction 1 as [|li w ls ws [p Hp] _ [pos Hpos]]; [by exists (fun _ => None)|].
  exists (fun i => match i with O => p | Datatypes.S j => pos j end). intros [|i] li' w' Hli Hw; cbn in *; [by injection Hli as <-; injection Hw as <-|by apply Hpos].
Qed.

Lemma NewMergingIterator_stands children : children_ok children -> exists it p, NewMergingIterator children = Some it /\ merged_stands l it p.
Proof.
  pose proof Hm as [Hl Hls Hperm]. unfold children_ok. intros Hc. destruct children as [|c [|c' children]].
  - apply Forall2_nil_inv_r in Hc. rewrite Hc in Hperm. apply Permutation_nil_r in Hperm. by exists (MergedEmpty OK), None.
  - apply Forall2_cons_inv_r in Hc as (li & rest & [p Hp] & Hc & Hl1). apply Forall2_nil_inv_r in Hc as ->. rewrite Hl1 in Hperm, Hls. cbn in Hperm. rewrite app_nil_r in Hperm.
    apply Forall_cons_1 in Hls as [Hli _]. exists (MergedOne c), p. split; [done|]. by rewrite (source_unique l li Hl Hli Hperm).
  - destruct (wrap_children_ok lists (c :: c' :: children) Hc) as (ws & E & Hws). destruct (wraps_positions lists ws Hws) as [pos Hpos].
    exists (MergedMany (mk_merging ws None kForward)), None. unfold NewMergingIterator, new_MergingIterator. rewrite E. split; [done|]. split; [done|].
    exists pos. split; [|done]. split; [cbn; symmetry; by eapply Forall2_length|exact Hpos].
Qed.
End Merged.


(** Three blocks, merged. *)
Definition merged_lists : list (list entry) :=
  [[(literal "b", literal "1"); (literal "e", literal "2")]; []; [(literal "a", literal "3"); (literal "c", literal "4"); (literal "d", literal "5")]].
Definition merged_entries : list entry :=
  [(literal "a", literal "3"); (literal "b", literal "1"); (literal "c", literal "4"); (literal "d", literal "5"); (literal "e", literal "2")].

Definition merged_children : option (list BlockIterator) := mapM (fun l => b ← new_Block (block_contents 2 l); NewIterator b) merged_lists.

#[local] Existing Instance BytewiseComparator.

