(* ===== verification/LdbFormat.v ===== *)
(** [include/leveldb/options.h], [port/port_stdcxx.h], [table/format.h]/[.cc]: options,
    block handles, the footer of a table and the reading of a block, with the class
    of files of [include/leveldb/env.h] that it uses. *)

From Stdlib Require Import ZArith Lia List String Bool.
From stdpp Require Import base list.
From S2P Require Import Prelude Base128 LdbBase LdbCoding LdbCrc32c LdbCrcProps LdbFilter.

(** ** Options *)

Inductive CompressionType := kNoCompression | kSnappyCompression.
Definition CompressionType_value (t : CompressionType) : Z := match t with kNoCompression => 0x0 | kSnappyCompression => 0x1 end.

(** The comparator is a class of its own; the environment and the logger are not part
    of the record. [block_cache] says that it is not null. *)
Record Options := mk_options {
  create_if_missing : bool;
  error_if_exists : bool;
  paranoid_checks : bool;
  write_buffer_size : Z;
  max_open_files : Z;
  block_cache : bool;
  block_size : Z;
  block_restart_interval : Z;
  max_file_size : Z;
  compression : CompressionType;
  reuse_logs : bool;
  filter_policy : option FilterPolicy
}.

Definition default_Options : Options :=
  mk_options false false false (4 * 1024 * 1024) 1000 false (4 * 1024) 16 (2 * 1024 * 1024) kSnappyCompression false None.

Record ReadOptions := mk_read_options { verify_checksums : bool; fill_cache : bool }.
Definition default_ReadOptions : ReadOptions := mk_read_options false true.

(** ** Snappy, which is not built in: [HAVE_SNAPPY] is not defined *)

Definition Snappy_Compress (input : Slice) : option (list Z) := None.
Definition Snappy_GetUncompressedLength (input : Slice) : option Z := None.
Definition Snappy_Uncompress (input : Slice) : option (list Z) := None.

(** ** [BlockHandle] *)

Record BlockHandle := mk_handle { bh_offset : Z; bh_size : Z }.
Definition new_BlockHandle : BlockHandle := mk_handle (u64 (Z.lnot 0)) (u64 (Z.lnot 0)).
Definition kMaxEncodedLength : Z := 10 + 10.

(** Asserted: both members are set. *)
Definition handle_EncodeTo (h : BlockHandle) (dst : list Z) : list Z :=
  PutVarint64 (PutVarint64 dst (bh_offset h)) (bh_size h).

(** The handle and the input afterwards; the offset is set before the size is read. *)
Definition handle_DecodeFrom (h : BlockHandle) (input : Slice) : Status * BlockHandle * Slice :=
  let bad h input := (Corruption (literal "bad block handle") [], h, input) in
  match GetVarint64 input with
  | Some (offset, input) =>
      match GetVarint64 input with
      | Some (size, input) => (OK, mk_handle offset size, input)
      | None => bad (mk_handle offset (bh_size h)) input
      end
  | None => bad h input
  end.

(** ** [Footer] *)

Record Footer := mk_footer { metaindex_handle_ : BlockHandle; index_handle_ : BlockHandle }.
Definition new_Footer : Footer := mk_footer new_BlockHandle new_BlockHandle.
Definition kEncodedLength : Z := 2 * kMaxEncodedLength + 8.
Definition kTableMagicNumber : Z := 0xdb4775248b80fb57.
Definition kBlockTrailerSize : Z := 5.

(** [std::string::resize] *)
Definition resize (n : Z) (s : list Z) : list Z := take (Z.to_nat n) s ++ repeat 0 (Z.to_nat (n - size s)).

(** Asserted: [dst] was empty. *)
Definition footer_EncodeTo (f : Footer) (dst : list Z) : list Z :=
  let dst := handle_EncodeTo (metaindex_handle_ f) dst in
  let dst := handle_EncodeTo (index_handle_ f) dst in
  let dst := resize (2 * kMaxEncodedLength) dst in
  let dst := PutFixed32 dst (u32 (Z.land kTableMagicNumber 0xffffffff)) in
  PutFixed32 dst (u32 (Z.shiftr kTableMagicNumber 32)).

(** [None] reads behind the input. *)
Definition footer_DecodeFrom (f : Footer) (input : Slice) : option (Status * Footer * Slice) :=
  let magic_ptr := drop (Z.to_nat (kEncodedLength - 8)) input in
  magic_lo ← DecodeFixed32 magic_ptr;
  magic_hi ← DecodeFixed32 (drop 4 magic_ptr);
  let magic := Z.lor (u64 (Z.shiftl magic_hi 32)) magic_lo in
  if negb (magic =? kTableMagicNumber) then Some (Corruption (literal "not an sstable (bad magic number)") [], f, input)
  else
    let '(result, metaindex, input') := handle_DecodeFrom (metaindex_handle_ f) input in
    if ok result then
      let '(result, index, input') := handle_DecodeFrom (index_handle_ f) input' in
      Some (result, mk_footer metaindex index, if ok result then drop 8 magic_ptr else input')
    else Some (result, mk_footer metaindex (index_handle_ f), input').

(** ** [RandomAccessFile] *)

(** The status, the bytes, and whether they are in the caller's scratch space. *)
Class RandomAccessFile (F : Type) := { ra_Read : F -> Z -> Z -> Status * Slice * bool }.

(** What [env.h] promises when there is no I/O error. *)
Class RandomAccessFileLaws {F} (R : RandomAccessFile F) := {
  ra_contents : F -> list Z;
  ra_Read_contents f offset n : 0 <= offset -> 0 <= n ->
    exists scratch, ra_Read f offset n = (OK, take (Z.to_nat n) (drop (Z.to_nat offset) (ra_contents f)), scratch)
}.

(** ** [ReadBlock] *)

Record BlockContents := mk_contents { bc_data : Slice; cachable : bool; heap_allocated : bool }.

Section ReadBlock.
Context {F : Type} {R : RandomAccessFile F}.

(** The status and the contents; [None] reads outside of what was read. *)
Definition ReadBlock (file : F) (options : ReadOptions) (handle : BlockHandle) : option (Status * BlockContents) :=
  let failed s := Some (s, mk_contents [] false false) in
  let n := bh_size handle in
  let '(s, contents, in_buf) := ra_Read file (bh_offset handle) (u64 (n + kBlockTrailerSize)) in
  if negb (ok s) then failed s
  else if negb (size contents =? u64 (n + kBlockTrailerSize)) then failed (Corruption (literal "truncated block read") [])
  else
    let data := contents in
    valid ← (if verify_checksums options then
               stored ← DecodeFixed32 (drop (Z.to_nat (n + 1)) data);
               if size data <? n + 1 then None
               else Some (Value (take (Z.to_nat (n + 1)) data) =? Unmask stored)
             else Some true);
    if negb valid then failed (Corruption (literal "block checksum mismatch") [])
    else
      type ← data !! Z.to_nat n;
      if s8 type =? CompressionType_value kNoCompression then
        Some (OK, mk_contents (take (Z.to_nat n) data) (in_buf : bool) in_buf)
      else if s8 type =? CompressionType_value kSnappyCompression then
        match Snappy_GetUncompressedLength (take (Z.to_nat n) data) with
        | None => failed (Corruption (literal "corrupted compressed block contents") [])
        | Some _ =>
            match Snappy_Uncompress (take (Z.to_nat n) data) with
            | None => failed (Corruption (literal "corrupted compressed block contents") [])
            | Some ubuf => Some (OK, mk_contents ubuf true true)
            end
        end
      else failed (Corruption (literal "bad block type") []).
End ReadBlock.

(** ** Round trips *)

Definition handle_ok (h : BlockHandle) : Prop := 0 <= bh_offset h < 2 ^ 64 /\ 0 <= bh_size h < 2 ^ 64.
Definition handle_bytes (h : BlockHandle) : list Z := varint_bytes (bh_offset h) ++ varint_bytes (bh_size h).

Lemma handle_EncodeTo_app h dst : handle_ok h -> handle_EncodeTo h dst = dst ++ handle_bytes h.
Proof. intros [Ho Hs]. unfold handle_EncodeTo, handle_bytes. rewrite !PutVarint64_app by done. by rewrite app_assoc. Qed.

Lemma handle_DecodeFrom_of h0 h rest : handle_ok h -> handle_DecodeFrom h0 (handle_bytes h ++ rest) = (OK, h, rest).
Proof.
  intros [Ho Hs]. unfold handle_DecodeFrom, handle_bytes. rewrite <- app_assoc, GetVarint64_of by done.
  rewrite GetVarint64_of by done. by destruct h.
Qed.

Lemma size_handle_bytes h : handle_ok h -> 0 <= size (handle_bytes h) <= kMaxEncodedLength.
Proof.
  intros [Ho Hs]. unfold handle_bytes. rewrite size_app. unfold size.
  pose proof (varint_bytes_spec _ Ho) as (_ & _ & H1). pose proof (varint_bytes_spec _ Hs) as (_ & _ & H2). unfold kMaxEncodedLength. lia.
Qed.

Definition footer_bytes (f : Footer) : list Z := footer_EncodeTo f [].

Lemma footer_bytes_split f : handle_ok (metaindex_handle_ f) -> handle_ok (index_handle_ f) ->
  exists padding, footer_bytes f = handle_bytes (metaindex_handle_ f) ++ handle_bytes (index_handle_ f) ++ padding ++
    EncodeFixed32 (u32 (Z.land kTableMagicNumber 0xffffffff)) ++ EncodeFixed32 (u32 (Z.shiftr kTableMagicNumber 32)) /\
    size (handle_bytes (metaindex_handle_ f)) + size (handle_bytes (index_handle_ f)) + size padding = 2 * kMaxEncodedLength.
Proof.
  intros Hm Hi. pose proof (size_handle_bytes _ Hm). pose proof (size_handle_bytes _ Hi). unfold footer_bytes, footer_EncodeTo, PutFixed32.
  rewrite !handle_EncodeTo_app by done. cbn [app]. unfold resize.
  set (h := handle_bytes (metaindex_handle_ f) ++ handle_bytes (index_handle_ f)).
  assert (Hh : size h = size (handle_bytes (metaindex_handle_ f)) + size (handle_bytes (index_handle_ f))) by (unfold h; by rewrite size_app).
  rewrite (take_ge h) by (unfold size in *; lia). eexists (repeat 0 (Z.to_nat (2 * kMaxEncodedLength - size h))). split; [unfold h; by rewrite <- !app_assoc|].
  unfold size at 3. rewrite repeat_length. lia.
Qed.

Lemma footer_DecodeFrom_of f0 f : handle_ok (metaindex_handle_ f) -> handle_ok (index_handle_ f) ->
  size (footer_bytes f) = kEncodedLength /\ footer_DecodeFrom f0 (footer_bytes f) = Some (OK, f, []).
Proof.
  intros Hm Hi. destruct (footer_bytes_split f Hm Hi) as (padding & -> & Hsz).
  set (lo := EncodeFixed32 (u32 (Z.land kTableMagicNumber 0xffffffff))). set (hi := EncodeFixed32 (u32 (Z.shiftr kTableMagicNumber 32))).
  assert (Hlo : size lo = 4) by apply size_EncodeFixed32. assert (Hhi : size hi = 4) by apply size_EncodeFixed32.
  split; [rewrite !size_app; unfold kEncodedLength; lia|]. unfold footer_DecodeFrom.
  assert (Hd : drop (Z.to_nat (kEncodedLength - 8)) (handle_bytes (metaindex_handle_ f) ++ handle_bytes (index_handle_ f) ++ padding ++ lo ++ hi) = lo ++ hi).
  { replace (kEncodedLength - 8) with (size (handle_bytes (metaindex_handle_ f) ++ handle_bytes (index_handle_ f) ++ padding)) by (rewrite !size_app; unfold kEncodedLength; lia).
    rewrite !app_assoc. rewrite <- (app_assoc _ lo hi). apply drop_size_app. }
  assert (Hdlo : DecodeFixed32 (lo ++ hi) = Some (u32 (Z.land kTableMagicNumber 0xffffffff))) by (apply DecodeFixed32_of; vm_compute; split; congruence).
  assert (Hdhi : DecodeFixed32 hi = Some (u32 (Z.shiftr kTableMagicNumber 32))).
  { rewrite <- (app_nil_r hi). apply DecodeFixed32_of. vm_compute. split; congruence. }
  rewrite Hd, Hdlo. cbn [mbind option_bind].
  replace (drop 4 (lo ++ hi)) with hi by (replace 4%nat with (Z.to_nat (size lo)) by (by rewrite Hlo); by rewrite drop_size_app).
  rewrite Hdhi. cbn [mbind option_bind].
  change (Z.lor (u64 (Z.shiftl (u32 (Z.shiftr kTableMagicNumber 32)) 32)) (u32 (Z.land kTableMagicNumber 0xffffffff)) =? kTableMagicNumber) with true. cbn [negb].
  rewrite handle_DecodeFrom_of by done. cbv iota beta. rewrite handle_DecodeFrom_of by done. cbv iota beta.
  assert (Hrest : drop 8 (lo ++ hi) = []) by (apply drop_ge; rewrite length_app; unfold size in Hlo, Hhi; lia).
  rewrite Hrest. by destruct f.
Qed.

(** What [WriteRawBlock] stores for a block that is not compressed. *)
Definition stored_block (c : Slice) : list Z :=
  c ++ [CompressionType_value kNoCompression] ++ EncodeFixed32 (Mask (Extend (Value c) [CompressionType_value kNoCompression])).

Lemma size_stored_block c : size (stored_block c) = size c + kBlockTrailerSize.
Proof. unfold stored_block. rewrite !size_app, size_EncodeFixed32. change (size [CompressionType_value kNoCompression]) with 1. unfold kBlockTrailerSize. lia. Qed.

Section ReadStored.
Context {F : Type} {R : RandomAccessFile F} {RL : RandomAccessFileLaws R}.

Lemma ReadBlock_of file options h before c rest :
  ra_contents file = before ++ stored_block c ++ rest -> bh_offset h = size before -> bh_size h = size c ->
  Forall byte c -> size c + 5 < 2 ^ 64 ->
  exists own, ReadBlock file options h = Some (OK, mk_contents c own own).
Proof.
  intros Hc Ho Hs Hb Hsz. pose proof (size_nonneg before). pose proof (size_nonneg c). unfold ReadBlock. rewrite Ho, Hs. unfold kBlockTrailerSize. rewrite uwrap_small by lia.
  destruct (ra_Read_contents file (size before) (size c + 5) ltac:(lia) ltac:(lia)) as [own ->].
  set (trailer := [CompressionType_value kNoCompression] ++ EncodeFixed32 (Mask (Extend (Value c) [CompressionType_value kNoCompression]))).
  assert (Hst : stored_block c = c ++ trailer) by done.
  assert (Htr : size trailer = 5) by (unfold trailer; rewrite size_app, size_EncodeFixed32; done).
  assert (Hdata : take (Z.to_nat (size c + 5)) (drop (Z.to_nat (size before)) (ra_contents file)) = c ++ trailer).
  { rewrite Hc, drop_size_app, Hst. rewrite <- Htr, <- size_app. apply take_size_app. }
  rewrite Hdata. cbn [ok negb]. rewrite size_app, Htr, Z.eqb_refl. cbn [negb].
  exists own.
  assert (Hvalid : (if verify_checksums options then
      stored ← DecodeFixed32 (drop (Z.to_nat (size c + 1)) (c ++ trailer));
      if size c + 5 <? size c + 1 then None else Some (Value (take (Z.to_nat (size c + 1)) (c ++ trailer)) =? Unmask stored)
    else Some true) = Some true).
  { destruct (verify_checksums options); [|done]. unfold trailer. rewrite !app_assoc.
    replace (size c + 1) with (size (c ++ [CompressionType_value kNoCompression])) by (rewrite size_app; done).
    rewrite drop_size_app, take_size_app, <- (app_nil_r (EncodeFixed32 _)), DecodeFixed32_of by apply Mask_word32. cbn [mbind option_bind].
    rewrite size_app. change (size [CompressionType_value kNoCompression]) with 1. destruct (Z.ltb_spec (size c + 5) (size c + 1)); [lia|].
    assert (Hw : word32 0) by done. assert (Hty : Forall byte [CompressionType_value kNoCompression]) by (repeat constructor; unfold byte; cbn; lia).
    pose proof (Extend_word32 0 c Hw Hb) as Hw1. fold (Value c) in Hw1. rewrite Unmask_Mask by (by apply Extend_word32).
    unfold Value. rewrite Extend_app by done. by rewrite Z.eqb_refl. }
  rewrite Hvalid. cbn [mbind option_bind negb].
  assert (Htype : (c ++ trailer) !! Z.to_nat (size c) = Some (CompressionType_value kNoCompression)).
  { unfold size. rewrite Nat2Z.id, lookup_app_r by lia. by rewrite Nat.sub_diag. }
  rewrite Htype. cbn [mbind option_bind]. change (s8 (CompressionType_value kNoCompression) =? CompressionType_value kNoCompression) with true. cbv iota.
  by rewrite take_size_app.
Qed.

(** The size of a handle that was read from a file is not checked before the length of
    the trailer is added: it wraps around, nothing is read, and the type byte is looked
    for outside of the buffer. *)
Lemma ReadBlock_wraps file offset : 0 <= offset ->
  ReadBlock file default_ReadOptions (mk_handle offset (2 ^ 64 - 5)) = None.
Proof.
  intros Ho. unfold ReadBlock. cbn [bh_size bh_offset]. change (u64 (2 ^ 64 - 5 + kBlockTrailerSize)) with 0.
  destruct (ra_Read_contents file offset 0 Ho ltac:(lia)) as [own ->]. change (Z.to_nat 0) with 0%nat. rewrite take_0. cbn [ok negb verify_checksums default_ReadOptions mbind option_bind].
  by rewrite lookup_nil.
Qed.
End ReadStored.
