(* ===== verification/LdbLogRead.v ===== *)
(** What [log::Writer] writes: the fragments of a record in the blocks of the log,
    as a relation that the reader is proved against.

    [log::Reader] on what the writer leaves: it finds the fragments of each record,
    and the end of a log that is cut short is an end, not a corruption. *)

From Stdlib Require Import ZArith Lia List String Bool.
From stdpp Require Import base list.
From S2P Require Import Prelude LdbBase LdbCoding LdbCrc32c LdbCrcProps LdbLog.

(** ** The format *)

(** A physical record. *)
Definition header_bytes (t : RecordType) (payload : Slice) : list Z :=
  EncodeFixed32 (Mask (Value (RecordType_value t :: payload))) ++
  [size payload mod 256; size payload / 256; RecordType_value t].
Definition record_bytes (t : RecordType) (payload : Slice) : list Z := header_bytes t payload ++ payload.

(** With [bl] bytes left in a block: what is filled with zeros, and the room behind
    it. *)
Definition pad (bl : Z) : list Z := if bl <? 7 then repeat 0 (Z.to_nat bl) else [].
Definition room (bl : Z) : Z := if bl <? 7 then kBlockSize else bl.

Definition fragment_type (begin end_ : bool) : RecordType :=
  if begin && end_ then kFullType else if begin then kFirstType else if end_ then kLastType else kMiddleType.

(** [logged bl begin data bytes bl']: with [bl] bytes left in the block, the rest
    [data] of a record is written as [bytes], and [bl'] bytes are left. *)
Inductive logged : Z -> bool -> Slice -> list Z -> Z -> Prop :=
  | logged_last bl begin data :
      size data <= room bl - 7 ->
      logged bl begin data (pad bl ++ record_bytes (fragment_type begin true) data) (room bl - 7 - size data)
  | logged_more bl begin data bytes bl' :
      room bl - 7 < size data ->
      logged 0 false (drop (Z.to_nat (room bl - 7)) data) bytes bl' ->
      logged bl begin data
        (pad bl ++ record_bytes (fragment_type begin false) (take (Z.to_nat (room bl - 7)) data) ++ bytes) bl'.

Lemma room_range bl : 0 <= bl <= kBlockSize -> 7 <= room bl <= kBlockSize.
Proof. unfold room, kBlockSize. destruct (Z.ltb_spec bl 7); lia. Qed.

Lemma size_pad bl : 0 <= bl -> size (pad bl) = if bl <? 7 then bl else 0.
Proof. intros Hbl. unfold pad. destruct (bl <? 7); [|done]. unfold size. rewrite repeat_length. lia. Qed.

Lemma size_header t p : size (header_bytes t p) = 7.
Proof. done. Qed.

Lemma size_record t p : size (record_bytes t p) = 7 + size p.
Proof. unfold record_bytes. by rewrite size_app, size_header. Qed.

Lemma logged_left bl begin data bytes bl' : logged bl begin data bytes bl' -> 0 <= bl <= kBlockSize -> 0 <= bl' <= kBlockSize.
Proof.
  induction 1 as [bl begin data Hs|bl begin data bytes bl' Hs _ IH]; intros Hbl.
  - pose proof (room_range bl Hbl). pose proof (size_nonneg data). lia.
  - apply IH. unfold kBlockSize. lia.
Qed.

(** A block that is used up is a fresh one. *)
Lemma logged_same bl1 bl2 begin data bytes bl' :
  pad bl1 = pad bl2 -> room bl1 = room bl2 -> logged bl1 begin data bytes bl' -> logged bl2 begin data bytes bl'.
Proof.
  intros Hp Hr H. destruct H as [bl b d Hs|bl b d bs bl'' Hs Hrest]; rewrite Hr in *; rewrite Hp.
  - by constructor.
  - by constructor.
Qed.

Lemma logged_fresh begin data bytes bl' : logged kBlockSize begin data bytes bl' <-> logged 0 begin data bytes bl'.
Proof. split; by apply logged_same. Qed.

(** ** The writer *)

Section Writer.
Context {F : Type} {W : WritableFile F} {L : WritableFileLaws W}.

(** The writer [w] with the bytes [c] in its file and [bl] bytes left in the block. *)
Definition writing (w : Writer F) (c : list Z) (bl : Z) : Prop :=
  contents (dest_ w) = c /\ block_offset_ w = kBlockSize - bl /\ 0 <= bl <= kBlockSize /\ type_crc_ w = InitTypeCrc.

Lemma writing_new f : contents f = [] -> writing (new_Writer f) [] kBlockSize.
Proof. intros Hf. unfold writing, kBlockSize. cbn. repeat split; done || lia. Qed.

Lemma type_crc t : nth (Z.to_nat (RecordType_value t)) InitTypeCrc 0 = Value [RecordType_value t].
Proof. by destruct t. Qed.

Lemma type_byte t : byte (RecordType_value t).
Proof. unfold byte. destruct t; cbn; lia. Qed.

Lemma word32_0 : word32 0.
Proof. unfold word32. lia. Qed.

Lemma Value_type t p : Forall byte p -> Extend (Value [RecordType_value t]) p = Value (RecordType_value t :: p).
Proof.
  intros Hp. unfold Value. change (RecordType_value t :: p) with ([RecordType_value t] ++ p).
  rewrite Extend_app; [done|exact word32_0|repeat constructor; apply type_byte|done].
Qed.

Lemma dest_Append_ok data w : exists f, dest_Append data w = (Ret OK, mk_writer f (block_offset_ w) (type_crc_ w)) /\
  contents f = contents (dest_ w) ++ data.
Proof.
  unfold dest_Append. destruct (Append_contents data (dest_ w)) as [Ho Hc].
  destruct (file_Append data (dest_ w)) as [s f]. cbn in Ho, Hc. subst s. by exists f.
Qed.

Lemma dest_Flush_ok w : exists f, dest_Flush w = (Ret OK, mk_writer f (block_offset_ w) (type_crc_ w)) /\
  contents f = contents (dest_ w).
Proof.
  unfold dest_Flush. destruct (Flush_contents (dest_ w)) as [Ho Hc].
  destruct (file_Flush (dest_ w)) as [s f]. cbn in Ho, Hc. subst s. by exists f.
Qed.

Lemma Emit_ok t p w c bl :
  writing w c bl -> Forall byte p -> size p <= bl - 7 ->
  exists w', EmitPhysicalRecord t p w = (Ret OK, w') /\ writing w' (c ++ record_bytes t p) (bl - 7 - size p).
Proof.
  intros (Hc & Ho & Hbl & Ht) Hp Hs. pose proof (size_nonneg p). unfold EmitPhysicalRecord. rewrite bind_get. cbv zeta.
  rewrite Ht, type_crc, Value_type by done.
  assert (Hhdr : EncodeFixed32 (Mask (Value (RecordType_value t :: p))) ++
    [u8 (Z.land (size p) 255); u8 (Z.shiftr (size p) 8); u8 (RecordType_value t)] = header_bytes t p).
  { unfold header_bytes. f_equal. change 255 with (Z.ones 8). rewrite Z.land_ones, Z.shiftr_div_pow2 by lia. change (2 ^ 8) with 256.
    unfold kBlockSize in *. rewrite !uwrap_small; [done|apply type_byte|zlia|zlia]. }
  rewrite Hhdr. destruct (dest_Append_ok (header_bytes t p) w) as (f1 & E1 & C1).
  rewrite (bind_Ret _ _ _ _ _ E1). cbn [ok OK].
  destruct (dest_Append_ok p (mk_writer f1 (block_offset_ w) (type_crc_ w))) as (f2 & E2 & C2).
  destruct (dest_Flush_ok (mk_writer f2 (block_offset_ w) (type_crc_ w))) as (f3 & E3 & C3).
  rewrite bind_assoc, (bind_Ret _ _ _ _ _ E2). cbn [ok OK block_offset_ type_crc_] in *.
  rewrite (bind_Ret _ _ _ _ _ E3), bind_modify. eexists. split; [done|].
  unfold writing, set_block_offset. cbn [dest_ block_offset_ type_crc_] in *. rewrite C3, C2, C1, Hc, Ho, <- app_assoc.
  unfold kHeaderSize. repeat split; done || lia.
Qed.

(** The end of a block is filled. *)
Lemma switch_block w c bl :
  writing w c bl ->
  exists w', (if kBlockSize - block_offset_ w <? kHeaderSize then
       (if 0 <? kBlockSize - block_offset_ w then dest_Append (repeat 0 (Z.to_nat (kBlockSize - block_offset_ w))) ;; ret tt else ret tt) ;;
       modify (set_block_offset 0)
     else ret tt) w = (Ret tt, w') /\ writing w' (c ++ pad bl) (room bl).
Proof.
  intros (Hc & Ho & Hbl & Ht). rewrite Ho. replace (kBlockSize - (kBlockSize - bl)) with bl by lia.
  unfold pad, room. change kHeaderSize with 7. destruct (Z.ltb_spec bl 7) as [Hlt|Hge].
  - destruct (Z.ltb_spec 0 bl) as [H0|H0].
    + destruct (dest_Append_ok (repeat 0 (Z.to_nat bl)) w) as (f & E & C). rewrite bind_assoc, (bind_Ret _ _ _ _ _ E), bind_ret.
      eexists. split; [done|]. unfold writing, kBlockSize. cbn. rewrite C, Hc. repeat split; done || lia.
    + replace bl with 0 by lia. cbn [Z.to_nat repeat]. rewrite bind_ret, app_nil_r. eexists. split; [done|].
      unfold writing, kBlockSize. cbn. repeat split; done || lia.
  - exists w. split; [done|]. rewrite app_nil_r. done.
Qed.

Lemma add_fragment_step data begin w c bl :
  writing w c bl -> Forall byte data ->
  let avail := room bl - 7 in
  exists w', add_fragment (data, begin) w =
      (Ret (if avail <? size data then inl (drop (Z.to_nat avail) data, false) else inr OK), w') /\
    if avail <? size data
    then writing w' (c ++ pad bl ++ record_bytes (fragment_type begin false) (take (Z.to_nat avail) data)) 0
    else writing w' (c ++ pad bl ++ record_bytes (fragment_type begin true) data) (room bl - 7 - size data).
Proof.
  intros Hw Hd. cbv zeta. unfold add_fragment. cbv zeta. rewrite bind_get.
  destruct (switch_block w c bl Hw) as (w1 & E1 & Hw1). rewrite (bind_Ret _ _ _ _ _ E1), bind_get.
  assert (Hr : 7 <= room bl <= kBlockSize) by (apply room_range; apply Hw).
  assert (Ho : kBlockSize - block_offset_ w1 - kHeaderSize = room bl - 7).
  { destruct Hw1 as (_ & -> & _). change kHeaderSize with 7. lia. }
  rewrite Ho. pose proof (size_nonneg data) as Hn.
  assert (Hty : forall b e, (if b && e then kFullType else if b then kFirstType else if e then kLastType else kMiddleType) = fragment_type b e) by done.
  rewrite Hty. destruct (Z.ltb_spec (size data) (room bl - 7)) as [Hlt|Hge].
  - destruct (Z.ltb_spec (room bl - 7) (size data)); [lia|]. rewrite Z.eqb_refl. rewrite take_size, drop_size.
    destruct (Emit_ok (fragment_type begin true) data w1 _ _ Hw1 Hd ltac:(lia)) as (w2 & E2 & Hw2).
    rewrite (bind_Ret _ _ _ _ _ E2). exists w2. rewrite <- app_assoc in Hw2. split; [|done].
    unfold ret. cbn [ok OK andb]. by destruct (Z.ltb_spec 0 (size data - size data)); [lia|].
  - destruct (Z.ltb_spec (room bl - 7) (size data)) as [Hmore|Hall].
    + destruct (Z.eqb_spec (size data) (room bl - 7)); [lia|].
      pose proof (size_take (room bl - 7) data ltac:(lia)) as Hst.
      destruct (Emit_ok (fragment_type begin false) (take (Z.to_nat (room bl - 7)) data) w1 _ _ Hw1) as (w2 & E2 & Hw2);
        [by apply Forall_take|lia|].
      rewrite (bind_Ret _ _ _ _ _ E2). exists w2. rewrite <- app_assoc, Hst in Hw2. split.
      * unfold ret. cbn [ok OK andb]. by destruct (Z.ltb_spec 0 (size data - (room bl - 7))); [|lia].
      * by replace (room bl - 7 - (room bl - 7)) with 0 in Hw2 by lia.
    + assert (E : size data = room bl - 7) by lia. rewrite <- E, Z.eqb_refl. rewrite take_size, drop_size.
      destruct (Emit_ok (fragment_type begin true) data w1 _ _ Hw1 Hd ltac:(lia)) as (w2 & E2 & Hw2).
      rewrite (bind_Ret _ _ _ _ _ E2). exists w2. rewrite <- app_assoc in Hw2. split; [|by rewrite E in *].
      unfold ret. cbn [ok OK andb]. by destruct (Z.ltb_spec 0 (size data - size data)); [lia|].
Qed.

Lemma add_loop n : forall data begin w c bl,
  (List.length data < n)%nat -> writing w c bl -> Forall byte data ->
  exists w' bytes bl', logged bl begin data bytes bl' /\ writing w' (c ++ bytes) bl' /\
    iterate (S n) add_fragment (data, begin) w = (Ret OK, w').
Proof.
  (* The first fragment may be empty, the others are not. *)
  assert (Hfresh : forall n data begin w c bl,
    (List.length data <= n)%nat -> room bl = kBlockSize -> writing w c bl -> Forall byte data ->
    exists w' bytes bl', logged bl begin data bytes bl' /\ writing w' (c ++ bytes) bl' /\
      iterate (S n) add_fragment (data, begin) w = (Ret OK, w')).
  { clear. induction n as [|n IH]; intros data begin w c bl Hn Hroom Hw Hd;
      destruct (add_fragment_step data begin w c bl Hw Hd) as (w1 & E & Hw1); cbn [iterate];
      rewrite (bind_Ret _ _ _ _ _ E); clear E; destruct (Z.ltb_spec (room bl - 7) (size data)) as [Hmore|Hall].
    - exfalso. unfold size, kBlockSize in *. lia.
    - eexists w1, _, _. split; [by apply logged_last|]. done.
    - destruct (IH (drop (Z.to_nat (room bl - 7)) data) false w1 (c ++ pad bl ++ record_bytes (fragment_type begin false) (take (Z.to_nat (room bl - 7)) data)) 0) as (w2 & bytes & bl' & Hl & Hw2 & E2);
        [rewrite length_drop; unfold kBlockSize, size in *; lia|done|exact Hw1|by apply Forall_drop|].
      exists w2, (pad bl ++ record_bytes (fragment_type begin false) (take (Z.to_nat (room bl - 7)) data) ++ bytes), bl'.
      split; [by apply logged_more|]. split; [|exact E2]. by rewrite <- !app_assoc in *.
    - eexists w1, _, _. split; [by apply logged_last|]. done. }
  intros data begin w c bl Hn Hw Hd. destruct n as [|n]; [lia|].
  destruct (add_fragment_step data begin w c bl Hw Hd) as (w1 & E & Hw1).
  change (iterate (S (S n)) add_fragment (data, begin)) with
    (r <- add_fragment (data, begin) ;; match r with inl a' => iterate (S n) add_fragment a' | inr b => ret b end).
  rewrite (bind_Ret _ _ _ _ _ E). destruct (Z.ltb_spec (room bl - 7) (size data)) as [Hmore|Hall].
  - destruct (Hfresh n (drop (Z.to_nat (room bl - 7)) data) false w1 (c ++ pad bl ++ record_bytes (fragment_type begin false) (take (Z.to_nat (room bl - 7)) data)) 0) as (w2 & bytes & bl' & Hl & Hw2 & E2);
      [rewrite length_drop; lia|done|exact Hw1|by apply Forall_drop|].
    exists w2, (pad bl ++ record_bytes (fragment_type begin false) (take (Z.to_nat (room bl - 7)) data) ++ bytes), bl'.
    split; [by apply logged_more|]. split; [|exact E2]. by rewrite <- !app_assoc in *.
  - eexists w1, _, _. split; [by apply logged_last|]. done.
Qed.

(** [AddRecord] appends the fragments of the record. *)
Lemma AddRecord_logged data w c bl :
  writing w c bl -> Forall byte data -> size data < 2 ^ 64 ->
  exists w' bytes bl', logged bl true data bytes bl' /\ writing w' (c ++ bytes) bl' /\ AddRecord data w = (Ret OK, w').
Proof.
  intros Hw Hd Hs. destruct (add_loop (S (List.length data)) data true w c bl ltac:(lia) Hw Hd) as (w' & bytes & bl' & Hl & Hw' & E).
  exists w', bytes, bl'. split; [done|]. split; [done|]. eapply loop_iterate; [exact E|done|]. unfold size in Hs. lia.
Qed.
End Writer.

Section Reader.
Context {F : Type} {RF : SequentialFile F} {L : SequentialFileLaws RF}.

(** The reader is at the byte [pos] of the file and [rest] is what follows, of which
    [bl] bytes lie in the block it holds in its buffer. *)
Record reading (s : Reader F) (pos bl : Z) (rest : list Z) : Prop := {
  at_pos : 0 <= pos /\ pos + size rest < 2 ^ 64;
  at_block : 0 <= bl <= kBlockSize;
  at_buffer : buffer_ s = take (Z.to_nat bl) rest;
  at_file : remaining (file_ s) = drop (Z.to_nat bl) rest;
  at_eof : size rest < bl -> eof_ s = true;
  at_end : eof_ s = true -> size rest <= bl;
  at_offset : end_of_buffer_offset_ s = pos + size (buffer_ s);
  at_start : initial_offset_ s = 0 /\ resyncing_ s = false /\ 0 <= last_record_offset_ s
}.

(** What reading without an error leaves alone. *)
Definition same_reports (s s' : Reader F) : Prop :=
  reports s' = reports s /\ last_record_offset_ s' = last_record_offset_ s.

Lemma same_reports_trans s1 s2 s3 : same_reports s1 s2 -> same_reports s2 s3 -> same_reports s1 s3.
Proof. unfold same_reports. intuition congruence. Qed.

Lemma reading_new f reporter checksum :
  size (remaining f) < 2 ^ 64 -> reading (new_Reader f reporter checksum 0) 0 0 (remaining f).
Proof.
  intros Hs. pose proof (size_nonneg (remaining f)). split; cbn; try done; try lia.
Qed.

(** The next block is read. *)
Lemma refill s pos bl rest result :
  reading s pos bl rest -> bl < 7 -> bl <= size rest -> eof_ s = false ->
  exists s', physical_step result tt s = (Ret (inl tt), s') /\
    reading s' (pos + bl) kBlockSize (drop (Z.to_nat bl) rest) /\ same_reports s s'.
Proof.
  intros [[Hp Hb] Hbl Hbuf Hfile He Hend Hoff (Hi & Hr & Hlast)] Hlt Hle Heof. unfold physical_step. rewrite bind_get.
  assert (Hsb : size (buffer_ s) = bl) by (rewrite Hbuf; apply size_take; lia).
  change kHeaderSize with 7. destruct (Z.ltb_spec (size (buffer_ s)) 7) as [_|]; [|lia]. rewrite Heof. cbn [negb].
  rewrite bind_modify.
  destruct (Read_remaining kBlockSize (file_ s)) as (f' & E & Hf').
  assert (Hrd : read_file kBlockSize (set_buffer [] s) = (Ret (OK, take (Z.to_nat kBlockSize) (remaining (file_ s))), set_file f' (set_buffer [] s))).
  { unfold read_file. cbn [file_ set_buffer]. by rewrite E. }
  rewrite (bind_Ret _ _ _ _ _ Hrd), !bind_modify. cbn [ok OK negb]. rewrite Hfile in *.
  set (rest' := drop (Z.to_nat bl) rest) in *. set (data := take (Z.to_nat kBlockSize) rest').
  assert (Hrest' : size rest' = size rest - bl) by (apply size_drop; lia).
  assert (Hdata : size data <= size rest') by (unfold data, size; rewrite length_take; lia).
  assert (Hshort : (size data <? kBlockSize) = (size rest' <? kBlockSize)).
  { unfold data, size. rewrite length_take. unfold kBlockSize.
    destruct (Z.ltb_spec (Z.of_nat (Init.Nat.min (Z.to_nat 32768) (List.length rest'))) 32768), (Z.ltb_spec (Z.of_nat (List.length rest')) 32768); done || lia. }
  rewrite Hshort. pose proof (size_nonneg data).
  destruct (Z.ltb_spec (size rest') kBlockSize) as [Hs|Hs]; rewrite ?bind_modify, ?bind_ret;
    (eexists; split; [reflexivity|]); (split; [|done]); split; cbn; try done; try lia.
  - rewrite Hoff, Hsb, uwrap_small; [done|]. fold data. lia.
  - rewrite Heof. done.
  - rewrite Hoff, Hsb, uwrap_small; [done|]. fold data. lia.
Qed.

(** The end of the file. *)
Lemma physical_end s pos bl rest result :
  reading s pos bl rest -> size rest < 7 -> eof_ s = true ->
  exists s', physical_step result tt s = (Ret (inr (kEof, result)), s') /\ same_reports s s'.
Proof.
  intros [[Hp Hb] Hbl Hbuf Hfile He Hend Hoff (Hi & Hr & Hlast)] Hlt Heof. unfold physical_step. rewrite bind_get.
  assert (Hsb : size (buffer_ s) <= size rest) by (rewrite Hbuf; unfold size; rewrite length_take; lia).
  change kHeaderSize with 7. destruct (Z.ltb_spec (size (buffer_ s)) 7) as [_|]; [|lia]. rewrite Heof. cbn [negb].
  rewrite bind_modify. eexists. split; [reflexivity|done].
Qed.

(** The fields of a header. *)
Lemma header_fields t p tail :
  size p < 65536 ->
  let h := header_bytes t p ++ tail in
  Z.lor (nth 4 h 0) (Z.shiftl (nth 5 h 0) 8) = size p /\ u32 (s8 (nth 6 h 0)) = RecordType_value t /\
  DecodeFixed32 h = Some (Mask (Value (RecordType_value t :: p))).
Proof.
  intros Hp h. pose proof (size_nonneg p). split; [|split].
  - change (nth 4 h 0) with (size p mod 256). change (nth 5 h 0) with (size p / 256).
    rewrite lor_shiftl_add by zlia. change (2 ^ 8) with 256. zlia.
  - change (nth 6 h 0) with (RecordType_value t). by destruct t.
  - unfold h, header_bytes. rewrite <- app_assoc. apply DecodeFixed32_of, Mask_word32.
Qed.

Lemma payload_crc t p tail :
  Forall byte p ->
  (Value (take (Z.to_nat (1 + size p)) (drop 6 (header_bytes t p ++ p ++ tail))) =?
   Unmask (Mask (Value (RecordType_value t :: p)))) = true.
Proof.
  intros Hp. apply Z.eqb_eq. change (drop 6 (header_bytes t p ++ p ++ tail)) with ((RecordType_value t :: p) ++ tail).
  replace (1 + size p) with (size (RecordType_value t :: p)) by (rewrite size_cons; lia). rewrite take_size_app.
  symmetry. apply Unmask_Mask, Extend_word32; [apply word32_0|]. constructor; [apply type_byte|done].
Qed.

(** A physical record in the buffer. *)
Lemma physical_found s pos bl t p rest result :
  reading s pos bl (record_bytes t p ++ rest) -> t <> kZeroType -> Forall byte p -> size p < 65536 ->
  7 + size p <= bl ->
  exists s', physical_step result tt s = (Ret (inr (RecordType_value t, p)), s') /\
    reading s' (pos + 7 + size p) (bl - 7 - size p) rest /\ same_reports s s'.
Proof.
  intros [[Hp Hb] Hbl Hbuf Hfile He Hend Hoff (Hi & Hr & Hlast)] Ht Hbytes Hsz Hfit. unfold physical_step. rewrite bind_get.
  pose proof (size_nonneg p). pose proof (size_nonneg rest). rewrite size_app, size_record in *.
  set (tail := take (Z.to_nat (bl - 7 - size p)) rest).
  assert (Hcut : take (Z.to_nat bl) (record_bytes t p ++ rest) = header_bytes t p ++ p ++ tail).
  { unfold record_bytes, tail. rewrite <- (app_assoc (header_bytes t p)).
    pose proof (size_header t p) as Hh. unfold size in *.
    rewrite take_app_ge, take_app_ge by lia. do 3 f_equal. lia. }
  rewrite Hcut in Hbuf. clear Hcut.
  assert (Hsb : size (buffer_ s) = 7 + size p + size tail) by (rewrite Hbuf, !size_app, size_header; lia).
  pose proof (size_nonneg tail). change kHeaderSize with 7.
  destruct (Z.ltb_spec (size (buffer_ s)) 7) as [|_]; [lia|].
  destruct (header_fields t p (p ++ tail) Hsz) as (Hlen & Hty & Hcrc). rewrite <- Hbuf in Hlen, Hty, Hcrc. cbv zeta.
  rewrite Hlen, Hty, Hcrc. destruct (Z.ltb_spec (size (buffer_ s)) (7 + size p)); [lia|].
  assert (Hnz : (RecordType_value t =? RecordType_value kZeroType) = false) by (by destruct t).
  rewrite Hnz. cbn [andb]. pose proof (payload_crc t p tail Hbytes) as Hok. rewrite <- Hbuf in Hok. rewrite Hok, andb_false_r.
  rewrite bind_modify, bind_get. cbn [buffer_ set_buffer end_of_buffer_offset_ initial_offset_].
  assert (Hrem : remove_prefix (7 + size p) (buffer_ s) = tail).
  { unfold remove_prefix. rewrite Hbuf, app_assoc. replace (7 + size p) with (size (header_bytes t p ++ p)) by (by rewrite size_app). apply drop_size_app. }
  rewrite Hrem, Hoff, Hi.
  assert (Hpay : take (Z.to_nat (size p)) (drop (Z.to_nat 7) (buffer_ s)) = p).
  { rewrite Hbuf. change (drop (Z.to_nat 7) (header_bytes t p ++ p ++ tail)) with (p ++ tail). apply take_size_app. }
  rewrite Hpay. assert (0 <= u64 (pos + size (buffer_ s) - size tail - 7 - size p)) by (apply uwrap_range; lia).
  destruct (Z.ltb_spec (u64 (pos + size (buffer_ s) - size tail - 7 - size p)) 0); [lia|].
  eexists. split; [reflexivity|]. split; [|done].
  assert (Hdrop : drop (Z.to_nat bl) (record_bytes t p ++ rest) = drop (Z.to_nat (bl - 7 - size p)) rest).
  { pose proof (size_record t p) as Hrec. unfold size in *. rewrite drop_app_ge by lia. f_equal. lia. }
  split; cbn; try done; try lia.
  - by rewrite Hfile.
  - intros Hlt. apply He. lia.
  - intros Heof. specialize (Hend Heof). lia.
Qed.

(** A physical record that the end of the file cuts short. *)
Lemma physical_cut s pos bl t p part missing result :
  reading s pos bl part -> record_bytes t p = part ++ missing -> missing <> [] -> size p < 65536 -> 7 + size p <= bl ->
  exists s', physical_step result tt s = (Ret (inr (kEof, result)), s') /\ same_reports s s'.
Proof.
  intros Hread Hrec Hmiss Hsz Hfit.
  assert (Hpart : size part < 7 + size p).
  { pose proof (size_record t p) as Hs. rewrite Hrec, size_app in Hs. destruct missing; [done|]. rewrite size_cons in Hs.
    pose proof (size_nonneg missing). lia. }
  pose proof (size_nonneg p). assert (Heof : eof_ s = true) by (apply (at_eof _ _ _ _ Hread); lia).
  destruct (Z.ltb_spec (size part) 7) as [Hlt|Hge]; [by eapply physical_end|].
  destruct Hread as [[Hp Hb] Hbl Hbuf Hfile He Hend Hoff (Hi & Hr & Hlast)].
  assert (Hbuf' : buffer_ s = part) by (rewrite Hbuf; apply take_ge; unfold size in *; lia).
  assert (Hhead : exists p1, part = header_bytes t p ++ p1).
  { exists (drop 7 part). rewrite <- (take_drop 7 part) at 1. f_equal.
    assert (E : take 7 (record_bytes t p) = take 7 (part ++ missing)) by (by rewrite Hrec).
    rewrite take_app_le in E by (unfold size in *; lia). by rewrite <- E. }
  destruct Hhead as (p1 & Hpart1). unfold physical_step. rewrite bind_get. rewrite Hbuf'. change kHeaderSize with 7.
  destruct (Z.ltb_spec (size part) 7) as [|_]; [lia|].
  destruct (header_fields t p p1 Hsz) as (Hlen & _ & _). rewrite <- Hpart1 in Hlen. cbv zeta. rewrite Hlen.
  destruct (Z.ltb_spec (size part) (7 + size p)); [|lia]. rewrite bind_modify, Heof. cbn [negb].
  eexists. split; [reflexivity|done].
Qed.

(** ** [ReadPhysicalRecord] *)

Lemma physical_loop k result s o s' :
  iterate k (physical_step result) tt s = (Ret o, s') -> (k <= 3)%nat -> ReadPhysicalRecord result s = (Ret o, s').
Proof. intros Hit Hk. eapply loop_iterate; [exact Hit|done|lia]. Qed.

Lemma pad_cases bl : 0 <= bl -> (bl < 7 /\ size (pad bl) = bl /\ room bl = kBlockSize) \/ (7 <= bl /\ pad bl = [] /\ room bl = bl).
Proof. intros Hbl. pose proof (size_pad bl Hbl) as Hs. unfold pad, room in *. destruct (Z.ltb_spec bl 7); [left|right]; done. Qed.

Lemma drop_pad bl (l : list Z) : 0 <= bl < 7 -> drop (Z.to_nat bl) (pad bl ++ l) = l.
Proof.
  intros Hbl. pose proof (size_pad bl ltac:(lia)) as Hs. destruct (Z.ltb_spec bl 7); [|lia]. rewrite <- Hs at 1. apply drop_size_app.
Qed.

Lemma read_found s pos bl t p rest result :
  reading s pos bl (pad bl ++ record_bytes t p ++ rest) -> t <> kZeroType -> Forall byte p -> 7 + size p <= room bl ->
  exists s', ReadPhysicalRecord result s = (Ret (RecordType_value t, p), s') /\
    reading s' (pos + size (pad bl ++ record_bytes t p)) (room bl - 7 - size p) rest /\ same_reports s s'.
Proof.
  intros Hread Ht Hp Hfit. pose proof (at_block _ _ _ _ Hread) as Hbl. pose proof (room_range bl Hbl) as Hroom.
  assert (Hsz : size p < 65536) by (unfold kBlockSize in *; lia). rewrite size_app, size_record.
  destruct (pad_cases bl ltac:(lia)) as [(Hlt & Hpad & Hr)|(Hge & Hpad & Hr)]; rewrite Hr in *.
  - assert (Hlong : bl < size (pad bl ++ record_bytes t p ++ rest)).
    { rewrite !size_app, size_record, Hpad. pose proof (size_nonneg p). pose proof (size_nonneg rest). lia. }
    assert (Heof : eof_ s = false).
    { destruct (eof_ s) eqn:E; [|done]. pose proof (at_end _ _ _ _ Hread E). lia. }
    destruct (refill _ _ _ _ result Hread Hlt ltac:(lia) Heof) as (s1 & E1 & Hread1 & Hs1).
    rewrite drop_pad in Hread1 by lia.
    destruct (physical_found _ _ _ _ _ _ result Hread1 Ht Hp Hsz Hfit) as (s2 & E2 & Hread2 & Hs2).
    exists s2. split; [|split; [|by eapply same_reports_trans]].
    + apply (physical_loop 2); [|lia]. cbn [iterate]. rewrite (bind_Ret _ _ _ _ _ E1). by rewrite (bind_Ret _ _ _ _ _ E2).
    + by replace (pos + (size (pad bl) + (7 + size p))) with (pos + bl + 7 + size p) by lia.
  - rewrite Hpad in *. cbn [app] in Hread.
    destruct (physical_found _ _ _ _ _ _ result Hread Ht Hp Hsz Hfit) as (s2 & E2 & Hread2 & Hs2).
    exists s2. split; [|split; [|done]].
    + apply (physical_loop 1); [|lia]. cbn [iterate]. by rewrite (bind_Ret _ _ _ _ _ E2).
    + rewrite size_nil. by replace (pos + (0 + (7 + size p))) with (pos + 7 + size p) by lia.
Qed.

Lemma read_cut s pos bl t p part missing result :
  reading s pos bl part -> pad bl ++ record_bytes t p = part ++ missing -> missing <> [] -> 7 + size p <= room bl ->
  exists s', ReadPhysicalRecord result s = (Ret (kEof, result), s') /\ same_reports s s'.
Proof.
  intros Hread Hrec Hmiss Hfit. pose proof (at_block _ _ _ _ Hread) as Hbl. pose proof (room_range bl Hbl) as Hroom.
  assert (Hsz : size p < 65536) by (unfold kBlockSize in *; lia).
  assert (Hone : forall s1 s2, physical_step result tt s1 = (Ret (inr (kEof, result)), s2) -> ReadPhysicalRecord result s1 = (Ret (kEof, result), s2)).
  { intros s1 s2 E. apply (physical_loop 1); [|lia]. cbn [iterate]. by rewrite (bind_Ret _ _ _ _ _ E). }
  destruct (pad_cases bl ltac:(lia)) as [(Hlt & Hpad & Hr)|(Hge & Hpad & Hr)]; rewrite Hr in *.
  - destruct (eof_ s) eqn:Heof.
    + pose proof (at_end _ _ _ _ Hread Heof).
      destruct (physical_end _ _ _ _ result Hread ltac:(lia) Heof) as (s1 & E1 & Hs1). exists s1. split; [by apply Hone|done].
    + assert (Hle : bl <= size part).
      { destruct (Z.ltb_spec (size part) bl) as [Hs|]; [|done]. apply (at_eof _ _ _ _ Hread) in Hs. congruence. }
      destruct (refill _ _ _ _ result Hread Hlt Hle Heof) as (s1 & E1 & Hread1 & Hs1).
      destruct (physical_cut s1 (pos + bl) kBlockSize t p (drop (Z.to_nat bl) part) missing result Hread1) as (s2 & E2 & Hs2); [|done|done|done|].
      { assert (Hd : drop (Z.to_nat bl) (pad bl ++ record_bytes t p) = drop (Z.to_nat bl) (part ++ missing)) by (by rewrite Hrec).
        rewrite drop_pad in Hd by lia. rewrite Hd. apply drop_app_le. unfold size in Hle. lia. }
      exists s2. split; [|by eapply same_reports_trans]. apply (physical_loop 2); [|lia]. cbn [iterate].
      rewrite (bind_Ret _ _ _ _ _ E1). by rewrite (bind_Ret _ _ _ _ _ E2).
  - rewrite Hpad in Hrec. destruct (physical_cut _ _ _ _ _ _ _ result Hread Hrec Hmiss Hsz Hfit) as (s1 & E1 & Hs1).
    exists s1. split; [by apply Hone|done].
Qed.
End Reader.
