(* ===== verification/LdbLogTotal.v ===== *)
(** The log keeps its records: what [AddRecord] writes [ReadRecord] reads back, and
    of a log that is cut short every complete record, without a report.

    [log::Reader] on any file, corrupted ones included: every call returns, and a
    record that is returned has used up bytes of the file. *)

From Stdlib Require Import ZArith Lia List String Bool.
From stdpp Require Import base list.
From S2P Require Import Prelude LdbBase LdbCoding LdbCrc32c LdbCrcProps LdbLog LdbLogRead.

(** ** One record *)

Section Reader.
Context {F : Type} {RF : SequentialFile F} {L : SequentialFileLaws RF}.

(** What a fragment does to the locals of [ReadRecord]. *)
Definition after_fragment (l l' : read_locals) (begin : bool) (p : Slice) : Prop :=
  scratch l' = (if begin then p else scratch l ++ p) /\ in_fragmented_record l' = true /\ 0 <= prospective_record_offset l'.

Lemma step_found s pos bl l begin (end_ : bool) p rest :
  reading s pos bl (pad bl ++ record_bytes (fragment_type begin end_) p ++ rest) ->
  Forall byte p -> 7 + size p <= room bl ->
  in_fragmented_record l = negb begin -> 0 <= prospective_record_offset l ->
  exists r s', record_step l s = (Ret r, s') /\ reports s' = reports s /\
    reading s' (pos + size (pad bl ++ record_bytes (fragment_type begin end_) p)) (room bl - 7 - size p) rest /\
    match r with
    | inl l' => end_ = false /\ after_fragment l l' begin p
    | inr record => end_ = true /\ record = Some (if begin then p else scratch l ++ p)
    end.
Proof.
  intros Hread Hp Hfit Hin Hoff.
  assert (Ht : fragment_type begin end_ <> kZeroType) by (by destruct begin, end_).
  destruct (read_found _ _ _ _ _ _ (fragment l) Hread Ht Hp Hfit) as (s1 & E1 & Hread1 & [Hrep Hlast]).
  unfold record_step. rewrite (bind_Ret _ _ _ _ _ E1), bind_get. cbv zeta.
  destruct (at_start _ _ _ _ Hread1) as (Hi & Hr & Hl). rewrite Hr, Hin. cbn [andb].
  set (offset := u64 (end_of_buffer_offset_ s1 - size (buffer_ s1) - kHeaderSize - size p)).
  assert (Hofs : 0 <= offset) by (apply uwrap_range; lia).
  assert (Hset : forall v, 0 <= v -> reading (set_last_record_offset v s1) (pos + size (pad bl ++ record_bytes (fragment_type begin end_) p)) (room bl - 7 - size p) rest).
  { intros v Hv. destruct Hread1. by split. }
  destruct begin, end_; cbn [fragment_type andb negb RecordType_value Z.eqb Pos.eqb] in *; rewrite ?bind_ret, ?bind_modify;
    (eexists _, _; split; [reflexivity|]); (split; [exact Hrep|]); (split; [first [exact Hread1|by apply Hset]|]); done.
Qed.

Lemma step_cut s pos bl l t p part missing :
  reading s pos bl part -> pad bl ++ record_bytes t p = part ++ missing -> missing <> [] -> 7 + size p <= room bl ->
  exists s', record_step l s = (Ret (inr None), s') /\ reports s' = reports s.
Proof.
  intros Hread Hrec Hmiss Hfit.
  destruct (read_cut _ _ _ _ _ _ _ (fragment l) Hread Hrec Hmiss Hfit) as (s1 & E1 & [Hrep Hlast]).
  unfold record_step. rewrite (bind_Ret _ _ _ _ _ E1), bind_get. cbv zeta.
  destruct (resyncing_ s1); cbn [andb]; rewrite ?bind_modify, ?bind_ret; (eexists; split; [reflexivity|exact Hrep]).
Qed.

(** The rounds of [ReadRecord]: one for each fragment. *)
Lemma read_logged bl begin data bytes bl' : logged bl begin data bytes bl' -> forall s pos rest l,
  reading s pos bl (bytes ++ rest) -> Forall byte data ->
  in_fragmented_record l = negb begin -> 0 <= prospective_record_offset l ->
  exists k s', Z.of_nat k <= (if room bl =? 7 then 1 else 0) + size data + 1 /\
    iterate k record_step l s = (Ret (Some (if begin then data else scratch l ++ data)), s') /\
    reading s' (pos + size bytes) bl' rest /\ reports s' = reports s.
Proof.
  induction 1 as [bl begin data Hs|bl begin data bytes bl' Hs Hlog IH]; intros s pos rest l Hread Hd Hin Hoff.
  - rewrite <- app_assoc in Hread.
    destruct (step_found _ _ _ _ _ _ _ _ Hread Hd ltac:(lia) Hin Hoff) as (r & s' & E & Hrep & Hread' & Hr).
    destruct r as [l'|record]; [by destruct Hr|]. destruct Hr as [_ ->].
    exists 1%nat, s'. split; [pose proof (size_nonneg data); destruct (room bl =? 7); lia|].
    split; [cbn [iterate]; by rewrite (bind_Ret _ _ _ _ _ E)|done].
  - pose proof (room_range bl (at_block _ _ _ _ Hread)) as Hroom.
    assert (Hst : size (take (Z.to_nat (room bl - 7)) data) = room bl - 7) by (apply size_take; lia).
    assert (Hsd : size (drop (Z.to_nat (room bl - 7)) data) = size data - (room bl - 7)) by (apply size_drop; lia).
    rewrite <- !app_assoc in Hread.
    destruct (step_found _ _ _ _ _ _ _ _ Hread (Forall_take _ _ _ Hd) ltac:(lia) Hin Hoff) as (r & s1 & E & Hrep & Hread1 & Hr).
    destruct r as [l1|record]; [|by destruct Hr]. destruct Hr as (_ & Hscr & Hin1 & Hoff1).
    rewrite Hst in Hread1. replace (room bl - 7 - (room bl - 7)) with 0 in Hread1 by lia.
    destruct (IH s1 _ rest l1 Hread1 (Forall_drop _ _ _ Hd) Hin1 Hoff1) as (k & s2 & Hk & E2 & Hread2 & Hrep2).
    exists (S k), s2. split.
    { change (room 0 =? 7) with false in Hk. destruct (Z.eqb_spec (room bl) 7); lia. }
    split; [|split; [|congruence]].
    + cbn [iterate]. rewrite (bind_Ret _ _ _ _ _ E), E2, Hscr. do 2 f_equal.
      destruct begin; [by rewrite take_drop|]. by rewrite <- app_assoc, take_drop.
    + rewrite !size_app in *. by rewrite <- !Z.add_assoc in *.
Qed.

(** A record that is cut short. *)
Lemma read_logged_cut bl begin data bytes bl' : logged bl begin data bytes bl' -> forall s pos part missing l,
  reading s pos bl part -> bytes = part ++ missing -> missing <> [] -> Forall byte data ->
  in_fragmented_record l = negb begin -> 0 <= prospective_record_offset l ->
  exists k s', Z.of_nat k <= (if room bl =? 7 then 1 else 0) + size data + 1 /\
    iterate k record_step l s = (Ret None, s') /\ reports s' = reports s.
Proof.
  induction 1 as [bl begin data Hs|bl begin data bytes bl' Hs Hlog IH]; intros s pos part missing l Hread Hcut Hmiss Hd Hin Hoff.
  - destruct (step_cut _ _ _ l _ _ _ _ Hread Hcut Hmiss ltac:(lia)) as (s' & E & Hrep).
    exists 1%nat, s'. split; [pose proof (size_nonneg data); destruct (room bl =? 7); lia|].
    split; [cbn [iterate]; by rewrite (bind_Ret _ _ _ _ _ E)|done].
  - pose proof (room_range bl (at_block _ _ _ _ Hread)) as Hroom.
    assert (Hst : size (take (Z.to_nat (room bl - 7)) data) = room bl - 7) by (apply size_take; lia).
    assert (Hsd : size (drop (Z.to_nat (room bl - 7)) data) = size data - (room bl - 7)) by (apply size_drop; lia).
    rewrite app_assoc in Hcut. apply app_eq_app in Hcut as (m & [[Hcut Hm]|[Hcut Hm]]).
    + (* within this fragment *)
      destruct m as [|x m].
      * (* at its end: the next fragment is missing *)
        rewrite app_nil_r in Hcut. subst part. cbn in Hm. subst missing.
        pose proof Hread as Hread0. rewrite <- (app_nil_r (_ ++ _)), <- app_assoc in Hread0.
        destruct (step_found _ _ _ _ _ _ _ _ Hread0 (Forall_take _ _ _ Hd) ltac:(lia) Hin Hoff) as (r & s1 & E & Hrep & Hread1 & Hr).
        destruct r as [l1|record]; [|by destruct Hr]. destruct Hr as (_ & Hscr & Hin1 & Hoff1).
        rewrite Hst in Hread1. replace (room bl - 7 - (room bl - 7)) with 0 in Hread1 by lia.
        destruct (IH s1 _ [] bytes l1 Hread1 eq_refl Hmiss (Forall_drop _ _ _ Hd) Hin1 Hoff1) as (k & s2 & Hk & E2 & Hrep2).
        exists (S k), s2. split; [change (room 0 =? 7) with false in Hk; destruct (Z.eqb_spec (room bl) 7); lia|].
        split; [cbn [iterate]; by rewrite (bind_Ret _ _ _ _ _ E)|congruence].
      * destruct (step_cut _ _ _ l _ _ _ _ Hread Hcut ltac:(done) ltac:(lia)) as (s' & E & Hrep).
        exists 1%nat, s'. split; [pose proof (size_nonneg data); destruct (room bl =? 7); lia|].
        split; [cbn [iterate]; by rewrite (bind_Ret _ _ _ _ _ E)|done].
    + subst part. rewrite <- app_assoc in Hread.
      destruct (step_found _ _ _ _ _ _ _ _ Hread (Forall_take _ _ _ Hd) ltac:(lia) Hin Hoff) as (r & s1 & E & Hrep & Hread1 & Hr).
      destruct r as [l1|record]; [|by destruct Hr]. destruct Hr as (_ & Hscr & Hin1 & Hoff1).
      rewrite Hst in Hread1. replace (room bl - 7 - (room bl - 7)) with 0 in Hread1 by lia.
      destruct (IH s1 _ m missing l1 Hread1 Hm Hmiss (Forall_drop _ _ _ Hd) Hin1 Hoff1) as (k & s2 & Hk & E2 & Hrep2).
      exists (S k), s2. split; [change (room 0 =? 7) with false in Hk; destruct (Z.eqb_spec (room bl) 7); lia|].
      split; [cbn [iterate]; by rewrite (bind_Ret _ _ _ _ _ E)|congruence].
Qed.

(** [ReadRecord], which starts with empty locals. *)
Lemma ReadRecord_loop k s o s' pos bl rest :
  reading s pos bl rest -> iterate k record_step (mk_locals [] [] false 0) s = (Ret o, s') -> Z.of_nat k <= 2 ^ 65 ->
  ReadRecord s = (Ret o, s').
Proof.
  intros Hread Hit Hk. destruct (at_start _ _ _ _ Hread) as (Hi & _ & Hl).
  unfold ReadRecord. rewrite bind_get, Hi. destruct (Z.ltb_spec (last_record_offset_ s) 0); [lia|]. rewrite bind_ret.
  cbn [negb]. by eapply loop_iterate.
Qed.

Lemma ReadRecord_logged bl data bytes bl' s pos rest :
  logged bl true data bytes bl' -> reading s pos bl (bytes ++ rest) -> Forall byte data -> size data < 2 ^ 64 ->
  exists s', ReadRecord s = (Ret (Some data), s') /\ reading s' (pos + size bytes) bl' rest /\ reports s' = reports s.
Proof.
  intros Hlog Hread Hd Hs. destruct (read_logged _ _ _ _ _ Hlog s pos rest (mk_locals [] [] false 0) Hread Hd eq_refl ltac:(done)) as (k & s' & Hk & E & Hread' & Hrep).
  exists s'. split; [|done]. eapply ReadRecord_loop; [exact Hread|exact E|]. destruct (room bl =? 7); lia.
Qed.

Lemma ReadRecord_cut bl data bytes bl' s pos part missing :
  logged bl true data bytes bl' -> reading s pos bl part -> bytes = part ++ missing -> missing <> [] ->
  Forall byte data -> size data < 2 ^ 64 ->
  exists s', ReadRecord s = (Ret None, s') /\ reports s' = reports s.
Proof.
  intros Hlog Hread Hcut Hmiss Hd Hs.
  destruct (read_logged_cut _ _ _ _ _ Hlog s pos part missing (mk_locals [] [] false 0) Hread Hcut Hmiss Hd eq_refl ltac:(done)) as (k & s' & Hk & E & Hrep).
  exists s'. split; [|done]. eapply ReadRecord_loop; [exact Hread|exact E|]. destruct (room bl =? 7); lia.
Qed.

(** At the end of the file. *)
Lemma ReadRecord_end s pos bl : reading s pos bl [] -> exists s', ReadRecord s = (Ret None, s') /\ reports s' = reports s.
Proof.
  intros Hread. pose proof (room_range bl (at_block _ _ _ _ Hread)) as Hroom.
  destruct (step_cut s pos bl (mk_locals [] [] false 0) kFullType [] [] (pad bl ++ record_bytes kFullType []) Hread eq_refl) as (s' & E & Hrep).
  - intros H. apply app_eq_nil in H as [_ H]. done.
  - rewrite size_nil. lia.
  - exists s'. split; [|done]. eapply (ReadRecord_loop 1); [exact Hread| |lia]. cbn [iterate]. by rewrite (bind_Ret _ _ _ _ _ E).
Qed.

(** ** A log *)

(** The bytes of a sequence of records. *)
Inductive log_of : Z -> list Slice -> list Z -> Z -> Prop :=
  | log_nil bl : log_of bl [] [] bl
  | log_cons bl r rs b1 bl1 b2 bl2 :
      logged bl true r b1 bl1 -> log_of bl1 rs b2 bl2 -> log_of bl (r :: rs) (b1 ++ b2) bl2.

Lemma logged_det bl begin data b1 l1 : logged bl begin data b1 l1 -> forall b2 l2, logged bl begin data b2 l2 -> b1 = b2 /\ l1 = l2.
Proof.
  induction 1 as [bl begin data Hs|bl begin data bytes bl' Hs Hlog IH]; intros b2 l2 H2; inversion H2; subst; try lia; [done|].
  match goal with H : logged 0 false _ ?b _ |- _ => by destruct (IH _ _ H) as [-> ->] end.
Qed.

(** [ReadRecord] until it returns [false], at most [n] times. *)
Fixpoint read_all (n : nat) : M (Reader F) (list Slice) :=
  match n with
  | O => ret []
  | S n' =>
      r <- ReadRecord ;;
      match r with
      | None => ret []
      | Some record => rs <- read_all n' ;; ret (record :: rs)
      end
  end.

Definition record_ok (r : Slice) : Prop := Forall byte r /\ size r < 2 ^ 64.

(** The first [n] bytes of a log give the records that end within them. *)
Lemma read_all_prefix bl rs bytes bl' : log_of bl rs bytes bl' -> forall s pos part missing,
  reading s pos bl part -> bytes = part ++ missing -> Forall record_ok rs ->
  exists k s', read_all (S (List.length rs)) s = (Ret (take k rs), s') /\ reports s' = reports s /\
    (k <= List.length rs)%nat /\
    forall j b bl1, (j <= List.length rs)%nat -> log_of bl (take j rs) b bl1 -> size b <= size part -> (j <= k)%nat.
Proof.
  induction 1 as [bl|bl r rs b1 bl1 b2 bl2 Hr Hrs IH]; intros s pos part missing Hread Hcut Hok.
  - symmetry in Hcut. apply app_eq_nil in Hcut as [-> ->]. destruct (ReadRecord_end s pos bl Hread) as (s' & E & Hrep).
    exists 0%nat, s'. cbn [read_all List.length]. rewrite (bind_Ret _ _ _ _ _ E). split; [done|]. split; [done|]. split; [done|]. intros; lia.
  - apply Forall_cons in Hok as [[Hrb Hrs'] Hok].
    (* [m] of this record is missing, or [m] of the next ones is there *)
    assert (Hcase : (exists m, m <> [] /\ b1 = part ++ m) \/ exists m, part = b1 ++ m /\ b2 = m ++ missing).
    { apply app_eq_app in Hcut as (m & [[Hb1 Hm]|[Hp Hm]]); [|right; by exists m].
      destruct m as [|x m]; [|left; by exists (x :: m)]. right. exists []. rewrite app_nil_r in Hb1 |- *. by rewrite Hm. }
    destruct Hcase as [(m & Hm & Hb1)|(m & -> & Hb2)].
    + destruct (ReadRecord_cut _ _ _ _ _ _ _ _ Hr Hread Hb1 Hm Hrb Hrs') as (s' & E & Hrep).
      exists 0%nat, s'. cbn [read_all List.length]. rewrite (bind_Ret _ _ _ _ _ E). split; [done|]. split; [done|]. split; [lia|].
      intros j b bl3 Hj Hlog Hsz. destruct j as [|j]; [done|]. exfalso. cbn [take] in Hlog. inversion Hlog as [|? ? ? b1' bl1' b2' ? Hr' _]; subst.
      destruct (logged_det _ _ _ _ _ Hr _ _ Hr') as [<- _]. rewrite !size_app in Hsz. pose proof (size_nonneg b2').
      destruct m; [done|]. rewrite size_cons in Hsz. pose proof (size_nonneg m). lia.
    + destruct (ReadRecord_logged _ _ _ _ _ _ _ Hr Hread Hrb Hrs') as (s1 & E & Hread1 & Hrep).
      destruct (IH s1 _ m missing Hread1 Hb2 Hok) as (k & s2 & E2 & Hrep2 & Hk & Hmax).
      exists (S k), s2. split; [|split; [congruence|split; [cbn; lia|]]].
      * change (read_all (S (List.length (r :: rs)))) with
          (x <- ReadRecord ;; match x with None => ret [] | Some record => xs <- read_all (S (List.length rs)) ;; ret (record :: xs) end).
        rewrite (bind_Ret _ _ _ _ _ E). by rewrite (bind_Ret _ _ _ _ _ E2).
      * intros j b bl3 Hj Hlog Hsz. destruct j as [|j]; [lia|]. cbn [take] in Hlog.
        inversion Hlog as [|? ? ? b1' bl1' b2' ? Hr' Hlog']; subst.
        destruct (logged_det _ _ _ _ _ Hr _ _ Hr') as [<- <-]. rewrite !size_app in Hsz.
        specialize (Hmax j b2' bl3 ltac:(cbn in Hj; lia) Hlog' ltac:(lia)). lia.
Qed.
End Reader.

(** ** Writing and reading *)

(** [AddRecord] of each record in turn. *)
Fixpoint add_all {F} {W : WritableFile F} (rs : list Slice) : M (Writer F) unit :=
  match rs with
  | [] => ret tt
  | r :: rs' => s <- AddRecord r ;; if ok s then add_all rs' else fail
  end.

Section Log.
Context {F G : Type} {W : WritableFile F} {LW : WritableFileLaws W} {RG : SequentialFile G} {LR : SequentialFileLaws RG}.

Lemma add_all_log rs : forall w c bl, writing w c bl -> Forall record_ok rs ->
  exists w' bytes bl', add_all rs w = (Ret tt, w') /\ log_of bl rs bytes bl' /\ writing w' (c ++ bytes) bl'.
Proof.
  induction rs as [|r rs IH]; intros w c bl Hw Hok.
  - exists w, [], bl. rewrite app_nil_r. split; [done|]. split; [constructor|done].
  - apply Forall_cons in Hok as [[Hb Hs] Hok]. destruct (AddRecord_logged r w c bl Hw Hb Hs) as (w1 & b1 & bl1 & Hl & Hw1 & E).
    destruct (IH w1 _ bl1 Hw1 Hok) as (w2 & b2 & bl2 & E2 & Hl2 & Hw2).
    exists w2, (b1 ++ b2), bl2. split; [|split; [by econstructor|by rewrite app_assoc]].
    cbn [add_all]. rewrite (bind_Ret _ _ _ _ _ E). exact E2.
Qed.

(** The log of records in an empty file, as its reader sees it. *)
Lemma new_log f rs :
  contents f = [] -> Forall record_ok rs ->
  exists w bytes bl, add_all rs (new_Writer f) = (Ret tt, w) /\ log_of 0 rs bytes bl /\ contents (dest_ w) = bytes.
Proof.
  intros Hf Hok. destruct (add_all_log rs _ _ _ (writing_new f Hf) Hok) as (w & bytes & bl & E & Hlog & Hw & _).
  destruct rs as [|r rs].
  - inversion Hlog; subst. exists w, [], 0. split; [done|]. split; [constructor|]. by rewrite Hw.
  - inversion Hlog as [|? ? ? b1 bl1 b2 ? Hr Hrs]; subst. exists w, (b1 ++ b2), bl. split; [done|]. split; [|by rewrite Hw].
    econstructor; [by apply logged_fresh|done].
Qed.

Lemma read_log f rs w g n reporter checksum :
  contents f = [] -> Forall record_ok rs -> add_all rs (new_Writer f) = (Ret tt, w) ->
  size (contents (dest_ w)) < 2 ^ 64 -> 0 <= n ->
  remaining g = take (Z.to_nat n) (contents (dest_ w)) ->
  exists k r, read_all (S (List.length rs)) (new_Reader g reporter checksum 0) = (Ret (take k rs), r) /\ reports r = [] /\
    (k <= List.length rs)%nat /\
    forall j wj, (j <= List.length rs)%nat -> add_all (take j rs) (new_Writer f) = (Ret tt, wj) ->
      size (contents (dest_ wj)) <= n -> (j <= k)%nat.
Proof.
  intros Hf Hok Hw Hs Hn Hg. destruct (new_log f rs Hf Hok) as (w' & bytes & bl & E & Hlog & Hc).
  rewrite Hw in E. injection E as <-. rewrite Hc in *.
  assert (Hsg : size (remaining g) < 2 ^ 64) by (rewrite Hg; unfold size in *; rewrite length_take; lia).
  pose proof (reading_new g reporter checksum Hsg) as Hread.
  destruct (read_all_prefix _ _ _ _ Hlog _ _ (remaining g) (drop (Z.to_nat n) bytes) Hread) as (k & r & E & Hrep & Hk & Hmax);
    [by rewrite Hg, take_drop|done|].
  exists k, r. split; [done|]. split; [done|]. split; [done|]. intros j wj Hj Ej Hsz.
  destruct (new_log f (take j rs) Hf (Forall_take _ _ _ Hok)) as (w2 & b & bl2 & E2 & Hlog2 & Hc2).
  rewrite Ej in E2. injection E2 as <-. rewrite Hc2 in Hsz.
  destruct (Z.le_gt_cases n (size bytes)) as [Hle|Hgt].
  - apply (Hmax j b bl2 Hj Hlog2). rewrite Hg, size_take by lia. done.
  - (* the whole log *)
    destruct (new_log f rs Hf Hok) as (w3 & b3 & bl3 & E3 & Hlog3 & Hc3). rewrite Hw in E3. injection E3 as <-.
    assert (Hall : (List.length rs <= k)%nat); [|lia].
    apply (Hmax (List.length rs) b3 bl3); [done|by rewrite firstn_all|].
    rewrite Hg, take_ge by (unfold size in *; lia). rewrite <- Hc3, Hc. done.
Qed.

(** C18: Records written by [AddRecord] into an empty log are read back by
    [ReadRecord], all of them, in order and without a report, whatever their sizes
    and however they are split over the blocks. *)
Theorem log_roundtrip (f : F) (rs : list Slice) (w : Writer F) (g : G) (reporter checksum : bool) :
  contents f = [] -> Forall record_ok rs -> add_all rs (new_Writer f) = (Ret tt, w) ->
  size (contents (dest_ w)) < 2 ^ 64 -> remaining g = contents (dest_ w) ->
  exists r, read_all (S (List.length rs)) (new_Reader g reporter checksum 0) = (Ret rs, r) /\ reports r = [].
Proof.
  intros Hf Hok Hw Hs Hg. pose proof (size_nonneg (contents (dest_ w))).
  destruct (read_log f rs w g (size (contents (dest_ w))) reporter checksum Hf Hok Hw Hs) as (k & r & E & Hrep & Hk & Hmax);
    [lia|by rewrite take_size|].
  exists r. split; [|done]. rewrite E. do 2 f_equal. apply take_ge.
  apply (Hmax (List.length rs) w); [done|by rewrite firstn_all|done].
Qed.

(** C19: Of a log that is cut short anywhere, as when the writer dies, [ReadRecord]
    gives every record that is complete, nothing else, and reports no corruption. *)
Theorem log_truncated (f : F) (rs : list Slice) (w : Writer F) (g : G) (n : Z) (reporter checksum : bool) :
  contents f = [] -> Forall record_ok rs -> add_all rs (new_Writer f) = (Ret tt, w) ->
  size (contents (dest_ w)) < 2 ^ 64 -> 0 <= n ->
  remaining g = take (Z.to_nat n) (contents (dest_ w)) ->
  exists k r, read_all (S (List.length rs)) (new_Reader g reporter checksum 0) = (Ret (take k rs), r) /\ reports r = [] /\
    forall j wj, (j <= List.length rs)%nat -> add_all (take j rs) (new_Writer f) = (Ret tt, wj) ->
      size (contents (dest_ wj)) <= n -> (j <= k)%nat.
Proof.
  intros Hf Hok Hw Hs Hn Hg. destruct (read_log f rs w g n reporter checksum Hf Hok Hw Hs Hn Hg) as (k & r & E & Hrep & _ & Hmax).
  by exists k, r.
Qed.
End Log.

(** ** Files in memory *)

#[export] Instance memory_writable : WritableFile (list Z) :=
  {| file_Append data f := (OK, f ++ data); file_Flush f := (OK, f) |}.

#[export, program] Instance memory_writable_laws : WritableFileLaws memory_writable := {| contents f := f |}.
Next Obligation. done. Qed.
Next Obligation. done. Qed.

#[export] Instance memory_sequential : SequentialFile (list Z) :=
  {| file_Read n f := (OK, take (Z.to_nat n) f, drop (Z.to_nat n) f); file_Skip n f := (OK, drop (Z.to_nat n) f) |}.

#[export, program] Instance memory_sequential_laws : SequentialFileLaws memory_sequential := {| remaining f := f |}.
Next Obligation. intros n f. by eexists. Qed.
Next Obligation. intros n f. by eexists. Qed.

Definition sample_log_records : list Slice := [literal "put a"; []; literal "delete b"].

Lemma sample_records_bytes : Forall record_ok sample_log_records.
Proof. repeat constructor; try apply literal_byte; vm_compute; done. Qed.

Definition sample_log : Writer (list Z) := snd (add_all sample_log_records (new_Writer [])).

Lemma sample_log_written : add_all sample_log_records (new_Writer []) = (Ret tt, sample_log).
Proof. vm_compute. reflexivity. Qed.

Lemma log_roundtrip_witness :
  exists r, read_all 4 (new_Reader (dest_ sample_log) true true 0) = (Ret sample_log_records, r) /\ reports r = [].
Proof.
  apply (log_roundtrip [] sample_log_records sample_log (dest_ sample_log) true true);
    [reflexivity|exact sample_records_bytes|exact sample_log_written|vm_compute; reflexivity|reflexivity].
Defined.

Lemma log_truncated_witness :
  exists k r, read_all 4 (new_Reader (take 20 (dest_ sample_log)) true true 0) = (Ret (take k sample_log_records), r) /\ reports r = [] /\ (2 <= k + 0)%nat.
Proof.
  destruct (log_truncated [] sample_log_records sample_log (take 20 (dest_ sample_log)) 20 true true) as (k & r & E & Hr & Hmax);
    [reflexivity|exact sample_records_bytes|exact sample_log_written|vm_compute; reflexivity|lia|reflexivity|].
  exists k, r. split; [exact E|]. split; [exact Hr|]. rewrite Nat.add_0_r.
  apply (Hmax 2%nat (snd (add_all (take 2 sample_log_records) (new_Writer [])))); [cbn; lia|vm_compute; reflexivity|vm_compute; congruence].
Defined.

Section Reader.
Context {F : Type} {RF : SequentialFile F} {L : SequentialFileLaws RF}.

(** The bytes that were not looked at. *)
Definition unread (s : Reader F) : Z := size (buffer_ s) + size (remaining (file_ s)).

Definition unread_reads (s : Reader F) : Z := size (remaining (file_ s)) + (if eof_ s then 0 else 1).

Lemma unread_nonneg s : 0 <= unread s.
Proof. unfold unread. pose proof (size_nonneg (buffer_ s)). pose proof (size_nonneg (remaining (file_ s))). lia. Qed.

Lemma unread_reads_nonneg s : 0 <= unread_reads s.
Proof. unfold unread_reads. pose proof (size_nonneg (remaining (file_ s))). destruct (eof_ s); lia. Qed.

(** A report changes nothing else. *)
Lemma wp_report b reason s (Q : unit -> Reader F -> Prop) :
  (forall s', file_ s' = file_ s -> buffer_ s' = buffer_ s -> eof_ s' = eof_ s -> Q tt s') ->
  wp (ReportDrop b reason) Q (fun _ => False) s.
Proof.
  intros HQ. unfold ReportDrop. apply wp_bind, wp_get.
  destruct (_ && _); [apply wp_modify|apply wp_ret]; by apply HQ.
Qed.

Lemma wp_read_file n s (Q : Status * Slice -> Reader F -> Prop) :
  (forall f', remaining f' = drop (Z.to_nat n) (remaining (file_ s)) -> Q (OK, take (Z.to_nat n) (remaining (file_ s))) (set_file f' s)) ->
  wp (read_file n) Q (fun _ => False) s.
Proof.
  intros HQ. unfold wp, read_file. destruct (Read_remaining n (file_ s)) as (f' & E & Hf). rewrite E. by apply HQ.
Qed.

Lemma DecodeFixed32_some l : 4 <= size l -> exists v, DecodeFixed32 l = Some v.
Proof.
  intros Hl. unfold DecodeFixed32. destruct l as [|b0 [|b1 [|b2 [|b3 l]]]]; try (vm_compute in Hl; congruence). by eexists.
Qed.

(** The file holds bytes. *)
Definition all_bytes (s : Reader F) : Prop := Forall byte (buffer_ s) /\ Forall byte (remaining (file_ s)).

Lemma nth_byte l i : Forall byte l -> 0 <= nth i l 0.
Proof.
  intros Hl. destruct (nth_in_or_default i l 0) as [Hin| ->]; [|lia].
  apply List.Forall_forall with (x := nth i l 0) in Hl; [unfold byte in Hl; lia|done].
Qed.

(** What a call leaves: bytes, and fewer of them unless it is the end. *)
Definition progress (s s' : Reader F) (ended : Prop) : Prop :=
  all_bytes s' /\ unread s' <= unread s /\ (ended \/ unread s' <= unread s - 7).

Lemma progress_drop s s' ended n :
  all_bytes s -> 7 <= n <= size (buffer_ s) -> buffer_ s' = drop (Z.to_nat n) (buffer_ s) -> file_ s' = file_ s -> progress s s' ended.
Proof.
  intros [Hb Hf] Hn Hbuf Hfile. unfold progress, all_bytes, unread. rewrite Hbuf, Hfile, size_drop by lia.
  split; [split; [by apply Forall_drop|done]|lia].
Qed.

Lemma progress_empty s s' ended :
  all_bytes s -> 7 <= size (buffer_ s) -> buffer_ s' = [] -> file_ s' = file_ s -> progress s s' ended.
Proof.
  intros Ha Hn Hbuf Hfile. apply (progress_drop s s' ended (size (buffer_ s))); [done|lia|by rewrite drop_size|done].
Qed.

Lemma progress_trans s1 s2 s3 ended :
  unread s2 <= unread s1 -> progress s2 s3 ended -> progress s1 s3 ended.
Proof. unfold progress. intros Hle (Ha & Hu & He). split; [done|]. split; [lia|]. destruct He as [He|He]; [by left|right; lia]. Qed.

Lemma physical_returns result s :
  all_bytes s -> unread s < 2 ^ 64 ->
  wp (ReadPhysicalRecord result) (fun r s' => progress s s' (fst r = kEof)) (fun _ => False) s.
Proof.
  intros Hall Hs. unfold ReadPhysicalRecord.
  apply (wp_loop (physical_step result) (fun _ t => all_bytes t /\ unread t <= unread s) (fun _ => unread_reads)); [|done|].
  2: { unfold unread_reads, unread in *. pose proof (size_nonneg (buffer_ s)). destruct (eof_ s); lia. }
  intros [] t [Ht Hle]. split; [apply unread_reads_nonneg|].
  assert (Hdone : forall m : M (Reader F) (unit + Z * Slice), wp m (fun r s' => match r with inl _ => False | inr x => progress t s' (fst x = kEof) end) (fun _ => False) t ->
    wp m (fun r s' => match r with inl _ => (all_bytes s' /\ unread s' <= unread s) /\ unread_reads s' < unread_reads t
                      | inr x => progress s s' (fst x = kEof) end) (fun _ => False) t).
  { intros m Hm. eapply wp_mono; [exact Hm| |done]. intros [u|x] s' H; [done|]. by eapply progress_trans. }
  unfold physical_step. apply wp_bind, wp_get.
  pose proof (size_nonneg (buffer_ t)) as Hb. pose proof (size_nonneg (remaining (file_ t))) as Hf. change kHeaderSize with 7.
  destruct (Z.ltb_spec (size (buffer_ t)) 7) as [Hlt|Hge].
  - destruct (eof_ t) eqn:He; cbn [negb].
    + apply wp_bind, wp_modify, wp_ret. unfold progress, all_bytes, unread in *. cbn. rewrite size_nil.
      split; [split; [constructor|apply Ht]|]. split; [lia|by left].
    + apply wp_bind, wp_modify, wp_bind, wp_read_file. intros f' Hf'. cbn [ok OK negb file_ set_buffer] in *.
      apply wp_bind, wp_modify, wp_bind, wp_modify.
      set (data := take (Z.to_nat kBlockSize) (remaining (file_ t))) in *.
      assert (Hsum : size data + size (remaining f') = size (remaining (file_ t))).
      { rewrite Hf'. unfold data. rewrite <- (take_drop (Z.to_nat kBlockSize) (remaining (file_ t))) at 3. by rewrite size_app. }
      assert (Hbytes : Forall byte data /\ Forall byte (remaining f')).
      { rewrite Hf'. destruct Ht as [_ Hrem]. split; [by apply Forall_take|by apply Forall_drop]. }
      assert (Hzero : size data < kBlockSize \/ 0 < size data) by (unfold kBlockSize; pose proof (size_nonneg data); lia).
      pose proof (size_nonneg data). pose proof (size_nonneg (remaining f')).
      destruct (Z.ltb_spec (size data) kBlockSize) as [Hshort|Hfull].
      * apply wp_bind, wp_modify, wp_ret. split; [split; [done|]|]; unfold unread, unread_reads in *; cbn; rewrite ?He; lia.
      * apply wp_bind, wp_ret, wp_ret. split; [split; [done|]|]; unfold unread, unread_reads in *; cbn; rewrite ?He; unfold kBlockSize in *; lia.
  - apply Hdone. cbv zeta. set (length := Z.lor _ _). set (type := u32 _).
    destruct (Z.ltb_spec (size (buffer_ t)) (7 + length)) as [Hshort|Hfit].
    + apply wp_bind, wp_modify. destruct (negb (eof_ t)); [apply wp_bind, wp_report; intros s' Hfl Hbf _|]; apply wp_ret;
        by apply progress_empty.
    + destruct (_ && _); [apply wp_bind, wp_modify, wp_ret; by apply progress_empty|].
      destruct (DecodeFixed32_some (buffer_ t) ltac:(lia)) as (stored & ->).
      destruct (_ && _); [apply wp_bind, wp_modify, wp_bind, wp_report; intros s' Hfl Hbf _; apply wp_ret; by apply progress_empty|].
      apply wp_bind, wp_modify, wp_bind, wp_get.
      assert (Hlen : 0 <= length).
      { apply Z.lor_nonneg. rewrite Z.shiftl_nonneg. destruct Ht as [Htb _]. split; by apply nth_byte. }
      destruct (_ <? _); apply wp_ret; apply (progress_drop t _ _ (7 + length)); done || lia.
Qed.

(** Whatever a round of [ReadRecord] does but to return [false], it has read a
    physical record. *)
Lemma step_returns l s :
  all_bytes s -> unread s < 2 ^ 64 ->
  wp (record_step l) (fun r s' => all_bytes s' /\ unread s' <= unread s /\ (r = inr None \/ unread s' <= unread s - 7)) (fun _ => False) s.
Proof.
  intros Ha Hs. unfold record_step. apply wp_bind.
  eapply wp_mono; [exact (physical_returns (fragment l) s Ha Hs)| |done].
  intros [type frag] t (Hat & Hle & Hp). cbn [fst] in Hp. cbv zeta. apply wp_bind, wp_get.
  (* the rest reports and changes offsets and flags *)
  assert (Hsame : forall t' (r : read_locals + option Slice), file_ t' = file_ t -> buffer_ t' = buffer_ t ->
    type <> kEof \/ r = inr None ->
    all_bytes t' /\ unread t' <= unread s /\ (r = inr None \/ unread t' <= unread s - 7)).
  { intros t' r Hf Hb Hr. unfold all_bytes, unread in *. rewrite Hf, Hb. split; [done|]. split; [lia|]. destruct Hr as [Hr|Hr]; [|by left].
    right. by destruct Hp. }
  assert (Htypes : forall v, v <> kEof -> type = v -> type <> kEof) by (intros; congruence).
  assert (Hmid : RecordType_value kMiddleType <> kEof) by done. assert (Hlast : RecordType_value kLastType <> kEof) by done.
  assert (Hfull : RecordType_value kFullType <> kEof) by done. assert (Hfirst : RecordType_value kFirstType <> kEof) by done.
  destruct (resyncing_ t); cbn [andb];
  repeat match goal with
  | |- context [Z.eqb type ?v] => destruct (Z.eqb_spec type v)
  | |- wp (if ?b then _ else _) _ _ _ => destruct b
  | |- wp (bind (if ?b then _ else _) _) _ _ _ => destruct b
  | |- wp (bind (bind _ _) _) _ _ _ => apply wp_bind
  | |- wp (bind (modify _) _) _ _ _ => apply wp_bind, wp_modify
  | |- wp (bind (ret _) _) _ _ _ => apply wp_bind, wp_ret
  | |- wp (bind (ReportCorruption _ _) _) _ _ _ => apply wp_bind, wp_report; intros ? ? ? ?
  | |- wp (bind (ReportDrop _ _) _) _ _ _ => apply wp_bind, wp_report; intros ? ? ? ?
  | |- wp (modify _) _ _ _ => apply wp_modify
  | |- wp (ret _) _ _ _ => apply wp_ret
  end;
  apply Hsame; cbn in *; (congruence || (by left; congruence) || (by right) || idtac).
Qed.

Lemma wp_skip s :
  all_bytes s -> wp SkipToInitialBlock (fun found s' => all_bytes s' /\ unread s' <= unread s) (fun _ => False) s.
Proof.
  intros [Hb Hf]. unfold SkipToInitialBlock. apply wp_bind, wp_get. cbv zeta. apply wp_bind, wp_modify.
  destruct (0 <? _); [|by apply wp_ret].
  apply wp_bind. unfold wp, skip_file. cbn [file_ set_end_of_buffer_offset].
  match goal with |- context [file_Skip ?n (file_ s)] => destruct (Skip_remaining n (file_ s)) as (f' & E & Hf'); rewrite E end.
  cbn [ok OK negb]. unfold all_bytes, unread. cbn. rewrite Hf'. split; [split; [done|by apply Forall_drop]|].
  unfold size. rewrite length_drop. lia.
Qed.

Lemma ReadRecord_returns s :
  all_bytes s -> unread s < 2 ^ 64 ->
  exists o s', ReadRecord s = (Ret o, s') /\ all_bytes s' /\ unread s' <= unread s /\ (o = None \/ unread s' <= unread s - 7).
Proof.
  intros Ha Hs.
  assert (Hwp : wp ReadRecord (fun o s' => all_bytes s' /\ unread s' <= unread s /\ (o = None \/ unread s' <= unread s - 7)) (fun _ => False) s).
  { unfold ReadRecord. apply wp_bind, wp_get, wp_bind.
    assert (Hloop : forall t, all_bytes t -> unread t <= unread s ->
      wp (loop record_step (mk_locals [] [] false 0)) (fun o s' => all_bytes s' /\ unread s' <= unread s /\ (o = None \/ unread s' <= unread s - 7)) (fun _ => False) t).
    { intros t Hat Hle. apply (wp_loop record_step (fun _ u => all_bytes u /\ unread u <= unread s) (fun _ => unread)); [|done|lia].
      intros l u [Hau Hu]. split; [apply unread_nonneg|].
      eapply wp_mono; [apply (step_returns l u Hau); lia| |done].
      intros [l'|o] v (Hav & Hv & Hr); [|split; [done|split; [lia|destruct Hr as [[= ->]|Hr]; [by left|right; lia]]]].
      destruct Hr as [Hr|Hr]; [done|]. split; [split; [done|lia]|lia]. }
    destruct (_ <? _); [eapply wp_mono; [by apply wp_skip| |done]|apply wp_ret; by apply Hloop].
    intros found t [Hat Hle]. destruct found; cbn [negb]; [by apply Hloop|]. apply wp_ret. split; [done|]. split; [lia|by left]. }
  revert Hwp. unfold wp. destruct (ReadRecord s) as [[o| |] s']; [|done|done]. intros Ho. by exists o, s'.
Qed.

Lemma read_all_returns n : forall s,
  all_bytes s -> unread s < 2 ^ 64 -> unread s < 7 * Z.of_nat n ->
  exists rs s', read_all n s = (Ret rs, s') /\ (List.length rs < n)%nat.
Proof.
  induction n as [|n IH]; intros s Ha Hs Hn; [pose proof (unread_nonneg s); lia|].
  destruct (ReadRecord_returns s Ha Hs) as (o & s1 & E & Ha1 & Hle & Ho). cbn [read_all]. rewrite (bind_Ret _ _ _ _ _ E).
  destruct o as [record|]; [|eexists [], s1; split; [done|cbn; lia]].
  destruct Ho as [|Ho]; [done|]. destruct (IH s1 Ha1 ltac:(lia) ltac:(lia)) as (rs & s2 & E2 & Hlen).
  rewrite (bind_Ret _ _ _ _ _ E2). exists (record :: rs), s2. split; [done|cbn; lia].
Qed.

(** C20: Reading a file always comes to an end: on any bytes, from any initial
    offset, with or without checksums, [ReadRecord] returns [false] after at most
    one record for every seven bytes of the file, however the file is damaged. *)
Theorem log_reading_ends (g : F) (reporter checksum : bool) (initial_offset : Z) :
  Forall byte (remaining g) -> size (remaining g) < 2 ^ 64 ->
  let n := S (Z.to_nat (size (remaining g) / 7)) in
  exists rs r, read_all n (new_Reader g reporter checksum initial_offset) = (Ret rs, r) /\ (List.length rs < n)%nat.
Proof.
  intros Hg Hs n. pose proof (size_nonneg (remaining g)).
  apply read_all_returns; unfold all_bytes, unread, n; cbn; [done|unfold size in *; cbn; lia|].
  rewrite size_nil. zlia.
Qed.
End Reader.

(** A file of which a byte was changed. *)
Lemma log_reading_ends_witness :
  let g := <[9%nat := 0]> (dest_ sample_log) in
  exists rs r, read_all 5 (new_Reader g true true 3) = (Ret rs, r) /\ (List.length rs < 5)%nat.
Proof.
  intros g. assert (En : 5%nat = S (Z.to_nat (size (remaining g) / 7))) by (vm_compute; reflexivity). rewrite En.
  apply (log_reading_ends g true true 3).
  - apply List.Forall_forall. intros x Hx. vm_compute in Hx. unfold byte. repeat destruct Hx as [<-|Hx]; lia.
  - vm_compute. reflexivity.
Defined.
