(* ===== verification/LdbTable.v ===== *)
(** [table/table_builder.cc] and [table/table.cc]: tables, files of blocks with an
    index and a filter. *)

From Stdlib Require Import ZArith Lia List String Bool.
From stdpp Require Import base list.
From S2P Require Import Prelude Base128 LdbBase LdbCoding LdbCrc32c LdbFilter LdbKeys LdbLog LdbBlock LdbIterator LdbTwoLevelProps LdbFormat.

(** ** [TableBuilder] *)

(** The members of [Rep]; [filter_block] holds its policy. [compressed_output] is empty
    between the calls. *)
Record TableBuilder (F : Type) := mk_tb {
  tb_options : Options;
  tb_index_block_options : Options;
  tb_file : F;
  tb_offset : Z;
  tb_status : Status;
  tb_data_block : BlockBuilder;
  tb_index_block : BlockBuilder;
  tb_last_key : list Z;
  tb_num_entries : Z;
  tb_closed : bool;
  tb_filter_block : option (FilterPolicy * FilterBlockBuilder);
  tb_pending_index_entry : bool;
  tb_pending_handle : BlockHandle
}.
Arguments mk_tb {F}.
Arguments tb_options {F}.
Arguments tb_index_block_options {F}.
Arguments tb_file {F}.
Arguments tb_offset {F}.
Arguments tb_status {F}.
Arguments tb_data_block {F}.
Arguments tb_index_block {F}.
Arguments tb_last_key {F}.
Arguments tb_num_entries {F}.
Arguments tb_closed {F}.
Arguments tb_filter_block {F}.
Arguments tb_pending_index_entry {F}.
Arguments tb_pending_handle {F}.

Section Builder.
Context {F : Type} {W : WritableFile F} {C : Comparator}.

Definition set_tb_options (o i : Options) (t : TableBuilder F) : TableBuilder F :=
  mk_tb o i (tb_file t) (tb_offset t) (tb_status t) (tb_data_block t) (tb_index_block t) (tb_last_key t) (tb_num_entries t) (tb_closed t) (tb_filter_block t) (tb_pending_index_entry t) (tb_pending_handle t).
Definition set_tb_file (f : F) (t : TableBuilder F) : TableBuilder F :=
  mk_tb (tb_options t) (tb_index_block_options t) f (tb_offset t) (tb_status t) (tb_data_block t) (tb_index_block t) (tb_last_key t) (tb_num_entries t) (tb_closed t) (tb_filter_block t) (tb_pending_index_entry t) (tb_pending_handle t).
Definition set_tb_offset (offset : Z) (t : TableBuilder F) : TableBuilder F :=
  mk_tb (tb_options t) (tb_index_block_options t) (tb_file t) offset (tb_status t) (tb_data_block t) (tb_index_block t) (tb_last_key t) (tb_num_entries t) (tb_closed t) (tb_filter_block t) (tb_pending_index_entry t) (tb_pending_handle t).
Definition set_tb_status (s : Status) (t : TableBuilder F) : TableBuilder F :=
  mk_tb (tb_options t) (tb_index_block_options t) (tb_file t) (tb_offset t) s (tb_data_block t) (tb_index_block t) (tb_last_key t) (tb_num_entries t) (tb_closed t) (tb_filter_block t) (tb_pending_index_entry t) (tb_pending_handle t).
Definition set_tb_data_block (b : BlockBuilder) (t : TableBuilder F) : TableBuilder F :=
  mk_tb (tb_options t) (tb_index_block_options t) (tb_file t) (tb_offset t) (tb_status t) b (tb_index_block t) (tb_last_key t) (tb_num_entries t) (tb_closed t) (tb_filter_block t) (tb_pending_index_entry t) (tb_pending_handle t).
Definition set_tb_index_block (b : BlockBuilder) (t : TableBuilder F) : TableBuilder F :=
  mk_tb (tb_options t) (tb_index_block_options t) (tb_file t) (tb_offset t) (tb_status t) (tb_data_block t) b (tb_last_key t) (tb_num_entries t) (tb_closed t) (tb_filter_block t) (tb_pending_index_entry t) (tb_pending_handle t).
Definition set_tb_last_key (k : list Z) (t : TableBuilder F) : TableBuilder F :=
  mk_tb (tb_options t) (tb_index_block_options t) (tb_file t) (tb_offset t) (tb_status t) (tb_data_block t) (tb_index_block t) k (tb_num_entries t) (tb_closed t) (tb_filter_block t) (tb_pending_index_entry t) (tb_pending_handle t).
Definition set_tb_num_entries (n : Z) (t : TableBuilder F) : TableBuilder F :=
  mk_tb (tb_options t) (tb_index_block_options t) (tb_file t) (tb_offset t) (tb_status t) (tb_data_block t) (tb_index_block t) (tb_last_key t) n (tb_closed t) (tb_filter_block t) (tb_pending_index_entry t) (tb_pending_handle t).
Definition set_tb_closed (t : TableBuilder F) : TableBuilder F :=
  mk_tb (tb_options t) (tb_index_block_options t) (tb_file t) (tb_offset t) (tb_status t) (tb_data_block t) (tb_index_block t) (tb_last_key t) (tb_num_entries t) true (tb_filter_block t) (tb_pending_index_entry t) (tb_pending_handle t).
Definition set_tb_filter_block (b : option (FilterPolicy * FilterBlockBuilder)) (t : TableBuilder F) : TableBuilder F :=
  mk_tb (tb_options t) (tb_index_block_options t) (tb_file t) (tb_offset t) (tb_status t) (tb_data_block t) (tb_index_block t) (tb_last_key t) (tb_num_entries t) (tb_closed t) b (tb_pending_index_entry t) (tb_pending_handle t).
Definition set_tb_pending_index_entry (p : bool) (t : TableBuilder F) : TableBuilder F :=
  mk_tb (tb_options t) (tb_index_block_options t) (tb_file t) (tb_offset t) (tb_status t) (tb_data_block t) (tb_index_block t) (tb_last_key t) (tb_num_entries t) (tb_closed t) (tb_filter_block t) p (tb_pending_handle t).
Definition set_tb_pending_handle (h : BlockHandle) (t : TableBuilder F) : TableBuilder F :=
  mk_tb (tb_options t) (tb_index_block_options t) (tb_file t) (tb_offset t) (tb_status t) (tb_data_block t) (tb_index_block t) (tb_last_key t) (tb_num_entries t) (tb_closed t) (tb_filter_block t) (tb_pending_index_entry t) h.

(** [index_block_options] of [options]. *)
Definition index_options (o : Options) : Options :=
  mk_options (create_if_missing o) (error_if_exists o) (paranoid_checks o) (write_buffer_size o) (max_open_files o) (block_cache o) (block_size o) 1
    (max_file_size o) (compression o) (reuse_logs o) (filter_policy o).

(** [if (r->filter_block != nullptr)] *)
Definition on_filter (f : FilterPolicy -> FilterBlockBuilder -> FilterBlockBuilder) (t : TableBuilder F) : TableBuilder F :=
  set_tb_filter_block (match tb_filter_block t with Some (p, b) => Some (p, f p b) | None => None end) t.

Definition new_TableBuilder (options : Options) (file : F) : TableBuilder F :=
  on_filter (fun p => StartBlock (P := p) 0)
    (mk_tb options (index_options options) file 0 OK new_BlockBuilder new_BlockBuilder [] 0 false
       (match filter_policy options with Some p => Some (p, new_FilterBlockBuilder) | None => None end) false new_BlockHandle).

Definition tb_ok (t : TableBuilder F) : bool := ok (tb_status t).

(** [same_comparator]: [options] holds the comparator of the builder. *)
Definition ChangeOptions (same_comparator : bool) (options : Options) : M (TableBuilder F) Status :=
  if negb same_comparator then ret (InvalidArgument (literal "changing comparator while building table") [])
  else modify (set_tb_options options (index_options options)) ;; ret OK.

(** [r->status = r->file->...] *)
Definition tb_Append (data : Slice) : M (TableBuilder F) unit := fun t =>
  let '(s, f) := file_Append data (tb_file t) in (Ret tt, set_tb_status s (set_tb_file f t)).
Definition tb_file_Flush : M (TableBuilder F) unit := fun t =>
  let '(s, f) := file_Flush (tb_file t) in (Ret tt, set_tb_status s (set_tb_file f t)).

(** The handle is set before anything is written. *)
Definition WriteRawBlock (block_contents : Slice) (type : CompressionType) : M (TableBuilder F) BlockHandle :=
  t <- get ;;
  let handle := mk_handle (tb_offset t) (size block_contents) in
  tb_Append block_contents ;;
  t <- get ;;
  (if tb_ok t then
     let crc := Extend (Value block_contents) [CompressionType_value type] in
     tb_Append ([CompressionType_value type] ++ EncodeFixed32 (Mask crc)) ;;
     t <- get ;;
     if tb_ok t then modify (set_tb_offset (u64 (tb_offset t + u64 (size block_contents + kBlockTrailerSize)))) else ret tt
   else ret tt) ;;
  ret handle.

(** The block after its [Reset], and the handle. *)
Definition WriteBlock (block : BlockBuilder) : M (TableBuilder F) (BlockBuilder * BlockHandle) :=
  t <- get ;;
  let '(block, raw) := bb_Finish block in
  let '(block_contents, type) :=
    match compression (tb_options t) with
    | kNoCompression => (raw, kNoCompression)
    | kSnappyCompression =>
        match Snappy_Compress raw with
        | Some compressed =>
            if size compressed <? u64 (size raw - size raw / 8) then (compressed, kSnappyCompression) else (raw, kNoCompression)
        | None => (raw, kNoCompression)
        end
    end in
  handle <- WriteRawBlock block_contents type ;;
  ret (bb_Reset block, handle).

Definition tb_Flush : M (TableBuilder F) unit :=
  t <- get ;;
  if negb (tb_ok t) then ret tt
  else if bb_empty (tb_data_block t) then ret tt
  else
    r <- WriteBlock (tb_data_block t) ;;
    let '(block, handle) := r in
    modify (set_tb_data_block block) ;; modify (set_tb_pending_handle handle) ;;
    t <- get ;;
    (if tb_ok t then modify (set_tb_pending_index_entry true) ;; tb_file_Flush else ret tt) ;;
    t <- get ;;
    modify (on_filter (fun p => StartBlock (P := p) (tb_offset t))).

(** The entry of the last block, under the key [key] that separates it. *)
Definition add_index_entry (key : option (list Z)) : M (TableBuilder F) unit :=
  match key with
  | None => stuck
  | Some key =>
      modify (set_tb_last_key key) ;;
      t <- get ;;
      modify (set_tb_index_block
        (bb_Add (block_restart_interval (tb_index_block_options t)) key (handle_EncodeTo (tb_pending_handle t) []) (tb_index_block t))) ;;
      modify (set_tb_pending_index_entry false)
  end.

Definition tb_Add (key value : Slice) : M (TableBuilder F) unit :=
  t <- get ;;
  if negb (tb_ok t) then ret tt
  else
    (if tb_pending_index_entry t then add_index_entry (FindShortestSeparator (tb_last_key t) key) else ret tt) ;;
    modify (on_filter (fun p => AddKey key)) ;;
    modify (set_tb_last_key key) ;;
    modify (fun t => set_tb_num_entries (tb_num_entries t + 1) t) ;;
    modify (fun t => set_tb_data_block (bb_Add (block_restart_interval (tb_options t)) key value (tb_data_block t)) t) ;;
    t <- get ;;
    let estimated_block_size := bb_CurrentSizeEstimate (tb_data_block t) in
    if block_size (tb_options t) <=? estimated_block_size then tb_Flush else ret tt.

(** [if (ok())] *)
Definition if_ok {A} (otherwise : A) (m : M (TableBuilder F) A) : M (TableBuilder F) A :=
  t <- get ;; if tb_ok t then m else ret otherwise.

Definition tb_Finish : M (TableBuilder F) Status :=
  tb_Flush ;;
  modify set_tb_closed ;;
  filter_block_handle <- if_ok new_BlockHandle
    (t <- get ;;
     match tb_filter_block t with
     | Some (p, b) => WriteRawBlock (fb_Finish (P := p) b) kNoCompression
     | None => ret new_BlockHandle
     end) ;;
  metaindex_block_handle <- if_ok new_BlockHandle
    (t <- get ;;
     meta_index_block <-
       match tb_filter_block t with
       | Some _ =>
           match filter_policy (tb_options t) with
           | Some p =>
               let key := literal "filter." ++ policy_Name (FilterPolicy := p) in
               ret (bb_Add (block_restart_interval (tb_options t)) key (handle_EncodeTo filter_block_handle []) new_BlockBuilder)
           | None => stuck
           end
       | None => ret new_BlockBuilder
       end ;;
     r <- WriteBlock meta_index_block ;; ret (snd r)) ;;
  index_block_handle <- if_ok new_BlockHandle
    (t <- get ;;
     (if tb_pending_index_entry t then add_index_entry (FindShortSuccessor (tb_last_key t)) else ret tt) ;;
     t <- get ;;
     r <- WriteBlock (tb_index_block t) ;;
     modify (set_tb_index_block (fst r)) ;; ret (snd r)) ;;
  if_ok tt
    (let footer_encoding := footer_EncodeTo (mk_footer metaindex_block_handle index_block_handle) [] in
     tb_Append footer_encoding ;;
     t <- get ;;
     if tb_ok t then modify (set_tb_offset (u64 (tb_offset t + size footer_encoding))) else ret tt) ;;
  gets tb_status.

Definition tb_Abandon : M (TableBuilder F) unit := modify set_tb_closed.
Definition NumEntries (t : TableBuilder F) : Z := u64 (tb_num_entries t).
Definition FileSize (t : TableBuilder F) : Z := tb_offset t.
End Builder.

(** ** [Table] *)

(** The cache of blocks, with its state [S]; [cache.h] is behind this interface. *)
Class BlockCache (S : Type) := {
  cache_NewId : M S Z;
  cache_Lookup : Slice -> M S (option Block);
  cache_Insert : Slice -> Block -> Z -> M S unit
}.

(** [filter_data] is only kept to be deleted. *)
Record Table (F : Type) := mk_table {
  t_options : Options;
  t_file : F;
  t_cache_id : Z;
  t_filter : option (FilterPolicy * FilterBlockReader);
  t_metaindex_handle : BlockHandle;
  t_index_block : Block
}.
Arguments mk_table {F}.
Arguments t_options {F}.
Arguments t_file {F}.
Arguments t_cache_id {F}.
Arguments t_filter {F}.
Arguments t_metaindex_handle {F}.
Arguments t_index_block {F}.

Section Table.
Context {F : Type} {R : RandomAccessFile F} {S : Type} {K : BlockCache S} {C : Comparator}.

Definition meta_ReadOptions (options : Options) : ReadOptions := mk_read_options (paranoid_checks options) true.

(** The filter of the table, if there is one to be had. *)
Definition ReadFilter (options : Options) (file : F) (policy : FilterPolicy) (filter_handle_value : Slice) :
    option (option (FilterPolicy * FilterBlockReader)) :=
  let '(s, filter_handle, _) := handle_DecodeFrom new_BlockHandle filter_handle_value in
  if negb (ok s) then Some None
  else
    r ← ReadBlock file (meta_ReadOptions options) filter_handle;
    let '(s, block) := r in
    if negb (ok s) then Some None else Some (Some (policy, new_FilterBlockReader (bc_data block))).

Definition ReadMeta (options : Options) (file : F) (metaindex_handle : BlockHandle) :
    option (option (FilterPolicy * FilterBlockReader)) :=
  match filter_policy options with
  | None => Some None
  | Some policy =>
      r ← ReadBlock file (meta_ReadOptions options) metaindex_handle;
      let '(s, contents) := r in
      if negb (ok s) then Some None
      else
        meta ← new_Block (bc_data contents);
        iter ← NewIterator meta;
        let key := literal "filter." ++ policy_Name (FilterPolicy := policy) in
        let seek := it_Seek (IteratorOps := BlockIterator_ops (C := BytewiseComparator)) key ;;
          it <- get ;;
          if it_Valid (IteratorOps := BlockIterator_ops (C := BytewiseComparator)) it then
            k <- it_key (IteratorOps := BlockIterator_ops (C := BytewiseComparator)) ;;
            if Slice_eq k key then v <- it_value (IteratorOps := BlockIterator_ops (C := BytewiseComparator)) ;; ret (Some v) else ret None
          else ret None in
        match fst (seek iter) with
        | Ret (Some v) => ReadFilter options file policy v
        | Ret None => Some None
        | _ => None
        end
  end.

Definition Open (options : Options) (file : F) (sz : Z) : M S (Status * option (Table F)) :=
  if sz <? kEncodedLength then ret (Corruption (literal "file is too short to be an sstable") [], None)
  else
    let '(s, footer_input, _) := ra_Read file (sz - kEncodedLength) kEncodedLength in
    if negb (ok s) then ret (s, None)
    else
      r <- or_stuck (footer_DecodeFrom new_Footer footer_input) ;;
      let '(s, footer, _) := r in
      if negb (ok s) then ret (s, None)
      else
        r <- or_stuck (ReadBlock file (meta_ReadOptions options) (index_handle_ footer)) ;;
        let '(s, index_block_contents) := r in
        if ok s then
          index_block <- or_stuck (new_Block (bc_data index_block_contents)) ;;
          cache_id <- (if block_cache options then cache_NewId else ret 0) ;;
          filter <- or_stuck (ReadMeta options file (metaindex_handle_ footer)) ;;
          ret (s, Some (mk_table options file cache_id filter (metaindex_handle_ footer) index_block))
        else ret (s, None).

(** The key of a block in the cache. *)
Definition cache_key (table : Table F) (handle : BlockHandle) : Slice :=
  EncodeFixed64 (t_cache_id table) ++ EncodeFixed64 (bh_offset handle).

(** The iterator over the block of a handle; the cleanup functions release the
    block. *)
Definition BlockReader (table : Table F) (options : ReadOptions) (index_value : Slice) : M S BlockIterator :=
  let '(s, handle, _) := handle_DecodeFrom new_BlockHandle index_value in
  if negb (ok s) then ret (ErrorIterator s)
  else
    let read :=
      r <- or_stuck (ReadBlock (t_file table) options handle) ;;
      let '(s, contents) := r in
      if ok s then
        block <- or_stuck (new_Block (bc_data contents)) ;;
        ret (inr (block, contents))
      else ret (inl s) in
    block <-
      (if block_cache (t_options table) then
         let key := cache_key table handle in
         cached <- cache_Lookup key ;;
         match cached with
         | Some block => ret (inr block)
         | None =>
             r <- read ;;
             match r with
             | inr (block, contents) =>
                 (if cachable contents && fill_cache options then cache_Insert key block (LdbBlock.block_size block) else ret tt) ;;
                 ret (inr block)
             | inl s => ret (inl s)
             end
         end
       else
         r <- read ;; ret (match r with inr (block, _) => inr block | inl s => inl s end)) ;;
    match block with
    | inr block => or_stuck (NewIterator block)
    | inl s => ret (ErrorIterator s)
    end.

(** [InternalGet]: the arguments of [handle_result], if it is called, and the
    status. *)
Definition InternalGet (table : Table F) (options : ReadOptions) (k : Slice) : M S (option (Slice * Slice) * Status) :=
  iiter <- or_stuck (NewIterator (t_index_block table)) ;;
  iiter <- or_stuck (match it_Seek k iiter with (Ret tt, it) => Some it | _ => None end) ;;
  r <- (if it_Valid iiter then
          handle_value <- or_stuck (match it_value iiter with (Ret v, _) => Some v | _ => None end) ;;
          excluded <- or_stuck
            (match t_filter table with
             | Some (p, filter) =>
                 let '(s, handle, _) := handle_DecodeFrom new_BlockHandle handle_value in
                 if ok s then negb <$> reader_KeyMayMatch (P := p) filter (bh_offset handle) k else Some false
             | None => Some false
             end) ;;
          if excluded : bool then ret (None, OK)
          else
            block_iter <- BlockReader table options handle_value ;;
            block_iter <- or_stuck (match it_Seek k block_iter with (Ret tt, it) => Some it | _ => None end) ;;
            found <- or_stuck
              (if it_Valid block_iter then
                 match it_key block_iter, it_value block_iter with
                 | (Ret key, _), (Ret value, _) => Some (Some (key, value))
                 | _, _ => None
                 end
               else Some None) ;;
            ret (found, it_status block_iter)
        else ret (None, OK)) ;;
  let '(found, s) := r in
  ret (found, if ok s then it_status iiter else s).

Definition ApproximateOffsetOf (table : Table F) (key : Slice) : option Z :=
  iiter ← NewIterator (t_index_block table);
  match it_Seek key iiter with
  | (Ret tt, it) =>
      if it_Valid it then
        match it_value it with
        | (Ret input, _) =>
            let '(s, handle, _) := handle_DecodeFrom new_BlockHandle input in
            Some (if ok s then bh_offset handle else bh_offset (t_metaindex_handle table))
        | _ => None
        end
      else Some (bh_offset (t_metaindex_handle table))
  | _ => None
  end.

(** [NewIterator]: a two-level iterator whose block function is [BlockReader] in a given
    state of the cache. *)
Definition table_block_function (table : Table F) (options : ReadOptions) (s : S) (index_value : Slice) : option BlockIterator :=
  match fst (BlockReader table options index_value s) with Ret it => Some it | _ => None end.

Definition table_NewIterator (table : Table F) : option (TwoLevelIterator BlockIterator BlockIterator) :=
  index_iter ← NewIterator (t_index_block table);
  NewTwoLevelIterator index_iter.
End Table.
