(* ===== verification/LdbTableFinish.v ===== *)
(** What [TableBuilder] writes: the blocks of the table with the keys that separate them.

    What [TableBuilder::Finish] leaves in the file: a table, as a function of its
    blocks. *)

From Stdlib Require Import ZArith Lia List String Bool.
From stdpp Require Import base list sorting.
From S2P Require Import Prelude Base128 LdbBase LdbCoding LdbCrc32c LdbFilter LdbKeys LdbKeyProps LdbBlock LdbBlockBuild LdbFilterBlock LdbLog LdbIterator LdbFormat LdbTable.

#[local] Arguments stored_block : simpl never.
#[local] Arguments block_contents : simpl never.

(** ** The blocks of a table *)

(** A block and the key of its entry in the index. *)
Abbreviation block_rec := (list entry * list Z)%type.

Section Layout.
Context (interval : Z).

Definition raw_block (b : list entry) : list Z := block_contents interval b.
#[local] Arguments raw_block : simpl never.
Definition file_blocks (bs : list (list entry)) : list Z := concat (map (fun b => stored_block (raw_block b)) bs).

(** The handles of blocks that follow [before] bytes. *)
Fixpoint handles (before : Z) (bs : list (list entry)) : list BlockHandle :=
  match bs with
  | [] => []
  | b :: bs' => mk_handle (u64 before) (size (raw_block b)) :: handles (before + size (stored_block (raw_block b))) bs'
  end.

Lemma handles_app a : forall before b, handles before (a ++ b) = handles before a ++ handles (before + size (file_blocks a)) b.
Proof.
  induction a as [|x a IH]; intros before b; cbn [app handles]; [by rewrite Z.add_0_r|].
  rewrite IH. unfold file_blocks. cbn [map concat]. rewrite size_app. by rewrite Z.add_assoc.
Qed.

Lemma file_blocks_app a b : file_blocks (a ++ b) = file_blocks a ++ file_blocks b.
Proof. unfold file_blocks. by rewrite map_app, concat_app. Qed.

Lemma length_handles bs : forall before, List.length (handles before bs) = List.length bs.
Proof. induction bs as [|b bs IH]; intros before; [done|]. cbn. by rewrite IH. Qed.

Lemma handles_lookup bs : forall before i b, bs !! i = Some b ->
  handles before bs !! i = Some (mk_handle (u64 (before + size (file_blocks (take i bs)))) (size (raw_block b))).
Proof.
  induction bs as [|b0 bs IH]; intros before i b Hi; [done|]. destruct i as [|i]; cbn in Hi |- *.
  - injection Hi as ->. by rewrite Z.add_0_r.
  - rewrite (IH _ _ _ Hi). unfold file_blocks. cbn [map concat]. rewrite size_app. by rewrite Z.add_assoc.
Qed.

(** The entries of the index. *)
Definition index_entries (done : list block_rec) : list entry :=
  map (fun '(h, (b, k)) => (k, handle_EncodeTo h [])) (combine (handles 0 (map fst done)) done).

Lemma combine_snoc {A B} (l : list A) (l' : list B) x y : List.length l = List.length l' -> combine (l ++ [x]) (l' ++ [y]) = combine l l' ++ [(x, y)].
Proof. revert l'. induction l as [|a l IH]; intros [|b l'] Hl; try done. cbn. f_equal. apply IH. by injection Hl. Qed.

Lemma index_entries_snoc done b k :
  index_entries (done ++ [(b, k)]) =
    index_entries done ++ [(k, handle_EncodeTo (mk_handle (u64 (size (file_blocks (map fst done)))) (size (raw_block b))) [])].
Proof.
  unfold index_entries. rewrite map_app, handles_app. cbn [map fst handles]. rewrite combine_snoc by (by rewrite length_handles, length_map). rewrite map_app. done.
Qed.

(** The offsets and the keys of the blocks, for the filter. *)
Definition filter_sets (bs : list (list entry)) (cur : list entry) : list (Z * list Slice) :=
  combine (map bh_offset (handles 0 (bs ++ [cur]))) (map (map fst) (bs ++ [cur])).

Lemma filter_sets_cur bs cur : filter_sets bs cur =
  combine (map bh_offset (handles 0 bs)) (map (map fst) bs) ++ [(u64 (size (file_blocks bs)), map fst cur)].
Proof.
  unfold filter_sets. rewrite handles_app, !map_app. cbn [handles map]. by rewrite combine_snoc by (by rewrite !length_map, length_handles).
Qed.

(** The keys of the index separate the blocks and what follows them. *)
Section Separated.
Context {C : Comparator} {L : ComparatorLaws C}.

Fixpoint separated (done : list block_rec) (rest : list entry) : Prop :=
  match done with
  | [] => True
  | (b, ik) :: done' =>
      key_ok ik /\ (forall kv, kv ∈ b -> order (fst kv) ik <= 0) /\
      (forall kv, kv ∈ concat (map fst done') ++ rest -> order ik (fst kv) < 0) /\
      separated done' rest
  end.

(** One more entry behind entries that are there. *)
Lemma separated_more done rest more : Forall key_ok (map fst (rest ++ more)) -> rest <> [] ->
  (forall a b, a ∈ rest -> b ∈ more -> order (fst a) (fst b) < 0) -> separated done rest -> separated done (rest ++ more).
Proof.
  intros Hok Hne Hlt. induction done as [|[b ik] done IH]; [done|]. intros (Hik & Hb & Ha & Hd). split; [done|]. split; [done|]. split; [|by apply IH].
  intros kv Hkv. rewrite app_assoc, elem_of_app in Hkv. destruct Hkv as [Hkv|Hkv]; [by apply Ha|].
  rewrite Forall_map, Forall_forall in Hok. destruct rest as [|x rest]; [done|].
  assert (Hx : x ∈ x :: rest) by (apply elem_of_cons; by left).
  apply (order_lt_trans ik (fst x) (fst kv)); [done|apply Hok, elem_of_app; by left|apply Hok, elem_of_app; by right| |by apply Hlt].
  apply Ha, elem_of_app. by right.
Qed.

Lemma separated_snoc done b ik rest : separated done (b ++ rest) -> key_ok ik -> (forall kv, kv ∈ b -> order (fst kv) ik <= 0) ->
  (forall kv, kv ∈ rest -> order ik (fst kv) < 0) -> separated (done ++ [(b, ik)]) rest.
Proof.
  intros Hs Hik Hb Hr. induction done as [|[b0 ik0] done IH]; [by split|]. destruct Hs as (H1 & H2 & H3 & H4).
  split; [done|]. split; [done|]. split; [|by apply IH]. intros kv Hkv. apply H3. rewrite map_app, concat_app in Hkv. cbn in Hkv.
  rewrite app_nil_r, <- app_assoc in Hkv. exact Hkv.
Qed.

Lemma separated_lookup l : separated l [] -> forall i b ik, l !! i = Some (b, ik) ->
  key_ok ik /\ (forall kv, kv ∈ b -> order (fst kv) ik <= 0) /\
  forall j b' ik' kv, (i < j)%nat -> l !! j = Some (b', ik') -> kv ∈ b' -> order ik (fst kv) < 0.
Proof.
  induction l as [|[b0 ik0] l IH]; intros Hl i b ik Hi; [done|]. destruct Hl as (H1 & H2 & H3 & H4). destruct i as [|i]; cbn in Hi.
  - injection Hi as -> ->. split; [done|]. split; [done|]. intros [|j] b' ik' kv Hij Hj Hkv; [lia|]. apply H3. rewrite app_nil_r.
    apply list_elem_of_In, in_concat. exists b'. split; [|by apply list_elem_of_In]. apply list_elem_of_In, list_elem_of_fmap. exists (b', ik'). split; [done|]. by eapply list_elem_of_lookup_2.
  - destruct (IH H4 i b ik Hi) as (G1 & G2 & G3). split; [done|]. split; [done|]. intros [|j] b' ik' kv Hij Hj Hkv; [lia|]. apply (G3 j b' ik'); [lia|done|done].
Qed.

End Separated.
End Layout.

(** ** The builder *)

Section Builder.
Context {F : Type} {W : WritableFile F} {WL : WritableFileLaws W} {C : Comparator} {L : ComparatorLaws C}.
(** ** Writing *)

Lemma tb_Append_ok (t : TableBuilder F) data : exists f, tb_Append data t = (Ret tt, set_tb_status OK (set_tb_file f t)) /\ contents f = contents (tb_file t) ++ data.
Proof.
  unfold tb_Append. destruct (Append_contents data (tb_file t)) as [H1 H2]. destruct (file_Append data (tb_file t)) as [s f]. cbn in H1, H2. subst s. by exists f.
Qed.

Lemma tb_file_Flush_ok (t : TableBuilder F) : exists f, tb_file_Flush t = (Ret tt, set_tb_status OK (set_tb_file f t)) /\ contents f = contents (tb_file t).
Proof.
  unfold tb_file_Flush. destruct (Flush_contents (tb_file t)) as [H1 H2]. destruct (file_Flush (tb_file t)) as [s f]. cbn in H1, H2. subst s. by exists f.
Qed.

(** [t] with the file [f] and the offset behind [c]. *)
Definition wrote (c : Slice) (f : F) (t : TableBuilder F) : TableBuilder F :=
  set_tb_offset (u64 (tb_offset t + u64 (size c + kBlockTrailerSize))) (set_tb_status OK (set_tb_file f t)).

Lemma WriteRawBlock_ok (t : TableBuilder F) c : exists f,
  WriteRawBlock c kNoCompression t = (Ret (mk_handle (tb_offset t) (size c)), wrote c f t) /\ contents f = contents (tb_file t) ++ stored_block c.
Proof.
  unfold WriteRawBlock. rewrite bind_get. destruct (tb_Append_ok t c) as (f1 & E1 & H1). erewrite bind_Ret by exact E1. rewrite bind_get.
  change (tb_ok (set_tb_status OK (set_tb_file f1 t))) with true. cbv beta iota.
  destruct (tb_Append_ok (set_tb_status OK (set_tb_file f1 t)) ([CompressionType_value kNoCompression] ++ EncodeFixed32 (Mask (Extend (Value c) [CompressionType_value kNoCompression])))) as (f2 & E2 & H2).
  exists f2. split; [|unfold stored_block; rewrite H2; cbn; rewrite H1; by rewrite <- app_assoc].
  set (t1 := set_tb_status OK (set_tb_file f1 t)) in *. cbv zeta. unfold bind at 1. unfold bind at 1. rewrite E2. done.
Qed.

Lemma WriteBlock_ok (t : TableBuilder F) i b : exists f,
  WriteBlock (bb_AddAll i b new_BlockBuilder) t = (Ret (new_BlockBuilder, mk_handle (tb_offset t) (size (block_contents i b))), wrote (block_contents i b) f t) /\
  contents f = contents (tb_file t) ++ stored_block (block_contents i b).
Proof.
  unfold WriteBlock. rewrite bind_get. unfold bb_Finish at 1.
  destruct (WriteRawBlock_ok t (block_contents i b)) as (f & E & H). exists f. split; [|done].
  destruct (compression (tb_options t)); unfold Snappy_Compress; cbv beta iota zeta; by erewrite bind_Ret by exact E.
Qed.

Lemma u64_offset a c : u64 (u64 a + u64 (size c + kBlockTrailerSize)) = u64 (a + size (stored_block c)).
Proof. rewrite size_stored_block. unfold uwrap. by rewrite Z.add_mod_idemp_l, Z.add_mod_idemp_r. Qed.

(** ** The entries of a block *)

Lemma EncodeVarint32_nonempty v : EncodeVarint32 v <> [].
Proof. unfold EncodeVarint32. cbv zeta. by repeat case_match. Qed.

Lemma bb_Add_nonempty i k v b : bb_empty (bb_Add i k v b) = false.
Proof.
  unfold bb_Add, bb_empty. destruct (if _ <? _ then _ else _) as [[shared restarts] counter]. cbn [bb_buffer]. unfold PutVarint32. rewrite <- !app_assoc, !size_app.
  destruct (EncodeVarint32 (u32 (Z.of_nat shared))) as [|x l] eqn:E; [by apply EncodeVarint32_nonempty in E|]. rewrite size_cons.
  pose proof (size_nonneg (bb_buffer b)). pose proof (size_nonneg l). pose proof (size_nonneg (EncodeVarint32 (u32 (size k - Z.of_nat shared)))).
  pose proof (size_nonneg (EncodeVarint32 (u32 (size v)))). pose proof (size_nonneg (drop shared k)). pose proof (size_nonneg v).
  destruct (Z.eqb_spec (size (bb_buffer b) + (size l + 1 + (size (EncodeVarint32 (u32 (size k - Z.of_nat shared))) + (size (EncodeVarint32 (u32 (size v))) + (size (drop shared k) + size v))))) 0); [lia|done].
Qed.

Lemma bb_AddAll_snoc i kvs k v : bb_AddAll i (kvs ++ [(k, v)]) new_BlockBuilder = bb_Add i k v (bb_AddAll i kvs new_BlockBuilder).
Proof. unfold bb_AddAll. by rewrite fold_left_app. Qed.

Lemma bb_AddAll_empty i kvs : bb_empty (bb_AddAll i kvs new_BlockBuilder) = match kvs with [] => true | _ => false end.
Proof.
  destruct kvs as [|[k v] kvs _] using rev_ind; [done|]. rewrite bb_AddAll_snoc, bb_Add_nonempty. by destruct kvs.
Qed.

Context (options : Options).

Let interval : Z := block_restart_interval options.

(** The state of the builder: the blocks [done] with their index keys, a block [pend]
    whose index key is not chosen yet, and the entries [cur] of the next one. *)
Record built (t : TableBuilder F) (done : list block_rec) (pend : option (list entry)) (cur : list entry) : Prop := {
  bt_options : tb_options t = options /\ tb_index_block_options t = index_options options;
  bt_file : contents (tb_file t) = file_blocks interval (map fst done ++ option_list pend);
  bt_offset : tb_offset t = u64 (size (contents (tb_file t)));
  bt_status : tb_status t = OK;
  bt_data : tb_data_block t = bb_AddAll interval cur new_BlockBuilder;
  bt_index : tb_index_block t = bb_AddAll 1 (index_entries interval done) new_BlockBuilder;
  bt_last : forall kv, last (concat (map fst done ++ option_list pend) ++ cur) = Some kv -> tb_last_key t = fst kv;
  bt_filter : tb_filter_block t = match filter_policy options with
    | Some p => Some (p, build (P := p) (filter_sets interval (map fst done ++ option_list pend) cur))
    | None => None
    end;
  bt_pending : tb_pending_index_entry t = match pend with Some _ => true | None => false end;
  bt_handle : forall b, pend = Some b -> tb_pending_handle t = mk_handle (u64 (size (file_blocks interval (map fst done)))) (size (raw_block interval b));
  bt_pend_cur : forall b, pend = Some b -> cur = [];
  bt_start : pend = None -> cur = [] -> done = [];
  bt_nonempty : Forall (fun b => b <> []) (map fst done ++ option_list pend);
  bt_separated : separated done (concat (option_list pend) ++ cur)
}.

(** ** The filter *)

Lemma build_snoc {P : FilterPolicy} sets off keys : build (sets ++ [(off, keys)]) = fold_left (fun b key => AddKey key b) keys (StartBlock off (build sets)).
Proof. unfold build. by rewrite fold_left_app. Qed.

(** One more key in the last block. *)
Lemma build_AddKey {P : FilterPolicy} bs cur k v :
  build (filter_sets interval bs (cur ++ [(k, v)])) = AddKey k (build (filter_sets interval bs cur)).
Proof. rewrite !filter_sets_cur, !build_snoc, map_app, fold_left_app. done. Qed.

(** A new block behind the last. *)
Lemma build_StartBlock {P : FilterPolicy} bs b :
  build (filter_sets interval (bs ++ [b]) []) = StartBlock (u64 (size (file_blocks interval (bs ++ [b])))) (build (filter_sets interval bs b)).
Proof.
  rewrite (filter_sets_cur interval (bs ++ [b]) []), build_snoc. done.
Qed.

(** ** The operations *)

Definition entries (done : list block_rec) (pend : option (list entry)) (cur : list entry) : list entry :=
  concat (map fst done ++ option_list pend) ++ cur.

Lemma entries_none done cur : entries done None cur = concat (map fst done) ++ cur.
Proof. unfold entries. cbn. by rewrite app_nil_r. Qed.

Lemma entries_some done b cur : entries done (Some b) cur = concat (map fst done) ++ b ++ cur.
Proof. unfold entries. rewrite concat_app, <- app_assoc. cbn. by rewrite app_nil_r. Qed.

Lemma built_new file : contents file = [] -> built (new_TableBuilder options file) [] None [].
Proof.
  intros Hf. split; try done.
  - cbn. by rewrite Hf.
  - unfold new_TableBuilder, on_filter. cbn. by destruct (filter_policy options).
Qed.

Lemma tb_ok_OK (t : TableBuilder F) : tb_status t = OK -> tb_ok t = true.
Proof. intros Hs. unfold tb_ok. by rewrite Hs. Qed.

Lemma tb_Flush_empty (t : TableBuilder F) done pend : built t done pend [] -> tb_Flush t = (Ret tt, t).
Proof.
  intros H. unfold tb_Flush. rewrite bind_get, (tb_ok_OK t) by apply H. cbn [negb]. rewrite (bt_data _ _ _ _ H), bb_AddAll_empty. done.
Qed.

Lemma tb_Flush_ok (t : TableBuilder F) done cur : cur <> [] -> built t done None cur ->
  exists t', tb_Flush t = (Ret tt, t') /\ built t' done (Some cur) [].
Proof.
  intros Hne H. unfold tb_Flush. rewrite bind_get, (tb_ok_OK t) by apply H. cbn [negb]. rewrite (bt_data _ _ _ _ H), bb_AddAll_empty.
  destruct cur as [|kv cur]; [done|]. destruct (WriteBlock_ok t interval (kv :: cur)) as (f & E & Hf). erewrite bind_Ret by exact E. clear E.
  set (c := block_contents interval (kv :: cur)) in *. cbv beta iota. rewrite !bind_modify, bind_get.
  change (tb_ok _) with true. cbv iota. 
  set (t1 := set_tb_pending_handle (mk_handle (tb_offset t) (size c)) (set_tb_data_block new_BlockBuilder (wrote c f t))).
  destruct (tb_file_Flush_ok (set_tb_pending_index_entry true t1)) as (f' & E & Hf').
  erewrite bind_Ret by (rewrite bind_modify; exact E). rewrite bind_get. eexists. split; [reflexivity|].
  destruct H as [Ho Hc Hoff Hs Hd Hi Hl Hfil Hp Hh Hpc Hst Hne' Hsep]. cbn [option_list] in *. rewrite app_nil_r in *.
  assert (Hsz : u64 (tb_offset t + u64 (size c + kBlockTrailerSize)) = u64 (size (contents f'))).
  { rewrite Hf', Hoff. cbn. rewrite Hf, size_app, u64_offset. done. }
  assert (Hfile : contents f' = file_blocks interval (map fst done ++ [kv :: cur])).
  { rewrite Hf'. cbn. rewrite Hf, Hc, file_blocks_app. unfold file_blocks at 3. cbn. by rewrite app_nil_r. }
  split; cbn [option_list]; try done.
  - intros e He. apply Hl. by rewrite app_nil_r, concat_app in He; cbn in He; rewrite app_nil_r in He.
  - cbn. rewrite Hfil. destruct (filter_policy options) as [p|]; [|done]. do 2 f_equal.
    rewrite build_StartBlock. f_equal. rewrite Hsz. by rewrite Hfile.
  - intros b [= <-]. cbn. rewrite Hoff, Hc. done.
  - rewrite Forall_app. by split; [|constructor].
  - cbn. by rewrite !app_nil_r.
Qed.

(** [t] after the part of [Add] that comes before the flush. *)
Definition added (k v : Slice) (t : TableBuilder F) : TableBuilder F :=
  let t := set_tb_num_entries (tb_num_entries t + 1) (set_tb_last_key k (on_filter (fun p => AddKey k) t)) in
  set_tb_data_block (bb_Add (block_restart_interval (tb_options t)) k v (tb_data_block t)) t.

Definition flush_if_full : M (TableBuilder F) unit :=
  t <- get ;; if block_size (tb_options t) <=? bb_CurrentSizeEstimate (tb_data_block t) then tb_Flush else ret tt.

(** [t] with the index entry of the pending block. *)
Definition indexed (key : list Z) (t : TableBuilder F) : TableBuilder F :=
  set_tb_pending_index_entry false
    (set_tb_index_block (bb_Add 1 key (handle_EncodeTo (tb_pending_handle t) []) (tb_index_block t)) (set_tb_last_key key t)).

Lemma add_index_entry_ok (t : TableBuilder F) key : tb_index_block_options t = index_options options ->
  add_index_entry (Some key) t = (Ret tt, indexed key t).
Proof. intros Ho. unfold add_index_entry. rewrite bind_modify, bind_get, bind_modify. cbn [tb_index_block_options set_tb_last_key]. by rewrite Ho. Qed.

Lemma tb_Add_unfold (t t1 : TableBuilder F) k v : tb_status t = OK ->
  (if tb_pending_index_entry t then add_index_entry (FindShortestSeparator (tb_last_key t) k) else ret tt) t = (Ret tt, t1) ->
  tb_Add k v t = flush_if_full (added k v t1).
Proof.
  intros Hs E. unfold tb_Add. rewrite bind_get, tb_ok_OK by done. cbn [negb]. erewrite bind_Ret by exact E. by rewrite !bind_modify.
Qed.

(** One more entry in the block. *)
Lemma built_added (t : TableBuilder F) done cur k v : built t done None cur ->
  source (entries done None (cur ++ [(k, v)])) -> built (added k v t) done None (cur ++ [(k, v)]).
Proof.
  intros [Ho Hc Hoff Hs Hd Hi Hl Hfil Hp Hh Hpc Hst Hne Hsep] Hsrc. unfold entries in Hsrc. rewrite app_assoc in Hsrc.
  cbn [option_list] in *. rewrite app_nil_r in *. apply source_app in Hsrc as (Hsrc & [Hok _] & Hlt).
  split; cbn [option_list]; try rewrite !app_nil_r; try done.
  - cbn. rewrite Hd, (proj1 Ho). by rewrite bb_AddAll_snoc.
  - intros kv. rewrite app_assoc, last_snoc. by intros [= <-].
  - cbn. rewrite Hfil. destruct (filter_policy options); [|done]. by rewrite build_AddKey.
  - intros _ Hnil. by destruct cur.
  - cbn in Hsep |- *. destruct cur as [|kv cur]; [by rewrite Hst|]. apply separated_more; [|done| |done].
    + rewrite map_app, Forall_app. split; [|done]. apply source_app in Hsrc as (_ & [Hok' _] & _). done.
    + intros a b Ha Hb. apply Hlt; [apply elem_of_app; by right|done].
Qed.

(** One more entry after a block. *)
Lemma built_added_next (t : TableBuilder F) done b k v ik : built t done (Some b) [] ->
  source (entries done (Some b) [(k, v)]) -> key_ok ik -> (forall kv, last b = Some kv -> order (fst kv) ik <= 0) -> order ik k < 0 ->
  built (added k v (indexed ik t)) (done ++ [(b, ik)]) None [(k, v)].
Proof.
  intros [Ho Hc Hoff Hs Hd Hi Hl Hfil Hp Hh Hpc Hst Hne Hsep] Hsrc Hik Hle Hlt. unfold entries in Hsrc. cbn [option_list] in *. rewrite app_nil_r in *.
  assert (Hmap : map fst (done ++ [(b, ik)]) = map fst done ++ [b]) by (by rewrite map_app).
  rewrite concat_app, <- app_assoc in Hsrc. cbn in Hsrc, Hsep. rewrite app_nil_r in Hsrc, Hsep. apply source_app in Hsrc as (_ & Hsrc & _).
  pose proof Hsrc as (Hb & [Hkv _] & Hbk)%source_app. pose proof Hne as [_ [Hnb _]%Forall_cons_1]%Forall_app.
  assert (Hlast : exists kv, last b = Some kv) by (destruct (last b) eqn:E; [by eexists|by apply last_None in E]). destruct Hlast as [x Hx].
  split; cbn [option_list]; rewrite ?app_nil_r, ?Hmap; try done.
  - cbn. rewrite Hd, (proj1 Ho). done.
  - cbn. by rewrite Hi, index_entries_snoc, (Hh b eq_refl), bb_AddAll_snoc.
  - intros kv. rewrite last_snoc. by intros [= <-].
  - cbn. rewrite Hfil. destruct (filter_policy options); [|done]. by rewrite <- (build_AddKey _ [] k v).
  - cbn. apply separated_snoc; [|done| |by intros kv Hin%list_elem_of_singleton; subst kv].
    + apply separated_more; [by destruct Hsrc as [Hok _]|done|done|done].
    + intros kv Hkvb. apply (order_trans _ (fst x)); [by eapply source_elem| |done|by apply (source_last b)|by apply Hle].
      apply (source_elem b); [done|]. apply last_Some in Hx as [b' E]. rewrite E. apply elem_of_app. right. by apply list_elem_of_singleton.
Qed.

Lemma flush_if_full_ok (t : TableBuilder F) done cur : cur <> [] -> built t done None cur ->
  exists t' pend' cur', flush_if_full t = (Ret tt, t') /\ built t' done pend' cur' /\ entries done pend' cur' = entries done None cur.
Proof.
  intros Hne H. unfold flush_if_full. rewrite bind_get. destruct (block_size (tb_options t) <=? bb_CurrentSizeEstimate (tb_data_block t)).
  - destruct (tb_Flush_ok t done cur Hne H) as (t' & E & H'). exists t', (Some cur), []. split; [done|]. split; [done|].
    by rewrite entries_none, entries_some, app_nil_r.
  - by exists t, None, cur.
Qed.

Lemma tb_Add_ok (t : TableBuilder F) done pend cur k v : built t done pend cur -> source (entries done pend cur ++ [(k, v)]) ->
  exists t' done' pend' cur', tb_Add k v t = (Ret tt, t') /\ built t' done' pend' cur' /\ entries done' pend' cur' = entries done pend cur ++ [(k, v)].
Proof.
  intros H Hsrc. destruct pend as [b|].
  - pose proof (bt_pend_cur _ _ _ _ H b eq_refl) as ->.
    assert (Hb : exists x, last b = Some x).
    { destruct (last b) eqn:E; [by eexists|]. apply last_None in E as ->. pose proof (bt_nonempty _ _ _ _ H) as [_ [Hb _]%Forall_cons_1]%Forall_app. done. }
    destruct Hb as [x Hx]. assert (Hk : tb_last_key t = fst x).
    { apply (bt_last _ _ _ _ H). fold (entries done (Some b) []). by rewrite entries_some, app_nil_r, last_app, Hx. }
    rewrite entries_some, app_nil_r in Hsrc |- *. pose proof Hsrc as ([_ [Hsb _]]%source_app & [Hkk _] & Hlt)%source_app. apply Forall_cons_1 in Hkk as [Hkk _]. cbn in Hkk.
    assert (Hxb : x ∈ b) by (apply last_Some in Hx as [b' ->]; apply elem_of_app; right; by apply list_elem_of_singleton).
    pose proof (source_elem b x Hsb Hxb) as Hxk.
    destruct (FindShortestSeparator_ok (fst x) k Hxk Hkk) as (ik & Ef & Hik & _ & Hcase).
    assert (Hxlt : order (fst x) k < 0) by (apply (Hlt x (k, v)); [apply elem_of_app; by right|by apply list_elem_of_singleton]).
    assert (Hsep : order (fst x) ik <= 0 /\ order ik k < 0) by (destruct Hcase as [->|Hcase]; [rewrite order_refl by done; lia|done]).
    assert (E : (if tb_pending_index_entry t then add_index_entry (FindShortestSeparator (tb_last_key t) k) else ret tt) t = (Ret tt, indexed ik t)).
    { rewrite (bt_pending _ _ _ _ H), Hk, Ef. apply add_index_entry_ok, H. }
    rewrite (tb_Add_unfold t _ k v (bt_status _ _ _ _ H) E).
    destruct (flush_if_full_ok (added k v (indexed ik t)) (done ++ [(b, ik)]) [(k, v)]) as (t' & pend' & cur' & Ef' & H' & He'); [done| |].
    { apply built_added_next; [done| |done| |apply Hsep].
      - by rewrite entries_some, app_assoc.
      - intros kv. rewrite Hx. intros [= <-]. apply Hsep. }
    exists t', (done ++ [(b, ik)]), pend', cur'. split; [done|]. split; [done|]. rewrite He', entries_none, map_app, concat_app. cbn. by rewrite app_nil_r.
  - assert (E : (if tb_pending_index_entry t then add_index_entry (FindShortestSeparator (tb_last_key t) k) else ret tt) t = (Ret tt, t)).
    { by rewrite (bt_pending _ _ _ _ H). }
    rewrite (tb_Add_unfold t _ k v (bt_status _ _ _ _ H) E). rewrite entries_none, <- app_assoc, <- entries_none in Hsrc |- *.
    destruct (flush_if_full_ok (added k v t) done (cur ++ [(k, v)])) as (t' & pend' & cur' & Ef' & H' & He'); [by destruct cur|by apply built_added|].
    by exists t', done, pend', cur'.
Qed.

(** A run of [Add]. *)
Fixpoint tb_AddAll (kvs : list entry) : M (TableBuilder F) unit :=
  match kvs with
  | [] => ret tt
  | (k, v) :: kvs' => tb_Add k v ;; tb_AddAll kvs'
  end.

Lemma tb_AddAll_ok kvs : forall (t : TableBuilder F) done pend cur, built t done pend cur -> source (entries done pend cur ++ kvs) ->
  exists t' done' pend' cur', tb_AddAll kvs t = (Ret tt, t') /\ built t' done' pend' cur' /\ entries done' pend' cur' = entries done pend cur ++ kvs.
Proof.
  induction kvs as [|[k v] kvs IH]; intros t done pend cur H Hsrc; cbn [tb_AddAll].
  - exists t, done, pend, cur. by rewrite app_nil_r.
  - change ((k, v) :: kvs) with ([(k, v)] ++ kvs) in *. rewrite app_assoc in *. pose proof Hsrc as [Hs1 _]%source_app.
    destruct (tb_Add_ok t done pend cur k v H Hs1) as (t1 & done1 & pend1 & cur1 & E & H1 & He). erewrite bind_Ret by exact E. rewrite <- He in *. by apply IH.
Qed.
End Builder.

#[local] Arguments stored_block : simpl never.
#[local] Arguments block_contents : simpl never.
#[local] Arguments raw_block : simpl never.

Section Layout.
Context (options : Options).

Let interval : Z := block_restart_interval options.

Definition filter_raw (p : FilterPolicy) (bs : list (list entry)) : list Z := fb_Finish (P := p) (build (P := p) (filter_sets interval bs [])).
Definition filter_key (p : FilterPolicy) : list Z := literal "filter." ++ policy_Name (FilterPolicy := p).
Definition filter_handle (p : FilterPolicy) (bs : list (list entry)) : BlockHandle :=
  mk_handle (u64 (size (file_blocks interval bs))) (size (filter_raw p bs)).

(** The parts of the file after the blocks. *)
Definition filter_part (bs : list (list entry)) : list Z :=
  match filter_policy options with Some p => stored_block (filter_raw p bs) | None => [] end.
Definition meta_entries (bs : list (list entry)) : list entry :=
  match filter_policy options with Some p => [(filter_key p, handle_EncodeTo (filter_handle p bs) [])] | None => [] end.
Definition meta_block (bs : list (list entry)) : list Z := block_contents interval (meta_entries bs).
Definition index_block (done : list block_rec) : list Z := block_contents 1 (index_entries interval done).

Definition before_meta (bs : list (list entry)) : list Z := file_blocks interval bs ++ filter_part bs.
Definition before_index (bs : list (list entry)) : list Z := before_meta bs ++ stored_block (meta_block bs).
Definition table_footer (done : list block_rec) : Footer :=
  mk_footer (mk_handle (u64 (size (before_meta (map fst done)))) (size (meta_block (map fst done))))
            (mk_handle (u64 (size (before_index (map fst done)))) (size (index_block done))).
Definition table_bytes (done : list block_rec) : list Z :=
  before_index (map fst done) ++ stored_block (index_block done) ++ footer_bytes (table_footer done).
End Layout.

Section Finish.
Context {F : Type} {W : WritableFile F} {WL : WritableFileLaws W} {C : Comparator} {L : ComparatorLaws C}.
Context (options : Options).

Let interval : Z := block_restart_interval options.

Lemma if_ok_OK {A} (o : A) (m : M (TableBuilder F) A) t : tb_status t = OK -> if_ok o m t = m t.
Proof. intros Hs. unfold if_ok. by rewrite bind_get, tb_ok_OK. Qed.

Lemma tb_Flush_all (t : TableBuilder F) done pend cur : built options t done pend cur ->
  exists t' pend', tb_Flush t = (Ret tt, t') /\ built options t' done pend' [] /\ entries done pend' [] = entries done pend cur.
Proof.
  intros H. destruct cur as [|kv cur].
  - exists t, pend. split; [by eapply tb_Flush_empty|done].
  - destruct pend as [b|]; [by pose proof (bt_pend_cur _ _ _ _ _ H b eq_refl)|].
    destruct (tb_Flush_ok options t done (kv :: cur)) as (t' & E & H'); [done..|]. exists t', (Some (kv :: cur)). split; [done|]. split; [done|].
    by rewrite entries_some, entries_none, app_nil_r.
Qed.

(** [data] was written; the rest of the builder is as it was. *)
Record moved (t t' : TableBuilder F) (data : list Z) : Prop := {
  mv_file : contents (tb_file t') = contents (tb_file t) ++ data;
  mv_offset : tb_offset t = u64 (size (contents (tb_file t))) -> tb_offset t' = u64 (size (contents (tb_file t')));
  mv_status : tb_status t' = OK;
  mv_options : tb_options t' = tb_options t /\ tb_index_block_options t' = tb_index_block_options t;
  mv_filter : tb_filter_block t' = tb_filter_block t;
  mv_index : tb_index_block t' = tb_index_block t;
  mv_pending : tb_pending_index_entry t' = tb_pending_index_entry t /\ tb_pending_handle t' = tb_pending_handle t /\ tb_last_key t' = tb_last_key t
}.

Lemma moved_nothing t : tb_status t = OK -> moved t t [].
Proof. intros Hs. split; try done. by rewrite app_nil_r. Qed.

Lemma moved_wrote t raw f : contents f = contents (tb_file t) ++ stored_block raw -> moved t (wrote raw f t) (stored_block raw).
Proof. intros Hf. split; try done. cbn. intros ->. by rewrite u64_offset, Hf, size_app. Qed.

Lemma moved_more t t1 t2 a b : moved t t1 a -> moved t1 t2 b -> moved t t2 (a ++ b).
Proof.
  intros [H1 H2 H3 H4 H5 H6 H7] [G1 G2 G3 G4 G5 G6 G7]. split; try intuition congruence. by rewrite G1, H1, app_assoc.
Qed.

(** The parts of [Finish]. *)
Definition finish_filter : M (TableBuilder F) BlockHandle :=
  t <- get ;;
  match tb_filter_block t with
  | Some (p, b) => WriteRawBlock (fb_Finish (P := p) b) kNoCompression
  | None => ret new_BlockHandle
  end.

Definition finish_meta (filter_block_handle : BlockHandle) : M (TableBuilder F) BlockHandle :=
  t <- get ;;
  meta_index_block <-
    match tb_filter_block t with
    | Some _ =>
        match filter_policy (tb_options t) with
        | Some p =>
            let key := literal "filter." ++ policy_Name (FilterPolicy := p) in
            ret (bb_Add (block_restart_interval (tb_options t)) key (handle_EncodeTo filter_block_handle []) new_BlockBuilder)
        | None => stuck
        end
    | None => ret new_BlockBuilder
    end ;;
  r <- WriteBlock meta_index_block ;; ret (snd r).

Definition finish_index : M (TableBuilder F) BlockHandle :=
  t <- get ;;
  (if tb_pending_index_entry t then add_index_entry (FindShortSuccessor (tb_last_key t)) else ret tt) ;;
  t <- get ;;
  r <- WriteBlock (tb_index_block t) ;;
  modify (set_tb_index_block (fst r)) ;; ret (snd r).

Definition finish_footer (metaindex_block_handle index_block_handle : BlockHandle) : M (TableBuilder F) unit :=
  let footer_encoding := footer_EncodeTo (mk_footer metaindex_block_handle index_block_handle) [] in
  tb_Append footer_encoding ;;
  t <- get ;;
  if tb_ok t then modify (set_tb_offset (u64 (tb_offset t + size footer_encoding))) else ret tt.

Lemma tb_Finish_parts : @tb_Finish F W C =
  (tb_Flush ;; modify set_tb_closed ;;
   filter <- if_ok new_BlockHandle finish_filter ;;
   metaindex <- if_ok new_BlockHandle (finish_meta filter) ;;
   index <- if_ok new_BlockHandle finish_index ;;
   if_ok tt (finish_footer metaindex index) ;; gets tb_status).
Proof. reflexivity. Qed.

Lemma finish_filter_ok t bs : tb_status t = OK -> contents (tb_file t) = file_blocks interval bs -> tb_offset t = u64 (size (contents (tb_file t))) ->
  tb_filter_block t = match filter_policy options with Some p => Some (p, build (P := p) (filter_sets interval bs [])) | None => None end ->
  exists t' h, finish_filter t = (Ret h, t') /\ moved t t' (filter_part options bs) /\
    forall p, filter_policy options = Some p -> h = filter_handle options p bs.
Proof.
  intros Hs Hc Ho Hf. unfold finish_filter, filter_part. rewrite bind_get, Hf. destruct (filter_policy options) as [p|].
  - destruct (WriteRawBlock_ok t (filter_raw options p bs)) as (f & E & H). eexists _, _. split; [exact E|]. split; [by apply moved_wrote|].
    intros p' [= <-]. unfold filter_handle. by rewrite Ho, Hc.
  - exists t, new_BlockHandle. split; [done|]. split; [by apply moved_nothing|done].
Qed.

Lemma finish_meta_ok t bs h : tb_status t = OK -> tb_options t = options ->
  (match tb_filter_block t with Some _ => exists p, filter_policy options = Some p | None => filter_policy options = None end) ->
  (forall p, filter_policy options = Some p -> h = filter_handle options p bs) ->
  exists t', finish_meta h t = (Ret (mk_handle (tb_offset t) (size (meta_block options bs))), t') /\ moved t t' (stored_block (meta_block options bs)).
Proof.
  intros Hs Ho Hf Hh. unfold finish_meta. rewrite bind_get, Ho. destruct (WriteBlock_ok t interval (meta_entries options bs)) as (f & E & H).
  assert (Em : (match tb_filter_block t with
      | Some _ =>
          match filter_policy options with
          | Some p => ret (bb_Add interval (literal "filter." ++ policy_Name (FilterPolicy := p)) (handle_EncodeTo h []) new_BlockBuilder)
          | None => stuck
          end
      | None => ret new_BlockBuilder
      end) t = (Ret (bb_AddAll interval (meta_entries options bs) new_BlockBuilder), t)).
  { unfold meta_entries. destruct (tb_filter_block t) as [pb|]; [destruct Hf as [p Hp]|]; [rewrite Hp, (Hh p Hp)|rewrite Hf]; done. }
  erewrite bind_Ret by exact Em. erewrite bind_Ret by exact E. eexists. split; [reflexivity|]. by apply moved_wrote.
Qed.

(** The last index entry, if a block is without one. *)
Lemma finish_index_ok t done pend : built options t done pend [] -> source (entries done pend []) ->
  forall t1 data, moved t t1 data ->
  exists t' done', finish_index t1 = (Ret (mk_handle (tb_offset t1) (size (index_block options done'))), t') /\
    map fst done' = map fst done ++ option_list pend /\ separated done' [] /\
    contents (tb_file t') = contents (tb_file t1) ++ stored_block (index_block options done') /\ tb_status t' = OK /\
    (tb_offset t1 = u64 (size (contents (tb_file t1))) -> tb_offset t' = u64 (size (contents (tb_file t')))).
Proof.
  intros H Hsrc t1 data Hm. unfold finish_index. rewrite bind_get.
  assert (Hnext : exists t2 done', (if tb_pending_index_entry t1 then add_index_entry (FindShortSuccessor (tb_last_key t1)) else ret tt) t1 = (Ret tt, t2) /\
    map fst done' = map fst done ++ option_list pend /\ separated done' [] /\ tb_file t2 = tb_file t1 /\ tb_offset t2 = tb_offset t1 /\
    tb_index_block t2 = bb_AddAll 1 (index_entries interval done') new_BlockBuilder).
  { rewrite (proj1 (mv_pending _ _ _ Hm)), (bt_pending _ _ _ _ _ H). destruct pend as [b|].
    - rewrite entries_some, app_nil_r in Hsrc. apply source_app in Hsrc as (_ & Hb & _).
      assert (Hx : exists x, last b = Some x).
      { destruct (last b) eqn:E; [by eexists|]. apply last_None in E as ->. pose proof (bt_nonempty _ _ _ _ _ H) as [_ [Hb' _]%Forall_cons_1]%Forall_app. done. }
      destruct Hx as [x Hx]. assert (Hxb : x ∈ b) by (apply last_Some in Hx as [b' ->]; apply elem_of_app; right; by apply list_elem_of_singleton).
      destruct (FindShortSuccessor_ok (fst x) (source_elem b x Hb Hxb)) as (ik & Ef & Hik & _ & Hle).
      assert (Hk : tb_last_key t1 = fst x).
      { rewrite (proj2 (proj2 (mv_pending _ _ _ Hm))). apply (bt_last _ _ _ _ _ H). fold (entries done (Some b) []). by rewrite entries_some, app_nil_r, last_app, Hx. }
      rewrite Hk, Ef. exists (indexed ik t1), (done ++ [(b, ik)]). split.
      { apply (add_index_entry_ok options). rewrite (proj2 (mv_options _ _ _ Hm)). apply H. }
      split; [by rewrite map_app|]. split; [|split; [done|split; [done|]]].
      + apply separated_snoc; [|done| |by intros kv Hkv%elem_of_nil].
        * pose proof (bt_separated _ _ _ _ _ H) as Hs. cbn in Hs. by rewrite app_nil_r in Hs.
        * intros kv Hkv. apply (order_trans _ (fst x)); [by eapply source_elem|by eapply source_elem|done|by apply (source_last b)|done].
      + cbn. rewrite (mv_index _ _ _ Hm), (bt_index _ _ _ _ _ H), (proj1 (proj2 (mv_pending _ _ _ Hm))), (bt_handle _ _ _ _ _ H b eq_refl).
        by rewrite index_entries_snoc, bb_AddAll_snoc.
    - exists t1, done. split; [done|]. split; [cbn; by rewrite app_nil_r|]. split; [apply (bt_separated _ _ _ _ _ H)|]. split; [done|]. split; [done|].
      by rewrite (mv_index _ _ _ Hm), (bt_index _ _ _ _ _ H). }
  destruct Hnext as (t2 & done' & E & Hd & Hsep & Hf & Ho & Hi). erewrite bind_Ret by exact E. rewrite bind_get, Hi.
  destruct (WriteBlock_ok t2 1 (index_entries interval done')) as (f & Ew & Hw). erewrite bind_Ret by exact Ew. rewrite bind_modify.
  eexists _, done'. split; [rewrite Ho; reflexivity|]. split; [done|]. split; [done|]. split; [cbn; by rewrite Hw, Hf|]. split; [done|]. cbn. rewrite Ho. intros ->. by rewrite u64_offset, Hw, Hf, size_app.
Qed.

(** A finished table: [Finish] returns without an error, and the file is a table over the
    entries that were added. *)
Lemma tb_Finish_ok t done pend cur : built options t done pend cur -> source (entries done pend cur) ->
  exists t' done', tb_Finish t = (Ret OK, t') /\ contents (tb_file t') = table_bytes options done' /\
    concat (map fst done') = entries done pend cur /\ Forall (fun b => b <> []) (map fst done') /\ separated done' [] /\ tb_offset t' = u64 (size (contents (tb_file t'))).
Proof.
  intros H Hsrc. rewrite tb_Finish_parts. destruct (tb_Flush_all t done pend cur H) as (t0 & pend0 & E & H0 & He).
  erewrite bind_Ret by exact E. clear E. rewrite bind_modify. rewrite <- He in Hsrc |- *. clear He H t pend cur.
  pose proof H0 as [_ Hc _ Hs _ _ _ Hf _ _ _ _ Hne _]. set (bs := map fst done ++ option_list pend0) in *.
  assert (M0 : moved t0 (set_tb_closed t0) []) by (split; try done; cbn; by rewrite app_nil_r).
  destruct (finish_filter_ok (set_tb_closed t0) bs Hs Hc (bt_offset _ _ _ _ _ H0) Hf) as (t1 & h & E & M1 & Hh).
  erewrite bind_Ret by (rewrite if_ok_OK by exact Hs; exact E). clear E. pose proof (moved_more _ _ _ _ _ M0 M1) as M01. rewrite app_nil_l in M01.
  destruct (finish_meta_ok t1 bs h) as (t2 & E & M2); [apply M1|rewrite (proj1 (mv_options _ _ _ M01)); apply H0| |done|].
  { rewrite (mv_filter _ _ _ M01), Hf. destruct (filter_policy options) as [p|]; [by exists p|done]. }
  erewrite bind_Ret by (rewrite if_ok_OK by apply M1; exact E). clear E. pose proof (moved_more _ _ _ _ _ M01 M2) as M02.
  destruct (finish_index_ok t0 done pend0 H0 Hsrc t2 _ M02) as (t3 & done' & E & Hd & Hsep & Hc3 & Hs3 & Ho3).
  erewrite bind_Ret by (rewrite if_ok_OK by apply M2; exact E). clear E. fold bs in Hd.
  assert (Hc1 : contents (tb_file t1) = before_meta options bs) by (by rewrite (mv_file _ _ _ M01), Hc).
  assert (Hc2 : contents (tb_file t2) = before_index options bs) by (unfold before_index; by rewrite (mv_file _ _ _ M2), Hc1).
  pose proof (mv_offset _ _ _ M01 (bt_offset _ _ _ _ _ H0)) as Ho1. pose proof (mv_offset _ _ _ M2 Ho1) as Ho2. rewrite Hc1 in Ho1. rewrite Hc2 in Ho2.
  unfold finish_footer. rewrite Ho1, Ho2. fold (footer_bytes (mk_footer (mk_handle (u64 (size (before_meta options bs))) (size (meta_block options bs)))
    (mk_handle (u64 (size (before_index options bs))) (size (index_block options done'))))).
  rewrite <- Hd. fold (table_footer options done'). destruct (tb_Append_ok t3 (footer_bytes (table_footer options done'))) as (f & E & Hc4).
  assert (Hlast : exists t4, (tb_Append (footer_bytes (table_footer options done')) ;; t <- get ;;
      if tb_ok t then modify (set_tb_offset (u64 (tb_offset t + size (footer_bytes (table_footer options done'))))) else ret tt) t3 = (Ret tt, t4) /\
      tb_status t4 = OK /\ tb_file t4 = f /\ tb_offset t4 = u64 (size (contents f))).
  { erewrite bind_Ret by exact E. rewrite bind_get. eexists. split; [reflexivity|]. split; [done|]. split; [done|]. cbn. rewrite Hc2 in Ho3. rewrite (Ho3 Ho2), Hc4, size_app. unfold uwrap. by rewrite Zplus_mod_idemp_l. }
  destruct Hlast as (t4 & E4 & Hs4 & Hf4 & Ho4). erewrite bind_Ret by (rewrite if_ok_OK by exact Hs3; exact E4).
  exists t4, done'. split; [unfold gets; by rewrite Hs4|]. split; [|split; [|split; [by rewrite Hd|split; [done|by rewrite Ho4, Hf4]]]].
  - rewrite Hf4, Hc4, Hc3, Hc2. unfold table_bytes. by rewrite Hd, <- app_assoc.
  - rewrite Hd. unfold entries, bs. by rewrite app_nil_r.
Qed.
End Finish.
