(* ===== verification/LdbTableTheorems.v ===== *)
(** A table that [TableBuilder] wrote, read back: [Table::Open] finds its index and its
    filter, and [BlockReader] its blocks.

    Tables give back what was put into them: a table that [TableBuilder] built holds its
    entries, for iterators and for [InternalGet], with and without a filter. *)

From Stdlib Require Import ZArith Lia List String Bool.
From stdpp Require Import base list sorting.
From S2P Require Import Prelude Base128 LdbBase LdbCoding LdbCrc32c LdbFilter LdbKeys LdbKeyProps LdbBlock LdbBlockBuild LdbFilterBlock LdbLog LdbIterator LdbTwoLevelProps LdbFormat LdbLogTotal LdbTable LdbTableFinish.

#[local] Arguments stored_block : simpl never.
#[local] Arguments block_contents : simpl never.
#[local] Arguments raw_block : simpl never.

Section Read.
Context {F : Type} {R : RandomAccessFile F} {RL : RandomAccessFileLaws R} {S : Type} {K : BlockCache S} {C : Comparator} {L : ComparatorLaws C}.
Context (options : Options) (file : F) (done : list block_rec).

Let interval : Z := block_restart_interval options.
Let bs : list (list entry) := map fst done.

(** The file holds the table. *)
Record holds_table : Prop := {
  ht_contents : ra_contents file = table_bytes options done;
  ht_bytes : Forall byte (ra_contents file);
  ht_size : size (ra_contents file) < 2 ^ 32;
  ht_interval : 1 <= interval
}.
Context (H : holds_table).

(** ** The parts of the file *)

Lemma part_size before c rest : table_bytes options done = before ++ c ++ rest -> 0 <= size before /\ 0 <= size c /\ size before + size c < 2 ^ 32.
Proof.
  intros E. pose proof (ht_size H) as Hs. rewrite (ht_contents H), E, !size_app in Hs.
  pose proof (size_nonneg before). pose proof (size_nonneg c). pose proof (size_nonneg rest). lia.
Qed.

Lemma part_ok before c rest : table_bytes options done = before ++ stored_block c ++ rest ->
  u64 (size before) = size before /\ size c < 2 ^ 32 /\ handle_ok (mk_handle (u64 (size before)) (size c)) /\
  forall opts, exists own, ReadBlock file opts (mk_handle (u64 (size before)) (size c)) = Some (OK, mk_contents c own own).
Proof.
  intros E. pose proof (part_size _ _ _ E) as Hs. rewrite size_stored_block in Hs. pose proof (size_nonneg c). unfold kBlockTrailerSize in Hs.
  assert (Hu : u64 (size before) = size before) by (apply uwrap_small; lia). split; [done|]. split; [lia|]. rewrite Hu. split; [split; cbn; lia|].
  intros opts. apply (ReadBlock_of file opts _ before c rest); [by rewrite (ht_contents H)|done|done| |lia].
  pose proof (ht_bytes H) as Hb. rewrite (ht_contents H), E in Hb. unfold stored_block in Hb. rewrite !Forall_app in Hb. apply Hb.
Qed.

Lemma data_part i b : bs !! i = Some b -> exists rest, table_bytes options done = file_blocks interval (take i bs) ++ stored_block (raw_block interval b) ++ rest.
Proof.
  intros Hb. unfold table_bytes, before_index, before_meta. fold bs. eexists. fold interval.
  rewrite <- (take_drop_middle bs i b Hb) at 1. rewrite file_blocks_app, <- !app_assoc. f_equal. unfold file_blocks at 1. cbn [map concat]. rewrite <- !app_assoc. reflexivity.
Qed.

Lemma filter_part_at p : filter_policy options = Some p -> exists rest, table_bytes options done = file_blocks interval bs ++ stored_block (filter_raw options p bs) ++ rest.
Proof. intros Hp. unfold table_bytes, before_index, before_meta, filter_part. fold bs. rewrite Hp. eexists. rewrite <- !app_assoc. reflexivity. Qed.

Lemma meta_part_at : exists rest, table_bytes options done = before_meta options bs ++ stored_block (meta_block options bs) ++ rest.
Proof. unfold table_bytes, before_index. fold bs. eexists. rewrite <- !app_assoc. reflexivity. Qed.

Lemma index_part_at : exists rest, table_bytes options done = before_index options bs ++ stored_block (index_block options done) ++ rest.
Proof. unfold table_bytes. fold bs. by eexists. Qed.

(** ** The footer *)

Lemma footer_read : kEncodedLength <= size (ra_contents file) /\
  exists own, ra_Read file (size (ra_contents file) - kEncodedLength) kEncodedLength = (OK, footer_bytes (table_footer options done), own) /\
    footer_DecodeFrom new_Footer (footer_bytes (table_footer options done)) = Some (OK, table_footer options done, []).
Proof.
  destruct meta_part_at as [r1 E1]. destruct index_part_at as [r2 E2].
  destruct (part_ok _ _ _ E1) as (_ & _ & Hm & _). destruct (part_ok _ _ _ E2) as (_ & _ & Hi & _).
  destruct (footer_DecodeFrom_of new_Footer (table_footer options done) Hm Hi) as [Hsz Hd].
  set (front := before_index options bs ++ stored_block (index_block options done)).
  assert (Hc : ra_contents file = front ++ footer_bytes (table_footer options done)) by (rewrite (ht_contents H); unfold front; by rewrite <- app_assoc).
  pose proof (size_nonneg front). rewrite Hc, size_app, Hsz. split; [lia|]. replace (size front + kEncodedLength - kEncodedLength) with (size front) by lia.
  destruct (ra_Read_contents file (size front) kEncodedLength ltac:(lia) ltac:(done)) as [own ->]. exists own. split; [|done]. f_equal. f_equal.
  rewrite Hc, drop_size_app, <- Hsz. rewrite <- (app_nil_r (footer_bytes _)) at 2. apply take_size_app.
Qed.

(** ** The blocks *)

Lemma block_read i b opts : bs !! i = Some b ->
  exists own, ReadBlock file opts (mk_handle (u64 (size (file_blocks interval (take i bs)))) (size (raw_block interval b))) =
    Some (OK, mk_contents (raw_block interval b) own own).
Proof. intros Hb. destruct (data_part i b Hb) as [rest E]. by apply (part_ok _ _ _ E). Qed.

Lemma block_iterator i b : bs !! i = Some b -> exists bi, (b ← new_Block (raw_block interval b); NewIterator b) = Some bi /\ block_stands b bi None.
Proof. intros Hb. destruct (data_part i b Hb) as [rest E]. apply block_contents_stands; [apply H|]. by apply (part_ok _ _ _ E). Qed.

Definition data_handle (i : nat) (b : list entry) : BlockHandle := mk_handle (u64 (size (file_blocks interval (take i bs)))) (size (raw_block interval b)).

Lemma data_handle_decoded i b h0 : bs !! i = Some b -> handle_DecodeFrom h0 (handle_EncodeTo (data_handle i b) []) = (OK, data_handle i b, []).
Proof.
  intros Hb. destruct (data_part i b Hb) as [rest E]. destruct (part_ok _ _ _ E) as (_ & _ & Hh & _).
  rewrite handle_EncodeTo_app by exact Hh. cbn [app]. rewrite <- (app_nil_r (handle_bytes _)). by apply handle_DecodeFrom_of.
Qed.

Lemma index_lookup i b ik : done !! i = Some (b, ik) -> index_entries interval done !! i = Some (ik, handle_EncodeTo (data_handle i b) []).
Proof.
  intros Hi. assert (Hb : bs !! i = Some b) by (unfold bs; by rewrite list_lookup_fmap, Hi).
  unfold index_entries. rewrite list_lookup_fmap. fold bs. pose proof (handles_lookup interval bs 0 i b Hb) as Hh. rewrite Z.add_0_l in Hh.
  assert (Hc : combine (handles interval 0 bs) done !! i = Some (data_handle i b, (b, ik))).
  { clear -Hh Hi. fold (data_handle i b) in Hh. revert Hh Hi. generalize (data_handle i b) as h. generalize (handles interval 0 bs) as hs. revert i. generalize done as l0.
    intros l0; induction l0 as [|d l IH]; intros [|i] [|h' hs] h Hh Hi; try done; cbn in *; [congruence|by apply IH]. }
  by rewrite Hc.
Qed.

(** ** [BlockReader] *)

(** The block at an offset. *)
Fixpoint block_at (before : Z) (bs : list (list entry)) (offset : Z) : list entry :=
  match bs with
  | [] => []
  | b :: bs' => if offset =? before then b else block_at (before + size (stored_block (raw_block interval b))) bs' offset
  end.

Lemma block_at_lookup l : forall before i b, l !! i = Some b -> block_at before l (before + size (file_blocks interval (take i l))) = b.
Proof.
  induction l as [|b0 l IH]; intros before i b Hi; [done|]. destruct i as [|i]; cbn [take block_at].
  - cbn. rewrite Z.add_0_r, Z.eqb_refl. by injection Hi.
  - unfold file_blocks. cbn [map concat]. rewrite size_app. fold (file_blocks interval (take i l)).
    pose proof (size_nonneg (file_blocks interval (take i l))). pose proof (size_nonneg (raw_block interval b0)).
    destruct (Z.eqb_spec (before + (size (stored_block (raw_block interval b0)) + size (file_blocks interval (take i l)))) before) as [E|_].
    + rewrite size_stored_block in E. unfold kBlockTrailerSize in E. lia.
    + rewrite Z.add_assoc. by apply IH.
Qed.

(** The entries of the block of an index entry. *)
Definition block_of (index_value : Slice) : list entry :=
  block_at 0 bs (bh_offset (snd (fst (handle_DecodeFrom new_BlockHandle index_value)))).

Lemma block_of_index i b : bs !! i = Some b -> block_of (handle_EncodeTo (data_handle i b) []) = b.
Proof.
  intros Hb. unfold block_of. rewrite data_handle_decoded by done. cbn. destruct (data_part i b Hb) as [rest E].
  destruct (part_ok _ _ _ E) as (-> & _). rewrite <- (Z.add_0_l (size _)). by apply block_at_lookup.
Qed.

Lemma BlockReader_ok (table : Table F) opts s i b : t_file table = file -> block_cache (t_options table) = false -> bs !! i = Some b ->
  exists bi, BlockReader table opts (handle_EncodeTo (data_handle i b) []) s = (Ret bi, s) /\ block_stands b bi None.
Proof.
  intros Hf Hc Hb. unfold BlockReader. rewrite data_handle_decoded by done. rewrite Hf, Hc. change (negb (ok OK)) with false. cbv iota.
  destruct (block_read i b opts Hb) as [own E]. fold (data_handle i b) in E. rewrite E. destruct (block_iterator i b Hb) as (bi & Hbi & Hs). exists bi. split; [|done].
  destruct (new_Block (raw_block interval b)) as [blk|] eqn:En; [|done]. cbn in Hbi.
  erewrite bind_Ret; [|erewrite bind_Ret; [reflexivity|]; unfold or_stuck at 1; rewrite bind_ret; change (ok OK) with true; cbv iota; cbn [bc_data]; rewrite En; reflexivity].
  cbv beta iota. by rewrite Hbi.
Qed.

(** ** [Open] *)

(** The filter that [Open] finds. *)
Definition table_filter : option (FilterPolicy * FilterBlockReader) :=
  match filter_policy options with Some p => Some (p, new_FilterBlockReader (filter_raw options p bs)) | None => None end.

Lemma Slice_eq_refl k : Slice_eq k k = true.
Proof.
  unfold Slice_eq. rewrite Z.eqb_refl. cbn [andb]. assert (Hm : memcmp k k = 0); [|by rewrite Hm].
  induction k as [|x k IH]; [done|]. cbn [memcmp]. by rewrite Z.ltb_irrefl.
Qed.

(** The seek in the meta index finds its only entry. *)
Lemma meta_seek key value bi : Forall byte key -> block_stands [(key, value)] bi None ->
  fst ((it_Seek (IteratorOps := BlockIterator_ops (C := BytewiseComparator)) key ;;
    it <- get ;;
    if it_Valid (IteratorOps := BlockIterator_ops (C := BytewiseComparator)) it then
      k <- it_key (IteratorOps := BlockIterator_ops (C := BytewiseComparator)) ;;
      if Slice_eq k key then v <- it_value (IteratorOps := BlockIterator_ops (C := BytewiseComparator)) ;; ret (Some v) else ret None
    else ret None) bi) = Ret (Some value).
Proof.
  intros Hk Hs. pose proof (block_laws (C := BytewiseComparator) (L := bytewise_laws)) as laws.
  assert (Hsrc : source (C := BytewiseComparator) (L := bytewise_laws) [(key, value)]) by (split; repeat constructor; exact Hk).
  destruct (stands_Seek (IteratorLaws := laws) [(key, value)] bi None key Hsrc Hs Hk) as (bi' & p & E & Hs' & Hp).
  erewrite bind_Ret by exact E. rewrite bind_get.
  assert (Hp0 : p = Some 0%nat).
  { pose proof (order_refl (ComparatorLaws := bytewise_laws) key Hk) as Hr. destruct p as [[|i]|]; [done| |].
    - destruct Hp as [(e & He & _) _]. by destruct i.
    - specialize (Hp 0%nat (key, value) eq_refl). cbn [fst] in Hp. lia. }
  subst p. rewrite (stands_Valid (IteratorLaws := laws) _ _ _ Hs').
  erewrite bind_Ret by exact (stands_key (IteratorLaws := laws) _ _ _ (key, value) Hs' eq_refl). cbn [fst].
  rewrite Slice_eq_refl.
  by erewrite bind_Ret by exact (stands_value (IteratorLaws := laws) _ _ _ (key, value) Hs' eq_refl).
Qed.

Lemma ReadFilter_ok p : filter_policy options = Some p ->
  ReadFilter options file p (handle_EncodeTo (filter_handle options p bs) []) = Some (Some (p, new_FilterBlockReader (filter_raw options p bs))).
Proof.
  intros Hp. destruct (filter_part_at p Hp) as [rest E]. destruct (part_ok _ _ _ E) as (_ & _ & Hh & Hr).
  destruct (Hr (meta_ReadOptions options)) as [own Er]. unfold ReadFilter.
  rewrite handle_EncodeTo_app by exact Hh. cbn [app]. rewrite <- (app_nil_r (handle_bytes _)), handle_DecodeFrom_of by exact Hh.
  change (negb (ok OK)) with false. cbv iota. unfold filter_handle. fold interval. rewrite Er. done.
Qed.

Lemma ReadMeta_ok : (forall p, filter_policy options = Some p -> Forall byte (policy_Name (FilterPolicy := p))) ->
  ReadMeta options file (metaindex_handle_ (table_footer options done)) = Some table_filter.
Proof.
  intros Hname. unfold ReadMeta, table_filter. destruct (filter_policy options) as [p|] eqn:Hp; [|done].
  destruct meta_part_at as [rest E]. destruct (part_ok _ _ _ E) as (_ & Hsz & _ & Hr). destruct (Hr (meta_ReadOptions options)) as [own Er].
  unfold table_footer. cbn [metaindex_handle_]. fold bs. rewrite Er. cbn [mbind option_bind]. change (negb (ok OK)) with false. cbv iota. cbn [bc_data].
  destruct (block_contents_stands (C := C) interval (meta_entries options bs) (ht_interval H) Hsz) as (bi & Hbi & Hs).
  fold interval in Hbi. unfold meta_block. fold interval. destruct (new_Block (block_contents interval (meta_entries options bs))) as [blk|] eqn:En; [|done].
  cbn in Hbi. cbn [mbind option_bind]. rewrite Hbi. cbn [mbind option_bind]. unfold meta_entries in Hs. rewrite Hp in Hs.
  assert (Hk : Forall byte (filter_key p)).
  { unfold filter_key. apply Forall_app. split; [|by apply Hname]. repeat constructor; unfold byte; cbn; lia. }
  pose proof (meta_seek _ _ bi Hk Hs) as Hseek. unfold filter_key in Hseek. cbv zeta. rewrite Hseek. by apply ReadFilter_ok.
Qed.

Definition opened (index : Block) : Table F := mk_table options file 0 table_filter (metaindex_handle_ (table_footer options done)) index.

Lemma Open_ok : block_cache options = false -> (forall p, filter_policy options = Some p -> Forall byte (policy_Name (FilterPolicy := p))) ->
  exists index bi, (forall s : S, Open options file (size (ra_contents file)) s = (Ret (OK, Some (opened index)), s)) /\
    NewIterator index = Some bi /\ block_stands (index_entries interval done) bi None.
Proof.
  intros Hc Hname. destruct footer_read as (Hlen & own & Hread & Hfooter). destruct index_part_at as [rest E].
  destruct (part_ok _ _ _ E) as (_ & Hsz & _ & Hr). destruct (Hr (meta_ReadOptions options)) as [own' Er].
  destruct (block_contents_stands (C := C) 1 (index_entries interval done) ltac:(lia) Hsz) as (bi & Hbi & Hs). fold interval in Hbi.
  destruct (new_Block (index_block options done)) as [index|] eqn:En; [|by unfold index_block in En; fold interval in En; rewrite En in Hbi].
  assert (Hni : NewIterator index = Some bi) by (unfold index_block in En; fold interval in En; by rewrite En in Hbi).
  exists index, bi. split; [|done]. intros s. unfold Open. destruct (Z.ltb_spec (size (ra_contents file)) kEncodedLength); [lia|].
  rewrite Hread. change (negb (ok OK)) with false. cbv iota. rewrite Hfooter. unfold or_stuck at 1. rewrite bind_ret. change (negb (ok OK)) with false. cbv iota.
  change (index_handle_ (table_footer options done)) with (mk_handle (u64 (size (before_index options bs))) (size (index_block options done))).
  rewrite Er. unfold or_stuck at 1. rewrite bind_ret. change (ok OK) with true. cbv iota. cbn [bc_data]. rewrite En. unfold or_stuck at 1. rewrite bind_ret, Hc, bind_ret.
  rewrite ReadMeta_ok by done. unfold or_stuck at 1. by rewrite bind_ret.
Qed.

(** ** The two levels *)

Context (Hsep : separated done []) (Hne : Forall (fun b => b <> []) bs) (Hsrc : source (concat bs)).

Lemma block_source i b : bs !! i = Some b -> source b.
Proof.
  intros Hb. rewrite <- (take_drop_middle bs i b Hb), concat_app in Hsrc. cbn in Hsrc. apply source_app in Hsrc as (_ & Hs & _). by apply source_app in Hs as (Hs & _).
Qed.

Lemma length_index : List.length (index_entries interval done) = List.length done.
Proof. unfold index_entries. rewrite length_map, length_combine, length_handles, length_map. lia. Qed.

Lemma index_at i e : index_entries interval done !! i = Some e ->
  exists b ik, done !! i = Some (b, ik) /\ bs !! i = Some b /\ e = (ik, handle_EncodeTo (data_handle i b) []).
Proof.
  intros He. pose proof (lookup_lt_Some _ _ _ He) as Hlt. rewrite length_index in Hlt. destruct (lookup_lt_is_Some_2 done i Hlt) as [[b ik] Hi].
  exists b, ik. split; [done|]. split; [unfold bs; by rewrite list_lookup_fmap, Hi|]. rewrite (index_lookup i b ik Hi) in He. by injection He.
Qed.

Lemma concat_index : concat (blocks (index_entries interval done) block_of) = concat bs.
Proof.
  f_equal. unfold blocks. apply list_eq. intros i. rewrite list_lookup_fmap. destruct (index_entries interval done !! i) as [e|] eqn:He.
  - destruct (index_at i e He) as (b & ik & _ & Hb & ->). rewrite Hb. exact (f_equal Some (block_of_index i b Hb)).
  - apply lookup_ge_None in He. rewrite length_index in He. symmetry. apply lookup_ge_None. unfold bs. by rewrite length_map.
Qed.

Lemma index_size : Z.of_nat (List.length (index_entries interval done)) < 2 ^ 64.
Proof.
  rewrite length_index. assert (Hb : forall l, Z.of_nat (List.length l) <= size (file_blocks interval l)).
  { induction l as [|b l IH]; [done|]. unfold file_blocks. cbn [map concat]. fold (file_blocks interval l). rewrite size_app, size_stored_block.
    pose proof (size_nonneg (raw_block interval b)). cbn [List.length]. unfold kBlockTrailerSize. lia. }
  specialize (Hb bs). destruct meta_part_at as [rest E]. pose proof (part_size _ _ _ E) as Hs. unfold before_meta in Hs. rewrite size_app in Hs.
  pose proof (size_nonneg (filter_part options bs)). unfold bs in Hb at 1. rewrite length_map in Hb. fold interval in Hs. lia.
Qed.

Lemma table_index (table : Table F) opts (s : S) : t_file table = file -> block_cache (t_options table) = false ->
  two_level_index (dstands := block_stands) (table_block_function table opts s) (index_entries interval done) block_of.
Proof.
  intros Hf Hc. split.
  - assert (Hkey : forall i ik, map fst (index_entries interval done) !! i = Some ik -> exists b, done !! i = Some (b, ik)).
    { intros i ik Hi. rewrite list_lookup_fmap in Hi. destruct (index_entries interval done !! i) as [e|] eqn:He; [|done].
      destruct (index_at i e He) as (b & ik' & Hd & _ & ->). injection Hi as <-. by exists b. }
    split.
    + apply Forall_lookup_2. intros i ik Hi. destruct (Hkey i ik Hi) as [b Hd]. by apply (separated_lookup done Hsep i b ik).
    + apply StronglySorted_lookup. intros i j ik ik' Hij Hi Hj. destruct (Hkey i ik Hi) as [b Hd]. destruct (Hkey j ik' Hj) as [b' Hd'].
      destruct (separated_lookup done Hsep i b ik Hd) as (Hk & _ & Hab). destruct (separated_lookup done Hsep j b' ik' Hd') as (Hk' & Hbe & _).
      assert (Hb' : bs !! j = Some b') by (unfold bs; by rewrite list_lookup_fmap, Hd'). destruct b' as [|kv b'].
      { rewrite Forall_lookup in Hne. by destruct (Hne j [] Hb'). }
      assert (Hin : kv ∈ kv :: b') by (apply elem_of_cons; by left).
      apply (order_lt_le_trans ik (fst kv) ik'); [done|by eapply source_elem, Hin; eapply block_source|done|by eapply Hab|by apply Hbe].
  - exact index_size.
  - intros e He. apply list_elem_of_lookup_1 in He as [i He]. destruct (index_at i e He) as (b & ik & Hd & Hb & ->). cbn [snd]. rewrite (block_of_index i b Hb).
    split; [by eapply block_source|]. destruct (BlockReader_ok table opts s i b Hf Hc Hb) as (bi & E & Hs). exists bi, None. split; [|done].
    unfold table_block_function. by rewrite E.
  - intros e kv He Hkv. apply list_elem_of_lookup_1 in He as [i He]. destruct (index_at i e He) as (b & ik & Hd & Hb & ->). cbn [snd fst] in *. rewrite (block_of_index i b Hb) in Hkv.
    by apply (separated_lookup done Hsep i b ik Hd).
  - intros i j e e' kv Hij He He' Hkv. destruct (index_at i e He) as (b & ik & Hd & Hb & ->). destruct (index_at j e' He') as (b' & ik' & Hd' & Hb' & ->).
    cbn [snd fst] in *. rewrite (block_of_index j b' Hb') in Hkv. by apply (separated_lookup done Hsep i b ik Hd) with (j := j) (b' := b') (ik' := ik').
Qed.
End Read.

#[local] Arguments stored_block : simpl never.
#[local] Arguments block_contents : simpl never.
#[local] Arguments raw_block : simpl never.

(** A filter policy that keeps its promise for the keys of [kvs]. *)
Definition filter_ok (p : FilterPolicy) (kvs : list entry) : Prop :=
  Forall byte (policy_Name (FilterPolicy := p)) /\ size (concat (map fst kvs)) < 2 ^ 64 /\
  exists laws : FilterPolicyLaws p, forall ks, ks `sublist_of` map fst kvs -> filter_keys_ok ks.

Lemma size_concat_sublist (a b : list (list Z)) : a `sublist_of` b -> size (concat a) <= size (concat b).
Proof.
  induction 1 as [|x a b Hs IH|x a b Hs IH]; [done| |]; cbn [concat]; rewrite !size_app; pose proof (size_nonneg x); lia.
Qed.

Lemma keys_of_sublist i (sets : list (Z * list Slice)) : keys_of i sets `sublist_of` concat (map snd sets).
Proof.
  induction sets as [|[off keys] sets IH]; [done|]. unfold keys_of in *. cbn [flat_map map snd concat].
  apply sublist_app; [|done]. destruct (off / kFilterBase =? i); [done|apply sublist_nil_l].
Qed.

Section Theorems.
Context {G : Type} {R : RandomAccessFile G} {RL : RandomAccessFileLaws R} {S : Type} {K : BlockCache S} {C : Comparator} {L : ComparatorLaws C}.
Context (options : Options) (file : G) (done : list block_rec).

Let interval : Z := block_restart_interval options.
Let bs : list (list entry) := map fst done.

Context (H : holds_table options file done) (Hcache : block_cache options = false).
Context (Hsep : separated done []) (Hne : Forall (fun b => b <> []) bs) (Hsrc : source (concat bs)).
Context (Hfilter : forall p, filter_policy options = Some p -> filter_ok p (concat bs)).

(** ** Iterators *)

Lemma table_iterator_walks index bi : NewIterator index = Some bi -> block_stands (index_entries interval done) bi None ->
  exists it, table_NewIterator (opened options file done index) = Some it /\
    forall opts (s : S), let ops := two_level_ops (table_block_function (opened options file done index) opts s) in
      walks (concat bs) it /\ follows (concat bs) it.
Proof.
  intros Hni Hs. unfold table_NewIterator. cbn [t_index_block opened]. rewrite Hni. cbn [mbind option_bind]. unfold NewTwoLevelIterator.
  destruct (wrapper_Set_ok (stands := block_stands) _ null_wrapper bi None Hs) as (w & -> & Hw). eexists. split; [reflexivity|]. intros opts s.
  pose proof (table_index options file done H Hsep Hne Hsrc (opened options file done index) opts s eq_refl Hcache) as Hidx.
  pose proof (two_level_laws (istands := block_stands) (dstands := block_stands) _ _ _ Hidx) as laws.
  match type of laws with IteratorLaws _ ?st => assert (Hst : st (concat bs) (mk_two OK w null_wrapper []) None) end.
  { split; [by rewrite (concat_index options file done H)|]. split; [done|]. split; [by exists None|done]. }
  split; [by apply (stands_walks (laws := laws) _ _ None)|by apply (stands_follows (laws := laws) _ _ None)].
Qed.

(** ** [InternalGet] *)

Lemma in_done kv : kv ∈ concat bs -> exists j b ik, done !! j = Some (b, ik) /\ bs !! j = Some b /\ kv ∈ b.
Proof.
  intros (b & Hb & Hkv)%list_elem_of_In%in_concat. apply list_elem_of_In, list_elem_of_lookup_1 in Hb as [j Hj]. pose proof Hj as Hj'.
  unfold bs in Hj. rewrite list_lookup_fmap in Hj. destruct (done !! j) as [[b' ik]|] eqn:Hd; [|done]. injection Hj as ->.
  exists j, b, ik. split; [done|]. split; [done|]. by apply list_elem_of_In.
Qed.

Lemma block_in i b kv : bs !! i = Some b -> kv ∈ b -> kv ∈ concat bs.
Proof. intros Hb Hkv. apply list_elem_of_In, in_concat. exists b. split; apply list_elem_of_In; [by eapply list_elem_of_lookup_2|done]. Qed.

(** A key is in the block that the index leads to. *)
Lemma sought_block k p : key_ok k -> seeks k (index_entries interval done) p -> forall v, (k, v) ∈ concat bs ->
  exists i b ik, p = Some i /\ done !! i = Some (b, ik) /\ bs !! i = Some b /\ (k, v) ∈ b.
Proof.
  intros Hk Hp v (j & b & ik & Hd & Hb & Hkv)%in_done. destruct (separated_lookup done Hsep j b ik Hd) as (Hik & Hbelow & _).
  pose proof (index_lookup options done j b ik Hd) as He. pose proof (Hbelow _ Hkv) as Hle. cbn [fst] in Hle. pose proof (order_refl k Hk) as Hr.
  assert (Hnot : order ik k < 0 -> False) by (intros Hlt; pose proof (order_le_lt_trans k ik k Hk Hik Hk Hle Hlt); lia).
  destruct p as [i|].
  - exists i. destruct Hp as ((e & Hei & Hge) & Hbefore). destruct (index_at options done i e Hei) as (b' & ik' & Hd' & Hb' & ->). cbn [fst] in Hge.
    destruct (Nat.lt_trichotomy i j) as [Hij|[->|Hij]].
    + destruct (separated_lookup done Hsep i b' ik' Hd') as (_ & _ & Habove). specialize (Habove j b ik (k, v) Hij Hd Hkv). cbn [fst] in Habove. lia.
    + exists b, ik. done.
    + by destruct (Hnot (Hbefore j _ Hij He)).
  - by destruct (Hnot (Hp j _ He)).
Qed.

(** ** The filter *)

Lemma filter_sets_concat : concat (map snd (filter_sets interval bs [])) = map fst (concat bs).
Proof.
  assert (Hl : forall l o, concat (map snd (combine (map bh_offset (handles interval o l)) (map (map fst) l))) = map fst (concat l)).
  { induction l as [|b l IH]; intros o; [done|]. cbn [handles map combine concat snd]. by rewrite IH, map_app. }
  rewrite filter_sets_cur, map_app, concat_app, Hl. cbn. by rewrite app_nil_r.
Qed.

Lemma filter_sets_in i b : bs !! i = Some b -> (bh_offset (data_handle options done i b), map fst b) ∈ filter_sets interval bs [].
Proof.
  intros Hb. rewrite filter_sets_cur. apply elem_of_app. left. pose proof (handles_lookup interval bs 0 i b Hb) as Hh. rewrite Z.add_0_l in Hh.
  assert (Hl : forall l i hs h b, hs !! i = Some h -> l !! i = Some b -> combine (map bh_offset hs) (map (map fst) l) !! i = Some (bh_offset h, map fst (b : list entry))).
  { induction l as [|b0 l IH]; intros [|j] [|h' hs] h b' Hh' Hb'; try done; cbn in *; [congruence|by apply IH]. }
  apply (list_elem_of_lookup_2 _ i). exact (Hl _ _ _ _ _ Hh Hb).
Qed.

Lemma handles_in_order l keys : forall o from, 0 <= from <= o -> o + size (file_blocks interval l) < 2 ^ 64 ->
  in_order from (combine (map bh_offset (handles interval o l)) (map (map fst) l) ++ [(u64 (o + size (file_blocks interval l)), keys)]).
Proof.
  induction l as [|b l IH]; intros o from Ho Hsz; unfold file_blocks in *; cbn [map concat] in *.
  - change (size []) with 0 in *. cbn. rewrite uwrap_small by lia. lia.
  - fold (file_blocks interval l) in *. rewrite size_app, Z.add_assoc in *. pose proof (size_nonneg (stored_block (raw_block interval b))). pose proof (size_nonneg (file_blocks interval l)).
    cbn [handles map combine in_order bh_offset app]. rewrite uwrap_small by lia. split; [lia|]. apply IH; lia.
Qed.

Lemma filter_sets_in_order : in_order 0 (filter_sets interval bs []).
Proof.
  destruct (meta_part_at options done) as [rest E]. pose proof (part_size options file done H _ _ _ E) as Hs. unfold before_meta in Hs. rewrite size_app in Hs.
  pose proof (size_nonneg (filter_part options bs)). pose proof (size_nonneg (file_blocks interval bs)). fold bs interval in Hs, E.
  rewrite filter_sets_cur. rewrite <- (Z.add_0_l (size (file_blocks interval bs))). apply handles_in_order; lia.
Qed.

(** The filter lets every key of a block pass. *)
Lemma filter_answers i b k : bs !! i = Some b ->
  exists excluded, (match table_filter options done with
    | Some (p, filter) =>
        let '(s, handle, _) := handle_DecodeFrom new_BlockHandle (handle_EncodeTo (data_handle options done i b) []) in
        if ok s then negb <$> reader_KeyMayMatch (P := p) filter (bh_offset handle) k else Some false
    | None => Some false
    end) = Some excluded /\ (k ∈ map fst b -> excluded = false).
Proof.
  intros Hb. unfold table_filter. destruct (filter_policy options) as [p|] eqn:Hp; [|by exists false]. fold bs.
  rewrite (data_handle_decoded options file done H i b _ Hb). change (ok OK) with true. cbv iota. unfold filter_raw. fold interval.
  destruct (Hfilter p eq_refl) as (_ & Hsz & laws & Hkeys).
  destruct (filter_part_at options done p Hp) as [rest E]. destruct (part_ok options file done H _ _ _ E) as (_ & Hraw & _). fold bs interval in Hraw.
  destruct (built_answers (P := p) (L := laws) (filter_sets interval bs []) (bh_offset (data_handle options done i b)) k filter_sets_in_order) as (answer & Ha & Hin).
  - intros j. pose proof (keys_of_sublist j (filter_sets interval bs [])) as Hsub. rewrite filter_sets_concat in Hsub.
    split; [pose proof (size_concat_sublist _ _ Hsub); lia|by apply Hkeys].
  - exact Hraw.
  - unfold data_handle. cbn [bh_offset]. by apply (uwrap_range 64).
  - unfold filter_raw in Ha. rewrite Ha. exists (negb answer). split; [done|]. intros Hk. by rewrite (Hin _ (filter_sets_in i b Hb) Hk).
Qed.

(** The end of [InternalGet], in a block. *)
Lemma seek_block b bi k : source b -> key_ok k -> block_stands b bi None -> exists bi' found, it_Seek k bi = (Ret tt, bi') /\
  (if it_Valid bi' then
     match it_key bi', it_value bi' with
     | (Ret key, _), (Ret value, _) => Some (Some (key, value))
     | _, _ => None
     end
   else Some None) = Some found /\ it_status bi' = OK /\
  (forall v, (k, v) ∈ b -> found = Some (k, v)) /\ forall kv, found = Some kv -> kv ∈ b /\ 0 <= order (fst kv) k.
Proof.
  intros Hb Hk Hs. destruct (stands_Seek b bi None k Hb Hs Hk) as (bi' & p & E & Hs' & Hp). exists bi'.
  exists (match p with Some i => b !! i | None => None end). split; [done|]. rewrite (stands_Valid _ _ _ Hs'), (stands_status _ _ _ Hs').
  pose proof (order_refl k Hk) as Hr. destruct p as [i|].
  - destruct Hp as ((e & He & Hge) & Hbefore). rewrite (stands_key _ _ _ e Hs' He), (stands_value _ _ _ e Hs' He), He. split; [by destruct e|]. split; [done|]. split.
    + intros v Hv. apply list_elem_of_lookup_1 in Hv as [j Hj]. destruct (Nat.lt_trichotomy i j) as [Hij|[->|Hij]].
      * exfalso. rewrite <- (take_drop j b) in Hb. apply source_app in Hb as (_ & _ & Hlt).
        assert (Hek : order (fst e) k < 0).
        { apply (Hlt e (k, v)); [apply (list_elem_of_lookup_2 _ i); by rewrite lookup_take_lt by lia|].
          apply (list_elem_of_lookup_2 _ 0%nat). rewrite lookup_drop. by rewrite Nat.add_0_r. }
        lia.
      * congruence.
      * specialize (Hbefore j _ Hij Hj). cbn [fst] in Hbefore. lia.
    + intros kv [= <-]. split; [by eapply list_elem_of_lookup_2|done].
  - split; [done|]. split; [done|]. split; [|done]. intros v Hv. apply list_elem_of_lookup_1 in Hv as [j Hj]. specialize (Hp j _ Hj). cbn [fst] in Hp. lia.
Qed.

Lemma InternalGet_ok index bi opts (s : S) k : NewIterator index = Some bi -> block_stands (index_entries interval done) bi None -> key_ok k ->
  exists found, InternalGet (opened options file done index) opts k s = (Ret (found, OK), s) /\
    (forall v, (k, v) ∈ concat bs -> found = Some (k, v)) /\ (forall kv, found = Some kv -> kv ∈ concat bs /\ 0 <= order (fst kv) k).
Proof.
  intros Hni Hs Hk. pose proof (table_index options file done H Hsep Hne Hsrc (opened options file done index) opts s eq_refl Hcache) as Hidx.
  destruct (stands_Seek _ bi None k (ti_source _ _ _ Hidx) Hs Hk) as (bi' & p & E & Hs' & Hp). pose proof (sought_block k p Hk Hp) as Hfound.
  unfold InternalGet. cbn [t_index_block opened]. rewrite Hni. unfold or_stuck at 1. rewrite bind_ret, E. unfold or_stuck at 1. rewrite bind_ret.
  rewrite (stands_Valid _ _ _ Hs'). destruct p as [i|].
  - destruct Hp as ((e & He & _) & _). destruct (index_at options done i e He) as (b & ik & Hd & Hb & ->). fold bs in Hb.
    rewrite (stands_value _ _ _ _ Hs' He). cbn [snd]. destruct (filter_answers i b k Hb) as (excluded & Hex & Hpass). cbn [t_filter opened] in *.
    assert (Hin : forall v, (k, v) ∈ concat bs -> (k, v) ∈ b).
    { intros v Hv. destruct (Hfound v Hv) as (i' & b' & ik' & [= <-] & Hd' & _ & Hkv). by rewrite Hd in Hd'; injection Hd' as <- <-. }
    destruct excluded.
    + exists None. split; [|split; [|done]].
      * erewrite bind_Ret; [|unfold or_stuck at 1; rewrite bind_ret, Hex; unfold or_stuck at 1; rewrite bind_ret; reflexivity].
        cbv beta iota. by rewrite (stands_status _ _ _ Hs').
      * intros v Hv. specialize (Hpass (list_elem_of_fmap_2 fst _ _ (Hin v Hv))). done.
    + destruct (BlockReader_ok options file done H (opened options file done index) opts s i b eq_refl Hcache Hb) as (bi2 & Er & Hs2).
      destruct (seek_block b bi2 k (block_source done Hsrc i b Hb) Hk Hs2) as (bi3 & found & E3 & Ef & Est & Hv & Hge). exists found.
      split; [|split; [intros v Hkv; by apply Hv, Hin|intros kv Hkv; destruct (Hge kv Hkv); split; [by eapply block_in|done]]].
      erewrite bind_Ret.
      2:{ unfold or_stuck at 1. rewrite bind_ret, Hex. unfold or_stuck at 1. rewrite bind_ret. cbv iota. erewrite bind_Ret by exact Er.
          rewrite E3. unfold or_stuck at 1. rewrite bind_ret, Ef. unfold or_stuck at 1. rewrite bind_ret, Est. reflexivity. }
      cbv beta iota. change (ok OK) with true. cbv iota. by rewrite (stands_status _ _ _ Hs').
  - exists None. split; [|split; [|done]].
    + rewrite bind_ret. cbv beta iota. by rewrite (stands_status _ _ _ Hs').
    + intros v Hv. by destruct (Hfound v Hv) as (i & b & ik & [=] & _).
Qed.
End Theorems.

(** ** What was built is read *)

Section RoundTrip.
Context {F : Type} {W : WritableFile F} {WL : WritableFileLaws W}.
Context {G : Type} {R : RandomAccessFile G} {RL : RandomAccessFileLaws R}.
Context {S : Type} {K : BlockCache S} {C : Comparator} {L : ComparatorLaws C}.

(** A run of the builder over [kvs]. *)
Definition build_table (options : Options) (file : F) (kvs : list entry) : outcome Status * TableBuilder F :=
  (tb_AddAll kvs ;; tb_Finish) (new_TableBuilder options file).

(** Entries and options for which a table can be built without a cache. *)
Record table_input (options : Options) (kvs : list entry) : Prop := {
  in_interval : 1 <= block_restart_interval options;
  in_cache : block_cache options = false;
  in_source : source kvs;
  in_filter : forall p, filter_policy options = Some p -> filter_ok p kvs
}.

(** The file [g] holds what was written, less than 4 GB of bytes. *)
Definition same_file (g : G) (t : TableBuilder F) : Prop :=
  ra_contents g = contents (tb_file t) /\ Forall byte (ra_contents g) /\ size (ra_contents g) < 2 ^ 32.

Lemma build_table_ok options file kvs : table_input options kvs -> contents file = [] ->
  exists t done, build_table options file kvs = (Ret OK, t) /\ concat (map fst done) = kvs /\
    forall g, same_file g t -> holds_table options g done /\ separated done [] /\ Forall (fun b => b <> []) (map fst done).
Proof.
  intros [Hint Hc Hsrc Hf] Hfile. unfold build_table. pose proof (built_new options file Hfile) as Hnew.
  destruct (tb_AddAll_ok options kvs _ [] None [] Hnew Hsrc) as (t1 & done1 & pend & cur & E1 & H1 & He). erewrite bind_Ret by exact E1.
  change (entries [] None [] ++ kvs) with kvs in He. rewrite <- He in Hsrc.
  destruct (tb_Finish_ok options t1 done1 pend cur H1 Hsrc) as (t & done & E & Hcont & Hconcat & Hne & Hsep & _). exists t, done. split; [done|].
  split; [by rewrite Hconcat|]. intros g (Hg & Hb & Hs). split; [|done]. split; [by rewrite Hg, Hcont|done..].
Qed.

(** C27: a table gives back the entries it was built from. For any comparator and filter
    policy that keep the promises of their interfaces, any block size and restart interval, and entries
    with increasing keys, [TableBuilder] finishes without an error; and whatever file then
    holds the bytes it wrote, below 4 GB, [Table::Open] accepts it and the iterator over the
    table shows a client exactly the entries: forwards from the first, backwards from the
    last, from any key on, and in any sequence of calls that change direction. *)
Theorem table_roundtrip (options : Options) (file : F) (g : G) (kvs : list entry) :
  table_input options kvs -> contents file = [] ->
  fst (build_table options file kvs) = Ret OK /\
  (same_file g (snd (build_table options file kvs)) ->
    exists table it, (forall s : S, Open options g (size (ra_contents g)) s = (Ret (OK, Some table), s)) /\
      table_NewIterator table = Some it /\
      forall opts s, let ops := two_level_ops (table_block_function table opts s) in walks kvs it /\ follows kvs it).
Proof.
  intros Hin Hfile. destruct (build_table_ok options file kvs Hin Hfile) as (t & done & -> & Hd & Hread). split; [done|]. intros Hg.
  destruct Hin as [Hint Hc Hsrc Hf]. destruct (Hread g Hg) as (H & Hsep & Hne). rewrite <- Hd in *.
  destruct (Open_ok options g done H Hc (fun p Hp => proj1 (Hf p Hp))) as (index & bi & Ho & Hni & Hs).
  destruct (table_iterator_walks options g done H Hc Hsep Hne Hsrc index bi Hni Hs) as (it & Hit & Hw).
  by exists (opened options g done index), it.
Qed.

(** C28: [InternalGet] finds what was put into the table. On a table built and opened as
    above, with a filter or without, a lookup of a key that was added hands out its value; a
    lookup of any other key hands out nothing, or an entry of the table behind the key, which
    the caller tells from the key it looks for. No filter hides an entry, and no
    lookup fails. *)
Theorem table_get (options : Options) (file : F) (g : G) (kvs : list entry) :
  table_input options kvs -> contents file = [] -> same_file g (snd (build_table options file kvs)) ->
  exists table, (forall s : S, Open options g (size (ra_contents g)) s = (Ret (OK, Some table), s)) /\
    forall opts (s : S) k, key_ok k -> exists found, InternalGet table opts k s = (Ret (found, OK), s) /\
      (forall v, (k, v) ∈ kvs -> found = Some (k, v)) /\
      (forall kv, found = Some kv -> kv ∈ kvs /\ 0 <= order (fst kv) k).
Proof.
  intros Hin Hfile Hg. destruct (build_table_ok options file kvs Hin Hfile) as (t & done & E & Hd & Hread). rewrite E in Hg.
  destruct Hin as [Hint Hc Hsrc Hf]. destruct (Hread g Hg) as (H & Hsep & Hne). rewrite <- Hd in *.
  destruct (Open_ok options g done H Hc (fun p Hp => proj1 (Hf p Hp))) as (index & bi & Ho & Hni & Hs).
  exists (opened options g done index). split; [done|]. intros opts s k Hk. by apply (InternalGet_ok options g done H Hc Hsep Hne Hsrc Hf index bi).
Qed.
End RoundTrip.

(** ** On files in memory, with a Bloom filter *)

#[local] Existing Instance BytewiseComparator.

#[export] Instance memory_random : RandomAccessFile (list Z) :=
  {| ra_Read f offset n := (OK, take (Z.to_nat n) (drop (Z.to_nat offset) f), true) |}.

#[export, program] Instance memory_random_laws : RandomAccessFileLaws memory_random := {| ra_contents f := f |}.
Next Obligation. intros f offset n _ _. by exists true. Qed.

#[export] Instance no_cache : BlockCache unit :=
  {| cache_NewId := stuck; cache_Lookup _ := stuck; cache_Insert _ _ _ := stuck |}.

Definition sample_options : Options := mk_options false false true 4194304 1000 false 40 2 2097152 kSnappyCompression false (Some (bloom_policy bloom10)).

Definition sample_table : list entry :=
  [(literal "apple", literal "1"); (literal "apricot", literal "2"); (literal "banana", literal "3"); (literal "bandana", literal "4");
   (literal "cherry", literal "5"); (literal "cranberry", literal "6"); (literal "date", literal "7")].

Definition sample_table_file : list Z := contents (tb_file (snd (build_table (C := BytewiseComparator) sample_options [] sample_table))).

Lemma Forall_byte_check l : forallb (fun b => (0 <=? b) && (b <? 256)) l = true -> Forall byte l.
Proof.
  intros Hl. apply List.Forall_forall. intros b Hb. rewrite forallb_forall in Hl. specialize (Hl b Hb). unfold byte. lia.
Qed.

Lemma sample_input : table_input (C := BytewiseComparator) (L := bytewise_laws) sample_options sample_table.
Proof.
  split; [done|done| |].
  - split; [repeat constructor; unfold byte; cbn; lia|repeat constructor].
  - intros p [= <-]. split; [apply Forall_byte_check; vm_compute; reflexivity|]. split; [vm_compute; reflexivity|].
    exists (bloom_laws bloom10 bloom10_ok). intros ks Hks%sublist_length. change (bloom_keys_ok bloom10 ks). unfold bloom_keys_ok, size.
    change (bits_per_key_ bloom10) with 10. change (List.length (map fst sample_table)) with 7%nat in Hks. lia.
Qed.

Lemma sample_same : same_file (WL := memory_writable_laws) (RL := memory_random_laws) sample_table_file (snd (build_table (C := BytewiseComparator) sample_options [] sample_table)).
Proof. split; [reflexivity|]. split; [apply Forall_byte_check; vm_compute; reflexivity|vm_compute; reflexivity]. Qed.

#[local] Opaque sample_table_file build_table.

Lemma table_roundtrip_witness :
  exists table it, Open (S := unit) sample_options sample_table_file (size sample_table_file) tt = (Ret (OK, Some table), tt) /\
    table_NewIterator table = Some it /\
    let ops := two_level_ops (table_block_function table default_ReadOptions tt) in
    fst ((it_SeekToLast ;; scan it_Prev 7) it) = Ret (rev sample_table).
Proof.
  destruct (table_roundtrip (WL := memory_writable_laws) (RL := memory_random_laws) (C := BytewiseComparator) (L := bytewise_laws) (S := unit) sample_options [] sample_table_file sample_table sample_input eq_refl)
    as [_ H]. destruct (H sample_same) as (table & it & Ho & Hi & Hw). exists table, it. split; [apply Ho|]. split; [exact Hi|].
  destruct (Hw default_ReadOptions tt) as [Hwalk _]. destruct (Hwalk 7%nat ltac:(cbn; lia)) as (_ & Hl & _). exact Hl.
Defined.

Lemma table_get_witness :
  exists table, Open (S := unit) sample_options sample_table_file (size sample_table_file) tt = (Ret (OK, Some table), tt) /\
    InternalGet table default_ReadOptions (literal "cherry") tt = (Ret (Some (literal "cherry", literal "5"), OK), tt).
Proof.
  destruct (table_get (WL := memory_writable_laws) (RL := memory_random_laws) (C := BytewiseComparator) (L := bytewise_laws) (S := unit) sample_options [] sample_table_file sample_table sample_input eq_refl sample_same)
    as (table & Ho & Hget). exists table. split; [apply Ho|].
  destruct (Hget default_ReadOptions tt (literal "cherry")) as (found & E & Hf & _); [repeat constructor; unfold byte; cbn; lia|].
  rewrite E, (Hf (literal "5")); [done|]. unfold sample_table. rewrite !elem_of_cons. tauto.
Defined.
