(* ===== verification/LdbDbIter.v ===== *)
(** [db/db_iter.cc]: the iterator over a database, which shows of every user key the
    newest entry at a sequence number, and nothing where that is a deletion. *)

From Stdlib Require Import ZArith Lia List String Bool.
From stdpp Require Import base list.
From S2P Require Import Prelude LdbBase LdbText LdbKeys LdbSkipList LdbIterator.

(** ** [DBIter] *)

Inductive DBDirection := DBForward | DBReverse.

(** [db_->RecordReadSample(k)] is the one call to the database: [samples_] are the keys
    it was made with. *)
Record DBIter (I : Type) := mk_dbiter {
  iter_ : I;
  sequence_ : Z;
  dstatus_ : Status;
  saved_key_ : list Z;
  saved_value_ : list Z;
  ddirection_ : DBDirection;
  valid_ : bool;
  drnd_ : Z;
  bytes_until_read_sampling_ : Z;
  samples_ : list Slice
}.
Arguments mk_dbiter {I}.
Arguments iter_ {I}.
Arguments sequence_ {I}.
Arguments dstatus_ {I}.
Arguments saved_key_ {I}.
Arguments saved_value_ {I}.
Arguments ddirection_ {I}.
Arguments valid_ {I}.
Arguments drnd_ {I}.
Arguments bytes_until_read_sampling_ {I}.
Arguments samples_ {I}.

Section DBIter.
Context {I : Type} {ops : IteratorOps I} {user_comparator : Comparator}.

Abbreviation dbiter := (DBIter I).

(** ** Assignments *)

Definition put_iter (it : I) (t : dbiter) : dbiter :=
  mk_dbiter it (sequence_ t) (dstatus_ t) (saved_key_ t) (saved_value_ t) (ddirection_ t) (valid_ t) (drnd_ t) (bytes_until_read_sampling_ t) (samples_ t).
Definition put_status (s : Status) (t : dbiter) : dbiter :=
  mk_dbiter (iter_ t) (sequence_ t) s (saved_key_ t) (saved_value_ t) (ddirection_ t) (valid_ t) (drnd_ t) (bytes_until_read_sampling_ t) (samples_ t).
Definition put_key (k : list Z) (t : dbiter) : dbiter :=
  mk_dbiter (iter_ t) (sequence_ t) (dstatus_ t) k (saved_value_ t) (ddirection_ t) (valid_ t) (drnd_ t) (bytes_until_read_sampling_ t) (samples_ t).
Definition put_value (v : list Z) (t : dbiter) : dbiter :=
  mk_dbiter (iter_ t) (sequence_ t) (dstatus_ t) (saved_key_ t) v (ddirection_ t) (valid_ t) (drnd_ t) (bytes_until_read_sampling_ t) (samples_ t).
Definition put_direction (d : DBDirection) (t : dbiter) : dbiter :=
  mk_dbiter (iter_ t) (sequence_ t) (dstatus_ t) (saved_key_ t) (saved_value_ t) d (valid_ t) (drnd_ t) (bytes_until_read_sampling_ t) (samples_ t).
Definition put_valid (b : bool) (t : dbiter) : dbiter :=
  mk_dbiter (iter_ t) (sequence_ t) (dstatus_ t) (saved_key_ t) (saved_value_ t) (ddirection_ t) b (drnd_ t) (bytes_until_read_sampling_ t) (samples_ t).
Definition put_sampling (rnd bytes : Z) (samples : list Slice) (t : dbiter) : dbiter :=
  mk_dbiter (iter_ t) (sequence_ t) (dstatus_ t) (saved_key_ t) (saved_value_ t) (ddirection_ t) (valid_ t) rnd bytes samples.

(** A method of [iter_]. *)
Definition on_inner {A} (m : M I A) : M dbiter A := zoom iter_ put_iter m.

Definition SaveKey (k : Slice) : M dbiter unit := modify (put_key k).
Definition clear_key : M dbiter unit := modify (put_key []).
(** Either way the string is empty; its capacity is not modelled. *)
Definition ClearSavedValue : M dbiter unit := modify (put_value []).

(** [ExtractUserKey(iter_->key())] *)
Definition inner_user_key : M dbiter Slice := k <- on_inner it_key ;; or_stuck (ExtractUserKey k).

(** [user_comparator_->Compare] *)
Definition user_compare (a b : Slice) : M dbiter Z := or_stuck (Compare a b).

(** ** What a client sees of a position *)

Definition db_Valid (t : dbiter) : bool := valid_ t.
Definition db_key : M dbiter Slice :=
  t <- get ;; match ddirection_ t with DBForward => inner_user_key | DBReverse => ret (saved_key_ t) end.
Definition db_value : M dbiter Slice :=
  t <- get ;; match ddirection_ t with DBForward => on_inner it_value | DBReverse => ret (saved_value_ t) end.
Definition db_status (t : dbiter) : Status := if ok (dstatus_ t) then it_status (iter_ t) else dstatus_ t.

(** ** Reading a key *)

(** [rnd_.Uniform(2 * config::kReadBytesPeriod)], and the new seed. *)
Definition RandomCompactionPeriod (seed : Z) : Z * Z :=
  let r := random_Next seed in (r mod (2 * kReadBytesPeriod), r).

(** A round of the loop that samples. *)
Definition sample_step (k : Slice) (bytes_read : Z) (_ : unit) : M dbiter (unit + unit) :=
  t <- get ;;
  if bytes_until_read_sampling_ t <? bytes_read then
    let '(period, rnd) := RandomCompactionPeriod (drnd_ t) in
    modify (put_sampling rnd (u64 (bytes_until_read_sampling_ t + period)) (samples_ t ++ [k])) ;;
    ret (inl tt)
  else ret (inr tt).

(** [None] is [false]. *)
Definition ParseKey : M dbiter (option ParsedInternalKey) :=
  k <- on_inner it_key ;;
  v <- on_inner it_value ;;
  let bytes_read := u64 (size k + size v) in
  loop (sample_step k bytes_read) tt ;;
  t <- get ;;
  modify (put_sampling (drnd_ t) (u64 (bytes_until_read_sampling_ t - bytes_read)) (samples_ t)) ;;
  match ParseInternalKey k with
  | None => modify (put_status (Corruption (literal "corrupted internal key in DBIter") [])) ;; ret None
  | Some ikey => ret (Some ikey)
  end.

(** ** Forward *)

(** [iter_->Next(); } while (iter_->Valid());], with the locals where the loop goes on. *)
Definition while_next {A} (a : A) : M dbiter (A + unit) :=
  on_inner it_Next ;;
  t <- get ;;
  if it_Valid (iter_ t) then ret (inl a)
  else clear_key ;; modify (put_valid false) ;; ret (inr tt).

(** A round; [skip] points to [saved_key_] in every call. *)
Definition next_entry_step (skipping : bool) : M dbiter (bool + unit) :=
  ikey <- ParseKey ;;
  t <- get ;;
  match ikey with
  | Some ikey =>
      if pk_sequence ikey <=? sequence_ t then
        match pk_type ikey with
        | kTypeDeletion => SaveKey (pk_user_key ikey) ;; while_next true
        | kTypeValue =>
            hidden <- (if skipping : bool then c <- user_compare (pk_user_key ikey) (saved_key_ t) ;; ret (c <=? 0) else ret false) ;;
            if hidden : bool then while_next skipping
            else modify (put_valid true) ;; clear_key ;; ret (inr tt)
        end
      else while_next skipping
  | None => while_next skipping
  end.

Definition FindNextUserEntry (skipping : bool) : M dbiter unit := loop next_entry_step skipping.

Definition db_Next : M dbiter unit :=
  t <- get ;;
  match ddirection_ t with
  | DBReverse =>
      modify (put_direction DBForward) ;;
      (if negb (it_Valid (iter_ t)) then on_inner it_SeekToFirst else on_inner it_Next) ;;
      t <- get ;;
      if negb (it_Valid (iter_ t)) then modify (put_valid false) ;; clear_key
      else FindNextUserEntry true
  | DBForward =>
      k <- inner_user_key ;;
      SaveKey k ;;
      FindNextUserEntry true
  end.

(** ** Backward *)

(** A round of the loop that leaves the entries of the current key: [true] is the
    return in the middle. *)
Definition leave_key_step (_ : unit) : M dbiter (unit + bool) :=
  on_inner it_Prev ;;
  t <- get ;;
  if negb (it_Valid (iter_ t)) then modify (put_valid false) ;; clear_key ;; ClearSavedValue ;; ret (inr true)
  else
    k <- inner_user_key ;;
    c <- user_compare k (saved_key_ t) ;;
    ret (if c <? 0 then inr false else inl tt).

(** [iter_->Prev(); } while (iter_->Valid());], with [value_type]. *)
Definition while_prev (value_type : ValueType) : M dbiter (ValueType + ValueType) :=
  on_inner it_Prev ;;
  t <- get ;;
  ret (if it_Valid (iter_ t) then inl value_type else inr value_type).

Definition is_deletion (t : ValueType) : bool := ValueType_value t =? ValueType_value kTypeDeletion.

Definition prev_entry_step (value_type : ValueType) : M dbiter (ValueType + ValueType) :=
  ikey <- ParseKey ;;
  t <- get ;;
  match ikey with
  | Some ikey =>
      if pk_sequence ikey <=? sequence_ t then
        stop <- (if negb (is_deletion value_type) then c <- user_compare (pk_user_key ikey) (saved_key_ t) ;; ret (c <? 0) else ret false) ;;
        if stop : bool then ret (inr value_type)
        else if is_deletion (pk_type ikey) then clear_key ;; ClearSavedValue ;; while_prev (pk_type ikey)
        else
          raw_value <- on_inner it_value ;;
          k <- inner_user_key ;;
          SaveKey k ;;
          modify (put_value raw_value) ;;
          while_prev (pk_type ikey)
      else while_prev value_type
  | None => while_prev value_type
  end.

Definition FindPrevUserEntry : M dbiter unit :=
  t <- get ;;
  value_type <- (if it_Valid (iter_ t) then loop prev_entry_step kTypeDeletion else ret kTypeDeletion) ;;
  if is_deletion value_type then
    modify (put_valid false) ;; clear_key ;; ClearSavedValue ;; modify (put_direction DBForward)
  else modify (put_valid true).

Definition db_Prev : M dbiter unit :=
  t <- get ;;
  match ddirection_ t with
  | DBForward =>
      k <- inner_user_key ;;
      SaveKey k ;;
      returned <- loop leave_key_step tt ;;
      if returned : bool then ret tt
      else modify (put_direction DBReverse) ;; FindPrevUserEntry
  | DBReverse => FindPrevUserEntry
  end.

(** ** Seeks *)

(** [if (iter_->Valid()) FindNextUserEntry(false, &saved_key_); else valid_ = false;] *)
Definition from_here : M dbiter unit :=
  t <- get ;; if it_Valid (iter_ t) then FindNextUserEntry false else modify (put_valid false).

Definition db_Seek (target : Slice) : M dbiter unit :=
  modify (put_direction DBForward) ;;
  ClearSavedValue ;;
  clear_key ;;
  modify (fun t => put_key (AppendInternalKey (saved_key_ t) (mk_parsed target (sequence_ t) kValueTypeForSeek)) t) ;;
  t <- get ;;
  on_inner (it_Seek (saved_key_ t)) ;;
  from_here.

Definition db_SeekToFirst : M dbiter unit :=
  modify (put_direction DBForward) ;; ClearSavedValue ;; on_inner it_SeekToFirst ;; from_here.

Definition db_SeekToLast : M dbiter unit :=
  modify (put_direction DBReverse) ;; ClearSavedValue ;; on_inner it_SeekToLast ;; FindPrevUserEntry.

#[export] Instance db_ops : IteratorOps dbiter := {|
  it_Valid := db_Valid;
  it_SeekToFirst := db_SeekToFirst;
  it_SeekToLast := db_SeekToLast;
  it_Seek := db_Seek;
  it_Next := db_Next;
  it_Prev := db_Prev;
  it_key := db_key;
  it_value := db_value;
  it_status := db_status
|}.

(** The constructor. *)
Definition NewDBIterator (internal_iter : I) (sequence seed : Z) : dbiter :=
  let '(period, rnd) := RandomCompactionPeriod (new_Random seed) in
  mk_dbiter internal_iter sequence OK [] [] DBForward false rnd period [].
End DBIter.
#[global] Arguments NewDBIterator {I}.
