(* ===== verification/LdbDbIterProps.v ===== *)
(** What a database iterator shows: the versions of the user keys, which of them are
    visible at a sequence number, and the lemmas on the iterator's loops. *)

From Stdlib Require Import ZArith Lia List String Bool.
From stdpp Require Import base list sorting.
From S2P Require Import Prelude Base128 LdbBase LdbText LdbCoding LdbKeys LdbKeyProps LdbSkipList LdbIterator LdbDbIter.

(** ** The random numbers *)

Definition seed_ok (seed : Z) : Prop := 0 < seed < 2147483647.

Lemma new_Random_ok s : seed_ok (new_Random s).
Proof.
  unfold new_Random, seed_ok. rewrite (Z.land_ones s 31 ltac:(lia) : Z.land s 0x7fffffff = s mod 2147483648). pose proof (Z.mod_pos_bound s 2147483648 ltac:(lia)) as H. revert H. generalize (s mod 2147483648) as m. intros m H.
  destruct (Z.eqb_spec m 0), (Z.eqb_spec m 2147483647); cbn [orb]; lia.
Qed.

(** The generator multiplies by 16807 modulo the prime 2^31 - 1. *)
Lemma random_Next_mod seed : seed_ok seed -> random_Next seed = (seed * 16807) mod 2147483647 /\ seed_ok (random_Next seed).
Proof.
  unfold seed_ok. intros Hs. unfold random_Next. rewrite (uwrap_small 64 (seed * 16807)) by lia.
  set (p := seed * 16807).
  rewrite (Z.land_ones p 31 ltac:(lia) : Z.land p 2147483647 = p mod 2147483648), Z.shiftr_div_pow2 by lia. change (2 ^ 31) with 2147483648. assert (Hp : 0 < p < 16807 * 2147483647) by lia.
  assert (Hq : 0 <= p / 2147483648 <= 16806) by zlia. assert (Hr : 0 <= p mod 2147483648 < 2147483648) by zlia.
  assert (Hm : (p / 2147483648 + p mod 2147483648) mod 2147483647 = p mod 2147483647).
  { rewrite (Z.div_mod p 2147483648) at 3 by lia. replace (2147483648 * (p / 2147483648) + p mod 2147483648) with
      (p / 2147483648 + p mod 2147483648 + (p / 2147483648) * 2147483647) by lia. by rewrite Z.mod_add by lia. }
  assert (Hnz : p mod 2147483647 <> 0).
  { intros Hz%Z.mod_divide; [|lia]. unfold p in Hz. rewrite Z.mul_comm in Hz.
    apply Z.gauss in Hz; [|reflexivity]. apply Z.divide_pos_le in Hz; lia. }
  revert Hm Hnz Hq Hr. generalize (p / 2147483648) as q, (p mod 2147483648) as r. intros q r Hm Hnz Hq Hr.
  rewrite (uwrap_small 64), (uwrap_small 32) by lia. destruct (Z.ltb_spec 2147483647 (q + r)).
  - rewrite uwrap_small by lia. rewrite <- Hm in *. replace (q + r) with (q + r - 2147483647 + 1 * 2147483647) at 2 by lia.
    rewrite Z.mod_add, Z.mod_small by lia. lia.
  - rewrite <- Hm in *. destruct (decide (q + r = 2147483647)) as [E|]; [by rewrite E in Hnz|]. rewrite Z.mod_small in * by lia. lia.
Qed.

(** Two periods in a row are not both zero. *)
Definition period_moves (k : nat) : bool := negb (random_Next (Z.of_nat k * 2097152) mod 2097152 =? 0).

Lemma periods_all_move : forallb period_moves (seq 1 1023) = true.
Proof. vm_compute. reflexivity. Qed.

Lemma periods_move seed : seed_ok seed -> seed mod 2097152 = 0 -> random_Next seed mod 2097152 <> 0.
Proof.
  intros Hs Hz. unfold seed_ok in Hs. assert (Hq : 1 <= seed / 2097152 <= 1023) by zlia.
  pose proof (proj1 (forallb_forall _ _) periods_all_move (Z.to_nat (seed / 2097152))) as H. unfold period_moves in H.
  rewrite Z2Nat.id, Z.mul_comm in H by lia. pose proof (Z.div_mod seed 2097152 ltac:(lia)) as E. rewrite Hz, Z.add_0_r in E.
  rewrite <- E in H. apply Z.eqb_neq, negb_true_iff, H, in_seq. lia.
Qed.

(** ** Versions *)

(** An entry of the database's representation. *)
Record version := mk_version { v_key : ParsedInternalKey; v_value : Slice }.

#[export] Instance ValueType_eq_dec : EqDecision ValueType.
Proof. solve_decision. Defined.
#[export] Instance ParsedInternalKey_eq_dec : EqDecision ParsedInternalKey.
Proof. solve_decision. Defined.
#[export] Instance version_eq_dec : EqDecision version.
Proof. solve_decision. Defined.

Definition v_user (e : version) : Slice := pk_user_key (v_key e).
Definition version_entry (e : version) : entry :=
  (internal_key_bytes (pk_user_key (v_key e)) (pk_sequence (v_key e)) (pk_type (v_key e)), v_value e).

Section Versions.
Context {U : Comparator} {LU : ComparatorLaws U}.

Definition version_ok (e : version) : Prop :=
  key_ok (v_user e) /\ 0 <= pk_sequence (v_key e) <= kMaxSequenceNumber /\ size (v_user e) + size (v_value e) < 2 ^ 63.

(** The entries, in the order of internal keys. *)
Definition versions (ps : list version) : Prop :=
  Forall version_ok ps /\ source (C := InternalKeyComparator U) (L := internal_laws) (map version_entry ps).

Section View.
Context (s : Z) (ps : list version).

(** The entry is visible at [s]. *)
Definition seen (e : version) : bool := pk_sequence (v_key e) <=? s.
Definition same_user (a b : version) : bool := order (v_user a) (v_user b) =? 0.

(** An entry is shown if it is a value, it is visible, and no visible entry of its user
    key comes before it. *)
Definition is_shown (i : nat) : bool :=
  match ps !! i with
  | Some e => seen e && negb (is_deletion (pk_type (v_key e))) && negb (existsb (fun d => seen d && same_user d e) (take i ps))
  | None => false
  end.

Definition shown_indices : list nat := filter (fun i => is_shown i = true) (seq 0 (List.length ps)).
Definition user_entry (i : nat) : entry := match ps !! i with Some e => (v_user e, v_value e) | None => ([], []) end.

(** The entries of the database at [s]: their user keys with their values. *)
Definition view : list entry := map user_entry shown_indices.
End View.

Section Order.
Context (s : Z) (ps : list version) (Hps : versions ps).

Lemma version_entry_user e : version_ok e -> user_part (fst (version_entry e)) = v_user e.
Proof. intros (_ & _ & Hs). apply user_part_of. pose proof (size_nonneg (v_value e)). unfold v_user in *. lia. Qed.

Lemma version_entry_extract e : version_ok e -> ExtractUserKey (fst (version_entry e)) = Some (v_user e).
Proof.
  intros He. unfold ExtractUserKey. rewrite version_entry_user by done. unfold version_entry. cbn [fst]. rewrite size_internal_key. pose proof (size_nonneg (pk_user_key (v_key e))). by destruct (Z.leb_spec 8 (size (pk_user_key (v_key e)) + 8)); [|lia].
Qed.

Lemma version_at i e : ps !! i = Some e -> version_ok e.
Proof. intros He. destruct Hps as [Hok _]. rewrite Forall_lookup in Hok. by eapply Hok. Qed.

(** The user keys do not decrease. *)
Lemma users_sorted i j a b : (i <= j)%nat -> ps !! i = Some a -> ps !! j = Some b -> order (v_user a) (v_user b) <= 0.
Proof.
  intros Hij Ha Hb. destruct (decide (i = j)) as [->|Hne].
  { rewrite Ha in Hb. injection Hb as ->. rewrite order_refl; [lia|]. by apply (version_at j b). }
  destruct Hps as [_ [_ Hs]]. pose proof (version_at i a Ha) as Hoka. pose proof (version_at j b Hb) as Hokb.
  assert (Hlt : internal_order (fst (version_entry a)) (fst (version_entry b)) < 0).
  { refine (StronglySorted_at _ _ i j _ _ Hs ltac:(lia) _ _); by rewrite !list_lookup_fmap, ?Ha, ?Hb. }
  unfold internal_order in Hlt. rewrite !version_entry_user in Hlt by done. destruct (Z.eqb_spec (order (v_user a) (v_user b)) 0); lia.
Qed.

Lemma is_shown_true i : is_shown s ps i = true <-> exists e, ps !! i = Some e /\ seen s e = true /\ pk_type (v_key e) = kTypeValue /\
  forall j d, (j < i)%nat -> ps !! j = Some d -> seen s d = true -> order (v_user d) (v_user e) <> 0.
Proof.
  unfold is_shown. destruct (ps !! i) as [e|]; [|split; [done|by intros (e & [=] & _)]].
  rewrite !andb_true_iff, negb_true_iff, negb_true_iff. split.
  - intros [[Hs Ht] Hb]. exists e. split; [done|]. split; [done|]. split; [by destruct (pk_type (v_key e))|].
    intros j d Hj Hd Hsd Ho. apply not_true_iff_false in Hb. apply Hb, existsb_exists. exists d. rewrite Hsd. split; [|by apply Z.eqb_eq].
    apply list_elem_of_In, (list_elem_of_lookup_2 _ j). by rewrite lookup_take_lt.
  - intros (e' & [=<-] & Hs & -> & Hb). split; [by rewrite Hs|]. apply not_true_iff_false. intros (d & Hd & [Hsd Ho%Z.eqb_eq]%andb_true_iff)%existsb_exists.
    apply list_elem_of_In, list_elem_of_lookup_1 in Hd as [j Hd]. apply lookup_take_Some in Hd as [Hd Hj]. by apply (Hb j d).
Qed.

(** ** Shown indices and positions in the view *)

Lemma shown_index m : m ∈ shown_indices s ps <-> is_shown s ps m = true.
Proof.
  unfold shown_indices. rewrite list_elem_of_filter, list_elem_of_In, in_seq. split; [by intros [? _]|]. intros Hm. split; [done|].
  apply is_shown_true in Hm as (e & He%lookup_lt_Some & _). lia.
Qed.

Lemma shown_indices_sorted : StronglySorted lt (shown_indices s ps).
Proof.
  unfold shown_indices. generalize (List.length ps), 0%nat. induction n as [|n IH]; intros i; [constructor|]. cbn [seq].
  destruct (decide (is_shown s ps i = true)) as [Hi|Hi]; [rewrite filter_cons_True by done|rewrite filter_cons_False by done; apply IH].
  constructor; [apply IH|]. apply Forall_forall. intros x [_ Hx%list_elem_of_In%in_seq]%list_elem_of_filter. lia.
Qed.

Lemma shown_lookup q m : shown_indices s ps !! q = Some m -> is_shown s ps m = true.
Proof. intros Hq. by eapply shown_index, list_elem_of_lookup_2. Qed.

Lemma shown_mono a b x y : shown_indices s ps !! a = Some x -> shown_indices s ps !! b = Some y -> (a < b <-> x < y)%nat.
Proof.
  intros Ha Hb. pose proof (StronglySorted_at lt _ a b x y shown_indices_sorted) as H1. pose proof (StronglySorted_at lt _ b a y x shown_indices_sorted) as H2.
  split; intros H; [by apply H1|]. destruct (Nat.lt_trichotomy a b) as [|[->|Hlt]]; [done| |].
  - rewrite Ha in Hb. injection Hb. lia.
  - specialize (H2 Hlt Hb Ha). lia.
Qed.

Lemma length_view : List.length (view s ps) = List.length (shown_indices s ps).
Proof. unfold view. apply length_map. Qed.

Lemma view_lookup q m e : shown_indices s ps !! q = Some m -> ps !! m = Some e -> view s ps !! q = Some (v_user e, v_value e).
Proof. intros Hq He. unfold view. rewrite list_lookup_fmap, Hq. cbn. unfold user_entry. by rewrite He. Qed.

Lemma view_shown q e : view s ps !! q = Some e -> exists m v, shown_indices s ps !! q = Some m /\ ps !! m = Some v /\ e = (v_user v, v_value v).
Proof.
  intros Hq. destruct (lookup_lt_is_Some_2 (shown_indices s ps) q) as [m Hm]; [rewrite <- length_view; by eapply lookup_lt_Some|].
  pose proof (shown_lookup q m Hm) as (v & Hv & _)%is_shown_true. exists m, v. rewrite (view_lookup q m v Hm Hv) in Hq. by injection Hq.
Qed.

(** The first shown index from [b] on, and the last one below [b]. *)
Definition least (b : nat) (r : option nat) : Prop :=
  (forall m, r = Some m -> (b <= m)%nat /\ is_shown s ps m = true) /\
  forall j, (b <= j)%nat -> is_shown s ps j = true -> exists m, r = Some m /\ (m <= j)%nat.
Definition greatest (b : nat) (r : option nat) : Prop :=
  (forall m, r = Some m -> (m < b)%nat /\ is_shown s ps m = true) /\
  forall j, (j < b)%nat -> is_shown s ps j = true -> exists m, r = Some m /\ (j <= m)%nat.

(** The position in the view. *)
Definition position_of (r q : option nat) : Prop :=
  match r with
  | Some m => exists k, q = Some k /\ shown_indices s ps !! k = Some m
  | None => q = None
  end.

Lemma shown_position m : is_shown s ps m = true -> exists k, shown_indices s ps !! k = Some m.
Proof. intros Hm. apply list_elem_of_lookup_1. by apply shown_index. Qed.

(** Neighbours in the view: the index at [k'] comes right behind those before [k']. *)
Lemma least_from b k r : (forall j, is_shown s ps j = true -> (b <= j)%nat <-> exists k', (k <= k')%nat /\ shown_indices s ps !! k' = Some j) ->
  least b r -> position_of r (if (k <? List.length (view s ps))%nat then Some k else None).
Proof.
  intros Hb [Hr Hleast]. rewrite length_view. destruct (Nat.ltb_spec k (List.length (shown_indices s ps))) as [Hk|Hk].
  - destruct (lookup_lt_is_Some_2 _ _ Hk) as [m Hm]. pose proof (shown_lookup k m Hm) as Hsm.
    assert (Hbm : (b <= m)%nat) by (apply Hb; [done|]; by exists k). destruct (Hleast m Hbm Hsm) as (m' & -> & Hle). destruct (Hr m' eq_refl) as [Hbm' Hsm'].
    apply Hb in Hbm' as (k' & Hkk & Hm'); [|done]. exists k. split; [done|]. rewrite Hm. f_equal.
    destruct (decide (k = k')) as [->|Hne]; [congruence|]. pose proof (shown_mono k k' m m' Hm Hm'). lia.
  - destruct r as [m|]; [|done]. destruct (Hr m eq_refl) as [Hbm Hsm]. apply Hb in Hbm as (k' & Hkk & Hm); [|done]. apply lookup_lt_Some in Hm. lia.
Qed.

Lemma greatest_below b k r : (forall j, is_shown s ps j = true -> (j < b)%nat <-> exists k', (k' < k)%nat /\ shown_indices s ps !! k' = Some j) ->
  (k <= List.length (view s ps))%nat -> greatest b r -> position_of r (prev_pos k).
Proof.
  intros Hb Hk [Hr Hgreatest]. rewrite length_view in Hk. destruct k as [|k]; cbn [prev_pos].
  - destruct r as [m|]; [|done]. destruct (Hr m eq_refl) as [Hbm Hsm]. apply Hb in Hbm as (k' & Hkk & _); [lia|done].
  - destruct (lookup_lt_is_Some_2 (shown_indices s ps) k ltac:(lia)) as [m Hm]. pose proof (shown_lookup k m Hm) as Hsm.
    assert (Hbm : (m < b)%nat) by (apply Hb; [done|]; exists k; split; [lia|done]). destruct (Hgreatest m Hbm Hsm) as (m' & -> & Hle). destruct (Hr m' eq_refl) as [Hbm' Hsm'].
    apply Hb in Hbm' as (k' & Hkk & Hm'); [|done]. exists k. split; [done|]. rewrite Hm. f_equal.
    destruct (decide (k = k')) as [->|Hne]; [congruence|]. pose proof (shown_mono k' k m' m Hm' Hm). lia.
Qed.

Lemma least_first r : least 0 r -> position_of r (first_pos (view s ps)).
Proof.
  apply least_from. intros j Hj. split; [intros _|lia]. destruct (shown_position j Hj) as [k Hk]. exists k. split; [lia|done].
Qed.

Lemma greatest_last r : greatest (List.length ps) r -> position_of r (last_pos (view s ps)).
Proof.
  intros Hr. apply (greatest_below (List.length ps) (List.length (view s ps))); [|done|done].
  intros j Hj. rewrite length_view. destruct (shown_position j Hj) as [k Hk]. pose proof Hj as (e & He%lookup_lt_Some & _)%is_shown_true.
  split; [intros _|done]. exists k. split; [by eapply lookup_lt_Some|done].
Qed.

(** The order of the indices is the order of the positions. *)
Lemma shown_after k m j : shown_indices s ps !! k = Some m -> is_shown s ps j = true ->
  (m < j)%nat <-> exists k', (k < k')%nat /\ shown_indices s ps !! k' = Some j.
Proof.
  intros Hk Hj. destruct (shown_position j Hj) as [k' Hk']. pose proof (shown_mono k k' m j Hk Hk'). split; [intros H'; exists k'; split; [lia|done]|].
  intros (k2 & Hlt & Hk2). by apply (shown_mono k k2).
Qed.

Lemma shown_before k m j : shown_indices s ps !! k = Some m -> is_shown s ps j = true ->
  (j < m)%nat <-> exists k', (k' < k)%nat /\ shown_indices s ps !! k' = Some j.
Proof.
  intros Hk Hj. destruct (shown_position j Hj) as [k' Hk']. pose proof (shown_mono k' k j m Hk' Hk). split; [intros H'; exists k'; split; [lia|done]|].
  intros (k2 & Hlt & Hk2). by apply (shown_mono k2 k).
Qed.

Lemma least_next k m r : shown_indices s ps !! k = Some m -> least (S m) r -> position_of r (next_pos (view s ps) k).
Proof. intros Hk. apply least_from. intros j Hj. exact (shown_after k m j Hk Hj). Qed.

Lemma greatest_prev k m r : shown_indices s ps !! k = Some m -> greatest m r -> position_of r (prev_pos k).
Proof.
  intros Hk. apply greatest_below; [intros j Hj; exact (shown_before k m j Hk Hj)|]. rewrite length_view. apply Nat.lt_le_incl. by eapply lookup_lt_Some.
Qed.

Lemma least_seek target b r :
  (forall j e, (j < b)%nat -> ps !! j = Some e -> is_shown s ps j = true -> order (v_user e) target < 0) ->
  (forall j e, (b <= j)%nat -> ps !! j = Some e -> 0 <= order (v_user e) target) ->
  least b r -> exists q, position_of r q /\ seeks target (view s ps) q.
Proof.
  intros Hbelow Habove [Hr Hleast]. destruct r as [m|].
  - destruct (Hr m eq_refl) as [Hbm Hsm]. destruct (shown_position m Hsm) as [k Hk]. exists (Some k). split; [by exists k|].
    pose proof Hsm as (e & He & _)%is_shown_true. split; [exists (v_user e, v_value e); split; [by apply (view_lookup k m)|by apply (Habove m)]|].
    intros j e' Hj (i & v & Hi & Hv & ->)%view_shown. apply (Hbelow i); [|done|by eapply shown_lookup].
    destruct (Nat.lt_ge_cases i b) as [|Hge]; [done|]. destruct (Hleast i Hge (shown_lookup j i Hi)) as (m' & [=<-] & Hle).
    pose proof (shown_mono j k i m Hi Hk). lia.
  - exists None. split; [done|]. intros j e (i & v & Hi & Hv & ->)%view_shown. apply (Hbelow i); [|done|by eapply shown_lookup].
    destruct (Nat.lt_ge_cases i b) as [|Hge]; [done|]. by destruct (Hleast i Hge (shown_lookup j i Hi)) as (m' & ? & _).
Qed.

(** The view is a source of user keys. *)
Lemma source_view : source (view s ps).
Proof.
  split.
  - rewrite Forall_map, Forall_lookup. intros q e (m & v & _ & Hv & ->)%view_shown. by apply (version_at m v).
  - apply StronglySorted_lookup. intros i j x y Hij Hx Hy. rewrite list_lookup_fmap in Hx, Hy.
    destruct (view s ps !! i) as [a|] eqn:Ea; [|done]. destruct (view s ps !! j) as [b|] eqn:Eb; [|done]. injection Hx as <-. injection Hy as <-.
    apply view_shown in Ea as (m & v & Hm & Hv & ->). apply view_shown in Eb as (n & w & Hn & Hw & ->). cbn [fst].
    pose proof (proj1 (shown_mono i j m n Hm Hn) Hij) as Hmn. pose proof (users_sorted m n v w ltac:(lia) Hv Hw).
    pose proof (shown_lookup i m Hm) as (v' & Hv' & Hsv & _)%is_shown_true. rewrite Hv in Hv'. injection Hv' as <-.
    pose proof (shown_lookup j n Hn) as (w' & Hw' & _ & _ & Hnot)%is_shown_true. rewrite Hw in Hw'. injection Hw' as <-. specialize (Hnot m v Hmn Hv Hsv). lia.
Qed.
End Order.
End Versions.
