(* ===== verification/LdbDbIterTheorems.v ===== *)
(** The database iterator moves over the view: its loops find the next and the previous
    shown entry, so it keeps the interface's promises over the view of the versions its
    internal iterator is over.

    A database iterator, as a client sees it: a cursor over the newest visible values. *)

From Stdlib Require Import ZArith Lia List String Bool.
From stdpp Require Import base list sorting.
From S2P Require Import Prelude Base128 LdbBase LdbText LdbCoding LdbKeys LdbKeyProps LdbSkipList LdbBlock LdbBlockBuild LdbIterator LdbTwoLevelProps LdbMerger LdbMergerTheorems LdbDbIter LdbDbIterProps.

Section Walk.
Context {I : Type} {ops : IteratorOps I} {U : Comparator} {LU : ComparatorLaws U}.
Context {istands : list entry -> I -> option nat -> Prop}
  {ilaws : IteratorLaws (C := InternalKeyComparator U) (L := internal_laws) I istands}.
Context (s : Z) (ps : list version) (Hps : versions ps) (Hcount : Z.of_nat (List.length ps) < 2 ^ 64) (Hs : 0 <= s <= kMaxSequenceNumber).

Abbreviation dbiter := (DBIter I).
Abbreviation l := (map version_entry ps).

(** ** What every step keeps *)

Definition sampling_ok (t : dbiter) : Prop := seed_ok (drnd_ t) /\ 0 <= bytes_until_read_sampling_ t < 2 ^ 64.

(** The internal iterator is at [p]. *)
Record inner_at (p : option nat) (d : DBDirection) (t : dbiter) : Prop := {
  ia_stands : istands l (iter_ t) p;
  ia_sequence : sequence_ t = s;
  ia_status : dstatus_ t = OK;
  ia_sampling : sampling_ok t;
  ia_direction : ddirection_ t = d
}.

Definition same_saved (t t' : dbiter) : Prop := saved_key_ t' = saved_key_ t /\ saved_value_ t' = saved_value_ t.

Lemma inner_source : source (C := InternalKeyComparator U) (L := internal_laws) l.
Proof. apply Hps. Qed.

Lemma inner_lookup i e : ps !! i = Some e -> l !! i = Some (version_entry e).
Proof. intros He. by rewrite list_lookup_fmap, He. Qed.

Lemma inner_version p d t i : inner_at p d t -> p = Some i -> exists e, ps !! i = Some e.
Proof.
  intros Ht ->. apply lookup_lt_is_Some_2. rewrite <- (length_map version_entry ps). exact (stands_bound (IteratorLaws := ilaws) l _ i (ia_stands _ _ _ Ht)).
Qed.

Lemma inner_valid p d t : inner_at p d t -> it_Valid (iter_ t) = match p with Some _ => true | None => false end.
Proof. intros Ht. exact (stands_Valid (IteratorLaws := ilaws) l _ p (ia_stands p d t Ht)). Qed.

(** ** The sampling ends *)

Lemma sample_loop_ok k br t : sampling_ok t -> 0 <= br -> br + 2 ^ 21 <= 2 ^ 64 ->
  exists r b ss, loop (sample_step k br) tt t = (Ret tt, put_sampling r b ss t) /\ seed_ok r /\ br <= b < 2 ^ 64.
Proof.
  intros Ht Hbr Hfit. change (2 ^ 21) with 2097152 in Hfit. change (2 ^ 64) with 18446744073709551616 in *. unfold sampling_ok in Ht.
  destruct (wp_Ret (loop (sample_step k br) tt) t (fun _ t' => exists r b ss, t' = put_sampling r b ss t /\ seed_ok r /\ br <= b < 18446744073709551616)) as ([] & t' & E & r & b & ss & -> & H);
    [|by exists r, b, ss].
  apply (wp_loop _ (fun _ t' => exists r b ss, t' = put_sampling r b ss t /\ seed_ok r /\ 0 <= b < 18446744073709551616)
    (fun _ t' => 2 * Z.max 0 (br - bytes_until_read_sampling_ t') + (if random_Next (drnd_ t') mod 2097152 =? 0 then 1 else 0))).
  - intros [] t' (r & b & ss & -> & Hr & Hb). split; [destruct (_ =? 0); lia|]. unfold sample_step. apply wp_bind, wp_get. cbn [bytes_until_read_sampling_ drnd_ put_sampling].
    destruct (Z.ltb_spec b br) as [Hlt|Hge]; [|apply wp_ret; exists r, b, ss; split; [done|split; [done|lia]]].
    destruct (random_Next_mod r Hr) as [_ Hr']. unfold RandomCompactionPeriod. change (2 * kReadBytesPeriod) with 2097152.
    pose proof (Z.mod_pos_bound (random_Next r) 2097152 ltac:(lia)) as Hp. pose proof (periods_move (random_Next r) Hr') as Hmove.
    apply wp_bind, wp_modify, wp_ret. rewrite uwrap_small by lia. split; [eexists _, _, _; split; [reflexivity|]; split; [done|lia]|].
    cbn [bytes_until_read_sampling_ drnd_ put_sampling].
    destruct (Z.eqb_spec (random_Next r mod 2097152) 0) as [E0|E0], (Z.eqb_spec (random_Next (random_Next r) mod 2097152) 0) as [E1|E1]; [by destruct (Hmove E0)|lia..].
  - exists (drnd_ t), (bytes_until_read_sampling_ t), (samples_ t). split; [by destruct t|]. done.
  - cbn beta. destruct (_ =? 0); lia.
Qed.

(** ** Methods of the internal iterator *)

Lemma inner_put p d t it p' : inner_at p d t -> istands l it p' -> inner_at p' d (put_iter it t).
Proof. intros [H1 H2 H3 H4 H5] H. by split. Qed.

Lemma wp_inner p d t (m : M I unit) p' (Q : unit -> dbiter -> Prop) E : inner_at p d t ->
  (exists it', m (iter_ t) = (Ret tt, it') /\ istands l it' p') ->
  (forall t', inner_at p' d t' -> same_saved t t' -> Q tt t') -> wp (on_inner m) Q E t.
Proof.
  intros Ht (it' & Em & Hs') HQ. unfold on_inner. apply wp_zoom, (wp_of_eq _ _ tt it'); [done|].
  apply HQ; [by apply (inner_put p d t)|done].
Qed.

Lemma wp_inner_Next i d t (Q : unit -> dbiter -> Prop) E : inner_at (Some i) d t ->
  (forall t', inner_at (next_pos l i) d t' -> same_saved t t' -> Q tt t') -> wp (on_inner it_Next) Q E t.
Proof. intros Ht. apply (wp_inner (Some i) d); [done|]. apply (stands_Next (IteratorLaws := ilaws)); [apply inner_source|apply Ht]. Qed.

Lemma wp_inner_Prev i d t (Q : unit -> dbiter -> Prop) E : inner_at (Some i) d t ->
  (forall t', inner_at (prev_pos i) d t' -> same_saved t t' -> Q tt t') -> wp (on_inner it_Prev) Q E t.
Proof. intros Ht. apply (wp_inner (Some i) d); [done|]. apply (stands_Prev (IteratorLaws := ilaws)); [apply inner_source|apply Ht]. Qed.

Lemma put_iter_same (t : dbiter) : put_iter (iter_ t) t = t.
Proof. by destruct t. Qed.

Lemma inner_key_ok i d t e : inner_at (Some i) d t -> ps !! i = Some e -> on_inner it_key t = (Ret (fst (version_entry e)), t).
Proof.
  intros Ht He. unfold on_inner, zoom. rewrite (stands_key (IteratorLaws := ilaws) l _ i _ (ia_stands _ _ _ Ht) (inner_lookup i e He)). by rewrite put_iter_same.
Qed.

Lemma inner_value_ok i d t e : inner_at (Some i) d t -> ps !! i = Some e -> on_inner it_value t = (Ret (v_value e), t).
Proof.
  intros Ht He. unfold on_inner, zoom. rewrite (stands_value (IteratorLaws := ilaws) l _ i _ (ia_stands _ _ _ Ht) (inner_lookup i e He)). by rewrite put_iter_same.
Qed.

Lemma inner_user_key_ok i d t e : inner_at (Some i) d t -> ps !! i = Some e -> inner_user_key t = (Ret (v_user e), t).
Proof.
  intros Ht He. unfold inner_user_key. erewrite bind_Ret by exact (inner_key_ok i d t e Ht He).
  rewrite version_entry_extract by (by eapply version_at). done.
Qed.

Lemma user_compare_ok a b (t : dbiter) : key_ok a -> key_ok b -> user_compare a b t = (Ret (order a b), t).
Proof. intros Ha Hb. unfold user_compare. by rewrite Compare_order. Qed.

(** A key is read: only the sampling changes. *)
Lemma wp_ParseKey i d t e (Q : option ParsedInternalKey -> dbiter -> Prop) E : inner_at (Some i) d t -> ps !! i = Some e ->
  (forall t', inner_at (Some i) d t' -> same_saved t t' -> Q (Some (v_key e)) t') -> wp ParseKey Q E t.
Proof.
  intros Ht He HQ. pose proof (version_at ps Hps i e He) as (Hu & Hseq & Hsz). unfold ParseKey.
  apply wp_bind, (wp_of_eq _ _ _ _ _ _ (inner_key_ok i d t e Ht He)). apply wp_bind, (wp_of_eq _ _ _ _ _ _ (inner_value_ok i d t e Ht He)).
  cbv zeta. unfold version_entry. cbn [fst]. rewrite size_internal_key.
  pose proof (size_nonneg (v_user e)) as Hn. pose proof (size_nonneg (v_value e)) as Hn'. unfold v_user in Hn, Hsz. rewrite uwrap_small by lia.
  set (br := size (pk_user_key (v_key e)) + 8 + size (v_value e)).
  destruct (sample_loop_ok (internal_key_bytes (pk_user_key (v_key e)) (pk_sequence (v_key e)) (pk_type (v_key e))) br t) as (r & b & ss & El & Hr & Hb); [apply Ht|lia|lia|].
  apply wp_bind, (wp_of_eq _ _ _ _ _ _ El). apply wp_bind, wp_get. apply wp_bind, wp_modify. rewrite ParseInternalKey_of by done. apply wp_ret.
  cbn [bytes_until_read_sampling_ drnd_ samples_ put_sampling]. rewrite uwrap_small by lia.
  replace (mk_parsed _ _ _) with (v_key e) by (by destruct (v_key e)). apply HQ; [|done].
  destruct Ht as [H1 H2 H3 H4 H5]. split; try done. split; cbn; [done|]. lia.
Qed.

(** ** Forward: the first shown entry *)

(** What [skipping] and [*skip] say from [lo] on: a visible entry is hidden if a visible
    one of its user key is below [lo], or below [b]. *)
Definition hides (b lo : nat) (skipping : bool) (skip : Slice) : Prop :=
  (skipping = true -> key_ok skip) /\
  forall j e, (lo <= j)%nat -> ps !! j = Some e -> seen s e = true -> (b <= S j)%nat /\
    ((skipping = true /\ order (v_user e) skip <= 0) <->
    (exists i d, (i < Nat.max lo b)%nat /\ ps !! i = Some d /\ seen s d = true /\ order (v_user d) (v_user e) = 0)).

(** The iterator moved past the entry at [lo], which changes nothing for the others. *)
Lemma hides_unseen b lo e skipping skip : ps !! lo = Some e -> seen s e = false -> hides b lo skipping skip -> hides b (S lo) skipping skip.
Proof.
  intros He Hse [Hk H]. split; [done|]. intros j e' Hj He' Hse'. destruct (H j e' ltac:(lia) He' Hse') as [Hb Hj']. split; [done|]. rewrite Hj'. split.
  - intros (i & d & Hi & Hd). exists i, d. split; [lia|done].
  - intros (i & d & Hi & Hd & Hsd & Ho). exists i, d. split; [|done]. destruct (decide (i = lo)) as [->|]; [|lia].
    rewrite He in Hd. injection Hd as <-. by rewrite Hse in Hsd.
Qed.

Lemma same_users i j a b : (i <= j)%nat -> ps !! i = Some a -> ps !! j = Some b -> order (v_user b) (v_user a) <= 0 -> order (v_user a) (v_user b) = 0.
Proof.
  intros Hij Ha Hb Ho. pose proof (users_sorted ps Hps i j a b Hij Ha Hb) as Hle.
  pose proof (version_at ps Hps i a Ha) as [Hka _]. pose proof (version_at ps Hps j b Hb) as [Hkb _].
  pose proof (order_flip _ _ Hka Hkb). lia.
Qed.

(** From the entry at [lo] on, the user key of [lo] is skipped. *)
Lemma hides_seen b lo e : ps !! lo = Some e -> seen s e = true -> (b <= S lo)%nat -> hides b (S lo) true (v_user e).
Proof.
  intros He Hse Hb. split; [intros _; by apply (version_at ps Hps lo e)|]. intros j e' Hj He' Hse'. split; [lia|]. split.
  - intros [_ Ho]. exists lo, e. split; [lia|]. split; [done|]. split; [done|]. by apply (same_users lo j); [lia|..].
  - intros (i & d & Hi & Hd & Hsd & Ho). split; [done|].
    pose proof (users_sorted ps Hps i lo d e ltac:(lia) Hd He). pose proof (users_sorted ps Hps lo j e e' ltac:(lia) He He').
    destruct (version_at ps Hps i d Hd) as [Hkd _]. destruct (version_at ps Hps lo e He) as [Hke _]. destruct (version_at ps Hps j e' He') as [Hke' _].
    pose proof (order_flip _ _ Hkd Hke'). pose proof (order_trans (v_user e') (v_user d) (v_user e) Hke' Hkd Hke). pose proof (order_flip _ _ Hke' Hkd). lia.
Qed.

(** A hidden entry leaves [*skip] as it is. *)
Lemma hides_hidden b lo e skip : ps !! lo = Some e -> order (v_user e) skip <= 0 -> hides b lo true skip -> hides b (S lo) true skip.
Proof.
  intros He Ho [Hk H]. split; [done|]. intros j e' Hj He' Hse'. destruct (H j e' ltac:(lia) He' Hse') as [Hb Hj']. split; [done|]. split.
  - intros Hs'. apply Hj' in Hs' as (i & d & Hi & Hd). exists i, d. split; [lia|done].
  - intros (i & d & Hi & Hd & Hsd & Hod). destruct (decide (i < Nat.max lo b)%nat); [apply Hj'; by exists i, d|]. assert (i = lo) as -> by lia.
    rewrite He in Hd. injection Hd as <-. split; [done|].
    destruct (version_at ps Hps lo e He) as [Hke _]. destruct (version_at ps Hps j e' He') as [Hke' _]. specialize (Hk eq_refl).
    pose proof (order_flip _ _ Hke Hke'). pose proof (order_flip _ _ Hke' Hke). apply (order_trans _ (v_user e) _); try done. lia.
Qed.

(** An entry that is not hidden is shown, and a hidden one is not. *)
Lemma hides_shown b lo e skipping skip : ps !! lo = Some e -> seen s e = true -> pk_type (v_key e) = kTypeValue ->
  hides b lo skipping skip -> ~ (skipping = true /\ order (v_user e) skip <= 0) -> (b <= lo)%nat /\ is_shown s ps lo = true.
Proof.
  intros He Hse Ht [_ H] Hnot. destruct (H lo e ltac:(lia) He Hse) as [Hb Hiff]. destruct (version_at ps Hps lo e He) as [Hke _]. split.
  - destruct (decide (b <= lo)%nat); [done|]. destruct Hnot. apply Hiff. exists lo, e. split; [lia|]. split; [done|]. split; [done|]. by apply order_refl.
  - apply is_shown_true. exists e. do 3 (split; [done|]). intros j d Hj Hd Hsd Ho. apply Hnot, Hiff. exists j, d. split; [lia|done].
Qed.

Lemma hides_not_shown b lo e skip : ps !! lo = Some e -> seen s e = true -> (b <= lo)%nat ->
  hides b lo true skip -> order (v_user e) skip <= 0 -> is_shown s ps lo <> true.
Proof.
  intros He Hse Hb [_ H] Ho. destruct (H lo e ltac:(lia) He Hse) as [_ Hiff]. intros (e' & He' & _ & _ & Hnone)%is_shown_true.
  rewrite He in He'. injection He' as <-. destruct (proj1 Hiff) as (i & d & Hi & Hd & Hsd & Hod); [done|]. apply (Hnone i d); [lia|done..].
Qed.

(** Where a loop ends: at the entry [r], which is shown, or nowhere. *)
Definition rests (r : option nat) (t : dbiter) : Prop :=
  inner_at r DBForward t /\ valid_ t = match r with Some _ => true | None => false end.

Lemma wp_while_next {A} (a : A) lo t (Q : A + unit -> dbiter -> Prop) E : inner_at (Some lo) DBForward t ->
  (forall t', (S lo < List.length ps)%nat -> inner_at (Some (S lo)) DBForward t' -> same_saved t t' -> Q (inl a) t') ->
  (forall t', (List.length ps <= S lo)%nat -> rests None t' -> Q (inr tt) t') -> wp (while_next a) Q E t.
Proof.
  intros Ht Hgo Hstop. unfold while_next. apply wp_bind, (wp_inner_Next lo DBForward); [done|]. intros t1 Ht1 Hsame.
  apply wp_bind, wp_get. rewrite (inner_valid _ _ _ Ht1). revert Ht1. unfold next_pos. rewrite length_map.
  destruct (Nat.ltb_spec (S lo) (List.length ps)); intros Ht1; [by apply wp_ret, Hgo|].
  apply wp_bind, wp_modify, wp_bind, wp_modify, wp_ret, Hstop; [done|]. split; [|done]. by destruct Ht1.
Qed.

Definition none_shown (b lo : nat) : Prop := forall j, (b <= j < lo)%nat -> is_shown s ps j <> true.

Lemma none_shown_S b lo : none_shown b lo -> ((b <= lo)%nat -> is_shown s ps lo <> true) -> none_shown b (S lo).
Proof. intros H Hlo j Hj. destruct (decide (j = lo)) as [->|]; [apply Hlo; lia|apply H; lia]. Qed.

Lemma none_shown_end b lo : none_shown b lo -> (List.length ps <= lo)%nat -> least s ps b None.
Proof.
  intros H Hlo. split; [done|]. intros j Hj Hsj. exfalso. apply (H j); [|done]. apply is_shown_true in Hsj as (e & He%lookup_lt_Some & _). lia.
Qed.

(** A round of [FindNextUserEntry] at [lo]. *)
Lemma next_entry_round b lo skipping t : inner_at (Some lo) DBForward t -> hides b lo skipping (saved_key_ t) -> none_shown b lo ->
  wp (next_entry_step skipping) (fun r t' => match r with
    | inl skipping' => (S lo < List.length ps)%nat /\ inner_at (Some (S lo)) DBForward t' /\ hides b (S lo) skipping' (saved_key_ t') /\ none_shown b (S lo)
    | inr _ => exists r, least s ps b r /\ rests r t'
    end) (fun _ => False) t.
Proof.
  intros Ht Hh Hn. destruct (inner_version _ _ _ _ Ht eq_refl) as [e He]. unfold next_entry_step.
  apply wp_bind, (wp_ParseKey lo DBForward t e); [done..|]. intros t1 Ht1 [Hk1 Hv1]. rewrite <- Hk1 in Hh. apply wp_bind, wp_get. rewrite (ia_sequence _ _ _ Ht1).
  assert (Hgo : forall skipping' t2, inner_at (Some lo) DBForward t2 -> hides b (S lo) skipping' (saved_key_ t2) -> ((b <= lo)%nat -> is_shown s ps lo <> true) ->
    wp (while_next skipping') (fun r t' => match r with
      | inl skipping' => (S lo < List.length ps)%nat /\ inner_at (Some (S lo)) DBForward t' /\ hides b (S lo) skipping' (saved_key_ t') /\ none_shown b (S lo)
      | inr _ => exists r, least s ps b r /\ rests r t'
      end) (fun _ => False) t2).
  { intros skipping' t2 Ht2 Hh2 Hlo. pose proof (none_shown_S b lo Hn Hlo) as Hn'. apply (wp_while_next _ lo); [done| |].
    - intros t3 Hlt Ht3 [Hk3 _]. rewrite Hk3. done.
    - intros t3 Hge Ht3. exists None. split; [|done]. by apply (none_shown_end b (S lo)). }
  change (pk_sequence (v_key e) <=? s) with (seen s e). destruct (seen s e) eqn:Hse.
  2:{ apply Hgo; [done|by apply (hides_unseen b lo e)|]. intros _ (e' & He' & Hse' & _)%is_shown_true. congruence. }
  destruct (pk_type (v_key e)) eqn:Hty.
  - apply wp_bind, wp_modify, Hgo; [by destruct Ht1| |].
    + cbn [saved_key_ put_key]. apply (hides_seen b lo e); [done..|]. by apply (proj2 Hh lo e).
    + intros _ (e' & He' & _ & Hty' & _)%is_shown_true. congruence.
  - assert (Hcmp : wp (if skipping then c <- user_compare (v_user e) (saved_key_ t1) ;; ret (c <=? 0) else ret false)
      (fun hidden t2 => t2 = t1 /\ (hidden = true <-> skipping = true /\ order (v_user e) (saved_key_ t1) <= 0)) (fun _ => False) t1).
    { destruct skipping; [|apply wp_ret; split; [done|]; split; [done|by intros [? _]]]. apply wp_bind. eapply wp_of_eq; [apply user_compare_ok; [by apply (version_at ps Hps lo e)|by apply (proj1 Hh)]|].
      apply wp_ret. split; [done|]. rewrite Z.leb_le. by split; [|intros [_ ?]]. }
    apply wp_bind. eapply wp_mono; [exact Hcmp| |done]. intros hidden t2 [-> Hiff]. destruct hidden.
    + destruct (proj1 Hiff eq_refl) as [-> Ho]. apply Hgo; [done|by apply (hides_hidden b lo e)|]. intros Hb. by apply (hides_not_shown b lo e (saved_key_ t1)).
    + destruct (hides_shown b lo e skipping (saved_key_ t1) He Hse Hty Hh) as [Hb Hsh]; [intros H; by apply Hiff in H|].
      apply wp_bind, wp_modify, wp_bind, wp_modify, wp_ret. exists (Some lo). split; [|split; [by destruct Ht1|done]].
      split; [by intros m [= <-]|]. intros j Hj Hsj. exists lo. split; [done|]. destruct (decide (lo <= j)%nat); [done|]. destruct (Hn j ltac:(lia) Hsj).
Qed.

Lemma wp_FindNext b lo skipping t : inner_at (Some lo) DBForward t -> hides b lo skipping (saved_key_ t) -> none_shown b lo ->
  wp (FindNextUserEntry skipping) (fun _ t' => exists r, least s ps b r /\ rests r t') (fun _ => False) t.
Proof.
  intros Ht Hh Hn. pose proof (inner_version _ _ _ _ Ht eq_refl) as [e He%lookup_lt_Some].
  apply (wp_loop_count _ (fun n skipping t => exists lo, n = (List.length ps - lo)%nat /\ inner_at (Some lo) DBForward t /\ hides b lo skipping (saved_key_ t) /\ none_shown b lo) _ (List.length ps - lo)).
  - intros n sk t' (lo' & -> & Ht' & Hh' & Hn'). eapply wp_mono; [exact (next_entry_round b lo' sk t' Ht' Hh' Hn')| |done].
    intros [sk'|[]] t2; [|done]. intros (Hlt & Ht2 & Hh2 & Hn2). exists (List.length ps - S lo')%nat. split; [lia|]. by exists (S lo').
  - by exists lo.
  - lia.
Qed.

(** ** Backward: the last shown entry *)

(** What [value_type] and the saved entry say when the entries of [b] down to [n] have
    been read: nothing of them is shown, or the saved entry is if no visible one of its
    user key is below [n]. *)
Definition candidate (b n : nat) (value_type : ValueType) (t : dbiter) : Prop :=
  match value_type with
  | kTypeDeletion => none_shown n b
  | kTypeValue => exists c e, (n <= c < b)%nat /\ ps !! c = Some e /\ seen s e = true /\ pk_type (v_key e) = kTypeValue /\
      saved_key_ t = v_user e /\ saved_value_ t = v_value e /\
      (forall j d, (n <= j < c)%nat -> ps !! j = Some d -> seen s d = false) /\ none_shown (S c) b
  end.

Lemma unseen_not_shown j d : ps !! j = Some d -> seen s d = false -> is_shown s ps j <> true.
Proof. intros Hd Hsd (e & He & Hse & _)%is_shown_true. congruence. Qed.

Lemma candidate_unseen b lo e vt t t' : ps !! lo = Some e -> seen s e = false -> same_saved t t' -> candidate b (S lo) vt t -> candidate b lo vt t'.
Proof.
  intros He Hse [Hk Hv]. destruct vt; cbn [candidate].
  - intros H j Hj. destruct (decide (j = lo)) as [->|]; [by apply (unseen_not_shown lo e)|apply H; lia].
  - intros (c & ec & Hc & Hec & Hsc & Htc & Hkc & Hvc & Hun & Hn). rewrite Hk, Hv. exists c, ec. split; [lia|]. do 5 (split; [done|]). split; [|done].
    intros j d Hj Hd. destruct (decide (j = lo)) as [->|]; [congruence|]. apply (Hun j); [lia|done].
Qed.

(** A visible entry at [lo] that does not end the loop hides those of [b] down to it. *)
Lemma candidate_seen b lo e vt t : ps !! lo = Some e -> seen s e = true -> candidate b (S lo) vt t ->
  (vt = kTypeValue -> ~ order (v_user e) (saved_key_ t) < 0) -> none_shown (S lo) b.
Proof.
  intros He Hse Hc Hstop. destruct vt; [done|]. destruct Hc as (c & ec & Hc & Hec & Hsc & Htc & Hkc & Hvc & Hun & Hn).
  intros j Hj. destruct (decide (j = c)) as [->|]; [|destruct (decide (j < c)%nat); [|apply Hn; lia]].
  - intros (e' & He' & _ & _ & Hnone)%is_shown_true. rewrite Hec in He'. injection He' as <-. apply (Hnone lo e ltac:(lia) He Hse).
    specialize (Hstop eq_refl). rewrite Hkc in Hstop. pose proof (users_sorted ps Hps lo c e ec ltac:(lia) He Hec). lia.
  - intros Hsj. pose proof Hsj as (d & Hd & Hsd & _)%is_shown_true. rewrite (Hun j d ltac:(lia) Hd) in Hsd. done.
Qed.

Lemma candidate_same b n vt t t' : same_saved t t' -> candidate b n vt t -> candidate b n vt t'.
Proof. intros [Hk Hv]. destruct vt; [done|]. cbn [candidate]. by rewrite Hk, Hv. Qed.

(** Where the loop ends. *)
Definition stops (n : nat) (vt : ValueType) (t : dbiter) : Prop :=
  n = 0%nat \/ vt = kTypeValue /\ exists lo e, n = S lo /\ ps !! lo = Some e /\ order (v_user e) (saved_key_ t) < 0.

Definition prev_ends (b : nat) (vt : ValueType) (t : dbiter) : Prop :=
  exists n, (n <= b)%nat /\ inner_at (prev_pos n) DBReverse t /\ candidate b n vt t /\ stops n vt t.

Lemma wp_while_prev b lo vt t : (lo < b)%nat -> inner_at (Some lo) DBReverse t -> candidate b lo vt t ->
  wp (while_prev vt) (fun r t' => match r with
    | inl vt' => exists lo', lo = S lo' /\ inner_at (Some lo') DBReverse t' /\ candidate b lo vt' t'
    | inr vt' => prev_ends b vt' t'
    end) (fun _ => False) t.
Proof.
  intros Hlo Ht Hc. unfold while_prev. apply wp_bind, (wp_inner_Prev lo DBReverse); [done|]. intros t1 Ht1 Hsame.
  apply wp_bind, wp_get, wp_ret. rewrite (inner_valid _ _ _ Ht1). pose proof (candidate_same _ _ _ _ _ Hsame Hc) as Hc1.
  destruct lo as [|lo']; cbn [prev_pos] in *; [|by exists lo']. exists 0%nat. split; [lia|]. split; [done|]. split; [done|by left].
Qed.

(** A round of [FindPrevUserEntry] at [lo]. *)
Lemma prev_entry_round b lo vt t : (lo < b)%nat -> inner_at (Some lo) DBReverse t -> candidate b (S lo) vt t ->
  wp (prev_entry_step vt) (fun r t' => match r with
    | inl vt' => exists lo', lo = S lo' /\ inner_at (Some lo') DBReverse t' /\ candidate b lo vt' t'
    | inr vt' => prev_ends b vt' t'
    end) (fun _ => False) t.
Proof.
  intros Hlo Ht Hc. destruct (inner_version _ _ _ _ Ht eq_refl) as [e He]. unfold prev_entry_step. pose proof (version_at ps Hps lo e He) as [Hke _].
  apply wp_bind, (wp_ParseKey lo DBReverse t e); [done..|]. intros t1 Ht1 Hsame. apply (candidate_same _ _ _ _ _ Hsame) in Hc. apply wp_bind, wp_get. rewrite (ia_sequence _ _ _ Ht1).
  change (pk_sequence (v_key e) <=? s) with (seen s e). destruct (seen s e) eqn:Hse; [|apply wp_while_prev; [done..|by apply (candidate_unseen b lo e vt t1)]].
  assert (Hcmp : wp (if negb (is_deletion vt) then c <- user_compare (v_user e) (saved_key_ t1) ;; ret (c <? 0) else ret false)
    (fun stop t2 => t2 = t1 /\ (stop = true <-> vt = kTypeValue /\ order (v_user e) (saved_key_ t1) < 0)) (fun _ => False) t1).
  { destruct vt; cbn [is_deletion ValueType_value negb Z.eqb]; [apply wp_ret; split; [done|]; split; [done|by intros [? _]]|].
    destruct Hc as (c & ec & _ & Hec & _ & _ & Hkc & _). pose proof (version_at ps Hps c ec Hec) as [Hkec _].
    apply wp_bind. eapply wp_of_eq; [apply user_compare_ok; [done|by rewrite Hkc]|]. apply wp_ret. split; [done|]. rewrite Z.ltb_lt. by split; [|intros [_ ?]]. }
  apply wp_bind. eapply wp_mono; [exact Hcmp| |done]. intros stop t2 [-> Hiff]. destruct stop.
  { apply wp_ret. destruct (proj1 Hiff eq_refl) as [-> Ho]. exists (S lo). split; [done|]. split; [done|]. split; [done|]. right. split; [done|]. by exists lo, e. }
  pose proof (candidate_seen b lo e vt t1 He Hse Hc (fun Hv Ho => diff_false_true (proj2 Hiff (conj Hv Ho)))) as Hnone.
  destruct (pk_type (v_key e)) eqn:Hty; cbn [is_deletion ValueType_value Z.eqb].
  - apply wp_bind, wp_modify, wp_bind, wp_modify, wp_while_prev; [done|by destruct Ht1|]. cbn [candidate].
    intros j Hj. destruct (decide (j = lo)) as [->|]; [|apply Hnone; lia]. intros (e' & He' & _ & Hty' & _)%is_shown_true. congruence.
  - apply wp_bind, (wp_of_eq _ _ _ _ _ _ (inner_value_ok lo _ t1 e Ht1 He)). apply wp_bind, (wp_of_eq _ _ _ _ _ _ (inner_user_key_ok lo _ t1 e Ht1 He)).
    apply wp_bind, wp_modify, wp_bind, wp_modify, wp_while_prev; [done|by destruct Ht1|]. exists lo, e. split; [lia|]. do 5 (split; [done|]). split; [lia|done].
Qed.

(** ** Where the iterator shows the entry [r] *)

(** The internal iterator is in front of the entry at [m], and no visible entry is between. *)
Definition behind (m : nat) (e : version) (t : dbiter) : Prop :=
  exists n, (n <= m)%nat /\ inner_at (prev_pos n) DBReverse t /\ saved_key_ t = v_user e /\ saved_value_ t = v_value e /\
    forall j d, (n <= j < m)%nat -> ps !! j = Some d -> seen s d = false.

Definition shows (r : option nat) (t : dbiter) : Prop :=
  match r with
  | Some m => valid_ t = true /\ exists e, ps !! m = Some e /\ (inner_at (Some m) DBForward t \/ behind m e t)
  | None => valid_ t = false /\ exists p d, inner_at p d t
  end.

Lemma rests_shows r t : rests r t -> shows r t.
Proof.
  intros [Ht Hv]. destruct r as [m|]; [|by split; [|exists None, DBForward]]. split; [done|].
  destruct (inner_version _ _ _ _ Ht eq_refl) as [e He]. exists e. split; [done|by left].
Qed.

Lemma greatest_None b : none_shown 0 b -> greatest s ps b None.
Proof. intros H. split; [done|]. intros j Hj Hsj. destruct (H j ltac:(lia) Hsj). Qed.

Lemma FindPrev_end b vt t : prev_ends b vt t ->
  wp (if is_deletion vt then modify (put_valid false) ;; clear_key ;; ClearSavedValue ;; modify (put_direction DBForward) else modify (put_valid true))
    (fun _ t' => exists r, greatest s ps b r /\ shows r t') (fun _ => False) t.
Proof.
  intros (n & Hn & Ht & Hc & Hstop). destruct vt; cbn [is_deletion ValueType_value Z.eqb].
  - destruct Hstop as [->|[? _]]; [|done]. apply wp_bind, wp_modify, wp_bind, wp_modify, wp_bind, wp_modify, wp_modify. exists None.
    split; [by apply greatest_None|]. split; [done|]. exists None, DBForward. by destruct Ht.
  - apply wp_modify. destruct Hc as (c & e & Hc & He & Hse & Hty & Hk & Hv & Hun & Hnone). exists (Some c). split; [split|].
    + intros m [= <-]. split; [lia|]. apply is_shown_true. exists e. do 3 (split; [done|]). intros j d Hj Hd Hsd Ho.
      destruct (decide (n <= j)%nat); [rewrite (Hun j d) in Hsd by (lia || done); done|].
      destruct Hstop as [->|(_ & lo & e' & -> & He' & Hlt)]; [lia|]. rewrite Hk in Hlt. pose proof (users_sorted ps Hps j lo d e' ltac:(lia) Hd He').
      destruct (version_at ps Hps j d Hd) as [Hkd _]. destruct (version_at ps Hps lo e' He') as [Hke' _]. destruct (version_at ps Hps c e He) as [Hke _].
      pose proof (order_le_lt_trans _ _ _ Hkd Hke' Hke). lia.
    + intros j Hj Hsj. exists c. split; [done|]. destruct (decide (j <= c)%nat); [done|]. destruct (Hnone j ltac:(lia) Hsj).
    + split; [done|]. exists e. split; [done|]. right. exists n. split; [lia|]. split; [by destruct Ht|done].
Qed.

Lemma wp_FindPrev b t : (b <= List.length ps)%nat -> inner_at (prev_pos b) DBReverse t ->
  wp FindPrevUserEntry (fun _ t' => exists r, greatest s ps b r /\ shows r t') (fun _ => False) t.
Proof.
  intros Hb Ht. unfold FindPrevUserEntry. apply wp_bind, wp_get. rewrite (inner_valid _ _ _ Ht). apply wp_bind.
  apply (wp_mono _ (prev_ends b) _ (fun _ => False)); [|intros vt t'; apply FindPrev_end|done].
  destruct b as [|lo]; cbn [prev_pos] in *.
  - apply wp_ret. exists 0%nat. split; [lia|]. split; [done|]. split; [intros j; lia|by left].
  - apply (wp_loop_count _ (fun n vt t => exists lo', n = lo' /\ (lo' < S lo)%nat /\ inner_at (Some lo') DBReverse t /\ candidate (S lo) (S lo') vt t) _ lo).
    + intros n vt t' (lo' & -> & Hlo & Ht' & Hc). eapply wp_mono; [exact (prev_entry_round (S lo) lo' vt t' Hlo Ht' Hc)| |done].
      intros [vt'|vt'] t2; [|done]. intros (lo2 & -> & Ht2 & Hc2). exists lo2. split; [lia|]. exists lo2. split; [done|]. split; [lia|done].
    + exists lo. split; [done|]. split; [lia|]. split; [done|]. intros j. lia.
    + lia.
Qed.

(** ** The operations *)

Lemma wp_from_here lo t p : inner_at p DBForward t -> p = (if (lo <? List.length ps)%nat then Some lo else None) ->
  (forall j e, (lo <= j)%nat -> ps !! j = Some e -> forall i d, (i < lo)%nat -> ps !! i = Some d -> seen s d = true -> order (v_user d) (v_user e) <> 0) ->
  wp from_here (fun _ t' => exists r, least s ps lo r /\ shows r t') (fun _ => False) t.
Proof.
  intros Ht -> Hsep. unfold from_here. apply wp_bind, wp_get. rewrite (inner_valid _ _ _ Ht).
  destruct (Nat.ltb_spec lo (List.length ps)) as [Hlo|Hlo].
  - eapply wp_mono; [apply (wp_FindNext lo lo); [done|split; [done|]|intros j; lia]|intros _ t' (r & Hr & Hre); exists r; split; [done|by apply rests_shows]|done].
    intros j e Hj He Hse. split; [lia|]. split; [by intros [? _]|]. intros (i & d & Hi & Hd & Hsd & Ho). destruct (Hsep j e Hj He i d ltac:(lia) Hd Hsd Ho).
  - apply wp_modify. exists None. split; [by apply (none_shown_end lo lo); [intros j; lia|]|]. split; [done|]. exists None, DBForward. by destruct Ht.
Qed.

Lemma shows_inner r t : shows r t -> exists p d, inner_at p d t.
Proof. destruct r as [m|]; [|by intros [_ H]]. intros (_ & e & _ & [Ht|(n & _ & Ht & _)]); by eexists _, _. Qed.

Lemma wp_db_SeekToFirst r t : shows r t -> wp db_SeekToFirst (fun _ t' => exists r', least s ps 0 r' /\ shows r' t') (fun _ => False) t.
Proof.
  intros (p & d & Ht)%shows_inner. unfold db_SeekToFirst. apply wp_bind, wp_modify, wp_bind, wp_modify.
  apply wp_bind, (wp_inner p DBForward _ _ (first_pos l)); [by destruct Ht|apply (stands_First (IteratorLaws := ilaws) l _ p); [apply inner_source|apply Ht]|].
  intros t1 Ht1 _. apply (wp_from_here 0 t1 _ Ht1); [by unfold first_pos; rewrite length_map|]. intros j e _ _ i d' Hi. lia.
Qed.

Lemma wp_db_SeekToLast r t : shows r t -> wp db_SeekToLast (fun _ t' => exists r', greatest s ps (List.length ps) r' /\ shows r' t') (fun _ => False) t.
Proof.
  intros (p & d & Ht)%shows_inner. unfold db_SeekToLast. apply wp_bind, wp_modify, wp_bind, wp_modify.
  apply wp_bind, (wp_inner p DBReverse _ _ (last_pos l)); [by destruct Ht|apply (stands_Last (IteratorLaws := ilaws) l _ p); [apply inner_source|apply Ht]|].
  intros t1 Ht1 _. apply wp_FindPrev; [done|]. unfold last_pos in Ht1. rewrite length_map in Ht1. done.
Qed.

(** The key [Seek] looks for is in front of the visible entries of its user key. *)
Lemma search_order e target : version_ok e -> key_ok target -> size target + 8 < 2 ^ 64 ->
  let o := internal_order (fst (version_entry e)) (internal_key_bytes target s kTypeValue) in
  (o < 0 -> seen s e = true -> order (v_user e) target < 0) /\ (0 <= o -> 0 <= order (v_user e) target).
Proof.
  intros Hok Ht Hsz o. subst o. pose proof Hok as (_ & Hseq & _). unfold internal_order. rewrite version_entry_user, user_part_of by done.
  unfold number_of, version_entry. cbn [fst]. rewrite !key_number_of, !PackSequenceAndType_sum by done.
  destruct (Z.eqb_spec (order (v_user e) target) 0) as [->|]; [|lia]. unfold seen. split; [|lia].
  destruct (Z.ltb_spec (s * 256 + ValueType_value kTypeValue) (pk_sequence (v_key e) * 256 + ValueType_value (pk_type (v_key e)))) as [Hlt|].
  - intros _ Hle%Z.leb_le. destruct (pk_type (v_key e)); cbn [ValueType_value] in Hlt; lia.
  - destruct (Z.ltb_spec (pk_sequence (v_key e) * 256 + ValueType_value (pk_type (v_key e))) (s * 256 + ValueType_value kTypeValue)); lia.
Qed.

Lemma seeks_cut target p : key_ok target -> size target + 8 < 2 ^ 64 ->
  seeks (C := InternalKeyComparator U) (L := internal_laws) (internal_key_bytes target s kTypeValue) l p ->
  exists lo, p = (if (lo <? List.length ps)%nat then Some lo else None) /\
    (forall j e, (j < lo)%nat -> ps !! j = Some e -> seen s e = true -> order (v_user e) target < 0) /\
    (forall j e, (lo <= j)%nat -> ps !! j = Some e -> 0 <= order (v_user e) target).
Proof.
  intros Ht Hsz Hp. destruct p as [lo|].
  - destruct Hp as ((x & Hx & Hge) & Hlt). rewrite list_lookup_fmap in Hx. destruct (ps !! lo) as [e|] eqn:He; [|done]. injection Hx as <-. exists lo.
    split; [pose proof (lookup_lt_Some _ _ _ He); by destruct (Nat.ltb_spec lo (List.length ps)); [|lia]|]. split.
    + intros j d Hj Hd. apply (search_order d target); [by eapply version_at|done..|]. by apply (Hlt j), inner_lookup.
    + intros j d Hj Hd. pose proof (version_at ps Hps lo e He) as Hoke. pose proof (version_at ps Hps j d Hd) as [Hkd _].
      pose proof (proj2 (search_order e target Hoke Ht Hsz) Hge). destruct Hoke as [Hke _].
      pose proof (users_sorted ps Hps lo j e d Hj He Hd). pose proof (order_flip _ _ Hkd Ht). pose proof (order_flip _ _ Ht Hkd). pose proof (order_le_lt_trans _ _ _ Hke Hkd Ht). lia.
  - exists (List.length ps). rewrite Nat.ltb_irrefl. split; [done|]. split.
    + intros j d Hj Hd. apply (search_order d target); [by eapply version_at|done..|]. by apply (Hp j), inner_lookup.
    + intros j e Hj He%lookup_lt_Some. lia.
Qed.

Lemma wp_db_Seek r t target : shows r t -> key_ok target -> size target + 8 < 2 ^ 64 ->
  wp (db_Seek target) (fun _ t' => exists r' q, shows r' t' /\ position_of s ps r' q /\ seeks target (view s ps) q) (fun _ => False) t.
Proof.
  intros (p & d & Ht)%shows_inner Hk Hsz. unfold db_Seek. do 4 apply wp_bind, wp_modify. apply wp_bind, wp_get. cbn [saved_key_ put_key put_value put_direction sequence_].
  rewrite (ia_sequence _ _ _ Ht), AppendInternalKey_app, app_nil_l. change kValueTypeForSeek with kTypeValue.
  destruct (stands_Seek (IteratorLaws := ilaws) l (iter_ t) p (internal_key_bytes target s kTypeValue) inner_source (ia_stands _ _ _ Ht)) as (it' & p' & E & Hst & Hsk).
  { split; [rewrite size_internal_key; pose proof (size_nonneg target); lia|]. by rewrite user_part_of. }
  apply wp_bind, (wp_inner p DBForward _ _ p'); [by destruct Ht|by exists it'|]. intros t1 Ht1 _.
  destruct (seeks_cut target p' Hk Hsz Hsk) as (lo & -> & Hbelow & Habove).
  eapply wp_mono; [apply (wp_from_here lo t1 _ Ht1 eq_refl)| |done].
  - intros j e Hj He i d' Hi Hd' Hsd. specialize (Hbelow i d' Hi Hd' Hsd). specialize (Habove j e Hj He).
    destruct (version_at ps Hps i d' Hd') as [Hkd _]. destruct (version_at ps Hps j e He) as [Hke _].
    pose proof (order_flip _ _ Hke Hkd). pose proof (order_flip _ _ Hkd Hke). pose proof (order_le_lt_trans _ _ _ Hke Hkd Hk). lia.
  - intros _ t2 (r' & Hr & Hsh). destruct (least_seek s ps target lo r') as (q & Hq & Hs'); [|exact Habove|done|by exists r', q].
    intros j e Hj He (e' & He' & Hse & _)%is_shown_true. rewrite He in He'. injection He' as <-. by apply (Hbelow j).
Qed.

(** [Next] moves past the entries of the user key of [m]. *)
Lemma wp_next_from n m e t : (n <= m)%nat -> ps !! m = Some e -> is_shown s ps m = true -> inner_at (Some n) DBForward t -> saved_key_ t = v_user e ->
  (forall j d, (n <= j < m)%nat -> ps !! j = Some d -> seen s d = false) ->
  wp (FindNextUserEntry true) (fun _ t' => exists r, least s ps (S m) r /\ shows r t') (fun _ => False) t.
Proof.
  intros Hn He Hsh Ht Hk Hun. pose proof Hsh as (e' & He' & Hse & _)%is_shown_true. rewrite He in He'. injection He' as <-.
  pose proof (hides_seen (S m) m e He Hse ltac:(lia)) as [Hok Hh]. destruct (version_at ps Hps m e He) as [Hke _].
  eapply wp_mono; [apply (wp_FindNext (S m) n); [done|split; [by rewrite Hk|]|intros j; lia]|intros _ t' (r & Hr & Hre); exists r; split; [done|by apply rests_shows]|done].
  intros j d Hj Hd Hsd. rewrite Hk. assert (m <= j)%nat by (destruct (decide (m <= j)%nat); [done|rewrite (Hun j d) in Hsd by (lia || done); done]).
  split; [lia|]. destruct (decide (j = m)) as [->|Hne].
  - rewrite He in Hd. injection Hd as <-. rewrite order_refl by done. split; [|done]. intros _. exists m, e. rewrite order_refl by done. split; [lia|done].
  - destruct (Hh j d ltac:(lia) Hd Hsd) as [_ Hiff]. rewrite Nat.max_id in Hiff. by rewrite Nat.max_r by lia.
Qed.

Lemma wp_db_Next m t : shows (Some m) t -> is_shown s ps m = true -> wp db_Next (fun _ t' => exists r, least s ps (S m) r /\ shows r t') (fun _ => False) t.
Proof.
  intros (Hv & e & He & Ht) Hsh. unfold db_Next. apply wp_bind, wp_get. destruct Ht as [Ht|(n & Hn & Ht & Hk & Hv' & Hun)]; rewrite (ia_direction _ _ _ Ht).
  - apply wp_bind, (wp_of_eq _ _ _ _ _ _ (inner_user_key_ok m _ t e Ht He)). apply wp_bind, wp_modify. apply (wp_next_from m m e); try done; [by destruct Ht|lia].
  - apply wp_bind, wp_modify. pose proof (lookup_lt_Some _ _ _ He) as Hm. assert (Ht1 : inner_at (prev_pos n) DBForward (put_direction DBForward t)) by (by destruct Ht).
    assert (Hmove : wp (if negb (it_Valid (iter_ t)) then on_inner it_SeekToFirst else on_inner it_Next)
      (fun _ t' => inner_at (Some n) DBForward t' /\ same_saved t t') (fun _ => False) (put_direction DBForward t)).
    { rewrite (inner_valid _ _ _ Ht). destruct n as [|n']; cbn [prev_pos negb] in *.
      - apply (wp_inner None DBForward _ _ (first_pos l)); [done|apply (stands_First (IteratorLaws := ilaws) l _ None); [apply inner_source|apply Ht1]|].
        unfold first_pos. rewrite length_map. destruct (Nat.ltb_spec 0 (List.length ps)); [done|lia].
      - apply (wp_inner_Next n' DBForward); [done|]. unfold next_pos. rewrite length_map. destruct (Nat.ltb_spec (S n') (List.length ps)); [done|lia]. }
    apply wp_bind. eapply wp_mono; [exact Hmove| |done]. intros [] t2 [Ht2 [Hk2 _]]. apply wp_bind, wp_get. rewrite (inner_valid _ _ _ Ht2). cbn [negb].
    apply (wp_next_from n m e); try done. by rewrite Hk2.
Qed.

(** An entry below [m] of its user key is not shown. *)
Lemma same_not_shown j d m e : (j < m)%nat -> ps !! j = Some d -> ps !! m = Some e -> is_shown s ps m = true ->
  ~ order (v_user d) (v_user e) < 0 -> is_shown s ps j <> true.
Proof.
  intros Hj Hd He (e' & He' & _ & _ & Hnone)%is_shown_true Ho (d' & Hd' & Hsd & _)%is_shown_true. rewrite He in He'. injection He' as <-. rewrite Hd in Hd'. injection Hd' as <-.
  apply (Hnone j d Hj Hd Hsd). pose proof (users_sorted ps Hps j m d e ltac:(lia) Hd He). lia.
Qed.

(** The loop that leaves the entries of the current key. *)
Lemma wp_leave m e t : inner_at (Some m) DBForward t -> saved_key_ t = v_user e -> ps !! m = Some e -> is_shown s ps m = true ->
  wp (loop leave_key_step tt) (fun returned t' => if returned : bool then none_shown 0 m /\ shows None t'
    else exists b, (b <= m)%nat /\ inner_at (prev_pos b) DBForward t' /\ none_shown b m) (fun _ => False) t.
Proof.
  intros Ht Hk He Hsh. pose proof (lookup_lt_Some _ _ _ He) as Hm. destruct (version_at ps Hps m e He) as [Hke _].
  apply (wp_loop_count _ (fun c _ t => exists n, c = n /\ (n <= m)%nat /\ inner_at (Some n) DBForward t /\ saved_key_ t = v_user e /\ none_shown n m) _ m).
  - intros c [] t' (n & -> & Hn & Ht' & Hk' & Hnone). unfold leave_key_step. apply wp_bind, (wp_inner_Prev n DBForward); [done|]. intros t1 Ht1 [Hk1 _].
    apply wp_bind, wp_get. rewrite (inner_valid _ _ _ Ht1). destruct n as [|n']; cbn [prev_pos negb] in *.
    + apply wp_bind, wp_modify, wp_bind, wp_modify, wp_bind, wp_modify, wp_ret. split; [done|]. split; [done|]. exists None, DBForward. by destruct Ht1.
    + destruct (inner_version _ _ _ _ Ht1 eq_refl) as [d Hd]. destruct (version_at ps Hps n' d Hd) as [Hkd _].
      apply wp_bind, (wp_of_eq _ _ _ _ _ _ (inner_user_key_ok n' _ t1 d Ht1 Hd)). apply wp_bind. rewrite Hk1, Hk'.
      eapply wp_of_eq; [by apply user_compare_ok|]. apply wp_ret. destruct (Z.ltb_spec (order (v_user d) (v_user e)) 0) as [Hlt|Hge].
      * exists (S n'). split; [lia|]. split; [done|done].
      * exists n'. split; [lia|]. exists n'. split; [done|]. split; [lia|]. split; [done|]. split; [by rewrite Hk1|].
        intros j Hj. destruct (decide (j = n')) as [->|]; [|apply Hnone; lia]. apply (same_not_shown n' d m e); [lia|done|done|done|lia].
  - exists m. split; [done|]. split; [done|]. split; [done|]. split; [done|]. intros j. lia.
  - lia.
Qed.

Lemma greatest_lower b m r : (b <= m)%nat -> none_shown b m -> greatest s ps b r -> greatest s ps m r.
Proof.
  intros Hb Hn [H1 H2]. split; [intros x Hx; destruct (H1 x Hx); split; [lia|done]|]. intros j Hj Hsj. destruct (decide (j < b)%nat); [by apply H2|].
  destruct (Hn j ltac:(lia) Hsj).
Qed.

Lemma wp_db_Prev m t : shows (Some m) t -> is_shown s ps m = true -> wp db_Prev (fun _ t' => exists r, greatest s ps m r /\ shows r t') (fun _ => False) t.
Proof.
  intros (Hv & e & He & Ht) Hsh. pose proof (lookup_lt_Some _ _ _ He) as Hm. unfold db_Prev. apply wp_bind, wp_get.
  assert (Hfind : forall b t', (b <= m)%nat -> inner_at (prev_pos b) DBReverse t' -> none_shown b m ->
    wp FindPrevUserEntry (fun _ t' => exists r, greatest s ps m r /\ shows r t') (fun _ => False) t').
  { intros b t' Hb Ht' Hnone. eapply wp_mono; [apply (wp_FindPrev b); [lia|done]| |done]. intros _ t2 (r & Hr & Hshow). exists r. split; [by apply (greatest_lower b)|done]. }
  destruct Ht as [Ht|(n & Hn & Ht & _ & _ & Hun)]; rewrite (ia_direction _ _ _ Ht).
  - apply wp_bind, (wp_of_eq _ _ _ _ _ _ (inner_user_key_ok m _ t e Ht He)). apply wp_bind, wp_modify, wp_bind.
    eapply wp_mono; [apply (wp_leave m e); [by destruct Ht|done..]| |done]. intros [|] t1.
    + intros [Hnone Hshow]. apply wp_ret. exists None. split; [by apply greatest_None|done].
    + intros (b & Hb & Ht1 & Hnone). apply wp_bind, wp_modify. apply (Hfind b); [done|by destruct Ht1|done].
  - apply (Hfind n); [done..|]. intros j Hj Hsj. pose proof Hsj as (d & Hd & Hsd & _)%is_shown_true. rewrite (Hun j d Hj Hd) in Hsd. done.
Qed.
End Walk.

(** User keys that leave room for the eight bytes of an internal key. *)
#[program] Definition sized_laws {C : Comparator} (L : ComparatorLaws C) : ComparatorLaws C := {|
  key_ok k := key_ok k /\ size k + 8 < 2 ^ 64;
  order := order
|}.
Next Obligation. intros C L a b [Ha _] [Hb _]. by apply Compare_order. Qed.
Next Obligation. intros C L a [Ha _]. by apply order_refl. Qed.
Next Obligation. intros C L a b [Ha _] [Hb _]. by apply order_flip. Qed.
Next Obligation. intros C L a b c [Ha _] [Hb _] [Hc _]. by apply order_trans. Qed.
Next Obligation.
  intros C L start limit [Hs Hz] [Hl _]. destruct (FindShortestSeparator_ok start limit Hs Hl) as (k & E & Hk & Hsz & H). exists k. split; [done|]. split; [split; [done|lia]|done].
Qed.
Next Obligation.
  intros C L key [Hs Hz]. destruct (FindShortSuccessor_ok key Hs) as (k & E & Hk & Hsz & H). exists k. split; [done|]. split; [split; [done|lia]|done].
Qed.

Section Laws.
Context {I : Type} {ops : IteratorOps I} {U : Comparator} {LU : ComparatorLaws U}.
Context {istands : list entry -> I -> option nat -> Prop}
  {ilaws : IteratorLaws (C := InternalKeyComparator U) (L := internal_laws) I istands}.
Context (s : Z) (ps : list version) (Hps : versions ps) (Hcount : Z.of_nat (List.length ps) < 2 ^ 64) (Hs : 0 <= s <= kMaxSequenceNumber).

Definition db_stands (v : list entry) (t : DBIter I) (q : option nat) : Prop :=
  v = view s ps /\ exists r, shows (istands := istands) s ps r t /\ position_of s ps r q.

Lemma stands_at v t k : db_stands v t (Some k) -> exists m e, shown_indices s ps !! k = Some m /\ ps !! m = Some e /\
  is_shown s ps m = true /\ shows (istands := istands) s ps (Some m) t /\ view s ps !! k = Some (v_user e, v_value e).
Proof.
  intros (-> & [m|] & Hsh & Hq); [|done]. destruct Hq as (k' & [= <-] & Hk). pose proof (shown_lookup s ps k m Hk) as Hm.
  pose proof Hm as (e & He & _)%is_shown_true. exists m, e. split; [done|]. split; [done|]. split; [done|]. split; [done|]. by apply (view_lookup s ps k m).
Qed.

(** A method that leads to where [G] says. *)
Lemma moves_to (m : M (DBIter I) unit) (G : option nat -> Prop) q t :
  wp m (fun _ t' => exists r, G r /\ shows (istands := istands) s ps r t') (fun _ => False) t -> (forall r, G r -> position_of s ps r q) ->
  exists t', m t = (Ret tt, t') /\ db_stands (view s ps) t' q.
Proof.
  intros (u & t' & E & r & HG & Hsh)%wp_Ret Hpos. destruct u. exists t'. split; [done|]. split; [done|]. exists r. split; [done|]. by apply Hpos.
Qed.

Lemma db_shows_key m t e : shows (istands := istands) s ps (Some m) t -> ps !! m = Some e -> db_key t = (Ret (v_user e), t) /\ db_value t = (Ret (v_value e), t).
Proof.
  intros (_ & e' & He' & Ht) He. rewrite He in He'. injection He' as <-. unfold db_key, db_value. rewrite !bind_get.
  destruct Ht as [Ht|(n & _ & Ht & Hk & Hv & _)]; rewrite (ia_direction _ _ _ _ _ Ht); [|by rewrite Hk, Hv].
  split; [by apply (inner_user_key_ok s ps Hps m DBForward)|by apply (inner_value_ok s ps m DBForward)].
Qed.

Lemma db_laws : IteratorLaws (ops := db_ops) (C := U) (L := sized_laws LU) (DBIter I) db_stands.
Proof.
  split.
  - intros v t k Hv. pose proof (stands_at v t k Hv) as (m & e & _ & _ & _ & _ & Hk). destruct Hv as [-> _]. by eapply lookup_lt_Some.
  - intros v t q (-> & [m|] & Hsh & Hq); cbn [position_of] in Hq; [destruct Hq as (k & -> & _)|subst q]; apply Hsh.
  - intros v t q (-> & r & Hsh & _). destruct (shows_inner s ps r t Hsh) as (p & d & Ht). unfold it_status, db_ops, db_status. rewrite (ia_status _ _ _ _ _ Ht).
    exact (stands_status (IteratorLaws := ilaws) _ _ p (ia_stands _ _ _ _ _ Ht)).
  - intros v t k x Hv Hx. destruct (stands_at v t k Hv) as (m & e & _ & He & _ & Hsh & Hk). destruct Hv as [-> _]. rewrite Hk in Hx. injection Hx as <-. by apply (db_shows_key m).
  - intros v t k x Hv Hx. destruct (stands_at v t k Hv) as (m & e & _ & He & _ & Hsh & Hk). destruct Hv as [-> _]. rewrite Hk in Hx. injection Hx as <-. by apply (db_shows_key m).
  - intros v t q _ (-> & r & Hsh & _). apply (moves_to db_SeekToFirst (least s ps 0)); [by apply (wp_db_SeekToFirst s ps Hps Hcount r)|apply least_first].
  - intros v t q _ (-> & r & Hsh & _). apply (moves_to db_SeekToLast (greatest s ps (List.length ps))); [by apply (wp_db_SeekToLast s ps Hps Hcount r)|apply greatest_last].
  - intros v t k _ Hv. destruct (stands_at v t k Hv) as (m & e & Hk & _ & Hm & Hsh & _). destruct Hv as [-> _].
    apply (moves_to db_Next (least s ps (S m))); [by apply (wp_db_Next s ps Hps Hcount m)|intros r; by apply least_next].
  - intros v t k _ Hv. destruct (stands_at v t k Hv) as (m & e & Hk & _ & Hm & Hsh & _). destruct Hv as [-> _].
    apply (moves_to db_Prev (greatest s ps m)); [by apply (wp_db_Prev s ps Hps Hcount m)|intros r; by apply greatest_prev].
  - intros v t q target _ (-> & r & Hsh & _) [Hk Hsz].
    destruct (wp_Ret _ _ _ (wp_db_Seek s ps Hps Hcount Hs r t target Hsh Hk Hsz)) as ([] & t' & E & r' & q' & Hsh' & Hq' & Hsk).
    exists t', q'. split; [done|]. split; [split; [done|by exists r']|done].
Qed.

Lemma NewDBIterator_stands seed it p : istands (map version_entry ps) it p -> db_stands (view s ps) (NewDBIterator it s seed) None.
Proof.
  intros Hit. split; [done|]. exists None. split; [|done]. split; [done|]. exists p, DBForward. destruct (random_Next_mod (new_Random seed) (new_Random_ok seed)) as [_ Hr].
  split; [done..| |done]. split; [done|]. unfold NewDBIterator, RandomCompactionPeriod. cbn [bytes_until_read_sampling_]. change (2 * kReadBytesPeriod) with 2097152.
  pose proof (Z.mod_pos_bound (random_Next (new_Random seed)) 2097152 ltac:(lia)). lia.
Qed.

Lemma sized_source : source (C := U) (L := sized_laws LU) (view s ps).
Proof.
  pose proof (source_view s ps Hps) as [H1 H2]. split; [|exact H2]. rewrite Forall_map, Forall_lookup. intros q e (m & v & _ & Hv & ->)%view_shown.
  destruct (version_at ps Hps m v Hv) as (Hk & _ & Hz). split; [done|]. cbn [fst]. pose proof (size_nonneg (v_value v)). lia.
Qed.
End Laws.

(** C30: the view of a database. Given versions of user keys in the order of internal keys (user
    keys up, sequence numbers down), and any iterator that keeps the interface's
    promises over them, the database iterator at a sequence number cannot be told
    from a cursor over the user keys whose newest version at that number is a value, with
    those values: deletions hide the versions behind them, later versions are not seen, and every
    sequence of [Seek], [SeekToFirst], [SeekToLast], [Next] and [Prev] calls, with any changes of direction, shows
    the entry the cursor is at. *)
Theorem db_iter_follows {I : Type} {ops : IteratorOps I} {U : Comparator} {LU : ComparatorLaws U}
    {istands : list entry -> I -> option nat -> Prop} {ilaws : IteratorLaws (C := InternalKeyComparator U) (L := internal_laws) I istands}
    (s seed : Z) (ps : list version) (it : I) (p : option nat) :
  versions ps -> Z.of_nat (List.length ps) < 2 ^ 64 -> 0 <= s <= kMaxSequenceNumber -> istands (map version_entry ps) it p ->
  follows (ops := db_ops) (C := U) (L := sized_laws LU) (view s ps) (NewDBIterator it s seed).
Proof.
  intros Hps Hcount Hs Hit. pose proof (db_laws (istands := istands) s ps Hps Hcount Hs) as laws.
  apply (stands_follows (laws := laws) _ _ None); [by apply sized_source|by apply (NewDBIterator_stands s ps seed it p)].
Qed.

(** Two blocks of a database, merged. *)
Definition sample_version (u : string) (seq : Z) (t : ValueType) (v : string) : version := mk_version (mk_parsed (literal u) seq t) (literal v).
Definition sample_versions : list version :=
  [sample_version "a" 5 kTypeValue "a5"; sample_version "a" 3 kTypeValue "a3"; sample_version "b" 7 kTypeDeletion ""; sample_version "b" 2 kTypeValue "b2";
   sample_version "c" 4 kTypeDeletion ""; sample_version "c" 1 kTypeValue "c1"; sample_version "d" 6 kTypeValue "d6"].
Definition sample_sources : list (list entry) :=
  map (map version_entry) [[sample_version "a" 5 kTypeValue "a5"; sample_version "b" 7 kTypeDeletion ""; sample_version "c" 4 kTypeDeletion ""; sample_version "d" 6 kTypeValue "d6"];
   [sample_version "a" 3 kTypeValue "a3"; sample_version "b" 2 kTypeValue "b2"; sample_version "c" 1 kTypeValue "c1"]].
Definition sample_children : option (list BlockIterator) := mapM (fun l => b ← new_Block (block_contents 2 l); NewIterator b) sample_sources.

Definition internal_comparator : Comparator := InternalKeyComparator BytewiseComparator.
#[local] Instance inner_blocks : IteratorOps BlockIterator := BlockIterator_ops (C := internal_comparator).
#[local] Instance inner_merged : IteratorOps (MergedIterator BlockIterator) := merged_ops (C := internal_comparator).

Lemma db_iter_follows_witness :
  exists children it, sample_children = Some children /\ NewMergingIterator children = Some it /\
    fst (run_calls (ops := db_ops (user_comparator := BytewiseComparator)) [CallFirst; CallNext; CallNext; CallPrev; CallPrev; CallNext; CallSeek (literal "c"); CallLast] (NewDBIterator it 6 301)) =
      Ret [Some (literal "a", literal "a5"); Some (literal "b", literal "b2"); Some (literal "d", literal "d6"); Some (literal "b", literal "b2");
           Some (literal "a", literal "a5"); Some (literal "b", literal "b2"); Some (literal "d", literal "d6"); Some (literal "d", literal "d6")].
Proof.
  set (il := internal_laws (L := bytewise_laws)).
  assert (Hsrc : Forall (source (C := internal_comparator) (L := il)) (map version_entry sample_versions :: sample_sources)).
  { repeat (constructor; cbn [map]); try (vm_compute; congruence); vm_compute; (reflexivity || (repeat constructor; cbn; congruence)). }
  assert (Hch : exists children, sample_children = Some children /\ children_ok (istands := block_stands) sample_sources children).
  { unfold sample_children, children_ok, sample_sources. cbn [map mapM].
    match goal with |- context [block_contents 2 ?a] => destruct (block_contents_stands (C := internal_comparator) 2 a) as (b1 & E1 & H1); [lia|vm_compute; reflexivity|]; rewrite E1 end.
    cbn [mbind option_bind].
    match goal with |- context [block_contents 2 ?a] => destruct (block_contents_stands (C := internal_comparator) 2 a) as (b2 & E2 & H2); [lia|vm_compute; reflexivity|]; rewrite E2 end.
    cbn [mbind option_bind]. exists [b2; b1]. split; [done|]. repeat constructor; by exists None. }
  destruct Hch as (children & Ec & Hch). exists children.
  assert (Hm : merges (C := internal_comparator) (L := il) sample_sources (map version_entry sample_versions)).
  { apply Forall_cons_1 in Hsrc as [H1 H2]. split; [exact H1|exact H2|]. apply (bool_decide_eq_true_1 (map version_entry sample_versions ≡ₚ concat sample_sources)). vm_compute. reflexivity. }
  destruct (NewMergingIterator_stands (istands := block_stands) (ilaws := block_laws (L := il)) sample_sources (map version_entry sample_versions) Hm children Hch) as (it & p & E & Hst).
  exists it. split; [exact Ec|]. split; [exact E|].
  refine (db_iter_follows (ilaws := merged_laws (ilaws := block_laws (L := il)) sample_sources (map version_entry sample_versions) Hm) 6 301 sample_versions it p _ _ _ Hst _ _ _ _).
  - split; [|by apply Forall_cons_1 in Hsrc as [H1 _]]. repeat constructor; vm_compute; congruence.
  - done.
  - done.
  - repeat constructor; vm_compute; congruence.
  - vm_compute. reflexivity.
Defined.
