(* ===== verification/LdbVersion.v ===== *)
(** [db/version_set.h], [db/version_set.cc]: the class [Version]: the files of every
    level, the search for a key, the samples of reads, the files that overlap a range. *)

From Stdlib Require Import ZArith Lia List String Bool SpecFloat.
From stdpp Require Import base gmap list.
From S2P Require Import Prelude LdbBase LdbText LdbCoding LdbKeys LdbIterator LdbFormat LdbVersionEdit.

(** ** Sizes *)

Definition TargetFileSize (options : Options) : Z := max_file_size options.
Definition MaxGrandParentOverlapBytes (options : Options) : Z := s64 (u64 (10 * TargetFileSize options)).
Definition ExpandedCompactionByteSizeLimit (options : Options) : Z := s64 (u64 (25 * TargetFileSize options)).
Definition MaxFileSizeForLevel (options : Options) (level : Z) : Z := TargetFileSize options.

(** ** Files

    A [FileMetaData*] is its address with the members that keep their values once
    the file is in a version; [allowed_seeks], which is counted down, is in a store by
    address. *)
Record FilePtr := mk_ptr { f_address : Z; f_meta : FileMetaData }.
Definition f_number (f : FilePtr) : Z := number (f_meta f).
Definition f_size (f : FilePtr) : Z := file_size (f_meta f).
Definition f_smallest (f : FilePtr) : list Z := smallest (f_meta f).
Definition f_largest (f : FilePtr) : list Z := largest (f_meta f).

Definition TotalFileSize (files : list FilePtr) : Z := fold_left (fun sum f => s64 (sum + f_size f)) files 0.

(** ** The table cache, as a version uses it

    [tc_Get] gives what is handed to the callback, and the status. *)
Class TableCacheOps (T : Type) := {
  tc_Get : ReadOptions -> Z -> Z -> Slice -> M T (option (Slice * Slice) * Status)
}.

Section Files.
Context {T : Type} {user_comparator : Comparator}.

(** A round of the binary search in [FindFile]. *)
Definition find_file_step (files : list FilePtr) (key : Slice) (range : Z * Z) : M T (Z * Z + Z) :=
  let '(left_, right_) := range in
  if left_ <? right_ then
    let mid := u32 (left_ + right_) / 2 in
    f <- or_stuck (files !! Z.to_nat mid) ;;
    largest <- or_stuck (key_Encode (f_largest f)) ;;
    c <- or_stuck (internal_Compare largest key) ;;
    ret (inl (if c <? 0 then (u32 (mid + 1), right_) else (left_, mid)))
  else ret (inr right_).

Definition FindFile (files : list FilePtr) (key : Slice) : M T Z :=
  right_ <- loop (find_file_step files key) (0, u32 (size files)) ;; ret (s32 right_).

Definition AfterFile (user_key : option Slice) (f : FilePtr) : M T bool :=
  match user_key with
  | Some k => largest <- or_stuck (key_user_key (f_largest f)) ;; c <- or_stuck (Compare k largest) ;; ret (0 <? c)
  | None => ret false
  end.

Definition BeforeFile (user_key : option Slice) (f : FilePtr) : M T bool :=
  match user_key with
  | Some k => smallest <- or_stuck (key_user_key (f_smallest f)) ;; c <- or_stuck (Compare k smallest) ;; ret (c <? 0)
  | None => ret false
  end.

(** [for (size_t i = 0; i < files.size(); i++)] *)
Fixpoint some_overlap (files : list FilePtr) (smallest_user_key largest_user_key : option Slice) : M T bool :=
  match files with
  | [] => ret false
  | f :: files' =>
      after <- AfterFile smallest_user_key f ;;
      outside <- (if after : bool then ret true else BeforeFile largest_user_key f) ;;
      if outside : bool then some_overlap files' smallest_user_key largest_user_key else ret true
  end.

Definition SomeFileOverlapsRange (disjoint_sorted_files : bool) (files : list FilePtr) (smallest_user_key largest_user_key : option Slice) : M T bool :=
  if negb disjoint_sorted_files then some_overlap files smallest_user_key largest_user_key
  else
    index <- (match smallest_user_key with
              | Some k =>
                  small_key <- or_stuck (key_Encode (new_InternalKey k kMaxSequenceNumber kValueTypeForSeek)) ;;
                  r <- FindFile files small_key ;; ret (u32 r)
              | None => ret 0
              end) ;;
    if size files <=? index then ret false
    else
      f <- or_stuck (files !! Z.to_nat index) ;;
      before <- BeforeFile largest_user_key f ;;
      ret (negb before).
End Files.

(** ** [Version::LevelFileNumIterator] *)

Record LevelFileNumIterator := mk_lfni { flist_ : list FilePtr; lindex_ : Z }.

Section FileIterator.
Context {user_comparator : Comparator}.

Definition new_LevelFileNumIterator (flist : list FilePtr) : LevelFileNumIterator := mk_lfni flist (u32 (size flist)).
Definition lfni_Valid (it : LevelFileNumIterator) : bool := lindex_ it <? size (flist_ it).
Definition lfni_set (i : Z) : M LevelFileNumIterator unit := modify (fun it => mk_lfni (flist_ it) i).
Definition lfni_file : M LevelFileNumIterator FilePtr := it <- get ;; or_stuck (flist_ it !! Z.to_nat (lindex_ it)).
Definition lfni_Seek (target : Slice) : M LevelFileNumIterator unit :=
  it <- get ;; r <- FindFile (flist_ it) target ;; lfni_set (u32 r).
Definition lfni_SeekToFirst : M LevelFileNumIterator unit := lfni_set 0.
Definition lfni_SeekToLast : M LevelFileNumIterator unit :=
  it <- get ;; lfni_set (if size (flist_ it) =? 0 then 0 else u32 (size (flist_ it) - 1)).
Definition lfni_Next : M LevelFileNumIterator unit := it <- get ;; lfni_set (u32 (lindex_ it + 1)).
Definition lfni_Prev : M LevelFileNumIterator unit :=
  it <- get ;; lfni_set (if lindex_ it =? 0 then u32 (size (flist_ it)) else lindex_ it - 1).
Definition lfni_key : M LevelFileNumIterator Slice := f <- lfni_file ;; or_stuck (key_Encode (f_largest f)).
Definition lfni_value : M LevelFileNumIterator Slice := f <- lfni_file ;; ret (EncodeFixed64 (f_number f) ++ EncodeFixed64 (f_size f)).

#[export] Instance lfni_ops : IteratorOps LevelFileNumIterator := {|
  it_Valid := lfni_Valid;
  it_SeekToFirst := lfni_SeekToFirst;
  it_SeekToLast := lfni_SeekToLast;
  it_Seek := lfni_Seek;
  it_Next := lfni_Next;
  it_Prev := lfni_Prev;
  it_key := lfni_key;
  it_value := lfni_value;
  it_status _ := OK
|}.
End FileIterator.

(** ** [Version] *)

Record GetStats := mk_stats { seek_file : option FilePtr; seek_file_level : Z }.

Record Version := mk_Version {
  files_ : list (list FilePtr);
  file_to_compact_ : option FilePtr;
  file_to_compact_level_ : Z;
  compaction_score_ : spec_float;
  compaction_level_ : Z
}.

(** -1 as a double *)
Definition minus_one : spec_float := S754_finite true 4503599627370496 (-52).
Definition new_Version : Version := mk_Version (repeat [] (Z.to_nat kNumLevels)) None (-1) minus_one (-1).

(** [files_[level]] *)
Definition files_at (v : Version) (level : Z) : list FilePtr := nth (Z.to_nat level) (files_ v) [].
Definition NumFiles (v : Version) (level : Z) : Z := s32 (size (files_at v level)).
Definition all_levels : list Z := map Z.of_nat (seq 0 (Z.to_nat kNumLevels)).

(** ** The search for a key *)

Inductive SaverState := Saver_NotFound | Saver_Found | Saver_Deleted | Saver_Corrupt.

(** [std::sort] with [NewestFirst]; the numbers are distinct. *)
Definition NewestFirst (a b : FilePtr) : bool := f_number b <? f_number a.
Fixpoint newest_insert (f : FilePtr) (l : list FilePtr) : list FilePtr :=
  match l with
  | [] => [f]
  | g :: l' => if NewestFirst g f then g :: newest_insert f l' else f :: l
  end.
Definition newest_sort (l : list FilePtr) : list FilePtr := fold_right newest_insert [] l.

(** The locals of [Get], with the string for the value. *)
Record GetLocals := mk_get {
  g_stats : GetStats;
  last_file_read : option FilePtr;
  last_file_read_level : Z;
  g_value : list Z
}.

Section Get.
Context {T : Type} {user_comparator : Comparator}.

(** The callback: the state and the value. *)
Definition SaveValue (user_key ikey v : Slice) (value : list Z) : M T (SaverState * list Z) :=
  match ParseInternalKey ikey with
  | None => ret (Saver_Corrupt, value)
  | Some parsed_key =>
      c <- or_stuck (Compare (pk_user_key parsed_key) user_key) ;;
      ret (if c =? 0 then
             match pk_type parsed_key with kTypeValue => (Saver_Found, v) | kTypeDeletion => (Saver_Deleted, value) end
           else (Saver_NotFound, value))
  end.

(** The files of level 0 whose range holds [user_key]. *)
Fixpoint holding (user_key : Slice) (files : list FilePtr) : M T (list FilePtr) :=
  match files with
  | [] => ret []
  | f :: files' =>
      smallest <- or_stuck (key_user_key (f_smallest f)) ;;
      c <- or_stuck (Compare user_key smallest) ;;
      inside <- (if 0 <=? c then largest <- or_stuck (key_user_key (f_largest f)) ;; c' <- or_stuck (Compare user_key largest) ;; ret (c' <=? 0) else ret false) ;;
      rest <- holding user_key files' ;;
      ret (if inside : bool then f :: rest else rest)
  end.

(** The files of a level that are searched, in order. *)
Definition files_to_search (files : list FilePtr) (level : Z) (user_key ikey : Slice) : M T (list FilePtr) :=
  if size files =? 0 then ret []
  else if level =? 0 then tmp <- holding user_key files ;; ret (newest_sort tmp)
  else
    r <- FindFile files ikey ;;
    let index := u32 r in
    if size files <=? index then ret []
    else
      f <- or_stuck (files !! Z.to_nat index) ;;
      smallest <- or_stuck (key_user_key (f_smallest f)) ;;
      c <- or_stuck (Compare user_key smallest) ;;
      ret (if c <? 0 then [] else [f]).

Context {table_cache : TableCacheOps T}.

(** [if (last_file_read != nullptr && stats->seek_file == nullptr)], then the new last file. *)
Definition charge (f : FilePtr) (level : Z) (g : GetLocals) : GetLocals :=
  let stats :=
    match last_file_read g, seek_file (g_stats g) with
    | Some last, None => mk_stats (Some last) (last_file_read_level g)
    | _, _ => g_stats g
    end in
  mk_get stats (Some f) level (g_value g).

Definition set_g_value (value : list Z) (g : GetLocals) : GetLocals :=
  mk_get (g_stats g) (last_file_read g) (last_file_read_level g) value.

(** [for (uint32_t i = 0; i < num_files; ++i)]; the status where [Get] returns. *)
Fixpoint get_in_files (options : ReadOptions) (user_key ikey : Slice) (level : Z) (files : list FilePtr) (g : GetLocals) :
    M T (GetLocals * option Status) :=
  match files with
  | [] => ret (g, None)
  | f :: files' =>
      let g := charge f level g in
      r <- tc_Get options (f_number f) (f_size f) ikey ;;
      let '(found, s) := r in
      saved <- (match found with
                | Some (k, v) => SaveValue user_key k v (g_value g)
                | None => ret (Saver_NotFound, g_value g)
                end) ;;
      let '(state, value) := saved in
      let g := set_g_value value g in
      if negb (ok s) then ret (g, Some s)
      else
        match state with
        | Saver_NotFound => get_in_files options user_key ikey level files' g
        | Saver_Found => ret (g, Some s)
        | Saver_Deleted => ret (g, Some (NotFound [] []))
        | Saver_Corrupt => ret (g, Some (Corruption (literal "corrupted key for ") user_key))
        end
  end.

(** [for (int level = 0; level < config::kNumLevels; level++)] *)
Fixpoint get_in_levels (options : ReadOptions) (v : Version) (user_key ikey : Slice) (levels : list Z) (g : GetLocals) :
    M T (GetLocals * option Status) :=
  match levels with
  | [] => ret (g, None)
  | level :: levels' =>
      files <- files_to_search (files_at v level) level user_key ikey ;;
      r <- get_in_files options user_key ikey level files g ;;
      let '(g, s) := r in
      match s with
      | Some s => ret (g, Some s)
      | None => get_in_levels options v user_key ikey levels' g
      end
  end.

(** The status, the string for the value and the statistics. *)
Definition Version_Get (options : ReadOptions) (v : Version) (k : LookupKey) (value : list Z) : M T (Status * list Z * GetStats) :=
  r <- get_in_levels options v (lookup_user_key k) (internal_key k) all_levels (mk_get (mk_stats None (-1)) None (-1) value) ;;
  let '(g, s) := r in
  ret (match s with Some s => s | None => NotFound [] [] end, g_value g, g_stats g).
End Get.

(** ** Samples of reads *)

Section Samples.
Context {T : Type} {user_comparator : Comparator}.

(** The calls of [func] on the files, while it returns [true]. *)
Fixpoint call_each {A} (func : A -> Z -> FilePtr -> A * bool) (level : Z) (files : list FilePtr) (arg : A) : A * bool :=
  match files with
  | [] => (arg, true)
  | f :: files' => let '(arg, more) := func arg level f in if more then call_each func level files' arg else (arg, false)
  end.

Fixpoint each_level {A} (func : A -> Z -> FilePtr -> A * bool) (v : Version) (user_key internal_key : Slice) (levels : list Z) (arg : A) : M T A :=
  match levels with
  | [] => ret arg
  | level :: levels' =>
      files <- files_to_search (files_at v level) level user_key internal_key ;;
      let '(arg, more) := call_each func level files arg in
      if more then each_level func v user_key internal_key levels' arg else ret arg
  end.

Definition ForEachOverlapping {A} (v : Version) (user_key internal_key : Slice) (arg : A) (func : A -> Z -> FilePtr -> A * bool) : M T A :=
  each_level func v user_key internal_key all_levels arg.
End Samples.

(** A version, with the [allowed_seeks] of all files. *)
Record Sampled := mk_sampled { s_version : Version; s_allowed_seeks : gmap Z Z }.

Definition set_file_to_compact (f : FilePtr) (level : Z) (v : Version) : Version :=
  mk_Version (files_ v) (Some f) level (compaction_score_ v) (compaction_level_ v).

Definition UpdateStats (stats : GetStats) : M Sampled bool :=
  match seek_file stats with
  | None => ret false
  | Some f =>
      t <- get ;;
      n <- or_stuck (s_allowed_seeks t !! f_address f) ;;
      let n := s32 (n - 1) in
      modify (fun t => mk_sampled (s_version t) (<[f_address f := n]> (s_allowed_seeks t))) ;;
      if (n <=? 0) && (match file_to_compact_ (s_version t) with None => true | Some _ => false end) then
        modify (fun t => mk_sampled (set_file_to_compact f (seek_file_level stats) (s_version t)) (s_allowed_seeks t)) ;;
        ret true
      else ret false
  end.

Section RecordReadSample.
Context {user_comparator : Comparator}.

(** [State::Match] *)
Definition Match (state : GetStats * Z) (level : Z) (f : FilePtr) : GetStats * Z * bool :=
  let '(stats, matches) := state in
  let matches := matches + 1 in
  let stats := if matches =? 1 then mk_stats (Some f) level else stats in
  (stats, matches, matches <? 2).

Definition RecordReadSample (internal_key : Slice) : M Sampled bool :=
  match ParseInternalKey internal_key with
  | None => ret false
  | Some ikey =>
      t <- get ;;
      state <- ForEachOverlapping (s_version t) (pk_user_key ikey) internal_key (mk_stats None (-1), 0) Match ;;
      let '(stats, matches) := state in
      if 2 <=? matches then UpdateStats stats else ret false
  end.
End RecordReadSample.

(** ** Files that overlap a range *)

Section Overlap.
Context {T : Type} {user_comparator : Comparator}.

Definition OverlapInLevel (v : Version) (level : Z) (smallest_user_key largest_user_key : option Slice) : M T bool :=
  SomeFileOverlapsRange (0 <? level) (files_at v level) smallest_user_key largest_user_key.

(** The locals of [GetOverlappingInputs]: [i], the range and [*inputs]. *)
Record Overlapping := mk_overlapping { o_i : nat; o_begin : option Slice; o_end : option Slice; o_inputs : list FilePtr }.

(** [bound != nullptr && user_cmp->Compare(k, bound) < 0], or [> 0] with [sign] -1. *)
Definition beyond (sign : Z) (k : Slice) (bound : option Slice) : M T bool :=
  match bound with
  | Some b => c <- or_stuck (Compare k b) ;; ret (sign * c <? 0)
  | None => ret false
  end.

(** A round of the loop. *)
Definition overlapping_step (files : list FilePtr) (level : Z) (o : Overlapping) : M T (Overlapping + list FilePtr) :=
  match files !! o_i o with
  | None => ret (inr (o_inputs o))
  | Some f =>
      let i := S (o_i o) in
      file_start <- or_stuck (key_user_key (f_smallest f)) ;;
      file_limit <- or_stuck (key_user_key (f_largest f)) ;;
      before <- beyond 1 file_limit (o_begin o) ;;
      outside <- (if before : bool then ret true else beyond (-1) file_start (o_end o)) ;;
      if outside : bool then ret (inl (mk_overlapping i (o_begin o) (o_end o) (o_inputs o)))
      else
        let inputs := o_inputs o ++ [f] in
        if level =? 0 then
          grows <- beyond 1 file_start (o_begin o) ;;
          if grows : bool then ret (inl (mk_overlapping 0 (Some file_start) (o_end o) []))
          else
            grows <- beyond (-1) file_limit (o_end o) ;;
            if grows : bool then ret (inl (mk_overlapping 0 (o_begin o) (Some file_limit) []))
            else ret (inl (mk_overlapping i (o_begin o) (o_end o) inputs))
        else ret (inl (mk_overlapping i (o_begin o) (o_end o) inputs))
  end.

Definition GetOverlappingInputs (v : Version) (level : Z) (begin end_ : option (list Z)) : M T (list FilePtr) :=
  asserted (0 <=? level) ;;
  asserted (level <? kNumLevels) ;;
  user_begin <- (match begin with Some k => u <- or_stuck (key_user_key k) ;; ret (Some u) | None => ret None end) ;;
  user_end <- (match end_ with Some k => u <- or_stuck (key_user_key k) ;; ret (Some u) | None => ret None end) ;;
  loop (overlapping_step (files_at v level) level) (mk_overlapping 0 user_begin user_end []).

(** A round of the loop in [PickLevelForMemTableOutput]. *)
Definition pick_level_step (options : Options) (v : Version) (smallest_user_key largest_user_key : Slice) (level : Z) : M T (Z + Z) :=
  if level <? kMaxMemCompactLevel then
    overlap <- OverlapInLevel v (level + 1) (Some smallest_user_key) (Some largest_user_key) ;;
    if overlap : bool then ret (inr level)
    else
      too_many <- (if level + 2 <? kNumLevels then
                     overlaps <- GetOverlappingInputs v (level + 2)
                                   (Some (new_InternalKey smallest_user_key kMaxSequenceNumber kValueTypeForSeek))
                                   (Some (new_InternalKey largest_user_key 0 kTypeDeletion)) ;;
                     ret (MaxGrandParentOverlapBytes options <? TotalFileSize overlaps)
                   else ret false) ;;
      ret (if too_many : bool then inr level else inl (level + 1))
  else ret (inr level).

Definition PickLevelForMemTableOutput (options : Options) (v : Version) (smallest_user_key largest_user_key : Slice) : M T Z :=
  overlap <- OverlapInLevel v 0 (Some smallest_user_key) (Some largest_user_key) ;;
  if overlap : bool then ret 0
  else loop (pick_level_step options v smallest_user_key largest_user_key) 0.
End Overlap.

(** ** [DebugString] *)

Definition file_DebugString (f : FilePtr) : list Z :=
  literal " " ++ decimal (f_number f) ++ literal ":" ++ decimal (f_size f) ++ literal "[" ++
  key_DebugString (f_smallest f) ++ literal " .. " ++ key_DebugString (f_largest f) ++ literal "]" ++ [10].

Definition Version_DebugString (v : Version) : list Z :=
  concat (map (fun level => literal "--- level " ++ decimal level ++ literal " ---" ++ [10] ++
                            concat (map file_DebugString (files_at v level))) all_levels).
