(* ===== verification/LdbVersionOverlap.v ===== *)
(** Searches over the files of a level: [FindFile] is the first file that ends at or past a
    key, and a level is searched for the files that overlap a range.

    The files that overlap a range: at level 0 the range grows to the least one that no file
    crosses; where a new table goes, no file above it overlaps. *)

From Stdlib Require Import ZArith Lia List String Bool SpecFloat.
From stdpp Require Import base gmap list sorting.
From S2P Require Import Prelude Base128 LdbBase LdbText LdbCoding LdbKeys LdbKeyProps LdbVersionEdit LdbIterator LdbFormat LdbVersion.

Section Files.
Context {U : Comparator} {LU : ComparatorLaws U}.

Abbreviation iorder := internal_order.
Definition f_start (f : FilePtr) : Slice := user_part (f_smallest f).
Definition f_limit (f : FilePtr) : Slice := user_part (f_largest f).

(** The bounds of a file, which are keys that were written. *)
Definition file_ok (f : FilePtr) : Prop :=
  internal_ok (f_smallest f) /\ internal_ok (f_largest f) /\ iorder (f_smallest f) (f_largest f) <= 0 /\
  number_of (f_largest f) <= PackSequenceAndType kMaxSequenceNumber kTypeValue.

(** The files of a level other than 0: in order, and disjoint as ranges of internal keys. *)
Definition level_ok (files : list FilePtr) : Prop :=
  Forall file_ok files /\ StronglySorted (fun a b => iorder (f_largest a) (f_smallest b) < 0) files /\ size files < 2 ^ 31.

Lemma level_file files i f : level_ok files -> files !! i = Some f -> file_ok f.
Proof. intros [H _] Hf. rewrite Forall_lookup in H. by eapply H. Qed.

Lemma level_before files i j f g : level_ok files -> (i < j)%nat -> files !! i = Some f -> files !! j = Some g -> iorder (f_largest f) (f_smallest g) < 0.
Proof. intros (_ & H & _) Hij Hf Hg. exact (StronglySorted_at _ _ i j f g H Hij Hf Hg). Qed.

(** Orders between internal keys. *)
Lemma iorder_le_lt a b c : internal_ok a -> internal_ok b -> internal_ok c -> iorder a b <= 0 -> iorder b c < 0 -> iorder a c < 0.
Proof. exact (order_le_lt_trans (C := InternalKeyComparator U) (L := internal_laws) a b c). Qed.

Lemma iorder_lt_le a b c : internal_ok a -> internal_ok b -> internal_ok c -> iorder a b < 0 -> iorder b c <= 0 -> iorder a c < 0.
Proof. exact (order_lt_le_trans (C := InternalKeyComparator U) (L := internal_laws) a b c). Qed.

Lemma iorder_flip a b : internal_ok a -> internal_ok b -> (iorder a b < 0 <-> 0 < iorder b a).
Proof. exact (order_flip (ComparatorLaws := internal_laws) a b). Qed.

Lemma user_order_le a b : iorder a b <= 0 -> order (user_part a) (user_part b) <= 0.
Proof. unfold internal_order. destruct (Z.eqb_spec (order (user_part a) (user_part b)) 0); lia. Qed.

Lemma file_users f : file_ok f -> key_ok (f_start f) /\ key_ok (f_limit f) /\ order (f_start f) (f_limit f) <= 0.
Proof. intros ([_ H1] & [_ H2] & H3 & _). split; [done|]. split; [done|]. by apply user_order_le. Qed.

Lemma wp_start {T} f (Q : Slice -> T -> Prop) E t : file_ok f -> Q (f_start f) t -> wp (or_stuck (key_user_key (f_smallest f))) Q E t.
Proof. intros (Hs & _). by apply wp_key_user_key. Qed.

Lemma wp_limit {T} f (Q : Slice -> T -> Prop) E t : file_ok f -> Q (f_limit f) t -> wp (or_stuck (key_user_key (f_largest f))) Q E t.
Proof. intros (_ & Hl & _). by apply wp_key_user_key. Qed.

Lemma largest_sorted files i j f g : level_ok files -> (i <= j)%nat -> files !! i = Some f -> files !! j = Some g -> iorder (f_largest f) (f_largest g) <= 0.
Proof.
  intros Hl Hij Hf Hg. pose proof (level_file files i f Hl Hf) as (_ & Hfl & _). pose proof (level_file files j g Hl Hg) as (Hgs & Hgl & Hg' & _).
  destruct (decide (i = j)) as [->|Hne].
  - rewrite Hf in Hg. injection Hg as <-. rewrite (order_refl (ComparatorLaws := internal_laws) _ Hfl : iorder _ _ = 0). lia.
  - pose proof (level_before files i j f g Hl ltac:(lia) Hf Hg). pose proof (iorder_lt_le _ _ _ Hfl Hgs Hgl ltac:(done) Hg'). lia.
Qed.

(** ** [FindFile] *)

(** The files in front of [i] end in front of [key]; the others do not. *)
Definition first_file (files : list FilePtr) (key : Slice) (i : nat) : Prop :=
  (i <= List.length files)%nat /\
  (forall j f, (j < i)%nat -> files !! j = Some f -> iorder (f_largest f) key < 0) /\
  forall j f, (i <= j)%nat -> files !! j = Some f -> 0 <= iorder (f_largest f) key.

Lemma wp_FindFile {T} files key (t : T) (Q : Z -> T -> Prop) : level_ok files -> internal_ok key ->
  (forall i, first_file files key i -> Q (Z.of_nat i) t) -> wp (FindFile files key) Q (fun _ => False) t.
Proof.
  intros Hl Hk HQ. pose proof Hl as (_ & _ & Hsz). change (2 ^ 31) with 2147483648 in Hsz. unfold FindFile. pose proof (size_nonneg files) as Hnn.
  rewrite uwrap_small by lia. apply wp_bind.
  apply (wp_mono _ (fun r t' => t' = t /\ exists i, r = Z.of_nat i /\ first_file files key i) _ (fun _ => False)).
  2:{ intros r t' (-> & i & -> & Hi). apply wp_ret. rewrite swrap_fits; [by apply HQ|lia|]. destruct Hi as [Hi _]. unfold size in Hsz. lia. }
  2:{ done. }
  apply (wp_loop _ (fun p t' => t' = t /\ 0 <= fst p <= snd p /\ snd p <= size files /\
    (forall j f, Z.of_nat j < fst p -> files !! j = Some f -> iorder (f_largest f) key < 0) /\
    forall j f, snd p <= Z.of_nat j -> files !! j = Some f -> 0 <= iorder (f_largest f) key) (fun p _ => snd p - fst p)).
  - intros [lo hi] t' (-> & Hlo & Hhi & Hbelow & Habove). cbn [fst snd] in *. split; [lia|]. unfold find_file_step.
    destruct (Z.ltb_spec lo hi) as [Hlt|Hge].
    + rewrite uwrap_small by lia. set (mid := (lo + hi) / 2). assert (Hmid : lo <= mid < hi) by (unfold mid; zlia).
      destruct (lookup_lt_is_Some_2 files (Z.to_nat mid)) as [f Hf]; [unfold size in *; lia|]. rewrite Hf. apply wp_bind, wp_ret.
      pose proof (level_file files _ f Hl Hf) as (_ & Hfl & _). apply wp_bind, wp_key_Encode; [done|]. rewrite internal_Compare_order by done. apply wp_bind, wp_ret, wp_ret.
      destruct (Z.ltb_spec (iorder (f_largest f) key) 0) as [Hc|Hc]; cbn [fst snd].
      * rewrite uwrap_small by lia. split; [|lia]. split; [done|]. split; [lia|]. split; [lia|]. split; [|done].
        intros j g Hj Hg. pose proof (level_file files _ g Hl Hg) as (_ & Hgl & _).
        apply (iorder_le_lt _ (f_largest f)); [done..| |done]. by apply (largest_sorted files j (Z.to_nat mid)); [|lia|..].
      * split; [|lia]. split; [done|]. split; [lia|]. split; [lia|]. split; [done|].
        intros j g Hj Hg. pose proof (level_file files _ g Hl Hg) as (_ & Hgl & _). pose proof (largest_sorted files (Z.to_nat mid) j f g Hl ltac:(lia) Hf Hg) as Hle.
        destruct (Z.le_gt_cases 0 (iorder (f_largest g) key)) as [|Hgt]; [done|].
        pose proof (iorder_le_lt _ _ _ Hfl Hgl Hk Hle ltac:(lia)). lia.
    + apply wp_ret. split; [done|]. exists (Z.to_nat hi). split; [lia|]. split; [unfold size in *; lia|]. split.
      * intros j f Hj. apply Hbelow. lia.
      * intros j f Hj. apply Habove. lia.
  - cbn [fst snd]. split; [done|]. split; [lia|]. split; [lia|]. split; [lia|]. intros j f Hj Hf%lookup_lt_Some. unfold size in Hj. lia.
  - cbn [fst snd]. lia.
Qed.

(** ** Ranges of user keys *)

(** A bound that is null is before, or after, all keys. *)
Definition bound_ok (b : option Slice) : Prop := match b with Some k => key_ok k | None => True end.
Definition not_after (b : option Slice) (k : Slice) : Prop := match b with Some b => order b k <= 0 | None => True end.
Definition not_before (k : Slice) (b : option Slice) : Prop := match b with Some b => order k b <= 0 | None => True end.

(** The file overlaps the range. *)
Definition overlaps (lo hi : option Slice) (f : FilePtr) : Prop := not_after lo (f_limit f) /\ not_before (f_start f) hi.

Lemma wp_AfterFile {T} b f (t : T) Q E : bound_ok b -> file_ok f -> (forall r, (r = false <-> not_after b (f_limit f)) -> Q r t) -> wp (AfterFile b f) Q E t.
Proof.
  intros Hb Hf HQ. pose proof (file_users f Hf) as (_ & Hl & _). unfold AfterFile. destruct b as [k|]; [|by apply wp_ret, HQ].
  apply wp_bind, wp_limit; [done|]. rewrite Compare_order by done. apply wp_bind, wp_ret, wp_ret, HQ. cbn. rewrite Z.ltb_ge. done.
Qed.

Lemma wp_BeforeFile {T} b f (t : T) Q E : bound_ok b -> file_ok f -> (forall r, (r = false <-> not_before (f_start f) b) -> Q r t) -> wp (BeforeFile b f) Q E t.
Proof.
  intros Hb Hf HQ. pose proof (file_users f Hf) as (Hs & _ & _). unfold BeforeFile. destruct b as [k|]; [|by apply wp_ret, HQ].
  apply wp_bind, wp_start; [done|]. rewrite Compare_order by done. apply wp_bind, wp_ret, wp_ret, HQ. cbn. rewrite Z.ltb_ge.
  pose proof (order_flip _ _ Hb Hs). pose proof (order_flip _ _ Hs Hb). lia.
Qed.

Lemma wp_some_overlap {T} files lo hi (t : T) (Q : bool -> T -> Prop) E : Forall file_ok files -> bound_ok lo -> bound_ok hi ->
  (forall r, (r = true <-> exists f, f ∈ files /\ overlaps lo hi f) -> Q r t) -> wp (some_overlap files lo hi) Q E t.
Proof.
  intros Hf Hlo Hhi. revert Q. induction files as [|f files IH]; intros Q HQ; cbn [some_overlap].
  - apply wp_ret, HQ. split; [done|]. intros (f & Hin & _). by apply not_elem_of_nil in Hin.
  - apply Forall_cons_1 in Hf as [Hok Hf]. specialize (IH Hf).
    assert (Hnext : ~ overlaps lo hi f -> wp (some_overlap files lo hi) Q E t).
    { intros Hno. apply IH. intros r Hr. apply HQ. rewrite Hr. split.
      - intros (g & Hg & Ho). exists g. split; [apply elem_of_cons; by right|done].
      - intros (g & [->|Hg]%elem_of_cons & Ho); [done|]. by exists g. }
    apply wp_bind, wp_AfterFile; [done..|]. intros after Ha. apply wp_bind. destruct after.
    + apply wp_ret, Hnext. intros [Ho _]. by apply Ha in Ho.
    + apply wp_BeforeFile; [done..|]. intros before Hb. destruct before.
      * apply Hnext. intros [_ Ho]. by apply Hb in Ho.
      * apply wp_ret, HQ. split; [|done]. intros _. exists f. split; [apply elem_of_cons; by left|]. split; [by apply Ha|by apply Hb].
Qed.

(** The earliest internal key of a user key. *)
Definition earliest (u : Slice) : list Z := new_InternalKey u kMaxSequenceNumber kValueTypeForSeek.

Lemma earliest_ok u : key_ok u -> size u + 8 < 2 ^ 64 -> internal_ok (earliest u).
Proof.
  intros Hu Hsz. unfold earliest, new_InternalKey. rewrite AppendInternalKey_app, app_nil_l. pose proof (size_nonneg u).
  split; [rewrite size_internal_key; lia|by rewrite user_part_of].
Qed.

Lemma earliest_order u k : key_ok u -> size u + 8 < 2 ^ 64 -> number_of k <= PackSequenceAndType kMaxSequenceNumber kTypeValue ->
  (iorder k (earliest u) < 0 <-> order (user_part k) u < 0).
Proof.
  intros Hu Hsz Hk. unfold earliest, new_InternalKey. rewrite AppendInternalKey_app, app_nil_l. change kValueTypeForSeek with kTypeValue.
  unfold internal_order. rewrite user_part_of by done.
  assert (Hn : number_of (internal_key_bytes u kMaxSequenceNumber kTypeValue) = PackSequenceAndType kMaxSequenceNumber kTypeValue).
  { unfold number_of. by rewrite key_number_of by (vm_compute; split; congruence). }
  rewrite Hn. destruct (Z.eqb_spec (order (user_part k) u) 0) as [->|]; [|lia].
  destruct (Z.ltb_spec (PackSequenceAndType kMaxSequenceNumber kTypeValue) (number_of k)); [lia|].
  destruct (Z.ltb_spec (number_of k) (PackSequenceAndType kMaxSequenceNumber kTypeValue)); lia.
Qed.

(** ** [SomeFileOverlapsRange] *)

Definition sized (b : option Slice) : Prop := match b with Some k => size k + 8 < 2 ^ 64 | None => True end.

Lemma users_before files i j f g : level_ok files -> (i < j)%nat -> files !! i = Some f -> files !! j = Some g -> order (f_limit f) (f_start g) <= 0.
Proof. intros Hl Hij Hf Hg. pose proof (level_before files i j f g Hl Hij Hf Hg). apply user_order_le. lia. Qed.

(** The first file that ends at or past the range's start overlaps it, or none does. *)
Lemma first_overlap files lo hi i : level_ok files -> bound_ok lo -> bound_ok hi -> (i <= List.length files)%nat ->
  (forall j f, (j < i)%nat -> files !! j = Some f -> ~ not_after lo (f_limit f)) ->
  (forall j f, (i <= j)%nat -> files !! j = Some f -> not_after lo (f_limit f)) ->
  (exists f, f ∈ files /\ overlaps lo hi f) <-> exists f, files !! i = Some f /\ not_before (f_start f) hi.
Proof.
  intros Hl Hlo Hhi Hi Hbelow Habove. split.
  - intros (f & [j Hj]%list_elem_of_lookup_1 & Hof & Hhf). destruct (decide (j < i)%nat) as [Hji|Hji]; [by destruct (Hbelow j f Hji Hj)|].
    destruct (decide (j = i)) as [->|Hne]; [by exists f|]. destruct (lookup_lt_is_Some_2 files i) as [g Hg]; [apply lookup_lt_Some in Hj; lia|].
    exists g. split; [done|]. destruct hi as [k|]; [|done]. cbn in *. pose proof (users_before files i j g f Hl ltac:(lia) Hg Hj).
    destruct (file_users g (level_file files i g Hl Hg)) as (Hgs & Hgl & Hgle). destruct (file_users f (level_file files j f Hl Hj)) as (Hfs & _ & _).
    apply (order_trans _ (f_start f)); [done..| |done]. by apply (order_trans _ (f_limit g)).
  - intros (f & Hf & Hh). exists f. split; [by eapply list_elem_of_lookup_2|]. split; [by apply (Habove i)|done].
Qed.

Lemma wp_SomeFileOverlapsRange {T} disjoint files lo hi (t : T) (Q : bool -> T -> Prop) :
  (if disjoint : bool then level_ok files else Forall file_ok files) -> bound_ok lo -> bound_ok hi -> sized lo ->
  (forall r, (r = true <-> exists f, f ∈ files /\ overlaps lo hi f) -> Q r t) ->
  wp (SomeFileOverlapsRange disjoint files lo hi) Q (fun _ => False) t.
Proof.
  intros Hf Hlo Hhi Hsz HQ. unfold SomeFileOverlapsRange. destruct disjoint; cbn [negb]; [|by apply wp_some_overlap].
  assert (Hidx : wp (match lo with Some k => small_key <- or_stuck (key_Encode (earliest k)) ;; r <- FindFile files small_key ;; ret (u32 r) | None => ret 0 end)
    (fun r t' => t' = t /\ exists i, r = Z.of_nat i /\ (i <= List.length files)%nat /\
       (forall j f, (j < i)%nat -> files !! j = Some f -> ~ not_after lo (f_limit f)) /\
       (forall j f, (i <= j)%nat -> files !! j = Some f -> not_after lo (f_limit f))) (fun _ => False) t).
  { destruct lo as [k|]; [|apply wp_ret; split; [done|]; exists 0%nat; split; [done|]; split; [lia|]; split; [intros; lia|done]].
    apply wp_bind, wp_key_Encode; [by apply earliest_ok|]. apply wp_bind, wp_FindFile; [done|by apply earliest_ok|]. intros i (Hi & Hbelow & Habove). apply wp_ret. split; [done|].
    pose proof Hf as (_ & _ & Hn). change (2 ^ 31) with 2147483648 in Hn. exists i. rewrite uwrap_small by (unfold size in Hn; lia). split; [done|]. split; [done|].
    assert (Hcut : forall j f, files !! j = Some f -> (iorder (f_largest f) (earliest k) < 0 <-> ~ not_after (Some k) (f_limit f))).
    { intros j f Hj. pose proof (level_file files j f Hf Hj) as Hok. destruct (file_users f Hok) as (_ & Hkl & _). destruct Hok as (_ & _ & _ & Hnum).
      rewrite (earliest_order k (f_largest f) Hlo Hsz Hnum). fold (f_limit f). unfold not_after. pose proof (order_flip _ _ Hlo Hkl). pose proof (order_flip _ _ Hkl Hlo). lia. }
    split; intros j f Hj Hjf.
    - by apply (Hcut j f Hjf), (Hbelow j).
    - specialize (Habove j f Hj Hjf). destruct (Z.le_gt_cases (order k (f_limit f)) 0) as [|Hgt]; [done|].
      assert (iorder (f_largest f) (earliest k) < 0) by (apply (Hcut j f Hjf); unfold not_after; lia). lia. }
  apply wp_bind. eapply wp_mono; [exact Hidx| |done]. intros r t' (-> & i & -> & Hi & Hbelow & Habove).
  pose proof (first_overlap files lo hi i Hf Hlo Hhi Hi Hbelow Habove) as Hfirst. destruct (Z.leb_spec (size files) (Z.of_nat i)) as [Hge|Hlt].
  - apply wp_ret, HQ. rewrite Hfirst. split; [done|]. intros (f & Hfi%lookup_lt_Some & _). unfold size in Hge. lia.
  - rewrite Nat2Z.id. destruct (lookup_lt_is_Some_2 files i) as [f Hfi]; [unfold size in Hlt; lia|]. rewrite Hfi. apply wp_bind, wp_ret, wp_bind.
    apply wp_BeforeFile; [done|by eapply level_file|]. intros before Hb. apply wp_ret, HQ. rewrite Hfirst, Hfi. split.
    + intros Hn. exists f. split; [done|]. apply Hb. by destruct before.
    + intros (g & [= <-] & Hh). apply Hb in Hh. by rewrite Hh.
Qed.
End Files.

Lemma filter_shorter {A} (P Q : A -> Prop) `{!forall x, Decision (P x), !forall x, Decision (Q x)} (l : list A) x :
  Forall (fun y => P y -> Q y) l -> x ∈ l -> Q x -> ~ P x -> (List.length (filter P l) < List.length (filter Q l))%nat.
Proof.
  intros Hsub Hx HQ HP. assert (Hle : forall l', Forall (fun y => P y -> Q y) l' -> (List.length (filter P l') <= List.length (filter Q l'))%nat).
  { induction 1 as [|y l' Hy _ IH]; [done|]. rewrite !filter_cons. repeat case_decide; cbn [List.length]; try lia; tauto. }
  revert Hx. induction Hsub as [|y l Hy Hl IH]; [by intros ?%not_elem_of_nil|]. intros [<-|Hx]%elem_of_cons; rewrite !filter_cons.
  - rewrite decide_False, decide_True by done. cbn [List.length]. specialize (Hle l Hl). lia.
  - specialize (IH Hx). repeat case_decide; cbn [List.length]; try lia; tauto.
Qed.

Section Overlap.
Context {U : Comparator} {LU : ComparatorLaws U}.

#[export] Instance not_after_dec b k : Decision (not_after b k) := match b with Some b => decide (order b k <= 0) | None => left Logic.I end.
#[export] Instance not_before_dec k b : Decision (not_before k b) := match b with Some b => decide (order k b <= 0) | None => left Logic.I end.
#[export] Instance overlaps_dec lo hi f : Decision (overlaps lo hi f) := and_dec _ _.

(** ** Ranges *)

(** The range [lo, hi] is in the range [lo', hi']. *)
Definition range_in (lo hi lo' hi' : option Slice) : Prop :=
  (forall k, key_ok k -> not_after lo k -> not_after lo' k) /\ forall k, key_ok k -> not_before k hi -> not_before k hi'.

Definition within (lo hi : option Slice) (f : FilePtr) : Prop := not_after lo (f_start f) /\ not_before (f_limit f) hi.

(** No file crosses the bounds of the range. *)
Definition closed_range (files : list FilePtr) (lo hi : option Slice) : Prop := forall f, f ∈ files -> overlaps lo hi f -> within lo hi f.

(** The least range around [lo, hi] that no file crosses. *)
Definition least_range (files : list FilePtr) (lo hi lo' hi' : option Slice) : Prop :=
  bound_ok lo' /\ bound_ok hi' /\ range_in lo hi lo' hi' /\ closed_range files lo' hi' /\
  forall c d, bound_ok c -> bound_ok d -> range_in lo hi c d -> closed_range files c d -> range_in lo' hi' c d.

Lemma range_in_refl lo hi : range_in lo hi lo hi.
Proof. done. Qed.

Lemma range_in_trans a b c d e f : range_in a b c d -> range_in c d e f -> range_in a b e f.
Proof. intros [H1 H2] [H3 H4]. split; auto. Qed.

Lemma overlaps_in f a b c d : file_ok f -> range_in a b c d -> overlaps a b f -> overlaps c d f.
Proof. intros Hf [H1 H2] [Ho1 Ho2]. destruct (file_users f Hf) as (Hs & Hl & _). split; auto. Qed.

(** A bound moved out to the end of a file. *)
Lemma start_below lo f : bound_ok lo -> file_ok f -> ~ not_after lo (f_start f) -> forall k, key_ok k -> not_after lo k -> not_after (Some (f_start f)) k.
Proof.
  intros Hlo Hf Hn k Hk Hlk. destruct lo as [b|]; [|done]. destruct (file_users f Hf) as (Hs & _ & _). cbn in *.
  pose proof (order_flip _ _ Hs Hlo). pose proof (order_trans _ _ _ Hs Hlo Hk). lia.
Qed.

Lemma limit_above hi f : bound_ok hi -> file_ok f -> ~ not_before (f_limit f) hi -> forall k, key_ok k -> not_before k hi -> not_before k (Some (f_limit f)).
Proof.
  intros Hhi Hf Hn k Hk Hlk. destruct hi as [b|]; [|done]. destruct (file_users f Hf) as (_ & Hl & _). cbn in *.
  pose proof (order_flip _ _ Hhi Hl). pose proof (order_trans _ _ _ Hk Hhi Hl). lia.
Qed.

Lemma start_in a f k : bound_ok a -> file_ok f -> key_ok k -> not_after a (f_start f) -> not_after (Some (f_start f)) k -> not_after a k.
Proof. intros Ha Hf Hk H1 H2. destruct a as [b|]; [|done]. destruct (file_users f Hf) as (Hs & _ & _). cbn in *. by apply (order_trans _ (f_start f)). Qed.

Lemma limit_in b f k : bound_ok b -> file_ok f -> key_ok k -> not_before (f_limit f) b -> not_before k (Some (f_limit f)) -> not_before k b.
Proof. intros Hb Hf Hk H1 H2. destruct b as [c|]; [|done]. destruct (file_users f Hf) as (_ & Hl & _). cbn in *. by apply (order_trans _ (f_limit f)). Qed.

(** The comparisons of the loop. *)
Lemma wp_beyond_before {T} k b (t : T) Q E : key_ok k -> bound_ok b -> (forall r, (r = false <-> not_after b k) -> Q r t) -> wp (beyond 1 k b) Q E t.
Proof.
  intros Hk Hb HQ. unfold beyond. destruct b as [b|]; [|by apply wp_ret, HQ]. rewrite Compare_order by done. apply wp_bind, wp_ret, wp_ret, HQ.
  unfold not_after. rewrite Z.ltb_ge. pose proof (order_flip _ _ Hk Hb). pose proof (order_flip _ _ Hb Hk). lia.
Qed.

Lemma wp_beyond_after {T} k b (t : T) Q E : key_ok k -> bound_ok b -> (forall r, (r = false <-> not_before k b) -> Q r t) -> wp (beyond (-1) k b) Q E t.
Proof.
  intros Hk Hb HQ. unfold beyond. destruct b as [b|]; [|by apply wp_ret, HQ]. rewrite Compare_order by done. apply wp_bind, wp_ret, wp_ret, HQ.
  unfold not_before. rewrite Z.ltb_ge. lia.
Qed.

(** ** The loop *)

Section Loop.
Context (files : list FilePtr) (level : Z) (lo hi : option Slice).
Context (Hfiles : Forall file_ok files) (Hlo : bound_ok lo) (Hhi : bound_ok hi).

Definition outer_starts (o : Overlapping) : nat := List.length (filter (fun f => ~ not_after (o_begin o) (f_start f)) files).
Definition outer_limits (o : Overlapping) : nat := List.length (filter (fun f => ~ not_before (f_limit f) (o_end o)) files).
Definition rounds_left (o : Overlapping) : nat :=
  ((outer_starts o + outer_limits o) * S (List.length files) + (List.length files - o_i o))%nat.

Record overlapping_inv (o : Overlapping) : Prop := {
  oi_index : (o_i o <= List.length files)%nat;
  oi_begin : bound_ok (o_begin o);
  oi_end : bound_ok (o_end o);
  oi_range : range_in lo hi (o_begin o) (o_end o);
  oi_inputs : o_inputs o = filter (overlaps (o_begin o) (o_end o)) (take (o_i o) files);
  oi_within : level = 0 -> forall f, f ∈ o_inputs o -> within (o_begin o) (o_end o) f;
  oi_fixed : level <> 0 -> o_begin o = lo /\ o_end o = hi;
  oi_least : forall c d, bound_ok c -> bound_ok d -> range_in lo hi c d -> closed_range files c d -> range_in (o_begin o) (o_end o) c d
}.

Lemma file_at i f : files !! i = Some f -> file_ok f.
Proof. intros Hf. rewrite Forall_lookup in Hfiles. by eapply Hfiles. Qed.

(** What the loop returns. *)
Definition overlapping_result (r : list FilePtr) : Prop :=
  exists lo' hi', r = filter (overlaps lo' hi') files /\ (level <> 0 -> lo' = lo /\ hi' = hi) /\ (level = 0 -> least_range files lo hi lo' hi').

(** The file at the index is passed, or is added. *)
Lemma inv_pass o f : overlapping_inv o -> files !! o_i o = Some f -> ~ overlaps (o_begin o) (o_end o) f ->
  overlapping_inv (mk_overlapping (S (o_i o)) (o_begin o) (o_end o) (o_inputs o)).
Proof.
  intros [H1 H2 H3 H4 H5 H6 H7 H8] Hf Hno. split; cbn [o_i o_begin o_end o_inputs]; try done; [apply lookup_lt_Some in Hf; lia|].
  rewrite (take_S_r _ _ _ Hf), filter_app, filter_cons_False by done. by rewrite app_nil_r.
Qed.

Lemma inv_add o f : overlapping_inv o -> files !! o_i o = Some f -> overlaps (o_begin o) (o_end o) f -> (level = 0 -> within (o_begin o) (o_end o) f) ->
  overlapping_inv (mk_overlapping (S (o_i o)) (o_begin o) (o_end o) (o_inputs o ++ [f])).
Proof.
  intros [H1 H2 H3 H4 H5 H6 H7 H8] Hf Ho Hin. split; cbn [o_i o_begin o_end o_inputs]; try done; [apply lookup_lt_Some in Hf; lia| |].
  - by rewrite (take_S_r _ _ _ Hf), filter_app, filter_cons_True, H5.
  - intros Hz g [Hg|Hg%list_elem_of_singleton]%elem_of_app; [by apply H6|]. subst g. by apply Hin.
Qed.

(** The range grows to the file at the index. *)
Lemma inv_grow o f lo' hi' : overlapping_inv o -> level = 0 -> files !! o_i o = Some f -> overlaps (o_begin o) (o_end o) f -> bound_ok lo' -> bound_ok hi' ->
  range_in (o_begin o) (o_end o) lo' hi' -> (forall c d, bound_ok c -> bound_ok d -> range_in (o_begin o) (o_end o) c d -> within c d f -> range_in lo' hi' c d) ->
  overlapping_inv (mk_overlapping 0 lo' hi' []).
Proof.
  intros [H1 H2 H3 H4 H5 H6 H7 H8] Hz Hf Ho Hlo' Hhi' Hin Hleast. split; cbn [o_i o_begin o_end o_inputs]; try done; [lia|by eapply range_in_trans|by intros _ g Hg%not_elem_of_nil|].
  intros c d Hc Hd Hr Hcl. apply Hleast; [done..|by apply H8|]. apply Hcl; [by eapply list_elem_of_lookup_2|]. apply (overlaps_in f (o_begin o) (o_end o)); [by eapply file_at|by apply H8|done].
Qed.

Lemma starts_fewer o f hi' : bound_ok (o_begin o) -> f ∈ files -> file_ok f -> ~ not_after (o_begin o) (f_start f) ->
  (outer_starts (mk_overlapping 0 (Some (f_start f)) hi' []) < outer_starts o)%nat.
Proof.
  intros Hb Hin Hf Hn. unfold outer_starts. cbn [o_begin]. destruct (file_users f Hf) as (Hs & _ & _).
  apply filter_shorter with (x := f); [|done|done|cbn; rewrite order_refl by done; lia].
  eapply Forall_impl; [exact Hfiles|]. intros g Hg Hng Hbg. destruct (file_users g Hg) as (Hgs & _ & _). by apply Hng, (start_below (o_begin o)).
Qed.

Lemma limits_fewer o f lo' : bound_ok (o_end o) -> f ∈ files -> file_ok f -> ~ not_before (f_limit f) (o_end o) ->
  (outer_limits (mk_overlapping 0 lo' (Some (f_limit f)) []) < outer_limits o)%nat.
Proof.
  intros Hb Hin Hf Hn. unfold outer_limits. cbn [o_end]. destruct (file_users f Hf) as (_ & Hl & _).
  apply filter_shorter with (x := f); [|done|done|cbn; rewrite order_refl by done; lia].
  eapply Forall_impl; [exact Hfiles|]. intros g Hg Hng Hbg. destruct (file_users g Hg) as (_ & Hgl & _). by apply Hng, (limit_above (o_end o)).
Qed.

(** A restart leaves fewer rounds. *)
Lemma restart_rounds o o' : o_i o' = 0%nat -> (outer_starts o' + outer_limits o' < outer_starts o + outer_limits o)%nat -> (rounds_left o' < rounds_left o)%nat.
Proof. unfold rounds_left. intros -> H. nia. Qed.

(** A round of the loop. *)
Lemma overlapping_round {T} o (t : T) : overlapping_inv o ->
  wp (overlapping_step files level o) (fun r t' => t' = t /\ match r with
    | inl o' => (rounds_left o' < rounds_left o)%nat /\ overlapping_inv o'
    | inr r => overlapping_result r
    end) (fun _ => False) t.
Proof.
  intros H. pose proof H as [H1 H2 H3 H4 H5 H6 H7 H8]. unfold overlapping_step. destruct (files !! o_i o) as [f|] eqn:Hf.
  2:{ apply lookup_ge_None in Hf. apply wp_ret. split; [done|]. exists (o_begin o), (o_end o). rewrite H5, take_ge by lia. split; [done|]. split; [done|]. intros Hz.
      split; [done|]. split; [done|]. split; [done|]. split; [|done]. intros g Hg Ho. apply (H6 Hz). rewrite H5, take_ge by lia. by apply list_elem_of_filter. }
  pose proof (file_at _ f Hf) as Hok. destruct (file_users f Hok) as (Hs & Hl & _). pose proof (list_elem_of_lookup_2 _ _ _ Hf) as Hin.
  assert (Hpass : forall inputs, (rounds_left (mk_overlapping (S (o_i o)) (o_begin o) (o_end o) inputs) < rounds_left o)%nat).
  { intros inputs. apply lookup_lt_Some in Hf. unfold rounds_left, outer_starts, outer_limits. cbn [o_i o_begin o_end]. lia. }
  cbv zeta. apply wp_bind, wp_start; [done|]. apply wp_bind, wp_limit; [done|].
  apply wp_bind, wp_beyond_before; [done..|]. intros before Hb.
  apply wp_bind, (wp_mono _ (fun outside t' => t' = t /\ (outside = false <-> overlaps (o_begin o) (o_end o) f)) _ (fun _ => False)); [| |done].
  { destruct before; [apply wp_ret; split; [done|]; split; [done|]; intros [Ho _]; by apply Hb in Ho|]. apply wp_beyond_after; [done..|]. intros r Hr. split; [done|].
    rewrite Hr. split; [intros Ha; split; [by apply Hb|done]|by intros [_ Ho]]. }
  intros outside t' [-> Hout]. destruct outside; [apply wp_ret; split; [done|]; split; [apply Hpass|]; apply (inv_pass o f); [done..|]; intros Ho; by apply Hout in Ho|].
  pose proof (proj1 Hout eq_refl) as Ho. destruct (Z.eqb_spec level 0) as [Hz|Hz].
  2:{ apply wp_ret. split; [done|]. split; [apply Hpass|]. by apply (inv_add o f). }
  apply wp_bind, wp_beyond_before; [done..|]. intros grows Hg. destruct grows.
  { assert (Hn : ~ not_after (o_begin o) (f_start f)) by (intros Hn; by apply Hg in Hn). apply wp_ret. split; [done|]. split.
    - apply restart_rounds; [done|]. pose proof (starts_fewer o f (o_end o) H2 Hin Hok Hn). unfold outer_limits in *. cbn [o_end]. lia.
    - apply (inv_grow o f); [done..| |]; [split; [by apply start_below|done]|].
      intros c d Hc Hd [Hr1 Hr2] [Hw1 Hw2]. split; [|done]. intros k Hk. by apply start_in. }
  apply wp_bind, wp_beyond_after; [done..|]. intros grows Hg'. destruct grows.
  { assert (Hn : ~ not_before (f_limit f) (o_end o)) by (intros Hn; by apply Hg' in Hn). apply wp_ret. split; [done|]. split.
    - apply restart_rounds; [done|]. pose proof (limits_fewer o f (o_begin o) H3 Hin Hok Hn). unfold outer_starts in *. cbn [o_begin]. lia.
    - apply (inv_grow o f); [done..| |]; [split; [done|by apply limit_above]|].
      intros c d Hc Hd [Hr1 Hr2] [Hw1 Hw2]. split; [done|]. intros k Hk. by apply limit_in. }
  apply wp_ret. split; [done|]. split; [apply Hpass|]. apply (inv_add o f); [done..|]. intros _. split; [by apply Hg|by apply Hg'].
Qed.

Lemma wp_overlapping_loop {T} (t : T) : size files < 2 ^ 31 ->
  wp (loop (overlapping_step files level) (mk_overlapping 0 lo hi [])) (fun r t' => t' = t /\ overlapping_result r) (fun _ => False) t.
Proof.
  intros Hsz. apply (wp_loop_count _ (fun n o t' => t' = t /\ n = rounds_left o /\ overlapping_inv o) _ (rounds_left (mk_overlapping 0 lo hi []))).
  - intros n o t' (-> & -> & Ho). eapply wp_mono; [exact (overlapping_round o t Ho)| |done]. intros [o'|r] t2 [-> Hr]; [|done]. destruct Hr as [Hr Ho']. by exists (rounds_left o').
  - split; [done|]. split; [done|]. split; cbn [o_i o_begin o_end o_inputs]; try done; [lia|by intros _ f Hf%not_elem_of_nil].
  - unfold rounds_left, outer_starts, outer_limits. cbn [o_i o_begin o_end].
    pose proof (length_filter (fun f => ~ not_after lo (f_start f)) files). pose proof (length_filter (fun f => ~ not_before (f_limit f) hi) files).
    change (2 ^ 31) with 2147483648 in Hsz. change (2 ^ 65) with 36893488147419103232. unfold size in Hsz. nia.
Qed.
End Loop.

(** The bounds of an optional internal key. *)
Definition key_bound_ok (b : option (list Z)) : Prop := match b with Some k => 8 <= size k /\ key_ok (user_part k) | None => True end.

Lemma key_bound_user b : key_bound_ok b -> bound_ok (user_part <$> b).
Proof. by destruct b as [k|]; [intros []|]. Qed.

Lemma key_bound_internal k : internal_ok k -> key_bound_ok (Some k).
Proof. intros [Hk Hu]. split; [lia|done]. Qed.

Lemma wp_bound_user {T} b (Q : option Slice -> T -> Prop) E t : key_bound_ok b -> Q (user_part <$> b) t -> wp (match b with Some k => u <- or_stuck (key_user_key k) ;; ret (Some u) | None => ret None end) Q E t.
Proof.
  destruct b as [k|]; [|by intros; apply wp_ret]. intros [Hk _] HQ. apply wp_bind, wp_or_stuck. exists (user_part k). split; [|by apply wp_ret].
  unfold key_user_key, ExtractUserKey. by destruct (Z.leb_spec 8 (size k)); [|lia].
Qed.

Lemma wp_GetOverlappingInputs {T} v level begin end_ (t : T) (Q : list FilePtr -> T -> Prop) :
  0 <= level < kNumLevels -> Forall file_ok (files_at v level) -> size (files_at v level) < 2 ^ 31 -> key_bound_ok begin -> key_bound_ok end_ ->
  (forall r, overlapping_result (files_at v level) level (user_part <$> begin) (user_part <$> end_) r -> Q r t) ->
  wp (GetOverlappingInputs v level begin end_) Q (fun _ => False) t.
Proof.
  intros Hl Hf Hsz Hb He HQ. unfold GetOverlappingInputs. do 2 (apply wp_bind, wp_asserted; [lia|]). do 2 (apply wp_bind, wp_bound_user; [done|]).
  apply (wp_mono _ (fun r t' => t' = t /\ overlapping_result (files_at v level) level (user_part <$> begin) (user_part <$> end_) r) _ (fun _ => False)); [|intros r t' [-> Hr]; by apply HQ|done].
  apply wp_overlapping_loop; [done|by apply key_bound_user..|done].
Qed.

(** ** Where a new table goes *)

(** The files of a version. *)
Record version_files_ok (v : Version) : Prop := {
  vo_files level : Forall file_ok (files_at v level);
  vo_level level : 0 < level -> level_ok (files_at v level);
  vo_count level : size (files_at v level) < 2 ^ 31
}.

Lemma version_files_ok_levels v l0 ls : files_ v = l0 :: ls -> Forall file_ok l0 -> size l0 < 2 ^ 31 -> Forall level_ok ls -> version_files_ok v.
Proof.
  intros E H0 Hsz Hls. assert (Hat : forall level, files_at v level = l0 /\ level <= 0 \/ level_ok (files_at v level)).
  { intros level. unfold files_at. rewrite E. destruct (Z.to_nat level) as [|n] eqn:En; [left; split; [done|lia]|]. right. cbn [nth].
    destruct (nth_in_or_default n ls []) as [Hin| ->]; [|repeat constructor]. rewrite Forall_forall in Hls. by apply Hls, list_elem_of_In. }
  split; intros level; destruct (Hat level) as [[-> Hle]|Hl]; try done; [by apply Hl|lia|by apply Hl].
Qed.

Definition none_overlaps (v : Version) (lo hi : Slice) (level : Z) : Prop := forall f, f ∈ files_at v level -> ~ overlaps (Some lo) (Some hi) f.

Lemma wp_OverlapInLevel {T} v level lo hi (t : T) (Q : bool -> T -> Prop) : version_files_ok v -> key_ok lo -> key_ok hi -> size lo + 8 < 2 ^ 64 ->
  (forall r, (r = false <-> none_overlaps v lo hi level) -> Q r t) -> wp (OverlapInLevel v level (Some lo) (Some hi)) Q (fun _ => False) t.
Proof.
  intros Hv Hlo Hhi Hsz HQ. unfold OverlapInLevel. apply wp_SomeFileOverlapsRange; [|done..|].
  - destruct (Z.ltb_spec 0 level); [by apply (vo_level v Hv)|apply (vo_files v Hv)].
  - intros r Hr. apply HQ. split.
    + intros -> f Hf Ho. assert (false = true) by (apply Hr; by exists f). done.
    + intros Hn. destruct r; [|done]. destruct (proj1 Hr eq_refl) as (f & Hf & Ho). by destruct (Hn f Hf).
Qed.

(** Why a table goes no further down than [level]. *)
Definition stops_at (options : Options) (v : Version) (lo hi : Slice) (level : Z) : Prop :=
  level = kMaxMemCompactLevel \/ ~ none_overlaps v lo hi (level + 1) \/
  level + 2 < kNumLevels /\ MaxGrandParentOverlapBytes options < TotalFileSize (filter (overlaps (Some lo) (Some hi)) (files_at v (level + 2))).

(** The level for a table over the user keys. *)
Record level_for (options : Options) (v : Version) (lo hi : Slice) (level : Z) : Prop := {
  lf_range : 0 <= level <= kMaxMemCompactLevel;
  lf_none : 0 < level -> forall j, 0 <= j <= level -> none_overlaps v lo hi j;
  lf_stays : ~ none_overlaps v lo hi 0 -> level = 0;
  lf_stops : none_overlaps v lo hi 0 -> stops_at options v lo hi level
}.

Lemma too_many_ok {T} options v lo hi level (t : T) (Q : bool -> T -> Prop) : version_files_ok v -> key_ok lo -> key_ok hi -> size lo + 8 < 2 ^ 64 -> size hi + 8 < 2 ^ 64 -> 0 <= level ->
  (forall r, (r = true -> level + 2 < kNumLevels /\ MaxGrandParentOverlapBytes options < TotalFileSize (filter (overlaps (Some lo) (Some hi)) (files_at v (level + 2)))) -> Q r t) ->
  wp (if level + 2 <? kNumLevels then
        overlaps <- GetOverlappingInputs v (level + 2) (Some (new_InternalKey lo kMaxSequenceNumber kValueTypeForSeek)) (Some (new_InternalKey hi 0 kTypeDeletion)) ;;
        ret (MaxGrandParentOverlapBytes options <? TotalFileSize overlaps)
      else ret false) Q (fun _ => False) t.
Proof.
  intros Hv Hlo Hhi Hsz Hsz' Hl HQ. destruct (Z.ltb_spec (level + 2) kNumLevels) as [Hn|]; [|by apply wp_ret, HQ].
  assert (Hkey : forall u s t, size u + 8 < 2 ^ 64 -> 8 <= size (new_InternalKey u s t) /\ user_part (new_InternalKey u s t) = u).
  { intros u s ty Hu. unfold new_InternalKey. rewrite AppendInternalKey_app, app_nil_l, size_internal_key, user_part_of by done. pose proof (size_nonneg u). split; [lia|done]. }
  destruct (Hkey lo kMaxSequenceNumber kValueTypeForSeek Hsz) as [K1 K2], (Hkey hi 0 kTypeDeletion Hsz') as [K3 K4].
  apply wp_bind, wp_GetOverlappingInputs; [lia|by apply vo_files|by apply vo_count|unfold key_bound_ok; by rewrite K2|unfold key_bound_ok; by rewrite K4|].
  intros r (lo' & hi' & -> & Hr & _). destruct (Hr ltac:(lia)) as [-> ->]. cbn [fmap option_fmap option_map]. rewrite K2, K4. apply wp_ret, HQ. intros Hb. split; [done|]. by apply Z.ltb_lt.
Qed.

Lemma wp_pick_level {T} options v lo hi (t : T) : version_files_ok v -> key_ok lo -> key_ok hi -> size lo + 8 < 2 ^ 64 -> size hi + 8 < 2 ^ 64 ->
  wp (PickLevelForMemTableOutput options v lo hi) (fun level _ => level_for options v lo hi level) (fun _ => False) t.
Proof.
  intros Hv Hlo Hhi Hsz Hsz'. unfold PickLevelForMemTableOutput. assert (Hmax : kMaxMemCompactLevel = 2) by done.
  apply wp_bind, wp_OverlapInLevel; [done..|]. intros overlap Ho. destruct overlap.
  { apply wp_ret. split; [lia|lia|done|]. intros Hn. by apply Ho in Hn. }
  apply (wp_loop _ (fun level _ => 0 <= level <= 2 /\ forall j, 0 <= j <= level -> none_overlaps v lo hi j) (fun level _ => 2 - level)).
  - intros level t' [Hl Hn]. split; [lia|]. unfold pick_level_step.
    assert (Hat : stops_at options v lo hi level -> level_for options v lo hi level) by (intros Hs; split; [lia|done|intros H0; destruct H0; by apply Ho|done]).
    destruct (Z.ltb_spec level kMaxMemCompactLevel); [|apply wp_ret, Hat; left; lia].
    apply wp_bind, wp_OverlapInLevel; [done..|]. intros overlap Ho'. destruct overlap; [apply wp_ret, Hat; right; left; intros H0; by apply Ho' in H0|].
    apply wp_bind, too_many_ok; [done..|lia|]. intros too_many Htoo. apply wp_ret. destruct too_many; [apply Hat; right; right; by apply Htoo|].
    split; [|lia]. split; [lia|]. intros j Hj. destruct (decide (j = level + 1)) as [->|]; [by apply Ho'|apply Hn; lia].
  - split; [lia|]. intros j Hj. assert (j = 0) as -> by lia. by apply Ho.
  - lia.
Qed.
End Overlap.


(** C33: the inputs of a compaction. [GetOverlappingInputs] ends, at level 0 too, where the range grows
    and the search starts again. It gives the files that overlap a range: the one asked for at the
    other levels; at level 0 the least range around it that no file crosses, so that no
    file left behind overlaps a file that is taken. *)
Theorem overlapping_inputs {U : Comparator} {LU : ComparatorLaws U} {T : Type} (v : Version) (level : Z) (begin end_ : option (list Z)) (t : T) :
  0 <= level < kNumLevels -> Forall file_ok (files_at v level) -> size (files_at v level) < 2 ^ 31 -> key_bound_ok begin -> key_bound_ok end_ ->
  exists inputs t' lo hi, GetOverlappingInputs v level begin end_ t = (Ret inputs, t') /\ inputs = filter (overlaps lo hi) (files_at v level) /\
    (level <> 0 -> lo = user_part <$> begin /\ hi = user_part <$> end_) /\
    (level = 0 -> least_range (files_at v level) (user_part <$> begin) (user_part <$> end_) lo hi).
Proof.
  intros Hl Hf Hsz Hb He. destruct (wp_Ret (GetOverlappingInputs v level begin end_) t
    (fun r _ => overlapping_result (files_at v level) level (user_part <$> begin) (user_part <$> end_) r)) as (r & t' & E & lo & hi & H).
  - by apply wp_GetOverlappingInputs.
  - exists r, t', lo, hi. split; [done|]. exact H.
Qed.

(** A version with files at three levels. *)
Definition sample_file (n : Z) (u : string) (s : Z) (u' : string) (s' : Z) : FilePtr :=
  mk_ptr (16 * n) (new_FileMetaData n 1000 (new_InternalKey (literal u) s kTypeValue) (new_InternalKey (literal u') s' kTypeValue)).
Definition sample_version_files : Version :=
  mk_Version [[sample_file 9 "d" 31 "h" 30; sample_file 8 "g" 27 "k" 29; sample_file 7 "p" 25 "s" 26]; [sample_file 5 "c" 12 "f" 11; sample_file 6 "t" 13 "v" 14];
    [sample_file 4 "b" 9 "e" 8]; []; []; []; []] None (-1) minus_one (-1).

Lemma sample_version_files_ok : version_files_ok (LU := bytewise_laws) sample_version_files.
Proof.
  eapply version_files_ok_levels; [reflexivity|..]; repeat (constructor; cbn [map]); try (vm_compute; congruence); vm_compute; repeat constructor; congruence.
Qed.

#[local] Existing Instance BytewiseComparator.


Lemma overlapping_inputs_witness :
  exists inputs t' lo hi, GetOverlappingInputs sample_version_files 0 (Some (new_InternalKey (literal "i") 1 kTypeValue)) (Some (new_InternalKey (literal "j") 1 kTypeValue)) tt = (Ret inputs, t') /\
    map f_number inputs = [9; 8] /\ inputs = filter (overlaps (LU := bytewise_laws) lo hi) (files_at sample_version_files 0).
Proof.
  destruct (overlapping_inputs (LU := bytewise_laws) sample_version_files 0 (Some (new_InternalKey (literal "i") 1 kTypeValue)) (Some (new_InternalKey (literal "j") 1 kTypeValue)) tt) as (inputs & t' & lo & hi & E & Hi & _).
  - done.
  - apply (vo_files _ sample_version_files_ok).
  - done.
  - repeat constructor; vm_compute; congruence.
  - repeat constructor; vm_compute; congruence.
  - exists inputs, t', lo, hi. split; [exact E|]. split; [|exact Hi]. assert (Hm : map f_number <$> (match fst (GetOverlappingInputs sample_version_files 0 (Some (new_InternalKey (literal "i") 1 kTypeValue)) (Some (new_InternalKey (literal "j") 1 kTypeValue)) tt) with Ret r => Some r | _ => None end) = Some [9; 8]) by (vm_compute; reflexivity).
    rewrite E in Hm. cbn in Hm. congruence.
Defined.
