(* ===== verification/LdbVersionGet.v ===== *)
(** Reads: [Version::Get] finds the newest visible version of a user key among all the files
    of a version. *)

From Stdlib Require Import ZArith Lia List String Bool SpecFloat.
From stdpp Require Import base gmap list sorting.
From S2P Require Import Prelude Base128 LdbBase LdbText LdbCoding LdbKeys LdbKeyProps LdbIterator LdbDbIter LdbDbIterProps LdbFormat LdbVersionEdit LdbVersion LdbVersionOverlap.

(** What a search for [k] hands out of the entries [l]: the first one that is not before [k],
    unless it is of another user key, when it may be withheld. *)
Definition sought {U : Comparator} {LU : ComparatorLaws U} (l : list entry) (k : Slice) (found : option entry) : Prop :=
  (forall e, found = Some e -> exists i, seeks (C := InternalKeyComparator U) (L := internal_laws) k l (Some i) /\ l !! i = Some e) /\
  forall i e, seeks (C := InternalKeyComparator U) (L := internal_laws) k l (Some i) -> l !! i = Some e ->
    order (user_part (fst e)) (user_part k) = 0 -> found = Some e.

(** What a version relies on: a search in a file that is there gives its entries. *)
Class TableCacheLaws {T : Type} (ops : TableCacheOps T) {U : Comparator} {LU : ComparatorLaws U}
    (tables : Z -> list version) (present : Z -> Z -> Prop) (inv : T -> Prop) : Prop := {
  tc_Get_ok options n sz k t : inv t -> present n sz -> internal_ok k ->
    exists found t', tc_Get options n sz k t = (Ret (found, OK), t') /\ inv t' /\ sought (map version_entry (tables n)) k found
}.

Section Get.
Context {T : Type} {tc : TableCacheOps T} {U : Comparator} {LU : ComparatorLaws U}.
Context {tables : Z -> list version} {present : Z -> Z -> Prop} {inv : T -> Prop} {tcl : TableCacheLaws tc tables present inv}.

Abbreviation iorder := internal_order.
Definition v_ikey (e : version) : Slice := fst (version_entry e).
Definition table_of (f : FilePtr) : list version := tables (f_number f).

(** The entries of a file are between its bounds, and the last bound is one of them. *)
Record file_table (f : FilePtr) : Prop := {
  ft_present : present (f_number f) (f_size f);
  ft_versions : versions (table_of f);
  ft_bounds e : e ∈ table_of f -> iorder (f_smallest f) (v_ikey e) <= 0 /\ iorder (v_ikey e) (f_largest f) <= 0;
  ft_largest : exists e, e ∈ table_of f /\ v_ikey e = f_largest f
}.

(** [f] in level [a] is searched before [g] in level [b]. *)
Definition above (a : Z) (f : FilePtr) (b : Z) (g : FilePtr) : Prop := a < b \/ a = 0 /\ b = 0 /\ f_number g < f_number f.

(** A version that can be read: entries of a user key get older from level to level, and at level 0 from
    newer files to older ones. *)
Record readable (v : Version) : Prop := {
  rd_files : version_files_ok v;
  rd_table level f : f ∈ files_at v level -> file_table f;
  rd_numbers : NoDup (map f_number (files_at v 0));
  rd_older a b f g d e : 0 <= a -> 0 <= b -> f ∈ files_at v a -> g ∈ files_at v b -> above a f b g -> d ∈ table_of f -> e ∈ table_of g ->
    order (v_user d) (v_user e) = 0 -> pk_sequence (v_key e) < pk_sequence (v_key d)
}.

Context (v : Version) (Hv : readable v) (u : Slice) (s : Z) (Hu : key_ok u) (Hsz : size u + 8 < 2 ^ 64) (Hs : 0 <= s <= kMaxSequenceNumber).

Definition search_key : Slice := internal_key_bytes u s kTypeValue.

(** The entry is of the user key, and not past the sequence number. *)
Definition visible (e : version) : Prop := order (v_user e) u = 0 /\ seen s e = true.
#[local] Instance visible_dec e : Decision (visible e) := and_dec _ _.
Definition in_level (level : Z) (e : version) : Prop := exists f, f ∈ files_at v level /\ e ∈ table_of f.

Lemma search_key_ok : internal_ok search_key /\ user_part search_key = u.
Proof. unfold search_key, internal_ok. rewrite size_internal_key, user_part_of by done. pose proof (size_nonneg u). split; [split; [lia|done]|done]. Qed.

Lemma v_ikey_ok e : version_ok e -> internal_ok (v_ikey e) /\ user_part (v_ikey e) = v_user e.
Proof.
  intros He. pose proof (version_entry_user e He) as Hx. destruct He as (Hk & _ & Hz). pose proof (size_nonneg (v_value e)). pose proof (size_nonneg (v_user e)). unfold internal_ok, v_ikey. rewrite Hx.
  unfold version_entry. cbn [fst]. rewrite size_internal_key. unfold v_user in *. split; [split; [lia|done]|done].
Qed.

Lemma table_elem f e : file_table f -> e ∈ table_of f -> version_ok e.
Proof. intros Hf [i Hi]%list_elem_of_lookup_1. exact (version_at _ (ft_versions f Hf) i e Hi). Qed.

(** The visible entries are those of the user key from the search key on. *)
Lemma visible_search e : version_ok e -> order (v_user e) u = 0 -> (seen s e = true <-> 0 <= iorder (v_ikey e) search_key).
Proof.
  intros Hok Ho. destruct (v_ikey_ok e Hok) as [_ Hx]. destruct search_key_ok as [_ Hx']. unfold internal_order. rewrite Hx, Hx', Ho. cbn [Z.eqb].
  destruct Hok as (_ & Hseq & _). unfold number_of, v_ikey, version_entry, search_key. cbn [fst]. rewrite !key_number_of, !PackSequenceAndType_sum by done. unfold seen. rewrite Z.leb_le.
  assert (0 <= ValueType_value (pk_type (v_key e)) <= 1) by (destruct (pk_type (v_key e)); cbn; lia). change (ValueType_value kTypeValue) with 1.
  destruct (Z.ltb_spec (s * 256 + 1) (pk_sequence (v_key e) * 256 + ValueType_value (pk_type (v_key e)))), (Z.ltb_spec (pk_sequence (v_key e) * 256 + ValueType_value (pk_type (v_key e))) (s * 256 + 1)); lia.
Qed.

(** ** A file *)

Definition none_in (f : FilePtr) : Prop := forall e, e ∈ table_of f -> ~ visible e.

(** The newest visible entry of a file. *)
Definition newest_in (f : FilePtr) (e : version) : Prop :=
  e ∈ table_of f /\ visible e /\ forall d, d ∈ table_of f -> visible d -> iorder (v_ikey e) (v_ikey d) <= 0.

Lemma table_sorted f i j a b : file_table f -> (i <= j)%nat -> table_of f !! i = Some a -> table_of f !! j = Some b -> iorder (v_ikey a) (v_ikey b) <= 0.
Proof.
  intros Hf Hij Ha Hb. destruct (decide (i = j)) as [->|Hne].
  - rewrite Ha in Hb. injection Hb as <-. destruct (v_ikey_ok a (table_elem f a Hf (list_elem_of_lookup_2 _ _ _ Ha))) as [Hk _].
    rewrite (order_refl (ComparatorLaws := internal_laws) _ Hk : iorder _ _ = 0). lia.
  - destruct (ft_versions f Hf) as [_ [_ Hs']]. apply Z.lt_le_incl. refine (StronglySorted_at _ _ i j _ _ Hs' ltac:(lia) _ _); by rewrite !list_lookup_fmap, ?Ha, ?Hb.
Qed.

(** What the search in a file finds. *)
Lemma sought_cases f found : file_table f -> sought (map version_entry (table_of f)) search_key found ->
  (none_in f /\ (found = None \/ exists e, e ∈ table_of f /\ found = Some (version_entry e) /\ order (v_user e) u <> 0)) \/
  exists e, newest_in f e /\ found = Some (version_entry e).
Proof.
  intros Hf [Hfound Hmust]. destruct search_key_ok as [Hsk Hsx].
  assert (Hfirst : forall i e, seeks (C := InternalKeyComparator U) (L := internal_laws) search_key (map version_entry (table_of f)) (Some i) -> table_of f !! i = Some e ->
    (order (v_user e) u = 0 -> newest_in f e) /\ (order (v_user e) u <> 0 -> none_in f)).
  { intros i e [(x & Hx & Hge) Hbefore] He. rewrite list_lookup_fmap, He in Hx. injection Hx as <-. pose proof (list_elem_of_lookup_2 _ _ _ He) as Hin. pose proof (table_elem f e Hf Hin) as Hok.
    assert (Hrest : forall d, d ∈ table_of f -> visible d -> iorder (v_ikey e) (v_ikey d) <= 0).
    { intros d [j Hj]%list_elem_of_lookup_1 [Hod Hsd]. pose proof (table_elem f d Hf (list_elem_of_lookup_2 _ _ _ Hj)) as Hokd. destruct (decide (i <= j)%nat); [by apply (table_sorted f i j)|].
      assert (Hlt : iorder (v_ikey d) search_key < 0) by (apply (Hbefore j (version_entry d)); [lia|by rewrite list_lookup_fmap, Hj]). apply (visible_search d Hokd Hod) in Hsd. lia. }
    split; [intros Ho; split; [done|]; split; [|done]; split; [done|by apply (visible_search e Hok Ho)]|].
    intros Ho d Hd Hvd. pose proof (Hrest d Hd Hvd) as Hle. pose proof (table_elem f d Hf Hd) as Hokd. destruct Hvd as [Hod Hsd].
    destruct (v_ikey_ok e Hok) as [_ Hex]. destruct (v_ikey_ok d Hokd) as [_ Hdx]. apply user_order_le in Hle. rewrite Hex, Hdx in Hle.
    assert (Hge' : 0 <= order (v_user e) u).
    { destruct (Z.le_gt_cases 0 (order (v_user e) u)) as [|Hlt]; [done|]. assert (iorder (v_ikey e) search_key < 0) by (apply internal_order_lt; rewrite Hex, Hsx; lia). change (fst (version_entry e)) with (v_ikey e) in Hge. change (@order (InternalKeyComparator U) internal_laws) with (@iorder U LU) in Hge. lia. }
    destruct Hok as [Hke _]. destruct Hokd as [Hkd _]. pose proof (order_trans _ _ _ Hke Hkd Hu). lia. }
  destruct found as [x|].
  - destruct (Hfound x eq_refl) as (i & Hi & Hx). rewrite list_lookup_fmap in Hx. destruct (table_of f !! i) as [e|] eqn:He; [|done]. injection Hx as <-.
    destruct (Hfirst i e Hi He) as [H1 H2]. destruct (decide (order (v_user e) u = 0)) as [Ho|Ho]; [right; exists e; split; [by apply H1|done]|].
    left. split; [by apply H2|]. right. exists e. split; [by eapply list_elem_of_lookup_2|done].
  - left. split; [|by left]. intros d [j Hj]%list_elem_of_lookup_1 [Hod Hsd]. pose proof (table_elem f d Hf (list_elem_of_lookup_2 _ _ _ Hj)) as Hokd.
    apply (visible_search d Hokd Hod) in Hsd. 
    destruct (list_find (fun e => 0 <= iorder (v_ikey e) search_key) (table_of f)) as [[i e]|] eqn:E.
    + apply list_find_Some in E as (He & Hge & Hbefore). pose proof (table_elem f e Hf (list_elem_of_lookup_2 _ _ _ He)) as Hok.
      assert (Hi : seeks (C := InternalKeyComparator U) (L := internal_laws) search_key (map version_entry (table_of f)) (Some i)).
      { split; [exists (version_entry e); split; [by rewrite list_lookup_fmap, He|done]|]. intros j' x Hj' Hx. rewrite list_lookup_fmap in Hx. destruct (table_of f !! j') as [d'|] eqn:Hd'; [|done]. injection Hx as <-.
        specialize (Hbefore j' d' Hd' Hj'). change (iorder (v_ikey d') search_key < 0). lia. }
      destruct (Hfirst i e Hi He) as [H1 H2]. destruct (decide (order (v_user e) u = 0)) as [Ho|Ho].
      * specialize (Hmust i (version_entry e) Hi ltac:(by rewrite list_lookup_fmap, He)). rewrite version_entry_user, Hsx in Hmust by done. by specialize (Hmust Ho).
      * apply (H2 Ho d (list_elem_of_lookup_2 _ _ _ Hj)). split; [done|]. by apply (visible_search d Hokd Hod).
    + apply list_find_None in E. rewrite Forall_forall in E. by apply (E d (list_elem_of_lookup_2 _ _ _ Hj)).
Qed.

(** ** The files of a level *)

Definition status_of (e : version) : Status := match pk_type (v_key e) with kTypeValue => OK | kTypeDeletion => NotFound [] [] end.

(** The search stops at the first file with a visible entry. *)
Definition stops_at (fl : list FilePtr) (f : FilePtr) : Prop := exists a b, fl = a ++ f :: b /\ Forall none_in a /\ exists e, newest_in f e.

Lemma wp_SaveValue e value (t : T) (Q : SaverState * list Z -> T -> Prop) E : version_ok e ->
  (order (v_user e) u = 0 -> Q (match pk_type (v_key e) with kTypeValue => (Saver_Found, v_value e) | kTypeDeletion => (Saver_Deleted, value) end) t) ->
  (order (v_user e) u <> 0 -> Q (Saver_NotFound, value) t) -> wp (SaveValue u (fst (version_entry e)) (v_value e) value) Q E t.
Proof.
  intros (Hk & Hseq & Hz) H1 H2. unfold SaveValue, version_entry. cbn [fst]. rewrite ParseInternalKey_of by done. cbn [pk_user_key pk_type]. fold (v_user e).
  rewrite Compare_order by done. apply wp_bind, wp_ret, wp_ret. destruct (Z.eqb_spec (order (v_user e) u) 0); [by apply H1|by apply H2].
Qed.

(** What [Get] knows when the loop over [fl] ends. *)
Definition files_searched (fl : list FilePtr) (g : GetLocals) (r : option Status) : Prop :=
  match r with
  | None => Forall none_in fl
  | Some st => exists f e, stops_at fl f /\ newest_in f e /\ st = status_of e /\ (pk_type (v_key e) = kTypeValue -> g_value g = v_value e)
  end.

Lemma stops_cons f fl h : none_in f -> stops_at fl h -> stops_at (f :: fl) h.
Proof. intros Hf (a & b & -> & Ha & He). exists (f :: a), b. split; [done|]. split; [by constructor|done]. Qed.

Lemma wp_get_in_files options level fl : Forall file_table fl -> forall g t, inv t ->
  wp (get_in_files options u search_key level fl g) (fun r t' => inv t' /\ files_searched fl (fst r) (snd r)) (fun _ => False) t.
Proof.
  induction 1 as [|f fl Hf Hfl IH]; intros g t Ht; cbn [get_in_files]; [apply wp_ret; split; [done|constructor]|].
  destruct search_key_ok as [Hsk Hsx]. destruct (tc_Get_ok options (f_number f) (f_size f) search_key t Ht (ft_present f Hf) Hsk) as (found & t1 & E & Ht1 & Hsought).
  cbv zeta. apply wp_bind, (wp_of_eq _ _ _ _ _ _ E). fold (table_of f) in Hsought.
  assert (Hgo : forall g t2, none_in f -> inv t2 -> wp (get_in_files options u search_key level fl g) (fun r t' => inv t' /\ files_searched (f :: fl) (fst r) (snd r)) (fun _ => False) t2).
  { intros g' t2 Hn Ht2. eapply wp_mono; [exact (IH g' t2 Ht2)| |done]. intros [g2 [st|]] t3 [Ht3 Hr]; cbn [fst snd files_searched] in *; (split; [done|]).
    - destruct Hr as (h & e & Hst & H). exists h, e. split; [by apply stops_cons|done].
    - by constructor. }
  change (ok OK) with true. cbn [negb].
  destruct (sought_cases f found Hf Hsought) as [[Hn [->|(e & He & -> & Ho)]]|(e & Hnew & ->)].
  - apply wp_bind, wp_ret. cbv iota. by apply Hgo.
  - apply wp_bind. apply wp_SaveValue; [by apply (table_elem f)|done|]. intros _. cbv iota. by apply Hgo.
  - pose proof Hnew as (He & [Ho Hse] & _). apply wp_bind. apply wp_SaveValue; [by apply (table_elem f)| |done]. intros _.
    assert (Hstop : stops_at (f :: fl) f) by (exists [], fl; split; [done|]; split; [constructor|by exists e]).
    destruct (pk_type (v_key e)) eqn:Hty; cbv iota; apply wp_ret; (split; [done|]); exists f, e; (split; [done|]); (split; [done|]); unfold status_of; rewrite Hty; done.
Qed.

(** The files [fl] are enough: the one where the search stops has the newest entry of the level. *)
Definition enough (level : Z) (fl : list FilePtr) : Prop :=
  (forall f, f ∈ fl -> f ∈ files_at v level) /\
  forall d, in_level level d -> visible d -> exists f, stops_at fl f /\ forall e, newest_in f e -> iorder (v_ikey e) (v_ikey d) <= 0.

(** A file that holds a visible entry has a newest one. *)
Lemma has_newest f d : file_table f -> d ∈ table_of f -> visible d -> exists e, newest_in f e.
Proof.
  intros Hf Hd Hvis. destruct (list_find (fun e => visible e) (table_of f)) as [[i e]|] eqn:E.
  - apply list_find_Some in E as (He & Hve & Hbefore). exists e. split; [by eapply list_elem_of_lookup_2|]. split; [done|].
    intros x [j Hj]%list_elem_of_lookup_1 Hvx. destruct (decide (i <= j)%nat); [by apply (table_sorted f i j)|]. by destruct (Hbefore j x Hj ltac:(lia)).
  - apply list_find_None in E. rewrite Forall_forall in E. by destruct (E d Hd).
Qed.

(** The first file of [fl] with a visible entry. *)
Lemma first_stop fl g d : Forall file_table fl -> g ∈ fl -> d ∈ table_of g -> visible d ->
  exists a f b, fl = a ++ f :: b /\ Forall none_in a /\ (exists e, newest_in f e) /\ (f = g \/ g ∈ b).
Proof.
  induction 1 as [|h fl Hh Hfl IH]; [by intros ?%not_elem_of_nil|]. intros Hg Hd Hvd. destruct (decide (Forall (fun e => ~ visible e) (table_of h))) as [Hn|Hn].
  - rewrite Forall_forall in Hn. apply elem_of_cons in Hg as [->|Hg]; [by destruct (Hn d Hd)|]. destruct (IH Hg Hd Hvd) as (a & f & b & -> & Ha & He & Hf).
    exists (h :: a), f, b. split; [done|]. split; [by constructor|done].
  - apply not_Forall_Exists in Hn; [|apply _]. apply Exists_exists in Hn as (x & Hx & Hvx). apply dec_stable in Hvx.
    exists [], h, fl. split; [done|]. split; [constructor|]. split; [by apply (has_newest h x)|]. apply elem_of_cons in Hg as [->|Hg]; [by left|by right].
Qed.

(** Among entries of one user key the one with the larger sequence number is first. *)
Lemma newer_first d e : version_ok d -> version_ok e -> order (v_user d) (v_user e) = 0 -> pk_sequence (v_key e) < pk_sequence (v_key d) -> iorder (v_ikey d) (v_ikey e) < 0.
Proof.
  intros Hd He Ho Hlt. destruct (v_ikey_ok d Hd) as [_ Hdx]. destruct (v_ikey_ok e He) as [_ Hex]. unfold internal_order. rewrite Hdx, Hex, Ho. cbn [Z.eqb].
  destruct Hd as (_ & Hsd & _). destruct He as (_ & Hse & _). unfold number_of, v_ikey, version_entry. cbn [fst]. rewrite !key_number_of, !PackSequenceAndType_sum by done.
  destruct (pk_type (v_key d)), (pk_type (v_key e)); cbn [ValueType_value];
    match goal with |- context [?x <? ?y] => destruct (Z.ltb_spec x y) end; lia.
Qed.

Lemma one_user d e : version_ok d -> version_ok e -> visible d -> visible e -> order (v_user d) (v_user e) = 0.
Proof.
  intros [Hd _] [He _] [Hod _] [Hoe _]. pose proof (order_flip _ _ Hd Hu). pose proof (order_flip _ _ Hu Hd). pose proof (order_flip _ _ He Hu). pose proof (order_flip _ _ Hu He).
  pose proof (order_trans _ _ _ Hd Hu He). pose proof (order_trans _ _ _ He Hu Hd). pose proof (order_flip _ _ Hd He). pose proof (order_flip _ _ He Hd). lia.
Qed.

(** *** Level 0 *)

(** The user keys of a file are in its range. *)
Lemma visible_in_range f d : file_ok f -> file_table f -> d ∈ table_of f -> visible d -> overlaps (Some u) (Some u) f.
Proof.
  intros Hok Hf Hd [Ho _]. pose proof (table_elem f d Hf Hd) as Hokd. destruct (v_ikey_ok d Hokd) as [_ Hdx]. destruct (ft_bounds f Hf d Hd) as [H1 H2].
  apply user_order_le in H1, H2. rewrite Hdx in H1, H2. fold (f_start f) in H1. fold (f_limit f) in H2. destruct (file_users f Hok) as (Hs' & Hl & _). destruct Hokd as [Hkd _].
  pose proof (order_flip _ _ Hkd Hu). pose proof (order_flip _ _ Hu Hkd). split; cbn.
  - apply (order_trans _ (v_user d)); [done..|lia|done].
  - apply (order_trans _ (v_user d)); [done..|lia].
Qed.

Lemma wp_holding files (t : T) (Q : list FilePtr -> T -> Prop) E : Forall file_ok files ->
  Q (filter (overlaps (Some u) (Some u)) files) t -> wp (holding u files) Q E t.
Proof.
  intros Hf. revert Q. induction Hf as [|f files Hok Hf IH]; intros Q HQ; cbn [holding]; [by apply wp_ret|].
  destruct (file_users f Hok) as (Hs' & Hl & _). apply wp_bind, wp_start; [done|]. rewrite Compare_order by done. apply wp_bind, wp_ret, wp_bind.
  apply (wp_mono _ (fun inside t' => t' = t /\ (inside = true <-> overlaps (Some u) (Some u) f)) _ (fun _ => False)); [| |done].
  - unfold overlaps, not_after, not_before. pose proof (order_flip _ _ Hs' Hu). pose proof (order_flip _ _ Hu Hs'). destruct (Z.leb_spec 0 (order u (f_start f))).
    + apply wp_bind, wp_limit; [done|]. rewrite Compare_order by done. apply wp_bind, wp_ret, wp_ret. split; [done|]. rewrite Z.leb_le. lia.
    + apply wp_ret. split; [done|]. split; [done|lia].
  - intros inside t' [-> Hin]. apply wp_bind, IH, wp_ret. rewrite filter_cons in HQ. destruct inside.
    + by rewrite decide_True in HQ by by apply Hin.
    + rewrite decide_False in HQ; [done|]. intros Ho. by apply Hin in Ho.
Qed.

Lemma newest_insert_perm f l : newest_insert f l ≡ₚ f :: l.
Proof. induction l as [|g l IH]; [done|]. cbn. destruct (NewestFirst g f); [|done]. rewrite IH. apply Permutation_swap. Qed.

Lemma newest_sort_perm l : newest_sort l ≡ₚ l.
Proof. induction l as [|f l IH]; [done|]. cbn. by rewrite newest_insert_perm, IH. Qed.

Abbreviation not_older := (fun a b : FilePtr => f_number b <= f_number a).

Lemma newest_insert_sorted f l : StronglySorted not_older l -> StronglySorted not_older (newest_insert f l).
Proof.
  induction 1 as [|g l Hs' IH Hall]; [repeat constructor|]. cbn. unfold NewestFirst. destruct (Z.ltb_spec (f_number f) (f_number g)).
  - constructor; [done|]. rewrite newest_insert_perm. constructor; [lia|done].
  - constructor; [by constructor|]. constructor; [lia|]. eapply Forall_impl; [exact Hall|]. intros h Hh. cbn in *. lia.
Qed.

Lemma newest_sort_sorted l : StronglySorted not_older (newest_sort l).
Proof. induction l as [|f l IH]; [constructor|]. cbn. by apply newest_insert_sorted. Qed.

Lemma NoDup_filter_map (P : FilePtr -> Prop) `{!forall f, Decision (P f)} l : NoDup (map f_number l) -> NoDup (map f_number (filter P l)).
Proof.
  induction l as [|f l IH]; [done|]. cbn [map]. intros [Hnot Hnd]%NoDup_cons. rewrite filter_cons. case_decide; [|by apply IH]. cbn [map]. constructor; [|by apply IH].
  intros (g & Hg & [_ Hin]%list_elem_of_filter)%list_elem_of_fmap. apply Hnot, list_elem_of_fmap. by exists g.
Qed.

Lemma enough_level_0 : enough 0 (newest_sort (filter (overlaps (Some u) (Some u)) (files_at v 0))).
Proof.
  pose proof (vo_files v (rd_files v Hv) 0) as Hok. set (fl := newest_sort _). assert (Hin : forall f, f ∈ fl <-> overlaps (Some u) (Some u) f /\ f ∈ files_at v 0).
  { intros f. unfold fl. by rewrite newest_sort_perm, list_elem_of_filter. }
  split; [intros f Hf; by apply Hin|]. intros d (g & Hg & Hd) Hvd. assert (Htab : Forall file_table fl) by (rewrite Forall_forall; intros f [_ Hf]%Hin; by apply (rd_table v Hv 0)).
  rewrite Forall_forall in Hok. assert (Hgl : g ∈ fl) by (apply Hin; split; [apply (visible_in_range g d); [by apply Hok|by apply (rd_table v Hv 0)|done..]|done]).
  destruct (first_stop fl g d Htab Hgl Hd Hvd) as (a & f & b & Efl & Ha & He & Hfg). exists f. split; [by exists a, b|].
  assert (Hff : f ∈ fl) by (rewrite Efl, elem_of_app, elem_of_cons; tauto). apply Hin in Hff as [_ Hff].
  intros e (He' & Hve & Hmin). destruct Hfg as [->|Hgb]; [by apply Hmin|].
  assert (Hnum : f_number g < f_number f).
  { pose proof (newest_sort_sorted (filter (overlaps (Some u) (Some u)) (files_at v 0))) as Hsort. fold fl in Hsort. rewrite Efl in Hsort. apply StronglySorted_app in Hsort as (_ & _ & Hsort).
    apply StronglySorted_inv in Hsort as [_ Hall]. rewrite Forall_forall in Hall. specialize (Hall g Hgb). cbn in Hall.
    assert (Hnd : NoDup (map f_number fl)). { unfold fl. rewrite newest_sort_perm. apply NoDup_filter_map, (rd_numbers v Hv). }
    rewrite Efl, map_app in Hnd. cbn [map] in Hnd. apply NoDup_app in Hnd as (_ & _ & Hnd). apply NoDup_cons in Hnd as [Hnot _].
    destruct (decide (f_number g = f_number f)) as [E|]; [|lia]. destruct Hnot. rewrite <- E. apply list_elem_of_fmap. by exists g. }
  pose proof (table_elem f e (rd_table v Hv 0 f Hff) He') as Hoke. pose proof (table_elem g d (rd_table v Hv 0 g Hg) Hd) as Hokd. pose proof (one_user e d Hoke Hokd Hve Hvd) as Ho.
  apply Z.lt_le_incl, newer_first; [done..|]. apply (rd_older v Hv 0 0 f g); try done. right. by split; [|split].
Qed.

(** *** The other levels *)

Lemma at_index level i f : files_at v level !! i = Some f -> f ∈ files_at v level.
Proof. by apply list_elem_of_lookup_2. Qed.

(** A visible entry is not in front of the first file that ends at or past the search key. *)
Lemma visible_file level i j g d : 0 < level -> first_file (files_at v level) search_key i -> files_at v level !! j = Some g -> d ∈ table_of g -> visible d -> (i <= j)%nat.
Proof.
  intros Hlev (_ & Hbelow & _) Hg Hd [Ho Hsd]. destruct (decide (i <= j)%nat); [done|]. pose proof (rd_table v Hv level g (at_index level j g Hg)) as Hft.
  pose proof (table_elem g d Hft Hd) as Hok. destruct (v_ikey_ok d Hok) as [Hkd _]. destruct search_key_ok as [Hsk _]. apply (visible_search d Hok Ho) in Hsd.
  destruct (ft_bounds g Hft d Hd) as [_ Hle]. pose proof (level_file _ j g (vo_level v (rd_files v Hv) level Hlev) Hg) as (_ & Hgl & _).
  pose proof (iorder_le_lt _ _ _ Hkd Hgl Hsk Hle (Hbelow j g ltac:(lia) Hg)). lia.
Qed.

Lemma enough_none level : (forall d, in_level level d -> visible d -> False) -> enough level [].
Proof. intros H. split; [by intros f Hf%not_elem_of_nil|]. intros d Hd Hvd. by destruct (H d Hd Hvd). Qed.

(** The file [f] that is searched holds the newest entry of the level. *)
Lemma enough_one level i f : 0 < level -> first_file (files_at v level) search_key i -> files_at v level !! i = Some f -> enough level [f].
Proof.
  intros Hlev Hi Hf. pose proof (vo_level v (rd_files v Hv) level Hlev) as Hl. pose proof (rd_table v Hv level f (at_index level i f Hf)) as Hft.
  split; [intros h Hh%list_elem_of_singleton; subst h; by eapply at_index|]. intros d (g & Hg & Hd) Hvd. apply list_elem_of_lookup_1 in Hg as [j Hj].
  pose proof (visible_file level i j g d Hlev Hi Hj Hd Hvd) as Hij. pose proof (rd_table v Hv level g (at_index level j g Hj)) as Hgt. pose proof (table_elem g d Hgt Hd) as Hokd.
  assert (Hx : exists x, x ∈ table_of f /\ visible x /\ iorder (v_ikey x) (v_ikey d) <= 0).
  { destruct (decide (i = j)) as [->|Hne].
    - rewrite Hf in Hj. injection Hj as <-. exists d. split; [done|]. split; [done|]. destruct (v_ikey_ok d Hokd) as [Hk _]. rewrite (order_refl (ComparatorLaws := internal_laws) _ Hk : iorder _ _ = 0). lia.
    - destruct (ft_largest f Hft) as (x & Hx & Elx). exists x. split; [done|]. pose proof (table_elem f x Hft Hx) as Hokx. destruct (v_ikey_ok x Hokx) as [Hkx Hxx]. destruct (v_ikey_ok d Hokd) as [Hkd Hdx].
      destruct Hi as (_ & _ & Habove). specialize (Habove i f ltac:(lia) Hf). rewrite <- Elx in Habove. pose proof (level_before _ i j f g Hl ltac:(lia) Hf Hj) as Hlt. rewrite <- Elx in Hlt.
      pose proof (level_file _ j g Hl Hj) as (Hgs & _ & _). destruct (ft_bounds g Hgt d Hd) as [Hgd _]. pose proof (iorder_lt_le _ _ _ Hkx Hgs Hkd Hlt Hgd) as Hxd. split; [|lia].
      assert (Hox : order (v_user x) u = 0).
      { destruct search_key_ok as [_ Hsx]. pose proof (user_order_le _ _ (Z.lt_le_incl _ _ Hxd)) as H1. rewrite Hxx, Hdx in H1.
        assert (H2 : 0 <= order (v_user x) u).
        { destruct (Z.le_gt_cases 0 (order (v_user x) u)) as [|Hlt']; [done|]. assert (iorder (v_ikey x) search_key < 0) by (apply internal_order_lt; rewrite Hxx, Hsx; lia). lia. }
        destruct Hokx as [Hx1 _]. destruct Hokd as [Hd1 _]. destruct Hvd as [Hod _]. pose proof (order_trans _ _ _ Hx1 Hd1 Hu). lia. }
      split; [done|]. by apply (visible_search x Hokx Hox). }
  destruct Hx as (x & Hx & Hvx & Hle). exists f. split; [exists [], []; split; [done|]; split; [constructor|by apply (has_newest f x)]|].
  intros e (He & Hve & Hmin). specialize (Hmin x Hx Hvx). pose proof (table_elem f e Hft He) as Hoke. pose proof (table_elem f x Hft Hx) as Hokx.
  destruct (v_ikey_ok e Hoke) as [Hke _]. destruct (v_ikey_ok x Hokx) as [Hkx _]. destruct (v_ikey_ok d Hokd) as [Hkd _]. exact (internal_order_trans _ _ _ Hke Hkx Hkd Hmin Hle).
Qed.

Lemma wp_files_to_search level (t : T) (Q : list FilePtr -> T -> Prop) : 0 <= level -> (forall fl, enough level fl -> Q fl t) ->
  wp (files_to_search (files_at v level) level u search_key) Q (fun _ => False) t.
Proof.
  intros Hlev HQ. unfold files_to_search. destruct (Z.eqb_spec (size (files_at v level)) 0) as [Hz|Hz].
  { apply wp_ret, HQ, enough_none. intros d (g & Hg & _) _. apply size_0 in Hz. rewrite Hz in Hg. by apply not_elem_of_nil in Hg. }
  destruct (Z.eqb_spec level 0) as [->|Hl0]; [apply wp_bind, wp_holding; [apply (rd_files v Hv)|]; apply wp_ret, HQ, enough_level_0|].
  pose proof (vo_level v (rd_files v Hv) level ltac:(lia)) as Hl. apply wp_bind, wp_FindFile; [done|apply search_key_ok|]. intros i Hi. cbv zeta.
  pose proof Hi as (Hi1 & _). pose proof (vo_count v (rd_files v Hv) level) as Hc. change (2 ^ 31) with 2147483648 in Hc. rewrite uwrap_small by (unfold size in Hc; lia).
  destruct (Z.leb_spec (size (files_at v level)) (Z.of_nat i)) as [Hge|Hlt].
  { apply wp_ret, HQ, enough_none. intros d (g & [j Hj]%list_elem_of_lookup_1 & Hd) Hvd. pose proof (visible_file level i j g d ltac:(lia) Hi Hj Hd Hvd). apply lookup_lt_Some in Hj. unfold size in Hge. lia. }
  rewrite Nat2Z.id. destruct (lookup_lt_is_Some_2 (files_at v level) i) as [f Hf]; [unfold size in Hlt; lia|]. rewrite Hf. apply wp_bind, wp_ret.
  pose proof (level_file _ i f Hl Hf) as Hok. destruct (file_users f Hok) as (Hs' & _ & _). apply wp_bind, wp_start; [done|]. rewrite Compare_order by done.
  apply wp_bind, wp_ret, wp_ret. destruct (Z.ltb_spec (order u (f_start f)) 0) as [Hc'|Hc']; [|by apply HQ, (enough_one level i f); [lia|..]].
  apply HQ, enough_none. intros d (g & [j Hj]%list_elem_of_lookup_1 & Hd) Hvd. pose proof (visible_file level i j g d ltac:(lia) Hi Hj Hd Hvd) as Hij.
  pose proof (level_file _ j g Hl Hj) as Hokg. destruct (visible_in_range g d Hokg (rd_table v Hv level g (at_index level j g Hj)) Hd Hvd) as [_ Hgs]. cbn in Hgs.
  destruct (file_users f Hok) as (_ & Hfl & Hfle). destruct (file_users g Hokg) as (Hgs' & _ & _).
  assert (Hfg : order (f_start f) (f_start g) <= 0).
  { destruct (decide (i = j)) as [->|]; [rewrite Hf in Hj; injection Hj as <-; rewrite order_refl by done; lia|]. apply (order_trans _ (f_limit f)); [done..|]. exact (users_before _ i j f g Hl ltac:(lia) Hf Hj). }
  pose proof (order_trans _ _ _ Hs' Hgs' Hu Hfg Hgs). pose proof (order_flip _ _ Hu Hs'). lia.
Qed.

(** ** All levels *)

Definition in_version (levels : list Z) (e : version) : Prop := exists level, level ∈ levels /\ in_level level e.

(** The newest visible entry of some levels. *)
Definition newest_of (levels : list Z) (e : version) : Prop :=
  in_version levels e /\ visible e /\ forall d, in_version levels d -> visible d -> iorder (v_ikey e) (v_ikey d) <= 0.

Definition levels_searched (levels : list Z) (g : GetLocals) (r : option Status) : Prop :=
  match r with
  | None => forall e, in_version levels e -> ~ visible e
  | Some st => exists e, newest_of levels e /\ st = status_of e /\ (pk_type (v_key e) = kTypeValue -> g_value g = v_value e)
  end.

Lemma stops_unique fl f g : stops_at fl f -> stops_at fl g -> f = g.
Proof.
  intros (a & b & -> & Ha & e & He1 & He2 & _) (a' & b' & E & Ha' & e' & He1' & He2' & _). revert a' E Ha'. induction Ha as [|h a Hh Ha IH]; intros [|h' a'] E Ha'; cbn in E; injection E as <- E.
  - done.
  - apply Forall_cons_1 in Ha' as [Hn _]. by destruct (Hn e).
  - by destruct (Hh e').
  - apply Forall_cons_1 in Ha' as [_ Ha']. by apply (IH a').
Qed.

Lemma in_version_cons level levels e : in_version (level :: levels) e <-> in_level level e \/ in_version levels e.
Proof.
  split.
  - intros (l & [->|Hl]%elem_of_cons & He); [by left|]. right. by exists l.
  - intros [He|(l & Hl & He)]; [exists level; split; [apply elem_of_cons; by left|done]|exists l; split; [apply elem_of_cons; by right|done]].
Qed.

(** What is found in a level is newer than all of the levels behind it. *)
Lemma level_first level levels fl f e : 0 <= level -> Forall (fun l => level < l) levels -> enough level fl -> stops_at fl f -> newest_in f e -> newest_of (level :: levels) e.
Proof.
  intros Hlev Hlater [Hin Hen] Hst (He & Hve & Hmin). assert (Hf : f ∈ files_at v level).
  { apply Hin. destruct Hst as (a & b & -> & _). apply elem_of_app. right. apply elem_of_cons. by left. }
  pose proof (table_elem f e (rd_table v Hv level f Hf) He) as Hoke. split; [apply in_version_cons; left; by exists f|]. split; [done|].
  intros d [Hd|(l & Hl & g & Hg & Hd)]%in_version_cons Hvd.
  - destruct (Hen d Hd Hvd) as (f' & Hst' & Hmin'). rewrite (stops_unique _ _ _ Hst' Hst) in Hmin'. by apply Hmin'.
  - rewrite Forall_forall in Hlater. specialize (Hlater l Hl). pose proof (table_elem g d (rd_table v Hv l g Hg) Hd) as Hokd. pose proof (one_user e d Hoke Hokd Hve Hvd) as Ho.
    apply Z.lt_le_incl, newer_first; [done..|]. apply (rd_older v Hv level l f g); try done; [lia|]. by left.
Qed.

Lemma wp_get_in_levels options levels : Forall (fun l => 0 <= l) levels -> StronglySorted Z.lt levels -> forall g t, inv t ->
  wp (get_in_levels options v u search_key levels g) (fun r t' => inv t' /\ levels_searched levels (fst r) (snd r)) (fun _ => False) t.
Proof.
  intros Hpos Hsort. induction Hsort as [|level levels Hsort IH Hlater]; intros g t Ht; cbn [get_in_levels]; [apply wp_ret; split; [done|]; by intros e (l & Hl%not_elem_of_nil & _)|].
  apply Forall_cons_1 in Hpos as [Hlev Hpos]. apply wp_bind, wp_files_to_search; [done|]. intros fl Hen.
  assert (Htab : Forall file_table fl) by (rewrite Forall_forall; intros f Hf; apply (rd_table v Hv level), (proj1 Hen), Hf).
  apply wp_bind. eapply wp_mono; [exact (wp_get_in_files options level fl Htab g t Ht)| |done]. intros [g1 [st|]] t1 [Ht1 Hr]; cbn [fst snd files_searched] in *.
  - apply wp_ret. split; [done|]. cbn [fst snd levels_searched]. destruct Hr as (f & e & Hst & Hnew & H). exists e. split; [by apply (level_first level levels fl f)|done].
  - assert (Hnone : forall d, in_level level d -> ~ visible d).
    { intros d Hd Hvd. destruct (proj2 Hen d Hd Hvd) as (f & (a & b & -> & _ & e & He & Hve & _) & _). rewrite Forall_forall in Hr. apply (Hr f ltac:(rewrite elem_of_app, elem_of_cons; tauto) e He Hve). }
    eapply wp_mono; [exact (IH Hpos g1 t1 Ht1)| |done]. intros [g2 [st|]] t2 [Ht2 H2]; cbn [fst snd levels_searched] in *; (split; [done|]).
    + destruct H2 as (e & (Hin & Hve & Hmin) & H). exists e. split; [|done]. split; [apply in_version_cons; by right|]. split; [done|].
      intros d [Hd|Hd]%in_version_cons Hvd; [by destruct (Hnone d Hd)|by apply Hmin].
    + intros e [He|He]%in_version_cons; [by apply Hnone|by apply H2].
Qed.

Lemma LookupKey_parts : lookup_user_key (new_LookupKey u s) = u /\ internal_key (new_LookupKey u s) = search_key.
Proof.
  unfold lookup_user_key, internal_key, new_LookupKey. cbn [lk_bytes lk_kstart]. rewrite !drop_size_app. split; [|done].
  rewrite size_app, size_EncodeFixed64. replace (size u + 8 - 8) with (size u) by lia. apply take_size_app.
Qed.

Lemma all_levels_ok : Forall (fun l => 0 <= l) all_levels /\ StronglySorted Z.lt all_levels.
Proof. split; vm_compute; repeat constructor; congruence. Qed.

Lemma wp_Version_Get options value t : inv t ->
  wp (Version_Get options v (new_LookupKey u s) value) (fun r t' => inv t' /\ let '(st, value', _) := r in
    (st = NotFound [] [] /\ forall e, in_version all_levels e -> ~ visible e) \/
    exists e, newest_of all_levels e /\ st = status_of e /\ (pk_type (v_key e) = kTypeValue -> value' = v_value e)) (fun _ => False) t.
Proof.
  intros Ht. unfold Version_Get. destruct LookupKey_parts as [-> ->]. destruct all_levels_ok as [Hpos Hsort]. apply wp_bind.
  eapply wp_mono; [exact (wp_get_in_levels options all_levels Hpos Hsort _ t Ht)| |done]. intros [g [st|]] t' [Ht' Hr]; cbn [fst snd levels_searched] in Hr; apply wp_ret; (split; [done|]).
  - right. exact Hr.
  - left. split; [done|exact Hr].
Qed.
End Get.

(** C31: reads. Given a version whose files are in order, whose entries of a user key get older from level to
    level (and at level 0 from newer files to older ones), and a table cache that reads
    the files, [Version::Get] for a user key at a sequence number finds the newest
    entry of all files that is not past that number: it returns OK with the value, or not-found for a
    deletion; and not-found if there is none. *)
Theorem version_get {T : Type} {tc : TableCacheOps T} {U : Comparator} {LU : ComparatorLaws U} {tables : Z -> list version} {present : Z -> Z -> Prop} {inv : T -> Prop}
    {tcl : TableCacheLaws tc tables present inv} (options : ReadOptions) (v : Version) (u : Slice) (s : Z) (value : list Z) (t : T) :
  readable (tables := tables) (present := present) v -> key_ok u -> size u + 8 < 2 ^ 64 -> 0 <= s <= kMaxSequenceNumber -> inv t ->
  exists st value' stats t', Version_Get options v (new_LookupKey u s) value t = (Ret (st, value', stats), t') /\ inv t' /\
    ((st = NotFound [] [] /\ forall e, in_version (tables := tables) v all_levels e -> ~ visible u s e) \/
     exists e, newest_of (tables := tables) v u s all_levels e /\ st = status_of e /\ (pk_type (v_key e) = kTypeValue -> value' = v_value e)).
Proof.
  intros Hv Hu Hsz Hs Ht. destruct (wp_Ret _ _ _ (wp_Version_Get (tables := tables) v Hv u s Hu Hsz Hs options value t Ht)) as ([[st value'] stats] & t' & E & H).
  by exists st, value', stats, t'.
Qed.

(** Tables in memory. *)
Section MemoryTables.
Context {U : Comparator} {LU : ComparatorLaws U} (tables : Z -> list version).

Definition memory_tables : TableCacheOps unit := {|
  tc_Get _ n _ k := ret (snd <$> list_find (fun e : entry => 0 <= internal_order (fst e) k) (map version_entry (tables n)), OK)
|}.

Lemma memory_tables_laws : TableCacheLaws memory_tables tables (fun _ _ => True) (fun _ => True).
Proof.
  split. intros options n sz k t _ _ _. eexists _, t. split; [reflexivity|]. split; [done|]. split.
  - intros e He. destruct (list_find _ _) as [[i x]|] eqn:E; [|done]. injection He as ->. apply list_find_Some in E as (Hi & Hge & Hbefore).
    exists i. split; [|done]. split; [by exists e|]. intros j d Hj Hd. specialize (Hbefore j d Hd Hj). change (internal_order (fst d) k < 0). lia.
  - intros i e Hi He _. apply (seeks_pos (C := InternalKeyComparator U) (L := internal_laws)) in Hi. unfold seek_pos in Hi. change (@order (InternalKeyComparator U) internal_laws) with (@internal_order U LU) in Hi.
    destruct (list_find _ _) as [[j x]|] eqn:E; [|done]. injection Hi as ->. apply list_find_Some in E as (Hj & _). rewrite He in Hj. injection Hj as ->. done.
Qed.
End MemoryTables.

Definition get_version (u : string) (seq : Z) (t : ValueType) (v : string) : version := mk_version (mk_parsed (literal u) seq t) (literal v).
Definition get_tables (n : Z) : list version :=
  match n with
  | 3 => [get_version "a" 9 kTypeDeletion ""; get_version "c" 8 kTypeValue "c8"]
  | 2 => [get_version "a" 7 kTypeValue "a7"; get_version "b" 6 kTypeValue "b6"]
  | 1 => [get_version "a" 3 kTypeValue "a3"; get_version "b" 2 kTypeValue "b2"; get_version "d" 1 kTypeValue "d1"]
  | _ => []
  end.
Definition get_file (n : Z) (lo hi : version) : FilePtr := mk_ptr (16 * n) (new_FileMetaData n 100 (v_ikey lo) (v_ikey hi)).
Definition get_file_1 : FilePtr := get_file 1 (get_version "a" 3 kTypeValue "") (get_version "d" 1 kTypeValue "").
Definition get_file_2 : FilePtr := get_file 2 (get_version "a" 7 kTypeValue "") (get_version "b" 6 kTypeValue "").
Definition get_file_3 : FilePtr := get_file 3 (get_version "a" 9 kTypeDeletion "") (get_version "c" 8 kTypeValue "").
Definition get_sample : Version := mk_Version [[get_file_2; get_file_3]; [get_file_1]; []; []; []; []; []] None (-1) minus_one (-1).

Lemma get_sample_file level f : f ∈ files_at get_sample level -> level <= 0 /\ (f = get_file_2 \/ f = get_file_3) \/ level = 1 /\ f = get_file_1.
Proof.
  unfold files_at. destruct (Z.to_nat level) as [|[|[|[|[|[|[|n]]]]]]] eqn:E; cbn [nth files_ get_sample]; try (by intros ?%not_elem_of_nil); [| |destruct n; by intros ?%not_elem_of_nil].
  - intros [->|[->|Hf%not_elem_of_nil]%elem_of_cons]%elem_of_cons; [| |done]; left; (split; [lia|]); [by left|by right].
  - intros [->|Hf%not_elem_of_nil]%elem_of_cons; [|done]. right. split; [lia|done].
Qed.

#[local] Existing Instance BytewiseComparator.

Lemma get_sample_files_ok : version_files_ok (LU := bytewise_laws) get_sample.
Proof.
  eapply version_files_ok_levels; [reflexivity|..]; repeat (constructor; cbn [map]); try (vm_compute; congruence); vm_compute; repeat constructor; congruence.
Qed.

Lemma get_sample_versions n : n = 1 \/ n = 2 \/ n = 3 -> versions (LU := bytewise_laws) (get_tables n).
Proof. intros [->|[->| ->]]; (split; [repeat constructor; vm_compute; congruence|]); repeat (constructor; cbn [map]); vm_compute; (congruence || reflexivity || (repeat constructor; congruence)). Qed.

(** Every entry of a concrete table. *)
Ltac each_entry H := repeat (apply elem_of_cons in H as [->|H]); [..|by apply not_elem_of_nil in H].

Lemma get_sample_table f : f = get_file_1 \/ f = get_file_2 \/ f = get_file_3 -> file_table (LU := bytewise_laws) (tables := get_tables) (present := fun _ _ => True) f.
Proof.
  intros Hf. split; [done|apply get_sample_versions; destruct Hf as [->|[->| ->]]; cbn; tauto|..].
  - intros e He. destruct Hf as [->|[->| ->]]; cbn in He; each_entry He; vm_compute; split; congruence.
  - destruct Hf as [->|[->| ->]].
    + exists (get_version "d" 1 kTypeValue "d1"). split; [|done]. unfold table_of. cbn. rewrite !elem_of_cons. tauto.
    + exists (get_version "b" 6 kTypeValue "b6"). split; [|done]. unfold table_of. cbn. rewrite !elem_of_cons. tauto.
    + exists (get_version "c" 8 kTypeValue "c8"). split; [|done]. unfold table_of. cbn. rewrite !elem_of_cons. tauto.
Qed.

Lemma get_sample_readable : readable (LU := bytewise_laws) (tables := get_tables) (present := fun _ _ => True) get_sample.
Proof.
  split.
  - exact get_sample_files_ok.
  - intros level f Hf. apply get_sample_table. apply get_sample_file in Hf. tauto.
  - vm_compute. repeat constructor; rewrite ?elem_of_cons, ?elem_of_nil; intuition congruence.
  - intros a b f g d e Ha Hb [[Ha' Hf]|[-> ->]]%get_sample_file [[Hb' Hg]|[-> ->]]%get_sample_file Habove Hd He Ho; unfold above in Habove; try lia.
    + destruct Hf as [-> | ->], Hg as [-> | ->]; cbn in Habove; try lia. cbn in Hd, He. each_entry Hd; each_entry He; vm_compute in Ho |- *; (reflexivity || discriminate).
    + destruct Hf as [-> | ->]; cbn in Hd, He; each_entry Hd; each_entry He; vm_compute in Ho |- *; (reflexivity || discriminate).
Qed.

Lemma version_get_witness :
  exists st value stats t', Version_Get (table_cache := memory_tables (LU := bytewise_laws) get_tables) default_ReadOptions get_sample (new_LookupKey (literal "a") 8) [] tt = (Ret (st, value, stats), t') /\
    (exists e, newest_of (LU := bytewise_laws) (tables := get_tables) get_sample (literal "a") 8 all_levels e /\ st = status_of e /\ (pk_type (v_key e) = kTypeValue -> value = v_value e)) /\
    st = OK /\ value = literal "a7".
Proof.
  destruct (version_get (tcl := memory_tables_laws (LU := bytewise_laws) get_tables) default_ReadOptions get_sample (literal "a") 8 [] tt) as (st & value & stats & t' & E & _ & H).
  - exact get_sample_readable.
  - repeat constructor; vm_compute; congruence.
  - done.
  - done.
  - done.
  - exists st, value, stats, t'. split; [exact E|]. vm_compute in E. injection E as <- <- <- <-. destruct H as [[H _]|H]; [discriminate H|]. split; [exact H|done].
Defined.
