(* ===== verification/LdbVersionIter.v ===== *)
(** [db/version_set.cc]: the iterators over a version: the files of a level one after the
    other, and the children that together have all entries. *)

From Stdlib Require Import ZArith Lia List String Bool SpecFloat.
From stdpp Require Import base gmap list sorting.
From S2P Require Import Prelude Base128 LdbBase LdbText LdbCoding LdbKeys LdbKeyProps LdbBlock LdbBlockBuild LdbIterator LdbTwoLevelProps LdbMerger LdbMergerTheorems LdbDbIter LdbDbIterProps LdbDbIterTheorems LdbFormat LdbVersionEdit LdbVersion LdbVersionOverlap LdbVersionGet.

(** ** An iterator of one class or another *)

Section Either.
Context {A B : Type} {aops : IteratorOps A} {bops : IteratorOps B}.

(** A virtual call. *)
Definition on_either {R} (a : M A R) (b : M B R) : M (A + B) R := fun t =>
  match t with
  | inl it => let '(r, it') := a it in (r, inl it')
  | inr it => let '(r, it') := b it in (r, inr it')
  end.

Definition either_ops : IteratorOps (A + B) := {|
  it_Valid t := match t with inl it => it_Valid it | inr it => it_Valid it end;
  it_SeekToFirst := on_either it_SeekToFirst it_SeekToFirst;
  it_SeekToLast := on_either it_SeekToLast it_SeekToLast;
  it_Seek target := on_either (it_Seek target) (it_Seek target);
  it_Next := on_either it_Next it_Next;
  it_Prev := on_either it_Prev it_Prev;
  it_key := on_either it_key it_key;
  it_value := on_either it_value it_value;
  it_status t := match t with inl it => it_status it | inr it => it_status it end
|}.

Context {C : Comparator} {L : ComparatorLaws C} {astands : list entry -> A -> option nat -> Prop} {alaws : IteratorLaws A astands}
  {bstands : list entry -> B -> option nat -> Prop} {blaws : IteratorLaws B bstands}.

Definition either_stands (l : list entry) (t : A + B) (p : option nat) : Prop := match t with inl it => astands l it p | inr it => bstands l it p end.

Lemma either_move (a : M A unit) (b : M B unit) l t (Q : option nat -> Prop) :
  (forall it, t = inl it -> exists it' p, a it = (Ret tt, it') /\ astands l it' p /\ Q p) ->
  (forall it, t = inr it -> exists it' p, b it = (Ret tt, it') /\ bstands l it' p /\ Q p) ->
  exists t' p, on_either a b t = (Ret tt, t') /\ either_stands l t' p /\ Q p.
Proof.
  destruct t as [it|it]; intros Ha Hb; [destruct (Ha it eq_refl) as (it' & p & E & H)|destruct (Hb it eq_refl) as (it' & p & E & H)];
    eexists _, p; (split; [unfold on_either; rewrite E; reflexivity|exact H]).
Qed.

Lemma either_to (a : M A unit) (b : M B unit) l t p :
  (forall it, t = inl it -> exists it', a it = (Ret tt, it') /\ astands l it' p) -> (forall it, t = inr it -> exists it', b it = (Ret tt, it') /\ bstands l it' p) ->
  exists t', on_either a b t = (Ret tt, t') /\ either_stands l t' p.
Proof.
  intros Ha Hb. destruct (either_move a b l t (fun q => q = p)) as (t' & q & E & H & ->); [..|by exists t'].
  - intros it Hit. destruct (Ha it Hit) as (it' & E & H). by exists it', p.
  - intros it Hit. destruct (Hb it Hit) as (it' & E & H). by exists it', p.
Qed.

Lemma either_laws : IteratorLaws (ops := either_ops) (A + B) either_stands.
Proof.
  split.
  - intros l [it|it] i Hs; exact (stands_bound _ it i Hs).
  - intros l [it|it] p Hs; exact (stands_Valid _ it p Hs).
  - intros l [it|it] p Hs; exact (stands_status _ it p Hs).
  - intros l [it|it] i e Hs He; unfold it_key, either_ops, on_either; by rewrite (stands_key _ it i e Hs He).
  - intros l [it|it] i e Hs He; unfold it_value, either_ops, on_either; by rewrite (stands_value _ it i e Hs He).
  - intros l t p Hl Hs. apply either_to; intros it ->; by apply (stands_First l it p).
  - intros l t p Hl Hs. apply either_to; intros it ->; by apply (stands_Last l it p).
  - intros l t i Hl Hs. apply either_to; intros it ->; by apply (stands_Next l it i).
  - intros l t i Hl Hs. apply either_to; intros it ->; by apply (stands_Prev l it i).
  - intros l t p target Hl Hs Ht. apply either_move; intros it ->; by apply (stands_Seek l it p target).
Qed.
End Either.

(** Iterators that stand in one of several ways. *)
Lemma union_laws {I X : Type} {ops : IteratorOps I} {C : Comparator} {L : ComparatorLaws C} (P : X -> Prop) (st : X -> list entry -> I -> option nat -> Prop) :
  (forall x, P x -> IteratorLaws I (st x)) -> IteratorLaws I (fun l it p => exists x, P x /\ st x l it p).
Proof.
  intros H. split.
  - intros l it i (x & Hx & Hs). exact (stands_bound (IteratorLaws := H x Hx) l it i Hs).
  - intros l it p (x & Hx & Hs). exact (stands_Valid (IteratorLaws := H x Hx) l it p Hs).
  - intros l it p (x & Hx & Hs). exact (stands_status (IteratorLaws := H x Hx) l it p Hs).
  - intros l it i e (x & Hx & Hs). exact (stands_key (IteratorLaws := H x Hx) l it i e Hs).
  - intros l it i e (x & Hx & Hs). exact (stands_value (IteratorLaws := H x Hx) l it i e Hs).
  - intros l it p Hl (x & Hx & Hs). destruct (stands_First (IteratorLaws := H x Hx) l it p Hl Hs) as (it' & E & Hs'). exists it'. split; [done|]. by exists x.
  - intros l it p Hl (x & Hx & Hs). destruct (stands_Last (IteratorLaws := H x Hx) l it p Hl Hs) as (it' & E & Hs'). exists it'. split; [done|]. by exists x.
  - intros l it i Hl (x & Hx & Hs). destruct (stands_Next (IteratorLaws := H x Hx) l it i Hl Hs) as (it' & E & Hs'). exists it'. split; [done|]. by exists x.
  - intros l it i Hl (x & Hx & Hs). destruct (stands_Prev (IteratorLaws := H x Hx) l it i Hl Hs) as (it' & E & Hs'). exists it'. split; [done|]. by exists x.
  - intros l it p target Hl (x & Hx & Hs) Ht. destruct (stands_Seek (IteratorLaws := H x Hx) l it p target Hl Hs Ht) as (it' & p' & E & Hs' & Hp).
    exists it', p'. split; [done|]. split; [by exists x|done].
Qed.

(** ** [LevelFileNumIterator] *)

Section FileNumbers.
Context {U : Comparator} {LU : ComparatorLaws U}.

Definition file_entry (f : FilePtr) : entry := (f_largest f, EncodeFixed64 (f_number f) ++ EncodeFixed64 (f_size f)).

Definition lfni_stands (l : list entry) (it : LevelFileNumIterator) (p : option nat) : Prop :=
  l = map file_entry (flist_ it) /\ level_ok (flist_ it) /\
  match p with
  | Some i => lindex_ it = Z.of_nat i /\ (i < List.length (flist_ it))%nat
  | None => lindex_ it = size (flist_ it)
  end.

Lemma lfni_size l it p : lfni_stands l it p -> size (flist_ it) < 4294967296.
Proof. intros (_ & (_ & _ & H) & _). change (2 ^ 31) with 2147483648 in H. lia. Qed.

(** Where an index stands. *)
Lemma lfni_at files i : level_ok files -> (i <= List.length files)%nat ->
  lfni_stands (map file_entry files) (mk_lfni files (Z.of_nat i)) (if (i <? List.length files)%nat then Some i else None).
Proof. intros Hf Hi. split; [done|]. split; [done|]. destruct (Nat.ltb_spec i (List.length files)); [done|]. cbn. unfold size. lia. Qed.

Lemma lfni_file_ok l it i : lfni_stands l it (Some i) -> exists f, flist_ it !! i = Some f /\ lfni_file it = (Ret f, it) /\ l !! i = Some (file_entry f).
Proof.
  intros (-> & _ & Hi & Hlt). destruct (lookup_lt_is_Some_2 _ _ Hlt) as [f Hf]. exists f. split; [done|]. unfold lfni_file. rewrite bind_get, Hi, Nat2Z.id, Hf.
  split; [done|]. by rewrite list_lookup_fmap, Hf.
Qed.

Lemma lfni_laws : IteratorLaws (ops := lfni_ops) (C := InternalKeyComparator U) (L := internal_laws) LevelFileNumIterator lfni_stands.
Proof.
  split.
  - intros l it i (-> & _ & _ & Hi). by rewrite length_map.
  - intros l it p (-> & _ & Hp). cbn. unfold lfni_Valid. destruct p as [i|]; [destruct Hp as [-> Hi]; apply Z.ltb_lt; unfold size; lia|rewrite Hp; apply Z.ltb_irrefl].
  - done.
  - intros l it i e Hs He. destruct (lfni_file_ok l it i Hs) as (f & Hi & E & Hf). destruct Hs as (_ & Hl & _). pose proof (level_file _ i f Hl Hi) as (_ & Hk & _). cbn. unfold lfni_key. erewrite bind_Ret by exact E. rewrite key_Encode_ok by done. rewrite Hf in He. by injection He as <-.
  - intros l it i e Hs He. destruct (lfni_file_ok l it i Hs) as (f & _ & E & Hf). cbn. unfold lfni_value. erewrite bind_Ret by exact E. rewrite Hf in He. by injection He as <-.
  - intros l it p _ (-> & Hf & _). eexists. split; [reflexivity|]. unfold first_pos. rewrite length_map. by apply (lfni_at _ 0); [|lia].
  - intros l it p _ Hs. pose proof (lfni_size l it p Hs) as Hsz. destruct Hs as (-> & Hf & _). eexists. split; [reflexivity|]. unfold last_pos. rewrite length_map. pose proof (size_nonneg (flist_ it)).
    destruct (List.length (flist_ it)) as [|n] eqn:En; unfold size in *; rewrite En in *; cbn [Z.eqb Z.of_nat].
    + split; [done|]. split; [done|]. cbn. unfold size. by rewrite En.
    + destruct (Z.eqb_spec (Z.of_nat (S n)) 0); [lia|]. rewrite uwrap_small by lia. replace (Z.of_nat (S n) - 1) with (Z.of_nat n) by lia. split; [done|]. split; [done|]. cbn. lia.
  - intros l it i _ Hs. pose proof (lfni_size l it _ Hs) as Hsz. destruct Hs as (-> & Hf & Hi & Hlt). eexists. split; [reflexivity|]. rewrite Hi. unfold size in Hsz. rewrite uwrap_small by lia.
    replace (Z.of_nat i + 1) with (Z.of_nat (S i)) by lia. unfold next_pos. rewrite length_map. by apply lfni_at; [|lia].
  - intros l it i _ Hs. pose proof (lfni_size l it _ Hs) as Hsz. destruct Hs as (-> & Hf & Hi & Hlt). eexists. split; [reflexivity|]. rewrite Hi. pose proof (size_nonneg (flist_ it)).
    destruct i as [|i]; [rewrite uwrap_small by lia; by split|]. destruct (Z.eqb_spec (Z.of_nat (S i)) 0); [lia|]. replace (Z.of_nat (S i) - 1) with (Z.of_nat i) by lia. split; [done|]. split; [done|]. cbn. lia.
  - intros l it p target _ Hs Ht. pose proof (lfni_size l it p Hs) as Hsz. destruct Hs as (-> & Hf & _). cbn [it_Seek lfni_ops].
    destruct (wp_Ret (FindFile (flist_ it) target) it (fun r t => t = it /\ exists i, r = Z.of_nat i /\ first_file (flist_ it) target i)) as (r & t & E & -> & i & -> & Hi & Hbelow & Habove).
    { apply wp_FindFile; [done..|]. intros i Hi. split; [done|]. by exists i. }
    eexists _, _. split; [unfold lfni_Seek; rewrite bind_get; erewrite bind_Ret by exact E; unfold size in Hsz; rewrite uwrap_small by lia; reflexivity|].
    split; [by apply lfni_at|]. destruct (Nat.ltb_spec i (List.length (flist_ it))) as [Hlt|Hge].
    + destruct (lookup_lt_is_Some_2 _ _ Hlt) as [f Hfi]. split; [exists (file_entry f); split; [by rewrite list_lookup_fmap, Hfi|by apply (Habove i)]|].
      intros j e Hj He. rewrite list_lookup_fmap in He. destruct (flist_ it !! j) as [g|] eqn:Hg; [|done]. injection He as <-. by apply (Hbelow j).
    + intros j e He. rewrite list_lookup_fmap in He. destruct (flist_ it !! j) as [g|] eqn:Hg; [|done]. injection He as <-. apply (Hbelow j); [|done]. apply lookup_lt_Some in Hg. lia.
Qed.
End FileNumbers.

(** ** The iterators over a version's files *)

(** The table cache, as an iterator uses it. *)
Class TableIterators (D : Type) := { tc_NewIterator : ReadOptions -> Z -> Z -> option D }.

Section VersionIterators.
Context {D : Type} {dops : IteratorOps D} {TI : TableIterators D} {U : Comparator}.

(** An error, or the iterator over a table. *)
Abbreviation file_iterator := (EmptyIter + D)%type.
#[local] Instance file_ops : IteratorOps file_iterator := either_ops.

Definition GetFileIterator (options : ReadOptions) (file_value : Slice) : option file_iterator :=
  if negb (size file_value =? 16) then Some (inl (NewErrorIterator (Corruption (literal "FileReader invoked with unexpected value") [])))
  else
    n ← DecodeFixed64 file_value;
    sz ← DecodeFixed64 (drop 8 file_value);
    inr <$> tc_NewIterator options n sz.

Definition concatenating : Type := TwoLevelIterator LevelFileNumIterator file_iterator.
Definition concatenating_ops (options : ReadOptions) : IteratorOps concatenating := two_level_ops (GetFileIterator options).

Definition NewConcatenatingIterator (v : Version) (level : Z) : option concatenating :=
  NewTwoLevelIterator (new_LevelFileNumIterator (files_at v level)).

(** A child: a table, or the files of a level. *)
Abbreviation child := (D + concatenating)%type.

Fixpoint level_iterators (v : Version) (levels : list Z) : option (list child) :=
  match levels with
  | [] => Some []
  | level :: levels' =>
      if size (files_at v level) =? 0 then level_iterators v levels'
      else
        it ← NewConcatenatingIterator v level;
        its ← level_iterators v levels';
        Some (inr it :: its)
  end.

Definition table_iterators (options : ReadOptions) (files : list FilePtr) : option (list D) :=
  mapM (fun f => tc_NewIterator options (f_number f) (f_size f)) files.

(** What is pushed on [*iters]. *)
Definition AddIterators (options : ReadOptions) (v : Version) : option (list child) :=
  tables ← table_iterators options (files_at v 0);
  levels ← level_iterators v (drop 1 all_levels);
  Some (map inl tables ++ levels).

(** ** They have the entries of the version *)

Context {LU : ComparatorLaws U} {dstands : list entry -> D -> option nat -> Prop} {dlaws : IteratorLaws (C := InternalKeyComparator U) (L := internal_laws) D dstands}.
Context (tables : Z -> list version) (present : Z -> Z -> Prop).

(** What a version relies on: the cache opens a file that is there. *)
Definition opens_tables : Prop := forall options n sz, present n sz ->
  exists d p, tc_NewIterator options n sz = Some d /\ dstands (map version_entry (tables n)) d p.

Context (Hopen : opens_tables) (v : Version) (Hv : readable (tables := tables) (present := present) v).

(** The numbers fit their fields. *)
Definition file_fits (f : FilePtr) : Prop := 0 <= f_number f < 2 ^ 64 /\ 0 <= f_size f < 2 ^ 64.
Context (Hfit : forall level f, f ∈ files_at v level -> file_fits f).

Definition file_contents (file_value : Slice) : list entry :=
  match DecodeFixed64 file_value with Some n => map version_entry (tables n) | None => [] end.

Lemma file_contents_of f : file_fits f -> file_contents (snd (file_entry f)) = map version_entry (table_of (tables := tables) f).
Proof. intros [Hn _]. unfold file_contents, file_entry. cbn [snd]. by rewrite DecodeFixed64_of. Qed.

Definition file_stands : list entry -> file_iterator -> option nat -> Prop := either_stands (astands := fun _ _ _ => False) (bstands := dstands).

Lemma file_laws : IteratorLaws (ops := file_ops) (C := InternalKeyComparator U) (L := internal_laws) file_iterator file_stands.
Proof. refine (either_laws (blaws := dlaws)). split; done. Qed.

Lemma GetFileIterator_ok options f : file_fits f -> present (f_number f) (f_size f) ->
  exists it p, GetFileIterator options (snd (file_entry f)) = Some it /\ file_stands (file_contents (snd (file_entry f))) it p.
Proof.
  intros Hf Hp. destruct (Hopen options _ _ Hp) as (d & p & E & Hd). exists (inr d), p. rewrite file_contents_of by done. split; [|exact Hd].
  destruct Hf as [Hn Hz]. unfold GetFileIterator, file_entry. cbn [snd]. rewrite size_app, !size_EncodeFixed64. cbn [Z.add Z.eqb negb Pos.eqb Pos.add Pos.succ].
  rewrite DecodeFixed64_of by done. cbn [mbind option_bind]. rewrite <- (app_nil_r (EncodeFixed64 (f_size f))), drop_app_length' by done.
  rewrite DecodeFixed64_of by done. cbn [mbind option_bind]. by rewrite E.
Qed.

Section Level.
Context (options : ReadOptions) (level : Z) (Hlevel : 0 < level).

Abbreviation files := (files_at v level).
Abbreviation ifile := (map file_entry files).

Lemma level_index : two_level_index (C := InternalKeyComparator U) (L := internal_laws) (dstands := file_stands) (GetFileIterator options) ifile file_contents.
Proof.
  pose proof (vo_level v (rd_files v Hv) level Hlevel) as Hl. assert (Hlook : forall i e, ifile !! i = Some e -> exists f, files !! i = Some f /\ e = file_entry f).
  { intros i e He. rewrite list_lookup_fmap in He. destruct (files !! i) as [f|]; [|done]. injection He as <-. by exists f. }
  assert (Hof : forall f, f ∈ files -> file_table (tables := tables) (present := present) f /\ file_fits f) by (intros f Hf; split; [by apply (rd_table v Hv level)|by apply (Hfit level)]).
  assert (Hin : forall f kv, f ∈ files -> kv ∈ file_contents (snd (file_entry f)) -> exists e, e ∈ table_of (tables := tables) f /\ kv = version_entry e).
  { intros f kv Hf. destruct (Hof f Hf) as [_ Hff]. rewrite file_contents_of by done. intros (e & -> & He)%list_elem_of_fmap. by exists e. }
  split.
  - split.
    + rewrite Forall_map, Forall_lookup. intros i e He. apply Hlook in He as (f & Hf & ->). apply (level_file files i f Hl Hf).
    + apply StronglySorted_lookup. intros i j x y Hij Hx Hy. rewrite list_lookup_fmap in Hx, Hy. destruct (ifile !! i) as [a|] eqn:Ha; [|done]. destruct (ifile !! j) as [b|] eqn:Hb; [|done].
      injection Hx as <-. injection Hy as <-. apply Hlook in Ha as (f & Hf & ->). apply Hlook in Hb as (g & Hg & ->). pose proof (level_file files j g Hl Hg) as (Hgs & Hgl & Hle & _).
      apply (iorder_lt_le _ (f_smallest g)); [by apply (level_file files i f Hl Hf)|done|done|by apply (level_before files i j f g Hl)|done].
  - destruct Hl as (_ & _ & Hsz). unfold size in Hsz. rewrite length_map. change (2 ^ 31) with 2147483648 in Hsz. change (2 ^ 64) with 18446744073709551616. lia.
  - intros e [i He]%list_elem_of_lookup_1. apply Hlook in He as (f & Hf%list_elem_of_lookup_2 & ->). destruct (Hof f Hf) as [Hft Hff]. split.
    + rewrite file_contents_of by done. apply (ft_versions f Hft).
    + apply GetFileIterator_ok; [done|apply (ft_present f Hft)].
  - intros e kv [i He]%list_elem_of_lookup_1 Hkv. apply Hlook in He as (f & Hf%list_elem_of_lookup_2 & ->). destruct (Hin f kv Hf Hkv) as (d & Hd & ->). destruct (Hof f Hf) as [Hft _].
    apply (ft_bounds f Hft d Hd).
  - intros i j e e' kv Hij He He' Hkv. apply Hlook in He as (f & Hf & ->). apply Hlook in He' as (g & Hg & ->). pose proof (list_elem_of_lookup_2 _ _ _ Hg) as Hgin. destruct (Hin g kv Hgin Hkv) as (d & Hd & ->). destruct (Hof g Hgin) as [Hgt _].
    pose proof (level_file files j g Hl Hg) as (Hgs & _). pose proof (ft_versions g Hgt) as [Hvs _]. rewrite Forall_forall in Hvs. destruct (v_ikey_ok d (Hvs d Hd)) as [Hkd _].
    apply (iorder_lt_le _ (f_smallest g)); [by apply (level_file files i f Hl Hf)|done|done|by apply (level_before files i j f g Hl)|apply (ft_bounds g Hgt d Hd)].
Qed.

Definition level_stands : list entry -> concatenating -> option nat -> Prop :=
  two_stands (istands := lfni_stands) (dstands := file_stands) ifile file_contents.

Lemma level_laws : IteratorLaws (ops := concatenating_ops options) (C := InternalKeyComparator U) (L := internal_laws) concatenating level_stands.
Proof. exact (two_level_laws (ilaws := lfni_laws) (dlaws := file_laws) _ _ _ level_index). Qed.

(** The entries of the level. *)
Definition level_entries : list version := concat (map (table_of (tables := tables)) files).

Lemma level_blocks : concat (blocks ifile file_contents) = map version_entry level_entries.
Proof.
  unfold blocks, level_entries. assert (Hf : Forall file_fits files) by (rewrite Forall_forall; apply Hfit). induction Hf as [|f fs Hf _ IH]; [done|]. cbn [map concat].
  by rewrite map_app, file_contents_of, IH.
Qed.

Lemma NewConcatenatingIterator_ok : exists it p, NewConcatenatingIterator v level = Some it /\ level_stands (map version_entry level_entries) it p.
Proof.
  pose proof (vo_level v (rd_files v Hv) level Hlevel) as Hl. pose proof Hl as (_ & _ & Hsz). change (2 ^ 31) with 2147483648 in Hsz. pose proof (size_nonneg files).
  assert (Hs : lfni_stands ifile (new_LevelFileNumIterator files) None) by (split; [done|]; split; [done|]; cbn; rewrite uwrap_small by lia; done).
  unfold NewConcatenatingIterator, NewTwoLevelIterator. destruct (wrapper_Set_ok (laws := lfni_laws) _ null_wrapper _ None Hs) as (w & E & Hw).
  rewrite E. eexists _, None. split; [reflexivity|]. split; [by rewrite level_blocks|]. split; [done|]. split; [by exists None|done].
Qed.
End Level.

(** ** All children *)

Definition child_ops (options : ReadOptions) : IteratorOps child := either_ops (bops := concatenating_ops options).
Definition child_stands : list entry -> child -> option nat -> Prop :=
  either_stands (astands := dstands) (bstands := fun l it p => exists level, 0 < level /\ level_stands level l it p).

Lemma child_laws options : IteratorLaws (ops := child_ops options) (C := InternalKeyComparator U) (L := internal_laws) child child_stands.
Proof. refine (either_laws (alaws := dlaws) (blaws := union_laws (fun level => 0 < level) level_stands _)). intros level Hl. by apply level_laws. Qed.

Fixpoint level_lists (levels : list Z) : list (list entry) :=
  match levels with
  | [] => []
  | level :: levels' => if size (files_at v level) =? 0 then level_lists levels' else map version_entry (level_entries level) :: level_lists levels'
  end.
Definition version_lists : list (list entry) := map (fun f => map version_entry (table_of (tables := tables) f)) (files_at v 0) ++ level_lists (drop 1 all_levels).

(** All entries of the version. *)
Definition version_entries : list version := concat (map level_entries all_levels).

Lemma level_entries_0 level : size (files_at v level) = 0 -> level_entries level = [].
Proof. intros H%size_0. unfold level_entries. by rewrite H. Qed.

Lemma version_lists_concat : concat version_lists = map version_entry version_entries.
Proof.
  unfold version_lists, version_entries. assert (E : all_levels = 0 :: drop 1 all_levels) by reflexivity. rewrite E at 2.
  generalize (drop 1 all_levels) as rest. intros rest. cbn [map concat]. rewrite concat_app, map_app. f_equal.
  - unfold level_entries. induction (files_at v 0) as [|f fs IH]; [done|]. cbn [map concat]. by rewrite map_app, IH.
  - induction rest as [|level levels IH]; [done|]. cbn [level_lists map concat]. rewrite map_app. destruct (Z.eqb_spec (size (files_at v level)) 0) as [Hz|_].
    + by rewrite level_entries_0.
    + cbn [concat]. by rewrite IH.
Qed.

Lemma AddIterators_ok options : exists children, AddIterators options v = Some children /\
  Forall2 (fun li c => exists p, child_stands li c p) version_lists children.
Proof.
  assert (Htab : forall fs, Forall (fun f => present (f_number f) (f_size f)) fs -> exists ds, table_iterators options fs = Some ds /\
    Forall2 (fun li c => exists p, child_stands li c p) (map (fun f => map version_entry (table_of (tables := tables) f)) fs) (map inl ds)).
  { induction 1 as [|f fs Hf _ (ds & E & H)]; [exists []; split; [done|constructor]|]. destruct (Hopen options _ _ Hf) as (d & p & Ed & Hd). exists (d :: ds).
    unfold table_iterators in *. cbn [mapM]. rewrite Ed. cbn [mbind option_bind]. rewrite E. split; [done|]. constructor; [by exists p|done]. }
  assert (Hlev : forall levels, Forall (fun level => 0 < level) levels -> exists its, level_iterators v levels = Some its /\ Forall2 (fun li c => exists p, child_stands li c p) (level_lists levels) its).
  { induction 1 as [|level levels Hl _ (its & E & H)]; [exists []; split; [done|constructor]|]. cbn [level_iterators level_lists]. destruct (size (files_at v level) =? 0); [by exists its|].
    destruct (NewConcatenatingIterator_ok level Hl) as (it & p & Ei & Hi). rewrite Ei. cbn [mbind option_bind]. rewrite E. exists (inr it :: its). split; [done|]. constructor; [|done]. exists p, level. done. }
  destruct (Htab (files_at v 0)) as (ds & Ed & Hd). { rewrite Forall_forall. intros f Hf. exact (ft_present f (rd_table v Hv 0 f Hf)). }
  destruct (Hlev (drop 1 all_levels)) as (its & Ei & Hi); [vm_compute; repeat constructor; congruence|].
  exists (map inl ds ++ its). unfold AddIterators. rewrite Ed. cbn [mbind option_bind]. rewrite Ei. split; [done|]. by apply Forall2_app.
Qed.

(** *** Each child is over a source *)

Lemma version_source_elem f e : file_table (tables := tables) (present := present) f -> e ∈ table_of (tables := tables) f -> internal_ok (v_ikey e).
Proof. intros Hf He. apply (v_ikey_ok e), (table_elem f e Hf He). Qed.

Lemma files_source fs : level_ok fs -> Forall (file_table (tables := tables) (present := present)) fs ->
  source (C := InternalKeyComparator U) (L := internal_laws) (map version_entry (concat (map (table_of (tables := tables)) fs))).
Proof.
  intros (Hok & Hsort & _) Htab. induction Htab as [|f fs Hf Htab IH]; [split; constructor|]. cbn [map concat]. rewrite map_app.
  apply Forall_cons_1 in Hok as [Hokf Hok]. apply StronglySorted_inv in Hsort as [Hsort Hlater]. apply source_app. split; [apply (ft_versions f Hf)|]. split; [by apply IH|].
  intros x y (a & -> & Ha)%list_elem_of_fmap (b & -> & Hb)%list_elem_of_fmap. apply list_elem_of_In, in_concat in Hb as (t & Ht & Hb). apply list_elem_of_In, list_elem_of_fmap in Ht as (g & -> & Hg). apply list_elem_of_In in Hb.
  rewrite Forall_forall in Hok, Htab, Hlater. pose proof (Hok g Hg) as (Hgs & _). pose proof Hokf as (_ & Hfl & _). pose proof (version_source_elem f a Hf Ha) as Hka. pose proof (version_source_elem g b (Htab g Hg) Hb) as Hkb.
  destruct (ft_bounds f Hf a Ha) as [_ Hle]. destruct (ft_bounds g (Htab g Hg) b Hb) as [Hle' _].
  apply (iorder_le_lt _ (f_largest f)); [done..|]. apply (iorder_lt_le _ (f_smallest g)); [done..|by apply Hlater|done].
Qed.

Lemma version_lists_sources : Forall (source (C := InternalKeyComparator U) (L := internal_laws)) version_lists.
Proof.
  unfold version_lists. apply Forall_app. split.
  - rewrite Forall_map, Forall_forall. intros f Hf. apply (ft_versions f (rd_table v Hv 0 f Hf)).
  - assert (Hpos : Forall (fun level => 0 < level) (drop 1 all_levels)) by (vm_compute; repeat constructor; congruence).
    induction Hpos as [|level levels Hl _ IH]; [constructor|]. cbn [level_lists]. destruct (size (files_at v level) =? 0); [done|]. constructor; [|done].
    apply files_source; [by apply (vo_level v (rd_files v Hv))|]. rewrite Forall_forall. intros f Hf. by apply (rd_table v Hv level).
Qed.
End VersionIterators.

(** C32: scans. Given a version that can be read, a table cache that opens its files, and its entries
    [ps] in the order of internal keys: the iterators that [AddIterators] collects, one for every file
    of level 0 and one for the files of every other level, merged by [NewMergingIterator]
    and seen through [NewDBIterator] at a sequence number, cannot be told from a cursor on the newest
    visible values of the version, in any sequence of calls and directions. *)
Theorem version_scan {D : Type} {dops : IteratorOps D} {TI : TableIterators D} {U : Comparator} {LU : ComparatorLaws U} {dstands : list entry -> D -> option nat -> Prop}
    {dlaws : IteratorLaws (C := InternalKeyComparator U) (L := internal_laws) D dstands} (tables : Z -> list version) (present : Z -> Z -> Prop)
    (options : ReadOptions) (v : Version) (ps : list version) (s seed : Z) :
  opens_tables (dstands := dstands) tables present -> readable (tables := tables) (present := present) v -> (forall level f, f ∈ files_at v level -> file_fits f) ->
  versions ps -> ps ≡ₚ version_entries tables v -> Z.of_nat (List.length ps) < 2 ^ 64 -> 0 <= s <= kMaxSequenceNumber ->
  let ops := child_ops options in
  exists children it, AddIterators options v = Some children /\ NewMergingIterator children = Some it /\
    follows (ops := db_ops (ops := merged_ops (C := InternalKeyComparator U))) (C := U) (L := sized_laws LU) (view s ps) (NewDBIterator it s seed).
Proof.
  intros Hopen Hv Hfit Hps Hperm Hcount Hs ops. destruct (AddIterators_ok tables present Hopen v Hv Hfit options) as (children & E & Hch). exists children.
  assert (Hm : merges (C := InternalKeyComparator U) (L := internal_laws) (version_lists tables v) (map version_entry ps)).
  { split; [apply Hps|by apply (version_lists_sources tables present v Hv)|]. rewrite (version_lists_concat tables v), Hperm. done. }
  pose proof (child_laws (dlaws := dlaws) tables present Hopen v Hv Hfit options) as claws.
  destruct (NewMergingIterator_stands (ilaws := claws) _ _ Hm children Hch) as (it & p & Ei & Hst). exists it. split; [done|]. split; [done|].
  pose proof (merged_laws (ilaws := claws) _ _ Hm) as mlaws.
  pose proof (db_laws (ilaws := mlaws) s ps Hps Hcount Hs) as laws.
  apply (stands_follows (laws := laws) _ _ None); [by apply sized_source|by apply (NewDBIterator_stands s ps seed it p)].
Qed.

(** The sample version, its tables as blocks. *)
#[local] Existing Instance BytewiseComparator.
#[local] Instance sample_blocks : IteratorOps BlockIterator := BlockIterator_ops (C := internal_comparator).
#[local] Instance sample_tables : TableIterators BlockIterator := {|
  tc_NewIterator _ n _ := b ← new_Block (block_contents 2 (map version_entry (get_tables n))); NewIterator b
|}.

Lemma get_tables_cases n : n = 1 \/ n = 2 \/ n = 3 \/ get_tables n = [].
Proof. destruct n as [|[[p|p|]|[p|p|]|]|p]; tauto. Qed.

Lemma sample_opens : opens_tables (dstands := block_stands) get_tables (fun _ _ => True).
Proof.
  intros options n sz _. destruct (block_contents_stands (C := internal_comparator) 2 (map version_entry (get_tables n))) as (b & E & H); [lia| |by exists b, None].
  destruct (get_tables_cases n) as [->|[->|[->| ->]]]; vm_compute; reflexivity.
Qed.

Definition sample_scan : list version :=
  [get_version "a" 9 kTypeDeletion ""; get_version "a" 7 kTypeValue "a7"; get_version "a" 3 kTypeValue "a3"; get_version "b" 6 kTypeValue "b6"; get_version "b" 2 kTypeValue "b2";
   get_version "c" 8 kTypeValue "c8"; get_version "d" 1 kTypeValue "d1"].

Lemma version_scan_witness :
  let ops := child_ops (D := BlockIterator) default_ReadOptions in
  exists children it, AddIterators (D := BlockIterator) default_ReadOptions get_sample = Some children /\ NewMergingIterator children = Some it /\
    fst (run_calls (ops := db_ops (ops := merged_ops (C := internal_comparator))) [CallFirst; CallNext; CallNext; CallPrev; CallSeek (literal "d"); CallPrev] (NewDBIterator it 9 1)) =
      Ret [Some (literal "b", literal "b6"); Some (literal "c", literal "c8"); Some (literal "d", literal "d1"); Some (literal "c", literal "c8"); Some (literal "d", literal "d1"); Some (literal "c", literal "c8")].
Proof.
  destruct (version_scan (D := BlockIterator) (dlaws := block_laws (L := internal_laws (L := bytewise_laws))) get_tables (fun _ _ => True) default_ReadOptions get_sample sample_scan 9 1) as (children & it & E & Ei & Hf).
  - exact sample_opens.
  - exact get_sample_readable.
  - intros level f Hf. apply get_sample_file in Hf as [[_ [-> | ->]]|[_ ->]]; vm_compute; intuition congruence.
  - split; [repeat constructor; vm_compute; congruence|]. repeat (constructor; cbn [map]); vm_compute; (congruence || reflexivity || (repeat constructor; congruence)).
  - apply (bool_decide_eq_true_1 (sample_scan ≡ₚ version_entries get_tables get_sample)). vm_compute. reflexivity.
  - done.
  - done.
  - exists children, it. split; [exact E|]. split; [exact Ei|]. apply Hf; [repeat constructor; vm_compute; congruence|vm_compute; reflexivity].
Defined.
