(* ===== verification/LdbVersionSet.v ===== *)
(** [db/version_set.h], [db/version_set.cc]: the class [VersionSet] with its [Builder], and the
    class [Compaction]. What they keep on disk is in [LdbManifest]. *)

From Stdlib Require Import ZArith Lia List String Bool SpecFloat.
From stdpp Require Import base gmap list.
From S2P Require Import Prelude LdbBase LdbText LdbCoding LdbKeys LdbIterator LdbFormat LdbVersionEdit LdbVersion.

(** ** Memory

    The versions that exist with their [refs_], those of the list at [dummy_versions_] in its
    order, and the [refs] and [allowed_seeks] of the files, all by address. An address that
    was freed has no cell; what [new] gives was not given before. *)
Record Heap := mk_heap {
  h_versions : gmap Z (Version * Z);
  h_list : list Z;
  h_refs : gmap Z Z;
  h_allowed_seeks : gmap Z Z;
  h_fresh : Z
}.

Definition set_h_versions (m : gmap Z (Version * Z)) (h : Heap) : Heap := mk_heap m (h_list h) (h_refs h) (h_allowed_seeks h) (h_fresh h).
Definition set_h_list (l : list Z) (h : Heap) : Heap := mk_heap (h_versions h) l (h_refs h) (h_allowed_seeks h) (h_fresh h).
Definition set_h_refs (m : gmap Z Z) (h : Heap) : Heap := mk_heap (h_versions h) (h_list h) m (h_allowed_seeks h) (h_fresh h).
Definition set_h_allowed_seeks (m : gmap Z Z) (h : Heap) : Heap := mk_heap (h_versions h) (h_list h) (h_refs h) m (h_fresh h).

Definition fresh : M Heap Z := fun h => (Ret (h_fresh h), mk_heap (h_versions h) (h_list h) (h_refs h) (h_allowed_seeks h) (h_fresh h + 1)).

(** [new FileMetaData(meta)] *)
Definition new_file (meta : FileMetaData) : M Heap FilePtr :=
  a <- fresh ;;
  modify (fun h => set_h_refs (<[a := refs meta]> (h_refs h)) (set_h_allowed_seeks (<[a := allowed_seeks meta]> (h_allowed_seeks h)) h)) ;;
  ret (mk_ptr a meta).

(** [f->refs++] *)
Definition file_ref (f : FilePtr) : M Heap unit :=
  h <- get ;;
  n <- or_stuck (h_refs h !! f_address f) ;;
  modify (set_h_refs (<[f_address f := s32 (n + 1)]> (h_refs h))).

(** [f->refs--; if (f->refs <= 0) delete f;] *)
Definition file_unref (f : FilePtr) : M Heap unit :=
  h <- get ;;
  n <- or_stuck (h_refs h !! f_address f) ;;
  let n := s32 (n - 1) in
  if n <=? 0 then modify (fun h => set_h_refs (delete (f_address f) (h_refs h)) (set_h_allowed_seeks (delete (f_address f) (h_allowed_seeks h)) h))
  else modify (set_h_refs (<[f_address f := n]> (h_refs h))).

(** [new Version(this)] *)
Definition alloc_version : M Heap Z :=
  v <- fresh ;; modify (fun h => set_h_versions (<[v := (new_Version, 0)]> (h_versions h)) h) ;; ret v.

Definition version_cell (v : Z) : M Heap (Version * Z) := h <- get ;; or_stuck (h_versions h !! v).
Definition set_version (v : Z) (cell : Version * Z) : M Heap unit := modify (fun h => set_h_versions (<[v := cell]> (h_versions h)) h).

(** [Version::~Version] *)
Definition delete_version (v : Z) : M Heap unit :=
  cell <- version_cell v ;;
  asserted (snd cell =? 0) ;;
  modify (fun h => set_h_list (filter (fun w => w <> v) (h_list h)) h) ;;
  for_each (files_ (fst cell)) (fun files =>
    for_each files (fun f => h <- get ;; n <- or_stuck (h_refs h !! f_address f) ;; asserted (0 <? n) ;; file_unref f)) ;;
  modify (fun h => set_h_versions (delete v (h_versions h)) h).

Definition Version_Ref (v : Z) : M Heap unit := cell <- version_cell v ;; set_version v (fst cell, s32 (snd cell + 1)).
Definition Version_Unref (v : Z) : M Heap unit :=
  cell <- version_cell v ;;
  asserted (1 <=? snd cell) ;;
  let n := s32 (snd cell - 1) in
  set_version v (fst cell, n) ;;
  if n =? 0 then delete_version v else ret tt.

(** ** [VersionSet] *)

(** The members that change, those of the descriptor apart. *)
Record VersionSet := mk_vset {
  vs_next_file_number_ : Z;
  vs_manifest_file_number_ : Z;
  vs_last_sequence_ : Z;
  vs_log_number_ : Z;
  vs_prev_log_number_ : Z;
  current_ : option Z;
  compact_pointer_ : list (list Z);
  vs_heap : Heap
}.

Definition set_next_file_number (n : Z) (s : VersionSet) : VersionSet :=
  mk_vset n (vs_manifest_file_number_ s) (vs_last_sequence_ s) (vs_log_number_ s) (vs_prev_log_number_ s) (current_ s) (compact_pointer_ s) (vs_heap s).
Definition set_manifest_file_number (n : Z) (s : VersionSet) : VersionSet :=
  mk_vset (vs_next_file_number_ s) n (vs_last_sequence_ s) (vs_log_number_ s) (vs_prev_log_number_ s) (current_ s) (compact_pointer_ s) (vs_heap s).
Definition set_last_sequence (n : Z) (s : VersionSet) : VersionSet :=
  mk_vset (vs_next_file_number_ s) (vs_manifest_file_number_ s) n (vs_log_number_ s) (vs_prev_log_number_ s) (current_ s) (compact_pointer_ s) (vs_heap s).
Definition set_log_numbers (log prev : Z) (s : VersionSet) : VersionSet :=
  mk_vset (vs_next_file_number_ s) (vs_manifest_file_number_ s) (vs_last_sequence_ s) log prev (current_ s) (compact_pointer_ s) (vs_heap s).
Definition set_current (v : option Z) (s : VersionSet) : VersionSet :=
  mk_vset (vs_next_file_number_ s) (vs_manifest_file_number_ s) (vs_last_sequence_ s) (vs_log_number_ s) (vs_prev_log_number_ s) v (compact_pointer_ s) (vs_heap s).
Definition set_compact_pointer (p : list (list Z)) (s : VersionSet) : VersionSet :=
  mk_vset (vs_next_file_number_ s) (vs_manifest_file_number_ s) (vs_last_sequence_ s) (vs_log_number_ s) (vs_prev_log_number_ s) (current_ s) p (vs_heap s).
Definition set_heap (h : Heap) (s : VersionSet) : VersionSet :=
  mk_vset (vs_next_file_number_ s) (vs_manifest_file_number_ s) (vs_last_sequence_ s) (vs_log_number_ s) (vs_prev_log_number_ s) (current_ s) (compact_pointer_ s) h.

Definition on_heap {A} (m : M Heap A) : M VersionSet A := zoom vs_heap set_heap m.

(** [*current_] *)
Definition current_version : M VersionSet Version :=
  s <- get ;; v <- or_stuck (current_ s) ;; cell <- on_heap (version_cell v) ;; ret (fst cell).

Definition NewFileNumber : M VersionSet Z :=
  s <- get ;; modify (set_next_file_number (u64 (vs_next_file_number_ s + 1))) ;; ret (vs_next_file_number_ s).
Definition ReuseFileNumber (file_number : Z) : M VersionSet unit :=
  s <- get ;; if vs_next_file_number_ s =? u64 (file_number + 1) then modify (set_next_file_number file_number) else ret tt.
Definition MarkFileNumberUsed (number : Z) : M VersionSet unit :=
  s <- get ;; if vs_next_file_number_ s <=? number then modify (set_next_file_number (u64 (number + 1))) else ret tt.
Definition VersionSet_SetLastSequence (n : Z) : M VersionSet unit :=
  s <- get ;; asserted (vs_last_sequence_ s <=? n) ;; modify (set_last_sequence n).

Definition AppendVersion (v : Z) : M VersionSet unit :=
  cell <- on_heap (version_cell v) ;;
  asserted (snd cell =? 0) ;;
  s <- get ;;
  asserted (negb (bool_decide (current_ s = Some v))) ;;
  (match current_ s with Some c => on_heap (Version_Unref c) | None => ret tt end) ;;
  modify (set_current (Some v)) ;;
  on_heap (Version_Ref v) ;;
  on_heap (modify (fun h => set_h_list (h_list h ++ [v]) h)).

Definition empty_heap : Heap := mk_heap ∅ [] ∅ ∅ 1.

(** The constructor, on memory without versions. *)
Definition new_VersionSet : M VersionSet unit :=
  put (mk_vset 2 0 0 0 0 None (repeat [] (Z.to_nat kNumLevels)) empty_heap) ;;
  v <- on_heap alloc_version ;;
  AppendVersion v.

(** ** [VersionSet::Builder] *)

Section Builder.
Context {user_comparator : Comparator}.

Definition BySmallestKey {S} (f1 f2 : FilePtr) : M S bool :=
  r <- or_stuck (key_Compare (f_smallest f1) (f_smallest f2)) ;;
  ret (if negb (r =? 0) then r <? 0 else f_number f1 <? f_number f2).

(** [insert] of a [std::set] with this order, its elements in order. *)
Fixpoint insert_file {S} (f : FilePtr) (s : list FilePtr) : M S (list FilePtr) :=
  match s with
  | [] => ret [f]
  | g :: s' =>
      less <- BySmallestKey f g ;;
      if less : bool then ret (f :: s)
      else
        greater <- BySmallestKey g f ;;
        if greater : bool then r <- insert_file f s' ;; ret (g :: r) else ret s
  end.

Record LevelState := mk_level { deleted_files : gset Z; added_files : list FilePtr }.

(** [base_] is the address of the version. *)
Record Builder := mk_builder { base_ : Z; levels_ : list LevelState }.

Definition new_Builder (base : Z) : M Heap Builder :=
  Version_Ref base ;; ret (mk_builder base (repeat (mk_level ∅ []) (Z.to_nat kNumLevels))).

Definition delete_Builder (b : Builder) : M Heap unit :=
  for_each (levels_ b) (fun l => for_each (added_files l) file_unref) ;; Version_Unref (base_ b).

(** [levels_[level]] *)
Definition on_level (level : Z) (m : LevelState -> M Heap LevelState) (b : Builder) : M Heap Builder :=
  asserted (0 <=? level) ;;
  l <- or_stuck (levels_ b !! Z.to_nat level) ;;
  l <- m l ;;
  ret (mk_builder (base_ b) (<[Z.to_nat level := l]> (levels_ b))).

Definition apply_pointer (p : Z * list Z) : M VersionSet unit :=
  s <- get ;;
  asserted ((0 <=? fst p) && (fst p <? size (compact_pointer_ s))) ;;
  key <- or_stuck (key_Encode (snd p)) ;;
  modify (set_compact_pointer (<[Z.to_nat (fst p) := key]> (compact_pointer_ s))).

Definition apply_deleted (b : Builder) (p : Z * Z) : M Heap Builder :=
  on_level (fst p) (fun l => ret (mk_level ({[snd p]} ∪ deleted_files l) (added_files l))) b.

(** The seeks after which the file is compacted. *)
Definition seeks_allowed (file_size : Z) : Z := let n := s32 (file_size / 16384) in if n <? 100 then 100 else n.

Definition apply_new (b : Builder) (p : Z * FileMetaData) : M Heap Builder :=
  let f := snd p in
  f <- new_file (mk_file 1 (seeks_allowed (file_size f)) (number f) (file_size f) (smallest f) (largest f)) ;;
  on_level (fst p) (fun l =>
    added <- insert_file f (added_files l) ;; ret (mk_level (deleted_files l ∖ {[f_number f]}) added)) b.

Definition Apply (edit : VersionEdit) (b : Builder) : M VersionSet Builder :=
  for_each (compact_pointers_ edit) apply_pointer ;;
  b <- on_heap (fold_m apply_deleted (deleted_files_ edit) b) ;;
  on_heap (fold_m apply_new (new_files_ edit) b).

Definition MaybeAddFile (l : LevelState) (level : Z) (files : list FilePtr) (f : FilePtr) : M Heap (list FilePtr) :=
  if bool_decide (f_number f ∈ deleted_files l) then ret files
  else
    (match last files with
     | Some g => if 0 <? level then c <- or_stuck (key_Compare (f_largest g) (f_smallest f)) ;; asserted (c <? 0) else ret tt
     | None => ret tt
     end) ;;
    file_ref f ;;
    ret (files ++ [f]).

(** [std::upper_bound]: the elements before the first one that [f] comes before, and the others. *)
Fixpoint upper_bound {S} (base : list FilePtr) (f : FilePtr) : M S (list FilePtr * list FilePtr) :=
  match base with
  | [] => ret ([], [])
  | g :: base' =>
      less <- BySmallestKey f g ;;
      if less : bool then ret ([], base) else r <- upper_bound base' f ;; ret (g :: fst r, snd r)
  end.

(** A round over the added files; the locals are the files from [base_iter] on and [v->files_[level]]. *)
Definition save_added (l : LevelState) (level : Z) (st : list FilePtr * list FilePtr) (f : FilePtr) : M Heap (list FilePtr * list FilePtr) :=
  r <- upper_bound (fst st) f ;;
  files <- fold_m (MaybeAddFile l level) (fst r) (snd st) ;;
  files <- MaybeAddFile l level files f ;;
  ret (snd r, files).

(** [abort] where the ranges of two files overlap. *)
Fixpoint no_overlap {S} (files : list FilePtr) : M S unit :=
  match files with
  | f :: ((g :: _) as files') => c <- or_stuck (key_Compare (f_largest f) (f_smallest g)) ;; asserted (c <? 0) ;; no_overlap files'
  | _ => ret tt
  end.

Definition save_level (b : Builder) (base : Version) (level : Z) : M Heap (list FilePtr) :=
  l <- or_stuck (levels_ b !! Z.to_nat level) ;;
  st <- fold_m (save_added l level) (added_files l) (files_at base level, []) ;;
  files <- fold_m (MaybeAddFile l level) (fst st) (snd st) ;;
  (if 0 <? level then no_overlap files else ret tt) ;;
  ret files.

(** [v], a new version. *)
Definition SaveTo (b : Builder) (v : Z) : M Heap unit :=
  base <- version_cell (base_ b) ;;
  files <- fold_m (fun files level => l <- save_level b (fst base) level ;; ret (files ++ [l])) all_levels [] ;;
  cell <- version_cell v ;;
  let w := fst cell in
  set_version v (mk_Version files (file_to_compact_ w) (file_to_compact_level_ w) (compaction_score_ w) (compaction_level_ w), snd cell).
End Builder.

(** ** [Finalize]

    [double] has 53 bits of precision and the largest exponent 1024. *)
Definition double_of (z : Z) : spec_float := binary_normalize 53 1024 z 0 false.
Definition double_div : spec_float -> spec_float -> spec_float := SFdiv 53 1024.
Definition double_mul : spec_float -> spec_float -> spec_float := SFmul 53 1024.

Definition MaxBytesForLevel (level : Z) : spec_float :=
  Nat.iter (Z.to_nat (level - 1)) (fun result => double_mul result (double_of 10)) (double_mul (double_of 10) (double_of 1048576)).

Definition level_score (v : Version) (level : Z) : spec_float :=
  if level =? 0 then double_div (double_of (size (files_at v level))) (double_of kL0_CompactionTrigger)
  else double_div (double_of (u64 (TotalFileSize (files_at v level)))) (MaxBytesForLevel level).

(** A round of the loop; the locals are [best_level] and [best_score]. *)
Definition better_level (v : Version) (best : Z * spec_float) (level : Z) : Z * spec_float :=
  let score := level_score v level in if SFltb (snd best) score then (level, score) else best.

Definition best_level (v : Version) : Z * spec_float := fold_left (better_level v) (take (Z.to_nat (kNumLevels - 1)) all_levels) (-1, minus_one).

Definition Finalize (v : Version) : Version :=
  mk_Version (files_ v) (file_to_compact_ v) (file_to_compact_level_ v) (snd (best_level v)) (fst (best_level v)).

(** [Finalize(v)] *)
Definition finalize (v : Z) : M Heap unit := cell <- version_cell v ;; set_version v (Finalize (fst cell), snd cell).

(** ** Queries *)

Definition NumLevelFiles (level : Z) : M VersionSet Z :=
  asserted (0 <=? level) ;; asserted (level <? kNumLevels) ;; v <- current_version ;; ret (s32 (size (files_at v level))).
Definition NumLevelBytes (level : Z) : M VersionSet Z :=
  asserted (0 <=? level) ;; asserted (level <? kNumLevels) ;; v <- current_version ;; ret (TotalFileSize (files_at v level)).

(** [%d] *)
Definition signed_decimal (v : Z) : list Z := if v <? 0 then literal "-" ++ decimal (- v) else decimal v.

(** [snprintf] of "files[ %d %d %d %d %d %d %d ]" into 100 bytes. *)
Definition LevelSummary : M VersionSet (list Z) :=
  v <- current_version ;;
  ret (take 99 (literal "files[ " ++ concat (map (fun level => signed_decimal (s32 (size (files_at v level))) ++ literal " ") all_levels) ++ literal "]")).

Definition one : spec_float := double_of 1.
Definition NeedsCompaction : M VersionSet bool :=
  v <- current_version ;; ret (SFleb one (compaction_score_ v) || match file_to_compact_ v with Some _ => true | None => false end).

(** The numbers of the files of all versions in the list. *)
Definition AddLiveFiles (live : gset Z) : M Heap (gset Z) :=
  h <- get ;;
  fold_m (fun live v => cell <- version_cell v ;; ret (list_to_set (map f_number (concat (files_ (fst cell)))) ∪ live)) (h_list h) live.

Section Queries.
Context {T : Type} {user_comparator : Comparator}.

Definition MaxNextLevelOverlappingBytes (v : Version) : M T Z :=
  fold_m (fun result level =>
    fold_m (fun result f =>
      overlaps <- GetOverlappingInputs v (level + 1) (Some (f_smallest f)) (Some (f_largest f)) ;;
      let sum := TotalFileSize overlaps in
      ret (if result <? sum then sum else result)) (files_at v level) result)
    (take (Z.to_nat (kNumLevels - 2)) (drop 1 all_levels)) 0.

(** [tableptr->ApproximateOffsetOf(key)] for the table of a file; [None] where it cannot be opened. *)
Context (table_offset : Z -> Z -> Slice -> M T (option Z)).

Fixpoint offset_in_files (files : list FilePtr) (level : Z) (ikey : list Z) (result : Z) : M T Z :=
  match files with
  | [] => ret result
  | f :: files' =>
      c <- or_stuck (key_Compare (f_largest f) ikey) ;;
      if c <=? 0 then offset_in_files files' level ikey (u64 (result + f_size f))
      else
        c <- or_stuck (key_Compare (f_smallest f) ikey) ;;
        if 0 <? c then (if 0 <? level then ret result else offset_in_files files' level ikey result)
        else
          key <- or_stuck (key_Encode ikey) ;;
          offset <- table_offset (f_number f) (f_size f) key ;;
          offset_in_files files' level ikey (match offset with Some n => u64 (result + n) | None => result end)
  end.

Definition VersionSet_ApproximateOffsetOf (v : Version) (ikey : list Z) : M T Z :=
  fold_m (fun result level => offset_in_files (files_at v level) level ikey result) all_levels 0.
End Queries.
