(* ===== verification/LdbCompaction.v ===== *)
(** [db/version_set.h], [db/version_set.cc]: the class [Compaction], and how [VersionSet] picks
    the inputs of one. *)

From Stdlib Require Import ZArith Lia List String Bool SpecFloat.
From stdpp Require Import base gmap list.
From S2P Require Import Prelude LdbBase LdbText LdbCoding LdbKeys LdbIterator LdbTwoLevelProps LdbMerger LdbFormat LdbVersionEdit LdbVersion LdbVersionIter LdbVersionSet.

Record Compaction := mk_compaction {
  level_ : Z;
  max_output_file_size_ : Z;
  input_version_ : option Z;
  edit_ : VersionEdit;
  inputs_0 : list FilePtr;
  inputs_1 : list FilePtr;
  grandparents_ : list FilePtr;
  grandparent_index_ : Z;
  seen_key_ : bool;
  overlapped_bytes_ : Z;
  level_ptrs_ : list Z
}.

Definition new_Compaction (options : Options) (level : Z) : Compaction :=
  mk_compaction level (MaxFileSizeForLevel options level) None new_VersionEdit [] [] [] 0 false 0 (repeat 0 (Z.to_nat kNumLevels)).

Definition set_input_version (v : option Z) (c : Compaction) : Compaction :=
  mk_compaction (level_ c) (max_output_file_size_ c) v (edit_ c) (inputs_0 c) (inputs_1 c) (grandparents_ c) (grandparent_index_ c) (seen_key_ c) (overlapped_bytes_ c) (level_ptrs_ c).
Definition set_edit (e : VersionEdit) (c : Compaction) : Compaction :=
  mk_compaction (level_ c) (max_output_file_size_ c) (input_version_ c) e (inputs_0 c) (inputs_1 c) (grandparents_ c) (grandparent_index_ c) (seen_key_ c) (overlapped_bytes_ c) (level_ptrs_ c).
Definition set_inputs (i0 i1 : list FilePtr) (c : Compaction) : Compaction :=
  mk_compaction (level_ c) (max_output_file_size_ c) (input_version_ c) (edit_ c) i0 i1 (grandparents_ c) (grandparent_index_ c) (seen_key_ c) (overlapped_bytes_ c) (level_ptrs_ c).
Definition set_grandparents (g : list FilePtr) (c : Compaction) : Compaction :=
  mk_compaction (level_ c) (max_output_file_size_ c) (input_version_ c) (edit_ c) (inputs_0 c) (inputs_1 c) g (grandparent_index_ c) (seen_key_ c) (overlapped_bytes_ c) (level_ptrs_ c).
Definition set_overlap (index : Z) (seen : bool) (bytes : Z) (c : Compaction) : Compaction :=
  mk_compaction (level_ c) (max_output_file_size_ c) (input_version_ c) (edit_ c) (inputs_0 c) (inputs_1 c) (grandparents_ c) index seen bytes (level_ptrs_ c).
Definition set_level_ptr (level ptr : Z) (c : Compaction) : Compaction :=
  mk_compaction (level_ c) (max_output_file_size_ c) (input_version_ c) (edit_ c) (inputs_0 c) (inputs_1 c) (grandparents_ c) (grandparent_index_ c) (seen_key_ c) (overlapped_bytes_ c)
    (<[Z.to_nat level := ptr]> (level_ptrs_ c)).

(** [inputs_[which]] *)
Definition inputs_ (c : Compaction) (which : Z) : list FilePtr := if which =? 0 then inputs_0 c else inputs_1 c.
Definition num_input_files (c : Compaction) (which : Z) : Z := s32 (size (inputs_ c which)).

(** ** Picking the inputs *)

Section Inputs.
Context {T : Type} {user_comparator : Comparator}.

(** A round of the loop in [GetRange] from the second one on. *)
Definition wider (range : list Z * list Z) (f : FilePtr) : M T (list Z * list Z) :=
  let '(smallest, largest) := range in
  c <- or_stuck (key_Compare (f_smallest f) smallest) ;;
  c' <- or_stuck (key_Compare (f_largest f) largest) ;;
  ret (if c <? 0 then f_smallest f else smallest, if 0 <? c' then f_largest f else largest).

(** [*smallest] and [*largest]. *)
Definition GetRange (inputs : list FilePtr) : M T (list Z * list Z) :=
  match inputs with
  | [] => stuck
  | f :: inputs' => fold_m wider inputs' (f_smallest f, f_largest f)
  end.

Definition GetRange2 (inputs1 inputs2 : list FilePtr) : M T (list Z * list Z) := GetRange (inputs1 ++ inputs2).

(** [*largest_key], if there is a file. *)
Definition FindLargestKey (files : list FilePtr) : M T (option (list Z)) :=
  match files with
  | [] => ret None
  | f :: files' =>
      k <- fold_m (fun largest_key f => c <- or_stuck (key_Compare (f_largest f) largest_key) ;; ret (if 0 <? c then f_largest f else largest_key)) files' (f_largest f) ;;
      ret (Some k)
  end.

(** A round of the loop in [FindSmallestBoundaryFile]. *)
Definition boundary_step (largest_key : list Z) (smallest_boundary_file : option FilePtr) (f : FilePtr) : M T (option FilePtr) :=
  c <- or_stuck (key_Compare (f_smallest f) largest_key) ;;
  boundary <- (if 0 <? c then a <- or_stuck (key_user_key (f_smallest f)) ;; b <- or_stuck (key_user_key largest_key) ;; c' <- or_stuck (Compare a b) ;; ret (c' =? 0) else ret false) ;;
  if boundary : bool then
    match smallest_boundary_file with
    | None => ret (Some f)
    | Some g => c <- or_stuck (key_Compare (f_smallest f) (f_smallest g)) ;; ret (if c <? 0 then Some f else smallest_boundary_file)
    end
  else ret smallest_boundary_file.

Definition FindSmallestBoundaryFile (level_files : list FilePtr) (largest_key : list Z) : M T (option FilePtr) :=
  fold_m (boundary_step largest_key) level_files None.

(** A round of the loop in [AddBoundaryInputs]; the locals are [*compaction_files] and [largest_key]. *)
Definition add_boundary_step (level_files : list FilePtr) (locals : list FilePtr * list Z) : M T (list FilePtr * list Z + list FilePtr) :=
  let '(compaction_files, largest_key) := locals in
  smallest_boundary_file <- FindSmallestBoundaryFile level_files largest_key ;;
  ret (match smallest_boundary_file with
       | Some f => inl (compaction_files ++ [f], f_largest f)
       | None => inr compaction_files
       end).

(** [*compaction_files] *)
Definition AddBoundaryInputs (level_files compaction_files : list FilePtr) : M T (list FilePtr) :=
  largest_key <- FindLargestKey compaction_files ;;
  match largest_key with
  | None => ret compaction_files
  | Some k => loop (add_boundary_step level_files) (compaction_files, k)
  end.

Context (options : Options).

(** The inputs that [SetupOtherInputs] may take in place of [c->inputs_], with their range. *)
Definition expanded_inputs (v : Version) (level : Z) (inputs0 inputs1 : list FilePtr) (all_start all_limit : list Z) :
    M T (option (list FilePtr * list FilePtr * (list Z * list Z))) :=
  if size inputs1 =? 0 then ret None
  else
    expanded0 <- GetOverlappingInputs v level (Some all_start) (Some all_limit) ;;
    expanded0 <- AddBoundaryInputs (files_at v level) expanded0 ;;
    let inputs1_size := TotalFileSize inputs1 in
    let expanded0_size := TotalFileSize expanded0 in
    if (size inputs0 <? size expanded0) && (s64 (inputs1_size + expanded0_size) <? ExpandedCompactionByteSizeLimit options) then
      range <- GetRange expanded0 ;;
      expanded1 <- GetOverlappingInputs v (level + 1) (Some (fst range)) (Some (snd range)) ;;
      ret (if size expanded1 =? size inputs1 then Some (expanded0, expanded1, range) else None)
    else ret None.

(** [SetupOtherInputs] for the files of [*current_]; the largest key of the inputs at [level] is
    the other result. *)
Definition setup_inputs (v : Version) (c : Compaction) : M T (Compaction * list Z) :=
  let level := level_ c in
  inputs0 <- AddBoundaryInputs (files_at v level) (inputs_0 c) ;;
  range <- GetRange inputs0 ;;
  inputs1 <- GetOverlappingInputs v (level + 1) (Some (fst range)) (Some (snd range)) ;;
  all <- GetRange2 inputs0 inputs1 ;;
  expanded <- expanded_inputs v level inputs0 inputs1 (fst all) (snd all) ;;
  r <- (match expanded with
        | Some (expanded0, expanded1, new_range) => all <- GetRange2 expanded0 expanded1 ;; ret (expanded0, expanded1, snd new_range, all)
        | None => ret (inputs0, inputs1, snd range, all)
        end) ;;
  let '(inputs0, inputs1, largest, all) := r in
  grandparents <- (if level + 2 <? kNumLevels then GetOverlappingInputs v (level + 2) (Some (fst all)) (Some (snd all)) else ret (grandparents_ c)) ;;
  ret (set_edit (SetCompactPointer level largest (edit_ c)) (set_grandparents grandparents (set_inputs inputs0 inputs1 c)), largest).

(** The first file that comes after [compact_pointer_[level]]. *)
Fixpoint after_pointer (pointer : list Z) (files : list FilePtr) : M T (list FilePtr) :=
  match files with
  | [] => ret []
  | f :: files' =>
      after <- (if size pointer =? 0 then ret true else largest <- or_stuck (key_Encode (f_largest f)) ;; c <- or_stuck (internal_Compare largest pointer) ;; ret (0 <? c)) ;;
      if after : bool then ret [f] else after_pointer pointer files'
  end.

(** The inputs of [CompactRange] up to the size limit. *)
Fixpoint up_to_limit (limit total : Z) (inputs : list FilePtr) : list FilePtr :=
  match inputs with
  | [] => []
  | f :: inputs' => let total := u64 (total + f_size f) in if limit <=? total then [f] else f :: up_to_limit limit total inputs'
  end.
End Inputs.

Section VersionSet.
Context {user_comparator : Comparator} (options : Options).

Definition SetupOtherInputs (c : Compaction) : M VersionSet Compaction :=
  v <- current_version ;;
  r <- setup_inputs options v c ;;
  s <- get ;;
  asserted (bool_decide (0 <= level_ c < size (compact_pointer_ s))) ;;
  largest <- or_stuck (key_Encode (snd r)) ;;
  modify (set_compact_pointer (<[Z.to_nat (level_ c) := largest]> (compact_pointer_ s))) ;;
  ret (fst r).

(** [c->input_version_ = current_; c->input_version_->Ref();] *)
Definition take_current (c : Compaction) : M VersionSet Compaction :=
  s <- get ;; v <- or_stuck (current_ s) ;; on_heap (Version_Ref v) ;; ret (set_input_version (Some v) c).

(** The level to compact and the file to begin with, if there is need. *)
Definition pick_start (v : Version) : M VersionSet (option (Z * list FilePtr)) :=
  s <- get ;;
  if SFleb one (compaction_score_ v) then
    let level := compaction_level_ v in
    asserted (0 <=? level) ;;
    asserted (level + 1 <? kNumLevels) ;;
    pointer <- or_stuck (compact_pointer_ s !! Z.to_nat level) ;;
    picked <- after_pointer pointer (files_at v level) ;;
    picked <- (if size picked =? 0 then f <- or_stuck (files_at v level !! 0%nat) ;; ret [f] else ret picked) ;;
    ret (Some (level, picked))
  else
    match file_to_compact_ v with
    | Some f => ret (Some (file_to_compact_level_ v, [f]))
    | None => ret None
    end.

(** [c->inputs_[0]] with what overlaps it at level 0. *)
Definition level0_inputs (v : Version) (level : Z) (inputs : list FilePtr) : M VersionSet (list FilePtr) :=
  if level =? 0 then
    range <- GetRange inputs ;;
    inputs <- GetOverlappingInputs v 0 (Some (fst range)) (Some (snd range)) ;;
    asserted (negb (size inputs =? 0)) ;;
    ret inputs
  else ret inputs.

Definition PickCompaction : M VersionSet (option Compaction) :=
  v <- current_version ;;
  start <- pick_start v ;;
  match start with
  | None => ret None
  | Some (level, picked) =>
      c <- take_current (set_inputs picked [] (new_Compaction options level)) ;;
      inputs <- level0_inputs v level picked ;;
      c <- SetupOtherInputs (set_inputs inputs [] c) ;;
      ret (Some c)
  end.

Definition CompactRange (level : Z) (begin end_ : option (list Z)) : M VersionSet (option Compaction) :=
  v <- current_version ;;
  inputs <- GetOverlappingInputs v level begin end_ ;;
  if size inputs =? 0 then ret None
  else
    let inputs := if 0 <? level then up_to_limit (MaxFileSizeForLevel options level) 0 inputs else inputs in
    c <- take_current (new_Compaction options level) ;;
    c <- SetupOtherInputs (set_inputs inputs [] c) ;;
    ret (Some c).

(** [Compaction::~Compaction] and [ReleaseInputs] *)
Definition delete_Compaction (c : Compaction) : M Heap unit :=
  match input_version_ c with Some v => Version_Unref v | None => ret tt end.
Definition ReleaseInputs (c : Compaction) : M Heap Compaction :=
  match input_version_ c with Some v => Version_Unref v ;; ret (set_input_version None c) | None => ret c end.
End VersionSet.

(** ** While a compaction runs *)

Definition IsTrivialMove (options : Options) (c : Compaction) : bool :=
  (num_input_files c 0 =? 1) && (num_input_files c 1 =? 0) && (TotalFileSize (grandparents_ c) <=? MaxGrandParentOverlapBytes options).

Definition AddInputDeletions (c : Compaction) (edit : VersionEdit) : VersionEdit :=
  fold_left (fun edit which => fold_left (fun edit f => DeleteFile (level_ c + which) (f_number f) edit) (inputs_ c which) edit) [0; 1] edit.

Section Running.
Context {user_comparator : Comparator}.

(** The search at a level from [level_ptrs_[lvl]] on, with [files] the rest of the level:
    the new [level_ptrs_[lvl]], and whether the key is in the range of that file. *)
Fixpoint advance_ptr {T} (user_key : Slice) (files : list FilePtr) (ptr : Z) : M T (Z * bool) :=
  match files with
  | [] => ret (ptr, false)
  | f :: files' =>
      largest <- or_stuck (key_user_key (f_largest f)) ;;
      c <- or_stuck (Compare user_key largest) ;;
      if c <=? 0 then smallest <- or_stuck (key_user_key (f_smallest f)) ;; c' <- or_stuck (Compare user_key smallest) ;; ret (ptr, 0 <=? c')
      else advance_ptr user_key files' (ptr + 1)
  end.

Fixpoint base_level_from (v : Version) (user_key : Slice) (levels : list Z) : M Compaction bool :=
  match levels with
  | [] => ret true
  | lvl :: levels' =>
      c <- get ;;
      ptr <- or_stuck (level_ptrs_ c !! Z.to_nat lvl) ;;
      r <- advance_ptr user_key (drop (Z.to_nat ptr) (files_at v lvl)) ptr ;;
      modify (set_level_ptr lvl (fst r)) ;;
      if snd r then ret false else base_level_from v user_key levels'
  end.

(** [v] is [*input_version_]. *)
Definition IsBaseLevelForKey (v : Version) (user_key : Slice) : M Compaction bool :=
  c <- get ;; base_level_from v user_key (drop (Z.to_nat (level_ c + 2)) all_levels).

(** The loop over the grandparents from [grandparent_index_] on. *)
Fixpoint skip_grandparents (internal_key : Slice) (files : list FilePtr) : M Compaction unit :=
  match files with
  | [] => ret tt
  | f :: files' =>
      largest <- or_stuck (key_Encode (f_largest f)) ;;
      c <- or_stuck (internal_Compare internal_key largest) ;;
      if 0 <? c then
        modify (fun c => set_overlap (grandparent_index_ c + 1) (seen_key_ c) (if seen_key_ c then s64 (overlapped_bytes_ c + f_size f) else overlapped_bytes_ c) c) ;;
        skip_grandparents internal_key files'
      else ret tt
  end.

Definition ShouldStopBefore (options : Options) (internal_key : Slice) : M Compaction bool :=
  c <- get ;;
  skip_grandparents internal_key (drop (Z.to_nat (grandparent_index_ c)) (grandparents_ c)) ;;
  modify (fun c => set_overlap (grandparent_index_ c) true (overlapped_bytes_ c) c) ;;
  c <- get ;;
  if MaxGrandParentOverlapBytes options <? overlapped_bytes_ c then
    modify (fun c => set_overlap (grandparent_index_ c) (seen_key_ c) 0 c) ;; ret true
  else ret false.
End Running.

(** ** The iterator over the inputs *)

Section InputIterator.
Context {D : Type} {dops : IteratorOps D} {TI : TableIterators D} {U : Comparator}.

(** [list] for [which]. *)
Definition input_children (options : ReadOptions) (c : Compaction) (which : Z) : option (list (D + concatenating (D := D))) :=
  if size (inputs_ c which) =? 0 then Some []
  else if level_ c + which =? 0 then map inl <$> table_iterators options (inputs_ c which)
  else it ← NewTwoLevelIterator (new_LevelFileNumIterator (inputs_ c which)); Some [inr it].

(** The children of the merging iterator. *)
Definition MakeInputIterator (paranoid_checks : bool) (c : Compaction) : option (list (D + concatenating (D := D))) :=
  let options := mk_read_options paranoid_checks false in
  l0 ← input_children options c 0;
  l1 ← input_children options c 1;
  Some (l0 ++ l1).
End InputIterator.
