(* ===== verification/LdbCompactionPick.v ===== *)
(** The inputs of a compaction: what is left behind at their level is newer than they are or
    shares no user key with them, and at the next level all that overlaps them is taken.

    [VersionSet::PickCompaction] and [CompactRange]: what is picked to be compacted. *)

From Stdlib Require Import ZArith Lia List String Bool SpecFloat.
From stdpp Require Import base gmap list sorting.
From S2P Require Import Prelude Base128 LdbBase LdbText LdbCoding LdbKeys LdbKeyProps LdbVersionEdit LdbIterator LdbFormat LdbVersion LdbVersionOverlap LdbVersionSet LdbCompaction.

Section Ranges.
Context {U : Comparator} {LU : ComparatorLaws U}.

Abbreviation iorder := internal_order.

Lemma iorder_refl a : internal_ok a -> iorder a a = 0.
Proof. exact (order_refl (ComparatorLaws := internal_laws) a). Qed.

Lemma iorder_trans a b c : internal_ok a -> internal_ok b -> internal_ok c -> iorder a b <= 0 -> iorder b c <= 0 -> iorder a c <= 0.
Proof. exact (internal_order_trans a b c). Qed.

Lemma iorder_total a b : internal_ok a -> internal_ok b -> iorder a b <= 0 \/ iorder b a < 0.
Proof. intros Ha Hb. pose proof (iorder_flip b a Hb Ha). lia. Qed.

(** ** The range of files *)

(** The least internal key of the files and the largest. *)
Record range_of (files : list FilePtr) (lo hi : list Z) : Prop := {
  ro_low : exists f, f ∈ files /\ f_smallest f = lo;
  ro_high : exists f, f ∈ files /\ f_largest f = hi;
  ro_above f : f ∈ files -> iorder lo (f_smallest f) <= 0;
  ro_below f : f ∈ files -> iorder (f_largest f) hi <= 0
}.

Lemma range_ok files lo hi : Forall file_ok files -> range_of files lo hi -> internal_ok lo /\ internal_ok hi /\ iorder lo hi <= 0.
Proof.
  intros Hok [(f & Hf & <-) (g & Hg & <-) Hlo Hhi]. rewrite Forall_forall in Hok. pose proof (Hok f Hf) as (Hfs & Hfl & Hle & _). pose proof (Hok g Hg) as (_ & Hgl & _).
  split; [done|]. split; [done|]. by apply (iorder_trans _ (f_largest f)); [..|apply Hhi].
Qed.

(** A file of the range is in it as user keys too. *)
Lemma range_users files lo hi f : Forall file_ok files -> range_of files lo hi -> f ∈ files ->
  order (user_part lo) (f_start f) <= 0 /\ order (f_limit f) (user_part hi) <= 0.
Proof. intros Hok Hr Hf. split; apply user_order_le; [by apply (ro_above files lo hi Hr)|by apply (ro_below files lo hi Hr)]. Qed.

Lemma range_of_more pre f lo hi : Forall file_ok (pre ++ [f]) -> range_of pre lo hi ->
  range_of (pre ++ [f]) (if iorder (f_smallest f) lo <? 0 then f_smallest f else lo) (if 0 <? iorder (f_largest f) hi then f_largest f else hi).
Proof.
  intros Hok Hr. apply Forall_app in Hok as [Hpre Hf]. apply Forall_cons_1 in Hf as [(Hfs & Hfl & Hfle & _) _].
  destruct (range_ok pre lo hi Hpre Hr) as (Hlo & Hhi & _). destruct Hr as [(a & Ha & Ea) (b & Hb & Eb) Habove Hbelow]. rewrite Forall_forall in Hpre.
  destruct (Z.ltb_spec (iorder (f_smallest f) lo) 0) as [Hl|Hl], (Z.ltb_spec 0 (iorder (f_largest f) hi)) as [Hh|Hh]; split; try (exists f; split; [apply elem_of_app; right; by apply list_elem_of_singleton|done]);
    try (exists a; split; [apply elem_of_app; by left|done]); try (exists b; split; [apply elem_of_app; by left|done]);
    intros g [Hg| ->%list_elem_of_singleton]%elem_of_app; try (rewrite iorder_refl by done; lia); try (by apply Habove); try (by apply Hbelow);
    try (destruct (Hpre g Hg) as (Hgs & Hgl & _ & _)); pose proof (iorder_flip (f_smallest f) lo Hfs Hlo); pose proof (iorder_flip lo (f_smallest f) Hlo Hfs); pose proof (iorder_flip hi (f_largest f) Hhi Hfl); try lia.
  all: first [apply Z.lt_le_incl; apply (iorder_lt_le _ lo); [done..|by apply Habove]|apply (iorder_trans _ hi); [done..|by apply Hbelow|lia]].
Qed.

Lemma wp_GetRange {T} files (t : T) (Q : list Z * list Z -> T -> Prop) : files <> [] -> Forall file_ok files ->
  (forall lo hi, range_of files lo hi -> Q (lo, hi) t) -> wp (GetRange files) Q (fun _ => False) t.
Proof.
  intros Hne Hok HQ. destruct files as [|f files]; [done|]. unfold GetRange.
  eapply (wp_mono _ (fun r t' => t' = t /\ range_of (f :: files) (fst r) (snd r)) _ (fun _ => False)); [|intros [lo hi] t' [-> Hr]; by apply HQ|done].
  apply (wp_fold_m wider (fun pre r t' => t' = t /\ range_of (f :: pre) (fst r) (snd r))).
  - intros pre g post [lo hi] t' -> [-> Hr]. cbn [fst snd] in *. unfold wider.
    assert (Hpre : Forall file_ok ((f :: pre) ++ [g])) by (rewrite app_comm_cons, cons_middle, app_assoc, Forall_app in Hok; apply Hok).
    pose proof Hpre as [Hp Hg]%Forall_app. apply Forall_cons_1 in Hg as [(Hgs & Hgl & _) _]. destruct (range_ok _ lo hi Hp Hr) as (Hlo & Hhi & _).
    rewrite !key_Compare_order by done. do 2 apply wp_bind, wp_ret. apply wp_ret. split; [done|]. by apply (range_of_more (f :: pre)).
  - apply Forall_cons_1 in Hok as [(Hs & Hl & Hle & _) _]. split; [done|]. split; try (exists f; split; [apply list_elem_of_singleton|]; done); intros g ->%list_elem_of_singleton; rewrite iorder_refl by done; done.
Qed.

(** ** Boundary files *)

Definition largest_of (files : list FilePtr) (k : list Z) : Prop :=
  (exists f, f ∈ files /\ f_largest f = k) /\ forall f, f ∈ files -> iorder (f_largest f) k <= 0.

Lemma wp_FindLargestKey {T} files (t : T) (Q : option (list Z) -> T -> Prop) : files <> [] -> Forall file_ok files ->
  (forall k, largest_of files k -> Q (Some k) t) -> wp (FindLargestKey files) Q (fun _ => False) t.
Proof.
  intros Hne Hok HQ. destruct files as [|f files]; [done|]. unfold FindLargestKey. apply wp_bind.
  eapply (wp_mono _ (fun k t' => t' = t /\ largest_of (f :: files) k) _ (fun _ => False)); [|intros k t' [-> Hr]; by apply wp_ret, HQ|done].
  match goal with |- wp (fold_m ?b _ _) _ _ _ => apply (wp_fold_m b (fun pre k t' => t' = t /\ largest_of (f :: pre) k)) end.
  - intros pre g post k t' -> [-> [(h & Hh & <-) Hall]].
    assert (Hin : file_ok g /\ forall x, x ∈ f :: pre -> file_ok x).
    { rewrite Forall_forall in Hok. split; [apply Hok; rewrite !elem_of_cons, elem_of_app, elem_of_cons; tauto|]. intros x Hx. apply Hok. rewrite elem_of_cons, elem_of_app. rewrite elem_of_cons in Hx. tauto. }
    destruct Hin as [(_ & Hgl & _) Hin]. pose proof (Hin h Hh) as (_ & Hhl & _). rewrite key_Compare_order by done. apply wp_bind, wp_ret, wp_ret. split; [done|].
    rewrite app_comm_cons. destruct (Z.ltb_spec 0 (iorder (f_largest g) (f_largest h))) as [Hlt|Hge]; split.
    + exists g. split; [apply elem_of_app; right; by apply list_elem_of_singleton|done].
    + intros x [Hx| ->%list_elem_of_singleton]%elem_of_app; [|rewrite iorder_refl by done; lia]. pose proof (Hin x Hx) as (_ & Hxl & _).
      apply (iorder_trans _ (f_largest h)); [done..|by apply Hall|]. pose proof (iorder_flip _ _ Hhl Hgl). lia.
    + exists h. split; [apply elem_of_app; by left|done].
    + intros x [Hx| ->%list_elem_of_singleton]%elem_of_app; [by apply Hall|done].
  - apply Forall_cons_1 in Hok as [(_ & Hl & _) _]. split; [done|]. split; [exists f; by split; [apply list_elem_of_singleton|]|]. intros g ->%list_elem_of_singleton. by rewrite iorder_refl.
Qed.

(** The file begins past the key, with the same user key. *)
Definition boundary (k : list Z) (f : FilePtr) : Prop := 0 < iorder (f_smallest f) k /\ order (f_start f) (user_part k) = 0.
#[export] Instance boundary_dec k f : Decision (boundary k f) := and_dec _ _.

Definition smallest_boundary (files : list FilePtr) (k : list Z) (r : option FilePtr) : Prop :=
  match r with
  | None => forall f, f ∈ files -> ~ boundary k f
  | Some f => f ∈ files /\ boundary k f /\ forall g, g ∈ files -> boundary k g -> iorder (f_smallest f) (f_smallest g) <= 0
  end.

Lemma wp_FindSmallestBoundaryFile {T} files k (t : T) (Q : option FilePtr -> T -> Prop) : Forall file_ok files -> internal_ok k ->
  (forall r, smallest_boundary files k r -> Q r t) -> wp (FindSmallestBoundaryFile files k) Q (fun _ => False) t.
Proof.
  intros Hok Hk HQ. unfold FindSmallestBoundaryFile.
  eapply (wp_mono _ (fun r t' => t' = t /\ smallest_boundary files k r) _ (fun _ => False)); [|intros r t' [-> Hr]; by apply HQ|done].
  apply (wp_fold_m (boundary_step k) (fun pre r t' => t' = t /\ smallest_boundary pre k r)).
  - intros pre f post r t' -> [-> Hr]. rewrite Forall_forall in Hok.
    assert (Hin : file_ok f /\ forall x, x ∈ pre -> file_ok x).
    { split; [|intros x Hx]; apply Hok; rewrite elem_of_app, ?elem_of_cons; tauto. }
    destruct Hin as [(Hfs & _) Hin]. unfold boundary_step. rewrite key_Compare_order by done. apply wp_bind, wp_ret, wp_bind.
    apply (wp_mono _ (fun b t' => t' = t /\ (b = true <-> boundary k f)) _ (fun _ => False)); [| |done].
    { unfold boundary. destruct (Z.ltb_spec 0 (iorder (f_smallest f) k)) as [Hlt|Hge].
      - apply wp_bind, wp_key_user_key; [done|]. apply wp_bind, wp_key_user_key; [done|]. rewrite Compare_order by (apply Hfs || apply Hk). apply wp_bind, wp_ret, wp_ret. split; [done|]. rewrite Z.eqb_eq. tauto.
      - apply wp_ret. split; [done|]. split; [done|lia]. }
    intros b t' [-> Hb]. destruct b.
    + assert (Hbf : boundary k f) by by apply Hb. destruct r as [g|].
      * destruct Hr as (Hg & Hbg & Hmin). pose proof (Hin g Hg) as (Hgs & _). rewrite key_Compare_order by done. apply wp_bind, wp_ret, wp_ret. split; [done|].
        destruct (Z.ltb_spec (iorder (f_smallest f) (f_smallest g)) 0) as [Hlt|Hge].
        -- split; [apply elem_of_app; right; by apply list_elem_of_singleton|]. split; [done|]. intros x [Hx| ->%list_elem_of_singleton]%elem_of_app Hbx; [|by rewrite iorder_refl].
           pose proof (Hin x Hx) as (Hxs & _). apply (iorder_trans _ (f_smallest g)); [done..|lia|by apply Hmin].
        -- split; [apply elem_of_app; by left|]. split; [done|]. intros x [Hx| ->%list_elem_of_singleton]%elem_of_app Hbx; [by apply Hmin|].
           pose proof (iorder_flip _ _ Hgs Hfs). pose proof (iorder_flip _ _ Hfs Hgs). lia.
      * apply wp_ret. split; [done|]. split; [apply elem_of_app; right; by apply list_elem_of_singleton|]. split; [done|].
        intros x [Hx| ->%list_elem_of_singleton]%elem_of_app Hbx; [by destruct (Hr x Hx)|by rewrite iorder_refl].
    + apply wp_ret. split; [done|]. assert (Hbf : ~ boundary k f) by (intros H%Hb; done). destruct r as [g|].
      * destruct Hr as (Hg & Hbg & Hmin). split; [apply elem_of_app; by left|]. split; [done|]. intros x [Hx| ->%list_elem_of_singleton]%elem_of_app Hbx; [by apply Hmin|done].
      * intros x [Hx| ->%list_elem_of_singleton]%elem_of_app; [by apply Hr|done].
  - split; [done|]. by intros f Hf%not_elem_of_nil.
Qed.

(** ** [AddBoundaryInputs] *)

(** At level 0: all files that overlap a range that no file crosses. *)
Definition closed_inputs (files s : list FilePtr) : Prop :=
  exists lo hi, bound_ok lo /\ bound_ok hi /\ closed_range files lo hi /\ s = filter (overlaps lo hi) files.

(** At the other levels: files one after the other, the next of which, if they are sealed, begins with another user key. *)
Definition segment (files s : list FilePtr) : Prop := exists a c, files = a ++ s ++ c.
Definition sealed_segment (files s : list FilePtr) : Prop :=
  exists a c, files = a ++ s ++ c /\ forall f g s' c', s = s' ++ [f] -> c = g :: c' -> order (f_limit f) (f_start g) <> 0.

Definition taken (level : Z) (files s : list FilePtr) : Prop := if level =? 0 then closed_inputs files s else segment files s.
Definition sealed (level : Z) (files s : list FilePtr) : Prop := if level =? 0 then closed_inputs files s else sealed_segment files s.

(** The files of a level as they can be searched. *)
Definition searchable (level : Z) (files : list FilePtr) : Prop :=
  if level =? 0 then Forall file_ok files /\ size files < 2 ^ 31 else level_ok files.

Lemma searchable_ok level files : searchable level files -> Forall file_ok files /\ size files < 2 ^ 31.
Proof. unfold searchable. destruct (level =? 0); [done|]. by intros (H & _ & Hsz). Qed.

Lemma level_split pre post f g : level_ok (pre ++ post) -> f ∈ pre -> g ∈ post -> iorder (f_largest f) (f_smallest g) < 0.
Proof. intros (_ & H & _) Hf Hg. exact (StronglySorted_app_1_elem_of _ pre post f g H Hf Hg). Qed.

Lemma elem_ok files f : Forall file_ok files -> f ∈ files -> file_ok f.
Proof. intros H Hf. rewrite Forall_forall in H. by apply H. Qed.

Lemma largest_last s l k : level_ok (s ++ [l]) -> largest_of (s ++ [l]) k -> k = f_largest l.
Proof.
  intros Hl [(f & Hf & <-) Hall]. apply elem_of_app in Hf as [Hf| ->%list_elem_of_singleton]; [|done]. pose proof Hl as (Hok & _).
  assert (Hin : l ∈ s ++ [l]) by (apply elem_of_app; right; by apply list_elem_of_singleton). pose proof (elem_ok (s ++ [l]) f Hok ltac:(apply elem_of_app; by left)) as (_ & Hfl & _).
  pose proof (elem_ok _ l Hok Hin) as (Hls & Hll & Hle & _). specialize (Hall l Hin).
  pose proof (level_split s [l] f l Hl Hf ltac:(by apply list_elem_of_singleton)). pose proof (iorder_lt_le _ _ _ Hfl Hls Hll ltac:(done) Hle). pose proof (iorder_flip _ _ Hfl Hll). lia.
Qed.

(** [f] ends before [g] begins. *)
Definition file_before (f g : FilePtr) : Prop := iorder (f_largest f) (f_smallest g) < 0.

Lemma before_smallest f g : file_ok f -> file_ok g -> file_before f g -> iorder (f_smallest f) (f_smallest g) < 0.
Proof. intros (Hfs & Hfl & Hle & _) (Hgs & _) H. by apply (iorder_le_lt _ (f_largest f)). Qed.

Lemma before_largest f g : file_ok f -> file_ok g -> file_before f g -> iorder (f_largest f) (f_largest g) < 0.
Proof. intros (_ & Hfl & _) (Hgs & Hgl & Hle & _) H. by apply (iorder_lt_le _ (f_smallest g)). Qed.

Lemma before_users f g : file_ok f -> file_ok g -> file_before f g -> order (f_start f) (f_start g) <= 0 /\ order (f_limit f) (f_start g) <= 0.
Proof. intros Hf Hg H. split; apply user_order_le; [apply Z.lt_le_incl; by apply before_smallest|unfold file_before in H; lia]. Qed.

(** A file that is not past [l] is no boundary of it. *)
Lemma not_boundary f l : file_ok f -> file_ok l -> file_before f l \/ f = l -> ~ boundary (f_largest l) f.
Proof.
  intros Hf Hl H [Hlt _]. pose proof Hl as (Hls & Hll & Hle & _). pose proof Hf as (Hfs & Hfl & Hfle & _). destruct H as [H| ->]; [|lia].
  pose proof (before_smallest f l Hf Hl H). pose proof (iorder_lt_le _ _ _ Hfs Hls Hll ltac:(done) Hle). lia.
Qed.

(** A file between [l] and a boundary of it is one too. *)
Lemma boundary_between l g f : file_ok l -> file_ok g -> file_ok f -> file_before l g -> g = f \/ file_before g f -> order (f_start f) (f_limit l) = 0 -> boundary (f_largest l) g.
Proof.
  intros Hl Hg Hf Hlg Hgf Ho. pose proof Hl as (_ & Hll & _). pose proof Hg as (Hgs & _). split; [by apply iorder_flip|].
  destruct (file_users l Hl) as (_ & Hk1 & _). destruct (file_users g Hg) as (Hk2 & _). destruct (file_users f Hf) as (Hk3 & _). destruct (before_users l g Hl Hg Hlg) as [_ H1]. fold (f_limit l).
  assert (H2 : order (f_start g) (f_start f) <= 0) by (destruct Hgf as [->|Hgf]; [rewrite order_refl by done; lia|by apply before_users]).
  pose proof (order_flip _ _ Hk1 Hk2). pose proof (order_flip _ _ Hk2 Hk1). pose proof (order_trans _ _ _ Hk2 Hk3 Hk1). lia.
Qed.

(** Of the files past the last one taken, the least boundary file is the next one. *)
Lemma next_boundary p l c r : level_ok (p ++ l :: c) -> smallest_boundary (p ++ l :: c) (f_largest l) r ->
  match r with
  | Some f => exists c', c = f :: c'
  | None => forall g c', c = g :: c' -> order (f_limit l) (f_start g) <> 0
  end.
Proof.
  intros Hl Hr. pose proof Hl as (Hok & _). assert (Hin : forall f, f ∈ p ++ l :: c -> file_ok f) by (intros f; by apply elem_ok).
  pose proof (Hin l ltac:(apply elem_of_app; right; apply list_elem_of_here)) as Hll.
  assert (Hc : forall g, g ∈ c -> file_ok g /\ file_before l g).
  { intros g Hg. split; [apply Hin; rewrite elem_of_app, elem_of_cons; tauto|]. rewrite cons_middle, app_assoc in Hl. apply (level_split _ _ l g Hl); [rewrite elem_of_app, list_elem_of_singleton; by right|done]. }
  assert (Hpast : forall f, f ∈ p ++ l :: c -> boundary (f_largest l) f -> f ∈ c).
  { intros f Hf Hb. pose proof Hf as Hf'. rewrite elem_of_app, elem_of_cons in Hf'. destruct Hf' as [Hp|[->|Hf']]; [| |done].
    - destruct (not_boundary f l (Hin f Hf) Hll) as []; [left; apply (level_split _ _ f l Hl Hp); apply list_elem_of_here|done].
    - by destruct (not_boundary l l Hll Hll ltac:(by right)). }
  destruct r as [f|]; cbn in Hr.
  - destruct Hr as (Hf & Hb & Hmin). pose proof (Hpast f Hf Hb) as Hfc. destruct c as [|g c']; [by apply not_elem_of_nil in Hfc|].
    destruct (proj1 (elem_of_cons _ _ _) Hfc) as [->|Hfc']; [by exists c'|exfalso]. destruct (Hc g ltac:(apply list_elem_of_here)) as [Hg Hlg]. destruct (Hc f Hfc) as [Hff _].
    assert (Hgf : file_before g f).
    { rewrite cons_middle, app_assoc, (cons_middle g), app_assoc in Hl. apply (level_split _ _ g f Hl); [rewrite elem_of_app, list_elem_of_singleton; by right|done]. }
    assert (Hbg : boundary (f_largest l) g) by (apply (boundary_between l g f); [done..|by right|apply Hb]).
    specialize (Hmin g ltac:(rewrite elem_of_app, !elem_of_cons; tauto) Hbg). pose proof (before_smallest g f Hg Hff Hgf). destruct Hg as (Hgs & _), Hff as (Hfs & _). pose proof (iorder_flip _ _ Hgs Hfs). lia.
  - intros g c' -> Hz. destruct (Hc g ltac:(apply list_elem_of_here)) as [Hg Hlg]. destruct (file_users l Hll) as (_ & Hk1 & _). destruct (file_users g Hg) as (Hk2 & _).
    apply (Hr g); [rewrite elem_of_app, !elem_of_cons; tauto|]. apply (boundary_between l g g); [done..|by left|].
    pose proof (order_flip _ _ Hk1 Hk2). pose proof (order_flip _ _ Hk2 Hk1). lia.
Qed.

Lemma wp_AddBoundary_segment {T} a s c (t : T) (Q : list FilePtr -> T -> Prop) : level_ok (a ++ s ++ c) -> s <> [] ->
  (forall c1 c2, c = c1 ++ c2 -> sealed_segment (a ++ s ++ c) (s ++ c1) -> Q (s ++ c1) t) -> wp (AddBoundaryInputs (a ++ s ++ c) s) Q (fun _ => False) t.
Proof.
  intros Hl Hne HQ. pose proof Hl as (Hok & Hsort & Hsz). unfold AddBoundaryInputs. apply wp_bind.
  pose proof Hok as [_ [Hoks _]%Forall_app]%Forall_app. apply wp_FindLargestKey; [done..|]. intros k Hk.
  destruct s as [|l s _] using rev_ind; [done|].
  assert (Hls : level_ok (s ++ [l])).
  { split; [done|]. split; [by apply StronglySorted_app_1_l with (l2 := c), (StronglySorted_app_1_r _ a)|]. pose proof (size_nonneg a). pose proof (size_nonneg c). unfold size in *. rewrite !length_app in *. lia. }
  apply largest_last in Hk; [|done]. subst k. clear Hls.
  apply (wp_loop_count _ (fun n loc t' => t' = t /\ exists c1 c2 s' m, c = c1 ++ c2 /\ (s ++ [l]) ++ c1 = s' ++ [m] /\ loc = (s' ++ [m], f_largest m) /\ n = List.length c2) _ (List.length c)).
  - intros n loc t' (-> & c1 & c2 & s' & m & -> & Es & -> & ->). unfold add_boundary_step. apply wp_bind.
    assert (E : a ++ (s ++ [l]) ++ c1 ++ c2 = (a ++ s') ++ m :: c2) by (rewrite (app_assoc (s ++ [l])), Es; by rewrite <- !app_assoc).
    apply wp_FindSmallestBoundaryFile; [done| |].
    { rewrite E in Hok. apply (elem_ok _ m Hok). apply elem_of_app. right. apply list_elem_of_here. }
    intros r Hr. rewrite E in Hl, Hr. apply next_boundary in Hr; [|done]. apply wp_ret. destruct r as [f|].
    + destruct Hr as (c' & ->). exists (List.length c'). split; [cbn; lia|]. split; [done|]. exists (c1 ++ [f]), c', (s' ++ [m]), f. rewrite <- Es. rewrite <- !app_assoc. done.
    + rewrite <- Es. apply (HQ c1 c2); [done|]. exists a, c2. split; [by rewrite <- !app_assoc|]. intros f g s2 c' E2 ->. rewrite Es in E2. apply app_inj_tail in E2 as [_ <-]. by eapply Hr.
  - split; [done|]. exists [], c, s, l. by rewrite app_nil_r.
  - rewrite !size_app in Hsz. unfold size in Hsz. change (2 ^ 31) with 2147483648 in Hsz. change (2 ^ 65) with 36893488147419103232. lia.
Qed.

(** At level 0 there is no boundary file that is not taken. *)
Lemma wp_AddBoundary_closed {T} files s (t : T) (Q : list FilePtr -> T -> Prop) : Forall file_ok files -> closed_inputs files s -> s <> [] ->
  Q s t -> wp (AddBoundaryInputs files s) Q (fun _ => False) t.
Proof.
  intros Hok (lo & hi & Hlo & Hhi & Hcl & ->) Hne HQ. unfold AddBoundaryInputs. apply wp_bind.
  assert (Hin : forall f, f ∈ filter (overlaps lo hi) files -> overlaps lo hi f /\ f ∈ files) by (intros f; by rewrite list_elem_of_filter).
  apply wp_FindLargestKey; [done|rewrite Forall_forall; intros f [_ Hf]%Hin; by apply (elem_ok files)|]. intros k [(h & Hh & <-) Hall]. destruct (Hin h Hh) as [Hho Hhf].
  pose proof (elem_ok files h Hok Hhf) as Hhok.
  apply (wp_loop_count _ (fun _ loc t' => t' = t /\ loc = (filter (overlaps lo hi) files, f_largest h)) _ 0%nat); [|done|done].
  intros n loc t' [-> ->]. unfold add_boundary_step. apply wp_bind, wp_FindSmallestBoundaryFile; [done|by apply Hhok|]. intros r Hr. apply wp_ret.
  destruct r as [f|]; [|done]. exfalso. destruct Hr as (Hf & [Hb Hu] & _). pose proof (elem_ok files f Hok Hf) as Hfok.
  destruct (file_users h Hhok) as (_ & Hk1 & _). destruct (file_users f Hfok) as (Hk2 & Hk3 & Hk4). fold (f_limit h) in Hu.
  pose proof (order_flip _ _ Hk1 Hk2). pose proof (order_flip _ _ Hk2 Hk1). destruct (Hcl h Hhf Hho) as [_ Hw2]. destruct Hho as [Ho1 Ho2].
  assert (Hfo : overlaps lo hi f).
  { split.
    - destruct lo as [b|]; [|done]. cbn in *. apply (order_trans _ (f_start f)); [done..| |done]. apply (order_trans _ (f_limit h)); [done..|lia].
    - destruct hi as [b|]; [|done]. cbn in *. apply (order_trans _ (f_limit h)); [done..|lia|done]. }
  specialize (Hall f ltac:(by apply list_elem_of_filter)). destruct Hfok as (Hfs & Hfl & Hfle & _). destruct Hhok as (_ & Hhl & _).
  pose proof (iorder_trans _ _ _ Hfs Hfl Hhl Hfle Hall). lia.
Qed.

Lemma wp_AddBoundaryInputs {T} level files s (t : T) (Q : list FilePtr -> T -> Prop) : searchable level files -> taken level files s -> s <> [] ->
  (forall s', sealed level files s' -> (forall f, f ∈ s -> f ∈ s') -> Q s' t) -> wp (AddBoundaryInputs files s) Q (fun _ => False) t.
Proof.
  unfold searchable, taken, sealed. intros Hf Ht Hne HQ. destruct (level =? 0).
  - apply wp_AddBoundary_closed; [apply Hf|done..|by apply HQ].
  - destruct Ht as (a & c & ->). apply wp_AddBoundary_segment; [done..|]. intros c1 c2 -> Hs. apply HQ; [done|]. intros f Hin. apply elem_of_app. by left.
Qed.

(** ** What is taken *)

(** A convex part of a sorted list is a segment of it. *)
Lemma filter_prefix {A} (R : A -> A -> Prop) (P : A -> Prop) `{!forall x, Decision (P x)} x l :
  (forall a b c, R a b -> R b c -> P a -> P c -> P b) -> StronglySorted R (x :: l) -> P x -> exists c, l = filter P l ++ c.
Proof.
  intros Hconv. revert x. induction l as [|y l IH]; intros x Hs Hx; [by exists []|]. apply StronglySorted_inv in Hs as [Hs Hxl]. destruct (decide (P y)) as [Hy|Hy].
  - rewrite filter_cons_True by done. destruct (IH y Hs Hy) as (c & E). exists c. cbn [app]. by rewrite <- E.
  - rewrite filter_cons_False by done. exists (y :: l). assert (E : filter P l = []); [|by rewrite E].
    apply filter_nothing. rewrite Forall_forall. intros z Hz Hpz. apply Hy. apply StronglySorted_inv in Hs as [_ Hyl]. rewrite Forall_forall in Hyl, Hxl. apply (Hconv x y z); [|by apply Hyl|done..].
    apply Hxl, list_elem_of_here.
Qed.

Lemma filter_segment {A} (R : A -> A -> Prop) (P : A -> Prop) `{!forall x, Decision (P x)} l :
  (forall a b c, R a b -> R b c -> P a -> P c -> P b) -> StronglySorted R l -> exists a c, l = a ++ filter P l ++ c.
Proof.
  intros Hconv Hs. induction l as [|x l IH]; [by exists [], []|]. destruct (decide (P x)) as [Hx|Hx].
  - rewrite filter_cons_True by done. destruct (filter_prefix R P x l Hconv Hs Hx) as (c & E). exists [], c. cbn [app]. by rewrite <- E.
  - rewrite filter_cons_False by done. apply StronglySorted_inv in Hs as [Hs _]. destruct (IH Hs) as (a & c & E). exists (x :: a), c. cbn [app]. by rewrite <- E.
Qed.

Lemma overlaps_segment files lo hi : level_ok files -> bound_ok lo -> bound_ok hi -> segment files (filter (overlaps lo hi) files).
Proof.
  intros (Hok & Hs & _) Hlo Hhi. unfold segment.
  apply (filter_segment (fun f g => file_ok f /\ file_ok g /\ file_before f g)).
  - intros f g h (Hf & Hg & Hfg) (_ & Hh & Hgh) [Hf1 _] [_ Hh2]. destruct (file_users f Hf) as (_ & Hk1 & _). destruct (file_users g Hg) as (Hk2 & Hk3 & Hk4). destruct (file_users h Hh) as (Hk5 & _).
    destruct (before_users f g Hf Hg Hfg) as [_ H1]. destruct (before_users g h Hg Hh Hgh) as [H2 _]. split.
    + destruct lo as [b|]; [|done]. cbn in *. apply (order_trans _ (f_limit f)); [done..|]. by apply (order_trans _ (f_start g)).
    + destruct hi as [b|]; [|done]. cbn in *. by apply (order_trans _ (f_start h)).
  - clear Hlo Hhi. induction Hs as [|f fs Hs IH Hall]; [constructor|]. apply Forall_cons_1 in Hok as [Hf Hok]. constructor; [by apply IH|]. rewrite Forall_forall in Hok, Hall |- *. intros g Hg. split; [done|]. split; [by apply Hok|by apply Hall].
Qed.

Lemma overlapping_taken level files lo hi r : 0 <= level -> searchable level files -> bound_ok lo -> bound_ok hi -> overlapping_result files level lo hi r -> taken level files r.
Proof.
  intros Hl Hf Hlo Hhi (lo' & hi' & -> & Hfix & Hleast). unfold taken, searchable in *. destruct (Z.eqb_spec level 0) as [->|Hne].
  - destruct (Hleast eq_refl) as (H1 & H2 & _ & H3 & _). by exists lo', hi'.
  - destruct (Hfix Hne) as [-> ->]. by apply overlaps_segment.
Qed.

Lemma taken_elem level files s f : taken level files s -> f ∈ s -> f ∈ files.
Proof. unfold taken. destruct (level =? 0); [intros (lo & hi & _ & _ & _ & ->); rewrite list_elem_of_filter; tauto|]. intros (a & c & ->) Hf. rewrite !elem_of_app. tauto. Qed.

Lemma sealed_elem level files s f : sealed level files s -> f ∈ s -> f ∈ files.
Proof. unfold sealed. destruct (level =? 0); [intros (lo & hi & _ & _ & _ & ->); rewrite list_elem_of_filter; tauto|]. intros (a & c & -> & _) Hf. rewrite !elem_of_app. tauto. Qed.

(** A key in the range of a file. *)
Definition key_in (f : FilePtr) (k : Slice) : Prop := internal_ok k /\ iorder (f_smallest f) k <= 0 /\ iorder k (f_largest f) <= 0.

Lemma key_in_users f k : key_in f k -> order (f_start f) (user_part k) <= 0 /\ order (user_part k) (f_limit f) <= 0.
Proof. intros (_ & H1 & H2). split; by apply user_order_le. Qed.

(** Keys of [g] are in front of those of [f] with the same user key: they are newer. *)
Definition newer_than (g f : FilePtr) : Prop := forall a b, key_in g a -> key_in f b -> order (user_part a) (user_part b) = 0 -> iorder a b < 0.

Lemma before_newer g f : file_ok g -> file_ok f -> file_before g f -> newer_than g f.
Proof.
  intros (_ & Hgl & _) (Hfs & _) Hb a b (Ha & _ & H1) (Hkb & H2 & _) _. apply (iorder_le_lt _ (f_largest g)); [done..|]. by apply (iorder_lt_le _ (f_smallest f)).
Qed.

Lemma apart_newer g f : file_ok g -> file_ok f -> order (f_limit f) (f_start g) < 0 -> newer_than g f.
Proof.
  intros Hg Hf Hb a b Ha Hkb Ho. exfalso. destruct (key_in_users g a Ha) as [H1 _]. destruct (key_in_users f b Hkb) as [_ H2]. destruct Ha as ([_ Ha] & _), Hkb as ([_ Hkb] & _).
  destruct (file_users f Hf) as (_ & Hk1 & _). destruct (file_users g Hg) as (Hk2 & _). pose proof (order_le_lt_trans _ _ _ Hkb Hk1 Hk2 H2 Hb). pose proof (order_lt_le_trans _ _ _ Hkb Hk2 Ha ltac:(done) H1).
  pose proof (order_flip _ _ Hkb Ha). lia.
Qed.

(** What is left behind at a level is newer than what is taken. *)
Lemma sealed_newer level files s f g : searchable level files -> sealed level files s -> f ∈ s -> g ∈ files -> g ∉ s -> newer_than g f.
Proof.
  unfold searchable, sealed. destruct (level =? 0).
  - intros [Hok _] (lo & hi & Hlo & Hhi & Hcl & ->) [Hfo Hf]%list_elem_of_filter Hg Hn a b Ha Hb Ho. exfalso. apply Hn, list_elem_of_filter. split; [|done].
    pose proof (elem_ok _ f Hok Hf) as Hfok. pose proof (elem_ok _ g Hok Hg) as Hgok. destruct (file_users f Hfok) as (Hk1 & Hk2 & _). destruct (file_users g Hgok) as (Hk3 & Hk4 & _).
    destruct (Hcl f Hf Hfo) as [Hw1 Hw2]. destruct (key_in_users g a Ha) as [H1 H2]. destruct (key_in_users f b Hb) as [H3 H4]. destruct Ha as ([_ Ha] & _), Hb as ([_ Hb] & _).
    pose proof (order_flip _ _ Ha Hb). pose proof (order_flip _ _ Hb Ha). split.
    + destruct lo as [x|]; [|done]. cbn in *. apply (order_trans _ (f_start f)); [done..|]. apply (order_trans _ (user_part b)); [done..|]. apply (order_trans _ (user_part a)); [done..|lia|done].
    + destruct hi as [x|]; [|done]. cbn in *. apply (order_trans _ (f_limit f)); [done..| |done]. apply (order_trans _ (user_part b)); [done..| |done]. apply (order_trans _ (user_part a)); [done..|lia].
  - intros Hl (p & c & -> & Hseal) Hf Hg Hn. pose proof Hl as (Hok & _). assert (Hfok : file_ok f) by (apply (elem_ok _ f Hok); rewrite !elem_of_app; tauto). pose proof (elem_ok _ g Hok Hg) as Hgok.
    rewrite !elem_of_app in Hg. destruct Hg as [Hg|[Hg|Hg]]; [|done|].
    + apply before_newer; [done..|]. apply (level_split _ _ g f Hl Hg). apply elem_of_app. by left.
    + apply apart_newer; [done..|]. destruct s as [|l s _] using rev_ind; [by apply not_elem_of_nil in Hf|]. destruct c as [|h c]; [by apply not_elem_of_nil in Hg|]. specialize (Hseal l h s c eq_refl eq_refl).
      assert (Hlok : file_ok l) by (apply (elem_ok _ l Hok); rewrite !elem_of_app, list_elem_of_singleton; naive_solver). assert (Hhok : file_ok h) by (apply (elem_ok _ h Hok); rewrite !elem_of_app, !elem_of_cons; tauto).
      destruct (file_users l Hlok) as (_ & Hk1 & _). destruct (file_users h Hhok) as (Hk2 & _). destruct (file_users f Hfok) as (_ & Hk3 & _). destruct (file_users g Hgok) as (Hk4 & _).
      assert (Hlh : order (f_limit l) (f_start h) < 0). { rewrite app_assoc in Hl. destruct (before_users l h Hlok Hhok) as [_ H]; [apply (level_split _ _ l h Hl); [rewrite !elem_of_app, list_elem_of_singleton; naive_solver|apply list_elem_of_here]|]. lia. }
      assert (Hfl : order (f_limit f) (f_limit l) <= 0).
      { apply elem_of_app in Hf as [Hf| ->%list_elem_of_singleton]; [|rewrite order_refl by done; lia]. apply user_order_le, Z.lt_le_incl. apply before_largest; [done..|]. rewrite <- app_assoc in Hl. rewrite app_assoc in Hl.
        apply (level_split _ _ f l Hl); [rewrite elem_of_app; by right|apply list_elem_of_here]. }
      assert (Hhg : order (f_start h) (f_start g) <= 0).
      { apply elem_of_cons in Hg as [->|Hg]; [rewrite order_refl by done; lia|]. rewrite app_assoc, cons_middle, app_assoc in Hl. apply before_users; [done..|]. apply (level_split _ _ h g Hl); [|done]. apply elem_of_app. right. by apply list_elem_of_singleton. }
      apply (order_le_lt_trans _ (f_limit l)); [done..|]. by apply (order_lt_le_trans _ (f_start h)).
Qed.

(** ** [SetupOtherInputs] *)

Lemma version_searchable v level : version_files_ok v -> 0 <= level -> searchable level (files_at v level).
Proof.
  intros Hv Hl. unfold searchable. destruct (Z.eqb_spec level 0) as [->|Hne]; [split; [by apply vo_files|by apply vo_count]|]. apply (vo_level v Hv). lia.
Qed.

(** The files of a level that overlap an internal key range, as user keys. *)
Definition overlapped (v : Version) (level : Z) (lo hi : list Z) : list FilePtr :=
  filter (overlaps (Some (user_part lo)) (Some (user_part hi))) (files_at v level).

(** The inputs of a compaction at [level]. *)
Record inputs_ok (v : Version) (level : Z) (inputs0 inputs1 : list FilePtr) : Prop := {
  io_sealed : sealed level (files_at v level) inputs0;
  io_some : inputs0 <> [];
  io_next : exists lo hi, range_of inputs0 lo hi /\ inputs1 = overlapped v (level + 1) lo hi
}.

Section Setup.
Context (v : Version) (Hv : version_files_ok v) (level : Z) (Hlevel : 0 <= level) (Hnext : level + 1 < kNumLevels).

Lemma elems_ok next s : (forall f, f ∈ s -> f ∈ files_at v next) -> Forall file_ok s.
Proof. intros Hs. rewrite Forall_forall. intros f Hf. by apply (elem_ok _ f (vo_files v Hv next)), Hs. Qed.

Lemma inputs_files inputs0 inputs1 : inputs_ok v level inputs0 inputs1 -> Forall file_ok (inputs0 ++ inputs1) /\ inputs0 ++ inputs1 <> [].
Proof.
  intros [Hs Hne (lo & hi & _ & ->)]. split; [|by destruct inputs0]. apply Forall_app. split.
  - apply (elems_ok level). intros f. by apply (sealed_elem level _ inputs0).
  - apply (elems_ok (level + 1)). intros f Hf. by apply list_elem_of_filter in Hf as [_ Hf].
Qed.

Lemma wp_overlapped {T} next lo hi (t : T) (Q : list FilePtr -> T -> Prop) : 0 < next < kNumLevels -> internal_ok lo -> internal_ok hi ->
  Q (overlapped v next lo hi) t -> wp (GetOverlappingInputs v next (Some lo) (Some hi)) Q (fun _ => False) t.
Proof.
  intros Hn Hlo Hhi HQ. apply wp_GetOverlappingInputs; [lia|by apply vo_files|by apply vo_count|by apply key_bound_internal..|].
  intros r (lo' & hi' & -> & Hfix & _). destruct Hfix as [-> ->]; [lia|done].
Qed.

(** The files that overlap a range at the level of the inputs, which holds [s]. *)
Lemma wp_wider_inputs {T} s lo hi (t : T) (Q : list FilePtr -> T -> Prop) : (forall f, f ∈ s -> f ∈ files_at v level) -> s <> [] -> internal_ok lo -> internal_ok hi ->
  (forall f, f ∈ s -> overlaps (Some (user_part lo)) (Some (user_part hi)) f) ->
  (forall r, taken level (files_at v level) r -> r <> [] -> (forall f, f ∈ s -> f ∈ r) -> Q r t) -> wp (GetOverlappingInputs v level (Some lo) (Some hi)) Q (fun _ => False) t.
Proof.
  intros Hs Hne Hlo Hhi Hov HQ. apply wp_GetOverlappingInputs; [lia|by apply vo_files|by apply vo_count|by apply key_bound_internal..|]. intros r Hr.
  assert (Hin : forall f, f ∈ s -> f ∈ r).
  { intros f Hf. destruct Hr as (lo' & hi' & -> & Hfix & Hleast). apply list_elem_of_filter. split; [|by apply Hs]. destruct (decide (level = 0)) as [Hz|Hz].
    - destruct (Hleast Hz) as (_ & _ & Hrange & _). apply (overlaps_in f (Some (user_part lo)) (Some (user_part hi))); [|done|by apply Hov]. by apply (elem_ok _ f (vo_files v Hv level)), Hs.
    - destruct (Hfix Hz) as [-> ->]. by apply Hov. }
  apply HQ; [|intros ->; destruct s as [|f s]; [done|]; by destruct (not_elem_of_nil f); apply Hin, list_elem_of_here|done].
  eapply overlapping_taken; [done|by apply version_searchable|apply key_bound_user, (key_bound_internal lo Hlo)|apply key_bound_user, (key_bound_internal hi Hhi)|exact Hr].
Qed.

Lemma wp_add_boundary {T} s (t : T) (Q : list FilePtr -> T -> Prop) : taken level (files_at v level) s -> s <> [] ->
  (forall s', sealed level (files_at v level) s' -> s' <> [] -> (forall f, f ∈ s -> f ∈ s') -> Q s' t) -> wp (AddBoundaryInputs (files_at v level) s) Q (fun _ => False) t.
Proof.
  intros Ht Hne HQ. apply (wp_AddBoundaryInputs level); [by apply version_searchable|done..|]. intros s' Hs' Hin. apply HQ; [done| |done].
  intros ->. destruct s as [|f s]; [done|]. destruct (not_elem_of_nil f). apply Hin, list_elem_of_here.
Qed.

(** A file is in the range of the files it is among. *)
Lemma range_overlaps s lo hi f : Forall file_ok s -> range_of s lo hi -> f ∈ s -> overlaps (Some (user_part lo)) (Some (user_part hi)) f.
Proof.
  intros Hok Hr Hf. destruct (range_ok s lo hi Hok Hr) as ([_ Hk1] & [_ Hk2] & _). destruct (range_users s lo hi f Hok Hr Hf) as [H1 H2].
  destruct (file_users f (elem_ok s f Hok Hf)) as (Hk3 & Hk4 & Hle). split; cbn.
  - by apply (order_trans _ (f_start f)).
  - by apply (order_trans _ (f_limit f)).
Qed.

Lemma wp_expanded_inputs {T} options inputs0 inputs1 lo hi (t : T) : inputs_ok v level inputs0 inputs1 -> range_of (inputs0 ++ inputs1) lo hi ->
  wp (expanded_inputs options v level inputs0 inputs1 lo hi) (fun r t' => t' = t /\ match r with
    | Some (expanded0, expanded1, range) => inputs_ok v level expanded0 expanded1 /\ (forall f, f ∈ inputs0 -> f ∈ expanded0) /\ range_of expanded0 (fst range) (snd range)
    | None => True
    end) (fun _ => False) t.
Proof.
  intros Hin Hr. destruct (inputs_files _ _ Hin) as [Hok _]. destruct (range_ok _ _ _ Hok Hr) as (Hlo & Hhi & _). unfold expanded_inputs. destruct (size inputs1 =? 0); [by apply wp_ret|].
  pose proof Hok as [Hok0 _]%Forall_app. apply wp_bind, (wp_wider_inputs inputs0); [intros f; by apply (sealed_elem level), io_sealed with (inputs1 := inputs1)|apply (io_some _ _ _ _ Hin)|done..| |].
  { intros f Hf. apply (range_overlaps (inputs0 ++ inputs1)); [done..|]. apply elem_of_app. by left. }
  intros e Ht Hne Hsub. apply wp_bind, wp_add_boundary; [done..|]. intros e0 Hs Hne0 Hsub0. cbv zeta. destruct (_ && _); [|by apply wp_ret].
  assert (Hoke : Forall file_ok e0) by (apply (elems_ok level); intros f; by apply (sealed_elem level)).
  apply wp_bind, wp_GetRange; [done..|]. intros nlo nhi Hnr. destruct (range_ok _ _ _ Hoke Hnr) as (Hnlo & Hnhi & _). cbn [fst snd].
  apply wp_bind, wp_overlapped; [lia|done..|]. apply wp_ret. split; [done|]. destruct (_ =? _); [|done]. split; [|split; [auto|done]].
  split; [done..|]. by exists nlo, nhi.
Qed.

(** What [SetupOtherInputs] makes of a compaction. *)
Record setup_ok (c c' : Compaction) (largest : list Z) : Prop := {
  so_inputs : inputs_ok v level (inputs_0 c') (inputs_1 c');
  so_picked f : f ∈ inputs_0 c -> f ∈ inputs_0 c';
  so_largest : exists lo, range_of (inputs_0 c') lo largest;
  so_grandparents : level + 2 < kNumLevels -> exists lo hi, range_of (inputs_0 c' ++ inputs_1 c') lo hi /\ grandparents_ c' = overlapped v (level + 2) lo hi;
  so_same : level_ c' = level /\ input_version_ c' = input_version_ c /\ max_output_file_size_ c' = max_output_file_size_ c /\
    grandparent_index_ c' = grandparent_index_ c /\ seen_key_ c' = seen_key_ c /\ overlapped_bytes_ c' = overlapped_bytes_ c /\ level_ptrs_ c' = level_ptrs_ c;
  so_edit : edit_ c' = SetCompactPointer level largest (edit_ c)
}.

Lemma wp_setup_inputs {T} options c (t : T) : level_ c = level -> taken level (files_at v level) (inputs_0 c) -> inputs_0 c <> [] ->
  wp (setup_inputs options v c) (fun r t' => t' = t /\ setup_ok c (fst r) (snd r)) (fun _ => False) t.
Proof.
  intros Hc Ht Hne. unfold setup_inputs. rewrite Hc. cbv zeta. apply wp_bind, wp_add_boundary; [done..|]. intros i0 Hs Hne0 Hsub.
  assert (Hok0 : Forall file_ok i0) by (apply (elems_ok level); intros f; by apply (sealed_elem level)).
  apply wp_bind, wp_GetRange; [done..|]. intros lo hi Hr. destruct (range_ok _ _ _ Hok0 Hr) as (Hlo & Hhi & _). cbn [fst snd].
  apply wp_bind, wp_overlapped; [lia|done..|]. set (i1 := overlapped v (level + 1) lo hi).
  assert (Hin : inputs_ok v level i0 i1) by (split; [done..|by exists lo, hi]). destruct (inputs_files _ _ Hin) as [Hoka Hnea].
  apply wp_bind. unfold GetRange2. apply wp_GetRange; [done..|]. intros alo ahi Har. cbn [fst snd].
  apply wp_bind. eapply wp_mono; [exact (wp_expanded_inputs options i0 i1 alo ahi t Hin Har)| |done]. intros r t' [-> Hexp].
  apply wp_bind, (wp_mono _ (fun r t' => t' = t /\ let '(i0', i1', largest, all) := r in inputs_ok v level i0' i1' /\ (forall f, f ∈ i0 -> f ∈ i0') /\
    (exists lo, range_of i0' lo largest) /\ range_of (i0' ++ i1') (fst all) (snd all)) _ (fun _ => False)); [| |done].
  { destruct r as [[[e0 e1] range]|].
    - destruct Hexp as (He & Hsube & Hre). destruct (inputs_files _ _ He) as [Hoke Hnee]. apply wp_bind, wp_GetRange; [done..|]. intros elo ehi Her. apply wp_ret. split; [done|]. split; [done|]. split; [done|]. split; [by exists (fst range)|done].
    - apply wp_ret. split; [done|]. split; [done|]. split; [done|]. split; [by exists lo|done]. }
  intros [[[i0' i1'] largest] all] t' (-> & Hin' & Hsub' & Hlar & Hall). destruct (inputs_files _ _ Hin') as [Hoka' _]. destruct (range_ok _ _ _ Hoka' Hall) as (Hk1 & Hk2 & _).
  apply wp_bind, (wp_mono _ (fun g t' => t' = t /\ (level + 2 < kNumLevels -> g = overlapped v (level + 2) (fst all) (snd all))) _ (fun _ => False)); [| |done].
  { destruct (Z.ltb_spec (level + 2) kNumLevels); [|apply wp_ret; split; [done|lia]]. by apply wp_overlapped; [lia|..]. }
  intros g t' [-> Hg]. apply wp_ret. split; [done|]. split; cbn [fst snd inputs_0 inputs_1 grandparents_ set_edit set_grandparents set_inputs edit_ level_ input_version_ max_output_file_size_ grandparent_index_ seen_key_ overlapped_bytes_ level_ptrs_]; try done; [auto|].
  intros Hl2. exists (fst all), (snd all). split; [done|by apply Hg].
Qed.
End Setup.
End Ranges.

Section Pick.
Context {U : Comparator} {LU : ComparatorLaws U}.

(** Where the next compactions begin: an empty string, or an internal key, for each level. *)
Definition pointers_ok (p : list (list Z)) : Prop := size p = kNumLevels /\ Forall (fun k => k = [] \/ internal_ok k) p.

(** The need for a compaction is at a level that has a next one, and has files. *)
Record compactable (v : Version) : Prop := {
  ca_size : SFleb one (compaction_score_ v) = true -> 0 <= compaction_level_ v /\ compaction_level_ v + 1 < kNumLevels /\ files_at v (compaction_level_ v) <> [];
  ca_seek f : file_to_compact_ v = Some f -> f ∈ files_at v (file_to_compact_level_ v) /\ 0 <= file_to_compact_level_ v /\ file_to_compact_level_ v + 1 < kNumLevels
}.

(** The current version of a set, at address [id] with [n] references. *)
Record set_ok (s : VersionSet) (id : Z) (v : Version) (n : Z) : Prop := {
  vo_current : current_ s = Some id;
  vo_cell : h_versions (vs_heap s) !! id = Some (v, n);
  vo_pointers : pointers_ok (compact_pointer_ s)
}.

Section State.
Context (s : VersionSet) (id : Z) (v : Version) (n : Z) (Hs : set_ok s id v n) (Hv : version_files_ok v).

Lemma wp_current_version (Q : Version -> VersionSet -> Prop) E : Q v s -> wp current_version Q E s.
Proof.
  intros HQ. destruct Hs as [H1 H2 _]. unfold current_version. apply wp_bind, wp_get, wp_bind, wp_or_stuck. exists id. split; [done|].
  apply wp_bind, wp_zoom. unfold version_cell. apply wp_bind, wp_get, wp_or_stuck. exists (v, n). split; [done|]. apply wp_ret. by destruct s.
Qed.

(** The set when a compaction of the level [level] has been picked. *)
Definition picked_state (level : Z) (largest : list Z) : VersionSet :=
  set_compact_pointer (<[Z.to_nat level := largest]> (compact_pointer_ s))
    (set_heap (set_h_versions (<[id := (v, s32 (n + 1))]> (h_versions (vs_heap s))) (vs_heap s)) s).

Definition referenced : VersionSet := set_heap (set_h_versions (<[id := (v, s32 (n + 1))]> (h_versions (vs_heap s))) (vs_heap s)) s.

Lemma wp_take_current c (Q : Compaction -> VersionSet -> Prop) E : Q (set_input_version (Some id) c) referenced -> wp (take_current c) Q E s.
Proof.
  intros HQ. destruct Hs as [H1 H2 _]. unfold take_current. apply wp_bind, wp_get, wp_bind, wp_or_stuck. exists id. split; [done|].
  apply wp_bind, wp_zoom. unfold Version_Ref, version_cell. apply wp_bind, wp_bind, wp_get, wp_or_stuck. exists (v, n). split; [done|]. by apply wp_modify, wp_ret.
Qed.

Lemma referenced_ok : set_ok referenced id v (s32 (n + 1)).
Proof. destruct Hs as [H1 H2 H3]. split; [done| |done]. cbn. by rewrite lookup_insert_eq. Qed.

(** What is handed out: a compaction of [level] with inputs that are complete, on the current version. *)
Record picked (level : Z) (start : list FilePtr) (c : Compaction) (s' : VersionSet) : Prop := {
  pk_inputs : inputs_ok v level (inputs_0 c) (inputs_1 c);
  pk_start f : f ∈ start -> f ∈ inputs_0 c;
  pk_level : level_ c = level;
  pk_version : input_version_ c = Some id;
  pk_grandparents : level + 2 < kNumLevels -> exists lo hi, range_of (inputs_0 c ++ inputs_1 c) lo hi /\ grandparents_ c = overlapped v (level + 2) lo hi;
  pk_pointer : exists lo largest, range_of (inputs_0 c) lo largest /\ edit_ c = SetCompactPointer level largest new_VersionEdit /\ s' = picked_state level largest;
  pk_fresh : grandparent_index_ c = 0 /\ seen_key_ c = false /\ overlapped_bytes_ c = 0 /\ level_ptrs_ c = repeat 0 (Z.to_nat kNumLevels)
}.

Lemma wp_setup options level start : 0 <= level -> level + 1 < kNumLevels -> taken level (files_at v level) start -> start <> [] ->
  wp (SetupOtherInputs options (set_inputs start [] (set_input_version (Some id) (new_Compaction options level)))) (picked level start) (fun _ => False) referenced.
Proof.
  intros Hl Hl1 Ht Hne. pose proof referenced_ok as [R1 R2 [R3 _]]. unfold SetupOtherInputs. apply wp_bind.
  assert (Hcur : forall Q E, Q v referenced -> wp current_version Q E referenced).
  { intros Q E HQ. unfold current_version. apply wp_bind, wp_get, wp_bind, wp_or_stuck. exists id. split; [done|].
    apply wp_bind, wp_zoom. unfold version_cell. apply wp_bind, wp_get, wp_or_stuck. eexists. split; [exact R2|]. by apply wp_ret. }
  apply Hcur, wp_bind. eapply wp_mono; [apply (wp_setup_inputs v Hv level Hl Hl1 options); done| |done].
  intros [c largest] s' [-> [I1 I2 I3 I4 I5 I6]]. cbn [fst snd] in *. destruct I5 as (E1 & E2 & _ & E4 & E5 & E6 & E7). cbn [level_ set_inputs set_input_version new_Compaction] in *. apply wp_bind, wp_get, wp_bind, wp_asserted; [apply bool_decide_eq_true; rewrite R3; lia|].
  destruct (inputs_files v Hv level _ _ I1) as [Hok _]. apply Forall_app in Hok as [Hok _]. assert (Hlarge : internal_ok largest) by (destruct I3 as (lo & Hr); apply (range_ok _ lo largest Hok Hr)).
  apply wp_bind, wp_key_Encode; [done|]. apply wp_bind, wp_modify, wp_ret. split; try done. destruct I3 as (lo & Hr). exists lo, largest. by split; [|split].
Qed.

(** Where [PickCompaction] begins. *)
Definition start_of (level : Z) (start : list FilePtr) : Prop :=
  0 <= level /\ level + 1 < kNumLevels /\ exists f, start = [f] /\ f ∈ files_at v level.

Lemma start_segment level start : start_of level start -> level <> 0 -> taken level (files_at v level) start.
Proof.
  intros (Hl & _ & f & -> & Hf) Hne. unfold taken. destruct (Z.eqb_spec level 0); [done|]. apply list_elem_of_split in Hf as (a & c & ->). by exists a, c.
Qed.

Lemma wp_after_pointer {T} pointer files (t : T) (Q : list FilePtr -> T -> Prop) : Forall file_ok files -> pointer = [] \/ internal_ok pointer ->
  (forall r, r = [] \/ (exists f, r = [f] /\ f ∈ files) -> Q r t) -> wp (after_pointer pointer files) Q (fun _ => False) t.
Proof.
  intros Hf Hp HQ. induction Hf as [|f files Hf _ IH]; cbn [after_pointer]; [apply wp_ret, HQ; by left|]. apply wp_bind.
  apply (wp_mono _ (fun _ t' => t' = t) _ (fun _ => False)); [| |done].
  - destruct Hp as [->|Hp]; [by apply wp_ret|]. destruct (size pointer =? 0); [by apply wp_ret|]. destruct Hf as (_ & Hfl & _). apply wp_bind, wp_key_Encode; [done|]. rewrite internal_Compare_order by done. by apply wp_bind, wp_ret, wp_ret.
  - intros after t' ->. destruct after; [apply wp_ret, HQ; right; exists f; split; [done|apply list_elem_of_here]|]. apply IH. intros r [->|(g & -> & Hg)]; apply HQ; [by left|]. right. exists g. split; [done|]. apply elem_of_cons. by right.
Qed.

Lemma wp_pick_start (Hc : compactable v) :
  wp (pick_start v) (fun r s' => s' = s /\ match r with
    | Some (level, start) => start_of level start /\ (SFleb one (compaction_score_ v) = true \/ exists f, file_to_compact_ v = Some f)
    | None => SFleb one (compaction_score_ v) = false /\ file_to_compact_ v = None
    end) (fun _ => False) s.
Proof.
  destruct Hs as [_ _ [Hp1 Hp2]]. destruct Hc as [C1 C2]. unfold pick_start. apply wp_bind, wp_get. destruct (SFleb one (compaction_score_ v)) eqn:Hscore.
  - destruct (C1 eq_refl) as (H1 & H2 & H3). cbv zeta. do 2 (apply wp_bind, wp_asserted; [lia|]).
    destruct (lookup_lt_is_Some_2 (compact_pointer_ s) (Z.to_nat (compaction_level_ v))) as [p Hp]; [unfold size in Hp1; lia|]. apply wp_bind, wp_or_stuck. exists p. split; [done|].
    apply wp_bind, wp_after_pointer; [apply (vo_files v Hv)|rewrite Forall_lookup in Hp2; by eapply Hp2|]. intros r Hr. destruct (files_at v (compaction_level_ v)) as [|f fs] eqn:Hfs; [done|].
    destruct Hr as [->|(g & -> & Hg)].
    + apply wp_bind, wp_bind, wp_or_stuck. exists f. split; [done|]. apply wp_ret, wp_ret. split; [done|]. split; [|by left]. split; [done|]. split; [done|]. exists f. rewrite Hfs. split; [done|apply list_elem_of_here].
    + apply wp_bind, wp_ret, wp_ret. split; [done|]. split; [|by left]. split; [done|]. split; [done|]. exists g. by rewrite Hfs.
  - destruct (file_to_compact_ v) as [f|] eqn:Hf; [|by apply wp_ret]. destruct (C2 f eq_refl) as (H1 & H2 & H3). apply wp_ret. split; [done|]. split; [|right; by exists f]. split; [done|]. split; [done|]. by exists f.
Qed.

(** [v] needs a compaction. *)
Definition needs_compaction : Prop := SFleb one (compaction_score_ v) = true \/ exists f, file_to_compact_ v = Some f.

Lemma wp_PickCompaction options (Hc : compactable v) :
  wp (PickCompaction options) (fun r s' => match r with
    | Some c => needs_compaction /\ exists level f, f ∈ files_at v level /\ 0 <= level /\ level + 1 < kNumLevels /\ picked level [f] c s'
    | None => ~ needs_compaction /\ s' = s
    end) (fun _ => False) s.
Proof.
  unfold PickCompaction. apply wp_bind, wp_current_version. apply wp_bind. eapply wp_mono; [by apply wp_pick_start| |done]. intros r s' [-> Hr]. destruct r as [[level start]|].
  2:{ destruct Hr as [H1 H2]. apply wp_ret. split; [|done]. intros [H|(f & H)]; congruence. }
  destruct Hr as [Hst Hneed]. pose proof Hst as (Hl & Hl1 & f & -> & Hf). pose proof (elem_ok _ f (vo_files v Hv level) Hf) as Hfok.
  apply wp_bind, wp_take_current, wp_bind.
  apply (wp_mono _ (fun r s' => s' = referenced /\ taken level (files_at v level) r /\ r <> [] /\ f ∈ r) _ (fun _ => False)); [| |done].
  - unfold level0_inputs. destruct (Z.eqb_spec level 0) as [->|Hne].
    + apply wp_bind, wp_GetRange; [done|by constructor|]. intros lo hi Hr. destruct (range_ok [f] lo hi ltac:(by constructor) Hr) as (Hlo & Hhi & _). cbn [fst snd].
      apply wp_bind, (wp_wider_inputs v Hv 0 Hl Hl1 [f]); [by intros g ->%list_elem_of_singleton|done|done|done| |].
      { intros g Hg. apply (range_overlaps [f] lo hi g); [by constructor|done|done]. }
      intros r Ht Hne Hin. apply wp_bind, wp_asserted; [|apply wp_ret; split; [done|]; split; [done|]; split; [done|]; apply Hin; by apply list_elem_of_singleton].
      destruct r; [done|]. destruct (Z.eqb_spec (size (f0 :: r)) 0) as [E|]; [by apply size_0 in E|done].
    + apply wp_ret. split; [done|]. split; [by apply start_segment|]. split; [done|by apply list_elem_of_singleton].
  - intros r s' (-> & Ht & Hne & Hin). apply wp_bind.
    change (set_inputs r [] (set_input_version (Some id) (set_inputs [f] [] (new_Compaction options level)))) with (set_inputs r [] (set_input_version (Some id) (new_Compaction options level))).
    eapply wp_mono; [by apply wp_setup| |done]. intros c s' Hp. apply wp_ret. split; [done|]. exists level, f. split; [done|]. split; [done|]. split; [done|].
    destruct Hp as [P1 P2 P3 P4 P5 P6 P7]. split; try done. intros g ->%list_elem_of_singleton. by apply P2.
Qed.

Lemma up_to_limit_prefix limit total files : exists rest, files = up_to_limit limit total files ++ rest.
Proof.
  revert total. induction files as [|f files IH]; intros total; [by exists []|]. cbn [up_to_limit]. destruct (limit <=? _); [by exists files|]. destruct (IH (u64 (total + f_size f))) as (rest & E). exists rest. cbn [app]. by rewrite <- E.
Qed.

Lemma up_to_limit_some limit total files : files <> [] -> up_to_limit limit total files <> [].
Proof. destruct files; [done|]. cbn [up_to_limit]. by destruct (limit <=? _). Qed.

Lemma wp_CompactRange options level begin end_ : 0 <= level -> level + 1 < kNumLevels -> key_bound_ok begin -> key_bound_ok end_ ->
  wp (CompactRange options level begin end_) (fun r s' => match r with
    | Some c => exists start, start <> [] /\ picked level start c s'
    | None => s' = s /\ exists lo hi, (level <> 0 -> lo = user_part <$> begin /\ hi = user_part <$> end_) /\ forall f, f ∈ files_at v level -> ~ overlaps lo hi f
    end) (fun _ => False) s.
Proof.
  intros Hl Hl1 Hb He. unfold CompactRange. apply wp_bind, wp_current_version. apply wp_bind, wp_GetOverlappingInputs; [lia|by apply vo_files|by apply vo_count|done|done|]. intros r Hr.
  destruct (Z.eqb_spec (size r) 0) as [E%size_0|Hne].
  - apply wp_ret. split; [done|]. destruct Hr as (lo & hi & -> & Hfix & _). exists lo, hi. split; [done|]. intros f Hf Ho. destruct (not_elem_of_nil f). rewrite <- E. by apply list_elem_of_filter.
  - assert (Hne' : r <> []) by (intros ->; by apply Hne). assert (Ht : taken level (files_at v level) r) by exact (overlapping_taken level _ _ _ r Hl (version_searchable v level Hv Hl) (key_bound_user _ Hb) (key_bound_user _ He) Hr).
    cbv zeta. set (start := if 0 <? level then _ else r).
    assert (Hst : taken level (files_at v level) start /\ start <> []).
    { unfold start. destruct (Z.ltb_spec 0 level); [|done]. split; [|by apply up_to_limit_some]. unfold taken in *. destruct (Z.eqb_spec level 0); [lia|]. destruct Ht as (a & c & E).
      destruct (up_to_limit_prefix (MaxFileSizeForLevel options level) 0 r) as (rest & Er). exists a, (rest ++ c). rewrite E, Er at 1. by rewrite <- app_assoc. }
    apply wp_bind, wp_take_current, wp_bind. eapply wp_mono; [apply wp_setup; [done|done|apply Hst|apply Hst]| |done]. intros c s' Hp. apply wp_ret. exists start. split; [apply Hst|done].
Qed.
End State.

(** A file that does not overlap the range of the files [s] shares no user key with any of them. *)
Definition no_shared_keys (g f : FilePtr) : Prop := order (f_limit g) (f_start f) < 0 \/ order (f_limit f) (f_start g) < 0.

Lemma not_overlapped v level s lo hi f g : Forall file_ok s -> range_of s lo hi -> file_ok g -> f ∈ s -> g ∈ files_at v level -> g ∉ overlapped v level lo hi -> no_shared_keys g f.
Proof.
  intros Hok Hr Hg Hf Hin Hn. destruct (range_ok s lo hi Hok Hr) as ([_ Hk1] & [_ Hk2] & _). destruct (range_users s lo hi f Hok Hr Hf) as [H1 H2].
  destruct (file_users f (elem_ok s f Hok Hf)) as (Hk3 & Hk4 & _). destruct (file_users g Hg) as (Hk5 & Hk6 & _). unfold no_shared_keys.
  destruct (decide (overlaps (Some (user_part lo)) (Some (user_part hi)) g)) as [Ho|Ho]; [destruct Hn; by apply list_elem_of_filter|].
  unfold overlaps, not_after, not_before in Ho. pose proof (order_flip _ _ Hk6 Hk1) as F1. pose proof (order_flip _ _ Hk2 Hk5) as F2.
  destruct (Z.le_gt_cases (order (user_part lo) (f_limit g)) 0) as [Hle|Hgt]; [|left; apply (order_lt_le_trans _ (user_part lo)); [done..|lia|done]].
  right. apply (order_le_lt_trans _ (user_part hi)); [done..|]. lia.
Qed.

(** The inputs of a compaction are complete: what is left at their level is newer, what is left at the next one is apart. *)
Record complete_inputs (v : Version) (level : Z) (inputs0 inputs1 : list FilePtr) : Prop := {
  ci_some : inputs0 <> [];
  ci_level f : f ∈ inputs0 -> f ∈ files_at v level;
  ci_next f : f ∈ inputs1 -> f ∈ files_at v (level + 1);
  ci_newer f g : f ∈ inputs0 -> g ∈ files_at v level -> g ∉ inputs0 -> newer_than g f;
  ci_apart f g : f ∈ inputs0 -> g ∈ files_at v (level + 1) -> g ∉ inputs1 -> no_shared_keys g f
}.

Lemma inputs_complete v level i0 i1 : version_files_ok v -> 0 <= level -> inputs_ok v level i0 i1 -> complete_inputs v level i0 i1.
Proof.
  intros Hv Hl [Hs Hne (lo & hi & Hr & ->)]. assert (Hsub : forall f, f ∈ i0 -> f ∈ files_at v level) by (intros f; by apply (sealed_elem level)). split; [done|done| | |].
  - intros f Hf. by apply list_elem_of_filter in Hf as [_ Hf].
  - intros f g Hf Hg Hn. apply (sealed_newer level (files_at v level) i0); [by apply version_searchable|done..].
  - intros f g Hf Hg Hn. apply (not_overlapped v (level + 1) i0 lo hi); [|done| |done..]; [by apply (elems_ok v Hv level)|by apply (elem_ok _ g (vo_files v Hv (level + 1)))].
Qed.
End Pick.

(** C35: the choice of a compaction. Given a version set whose current version has its files in order,
    [PickCompaction] returns, and gives a compaction exactly if the version's score or its seeks ask
    for one. The inputs are complete. At their level, no file that is left behind has an older
    entry for a user key that a file taken has: those of level 0 that overlap are all taken, and past it
    those that a user key connects. At the next level every file that shares user keys with
    them is taken. The compaction holds a reference to the version, its level has a next one, and the level's
    next compaction begins where this one ends. *)
Theorem compaction_picked {U : Comparator} {LU : ComparatorLaws U} (options : Options) (s : VersionSet) (id : Z) (v : Version) (n : Z) :
  set_ok s id v n -> version_files_ok v -> compactable v ->
  exists r s', PickCompaction options s = (Ret r, s') /\
    match r with
    | Some c => needs_compaction v /\ 0 <= level_ c /\ level_ c + 1 < kNumLevels /\ complete_inputs v (level_ c) (inputs_0 c) (inputs_1 c) /\
        input_version_ c = Some id /\ exists lo largest, range_of (inputs_0 c) lo largest /\ s' = picked_state s id v n (level_ c) largest
    | None => ~ needs_compaction v /\ s' = s
    end.
Proof.
  intros Hs Hv Hc. destruct (wp_Ret _ _ _ (wp_PickCompaction s id v n Hs Hv options Hc)) as (r & s' & E & Hr). exists r, s'. split; [done|]. destruct r as [c|]; [|done].
  destruct Hr as (Hneed & level & f & Hf & Hl & Hl1 & [P1 P2 <- P4 _ (lo & largest & P6 & _ & P7) _]). split; [done|]. split; [done|]. split; [done|]. split; [by apply inputs_complete|]. split; [done|]. by exists lo, largest.
Qed.

(** A version with two files at level 0 that overlap, which is due for a compaction. *)
#[local] Existing Instance BytewiseComparator.
Definition pick_version : Version := mk_Version (files_ sample_version_files) None (-1) one 0.
Definition pick_set : VersionSet :=
  mk_vset 20 3 31 12 0 (Some 1) (repeat [] (Z.to_nat kNumLevels)) (mk_heap {[1 := (pick_version, 1)]} [1] ∅ ∅ 2).

Lemma pick_version_ok : version_files_ok (LU := bytewise_laws) pick_version.
Proof. destruct sample_version_files_ok as [H1 H2 H3]. by split. Qed.

Lemma compaction_picked_witness :
  exists c s', PickCompaction default_Options pick_set = (Ret (Some c), s') /\ map f_number (inputs_0 c) = [9; 8] /\ map f_number (inputs_1 c) = [5] /\
    complete_inputs (LU := bytewise_laws) pick_version 0 (inputs_0 c) (inputs_1 c).
Proof.
  destruct (compaction_picked (LU := bytewise_laws) default_Options pick_set 1 pick_version 1) as (r & s' & E & Hr).
  - split; [done|done|]. split; [done|]. repeat constructor.
  - exact pick_version_ok.
  - split; [|done]. intros _. split; [done|]. split; [done|]. done.
  - assert (Hm : (fun c => (level_ c, map f_number (inputs_0 c), map f_number (inputs_1 c))) <$> (match fst (PickCompaction default_Options pick_set) with Ret r => r | _ => None end) = Some (0, [9; 8], [5])) by (vm_compute; reflexivity).
    rewrite E in Hm. cbn [fst] in Hm. destruct r as [c|]; [|done]. cbn in Hm. injection Hm as Hl H0 H1. destruct Hr as (_ & _ & _ & Hc & _). rewrite Hl in Hc. exists c, s'. split; [exact E|]. split; [exact H0|]. split; [exact H1|exact Hc].
Defined.
