(* ===== verification/LdbBuilderSave.v ===== *)
(** [VersionSet::Builder]: what [Apply] and [SaveTo] make of the files of a level: those of the
    base and the added ones, in order, without the deleted ones.

    [VersionSet::Builder::Apply]: after a sequence of edits, the new version has the files of the
    base and of the edits that were not deleted since.

    [VersionSet::Builder] as a whole: edits applied to a version and saved give a version whose
    files are what the edits say, in order and without overlap. *)

From Stdlib Require Import ZArith Lia List String Bool SpecFloat.
From stdpp Require Import base gmap list sorting.
From S2P Require Import Prelude Base128 LdbBase LdbText LdbCoding LdbKeys LdbKeyProps LdbVersionEdit LdbIterator LdbFormat LdbVersion LdbVersionOverlap LdbVersionSet LdbCompaction LdbCompactionPick.

Section Order.
Context {U : Comparator} {LU : ComparatorLaws U}.

Abbreviation iorder := internal_order.

(** ** The order of files *)

Definition file_lt (f g : FilePtr) : Prop :=
  iorder (f_smallest f) (f_smallest g) < 0 \/ iorder (f_smallest f) (f_smallest g) = 0 /\ f_number f < f_number g.
#[export] Instance file_lt_dec f g : Decision (file_lt f g) := or_dec _ _.
Definition file_le (f g : FilePtr) : Prop := ~ file_lt g f.

Lemma wp_BySmallestKey {S} f g (s : S) (Q : bool -> S -> Prop) E : file_ok f -> file_ok g -> Q (bool_decide (file_lt f g)) s -> wp (BySmallestKey f g) Q E s.
Proof.
  intros (Hf & _) (Hg & _) HQ. unfold BySmallestKey. rewrite key_Compare_order by done. apply wp_bind, wp_ret, wp_ret.
  assert (Hb : (if negb (iorder (f_smallest f) (f_smallest g) =? 0) then iorder (f_smallest f) (f_smallest g) <? 0 else f_number f <? f_number g) = bool_decide (file_lt f g)); [|by rewrite Hb].
  apply eq_true_iff_eq. rewrite bool_decide_eq_true. unfold file_lt. destruct (Z.eqb_spec (iorder (f_smallest f) (f_smallest g)) 0); cbn [negb]; rewrite Z.ltb_lt; lia.
Qed.

Lemma smallest_eq_lt a b c : internal_ok a -> internal_ok b -> internal_ok c -> iorder a b = 0 -> iorder b c < 0 -> iorder a c < 0.
Proof. intros Ha Hb Hc H1 H2. apply (iorder_le_lt a b c); [done..|lia|done]. Qed.

Lemma file_le_trans f g h : file_ok f -> file_ok g -> file_ok h -> file_le f g -> file_le g h -> file_le f h.
Proof.
  intros (Hf & _) (Hg & _) (Hh & _) H1 H2 H3. unfold file_le, file_lt in *.
  pose proof (iorder_flip _ _ Hf Hg). pose proof (iorder_flip _ _ Hg Hf). pose proof (iorder_flip _ _ Hg Hh). pose proof (iorder_flip _ _ Hh Hg). pose proof (iorder_flip _ _ Hf Hh). pose proof (iorder_flip _ _ Hh Hf).
  pose proof (iorder_trans _ _ _ Hf Hg Hh). pose proof (iorder_trans _ _ _ Hh Hg Hf). pose proof (iorder_trans _ _ _ Hg Hf Hh). pose proof (iorder_trans _ _ _ Hh Hf Hg). pose proof (iorder_trans _ _ _ Hg Hh Hf). pose proof (iorder_trans _ _ _ Hf Hh Hg). lia.
Qed.

Lemma file_lt_le f g : file_ok f -> file_ok g -> file_lt f g -> file_le f g.
Proof. intros (Hf & _) (Hg & _) H1 H2. unfold file_lt in *. pose proof (iorder_flip _ _ Hf Hg). pose proof (iorder_flip _ _ Hg Hf). lia. Qed.

Lemma file_before_lt f g : file_ok f -> file_ok g -> file_before f g -> file_lt f g.
Proof. intros Hf Hg H. left. by apply before_smallest. Qed.

Lemma file_lt_antisym f g : file_ok f -> file_ok g -> file_le f g -> file_le g f -> f_number f = f_number g.
Proof.
  intros (Hf & _) (Hg & _) H1 H2. unfold file_le, file_lt in *. pose proof (iorder_flip _ _ Hf Hg). pose proof (iorder_flip _ _ Hg Hf). lia.
Qed.

(** ** The set of added files *)

Abbreviation ordered := (StronglySorted file_le).

Lemma ordered_cons f l : Forall file_ok (f :: l) -> ordered l -> (forall g, g ∈ l -> file_le f g) -> ordered (f :: l).
Proof. intros _ Hl H. constructor; [done|]. by rewrite Forall_forall. Qed.

(** The file is inserted where it belongs; its number is not in the set. *)
Lemma wp_insert_file {S} f l (s : S) (Q : list FilePtr -> S -> Prop) E : Forall file_ok (f :: l) -> ordered l -> f_number f ∉ map f_number l ->
  (forall r, r ≡ₚ f :: l -> ordered r -> Q r s) -> wp (insert_file f l) Q E s.
Proof.
  intros Hok Hs Hn HQ. apply Forall_cons_1 in Hok as [Hf Hok].
  apply (wp_mono _ (fun r s' => s' = s /\ r ≡ₚ f :: l /\ ordered r) _ E); [|intros r s' (-> & H1 & H2); by apply HQ|done]. clear HQ Q.
  induction Hs as [|g l Hs IH Hall]; cbn [insert_file]; [apply wp_ret; split; [done|]; split; [done|by repeat constructor]|].
  apply Forall_cons_1 in Hok as [Hg Hok]. rewrite Forall_forall in Hall. apply wp_bind, wp_BySmallestKey; [done..|]. case_bool_decide as Hlt.
  - apply wp_ret. split; [done|]. split; [done|]. constructor; [by constructor; [|rewrite Forall_forall]|]. apply Forall_cons. split; [by apply file_lt_le|].
    rewrite Forall_forall. intros h Hh. apply (file_le_trans f g h); [done|done|by apply (elem_ok l)|by apply file_lt_le|by apply Hall].
  - apply wp_bind, wp_BySmallestKey; [done..|]. case_bool_decide as Hgt.
    + apply wp_bind. eapply wp_mono; [apply IH; [done|]| |done].
      { intros Hin. apply Hn. cbn. apply elem_of_cons. by right. }
      intros r s' (-> & Hr & Hsr). apply wp_ret. split; [done|]. split; [by rewrite Hr, Permutation_swap|]. constructor; [done|]. rewrite Forall_forall. intros h Hh. rewrite Hr in Hh. apply elem_of_cons in Hh as [->|Hh]; [done|by apply Hall].
    + exfalso. apply Hn. cbn. rewrite (file_lt_antisym f g Hf Hg Hgt Hlt). apply list_elem_of_here.
Qed.

(** ** The order in which [SaveTo] goes through the files *)

(** The files in front of the first one that [f] comes before, and the others. *)
Fixpoint split_at (f : FilePtr) (base : list FilePtr) : list FilePtr * list FilePtr :=
  match base with
  | [] => ([], [])
  | g :: base' => if decide (file_lt f g) then ([], base) else (g :: fst (split_at f base'), snd (split_at f base'))
  end.

Fixpoint interleave (base added : list FilePtr) : list FilePtr :=
  match added with
  | [] => base
  | f :: added' => fst (split_at f base) ++ f :: interleave (snd (split_at f base)) added'
  end.

Lemma wp_upper_bound {S} base f (s : S) (Q : list FilePtr * list FilePtr -> S -> Prop) E : Forall file_ok (f :: base) -> Q (split_at f base) s -> wp (upper_bound base f) Q E s.
Proof.
  intros [Hf Hok]%Forall_cons_1 HQ. apply (wp_mono _ (fun r s' => s' = s /\ r = split_at f base) _ E); [|intros r s' [-> ->]; done|done]. clear HQ Q.
  induction Hok as [|g base Hg Hok IH]; cbn [upper_bound split_at]; [by apply wp_ret|]. apply wp_bind, wp_BySmallestKey; [done..|]. case_bool_decide.
  - rewrite decide_True by done. by apply wp_ret.
  - rewrite decide_False by done. apply wp_bind. eapply wp_mono; [exact IH| |done]. intros r s' [-> ->]. by apply wp_ret.
Qed.

Lemma split_at_app f base : fst (split_at f base) ++ snd (split_at f base) = base.
Proof. induction base as [|g base IH]; [done|]. cbn [split_at]. destruct (decide _); [done|]. cbn [fst snd app]. by rewrite IH. Qed.

Lemma split_at_spec f base : Forall file_ok (f :: base) -> ordered base ->
  (forall g, g ∈ fst (split_at f base) -> file_le g f) /\ (forall g, g ∈ snd (split_at f base) -> file_lt f g).
Proof.
  intros [Hf Hok]%Forall_cons_1 Hs. induction Hs as [|g base Hs IH Hall]; [split; intros g Hg; by apply not_elem_of_nil in Hg|]. apply Forall_cons_1 in Hok as [Hg Hok]. cbn [split_at]. rewrite Forall_forall in Hall.
  destruct (decide (file_lt f g)) as [Hlt|Hge]; cbn [fst snd].
  - split; [intros h Hh; by apply not_elem_of_nil in Hh|]. intros h [->|Hh]%elem_of_cons; [done|]. destruct (decide (file_lt f h)) as [|Hn]; [done|exfalso].
    apply (file_le_trans g h f Hg (elem_ok base h Hok Hh) Hf (Hall h Hh) Hn). done.
  - destruct (IH Hok) as [I1 I2]. split; [|done]. intros h [->|Hh]%elem_of_cons; [done|by apply I1].
Qed.

Lemma interleave_perm base added : interleave base added ≡ₚ base ++ added.
Proof.
  revert base. induction added as [|f added IH]; intros base; cbn [interleave]; [by rewrite app_nil_r|]. rewrite IH. rewrite <- (split_at_app f base) at 3. rewrite <- app_assoc. apply Permutation_app_head. by rewrite Permutation_middle.
Qed.

Lemma interleave_ordered base added : Forall file_ok (base ++ added) -> ordered base -> ordered added -> ordered (interleave base added).
Proof.
  intros [Hb Ha]%Forall_app. revert base Hb. induction added as [|f added IH]; intros base Hb Hsb Hsa; cbn [interleave]; [done|].
  apply Forall_cons_1 in Ha as [Hf Ha]. apply StronglySorted_inv in Hsa as [Hsa Hfa]. rewrite Forall_forall in Hfa. destruct (split_at_spec f base ltac:(by constructor) Hsb) as [H1 H2].
  pose proof (split_at_app f base) as E. rewrite <- E in Hb, Hsb. apply Forall_app in Hb as [Hb1 Hb2]. apply StronglySorted_app in Hsb as (H12 & Hs1 & Hs2).
  assert (Hrest : forall g, g ∈ interleave (snd (split_at f base)) added -> file_ok g /\ file_le f g).
  { intros g Hg. rewrite interleave_perm, elem_of_app in Hg. destruct Hg as [Hg|Hg].
    - pose proof (elem_ok _ g Hb2 Hg) as Hgok. split; [done|]. apply file_lt_le; [done..|by apply H2].
    - split; [by apply (elem_ok added)|by apply Hfa]. }
  apply StronglySorted_app_2; [|done|constructor; [by apply IH|rewrite Forall_forall; intros g Hg; by apply Hrest]].
  intros g h Hg [->|Hh]%elem_of_cons; [by apply H1|]. destruct (Hrest h Hh) as [Hhok Hfh]. by apply (file_le_trans g f h (elem_ok _ g Hb1 Hg) Hf Hhok (H1 g Hg) Hfh).
Qed.

(** ** [SaveTo] at one level *)

(** A reference to each of the files. *)
Definition bump1 (h : Heap) (f : FilePtr) : Heap :=
  match h_refs h !! f_address f with Some n => set_h_refs (<[f_address f := s32 (n + 1)]> (h_refs h)) h | None => h end.
Definition bump (h : Heap) (fs : list FilePtr) : Heap := fold_left bump1 fs h.

Definition allocated (h : Heap) (f : FilePtr) : Prop := is_Some (h_refs h !! f_address f).

Lemma bump1_allocated h f g : allocated h g -> allocated (bump1 h f) g.
Proof.
  unfold allocated, bump1. intros Hg. destruct (h_refs h !! f_address f) as [n|] eqn:E; [|done]. cbn. destruct (decide (f_address f = f_address g)) as [->|Hne]; [rewrite lookup_insert_eq; by eexists|by rewrite lookup_insert_ne].
Qed.

Lemma bump_allocated h fs g : allocated h g -> allocated (bump h fs) g.
Proof. revert h. induction fs as [|f fs IH]; intros h Hg; [done|]. apply (IH (bump1 h f)). by apply bump1_allocated. Qed.

Lemma bump_app h a b : bump h (a ++ b) = bump (bump h a) b.
Proof. unfold bump. by rewrite fold_left_app. Qed.

Lemma wp_file_ref f h (Q : unit -> Heap -> Prop) E : allocated h f -> Q tt (bump1 h f) -> wp (file_ref f) Q E h.
Proof. intros [n Hn] HQ. unfold file_ref. apply wp_bind, wp_get, wp_bind, wp_or_stuck. exists n. split; [done|]. apply wp_modify. unfold bump1 in HQ. by rewrite Hn in HQ. Qed.

Section Level.
Context (l : LevelState) (level : Z).

Definition kept (f : FilePtr) : Prop := f_number f ∉ deleted_files l.
#[export] Instance kept_dec f : Decision (kept f) := not_dec _.

Lemma wp_MaybeAddFile files f h (Q : list FilePtr -> Heap -> Prop) : Forall file_ok (files ++ [f]) -> allocated h f ->
  (kept f -> 0 < level -> StronglySorted file_before (files ++ [f])) ->
  Q (files ++ filter kept [f]) (bump h (filter kept [f])) -> wp (MaybeAddFile l level files f) Q (fun _ => False) h.
Proof.
  intros Hok Hal Hs HQ. unfold MaybeAddFile. rewrite filter_cons, filter_nil in HQ. destruct (decide (kept f)) as [Hk|Hk].
  - rewrite bool_decide_eq_false_2 by done. apply wp_bind. apply (wp_mono _ (fun _ h' => h' = h) _ (fun _ => False)); [| |done].
    + destruct files as [|g files _] using rev_ind; [by apply wp_ret|]. rewrite last_snoc. destruct (Z.ltb_spec 0 level) as [Hl|Hl]; [|by apply wp_ret]. specialize (Hs Hk Hl).
      apply Forall_app in Hok as [[_ Hg]%Forall_app Hf]. apply Forall_cons_1 in Hg as [(_ & Hg & _) _]. apply Forall_cons_1 in Hf as [(Hf & _) _]. rewrite key_Compare_order by done.
      apply wp_bind, wp_ret, wp_asserted; [|done]. apply Z.ltb_lt. apply (StronglySorted_app_1_elem_of _ _ _ g f Hs); [apply elem_of_app; right|]; by apply list_elem_of_singleton.
    + intros [] h' ->. apply wp_bind, wp_file_ref; [done|]. by apply wp_ret.
  - assert (Hin : f_number f ∈ deleted_files l) by (destruct (decide (f_number f ∈ deleted_files l)); [done|by destruct Hk]). rewrite bool_decide_eq_true_2 by done. apply wp_ret. by rewrite app_nil_r in HQ.
Qed.

Lemma wp_add_files fs files h (Q : list FilePtr -> Heap -> Prop) : Forall file_ok (files ++ fs) -> Forall (allocated h) fs ->
  (0 < level -> StronglySorted file_before (files ++ filter kept fs)) ->
  Q (files ++ filter kept fs) (bump h (filter kept fs)) -> wp (fold_m (MaybeAddFile l level) fs files) Q (fun _ => False) h.
Proof.
  intros Hok Hal Hs HQ. eapply (wp_mono _ (fun r h' => r = files ++ filter kept fs /\ h' = bump h (filter kept fs)) _ (fun _ => False)); [|intros r h' [-> ->]; done|done].
  apply (wp_fold_m (MaybeAddFile l level) (fun pre r h' => r = files ++ filter kept pre /\ h' = bump h (filter kept pre))).
  - intros pre f post r h' -> [-> ->]. apply wp_MaybeAddFile.
    + apply Forall_app in Hok as [H1 [H2 H3]%Forall_app]. apply Forall_cons_1 in H3 as [H3 _]. apply Forall_app. split; [apply Forall_app; split; [done|]|by constructor].
      rewrite Forall_forall in H2 |- *. intros g [_ Hg]%list_elem_of_filter. by apply H2.
    + apply Forall_app in Hal as [_ Hal]. apply Forall_cons_1 in Hal as [Hal _]. by apply bump_allocated.
    + intros Hk Hl. specialize (Hs Hl). rewrite cons_middle, !filter_app, !app_assoc in Hs. apply StronglySorted_app_1_l in Hs. by rewrite filter_cons_True in Hs.
    + by rewrite filter_app, app_assoc, bump_app.
  - split; [by rewrite filter_nil, app_nil_r|done].
Qed.

Lemma wp_no_overlap {S} files (s : S) (Q : unit -> S -> Prop) : Forall file_ok files -> StronglySorted file_before files -> Q tt s -> wp (no_overlap files) Q (fun _ => False) s.
Proof.
  intros Hok Hs HQ. induction Hs as [|f files Hs IH Hall]; [by apply wp_ret|]. destruct files as [|g files]; [by apply wp_ret|]. cbn [no_overlap].
  apply Forall_cons_1 in Hok as [(_ & Hf & _) Hok]. pose proof Hok as [(Hg & _) _]%Forall_cons_1. rewrite key_Compare_order by done. apply wp_bind, wp_ret, wp_bind, wp_asserted; [|by apply IH].
  apply Z.ltb_lt. apply Forall_cons_1 in Hall as [Hall _]. exact Hall.
Qed.

Context (base : list FilePtr).
Let all : list FilePtr := interleave base (added_files l).

(** What is saved. *)
Definition saved_files : list FilePtr := filter kept all.

Lemma wp_save_level_loop h : Forall file_ok (base ++ added_files l) -> Forall (allocated h) (base ++ added_files l) ->
  (0 < level -> StronglySorted file_before saved_files) ->
  wp (st <- fold_m (save_added l level) (added_files l) (base, []) ;; fold_m (MaybeAddFile l level) (fst st) (snd st))
    (fun r h' => r = saved_files /\ h' = bump h saved_files) (fun _ => False) h.
Proof.
  intros Hok Hal Hs. assert (Hall : forall f, f ∈ all -> file_ok f /\ allocated h f).
  { intros f Hf. unfold all in Hf. rewrite interleave_perm in Hf. rewrite Forall_forall in Hok, Hal. auto. }
  assert (Hpart : forall a b c, all = a ++ b ++ c -> Forall file_ok (filter kept a ++ b) /\ Forall (allocated (bump h (filter kept a))) b /\ (0 < level -> StronglySorted file_before (filter kept a ++ filter kept b))).
  { intros a b c E. split; [|split].
    - apply Forall_app. rewrite !Forall_forall. split; [intros f [_ Hf]%list_elem_of_filter|intros f Hf]; apply Hall; rewrite E, !elem_of_app; tauto.
    - rewrite Forall_forall. intros f Hf. apply bump_allocated, Hall. rewrite E, !elem_of_app. tauto.
    - intros Hl. specialize (Hs Hl). unfold saved_files in Hs. rewrite E, !filter_app, app_assoc in Hs. by apply StronglySorted_app_1_l in Hs. }
  apply wp_bind. eapply wp_mono.
  - apply (wp_fold_m (save_added l level) (fun pre st h' => exists post F, added_files l = pre ++ post /\ all = F ++ interleave (fst st) post /\ snd st = filter kept F /\ h' = bump h (filter kept F) /\
      Forall file_ok (fst st))) with (E := fun _ => False).
    + intros pre f post [rest files] h' El (post' & F & El' & Eall & Ef & -> & Hrest). rewrite El in El'. apply app_inv_head in El' as <-. cbn [fst snd] in *. subst files.
      assert (Hfok : file_ok f). { apply Hall. unfold all. rewrite interleave_perm, elem_of_app, El, elem_of_app, elem_of_cons. tauto. }
      cbn [interleave] in Eall. set (a := fst (split_at f rest)) in *. set (b := snd (split_at f rest)) in *.
      assert (E1 : all = F ++ a ++ (f :: interleave b post)) by (by rewrite Eall). assert (E2 : all = (F ++ a) ++ [f] ++ interleave b post) by (by rewrite Eall, <- app_assoc).
      unfold save_added. cbn [fst snd]. apply wp_bind, wp_upper_bound; [by constructor|]. fold a b. destruct (Hpart _ _ _ E1) as (P1 & P2 & P3). destruct (Hpart _ _ _ E2) as (P4 & P5 & P6).
      apply wp_bind, wp_add_files; [done..|]. rewrite <- filter_app. apply wp_bind, wp_MaybeAddFile; [done| | |].
      * apply Forall_cons_1 in P5 as [P5 _]. by rewrite filter_app, bump_app in P5.
      * intros Hk Hl. specialize (P6 Hl). by rewrite filter_cons_True in P6.
      * apply wp_ret. exists post, (F ++ a ++ [f]). cbn [fst snd]. split; [by rewrite El, <- app_assoc|]. split; [by rewrite E2, <- !app_assoc|]. split; [by rewrite <- filter_app, <- app_assoc|].
        split; [by rewrite !filter_app, !bump_app|]. pose proof (split_at_app f rest) as Es. rewrite <- Es in Hrest. by apply Forall_app in Hrest as [_ Hrest].
    + exists (added_files l), []. split; [done|]. split; [done|]. split; [done|]. split; [done|]. by apply Forall_app in Hok as [Hok _].
  - intros [rest files] h' (post & F & El & Eall & Ef & -> & Hrest). cbn [fst snd] in *. subst files. assert (post = []) as ->. { rewrite <- (app_nil_r (added_files l)) in El at 1. by apply app_inv_head in El as <-. }
    cbn [interleave] in Eall. rewrite <- (app_nil_r rest) in Eall. destruct (Hpart _ _ _ Eall) as (P1 & P2 & P3). apply wp_add_files; [done..|]. unfold saved_files. rewrite Eall, app_nil_r, filter_app, bump_app. done.
  - done.
Qed.
End Level.

(** ** [SaveTo] *)

Lemma bump_h_versions fs h : h_versions (bump h fs) = h_versions h.
Proof. revert h. induction fs as [|f fs IH]; intros h; [done|]. unfold bump in *. cbn [fold_left]. rewrite IH. unfold bump1. by destruct (h_refs h !! f_address f). Qed.

Lemma bump_rest fs h : h_list (bump h fs) = h_list h /\ h_allowed_seeks (bump h fs) = h_allowed_seeks h /\ h_fresh (bump h fs) = h_fresh h.
Proof.
  revert h. induction fs as [|f fs IH]; intros h; [done|]. unfold bump in *. cbn [fold_left]. destruct (IH (bump1 h f)) as (-> & -> & ->). unfold bump1. by destruct (h_refs h !! f_address f).
Qed.

Definition level_state (b : Builder) (level : Z) : LevelState := nth (Z.to_nat level) (levels_ b) (mk_level ∅ []).

(** The files of the new version at a level. *)
Definition saved (b : Builder) (base : Version) (level : Z) : list FilePtr := saved_files (level_state b level) (files_at base level).

(** The builder's files and those of its base can be compared and are allocated; past level 0 what is saved does not overlap. *)
Record builder_ok (b : Builder) (base : Version) (h : Heap) : Prop := {
  bo_levels : size (levels_ b) = kNumLevels;
  bo_files level : 0 <= level < kNumLevels -> Forall (fun f => file_ok f /\ allocated h f) (files_at base level ++ added_files (level_state b level));
  bo_disjoint level : 0 < level < kNumLevels -> StronglySorted file_before (saved b base level)
}.

Lemma wp_save_level b base level h0 fs : builder_ok b base h0 -> 0 <= level < kNumLevels ->
  wp (save_level b base level) (fun r h' => r = saved b base level /\ h' = bump h0 (fs ++ saved b base level)) (fun _ => False) (bump h0 fs).
Proof.
  intros [B1 B2 B3] Hl. unfold save_level. destruct (lookup_lt_is_Some_2 (levels_ b) (Z.to_nat level)) as [l El]; [unfold size in B1; change kNumLevels with 7 in *; lia|].
  apply wp_bind, wp_or_stuck. exists l. split; [done|]. assert (Es : level_state b level = l) by (unfold level_state; by erewrite nth_lookup_Some).
  specialize (B2 level Hl). specialize (B3 level). unfold saved in *. rewrite Es in *.
  pose proof (wp_save_level_loop l level (files_at base level) (bump h0 fs)) as Hw. apply wp_bind_inv in Hw; [|eapply Forall_impl; [exact B2|by intros f [Hf _]]|eapply Forall_impl; [exact B2|intros f [_ Hf]; by apply bump_allocated]|intros Hpos; apply B3; lia].
  apply wp_bind. eapply wp_mono; [exact Hw| |done]. intros st h1 Hw1. apply wp_bind. eapply wp_mono; [exact Hw1| |done]. intros r h' [-> ->]. rewrite bump_app.
  apply wp_bind. destruct (Z.ltb_spec 0 level) as [Hpos|Hz]; [|by apply wp_ret, wp_ret]. apply wp_no_overlap; [|apply B3; lia|by apply wp_ret].
  rewrite Forall_forall in B2 |- *. intros f [_ Hf]%list_elem_of_filter. rewrite interleave_perm in Hf. by apply B2.
Qed.

Definition with_files (v : Version) (files : list (list FilePtr)) : Version :=
  mk_Version files (file_to_compact_ v) (file_to_compact_level_ v) (compaction_score_ v) (compaction_level_ v).

(** The files of the new version. *)
Definition saved_levels (b : Builder) (base : Version) : list (list FilePtr) := map (saved b base) all_levels.

Lemma wp_SaveTo b base n v w m h : builder_ok b base h -> h_versions h !! base_ b = Some (base, n) -> h_versions h !! v = Some (w, m) ->
  wp (SaveTo b v) (fun _ h' => h' = set_h_versions (<[v := (with_files w (saved_levels b base), m)]> (h_versions h)) (bump h (concat (saved_levels b base)))) (fun _ => False) h.
Proof.
  intros Hb Hbase Hv. unfold SaveTo. apply wp_bind. unfold version_cell. apply wp_bind, wp_get, wp_or_stuck. exists (base, n). split; [done|]. cbn [fst].
  apply wp_bind. eapply wp_mono.
  - apply (wp_fold_m _ (fun pre files h' => files = map (saved b base) pre /\ h' = bump h (concat (map (saved b base) pre)))) with (E := fun _ => False); [|done].
    intros pre level post files h' El [-> ->]. assert (Hlevel : 0 <= level < kNumLevels).
    { assert (Hin : level ∈ all_levels) by (rewrite El, elem_of_app, elem_of_cons; tauto). unfold all_levels in Hin. apply list_elem_of_fmap in Hin as (k & -> & Hk). apply elem_of_seq in Hk. change kNumLevels with 7 in *. lia. }
    apply wp_bind. eapply wp_mono; [by apply wp_save_level| |done]. intros r h' [-> ->]. apply wp_ret. rewrite !map_app. cbn [map]. split; [done|]. by rewrite concat_app, concat_cons, app_nil_r.
  - intros files h' [-> ->]. apply wp_bind, wp_bind, wp_get, wp_or_stuck. exists (w, m). rewrite bump_h_versions. split; [done|]. apply wp_modify. by rewrite bump_h_versions.
  - done.
Qed.
End Order.

(** ** What edits mean *)

(** What a manifest says of a file. *)
Record FileInfo := mk_info { i_number : Z; i_size : Z; i_smallest : list Z; i_largest : list Z }.
Definition info (m : FileMetaData) : FileInfo := mk_info (number m) (file_size m) (smallest m) (largest m).
Definition f_info (f : FilePtr) : FileInfo := info (f_meta f).

Definition deleted_at (e : VersionEdit) (level : Z) : list Z := map snd (filter (fun p => fst p = level) (deleted_files_ e)).
Definition new_at (e : VersionEdit) (level : Z) : list FileMetaData := map snd (filter (fun p => fst p = level) (new_files_ e)).

(** The files of a level when the edits have been made. *)
Definition level_after (l : list FileInfo) (es : list VersionEdit) (level : Z) : list FileInfo :=
  fold_left (fun l e => filter (fun i => i_number i ∉ deleted_at e level) l ++ map info (new_at e level)) es l.

Definition all_new (es : list VersionEdit) (level : Z) : list FileMetaData := concat (map (fun e => new_at e level) es).

(** The numbers in [deleted_files] when the edits have been made. *)
Definition deleted_after (es : list VersionEdit) (level : Z) : gset Z :=
  fold_left (fun d e => (list_to_set (deleted_at e level) ∪ d) ∖ list_to_set (map number (new_at e level))) es ∅.

Lemma level_after_snoc l es e level : level_after l (es ++ [e]) level = filter (fun i => i_number i ∉ deleted_at e level) (level_after l es level) ++ map info (new_at e level).
Proof. unfold level_after. by rewrite fold_left_app. Qed.

Lemma deleted_after_snoc es e level : deleted_after (es ++ [e]) level = (list_to_set (deleted_at e level) ∪ deleted_after es level) ∖ list_to_set (map number (new_at e level)).
Proof. unfold deleted_after. by rewrite fold_left_app. Qed.

Lemma all_new_snoc es e level : all_new (es ++ [e]) level = all_new es level ++ new_at e level.
Proof. unfold all_new. by rewrite map_app, concat_app; cbn; rewrite app_nil_r. Qed.

(** No number comes twice at the level. *)
Definition numbers_once (l : list FileInfo) (es : list VersionEdit) (level : Z) : Prop := NoDup (map i_number l ++ map number (all_new es level)).

(** What is deleted is what [deleted_files] says. *)
Lemma level_after_deleted l es level : numbers_once l es level -> level_after l es level = filter (fun i => i_number i ∉ deleted_after es level) (l ++ map info (all_new es level)).
Proof.
  induction es as [|e es IH] using rev_ind; intros Hn.
  - unfold level_after, deleted_after, all_new. cbn [fold_left map concat]. rewrite app_nil_r, filter_all; [done|]. rewrite Forall_forall. intros i _. set_solver.
  - unfold numbers_once in Hn. rewrite all_new_snoc, map_app, app_assoc in Hn. apply NoDup_app in Hn as (Hn & Hdis & Hnew).
    rewrite level_after_snoc, all_new_snoc, (IH Hn), map_app, app_assoc, deleted_after_snoc.
    assert (Hx : forall i, i ∈ l ++ map info (all_new es level) -> i_number i ∉ map number (new_at e level)).
    { intros i Hi. apply Hdis. apply elem_of_app in Hi as [Hi|Hi]; apply elem_of_app; [left; by apply (list_elem_of_fmap_2 i_number)|right]. apply list_elem_of_fmap in Hi as (m & -> & Hm). by apply (list_elem_of_fmap_2 number). }
    revert Hx. generalize (l ++ map info (all_new es level)). intros before Hx. rewrite filter_app. f_equal.
    + rewrite list_filter_filter. apply filter_same. intros i Hi. specialize (Hx i Hi). rewrite elem_of_difference, elem_of_union, !elem_of_list_to_set. tauto.
    + symmetry. apply filter_all. rewrite Forall_forall. intros i (m & -> & Hm)%list_elem_of_fmap. rewrite elem_of_difference, elem_of_list_to_set. intros [_ H]. apply H. by apply (list_elem_of_fmap_2 number).
Qed.

(** ** Counters *)

(** How often [a] is in [l]. *)
Definition times (a : Z) (l : list Z) : Z := Z.of_nat (count_occ Z.eq_dec l a).

Lemma times_app a l k : times a (l ++ k) = times a l + times a k.
Proof. unfold times. rewrite count_occ_app. lia. Qed.

Lemma times_cons a b l : times a (b :: l) = (if decide (b = a) then 1 else 0) + times a l.
Proof. unfold times. cbn [count_occ]. destruct (Z.eq_dec b a), (decide (b = a)); lia. Qed.

#[export] Instance times_proper a : Proper ((≡ₚ) ==> (=)) (times a).
Proof. intros l k H. unfold times. by rewrite (proj1 (Permutation_count_occ Z.eq_dec l k) H). Qed.

Lemma times_nonneg a l : 0 <= times a l.
Proof. unfold times. lia. Qed.

Lemma times_size a l : times a l <= size l.
Proof. unfold times, size. pose proof (count_occ_bound Z.eq_dec a l). lia. Qed.

Lemma times_elem a l : 0 < times a l <-> a ∈ l.
Proof. unfold times. rewrite list_elem_of_In, (count_occ_In Z.eq_dec). lia. Qed.

Lemma times_none a l : a ∉ l -> times a l = 0.
Proof. intros Hn. pose proof (times_nonneg a l). pose proof (times_elem a l). destruct (Z.eq_dec (times a l) 0); [done|]. destruct Hn. apply H0. lia. Qed.

(** The counters [m] are right for the references [l]: what is not referred to is gone. *)
Definition counted (m : gmap Z Z) (l : list Z) : Prop := forall a, m !! a = if decide (a ∈ l) then Some (times a l) else None.

#[export] Instance counted_proper m : Proper ((≡ₚ) ==> iff) (counted m).
Proof.
  intros l k H. unfold counted. split; intros Hc a; rewrite (Hc a), (times_proper a _ _ H); destruct (decide (a ∈ l)) as [Hl|Hl], (decide (a ∈ k)) as [Hk|Hk]; try done; [rewrite H in Hl|rewrite <- H in Hk|rewrite H in Hl|rewrite <- H in Hk]; done.
Qed.

Lemma counted_some m l a : counted m l -> a ∈ l -> m !! a = Some (times a l).
Proof. intros H Ha. by rewrite H, decide_True. Qed.

Lemma counted_none m l a : counted m l -> a ∉ l -> m !! a = None.
Proof. intros H Ha. by rewrite H, decide_False. Qed.

Lemma counted_step m l a b : counted m l -> a <> b -> m !! b = if decide (b ∈ a :: l) then Some (times b (a :: l)) else None.
Proof.
  intros H Hne. rewrite H, times_cons, (decide_False (P := a = b)), Z.add_0_l by done. destruct (decide (b ∈ l)) as [H1|H1], (decide (b ∈ a :: l)) as [H2|H2]; try done; rewrite elem_of_cons in H2; [destruct H2; by right|by destruct H2 as [->|H2]].
Qed.

Lemma counted_more m l a : counted m l -> counted (<[a := times a l + 1]> m) (a :: l).
Proof.
  intros H b. destruct (decide (a = b)) as [<-|Hne]; [|rewrite lookup_insert_ne by done; by apply counted_step].
  rewrite lookup_insert_eq, decide_True by apply list_elem_of_here. rewrite times_cons, decide_True by done. f_equal. lia.
Qed.

Lemma counted_back m l a b : counted m (a :: l) -> a <> b -> m !! b = if decide (b ∈ l) then Some (times b l) else None.
Proof.
  intros H Hne. rewrite H, times_cons, (decide_False (P := a = b)), Z.add_0_l by done. destruct (decide (b ∈ l)) as [H1|H1], (decide (b ∈ a :: l)) as [H2|H2]; try done; rewrite elem_of_cons in H2; [destruct H2; by right|by destruct H2 as [->|H2]].
Qed.

Lemma counted_less m l a : counted m (a :: l) -> a ∈ l -> counted (<[a := times a l]> m) l.
Proof. intros H Ha b. destruct (decide (a = b)) as [<-|Hne]; [by rewrite lookup_insert_eq, decide_True|]. rewrite lookup_insert_ne by done. by eapply counted_back. Qed.

Lemma counted_gone m l a : counted m (a :: l) -> a ∉ l -> counted (delete a m) l.
Proof. intros H Ha b. destruct (decide (a = b)) as [<-|Hne]; [by rewrite lookup_delete_eq, decide_False|]. rewrite lookup_delete_ne by done. by eapply counted_back. Qed.

Lemma counted_empty : counted ∅ [].
Proof. intros a. by rewrite lookup_empty, decide_False by apply not_elem_of_nil. Qed.

Definition addresses (fs : list FilePtr) : list Z := map f_address fs.

(** The references a builder holds. *)
Definition builder_addresses (b : Builder) : list Z := concat (map (fun l => addresses (added_files l)) (levels_ b)).

Section Apply.
Context {U : Comparator} {LU : ComparatorLaws U}.

Abbreviation ordered := (StronglySorted file_le).

(** ** What is asked of edits *)

Definition meta_ok (m : FileMetaData) : Prop := file_ok (mk_ptr 0 m).

Definition level_in (level : Z) : Prop := 0 <= level < kNumLevels.
Record edit_ok (e : VersionEdit) : Prop := {
  ed_pointers : Forall (fun p => level_in (fst p) /\ internal_ok (snd p)) (compact_pointers_ e);
  ed_deleted : Forall (fun p => level_in (fst p)) (deleted_files_ e);
  ed_new : Forall (fun p => level_in (fst p) /\ meta_ok (snd p)) (new_files_ e)
}.

(** ** Memory *)

(** Addresses from [h_fresh] on are free. *)
Definition heap_fresh (h : Heap) : Prop := forall a, h_fresh h <= a -> h_refs h !! a = None /\ h_allowed_seeks h !! a = None /\ h_versions h !! a = None.

(** New cells, and none of the old ones changed. *)
Record extends (h h' : Heap) : Prop := {
  ex_versions : h_versions h' = h_versions h;
  ex_list : h_list h' = h_list h;
  ex_fresh : h_fresh h <= h_fresh h';
  ex_refs a : a < h_fresh h -> h_refs h' !! a = h_refs h !! a;
  ex_seeks a : a < h_fresh h -> h_allowed_seeks h' !! a = h_allowed_seeks h !! a
}.

Lemma heap_extends_refl h : extends h h.
Proof. split; try done; lia. Qed.

Lemma heap_extends_trans h1 h2 h3 : extends h1 h2 -> extends h2 h3 -> extends h1 h3.
Proof.
  intros [A1 A2 A3 A4 A5] [B1 B2 B3 B4 B5]. split; [congruence|congruence|lia| |]; intros a Ha; [rewrite B4, A4 by lia|rewrite B5, A5 by lia]; done.
Qed.

(** The file in memory, before it is in a version. *)
Definition loaded (m : FileMetaData) : FileMetaData := mk_file 1 (seeks_allowed (file_size m)) (number m) (file_size m) (smallest m) (largest m).

Lemma wp_new_file meta h (Q : FilePtr -> Heap -> Prop) E : heap_fresh h ->
  (forall f h', f_meta f = meta -> f_address f = h_fresh h -> h_refs h' !! f_address f = Some (refs meta) -> h_fresh h' = h_fresh h + 1 -> heap_fresh h' -> extends h h' -> Q f h') -> wp (new_file meta) Q E h.
Proof.
  intros Hf HQ. unfold new_file, fresh. apply wp_bind. eapply wp_of_eq; [reflexivity|]. apply wp_bind, wp_modify, wp_ret. cbn.
  apply HQ; cbn; [done|done|by rewrite lookup_insert_eq|done| |].
  - intros a Ha. cbn in *. rewrite !lookup_insert_ne by lia. apply Hf. lia.
  - split; cbn; [done|done|lia| |]; intros a Ha; rewrite lookup_insert_ne by lia; done.
Qed.

(** ** The levels of the builder *)

(** At every level the deleted numbers are [D], and the added files were made of [P]. *)
Record holds (b : Builder) (D : Z -> gset Z) (P : Z -> list FileMetaData) (h : Heap) : Prop := {
  ho_size : size (levels_ b) = kNumLevels;
  ho_deleted level : level_in level -> deleted_files (level_state b level) = D level;
  ho_added level : level_in level -> ordered (added_files (level_state b level)) /\
    exists ptrs, added_files (level_state b level) ≡ₚ ptrs /\ map f_meta ptrs = map loaded (P level) /\ Forall (fun f => f_address f < h_fresh h /\ h_refs h !! f_address f = Some 1) ptrs
}.

Lemma holds_same b D D' P P' h : holds b D P h -> (forall level, level_in level -> D level = D' level) -> (forall level, level_in level -> P level = P' level) -> holds b D' P' h.
Proof. intros [H1 H2 H3] HD HP. split; [done| |]; intros level Hl; [by rewrite H2, HD|]. rewrite <- (HP level Hl). by apply H3. Qed.

Lemma holds_extends b D P h h' : holds b D P h -> extends h h' -> holds b D P h'.
Proof.
  intros [H1 H2 H3] [_ _ Hf Hr _]. split; [done|done|]. intros level Hl. destruct (H3 level Hl) as (Ho & ptrs & Hp & Hm & Hrf). split; [done|]. exists ptrs. split; [done|]. split; [done|].
  eapply Forall_impl; [exact Hrf|]. intros f [Ha Hf']. split; [lia|]. by rewrite Hr.
Qed.

Definition set_level (b : Builder) (level : Z) (l : LevelState) : Builder := mk_builder (base_ b) (<[Z.to_nat level := l]> (levels_ b)).

Lemma level_state_set b level l level' : size (levels_ b) = kNumLevels -> level_in level -> level_in level' ->
  level_state (set_level b level l) level' = if decide (level' = level) then l else level_state b level'.
Proof.
  unfold level_in, level_state, set_level. cbn [levels_]. intros Hsz Hl Hl'. unfold size in Hsz. change kNumLevels with 7 in *. destruct (decide (level' = level)) as [->|Hne].
  - apply nth_lookup_Some. rewrite list_lookup_insert_eq; [done|lia].
  - destruct (lookup_lt_is_Some_2 (levels_ b) (Z.to_nat level')) as [x Hx]; [lia|]. rewrite (nth_lookup_Some (levels_ b) _ _ x Hx). apply nth_lookup_Some. rewrite list_lookup_insert_ne; [done|lia].
Qed.

Lemma wp_on_level level m b h (Q : Builder -> Heap -> Prop) E : level_in level -> size (levels_ b) = kNumLevels ->
  wp (m (level_state b level)) (fun l h' => Q (set_level b level l) h') E h -> wp (on_level level m b) Q E h.
Proof.
  intros Hl Hsz Hm. unfold on_level. destruct (lookup_lt_is_Some_2 (levels_ b) (Z.to_nat level)) as [l El]; [unfold size, level_in in *; change kNumLevels with 7 in *; lia|].
  assert (level_state b level = l) as Es by (unfold level_state; by erewrite nth_lookup_Some). rewrite Es in Hm.
  apply wp_bind, wp_asserted; [unfold level_in in Hl; lia|]. apply wp_bind, wp_or_stuck. exists l. split; [done|]. apply wp_bind. eapply wp_mono; [exact Hm| |done]. intros l' h' HQ. by apply wp_ret.
Qed.

(** The counters are right for what the builder holds and [l]. *)
Definition owned (b : Builder) (l : list Z) (h : Heap) : Prop := counted (h_refs h) (builder_addresses b ++ l).

(** What the builder holds grows by [k] files, and the counters with it. *)
Definition adds (b b' : Builder) (k : Z) (h h' : Heap) : Prop := (forall l, owned b l h -> owned b' l h') /\ size (builder_addresses b') = size (builder_addresses b) + k.

Lemma adds_refl b h : adds b b 0 h h.
Proof. split; [done|lia]. Qed.

Lemma adds_trans b1 b2 b3 k1 k2 h1 h2 h3 : adds b1 b2 k1 h1 h2 -> adds b2 b3 k2 h2 h3 -> adds b1 b3 (k1 + k2) h1 h3.
Proof. intros [A1 A2] [B1 B2]. split; [auto|lia]. Qed.

Lemma set_level_addresses b level l more : size (levels_ b) = kNumLevels -> level_in level ->
  addresses (added_files l) ≡ₚ more ++ addresses (added_files (level_state b level)) -> builder_addresses (set_level b level l) ≡ₚ more ++ builder_addresses b.
Proof.
  intros Hsz Hl Hp. destruct (lookup_lt_is_Some_2 (levels_ b) (Z.to_nat level)) as [l0 El]; [unfold size, level_in in *; change kNumLevels with 7 in *; lia|].
  assert (level_state b level = l0) as Es by (unfold level_state; by erewrite nth_lookup_Some). rewrite Es in Hp. unfold builder_addresses, set_level. cbn [levels_].
  rewrite (insert_take_drop _ _ _ (lookup_lt_Some _ _ _ El)). rewrite <- (take_drop_middle _ _ _ El) at 3. rewrite !map_app, !concat_app. cbn [map concat]. rewrite Hp, <- app_assoc. apply Permutation_app_swap_app.
Qed.

Lemma new_file_counted h h' a l : heap_fresh h -> heap_fresh h' -> extends h h' -> a = h_fresh h -> h_fresh h' = h_fresh h + 1 -> h_refs h' !! a = Some 1 -> counted (h_refs h) l -> counted (h_refs h') (a :: l).
Proof.
  intros Hf Hf' Hx -> Hn Hr Hc. assert (Hin : h_fresh h ∉ l). { intros Hin. pose proof (counted_some _ _ _ Hc Hin) as E. by rewrite (proj1 (Hf (h_fresh h) ltac:(lia))) in E. }
  intros b. destruct (decide (h_fresh h = b)) as [<-|Hne]; [rewrite Hr, decide_True by apply list_elem_of_here; by rewrite times_cons, decide_True, times_none|]. rewrite <- (counted_step _ l _ _ Hc Hne).
  destruct (Z.lt_ge_cases b (h_fresh h)) as [Hlt|Hge]; [by apply (ex_refs _ _ Hx)|]. rewrite (proj1 (Hf b Hge)). apply (Hf' b). lia.
Qed.

Lemma wp_apply_deleted b p D P h : level_in (fst p) -> holds b D P h ->
  wp (apply_deleted b p) (fun b' h' => h' = h /\ base_ b' = base_ b /\ adds b b' 0 h h' /\ holds b' (fun level => if decide (level = fst p) then {[snd p]} ∪ D level else D level) P h) (fun _ => False) h.
Proof.
  intros Hl H. pose proof H as [H1 H2 H3]. unfold apply_deleted. apply wp_on_level; [done..|]. apply wp_ret. split; [done|]. split; [done|]. split.
  { assert (Hp : builder_addresses (set_level b (fst p) (mk_level ({[snd p]} ∪ deleted_files (level_state b (fst p))) (added_files (level_state b (fst p))))) ≡ₚ builder_addresses b) by (by apply (set_level_addresses b (fst p) _ [])).
    split; [intros l Hw; unfold owned; by rewrite Hp|]. unfold size. rewrite Hp. lia. }
  split.
  - unfold set_level. cbn [levels_]. unfold size. by rewrite length_insert.
  - intros level Hlevel. rewrite level_state_set by done. destruct (decide (level = fst p)) as [->|]; cbn [deleted_files]; [by rewrite H2|by apply H2].
  - intros level Hlevel. rewrite level_state_set by done. destruct (decide (level = fst p)) as [->|]; cbn [added_files]; by apply H3.
Qed.

Lemma wp_apply_all_deleted b dels D P h : Forall (fun p => level_in (fst p)) dels -> holds b D P h ->
  wp (fold_m apply_deleted dels b) (fun b' h' => h' = h /\ base_ b' = base_ b /\ adds b b' 0 h h' /\ holds b' (fun level => list_to_set (map snd (filter (fun p => fst p = level) dels)) ∪ D level) P h) (fun _ => False) h.
Proof.
  intros Hl H. apply (wp_fold_m apply_deleted (fun pre b' h' => h' = h /\ base_ b' = base_ b /\ adds b b' 0 h h' /\ holds b' (fun level => list_to_set (map snd (filter (fun p => fst p = level) pre)) ∪ D level) P h)).
  - intros pre p post b' h' -> (-> & Hb & Ho & Hh). apply Forall_app in Hl as [_ Hl]. apply Forall_cons_1 in Hl as [Hl _]. eapply wp_mono; [by apply wp_apply_deleted| |done].
    intros b2 h2 (-> & Hb2 & Ho2 & Hh2). split; [done|]. split; [congruence|]. split; [by apply (adds_trans b b' b2 0 0 h h h)|]. eapply holds_same; [exact Hh2| |done]. intros level _. cbv beta. rewrite filter_app, filter_cons, filter_nil, map_app, list_to_set_app_L.
    destruct (decide (level = fst p)) as [->|Hne]; [rewrite decide_True by done; cbn; set_solver|rewrite decide_False by congruence; cbn; set_solver].
  - split; [done|]. split; [done|]. split; [apply adds_refl|]. eapply holds_same; [exact H| |done]. intros level _. cbn. set_solver.
Qed.

Lemma loaded_ok m f : meta_ok m -> f_meta f = loaded m -> file_ok f.
Proof. unfold meta_ok, file_ok, f_smallest, f_largest. intros Hm ->. exact Hm. Qed.

Lemma holds_files b D P h level : holds b D P h -> level_in level -> Forall meta_ok (P level) -> Forall file_ok (added_files (level_state b level)).
Proof.
  intros H Hl Hok. destruct (ho_added _ _ _ _ H level Hl) as (_ & ptrs & Hp & Hm & _). rewrite Hp. rewrite Forall_forall in Hok. rewrite Forall_forall. intros f Hf. apply (list_elem_of_fmap_2 f_meta) in Hf. change (f_meta f ∈ map f_meta ptrs) in Hf. rewrite Hm in Hf.
  apply list_elem_of_fmap in Hf as (m & Ef & Hin). by apply (loaded_ok m); [apply Hok|].
Qed.

Lemma holds_numbers b D P h level : holds b D P h -> level_in level -> map f_number (added_files (level_state b level)) ≡ₚ map number (P level).
Proof.
  intros H Hl. destruct (ho_added _ _ _ _ H level Hl) as (_ & ptrs & Hp & Hm & _). rewrite Hp. unfold f_number. rewrite <- (map_map f_meta number), Hm, map_map. done.
Qed.

Lemma wp_apply_new b p D P h : level_in (fst p) -> meta_ok (snd p) -> holds b D P h -> heap_fresh h -> Forall meta_ok (P (fst p)) -> number (snd p) ∉ map number (P (fst p)) ->
  wp (apply_new b p) (fun b' h' => extends h h' /\ heap_fresh h' /\ base_ b' = base_ b /\ adds b b' 1 h h' /\
    holds b' (fun level => if decide (level = fst p) then D level ∖ {[number (snd p)]} else D level) (fun level => if decide (level = fst p) then P level ++ [snd p] else P level) h') (fun _ => False) h.
Proof.
  intros Hl Hm H Hf Hok Hn. unfold apply_new. cbv zeta. apply wp_bind, wp_new_file; [done|]. intros f h' Em Ea Hr Hfr Hf' Hex. pose proof (holds_extends _ _ _ _ _ H Hex) as H'. pose proof H' as [H1 H2 H3].
  change (f_meta f = loaded (snd p)) in Em. assert (Hfn : f_number f = number (snd p)) by (unfold f_number; by rewrite Em). apply wp_on_level; [done..|]. destruct (H3 (fst p) Hl) as (Ho & ptrs & Hp & Hmeta & Hrefs).
  apply wp_bind, wp_insert_file; [constructor; [by apply (loaded_ok (snd p))|by apply (holds_files b D P h')]|done| |].
  { rewrite (holds_numbers b D P h' (fst p) H' Hl). by rewrite Hfn. }
  intros r Hperm Hord. apply wp_ret. split; [done|]. split; [done|]. split; [done|]. split.
  { assert (Hps : builder_addresses (set_level b (fst p) (mk_level (deleted_files (level_state b (fst p)) ∖ {[f_number f]}) r)) ≡ₚ [f_address f] ++ builder_addresses b) by (apply set_level_addresses; [done|done|cbn; by rewrite Hperm]).
    split; [intros l Hw; unfold owned; rewrite Hps; by apply (new_file_counted h h')|]. unfold size. rewrite Hps. cbn [List.length app]. lia. }
  split.
  - unfold set_level. cbn [levels_]. unfold size. by rewrite length_insert.
  - intros level Hlevel. rewrite level_state_set by done. destruct (decide (level = fst p)) as [->|]; cbn [deleted_files]; [by rewrite H2, Hfn|by apply H2].
  - intros level Hlevel. rewrite level_state_set by done. destruct (decide (level = fst p)) as [->|]; cbn [added_files]; [|by apply H3]. split; [done|]. exists (ptrs ++ [f]). split; [rewrite Hperm, Hp; apply Permutation_cons_append|].
    split; [by rewrite !map_app, Hmeta; cbn; rewrite Em|]. apply Forall_app. split; [done|]. constructor; [|done]. split; [rewrite Ea; lia|done].
Qed.

Definition at_level {A} (l : list (Z * A)) (level : Z) : list A := map snd (filter (fun p => fst p = level) l).

Lemma at_level_snoc {A} (l : list (Z * A)) p level : at_level (l ++ [p]) level = if decide (level = fst p) then at_level l level ++ [snd p] else at_level l level.
Proof.
  unfold at_level. rewrite filter_app, filter_cons, filter_nil, map_app. destruct (decide (level = fst p)) as [->|Hne]; [by rewrite decide_True|]. rewrite decide_False by congruence. by rewrite app_nil_r.
Qed.

Lemma at_level_elem {A} (l : list (Z * A)) level a : a ∈ at_level l level -> (level, a) ∈ l.
Proof. unfold at_level. intros ([x y] & -> & [Hx Hin]%list_elem_of_filter)%list_elem_of_fmap. cbn in *. by subst. Qed.

Lemma wp_apply_all_new b news D P h : Forall (fun p => level_in (fst p) /\ meta_ok (snd p)) news -> holds b D P h -> heap_fresh h -> (forall level, level_in level -> Forall meta_ok (P level)) ->
  (forall level, level_in level -> NoDup (map number (P level ++ at_level news level))) ->
  wp (fold_m apply_new news b) (fun b' h' => extends h h' /\ heap_fresh h' /\ base_ b' = base_ b /\ adds b b' (size news) h h' /\
    holds b' (fun level => D level ∖ list_to_set (map number (at_level news level))) (fun level => P level ++ at_level news level) h') (fun _ => False) h.
Proof.
  intros Hn H Hf Hok Hnd.
  apply (wp_fold_m apply_new (fun pre b' h' => extends h h' /\ heap_fresh h' /\ base_ b' = base_ b /\ adds b b' (size pre) h h' /\
    holds b' (fun level => D level ∖ list_to_set (map number (at_level pre level))) (fun level => P level ++ at_level pre level) h')).
  - intros pre p post b' h' El (Hex & Hf' & Hb & Ho & Hh). assert (Hp : p ∈ news) by (rewrite El, elem_of_app, elem_of_cons; tauto). rewrite Forall_forall in Hn. destruct (Hn p Hp) as [Hl Hm].
    eapply wp_mono; [apply (wp_apply_new b' p _ _ h' Hl Hm Hh Hf')| |done].
    + apply Forall_app. split; [by apply Hok|]. rewrite Forall_forall. intros m Hin%at_level_elem. apply (Hn (fst p, m)). rewrite El, elem_of_app. by left.
    + specialize (Hnd (fst p) Hl). rewrite El, cons_middle, app_assoc in Hnd. unfold at_level in Hnd at 1. rewrite !filter_app, !map_app in Hnd. rewrite filter_cons_True, filter_nil in Hnd by done.
      rewrite app_assoc in Hnd. apply NoDup_app in Hnd as (Hnd & _). rewrite app_assoc in Hnd. apply NoDup_app in Hnd as (_ & Hnd & _). unfold at_level. rewrite map_app. intros Hin. apply (Hnd _ Hin). apply list_elem_of_here.
    + intros b2 h2 (Hex2 & Hf2 & Hb2 & Ho2 & Hh2). split; [by eapply heap_extends_trans|]. split; [done|]. split; [congruence|]. split; [rewrite size_app; by apply (adds_trans b b' b2 (size pre) 1 h h' h2)|]. eapply holds_same; [exact Hh2| |]; intros level _; cbv beta; rewrite at_level_snoc; destruct (decide (level = fst p)) as [->|]; try done.
      * rewrite map_app, list_to_set_app_L. cbn. set_solver.
      * by rewrite app_assoc.
  - split; [apply heap_extends_refl|]. split; [done|]. split; [done|]. split; [apply adds_refl|]. eapply holds_same; [exact H| |]; intros level _; cbn; [set_solver|by rewrite app_nil_r].
Qed.

(** ** [Apply] *)

(** What a builder stands for: the edits applied to it. *)
Definition built (b : Builder) (es : list VersionEdit) (h : Heap) : Prop := holds b (deleted_after es) (all_new es) h.

Definition new_pointers (e : VersionEdit) (p : list (list Z)) : list (list Z) := fold_left (fun p q => <[Z.to_nat (fst q) := snd q]> p) (compact_pointers_ e) p.

Lemma wp_apply_pointers qs s : Forall (fun p => level_in (fst p) /\ internal_ok (snd p)) qs -> size (compact_pointer_ s) = kNumLevels ->
  wp (for_each qs apply_pointer) (fun _ s' => s' = set_compact_pointer (fold_left (fun p q => <[Z.to_nat (fst q) := snd q]> p) qs (compact_pointer_ s)) s) (fun _ => False) s.
Proof.
  intros Hq Hsz. eapply wp_mono; [apply (wp_for_each apply_pointer (fun pre s' => s' = set_compact_pointer (fold_left (fun p q => <[Z.to_nat (fst q) := snd q]> p) pre (compact_pointer_ s)) s)) with (E := fun _ => False)|intros [] s' ->; reflexivity|done].
  - intros pre q post s' -> ->. apply Forall_app in Hq as [_ Hq]. apply Forall_cons_1 in Hq as [[Hl Hk] _]. unfold apply_pointer. apply wp_bind, wp_get. cbn [compact_pointer_ set_compact_pointer].
    assert (Hsame : size (fold_left (fun p q => <[Z.to_nat (fst q) := snd q]> p) pre (compact_pointer_ s)) = kNumLevels).
    { rewrite <- Hsz. generalize (compact_pointer_ s). clear. induction pre as [|q pre IH]; intros p; [done|]. cbn [fold_left]. rewrite IH. unfold size. by rewrite length_insert. }
    apply wp_bind, wp_asserted; [rewrite Hsame; unfold level_in in Hl; lia|]. apply wp_bind, wp_key_Encode; [done|]. apply wp_modify. by rewrite fold_left_app.
  - by destruct s.
Qed.

(** The numbers of the files are given once at every level. *)
Definition edits_once (base : Version) (es : list VersionEdit) : Prop := forall level, level_in level -> numbers_once (map f_info (files_at base level)) es level.

Lemma wp_Apply base es e b s : edit_ok e -> Forall edit_ok es -> edits_once base (es ++ [e]) -> built b es (vs_heap s) -> heap_fresh (vs_heap s) -> size (compact_pointer_ s) = kNumLevels ->
  wp (Apply e b) (fun b' s' => exists h, s' = set_heap h (set_compact_pointer (new_pointers e (compact_pointer_ s)) s) /\ extends (vs_heap s) h /\ heap_fresh h /\
    base_ b' = base_ b /\ adds b b' (size (new_files_ e)) (vs_heap s) h /\ built b' (es ++ [e]) h) (fun _ => False) s.
Proof.
  intros [E1 E2 E3] Hes Honce Hb Hf Hsz. unfold Apply. apply wp_bind. eapply wp_mono; [by apply wp_apply_pointers| |done]. intros [] s1 ->.
  apply wp_bind, wp_zoom. eapply wp_mono; [apply (wp_apply_all_deleted b (deleted_files_ e) _ _ (vs_heap s) E2 Hb)| |done]. intros b1 h1 (-> & Hb1 & Ho1 & Hh1).
  apply wp_zoom. cbn [vs_heap set_heap set_compact_pointer]. eapply wp_mono; [apply (wp_apply_all_new b1 (new_files_ e) _ _ (vs_heap s) E3 Hh1 Hf)| |done].
  - intros level Hl. unfold all_new. rewrite Forall_concat, Forall_map. eapply Forall_impl; [exact Hes|]. intros x [_ _ Hx]. rewrite Forall_forall in Hx. rewrite Forall_forall. intros m Hm. by apply (Hx (level, m)), at_level_elem.
  - intros level Hl. specialize (Honce level Hl). unfold numbers_once in Honce. apply NoDup_app in Honce as (_ & _ & Honce). by rewrite all_new_snoc in Honce.
  - intros b2 h2 (Hex & Hf2 & Hb2 & Ho2 & Hh2). exists h2. split; [done|]. split; [done|]. split; [done|]. split; [congruence|]. split; [by apply (adds_trans b b1 b2 0 (size (new_files_ e)) (vs_heap s) (vs_heap s) h2)|]. eapply holds_same; [exact Hh2| |]; intros level _; cbv beta; [by rewrite deleted_after_snoc|by rewrite all_new_snoc].
Qed.
End Apply.

Section Save.
Context {U : Comparator} {LU : ComparatorLaws U}.

Abbreviation iorder := internal_order.
Abbreviation ordered := (StronglySorted file_le).

(** One file ends before the other begins. *)
Definition apart (i j : FileInfo) : Prop := iorder (i_largest i) (i_smallest j) < 0 \/ iorder (i_largest j) (i_smallest i) < 0.

Lemma pairs_perm {A} (R : A -> A -> Prop) l l' : (forall x y, R x y -> R y x) -> l ≡ₚ l' -> ForallOrdPairs R l -> ForallOrdPairs R l'.
Proof.
  intros Hsym. induction 1 as [|x l l' Hp IH|x y l|l1 l2 l3 _ IH1 _ IH2]; intros H.
  - done.
  - inversion_clear H as [|? ? Hx Hl]. constructor; [|by apply IH]. by rewrite <- Hp.
  - inversion_clear H as [|? ? Hx Hl]. inversion_clear Hl as [|? ? Hy Hl']. inversion_clear Hx as [|? ? Hxy Hx']. constructor; [constructor; [by apply Hsym|done]|]. by constructor.
  - auto.
Qed.

(** Files in order that are apart are one before the other. *)
Lemma ordered_apart l : Forall file_ok l -> ordered l -> ForallOrdPairs apart (map f_info l) -> StronglySorted file_before l.
Proof.
  intros Hok Hs Ha. induction Hs as [|f l Hs IH Hall]; [constructor|]. apply Forall_cons_1 in Hok as [Hf Hok]. inversion_clear Ha as [|? ? Hx Hl]. constructor; [by apply IH|].
  rewrite Forall_forall in Hall. rewrite Forall_forall in Hx. rewrite Forall_forall in Hok. rewrite Forall_forall. intros g Hg. destruct (Hx (f_info g)) as [H|H]; [by apply list_elem_of_fmap_2|exact H|]. destruct (Hall g Hg). apply file_before_lt; [by apply Hok|done|exact H].
Qed.

Lemma before_ordered l : Forall file_ok l -> StronglySorted file_before l -> ordered l.
Proof.
  intros Hok Hs. induction Hs as [|f l Hs IH Hall]; [constructor|]. apply Forall_cons_1 in Hok as [Hf Hok]. constructor; [by apply IH|]. rewrite Forall_forall in Hall. rewrite Forall_forall in Hok. rewrite Forall_forall. intros g Hg.
  apply file_lt_le; [done|by apply Hok|]. apply file_before_lt; [done|by apply Hok|by apply Hall].
Qed.

(** A version as it is saved: its files can be searched, and those of level 0 are in order. *)
Record version_good (v : Version) : Prop := {
  vg_files : version_files_ok v;
  vg_ordered : ordered (files_at v 0);
  vg_levels : size (files_ v) = kNumLevels
}.

Lemma good_ordered v level : version_good v -> 0 <= level -> ordered (files_at v level).
Proof.
  intros [Hf Ho _] Hl. destruct (decide (level = 0)) as [->|Hne]; [done|]. destruct (vo_level v Hf level ltac:(lia)) as (Hok & Hs & _). by apply before_ordered.
Qed.

(** The edits fit the version: they can be applied in turn, and past level 0 the files that are left are apart. *)
Record edits_fit (base : Version) (es : list VersionEdit) : Prop := {
  ef_ok : Forall edit_ok es;
  ef_once : edits_once base es;
  ef_apart level : 0 < level < kNumLevels -> ForallOrdPairs apart (level_after (map f_info (files_at base level)) es level);
  ef_count level : 0 <= level < kNumLevels -> Z.of_nat (List.length (level_after (map f_info (files_at base level)) es level)) < 2 ^ 31
}.

Section Built.
Context (b : Builder) (base : Version) (es : list VersionEdit) (h : Heap).
Context (Hb : built b es h) (Hbase : version_good base) (Hfit : edits_fit base es).
Context (Halloc : forall level f, f ∈ files_at base level -> allocated h f).

Lemma map_filter {A B} (g : A -> B) (P : B -> Prop) {dP : forall x, Decision (P x)} {dQ : forall x, Decision (P (g x))} (l : list A) :
  map g (filter (fun x => P (g x)) l) = filter P (map g l).
Proof. induction l as [|x l IH]; [done|]. rewrite filter_cons. cbn [map]. rewrite filter_cons. repeat case_decide; cbn [map]; try done; by rewrite IH. Qed.

Lemma all_new_ok level : level_in level -> Forall meta_ok (all_new es level).
Proof.
  intros Hl. unfold all_new. rewrite Forall_concat, Forall_map. eapply Forall_impl; [exact (ef_ok _ _ Hfit)|]. intros x [_ _ Hx]. rewrite Forall_forall in Hx. rewrite Forall_forall. intros m Hm.
  by apply (Hx (level, m)), at_level_elem.
Qed.

(** What is saved is what the edits say. *)
Lemma saved_info level : level_in level -> map f_info (saved b base level) ≡ₚ level_after (map f_info (files_at base level)) es level.
Proof.
  intros Hl. rewrite level_after_deleted by (by apply (ef_once _ _ Hfit)). destruct (ho_added _ _ _ _ Hb level Hl) as (_ & ptrs & Hp & Hm & _). pose proof (ho_deleted _ _ _ _ Hb level Hl) as Hd.
  unfold saved, saved_files. rewrite (filter_same _ (fun f => i_number (f_info f) ∉ deleted_after es level)) by (intros f _; unfold kept; by rewrite Hd).
  etrans; [apply reflexive_eq, (map_filter f_info (fun i => i_number i ∉ deleted_after es level))|]. assert (E : map f_info (files_at base level) ++ map info (all_new es level) = map f_info (files_at base level ++ ptrs)).
  { rewrite map_app. f_equal. unfold f_info. rewrite <- (map_map f_meta info ptrs), Hm, map_map. done. }
  rewrite E, interleave_perm, Hp. done.
Qed.

Lemma saved_all level f : level_in level -> f ∈ files_at base level ++ added_files (level_state b level) -> file_ok f /\ allocated h f.
Proof.
  intros Hl [Hf|Hf]%elem_of_app.
  - split; [by apply (elem_ok _ f (vo_files base (vg_files _ Hbase) level))|by eapply Halloc].
  - pose proof (holds_files _ _ _ _ level Hb Hl (all_new_ok level Hl)) as Hok. split; [by apply (elem_ok _ f Hok)|]. destruct (ho_added _ _ _ _ Hb level Hl) as (_ & ptrs & Hp & _ & Hr). rewrite Hp in Hf. rewrite Forall_forall in Hr. destruct (Hr f Hf) as [_ Hr']. by exists 1.
Qed.

Lemma saved_ok level : level_in level -> Forall file_ok (saved b base level) /\ ordered (saved b base level).
Proof.
  intros Hl. split.
  - rewrite Forall_forall. intros f [_ Hf]%list_elem_of_filter. rewrite interleave_perm in Hf. by apply (saved_all level).
  - unfold saved, saved_files. assert (Ho : ordered (interleave (files_at base level) (added_files (level_state b level)))).
    { apply interleave_ordered; [rewrite Forall_forall; intros f Hf; by apply (saved_all level)|apply good_ordered; [done|unfold level_in in Hl; lia]|by apply (ho_added _ _ _ _ Hb level Hl)]. }
    revert Ho. generalize (interleave (files_at base level) (added_files (level_state b level))). induction 1 as [|f l Hs IH Hall]; [constructor|]. rewrite filter_cons. case_decide; [|done]. constructor; [done|].
    rewrite Forall_forall in Hall. rewrite Forall_forall. intros g [_ Hg]%list_elem_of_filter. by apply Hall.
Qed.

Lemma saved_before level : 0 < level < kNumLevels -> StronglySorted file_before (saved b base level).
Proof.
  intros Hl. destruct (saved_ok level ltac:(unfold level_in; lia)) as [Hok Ho]. apply ordered_apart; [done..|]. eapply (pairs_perm apart); [unfold apart; intros x y; tauto| |exact (ef_apart _ _ Hfit level Hl)].
  symmetry. apply saved_info. unfold level_in. lia.
Qed.

Lemma built_ok : builder_ok b base h.
Proof.
  split; [by apply (ho_size _ _ _ _ Hb)| |by apply saved_before]. intros level Hl. rewrite Forall_forall. intros f Hf. by apply (saved_all level).
Qed.

Lemma saved_levels_at w level : files_at (with_files w (saved_levels b base)) level = if decide (level_in level) then saved b base level else if decide (level < 0) then saved b base 0 else [].
Proof.
  unfold files_at, with_files, saved_levels, level_in. cbn [files_]. change all_levels with [0; 1; 2; 3; 4; 5; 6]. change kNumLevels with 7. cbn [map].
  destruct (decide (0 <= level < 7)) as [Hl|Hl].
  - assert (Hc : level = 0 \/ level = 1 \/ level = 2 \/ level = 3 \/ level = 4 \/ level = 5 \/ level = 6) by lia. by destruct Hc as [->|[->|[->|[->|[->|[->| ->]]]]]].
  - destruct (decide (level < 0)); [by rewrite Z2Nat.nonpos by lia|]. apply nth_overflow. cbn. lia.
Qed.

Lemma saved_good w : version_good (with_files w (saved_levels b base)).
Proof.
  split; [|rewrite saved_levels_at, decide_True by (unfold level_in; change kNumLevels with 7; lia); apply saved_ok; unfold level_in; change kNumLevels with 7; lia|done].
  assert (Hsz : forall level, level_in level -> size (saved b base level) < 2 ^ 31).
  { intros level Hl. pose proof (Permutation_length (saved_info level Hl)) as Hlen. rewrite length_map in Hlen. unfold size. rewrite Hlen. by apply (ef_count _ _ Hfit). }
  assert (H0 : level_in 0) by (unfold level_in; change kNumLevels with 7; lia). split; intros level.
  - rewrite saved_levels_at. repeat case_decide; [by apply saved_ok|by apply saved_ok|done].
  - intros Hl. rewrite saved_levels_at. case_decide as Hin; [|rewrite decide_False by lia; repeat constructor]. split; [by apply saved_ok|]. split; [apply saved_before; unfold level_in in Hin; lia|by apply Hsz].
  - rewrite saved_levels_at. repeat case_decide; [by apply Hsz|by apply Hsz|done].
Qed.

Lemma saved_levels_info w level : level_in level -> map f_info (files_at (with_files w (saved_levels b base)) level) ≡ₚ level_after (map f_info (files_at base level)) es level.
Proof. intros Hl. rewrite saved_levels_at, decide_True by done. by apply saved_info. Qed.
End Built.
End Save.
