(* ===== verification/LdbEnv.v ===== *)
(** [include/leveldb/env.h], [util/env.cc]: files by their names, as the class [Env], and the
    functions on whole files; [SetCurrentFile] of [db/filename.cc]. *)

From Stdlib Require Import ZArith Lia List String Bool.
From stdpp Require Import base gmap list.
From S2P Require Import Prelude LdbBase LdbText LdbCoding LdbLog LdbLogRead LdbLogTotal.

(** ** The interface

    The state of the environment is an [E]; an [H] is a [WritableFile*] and a [G] a
    [SequentialFile*], where [None] is null. [close_writable] and [close_sequential] are the destructors. *)
Class Env (E H G : Type) := {
  NewWritableFile : list Z -> E -> Status * option H * E;
  NewAppendableFile : list Z -> E -> Status * option H * E;
  NewSequentialFile : list Z -> E -> Status * option G * E;
  FileExists : list Z -> E -> bool;
  GetChildren : list Z -> E -> Status * list (list Z);
  GetFileSize : list Z -> E -> Status * Z;
  RemoveFile : list Z -> E -> Status * E;
  RenameFile : list Z -> list Z -> E -> Status * E;
  writable : H -> WritableFile E;
  sequential : G -> SequentialFile E;
  file_Sync : H -> E -> Status * E;
  file_Close : H -> E -> Status * E;
  close_writable : H -> E -> E;
  close_sequential : G -> E -> E
}.

(** On success there is a file. *)
Class EnvOpens {E H G} (V : Env E H G) := {
  opens_writable n e : let '(s, f, _) := NewWritableFile n e in ok s = true -> is_Some f;
  opens_appendable n e : let '(s, f, _) := NewAppendableFile n e in ok s = true -> is_Some f;
  opens_sequential n e : let '(s, f, _) := NewSequentialFile n e in ok s = true -> is_Some f
}.

(** What [env.h] promises when there is no I/O error. A name leads to a file, of which
    [file_data] are the bytes; a file keeps them while it is open, whatever happens to its name. *)
Definition same_files {E} (dir : E -> gmap (list Z) Z) (data : E -> Z -> list Z) (e e' : E) : Prop := dir e' = dir e /\ forall i, data e' i = data e i.

Class EnvLaws {E H G} (V : Env E H G) := {
  env_opens :: EnvOpens V;
  file_dir : E -> gmap (list Z) Z;
  file_data : E -> Z -> list Z;
  file_of : H -> Z;
  L_sequential g :: SequentialFileLaws (sequential g);
  L_new n e : exists h e', NewWritableFile n e = (OK, Some h, e') /\ file_dir e' = <[n := file_of h]> (file_dir e) /\
    (forall m, file_dir e !! m <> Some (file_of h) \/ m = n) /\ file_data e' (file_of h) = [] /\ forall i, i <> file_of h -> file_data e' i = file_data e i;
  L_append n e i : file_dir e !! n = Some i -> exists h e', NewAppendableFile n e = (OK, Some h, e') /\ file_of h = i /\ same_files file_dir file_data e e';
  L_open n e i : file_dir e !! n = Some i -> exists g e', NewSequentialFile n e = (OK, Some g, e') /\ same_files file_dir file_data e e' /\ remaining (SequentialFileLaws := L_sequential g) e' = file_data e i;
  L_size n e i : file_dir e !! n = Some i -> GetFileSize n e = (OK, size (file_data e i));
  L_remove n e i : file_dir e !! n = Some i -> exists e', RemoveFile n e = (OK, e') /\ file_dir e' = delete n (file_dir e) /\ forall j, file_data e' j = file_data e j;
  L_rename a b e i : file_dir e !! a = Some i -> exists e', RenameFile a b e = (OK, e') /\ file_dir e' = <[b := i]> (delete a (file_dir e)) /\ forall j, file_data e' j = file_data e j;
  L_Append h d e : exists e', file_Append (WritableFile := writable h) d e = (OK, e') /\ file_dir e' = file_dir e /\ file_data e' (file_of h) = file_data e (file_of h) ++ d /\ forall i, i <> file_of h -> file_data e' i = file_data e i;
  L_Flush h e : exists e', file_Flush (WritableFile := writable h) e = (OK, e') /\ same_files file_dir file_data e e';
  L_Sync h e : exists e', file_Sync h e = (OK, e') /\ same_files file_dir file_data e e';
  L_Close h e : exists e', file_Close h e = (OK, e') /\ same_files file_dir file_data e e';
  L_close_writable h e : same_files file_dir file_data e (close_writable h e);
  L_close_sequential g e : same_files file_dir file_data e (close_sequential g e);
  L_Read g n e : same_files file_dir file_data e (snd (file_Read (SequentialFile := sequential g) n e));
  L_Skip g n e : same_files file_dir file_data e (snd (file_Skip (SequentialFile := sequential g) n e))
}.

Section Env.
Context {E H G : Type} {V : Env E H G}.

(** A call. *)
Definition call {A} (f : E -> A * E) : M E A := fun e => let '(a, e') := f e in (Ret a, e').
Definition ask {A} (f : E -> A) : M E A := gets f.

(** ** [env.cc] *)

Definition DoWriteStringToFile (contents : Slice) (fname : list Z) (should_sync : bool) : M E Status :=
  r <- call (NewWritableFile fname) ;;
  let '(s, file) := r in
  if negb (ok s) then ret s
  else
    file <- or_stuck file ;;
    s <- call (file_Append (WritableFile := writable file) contents) ;;
    s <- (if ok s && should_sync then call (file_Sync file) else ret s) ;;
    s <- (if ok s then call (file_Close file) else ret s) ;;
    modify (close_writable file) ;;
    (if negb (ok s) then call (RemoveFile fname) ;; ret tt else ret tt) ;;
    ret s.

Definition WriteStringToFile (contents : Slice) (fname : list Z) : M E Status := DoWriteStringToFile contents fname false.
Definition WriteStringToFileSync (contents : Slice) (fname : list Z) : M E Status := DoWriteStringToFile contents fname true.

Definition kBufferSize : Z := 8192.

(** A round of the loop; the local is [*data]. The result is [s] and [*data]. *)
Definition read_fragment (file : G) (contents : list Z) : M E (list Z + Status * list Z) :=
  r <- call (fun e => let '(s, fragment, e') := file_Read (SequentialFile := sequential file) kBufferSize e in (s, fragment, e')) ;;
  let '(s, fragment) := r in
  if negb (ok s) then ret (inr (s, contents))
  else
    let contents := contents ++ fragment in
    if size fragment =? 0 then ret (inr (s, contents)) else ret (inl contents).

Definition ReadFileToString (fname : list Z) : M E (Status * list Z) :=
  r <- call (NewSequentialFile fname) ;;
  let '(s, file) := r in
  if negb (ok s) then ret (s, [])
  else
    file <- or_stuck file ;;
    r <- loop (read_fragment file) [] ;;
    modify (close_sequential file) ;;
    ret r.

(** ** [filename.cc] *)

Definition SetCurrentFile (dbname : list Z) (descriptor_number : Z) : M E Status :=
  asserted (0 <? descriptor_number) ;;
  let contents := DescriptorFileName dbname descriptor_number in
  asserted (starts_with contents (dbname ++ literal "/")) ;;
  let contents := remove_prefix (size dbname + 1) contents in
  let tmp := TempFileName dbname descriptor_number in
  s <- WriteStringToFileSync (contents ++ [10]) tmp ;;
  s <- (if ok s then call (RenameFile tmp (CurrentFileName dbname)) else ret s) ;;
  (if negb (ok s) then call (RemoveFile tmp) ;; ret tt else ret tt) ;;
  ret s.

(** ** Logs in files

    [dest_] of a [log::Writer] and [file_] of a [log::Reader] are pointers to files. *)

Definition with_writer {A} (m : forall h : H, M (Writer E) A) (w : Writer H) : M E (A * Writer H) := fun e =>
  let '(r, w') := m (dest_ w) (mk_writer e (block_offset_ w) (type_crc_ w)) in
  (match r with Ret a => Ret (a, mk_writer (dest_ w) (block_offset_ w') (type_crc_ w')) | Fail => Fail | Stuck => Stuck end, dest_ w').

Definition reader_at {F F'} (f : F') (r : Reader F) : Reader F' :=
  mk_reader f (reporter_ r) (checksum_ r) (buffer_ r) (eof_ r) (last_record_offset_ r) (end_of_buffer_offset_ r) (initial_offset_ r) (resyncing_ r) (reports r).

Definition with_reader {A} (m : forall g : G, M (Reader E) A) (r : Reader G) : M E (A * Reader G) := fun e =>
  let '(o, r') := m (file_ r) (reader_at e r) in
  (match o with Ret a => Ret (a, reader_at (file_ r) r') | Fail => Fail | Stuck => Stuck end, file_ r').

(** [log->AddRecord(record)] *)
Definition log_AddRecord (record : Slice) : Writer H -> M E (Status * Writer H) := with_writer (fun h => AddRecord (W := writable h) record).
(** [reader.ReadRecord(&record, &scratch)] *)
Definition log_ReadRecord : Reader G -> M E (option Slice * Reader G) := with_reader (fun g => ReadRecord (R := sequential g)).
End Env.

(** ** Files in memory *)

(** The names, the files, and what open readers have left to read. *)
Record MemoryEnv := mk_memory { me_dir : gmap (list Z) Z; me_data : gmap Z (list Z); me_left : gmap Z (list Z) }.

Definition above (l : list Z) : Z := 1 + fold_right Z.max 0 l.

Lemma above_new l : Forall (fun i => i < above l) l.
Proof.
  assert (H : forall l i, i ∈ l -> i <= fold_right Z.max 0 l). { clear. induction l as [|x l IH]; intros i Hi; [by apply not_elem_of_nil in Hi|]. cbn. apply elem_of_cons in Hi as [->|Hi]; [lia|]. specialize (IH i Hi). lia. }
  rewrite Forall_forall. intros i Hi. specialize (H l i Hi). unfold above. lia.
Qed.

Definition free_file (e : MemoryEnv) : Z := above (map snd (map_to_list (me_dir e)) ++ map fst (map_to_list (me_data e))).

Definition me_read (g n : Z) (e : MemoryEnv) : list Z * MemoryEnv :=
  let rest := default [] (me_left e !! g) in
  (take (Z.to_nat n) rest, mk_memory (me_dir e) (me_data e) (<[g := drop (Z.to_nat n) rest]> (me_left e))).

Definition no_file (n : list Z) : Status := NotFound n (literal "No such file").

#[export] Instance memory_env : Env MemoryEnv Z Z := {
  NewWritableFile n e := let i := free_file e in (OK, Some i, mk_memory (<[n := i]> (me_dir e)) (<[i := []]> (me_data e)) (me_left e));
  NewAppendableFile n e :=
    match me_dir e !! n with
    | Some i => (OK, Some i, e)
    | None => let i := free_file e in (OK, Some i, mk_memory (<[n := i]> (me_dir e)) (<[i := []]> (me_data e)) (me_left e))
    end;
  NewSequentialFile n e :=
    match me_dir e !! n with
    | Some i => let g := above (map fst (map_to_list (me_left e))) in (OK, Some g, mk_memory (me_dir e) (me_data e) (<[g := default [] (me_data e !! i)]> (me_left e)))
    | None => (no_file n, None, e)
    end;
  FileExists n e := match me_dir e !! n with Some _ => true | None => false end;
  GetChildren d e := (OK, map (fun n => remove_prefix (size d + 1) n) (filter (fun n => starts_with n (d ++ literal "/") = true) (map fst (map_to_list (me_dir e)))));
  GetFileSize n e := match me_dir e !! n with Some i => (OK, size (default [] (me_data e !! i))) | None => (no_file n, 0) end;
  RemoveFile n e := match me_dir e !! n with Some _ => (OK, mk_memory (delete n (me_dir e)) (me_data e) (me_left e)) | None => (no_file n, e) end;
  RenameFile a b e := match me_dir e !! a with Some i => (OK, mk_memory (<[b := i]> (delete a (me_dir e))) (me_data e) (me_left e)) | None => (no_file a, e) end;
  writable h := {|
    file_Append d e := (OK, mk_memory (me_dir e) (<[h := default [] (me_data e !! h) ++ d]> (me_data e)) (me_left e));
    file_Flush e := (OK, e) |};
  sequential g := {|
    file_Read n e := let '(d, e') := me_read g n e in (OK, d, e');
    file_Skip n e := (OK, snd (me_read g n e)) |};
  file_Sync h e := (OK, e);
  file_Close h e := (OK, e);
  close_writable h e := e;
  close_sequential g e := mk_memory (me_dir e) (me_data e) (delete g (me_left e))
}.

#[export] Instance memory_env_opens : EnvOpens memory_env.
Proof. split; intros n e; cbn; [done|by destruct (me_dir e !! n)|by destruct (me_dir e !! n)]. Qed.

#[export, program] Instance memory_reads (g : Z) : SequentialFileLaws (sequential (Env := memory_env) g) := {| remaining e := default [] (me_left e !! g) |}.
Next Obligation. intros g n f. cbn. eexists. split; [done|]. cbn. by rewrite lookup_insert_eq. Qed.
Next Obligation. intros g n f. cbn. eexists. split; [done|]. cbn. by rewrite lookup_insert_eq. Qed.

Lemma free_file_new e n i : me_dir e !! n = Some i -> i < free_file e.
Proof.
  intros Hi. pose proof (above_new (map snd (map_to_list (me_dir e)) ++ map fst (map_to_list (me_data e)))) as H. rewrite Forall_forall in H. apply H, elem_of_app. left.
  apply (list_elem_of_fmap_2' snd _ (n, i)); [by apply elem_of_map_to_list|done].
Qed.

#[export, program] Instance memory_env_laws : EnvLaws memory_env := {| file_dir := me_dir; file_data e i := default [] (me_data e !! i); file_of h := h |}.
Next Obligation.
  intros n e. exists (free_file e), (mk_memory (<[n := free_file e]> (me_dir e)) (<[free_file e := []]> (me_data e)) (me_left e)). cbv beta. cbn [me_dir me_data]. split; [done|]. split; [done|].
  split; [|split; [by rewrite lookup_insert_eq|intros i Hi; by rewrite lookup_insert_ne]].
  intros m. left. intros Hm%free_file_new. lia.
Qed.
Next Obligation. intros n e i Hi. cbn. rewrite Hi. by eexists _, _. Qed.
Next Obligation. intros n e i Hi. cbn. rewrite Hi. eexists _, _. split; [done|]. split; [done|]. cbn. by rewrite lookup_insert_eq. Qed.
Next Obligation. intros n e i Hi. cbn. by rewrite Hi. Qed.
Next Obligation. intros n e i Hi. cbn. rewrite Hi. by eexists. Qed.
Next Obligation. intros a b e i Hi. cbn. rewrite Hi. by eexists. Qed.
Next Obligation. intros h d e. cbn. eexists. split; [done|]. split; [done|]. split; [cbn; by rewrite lookup_insert_eq|]. intros i Hi. cbn. by rewrite lookup_insert_ne. Qed.
Next Obligation. intros h e. by eexists. Qed.
Next Obligation. intros h e. by eexists. Qed.
Next Obligation. intros h e. by eexists. Qed.
Next Obligation. done. Qed.
Next Obligation. done. Qed.
Next Obligation. done. Qed.
Next Obligation. done. Qed.

Definition empty_memory : MemoryEnv := mk_memory ∅ ∅ ∅.
