(* ===== verification/LdbRefs.v ===== *)
(** The reference counts of versions and files: who holds what, and that [Ref], [Unref],
    [AppendVersion] and the [Builder] keep count. *)

From Stdlib Require Import ZArith Lia List String Bool SpecFloat.
From stdpp Require Import base gmap list sorting.
From S2P Require Import Prelude Base128 LdbBase LdbText LdbCoding LdbKeys LdbKeyProps LdbVersionEdit LdbIterator LdbFormat LdbVersion LdbVersionOverlap LdbVersionSet LdbCompaction LdbCompactionPick LdbBuilderSave.

(** ** Files *)

(** What is the same in memory while only counters change. *)
Definition same_versions (h h' : Heap) : Prop := h_versions h' = h_versions h /\ h_list h' = h_list h /\ h_fresh h' = h_fresh h.

#[export] Instance same_versions_preorder : PreOrder same_versions.
Proof. split; [done|]. intros x y z (A1 & A2 & A3) (B1 & B2 & B3). unfold same_versions. split; [congruence|]. split; congruence. Qed.

Lemma wp_file_ref_counted f h l (Q : unit -> Heap -> Prop) E : counted (h_refs h) l -> f_address f ∈ l -> size l + 1 < 2 ^ 31 -> heap_fresh h ->
  (forall h', counted (h_refs h') (f_address f :: l) -> heap_fresh h' -> same_versions h h' -> h' = bump1 h f -> Q tt h') -> wp (file_ref f) Q E h.
Proof.
  intros Hc Ha Hb Hf HQ. pose proof (counted_some _ _ _ Hc Ha) as E1. apply wp_file_ref; [by eexists|]. apply HQ; [| |unfold bump1; by rewrite E1|done]; unfold bump1; rewrite E1.
  - cbn. pose proof (times_size (f_address f) l). pose proof (times_nonneg (f_address f) l). rewrite swrap_fits by (cbn; lia). by apply counted_more.
  - intros a Hlt. cbn in *. destruct (Hf a Hlt) as (F1 & F2 & F3). split; [|done]. rewrite lookup_insert_ne; [done|]. intros <-. congruence.
Qed.

Lemma wp_file_unref_counted f h l (Q : unit -> Heap -> Prop) E : counted (h_refs h) (f_address f :: l) -> size l < 2 ^ 31 - 1 -> heap_fresh h ->
  (forall h', counted (h_refs h') l -> heap_fresh h' -> same_versions h h' -> Q tt h') -> wp (file_unref f) Q E h.
Proof.
  intros Hc Hb Hf HQ. pose proof (counted_some _ _ _ Hc (list_elem_of_here _ _)) as E1. rewrite times_cons, decide_True in E1 by done.
  pose proof (times_size (f_address f) l). pose proof (times_nonneg (f_address f) l). unfold file_unref. apply wp_bind, wp_get, wp_bind, wp_or_stuck. eexists. split; [exact E1|].
  replace (s32 (1 + times (f_address f) l - 1)) with (times (f_address f) l) by (rewrite swrap_fits; cbn; lia). destruct (Z.leb_spec (times (f_address f) l) 0) as [Hz|Hp]; apply wp_modify, HQ; try done.
  - cbn. apply counted_gone; [done|]. rewrite <- times_elem. lia.
  - intros a Hlt. destruct (Hf a Hlt) as (F1 & F2 & F3). cbn. split; [|split; [|done]]; apply lookup_delete_None; by right.
  - cbn. apply counted_less; [done|]. by apply times_elem.
  - intros a Hlt. destruct (Hf a Hlt) as (F1 & F2 & F3). cbn. split; [|done]. rewrite lookup_insert_ne; [done|]. intros <-. congruence.
Qed.

(** The loop of destructors: the references [fs] are given back. *)
Lemma wp_unref_all fs h l (Q : unit -> Heap -> Prop) E : counted (h_refs h) (addresses fs ++ l) -> size (addresses fs ++ l) < 2 ^ 31 -> heap_fresh h ->
  (forall h', counted (h_refs h') l -> heap_fresh h' -> same_versions h h' -> Q tt h') -> wp (for_each fs file_unref) Q E h.
Proof.
  revert h Q. induction fs as [|f fs IH]; intros h Q Hc Hb Hf HQ; [by apply wp_ret, HQ|]. cbn [for_each addresses map app] in *. change (map f_address fs) with (addresses fs) in *. rewrite size_cons in Hb.
  apply wp_bind, (wp_file_unref_counted f h (addresses fs ++ l)); [done|lia|done|]. intros h1 Hc1 Hf1 Hs1. apply IH; [done|lia|done|]. intros h2 Hc2 Hf2 Hs2. apply HQ; [done|done|]. by etrans.
Qed.

Lemma bump_counted fs h l : counted (h_refs h) l -> (forall f, f ∈ fs -> f_address f ∈ l) -> size (addresses fs ++ l) < 2 ^ 31 -> heap_fresh h ->
  counted (h_refs (bump h fs)) (addresses fs ++ l) /\ heap_fresh (bump h fs).
Proof.
  revert h l. induction fs as [|f fs IH]; intros h l Hc Hin Hb Hf; [done|]. unfold bump in *. cbn [fold_left addresses map app] in *. rewrite size_cons, size_app in Hb.
  assert (H1 : counted (h_refs (bump1 h f)) (f_address f :: l) /\ heap_fresh (bump1 h f)).
  { enough (W : wp (file_ref f) (fun _ h' => h' = bump1 h f /\ counted (h_refs h') (f_address f :: l) /\ heap_fresh h') (fun _ => False) h).
    - unfold wp in W. destruct (file_ref f h) as [[u| |] h'] eqn:E; [|done|done]. by destruct W as (-> & W1 & W2).
    - apply (wp_file_ref_counted f h l); [done|apply Hin, list_elem_of_here|pose proof (size_nonneg (addresses fs)); unfold addresses in *; lia|done|done]. }
  destruct H1 as [H1 H2]. destruct (IH (bump1 h f) (f_address f :: l) H1) as [H3 H4].
  - intros g Hg. apply elem_of_cons. right. apply Hin, elem_of_cons. by right.
  - rewrite size_app, size_cons. unfold addresses in *. lia.
  - done.
  - split; [|done]. eapply counted_proper; [|exact H3]. apply Permutation_middle.
Qed.

(** ** Versions *)

Definition version_addresses (v : Version) : list Z := addresses (concat (files_ v)).

(** The references that versions hold to files. *)
Definition uses (m : gmap Z (Version * Z)) : list Z := concat (map (fun p => version_addresses (fst (snd p))) (map_to_list m)).

Lemma uses_insert m v cell : m !! v = None -> uses (<[v := cell]> m) ≡ₚ version_addresses (fst cell) ++ uses m.
Proof. intros H. unfold uses. rewrite map_to_list_insert by done. done. Qed.

Lemma uses_delete m v cell : m !! v = Some cell -> uses m ≡ₚ version_addresses (fst cell) ++ uses (delete v m).
Proof. intros H. rewrite <- (insert_delete_id m v cell H) at 1. apply uses_insert. apply lookup_delete_eq. Qed.

Lemma uses_update m v cell cell' : m !! v = Some cell -> version_addresses (fst cell) = version_addresses (fst cell') -> uses (<[v := cell']> m) ≡ₚ uses m.
Proof.
  intros H E. rewrite (uses_delete m v cell H), E. rewrite <- insert_delete_eq. apply uses_insert, lookup_delete_eq.
Qed.

Lemma uses_elem m v cell f : m !! v = Some cell -> f ∈ concat (files_ (fst cell)) -> f_address f ∈ uses m.
Proof. intros H Hf. rewrite (uses_delete m v cell H). apply elem_of_app. left. by apply (list_elem_of_fmap_2 f_address). Qed.

(** Memory is in order: [holders] are the references to versions - a version not held is about to be installed or
    to be deleted -, [held] the references to files apart from those of versions. *)
Record memory_ok (h : Heap) (holders held : list Z) : Prop := {
  mo_files : counted (h_refs h) (held ++ uses (h_versions h));
  mo_versions v cell : h_versions h !! v = Some cell -> snd cell = times v holders;
  mo_holders v : v ∈ holders -> is_Some (h_versions h !! v);
  mo_fresh : heap_fresh h;
  mo_once : NoDup (h_list h);
  mo_list v : v ∈ h_list h <-> v ∈ holders;
  mo_bound : size (held ++ uses (h_versions h)) < 2 ^ 31 - 1;
  mo_holders_bound : size holders < 2 ^ 31 - 1
}.

(** The versions that there still are have the same contents. *)
Definition keeps_versions (h h' : Heap) : Prop := forall w cell, h_versions h' !! w = Some cell -> exists n, h_versions h !! w = Some (fst cell, n).

#[export] Instance keeps_versions_preorder : PreOrder keeps_versions.
Proof.
  split; [intros h w [x n] H; by exists n|]. intros x y z H1 H2 w cell H. destruct (H2 w cell H) as [n Hn]. destruct (H1 w _ Hn) as [k Hk]. by exists k.
Qed.

Lemma held_perm h holders holders' held held' : holders ≡ₚ holders' -> held ≡ₚ held' -> memory_ok h holders held -> memory_ok h holders' held'.
Proof.
  intros H H' [A1 A2 A3 A4 A5 A6 A7 A8]. split; try done.
  - by rewrite <- H'.
  - intros v cell Hv. rewrite <- H. by apply A2.
  - intros v Hv. rewrite <- H in Hv. by apply A3.
  - intros v. by rewrite <- H.
  - unfold size in *. by rewrite <- H'.
  - unfold size in *. by rewrite <- H.
Qed.

Lemma wp_version_cell v cell h (Q : Version * Z -> Heap -> Prop) E : h_versions h !! v = Some cell -> Q cell h -> wp (version_cell v) Q E h.
Proof. intros Hv HQ. unfold version_cell. apply wp_bind, wp_get, wp_or_stuck. by exists cell. Qed.

Lemma wp_Version_Ref v h holders held (Q : unit -> Heap -> Prop) E : memory_ok h holders held -> v ∈ holders -> size holders + 1 < 2 ^ 31 - 1 ->
  (forall h', memory_ok h' (v :: holders) held -> keeps_versions h h' -> h_fresh h' = h_fresh h -> (forall u, u <> v -> h_versions h' !! u = h_versions h !! u) -> uses (h_versions h') ≡ₚ uses (h_versions h) -> Q tt h') -> wp (Version_Ref v) Q E h.
Proof.
  intros [A1 A2 A3 A4 A5 A6 A7 A8] Hv Hb HQ. destruct (A3 v Hv) as [[x n] Hc]. pose proof (A2 _ _ Hc) as Hn. cbn in Hn. subst n. pose proof (times_size v holders). pose proof (times_nonneg v holders).
  unfold Version_Ref. apply wp_bind, (wp_version_cell v _ h _ _ Hc), wp_modify. cbn [fst snd]. rewrite swrap_fits by (cbn; lia). pose proof (uses_update _ v _ (x, times v holders + 1) Hc eq_refl) as Hu. apply HQ; [|intros w cell H1; cbn in H1|done|intros u Hne; cbn; by rewrite lookup_insert_ne|done].
  - split; cbn; [by rewrite Hu| | | | | |unfold size in *; by rewrite Hu|rewrite size_cons; lia].
    + intros w cell. destruct (decide (w = v)) as [->|Hne]; [rewrite lookup_insert_eq; intros [= <-]; cbn; rewrite times_cons, decide_True by done; lia|]. rewrite lookup_insert_ne by done. intros Hw. rewrite (A2 _ _ Hw), times_cons, decide_False by done. lia.
    + intros w Hw. destruct (decide (w = v)) as [->|Hne]; [rewrite lookup_insert_eq; by eexists|]. rewrite lookup_insert_ne by done. apply A3. by apply elem_of_cons in Hw as [->|Hw].
    + intros a Hlt. cbn in *. destruct (A4 a Hlt) as (F1 & F2 & F3). split; [done|]. split; [done|]. rewrite lookup_insert_ne; [done|]. intros <-. congruence.
    + done.
    + intros w. rewrite elem_of_cons, A6. split; [by right|]. by intros [->|].
  - destruct (decide (w = v)) as [->|Hne]; [rewrite lookup_insert_eq in H1; injection H1 as <-; by eexists|]. rewrite lookup_insert_ne in H1 by done. destruct cell. by eexists.
Qed.

(** ** Destructors *)

Lemma for_each_concat {S A} (ls : list (list A)) (body : A -> M S unit) s : for_each ls (fun l => for_each l body) s = for_each (concat ls) body s.
Proof.
  assert (Happ : forall a b t, for_each (a ++ b) body t = (for_each a body ;; for_each b body) t).
  { induction a as [|x a IH]; intros b t; [done|]. cbn [for_each app]. rewrite bind_assoc. unfold bind at 1 2. destruct (body x t) as [[u| |] t']; [apply IH|done|done]. }
  revert s. induction ls as [|l ls IH]; intros s; [done|]. cbn [for_each concat]. rewrite Happ. unfold bind. destruct (for_each l body s) as [[u| |] t]; [apply IH|done|done].
Qed.

Lemma wp_for_each_concat {S A} (ls : list (list A)) (body : A -> M S unit) Q E s : wp (for_each (concat ls) body) Q E s -> wp (for_each ls (fun l => for_each l body)) Q E s.
Proof. unfold wp. by rewrite for_each_concat. Qed.

(** The loop of [~Version] over its files. *)
Lemma wp_unref_live fs h l (Q : unit -> Heap -> Prop) E : counted (h_refs h) (addresses fs ++ l) -> size (addresses fs ++ l) < 2 ^ 31 -> heap_fresh h ->
  (forall h', counted (h_refs h') l -> heap_fresh h' -> same_versions h h' -> Q tt h') ->
  wp (for_each fs (fun f => h <- get ;; n <- or_stuck (h_refs h !! f_address f) ;; asserted (0 <? n) ;; file_unref f)) Q E h.
Proof.
  revert h Q. induction fs as [|f fs IH]; intros h Q Hc Hb Hf HQ; [by apply wp_ret, HQ|]. cbn [for_each addresses map app] in *. change (map f_address fs) with (addresses fs) in *. rewrite size_cons in Hb.
  pose proof (counted_some _ _ _ Hc (list_elem_of_here _ _)) as E1. apply wp_bind, wp_bind, wp_get, wp_bind, wp_or_stuck. eexists. split; [exact E1|]. apply wp_bind, wp_asserted.
  { rewrite times_cons, decide_True by done. pose proof (times_nonneg (f_address f) (addresses fs ++ l)). apply Z.ltb_lt. lia. }
  apply (wp_file_unref_counted f h (addresses fs ++ l)); [done|lia|done|]. intros h1 Hc1 Hf1 Hs1. apply IH; [done|lia|done|]. intros h2 Hc2 Hf2 Hs2. apply HQ; [done|done|]. by etrans.
Qed.

(** A version that nobody holds and its place in the list, if it has one. *)
Lemma wp_delete_version v w h holders held (Q : unit -> Heap -> Prop) E : h_versions h !! v = Some (w, 0) ->
  memory_ok (set_h_list (filter (fun u => u <> v) (h_list h)) h) holders held ->
  (forall h', memory_ok h' holders held -> keeps_versions h h' -> h_versions h' = delete v (h_versions h) -> h_fresh h' = h_fresh h -> Q tt h') -> wp (delete_version v) Q E h.
Proof.
  intros Hv [A1 A2 A3 A4 A5 A6 A7 A8] HQ. cbn in *. assert (Hn : v ∉ holders) by (rewrite <- times_elem; pose proof (A2 _ _ Hv) as Ht; cbn in Ht; lia).
  pose proof (uses_delete _ _ _ Hv) as Hu. cbn [fst] in Hu. unfold delete_version. apply wp_bind, (wp_version_cell v _ h _ _ Hv). cbn [fst snd]. apply wp_bind, wp_asserted; [done|]. apply wp_bind, wp_modify, wp_bind, wp_for_each_concat.
  apply (wp_unref_live (concat (files_ w)) _ (held ++ uses (delete v (h_versions h)))); cbn [h_refs set_h_list].
  - eapply counted_proper; [|exact A1]. rewrite Hu, app_assoc, (Permutation_app_comm _ held), app_assoc. done.
  - unfold size in *. rewrite Hu in A7. revert A7. unfold version_addresses. rewrite !length_app. lia.
  - exact A4.
  - intros h1 Hc1 Hf1 (S1 & S2 & S3). cbn in S1, S2, S3. apply wp_modify. rewrite S1. apply HQ; cbn; [|intros u cell H1; cbn in H1|done|done].
    + split; cbn; [done| | | | | | |done].
      * intros u cell Hu1. apply lookup_delete_Some in Hu1 as [Hne Hu1]. by apply A2.
      * intros u Hu1. rewrite lookup_delete_ne by (intros <-; done). by apply A3.
      * intros a Hlt. cbn in *. destruct (Hf1 a Hlt) as (F1 & F2 & F3). rewrite S1 in F3. split; [done|]. split; [done|]. apply lookup_delete_None. by right.
      * by rewrite S2.
      * intros u. by rewrite S2, A6.
      * unfold size in *. rewrite Hu in A7. rewrite !length_app in *. lia.
    + apply lookup_delete_Some in H1 as [_ H1]. destruct cell. by eexists.
Qed.

Lemma filter_gone (v : Z) (l : list Z) : v ∉ l -> filter (fun u => u <> v) l = l.
Proof. intros H. apply filter_all. rewrite Forall_forall. by intros u Hu ->. Qed.

Lemma set_h_list_same h : set_h_list (h_list h) h = h.
Proof. by destruct h. Qed.

Lemma wp_Version_Unref v h holders held (Q : unit -> Heap -> Prop) E : memory_ok h (v :: holders) held ->
  (forall h', memory_ok h' holders held -> keeps_versions h h' -> h_fresh h' = h_fresh h -> (forall u, u <> v -> h_versions h' !! u = h_versions h !! u) -> (v ∉ holders -> h_versions h' !! v = None) -> Q tt h') -> wp (Version_Unref v) Q E h.
Proof.
  intros Hok HQ. pose proof Hok as [A1 A2 A3 A4 A5 A6 A7 A8]. destruct (A3 v (list_elem_of_here _ _)) as [[x n] Hc]. pose proof (A2 _ _ Hc) as Hn. cbn in Hn. subst n. rewrite times_cons, decide_True in Hc by done.
  pose proof (times_size v holders). pose proof (times_nonneg v holders). rewrite size_cons in A8. unfold Version_Unref. apply wp_bind, (wp_version_cell v _ h _ _ Hc). cbn [fst snd]. apply wp_bind, wp_asserted; [apply Z.leb_le; lia|].
  replace (s32 (1 + times v holders - 1)) with (times v holders) by (rewrite swrap_fits; cbn; lia). apply wp_bind, wp_modify. set (h1 := set_h_versions _ h).
  pose proof (uses_update _ v _ (x, times v holders) Hc eq_refl) as Hu.
  assert (Hkeep : keeps_versions h h1). { intros w cell H1. cbn in H1. destruct (decide (w = v)) as [->|Hne]; [rewrite lookup_insert_eq in H1; injection H1 as <-; by eexists|]. rewrite lookup_insert_ne in H1 by done. destruct cell. by eexists. }
  assert (B : counted (h_refs h1) (held ++ uses (h_versions h1)) /\ (forall w cell, h_versions h1 !! w = Some cell -> snd cell = times w holders) /\ (forall w, w ∈ holders -> is_Some (h_versions h1 !! w)) /\ heap_fresh h1 /\
    size (held ++ uses (h_versions h1)) < 2 ^ 31 - 1).
  { split; [cbn; by rewrite Hu|]. split; [|split; [|split]].
    - intros w cell H1. cbn in H1. destruct (decide (w = v)) as [->|Hne]; [rewrite lookup_insert_eq in H1; by injection H1 as <-|]. rewrite lookup_insert_ne in H1 by done. rewrite (A2 _ _ H1), times_cons, decide_False by done. lia.
    - intros w Hw. cbn. destruct (decide (w = v)) as [->|Hne]; [rewrite lookup_insert_eq; by eexists|]. rewrite lookup_insert_ne by done. apply A3, elem_of_cons. by right.
    - intros a Hlt. cbn in *. destruct (A4 a Hlt) as (F1 & F2 & F3). split; [done|]. split; [done|]. rewrite lookup_insert_ne; [done|]. intros <-. congruence.
    - cbn. unfold size in *. by rewrite Hu. }
  destruct B as (B1 & B2 & B3 & B4 & B5). destruct (Z.eqb_spec (times v holders) 0) as [Hz|Hz].
  - apply (wp_delete_version v x h1 holders held); [cbn; rewrite lookup_insert_eq; by rewrite Hz| |intros h' H1 H2 H4 H3; apply HQ; [done|by etrans|done|intros u Hne; rewrite H4, lookup_delete_ne by done; cbn; by rewrite lookup_insert_ne|intros _; rewrite H4; apply lookup_delete_eq]].
    assert (Hn : v ∉ holders) by (rewrite <- times_elem; lia). split; cbn; [exact B1|exact B2|exact B3|exact B4|by apply NoDup_filter| |exact B5|lia].
    intros u. rewrite list_elem_of_filter, A6, elem_of_cons. split; [by intros [H1 [->|H2]]|]. intros Hu1. split; [by intros ->|by right].
  - assert (Hin : v ∈ holders) by (apply times_elem; lia). apply wp_ret, HQ; [|done|done|intros u Hne; cbn; by rewrite lookup_insert_ne|done]. split; [exact B1|exact B2|exact B3|exact B4|exact A5| |exact B5|lia].
    intros u. cbn. rewrite A6, elem_of_cons. split; [by intros [->|]|by right].
Qed.

(** ** Versions are made and installed *)

Lemma wp_alloc_version h holders held (Q : Z -> Heap -> Prop) E : memory_ok h holders held ->
  (forall h', memory_ok h' holders held -> h_versions h' = <[h_fresh h := (new_Version, 0)]> (h_versions h) -> h_fresh h' = h_fresh h + 1 -> h_refs h' = h_refs h -> Q (h_fresh h) h') -> wp alloc_version Q E h.
Proof.
  intros [A1 A2 A3 A4 A5 A6 A7 A8] HQ. destruct (A4 (h_fresh h) ltac:(lia)) as (F1 & F2 & F3). assert (Hn : h_fresh h ∉ holders) by (intros Hin; apply A3 in Hin as [? Hin]; congruence).
  pose proof (uses_insert _ _ (new_Version, 0) F3) as Hu. change (version_addresses (fst (new_Version, 0))) with (@nil Z) in Hu. cbn [app] in Hu.
  unfold alloc_version, fresh. apply wp_bind. eapply wp_of_eq; [reflexivity|]. apply wp_bind, wp_modify, wp_ret. cbn. apply HQ; [|done..].
  split; cbn; [by rewrite Hu| | | |done|done|unfold size in *; by rewrite Hu|done].
  - intros v cell. destruct (decide (v = h_fresh h)) as [->|Hne]; [rewrite lookup_insert_eq; intros [= <-]; by rewrite times_none|]. rewrite lookup_insert_ne by done. apply A2.
  - intros v Hv. rewrite lookup_insert_ne by (intros <-; done). by apply A3.
  - intros a Hlt. cbn in *. destruct (A4 a ltac:(lia)) as (G1 & G2 & G3). split; [done|]. split; [done|]. rewrite lookup_insert_ne by lia. done.
Qed.

Lemma new_Builder_addresses base : builder_addresses (mk_builder base (repeat (mk_level ∅ []) (Z.to_nat kNumLevels))) = [].
Proof. done. Qed.

Lemma wp_new_Builder base h holders held (Q : Builder -> Heap -> Prop) E : memory_ok h holders held -> base ∈ holders -> size holders + 1 < 2 ^ 31 - 1 ->
  (forall h', memory_ok h' (base :: holders) held -> keeps_versions h h' -> h_fresh h' = h_fresh h -> (forall u, u <> base -> h_versions h' !! u = h_versions h !! u) -> uses (h_versions h') ≡ₚ uses (h_versions h) -> Q (mk_builder base (repeat (mk_level ∅ []) (Z.to_nat kNumLevels))) h') -> wp (new_Builder base) Q E h.
Proof. intros Hok Hb Hbd HQ. unfold new_Builder. apply wp_bind, (wp_Version_Ref base h holders held); [done..|]. intros h' H1 H2 H3 H4 H5. apply wp_ret. by apply HQ. Qed.

(** After [Apply]. *)
Lemma memory_ok_applied b b' h h' holders held : memory_ok h holders (builder_addresses b ++ held) -> extends h h' -> heap_fresh h' -> (forall l, owned b l h -> owned b' l h') ->
  size ((builder_addresses b' ++ held) ++ uses (h_versions h)) < 2 ^ 31 - 1 -> memory_ok h' holders (builder_addresses b' ++ held).
Proof.
  intros [A1 A2 A3 A4 A5 A6 A7 A8] [X1 X2 X3 X4 X5] Hf Ho Hb. split; rewrite ?X1, ?X2; try done. unfold owned in Ho. rewrite <- app_assoc. apply Ho. by rewrite app_assoc.
Qed.

Lemma memory_ok_saved v w m files b h holders held : memory_ok h holders held -> h_versions h !! v = Some (w, m) -> version_addresses w = [] ->
  (forall f, f ∈ concat files -> f_address f ∈ held ++ uses (h_versions h)) -> size (addresses (concat files) ++ held ++ uses (h_versions h)) < 2 ^ 31 - 1 -> files_ b = files ->
  memory_ok (set_h_versions (<[v := (b, m)]> (h_versions h)) (bump h (concat files))) holders held.
Proof.
  intros [A1 A2 A3 A4 A5 A6 A7 A8] Hv Hw Hin Hb Hfiles. destruct (bump_counted (concat files) h _ A1 Hin ltac:(lia) A4) as [B1 B2]. destruct (bump_rest (concat files) h) as (R1 & R2 & R3). pose proof (bump_h_versions (concat files) h) as R4.
  assert (Hu : uses (<[v := (b, m)]> (h_versions h)) ≡ₚ addresses (concat files) ++ uses (h_versions h)).
  { rewrite <- insert_delete_eq, uses_insert by apply lookup_delete_eq. rewrite (uses_delete _ _ _ Hv). cbn [fst]. rewrite Hw. unfold version_addresses. by rewrite Hfiles. }
  assert (Hp : held ++ uses (<[v := (b, m)]> (h_versions h)) ≡ₚ addresses (concat files) ++ held ++ uses (h_versions h)) by (rewrite Hu; apply Permutation_app_swap_app).
  split; cbn; [by rewrite Hp| | | |by rewrite R1|intros u; by rewrite R1, A6|unfold size in *; by rewrite Hp|done].
  - intros u cell. destruct (decide (u = v)) as [->|Hne]; [rewrite lookup_insert_eq; intros [= <-]; apply (A2 _ _ Hv)|]. rewrite lookup_insert_ne by done. apply A2.
  - intros u Hu1. destruct (decide (u = v)) as [->|Hne]; [rewrite lookup_insert_eq; by eexists|]. rewrite lookup_insert_ne by done. by apply A3.
  - intros a Hlt. cbn in *. destruct (B2 a Hlt) as (G1 & G2 & G3). rewrite R4 in G3. split; [done|]. split; [done|]. rewrite lookup_insert_ne; [done|]. intros <-. congruence.
Qed.

Lemma wp_delete_Builder b h holders held (Q : unit -> Heap -> Prop) E : memory_ok h (base_ b :: holders) (builder_addresses b ++ held) ->
  (forall h', memory_ok h' holders held -> keeps_versions h h' -> h_fresh h' = h_fresh h -> (forall u, u <> base_ b -> h_versions h' !! u = h_versions h !! u) -> (base_ b ∉ holders -> h_versions h' !! base_ b = None) -> Q tt h') -> wp (delete_Builder b) Q E h.
Proof.
  intros [A1 A2 A3 A4 A5 A6 A7 A8] HQ. unfold delete_Builder. apply wp_bind.
  assert (E1 : forall s, for_each (levels_ b) (fun l => for_each (added_files l) file_unref) s = for_each (map added_files (levels_ b)) (fun l => for_each l file_unref) s).
  { generalize (levels_ b). induction l as [|l ls IH]; intros s; [done|]. cbn [for_each map]. unfold bind. destruct (for_each (added_files l) file_unref s) as [[u| |] t]; [apply IH|done|done]. }
  unfold wp. rewrite E1. apply wp_for_each_concat. assert (E2 : addresses (concat (map added_files (levels_ b))) = builder_addresses b) by (unfold builder_addresses, addresses; by rewrite concat_map, map_map).
  apply (wp_unref_all _ h (held ++ uses (h_versions h))); [rewrite E2, app_assoc; done|rewrite E2, app_assoc; unfold size in *; lia|done|]. intros h1 Hc1 Hf1 (S1 & S2 & S3).
  apply (wp_Version_Unref (base_ b) h1 holders held); [|intros h2 H1 H2 H3 H4 H5; apply HQ; [done| |congruence|intros u Hne; by rewrite H4, S1|done]].
  - split; rewrite ?S1, ?S2; try done. rewrite <- app_assoc in A7. rewrite size_app in A7. pose proof (size_nonneg (builder_addresses b)). lia.
  - intros w cell Hw. destruct (H2 w cell Hw) as [n Hn]. rewrite S1 in Hn. by exists n.
Qed.

(** Every version in memory is held. *)
Definition all_held (h : Heap) (holders : list Z) : Prop := forall u, is_Some (h_versions h !! u) -> u ∈ holders.

Lemma wp_AppendVersion v w s holders held (Q : unit -> VersionSet -> Prop) E : memory_ok (vs_heap s) (option_list (current_ s) ++ holders) held -> h_versions (vs_heap s) !! v = Some (w, 0) -> size holders + 1 < 2 ^ 31 - 1 ->
  (forall u, is_Some (h_versions (vs_heap s) !! u) -> u = v \/ u ∈ option_list (current_ s) ++ holders) ->
  (forall h', all_held h' (v :: holders) -> memory_ok h' (v :: holders) held -> h_versions h' !! v = Some (w, 1) -> keeps_versions (vs_heap s) h' -> h_fresh h' = h_fresh (vs_heap s) -> Q tt (set_heap h' (set_current (Some v) s))) -> wp (AppendVersion v) Q E s.
Proof.
  intros Hok Hv Hb Hall HQ. assert (Hn : v ∉ option_list (current_ s) ++ holders) by (rewrite <- times_elem; pose proof (mo_versions _ _ _ Hok _ _ Hv) as Ht; cbn in Ht; lia).
  unfold AppendVersion. apply wp_bind. unfold on_heap at 1. apply wp_zoom, (wp_version_cell v _ _ _ _ Hv). cbn [snd]. apply wp_bind, wp_asserted; [done|]. apply wp_bind, wp_get, wp_bind, wp_asserted.
  { apply negb_true_iff, bool_decide_eq_false_2. cbn. destruct (current_ s) as [c|]; [|done]. intros [= ->]. apply Hn. cbn. apply list_elem_of_here. }
  assert (Hs : set_heap (vs_heap s) s = s) by (by destruct s). rewrite Hs. apply wp_bind.
  apply (wp_mono _ (fun _ s1 => exists h1, s1 = set_heap h1 s /\ memory_ok h1 holders held /\ keeps_versions (vs_heap s) h1 /\ h_versions h1 !! v = Some (w, 0) /\ h_fresh h1 = h_fresh (vs_heap s) /\ all_held h1 (v :: holders)) _ (fun _ => False)); [| |done].
  - destruct (current_ s) as [c|] eqn:Ec; cbn [option_list app] in *.
    + unfold on_heap. apply wp_zoom, (wp_Version_Unref c _ holders held); [done|]. intros h1 H1 H2 H3 H4 H5. exists h1. split; [done|]. split; [done|]. split; [done|]. split; [rewrite H4; [done|]; intros ->; apply Hn, list_elem_of_here|]. split; [done|].
      intros u [x Hu]. destruct (H2 _ _ Hu) as [k Hk]. destruct (Hall u (mk_is_Some _ _ Hk)) as [->|[->|Hin]%elem_of_cons]; [apply list_elem_of_here| |apply elem_of_cons; by right].
      apply elem_of_cons. right. destruct (decide (c ∈ holders)) as [|Hc]; [done|]. by rewrite (H5 Hc) in Hu.
    + apply wp_ret. exists (vs_heap s). rewrite Hs. split; [done|]. split; [done|]. split; [done|]. split; [done|]. split; [done|]. intros u Hu. apply elem_of_cons. by apply Hall.
  - intros [] s1 (h1 & -> & Hok1 & Hk1 & Hv1 & Hf1 & Hall1). apply wp_bind, wp_modify. cbn [current_ set_current set_heap vs_heap]. apply wp_bind. unfold on_heap at 1. apply wp_zoom. cbn [vs_heap set_current set_heap].
    assert (Hnh : v ∉ holders) by (intros Hin; apply Hn, elem_of_app; by right). destruct Hok1 as [A1 A2 A3 A4 A5 A6 A7 A8].
    unfold Version_Ref. apply wp_bind, (wp_version_cell v _ _ _ _ Hv1), wp_modify. cbn [fst snd]. change (s32 (0 + 1)) with 1. unfold on_heap. apply wp_zoom, wp_modify. cbn [vs_heap set_current set_heap].
    pose proof (uses_update _ v _ (w, 1) Hv1 eq_refl) as Hu. apply HQ; cbn; [| |by rewrite lookup_insert_eq|intros u cell H1; cbn in H1|done].
    + intros u Hu1. cbn in Hu1. destruct (decide (v = u)) as [<-|Hne]; [apply list_elem_of_here|]. rewrite lookup_insert_ne in Hu1 by done. by apply Hall1.
    + split; cbn; [by rewrite Hu| | | | | |unfold size in *; by rewrite Hu|rewrite size_cons; lia].
      * intros u cell. rewrite times_cons. destruct (decide (v = u)) as [<-|Hne]; [rewrite lookup_insert_eq; intros [= <-]; by rewrite times_none|]. rewrite lookup_insert_ne by done. intros H1. by rewrite (A2 _ _ H1).
      * intros u Hu1. destruct (decide (v = u)) as [<-|Hne]; [rewrite lookup_insert_eq; by eexists|]. rewrite lookup_insert_ne by done. apply A3. by apply elem_of_cons in Hu1 as [->|Hu1].
      * intros a Hlt. cbn in *. destruct (A4 a Hlt) as (G1 & G2 & G3). split; [done|]. split; [done|]. rewrite lookup_insert_ne; [done|]. intros <-. congruence.
      * apply NoDup_app. split; [done|]. split; [|by repeat constructor; apply not_elem_of_nil]. intros u Hu1 ->%list_elem_of_singleton. by apply A6 in Hu1.
      * intros u. rewrite elem_of_app, list_elem_of_singleton, elem_of_cons, A6. tauto.
    + destruct (decide (v = u)) as [<-|Hne]; [rewrite lookup_insert_eq in H1; injection H1 as <-; destruct (Hk1 _ _ Hv1) as [n Hkn]; by exists n|]. rewrite lookup_insert_ne in H1 by done. by apply Hk1.
Qed.
