(* ===== verification/LdbManifest.v ===== *)
(** [db/version_set.cc]: the class [VersionSet] on disk: the MANIFEST log and the CURRENT file,
    over any environment. *)

From Stdlib Require Import ZArith Lia List String Bool.
From stdpp Require Import base gmap list.
From S2P Require Import Prelude LdbBase LdbText LdbCoding LdbLog LdbKeys LdbFormat LdbVersionEdit LdbVersion LdbVersionSet LdbCompaction LdbEnv.

(** A [VersionSet] with its environment, [descriptor_file_] and [descriptor_log_], which are null or not. *)
Record Manifest (E H : Type) := mk_manifest {
  mf_set : VersionSet;
  mf_env : E;
  descriptor_file_ : option H;
  descriptor_log_ : option (Writer H)
}.
Arguments mk_manifest {E H}.
Arguments mf_set {E H}.
Arguments mf_env {E H}.
Arguments descriptor_file_ {E H}.
Arguments descriptor_log_ {E H}.

Section Manifest.
Context {E H G : Type} {V : Env E H G} {user_comparator : Comparator}.
Context (dbname_ : list Z) (options_ : Options).

Definition set_vset (s : VersionSet) (m : Manifest E H) : Manifest E H := mk_manifest s (mf_env m) (descriptor_file_ m) (descriptor_log_ m).
Definition set_env (e : E) (m : Manifest E H) : Manifest E H := mk_manifest (mf_set m) e (descriptor_file_ m) (descriptor_log_ m).
Definition set_descriptor (f : option H) (l : option (Writer H)) (m : Manifest E H) : Manifest E H := mk_manifest (mf_set m) (mf_env m) f l.

Definition on_set {A} (m : M VersionSet A) : M (Manifest E H) A := zoom mf_set set_vset m.
Definition on_env {A} (m : M E A) : M (Manifest E H) A := zoom mf_env set_env m.

(** ** [WriteSnapshot] *)

Definition snapshot_pointers (s : VersionSet) (edit : VersionEdit) : VersionEdit :=
  fold_left (fun edit level =>
    let p := nth (Z.to_nat level) (compact_pointer_ s) [] in
    if negb (size p =? 0) then SetCompactPointer level (key_DecodeFrom p) edit else edit) all_levels edit.

Definition snapshot_files (v : Version) (edit : VersionEdit) : VersionEdit :=
  fold_left (fun edit level =>
    fold_left (fun edit f => AddFile level (f_number f) (f_size f) (f_smallest f) (f_largest f) edit) (files_at v level) edit) all_levels edit.

Definition snapshot_edit (s : VersionSet) (v : Version) : VersionEdit :=
  snapshot_files v (snapshot_pointers s (SetComparatorName (comparator_Name (Comparator := user_comparator)) new_VersionEdit)).

Definition WriteSnapshot (log : Writer H) : M (Manifest E H) (Status * Writer H) :=
  v <- on_set current_version ;;
  s <- gets mf_set ;;
  record <- or_stuck (edit_EncodeTo (snapshot_edit s v) []) ;;
  on_env (log_AddRecord record log).

(** ** [LogAndApply] *)

(** The numbers that [LogAndApply] puts into [*edit]. *)
Definition complete_edit (edit : VersionEdit) : M VersionSet VersionEdit :=
  s <- get ;;
  edit <- (if has_log_number_ edit then
             asserted (vs_log_number_ s <=? log_number_ edit) ;;
             asserted (log_number_ edit <? vs_next_file_number_ s) ;;
             ret edit
           else ret (SetLogNumber (vs_log_number_ s) edit)) ;;
  let edit := if negb (has_prev_log_number_ edit) then SetPrevLogNumber (vs_prev_log_number_ s) edit else edit in
  ret (SetLastSequence (vs_last_sequence_ s) (SetNextFile (vs_next_file_number_ s) edit)).

(** The new version, with the builder that makes it. *)
Definition build_version (edit : VersionEdit) : M VersionSet Z :=
  v <- on_heap alloc_version ;;
  s <- get ;;
  current <- or_stuck (current_ s) ;;
  builder <- on_heap (new_Builder current) ;;
  builder <- Apply edit builder ;;
  on_heap (SaveTo builder v) ;;
  on_heap (delete_Builder builder) ;;
  on_heap (finalize v) ;;
  ret v.

(** A descriptor log, if there is none: [*edit], the status and the name of its file, or an empty name. *)
Definition open_descriptor (edit : VersionEdit) : M (Manifest E H) (VersionEdit * Status * list Z) :=
  m <- get ;;
  match descriptor_log_ m with
  | Some _ => ret (edit, OK, [])
  | None =>
      asserted (match descriptor_file_ m with None => true | Some _ => false end) ;;
      let manifest_file_number := vs_manifest_file_number_ (mf_set m) in
      asserted (0 <? manifest_file_number) ;;
      let new_manifest_file := DescriptorFileName dbname_ manifest_file_number in
      let edit := SetNextFile (vs_next_file_number_ (mf_set m)) edit in
      r <- on_env (call (NewWritableFile new_manifest_file)) ;;
      let '(s, file) := r in
      modify (set_descriptor file None) ;;
      if ok s then
        file <- or_stuck file ;;
        r <- WriteSnapshot (new_Writer file) ;;
        modify (set_descriptor (Some file) (Some (snd r))) ;;
        ret (edit, fst r, new_manifest_file)
      else ret (edit, s, new_manifest_file)
  end.

(** The part without the lock: the record is written, and a new descriptor is named in CURRENT. *)
Definition write_edit (edit : VersionEdit) (new_manifest_file : list Z) (s : Status) : M (Manifest E H) Status :=
  s <- (if ok s then
          m <- get ;;
          log <- or_stuck (descriptor_log_ m) ;;
          record <- or_stuck (edit_EncodeTo edit []) ;;
          r <- on_env (log_AddRecord record log) ;;
          modify (set_descriptor (descriptor_file_ m) (Some (snd r))) ;;
          if ok (fst r) then file <- or_stuck (descriptor_file_ m) ;; on_env (call (file_Sync file)) else ret (fst r)
        else ret s) ;;
  m <- get ;;
  if ok s && negb (size new_manifest_file =? 0) then on_env (SetCurrentFile dbname_ (vs_manifest_file_number_ (mf_set m))) else ret s.

Definition install_or_delete (edit : VersionEdit) (v : Z) (new_manifest_file : list Z) (s : Status) : M (Manifest E H) unit :=
  if ok s then
    on_set (AppendVersion v ;; modify (set_log_numbers (log_number_ edit) (prev_log_number_ edit)))
  else
    on_set (on_heap (delete_version v)) ;;
    if negb (size new_manifest_file =? 0) then
      m <- get ;;
      (match descriptor_file_ m with Some file => on_env (modify (close_writable file)) | None => ret tt end) ;;
      modify (set_descriptor None None) ;;
      on_env (call (RemoveFile new_manifest_file)) ;; ret tt
    else ret tt.

(** The status and [*edit]. [others] is what other threads do to the set while it is unlocked. *)
Definition LogAndApply (others : VersionSet -> VersionSet) (edit : VersionEdit) : M (Manifest E H) (Status * VersionEdit) :=
  edit <- on_set (complete_edit edit) ;;
  v <- on_set (build_version edit) ;;
  r <- open_descriptor edit ;;
  let '(edit, s, new_manifest_file) := r in
  s <- write_edit edit new_manifest_file s ;;
  on_set (modify others) ;;
  install_or_delete edit v new_manifest_file s ;;
  ret (s, edit).

(** ** [Recover] *)

(** The numbers that were read, [None] before. *)
Record Recovered := mk_recovered { r_log_number : option Z; r_prev_log_number : option Z; r_next_file : option Z; r_last_sequence : option Z }.

Definition recover_numbers (edit : VersionEdit) (r : Recovered) : Recovered :=
  mk_recovered (if has_log_number_ edit then Some (log_number_ edit) else r_log_number r)
    (if has_prev_log_number_ edit then Some (prev_log_number_ edit) else r_prev_log_number r)
    (if has_next_file_number_ edit then Some (next_file_number_ edit) else r_next_file r)
    (if has_last_sequence_ edit then Some (last_sequence_ edit) else r_last_sequence r).

(** [LogReporter::Corruption] for the reports that the reader has made since it had made [n] of them, the latest first. *)
Definition reported (n : nat) (reports : list (Z * Status)) (s : Status) : Status :=
  fold_right (fun rep s => if ok s then snd rep else s) s (take (List.length reports - n) reports).

(** A round of the loop over the records. *)
Definition recover_step (l : Reader G * Builder * Recovered * Status) : M (Manifest E H) (Reader G * Builder * Recovered * Status + Builder * Recovered * Status) :=
  let '(reader, builder, numbers, s) := l in
  r <- on_env (log_ReadRecord reader) ;;
  let '(record, reader') := r in
  let s := reported (List.length (reports reader)) (reports reader') s in
  match record with
  | Some record =>
      if ok s then
        let '(r, edit) := edit_DecodeFrom record new_VersionEdit in
        s <- (match r with Ret s => ret s | _ => stuck end) ;;
        let name := comparator_Name (Comparator := user_comparator) in
        let s := if ok s then
                   if has_comparator_ edit && negb (bool_decide (comparator_ edit = name))
                   then InvalidArgument (comparator_ edit ++ literal " does not match existing comparator ") name
                   else s
                 else s in
        builder <- (if ok s then on_set (Apply edit builder) else ret builder) ;;
        ret (inl (reader', builder, recover_numbers edit numbers, s))
      else ret (inr (builder, numbers, s))
  | None => ret (inr (builder, numbers, s))
  end.

(** The checks on the numbers. *)
Definition check_numbers (r : Recovered) (s : Status) : Status :=
  match r_next_file r, r_log_number r, r_last_sequence r with
  | None, _, _ => Corruption (literal "no meta-nextfile entry in descriptor") []
  | _, None, _ => Corruption (literal "no meta-lognumber entry in descriptor") []
  | _, _, None => Corruption (literal "no last-sequence-number entry in descriptor") []
  | _, _, _ => s
  end.

Definition or_zero (n : option Z) : Z := match n with Some n => n | None => 0 end.

Definition ReuseManifest (dscname dscbase : list Z) : M (Manifest E H) bool :=
  if negb (reuse_logs options_) then ret false
  else
    match ParseFileName dscbase with
    | Some (manifest_number, kDescriptorFile) =>
        m <- get ;;
        let '(s, manifest_size) := GetFileSize dscname (mf_env m) in
        if negb (ok s) || (TargetFileSize options_ <=? manifest_size) then ret false
        else
          asserted (match descriptor_file_ m with None => true | Some _ => false end) ;;
          asserted (match descriptor_log_ m with None => true | Some _ => false end) ;;
          r <- on_env (call (NewAppendableFile dscname)) ;;
          let '(r, file) := r in
          if negb (ok r) then
            modify (set_descriptor file None) ;;
            asserted (match file with None => true | Some _ => false end) ;;
            ret false
          else
            file <- or_stuck file ;;
            modify (set_descriptor (Some file) (Some (new_Writer_at file manifest_size))) ;;
            on_set (modify (set_manifest_file_number manifest_number)) ;;
            ret true
    | _ => ret false
    end.

(** Where the status is OK, the version is made from the builder, and installed. *)
Definition install_recovered (b : Builder) (next_file last_sequence log_number prev_log_number : Z) : M VersionSet unit :=
  v <- on_heap alloc_version ;;
  on_heap (SaveTo b v) ;;
  on_heap (finalize v) ;;
  AppendVersion v ;;
  modify (fun s => set_manifest_file_number next_file (set_next_file_number (u64 (next_file + 1)) (set_last_sequence last_sequence (set_log_numbers log_number prev_log_number s)))).

(** The rest of [Recover] after the loop; the result is the status and [true] where [*save_manifest] is set. *)
Definition recover_version (builder : Builder) (numbers : Recovered) (dscname current : list Z) (s : Status) : M (Manifest E H) (Status * bool) :=
  let prev_log_number := or_zero (r_prev_log_number numbers) in
  let log_number := or_zero (r_log_number numbers) in
  let next_file := or_zero (r_next_file numbers) in
  let last_sequence := or_zero (r_last_sequence numbers) in
  s <- (if ok s then
          on_set (MarkFileNumberUsed prev_log_number ;; MarkFileNumberUsed log_number) ;; ret (check_numbers numbers s)
        else ret s) ;;
  if ok s then
    on_set (install_recovered builder next_file last_sequence log_number prev_log_number) ;;
    reused <- ReuseManifest dscname current ;;
    ret (s, negb reused)
  else ret (s, false).

Definition Recover : M (Manifest E H) (Status * bool) :=
  r <- on_env (ReadFileToString (CurrentFileName dbname_)) ;;
  let '(s, current) := r in
  if negb (ok s) then ret (s, false)
  else if (size current =? 0) || negb (nth (Z.to_nat (size current - 1)) current 0 =? 10) then
    ret (Corruption (literal "CURRENT file does not end with newline") [], false)
  else
    let current := take (Z.to_nat (size current - 1)) current in
    let dscname := dbname_ ++ literal "/" ++ current in
    r <- on_env (call (NewSequentialFile dscname)) ;;
    let '(s, file) := r in
    if negb (ok s) then
      ret (if IsNotFound s then Corruption (literal "CURRENT points to a non-existent file") (Status_ToString s) else s, false)
    else
      file <- or_stuck file ;;
      base <- on_set (s <- get ;; or_stuck (current_ s)) ;;
      builder <- on_set (on_heap (new_Builder base)) ;;
      r <- loop recover_step (new_Reader file true true 0, builder, mk_recovered None None None None, OK) ;;
      let '(builder, numbers, s) := r in
      on_env (modify (close_sequential file)) ;;
      r <- recover_version builder numbers dscname current s ;;
      on_set (on_heap (delete_Builder builder)) ;;
      ret r.

(** ** [~VersionSet] *)

Definition delete_VersionSet : M (Manifest E H) unit :=
  on_set (s <- get ;; current <- or_stuck (current_ s) ;; on_heap (Version_Unref current)) ;;
  on_set (on_heap (h <- get ;; asserted (Z.of_nat (List.length (h_list h)) =? 0))) ;;
  m <- get ;;
  match descriptor_file_ m with Some file => on_env (modify (close_writable file)) | None => ret tt end.
End Manifest.
