(* ===== verification/LdbManifestProps.v ===== *)
(** [VersionSet::LogAndApply] and [VersionSet::Recover]: the new version, the counters, and what is on disk. *)

From Stdlib Require Import ZArith Lia List String Bool SpecFloat.
From stdpp Require Import base gmap list sorting.
From S2P Require Import Prelude Base128 LdbBase LdbText LdbCoding LdbLog LdbLogRead LdbLogTotal LdbKeys LdbKeyProps LdbVersionEdit LdbEditProps LdbIterator LdbFormat LdbVersion LdbVersionOverlap LdbVersionSet LdbCompaction LdbCompactionPick LdbBuilderSave LdbEnv LdbRefs LdbManifest.

(** ** The new version *)

Section Build.
Context {U : Comparator} {LU : ComparatorLaws U}.

Lemma memory_ok_cell v x n y h holders held : memory_ok h holders held -> h_versions h !! v = Some (x, n) -> files_ y = files_ x ->
  memory_ok (set_h_versions (<[v := (y, n)]> (h_versions h)) h) holders held.
Proof.
  intros [A1 A2 A3 A4 A5 A6 A7 A8] Hv Hy. assert (Hu : uses (<[v := (y, n)]> (h_versions h)) ≡ₚ uses (h_versions h)) by (apply (uses_update _ v (x, n)); [done|unfold version_addresses; cbn; by rewrite Hy]).
  split; cbn; [by rewrite Hu| | | |done|done|unfold size in *; by rewrite Hu|done].
  - intros u cell. destruct (decide (u = v)) as [->|Hne]; [rewrite lookup_insert_eq; intros [= <-]; apply (A2 _ _ Hv)|]. rewrite lookup_insert_ne by done. apply A2.
  - intros u Hu1. destruct (decide (u = v)) as [->|Hne]; [rewrite lookup_insert_eq; by eexists|]. rewrite lookup_insert_ne by done. by apply A3.
  - intros a Hlt. cbn in *. destruct (A4 a Hlt) as (G1 & G2 & G3). split; [done|]. split; [done|]. rewrite lookup_insert_ne; [done|]. intros <-. congruence.
Qed.

Lemma seven {A} (l : list A) : size l = kNumLevels -> exists a b c d e f g, l = [a; b; c; d; e; f; g].
Proof.
  intros Hl. assert (Hn : List.length l = 7%nat) by (unfold size in Hl; change kNumLevels with 7 in Hl; lia). clear Hl. do 7 (destruct l as [|? l]; [done|]). destruct l; [by repeat eexists|done].
Qed.

(** What is saved are files of the base and of the builder. *)
Lemma saved_size b base : size (levels_ b) = kNumLevels -> size (files_ base) = kNumLevels ->
  size (addresses (concat (saved_levels b base))) <= size (version_addresses base) + size (builder_addresses b).
Proof.
  intros Hb Hf. unfold saved_levels, version_addresses, builder_addresses. change all_levels with [0; 1; 2; 3; 4; 5; 6]. cbn [map concat].
  assert (Hlevel : forall level, size (addresses (saved b base level)) <= size (addresses (files_at base level)) + size (addresses (added_files (level_state b level)))).
  { intros level. unfold saved, saved_files, addresses. rewrite <- size_app, <- map_app. unfold size. rewrite !length_map. etrans; [apply inj_le, length_filter|]. by rewrite interleave_perm. }
  destruct (seven _ Hb) as (l0 & l1 & l2 & l3 & l4 & l5 & l6 & El). destruct (seven _ Hf) as (f0 & f1 & f2 & f3 & f4 & f5 & f6 & Ef).
  pose proof (Hlevel 0) as G0. pose proof (Hlevel 1) as G1. pose proof (Hlevel 2) as G2. pose proof (Hlevel 3) as G3. pose proof (Hlevel 4) as G4. pose proof (Hlevel 5) as G5. pose proof (Hlevel 6) as G6.
  clear Hlevel. unfold files_at, level_state in G0, G1, G2, G3, G4, G5, G6.
  change (Z.to_nat 0) with 0%nat in *. change (Z.to_nat 1) with 1%nat in *. change (Z.to_nat 2) with 2%nat in *. change (Z.to_nat 3) with 3%nat in *. change (Z.to_nat 4) with 4%nat in *. change (Z.to_nat 5) with 5%nat in *. change (Z.to_nat 6) with 6%nat in *. 
  rewrite El, Ef in *. cbn [nth map concat] in *.
  unfold addresses in *. rewrite !map_app, !size_app in *. cbn [map] in *. change (size (@nil Z)) with 0 in *. lia.
Qed.

Lemma builder_addresses_elem b level f : f ∈ added_files (level_state b level) -> f_address f ∈ builder_addresses b.
Proof.
  unfold level_state, builder_addresses. destruct (nth_in_or_default (Z.to_nat level) (levels_ b) (mk_level ∅ [])) as [Hin|E]; [|rewrite E; intros H; by apply not_elem_of_nil in H].
  intros Hf. apply list_elem_of_In, in_concat. exists (addresses (added_files (nth (Z.to_nat level) (levels_ b) (mk_level ∅ [])))). split; [by apply (in_map (fun l => addresses (added_files l)))|]. apply list_elem_of_In. by apply (list_elem_of_fmap_2 f_address).
Qed.

(** A set of which the current version, [base] at [c], is in order. *)
Record ready (s : VersionSet) (c : Z) (base : Version) (holders : list Z) : Prop := {
  rd_current : current_ s = Some c;
  rd_cell : exists n, h_versions (vs_heap s) !! c = Some (base, n);
  rd_memory : memory_ok (vs_heap s) (c :: holders) [];
  rd_held : all_held (vs_heap s) (c :: holders);
  rd_good : version_good base;
  rd_pointers : size (compact_pointer_ s) = kNumLevels
}.

(** There is room for what an edit brings. *)
Definition room_for (s : VersionSet) (base : Version) (holders : list Z) (es : list VersionEdit) : Prop :=
  size (uses (h_versions (vs_heap s))) + size (version_addresses base) + 2 * size (concat (map new_files_ es)) < 2 ^ 31 - 1 /\ size holders + 3 < 2 ^ 31 - 1.

(** The version [w] is [base] with the edits made. *)
Definition edited (base : Version) (es : list VersionEdit) (w : Version) : Prop :=
  version_good w /\ forall level, level_in level -> map f_info (files_at w level) ≡ₚ level_after (map f_info (files_at base level)) es level.

Lemma finalize_good w : version_good w -> version_good (Finalize w).
Proof. intros [[H1 H2 H3] H4 H5]. by split. Qed.

Lemma finalize_edited base es w : edited base es w -> edited base es (Finalize w).
Proof. intros [H1 H2]. split; [by apply finalize_good|done]. Qed.

Lemma new_holds base h : holds (mk_builder base (repeat (mk_level ∅ []) (Z.to_nat kNumLevels))) (deleted_after []) (all_new []) h.
Proof.
  assert (Hn : forall level, level_in level -> level_state (mk_builder base (repeat (mk_level ∅ []) (Z.to_nat kNumLevels))) level = mk_level ∅ []).
  { intros level _. unfold level_state. cbn [levels_]. apply nth_repeat. }
  split; [done| |]; intros level Hl; rewrite (Hn level Hl); [done|]. split; [constructor|]. by exists [].
Qed.

(** [build_version]: the new version is at [v], and nobody holds it yet. *)
Record made (s s' : VersionSet) (c : Z) (base : Version) (holders : list Z) (e : VersionEdit) (v : Z) : Prop := {
  md_set : exists h, s' = set_heap h (set_compact_pointer (new_pointers e (compact_pointer_ s)) s);
  md_memory : memory_ok (vs_heap s') (c :: holders) [];
  md_version : exists w, h_versions (vs_heap s') !! v = Some (w, 0) /\ edited base [e] w;
  md_held u : is_Some (h_versions (vs_heap s') !! u) -> u = v \/ u ∈ c :: holders;
  md_others u cell : u <> v -> h_versions (vs_heap s') !! u = Some cell -> exists n, h_versions (vs_heap s) !! u = Some (fst cell, n)
}.

Lemma wp_build_version s c base holders e : ready s c base holders -> edits_fit base [e] -> room_for s base holders [e] ->
  wp (build_version e) (fun v s' => made s s' c base holders e v) (fun _ => False) s.
Proof.
  intros [Hcur (n & Hcell) Hmem Hheld Hgood Hptr] Hfit [Hroom Hroom2]. cbn [map concat] in Hroom. rewrite app_nil_r in Hroom. unfold build_version.
  assert (Hne : c <> h_fresh (vs_heap s)). { intros ->. destruct (mo_fresh _ _ _ Hmem (h_fresh (vs_heap s)) ltac:(lia)) as (_ & _ & F). congruence. }
  apply wp_bind. unfold on_heap. apply wp_zoom, (wp_alloc_version _ _ _ _ _ Hmem). intros h1 Hm1 Hv1 Hf1 Hr1. set (v := h_fresh (vs_heap s)) in *.
  apply wp_bind, wp_get, wp_bind, wp_or_stuck. exists c. split; [done|]. cbn [current_ set_heap].
  assert (Hc1 : h_versions h1 !! c = Some (base, n)) by (by rewrite Hv1, lookup_insert_ne). assert (Hw1 : h_versions h1 !! v = Some (new_Version, 0)) by (by rewrite Hv1, lookup_insert_eq).
  apply wp_bind, wp_zoom. cbn [vs_heap set_heap]. apply (wp_new_Builder c h1 (c :: holders) []); [done|apply list_elem_of_here|rewrite size_cons; lia|]. intros h2 Hm2 Hk2 Hf2 Hs2 Hu2.
  assert (Hw2 : h_versions h2 !! v = Some (new_Version, 0)) by (rewrite Hs2; [done|by apply not_eq_sym]).
  assert (Hc2 : exists n, h_versions h2 !! c = Some (base, n)). { destruct (mo_holders _ _ _ Hm2 c (list_elem_of_here _ _)) as [[x k] Hx]. destruct (Hk2 _ _ Hx) as [j Hj]. rewrite Hc1 in Hj. injection Hj as -> _. by exists k. }
  pose proof (ef_ok _ _ Hfit) as Hok. apply Forall_cons_1 in Hok as [Hok _]. set (b := mk_builder c _).
  apply wp_bind. eapply wp_mono; [apply (wp_Apply base [] e b); [done|constructor|exact (ef_once _ _ Hfit)|apply new_holds|exact (mo_fresh _ _ _ Hm2)|exact Hptr]| |done].
  intros b' s3 (h3 & -> & Hx3 & Hf3 & Hb' & [Ho3 Hsz3] & Hbuilt). cbn [vs_heap set_heap set_compact_pointer compact_pointer_] in *. change (builder_addresses b) with (@nil Z) in Hsz3. rewrite size_nil in Hsz3.
  assert (Hu : uses (h_versions h2) ≡ₚ uses (h_versions (vs_heap s))).
  { rewrite Hu2, Hv1, uses_insert by (apply (mo_fresh _ _ _ Hmem); unfold v; lia). done. }
  assert (Hbound : size (uses (h_versions h2)) = size (uses (h_versions (vs_heap s)))) by (unfold size; by rewrite Hu).
  assert (Hm3 : memory_ok h3 (c :: c :: holders) (builder_addresses b' ++ [])).
  { apply (memory_ok_applied b b' h2 h3); [done|done|done|done|]. rewrite app_nil_r, size_app. pose proof (size_nonneg (version_addresses base)). pose proof (size_nonneg (new_files_ e)). lia. }
  pose proof (ex_versions _ _ Hx3) as Hv3. destruct Hc2 as [n2 Hc2]. rewrite <- Hv3 in Hw2, Hc2, Hbound.
  assert (Halloc : forall level f, f ∈ files_at base level -> f_address f ∈ uses (h_versions h3)).
  { intros level f Hf. apply (uses_elem _ c (base, n2)); [done|]. unfold files_at in Hf. destruct (nth_in_or_default (Z.to_nat level) (files_ base) []) as [Hin|E]; [|rewrite E in Hf; by apply not_elem_of_nil in Hf].
    apply list_elem_of_In, in_concat. exists (nth (Z.to_nat level) (files_ base) []). split; [done|]. by apply list_elem_of_In. }
  assert (Hal : forall level f, f ∈ files_at base level -> allocated h3 f).
  { intros level f Hf. apply Halloc in Hf. unfold allocated. eexists. apply (counted_some _ _ _ (mo_files _ _ _ Hm3)). apply elem_of_app. by right. }
  pose proof (built_ok b' base [e] h3 Hbuilt Hgood Hfit Hal) as Hbok.
  apply wp_bind, wp_zoom. cbn [vs_heap set_heap set_compact_pointer]. eapply wp_mono; [apply (wp_SaveTo b' base n2 v new_Version 0 h3 Hbok); [by rewrite Hb'|done]| |done]. intros [] h4 ->.
  set (w := with_files new_Version (saved_levels b' base)).
  assert (Hm4 : memory_ok (set_h_versions (<[v := (w, 0)]> (h_versions h3)) (bump h3 (concat (saved_levels b' base)))) (c :: c :: holders) (builder_addresses b' ++ [])).
  { apply (memory_ok_saved v new_Version 0 (saved_levels b' base) w h3 _ _ Hm3 Hw2); [done| | |done].
    - intros f Hf. apply list_elem_of_In, in_concat in Hf as (l & Hl & Hf). apply in_map_iff in Hl as (level & <- & Hlev). apply list_elem_of_In in Hf. unfold saved, saved_files in Hf. apply list_elem_of_filter in Hf as [_ Hf]. rewrite interleave_perm in Hf.
      apply elem_of_app in Hf as [Hf|Hf]; apply elem_of_app; [right; by apply (Halloc level)|left; rewrite app_nil_r]. by apply (builder_addresses_elem b' level).
    - rewrite app_nil_r, !size_app. pose proof (saved_size b' base (ho_size _ _ _ _ Hbuilt) (vg_levels _ Hgood)). lia. }
  apply wp_bind, wp_zoom. cbn [vs_heap set_heap set_compact_pointer]. apply (wp_delete_Builder b' _ (c :: holders) []); [by rewrite Hb'|]. intros h5 Hm5 Hk5 Hf5 Hs5 _. rewrite Hb' in Hs5. cbn [base_] in Hs5.
  assert (Hw5 : h_versions h5 !! v = Some (w, 0)) by (rewrite Hs5 by (by apply not_eq_sym); cbn; by rewrite lookup_insert_eq).
  apply wp_bind, wp_zoom. cbn [vs_heap set_heap set_compact_pointer]. unfold finalize. apply wp_bind, (wp_version_cell v _ _ _ _ Hw5), wp_modify. apply wp_ret. cbn [fst snd vs_heap set_heap set_compact_pointer].
  assert (Hback : forall u cell, u <> v -> <[v := (Finalize w, 0)]> (h_versions h5) !! u = Some cell -> exists n, h_versions (vs_heap s) !! u = Some (fst cell, n)).
  { intros u cell Hu1. rewrite lookup_insert_ne by done. intros H1. destruct (Hk5 _ _ H1) as [k1 H2]. cbn in H2. rewrite lookup_insert_ne, Hv3 in H2 by done. destruct (Hk2 _ _ H2) as [k2 H3]. cbn in H3. rewrite Hv1, lookup_insert_ne in H3 by done. by exists k2. }
  split; [by eexists|by apply (memory_ok_cell v w)| | |exact Hback].
  - exists (Finalize w). cbn. rewrite lookup_insert_eq. split; [done|]. apply finalize_edited. split; [by apply (saved_good b' base [e] h3)|]. intros level Hl. by apply (saved_levels_info b' base [e] h3).
  - intros u [cell Hu1]. destruct (decide (u = v)) as [->|Hne2]; [by left|right]. destruct (Hback u cell Hne2 Hu1) as [k1 H2]. apply Hheld. by eexists.
Qed.
End Build.

(** ** Writing, whatever the file does *)

Section AnyFile.
Context {F : Type} {W : WritableFile F}.

Definition offset_ok (w : Writer F) : Prop := 0 <= block_offset_ w <= kBlockSize.

Lemma wp_dest_Append d w (Q : Status -> Writer F -> Prop) E : (forall s f, Q s (mk_writer f (block_offset_ w) (type_crc_ w))) -> wp (dest_Append d) Q E w.
Proof. intros HQ. unfold wp, dest_Append. destruct (file_Append d (dest_ w)). apply HQ. Qed.

Lemma wp_dest_Flush w (Q : Status -> Writer F -> Prop) E : (forall s f, Q s (mk_writer f (block_offset_ w) (type_crc_ w))) -> wp dest_Flush Q E w.
Proof. intros HQ. unfold wp, dest_Flush. destruct (file_Flush (dest_ w)). apply HQ. Qed.

Lemma wp_Emit_any t p w (Q : Status -> Writer F -> Prop) E : (forall s w', block_offset_ w' = block_offset_ w + (7 + size p) -> Q s w') -> wp (EmitPhysicalRecord t p) Q E w.
Proof.
  intros HQ. unfold EmitPhysicalRecord. apply wp_bind, wp_get. cbv zeta. apply wp_bind, wp_dest_Append. intros s1 f1. apply wp_bind.
  apply (wp_mono _ (fun _ w' => block_offset_ w' = block_offset_ w) _ (fun _ => False)); [| |done].
  - destruct (ok s1); [|by apply wp_ret]. apply wp_bind, wp_dest_Append. intros s2 f2. destruct (ok s2); [|by apply wp_ret]. apply wp_dest_Flush. done.
  - intros s w' Hw. apply wp_bind, wp_modify, wp_ret, HQ. cbn. rewrite Hw. done.
Qed.

Definition fragment_measure (ptr : Slice) (w : Writer F) : Z := 2 * size ptr + (if block_offset_ w =? kBlockSize - 7 then 1 else 0).

Lemma wp_add_fragment_any ptr begin w : offset_ok w ->
  wp (add_fragment (ptr, begin)) (fun r w' => offset_ok w' /\ match r with inl (ptr', _) => fragment_measure ptr' w' < fragment_measure ptr w | inr _ => True end) (fun _ => False) w.
Proof.
  unfold offset_ok. intros Hw. change kBlockSize with 32768 in *. unfold add_fragment. apply wp_bind, wp_get. cbv zeta. change kBlockSize with 32768. change kHeaderSize with 7. apply wp_bind.
  apply (wp_mono _ (fun _ w' => 0 <= block_offset_ w' <= 32761 /\ (block_offset_ w' = 32761 -> block_offset_ w = 32761)) _ (fun _ => False)); [| |done].
  - destruct (Z.ltb_spec (32768 - block_offset_ w) 7); [|apply wp_ret; lia]. apply wp_bind. apply (wp_mono _ (fun _ _ => True) _ (fun _ => False)); [| |done].
    + destruct (0 <? _); [|by apply wp_ret]. apply wp_bind, wp_dest_Append. intros s f. by apply wp_ret.
    + intros [] w1 _. apply wp_modify. cbn. lia.
  - intros [] w1 [Hw1 Hsame]. apply wp_bind, wp_get. apply wp_bind, wp_Emit_any. intros s w' Hw'. apply wp_ret. pose proof (size_nonneg ptr).
    set (n := if size ptr <? 32768 - block_offset_ w1 - 7 then size ptr else 32768 - block_offset_ w1 - 7) in *.
    assert (Hn : 0 <= n <= size ptr /\ n <= 32768 - block_offset_ w1 - 7) by (unfold n; destruct (Z.ltb_spec (size ptr) (32768 - block_offset_ w1 - 7)); lia).
    rewrite size_take in Hw' by lia. split; [lia|]. destruct (ok s); cbn [andb]; [|done]. destruct (Z.ltb_spec 0 (size ptr - n)) as [Hmore|]; [|done].
    unfold fragment_measure. change (kBlockSize - 7) with 32761. rewrite size_drop by lia. assert (Hfull : n = 32768 - block_offset_ w1 - 7) by (unfold n in *; destruct (Z.ltb_spec (size ptr) (32768 - block_offset_ w1 - 7)); lia).
    destruct (Z.eqb_spec (block_offset_ w') 32761), (Z.eqb_spec (block_offset_ w) 32761); lia.
Qed.

Lemma wp_AddRecord_any data w : offset_ok w -> size data < 2 ^ 64 -> wp (AddRecord data) (fun _ w' => offset_ok w') (fun _ => False) w.
Proof.
  intros Hw Hd. unfold AddRecord. apply (wp_loop add_fragment (fun _ w' => offset_ok w') (fun l w' => fragment_measure (fst l) w')); [|done|].
  - intros [ptr begin] w1 Hw1. cbn [fst]. split; [unfold fragment_measure; pose proof (size_nonneg ptr); destruct (_ =? _); lia|].
    eapply wp_mono; [by apply wp_add_fragment_any| |done]. intros [[ptr' begin']|s] w' [H1 H2]; [by split|done].
  - cbn [fst]. unfold fragment_measure. destruct (_ =? _); lia.
Qed.
End AnyFile.

(** ** [LogAndApply] over any environment *)

Section AnyEnv.
Context {E H G : Type} {V : Env E H G} {OV : EnvOpens V} {U : Comparator} {LU : ComparatorLaws U}.
Context (dbname : list Z).

Lemma wp_call {A} (f : E -> A * E) (Q : A -> E -> Prop) F e : (forall a e', f e = (a, e') -> Q a e') -> wp (call f) Q F e.
Proof. intros HQ. unfold wp, call. destruct (f e) as [a e'] eqn:Ef. by apply HQ. Qed.

Lemma wp_DoWrite_any contents fname sync e : wp (DoWriteStringToFile contents fname sync) (fun _ _ => True) (fun _ => False) e.
Proof.
  unfold DoWriteStringToFile. apply wp_bind, wp_call. intros [s file] e1 E1. pose proof (opens_writable fname e) as Ho. rewrite E1 in Ho.
  destruct (ok s); cbn [negb]; [|by apply wp_ret]. destruct (Ho eq_refl) as [f ->]. apply wp_bind, wp_or_stuck. exists f. split; [done|].
  apply wp_bind, wp_call. intros s1 e2 _. apply wp_bind. apply (wp_mono _ (fun _ _ => True) _ (fun _ => False)); [| |done].
  { destruct (_ && _); [by apply wp_call|by apply wp_ret]. }
  intros s2 e3 _. apply wp_bind. apply (wp_mono _ (fun _ _ => True) _ (fun _ => False)); [destruct (ok s2); [by apply wp_call|by apply wp_ret]| |done].
  intros s3 e4 _. apply wp_bind, wp_modify, wp_bind. apply (wp_mono _ (fun _ _ => True) _ (fun _ => False)); [destruct (negb (ok s3)); [apply wp_bind, wp_call; intros; by apply wp_ret|by apply wp_ret]| |done].
  intros [] e5 _. by apply wp_ret.
Qed.

Lemma memcmp_self a : memcmp a a = 0.
Proof. induction a as [|x a IH]; [done|]. cbn. by rewrite Z.ltb_irrefl. Qed.

Lemma starts_with_app a b : starts_with (a ++ b) a = true.
Proof. unfold starts_with. rewrite take_size_app, memcmp_self, size_app. pose proof (size_nonneg b). destruct (Z.leb_spec (size a) (size a + size b)); [done|lia]. Qed.

Lemma descriptor_prefix number : starts_with (DescriptorFileName dbname number) (dbname ++ literal "/") = true.
Proof.
  assert (El : literal "/MANIFEST-" = literal "/" ++ literal "MANIFEST-") by reflexivity. unfold DescriptorFileName. rewrite El. rewrite <- app_assoc, app_assoc. apply starts_with_app.
Qed.

Lemma wp_SetCurrentFile_any number e : 0 < number -> wp (SetCurrentFile dbname number) (fun _ _ => True) (fun _ => False) e.
Proof.
  intros Hn. unfold SetCurrentFile. apply wp_bind, wp_asserted; [by apply Z.ltb_lt|]. cbv zeta. apply wp_bind, wp_asserted; [apply descriptor_prefix|].
  apply wp_bind. eapply wp_mono; [apply wp_DoWrite_any| |done]. intros s e1 _. apply wp_bind. apply (wp_mono _ (fun _ _ => True) _ (fun _ => False)); [destruct (ok s); [by apply wp_call|by apply wp_ret]| |done].
  intros s2 e2 _. apply wp_bind. apply (wp_mono _ (fun _ _ => True) _ (fun _ => False)); [destruct (negb (ok s2)); [apply wp_bind, wp_call; intros; by apply wp_ret|by apply wp_ret]| |done].
  intros [] e3 _. by apply wp_ret.
Qed.

Lemma wp_with_writer {A} (m : forall h : H, M (Writer E) A) (w : Writer H) (Q : A * Writer H -> E -> Prop) F e :
  wp (m (dest_ w)) (fun a w' => Q (a, mk_writer (dest_ w) (block_offset_ w') (type_crc_ w')) (dest_ w')) (fun w' => F (dest_ w')) (mk_writer e (block_offset_ w) (type_crc_ w)) -> wp (with_writer m w) Q F e.
Proof. unfold wp, with_writer. by destruct (m (dest_ w) _) as [[a| |] w']. Qed.

Lemma wp_log_AddRecord_any record (log : Writer H) e : offset_ok log -> size record < 2 ^ 64 ->
  wp (log_AddRecord record log) (fun r _ => offset_ok (snd r)) (fun _ => False) e.
Proof.
  intros Hl Hr. unfold log_AddRecord. apply wp_with_writer. eapply wp_mono; [by apply (wp_AddRecord_any (W := writable (dest_ log)))| |done]. intros s w' Hw. exact Hw.
Qed.

(** *** Keys are not empty *)

Lemma internal_key_set k : internal_ok k -> k <> [].
Proof. intros [Hk _] ->. unfold size in Hk. cbn in Hk. lia. Qed.

Lemma SetCompactPointer_set level k e : k <> [] -> keys_set e -> keys_set (SetCompactPointer level k e).
Proof. intros Hk [H1 H2]. split; [|done]. cbn. apply Forall_app. split; [done|]. by constructor. Qed.

Lemma AddFile_set level n s a b e : a <> [] -> b <> [] -> keys_set e -> keys_set (AddFile level n s a b e).
Proof. intros Ha Hb [H1 H2]. split; [done|]. cbn. apply Forall_app. split; [done|]. by repeat constructor. Qed.

Lemma snapshot_keys_set s v : version_files_ok v -> keys_set (snapshot_edit s v).
Proof.
  intros Hv. unfold snapshot_edit. assert (Hp : keys_set (snapshot_pointers s (SetComparatorName (comparator_Name (Comparator := U)) new_VersionEdit))).
  { unfold snapshot_pointers. assert (H0 : keys_set (SetComparatorName (comparator_Name (Comparator := U)) new_VersionEdit)) by (split; constructor). revert H0. generalize (SetComparatorName (comparator_Name (Comparator := U)) new_VersionEdit).
    induction all_levels as [|l ls IH]; intros e He; [done|]. cbn [fold_left]. apply IH. cbv zeta. destruct (size (nth (Z.to_nat l) (compact_pointer_ s) []) =? 0) eqn:Es; cbn [negb]; [done|]. apply SetCompactPointer_set; [|done]. intros E0. unfold key_DecodeFrom in E0. by rewrite E0 in Es. }
  revert Hp. unfold snapshot_files. generalize (snapshot_pointers s (SetComparatorName (comparator_Name (Comparator := U)) new_VersionEdit)).
  induction all_levels as [|l ls IH]; intros e He; [done|]. cbn [fold_left]. apply IH. pose proof (vo_files v Hv l) as Hf. revert e He. induction Hf as [|f fs (Hs & Hl & _) _ IHf]; intros e He; [done|]. cbn [fold_left].
  apply IHf, AddFile_set; [by apply internal_key_set..|done].
Qed.

Lemma fit_keys_set e : LdbBuilderSave.edit_ok e -> keys_set e.
Proof.
  intros [H1 _ H3]. split; [eapply Forall_impl; [exact H1|]|eapply Forall_impl; [exact H3|]]; [intros p [_ Hp]; by apply internal_key_set|].
  intros [l f] [_ (Hs & Hl & _)]. split; by apply internal_key_set.
Qed.

(** There is a descriptor, or there is none yet. *)
Definition descriptor_ok (m : Manifest E H) : Prop :=
  match descriptor_file_ m, descriptor_log_ m with
  | Some _, Some log => offset_ok log
  | None, None => 0 < vs_manifest_file_number_ (mf_set m)
  | _, _ => False
  end.

(** What [complete_edit] makes of an edit. *)
Definition completed (s : VersionSet) (e : VersionEdit) : VersionEdit :=
  let e := if has_log_number_ e then e else SetLogNumber (vs_log_number_ s) e in
  let e := if negb (has_prev_log_number_ e) then SetPrevLogNumber (vs_prev_log_number_ s) e else e in
  SetLastSequence (vs_last_sequence_ s) (SetNextFile (vs_next_file_number_ s) e).

Definition log_number_fits (s : VersionSet) (e : VersionEdit) : Prop := has_log_number_ e = true -> vs_log_number_ s <= log_number_ e < vs_next_file_number_ s.

Lemma wp_complete_edit s e (Q : VersionEdit -> VersionSet -> Prop) F : log_number_fits s e -> Q (completed s e) s -> wp (complete_edit e) Q F s.
Proof.
  intros Hfit HQ. unfold complete_edit. apply wp_bind, wp_get, wp_bind. unfold completed in HQ. destruct (has_log_number_ e) eqn:El.
  - destruct (Hfit El). apply wp_bind, wp_asserted; [by apply Z.leb_le|]. apply wp_bind, wp_asserted; [by apply Z.ltb_lt|]. by apply wp_ret, wp_ret.
  - by apply wp_ret, wp_ret.
Qed.

Lemma completed_next s e : SetNextFile (vs_next_file_number_ s) (completed s e) = completed s e.
Proof. done. Qed.

Lemma completed_same s e : compact_pointers_ (completed s e) = compact_pointers_ e /\ deleted_files_ (completed s e) = deleted_files_ e /\ new_files_ (completed s e) = new_files_ e.
Proof. unfold completed. destruct (has_log_number_ e); cbn [negb]; destruct (has_prev_log_number_ _); done. Qed.

Lemma DescriptorFileName_some number : negb (size (DescriptorFileName dbname number) =? 0) = true.
Proof.
  unfold DescriptorFileName. rewrite !size_app. pose proof (size_nonneg dbname). pose proof (size_nonneg (decimal6 number)). change (size (literal "/MANIFEST-")) with 10. apply negb_true_iff, Z.eqb_neq. lia.
Qed.

Lemma wp_current_any s c base n (Q : Version -> VersionSet -> Prop) F : current_ s = Some c -> h_versions (vs_heap s) !! c = Some (base, n) -> Q base s -> wp current_version Q F s.
Proof.
  intros H1 H2 HQ. unfold current_version. apply wp_bind, wp_get, wp_bind, wp_or_stuck. exists c. split; [done|]. apply wp_bind. unfold on_heap. apply wp_zoom, (wp_version_cell c _ _ _ _ H2), wp_ret. by destruct s.
Qed.

Lemma wp_open_descriptor m c base n e : descriptor_ok m -> current_ (mf_set m) = Some c -> h_versions (vs_heap (mf_set m)) !! c = Some (base, n) ->
  version_files_ok base -> size (record_of (snapshot_edit (mf_set m) base)) < 2 ^ 64 -> SetNextFile (vs_next_file_number_ (mf_set m)) e = e ->
  wp (open_descriptor dbname e) (fun r m' => fst (fst r) = e /\ mf_set m' = mf_set m /\
    (snd r = [] /\ snd (fst r) = OK /\ m' = m /\ (exists f log, descriptor_file_ m = Some f /\ descriptor_log_ m = Some log) \/
     snd r = DescriptorFileName dbname (vs_manifest_file_number_ (mf_set m)) /\ 0 < vs_manifest_file_number_ (mf_set m) /\ (ok (snd (fst r)) = true -> exists f log, descriptor_file_ m' = Some f /\ descriptor_log_ m' = Some log /\ offset_ok log))) (fun _ => False) m.
Proof.
  unfold descriptor_ok. intros Hd Hc Hcell Hgood Hsz He. unfold open_descriptor. apply wp_bind, wp_get. destruct (descriptor_file_ m) as [f|] eqn:Ef, (descriptor_log_ m) as [log|] eqn:El; try done.
  - apply wp_ret. split; [done|]. split; [done|]. left. split; [done|]. split; [done|]. split; [done|]. by exists f, log.
  - apply wp_bind, wp_asserted; [done|]. apply wp_bind, wp_asserted; [by apply Z.ltb_lt|]. rewrite He. apply wp_bind. unfold on_env at 1. apply wp_zoom, wp_call. intros [s file] e1 E1.
    pose proof (opens_writable (DescriptorFileName dbname (vs_manifest_file_number_ (mf_set m))) (mf_env m)) as Ho. rewrite E1 in Ho. apply wp_bind, wp_modify. destruct (ok s) eqn:Es.
    + destruct (Ho eq_refl) as [f ->]. apply wp_bind, wp_or_stuck. exists f. split; [done|]. apply wp_bind. unfold WriteSnapshot. apply wp_bind. unfold on_set. apply wp_zoom. cbn [mf_set set_descriptor set_env].
      apply (wp_current_any _ c base n); [done|done|]. apply wp_bind, wp_gets. apply wp_bind, wp_or_stuck. cbn [mf_set set_vset set_descriptor set_env]. exists (record_of (snapshot_edit (mf_set m) base)). split; [by apply edit_EncodeTo_record, snapshot_keys_set|]. unfold on_env. apply wp_zoom. cbn [mf_env set_vset mf_set set_descriptor set_env].
      eapply wp_mono; [apply wp_log_AddRecord_any; [unfold offset_ok, new_Writer, kBlockSize; cbn; lia|exact Hsz]| |done]. intros [st log] e2 Hlog. apply wp_bind, wp_modify, wp_ret. cbn in *.
      split; [done|]. split; [done|]. right. split; [done|]. split; [done|]. intros _. by exists f, log.
    + apply wp_ret. cbn. split; [done|]. split; [done|]. right. split; [done|]. split; [done|]. by rewrite Es.
Qed.

Lemma wp_write_edit e name s m : keys_set e -> size (record_of e) < 2 ^ 64 -> (name <> [] -> 0 < vs_manifest_file_number_ (mf_set m)) ->
  (ok s = true -> exists f log, descriptor_file_ m = Some f /\ descriptor_log_ m = Some log /\ offset_ok log) ->
  wp (write_edit dbname e name s) (fun st m' => mf_set m' = mf_set m /\ descriptor_file_ m' = descriptor_file_ m /\
    (ok s = true -> exists log, descriptor_log_ m' = Some log /\ offset_ok log) /\ (ok s = false -> st = s /\ m' = m)) (fun _ => False) m.
Proof.
  intros Hkeys Hsz Hname Hlog. unfold write_edit. apply wp_bind. destruct (ok s) eqn:Es.
  - destruct (Hlog eq_refl) as (f & log & Ef & El & Hok). apply wp_bind, wp_get, wp_bind, wp_or_stuck. exists log. split; [done|]. apply wp_bind, wp_or_stuck. exists (record_of e). split; [by apply edit_EncodeTo_record|]. apply wp_bind. unfold on_env at 1. apply wp_zoom.
    eapply wp_mono; [by apply wp_log_AddRecord_any| |done]. intros [st log'] e1 Hlog'. cbn [fst snd] in *. apply wp_bind, wp_modify.
    apply (wp_mono _ (fun st1 m' => mf_set m' = mf_set m /\ descriptor_file_ m' = Some f /\ descriptor_log_ m' = Some log') _ (fun _ => False)); [| |done].
    + destruct (ok st); [|by apply wp_ret]. apply wp_bind, wp_or_stuck. exists f. split; [done|]. unfold on_env. apply wp_zoom, wp_call. done.
    + intros st1 m1 (H1 & H2 & H3). apply wp_bind, wp_get.
      apply (wp_mono _ (fun _ m' => mf_set m' = mf_set m1 /\ descriptor_file_ m' = descriptor_file_ m1 /\ descriptor_log_ m' = descriptor_log_ m1) _ (fun _ => False)); [| |done].
      * destruct (ok st1); cbn [andb]; [|by apply wp_ret]. destruct name as [|x name]; [by apply wp_ret|]. destruct (negb (size (x :: name) =? 0)); [|by apply wp_ret].
        unfold on_env. apply wp_zoom. eapply wp_mono; [apply wp_SetCurrentFile_any; rewrite H1; by apply Hname| |done]. done.
      * intros st2 m2 (G1 & G2 & G3). split; [congruence|]. split; [congruence|]. split; [|done]. intros _. exists log'. split; [congruence|done].
  - apply wp_ret, wp_bind, wp_get. rewrite Es. cbn [andb]. by apply wp_ret.
Qed.

(** What other threads may do while the set is unlocked: hold and release other versions, take numbers. *)
Record allowed (s s' : VersionSet) (c v : Z) (holders : list Z) : Prop := {
  al_current : current_ s' = current_ s;
  al_manifest : vs_manifest_file_number_ s' = vs_manifest_file_number_ s;
  al_numbers : vs_log_number_ s' = vs_log_number_ s /\ vs_prev_log_number_ s' = vs_prev_log_number_ s;
  al_pointers : compact_pointer_ s' = compact_pointer_ s;
  al_memory : memory_ok (vs_heap s') (c :: holders) [];
  al_held u : is_Some (h_versions (vs_heap s') !! u) -> u = v \/ u ∈ c :: holders;
  al_new : h_versions (vs_heap s') !! v = h_versions (vs_heap s) !! v;
  al_kept : keeps_versions (vs_heap s) (vs_heap s');
  al_bound : size holders + 3 < 2 ^ 31 - 1
}.

Lemma wp_install m e v w c base n holders name : current_ (mf_set m) = Some c -> memory_ok (vs_heap (mf_set m)) (c :: holders) [] -> h_versions (vs_heap (mf_set m)) !! v = Some (w, 0) -> h_versions (vs_heap (mf_set m)) !! c = Some (base, n) ->
  size (compact_pointer_ (mf_set m)) = kNumLevels -> version_good w -> size holders + 3 < 2 ^ 31 - 1 -> (forall u, is_Some (h_versions (vs_heap (mf_set m)) !! u) -> u = v \/ u ∈ c :: holders) ->
  wp (install_or_delete e v name OK) (fun _ m' => ready (mf_set m') v w holders /\ vs_log_number_ (mf_set m') = log_number_ e /\ vs_prev_log_number_ (mf_set m') = prev_log_number_ e /\
    compact_pointer_ (mf_set m') = compact_pointer_ (mf_set m) /\ vs_manifest_file_number_ (mf_set m') = vs_manifest_file_number_ (mf_set m) /\
    mf_env m' = mf_env m /\ descriptor_file_ m' = descriptor_file_ m /\ descriptor_log_ m' = descriptor_log_ m) (fun _ => False) m.
Proof.
  intros Hc Hm Hv Hcell Hp Hw Hb Hall. unfold install_or_delete. cbn [ok OK]. unfold on_set. apply wp_zoom, wp_bind. apply (wp_AppendVersion v w (mf_set m) holders []); [by rewrite Hc|done|lia|by rewrite Hc|].
  intros h' Hall' H1 H2 H3 H4. apply wp_modify. cbn. split; [|done]. split; cbn; [done|by eexists|done|done|done|done].
Qed.

Lemma wp_discard m e v w c base n holders name st : ok st = false -> current_ (mf_set m) = Some c -> memory_ok (vs_heap (mf_set m)) (c :: holders) [] -> h_versions (vs_heap (mf_set m)) !! v = Some (w, 0) -> h_versions (vs_heap (mf_set m)) !! c = Some (base, n) ->
  size (compact_pointer_ (mf_set m)) = kNumLevels -> version_good base -> (forall u, is_Some (h_versions (vs_heap (mf_set m)) !! u) -> u = v \/ u ∈ c :: holders) ->
  wp (install_or_delete e v name st) (fun _ m' => ready (mf_set m') c base holders /\ vs_log_number_ (mf_set m') = vs_log_number_ (mf_set m) /\ vs_prev_log_number_ (mf_set m') = vs_prev_log_number_ (mf_set m) /\
    compact_pointer_ (mf_set m') = compact_pointer_ (mf_set m) /\ vs_manifest_file_number_ (mf_set m') = vs_manifest_file_number_ (mf_set m) /\
    (if decide (name = []) then descriptor_file_ m' = descriptor_file_ m /\ descriptor_log_ m' = descriptor_log_ m else descriptor_file_ m' = None /\ descriptor_log_ m' = None)) (fun _ => False) m.
Proof.
  intros Hst Hc Hm Hv Hcell Hp Hw Hall. assert (Hn : v ∉ c :: holders) by (rewrite <- times_elem; pose proof (mo_versions _ _ _ Hm _ _ Hv) as Ht; cbn in Ht; lia).
  assert (Hne : v <> c) by (intros ->; apply Hn, list_elem_of_here). unfold install_or_delete. rewrite Hst. apply wp_bind. unfold on_set. apply wp_zoom. unfold on_heap. apply wp_zoom.
  apply (wp_delete_version v w _ (c :: holders) [] _ _ Hv).
  { rewrite filter_gone; [by rewrite set_h_list_same|]. by rewrite (mo_list _ _ _ Hm). }
  intros h' H1 H2 H3 H4.
  apply (wp_mono _ (fun _ m' => mf_set m' = set_heap h' (mf_set m) /\ (if decide (name = []) then descriptor_file_ m' = descriptor_file_ m /\ descriptor_log_ m' = descriptor_log_ m else descriptor_file_ m' = None /\ descriptor_log_ m' = None)) _ (fun _ => False)); [| |done].
  - destruct name as [|x name]; [by apply wp_ret|]. replace (negb (size (x :: name) =? 0)) with true by (rewrite size_cons; pose proof (size_nonneg name); symmetry; apply negb_true_iff, Z.eqb_neq; lia).
    apply wp_bind, wp_get, wp_bind. apply (wp_mono _ (fun _ m' => mf_set m' = set_heap h' (mf_set m)) _ (fun _ => False)); [destruct (descriptor_file_ _); [unfold on_env; by apply wp_zoom, wp_modify|by apply wp_ret]| |done].
    intros [] m1 Hm1. apply wp_bind, wp_modify, wp_bind. unfold on_env. apply wp_zoom, wp_call. intros st1 e1 _. by apply wp_ret.
  - intros [] m' [-> Hd]. cbn. split; [|done]. split; cbn; [done|exists n; by rewrite H3, lookup_delete_ne|done| |done|done].
    intros u [x Hu]. rewrite H3 in Hu. apply lookup_delete_Some in Hu as [Hne2 Hu]. destruct (Hall u (mk_is_Some _ _ Hu)); [congruence|done].
Qed.
End AnyEnv.

(** What the caller of [LogAndApply] must see to. *)
Record can_apply {E H : Type} {U : Comparator} {LU : ComparatorLaws U} (m : Manifest E H) (c : Z) (base : Version) (holders : list Z) (e : VersionEdit) : Prop := {
  ca_ready : ready (mf_set m) c base holders;
  ca_descriptor : descriptor_ok m;
  ca_edit : edits_fit base [e];
  ca_room : room_for (mf_set m) base holders [e];
  ca_log : log_number_fits (mf_set m) e;
  ca_record : size (record_of (completed (mf_set m) e)) < 2 ^ 64;
  ca_snapshot : size (record_of (snapshot_edit (set_compact_pointer (new_pointers e (compact_pointer_ (mf_set m))) (mf_set m)) base)) < 2 ^ 64
}.

(** The same changes of the files and pointers. *)
Definition same_changes (e e' : VersionEdit) : Prop := compact_pointers_ e = compact_pointers_ e' /\ deleted_files_ e = deleted_files_ e' /\ new_files_ e = new_files_ e'.

Lemma same_at e e' : same_changes e e' -> forall level, deleted_at e level = deleted_at e' level /\ new_at e level = new_at e' level.
Proof. intros (_ & H1 & H2) level. unfold deleted_at, new_at. by rewrite H1, H2. Qed.

Lemma same_level_after l e e' level : same_changes e e' -> level_after l [e] level = level_after l [e'] level.
Proof. intros H. destruct (same_at e e' H level) as [H1 H2]. unfold level_after. cbn [fold_left]. by rewrite H1, H2. Qed.

Lemma same_edit_ok {U : Comparator} {LU : ComparatorLaws U} e e' : same_changes e e' -> edit_ok e -> edit_ok e'.
Proof. intros (H1 & H2 & H3) [A B C]. split; [by rewrite <- H1|by rewrite <- H2|by rewrite <- H3]. Qed.

Lemma same_edits_fit {U : Comparator} {LU : ComparatorLaws U} base e e' : same_changes e e' -> edits_fit base [e] -> edits_fit base [e'].
Proof.
  intros H [A B C D]. apply Forall_cons_1 in A as [A _]. split.
  - constructor; [by apply (same_edit_ok e)|constructor].
  - intros level Hl. specialize (B level Hl). unfold numbers_once, all_new in *. cbn [map concat] in *. by rewrite <- (proj2 (same_at e e' H level)).
  - intros level Hl. rewrite <- (same_level_after _ e e' level H). by apply C.
  - intros level Hl. rewrite <- (same_level_after _ e e' level H). by apply D.
Qed.

Lemma same_edited {U : Comparator} {LU : ComparatorLaws U} base e e' w : same_changes e e' -> edited base [e] w -> edited base [e'] w.
Proof. intros H [A B]. split; [done|]. intros level Hl. rewrite <- (same_level_after _ e e' level H). by apply B. Qed.

Lemma snapshot_edit_heap {U : Comparator} h s v : snapshot_edit (set_heap h s) v = snapshot_edit s v.
Proof. done. Qed.

Section Apply.
Context {E H G : Type} {V : Env E H G} {OV : EnvOpens V} {U : Comparator} {LU : ComparatorLaws U} (dbname : list Z).

(** The state behind [build_version]. *)
Record built_state (m m1 : Manifest E H) (c : Z) (base : Version) (holders : list Z) (e : VersionEdit) (v : Z) (w : Version) : Prop := {
  bs_made : made (mf_set m) (mf_set m1) c base holders e v;
  bs_rest : mf_env m1 = mf_env m /\ descriptor_file_ m1 = descriptor_file_ m /\ descriptor_log_ m1 = descriptor_log_ m;
  bs_current : current_ (mf_set m1) = Some c;
  bs_cell : exists n, h_versions (vs_heap (mf_set m1)) !! c = Some (base, n);
  bs_new : h_versions (vs_heap (mf_set m1)) !! v = Some (w, 0) /\ edited base [e] w;
  bs_numbers : vs_log_number_ (mf_set m1) = vs_log_number_ (mf_set m) /\ vs_prev_log_number_ (mf_set m1) = vs_prev_log_number_ (mf_set m) /\ vs_manifest_file_number_ (mf_set m1) = vs_manifest_file_number_ (mf_set m) /\ vs_next_file_number_ (mf_set m1) = vs_next_file_number_ (mf_set m);
  bs_pointers : compact_pointer_ (mf_set m1) = new_pointers e (compact_pointer_ (mf_set m))
}.

Lemma new_pointers_size e p : size (new_pointers e p) = size p.
Proof. unfold new_pointers. revert p. induction (compact_pointers_ e) as [|q qs IH]; intros p; [done|]. cbn [fold_left]. rewrite IH. unfold size. by rewrite length_insert. Qed.

Lemma made_cell s s' c base holders e v n : made s s' c base holders e v -> v <> c -> h_versions (vs_heap s) !! c = Some (base, n) -> exists k, h_versions (vs_heap s') !! c = Some (base, k).
Proof.
  intros [_ H2 _ _ H4] Hne Hc. destruct (mo_holders _ _ _ H2 c (list_elem_of_here _ _)) as [[x k] Hx]. destruct (H4 c _ (not_eq_sym Hne) Hx) as [j Hj]. rewrite Hc in Hj. injection Hj as -> _. by exists k.
Qed.

Lemma made_new s s' c base holders e v : made s s' c base holders e v -> v <> c.
Proof. intros [_ H2 (w & Hw & _) _ _] ->. pose proof (mo_versions _ _ _ H2 _ _ Hw) as Ht. cbn in Ht. pose proof (proj2 (times_elem c (c :: holders)) (list_elem_of_here _ _)). lia. Qed.

Lemma wp_built m c base holders e (Q : Z -> Manifest E H -> Prop) : ready (mf_set m) c base holders -> edits_fit base [e] -> room_for (mf_set m) base holders [e] ->
  (forall v w m1, built_state m m1 c base holders e v w -> Q v m1) -> wp (on_set (build_version e)) Q (fun _ => False) m.
Proof.
  intros Hr He Hroom HQ. unfold on_set. apply wp_zoom. eapply wp_mono; [by apply (wp_build_version _ c base holders e)| |done]. intros v s' Hm. pose proof (made_new _ _ _ _ _ _ _ Hm) as Hne.
  destruct (rd_cell _ _ _ _ Hr) as [n Hn]. pose proof (made_cell _ _ _ _ _ _ _ _ Hm Hne Hn) as Hc. pose proof Hm as [(h & Hs) _ (w & Hw & Hed) _ _]. apply (HQ v w).
  split; cbn; [done|done| |done|done| |]; rewrite Hs; cbn; [by apply (rd_current _ _ _ _ Hr)|done|done].
Qed.
(** What [LogAndApply] ends with. *)
Definition applied (m m' : Manifest E H) (c : Z) (base : Version) (holders : list Z) (edit : VersionEdit) (st : Status) : Prop :=
  if ok st then exists v w, ready (mf_set m') v w holders /\ edited base [edit] w /\
    vs_log_number_ (mf_set m') = log_number_ (completed (mf_set m) edit) /\ vs_prev_log_number_ (mf_set m') = prev_log_number_ (completed (mf_set m) edit)
  else ready (mf_set m') c base holders /\ vs_log_number_ (mf_set m') = vs_log_number_ (mf_set m) /\ vs_prev_log_number_ (mf_set m') = vs_prev_log_number_ (mf_set m).

Lemma wp_LogAndApply others m c base holders holders' edit : can_apply m c base holders edit ->
  (forall v s, made (mf_set m) s c base holders (completed (mf_set m) edit) v -> allowed s (others s) c v holders') ->
  wp (LogAndApply dbname others edit) (fun r m' => snd r = completed (mf_set m) edit /\ descriptor_ok m' /\ applied m m' c base holders' edit (fst r)) (fun _ => False) m.
Proof.
  intros [Hr Hd He Hroom Hlog Hrec Hsnap] Hothers. set (e := completed (mf_set m) edit) in *. assert (Hsame : same_changes edit e) by (destruct (completed_same (mf_set m) edit) as (C1 & C2 & C3); done).
  pose proof (same_edits_fit base edit e Hsame He) as Hfit. assert (Hroom' : room_for (mf_set m) base holders [e]) by (unfold room_for in *; cbn [map concat] in *; by rewrite <- (proj2 (proj2 Hsame))).
  unfold LogAndApply. apply wp_bind. unfold on_set at 1. apply wp_zoom, wp_complete_edit; [done|]. fold e.
  assert (Hm0 : set_vset (mf_set m) m = m) by (by destruct m). rewrite Hm0. apply wp_bind, (wp_built m c base holders e); [done..|]. intros v w m1 [B1 (B2 & B3 & B4) B5 (n & B6) [B7 B8] (B9 & B10 & B11 & B12) B13].
  assert (Hptr : size (compact_pointer_ (mf_set m1)) = kNumLevels) by (rewrite B13, new_pointers_size; by apply (rd_pointers _ _ _ _ Hr)).
  apply wp_bind. eapply wp_mono; [apply (wp_open_descriptor dbname m1 c base n e)| |done].
  { unfold descriptor_ok in *. by rewrite B3, B4, B11. }
  { done. }
  { done. }
  { apply (vg_files base), (rd_good _ _ _ _ Hr). }
  { assert (Es : snapshot_edit (mf_set m1) base = snapshot_edit (set_compact_pointer (new_pointers edit (compact_pointer_ (mf_set m))) (mf_set m)) base); [|by rewrite Es].
    unfold snapshot_edit, snapshot_pointers. cbn. rewrite B13. unfold new_pointers. by rewrite (proj1 Hsame). }
  { rewrite B12. apply completed_next. }
  intros [[e1 s1] name] m2 (O1 & O2 & O3). cbn [fst snd] in *. subst e1. apply wp_bind. eapply wp_mono; [apply (wp_write_edit dbname e name s1 m2)| |done]; [apply fit_keys_set; pose proof (ef_ok _ _ Hfit) as Hok; by apply Forall_cons_1 in Hok as [Hok _]|done| | |].
  { rewrite O2. destruct O3 as [(-> & _)|(_ & Hpos & _)]; done. }
  { destruct O3 as [(_ & _ & -> & f & log & G1 & G2)|(_ & _ & HG)]; [|done]. intros _. exists f, log. split; [done|]. split; [done|]. unfold descriptor_ok in Hd. by rewrite <- B3, <- B4, G1, G2 in Hd. }
  intros st m3 (W1 & W2 & W3 & W4). apply wp_bind. unfold on_set at 1. apply wp_zoom, wp_modify. rewrite W1, O2. set (m4 := set_vset (others (mf_set m1)) m3). apply wp_bind.
  destruct (Hothers v (mf_set m1) B1) as [L1 L2 [L3 L4] L5 L6 L10 L7 L8 L9].
  assert (Hcell : exists k, h_versions (vs_heap (others (mf_set m1))) !! c = Some (base, k)).
  { destruct (mo_holders _ _ _ L6 c (list_elem_of_here _ _)) as [[x k] Hx]. destruct (L8 _ _ Hx) as [j Hj]. rewrite B6 in Hj. injection Hj as -> _. by exists k. }
  destruct Hcell as [k Hcell]. assert (Hd3 : ok s1 = true -> exists f log, descriptor_file_ m3 = Some f /\ descriptor_log_ m3 = Some log /\ offset_ok log).
  { intros Hs1. destruct (W3 Hs1) as (log & G1 & G2). rewrite W2. destruct O3 as [(_ & _ & -> & f & log' & G3 & G4)|(_ & _ & HG)]; [by exists f, log|]. destruct (HG Hs1) as (f & log' & G3 & _). by exists f, log. }
  assert (Hst : ok st = true -> ok s1 = true). { intros Hst. destruct (ok s1) eqn:Es1; [done|]. destruct (W4 eq_refl) as [-> _]. congruence. }
  destruct (ok st) eqn:Est.
  - assert (st = OK) as -> by (by destruct st). eapply wp_mono; [apply (wp_install m4 e v w c base k holders' name)| |done]; [cbn; congruence|exact L6|cbn; by rewrite L7|exact Hcell|cbn; by rewrite L5|apply B8|exact L9|exact L10|].
    intros [] m5 (I1 & I2 & I3 & I4 & I5 & I6 & I7 & I8). apply wp_ret. split; [done|]. split.
    + unfold descriptor_ok. rewrite I7, I8. destruct (Hd3 (Hst eq_refl)) as (f & log & G1 & G2 & G3). cbn. by rewrite G1, G2.
    + unfold applied. cbn [fst ok OK]. exists v, w. split; [exact I1|]. split; [by apply (same_edited base e edit); [destruct Hsame as (C1 & C2 & C3)|]|]. by split.
  - eapply wp_mono; [apply (wp_discard m4 e v w c base k holders' name st Est)| |done]; [cbn; congruence|exact L6|cbn; by rewrite L7|exact Hcell|cbn; by rewrite L5|by apply (rd_good _ _ _ _ Hr)|exact L10|].
    intros [] m5 (I1 & I2 & I3 & I4 & I5 & I6). apply wp_ret. split; [done|]. split; [|unfold applied; cbn [fst]; rewrite Est; split; [done|]; cbn in I2, I3; split; congruence].
    unfold descriptor_ok. destruct (decide (name = [])) as [->|Hname].
    + destruct I6 as [-> ->]. cbn. destruct O3 as [(_ & O4 & _)|(O4 & _)]; [|exfalso; pose proof (DescriptorFileName_some dbname (vs_manifest_file_number_ (mf_set m1))) as Hx; rewrite <- O4 in Hx; done].
      destruct (Hd3 ltac:(by rewrite O4)) as (f & log & G1 & G2 & G3). by rewrite G1, G2.
    + destruct I6 as [-> ->]. rewrite I5. cbn. rewrite L2. by destruct O3 as [(-> & _)|(_ & O4 & _)].
Qed.

(** When only the set holds its current version, its destructor frees every version and file. *)
Lemma delete_VersionSet_frees m c base : ready (mf_set m) c base [] ->
  wp (delete_VersionSet (V := V)) (fun _ m' => h_versions (vs_heap (mf_set m')) = ∅ /\ h_refs (vs_heap (mf_set m')) = ∅ /\ h_list (vs_heap (mf_set m')) = []) (fun _ => False) m.
Proof.
  intros [R1 R2 R3 R4 _ _]. unfold delete_VersionSet. apply wp_bind. unfold on_set at 1. apply wp_zoom, wp_bind, wp_get, wp_bind, wp_or_stuck. exists c. split; [done|]. unfold on_heap. apply wp_zoom.
  apply (wp_Version_Unref c _ [] []); [done|]. intros h' H1 H2 _ H4 H5.
  assert (Hv : h_versions h' = ∅). { apply map_empty. intros u. destruct (decide (u = c)) as [->|Hne]; [apply H5, not_elem_of_nil|]. rewrite H4 by done. apply eq_None_not_Some. intros Hu. apply R4 in Hu. by apply list_elem_of_singleton in Hu. }
  assert (Hl : h_list h' = []). { destruct (h_list h') as [|u l] eqn:El; [done|]. exfalso. apply (not_elem_of_nil u). apply (mo_list _ _ _ H1). rewrite El. apply list_elem_of_here. }
  assert (Hr : h_refs h' = ∅). { apply map_empty. intros a. rewrite (mo_files _ _ _ H1 a), Hv. unfold uses. rewrite map_to_list_empty. cbn [map concat app]. apply decide_False, not_elem_of_nil. }
  apply wp_bind. unfold on_set. apply wp_zoom, wp_zoom, wp_bind, wp_get, wp_asserted; [cbn; by rewrite Hl|]. apply wp_bind, wp_get. cbn [descriptor_file_ set_vset].
  destruct (descriptor_file_ m); [unfold on_env; apply wp_zoom, wp_modify|apply wp_ret]; done.
Qed.
End Apply.

(** C37: [LogAndApply] over any environment, with errors anywhere. It returns. With the status OK
    the current version is a new one: its files are those of the old one with the edit made, in
    order and without overlap past level 0. With any other status the current version, its files and the log
    numbers are those from before. In both cases the reference counts of all versions and files are
    right, so that nothing in use was freed and nothing was lost, and the next [LogAndApply] can be made. *)
Theorem log_and_apply {E H G : Type} {V : Env E H G} {OV : EnvOpens V} {U : Comparator} {LU : ComparatorLaws U} (dbname : list Z)
    (others : VersionSet -> VersionSet) (m : Manifest E H) (c : Z) (base : Version) (holders holders' : list Z) (edit : VersionEdit) :
  can_apply m c base holders edit ->
  (forall v s, made (mf_set m) s c base holders (completed (mf_set m) edit) v -> allowed s (others s) c v holders') ->
  exists st m', LogAndApply dbname others edit m = (Ret (st, completed (mf_set m) edit), m') /\ descriptor_ok m' /\
    if ok st then exists v w, ready (mf_set m') v w holders' /\ edited base [edit] w /\
      vs_log_number_ (mf_set m') = log_number_ (completed (mf_set m) edit) /\ vs_prev_log_number_ (mf_set m') = prev_log_number_ (completed (mf_set m) edit)
    else ready (mf_set m') c base holders' /\ vs_log_number_ (mf_set m') = vs_log_number_ (mf_set m) /\ vs_prev_log_number_ (mf_set m') = vs_prev_log_number_ (mf_set m).
Proof.
  intros Hc Ho. destruct (wp_Ret _ _ _ (wp_LogAndApply dbname others m c base holders holders' edit Hc Ho)) as ([st e] & m' & Er & He & Hd & Ha). cbn [fst snd] in *. subst e. by exists st, m'.
Qed.

(** A writer that takes sequence numbers. *)
Lemma sequence_allowed {U : Comparator} {LU : ComparatorLaws U} s0 s c base holders e v n : made s0 s c base holders e v -> size holders + 3 < 2 ^ 31 - 1 -> allowed s (set_last_sequence n s) c v holders.
Proof. intros [_ M2 _ M4 _] Hb. split; [done|done|done|done|exact M2|exact M4|done|intros u cell Hu; exists (snd cell); by destruct cell|done]. Qed.

(** ** A new database *)

#[local] Existing Instance BytewiseComparator.

(** A set as its constructor leaves it, with the number 2 taken for the descriptor. *)
Definition first_set : VersionSet := set_next_file_number 9 (set_manifest_file_number 2 (snd (new_VersionSet (mk_vset 0 0 0 0 0 None [] empty_heap)))).
Definition first_manifest : Manifest MemoryEnv Z := mk_manifest first_set empty_memory None None.

Definition two_files : VersionEdit :=
  AddFile 1 8 2000 (new_InternalKey (literal "m") 9 kTypeValue) (new_InternalKey (literal "q") 7 kTypeValue)
    (AddFile 1 7 3000 (new_InternalKey (literal "a") 5 kTypeValue) (new_InternalKey (literal "k") 6 kTypeDeletion) (SetLogNumber 3 new_VersionEdit)).

Lemma new_version_good : version_good (LU := bytewise_laws) new_Version.
Proof.
  assert (Hat : forall level, files_at new_Version level = []). { intros level. unfold files_at, new_Version. cbn [files_]. apply nth_repeat. }
  split; [split; intros level|..]; rewrite ?Hat; try done; repeat constructor.
Qed.

Lemma first_ready : ready (LU := bytewise_laws) first_set 1 new_Version [].
Proof.
  assert (Ev : h_versions (vs_heap first_set) = {[1 := (new_Version, 1)]}) by (vm_compute; reflexivity).
  split; [done|by exists 1| | |exact new_version_good|done].
  2: { intros v [x Hv]. rewrite Ev in Hv. apply lookup_singleton_Some in Hv as [<- _]. apply list_elem_of_here. }
  split; try done.
  - intros v cell Hv. rewrite Ev in Hv. apply lookup_singleton_Some in Hv as [<- <-]. done.
  - intros v ->%list_elem_of_singleton. by eexists.
  - intros a Ha. change (h_fresh (vs_heap first_set)) with 2 in Ha. split; [done|]. split; [done|]. rewrite Ev. apply lookup_singleton_ne. lia.
  - repeat constructor. apply not_elem_of_nil.
Qed.

Lemma two_files_fit : edits_fit (LU := bytewise_laws) new_Version [two_files].
Proof.
  assert (Hat : forall level, files_at new_Version level = []). { intros level. unfold files_at, new_Version. cbn [files_]. apply nth_repeat. }
  assert (Hlev : forall level, 0 <= level < kNumLevels -> level = 0 \/ level = 1 \/ level = 2 \/ level = 3 \/ level = 4 \/ level = 5 \/ level = 6) by (intros level Hl; change kNumLevels with 7 in Hl; lia).
  split.
  - repeat (constructor; cbn [map fst snd]); vm_compute; try congruence; repeat constructor; congruence.
  - intros level Hl. rewrite Hat. destruct (Hlev level Hl) as [->|[->|[->|[->|[->|[->| ->]]]]]]; apply (bool_decide_unpack _); vm_compute; exact I.
  - intros level Hl. rewrite Hat. destruct (decide (level = 1)) as [->|Hne].
    + change (level_after (map f_info []) [two_files] 1) with (map (fun p => info (snd p)) (new_files_ two_files)). constructor; [constructor; [left; vm_compute; reflexivity|constructor]|constructor; constructor].
    + assert (E : level_after (map f_info []) [two_files] level = []); [|rewrite E; constructor]. destruct (Hlev level ltac:(lia)) as [->|[->|[->|[->|[->|[->| ->]]]]]]; try reflexivity. done.
  - intros level Hl. rewrite Hat. destruct (Hlev level Hl) as [->|[->|[->|[->|[->|[->| ->]]]]]]; vm_compute; done.
Qed.

Lemma first_can_apply : can_apply (LU := bytewise_laws) first_manifest 1 new_Version [] two_files.
Proof. split; [exact first_ready|done|exact two_files_fit|by split|by split; vm_compute|by vm_compute|by vm_compute]. Qed.

(** The files are added, and a second edit would be; while the set is unlocked a writer takes a sequence number. *)
Lemma log_and_apply_witness : exists m' v w,
  LogAndApply (literal "db") (set_last_sequence 5) two_files first_manifest = (Ret (OK, completed first_set two_files), m') /\
  ready (LU := bytewise_laws) (mf_set m') v w [] /\ edited (LU := bytewise_laws) new_Version [two_files] w /\ vs_log_number_ (mf_set m') = 3.
Proof.
  destruct (log_and_apply (V := memory_env) (LU := bytewise_laws) (literal "db") (set_last_sequence 5) first_manifest 1 new_Version [] [] two_files) as (st & m' & Er & _ & Ha).
  - exact first_can_apply.
  - intros v s Hm. apply (sequence_allowed _ _ _ _ _ _ _ _ Hm). vm_compute. reflexivity.
  - assert (Hst : (fun r => fst r) <$> (match fst (LogAndApply (literal "db") (set_last_sequence 5) two_files first_manifest) with Ret r => Some r | _ => None end) = Some OK) by (vm_compute; reflexivity).
    rewrite Er in Hst. cbn in Hst. injection Hst as ->. cbn [ok OK] in Ha. destruct Ha as (v & w & H1 & H2 & H3 & _). exists m', v, w. split; [exact Er|]. split; [exact H1|]. split; [exact H2|]. rewrite H3. reflexivity.
Defined.
