(* ===== verification/LdbRecover.v ===== *)
(** [VersionSet::Recover] reads what [LogAndApply] wrote: the manifest and CURRENT as a round trip. *)

From Stdlib Require Import ZArith Lia List String Bool SpecFloat.
From stdpp Require Import base gmap list sorting.
From S2P Require Import Prelude Base128 LdbBase LdbText LdbCoding LdbLog LdbLogRead LdbLogTotal LdbKeys LdbKeyProps LdbVersionEdit LdbEditProps LdbIterator LdbFormat LdbVersion LdbVersionOverlap LdbVersionSet LdbCompaction LdbBuilderSave LdbEnv LdbRefs LdbManifest LdbManifestProps.

(** ** What a computation keeps *)

Section Keeps.
Context {S : Type} (I : S -> Prop).

Definition keeps {A} (m : M S A) : Prop := forall s, I s -> I (snd (m s)).

Lemma keeps_ret {A} (a : A) : keeps (ret a).
Proof. by intros s. Qed.

Lemma keeps_stuck {A} : keeps (A := A) stuck.
Proof. by intros s. Qed.

Lemma keeps_bind {A B} (m : M S A) (k : A -> M S B) : keeps m -> (forall a, keeps (k a)) -> keeps (bind m k).
Proof. intros Hm Hk s Hs. unfold bind. specialize (Hm s Hs). destruct (m s) as [[a| |] s']; [by apply Hk|done|done]. Qed.

Lemma keeps_get : keeps get.
Proof. by intros s. Qed.

Lemma keeps_modify f : (forall s, I s -> I (f s)) -> keeps (modify f).
Proof. intros H s. apply H. Qed.

Lemma keeps_iter2 {A B} (body : A -> M S (A + B)) n : (forall a, keeps (body a)) -> forall a, keeps (iter2 n body a).
Proof. intros Hb. induction n as [|n IH]; intros a; [apply Hb|]. cbn [iter2]. apply keeps_bind; [apply IH|]. intros [a'|b]; [apply IH|apply keeps_ret]. Qed.

Lemma keeps_loop {A B} (body : A -> M S (A + B)) a : (forall a, keeps (body a)) -> keeps (loop body a).
Proof. intros Hb. unfold loop. apply keeps_bind; [by apply keeps_iter2|]. intros [a'|b]; [apply keeps_stuck|apply keeps_ret]. Qed.
End Keeps.

(** The operations on other members, and the structure of a computation. *)
Ltac keeps_step :=
  match goal with
  | |- keeps _ (bind _ _) => apply keeps_bind; [|intros ?]
  | |- keeps _ (ret _) => apply keeps_ret
  | |- keeps _ stuck => apply keeps_stuck
  | |- keeps _ get => apply keeps_get
  | |- keeps _ (modify _) => apply keeps_modify; by intros ?
  | |- keeps _ (if ?c then _ else _) => destruct c
  | |- keeps _ (match ?c with _ => _ end) => destruct c
  | |- keeps _ (let '(_, _) := ?c in _) => destruct c
  end.

(** Two things that are known of the same run. *)
Lemma wp_and {S A} (m : M S A) (Q1 Q2 : A -> S -> Prop) E1 E2 s (Q : A -> S -> Prop) : wp m Q1 E1 s -> wp m Q2 E2 s -> (forall a s', Q1 a s' -> Q2 a s' -> Q a s') -> wp m Q E1 s.
Proof. unfold wp. destruct (m s) as [[a| |] s']; auto. Qed.

(** A record is written: only the file itself is changed. *)
Section WriterKeeps.
Context {F : Type} {W : WritableFile F} (P : F -> Prop).
Context (HA : forall d f, P f -> P (snd (file_Append d f))) (HF : forall f, P f -> P (snd (file_Flush f))).

Abbreviation kept := (keeps (fun w : Writer F => P (dest_ w))).

Lemma dest_Append_keeps d : kept (dest_Append d).
Proof. intros w Hw. unfold dest_Append. specialize (HA d _ Hw). by destruct (file_Append d (dest_ w)). Qed.

Lemma dest_Flush_keeps : kept dest_Flush.
Proof. intros w Hw. unfold dest_Flush. specialize (HF _ Hw). by destruct (file_Flush (dest_ w)). Qed.

Lemma Emit_keeps t p : kept (EmitPhysicalRecord t p).
Proof.
  unfold EmitPhysicalRecord. apply keeps_bind; [apply keeps_get|]. intros w. apply keeps_bind; [apply dest_Append_keeps|]. intros s. apply keeps_bind.
  - destruct (ok s); [|apply keeps_ret]. apply keeps_bind; [apply dest_Append_keeps|]. intros s2. destruct (ok s2); [apply dest_Flush_keeps|apply keeps_ret].
  - intros s2. apply keeps_bind; [by apply keeps_modify|]. intros []. apply keeps_ret.
Qed.

Lemma add_fragment_keeps l : kept (add_fragment l).
Proof.
  destruct l as [ptr begin]. unfold add_fragment. apply keeps_bind; [apply keeps_get|]. intros w. cbv zeta. apply keeps_bind.
  - destruct (_ <? _); [|apply keeps_ret]. apply keeps_bind; [|intros []; by apply keeps_modify]. destruct (_ <? _); [|apply keeps_ret]. apply keeps_bind; [apply dest_Append_keeps|]. intros s. apply keeps_ret.
  - intros []. apply keeps_bind; [apply keeps_get|]. intros w2. apply keeps_bind; [apply Emit_keeps|]. intros s. apply keeps_ret.
Qed.

Lemma AddRecord_keeps r : kept (AddRecord r).
Proof. unfold AddRecord. apply keeps_loop. intros l. apply add_fragment_keeps. Qed.
End WriterKeeps.

(** Reading changes no file. *)
Section ReaderKeeps.
Context {F : Type} {R : SequentialFile F} (P : F -> Prop).
Context (HR : forall n f, P f -> P (snd (file_Read n f))) (HS : forall n f, P f -> P (snd (file_Skip n f))).

Abbreviation kept := (keeps (fun r : Reader F => P (file_ r))).

Lemma read_file_keeps n : kept (read_file n).
Proof. intros r Hr. unfold read_file. specialize (HR n _ Hr). by destruct (file_Read n (file_ r)) as [[s d] f]. Qed.

Lemma skip_file_keeps n : kept (skip_file n).
Proof. intros r Hr. unfold skip_file. specialize (HS n _ Hr). by destruct (file_Skip n (file_ r)) as [s f]. Qed.

Lemma ReportDrop_keeps n s : kept (ReportDrop n s).
Proof. unfold ReportDrop. repeat (keeps_step || apply read_file_keeps || apply skip_file_keeps). Qed.

Lemma ReportCorruption_keeps n s : kept (ReportCorruption n s).
Proof. apply ReportDrop_keeps. Qed.

Lemma physical_step_keeps result l : kept (physical_step result l).
Proof. unfold physical_step. repeat (keeps_step || apply read_file_keeps || apply skip_file_keeps || apply ReportDrop_keeps || apply ReportCorruption_keeps || cbv zeta). Qed.

Lemma ReadPhysicalRecord_keeps result : kept (ReadPhysicalRecord result).
Proof. unfold ReadPhysicalRecord. apply keeps_loop. intros l. apply physical_step_keeps. Qed.

Lemma record_step_keeps l : kept (record_step l).
Proof. unfold record_step. repeat (keeps_step || apply read_file_keeps || apply skip_file_keeps || apply ReportDrop_keeps || apply ReportCorruption_keeps || apply ReadPhysicalRecord_keeps || cbv zeta). Qed.

Lemma ReadRecord_keeps : kept ReadRecord.
Proof.
  unfold ReadRecord, SkipToInitialBlock. repeat (keeps_step || apply read_file_keeps || apply skip_file_keeps || apply ReportDrop_keeps || cbv zeta). apply keeps_loop. intros l. apply record_step_keeps.
Qed.
End ReaderKeeps.

(** ** Files without I/O errors *)

Section Files.
Context {E H G : Type} {V : Env E H G} {LV : EnvLaws V}.

#[export, program] Instance writable_laws (h : H) : WritableFileLaws (writable h) := {| contents e := file_data e (file_of h) |}.
Next Obligation. intros h d e. destruct (L_Append h d e) as (e' & -> & _ & H2 & _). done. Qed.
Next Obligation. intros h e. destruct (L_Flush h e) as (e' & -> & _ & H2). by cbn. Qed.

(** Nothing but the file [i] changes. *)
Definition only_file (i : Z) (e e' : E) : Prop := file_dir e' = file_dir e /\ forall j, j <> i -> file_data e' j = file_data e j.

Lemma only_file_same i e e' : same_files file_dir file_data e e' -> only_file i e e'.
Proof. intros [H1 H2]. split; [done|]. intros j _. apply H2. Qed.

Lemma only_file_trans i e1 e2 e3 : only_file i e1 e2 -> only_file i e2 e3 -> only_file i e1 e3.
Proof. intros [A1 A2] [B1 B2]. split; [congruence|]. intros j Hj. by rewrite B2, A2. Qed.

Lemma log_AddRecord_ok r (log : Writer H) e c bl : file_data e (file_of (dest_ log)) = c -> block_offset_ log = kBlockSize - bl -> 0 <= bl <= kBlockSize -> type_crc_ log = InitTypeCrc -> record_ok r ->
  exists log' e' bytes bl', log_AddRecord r log e = (Ret (OK, log'), e') /\ logged bl true r bytes bl' /\ dest_ log' = dest_ log /\ file_data e' (file_of (dest_ log)) = c ++ bytes /\
    block_offset_ log' = kBlockSize - bl' /\ 0 <= bl' <= kBlockSize /\ type_crc_ log' = InitTypeCrc /\ only_file (file_of (dest_ log)) e e'.
Proof.
  intros Hc Ho Hbl Ht [Hr Hs]. set (w := mk_writer e (block_offset_ log) (type_crc_ log)).
  destruct (AddRecord_logged (W := writable (dest_ log)) r w c bl) as (w' & bytes & bl' & Hl & (W1 & W2 & W3 & W4) & Er); [by repeat split; try done; lia|done|done|].
  pose proof (AddRecord_keeps (W := writable (dest_ log)) (only_file (file_of (dest_ log)) e)) as Hk. specialize (Hk ltac:(
    intros d f Hf; eapply only_file_trans; [exact Hf|]; destruct (L_Append (dest_ log) d f) as (f' & -> & H1 & _ & H3); by split)).
  specialize (Hk ltac:(intros f Hf; eapply only_file_trans; [exact Hf|]; destruct (L_Flush (dest_ log) f) as (f' & -> & H1); by apply only_file_same) r w ltac:(by apply only_file_same)).
  rewrite Er in Hk. cbn in Hk. exists (mk_writer (dest_ log) (block_offset_ w') (type_crc_ w')), (dest_ w'), bytes, bl'. split; [|done]. unfold log_AddRecord, with_writer. fold w. by rewrite Er.
Qed.

(** [reader] has the bytes [rest] in front of it; [bl] of them are in the block it holds. *)
Definition reading_at (r : Reader G) (e : E) (pos bl : Z) (rest : list Z) : Prop := reading (RF := sequential (file_ r)) (reader_at e r) pos bl rest.

Lemma reader_at_twice {F F' F''} (f : F) (g : F') (r : Reader F'') : reader_at f (reader_at g r) = reader_at f r.
Proof. done. Qed.

Lemma reader_at_self {F} (r : Reader F) : reader_at (file_ r) r = r.
Proof. by destruct r. Qed.

Lemma log_ReadRecord_result (r : Reader G) e o s' : ReadRecord (R := sequential (file_ r)) (reader_at e r) = (Ret o, s') ->
  log_ReadRecord r e = (Ret (o, reader_at (file_ r) s'), file_ s') /\ same_files file_dir file_data e (file_ s').
Proof.
  intros Er. split; [unfold log_ReadRecord, with_reader; by rewrite Er|].
  pose proof (ReadRecord_keeps (R := sequential (file_ r)) (same_files file_dir file_data e)) as Hk.
  specialize (Hk ltac:(intros n f [F1 F2]; destruct (L_Read (file_ r) n f) as [G1 G2]; split; [congruence|intros i; by rewrite G2, F2])).
  specialize (Hk ltac:(intros n f [F1 F2]; destruct (L_Skip (file_ r) n f) as [G1 G2]; split; [congruence|intros i; by rewrite G2, F2]) (reader_at e r) ltac:(done)). by rewrite Er in Hk.
Qed.

Lemma log_ReadRecord_ok data (r : Reader G) e pos bl bytes bl' rest : logged bl true data bytes bl' -> reading_at r e pos bl (bytes ++ rest) -> record_ok data ->
  exists r' e', log_ReadRecord r e = (Ret (Some data, r'), e') /\ file_ r' = file_ r /\ reading_at r' e' (pos + size bytes) bl' rest /\ reports r' = reports r /\ same_files file_dir file_data e e'.
Proof.
  intros Hl Hr [H1 H2]. destruct (ReadRecord_logged (RF := sequential (file_ r)) _ _ _ _ _ _ _ Hl Hr H1 H2) as (s' & Er & Hs & Hrep). destruct (log_ReadRecord_result r e _ _ Er) as [E1 E2].
  exists (reader_at (file_ r) s'), (file_ s'). split; [done|]. split; [done|]. split; [|done]. unfold reading_at. cbn [file_ reader_at]. by rewrite reader_at_twice, reader_at_self.
Qed.

Lemma log_ReadRecord_end (r : Reader G) e pos bl : reading_at r e pos bl [] ->
  exists r' e', log_ReadRecord r e = (Ret (None, r'), e') /\ reports r' = reports r /\ same_files file_dir file_data e e'.
Proof.
  intros Hr. destruct (ReadRecord_end (RF := sequential (file_ r)) _ _ _ Hr) as (s' & Er & Hrep). destruct (log_ReadRecord_result r e _ _ Er) as [E1 E2]. by exists (reader_at (file_ r) s'), (file_ s').
Qed.

(** ** [ReadFileToString] *)

Lemma ReadFileToString_ok n e i : file_dir e !! n = Some i -> size (file_data e i) < 2 ^ 64 ->
  exists e', ReadFileToString n e = (Ret (OK, file_data e i), e') /\ same_files file_dir file_data e e'.
Proof.
  intros Hn Hsz. destruct (L_open n e i Hn) as (g & e1 & Eo & Hs1 & Hrem). set (left := remaining (SequentialFileLaws := L_sequential g)) in *.
  assert (Hw : wp (ReadFileToString n) (fun r e' => r = (OK, file_data e i) /\ same_files file_dir file_data e e') (fun _ => False) e).
  { unfold ReadFileToString. apply wp_bind. eapply wp_of_eq; [unfold call; rewrite Eo; reflexivity|]. cbn [ok OK negb]. apply wp_bind, wp_or_stuck. exists g. split; [done|]. apply wp_bind.
    apply (wp_loop (read_fragment g) (fun c e' => c ++ left e' = file_data e i /\ same_files file_dir file_data e e') (fun _ e' => size (left e') + 1)); [|split; [cbn [app]; exact Hrem|exact Hs1]|rewrite Hrem; lia].
    intros c e2 [Hc Hs2]. split; [pose proof (size_nonneg (left e2)); lia|]. unfold read_fragment. destruct (Read_remaining (SequentialFileLaws := L_sequential g) kBufferSize e2) as (e3 & Er & Hr3). fold left in Er, Hr3.
    pose proof (L_Read g kBufferSize e2) as Hk. rewrite Er in Hk. cbn [snd] in Hk. assert (Hs3 : same_files file_dir file_data e e3) by (destruct Hs2, Hk; split; [congruence|intros j; congruence]).
    apply wp_bind. eapply wp_of_eq; [unfold call; rewrite Er; reflexivity|]. cbn [ok OK negb]. set (frag := take (Z.to_nat kBufferSize) (left e2)) in *.
    assert (Hall : frag ++ left e3 = left e2) by (rewrite Hr3; apply take_drop). destruct (Z.eqb_spec (size frag) 0) as [Hz|Hz].
    - apply wp_ret. apply wp_bind, wp_modify, wp_ret. assert (Hf : frag = []) by (destruct frag; [done|rewrite size_cons in Hz; pose proof (size_nonneg frag); lia]). split.
      + rewrite <- Hc, <- Hall, Hf. cbn [app]. assert (Hnil : left e2 = []). { unfold frag in Hf. destruct (left e2) as [|x l]; [done|]. change (Z.to_nat kBufferSize) with (S (Nat.pred (Z.to_nat kBufferSize))) in Hf. done. }
        rewrite Hr3, Hnil, drop_nil. by rewrite app_nil_r.
      + destruct Hs3 as [A1 A2], (L_close_sequential g e3) as [B1 B2]. split; [congruence|intros j; by rewrite B2, A2].
    - apply wp_ret. split; [split; [rewrite <- app_assoc, Hall; done|done]|]. rewrite <- Hall, size_app. pose proof (size_nonneg frag). lia. }
  destruct (wp_Ret _ _ _ Hw) as (r & e' & Er & -> & Hs). by exists e'.
Qed.

(** ** CURRENT *)

Lemma decimal_digits_length n : forall v acc, (List.length (decimal_digits n v acc) <= S n + List.length acc)%nat.
Proof.
  induction n as [|n IH]; intros v acc; cbn [decimal_digits List.length]; [lia|]. destruct (_ =? 0); [cbn [List.length]; lia|]. specialize (IH (v / 10) (48 + v mod 10 :: acc)). cbn [List.length] in IH. lia.
Qed.

Lemma decimal_length v : (List.length (decimal v) <= 20)%nat.
Proof. apply (decimal_digits_length 19 v []). Qed.

Section Names.
Context (dbname : list Z).

Definition manifest_name (n : Z) : list Z := literal "MANIFEST-" ++ decimal6 n.

Lemma DescriptorFileName_name n : DescriptorFileName dbname n = dbname ++ literal "/" ++ manifest_name n.
Proof. reflexivity. Qed.

Lemma decimal6_head n : 0 <= n < 2 ^ 64 -> exists c l, decimal6 n = c :: l /\ digit_char c.
Proof.
  intros Hn. destruct (decimal6_value n Hn) as (H1 & _ & H3). destruct (decimal6 n) as [|c l]; [done|]. exists c, l. split; [done|]. by apply Forall_cons_1 in H1 as [H1 _].
Qed.

Lemma names_differ n : 0 <= n < 2 ^ 64 -> TempFileName dbname n <> CurrentFileName dbname /\ TempFileName dbname n <> DescriptorFileName dbname n /\ CurrentFileName dbname <> DescriptorFileName dbname n.
Proof.
  intros Hn. destruct (decimal6_head n Hn) as (c & l & Hd & Hc). unfold digit_char in Hc. unfold TempFileName, MakeFileName, CurrentFileName, DescriptorFileName. rewrite Hd.
  assert (Ec : literal "/CURRENT" = 47 :: 67 :: literal "URRENT") by reflexivity. assert (Em : literal "/MANIFEST-" = 47 :: 77 :: literal "ANIFEST-") by reflexivity. assert (Es : literal "/" = [47]) by reflexivity. rewrite Ec, Em, Es.
  split; [|split]; intros Heq; apply app_inv_head in Heq; cbn [app] in Heq; injection Heq; intros; lia.
Qed.

(** The name in CURRENT, without the directory. *)
Lemma current_contents n : remove_prefix (size dbname + 1) (DescriptorFileName dbname n) = manifest_name n.
Proof.
  rewrite DescriptorFileName_name, app_assoc. unfold remove_prefix. replace (size dbname + 1) with (size (dbname ++ literal "/")) by (by rewrite size_app). apply drop_size_app.
Qed.

Lemma SetCurrentFile_ok n e : 0 < n < 2 ^ 64 -> exists e' i, SetCurrentFile dbname n e = (Ret OK, e') /\
  file_dir e' = <[CurrentFileName dbname := i]> (delete (TempFileName dbname n) (<[TempFileName dbname n := i]> (file_dir e))) /\ file_data e' i = manifest_name n ++ [10] /\
  (forall j, j <> i -> file_data e' j = file_data e j) /\ forall m, file_dir e !! m = Some i -> m = TempFileName dbname n.
Proof.
  intros Hn. set (tmp := TempFileName dbname n). destruct (L_new tmp e) as (h & e1 & E1 & D1 & F1 & C1 & O1).
  destruct (L_Append h (manifest_name n ++ [10]) e1) as (e2 & E2 & D2 & C2 & O2). destruct (L_Sync h e2) as (e3 & E3 & D3 & C3). destruct (L_Close h e3) as (e4 & E4 & D4 & C4). destruct (L_close_writable h e4) as [D5 C5]. set (e5 := close_writable h e4) in *.
  assert (Hdir : file_dir e5 = <[tmp := file_of h]> (file_dir e)) by congruence. destruct (L_rename tmp (CurrentFileName dbname) e5 (file_of h)) as (e6 & E6 & D6 & C6); [by rewrite Hdir, lookup_insert_eq|].
  exists e6, (file_of h). split; [|split; [by rewrite D6, Hdir|split; [rewrite C6, C5, C4, C3, C2, C1; done|split]]].
  - unfold SetCurrentFile. assert (Hpos : (0 <? n) = true) by (apply Z.ltb_lt; lia). rewrite Hpos. cbn [asserted]. rewrite bind_ret. cbv zeta. rewrite descriptor_prefix. cbn [asserted]. rewrite bind_ret, current_contents. fold tmp.
    assert (Hw : WriteStringToFileSync (manifest_name n ++ [10]) tmp e = (Ret OK, e5)).
    { unfold WriteStringToFileSync, DoWriteStringToFile. unfold bind, call. rewrite E1. cbn [ok OK negb or_stuck ret]. rewrite E2. cbn [ok OK andb]. rewrite E3. cbn [ok OK]. rewrite E4. done. }
    rewrite (bind_Ret _ _ _ _ _ Hw). cbn [ok OK]. unfold bind, call. rewrite E6. done.
  - intros j Hj. rewrite C6, C5, C4, C3, O2, O1 by done. done.
  - intros m Hm. by destruct (F1 m).
Qed.
End Names.
End Files.

(** ** [LogAndApply] on disk *)

Section Disk.
Context {E H G : Type} {V : Env E H G} {LV : EnvLaws V} {U : Comparator} {LU : ComparatorLaws U}.
Context (dbname : list Z).

Lemma log_of_snoc bl rs b bl1 r b2 bl2 : log_of bl rs b bl1 -> logged bl1 true r b2 bl2 -> log_of bl (rs ++ [r]) (b ++ b2) bl2.
Proof.
  induction 1 as [bl|bl r0 rs b0 bl0 b1 bl1 H0 _ IH]; intros Hl; cbn [app].
  - rewrite <- (app_nil_r b2). econstructor; [done|constructor].
  - rewrite <- app_assoc. econstructor; [done|by apply IH].
Qed.

(** The descriptor's file holds the edits [es], and the writer goes on behind them. *)
Record logging (m : Manifest E H) (n : Z) (es : list VersionEdit) (f : H) : Prop := {
  lg_number : 0 < n < 2 ^ 64 /\ vs_manifest_file_number_ (mf_set m) = n;
  lg_file : descriptor_file_ m = Some f /\ file_dir (mf_env m) !! DescriptorFileName dbname n = Some (file_of f);
  lg_log : exists log bl, descriptor_log_ m = Some log /\ dest_ log = f /\ log_of 0 (map record_of es) (file_data (mf_env m) (file_of f)) bl /\
    block_offset_ log = kBlockSize - bl /\ 0 <= bl <= kBlockSize /\ type_crc_ log = InitTypeCrc
}.

(** CURRENT names the manifest [n]. *)
Definition current_is (e : E) (n i : Z) : Prop := exists ic, file_dir e !! CurrentFileName dbname = Some ic /\ ic <> i /\ file_data e ic = manifest_name n ++ [10].

Definition attached (m : Manifest E H) (n : Z) (es : list VersionEdit) : Prop := exists f, logging m n es f /\ current_is (mf_env m) n (file_of f).

Lemma logging_more m n es f e : logging m n es f -> record_ok (record_of e) ->
  exists log log' e' , descriptor_log_ m = Some log /\ log_AddRecord (record_of e) log (mf_env m) = (Ret (OK, log'), e') /\ only_file (file_of f) (mf_env m) e' /\
    forall m', mf_set m' = mf_set m -> descriptor_file_ m' = Some f -> descriptor_log_ m' = Some log' -> same_files file_dir file_data e' (mf_env m') -> logging m' n (es ++ [e]) f.
Proof.
  intros [L1 [L2 L3] (log & bl & L4 & L5 & L6 & L7 & L8 & L9)] Hr. destruct (log_AddRecord_ok (record_of e) log (mf_env m) (file_data (mf_env m) (file_of f)) bl) as (log' & e' & bytes & bl' & A1 & A2 & A3 & A4 & A5 & A6 & A7 & A8); [by rewrite L5|done..|].
  rewrite L5 in *. exists log, log', e'. split; [done|]. split; [done|]. split; [done|]. intros m' M1 M2 M3 [M4 M5]. split; [by rewrite M1|split; [done|rewrite M4, (proj1 A8); done]|].
  exists log', bl'. split; [done|]. split; [done|]. split; [|done]. rewrite M5, A4, map_app. by eapply log_of_snoc.
Qed.

(** The edits of a snapshot and the completed one can be written. *)
Lemma wp_open_ok m c base k n e : descriptor_log_ m = None -> descriptor_file_ m = None -> current_ (mf_set m) = Some c -> h_versions (vs_heap (mf_set m)) !! c = Some (base, k) ->
  version_files_ok base -> 0 < n < 2 ^ 64 -> vs_manifest_file_number_ (mf_set m) = n -> record_ok (record_of (snapshot_edit (mf_set m) base)) ->
  wp (open_descriptor dbname e) (fun r m' => snd (fst r) = OK /\ snd r = DescriptorFileName dbname n /\ mf_set m' = mf_set m /\ exists f, logging m' n [snapshot_edit (mf_set m) base] f) (fun _ => False) m.
Proof.
  intros Hl Hf Hc Hcell Hgood Hn En Hr. unfold open_descriptor. apply wp_bind, wp_get. rewrite Hl, Hf. apply wp_bind, wp_asserted; [done|]. apply wp_bind, wp_asserted; [apply Z.ltb_lt; lia|]. rewrite En.
  destruct (L_new (DescriptorFileName dbname n) (mf_env m)) as (h & e1 & E1 & D1 & F1 & C1 & O1). apply wp_bind. unfold on_env at 1. apply wp_zoom. eapply wp_of_eq; [unfold call; rewrite E1; reflexivity|].
  apply wp_bind, wp_modify. cbn [ok OK]. apply wp_bind, wp_or_stuck. exists h. split; [done|]. apply wp_bind. unfold WriteSnapshot. apply wp_bind. unfold on_set. apply wp_zoom. cbn [mf_set set_descriptor set_env].
  apply (wp_current_any _ c base k); [done|done|]. apply wp_bind, wp_gets. apply wp_bind, wp_or_stuck. cbn [mf_set set_vset set_descriptor set_env]. exists (record_of (snapshot_edit (mf_set m) base)). split; [by apply edit_EncodeTo_record, snapshot_keys_set|]. unfold on_env. apply wp_zoom. cbn [mf_env set_vset mf_set set_descriptor set_env].
  destruct (log_AddRecord_ok (record_of (snapshot_edit (mf_set m) base)) (new_Writer h) e1 [] kBlockSize) as (log' & e2 & bytes & bl' & A1 & A2 & A3 & A4 & A5 & A6 & A7 & A8); [done|unfold kBlockSize; cbn; lia|unfold kBlockSize; lia|done|done|].
  eapply wp_of_eq; [exact A1|]. apply wp_bind, wp_modify, wp_ret. cbn [fst snd dest_ new_Writer] in *. split; [done|]. split; [done|]. split; [done|]. exists h. split; cbn; [by split|split; [done|]|].
  - rewrite (proj1 A8), D1. by rewrite lookup_insert_eq.
  - exists log', bl'. split; [done|]. split; [done|]. split; [|done]. rewrite A4. cbn [app map]. rewrite <- (app_nil_r bytes). econstructor; [by apply logged_fresh|constructor].
Qed.

(** The record behind those there are; CURRENT names the manifest from now on, or did before. *)
Lemma wp_write_ok m n es f e name : keys_set e -> logging m n es f -> record_ok (record_of e) -> (name = [] /\ current_is (mf_env m) n (file_of f) \/ name = DescriptorFileName dbname n) ->
  wp (write_edit dbname e name OK) (fun st m' => st = OK /\ mf_set m' = mf_set m /\ attached m' n (es ++ [e])) (fun _ => False) m.
Proof.
  intros Hkeys Hlog Hr Hname. pose proof (lg_number _ _ _ _ Hlog) as [Hn En]. destruct (lg_file _ _ _ _ Hlog) as [Ef Hd]. destruct (logging_more m n es f e Hlog Hr) as (log & log' & e1 & El & Ea & Ho & Hmore). unfold write_edit. cbn [ok OK].
  apply wp_bind, wp_bind, wp_get, wp_bind, wp_or_stuck. exists log. split; [done|]. apply wp_bind, wp_or_stuck. exists (record_of e). split; [by apply edit_EncodeTo_record|]. apply wp_bind. unfold on_env at 1. apply wp_zoom. eapply wp_of_eq; [exact Ea|]. apply wp_bind, wp_modify. cbn [fst snd ok OK]. apply wp_bind, wp_or_stuck. exists f. split; [done|].
  destruct (L_Sync f e1) as (e2 & E2 & [D2 C2]). unfold on_env at 1. apply wp_zoom. eapply wp_of_eq; [unfold call; cbn; rewrite E2; reflexivity|]. apply wp_bind, wp_get. cbn [ok OK andb mf_set set_env set_descriptor mf_env]. rewrite En.
  destruct Hname as [[-> (ic & K1 & K2 & K3)]| ->].
  - apply wp_ret. split; [done|]. split; [done|]. exists f. split; [by apply Hmore|]. exists ic. cbn. rewrite D2, (proj1 Ho). split; [done|]. split; [done|]. by rewrite C2, (proj2 Ho).
  - rewrite DescriptorFileName_some. unfold on_env. apply wp_zoom. cbn [mf_env set_env]. destruct (SetCurrentFile_ok dbname n e2 Hn) as (e3 & i & E3 & D3 & C3 & O3 & F3). eapply wp_of_eq; [exact E3|]. split; [done|]. split; [done|]. exists f.
    destruct (names_differ dbname n ltac:(lia)) as (N1 & N2 & N3). assert (Hi : i <> file_of f). { intros ->. apply N2. symmetry. apply F3. by rewrite D2, (proj1 Ho). }
    assert (Hl2 : logging (mk_manifest (mf_set m) e2 (Some f) (Some log')) n (es ++ [e]) f) by (by apply Hmore).
    split; [|exists i; cbn; rewrite D3, lookup_insert_eq; done].
    destruct Hl2 as [G1 [G2 G3] (lg & bl & G4 & G5 & G6 & G7)]. cbn in G3, G4, G6. split; cbn; [done| |].
    + split; [done|]. rewrite D3, lookup_insert_ne, lookup_delete_ne, lookup_insert_ne by done. done.
    + exists lg, bl. split; [done|]. split; [done|]. split; [|done]. by rewrite O3 by (by apply not_eq_sym).
Qed.

Lemma attached_same m m' n es : attached m n es -> vs_manifest_file_number_ (mf_set m') = vs_manifest_file_number_ (mf_set m) -> mf_env m' = mf_env m -> descriptor_file_ m' = descriptor_file_ m -> descriptor_log_ m' = descriptor_log_ m -> attached m' n es.
Proof. intros (f & [L1 L2 L3] & Hc) E1 E2 E3 E4. exists f. rewrite E2. split; [|done]. split; rewrite ?E1, ?E2, ?E3, ?E4; done. Qed.

(** The edits in the descriptor's log when the next one is written: those that are there, or a snapshot. *)
Definition base_edits (m : Manifest E H) (base : Version) (e : VersionEdit) (n : Z) (es : list VersionEdit) : Prop :=
  attached m n es \/
  descriptor_log_ m = None /\ descriptor_file_ m = None /\ 0 < n < 2 ^ 64 /\ vs_manifest_file_number_ (mf_set m) = n /\
  es = [snapshot_edit (set_compact_pointer (new_pointers e (compact_pointer_ (mf_set m))) (mf_set m)) base] /\ Forall (fun e => record_ok (record_of e)) es.

Lemma wp_LogAndApply_disk others m c base holders holders' edit n es : can_apply m c base holders edit ->
  (forall v s, made (mf_set m) s c base holders (completed (mf_set m) edit) v -> allowed s (others s) c v holders') ->
  base_edits m base edit n es -> record_ok (record_of (completed (mf_set m) edit)) ->
  wp (LogAndApply dbname others edit) (fun r m' => fst r = OK /\ attached m' n (es ++ [completed (mf_set m) edit])) (fun _ => False) m.
Proof.
  intros [Hr Hd He Hroom Hlog _ _] Hothers Hbase Hrec. set (e := completed (mf_set m) edit) in *. assert (Hsame : same_changes edit e) by (destruct (completed_same (mf_set m) edit) as (C1 & C2 & C3); done).
  pose proof (same_edits_fit base edit e Hsame He) as Hfit. assert (Hkeys : keys_set e) by (apply fit_keys_set; by apply (Forall_inv (ef_ok _ _ Hfit))). assert (Hroom' : room_for (mf_set m) base holders [e]) by (unfold room_for in *; cbn [map concat] in *; by rewrite <- (proj2 (proj2 Hsame))).
  unfold LogAndApply. apply wp_bind. unfold on_set at 1. apply wp_zoom, wp_complete_edit; [done|]. fold e. assert (Hm0 : set_vset (mf_set m) m = m) by (by destruct m). rewrite Hm0.
  apply wp_bind, (wp_built m c base holders e); [done..|]. intros v w m1 [B1 (B2 & B3 & B4) B5 (k & B6) [B7 B8] (B9 & B10 & B11 & B12) B13]. apply wp_bind.
  apply (wp_mono _ (fun r m2 => fst (fst r) = e /\ snd (fst r) = OK /\ mf_set m2 = mf_set m1 /\ exists f, logging m2 n es f /\ (snd r = [] /\ current_is (mf_env m2) n (file_of f) \/ snd r = DescriptorFileName dbname n)) _ (fun _ => False)); [| |done].
  { assert (Hw : wp (open_descriptor dbname e) (fun r m2 => fst (fst r) = e) (fun _ => False) m1).
    { unfold descriptor_ok in Hd. destruct Hbase as [(f & Hl & _)|(N1 & N2 & N3 & N4 & N5 & N6)].
      - unfold open_descriptor. apply wp_bind, wp_get. destruct (lg_log _ _ _ _ Hl) as (log & bl & G1 & _). rewrite B4, G1. by apply wp_ret.
      - eapply wp_mono; [apply (wp_open_descriptor dbname m1 c base k e)|by intros r m2 (O1 & _)|done]; [unfold descriptor_ok; rewrite B3, B4, N1, N2, B11; lia|done|done|apply (vg_files base), (rd_good _ _ _ _ Hr)| |rewrite B12; apply completed_next].
        rewrite N5 in N6. apply Forall_cons_1 in N6 as [[_ N6] _]. unfold snapshot_edit, snapshot_pointers in *. cbn [compact_pointer_ set_compact_pointer] in N6. rewrite B13. unfold new_pointers in *. by rewrite <- (proj1 Hsame). }
    refine (wp_and _ _ _ _ (fun _ => False) _ _ Hw _ (fun r m2 R1 R2 => conj R1 R2)).
    destruct Hbase as [(f & Hl & Hc)|(N1 & N2 & N3 & N4 & -> & N6)].
    - unfold open_descriptor. apply wp_bind, wp_get. destruct (lg_log _ _ _ _ Hl) as (log & bl & G1 & _). rewrite B4, G1. apply wp_ret. split; [done|]. split; [done|]. exists f. cbn [snd]. rewrite B2. split; [|by left].
      destruct Hl as [L1 L2 L3]. split; rewrite ?B2, ?B3, ?B4, ?B11; done.
    - assert (Es : snapshot_edit (mf_set m1) base = snapshot_edit (set_compact_pointer (new_pointers edit (compact_pointer_ (mf_set m))) (mf_set m)) base) by (unfold snapshot_edit, snapshot_pointers; cbn; rewrite B13; unfold new_pointers; by rewrite (proj1 Hsame)).
      rewrite <- Es in *. apply Forall_cons_1 in N6 as [N6 _]. eapply wp_mono; [apply (wp_open_ok m1 c base k n e); [congruence|congruence|done|done|apply (vg_files base), (rd_good _ _ _ _ Hr)|done|congruence|done]| |done].
      intros r m2 (O1 & O2 & O3 & f & O4). split; [done|]. split; [done|]. exists f. split; [done|]. by right. }
  intros [[e1 s1] name] m2 (O5 & O6 & O2 & f & O3 & O4). cbn [fst snd] in O4, O5, O6. rewrite O5, O6. apply wp_bind. eapply wp_mono; [apply (wp_write_ok m2 n es f e name Hkeys O3 Hrec O4)| |done].
  intros st m3 (-> & W1 & W2). apply wp_bind. unfold on_set at 1. apply wp_zoom, wp_modify. rewrite W1, O2. set (m4 := set_vset (others (mf_set m1)) m3). apply wp_bind.
  destruct (Hothers v (mf_set m1) B1) as [L1 L2 [L3 L4] L5 L6 L10 L7 L8 L9].
  assert (Hcell : exists k, h_versions (vs_heap (others (mf_set m1))) !! c = Some (base, k)).
  { destruct (mo_holders _ _ _ L6 c (list_elem_of_here _ _)) as [[x j] Hx]. destruct (L8 _ _ Hx) as [j' Hj]. rewrite B6 in Hj. injection Hj as -> _. by exists j. }
  destruct Hcell as [k2 Hcell]. eapply wp_mono; [apply (wp_install m4 e v w c base k2 holders' name)| |done]; [cbn; congruence|exact L6|cbn; by rewrite L7|exact Hcell|cbn; rewrite L5, B13, new_pointers_size; by apply (rd_pointers _ _ _ _ Hr)|apply B8|exact L9|exact L10|].
  intros [] m5 (I1 & I2 & I3 & I4 & I5 & I6 & I7 & I8). apply wp_ret. split; [done|]. apply (attached_same m3 m5); [done| |done..]. rewrite I5. cbn. by rewrite L2, W1, O2.
Qed.

(** ** [Recover] *)

(** An edit that can be written and read back, by the same comparator. *)
Definition writable_edit (e : VersionEdit) : Prop :=
  LdbEditProps.edit_ok e /\ record_ok (record_of e) /\ (has_comparator_ e = true -> comparator_ e = comparator_Name).

(** What is found on disk: CURRENT, and the log of the edits [es] in the manifest that it names. *)
Definition found (e : E) (n : Z) (es : list VersionEdit) : Prop := 0 < n < 2 ^ 64 /\
  exists i bl, file_dir e !! DescriptorFileName dbname n = Some i /\ current_is e n i /\ log_of 0 (map record_of es) (file_data e i) bl /\ size (file_data e i) < 2 ^ 64.

Definition numbers_of (es : list VersionEdit) : Recovered := fold_left (fun r e => recover_numbers e r) es (mk_recovered None None None None).

Lemma numbers_of_snoc es e : numbers_of (es ++ [e]) = recover_numbers e (numbers_of es).
Proof. unfold numbers_of. by rewrite fold_left_app. Qed.

Lemma numbers_once_app l es1 es2 level : numbers_once l (es1 ++ es2) level -> numbers_once l es1 level.
Proof. unfold numbers_once, all_new. rewrite map_app, concat_app, map_app, app_assoc. intros Hn. by apply NoDup_app in Hn as (Hn & _). Qed.

Lemma files_at_concat v level f : f ∈ files_at v level -> f ∈ concat (files_ v).
Proof.
  unfold files_at. destruct (nth_in_or_default (Z.to_nat level) (files_ v) []) as [Hin|Hd]; [|rewrite Hd; intros Hf; by apply not_elem_of_nil in Hf].
  intros Hf. apply list_elem_of_In, in_concat. exists (nth (Z.to_nat level) (files_ v) []). split; [done|]. by apply list_elem_of_In.
Qed.

Lemma saved_levels_elem b base f : f ∈ concat (saved_levels b base) -> (exists level, f ∈ files_at base level) \/ f_address f ∈ builder_addresses b.
Proof.
  intros Hf. apply list_elem_of_In, in_concat in Hf as (l & Hl & Hf). apply in_map_iff in Hl as (level & <- & Hlev). apply list_elem_of_In in Hf. unfold saved, saved_files in Hf. apply list_elem_of_filter in Hf as [_ Hf]. rewrite interleave_perm in Hf.
  apply elem_of_app in Hf as [Hf|Hf]; [left; by exists level|right; by apply (builder_addresses_elem b level)].
Qed.

(** The loop when it has read the edits [es1]; its builder is on the version [base] at [c]. *)
Record recovering (m : Manifest E H) (c : Z) (base : Version) (es1 : list VersionEdit) (b : Builder) : Prop := {
  rv_current : current_ (mf_set m) = Some c;
  rv_cell : exists k, h_versions (vs_heap (mf_set m)) !! c = Some (base, k);
  rv_memory : memory_ok (vs_heap (mf_set m)) [c; c] (builder_addresses b);
  rv_held : all_held (vs_heap (mf_set m)) [c];
  rv_builder : base_ b = c /\ built b es1 (vs_heap (mf_set m)) /\ size (builder_addresses b) = size (concat (map new_files_ es1));
  rv_pointers : size (compact_pointer_ (mf_set m)) = kNumLevels;
  rv_descriptor : descriptor_file_ m = None /\ descriptor_log_ m = None
}.

Lemma recovering_apply m c base es1 b e : recovering m c base es1 b -> edit_ok e -> Forall edit_ok es1 -> edits_once base (es1 ++ [e]) -> size (uses (h_versions (vs_heap (mf_set m)))) + size (concat (map new_files_ (es1 ++ [e]))) < 2 ^ 31 - 1 ->
  wp (on_set (Apply e b)) (fun b' m' => recovering m' c base (es1 ++ [e]) b' /\ mf_env m' = mf_env m /\ uses (h_versions (vs_heap (mf_set m'))) = uses (h_versions (vs_heap (mf_set m)))) (fun _ => False) m.
Proof.
  intros [R1 [k R2] R3 R4 (R5 & R6 & R7) R8 R9] He Hes Honce Hsz. unfold on_set. apply wp_zoom. eapply wp_mono; [apply (wp_Apply base es1 e b); [done..|exact (mo_fresh _ _ _ R3)|done]| |done].
  intros b' s' (h & -> & Hx & Hf & Hb & [Ho Hs] & Hbuilt). rewrite map_app, concat_app, size_app in Hsz. cbn [map concat] in Hsz. rewrite app_nil_r in Hsz.
  assert (Hm : memory_ok h [c; c] (builder_addresses b' ++ [])) by (apply (memory_ok_applied b b' (vs_heap (mf_set m))); [by rewrite app_nil_r|done..|rewrite app_nil_r, size_app; lia]). rewrite app_nil_r in Hm.
  pose proof (ex_versions _ _ Hx) as Hv. split; [|split; [done|cbn; by rewrite Hv]]. split; cbn; [done|rewrite Hv; by exists k|done|unfold all_held; by rewrite Hv| |by rewrite new_pointers_size|done].
  split; [congruence|]. split; [done|]. rewrite map_app, concat_app, size_app. cbn [map concat]. rewrite app_nil_r. lia.
Qed.

Lemma recover_step_ok m c base es1 b r e bytes bl bl' rest pos : recovering m c base es1 b -> writable_edit e -> edit_ok e -> Forall edit_ok es1 -> edits_once base (es1 ++ [e]) ->
  size (uses (h_versions (vs_heap (mf_set m)))) + size (concat (map new_files_ (es1 ++ [e]))) < 2 ^ 31 - 1 -> reading_at r (mf_env m) pos bl (bytes ++ rest) -> logged bl true (record_of e) bytes bl' ->
  wp (recover_step (r, b, numbers_of es1, OK)) (fun x m' => exists r' b', x = inl (r', b', numbers_of (es1 ++ [e]), OK) /\ file_ r' = file_ r /\ recovering m' c base (es1 ++ [e]) b' /\
    reading_at r' (mf_env m') (pos + size bytes) bl' rest /\ same_files file_dir file_data (mf_env m) (mf_env m') /\ uses (h_versions (vs_heap (mf_set m'))) = uses (h_versions (vs_heap (mf_set m)))) (fun _ => False) m.
Proof.
  intros Hrv (Hw1 & Hw2 & Hw3) He Hes Honce Hsz Hread Hlog. destruct (log_ReadRecord_ok (record_of e) r (mf_env m) pos bl bytes bl' rest Hlog Hread Hw2) as (r' & e1 & Er & Hf & Hread' & Hrep & Hsame).
  unfold recover_step. apply wp_bind. unfold on_env. apply wp_zoom. eapply wp_of_eq; [exact Er|]. assert (Hst : reported (List.length (reports r)) (reports r') OK = OK) by (unfold reported; rewrite Hrep, Nat.sub_diag; done).
  cbv beta iota zeta. rewrite Hst. cbn [ok OK]. rewrite (edit_decode_encode e new_VersionEdit (record_of e) Hw1 (edit_EncodeTo_record e (fit_keys_set e He)) (proj2 Hw2)). assert (Ee : mk_edit (comparator_ e) (log_number_ e) (prev_log_number_ e) (next_file_number_ e) (last_sequence_ e) (has_comparator_ e) (has_log_number_ e)
    (has_prev_log_number_ e) (has_next_file_number_ e) (has_last_sequence_ e) (compact_pointers_ new_VersionEdit ++ compact_pointers_ e) (deleted_files_ e) (new_files_ e) = e) by (by destruct e). rewrite Ee.
  apply wp_bind, wp_ret. cbn [ok OK]. assert (Hcmp : has_comparator_ e && negb (bool_decide (comparator_ e = comparator_Name)) = false) by (destruct (has_comparator_ e); [rewrite (Hw3 eq_refl), bool_decide_eq_true_2 by done; done|done]).
  rewrite Hcmp. cbn [ok OK]. apply wp_bind. eapply wp_mono; [apply (recovering_apply (set_env e1 m) c base es1 b e); [|done..]| |done].
  - destruct Hrv as [R1 R2 R3 R4 R5 R6 R7]. by split.
  - intros b' m' (G1 & G2 & G3). apply wp_ret. exists r', b'. split; [by rewrite numbers_of_snoc|]. split; [done|]. split; [done|]. rewrite G2. by split.
Qed.

Lemma recover_loop_ok es2 : forall m c base es1 b r bytes bl bl' pos, recovering m c base es1 b -> Forall writable_edit es2 -> Forall edit_ok (es1 ++ es2) -> edits_once base (es1 ++ es2) ->
  size (uses (h_versions (vs_heap (mf_set m)))) + size (concat (map new_files_ (es1 ++ es2))) < 2 ^ 31 - 1 -> reading_at r (mf_env m) pos bl bytes -> log_of bl (map record_of es2) bytes bl' ->
  wp (iterate (S (List.length es2)) recover_step (r, b, numbers_of es1, OK)) (fun x m' => exists b', x = (b', numbers_of (es1 ++ es2), OK) /\ recovering m' c base (es1 ++ es2) b' /\
    same_files file_dir file_data (mf_env m) (mf_env m') /\ uses (h_versions (vs_heap (mf_set m'))) = uses (h_versions (vs_heap (mf_set m)))) (fun _ => False) m.
Proof.
  induction es2 as [|e es2 IH]; intros m c base es1 b r bytes bl bl' pos Hrv Hw Hes Honce Hsz Hread Hlog; cbn [map] in Hlog.
  - inversion Hlog; subst. destruct (log_ReadRecord_end r (mf_env m) pos bl' Hread) as (r' & e1 & Er & Hrep & Hsame). cbn [iterate List.length]. apply wp_bind. unfold recover_step. apply wp_bind. unfold on_env. apply wp_zoom. eapply wp_of_eq; [exact Er|].
    assert (Hst : reported (List.length (reports r)) (reports r') OK = OK) by (unfold reported; rewrite Hrep, Nat.sub_diag; done). cbv beta iota zeta. rewrite Hst. apply wp_ret, wp_ret. rewrite app_nil_r in *. exists b. split; [done|]. split; [|done]. destruct Hrv as [R1 R2 R3 R4 R5 R6 R7]. by split.
  - inversion Hlog as [|? ? ? b1 bl1 b2 ? H1 H2]; subst. apply Forall_cons_1 in Hw as [Hw1 Hw2]. pose proof Hes as [Hes1 Hes2]%Forall_app. apply Forall_cons_1 in Hes2 as [He Hes2]. change (S (List.length (e :: es2))) with (S (S (List.length es2))).
    rewrite cons_middle, app_assoc in Hsz, Honce. cbn [iterate]. apply wp_bind. eapply wp_mono; [apply (recover_step_ok m c base es1 b r e b1 bl bl1 b2 pos); [done|done|done|done| | |done|done]| |done].
    + intros level Hl. eapply numbers_once_app. by apply Honce.
    + rewrite (map_app _ (es1 ++ [e]) es2), concat_app, size_app in Hsz. pose proof (size_nonneg (concat (map new_files_ es2))). lia.
    + intros x m1 (r1 & b' & -> & Hf1 & Hrv1 & Hread1 & Hsame1 & Hu1). eapply wp_mono; [apply (IH m1 c base (es1 ++ [e]) b' r1 b2 bl1 bl' (pos + size b1)); [done|done|by rewrite <- app_assoc|done|by rewrite Hu1|done|done]| |done].
      intros x m2 (b2' & -> & Hrv2 & Hsame2 & Hu2). exists b2'. rewrite <- app_assoc in Hrv2. rewrite <- app_assoc. split; [done|]. split; [done|]. split; [|congruence]. destruct Hsame1, Hsame2. split; [congruence|intros i; congruence].
Qed.

(** The set behind [install_recovered]; the builder still holds the version at [c]. *)
Record recovered_set (s : VersionSet) (c v : Z) (w base : Version) (es : list VersionEdit) (b : Builder) (next_file last_sequence log_number prev_log_number : Z) : Prop := {
  rs_current : current_ s = Some v;
  rs_cell : h_versions (vs_heap s) !! v = Some (w, 1) /\ v <> c;
  rs_version : edited base es w;
  rs_memory : memory_ok (vs_heap s) [v; c] (builder_addresses b);
  rs_held : all_held (vs_heap s) [v; c];
  rs_pointers : size (compact_pointer_ s) = kNumLevels;
  rs_numbers : vs_last_sequence_ s = last_sequence /\ vs_log_number_ s = log_number /\ vs_prev_log_number_ s = prev_log_number /\ vs_next_file_number_ s = u64 (next_file + 1)
}.

Lemma wp_install_recovered m c base es b nf ls ln pn : recovering m c base es b -> version_good base -> edits_fit base es ->
  size (uses (h_versions (vs_heap (mf_set m)))) + size (version_addresses base) + 2 * size (concat (map new_files_ es)) < 2 ^ 31 - 1 ->
  wp (install_recovered b nf ls ln pn) (fun _ s' => exists v w, recovered_set s' c v w base es b nf ls ln pn) (fun _ => False) (mf_set m).
Proof.
  intros [R1 (k & R2) R3 R4 (R5 & R6 & R7) R8 _] Hgood Hfit Hsz. set (s := mf_set m) in *. unfold install_recovered.
  assert (Hne : c <> h_fresh (vs_heap s)). { intros ->. destruct (mo_fresh _ _ _ R3 (h_fresh (vs_heap s)) ltac:(lia)) as (_ & _ & F). congruence. }
  apply wp_bind. unfold on_heap. apply wp_zoom, (wp_alloc_version _ _ _ _ _ R3). intros h1 Hm1 Hv1 Hf1 Hr1. set (v := h_fresh (vs_heap s)) in *.
  assert (Hc1 : h_versions h1 !! c = Some (base, k)) by (by rewrite Hv1, lookup_insert_ne). assert (Hw1 : h_versions h1 !! v = Some (new_Version, 0)) by (by rewrite Hv1, lookup_insert_eq).
  assert (Hb1 : built b es h1). { destruct R6 as [G1 G2 G3]. split; [done|done|]. intros level Hl. destruct (G3 level Hl) as (Ho & ptrs & P1 & P2 & P3). split; [done|]. exists ptrs. split; [done|]. split; [done|]. rewrite Hr1, Hf1. eapply Forall_impl; [exact P3|]. intros f [P4 P5]. split; [lia|done]. }
  assert (Hu : size (uses (h_versions h1)) = size (uses (h_versions (vs_heap s)))) by (unfold size; rewrite Hv1, uses_insert by (apply (mo_fresh _ _ _ R3); unfold v; lia); done).
  assert (Huse : forall level f, f ∈ files_at base level -> f_address f ∈ uses (h_versions h1)).
  { intros level f Hf. apply (uses_elem _ c (base, k)); [done|]. cbn [fst]. by apply (files_at_concat base level). }
  assert (Hal : forall level f, f ∈ files_at base level -> allocated h1 f).
  { intros level f Hf. apply Huse in Hf. eexists. apply (counted_some _ _ _ (mo_files _ _ _ Hm1)). apply elem_of_app. by right. }
  pose proof (built_ok b base es h1 Hb1 Hgood Hfit Hal) as Hbok. apply wp_bind, wp_zoom. cbn [vs_heap set_heap].
  eapply wp_mono; [apply (wp_SaveTo b base k v new_Version 0 h1 Hbok); [by rewrite R5|done]| |done]. intros [] h2 ->. set (w := with_files new_Version (saved_levels b base)).
  assert (Hm2 : memory_ok (set_h_versions (<[v := (w, 0)]> (h_versions h1)) (bump h1 (concat (saved_levels b base)))) [c; c] (builder_addresses b)).
  { apply (memory_ok_saved v new_Version 0 (saved_levels b base) w h1 _ _ Hm1 Hw1); [done| | |done].
    - intros f [Hf|Hf]%saved_levels_elem; apply elem_of_app; [right; destruct Hf as (level & Hf); by apply (Huse level)|by left].
    - rewrite !size_app. pose proof (saved_size b base (ho_size _ _ _ _ Hb1) (vg_levels _ Hgood)). lia. }
  apply wp_bind, wp_zoom. cbn [vs_heap set_heap]. set (h2 := set_h_versions _ _) in *. assert (Hw2 : h_versions h2 !! v = Some (w, 0)) by (cbn; apply lookup_insert_eq).
  unfold finalize. apply wp_bind, (wp_version_cell v _ _ _ _ Hw2), wp_modify. cbn [fst snd]. set (h3 := set_h_versions (<[v := (Finalize w, 0)]> (h_versions h2)) h2).
  assert (Hm3 : memory_ok h3 [c; c] (builder_addresses b)) by (by apply (memory_ok_cell v w)). apply wp_bind.
  apply (wp_AppendVersion v (Finalize w) _ [c] (builder_addresses b)); cbn [vs_heap set_heap current_]; [by rewrite R1|cbn; apply lookup_insert_eq|done| |].
  - rewrite R1. cbn [option_list app]. intros u [cell Hu1]. cbn in Hu1. destruct (decide (u = v)) as [->|Hne2]; [by left|right]. rewrite !lookup_insert_ne, Hv1, lookup_insert_ne in Hu1 by done. apply elem_of_cons. right. apply R4. by eexists.
  - intros h4 Hall Hm4 Hv4 _ _. apply wp_modify. exists v, (Finalize w). split; cbn; try done.
    apply finalize_edited. split; [by apply (saved_good b base es h1)|]. intros level Hl. by apply (saved_levels_info b base es h1).
Qed.

Lemma log_count bl rs bytes bl' : log_of bl rs bytes bl' -> Z.of_nat (List.length rs) <= size bytes.
Proof.
  induction 1 as [|bl r rs b1 bl1 b2 bl2 Hr _ IH]; [done|]. rewrite size_app. cbn [List.length].
  assert (7 <= size b1); [|lia]. destruct Hr; rewrite !size_app, size_record; [pose proof (size_nonneg (pad bl)); pose proof (size_nonneg data); lia|]. pose proof (size_nonneg (pad bl)). pose proof (size_nonneg (take (Z.to_nat (room bl - 7)) data)). pose proof (size_nonneg bytes). lia.
Qed.

Lemma wp_MarkFileNumberUsed n s (Q : unit -> VersionSet -> Prop) F : (forall k, Q tt (set_next_file_number k s)) -> wp (MarkFileNumberUsed n) Q F s.
Proof.
  intros HQ. unfold MarkFileNumberUsed. apply wp_bind, wp_get. destruct (_ <=? _); [by apply wp_modify|]. apply wp_ret. specialize (HQ (vs_next_file_number_ s)). by destruct s.
Qed.

Lemma ReuseManifest_ok (options : Options) m n dscname i : file_dir (mf_env m) !! dscname = Some i -> descriptor_file_ m = None -> descriptor_log_ m = None ->
  wp (ReuseManifest options dscname (manifest_name n)) (fun _ m' => exists k, mf_set m' = set_manifest_file_number k (mf_set m)) (fun _ => False) m.
Proof.
  intros Hd Hf Hl. assert (Hid : exists k, mf_set m = set_manifest_file_number k (mf_set m)) by (exists (vs_manifest_file_number_ (mf_set m)); by destruct (mf_set m)).
  unfold ReuseManifest. destruct (negb _); [by apply wp_ret|]. destruct (ParseFileName (manifest_name n)) as [[mn t]|]; [|by apply wp_ret]. destruct t; try (by apply wp_ret).
  apply wp_bind, wp_get. rewrite (L_size _ _ _ Hd). cbn [ok OK negb orb]. destruct (_ <=? _); [by apply wp_ret|]. rewrite Hf, Hl. apply wp_bind, wp_asserted; [done|]. apply wp_bind, wp_asserted; [done|].
  destruct (L_append _ _ _ Hd) as (h & e' & Ea & _ & _). apply wp_bind. unfold on_env. apply wp_zoom. eapply wp_of_eq; [unfold call; rewrite Ea; reflexivity|]. cbn [ok OK negb]. apply wp_bind, wp_or_stuck. exists h. split; [done|].
  apply wp_bind, wp_modify, wp_bind. unfold on_set. apply wp_zoom, wp_modify, wp_ret. by exists mn.
Qed.

(** What [Recover] leaves. *)
Definition recovered (m' : Manifest E H) (base : Version) (es : list VersionEdit) (nf ls ln pn : Z) : Prop := exists v w, ready (mf_set m') v w [] /\ edited base es w /\
  vs_last_sequence_ (mf_set m') = ls /\ vs_log_number_ (mf_set m') = ln /\ vs_prev_log_number_ (mf_set m') = pn /\ vs_next_file_number_ (mf_set m') = u64 (nf + 1).

Lemma recover_version_ok (options : Options) m c base es b n i nf ls ln pn : recovering m c base es b -> version_good base -> edits_fit base es ->
  size (uses (h_versions (vs_heap (mf_set m)))) + size (version_addresses base) + 2 * size (concat (map new_files_ es)) < 2 ^ 31 - 1 ->
  numbers_of es = mk_recovered (Some ln) (Some pn) (Some nf) (Some ls) -> file_dir (mf_env m) !! DescriptorFileName dbname n = Some i ->
  wp (r <- recover_version options b (numbers_of es) (DescriptorFileName dbname n) (manifest_name n) OK ;; on_set (on_heap (delete_Builder b)) ;; ret r)
    (fun r m' => fst r = OK /\ recovered m' base es nf ls ln pn) (fun _ => False) m.
Proof.
  intros Hrv Hgood Hfit Hsz Hn Hd. rewrite Hn. pose proof (rv_builder _ _ _ _ _ Hrv) as [Hb _]. unfold recover_version. cbv zeta. cbn [or_zero r_prev_log_number r_log_number r_next_file r_last_sequence ok OK]. apply wp_bind, wp_bind, wp_bind. unfold on_set at 1. apply wp_zoom, wp_bind, wp_MarkFileNumberUsed. intros k1. apply wp_MarkFileNumberUsed. intros k2.
  apply wp_ret. change (check_numbers _ OK) with OK. cbn [ok OK]. apply wp_bind. unfold on_set at 1. apply wp_zoom.
  assert (Hrv2 : recovering (set_vset (set_next_file_number k2 (set_next_file_number k1 (mf_set m))) m) c base es b) by (destruct Hrv as [R1 R2 R3 R4 R5 R6 R7]; by split).
  eapply wp_mono; [apply (wp_install_recovered _ c base es b nf ls ln pn Hrv2 Hgood Hfit Hsz)| |done]. intros [] s1 (v & w & [S1 [S2 Hvc] S3 S4 S5 S6 (S7 & S8 & S9 & S10)]).
  apply wp_bind. destruct (rv_descriptor _ _ _ _ _ Hrv) as [D1 D2]. eapply wp_mono; [apply (ReuseManifest_ok options _ n _ i); [exact Hd|exact D1|exact D2]| |done]. intros reused m2 (k & Em). cbn [mf_set set_vset] in Em.
  apply wp_ret, wp_bind. unfold on_set, on_heap. apply wp_zoom, wp_zoom. rewrite Em. cbn [vs_heap set_manifest_file_number].
  apply (wp_delete_Builder b _ [v] []); [apply (held_perm _ [v; c] _ (builder_addresses b)); [rewrite Hb; apply Permutation_swap|by rewrite app_nil_r|done]|]. rewrite Hb. intros h' M1 M2 M3 M4 M5. apply wp_ret. split; [done|]. exists v, w. cbn. split; [|done].
  split; cbn; [done|exists 1; by rewrite M4|done| |apply S3|done].
  intros u [x Hu]. destruct (M2 _ _ Hu) as [j Hj]. specialize (S5 u (mk_is_Some _ _ Hj)). apply elem_of_cons in S5 as [->|S5]; [apply list_elem_of_here|]. apply list_elem_of_singleton in S5 as ->.
  rewrite M5 in Hu; [done|]. intros Hin. apply list_elem_of_singleton in Hin. congruence.
Qed.

Lemma new_Builder_recovering m c base : ready (mf_set m) c base [] -> descriptor_file_ m = None -> descriptor_log_ m = None ->
  wp (on_set (on_heap (new_Builder c))) (fun b m' => recovering m' c base [] b /\ mf_env m' = mf_env m /\ uses (h_versions (vs_heap (mf_set m'))) ≡ₚ uses (h_versions (vs_heap (mf_set m)))) (fun _ => False) m.
Proof.
  intros [R1 [k R2] R3 R4 R5 R6] D1 D2. unfold on_set, on_heap. apply wp_zoom, wp_zoom. apply (wp_new_Builder c _ [c] []); [done|apply list_elem_of_here|done|]. intros h' H1 H2 H3 H4 H5. split; [|done].
  split; cbn; [done| |done| |split; [done|split; [apply new_holds|done]]|done|done].
  - destruct (mo_holders _ _ _ H1 c (list_elem_of_here _ _)) as [[x j] Hx]. destruct (H2 _ _ Hx) as [j' Hj]. rewrite R2 in Hj. injection Hj as -> _. by exists j.
  - intros u [x Hu]. destruct (H2 _ _ Hu) as [j Hj]. apply R4. by eexists.
Qed.

Lemma name_size n : size (manifest_name n ++ [10]) < 2 ^ 64.
Proof.
  unfold manifest_name, decimal6. rewrite !size_app. change (size (literal "MANIFEST-")) with 9. change (size [10]) with 1. pose proof (decimal_length n). unfold size. rewrite repeat_length. lia.
Qed.

Lemma wp_Recover (options : Options) m c base es n nf ls ln pn : ready (mf_set m) c base [] -> descriptor_file_ m = None -> descriptor_log_ m = None -> found (mf_env m) n es ->
  Forall writable_edit es -> edits_fit base es -> room_for (mf_set m) base [] es -> numbers_of es = mk_recovered (Some ln) (Some pn) (Some nf) (Some ls) ->
  wp (Recover dbname options) (fun r m' => fst r = OK /\ recovered m' base es nf ls ln pn) (fun _ => False) m.
Proof.
  intros Hr D1 D2 (Hn & i & bl & F1 & (ic & F2 & F3 & F4) & F5 & F6) Hw Hfit [Hroom _] Hnum. unfold Recover. assert (Hsz : size (file_data (mf_env m) ic) < 2 ^ 64).
  { rewrite F4. apply name_size. }
  destruct (ReadFileToString_ok _ _ _ F2 Hsz) as (e1 & E1 & [S1 S2]). apply wp_bind. unfold on_env at 1. apply wp_zoom. eapply wp_of_eq; [exact E1|]. cbn [ok OK negb]. rewrite F4, size_app. change (size [10]) with 1.
  pose proof (size_nonneg (manifest_name n)). replace (size (manifest_name n) + 1 - 1) with (size (manifest_name n)) by lia. rewrite take_size_app. replace (nth (Z.to_nat (size (manifest_name n))) (manifest_name n ++ [10]) 0) with 10 by (unfold size; rewrite Nat2Z.id, app_nth2, Nat.sub_diag by lia; done).
  replace (size (manifest_name n) + 1 =? 0) with false by (symmetry; apply Z.eqb_neq; lia). cbn [orb negb Z.eqb Pos.eqb]. rewrite <- DescriptorFileName_name. rewrite <- S1 in F1. destruct (L_open _ _ _ F1) as (g & e2 & E2 & [S3 S4] & Hrem).
  apply wp_bind. unfold on_env at 1. apply wp_zoom. cbn [mf_env set_env]. eapply wp_of_eq; [unfold call; rewrite E2; reflexivity|]. cbn [ok OK negb]. apply wp_bind, wp_or_stuck. exists g. split; [done|].
  apply wp_bind. unfold on_set at 1. apply wp_zoom, wp_bind, wp_get, wp_or_stuck. exists c. split; [exact (rd_current _ _ _ _ Hr)|]. apply wp_bind. set (m2 := set_vset _ _). eapply wp_mono; [apply (new_Builder_recovering m2 c base); [exact Hr|done|done]| |done].
  intros b m3 (Hrv & Em3 & Hu). assert (Hus : size (uses (h_versions (vs_heap (mf_set m3)))) = size (uses (h_versions (vs_heap (mf_set m))))) by (unfold size; by rewrite Hu).
  pose proof (size_nonneg (version_addresses base)). pose proof (size_nonneg (concat (map new_files_ es))). rewrite S2 in Hrem.
  assert (Hread : reading_at (new_Reader g true true 0) (mf_env m3) 0 0 (file_data (mf_env m) i)). { rewrite Em3. unfold reading_at. cbn [file_ new_Reader]. cbn [mf_env set_vset set_env m2]. rewrite <- Hrem. apply (reading_new (RF := sequential g) (L := L_sequential g)). by rewrite Hrem. }
  apply wp_bind. destruct (wp_Ret _ _ _ (recover_loop_ok es m3 c base [] b (new_Reader g true true 0) _ 0 bl 0 Hrv Hw (ef_ok _ _ Hfit) (ef_once _ _ Hfit) ltac:(cbn [app]; lia) Hread F5)) as (x & m4 & Eloop & b' & -> & Hrv4 & [S5 S6] & Hu4).
  cbn [app] in *. pose proof (log_count _ _ _ _ F5) as Hcount. rewrite length_map in Hcount. eapply wp_of_eq; [apply (loop_iterate _ _ _ _ _ _ Eloop); [done|lia]|]. apply wp_bind. unfold on_env. apply wp_zoom, wp_modify.
  apply (recover_version_ok options _ c base es b' n i nf ls ln pn); [destruct Hrv4 as [R1 R2 R3 R4 R5 R6 R7]; by split|exact (rd_good _ _ _ _ Hr)|done|cbn; rewrite Hu4; lia|done|].
  cbn. rewrite (proj1 (L_close_sequential g (mf_env m4))), S5, Em3. cbn. by rewrite S3.
Qed.

(** ** The files of a snapshot *)

Lemma level_after_perm l1 l2 e level : l1 ≡ₚ l2 -> level_after l1 [e] level ≡ₚ level_after l2 [e] level.
Proof. intros Hp. unfold level_after. cbn [fold_left]. by rewrite Hp. Qed.

Lemma add_files_new lev fs e level : new_at (fold_left (fun e f => AddFile lev (f_number f) (f_size f) (f_smallest f) (f_largest f) e) fs e) level =
  new_at e level ++ (if decide (level = lev) then map (fun f => new_FileMetaData (f_number f) (f_size f) (f_smallest f) (f_largest f)) fs else []).
Proof.
  revert e. induction fs as [|f fs IH]; intros e; cbn [fold_left map].
  - destruct (decide _); by rewrite app_nil_r.
  - rewrite IH. change (new_at (AddFile lev (f_number f) (f_size f) (f_smallest f) (f_largest f) e) level) with (at_level (new_files_ e ++ [(lev, new_FileMetaData (f_number f) (f_size f) (f_smallest f) (f_largest f))]) level).
    rewrite at_level_snoc. cbn [fst snd]. destruct (decide _); [by rewrite <- app_assoc|done].
Qed.

Lemma snapshot_new v levels : forall e level, NoDup levels -> new_at (fold_left (fun edit level => fold_left (fun edit f => AddFile level (f_number f) (f_size f) (f_smallest f) (f_largest f) edit) (files_at v level) edit) levels e) level =
  new_at e level ++ (if decide (level ∈ levels) then map (fun f => new_FileMetaData (f_number f) (f_size f) (f_smallest f) (f_largest f)) (files_at v level) else []).
Proof.
  induction levels as [|l levels IH]; intros e level Hn; cbn [fold_left].
  - rewrite decide_False by apply not_elem_of_nil. by rewrite app_nil_r.
  - apply NoDup_cons in Hn as [Hl Hn]. rewrite (IH _ _ Hn), add_files_new. destruct (decide (level = l)) as [->|Hne].
    + rewrite (decide_False (P := l ∈ levels)) by done. rewrite (decide_True (P := l ∈ l :: levels)) by apply list_elem_of_here. by rewrite app_nil_r.
    + rewrite app_nil_r. f_equal. destruct (decide (level ∈ levels)) as [Hin|Hin]; [rewrite decide_True by (by apply list_elem_of_further)|rewrite decide_False by (rewrite elem_of_cons; tauto)]; done.
Qed.

Lemma snapshot_pointers_new s e : new_files_ (snapshot_pointers s e) = new_files_ e.
Proof. unfold snapshot_pointers. revert e. induction all_levels as [|l ls IH]; intros e; cbn [fold_left]; [done|]. rewrite IH. by destruct (negb _). Qed.

(** The edit of a snapshot adds just the files of the version. *)
Lemma snapshot_level s v level : level_in level -> level_after [] [snapshot_edit s v] level = map f_info (files_at v level).
Proof.
  intros Hl. unfold level_after. cbn [fold_left]. rewrite filter_nil. cbn [app]. unfold snapshot_edit, snapshot_files. rewrite snapshot_new.
  - rewrite decide_True. 2: { unfold all_levels. apply list_elem_of_In, in_map_iff. exists (Z.to_nat level). unfold level_in in Hl. split; [lia|]. apply in_seq. lia. }
    unfold new_at. rewrite snapshot_pointers_new. cbn [new_files_ SetComparatorName new_VersionEdit]. rewrite filter_nil. cbn [map app]. rewrite map_map. done.
  - unfold all_levels. apply NoDup_fmap_2; [intros x y; lia|apply NoDup_seq].
Qed.

(** ** What is on disk *)

(** The version with the files [base] can be had from the disk: CURRENT names the manifest [n], whose edits [es] give it. *)
Definition persisted (m : Manifest E H) (base : Version) (n : Z) (es : list VersionEdit) : Prop :=
  attached m n es /\ forall level, level_in level -> level_after [] es level ≡ₚ map f_info (files_at base level).

(** There is no descriptor yet; the next [LogAndApply] opens the one with the number [n] and starts it with the edit [e]. *)
Record to_be_opened (m : Manifest E H) (edit : VersionEdit) (base : Version) (n : Z) (e : VersionEdit) : Prop := {
  to_none : descriptor_log_ m = None /\ descriptor_file_ m = None;
  to_number : 0 < n < 2 ^ 64 /\ vs_manifest_file_number_ (mf_set m) = n;
  to_edit : e = snapshot_edit (set_compact_pointer (new_pointers edit (compact_pointer_ (mf_set m))) (mf_set m)) base;
  to_record : record_ok (record_of e)
}.

Lemma numbers_completed s edit es : let e := completed s edit in numbers_of (es ++ [e]) = mk_recovered (Some (log_number_ e)) (Some (prev_log_number_ e)) (Some (vs_next_file_number_ s)) (Some (vs_last_sequence_ s)).
Proof.
  cbv zeta. rewrite numbers_of_snoc. unfold recover_numbers, completed. destruct (has_log_number_ edit) eqn:E1; cbn; rewrite ?E1; destruct (has_prev_log_number_ edit) eqn:E2; cbn; rewrite ?E1, ?E2; done.
Qed.

Lemma wp_persisted others m c base holders holders' edit n es : can_apply m c base holders edit ->
  (forall v s, made (mf_set m) s c base holders (completed (mf_set m) edit) v -> allowed s (others s) c v holders') ->
  (persisted m base n es \/ exists e, es = [e] /\ to_be_opened m edit base n e) -> record_ok (record_of (completed (mf_set m) edit)) ->
  wp (LogAndApply dbname others edit) (fun r m' => r = (OK, completed (mf_set m) edit) /\ exists v w, ready (mf_set m') v w holders' /\ edited base [edit] w /\ persisted m' w n (es ++ [completed (mf_set m) edit])) (fun _ => False) m.
Proof.
  intros Hca Hothers Hdisk Hrec. assert (Hbase : base_edits m base edit n es /\ forall level, level_in level -> level_after [] es level ≡ₚ map f_info (files_at base level)).
  { destruct Hdisk as [[Ha Hl]|(e & -> & [[T1 T2] [T3 T4] T5 T6])]; [split; [by left|done]|]. split; [right; rewrite <- T5; repeat (split; [done|]); constructor; [done|constructor]|]. intros level Hl. rewrite T5. by rewrite snapshot_level. }
  destruct Hbase as [Hbase Hlev]. apply (wp_and _ _ _ _ (fun _ => False) _ _ (wp_LogAndApply dbname others m c base holders holders' edit Hca Hothers) (wp_LogAndApply_disk others m c base holders holders' edit n es Hca Hothers Hbase Hrec)).
  intros [st e] m' (R1 & R2 & R3) (R4 & R5). cbn [fst snd] in *. subst st e. unfold applied in R3. cbn [fst ok OK] in R3. destruct R3 as (v & w & S1 & S2 & _). split; [done|]. exists v, w. split; [done|]. split; [done|]. split; [done|].
  intros level Hl. rewrite (proj2 S2 level Hl). rewrite level_after_snoc. change (filter _ (level_after [] es level) ++ _) with (level_after (level_after [] es level) [completed (mf_set m) edit] level).
  rewrite (level_after_perm _ _ _ _ (Hlev level Hl)). destruct (completed_same (mf_set m) edit) as (C1 & C2 & C3). by rewrite (same_level_after _ edit (completed (mf_set m) edit) level).
Qed.
End Disk.

(** C38: the manifest as a round trip. From a state that the disk already gives (or with no descriptor yet, when
    the manifest starts with a snapshot), [LogAndApply] in an environment without I/O errors
    returns OK, and afterwards the disk gives the new current version: CURRENT names the manifest, and its
    edits, made from nothing, are the files of that version. [Recover] by a new set with just those
    files returns OK, with the same files at every level and the numbers that the last edit noted. *)
Theorem manifest_recovered {E H G : Type} {V : Env E H G} {LV : EnvLaws V} {U : Comparator} {LU : ComparatorLaws U} (dbname : list Z)
    (others : VersionSet -> VersionSet) (m : Manifest E H) (c : Z) (base : Version) (holders holders' : list Z) (edit : VersionEdit) (n : Z) (es : list VersionEdit) :
  let e := completed (mf_set m) edit in let all := es ++ [e] in
  can_apply m c base holders edit ->
  (forall v s, made (mf_set m) s c base holders e v -> allowed s (others s) c v holders') ->
  (persisted dbname m base n es \/ exists e0, es = [e0] /\ to_be_opened m edit base n e0) ->
  Forall writable_edit all -> edits_fit new_Version all ->
  exists m' v w, LogAndApply dbname others edit m = (Ret (OK, e), m') /\ ready (mf_set m') v w holders' /\ edited base [edit] w /\ persisted dbname m' w n all /\
    forall options s0 c0, ready s0 c0 new_Version [] -> room_for s0 new_Version [] all -> (forall i, size (file_data (mf_env m') i) < 2 ^ 64) ->
    exists e' m2 v2 w2, Recover dbname options (mk_manifest s0 (mf_env m') None None) = (Ret (OK, e'), m2) /\ ready (mf_set m2) v2 w2 [] /\
      (forall level, level_in level -> map f_info (files_at w2 level) ≡ₚ map f_info (files_at w level)) /\
      vs_log_number_ (mf_set m2) = log_number_ e /\ vs_prev_log_number_ (mf_set m2) = prev_log_number_ e /\
      vs_last_sequence_ (mf_set m2) = vs_last_sequence_ (mf_set m) /\ vs_next_file_number_ (mf_set m2) = u64 (vs_next_file_number_ (mf_set m) + 1).
Proof.
  intros e all Hca Hothers Hdisk Hw Hfit. assert (Hrec : record_ok (record_of e)) by (apply Forall_app in Hw as [_ Hw]; apply Forall_cons_1 in Hw as [(_ & Hw & _) _]; exact Hw).
  destruct (wp_Ret _ _ _ (wp_persisted dbname others m c base holders holders' edit n es Hca Hothers Hdisk Hrec)) as (r & m' & Er & -> & v & w & H1 & H2 & H3).
  exists m', v, w. split; [exact Er|]. split; [exact H1|]. split; [exact H2|]. split; [exact H3|]. intros options s0 c0 Hs0 Hroom Hsz. destruct H3 as [(f & Hlog & Hcur) Hlev]. destruct Hlog as [[Hn _] [_ Hfile] (log & bl & _ & _ & Hl & _)].
  destruct (wp_Ret _ _ _ (wp_Recover dbname options (mk_manifest s0 (mf_env m') None None) c0 new_Version all n (vs_next_file_number_ (mf_set m)) (vs_last_sequence_ (mf_set m)) (log_number_ e) (prev_log_number_ e)
    Hs0 eq_refl eq_refl (conj Hn (ex_intro _ (file_of f) (ex_intro _ bl (conj Hfile (conj Hcur (conj Hl (Hsz _))))))) Hw Hfit Hroom (numbers_completed (mf_set m) edit es))) as ([st e'] & m2 & Er2 & Hst & v2 & w2 & G1 & [_ G2] & G3 & G4 & G5 & G6).
  cbn [fst] in Hst. subst st. exists e', m2, v2, w2. split; [exact Er2|]. split; [exact G1|]. split; [|done]. intros level Hlv. rewrite (G2 level Hlv), <- (Hlev level Hlv).
  assert (Hnil : files_at new_Version level = []) by (unfold files_at, new_Version; cbn [files_]; apply nth_repeat). by rewrite Hnil.
Qed.

(** ** A new database *)

#[local] Existing Instance BytewiseComparator.

(** The set that is to recover it. *)
Definition second_set : VersionSet := snd (new_VersionSet (mk_vset 0 0 0 0 0 None [] empty_heap)).

Lemma second_ready : ready (LU := bytewise_laws) second_set 1 new_Version [].
Proof. destruct first_ready as [R1 R2 R3 R4 R5 R6]. split; [reflexivity|exact R2|exact R3|exact R4|exact R5|reflexivity]. Qed.

Definition first_edits : list VersionEdit := [snapshot_edit first_set new_Version; completed first_set two_files].

Lemma first_edits_writable : Forall writable_edit first_edits.
Proof.
  repeat constructor; try (cbn [comparator_]; vm_compute; congruence).
  all: try (vm_compute; repeat constructor; congruence).
Qed.

Lemma first_edits_fit : edits_fit (LU := bytewise_laws) new_Version first_edits.
Proof.
  destruct two_files_fit as [A B C D]. assert (Hlev : forall level, 0 <= level < kNumLevels -> level = 0 \/ level = 1 \/ level = 2 \/ level = 3 \/ level = 4 \/ level = 5 \/ level = 6) by (intros level Hl; change kNumLevels with 7 in Hl; lia).
  assert (E : forall level, level_in level -> level_after (map f_info (files_at new_Version level)) first_edits level = level_after (map f_info (files_at new_Version level)) [two_files] level).
  { intros level Hl. destruct (Hlev level Hl) as [->|[->|[->|[->|[->|[->| ->]]]]]]; vm_compute; reflexivity. }
  split.
  - apply Forall_cons. split; [by repeat constructor|]. apply Forall_cons. split; [|constructor]. apply Forall_cons_1 in A as [A _]. destruct A as [A1 A2 A3]. by split.
  - intros level Hl. destruct (Hlev level Hl) as [->|[->|[->|[->|[->|[->| ->]]]]]]; apply (bool_decide_unpack _); vm_compute; exact I.
  - intros level Hl. rewrite E by (unfold level_in; lia). by apply C.
  - intros level Hl. rewrite E by done. by apply D.
Qed.

Lemma first_files_small : map_Forall (fun _ d => size d < 2 ^ 64) (me_data (mf_env (snd (LogAndApply (literal "db") (set_last_sequence 5) two_files first_manifest)))).
Proof. apply (bool_decide_unpack _). vm_compute. exact I. Qed.

Lemma first_to_be_opened : to_be_opened first_manifest two_files new_Version 2 (snapshot_edit first_set new_Version).
Proof.
  split; [done|by split|by vm_compute|]. pose proof first_edits_writable as Hw. apply Forall_cons_1 in Hw as [(_ & Hr & _) _]. exact Hr.
Qed.

(** The two files are found again, with the numbers. *)
Lemma manifest_recovered_witness : exists m' v w e' m2 v2 w2,
  LogAndApply (literal "db") (set_last_sequence 5) two_files first_manifest = (Ret (OK, completed first_set two_files), m') /\
  edited (LU := bytewise_laws) new_Version [two_files] w /\ current_ (mf_set m') = Some v /\
  Recover (literal "db") default_Options (mk_manifest second_set (mf_env m') None None) = (Ret (OK, e'), m2) /\ ready (LU := bytewise_laws) (mf_set m2) v2 w2 [] /\
  map f_info (files_at w2 1) ≡ₚ map f_info (files_at w 1) /\ vs_log_number_ (mf_set m2) = 3.
Proof.
  destruct (manifest_recovered (V := memory_env) (LU := bytewise_laws) (literal "db") (set_last_sequence 5) first_manifest 1 new_Version [] [] two_files 2 [snapshot_edit first_set new_Version]) as (m' & v & w & Er & H1 & H2 & H3 & H4).
  - exact first_can_apply.
  - intros v s Hm. apply (sequence_allowed _ _ _ _ _ _ _ _ Hm). vm_compute. reflexivity.
  - right. eexists. split; [reflexivity|exact first_to_be_opened].
  - exact first_edits_writable.
  - exact first_edits_fit.
  - destruct (H4 default_Options second_set 1 second_ready) as (e' & m2 & v2 & w2 & G1 & G2 & G3 & G4 & _).
    + split; vm_compute; reflexivity.
    + intros i. pose proof first_files_small as Hs. rewrite Er in Hs. cbn [snd] in Hs. cbn [file_data memory_env_laws]. destruct (me_data (mf_env m') !! i) as [d|] eqn:Ed; [exact (Hs i d Ed)|reflexivity].
    + exists m', v, w, e', m2, v2, w2. split; [exact Er|]. split; [exact H2|]. split; [exact (rd_current _ _ _ _ H1)|]. split; [exact G1|]. split; [exact G2|]. split; [apply G3; split; [discriminate|reflexivity]|]. rewrite G4. vm_compute. reflexivity.
Defined.
