(* ===== verification/LdbDbImpl.v ===== *)
(** [db/db_impl.h], [db/db_impl.cc], [db/builder.cc], [db/snapshot.h]: the database over the version set, the
    memtables and the log.

    A function of the code that releases the mutex runs [others] there: what the other
    threads do to the database in the meantime. Log lines for the user, the time spent and the
    memory that memtables own are left out. *)

From Stdlib Require Import ZArith Lia List String Bool.
From stdpp Require Import base gmap list sorting.
From S2P Require Import Prelude LdbBase LdbText LdbCoding LdbKeys LdbSkipList LdbMemTable LdbVersionEdit LdbLog LdbIterator LdbTwoLevelProps LdbMerger LdbFormat LdbLogRead LdbTable LdbVersion LdbVersionIter LdbVersionSet LdbCompaction LdbEnv LdbManifest.

(** ** Building tables in the environment *)

(** The table cache: its iterators and reads over the files that there are. *)
Class DbTables (E D : Type) := {
  tc_Iterator : ReadOptions -> Z -> Z -> E -> option D;
  tc_Evict : Z -> E -> E;
  tc_reads :: TableCacheOps E
}.

(** A method of an iterator that is a local of the caller. *)
Definition on_it {S I A} (m : M I A) (it : I) : M S (A * I) := fun s =>
  let '(r, it') := m it in (match r with Ret a => Ret (a, it') | Fail => Fail | Stuck => Stuck end, s).

(** [file_] of a [TableBuilder] is a pointer to a file. *)
Definition builder_at {F F'} (f : F') (t : TableBuilder F) : TableBuilder F' :=
  mk_tb (tb_options t) (tb_index_block_options t) f (tb_offset t) (tb_status t) (tb_data_block t) (tb_index_block t) (tb_last_key t) (tb_num_entries t)
    (tb_closed t) (tb_filter_block t) (tb_pending_index_entry t) (tb_pending_handle t).

Definition set_meta_size (n : Z) (m : FileMetaData) : FileMetaData := mk_file (refs m) (allowed_seeks m) (number m) n (smallest m) (largest m).
Definition set_meta_smallest (k : list Z) (m : FileMetaData) : FileMetaData := mk_file (refs m) (allowed_seeks m) (number m) (file_size m) k (largest m).
Definition set_meta_largest (k : list Z) (m : FileMetaData) : FileMetaData := mk_file (refs m) (allowed_seeks m) (number m) (file_size m) (smallest m) k.

Section Tables.
Context {E H G D : Type} {V : Env E H G} {U : Comparator} {dops : IteratorOps D} {DT : DbTables E D}.

Definition with_builder {A} (m : forall h : H, M (TableBuilder E) A) (b : TableBuilder H) : M E (A * TableBuilder H) := fun e =>
  let '(r, b') := m (tb_file b) (builder_at e b) in
  (match r with Ret a => Ret (a, builder_at (tb_file b) b') | Fail => Fail | Stuck => Stuck end, tb_file b').

Definition builder_Add (key value : Slice) (b : TableBuilder H) : M E (TableBuilder H) :=
  r <- with_builder (fun h => tb_Add (W := writable h) (C := InternalKeyComparator U) key value) b ;; ret (snd r).
Definition builder_Finish : TableBuilder H -> M E (Status * TableBuilder H) := with_builder (fun h => tb_Finish (W := writable h) (C := InternalKeyComparator U)).
Definition builder_Abandon : TableBuilder H -> M E (unit * TableBuilder H) := with_builder (fun _ => tb_Abandon).

(** [file->Sync(); file->Close()], each if [s] is still OK, and [delete file]. *)
Definition sync_and_close (file : H) (s : Status) : M E Status :=
  s <- (if ok s then call (file_Sync file) else ret s) ;;
  s <- (if ok s then call (file_Close file) else ret s) ;;
  modify (close_writable file) ;;
  ret s.

(** Verify that the table is usable. *)
Definition table_status (number file_size : Z) : M E Status :=
  e <- get ;; it <- or_stuck (tc_Iterator default_ReadOptions number file_size e) ;; ret (it_status it).

Section Build.
Context {I : Type} {iops : IteratorOps I}.

(** A round of the loop over the entries. *)
Definition build_step (l : TableBuilder H * FileMetaData * I) : M E (TableBuilder H * FileMetaData * I + TableBuilder H * FileMetaData * I) :=
  let '(builder, meta, iter) := l in
  if negb (it_Valid iter) then ret (inr l)
  else
    r <- on_it it_key iter ;;
    let '(key, iter) := r in
    let meta := set_meta_largest (key_DecodeFrom key) meta in
    r <- on_it it_value iter ;;
    let '(value, iter) := r in
    builder <- builder_Add key value builder ;;
    r <- on_it it_Next iter ;;
    ret (inl (builder, meta, snd r)).

Definition finish_build (fname : list Z) (s : Status) (meta : FileMetaData) (iter : I) : M E (Status * FileMetaData * I) :=
  let s := if negb (ok (it_status iter)) then it_status iter else s in
  (if ok s && (0 <? file_size meta) then ret tt else call (RemoveFile fname) ;; ret tt) ;;
  ret (s, meta, iter).

Definition BuildTable (dbname : list Z) (options : Options) (iter : I) (meta : FileMetaData) : M E (Status * FileMetaData * I) :=
  let meta := set_meta_size 0 meta in
  r <- on_it it_SeekToFirst iter ;;
  let iter := snd r in
  let fname := TableFileName dbname (number meta) in
  if it_Valid iter then
    r <- call (NewWritableFile fname) ;;
    let '(s, file) := r in
    if negb (ok s) then ret (s, meta, iter)
    else
      file <- or_stuck file ;;
      let builder := new_TableBuilder options file in
      r <- on_it it_key iter ;;
      let '(key, iter) := r in
      r <- loop build_step (builder, set_meta_smallest (key_DecodeFrom key) meta, iter) ;;
      let '(builder, meta, iter) := r in
      r <- builder_Finish builder ;;
      let '(s, builder) := r in
      meta <- (if ok s then asserted (0 <? FileSize builder) ;; ret (set_meta_size (FileSize builder) meta) else ret meta) ;;
      s <- sync_and_close file s ;;
      s <- (if ok s then table_status (number meta) (file_size meta) else ret s) ;;
      finish_build fname s meta iter
  else finish_build fname OK meta iter.
End Build.
End Tables.

(** A memtable's iterator, with the table that it reads. *)
#[export] Instance MemTableIterator_ops {U : Comparator} : IteratorOps (MemTable * ptr) :=
  let move (m : ptr -> M MemTable ptr) : M (MemTable * ptr) unit := fun t => let '(r, m') := m (snd t) (fst t) in
    match r with Ret p => (Ret tt, (m', p)) | Fail => (Fail, (m', snd t)) | Stuck => (Stuck, (m', snd t)) end in
  let read (m : ptr -> M MemTable Slice) : M (MemTable * ptr) Slice := fun t => let '(r, m') := m (snd t) (fst t) in (r, (m', snd t)) in
  {| it_Valid t := mem_iter_Valid (snd t);
     it_SeekToFirst := move (fun _ => mem_iter_SeekToFirst);
     it_SeekToLast := move (fun _ => mem_iter_SeekToLast);
     it_Seek target := move (fun _ => mem_iter_Seek target);
     it_Next := move mem_iter_Next;
     it_Prev := move mem_iter_Prev;
     it_key := read mem_iter_key;
     it_value := read mem_iter_value;
     it_status _ := mem_iter_status |}.

(** ** The state *)

Record CompactionStats := mk_cstats { bytes_read : Z; bytes_written : Z }.
Definition stats_Add (a b : CompactionStats) : CompactionStats := mk_cstats (s64 (bytes_read a + bytes_read b)) (s64 (bytes_written a + bytes_written b)).

Record ManualCompaction := mk_manual { mc_level : Z; mc_done : bool; mc_begin : option (list Z); mc_end : option (list Z) }.

(** [DBImpl::Writer]: who waits, and for what. *)
Record QueuedWriter := mk_queued { w_id : Z; w_batch : option WriteBatch; w_sync : bool; w_done : bool; w_status : Status }.

(** What writers use. *)
Record Writing (H : Type) := mk_writing {
  mem_ : option MemTable;
  imm_ : option MemTable;
  has_imm_ : bool;
  logfile_ : option H;
  logfile_number_ : Z;
  log_ : option (Writer H);
  writers_ : list QueuedWriter;
  tmp_batch_ : WriteBatch
}.
Arguments mk_writing {H}.
Arguments mem_ {H}.
Arguments imm_ {H}.
Arguments has_imm_ {H}.
Arguments logfile_ {H}.
Arguments logfile_number_ {H}.
Arguments log_ {H}.
Arguments writers_ {H}.
Arguments tmp_batch_ {H}.

(** [SnapshotList]: addresses and sequence numbers, from the oldest on. *)
Definition SnapshotList : Type := list (Z * Z).

(** What the background thread uses. *)
Record Background := mk_background {
  snapshots_ : SnapshotList;
  pending_outputs_ : gset Z;
  background_compaction_scheduled_ : bool;
  manual_compaction_ : option ManualCompaction;
  bg_error_ : Status;
  shutting_down_ : bool;
  stats_ : list CompactionStats;
  seed_ : Z
}.

Record DB (E H : Type) := mk_db { versions_ : Manifest E H; writing_ : Writing H; background_ : Background }.
Arguments mk_db {E H}.
Arguments versions_ {E H}.
Arguments writing_ {E H}.
Arguments background_ {E H}.

Section Setters.
Context {H : Type}.
Definition set_mem (m : option MemTable) (w : Writing H) : Writing H := mk_writing m (imm_ w) (has_imm_ w) (logfile_ w) (logfile_number_ w) (log_ w) (writers_ w) (tmp_batch_ w).
Definition set_imm (m : option MemTable) (w : Writing H) : Writing H := mk_writing (mem_ w) m (match m with Some _ => true | None => false end) (logfile_ w) (logfile_number_ w) (log_ w) (writers_ w) (tmp_batch_ w).
Definition set_log (f : option H) (n : Z) (l : option (Writer H)) (w : Writing H) : Writing H := mk_writing (mem_ w) (imm_ w) (has_imm_ w) f n l (writers_ w) (tmp_batch_ w).
Definition set_writers (q : list QueuedWriter) (w : Writing H) : Writing H := mk_writing (mem_ w) (imm_ w) (has_imm_ w) (logfile_ w) (logfile_number_ w) (log_ w) q (tmp_batch_ w).
Definition set_tmp_batch (b : WriteBatch) (w : Writing H) : Writing H := mk_writing (mem_ w) (imm_ w) (has_imm_ w) (logfile_ w) (logfile_number_ w) (log_ w) (writers_ w) b.
End Setters.

Definition set_snapshots (s : SnapshotList) (b : Background) : Background := mk_background s (pending_outputs_ b) (background_compaction_scheduled_ b) (manual_compaction_ b) (bg_error_ b) (shutting_down_ b) (stats_ b) (seed_ b).
Definition set_pending (s : gset Z) (b : Background) : Background := mk_background (snapshots_ b) s (background_compaction_scheduled_ b) (manual_compaction_ b) (bg_error_ b) (shutting_down_ b) (stats_ b) (seed_ b).
Definition set_scheduled (s : bool) (b : Background) : Background := mk_background (snapshots_ b) (pending_outputs_ b) s (manual_compaction_ b) (bg_error_ b) (shutting_down_ b) (stats_ b) (seed_ b).
Definition set_manual (m : option ManualCompaction) (b : Background) : Background := mk_background (snapshots_ b) (pending_outputs_ b) (background_compaction_scheduled_ b) m (bg_error_ b) (shutting_down_ b) (stats_ b) (seed_ b).
Definition set_bg_error (s : Status) (b : Background) : Background := mk_background (snapshots_ b) (pending_outputs_ b) (background_compaction_scheduled_ b) (manual_compaction_ b) s (shutting_down_ b) (stats_ b) (seed_ b).
Definition set_stats (s : list CompactionStats) (b : Background) : Background := mk_background (snapshots_ b) (pending_outputs_ b) (background_compaction_scheduled_ b) (manual_compaction_ b) (bg_error_ b) (shutting_down_ b) s (seed_ b).
Definition set_seed (n : Z) (b : Background) : Background := mk_background (snapshots_ b) (pending_outputs_ b) (background_compaction_scheduled_ b) (manual_compaction_ b) (bg_error_ b) (shutting_down_ b) (stats_ b) n.

(** ** [SnapshotList] *)

Definition snapshots_oldest (l : SnapshotList) : option Z := match l with [] => None | s :: _ => Some (snd s) end.
Definition snapshots_newest (l : SnapshotList) : option Z := snd <$> last l.
(** [a] is the address of the new one; asserted: the newest one is not past it. *)
Definition snapshots_New (a sequence_number : Z) (l : SnapshotList) : option SnapshotList :=
  match snapshots_newest l with
  | Some n => if n <=? sequence_number then Some (l ++ [(a, sequence_number)]) else None
  | None => Some (l ++ [(a, sequence_number)])
  end.
Definition snapshots_Delete (a : Z) (l : SnapshotList) : SnapshotList := filter (fun s => fst s <> a) l.

(** [DBImpl::CompactionState] *)
Record Output := mk_output { out_number : Z; out_file_size : Z; out_smallest : list Z; out_largest : list Z }.

Record CompactionState (H : Type) := mk_cstate {
  compaction : Compaction;
  smallest_snapshot : Z;
  outputs : list Output;
  outfile : option H;
  builder : option (TableBuilder H);
  total_bytes : Z
}.
Arguments mk_cstate {H}.
Arguments compaction {H}.
Arguments smallest_snapshot {H}.
Arguments outputs {H}.
Arguments outfile {H}.
Arguments builder {H}.
Arguments total_bytes {H}.

(** A method of a version with statistics of its reads. *)
Definition on_sampled {A} (v : Z) (m : M Sampled A) : M Heap A :=
  cell <- version_cell v ;;
  h <- get ;;
  r <- on_it m (mk_sampled (fst cell) (h_allowed_seeks h)) ;;
  let '(a, t) := r in
  modify (fun h => set_h_versions (<[v := (s_version t, snd cell)]> (h_versions h)) (set_h_allowed_seeks (s_allowed_seeks t) h)) ;;
  ret a.

Section CompactionStates.
Context {H : Type}.
Definition new_CompactionState (c : Compaction) : CompactionState H := mk_cstate c 0 [] None None 0.
Definition set_compaction (c : Compaction) (s : CompactionState H) : CompactionState H := mk_cstate c (smallest_snapshot s) (outputs s) (outfile s) (builder s) (total_bytes s).
Definition set_smallest_snapshot (n : Z) (s : CompactionState H) : CompactionState H := mk_cstate (compaction s) n (outputs s) (outfile s) (builder s) (total_bytes s).
Definition set_outputs (o : list Output) (s : CompactionState H) : CompactionState H := mk_cstate (compaction s) (smallest_snapshot s) o (outfile s) (builder s) (total_bytes s).
Definition set_output_file (f : option H) (b : option (TableBuilder H)) (s : CompactionState H) : CompactionState H := mk_cstate (compaction s) (smallest_snapshot s) (outputs s) f b (total_bytes s).
Definition set_total_bytes (n : Z) (s : CompactionState H) : CompactionState H := mk_cstate (compaction s) (smallest_snapshot s) (outputs s) (outfile s) (builder s) n.

(** An assignment to members of [*current_output()]; [None] where there is no output. *)
Definition on_current_output (f : Output -> Output) (s : CompactionState H) : option (CompactionState H) :=
  match last (outputs s) with Some o => Some (set_outputs (removelast (outputs s) ++ [f o]) s) | None => None end.
End CompactionStates.

(** ** The background thread *)

Section DBImpl.
Context {E H G D : Type} {V : Env E H G} {user_comparator : Comparator} {dops : IteratorOps D} {DT : DbTables E D}.
Context (dbname_ : list Z) (options_ : Options) (others : DB E H -> DB E H) (others_set : VersionSet -> VersionSet).

Definition set_versions (m : Manifest E H) (d : DB E H) : DB E H := mk_db m (writing_ d) (background_ d).
Definition set_writing (w : Writing H) (d : DB E H) : DB E H := mk_db (versions_ d) w (background_ d).
Definition set_background (b : Background) (d : DB E H) : DB E H := mk_db (versions_ d) (writing_ d) b.

Definition in_versions {A} (m : M (Manifest E H) A) : M (DB E H) A := zoom versions_ set_versions m.
Definition in_set {A} (m : M VersionSet A) : M (DB E H) A := in_versions (on_set m).
Definition in_env {A} (m : M E A) : M (DB E H) A := in_versions (on_env m).
Definition in_writing {A} (m : M (Writing H) A) : M (DB E H) A := zoom writing_ set_writing m.
Definition in_background {A} (m : M Background A) : M (DB E H) A := zoom background_ set_background m.

(** The mutex is released and taken again. *)
Definition unlocked : M (DB E H) unit := modify others.

Definition shutting_down : M (DB E H) bool := gets (fun d => shutting_down_ (background_ d)).
Definition add_pending (n : Z) : M (DB E H) unit := in_background (modify (fun b => set_pending ({[n]} ∪ pending_outputs_ b) b)).
Definition erase_pending (n : Z) : M (DB E H) unit := in_background (modify (fun b => set_pending (pending_outputs_ b ∖ {[n]}) b)).
(** [stats_[level].Add(stats)] *)
Definition add_stats (level : Z) (stats : CompactionStats) : M (DB E H) unit :=
  b <- gets background_ ;;
  s <- or_stuck (stats_ b !! Z.to_nat level) ;;
  in_background (modify (fun b => set_stats (<[Z.to_nat level := stats_Add s stats]> (stats_ b)) b)).

(** [background_work_finished_signal_.SignalAll()] wakes writers; they are [others]. *)
Definition RecordBackgroundError (s : Status) : M (DB E H) unit :=
  in_background (modify (fun b => if ok (bg_error_ b) then set_bg_error s b else b)).

(** [env_->Schedule]: the flag says that the thread will run. *)
Definition MaybeScheduleCompaction : M (DB E H) unit :=
  d <- get ;;
  let b := background_ d in
  if background_compaction_scheduled_ b then ret tt
  else if shutting_down_ b then ret tt
  else if negb (ok (bg_error_ b)) then ret tt
  else
    needs <- (match imm_ (writing_ d), manual_compaction_ b with
              | None, None => in_set NeedsCompaction
              | _, _ => ret true
              end) ;;
    if negb needs then ret tt else in_background (modify (set_scheduled true)).

(** [versions_->current()] *)
Definition current : M (DB E H) Z := in_set (s <- get ;; or_stuck (current_ s)).
Definition version_at (v : Z) : M (DB E H) Version := in_set (on_heap (cell <- version_cell v ;; ret (fst cell))).

Definition delete_file (live : gset Z) (filename : list Z) : M (DB E H) unit :=
  match ParseFileName filename with
  | None => ret tt
  | Some (number, type) =>
      s <- in_set get ;;
      let keep := match type with
        | kLogFile => (vs_log_number_ s <=? number) || (number =? vs_prev_log_number_ s)
        | kDescriptorFile => vs_manifest_file_number_ s <=? number
        | kTableFile | kTempFile => bool_decide (number ∈ live)
        | kCurrentFile | kDBLockFile | kInfoLogFile => true
        end in
      if negb keep then
        (match type with kTableFile => in_env (modify (tc_Evict number)) | _ => ret tt end) ;;
        in_env (call (RemoveFile (dbname_ ++ literal "/" ++ filename))) ;; ret tt
      else ret tt
  end.

Definition DeleteObsoleteFiles : M (DB E H) unit :=
  b <- gets background_ ;;
  if negb (ok (bg_error_ b)) then ret tt
  else
    live <- in_set (on_heap (AddLiveFiles (pending_outputs_ b))) ;;
    e <- in_env get ;;
    for_each (snd (GetChildren dbname_ e)) (delete_file live).

(** *** Memtables become tables *)

(** The edit with the new file, if there is one. [base]: a version, or null. *)
Definition WriteLevel0Table (mem : MemTable) (edit : VersionEdit) (base : option Z) : M (DB E H) (Status * VersionEdit) :=
  number <- in_set NewFileNumber ;;
  add_pending number ;;
  unlocked ;;
  r <- in_env (BuildTable dbname_ options_ (mem, None) (new_FileMetaData number 0 [] [])) ;;
  unlocked ;;
  let '(s, meta, _) := r in
  erase_pending number ;;
  r <- (if ok s && (0 <? file_size meta) then
          min_user_key <- or_stuck (key_user_key (smallest meta)) ;;
          max_user_key <- or_stuck (key_user_key (largest meta)) ;;
          level <- match base with
                   | Some b => v <- version_at b ;; PickLevelForMemTableOutput options_ v min_user_key max_user_key
                   | None => ret 0
                   end ;;
          ret (level, AddFile level number (file_size meta) (smallest meta) (largest meta) edit)
        else ret (0, edit)) ;;
  let '(level, edit) := r in
  add_stats level (mk_cstats 0 (file_size meta)) ;;
  ret (s, edit).

Definition CompactMemTable : M (DB E H) unit :=
  imm <- (w <- gets writing_ ;; or_stuck (imm_ w)) ;;
  base <- current ;;
  in_set (on_heap (Version_Ref base)) ;;
  r <- WriteLevel0Table imm new_VersionEdit (Some base) ;;
  let '(s, edit) := r in
  in_set (on_heap (Version_Unref base)) ;;
  down <- shutting_down ;;
  let s := if ok s && down then IOError (literal "Deleting DB during memtable compaction") [] else s in
  s <- (if ok s then
          w <- gets writing_ ;;
          r <- in_versions (LogAndApply dbname_ others_set (SetLogNumber (logfile_number_ w) (SetPrevLogNumber 0 edit))) ;;
          ret (fst r)
        else ret s) ;;
  if ok s then in_writing (modify (set_imm None)) ;; DeleteObsoleteFiles
  else RecordBackgroundError s.

(** *** Compactions *)

Definition on_compaction {S A} (m : M Compaction A) (compact : CompactionState H) : M S (A * CompactionState H) :=
  r <- on_it m (compaction compact) ;; ret (fst r, set_compaction (snd r) compact).

Definition OpenCompactionOutputFile (compact : CompactionState H) : M (DB E H) (Status * CompactionState H) :=
  asserted (match builder compact with None => true | Some _ => false end) ;;
  file_number <- in_set NewFileNumber ;;
  add_pending file_number ;;
  let compact := set_outputs (outputs compact ++ [mk_output file_number 0 [] []]) compact in
  r <- in_env (call (NewWritableFile (TableFileName dbname_ file_number))) ;;
  let '(s, file) := r in
  if ok s then file <- or_stuck file ;; ret (s, set_output_file (Some file) (Some (new_TableBuilder options_ file)) compact)
  else ret (s, set_output_file file None compact).

(** [input_status]: of the iterator over the inputs. *)
Definition FinishCompactionOutputFile (input_status : Status) (compact : CompactionState H) : M (DB E H) (Status * CompactionState H) :=
  file <- or_stuck (outfile compact) ;;
  b <- or_stuck (builder compact) ;;
  o <- or_stuck (last (outputs compact)) ;;
  asserted (negb (out_number o =? 0)) ;;
  let current_entries := NumEntries b in
  r <- (if ok input_status then in_env (builder_Finish b) else r <- in_env (builder_Abandon b) ;; ret (input_status, snd r)) ;;
  let '(s, b) := r in
  let current_bytes := FileSize b in
  compact <- or_stuck (on_current_output (fun o => mk_output (out_number o) current_bytes (out_smallest o) (out_largest o)) compact) ;;
  let compact := set_total_bytes (u64 (total_bytes compact + current_bytes)) compact in
  s <- in_env (sync_and_close file s) ;;
  let compact := set_output_file None None compact in
  s <- (if ok s && (0 <? current_entries) then in_env (table_status (out_number o) current_bytes) else ret s) ;;
  ret (s, compact).

Definition InstallCompactionResults (compact : CompactionState H) : M (DB E H) (Status * CompactionState H) :=
  let c := compaction compact in
  let edit := fold_left (fun edit out => AddFile (level_ c + 1) (out_number out) (out_file_size out) (out_smallest out) (out_largest out) edit) (outputs compact) (AddInputDeletions c (edit_ c)) in
  r <- in_versions (LogAndApply dbname_ others_set edit) ;;
  ret (fst r, set_compaction (set_edit (snd r) c) compact).

(** The locals of [DoCompactionWork] that say which entries are obsolete. *)
Record KeyState := mk_keystate { current_user_key : list Z; has_current_user_key : bool; last_sequence_for_key : Z }.

(** Whether the entry is dropped; [v] is the compaction's input version. *)
Definition handle_key {S} (v : Version) (key : Slice) (compact : CompactionState H) (k : KeyState) : M S (bool * CompactionState H * KeyState) :=
  match ParseInternalKey key with
  | None => ret (false, compact, mk_keystate [] false kMaxSequenceNumber)
  | Some ikey =>
      first <- (if negb (has_current_user_key k) then ret true
                else c <- or_stuck (Compare (pk_user_key ikey) (current_user_key k)) ;; ret (negb (c =? 0))) ;;
      let k := if first : bool then mk_keystate (pk_user_key ikey) true kMaxSequenceNumber else k in
      r <- (if last_sequence_for_key k <=? smallest_snapshot compact then ret (true, compact)
            else if match pk_type ikey with kTypeDeletion => true | kTypeValue => false end && (pk_sequence ikey <=? smallest_snapshot compact) then on_compaction (IsBaseLevelForKey v (pk_user_key ikey)) compact
            else ret (false, compact)) ;;
      ret (r, mk_keystate (current_user_key k) (has_current_user_key k) (pk_sequence ikey))
  end.

Section Loop.
Context {I : Type} {iops : IteratorOps I}.

(** An entry that is kept. *)
Definition output_entry (key : Slice) (compact : CompactionState H) (input : I) : M (DB E H) (Status * CompactionState H * I) :=
  r <- (match builder compact with None => OpenCompactionOutputFile compact | Some _ => ret (OK, compact) end) ;;
  let '(status, compact) := r in
  if negb (ok status) then ret (status, compact, input)
  else
    b <- or_stuck (builder compact) ;;
    compact <- or_stuck (on_current_output (fun o => mk_output (out_number o) (out_file_size o)
                 (if NumEntries b =? 0 then key_DecodeFrom key else out_smallest o) (key_DecodeFrom key)) compact) ;;
    r <- on_it it_value input ;;
    let '(value, input) := r in
    b <- in_env (builder_Add key value b) ;;
    let compact := set_output_file (outfile compact) (Some b) compact in
    if max_output_file_size_ (compaction compact) <=? FileSize b then
      r <- FinishCompactionOutputFile (it_status input) compact ;;
      ret (r, input)
    else ret (OK, compact, input).

(** A round of the loop over the inputs. *)
Definition compaction_step (v : Version) (l : I * CompactionState H * KeyState) : M (DB E H) (I * CompactionState H * KeyState + Status * I * CompactionState H) :=
  let '(input, compact, k) := l in
  down <- shutting_down ;;
  if negb (it_Valid input) || down then ret (inr (OK, input, compact))
  else
    unlocked ;;
    w <- gets writing_ ;;
    (if has_imm_ w then match imm_ w with Some _ => CompactMemTable | None => ret tt end else ret tt) ;;
    r <- on_it it_key input ;;
    let '(key, input) := r in
    r <- on_compaction (ShouldStopBefore options_ key) compact ;;
    let '(stop, compact) := r in
    r <- (if stop && match builder compact with Some _ => true | None => false end then FinishCompactionOutputFile (it_status input) compact
          else ret (OK, compact)) ;;
    let '(status, compact) := r in
    if negb (ok status) then ret (inr (status, input, compact))
    else
      r <- handle_key v key compact k ;;
      let '(drop, compact, k) := r in
      r <- (if drop : bool then ret (OK, compact, input) else output_entry key compact input) ;;
      let '(status, compact, input) := r in
      if negb (ok status) then ret (inr (status, input, compact))
      else
        r <- on_it it_Next input ;;
        ret (inl (snd r, compact, k)).

(** From [input->SeekToFirst()] to [delete input]. *)
Definition compact_inputs (v : Version) (input : I) (compact : CompactionState H) : M (DB E H) (Status * CompactionState H) :=
  r <- on_it it_SeekToFirst input ;;
  r <- loop (compaction_step v) (snd r, compact, mk_keystate [] false kMaxSequenceNumber) ;;
  let '(status, input, compact) := r in
  down <- shutting_down ;;
  let status := if ok status && down then IOError (literal "Deleting DB during compaction") [] else status in
  r <- (if ok status && match builder compact with Some _ => true | None => false end then FinishCompactionOutputFile (it_status input) compact
        else ret (status, compact)) ;;
  let '(status, compact) := r in
  ret (if ok status then it_status input else status, compact).
End Loop.

#[local] Instance tables_at (e : E) : TableIterators D := {| tc_NewIterator o n s := tc_Iterator o n s e |}.

(** [stats.bytes_read] and [stats.bytes_written] *)
Definition compaction_stats (compact : CompactionState H) : CompactionStats :=
  mk_cstats (fold_left (fun n f => s64 (n + f_size f)) (inputs_0 (compaction compact) ++ inputs_1 (compaction compact)) 0)
    (fold_left (fun n o => s64 (n + out_file_size o)) (outputs compact) 0).

Definition DoCompactionWork (compact : CompactionState H) : M (DB E H) (Status * CompactionState H) :=
  let level := level_ (compaction compact) in
  n <- in_set (NumLevelFiles level) ;;
  asserted (0 <? n) ;;
  asserted (match builder compact with None => true | Some _ => false end) ;;
  asserted (match outfile compact with None => true | Some _ => false end) ;;
  d <- get ;;
  let smallest := match snapshots_oldest (snapshots_ (background_ d)) with Some s => s | None => vs_last_sequence_ (mf_set (versions_ d)) end in
  let compact := set_smallest_snapshot smallest compact in
  unlocked ;;
  id <- or_stuck (input_version_ (compaction compact)) ;;
  v <- version_at id ;;
  e <- in_env get ;;
  children <- or_stuck (MakeInputIterator (TI := tables_at e) (paranoid_checks options_) (compaction compact)) ;;
  input <- or_stuck (NewMergingIterator (ops := child_ops (TI := tables_at e) (mk_read_options (paranoid_checks options_) false)) children) ;;
  r <- compact_inputs (iops := merged_ops (ops := child_ops (TI := tables_at e) (mk_read_options (paranoid_checks options_) false)) (C := InternalKeyComparator user_comparator)) v input compact ;;
  let '(status, compact) := r in
  unlocked ;;
  add_stats (level + 1) (compaction_stats compact) ;;
  r <- (if ok status then InstallCompactionResults compact else ret (status, compact)) ;;
  let '(status, compact) := r in
  (if negb (ok status) then RecordBackgroundError status else ret tt) ;;
  ret (status, compact).

Definition CleanupCompaction (compact : CompactionState H) : M (DB E H) unit :=
  (match builder compact with
   | Some b => in_env (builder_Abandon b) ;; ret tt
   | None => asserted (match outfile compact with None => true | Some _ => false end)
   end) ;;
  (match outfile compact with Some file => in_env (modify (close_writable file)) | None => ret tt end) ;;
  for_each (outputs compact) (fun out => erase_pending (out_number out)).

(** A compaction that was picked; [c] afterwards. *)
Definition run_compaction (is_manual : bool) (c : Compaction) : M (DB E H) (Status * Compaction) :=
  if negb is_manual && IsTrivialMove options_ c then
    asserted (num_input_files c 0 =? 1) ;;
    f <- or_stuck (head (inputs_0 c)) ;;
    let edit := AddFile (level_ c + 1) (f_number f) (f_size f) (f_smallest f) (f_largest f) (DeleteFile (level_ c) (f_number f) (edit_ c)) in
    r <- in_versions (LogAndApply dbname_ others_set edit) ;;
    (if negb (ok (fst r)) then RecordBackgroundError (fst r) else ret tt) ;;
    ret (fst r, set_edit (snd r) c)
  else
    r <- DoCompactionWork (new_CompactionState c) ;;
    let '(status, compact) := r in
    (if negb (ok status) then RecordBackgroundError status else ret tt) ;;
    CleanupCompaction compact ;;
    c <- in_set (on_heap (ReleaseInputs (compaction compact))) ;;
    DeleteObsoleteFiles ;;
    ret (status, c).

(** The manual compaction as its caller finds it afterwards. *)
Definition BackgroundCompaction : M (DB E H) (option ManualCompaction) :=
  d <- get ;;
  match imm_ (writing_ d) with
  | Some _ => CompactMemTable ;; ret (manual_compaction_ (background_ d))
  | None =>
      let manual := manual_compaction_ (background_ d) in
      c <- (match manual with
            | Some m => in_set (CompactRange options_ (mc_level m) (mc_begin m) (mc_end m))
            | None => in_set (PickCompaction options_)
            end) ;;
      status <- (match c with
                 | None => ret OK
                 | Some c =>
                     r <- run_compaction (match manual with Some _ => true | None => false end) c ;;
                     in_set (on_heap (delete_Compaction (snd r))) ;;
                     ret (fst r)
                 end) ;;
      match manual with
      | None => ret None
      | Some m =>
          let done := match c with None => true | Some _ => negb (ok status) end in
          let begin := match c with Some c => if done then mc_begin m else f_largest <$> last (inputs_0 c) | None => mc_begin m end in
          in_background (modify (set_manual None)) ;;
          ret (Some (mk_manual (mc_level m) done begin (mc_end m)))
      end
  end.

Definition BackgroundCall : M (DB E H) (option ManualCompaction) :=
  b <- gets background_ ;;
  asserted (background_compaction_scheduled_ b) ;;
  r <- (if shutting_down_ b then ret (manual_compaction_ b)
        else if negb (ok (bg_error_ b)) then ret (manual_compaction_ b)
        else BackgroundCompaction) ;;
  in_background (modify (set_scheduled false)) ;;
  MaybeScheduleCompaction ;;
  ret r.

(** ** Reads *)

(** What a thread reads without the mutex is the memtables and the version that it took before. *)
Definition Get (options : ReadOptions) (snapshot : option Z) (key : Slice) (value : list Z) : M (DB E H) (Status * list Z) :=
  d <- get ;;
  let sequence := match snapshot with Some s => s | None => vs_last_sequence_ (mf_set (versions_ d)) end in
  mem <- or_stuck (mem_ (writing_ d)) ;;
  let imm := imm_ (writing_ d) in
  v <- current ;;
  in_set (on_heap (Version_Ref v)) ;;
  unlocked ;;
  let lkey := new_LookupKey key sequence in
  r <- on_it (mem_Get lkey value OK) mem ;;
  let '(found, value, s) := fst r in
  r <- (if found : bool then ret (s, value, None)
        else
          r <- (match imm with Some imm => r <- on_it (mem_Get lkey value s) imm ;; ret (fst r) | None => ret (false, value, s) end) ;;
          let '(found, value, s) := r in
          if found : bool then ret (s, value, None)
          else
            version <- version_at v ;;
            r <- in_env (Version_Get options version lkey value) ;;
            let '(s, value, stats) := r in ret (s, value, Some stats)) ;;
  let '(s, value, stats) := r in
  unlocked ;;
  (match stats with
   | Some stats => updated <- in_set (on_heap (on_sampled v (UpdateStats stats))) ;; if updated : bool then MaybeScheduleCompaction else ret tt
   | None => ret tt
   end) ;;
  in_set (on_heap (Version_Unref v)) ;;
  ret (s, value).

(** The children of the internal iterator, each a memtable or one of a version's; [*latest_snapshot] and [*seed]. *)
Definition NewInternalIterator (options : ReadOptions) : M (DB E H) (list ((MemTable * ptr) + (D + concatenating (D := D))) * Z * Z) :=
  d <- get ;;
  mem <- or_stuck (mem_ (writing_ d)) ;;
  v <- current ;;
  version <- version_at v ;;
  e <- in_env get ;;
  children <- or_stuck (AddIterators (TI := tables_at e) options version) ;;
  in_set (on_heap (Version_Ref v)) ;;
  let seed := u32 (seed_ (background_ d) + 1) in
  in_background (modify (set_seed seed)) ;;
  ret (inl (mem, None) :: match imm_ (writing_ d) with Some imm => [inl (imm, None)] | None => [] end ++ map inr children, vs_last_sequence_ (mf_set (versions_ d)), seed).

(** [DBImpl::RecordReadSample] *)
Definition db_RecordReadSample (key : Slice) : M (DB E H) unit :=
  v <- current ;;
  updated <- in_set (on_heap (on_sampled v (RecordReadSample key))) ;;
  if updated : bool then MaybeScheduleCompaction else ret tt.

(** The snapshot at the address [a]. *)
Definition GetSnapshot (a : Z) : M (DB E H) Z :=
  d <- get ;;
  let sequence := vs_last_sequence_ (mf_set (versions_ d)) in
  l <- or_stuck (snapshots_New a sequence (snapshots_ (background_ d))) ;;
  in_background (modify (set_snapshots l)) ;;
  ret sequence.
Definition ReleaseSnapshot (a : Z) : M (DB E H) unit := in_background (modify (fun b => set_snapshots (snapshots_Delete a (snapshots_ b)) b)).

(** ** Writes *)

(** A round of the loop of [MakeRoomForWrite], with its locals [force] and [allow_delay]. *)
Definition make_room_step (l : bool * bool) : M (DB E H) (bool * bool + Status) :=
  let '(force, allow_delay) := l in
  d <- get ;;
  files <- in_set (NumLevelFiles 0) ;;
  mem <- or_stuck (mem_ (writing_ d)) ;;
  if negb (ok (bg_error_ (background_ d))) then ret (inr (bg_error_ (background_ d)))
  else if allow_delay && (kL0_SlowdownWritesTrigger <=? files) then unlocked ;; ret (inl (force, false))
  else if negb force && (ApproximateMemoryUsage mem <=? write_buffer_size options_) then ret (inr OK)
  else if match imm_ (writing_ d) with Some _ => true | None => false end then unlocked ;; ret (inl l)
  else if kL0_StopWritesTrigger <=? files then unlocked ;; ret (inl l)
  else
    asserted (vs_prev_log_number_ (mf_set (versions_ d)) =? 0) ;;
    new_log_number <- in_set NewFileNumber ;;
    r <- in_env (call (NewWritableFile (LogFileName dbname_ new_log_number))) ;;
    let '(s, lfile) := r in
    if negb (ok s) then in_set (ReuseFileNumber new_log_number) ;; ret (inr s)
    else
      lfile <- or_stuck lfile ;;
      (match logfile_ (writing_ d) with Some file => in_env (modify (close_writable file)) | None => ret tt end) ;;
      in_writing (modify (fun w => set_mem (Some (mem_Ref new_MemTable)) (set_imm (Some mem) (set_log (Some lfile) new_log_number (Some (new_Writer lfile)) w)))) ;;
      MaybeScheduleCompaction ;;
      ret (inl (false, allow_delay)).

Definition MakeRoomForWrite (force : bool) : M (DB E H) Status :=
  w <- gets writing_ ;;
  asserted (match writers_ w with [] => false | _ => true end) ;;
  loop make_room_step (force, negb force).

(** The loop of [BuildBatchGroup] over the writers behind [first]: the locals [result], whether it
    is [tmp_batch_], [size], and the last writer so far. *)
Fixpoint group_writers (first : QueuedWriter) (max_size : Z) (ws : list QueuedWriter) (result : WriteBatch) (is_tmp : bool) (size : Z) (tmp : WriteBatch) (last_writer : QueuedWriter) :
    option (WriteBatch * bool * QueuedWriter) :=
  match ws with
  | [] => Some (result, is_tmp, last_writer)
  | w :: ws' =>
      if w_sync w && negb (w_sync first) then Some (result, is_tmp, last_writer)
      else
        match w_batch w with
        | None => group_writers first max_size ws' result is_tmp size tmp w
        | Some b =>
            let size := u64 (size + ByteSize b) in
            if max_size <? size then Some (result, is_tmp, last_writer)
            else
              result ← (if is_tmp then Some result
                        else n ← batch_Count tmp; if n =? 0 then batch_Append tmp result else None);
              result ← batch_Append result b;
              group_writers first max_size ws' result true size tmp w
        end
  end.

(** The batch, whether it is [tmp_batch_], and [*last_writer]. *)
Definition BuildBatchGroup (w : Writing H) : option (WriteBatch * bool * QueuedWriter) :=
  match writers_ w with
  | [] => None
  | first :: ws =>
      b ← w_batch first;
      let size := ByteSize b in
      let max_size := if size <=? Z.shiftl 128 10 then size + Z.shiftl 128 10 else Z.shiftl 1 20 in
      group_writers first max_size ws b false size (tmp_batch_ w) first
  end.

(** The log record, the memtable. *)
Definition apply_group (sync : bool) (updates : WriteBatch) : M (DB E H) Status :=
  unlocked ;;
  w <- gets writing_ ;;
  log <- or_stuck (log_ w) ;;
  r <- in_env (log_AddRecord (batch_Contents updates) log) ;;
  let '(status, log) := r in
  in_writing (modify (fun w => set_log (logfile_ w) (logfile_number_ w) (Some log) w)) ;;
  r <- (if ok status && sync then
          file <- or_stuck (logfile_ w) ;;
          s <- in_env (call (file_Sync file)) ;; ret (s, negb (ok s))
        else ret (status, false)) ;;
  let '(status, sync_error) := r in
  status <- (if ok status then
               mem <- or_stuck (mem_ w) ;;
               r <- on_it (InsertInto updates) mem ;;
               in_writing (modify (set_mem (Some (snd r)))) ;;
               ret (fst r)
             else ret status) ;;
  unlocked ;;
  (if sync_error : bool then RecordBackgroundError status else ret tt) ;;
  ret status.

(** The writers up to [last_writer] leave the queue; those that waited are told the status. *)
Fixpoint pop_writers (self last_writer : Z) (status : Status) (q : list QueuedWriter) : option (list QueuedWriter * list QueuedWriter) :=
  match q with
  | [] => None
  | ready :: q' =>
      let told := if w_id ready =? self then [] else [mk_queued (w_id ready) (w_batch ready) (w_sync ready) true status] in
      if w_id ready =? last_writer then Some (told, q')
      else r ← pop_writers self last_writer status q'; Some (told ++ fst r, snd r)
  end.

(** [Write] of the thread [w], which is at the front of the queue: its status, and the waiting writers that are done. *)
Definition write_front (w : QueuedWriter) : M (DB E H) (Status * list QueuedWriter) :=
  status <- MakeRoomForWrite (match w_batch w with None => true | Some _ => false end) ;;
  d <- get ;;
  let last_sequence := vs_last_sequence_ (mf_set (versions_ d)) in
  r <- (match w_batch w with
        | Some _ =>
            if ok status then
              g <- or_stuck (BuildBatchGroup (writing_ d)) ;;
              let '(updates, is_tmp, last_writer) := g in
              let updates := batch_SetSequence updates (u64 (last_sequence + 1)) in
              count <- or_stuck (batch_Count updates) ;;
              let last_sequence := u64 (last_sequence + count) in
              status <- apply_group (w_sync w) updates ;;
              (if is_tmp : bool then in_writing (modify (set_tmp_batch batch_Clear)) else ret tt) ;;
              in_set (modify (set_last_sequence last_sequence)) ;;
              ret (status, last_writer)
            else ret (status, w)
        | None => ret (status, w)
        end) ;;
  let '(status, last_writer) := r in
  q <- gets (fun d => writers_ (writing_ d)) ;;
  r <- or_stuck (pop_writers (w_id w) (w_id last_writer) status q) ;;
  in_writing (modify (set_writers (snd r))) ;;
  ret (status, fst r).

(** [Write] until the thread waits or is at the front. *)
Definition enqueue (w : QueuedWriter) : M (DB E H) unit := in_writing (modify (fun s => set_writers (writers_ s ++ [w]) s)).
End DBImpl.

(** ** Opening a database *)

(** The rest of [env.h] that the database uses; an [L] is a [FileLock*]. *)
Class EnvLocks (E L : Type) := {
  LockFile : list Z -> E -> Status * option L * E;
  UnlockFile : L -> E -> Status * E;
  CreateDir : list Z -> E -> Status * E;
  DeleteDir : list Z -> E -> Status * E
}.

(** The template [ClipToRange] for members of the type [size_t] or [int] and bounds of the type [int]. *)
Definition ClipToRange (v minvalue maxvalue : Z) : Z :=
  let v := if maxvalue <? s32 v then maxvalue else v in
  if s32 v <? minvalue then minvalue else v.

Definition kNumNonTableCacheFiles : Z := 10.

(** The comparator, the log for the user and the cache itself are not members of [Options] here. *)
Definition SanitizeOptions (src : Options) : Options :=
  mk_options (create_if_missing src) (error_if_exists src) (paranoid_checks src) (ClipToRange (write_buffer_size src) (Z.shiftl 64 10) (Z.shiftl 1 30))
    (ClipToRange (max_open_files src) (64 + kNumNonTableCacheFiles) 50000) true (ClipToRange (block_size src) (Z.shiftl 1 10) (Z.shiftl 4 20)) (block_restart_interval src)
    (ClipToRange (max_file_size src) (Z.shiftl 1 20) (Z.shiftl 1 30)) (compression src) (reuse_logs src) (InternalFilterPolicy <$> filter_policy src).

Definition MaybeIgnoreError (options : Options) (s : Status) : Status := if ok s || paranoid_checks options then s else OK.

Section Opening.
Context {E H G D L : Type} {V : Env E H G} {VL : EnvLocks E L} {user_comparator : Comparator} {dops : IteratorOps D} {DT : DbTables E D}.
Context (dbname_ : list Z) (options_ : Options) (others : DB E H -> DB E H) (others_set : VersionSet -> VersionSet).

Definition new_db_edit : VersionEdit := SetLastSequence 0 (SetNextFile 2 (SetLogNumber 0 (SetComparatorName (comparator_Name (Comparator := user_comparator)) new_VersionEdit))).

Definition NewDB : M E Status :=
  let manifest := DescriptorFileName dbname_ 1 in
  r <- call (NewWritableFile manifest) ;;
  let '(s, file) := r in
  if negb (ok s) then ret s
  else
    file <- or_stuck file ;;
    record <- or_stuck (edit_EncodeTo new_db_edit []) ;;
    r <- log_AddRecord record (new_Writer file) ;;
    s <- (if ok (fst r) then call (file_Close file) else ret (fst r)) ;;
    modify (close_writable file) ;;
    if ok s then SetCurrentFile dbname_ 1 else call (RemoveFile manifest) ;; ret s.

(** The locals of [RecoverLogFile], and what its pointers are to. *)
Record LogRecovery := mk_recovery {
  lr_mem : option MemTable;
  lr_compactions : Z;
  lr_save_manifest : bool;
  lr_edit : VersionEdit;
  lr_max_sequence : Z;
  lr_status : Status
}.
Definition set_lr_status (s : Status) (l : LogRecovery) : LogRecovery := mk_recovery (lr_mem l) (lr_compactions l) (lr_save_manifest l) (lr_edit l) (lr_max_sequence l) s.
Definition set_lr_mem (m : option MemTable) (l : LogRecovery) : LogRecovery := mk_recovery m (lr_compactions l) (lr_save_manifest l) (lr_edit l) (lr_max_sequence l) (lr_status l).

(** [status = WriteLevel0Table(mem, edit, nullptr)], and [*save_manifest = true]. *)
Definition write_recovered (mem : MemTable) (compactions : Z) (l : LogRecovery) : M (DB E H) LogRecovery :=
  r <- WriteLevel0Table dbname_ options_ others mem (lr_edit l) None ;;
  ret (mk_recovery None compactions true (snd r) (lr_max_sequence l) (fst r)).

(** A record of the log. *)
Definition recover_record (record : Slice) (l : LogRecovery) : M (DB E H) LogRecovery :=
  let batch := batch_SetContents record in
  let mem := match lr_mem l with Some m => m | None => mem_Ref new_MemTable end in
  r <- on_it (InsertInto batch) mem ;;
  let '(s, mem) := r in
  let l := set_lr_mem (Some mem) (set_lr_status (MaybeIgnoreError options_ s) l) in
  if negb (ok (lr_status l)) then ret l
  else
    sequence <- or_stuck (batch_Sequence batch) ;;
    count <- or_stuck (batch_Count batch) ;;
    let last_seq := u64 (sequence + count - 1) in
    let l := mk_recovery (lr_mem l) (lr_compactions l) (lr_save_manifest l) (lr_edit l) (if lr_max_sequence l <? last_seq then last_seq else lr_max_sequence l) (lr_status l) in
    if write_buffer_size options_ <? ApproximateMemoryUsage mem then write_recovered mem (lr_compactions l + 1) l else ret l.

(** A round of the loop over the records; the reports reach [status] with [paranoid_checks]. *)
Definition recover_log_step (l : Reader G * LogRecovery) : M (DB E H) (Reader G * LogRecovery + LogRecovery) :=
  let '(reader, l) := l in
  r <- in_env (log_ReadRecord reader) ;;
  let '(record, reader') := r in
  let l := if paranoid_checks options_ then set_lr_status (reported (List.length (reports reader)) (reports reader') (lr_status l)) l else l in
  match record with
  | Some record =>
      if negb (ok (lr_status l)) then ret (inr l)
      else if size record <? 12 then
        let l := if paranoid_checks options_ then set_lr_status (Corruption (literal "log record too small") []) l else l in
        ret (inl (reader', l))
      else
        l <- recover_record record l ;;
        if ok (lr_status l) then ret (inl (reader', l)) else ret (inr l)
  | None => ret (inr l)
  end.

(** Whether the log goes on to be written. *)
Definition reuse_log (fname : list Z) (log_number : Z) (last_log : bool) (l : LogRecovery) : M (DB E H) LogRecovery :=
  if negb (ok (lr_status l) && reuse_logs options_ && last_log && (lr_compactions l =? 0)) then ret l
  else
    w <- gets writing_ ;;
    asserted (match logfile_ w with None => true | Some _ => false end) ;;
    asserted (match log_ w with None => true | Some _ => false end) ;;
    asserted (match mem_ w with None => true | Some _ => false end) ;;
    e <- in_env get ;;
    let '(s, lfile_size) := GetFileSize fname e in
    if negb (ok s) then ret l
    else
      r <- in_env (call (NewAppendableFile fname)) ;;
      let '(s, file) := r in
      if negb (ok s) then in_writing (modify (fun w => set_log file (logfile_number_ w) (log_ w) w)) ;; ret l
      else
        file <- or_stuck file ;;
        let mem := match lr_mem l with Some m => m | None => mem_Ref new_MemTable end in
        in_writing (modify (fun w => set_mem (Some mem) (set_log (Some file) log_number (Some (new_Writer_at file lfile_size)) w))) ;;
        ret (set_lr_mem None l).

Definition RecoverLogFile (log_number : Z) (last_log : bool) (save_manifest : bool) (edit : VersionEdit) (max_sequence : Z) : M (DB E H) (Status * bool * VersionEdit * Z) :=
  let fname := LogFileName dbname_ log_number in
  r <- in_env (call (NewSequentialFile fname)) ;;
  let '(status, file) := r in
  if negb (ok status) then ret (MaybeIgnoreError options_ status, save_manifest, edit, max_sequence)
  else
    file <- or_stuck file ;;
    l <- loop recover_log_step (new_Reader file true true 0, mk_recovery None 0 save_manifest edit max_sequence OK) ;;
    in_env (modify (close_sequential file)) ;;
    l <- reuse_log fname log_number last_log l ;;
    l <- (match lr_mem l with
          | Some mem => if ok (lr_status l) then write_recovered mem (lr_compactions l) l else ret (set_lr_mem None l)
          | None => ret l
          end) ;;
    ret (lr_status l, lr_save_manifest l, lr_edit l, lr_max_sequence l).

(** The numbers of the files that are there, and the logs to recover. *)
Definition listed (min_log prev_log : Z) (filenames : list (list Z)) (expected : gset Z) : gset Z * list Z :=
  fold_left (fun r filename =>
    match ParseFileName filename with
    | Some (number, type) =>
        (fst r ∖ {[number]},
         match type with kLogFile => if (min_log <=? number) || (number =? prev_log) then snd r ++ [number] else snd r | _ => snd r end)
    | None => r
    end) filenames (expected, []).

(** The loop over the logs, in order. *)
Fixpoint recover_logs (logs : list Z) (r : bool * VersionEdit * Z) : M (DB E H) (Status * bool * VersionEdit * Z) :=
  let '(save_manifest, edit, max_sequence) := r in
  match logs with
  | [] => ret (OK, save_manifest, edit, max_sequence)
  | n :: logs' =>
      r <- RecoverLogFile n (match logs' with [] => true | _ => false end) save_manifest edit max_sequence ;;
      let '(s, save_manifest, edit, max_sequence) := r in
      if negb (ok s) then ret (s, save_manifest, edit, max_sequence)
      else in_set (MarkFileNumberUsed n) ;; recover_logs logs' (save_manifest, edit, max_sequence)
  end.

(** With [db_lock_]. *)
Definition db_Recover (edit : VersionEdit) : M (DB E H) (Status * option L * bool * VersionEdit) :=
  in_env (call (CreateDir dbname_)) ;;
  r <- in_env (call (LockFile (LockFileName dbname_))) ;;
  let '(s, lock) := r in
  if negb (ok s) then ret (s, lock, false, edit)
  else
    e <- in_env get ;;
    s <- (if negb (FileExists (CurrentFileName dbname_) e) then
            if create_if_missing options_ then in_env NewDB else ret (InvalidArgument dbname_ (literal "does not exist (create_if_missing is false)"))
          else if error_if_exists options_ then ret (InvalidArgument dbname_ (literal "exists (error_if_exists is true)"))
          else ret OK) ;;
    if negb (ok s) then ret (s, lock, false, edit)
    else
      r <- in_versions (Recover dbname_ options_) ;;
      let '(s, save_manifest) := r in
      if negb (ok s) then ret (s, lock, save_manifest, edit)
      else
        set <- in_set get ;;
        e <- in_env get ;;
        let '(s, filenames) := GetChildren dbname_ e in
        if negb (ok s) then ret (s, lock, save_manifest, edit)
        else
          expected <- in_set (on_heap (AddLiveFiles ∅)) ;;
          let '(missing, logs) := listed (vs_log_number_ set) (vs_prev_log_number_ set) filenames expected in
          match merge_sort Z.le (elements missing) with
          | first :: _ =>
              ret (Corruption (decimal (Z.of_nat (List.length (elements missing))) ++ literal " missing files; e.g.") (TableFileName dbname_ first), lock, save_manifest, edit)
          | [] =>
              r <- recover_logs (merge_sort Z.le logs) (save_manifest, edit, 0) ;;
              let '(s, save_manifest, edit, max_sequence) := r in
              if negb (ok s) then ret (s, lock, save_manifest, edit)
              else
                in_set (modify (fun s => if vs_last_sequence_ s <? max_sequence then set_last_sequence max_sequence s else s)) ;;
                ret (OK, lock, save_manifest, edit)
          end.

(** A database as its constructor leaves it. *)
Definition new_DBImpl (e : E) : DB E H :=
  mk_db (mk_manifest (snd (new_VersionSet (mk_vset 0 0 0 0 0 None [] empty_heap))) e None None)
    (mk_writing None None false None 0 None [] new_WriteBatch)
    (mk_background [] ∅ false None OK false (repeat (mk_cstats 0 0) (Z.to_nat kNumLevels)) 0).

(** [DB::Open] on what the constructor made, until the mutex is released. *)
Definition DB_Open : M (DB E H) (Status * option L) :=
  r <- db_Recover new_VersionEdit ;;
  let '(s, lock, save_manifest, edit) := r in
  w <- gets writing_ ;;
  r <- (if ok s && match mem_ w with None => true | Some _ => false end then
          new_log_number <- in_set NewFileNumber ;;
          r <- in_env (call (NewWritableFile (LogFileName dbname_ new_log_number))) ;;
          let '(s, lfile) := r in
          if ok s then
            lfile <- or_stuck lfile ;;
            in_writing (modify (fun w => set_mem (Some (mem_Ref new_MemTable)) (set_log (Some lfile) new_log_number (Some (new_Writer lfile)) w))) ;;
            ret (s, SetLogNumber new_log_number edit)
          else ret (s, edit)
        else ret (s, edit)) ;;
  let '(s, edit) := r in
  s <- (if ok s && save_manifest then
          w <- gets writing_ ;;
          r <- in_versions (LogAndApply dbname_ others_set (SetLogNumber (logfile_number_ w) (SetPrevLogNumber 0 edit))) ;; ret (fst r)
        else ret s) ;;
  (if ok s then DeleteObsoleteFiles dbname_ ;; MaybeScheduleCompaction else ret tt) ;;
  w <- gets writing_ ;;
  asserted (negb (ok s) || match mem_ w with Some _ => true | None => false end) ;;
  ret (s, lock).

(** A file is removed; the first error is kept. *)
Definition destroy_file (result : Status) (filename : list Z) : M E Status :=
  match ParseFileName filename with
  | Some (_, kDBLockFile) | None => ret result
  | Some _ =>
      del <- call (RemoveFile (dbname_ ++ literal "/" ++ filename)) ;;
      ret (if ok result && negb (ok del) then del else result)
  end.

Definition DestroyDB : M E Status :=
  e <- get ;;
  let '(result, filenames) := GetChildren dbname_ e in
  if negb (ok result) then ret OK
  else
    let lockname := LockFileName dbname_ in
    r <- call (LockFile lockname) ;;
    let '(result, lock) := r in
    if ok result then
      lock <- or_stuck lock ;;
      result <- fold_m destroy_file filenames result ;;
      call (UnlockFile lock) ;;
      call (RemoveFile lockname) ;;
      call (DeleteDir dbname_) ;;
      ret result
    else ret result.
End Opening.
