(* ===== verification/LdbDbProps.v ===== *)
(** Compactions: which entries [DoCompactionWork] may drop, and what it writes. *)

From Stdlib Require Import ZArith Lia List String Bool SpecFloat.
From stdpp Require Import base gmap list sorting.
From S2P Require Import Prelude Base128 LdbBase LdbText LdbCoding LdbLog LdbKeys LdbKeyProps LdbMemTable LdbBlock LdbBlockProps LdbBlockBuild LdbIterator LdbTwoLevelProps LdbVersionEdit LdbFormat LdbLogRead LdbLogTotal LdbTable LdbTableFinish LdbTableTheorems LdbDbIter LdbDbIterProps LdbDbIterTheorems LdbVersion LdbVersionOverlap LdbVersionGet LdbVersionSet LdbCompaction LdbEnv LdbManifest LdbManifestProps LdbRecover LdbDbImpl.

(** ** Entries that are kept *)

Section Kept.
Context {U : Comparator} {LU : ComparatorLaws U}.
Context (base : Slice -> bool) (smallest : Z).

Abbreviation iorder := internal_order.

(** The newest visible entry of a user key among [l]. *)
Definition newest (l : list version) (u : Slice) (s : Z) (e : version) : Prop :=
  e ∈ l /\ visible u s e /\ forall d, d ∈ l -> visible u s d -> iorder (v_ikey e) (v_ikey d) <= 0.

(** What a read of the user key at the sequence number gives. *)
Definition reads (l : list version) (u : Slice) (s : Z) (r : option Slice) : Prop :=
  match r with
  | Some v => exists e, newest l u s e /\ pk_type (v_key e) = kTypeValue /\ v_value e = v
  | None => (forall e, e ∈ l -> ~ visible u s e) \/ exists e, newest l u s e /\ pk_type (v_key e) = kTypeDeletion
  end.

(** The locals of the loop: the user key and the sequence number of the last entry, if there is one. *)
Definition last_for (k : option (Slice * Z)) (e : version) : Z :=
  match k with Some (u, n) => if order (v_user e) u =? 0 then n else kMaxSequenceNumber | None => kMaxSequenceNumber end.
Definition key_for (k : option (Slice * Z)) (e : version) : option (Slice * Z) :=
  match k with
  | Some (u, n) => Some (if order (v_user e) u =? 0 then u else v_user e, pk_sequence (v_key e))
  | None => Some (v_user e, pk_sequence (v_key e))
  end.
Definition is_dropped (k : option (Slice * Z)) (e : version) : bool :=
  (last_for k e <=? smallest) || (is_deletion (pk_type (v_key e)) && (pk_sequence (v_key e) <=? smallest) && base (v_user e)).

(** The entries that the loop keeps. *)
Fixpoint kept (k : option (Slice * Z)) (ps : list version) : list version :=
  match ps with
  | [] => []
  | e :: ps' => (if is_dropped k e then [] else [e]) ++ kept (key_for k e) ps'
  end.

Lemma kept_elem ps : forall k e, e ∈ kept k ps -> e ∈ ps.
Proof.
  induction ps as [|a ps IH]; intros k e He; [done|]. cbn [kept] in He. apply elem_of_app in He as [He|He]; [|apply list_elem_of_further; by eapply IH].
  destruct (is_dropped k a); [by apply not_elem_of_nil in He|]. apply list_elem_of_singleton in He as ->. apply list_elem_of_here.
Qed.

Lemma versions_cons e ps : versions (e :: ps) -> version_ok e /\ versions ps /\ forall d, d ∈ ps -> version_ok d /\ iorder (v_ikey e) (v_ikey d) < 0.
Proof.
  intros [Hok [Hk Hs]]. apply Forall_cons_1 in Hok as [He Hok]. cbn [map] in Hk, Hs. apply Forall_cons_1 in Hk as [_ Hk]. apply StronglySorted_inv in Hs as [Hs Hlt].
  split; [done|]. split; [by split|]. intros d Hd. rewrite Forall_forall in Hok. rewrite Forall_forall in Hlt. split; [by apply Hok|]. apply Hlt. apply list_elem_of_fmap. exists (version_entry d). split; [done|]. by apply list_elem_of_fmap_2.
Qed.

Lemma versions_intro e ps : version_ok e -> versions ps -> (forall d, d ∈ ps -> iorder (v_ikey e) (v_ikey d) < 0) -> versions (e :: ps).
Proof.
  intros He [Hok [Hk Hs]] Hlt. split; [by constructor|]. split; cbn [map]; constructor; try done; [by apply v_ikey_ok|].
  rewrite Forall_forall. intros k (x & -> & (d & -> & Hd)%list_elem_of_fmap)%list_elem_of_fmap. by apply Hlt.
Qed.

Lemma kept_versions ps : forall k, versions ps -> versions (kept k ps).
Proof.
  induction ps as [|e ps IH]; intros k Hps; [done|]. destruct (versions_cons e ps Hps) as (He & Hps' & Hlt). cbn [kept]. destruct (is_dropped k e); [by apply IH|]. cbn [app].
  apply versions_intro; [done|by apply IH|]. intros d Hd. apply kept_elem in Hd. by apply Hlt.
Qed.

Lemma kept_length ps : forall k, (List.length (kept k ps) <= List.length ps)%nat.
Proof. induction ps as [|e ps IH]; intros k; [done|]. cbn [kept]. rewrite length_app. specialize (IH (key_for k e)). destruct (is_dropped k e); cbn [List.length]; lia. Qed.

(** One before another: its user key comes first, or it is the same one and it is newer. *)
Lemma before_user a b : version_ok a -> version_ok b -> iorder (v_ikey a) (v_ikey b) < 0 -> order (v_user a) (v_user b) < 0 \/ order (v_user a) (v_user b) = 0 /\ pk_sequence (v_key b) <= pk_sequence (v_key a).
Proof.
  intros Ha Hb Hlt. destruct (v_ikey_ok a Ha) as [_ Xa], (v_ikey_ok b Hb) as [_ Xb]. unfold internal_order in Hlt. rewrite Xa, Xb in Hlt. destruct (Z.eqb_spec (order (v_user a) (v_user b)) 0) as [H0|H0]; [right|by left]. split; [done|].
  destruct Ha as (_ & Hsa & _), Hb as (_ & Hsb & _). unfold number_of, v_ikey, version_entry in Hlt. cbn [fst] in Hlt. rewrite !key_number_of, !PackSequenceAndType_sum in Hlt by done.
  assert (Ht : forall e, 0 <= ValueType_value (pk_type (v_key e)) <= 1) by (intros e; destruct (pk_type (v_key e)); cbn; lia). pose proof (Ht a). pose proof (Ht b).
  destruct (Z.ltb_spec (pk_sequence (v_key b) * 256 + ValueType_value (pk_type (v_key b))) (pk_sequence (v_key a) * 256 + ValueType_value (pk_type (v_key a)))); [lia|].
  destruct (Z.ltb_spec (pk_sequence (v_key a) * 256 + ValueType_value (pk_type (v_key a))) (pk_sequence (v_key b) * 256 + ValueType_value (pk_type (v_key b)))); lia.
Qed.

Lemma order_eq_sym a b : key_ok a -> key_ok b -> order a b = 0 -> order b a = 0.
Proof. intros Ha Hb H. pose proof (order_flip _ _ Ha Hb). pose proof (order_flip _ _ Hb Ha). lia. Qed.

Lemma order_eq_l a b c : key_ok a -> key_ok b -> key_ok c -> order a b = 0 -> order b c <= 0 -> order a c <= 0.
Proof. intros Ha Hb Hc H1 H2. apply (order_trans a b c); lia || done. Qed.

Lemma order_eq_trans a b c : key_ok a -> key_ok b -> key_ok c -> order a b = 0 -> order b c = 0 -> order a c = 0.
Proof.
  intros Ha Hb Hc H1 H2. pose proof (order_trans a b c Ha Hb Hc ltac:(lia) ltac:(lia)). pose proof (order_trans c b a Hc Hb Ha ltac:(rewrite order_eq_sym; done || lia) ltac:(rewrite order_eq_sym; done || lia)).
  pose proof (order_flip _ _ Ha Hc). pose proof (order_flip _ _ Hc Ha). lia.
Qed.

Lemma version_user_ok e : version_ok e -> key_ok (v_user e).
Proof. by intros (H & _). Qed.

(** Behind an entry that every snapshot sees, the others of its user key are dropped. *)
Lemma kept_hidden ps : forall cur n u, key_ok cur -> key_ok u -> order cur u = 0 -> n <= smallest -> versions ps ->
  (forall e, e ∈ ps -> order u (v_user e) <= 0) -> (forall e, e ∈ ps -> order (v_user e) u = 0 -> pk_sequence (v_key e) <= n) ->
  forall e, e ∈ kept (Some (cur, n)) ps -> order (v_user e) u <> 0.
Proof.
  induction ps as [|a ps IH]; intros cur n u Hcur Hu Heq Hn Hps Hafter Hseq e He; [by apply not_elem_of_nil in He|]. destruct (versions_cons a ps Hps) as (Ha & Hps' & Hlt). pose proof (version_user_ok a Ha) as Hka.
  destruct (decide (order (v_user a) u = 0)) as [H0|H0].
  - assert (Hc : order (v_user a) cur = 0) by (apply (order_eq_trans _ u); try done; by apply order_eq_sym). cbn [kept] in He. unfold is_dropped, last_for, key_for in He. rewrite Hc, Z.eqb_refl in He.
    replace (n <=? smallest) with true in He by (symmetry; by apply Z.leb_le). cbn [orb app] in He. assert (Hsa : pk_sequence (v_key a) <= n) by (apply Hseq; [apply list_elem_of_here|done]).
    apply (IH cur (pk_sequence (v_key a)) u); try done; [lia|intros d Hd; apply Hafter; by apply list_elem_of_further|]. intros d Hd Hd0. destruct (Hlt d Hd) as [Hdok Hdlt]. pose proof (version_user_ok d Hdok).
    destruct (before_user a d Ha Hdok Hdlt) as [Hb|[_ Hb]]; [|done]. assert (order (v_user a) (v_user d) = 0) by (apply (order_eq_trans _ u); try done; by apply order_eq_sym). lia.
  - pose proof (Hafter a (list_elem_of_here _ _)) as Hle. assert (Hua : order u (v_user a) < 0). { destruct (Z.eq_dec (order u (v_user a)) 0) as [E|]; [|lia]. exfalso. apply H0. by apply order_eq_sym. }
    apply kept_elem, elem_of_cons in He as [->|He]; [done|]. intros He0. destruct (Hlt e He) as [Heok Helt]. pose proof (version_user_ok e Heok) as Hke.
    assert (order (v_user a) (v_user e) <= 0) by (destruct (before_user a e Ha Heok Helt) as [|[]]; lia). pose proof (order_lt_le_trans u (v_user a) (v_user e) Hu Hka Hke Hua ltac:(done)). apply order_eq_sym in He0; [lia|done..].
Qed.

Section Read.
Context (u : Slice) (s : Z) (Hu : key_ok u) (Hs : smallest <= s) (Hmax : smallest < kMaxSequenceNumber).

(** No entry of the user key has been visible so far. *)
Definition unseen (k : option (Slice * Z)) (ps : list version) : Prop :=
  match k with Some (cur, n) => key_ok cur /\ (forall e, e ∈ ps -> order cur (v_user e) <= 0) /\ (order cur u = 0 -> s < n) | None => True end.

(** The first visible entry is kept, or it is a deletion that nothing is below. *)
Lemma kept_first ps : forall k, versions ps -> unseen k ps ->
  (forall e, e ∈ ps -> ~ visible u s e) \/
  exists e0, e0 ∈ ps /\ visible u s e0 /\ (forall d, d ∈ ps -> visible u s d -> d = e0 \/ iorder (v_ikey e0) (v_ikey d) < 0) /\
    (e0 ∈ kept k ps \/ pk_type (v_key e0) = kTypeDeletion /\ base (v_user e0) = true /\ forall d, d ∈ kept k ps -> ~ visible u s d).
Proof.
  induction ps as [|a ps IH]; intros k Hps Hk; [left; intros e He; by apply not_elem_of_nil in He|]. destruct (versions_cons a ps Hps) as (Ha & Hps' & Hlt). pose proof (version_user_ok a Ha) as Hka.
  assert (Hnext : forall d, d ∈ ps -> order (v_user a) (v_user d) <= 0) by (intros d Hd; destruct (Hlt d Hd) as [Hdok Hdlt]; destruct (before_user a d Ha Hdok Hdlt) as [|[]]; lia).
  (* The user key that is noted. *)
  assert (Hcur : exists cur, key_for k a = Some (cur, pk_sequence (v_key a)) /\ key_ok cur /\ order cur (v_user a) = 0).
  { destruct k as [[cur n]|]; cbn [key_for]; [|exists (v_user a); split; [done|split; [done|by apply order_refl]]]. destruct Hk as (Hkc & _). destruct (Z.eqb_spec (order (v_user a) cur) 0) as [E|_]; [exists cur|exists (v_user a)]; (split; [done|split; [done|]]); [by apply order_eq_sym|by apply order_refl]. }
  destruct Hcur as (cur & Ek & Hkc & Hca). destruct (decide (order (v_user a) u = 0 /\ seen s a = true)) as [Hv|Hv].
  - right. exists a. split; [apply list_elem_of_here|]. split; [done|]. split; [intros d [->|Hd]%elem_of_cons _; [by left|right; apply (Hlt d Hd)]|]. destruct Hv as [Hv0 Hvs]. cbn [kept]. rewrite Ek.
    assert (Hlast : (last_for k a <=? smallest) = false). { apply Z.leb_gt. unfold last_for. destruct k as [[c n]|]; [|lia]. destruct (Z.eqb_spec (order (v_user a) c) 0) as [E|]; [|lia]. destruct Hk as (Hc & _ & Hn). specialize (Hn (order_eq_trans c (v_user a) u Hc Hka Hu (order_eq_sym _ _ Hka Hc E) Hv0)). lia. }
    unfold is_dropped. rewrite Hlast. cbn [orb]. destruct (is_deletion (pk_type (v_key a)) && (pk_sequence (v_key a) <=? smallest) && base (v_user a)) eqn:Ed; [right|left; apply list_elem_of_here].
    apply andb_true_iff in Ed as [[Ed Es]%andb_true_iff Eb]. apply Z.leb_le in Es. split; [by destruct (pk_type (v_key a))|]. split; [done|]. cbn [app]. intros d Hd [Hd0 _]. revert Hd0.
    apply (kept_hidden ps cur (pk_sequence (v_key a)) u); try done; [by apply (order_eq_trans _ (v_user a))| |].
    + intros e He. destruct (Hlt e He) as [Heok _]. apply (order_eq_l u (v_user a)); [done|done|by apply version_user_ok|by apply order_eq_sym|by apply Hnext].
    + intros e He He0. destruct (Hlt e He) as [Heok Helt]. pose proof (version_user_ok e Heok). destruct (before_user a e Ha Heok Helt) as [Hb|[_ Hb]]; [|done].
      assert (order (v_user a) (v_user e) = 0) by (apply (order_eq_trans _ u); try done; by apply order_eq_sym). lia.
  - destruct (IH (key_for k a) Hps') as [Hnone|(e0 & H1 & H2 & H3 & H4)].
    + rewrite Ek. split; [done|]. split.
      * intros e He. apply (order_eq_l cur (v_user a)); [done|done|apply version_user_ok, (Hlt e He)|done|by apply Hnext].
      * intros Hcu. assert (Hau : order (v_user a) u = 0) by (apply (order_eq_trans _ cur); try done; by apply order_eq_sym). destruct (Z.leb_spec (pk_sequence (v_key a)) s) as [Hle|]; [|done]. exfalso. apply Hv. split; [done|]. unfold seen. by apply Z.leb_le.
    + left. intros e [->|He]%elem_of_cons; [done|by apply Hnone].
    + right. exists e0. split; [by apply list_elem_of_further|]. split; [done|]. split; [intros d [->|Hd]%elem_of_cons Hvd; [done|by apply H3]|]. cbn [kept]. destruct H4 as [H4|(H5 & H6 & H7)].
      * left. apply elem_of_app. by right.
      * right. split; [done|]. split; [done|]. intros d [Hd|Hd]%elem_of_app; [|by apply H7]. destruct (is_dropped k a); [by apply not_elem_of_nil in Hd|]. by apply list_elem_of_singleton in Hd as ->.
Qed.

(** The entries that are not part of the compaction: newer than those of the same user key that are, or older where the key is not at its base level. *)
Definition around (ps rest : list version) : Prop :=
  Forall version_ok rest /\ forall d e, d ∈ rest -> e ∈ ps -> order (v_user d) (v_user e) = 0 -> iorder (v_ikey d) (v_ikey e) < 0 \/ iorder (v_ikey e) (v_ikey d) < 0 /\ base (v_user e) = false.

Lemma newest_iff l l' e : (forall d, visible u s d -> d ∈ l <-> d ∈ l') -> newest l u s e <-> newest l' u s e.
Proof. intros H. unfold newest. split; intros (H1 & H2 & H3); (split; [by apply H|split; [done|intros d Hd Hvd; apply H3; [by apply H|done]]]). Qed.

Lemma reads_newest l l' r : (forall e, newest l u s e <-> newest l' u s e) -> ((forall e, e ∈ l -> ~ visible u s e) <-> (forall e, e ∈ l' -> ~ visible u s e)) -> reads l u s r <-> reads l' u s r.
Proof.
  intros H1 H2. unfold reads. destruct r as [v|].
  - split; intros (e & He & Hx); exists e; (split; [by apply H1|done]).
  - rewrite H2. split; (intros [Hx|(e & He & Hx)]; [by left|right; exists e; split; [by apply H1|done]]).
Qed.

Lemma visible_ok_trans a b c : version_ok a -> version_ok b -> version_ok c -> iorder (v_ikey a) (v_ikey b) <= 0 -> iorder (v_ikey b) (v_ikey c) <= 0 -> iorder (v_ikey a) (v_ikey c) <= 0.
Proof. intros Ha Hb Hc. apply (order_trans (ComparatorLaws := internal_laws)); by apply v_ikey_ok. Qed.

(** Every read at a snapshot that is still of use gives the same. *)
Lemma kept_reads ps rest r : versions ps -> around ps rest -> reads (ps ++ rest) u s r <-> reads (kept None ps ++ rest) u s r.
Proof.
  intros Hps [Hrok Hrest]. rewrite Forall_forall in Hrok. pose proof (proj1 Hps) as Hpok. rewrite Forall_forall in Hpok.
  destruct (kept_first ps None Hps I) as [Hnone|(e0 & H1 & H2 & H3 & H4)].
  - assert (Hsame : forall d, visible u s d -> d ∈ ps ++ rest <-> d ∈ kept None ps ++ rest) by (intros d Hd; rewrite !elem_of_app; split; (intros [Hx|Hx]; [exfalso|by right]); [by apply (Hnone d)|by apply (Hnone d); [eapply kept_elem|]]).
    apply reads_newest; [intros e; by apply newest_iff|]. split; intros H e He Hve; apply (H e); try done; by apply Hsame.
  - assert (Hle : forall d, d ∈ ps -> visible u s d -> iorder (v_ikey e0) (v_ikey d) <= 0). { intros d Hd Hvd. destruct (H3 d Hd Hvd) as [->|]; [|lia]. rewrite (order_refl (ComparatorLaws := internal_laws) (v_ikey e0) (proj1 (v_ikey_ok e0 (Hpok e0 H1))) : iorder _ _ = 0). lia. }
    destruct H4 as [H4|(H5 & H6 & H7)].
    + apply reads_newest; [|split; intros H; exfalso; apply (H e0); try done; apply elem_of_app; by left]. intros e. split; intros (N1 & N2 & N3); (split; [|split; [done|]]).
      * apply elem_of_app in N1 as [N1|N1]; apply elem_of_app; [left|by right]. destruct (H3 e N1 N2) as [->|Hlt]; [done|]. pose proof (N3 e0 ltac:(apply elem_of_app; by left) H2) as Hx.
        pose proof (order_flip (ComparatorLaws := internal_laws) (v_ikey e0) (v_ikey e) (proj1 (v_ikey_ok e0 (Hpok e0 H1))) (proj1 (v_ikey_ok e (Hpok e N1)))) as Hf. cbn [order internal_laws] in Hf. lia.
      * intros d [Hd|Hd]%elem_of_app Hvd; apply N3; try done; apply elem_of_app; [left; by eapply kept_elem|by right].
      * apply elem_of_app in N1 as [N1|N1]; apply elem_of_app; [left; by eapply kept_elem|by right].
      * intros d [Hd|Hd]%elem_of_app Hvd; [|apply N3; [apply elem_of_app; by right|done]]. assert (Heok : version_ok e) by (apply elem_of_app in N1 as [N1|N1]; [apply Hpok; by eapply kept_elem|by apply Hrok]).
        apply (visible_ok_trans e e0 d); [done|by apply Hpok..| |by apply Hle]. apply N3; [apply elem_of_app; by left|done].
    + (* The first one is a deletion that is dropped: of the rest, only newer ones have the key. *)
      assert (Hnew : forall d, d ∈ rest -> visible u s d -> iorder (v_ikey d) (v_ikey e0) < 0).
      { intros d Hd [Hd0 _]. destruct (Hrest d e0 Hd H1) as [|[_ Hb]]; [|done|congruence]. apply (order_eq_trans _ u); [by apply version_user_ok, Hrok|done|by apply version_user_ok, Hpok|done|]. apply order_eq_sym; [by apply version_user_ok, Hpok|done|apply H2]. }
      assert (Hmin : forall d e, d ∈ rest -> visible u s d -> e ∈ ps -> visible u s e -> iorder (v_ikey d) (v_ikey e) < 0).
      { intros d e Hd Hvd He Hve. apply (iorder_lt_le _ (v_ikey e0)); [by apply v_ikey_ok, Hrok|by apply v_ikey_ok, Hpok..|by apply Hnew|by apply Hle]. }
      assert (Hrestn : forall e, newest (kept None ps ++ rest) u s e <-> newest rest u s e) by (intros e; apply newest_iff; intros d Hd; rewrite elem_of_app; split; [intros [Hx|]; [by destruct (H7 d)|done]|by right]).
      assert (Hps' : forall e, e ∈ rest -> newest (ps ++ rest) u s e <-> newest rest u s e).
      { intros e He. unfold newest. split; intros (N1 & N2 & N3); (split; [by apply elem_of_app; right|split; [done|]]) || (split; [done|split; [done|]]).
        - intros d Hd Hvd. apply N3; [apply elem_of_app; by right|done].
        - intros d [Hd|Hd]%elem_of_app Hvd; [|by apply N3]. pose proof (Hmin e d He N2 Hd Hvd). lia. }
      assert (Hex : (exists d, d ∈ rest /\ visible u s d) \/ forall d, d ∈ rest -> ~ visible u s d).
      { destruct (decide (Exists (visible u s) rest)) as [Hx|Hx]; [left; by apply Exists_exists|right; intros d Hd Hvd; apply Hx, Exists_exists; by exists d]. }
      destruct Hex as [(d0 & Hd0 & Hvd0)|Hno].
      * apply reads_newest; [|split; intros H; exfalso; apply (H d0); try done; apply elem_of_app; by right]. intros e. rewrite Hrestn. destruct (decide (e ∈ rest)) as [He|He]; [by apply Hps'|]. split; [|by intros (N1 & _)].
        intros (N1 & N2 & N3). apply elem_of_app in N1 as [N1|N1]; [|done]. pose proof (Hmin d0 e Hd0 Hvd0 N1 N2). pose proof (N3 d0 ltac:(apply elem_of_app; by right) Hvd0) as Hx. 
        pose proof (order_flip (ComparatorLaws := internal_laws) (v_ikey d0) (v_ikey e) (proj1 (v_ikey_ok d0 (Hrok d0 Hd0))) (proj1 (v_ikey_ok e (Hpok e N1)))) as Hf. cbn [order internal_laws] in Hf. lia.
      * assert (He0 : newest (ps ++ rest) u s e0). { split; [apply elem_of_app; by left|]. split; [done|]. intros d [Hd|Hd]%elem_of_app Hvd; [by apply Hle|by destruct (Hno d)]. }
        unfold reads. destruct r as [v|].
        -- split; [|intros (e & He & _); exfalso; apply Hrestn in He as (N1 & N2 & _); by apply (Hno e)]. intros (e & (N1 & N2 & N3) & Ht & _). apply elem_of_app in N1 as [N1|N1]; [|by destruct (Hno e)].
           destruct (H3 e N1 N2) as [->|Hlt]; [congruence|]. pose proof (N3 e0 (proj1 He0) H2) as Hx. pose proof (order_flip (ComparatorLaws := internal_laws) (v_ikey e0) (v_ikey e) (proj1 (v_ikey_ok e0 (Hpok e0 H1))) (proj1 (v_ikey_ok e (Hpok e N1)))) as Hf. cbn [order internal_laws] in Hf. lia.
        -- split; intros _; [left|right; by exists e0]. intros e [He|He]%elem_of_app; [by apply H7|by apply Hno].
Qed.
End Read.
End Kept.

(** ** Tables in the environment *)

(** What a builder's operations keep, of its file and of the number of its entries. *)
Section BuilderKeeps.
Context {F : Type} {W : WritableFile F} {C : Comparator} (I : TableBuilder F -> Prop).
Context (HA : forall d, keeps I (tb_Append d)) (HF : keeps I tb_file_Flush).
Context (HI : forall t t', tb_file t' = tb_file t -> tb_num_entries t' = tb_num_entries t -> I t -> I t').

Ltac builder_step := keeps_step || apply HA || apply HF || (apply keeps_modify; intros ? ?; eapply HI; [| |eassumption]; reflexivity) || cbv zeta.

Lemma WriteRawBlock_keeps c type : keeps I (WriteRawBlock c type).
Proof. unfold WriteRawBlock. repeat builder_step. Qed.

Lemma WriteBlock_keeps b : keeps I (WriteBlock b).
Proof. unfold WriteBlock. repeat (builder_step || apply WriteRawBlock_keeps). Qed.

Lemma tb_Flush_keeps : keeps I tb_Flush.
Proof. unfold tb_Flush. repeat (builder_step || apply WriteBlock_keeps). Qed.

Lemma add_index_entry_keeps k : keeps I (add_index_entry k).
Proof. unfold add_index_entry. repeat builder_step. Qed.

Lemma tb_Finish_keeps : keeps I tb_Finish.
Proof. unfold tb_Finish, if_ok, gets. repeat (builder_step || apply add_index_entry_keeps || apply tb_Flush_keeps || apply WriteRawBlock_keeps || apply WriteBlock_keeps || by intros ?). Qed.

(** [Add] up to the entry itself, and behind it. *)
Definition index_pending (k : Slice) (t : TableBuilder F) : M (TableBuilder F) unit :=
  if tb_pending_index_entry t then add_index_entry (FindShortestSeparator (tb_last_key t) k) else ret tt.

Lemma index_pending_keeps k t : keeps I (index_pending k t).
Proof. unfold index_pending. repeat (builder_step || apply add_index_entry_keeps). Qed.

Lemma flush_if_full_keeps : keeps I flush_if_full.
Proof. unfold flush_if_full. repeat (builder_step || apply tb_Flush_keeps). Qed.
End BuilderKeeps.

Section BuilderFile.
Context {F : Type} {W : WritableFile F} {C : Comparator}.

(** [Add] in two parts. *)
Lemma tb_Add_parts k v (t t' : TableBuilder F) : tb_ok t = true -> tb_Add k v t = (Ret tt, t') ->
  exists t1, index_pending k t t = (Ret tt, t1) /\ flush_if_full (added k v t1) = (Ret tt, t').
Proof.
  intros Hok. unfold tb_Add. rewrite bind_get, Hok. cbn [negb]. fold (index_pending k t). unfold bind at 1. destruct (index_pending k t t) as [[[]| |] t1]; [|done..]. rewrite !bind_modify. intros E. by exists t1.
Qed.

Lemma tb_Add_count k v (t t' : TableBuilder F) : tb_ok t = true -> tb_Add k v t = (Ret tt, t') -> tb_num_entries t' = tb_num_entries t + 1.
Proof.
  intros Hok Hr. destruct (tb_Add_parts k v t t' Hok Hr) as (t1 & E1 & E2).
  assert (HK : forall n, (forall d, keeps (fun t : TableBuilder F => tb_num_entries t = n) (tb_Append d)) /\ keeps (fun t : TableBuilder F => tb_num_entries t = n) tb_file_Flush).
  { intros n. split; [intros d x Hx; unfold tb_Append; by destruct (file_Append d (tb_file x))|intros x Hx; unfold tb_file_Flush; by destruct (file_Flush (tb_file x))]. }
  destruct (HK (tb_num_entries t + 1)) as [A2 F2].
  pose proof (index_pending_keeps (fun x : TableBuilder F => tb_num_entries x = tb_num_entries t) ltac:(intros x y _ Hn Hx; congruence) k t t eq_refl) as K1. rewrite E1 in K1. cbn [snd] in K1.
  pose proof (flush_if_full_keeps (fun x : TableBuilder F => tb_num_entries x = tb_num_entries t + 1) A2 F2 ltac:(intros x y _ Hn Hx; congruence) (added k v t1) ltac:(cbn; by rewrite K1)) as K2. by rewrite E2 in K2.
Qed.

(** A builder writes to its file and to no other. *)
Context (P : F -> Prop) (HA : forall d f, P f -> P (snd (file_Append d f))) (HF : forall f, P f -> P (snd (file_Flush f))).

Lemma file_keeps : (forall d, keeps (fun t : TableBuilder F => P (tb_file t)) (tb_Append d)) /\ keeps (fun t : TableBuilder F => P (tb_file t)) tb_file_Flush.
Proof.
  split; [intros d t Ht; unfold tb_Append; specialize (HA d _ Ht); by destruct (file_Append d (tb_file t))|intros t Ht; unfold tb_file_Flush; specialize (HF _ Ht); by destruct (file_Flush (tb_file t))].
Qed.

Lemma tb_Finish_file t : P (tb_file t) -> P (tb_file (snd (tb_Finish t))).
Proof. destruct file_keeps as [A B]. apply (tb_Finish_keeps (fun x : TableBuilder F => P (tb_file x)) A B). intros x y -> _. done. Qed.

Lemma tb_Add_file k v t t' : tb_ok t = true -> tb_Add k v t = (Ret tt, t') -> P (tb_file t) -> P (tb_file t').
Proof.
  intros Hok Hr Ht. destruct (tb_Add_parts k v t t' Hok Hr) as (t1 & E1 & E2). destruct file_keeps as [A B].
  pose proof (index_pending_keeps (fun x : TableBuilder F => P (tb_file x)) ltac:(intros x y E _ Hx; cbn beta in *; by rewrite E) k t t Ht) as K1. rewrite E1 in K1.
  pose proof (flush_if_full_keeps (fun x : TableBuilder F => P (tb_file x)) A B ltac:(intros x y E _ Hx; cbn beta in *; by rewrite E) (added k v t1) K1) as K2. by rewrite E2 in K2.
Qed.
End BuilderFile.

Section Builders.
Context {E H G : Type} {V : Env E H G} {LV : EnvLaws V} {U : Comparator} {LU : ComparatorLaws U}.
Context (options : Options).

Abbreviation isource := (source (C := InternalKeyComparator U) (L := internal_laws)).

(** A builder of the environment that was given the entries [kvs]. *)
Definition holding (e : E) (b : TableBuilder H) (kvs : list entry) : Prop := exists done pend cur,
  built (W := writable (tb_file b)) (WL := writable_laws (tb_file b)) (C := InternalKeyComparator U) (L := internal_laws) options (builder_at e b) done pend cur /\ entries done pend cur = kvs /\ tb_num_entries b = Z.of_nat (List.length kvs).

(** The bytes are a table with the entries [kvs]. *)
Definition is_table (bytes : list Z) (kvs : list entry) : Prop := exists done,
  bytes = table_bytes options done /\ concat (map fst done) = kvs /\ Forall (fun b => b <> []) (map fst done) /\ separated (C := InternalKeyComparator U) (L := internal_laws) done [].

Lemma builder_at_twice {F F' F''} (f : F) (g : F') (t : TableBuilder F'') : builder_at f (builder_at g t) = builder_at f t.
Proof. done. Qed.

Lemma builder_at_self {F} (t : TableBuilder F) : builder_at (tb_file t) t = t.
Proof. by destruct t. Qed.

Lemma holding_same e e' b kvs : holding e b kvs -> file_data e' (file_of (tb_file b)) = file_data e (file_of (tb_file b)) -> holding e' b kvs.
Proof.
  intros (done & pend & cur & [B1 B2 B3 B4 B5 B6 B7 B8 B9 B10 B11 B12 B13 B14] & He & Hn) Hsame. exists done, pend, cur. split; [|done]. cbn [contents writable_laws tb_file builder_at] in *. split; try done; cbn in *; congruence.
Qed.

Lemma holding_new e h : file_data e (file_of h) = [] -> holding e (new_TableBuilder options h) [].
Proof.
  intros He. exists [], None, []. split; [|by destruct options as [? ? ? ? ? ? ? ? ? ? ? []]].
  assert (Hb : builder_at e (new_TableBuilder options h) = new_TableBuilder options e) by done. rewrite Hb. apply (built_new (W := writable h) (WL := writable_laws h)). exact He.
Qed.

Lemma only_file_ops (h : H) e : (forall d f, only_file (file_of h) e f -> only_file (file_of h) e (snd (file_Append (WritableFile := writable h) d f))) /\ (forall f, only_file (file_of h) e f -> only_file (file_of h) e (snd (file_Flush (WritableFile := writable h) f))).
Proof.
  split; [intros d f Hf|intros f Hf]; (eapply only_file_trans; [exact Hf|]).
  - destruct (L_Append h d f) as (f' & -> & H1 & _ & H3). by split.
  - destruct (L_Flush h f) as (f' & -> & H1). by apply only_file_same.
Qed.

Lemma builder_Add_ok e b kvs k v : holding e b kvs -> isource (kvs ++ [(k, v)]) ->
  exists b' e', builder_Add k v b e = (Ret b', e') /\ tb_file b' = tb_file b /\ holding e' b' (kvs ++ [(k, v)]) /\ only_file (file_of (tb_file b)) e e'.
Proof.
  intros (done & pend & cur & Hb & <- & Hn) Hsrc. destruct (tb_Add_ok (W := writable (tb_file b)) (WL := writable_laws (tb_file b)) (L := internal_laws) options (builder_at e b) done pend cur k v Hb Hsrc) as (t' & done' & pend' & cur' & Et & Ht & He).
  destruct (only_file_ops (tb_file b) e) as [HA HF]. assert (Hok : tb_ok (builder_at e b) = true) by (apply tb_ok_OK, (bt_status _ _ _ _ _ Hb)).
  pose proof (tb_Add_file (W := writable (tb_file b)) (C := InternalKeyComparator U) (only_file (file_of (tb_file b)) e) HA HF k v (builder_at e b) t' Hok Et ltac:(by apply only_file_same)) as Hk.
  pose proof (tb_Add_count (W := writable (tb_file b)) (C := InternalKeyComparator U) k v _ _ Hok Et) as Hcount. cbn [tb_num_entries builder_at] in Hcount.
  exists (builder_at (tb_file b) t'), (tb_file t'). split; [unfold builder_Add, with_builder, bind; by rewrite Et|]. split; [done|]. split; [|done]. exists done', pend', cur'. split; [rewrite builder_at_twice; cbn [tb_file builder_at]; by rewrite builder_at_self|]. split; [done|]. cbn [tb_num_entries builder_at]. rewrite Hcount, Hn, length_app. cbn. lia.
Qed.

Lemma builder_Finish_ok e b kvs : holding e b kvs -> isource kvs ->
  exists b' e', builder_Finish (U := U) b e = (Ret (OK, b'), e') /\ tb_file b' = tb_file b /\ is_table (file_data e' (file_of (tb_file b))) kvs /\ FileSize b' = u64 (size (file_data e' (file_of (tb_file b)))) /\ only_file (file_of (tb_file b)) e e'.
Proof.
  intros (done & pend & cur & Hb & <- & _) Hsrc. destruct (tb_Finish_ok (W := writable (tb_file b)) (WL := writable_laws (tb_file b)) (L := internal_laws) options (builder_at e b) done pend cur Hb Hsrc) as (t' & done' & Et & T1 & T2 & T3 & T4 & T5).
  destruct (only_file_ops (tb_file b) e) as [HA HF]. pose proof (tb_Finish_file (W := writable (tb_file b)) (C := InternalKeyComparator U) (only_file (file_of (tb_file b)) e) HA HF (builder_at e b) ltac:(by apply only_file_same)) as Hk. rewrite Et in Hk. cbn in Hk.
  exists (builder_at (tb_file b) t'), (tb_file t'). split; [unfold builder_Finish, with_builder; by rewrite Et|]. split; [done|]. split; [by exists done'|done].
Qed.

Lemma sync_and_close_ok (h : H) e : exists e', sync_and_close (V := V) h OK e = (Ret OK, e') /\ same_files file_dir file_data e e'.
Proof.
  destruct (L_Sync h e) as (e1 & E1 & [S1 S2]), (L_Close h e1) as (e2 & E2 & [S3 S4]), (L_close_writable h e2) as [S5 S6]. exists (close_writable h e2).
  split; [|split; [congruence|intros i; by rewrite S6, S4, S2]]. unfold sync_and_close, call, bind. cbn [ok OK]. rewrite E1. cbn [ok OK]. rewrite E2. done.
Qed.
End Builders.

(** ** [IsBaseLevelForKey] *)

Lemma wp_on_it {S I A} (m : M I A) (it : I) (Q : A * I -> S -> Prop) E s : wp m (fun a it' => Q (a, it') s) (fun _ => E s) it -> wp (on_it m it) Q E s.
Proof. unfold wp, on_it. destruct (m it) as [[a| |] it']; done. Qed.

Lemma wp_on_compaction {S H A} (m : M Compaction A) (compact : CompactionState H) (Q : A * CompactionState H -> S -> Prop) E s :
  wp m (fun a c => Q (a, set_compaction c compact) s) (fun _ => False) (compaction compact) -> wp (on_compaction m compact) Q E s.
Proof. intros Hm. unfold on_compaction. apply wp_bind, wp_on_it. eapply wp_mono; [exact Hm| |done]. intros a c HQ. by apply wp_ret. Qed.

Section BaseLevel.
Context {U : Comparator} {LU : ComparatorLaws U}.

(** The user key is in the range of the file. *)
Definition covers (u : Slice) (f : FilePtr) : bool := (0 <=? order u (f_start f)) && (order u (f_limit f) <=? 0).

Lemma covers_true u f : covers u f = true <-> 0 <= order u (f_start f) /\ order u (f_limit f) <= 0.
Proof. unfold covers. by rewrite andb_true_iff, !Z.leb_le. Qed.

(** No file of the levels below the compaction's outputs has it in its range. *)
Definition lower_levels (level : Z) : list Z := drop (Z.to_nat (level + 2)) all_levels.
Definition is_base (v : Version) (level : Z) (u : Slice) : bool := forallb (fun l => negb (existsb (covers u) (files_at v l))) (lower_levels level).

Lemma is_base_file v level u l f : is_base v level u = true -> l ∈ lower_levels level -> f ∈ files_at v l -> covers u f = false.
Proof.
  intros Hb Hl Hf. unfold is_base in Hb. rewrite forallb_forall in Hb. specialize (Hb l). rewrite <- list_elem_of_In in Hb. specialize (Hb Hl). apply negb_true_iff in Hb.
  destruct (covers u f) eqn:E; [|done]. exfalso. apply not_true_iff_false in Hb. apply Hb, existsb_exists. exists f. split; [by apply list_elem_of_In|done].
Qed.

(** The files before the pointer are before the user key. *)
Definition before_ptr (u : Slice) (files : list FilePtr) (p : nat) : Prop := forall f, f ∈ take p files -> 0 < order u (f_limit f).

Lemma wp_advance_ptr {T} (u : Slice) (Hu : key_ok u) files : forall pre (Q : Z * bool -> T -> Prop) E t, level_ok (pre ++ files) -> before_ptr u (pre ++ files) (List.length pre) ->
  (forall p, before_ptr u (pre ++ files) p -> Q (Z.of_nat p, existsb (covers u) (pre ++ files)) t) -> wp (advance_ptr u files (Z.of_nat (List.length pre))) Q E t.
Proof.
  induction files as [|f files IH]; intros pre Q E t Hl Hb HQ; cbn [advance_ptr].
  - rewrite app_nil_r in *. apply wp_ret. assert (Ex : existsb (covers u) pre = false). { apply not_true_iff_false. intros (f & Hf & Hc)%existsb_exists. apply list_elem_of_In in Hf. specialize (Hb f). rewrite firstn_all in Hb. specialize (Hb Hf). apply covers_true in Hc. lia. }
    specialize (HQ (List.length pre) Hb). by rewrite Ex in HQ.
  - assert (Hf : file_ok f) by (apply (level_file (pre ++ f :: files) (List.length pre)); [done|by rewrite lookup_app_r, Nat.sub_diag by lia]). pose proof Hf as Hfile. destruct Hf as ((_ & Hs) & (_ & Hlim) & Hle & _). apply user_order_le in Hle.
    apply wp_bind, wp_limit; [done|]. apply wp_bind, wp_or_stuck. exists (order u (f_limit f)). split; [by apply Compare_order|].
    assert (Hpre : existsb (covers u) pre = false). { apply not_true_iff_false. intros (g & Hg & Hc)%existsb_exists. apply list_elem_of_In in Hg. specialize (Hb g). rewrite take_app_length in Hb. specialize (Hb Hg). apply covers_true in Hc. lia. }
    destruct (Z.leb_spec (order u (f_limit f)) 0) as [Hc|Hc].
    + apply wp_bind, wp_start; [done|]. apply wp_bind, wp_or_stuck. exists (order u (f_start f)). split; [by apply Compare_order|]. apply wp_ret. specialize (HQ (List.length pre) Hb). rewrite existsb_app, Hpre in HQ. cbn [orb existsb] in HQ. unfold covers at 1 in HQ.
      replace (order u (f_limit f) <=? 0) with true in HQ by (symmetry; by apply Z.leb_le). rewrite andb_true_r in HQ. destruct (Z.leb_spec 0 (order u (f_start f))) as [H0|H0]; [exact HQ|]. cbn [orb] in HQ.
      assert (Hrest : existsb (covers u) files = false); [|by rewrite Hrest in HQ]. apply not_true_iff_false. intros (g & Hg & Hcg)%existsb_exists. apply list_elem_of_In, list_elem_of_lookup_1 in Hg as [j Hj].
      assert (Hg : (pre ++ f :: files) !! (List.length pre + S j)%nat = Some g) by (rewrite lookup_app_r by lia; replace (_ - _)%nat with (S j) by lia; exact Hj).
      assert (Hf' : (pre ++ f :: files) !! List.length pre = Some f) by (by rewrite lookup_app_r, Nat.sub_diag by lia). pose proof (level_before _ (List.length pre) (List.length pre + S j)%nat f g Hl ltac:(lia) Hf' Hg) as Hlt. pose proof (level_file _ _ _ Hl Hg) as ((_ & Hgs) & _).
      apply Z.lt_le_incl, user_order_le in Hlt. fold (f_limit f) (f_start g) in Hlt. fold (f_start f) (f_limit f) in Hle. fold (f_start f) in Hs. fold (f_limit f) in Hlim. fold (f_start g) in Hgs. apply covers_true in Hcg. pose proof (order_lt_le_trans u (f_start f) (f_limit f) Hu Hs Hlim H0 Hle). pose proof (order_lt_le_trans u (f_limit f) (f_start g) Hu Hlim Hgs ltac:(lia) Hlt). lia.
    + replace (Z.of_nat (List.length pre) + 1) with (Z.of_nat (List.length (pre ++ [f]))) by (rewrite length_app; cbn; lia). apply (IH (pre ++ [f])); [by rewrite <- app_assoc| |by rewrite <- app_assoc].
      rewrite <- app_assoc. cbn [app]. intros g Hg. rewrite length_app in Hg. cbn [List.length] in Hg. rewrite take_app_ge in Hg by lia. replace (_ - _)%nat with 1%nat in Hg by lia. cbn [take firstn] in Hg.
      apply elem_of_app in Hg as [Hg| ->%list_elem_of_singleton]; [|done]. apply Hb. by rewrite take_app_length.
Qed.

(** The members that the questions about a running compaction do not touch. *)
Record same_compaction (c c' : Compaction) : Prop := {
  sc_level : level_ c' = level_ c;
  sc_size : max_output_file_size_ c' = max_output_file_size_ c;
  sc_inputs : inputs_0 c' = inputs_0 c /\ inputs_1 c' = inputs_1 c /\ input_version_ c' = input_version_ c;
  sc_edit : edit_ c' = edit_ c;
  sc_grandparents : grandparents_ c' = grandparents_ c
}.

Lemma same_compaction_refl c : same_compaction c c.
Proof. by split. Qed.

Lemma same_compaction_trans a b c : same_compaction a b -> same_compaction b c -> same_compaction a c.
Proof. intros [A1 A2 (A3 & A4 & A5) A6 A7] [B1 B2 (B3 & B4 & B5) B6 B7]. split; [congruence..|split; [congruence|split; congruence]|congruence|congruence]. Qed.

Definition ptrs_ok (v : Version) (c : Compaction) (u : Slice) : Prop :=
  forall l, l ∈ lower_levels (level_ c) -> exists p, level_ptrs_ c !! Z.to_nat l = Some (Z.of_nat p) /\ before_ptr u (files_at v l) p.

Lemma before_ptr_later u u' files p : key_ok u -> key_ok u' -> Forall file_ok files -> order u u' <= 0 -> before_ptr u files p -> before_ptr u' files p.
Proof.
  intros Hu Hu' Hf Hle Hb f Hin. specialize (Hb f Hin). rewrite Forall_forall in Hf. destruct (Hf f) as (_ & (_ & Hlim) & _); [apply list_elem_of_In in Hin; apply list_elem_of_In; rewrite <- (firstn_skipn p files); apply in_or_app; by left|]. fold (f_limit f) in Hlim.
  pose proof (order_flip _ _ Hlim Hu). pose proof (order_flip _ _ Hlim Hu'). pose proof (order_lt_le_trans (f_limit f) u u' Hlim Hu Hu' ltac:(lia) Hle). lia.
Qed.

Lemma lower_levels_pos level l : 0 <= level -> l ∈ lower_levels level -> 0 < l < kNumLevels.
Proof.
  intros Hl Hin. unfold lower_levels, all_levels in Hin. rewrite skipn_map in Hin. apply list_elem_of_In, in_map_iff in Hin as (n & <- & Hn). apply list_elem_of_In, list_elem_of_lookup_1 in Hn as [i Hi]. rewrite lookup_drop in Hi. apply lookup_seq in Hi as [-> Hi]. change kNumLevels with 7 in *. lia.
Qed.

Lemma wp_base_level_from v u (Hu : key_ok u) (Hv : version_files_ok v) levels : forall c (Q : bool -> Compaction -> Prop) E, Forall (fun l => 0 < l) levels -> NoDup levels ->
  (forall l, l ∈ levels -> exists p, level_ptrs_ c !! Z.to_nat l = Some (Z.of_nat p) /\ before_ptr u (files_at v l) p) ->
  (forall c', same_compaction c c' -> (forall l, 0 < l -> (exists p, level_ptrs_ c !! Z.to_nat l = Some (Z.of_nat p) /\ before_ptr u (files_at v l) p) -> exists p, level_ptrs_ c' !! Z.to_nat l = Some (Z.of_nat p) /\ before_ptr u (files_at v l) p) ->
    Q (forallb (fun l => negb (existsb (covers u) (files_at v l))) levels) c') -> wp (base_level_from v u levels) Q E c.
Proof.
  induction levels as [|l levels IH]; intros c Q E Hpos Hnd Hptr HQ; cbn [base_level_from forallb].
  - apply wp_ret. apply HQ; [apply same_compaction_refl|done].
  - apply Forall_cons_1 in Hpos as [Hl Hpos]. apply NoDup_cons in Hnd as [Hnin Hnd]. destruct (Hptr l (list_elem_of_here _ _)) as (p & Hp & Hb). apply wp_bind, wp_get, wp_bind, wp_or_stuck. exists (Z.of_nat p). split; [done|]. rewrite Nat2Z.id.
    apply wp_bind. set (files := files_at v l) in *. assert (Hlev : level_ok files) by (by apply (vo_level v Hv)).
    assert (Hpt : exists p', before_ptr u files p' /\ wp (advance_ptr u (drop p files) (Z.of_nat p)) (fun r c' => r = (Z.of_nat p', existsb (covers u) files) /\ c' = c) (fun _ => False) c).
    { destruct (Nat.le_gt_cases p (List.length files)) as [Hle|Hgt].
      - pose proof (wp_advance_ptr (T := Compaction) u Hu (drop p files) (take p files)) as Hadv. rewrite take_drop, length_take_le in Hadv by done.
        destruct (wp_Ret _ _ _ (Hadv (fun r c' => c' = c /\ exists p', before_ptr u files p' /\ r = (Z.of_nat p', existsb (covers u) files)) (fun _ => False) c Hlev Hb ltac:(intros p' Hp'; split; [done|by exists p']))) as (r & c' & Er & -> & p' & Hp' & ->).
        exists p'. split; [done|]. by eapply wp_of_eq.
      - exists p. split; [done|]. rewrite drop_ge by lia. apply wp_ret. split; [|done]. f_equal. symmetry. apply not_true_iff_false. intros (g & Hg & Hc)%existsb_exists. specialize (Hb g). rewrite firstn_all2 in Hb by lia. apply list_elem_of_In in Hg. specialize (Hb Hg). apply covers_true in Hc. lia. }
    destruct Hpt as (p' & Hp' & Hadv). eapply wp_mono; [exact Hadv| |done]. intros r c' [-> ->]. apply wp_bind, wp_modify. cbn [fst snd].
    set (c1 := set_level_ptr l (Z.of_nat p') c). assert (Hlen : (Z.to_nat l < List.length (level_ptrs_ c))%nat) by (by eapply lookup_lt_Some).
    assert (Hmove : forall l', 0 < l' -> (exists q, level_ptrs_ c !! Z.to_nat l' = Some (Z.of_nat q) /\ before_ptr u (files_at v l') q) -> exists q, level_ptrs_ c1 !! Z.to_nat l' = Some (Z.of_nat q) /\ before_ptr u (files_at v l') q).
    { intros l' Hl' (q & Hq & Hbq). destruct (decide (l' = l)) as [->|Hne]; [exists p'; split; [cbn; by rewrite list_lookup_insert_eq|done]|]. exists q. cbn. rewrite list_lookup_insert_ne by lia. done. }
    cbn [forallb] in HQ. fold files in HQ. destruct (existsb (covers u) files) eqn:Ex; cbn [negb andb] in HQ.
    + apply wp_ret. apply (HQ c1); [by split|done].
    + apply IH; [done|done| |].
      * intros l' Hl'. apply Hmove; [rewrite Forall_forall in Hpos; by apply Hpos|]. apply Hptr. by apply list_elem_of_further.
      * intros c' Hs Hm. apply HQ; [by apply (same_compaction_trans c c1)|]. intros l' Hl' Hx. by apply Hm, Hmove.
Qed.

(** The answer, for user keys that do not decrease from question to question. *)
Lemma wp_IsBaseLevelForKey v u c (Q : bool -> Compaction -> Prop) E : key_ok u -> version_files_ok v -> 0 <= level_ c -> ptrs_ok v c u ->
  (forall c', same_compaction c c' -> ptrs_ok v c' u -> Q (is_base v (level_ c) u) c') -> wp (IsBaseLevelForKey v u) Q E c.
Proof.
  intros Hu Hv Hl Hp HQ. unfold IsBaseLevelForKey. apply wp_bind, wp_get. fold (lower_levels (level_ c)). apply (wp_base_level_from v u Hu Hv).
  - rewrite Forall_forall. intros l Hin. apply (lower_levels_pos (level_ c) l Hl Hin).
  - unfold lower_levels, all_levels. rewrite skipn_map. apply NoDup_fmap_2; [intros x y; lia|]. apply (NoDup_app (take (Z.to_nat (level_ c + 2)) (seq 0 (Z.to_nat kNumLevels)))). rewrite take_drop. apply NoDup_seq.
  - exact Hp.
  - intros c' Hs Hm. apply HQ; [done|]. intros l Hin. rewrite (sc_level _ _ Hs) in Hin. apply Hm; [apply (lower_levels_pos (level_ c) l Hl Hin)|]. by apply Hp.
Qed.

(** ** [ShouldStopBefore] *)

Lemma wp_skip_grandparents k files : forall c (Q : unit -> Compaction -> Prop) E, internal_ok k -> Forall file_ok files ->
  (forall c', same_compaction c c' -> level_ptrs_ c' = level_ptrs_ c -> Q tt c') -> wp (skip_grandparents k files) Q E c.
Proof.
  induction files as [|f files IH]; intros c Q E Hk Hf HQ; cbn [skip_grandparents]; [apply wp_ret, HQ; [apply same_compaction_refl|done]|]. apply Forall_cons_1 in Hf as [(_ & Hlim & _) Hf].
  apply wp_bind, wp_key_Encode; [done|]. apply wp_bind, wp_or_stuck. exists (internal_order k (f_largest f)). split; [by apply (Compare_order (ComparatorLaws := internal_laws))|]. destruct (0 <? _); [|apply wp_ret, HQ; [apply same_compaction_refl|done]].
  apply wp_bind, wp_modify. apply IH; [done|done|]. intros c' Hs Hp. apply HQ; [|done]. eapply same_compaction_trans; [|exact Hs]. by split.
Qed.

Lemma wp_ShouldStopBefore options k c (Q : bool -> Compaction -> Prop) E : internal_ok k -> Forall file_ok (grandparents_ c) ->
  (forall b c', same_compaction c c' -> level_ptrs_ c' = level_ptrs_ c -> Q b c') -> wp (ShouldStopBefore options k) Q E c.
Proof.
  intros Hk Hg HQ. unfold ShouldStopBefore. apply wp_bind, wp_get, wp_bind, wp_skip_grandparents; [done|by apply Forall_drop|]. intros c1 Hs Hp. apply wp_bind, wp_modify, wp_bind, wp_get. destruct (_ <? _).
  - apply wp_bind, wp_modify, wp_ret. apply HQ; [eapply same_compaction_trans; [exact Hs|by split]|done].
  - apply wp_ret. apply HQ; [eapply same_compaction_trans; [exact Hs|by split]|done].
Qed.
End BaseLevel.

(** ** The decision on an entry *)

Section HandleKey.
Context {U : Comparator} {LU : ComparatorLaws U} {H : Type} (v : Version) (Hv : version_files_ok v).

Definition matches (k : KeyState) (o : option (Slice * Z)) : Prop :=
  match o with
  | None => has_current_user_key k = false
  | Some (u, n) => has_current_user_key k = true /\ current_user_key k = u /\ last_sequence_for_key k = n /\ key_ok u
  end.

Lemma ParseInternalKey_version e : version_ok e -> ParseInternalKey (v_ikey e) = Some (v_key e).
Proof. intros (_ & Hs & _). unfold v_ikey, version_entry. cbn [fst]. rewrite ParseInternalKey_of by done. by destruct (v_key e). Qed.

Lemma wp_handle_key {S} e (compact : CompactionState H) k o (Q : bool * CompactionState H * KeyState -> S -> Prop) E s : version_ok e -> 0 <= level_ (compaction compact) -> matches k o -> ptrs_ok v (compaction compact) (v_user e) ->
  (forall c' k', same_compaction (compaction compact) c' -> ptrs_ok v c' (v_user e) -> matches k' (key_for o e) ->
    Q (is_dropped (is_base v (level_ (compaction compact))) (smallest_snapshot compact) o e, set_compaction c' compact, k') s) -> wp (handle_key v (v_ikey e) compact k) Q E s.
Proof.
  intros He Hl Hk Hp HQ. pose proof (version_user_ok e He) as Hu. unfold handle_key. rewrite (ParseInternalKey_version e He). fold (v_user e).
  (* First occurrence of this user key? *)
  set (k1 := match o with Some (u, _) => if order (v_user e) u =? 0 then k else mk_keystate (v_user e) true kMaxSequenceNumber | None => mk_keystate (v_user e) true kMaxSequenceNumber end).
  apply wp_bind. apply (wp_mono _ (fun first s' => s' = s /\ (if first : bool then mk_keystate (v_user e) true kMaxSequenceNumber else k) = k1) _ (fun _ => False)); [| |done].
  { unfold k1. destruct o as [[u n]|]; cbn [matches] in Hk; [|by rewrite Hk]. destruct Hk as (-> & -> & _ & Hcu). cbn [negb]. apply wp_bind, wp_or_stuck. exists (order (v_user e) u). split; [by apply Compare_order|]. apply wp_ret. split; [done|]. by destruct (_ =? 0). }
  intros first s' [-> Ek]. fold (v_user e) in *. rewrite Ek.
  assert (Hlast : last_sequence_for_key k1 = last_for o e). { unfold k1, last_for. destruct o as [[u n]|]; [|done]. destruct (_ =? 0); [by destruct Hk as (_ & _ & -> & _)|done]. }
  assert (Hnext : matches (mk_keystate (current_user_key k1) (has_current_user_key k1) (pk_sequence (v_key e))) (key_for o e)).
  { unfold k1, key_for. destruct o as [[u n]|]; [|by split]. destruct (_ =? 0); [|by split]. by destruct Hk as (-> & -> & _ & Hcu). }
  assert (Hself : set_compaction (compaction compact) compact = compact) by (by destruct compact). rewrite Hlast. apply wp_bind. unfold is_dropped in HQ. destruct (last_for o e <=? smallest_snapshot compact); cbn [orb] in HQ.
  - apply wp_ret, wp_ret. specialize (HQ (compaction compact) _ (same_compaction_refl _) Hp Hnext). by rewrite Hself in HQ.
  - assert (Hdel : match pk_type (v_key e) with kTypeDeletion => true | kTypeValue => false end = is_deletion (pk_type (v_key e))) by (by destruct (pk_type (v_key e))). rewrite Hdel.
    destruct (is_deletion (pk_type (v_key e)) && (pk_sequence (v_key e) <=? smallest_snapshot compact)); cbn [andb] in HQ.
    + apply wp_on_compaction, wp_IsBaseLevelForKey; [done..|]. intros c' Hs Hp'. apply wp_ret. by apply HQ.
    + apply wp_ret, wp_ret. specialize (HQ (compaction compact) _ (same_compaction_refl _) Hp Hnext). by rewrite Hself in HQ.
Qed.
End HandleKey.

(** ** The outputs of a compaction *)

Lemma TableFileName_inj dbname n m : 0 <= n < 2 ^ 64 -> 0 <= m < 2 ^ 64 -> TableFileName dbname n = TableFileName dbname m -> n = m.
Proof.
  intros Hn Hm Heq. unfold TableFileName, MakeFileName in Heq. apply app_inv_head, app_inv_head, app_inv_tail in Heq. destruct (decimal6_value n Hn) as (_ & E & _), (decimal6_value m Hm) as (_ & E' & _). congruence.
Qed.

Section Outputs.
Context {E H G D : Type} {V : Env E H G} {LV : EnvLaws V} {U : Comparator} {LU : ComparatorLaws U} {dops : IteratorOps D} {DT : DbTables E D}.
Context (dbname_ : list Z) (options_ : Options) (others : DB E H -> DB E H) (others_set : VersionSet -> VersionSet).

Definition env_of (d : DB E H) : E := mf_env (versions_ d).
Definition next_number (d : DB E H) : Z := vs_next_file_number_ (mf_set (versions_ d)).
Definition pending (d : DB E H) : gset Z := pending_outputs_ (background_ d).
Abbreviation table_name := (TableFileName dbname_).
Abbreviation isource := (source (C := InternalKeyComparator U) (L := internal_laws)).

(** The tables with the numbers [ns] are what they were. *)
Definition same_tables (ns : gset Z) (e e' : E) : Prop := forall n, n ∈ ns -> file_dir e' !! table_name n = file_dir e !! table_name n /\ forall i, file_dir e !! table_name n = Some i -> file_data e' i = file_data e i.

(** What the compaction relies on while it does not hold the mutex: the others leave the tables alone whose numbers are pending, take
    at most [step] numbers at a time, do not close the database and make no memtable immutable. *)
Record considerate (step : Z) : Prop := {
  co_down d : shutting_down_ (background_ (others d)) = shutting_down_ (background_ d) /\ has_imm_ (writing_ (others d)) = has_imm_ (writing_ d);
  co_numbers d : next_number d <= next_number (others d) <= next_number d + step;
  co_pending d : pending d ⊆ pending (others d);
  co_tables d : same_tables (pending d) (env_of d) (env_of (others d))
}.

(** The table cache opens a table that is there. *)
Definition cache_opens : Prop := forall e n i kvs, file_dir e !! table_name n = Some i -> is_table (U := U) (LU := LU) options_ (file_data e i) kvs ->
  exists it, tc_Iterator default_ReadOptions n (u64 (size (file_data e i))) e = Some it /\ it_status it = OK.

(** The bounds that are noted of an output. *)
Definition bounded (o : Output) (kvs : list version) : Prop := exists a b, head kvs = Some a /\ last kvs = Some b /\ out_smallest o = v_ikey a /\ out_largest o = v_ikey b.

(** A finished output: a table with the entries [kvs]. *)
Record finished (e : E) (o : Output) (kvs : list version) : Prop := {
  fi_file : exists i, file_dir e !! table_name (out_number o) = Some i /\ is_table (U := U) (LU := LU) options_ (file_data e i) (map version_entry kvs) /\ out_file_size o = u64 (size (file_data e i));
  fi_bounds : bounded o kvs
}.

(** The output that is being written, behind the finished ones [os]: it has the entries [cur]. *)
Definition being_written (e : E) (compact : CompactionState H) (os : list Output) (cur : list version) : Prop :=
  match builder compact with
  | None => outfile compact = None /\ outputs compact = os /\ cur = []
  | Some b => exists o h, outputs compact = os ++ [o] /\ outfile compact = Some h /\ tb_file b = h /\ file_dir e !! table_name (out_number o) = Some (file_of h) /\
      holding options_ (LU := LU) e b (map version_entry cur) /\ (cur <> [] -> bounded o cur) /\ (forall o', o' ∈ os -> file_dir e !! table_name (out_number o') <> Some (file_of h))
  end.

Record compacting (d : DB E H) (compact : CompactionState H) (os : list Output) (groups : list (list version)) (cur : list version) : Prop := {
  cp_running : shutting_down_ (background_ d) = false /\ has_imm_ (writing_ d) = false;
  cp_next : 0 < next_number d;
  cp_numbers : Forall (fun o => 0 < out_number o < next_number d /\ out_number o ∈ pending d) (outputs compact);
  cp_once : NoDup (map out_number (outputs compact));
  cp_finished : Forall2 (finished (env_of d)) os groups;
  cp_written : being_written (env_of d) compact os cur
}.

Lemma outputs_prefix d compact os groups cur o : compacting d compact os groups cur -> o ∈ os -> o ∈ outputs compact.
Proof.
  intros [_ _ _ _ _ Hw] Ho. unfold being_written in Hw. destruct (builder compact) as [b|]; [destruct Hw as (o' & h & -> & _)|destruct Hw as (_ & -> & _)]; [apply elem_of_app; by left|done].
Qed.

Lemma finished_same e e' ns o kvs : same_tables ns e e' -> out_number o ∈ ns -> finished e o kvs -> finished e' o kvs.
Proof.
  intros Hs Hn [(i & F1 & F2 & F3) F4]. destruct (Hs _ Hn) as [S1 S2]. specialize (S2 i F1). split; [|done]. exists i. rewrite S1, S2. done.
Qed.

Lemma all_finished_same e e' ns os groups : same_tables ns e e' -> Forall (fun o => out_number o ∈ ns) os -> Forall2 (finished e) os groups -> Forall2 (finished e') os groups.
Proof. intros Hs Hn HF. induction HF as [|o kvs os groups Ho _ IH]; [constructor|]. apply Forall_cons_1 in Hn as [Hn Hns]. constructor; [by eapply finished_same|by apply IH]. Qed.

Lemma compacting_pending d compact os groups cur : compacting d compact os groups cur -> Forall (fun o => out_number o ∈ pending d) os.
Proof. intros Hc. rewrite Forall_forall. intros o Ho. pose proof (cp_numbers _ _ _ _ _ Hc) as Hn. rewrite Forall_forall in Hn. apply (Hn o). by apply (outputs_prefix d compact os groups cur). Qed.

(** The mutex is released. *)
Lemma compacting_unlocked step d compact os groups cur : considerate step -> compacting d compact os groups cur -> compacting (others d) compact os groups cur.
Proof.
  intros [K1 K2 K3 K4] Hc. pose proof (compacting_pending _ _ _ _ _ Hc) as Hpend. destruct Hc as [C1 C2 C3 C4 C5 C6]. destruct (K1 d) as [K5 K6]. specialize (K2 d). specialize (K3 d). specialize (K4 d).
  split; [by rewrite K5, K6|lia| |done|by eapply all_finished_same|].
  - eapply Forall_impl; [exact C3|]. intros o [Ho Hp]. split; [lia|by apply K3].
  - unfold being_written in *. destruct (builder compact) as [b|]; [|done]. destruct C6 as (o & h & W1 & W2 & W3 & W4 & W5 & W6 & W7). exists o, h.
    assert (Hop : out_number o ∈ pending d) by (rewrite Forall_forall in C3; apply (C3 o); rewrite W1; apply elem_of_app; right; by apply list_elem_of_singleton). destruct (K4 _ Hop) as [T1 T2]. specialize (T2 _ W4).
    split; [done|]. split; [done|]. split; [done|]. split; [by rewrite T1|]. split; [apply (holding_same options_ (env_of d)); [done|by rewrite W3]|]. split; [done|]. intros o' Ho'. rewrite Forall_forall in Hpend. destruct (K4 _ (Hpend o' Ho')) as [-> _]. by apply W7.
Qed.

(** Only the file [i] is written: the tables of other files stay. *)
Lemma only_file_tables i (ns : gset Z) e e' : only_file i e e' -> (forall n, n ∈ ns -> file_dir e !! table_name n <> Some i) -> same_tables ns e e'.
Proof. intros [O1 O2] Hns n Hn. rewrite O1. split; [done|]. intros j Hj. apply O2. intros ->. by apply (Hns n Hn). Qed.

(** A step that leaves the finished tables alone. *)
Definition with_env (e : E) (d : DB E H) : DB E H := set_versions (set_env e (versions_ d)) d.

Lemma wp_in_env {A} (m : M E A) (Q : A -> DB E H -> Prop) F d a e' : m (env_of d) = (Ret a, e') -> Q a (with_env e' d) -> wp (in_env m) Q F d.
Proof. intros Hm HQ. unfold in_env, in_versions. apply wp_zoom. unfold on_env. apply wp_zoom. unfold wp, env_of in *. by rewrite Hm. Qed.

Lemma wp_NewFileNumber (Q : Z -> DB E H -> Prop) F d : (forall d', next_number d' = u64 (next_number d + 1) -> env_of d' = env_of d -> background_ d' = background_ d -> writing_ d' = writing_ d -> Q (next_number d) d') ->
  wp (in_set NewFileNumber) Q F d.
Proof. intros HQ. unfold in_set, in_versions. apply wp_zoom. unfold on_set. apply wp_zoom. unfold NewFileNumber. apply wp_bind, wp_get, wp_bind, wp_modify, wp_ret. by apply HQ. Qed.

Lemma wp_add_pending n (Q : unit -> DB E H -> Prop) F d : (forall d', pending d' = {[n]} ∪ pending d -> versions_ d' = versions_ d -> writing_ d' = writing_ d -> shutting_down_ (background_ d') = shutting_down_ (background_ d) -> Q tt d') ->
  wp (add_pending n) Q F d.
Proof. intros HQ. unfold add_pending, in_background. apply wp_zoom, wp_modify. by apply HQ. Qed.

(** The compaction and the oldest snapshot are not touched. *)
Definition same_work (a b : CompactionState H) : Prop := compaction b = compaction a /\ smallest_snapshot b = smallest_snapshot a.

Lemma compacting_number d compact os groups cur o : compacting d compact os groups cur -> o ∈ outputs compact -> next_number d < 2 ^ 64 -> 0 <= out_number o < 2 ^ 64 /\ out_number o < next_number d /\ out_number o ∈ pending d.
Proof. intros Hc Ho Hn. pose proof (cp_numbers _ _ _ _ _ Hc) as HF. rewrite Forall_forall in HF. destruct (HF o Ho). split; [lia|]. split; [lia|done]. Qed.

Lemma wp_OpenCompactionOutputFile d compact os groups (Q : Status * CompactionState H -> DB E H -> Prop) F : compacting d compact os groups [] -> builder compact = None -> next_number d + 1 < 2 ^ 64 ->
  (forall d' compact', compacting d' compact' os groups [] -> builder compact' <> None -> next_number d' = next_number d + 1 -> same_work compact compact' -> Q (OK, compact') d') ->
  wp (OpenCompactionOutputFile dbname_ options_ compact) Q F d.
Proof.
  intros Hc Hb Hn HQ. unfold OpenCompactionOutputFile. rewrite Hb. apply wp_bind, wp_asserted; [done|]. apply wp_bind, wp_NewFileNumber. intros d1 N1 E1 B1 W1. remember (next_number d) as n eqn:Hdn.
  apply wp_bind, wp_add_pending. intros d2 P2 V2 W2 S2. pose proof (cp_next _ _ _ _ _ Hc) as Hpos. rewrite <- Hdn in Hpos. unfold uwrap in N1. rewrite Z.mod_small in N1 by lia.
  assert (E2 : env_of d2 = env_of d) by (unfold env_of in *; by rewrite V2). assert (N2 : next_number d2 = n + 1) by (unfold next_number in *; by rewrite V2).
  destruct (L_new (table_name n) (env_of d2)) as (h & e' & Enew & D1 & D2 & D3 & D4). rewrite E2 in *.
  apply wp_bind, (wp_in_env _ _ _ _ (OK, Some h) e'); [rewrite E2; unfold call; by rewrite Enew|]. cbn [ok OK]. apply wp_bind, wp_or_stuck. exists h. split; [done|]. apply wp_ret.
  assert (Hfresh : forall o, o ∈ outputs compact -> table_name (out_number o) <> table_name n). { intros o Ho Heq. destruct (compacting_number _ _ _ _ _ o Hc Ho ltac:(lia)) as (? & ? & _). apply TableFileName_inj in Heq; lia. }
  pose proof (cp_written _ _ _ _ _ Hc) as Hw. unfold being_written in Hw. rewrite Hb in Hw. destruct Hw as (_ & Hos & _).
  apply HQ; [|done|done|done]. split; cbn [outputs set_output_file set_outputs].
  - cbn. rewrite S2, W2, B1, W1. apply (cp_running _ _ _ _ _ Hc).
  - change (next_number (with_env e' d2)) with (next_number d2). lia.
  - change (next_number (with_env e' d2)) with (next_number d2). change (pending (with_env e' d2)) with (pending d2). rewrite N2, P2. replace (pending d1) with (pending d) by (unfold pending; by rewrite B1). rewrite Forall_app. split.
    + eapply Forall_impl; [apply (cp_numbers _ _ _ _ _ Hc)|]. intros o [Ho Hp]. split; [lia|]. apply elem_of_union. by right.
    + constructor; [|constructor]. cbn. split; [lia|]. apply elem_of_union. left. by apply elem_of_singleton.
  - rewrite map_app. apply NoDup_app. split; [apply (cp_once _ _ _ _ _ Hc)|]. split; [|apply NoDup_singleton]. intros m (o & -> & Ho)%list_elem_of_fmap Hm%list_elem_of_singleton. cbn in Hm. destruct (compacting_number _ _ _ _ _ o Hc Ho ltac:(lia)) as (_ & ? & _). lia.
  - change (env_of (with_env e' d2)) with e'. apply (all_finished_same (env_of d) e' (list_to_set (map out_number os))); [|rewrite Forall_forall; intros o Ho; apply elem_of_list_to_set; by apply list_elem_of_fmap_2|apply (cp_finished _ _ _ _ _ Hc)].
    intros m (o & -> & Ho)%elem_of_list_to_set%list_elem_of_fmap. rewrite Hos in Hfresh. specialize (Hfresh o Ho). rewrite D1, lookup_insert_ne by congruence. split; [done|]. intros i Hi. apply D4. intros ->. destruct (D2 (table_name (out_number o))); [congruence|by apply Hfresh].
  - unfold being_written. cbn [builder set_output_file outputs set_outputs outfile]. change (env_of (with_env e' d2)) with e'. exists (mk_output n 0 [] []), h. rewrite Hos. split; [done|]. split; [done|]. split; [done|]. cbn [out_number]. rewrite D1, lookup_insert_eq. split; [done|].
    split; [by apply holding_new|]. split; [done|]. intros o Ho. rewrite Hos in Hfresh. specialize (Hfresh o Ho). rewrite lookup_insert_ne by congruence. destruct (D2 (table_name (out_number o))); congruence.
Qed.
Lemma wp_FinishCompactionOutputFile d compact os groups cur (Q : Status * CompactionState H -> DB E H -> Prop) F : cache_opens -> compacting d compact os groups cur -> builder compact <> None -> cur <> [] -> isource (map version_entry cur) -> next_number d < 2 ^ 64 -> Z.of_nat (List.length cur) < 2 ^ 64 ->
  (forall d' compact' o, compacting d' compact' (os ++ [o]) (groups ++ [cur]) [] -> builder compact' = None -> next_number d' = next_number d -> same_work compact compact' -> Q (OK, compact') d') ->
  wp (FinishCompactionOutputFile OK compact) Q F d.
Proof.
  intros Hcache Hc Hb Hcur Hsrc Hn Hlen HQ. pose proof (cp_written _ _ _ _ _ Hc) as Hw. unfold being_written in Hw. destruct (builder compact) as [b|] eqn:Eb; [|done]. destruct Hw as (o & h & W1 & W2 & W3 & W4 & W5 & W6 & W7).
  destruct (W6 Hcur) as (first & lst & B1 & B2 & B3 & B4). pose proof (compacting_number _ _ _ _ _ o Hc ltac:(rewrite W1; apply elem_of_app; right; by apply list_elem_of_singleton) Hn) as (N1 & N2 & N3).
  assert (Hpos : 0 < out_number o) by (pose proof (cp_numbers _ _ _ _ _ Hc) as HF; rewrite W1, Forall_app in HF; destruct HF as [_ HF]; apply Forall_cons_1 in HF; lia).
  unfold FinishCompactionOutputFile. apply wp_bind, wp_or_stuck. exists h. split; [done|]. apply wp_bind, wp_or_stuck. exists b. split; [done|]. apply wp_bind, wp_or_stuck. exists o. split; [by rewrite W1, last_snoc|].
  apply wp_bind, wp_asserted; [apply negb_true_iff, Z.eqb_neq; lia|]. cbv zeta. cbn [ok OK].
  destruct (builder_Finish_ok options_ (env_of d) b _ W5 Hsrc) as (b' & e1 & F1 & F2 & F3 & F4 & [F5 F6]). rewrite W3 in F3, F4, F6.
  apply wp_bind, (wp_in_env _ _ _ _ _ _ F1). cbv beta iota. rewrite F4. set (bytes := file_data e1 (file_of h)) in *.
  apply wp_bind, wp_or_stuck. eexists. split; [unfold on_current_output; by rewrite W1, last_snoc|]. rewrite removelast_last.
  destruct (sync_and_close_ok h (env_of (with_env e1 d))) as (e2 & E2 & S1 & S2). change (env_of (with_env e1 d)) with e1 in *. apply wp_bind, (wp_in_env _ _ _ (with_env e1 d) _ _ E2). cbn [ok OK andb].
  assert (Hcount : (0 <? NumEntries b) = true). { destruct W5 as (_ & _ & _ & _ & _ & W5). unfold NumEntries. rewrite W5, length_map. apply Z.ltb_lt. unfold uwrap. rewrite Z.mod_small by lia. destruct cur; [done|cbn [List.length]; lia]. }
  rewrite Hcount. assert (Hdir : file_dir e2 = file_dir (env_of d)) by congruence.
  assert (Hdata : file_data e2 (file_of h) = bytes) by (by rewrite S2).
  destruct (Hcache e2 (out_number o) (file_of h) (map version_entry cur)) as (it & I1 & I2); [by rewrite Hdir|by rewrite Hdata|]. rewrite Hdata in I1.
  assert (Hstatus : table_status (out_number o) (u64 (size bytes)) e2 = (Ret OK, e2)). { unfold table_status. rewrite bind_get. rewrite I1. unfold bind, or_stuck. cbn. by rewrite I2. }
  apply wp_bind, (wp_in_env _ _ _ (with_env e2 (with_env e1 d)) _ _ Hstatus), wp_ret.
  assert (Hsame : same_tables (list_to_set (map out_number os)) (env_of d) e2).
  { intros m (o' & -> & Ho')%elem_of_list_to_set%list_elem_of_fmap. rewrite Hdir. split; [done|]. intros i Hi. rewrite S2. apply F6. intros ->. by apply (W7 o'). }
  eapply (HQ _ _ (mk_output (out_number o) (u64 (size bytes)) (out_smallest o) (out_largest o))); [|done|done|done]. destruct Hc as [C1 C2 C3 C4 C5 C6]. split; cbn [outputs set_output_file set_total_bytes set_outputs].
  - exact C1.
  - exact C2.
  - rewrite W1 in C3. apply Forall_app in C3 as [C3 C3']. apply Forall_app. split; [exact C3|]. apply Forall_cons_1 in C3' as [C3' _]. constructor; [exact C3'|constructor].
  - rewrite W1 in C4. by rewrite map_app in *.
  - change (env_of (with_env e2 (with_env e2 (with_env e1 d)))) with e2. apply Forall2_app; [apply (all_finished_same (env_of d) e2 (list_to_set (map out_number os))); [exact Hsame|rewrite Forall_forall; intros o' Ho'; apply elem_of_list_to_set; by apply list_elem_of_fmap_2|exact C5]|].
    constructor; [|constructor]. split; cbn; [|by exists first, lst]. exists (file_of h). rewrite Hdir, Hdata. done.
  - done.
Qed.
Section Entries.
Context {I : Type} {iops : IteratorOps I}.

Definition same_bounds (kvs : list version) (e : version) (o : Output) : Output :=
  mk_output (out_number o) (out_file_size o) (match kvs with [] => v_ikey e | _ => out_smallest o end) (v_ikey e).

(** An entry goes to the table that is open. *)
Lemma compacting_add d compact os groups cur e b : compacting d compact os groups cur -> builder compact = Some b -> isource (map version_entry (cur ++ [e])) -> exists b' env' compact',
  builder_Add (v_ikey e) (v_value e) b (env_of d) = (Ret b', env') /\ on_current_output (same_bounds cur e) compact = Some compact' /\
  compacting (with_env env' d) (set_output_file (outfile compact) (Some b') compact') os groups (cur ++ [e]).
Proof.
  intros Hc Eb Hsrc. pose proof (compacting_pending _ _ _ _ _ Hc) as Hpend. destruct Hc as [C1 C2 C3 C4 C5 C6]. unfold being_written in C6. rewrite Eb in C6. destruct C6 as (o & h & W1 & W2 & W3 & W4 & W5 & W6 & W7).
  rewrite map_app in Hsrc. destruct (builder_Add_ok options_ (env_of d) b (map version_entry cur) (v_ikey e) (v_value e) W5 Hsrc) as (b' & env' & A1 & A2 & A3 & [A4 A5]). rewrite W3 in A5.
  exists b', env'. eexists. split; [done|]. split; [unfold on_current_output; by rewrite W1, last_snoc|]. rewrite removelast_last.
  assert (Hsame : same_tables (list_to_set (map out_number os)) (env_of d) env').
  { intros m (o' & -> & Ho')%elem_of_list_to_set%list_elem_of_fmap. rewrite A4. split; [done|]. intros i Hi. apply A5. intros ->. by apply (W7 o'). }
  split; cbn [outputs set_output_file set_outputs].
  - exact C1.
  - exact C2.
  - rewrite W1 in C3. apply Forall_app in C3 as [C3 C3']. apply Forall_app. split; [exact C3|]. apply Forall_cons_1 in C3' as [C3' _]. constructor; [exact C3'|constructor].
  - rewrite W1 in C4. by rewrite map_app in *.
  - change (env_of (with_env env' d)) with env'. apply (all_finished_same (env_of d) env' (list_to_set (map out_number os))); [exact Hsame|rewrite Forall_forall; intros o' Ho'; apply elem_of_list_to_set; by apply list_elem_of_fmap_2|exact C5].
  - unfold being_written. cbn [builder set_output_file outputs set_outputs outfile]. change (env_of (with_env env' d)) with env'. exists (same_bounds cur e o), h. split; [done|]. split; [done|]. split; [congruence|]. split; [by rewrite A4|]. split; [by rewrite map_app|].
    split; [|intros o' Ho'; rewrite A4; by apply W7]. intros _. unfold bounded, same_bounds. cbn [out_smallest out_largest]. destruct cur as [|a cur]; [by exists e, e|]. destruct (W6 ltac:(done)) as (a' & z & [= <-] & _ & B3 & _). exists a, e. by rewrite last_snoc.
Qed.

Lemma wp_output_entry d compact os groups cur e input (Q : Status * CompactionState H * I -> DB E H -> Prop) F : cache_opens -> compacting d compact os groups cur -> (builder compact <> None -> cur <> []) ->
  it_value input = (Ret (v_value e), input) -> it_status input = OK -> isource (map version_entry (cur ++ [e])) -> next_number d + 1 < 2 ^ 64 -> Z.of_nat (List.length (cur ++ [e])) < 2 ^ 64 ->
  (forall d' compact' os' groups' cur', compacting d' compact' os' groups' cur' -> concat groups' ++ cur' = concat groups ++ cur ++ [e] -> (builder compact' <> None -> cur' <> []) -> next_number d' <= next_number d + 1 -> same_work compact compact' -> Q (OK, compact', input) d') ->
  wp (output_entry dbname_ options_ (v_ikey e) compact input) Q F d.
Proof.
  intros Hcache Hc Hne Hval Hst Hsrc Hn Hlen HQ. unfold output_entry.
  (* Open an output, if there is none. *)
  apply wp_bind, (wp_mono _ (fun r d1 => exists c1, r = (OK, c1) /\ compacting d1 c1 os groups cur /\ builder c1 <> None /\ next_number d1 <= next_number d + 1 /\ same_work compact c1) _ (fun _ => False)); [| |done].
  { destruct (builder compact) as [b|] eqn:Eb; [apply wp_ret; exists compact; split_and!; [done|done|congruence|lia|by split]|]. pose proof (cp_written _ _ _ _ _ Hc) as Hw. unfold being_written in Hw. rewrite Eb in Hw. destruct Hw as (_ & _ & ->).
    apply (wp_OpenCompactionOutputFile d compact os groups); [done..|]. intros d' c' Hc' Hb' Hn' Hs'. exists c'. split_and!; [done|done|done|lia|done]. }
  intros r d1 (c1 & -> & Hc1 & Hb1 & Hn1 & Hs1). cbn [ok OK negb]. destruct (builder c1) as [b|] eqn:Eb; [|done].
  destruct (compacting_add d1 c1 os groups cur e b Hc1 Eb Hsrc) as (b' & env' & c2 & A1 & A2 & A3).
  assert (Hcount : tb_num_entries b = Z.of_nat (List.length cur)). { pose proof (cp_written _ _ _ _ _ Hc1) as Hw. unfold being_written in Hw. rewrite Eb in Hw. destruct Hw as (_ & _ & _ & _ & _ & _ & (_ & _ & _ & _ & _ & Hw) & _). by rewrite length_map in Hw. }
  apply wp_bind, wp_or_stuck. exists b. split; [done|]. apply wp_bind, wp_or_stuck. exists c2. split.
  { rewrite <- A2. unfold on_current_output. destruct (last (outputs c1)) as [o|]; [|done]. do 4 f_equal. unfold same_bounds. f_equal. unfold NumEntries. rewrite Hcount. unfold uwrap. rewrite length_app in Hlen. cbn [List.length] in Hlen. rewrite Z.mod_small by lia. by destruct cur. }
  apply wp_bind, wp_on_it. unfold wp. rewrite Hval. apply wp_bind, (wp_in_env _ _ _ d1 _ _ A1). set (c3 := set_output_file (outfile c2) (Some b') c2). set (d2 := with_env env' d1) in *.
  assert (Ho : c3 = set_output_file (outfile c1) (Some b') c2 /\ same_work c1 c3). { unfold on_current_output in A2. destruct (last (outputs c1)); [|done]. injection A2 as <-. by split. }
  destruct Ho as [Ho Hs3]. rewrite <- Ho in A3. assert (Hs : same_work compact c3) by (destruct Hs1, Hs3; split; congruence). assert (Hcur : cur ++ [e] <> []) by (by destruct cur).
  destruct (_ <=? _).
  - apply wp_bind. rewrite Hst. apply (wp_FinishCompactionOutputFile d2 c3 os groups (cur ++ [e])); [done..|change (next_number d2) with (next_number d1); lia|done|]. intros d' c' o Hc' Hb' Hn' Hs'. apply wp_ret.
    apply (HQ d' c' (os ++ [o]) (groups ++ [cur ++ [e]]) []); [done|rewrite concat_app; cbn [concat]; by rewrite !app_nil_r|by rewrite Hb'|change (next_number d2) with (next_number d1) in Hn'; lia|destruct Hs, Hs'; split; congruence].
  - apply wp_ret. by apply (HQ d2 c3 os groups (cur ++ [e])).
Qed.
End Entries.
(** *** The loop *)

Section Inputs.
Context {I : Type} {iops : IteratorOps I} {istands : list entry -> I -> option nat -> Prop} {ilaws : IteratorLaws (C := InternalKeyComparator U) (L := internal_laws) I istands}.
Context (v : Version) (Hv : version_files_ok v) (ps : list version) (Hps : versions ps) (Hcount : Z.of_nat (List.length ps) < 2 ^ 64) (step : Z) (Hothers : considerate step) (Hcache : cache_opens).
Context (c0 : Compaction) (Hlevel : 0 <= level_ c0) (Hgrand : Forall file_ok (grandparents_ c0)) (snapshot : Z).

Abbreviation kept_of := (kept (is_base v (level_ c0)) snapshot).

(** Between two rounds, with [n] entries to go. *)
Definition going (n : nat) (l : I * CompactionState H * KeyState) (d : DB E H) : Prop :=
  let '(input, compact, k) := l in exists done rest o os groups cur,
  (ps = done ++ rest /\ List.length rest = n) /\ istands (map version_entry ps) input (match rest with [] => None | _ => Some (List.length done) end) /\
  compacting d compact os groups cur /\ (builder compact <> None -> cur <> []) /\ concat groups ++ cur ++ kept_of o rest = kept_of None ps /\ matches k o /\
  same_compaction c0 (compaction compact) /\ smallest_snapshot compact = snapshot /\ (forall e, e ∈ rest -> ptrs_ok v (compaction compact) (v_user e)) /\
  next_number d + Z.of_nat n * (step + 1) < 2 ^ 64.

(** Behind the last round. *)
Definition gone (r : Status * I * CompactionState H) (d : DB E H) : Prop :=
  let '(s, input, compact) := r in s = OK /\ it_status input = OK /\ exists os groups cur, compacting d compact os groups cur /\ (builder compact <> None -> cur <> []) /\ concat groups ++ cur = kept_of None ps /\
  same_compaction c0 (compaction compact) /\ smallest_snapshot compact = snapshot /\ next_number d < 2 ^ 64.

Lemma compacting_set d compact os groups cur c : compacting d compact os groups cur -> compacting d (set_compaction c compact) os groups cur.
Proof. intros [C1 C2 C3 C4 C5 C6]. by split. Qed.

(** An output ends before the entry, if [stop] says so. *)
Lemma wp_maybe_finish d compact os groups cur input stop (Q : Status * CompactionState H -> DB E H -> Prop) F : it_status input = OK -> compacting d compact os groups cur -> (builder compact <> None -> cur <> []) -> isource (map version_entry cur) -> next_number d < 2 ^ 64 -> Z.of_nat (List.length cur) < 2 ^ 64 ->
  (forall d' compact' os' groups' cur', compacting d' compact' os' groups' cur' -> (builder compact' <> None -> cur' <> []) -> concat groups' ++ cur' = concat groups ++ cur -> (stop = true -> cur' = []) -> next_number d' = next_number d -> same_work compact compact' -> Q (OK, compact') d') ->
  wp (if stop && match builder compact with Some _ => true | None => false end then FinishCompactionOutputFile (it_status input) compact else ret (OK, compact)) Q F d.
Proof.
  intros Hst Hc Hne Hsrc Hn Hlen HQ. destruct stop; cbn [andb]; [|apply wp_ret; by apply (HQ d compact os groups cur)]. destruct (builder compact) as [b|] eqn:Eb.
  - rewrite Hst. apply (wp_FinishCompactionOutputFile d compact os groups cur); [done|done|congruence|by apply Hne|done..|]. intros d' c' o Hc' Hb' Hn' Hs'. apply (HQ d' c' (os ++ [o]) (groups ++ [cur]) []); [done|by rewrite Hb'|rewrite concat_app; cbn [concat]; by rewrite !app_nil_r|done..].
  - apply wp_ret. apply (HQ d compact os groups cur); [done|by rewrite Eb|done| |done|done]. intros _. pose proof (cp_written _ _ _ _ _ Hc) as Hw. unfold being_written in Hw. rewrite Eb in Hw. apply Hw.
Qed.
Lemma open_source groups cur more : concat groups ++ cur ++ more = kept_of None ps -> isource (map version_entry cur) /\ Z.of_nat (List.length cur) < 2 ^ 64.
Proof.
  intros Hk. pose proof (kept_versions (is_base v (level_ c0)) snapshot ps None Hps) as [_ Hs]. pose proof (kept_length (is_base v (level_ c0)) snapshot ps None) as Hl. rewrite <- Hk in Hs, Hl. rewrite !map_app in Hs.
  apply source_app in Hs as (_ & Hs & _). apply source_app in Hs as (Hs & _). rewrite !length_app in Hl. split; [done|lia].
Qed.

Lemma next_stands done' e rest it : ps = done' ++ e :: rest -> istands (map version_entry ps) it (Some (List.length done')) ->
  exists it', it_Next it = (Ret tt, it') /\ istands (map version_entry ps) it' (match rest with [] => None | _ => Some (List.length (done' ++ [e])) end).
Proof.
  intros Hsplit Hit. destruct (stands_Next (IteratorLaws := ilaws) _ it _ (proj2 Hps) Hit) as (it' & En & Hst). exists it'. split; [done|]. unfold next_pos in Hst. rewrite length_map, Hsplit, !length_app in Hst. rewrite Hsplit. cbn [List.length] in Hst. rewrite length_app. cbn [List.length].
  destruct rest as [|e' rest]; [by rewrite (proj2 (Nat.ltb_ge _ _)) in Hst by (cbn; lia)|]. rewrite (proj2 (Nat.ltb_lt _ _)) in Hst by (cbn; lia). by replace (List.length done' + 1)%nat with (S (List.length done')) by lia.
Qed.

(** The pointers are behind what comes before the next user keys. *)
Lemma ptrs_ok_later c u u' : key_ok u -> key_ok u' -> order u u' <= 0 -> ptrs_ok v c u -> ptrs_ok v c u'.
Proof. intros Hu Hu' Hle Hp l Hin. destruct (Hp l Hin) as (p & P1 & P2). exists p. split; [done|]. apply (before_ptr_later u u'); try done. apply (vo_files v Hv). Qed.

Lemma ptrs_ok_same c c' u : level_ c' = level_ c -> level_ptrs_ c' = level_ptrs_ c -> ptrs_ok v c u -> ptrs_ok v c' u.
Proof. intros El Ep Hp l Hin. rewrite El in Hin. rewrite Ep. by apply Hp. Qed.

Lemma wp_compaction_step n l d : going n l d -> wp (compaction_step dbname_ options_ others others_set v l)
  (fun r d' => match r with inl l' => exists n', (n' < n)%nat /\ going n' l' d' | inr r => gone r d' end) (fun _ => False) d.
Proof.
  destruct l as [[input compact] k]. intros (done' & rest & o & os & groups & cur & (Hsplit & Hlen) & Hit & Hc & Hne & Hkept & Hk & Hsame & Hsnap & Hptrs & Hnext).
  pose proof (cp_running _ _ _ _ _ Hc) as [Hdown _]. assert (Hstep : 0 <= step) by (pose proof (co_numbers _ Hothers d); lia).
  unfold compaction_step. apply wp_bind, wp_gets. rewrite Hdown, (stands_Valid (IteratorLaws := ilaws) _ _ _ Hit). destruct rest as [|e rest]; cbn [negb orb].
  { apply wp_ret. split; [done|]. split; [by eapply (stands_status (IteratorLaws := ilaws))|]. exists os, groups, cur. cbn [kept] in Hkept. rewrite app_nil_r in Hkept. split_and!; [done..|cbn in Hlen; lia]. }
  pose proof (proj1 Hps) as Hok. rewrite Forall_forall in Hok. assert (Hein : e ∈ ps) by (rewrite Hsplit; apply elem_of_app; right; apply list_elem_of_here). pose proof (Hok e Hein) as He.
  cbn [List.length] in Hlen. assert (Hat : map version_entry ps !! List.length done' = Some (version_entry e)) by (by rewrite list_lookup_fmap, Hsplit, lookup_app_r, Nat.sub_diag by lia).
  pose proof (stands_status (IteratorLaws := ilaws) _ _ _ Hit) as Hst. pose proof (stands_value (IteratorLaws := ilaws) _ _ _ _ Hit Hat) as Hval.
  (* The mutex is released; no memtable waits. *)
  apply wp_bind, wp_modify. pose proof (compacting_unlocked step d compact os groups cur Hothers Hc) as Hc1. pose proof (co_numbers _ Hothers d) as Hn1. clear Hc. apply wp_bind, wp_gets. rewrite (proj2 (cp_running _ _ _ _ _ Hc1)). apply wp_bind, wp_ret.
  apply wp_bind, wp_on_it. unfold wp at 1. rewrite (stands_key (IteratorLaws := ilaws) _ _ _ _ Hit Hat). cbv beta iota. fold (v_ikey e).
  apply wp_bind, wp_on_compaction, wp_ShouldStopBefore; [by apply v_ikey_ok|by rewrite (sc_grandparents _ _ Hsame)|]. intros stop c1 Hs1 Hp1. cbv beta iota.
  assert (Hptrs1 : forall x, x ∈ e :: rest -> ptrs_ok v c1 (v_user x)) by (intros x Hx; apply (ptrs_ok_same (compaction compact)); [apply Hs1|done|by apply Hptrs]).
  pose proof (same_compaction_trans _ _ _ Hsame Hs1) as Hsame1. pose proof (open_source groups cur _ Hkept) as [Hsrc Hcl].
  apply wp_bind, (wp_maybe_finish _ _ os groups cur input stop); [done|by apply compacting_set|done..|lia|done|]. intros d2 compact2 os2 groups2 cur2 Hc2 Hne2 Hk2 _ Hn2 [Hw2 Hw2']. cbn [compaction set_compaction smallest_snapshot] in Hw2, Hw2'. cbn [ok OK negb].
  (* Is the entry dropped? *)
  rewrite app_assoc, <- Hk2, <- app_assoc in Hkept.
  apply wp_bind, (wp_handle_key v Hv e compact2 k o); [done|rewrite Hw2, (sc_level _ _ Hsame1); done|done|rewrite Hw2; apply Hptrs1, list_elem_of_here|]. intros c3 k' Hs3 Hp3 Hk3. rewrite Hw2 in Hs3. rewrite Hw2, (sc_level _ _ Hsame1), Hw2', Hsnap.
  pose proof (same_compaction_trans _ _ _ Hsame1 Hs3) as Hsame3. cbn [kept] in Hkept. set (drop := is_dropped (is_base v (level_ c0)) snapshot o e) in *. cbv beta iota.
  destruct (next_stands done' e rest input Hsplit Hit) as (input' & Enext & Hit').
  assert (Hrest : forall c, c = c3 -> forall x, x ∈ rest -> ptrs_ok v c (v_user x)).
  { intros c -> x Hx. assert (Hxin : x ∈ ps) by (rewrite Hsplit; apply elem_of_app; right; by apply list_elem_of_further). apply (ptrs_ok_later c3 (v_user e)); [by apply version_user_ok|by apply version_user_ok, Hok| |done].
    assert (Hlater : versions (e :: rest)) by (pose proof Hps as [V1 V2]; rewrite Hsplit in V1, V2; apply Forall_app in V1 as [_ V1]; rewrite map_app in V2; apply source_app in V2 as (_ & V2 & _); by split).
    destruct (versions_cons e rest Hlater) as (_ & _ & Hlt). destruct (Hlt x Hx) as [Hxok Hxlt]. destruct (before_user e x He Hxok Hxlt) as [|[]]; lia. }
  apply wp_bind, (wp_mono _ (fun r d' => exists compact' os' groups' cur', r = (OK, compact', input) /\ compacting d' compact' os' groups' cur' /\ concat groups' ++ cur' = concat groups2 ++ cur2 ++ (if drop then [] else [e]) /\ (builder compact' <> None -> cur' <> []) /\ next_number d' <= next_number d2 + 1 /\ same_work (set_compaction c3 compact2) compact') _ (fun _ => False)); [| |done].
  { destruct drop.
    - apply wp_ret. exists (set_compaction c3 compact2), os2, groups2, cur2. split_and!; [done|by apply compacting_set|by rewrite app_nil_r|done|lia|done].
    - assert (Hk2' : concat groups2 ++ (cur2 ++ [e]) ++ kept_of (key_for o e) rest = kept_of None ps) by (by rewrite <- !app_assoc). destruct (open_source _ _ _ Hk2') as [Hsrc2 Hcl2].
      apply (wp_output_entry d2 _ os2 groups2 cur2 e input); [done|by apply compacting_set|done..|nia|done|]. intros d' compact' os' groups' cur' H1 H2 H3 H4 H5. by exists compact', os', groups', cur'. }
  intros r d3 (compact3 & os3 & groups3 & cur3 & -> & Hc3 & Hcat & Hne3 & Hn3 & [Hw3 Hw3']). cbn [ok OK negb compaction set_compaction smallest_snapshot] in Hw3, Hw3' |- *.
  apply wp_bind, wp_on_it. unfold wp. rewrite Enext. exists (List.length rest). split; [lia|]. exists (done' ++ [e]), rest, (key_for o e), os3, groups3, cur3.
  split_and!; [by rewrite <- app_assoc|done|done|done|done| |done|by rewrite Hw3|congruence|by apply Hrest|nia].
  rewrite app_assoc, Hcat, <- !app_assoc. exact Hkept.
Qed.
(** What [DoCompactionWork] starts from. *)
Record work_ready (compact : CompactionState H) (d : DB E H) : Prop := {
  rdy_compaction : compaction compact = c0 /\ smallest_snapshot compact = snapshot /\ snapshot < kMaxSequenceNumber;
  rdy_outputs : outputs compact = [] /\ builder compact = None /\ outfile compact = None;
  rdy_ptrs : level_ptrs_ c0 = repeat 0 (Z.to_nat kNumLevels);
  rdy_running : shutting_down_ (background_ d) = false /\ has_imm_ (writing_ d) = false;
  rdy_numbers : 0 < next_number d /\ next_number d + Z.of_nat (List.length ps) * (step + 1) < 2 ^ 64
}.

Lemma work_ready_going input compact d : work_ready compact d -> istands (map version_entry ps) input (first_pos (map version_entry ps)) -> going (List.length ps) (input, compact, mk_keystate [] false kMaxSequenceNumber) d.
Proof.
  intros [(R1 & R2 & R3) (R4 & R5 & R6) R7 R8 [R9 R10]] Hit. exists [], ps, None, [], [], []. split_and!; try done.
  - unfold first_pos in Hit. rewrite length_map in Hit. by destruct ps.
  - split; [done|done|by rewrite R4; constructor|rewrite R4; constructor|constructor|]. unfold being_written. by rewrite R5.
  - by rewrite R1.
  - intros e _ l Hl. rewrite R1, R7 in *. exists 0%nat. split; [|intros f Hf; by apply not_elem_of_nil in Hf]. apply (lower_levels_pos _ _ Hlevel) in Hl. change (Z.to_nat kNumLevels) with 7%nat. change kNumLevels with 7 in Hl.
    assert (Hn : (Z.to_nat l < 7)%nat) by lia. destruct (Z.to_nat l) as [|[|[|[|[|[|[|n]]]]]]]; (reflexivity || lia).
Qed.

(** Every output is finished in the end. *)
Lemma wp_compact_inputs input compact d p : work_ready compact d -> istands (map version_entry ps) input p ->
  wp (compact_inputs dbname_ options_ others others_set v input compact) (fun r d' => exists compact' groups, r = (OK, compact') /\ compacting d' compact' (outputs compact') groups [] /\ builder compact' = None /\ concat groups = kept_of None ps) (fun _ => False) d.
Proof.
  intros Hr Hit. destruct (stands_First (IteratorLaws := ilaws) _ input p (proj2 Hps) Hit) as (input1 & E1 & Hit1). unfold compact_inputs. apply wp_bind, wp_on_it. unfold wp at 1. rewrite E1. cbn [snd].
  apply wp_bind. eapply wp_mono; [apply (wp_loop_count _ going gone (List.length ps)); [exact wp_compaction_step|by apply work_ready_going|lia]| |done].
  intros [[s input2] compact2] d2 (-> & Hst & os & groups & cur & Hc & Hne & Hk & _ & _ & Hn). destruct (open_source groups cur []) as [Hsrc Hcl]; [by rewrite app_nil_r|].
  apply wp_bind, wp_gets. rewrite (proj1 (cp_running _ _ _ _ _ Hc)). cbn [ok OK andb].
  apply wp_bind, (wp_maybe_finish d2 compact2 os groups cur input2 true); [done..|]. intros d' compact' os' groups' cur' Hc' Hne' Hk' Hcur' _ _. specialize (Hcur' eq_refl) as ->. cbn [ok OK]. rewrite Hst. apply wp_ret. exists compact', groups'. rewrite app_nil_r, Hk in Hk'.
  assert (Hb : builder compact' = None) by (destruct (builder compact') as [b|]; [by destruct Hne'|done]). pose proof (cp_written _ _ _ _ _ Hc') as Hw. unfold being_written in Hw. rewrite Hb in Hw. destruct Hw as (_ & -> & _). done.
Qed.
End Inputs.
End Outputs.

(** C36: [DoCompactionWork], from its inputs to its outputs: the loop ends with status OK, and each output is a finished table of its own with the bounds that
    were noted of it, of a number that is still pending, whatever considerate other threads do while the mutex is free; the outputs together hold the
    entries that [kept] says, in order; and with them in place of the inputs a read of any user key, at any sequence number from the oldest snapshot on,
    gives the same as before, if the entries outside of the compaction are newer than those inside or older and the deletion was not at its base level. *)
Theorem compaction_keeps_reads {E H G D I : Type} {V : Env E H G} {LV : EnvLaws V} {U : Comparator} {LU : ComparatorLaws U} {dops : IteratorOps D} {DT : DbTables E D}
    {iops : IteratorOps I} {istands : list entry -> I -> option nat -> Prop} {ilaws : IteratorLaws (C := InternalKeyComparator U) (L := internal_laws) I istands}
    (dbname : list Z) (options : Options) (others : DB E H -> DB E H) (others_set : VersionSet -> VersionSet)
    (v : Version) (ps : list version) (step snapshot : Z) (c0 : Compaction) (input : I) (p : option nat) (compact : CompactionState H) (d : DB E H) :
  version_files_ok v -> versions ps -> considerate dbname others step -> cache_opens (LU := LU) dbname options -> 0 <= level_ c0 -> Forall file_ok (grandparents_ c0) ->
  work_ready ps step c0 snapshot compact d -> istands (map version_entry ps) input p ->
  exists compact' d' groups, compact_inputs dbname options others others_set v input compact d = (Ret (OK, compact'), d') /\ builder compact' = None /\
    Forall2 (finished (LU := LU) dbname options (env_of d')) (outputs compact') groups /\ Forall (fun o => out_number o ∈ pending d') (outputs compact') /\ NoDup (map out_number (outputs compact')) /\
    concat groups = kept (is_base v (level_ c0)) snapshot None ps /\
    forall rest u s r, key_ok u -> snapshot <= s -> around (is_base v (level_ c0)) ps rest -> reads (ps ++ rest) u s r <-> reads (concat groups ++ rest) u s r.
Proof.
  intros Hv Hps Ho Hcache Hl Hg Hr Hit. assert (Hcount : Z.of_nat (List.length ps) < 2 ^ 64) by (pose proof (co_numbers _ _ _ Ho d); pose proof (rdy_numbers _ _ _ _ _ _ Hr); nia).
  destruct (wp_Ret _ _ _ (wp_compact_inputs dbname options others others_set v Hv ps Hps Hcount step Ho Hcache c0 Hl Hg snapshot input compact d p Hr Hit)) as ([st compact'] & d' & E0 & c1 & groups & [= -> ->] & Hc & Hb & Hk).
  exists c1, d', groups. split_and!; [done|done|apply Hc| |apply Hc|done|].
  - eapply Forall_impl; [apply (cp_numbers _ _ _ _ _ _ _ Hc)|]. by intros o [].
  - intros rest u s r Hu Hs Ha. rewrite Hk. apply kept_reads; [done|done|apply (rdy_compaction _ _ _ _ _ _ Hr)|done|done].
Qed.

(** *** Three user keys and a snapshot at 4, while another thread takes file numbers *)

#[local] Existing Instance BytewiseComparator.

(** The tables of the environment, by their names and sizes. *)
#[local] Instance memory_tables : DbTables MemoryEnv EmptyIter := {|
  tc_Iterator _ n s e := Some match file_dir e !! TableFileName (literal "db") n with
    | Some i => if u64 (size (file_data e i)) =? s then NewEmptyIterator else NewErrorIterator (Corruption (literal "file is too short to be an sstable") [])
    | None => NewErrorIterator (NotFound (TableFileName (literal "db") n) [])
    end;
  tc_Evict _ e := e;
  tc_reads := {| tc_Get _ _ _ _ := ret (None, OK) |}
|}.

Definition work_versions : list version :=
  [sample_version "a" 5 kTypeValue "a5"; sample_version "a" 3 kTypeValue "a3"; sample_version "a" 1 kTypeValue "a1"; sample_version "b" 3 kTypeDeletion ""; sample_version "b" 2 kTypeValue "b2";
   sample_version "c" 6 kTypeValue "c6"].
Definition work_block : list Z := block_contents 2 (map version_entry work_versions).
Definition takes_a_number (d : DB MemoryEnv Z) : DB MemoryEnv Z := set_versions (set_vset (set_next_file_number (next_number d + 1) (mf_set (versions_ d))) (versions_ d)) d.
Definition work_db : DB MemoryEnv Z := mk_db first_manifest (mk_writing None None false None 0 None [] new_WriteBatch) (mk_background [(1, 4)] ∅ true None OK false [] 0).
Definition work_compaction : Compaction := new_Compaction sample_options 0.
Definition work_state : CompactionState Z := set_smallest_snapshot 4 (new_CompactionState work_compaction).

Lemma takes_a_number_considerate : considerate (V := memory_env) (literal "db") takes_a_number 1.
Proof. split; intros d; [by split|change (next_number (takes_a_number d)) with (next_number d + 1); lia|done|done]. Qed.

Lemma memory_tables_open : cache_opens (V := memory_env) (LU := bytewise_laws) (literal "db") sample_options.
Proof. intros e n i kvs Hi _. exists NewEmptyIterator. split; [|done]. cbn [tc_Iterator memory_tables]. by rewrite Hi, Z.eqb_refl. Qed.

#[local] Instance work_blocks : IteratorOps BlockIterator := BlockIterator_ops (C := InternalKeyComparator BytewiseComparator).

Lemma work_versions_ok : versions (LU := bytewise_laws) work_versions.
Proof.
  split; [repeat constructor; vm_compute; congruence|].
  assert (Hsrc : Forall (source (C := InternalKeyComparator BytewiseComparator) (L := internal_laws (L := bytewise_laws))) [map version_entry work_versions]).
  { repeat (constructor; cbn [map]); try (vm_compute; congruence); vm_compute; (reflexivity || (repeat constructor; cbn; congruence)). }
  by apply Forall_cons_1 in Hsrc as [H _].
Qed.

Lemma compaction_keeps_reads_witness : exists input compact' d' groups, (b ← new_Block work_block; NewIterator b) = Some input /\
  compact_inputs (V := memory_env) (literal "db") sample_options takes_a_number id new_Version input work_state work_db = (Ret (OK, compact'), d') /\
  concat groups = [sample_version "a" 5 kTypeValue "a5"; sample_version "a" 3 kTypeValue "a3"; sample_version "c" 6 kTypeValue "c6"] /\
  (reads (LU := bytewise_laws) work_versions (literal "a") 4 (Some (literal "a3")) <-> reads (LU := bytewise_laws) (concat groups) (literal "a") 4 (Some (literal "a3"))).
Proof.
  destruct (block_contents_stands (C := InternalKeyComparator BytewiseComparator) 2 (map version_entry work_versions)) as (input & Ei & Hi); [lia|vm_compute; reflexivity|].
  destruct (compaction_keeps_reads (V := memory_env) (LU := bytewise_laws) (istands := block_stands) (literal "db") sample_options takes_a_number id new_Version work_versions 1 4 work_compaction input None work_state work_db)
    as (compact' & d' & groups & E & _ & _ & _ & _ & Hk & Hr).
  - assert (Hnil : forall level, files_at new_Version level = []) by (intros level; unfold files_at, new_Version; cbn [files_]; apply nth_repeat). split; intros level; rewrite Hnil; [by apply Forall_nil|intros _; split; [by apply Forall_nil|split; [constructor|reflexivity]]|reflexivity].
  - exact work_versions_ok.
  - exact takes_a_number_considerate.
  - exact memory_tables_open.
  - done.
  - constructor.
  - split; [split; [reflexivity|split; [reflexivity|vm_compute; reflexivity]]|by split|reflexivity|by split|split; vm_compute; congruence].
  - exact Hi.
  - exists input, compact', d', groups. split; [exact Ei|]. split; [exact E|]. split; [rewrite Hk; vm_compute; reflexivity|].
    specialize (Hr [] (literal "a") 4 (Some (literal "a3"))). rewrite !app_nil_r in Hr. apply Hr; [vm_compute; repeat constructor; congruence|lia|]. split; [constructor|]. intros x y Hx. by apply not_elem_of_nil in Hx.
Defined.

(** ** Options out of range *)

(** Bounds are kept for the values that an int has. *)
Lemma ClipToRange_range n lo hi : - 2 ^ 31 <= n < 2 ^ 31 -> lo <= hi -> - 2 ^ 31 <= lo -> hi < 2 ^ 31 -> ClipToRange n lo hi = Z.max lo (Z.min n hi).
Proof.
  intros Hn Hle Hlo Hhi. assert (Hs : forall x, - 2 ^ 31 <= x < 2 ^ 31 -> s32 x = x) by (intros x Hx; apply swrap_fits; lia). unfold ClipToRange. rewrite (Hs n) by done.
  destruct (Z.ltb_spec hi n); rewrite Hs by lia; [destruct (Z.ltb_spec hi lo)|destruct (Z.ltb_spec n lo)]; lia.
Qed.

(** Of larger ones some are taken for negative ones: a buffer of 2^31 bytes becomes one of 64 KB, not of 1 GB. *)
Lemma ClipToRange_wraps : ClipToRange (2 ^ 31) (Z.shiftl 64 10) (Z.shiftl 1 30) = 2 ^ 16.
Proof. reflexivity. Qed.
